(* ===== verification/_CoqProject ===== *)
-Q . S2P
Prelude.v
Ring.v
Fifo.v
Microkit.v
CLib.v
RingQueue.v
NetQueue.v
SerialQueue.v
Bitarray.v
Fsmalloc.v
SerialVirtTx.v
SerialVirtRx.v
Ialloc.v
BlkQueue.v
BlkVirtState.v
BlkPartition.v
BlkVirt.v
I2cQueue.v
BufferLedger.v
NetVirtRx.v
NetRxSystem.v
NetVirtTx.v
NetCopy.v
I2cVirt.v
SoundQueue.v
SoundVirt.v
NetSignal.v
Udivmod.v
TimerTable.v
TimerArm.v
TimerGoldfish.v
TimerMeson.v
TimerJh7110.v
TimerImx.v
TimerService.v
SpiQueue.v
SpiVirt.v
HwRing.v
HwRecycle.v
EthImx.v
EthMeson.v
EthDwmac.v
EthRegs.v
EthDwmacInit.v
EthImxInit.v
EthMesonInit.v
VirtQueue.v
VirtioBlk.v
VirtioBlkInv.v
VirtioBlkSpec.v
VirtioBlkReq.v
VirtioBlkSystem.v
VirtioNet.v
VirtioNetInv.v
VirtioNetSpec.v
VirtioNetOps.v
VirtioNetSystem.v
UartDev.v
UartArm.v
UartRaw.v
UartImx.v
UartMeson.v
UartNs16550a.v
GpuQueue.v
GpuVirt.v
GpuSpec.v
GpuRel.v
GpuClient.v
GpuDriver.v
GpuFlight.v
GpuInit.v
GpuTyping.v
GpuSystem.v
GpuCorrect.v
