(* ===== verification/Prelude.v ===== *)
(** * The seL4 Device Driver Framework: a model of its core in Rocq

    sDDF splits device access into protection domains that talk through rings
    in shared memory and notifications.  Drivers own a device; virtualisers
    multiplex it between clients that trust neither each other nor, in part,
    the virtualiser; copiers isolate clients from device buffers.  This library
    models the C code of the queues, the virtualisers, the ring handling of
    network drivers, the serial drivers, the virtio drivers for blocks and
    networks, the timer drivers and the utility library
    (the C builds: the Pancake alternatives selected by preprocessor flags are
    not modelled).

    ** How C is modelled

    A machine integer is a [Z] with its wrap-around written out ([u8] .. [u64],
    [s32]).  A function is a term of the state monad [M S] over the globals it
    uses, with faults ([AssertFail], [OutOfBounds], [DivByZero],
    [IntOverflow], [OutOfFuel]) as errors; [with_local] adds the local
    variables of a loop.  The statement [wp m s Q] is total: from [s] the code
    returns without a fault, in a result and state that satisfy [Q].  The bound
    of a [loop] is computed from the state it starts in (the length of the
    queue it drains); [OutOfFuel] is a fault, so each theorem about a handler
    also shows that its bound is enough and its loops terminate.  Calls into the
    Microkit are events in a list, in order (Microkit.v).  Queues in shared
    memory are part of the state; another domain that runs between two calls
    of a handler shows up as an arbitrary well-formed state at the next call.
    NetSignal.v is about what happens when domains interleave within a loop, and
    the serial drivers and the virtio drivers run against a script of what the
    device and the virtualisers do between any two looks of the driver at shared
    state; the timer drivers run against a clock, which moves by an
    arbitrary script between two looks at it and never runs backwards.

    ** Files and code

    - Prelude: machine integers, the monad and its rules.  Ring: rings with
      free-running indices, for any index width.  Fifo: the abstract queue, the
      class [FifoLaws] of what an implementation promises and the refinement
      that follows.  RingQueue: the queues with 32-bit indices, behind the class
      [RingLens].  Microkit: notifications.
    - CLib (include/sddf/util/string.h, util.h), Ialloc (ialloc.h), Bitarray and
      Fsmalloc (util/bitarray.c, util/fsmalloc.c), Udivmod (udivmodti4.h).
    - NetQueue (include/sddf/network/queue.h), NetVirtRx, NetVirtTx and NetCopy
      (network/components/virt_rx.c, virt_tx.c, copy.c).  BufferLedger and
      NetRxSystem compose virtualiser, driver and clients into a system;
      NetSignal interleaves producer and consumer of one ring.
    - BlkQueue (include/sddf/blk/queue.h), BlkVirtState, BlkPartition and
      BlkVirt (blk/components/virt.c, partitioning.c and their headers).
    - SerialQueue (include/sddf/serial/queue.h), SerialVirtTx, SerialVirtRx
      (serial/components/virt_tx.c, virt_rx.c).
    - I2cQueue, I2cVirt (i2c/components/virt.c); SpiQueue, SpiVirt
      (spi/components/virt.c); SoundQueue, SoundVirt (sound/components/virt.c).
    - TimerTable: the table of client timeouts that every timer driver keeps,
      the clock, the abstract timer service and the class [TimerDriver] of the
      drivers, with [TimerDriverOk] its contract, from which the refinement of
      the service by any run of a driver follows ([timer_driver_refines]).
      TimerArm, TimerGoldfish, TimerMeson, TimerJh7110 and TimerImx
      (drivers/timer/*/timer.c) model a driver each on its registers and
      discharge the contract.  TimerService: a client
      (include/sddf/timer/client.h) on the drivers whose clock reads right
      (all but i.MX).
    - HwRing: rings of descriptors in memory shared with a network device, with
      the device as an environment that completes descriptors between any two
      accesses of the driver.  HwRecycle: what the drivers share that give bad
      frames back to the device.  EthImx, EthMeson and EthDwmac
      (drivers/network/imx/ethernet.c, drivers/network/meson/ethernet.c,
      drivers/network/dwmac-5.10a/ethernet.c).  EthRegs: the registers of a
      device that is set up, which does with them what a parameter [settle]
      says; a poll has as many rounds as the device has reads left to be busy,
      and one more, as fuel.  EthImxInit, EthMesonInit and EthDwmacInit: [init]
      of the three drivers.
    - UartDev: a UART with the virtualisers on the other side of its queues, and
      the loops that all serial drivers have, over the class [UartRegs] of their
      registers.  UartRaw: the interrupt loop of imx and meson, over the class
      [RawStatus]; its fuel is an argument, [raw_bound] being enough.  UartArm,
      UartImx, UartMeson and UartNs16550a (drivers/serial/*/uart.c).
    - VirtQueue: virtqueues (include/sddf/virtio/virtio_queue.h, virtio.h).
      VirtioBlk (drivers/blk/virtio/block.c, block.h), with the device and the
      virtualiser as acts on the shared memory; the acts are what the virtio
      specification and queue.h let the other side do.  VirtioBlkInv: the
      invariant and that acts keep it; VirtioBlkSpec and VirtioBlkReq: the
      responses and requests of the driver; VirtioBlkSystem: initialisation,
      runs and the theorems.
    - VirtioNet (drivers/network/virtio/ethernet.c, ethernet.h), in the same
      way with a lane per direction: an operation takes the direction, the two C
      functions being its instances.  VirtioNetInv: the invariant of a lane and
      that acts keep it; VirtioNetSpec: one buffer provided and one handed on;
      VirtioNetOps: the loops and the interrupt handler; VirtioNetSystem:
      initialisation, runs and the theorems.
    - GpuQueue (include/sddf/gpu/queue.h, gpu.h, events.h), GpuVirt
      (gpu/components/virt.c).  GpuSpec: the abstract virtualiser on lists and
      finite maps; GpuRel, GpuClient and GpuDriver: its refinement by the code;
      GpuTyping: the typing judgement of requests; GpuFlight: the invariant
      of the requests in flight; GpuInit, GpuSystem and GpuCorrect:
      initialisation, the system with clients and driver, and the theorems.

    A record holds the globals of a component, a definition named after a C
    function models that function, and [f_body], [f_outer], [f_more] the body
    and the test of a loop of [f].

    ** What is shown

    - Queues: each operation on a well-formed ring is that of a bounded list
      ([net_queue_refines_fifo], [blk_req_queue_refines_fifo],
      [serial_transfer_all_colour_correct]), whatever the indices.
    - Network: exact functional behaviour of both directions and of the copier
      ([rx_return_correct], [rx_provide_correct], [tx_provide_correct],
      [tx_return_correct], [copy_rx_return_correct]); in a system of
      driver, virtualiser and clients under any interleaving no buffer is lost,
      duplicated or given to the driver while a client holds it
      ([rx_system_safe], from [init_establishes]); no wake-up is lost
      ([net_signal_no_lost_wakeup]).
    - Block: a client reaches only its own memory and, when that is aligned to
      blocks, its own partition ([handle_client_isolates]; what is reached
      otherwise is [get_drv_block_number_in_partition]), requests and responses are translated,
      bookkept and delivered exactly ([handle_client_correct],
      [handle_driver_correct]); partition tables are read as MBR and GPT
      prescribe.
    - Serial, I2C, SPI, sound: refinement of, or exact agreement with, an
      abstract virtualiser on lists; the I2C security list is a set of locks.
      The sound virtualiser overruns an array on an entry for stream 16, and
      only then ([sound_virt_refines], [sound_client_isolated]).
    - GPU: the handlers refine the abstract virtualiser
      ([gpu_requests_refine], [gpu_responses_refine]), accept exactly the
      typed ones of the requests whose sums do not wrap
      ([gpu_accepts_iff_typed]), and in a system with
      clients and a driver that keep their promises never fault, with one owner
      for each resource ([gpu_system_safe]).
    - Timer: any run of a driver is one of the abstract service, in which a
      timeout is answered at its channel, never early, and every interrupt
      serves all that is due ([timer_deadlines], [meson_timer_serves],
      [jh_timer_serves], [imx_timer_serves]); a client is notified exactly once
      ([timer_client_notified_once]); where the time of the i.MX and JH7110 drivers
      goes back ([imx_pending_wrap_goes_back], [jh_busy_goes_back]).
    - Network drivers: between a virtualiser and a device that completes frames
      at any moment, every buffer stays in the driver's queues, its ring or
      the queue it came from ([eth_imx_notified_conserves],
      [eth_meson_notified_conserves], [eth_dwmac_notified_conserves]), each ring
      operation moves what it should and signals when it should
      ([eth_imx_ring_operations], [eth_meson_rx_return_correct],
      [eth_dwmac_provides]); [init] ends, programs the device and leaves the
      driver ready ([eth_imx_init_programs], [eth_meson_init_programs],
      [eth_dwmac_init_programs]).
    - Serial drivers: under any interleaving with device and virtualisers they
      return, lose no character and do not wait for an interrupt that is
      disabled ([uart_arm_never_deaf], [uart_imx_runs], [uart_meson_runs],
      [uart_ns16550a_tx_never_stalls]), but for the cases of
      [uart_ns16550a_goes_deaf], [uart_arm_tx_provide_stalls] and
      [uart_imx_full_queue_livelock]; what they program as a baud rate
      ([uart_meson_baud_exact], [uart_ns16550a_baud_closest]).
    - Virtio block driver: with a device that completes requests in any order
      and at any time, it never fails an assertion, asks the device for what it
      was asked, and answers each request once ([virtio_blk_serves],
      [virtio_blk_all_answered]), but with the status of another
      ([virtio_blk_failure_reported_ok]).
    - Virtio network driver: the same of both directions
      ([virtio_net_serves]), with nothing left lying once all are quiet
      ([virtio_net_nothing_left]); the headers of the two directions overlap
      ([virtio_net_rx_header_overwrites_tx]), and three runs show what else goes
      wrong ([virtio_net_sends_received_header], [virtio_net_rx_starves],
      [virtio_net_start_events]).
    - Utilities: string routines, CRC, allocators, bit arrays, division.

    Theorems whose names end in [_wraps], [_asserts], [_overruns],
    [_duplicates] and the like state where the code misbehaves.

    ** Not modelled

    Register-level device drivers apart from the timer, serial, virtio and
    network drivers above: those of I2C, SPI, GPU and SD cards; of the serial
    drivers the virtio console, and zynqmp, which does not compile at this
    commit; what writes to registers do beyond the values the registers hold;
    the vendored lwIP and its glue; printf and the C library; libco and the I2C
    device libraries written on it; the ARP component, which does not compile at
    this commit; benchmarks, examples and tools.  Memory is sequentially
    consistent: the fences of the queues have no effect here.  Sizes of shared
    regions are those the system description promises, as hypotheses
    ([.._wf], [.._ok]) of the theorems. *)

From stdpp Require Export base list numbers option sets.
From Stdlib Require Export ZArith Lia.

#[global] Open Scope Z_scope.

(** ** Machine integers

    A C unsigned integer of width [w] is a [Z] in [[0, 2^w)]; arithmetic that
    wraps is written with [u8 .. u64], conversions to [int] with [s32]. *)

Definition u8 (x : Z) : Z := x mod 2 ^ 8.
Definition u16 (x : Z) : Z := x mod 2 ^ 16.
Definition u32 (x : Z) : Z := x mod 2 ^ 32.
Definition u64 (x : Z) : Z := x mod 2 ^ 64.
Definition u128 (x : Z) : Z := x mod 2 ^ 128.

(** Conversion to a 32-bit two's complement [int]. *)
Definition s32 (x : Z) : Z :=
  let y := x mod 2 ^ 32 in if y <? 2 ^ 31 then y else y - 2 ^ 32.

Definition is_u8 (x : Z) : Prop := 0 <= x < 2 ^ 8.
Definition is_u16 (x : Z) : Prop := 0 <= x < 2 ^ 16.
Definition is_u32 (x : Z) : Prop := 0 <= x < 2 ^ 32.
Definition is_u64 (x : Z) : Prop := 0 <= x < 2 ^ 64.

Create HintDb uint.
Create Rewrite HintDb uint_rw.

Lemma u8_range (x : Z) : is_u8 (u8 x).
Proof. apply Z.mod_pos_bound; lia. Qed.

Lemma u16_range (x : Z) : is_u16 (u16 x).
Proof. apply Z.mod_pos_bound; lia. Qed.

Lemma u32_range (x : Z) : is_u32 (u32 x).
Proof. apply Z.mod_pos_bound; lia. Qed.

Lemma u64_range (x : Z) : is_u64 (u64 x).
Proof. apply Z.mod_pos_bound; lia. Qed.

Lemma u16_small (x : Z) : is_u16 x -> u16 x = x.
Proof. apply Z.mod_small. Qed.

Lemma u32_small (x : Z) : is_u32 x -> u32 x = x.
Proof. apply Z.mod_small. Qed.

Lemma u64_small (x : Z) : is_u64 x -> u64 x = x.
Proof. apply Z.mod_small. Qed.

#[export] Hint Resolve u8_range u16_range u32_range u64_range : uint.
#[export] Hint Unfold u8 u16 u32 u64 is_u8 is_u16 is_u32 is_u64 : uint.
#[export] Hint Rewrite u16_small u32_small u64_small
  using (autounfold with uint in *; lia) : uint_rw.

(** [uint_lia] unfolds the machine integers into [mod] and calls [lia], which
    eliminates the quotients. *)
Ltac uint_lia :=
  repeat match goal with
  | H : context [Z.modulo _ _] |- _ => revert H
  end;
  intros; unfold u8, u16, u32, u64, is_u8, is_u16, is_u32, is_u64 in *;
  Z.div_mod_to_equations; lia.

(** ** Faults, results and the state monad of the handlers

    A C function is a state transformer that may fault.  [AssertFail] is a
    failed [assert] (the code is modelled as built with
    [CONFIG_DEBUG_BUILD], where it traps), [OutOfBounds] an access outside an
    array or a region, [DivByZero] an integer division by zero,
    [IntOverflow] an overflow of the signed type [int] and
    [OutOfFuel] a loop that exceeds the bound the model gives it; theorems
    that a handler returns [Ok] exclude all five. *)

Inductive fault : Type := AssertFail | OutOfBounds | DivByZero | IntOverflow | OutOfFuel.

#[export] Instance fault_eq_dec : EqDecision fault.
Proof. solve_decision. Defined.

Inductive res (A : Type) : Type :=
| Ok (a : A)
| Fault (f : fault).
Arguments Ok {A} a.
Arguments Fault {A} f.

#[export] Instance res_eq_dec {A} `{EqDecision A} : EqDecision (res A).
Proof. solve_decision. Defined.

#[export] Instance res_ret : MRet res := fun A a => Ok a.
#[export] Instance res_bind : MBind res := fun A B k r =>
  match r with Ok a => k a | Fault f => Fault f end.

Definition M (S A : Type) : Type := S -> res (A * S).

#[export] Instance M_ret {S} : MRet (M S) := fun A a s => Ok (a, s).
#[export] Instance M_bind {S} : MBind (M S) := fun A B k m s =>
  match m s with
  | Ok (a, s') => k a s'
  | Fault f => Fault f
  end.

Definition get {S} : M S S := fun s => Ok (s, s).
Definition put {S} (s : S) : M S unit := fun _ => Ok (tt, s).
Definition gets {S A} (f : S -> A) : M S A := fun s => Ok (f s, s).
Definition modify {S} (f : S -> S) : M S unit := fun s => Ok (tt, f s).
Definition raise {S A} (f : fault) : M S A := fun _ => Fault f.
Definition lift {S A} (r : res A) : M S A := fun s =>
  match r with Ok a => Ok (a, s) | Fault f => Fault f end.

(** [assert(expr)] of include/sddf/util/util.h in a debug build. *)
Definition assert_ {S} (b : bool) : M S unit :=
  if b then mret tt else raise AssertFail.

(** Run an operation on a component of the state. *)
Definition zoom {S T A} (view : S -> T) (set : T -> S -> S) (m : M T A) : M S A :=
  fun s => match m (view s) with
           | Ok (a, t) => Ok (a, set t s)
           | Fault f => Fault f
           end.

(** Run an operation on the [i]-th element of an array. *)
Definition zoom_at {T A} (i : Z) (m : M T A) : M (list T) A := fun l =>
  if i <? 0 then Fault OutOfBounds else
  match l !! Z.to_nat i with
  | None => Fault OutOfBounds
  | Some t => match m t with
              | Ok (a, t') => Ok (a, <[Z.to_nat i := t']> l)
              | Fault f => Fault f
              end
  end.

(** Run an operation on the element [i] of the array in a component of the
    state. *)
Definition zoom_nth {S T A} (view : S -> list T) (set : list T -> S -> S) (i : Z) (m : M T A) : M S A :=
  zoom view set (zoom_at i m).

(** Local variables [l] of a C function, in scope of [m]. *)
Definition with_local {S L A} (l : L) (m : M (S * L) A) : M S (A * L) := fun s =>
  match m (s, l) with
  | Ok (a, (s', l')) => Ok ((a, l'), s')
  | Fault f => Fault f
  end.
Definition on_state {S L A} (m : M S A) : M (S * L) A := zoom fst (fun s p => (s, p.2)) m.
Definition set_local {S L} (l : L) : M (S * L) unit := modify (fun p => (p.1, l)).

(** ** Array accesses and division, with their faults *)

Definition load {A} (l : list A) (i : Z) : res A :=
  if i <? 0 then Fault OutOfBounds else
  match l !! Z.to_nat i with
  | Some x => Ok x
  | None => Fault OutOfBounds
  end.

Definition store {A} (l : list A) (i : Z) (x : A) : res (list A) :=
  if (i <? 0) || (Z.of_nat (length l) <=? i) then Fault OutOfBounds
  else Ok (<[Z.to_nat i := x]> l).

(** Unsigned remainder and quotient. *)
Definition umod (a b : Z) : res Z := if b =? 0 then Fault DivByZero else Ok (a mod b).
Definition udiv (a b : Z) : res Z := if b =? 0 then Fault DivByZero else Ok (a / b).

(** ** Loops *)

(** [while (c) body], cut off after [fuel] iterations. *)
Fixpoint while {S} (fuel : nat) (c : S -> bool) (body : M S unit) : M S unit :=
  fun s =>
    if c s then
      match fuel with
      | O => Fault OutOfFuel
      | Datatypes.S fuel' => (body ;; while fuel' c body) s
      end
    else Ok (tt, s).

(** [while (c) body] with the bound computed from the state the loop starts
    in. *)
Definition loop {S} (bound : S -> nat) (c : S -> bool) (body : M S unit) : M S unit :=
  fun s => while (bound s) c body s.

(** [for (i in l) body(i)]. *)
Fixpoint for_each {S A} (l : list A) (body : A -> M S unit) : M S unit :=
  match l with
  | [] => mret tt
  | x :: l' => body x ;; for_each l' body
  end.

(** [for (i = 0; i < n; i++) body(i)]. *)
Definition for_upto {S} (n : Z) (body : Z -> M S unit) : M S unit :=
  for_each (seqZ 0 n) body.

(** [if (b) m]. *)
Definition when {S} (b : bool) (m : M S unit) : M S unit := if b then m else mret tt.

(** ** Weakest preconditions

    [wp m s Q]: run from [s], [m] returns without a fault, and its result and
    final state satisfy [Q].  It is a total-correctness statement. *)

Definition wp {S A} (m : M S A) (s : S) (Q : A -> S -> Prop) : Prop :=
  match m s with
  | Ok (a, s') => Q a s'
  | Fault _ => False
  end.
Arguments wp {S A} m s Q : simpl never.

Section wp.
Context {S : Type}.
Implicit Types s : S.

Lemma wp_ok {A} (m : M S A) s Q :
  wp m s Q <-> exists a s', m s = Ok (a, s') /\ Q a s'.
Proof.
  unfold wp. destruct (m s) as [[a s']|f]; split; intros H.
  - eauto.
  - destruct H as (? & ? & [= <- <-] & ?); done.
  - done.
  - destruct H as (? & ? & ? & ?); done.
Qed.

Lemma wp_elim {A} (m : M S A) s Q : wp m s Q -> exists a s', m s = Ok (a, s') /\ Q a s'.
Proof. apply wp_ok. Qed.

Lemma wp_intro {A} (m : M S A) s a s' (Q : A -> S -> Prop) :
  m s = Ok (a, s') -> Q a s' -> wp m s Q.
Proof. intros H HQ. unfold wp. by rewrite H. Qed.

(** A run that is known. *)
Lemma wp_run {A} (m : M S A) s a s' (Q : A -> S -> Prop) : m s = Ok (a, s') -> wp m s Q -> Q a s'.
Proof. intros H. unfold wp. by rewrite H. Qed.

Lemma wp_mono {A} (m : M S A) s (Q Q' : A -> S -> Prop) :
  wp m s Q -> (forall a s', Q a s' -> Q' a s') -> wp m s Q'.
Proof. unfold wp. destruct (m s) as [[a s']|f]; eauto. Qed.

Lemma wp_conj {A} (m : M S A) s (Q Q' : A -> S -> Prop) :
  wp m s Q -> wp m s Q' -> wp m s (fun a s' => Q a s' /\ Q' a s').
Proof. unfold wp. destruct (m s) as [[a s']|f]; eauto. Qed.

Lemma wp_bind {A B} (m : M S A) (k : A -> M S B) s Q :
  wp m s (fun a s' => wp (k a) s' Q) -> wp (m ≫= k) s Q.
Proof. unfold wp, mbind, M_bind. destruct (m s) as [[a s']|f]; eauto. Qed.

Lemma wp_ret {A} (a : A) s (Q : A -> S -> Prop) : Q a s -> wp (mret a) s Q.
Proof. done. Qed.

Lemma wp_get s (Q : S -> S -> Prop) : Q s s -> wp get s Q.
Proof. done. Qed.

Lemma wp_put s s' (Q : unit -> S -> Prop) : Q tt s' -> wp (put s') s Q.
Proof. done. Qed.

Lemma wp_gets {A} (f : S -> A) s (Q : A -> S -> Prop) : Q (f s) s -> wp (gets f) s Q.
Proof. done. Qed.

Lemma wp_modify (f : S -> S) s (Q : unit -> S -> Prop) : Q tt (f s) -> wp (modify f) s Q.
Proof. done. Qed.

Lemma wp_lift {A} (r : res A) a s (Q : A -> S -> Prop) :
  r = Ok a -> Q a s -> wp (lift r) s Q.
Proof. intros -> ?. done. Qed.

Lemma wp_assert (b : bool) s (Q : unit -> S -> Prop) : b = true -> Q tt s -> wp (assert_ b) s Q.
Proof. intros -> ?. done. Qed.

Lemma wp_when (b : bool) m s (Q : unit -> S -> Prop) :
  (b = true -> wp m s Q) -> (b = false -> Q tt s) -> wp (when b m) s Q.
Proof. destruct b; cbn; intros; [auto|]. by apply wp_ret; auto. Qed.

Lemma wp_zoom {T A} (view : S -> T) (set : T -> S -> S) (m : M T A) s Q :
  wp m (view s) (fun a t => Q a (set t s)) -> wp (zoom view set m) s Q.
Proof. unfold wp, zoom. destruct (m (view s)) as [[a t]|f]; eauto. Qed.

(** The rule for loops: an invariant preserved by the body, and a measure that
    the body decreases and that starts within the fuel. *)
Lemma wp_while (I : S -> Prop) (mu : S -> nat) fuel (c : S -> bool) (body : M S unit) s :
  I s -> (mu s <= fuel)%nat ->
  (forall s, I s -> c s = true -> wp body s (fun _ s' => I s' /\ (mu s' < mu s)%nat)) ->
  wp (while fuel c body) s (fun _ s' => I s' /\ c s' = false).
Proof.
  revert s. induction fuel as [|fuel IH]; intros s HI Hmu Hbody; unfold wp; cbn;
    destruct (c s) eqn:Hc; try done.
  - specialize (Hbody s HI Hc). unfold wp in Hbody.
    destruct (body s) as [[[] s']|]; [lia|done].
  - specialize (Hbody s HI Hc) as Hb. unfold mbind, M_bind. unfold wp in Hb.
    destruct (body s) as [[[] s']|]; [|done].
    apply IH; [tauto|lia|done].
Qed.

Lemma wp_loop (I : S -> Prop) (mu : S -> nat) (c : S -> bool) (body : M S unit) s
  (Q : unit -> S -> Prop) :
  I s ->
  (forall s, I s -> c s = true -> wp body s (fun _ s' => I s' /\ (mu s' < mu s)%nat)) ->
  (forall s', I s' -> c s' = false -> Q tt s') ->
  wp (loop mu c body) s Q.
Proof.
  intros HI Hbody HQ. eapply wp_mono.
  - unfold loop. eapply (wp_while I mu); eauto.
  - intros [] s' [? ?]. auto.
Qed.

(** The same with a bound that need not be the measure. *)
Lemma wp_loop_le (I : S -> Prop) (mu bound : S -> nat) (c : S -> bool) (body : M S unit) s
  (Q : unit -> S -> Prop) :
  I s -> (mu s <= bound s)%nat ->
  (forall s, I s -> c s = true -> wp body s (fun _ s' => I s' /\ (mu s' < mu s)%nat)) ->
  (forall s', I s' -> c s' = false -> Q tt s') ->
  wp (loop bound c body) s Q.
Proof.
  intros HI Hb Hbody HQ. eapply wp_mono.
  - unfold loop. eapply (wp_while I mu); eauto.
  - intros [] s' [? ?]. auto.
Qed.

(** The rule for [for]: the invariant speaks of the elements done so far. *)
Lemma wp_for_each {A} (I : list A -> S -> Prop) (l : list A) (body : A -> M S unit) s
  (Q : unit -> S -> Prop) :
  I [] s ->
  (forall pre x post s, l = pre ++ x :: post -> I pre s ->
     wp (body x) s (fun _ s' => I (pre ++ [x]) s')) ->
  (forall s', I l s' -> Q tt s') ->
  wp (for_each l body) s Q.
Proof.
  intros HI Hbody HQ.
  assert (Hgen : forall post pre s, l = pre ++ post -> I pre s ->
            wp (for_each post body) s (fun _ s' => I l s')).
  { induction post as [|x post IH]; intros pre s' -> Hpre; cbn.
    - apply wp_ret. by rewrite app_nil_r.
    - apply wp_bind. eapply wp_mono; [by eapply Hbody|].
      intros [] s'' HI'. apply (IH (pre ++ [x])); [|done].
      by rewrite <- app_assoc. }
  eapply wp_mono; [by apply (Hgen l [])|]. intros [] s'. auto.
Qed.

End wp.

Lemma wp_zoom_at {T A} (i : Z) (m : M T A) (l : list T) t Q :
  0 <= i -> l !! Z.to_nat i = Some t ->
  wp m t (fun a t' => Q a (<[Z.to_nat i := t']> l)) ->
  wp (zoom_at i m) l Q.
Proof.
  intros Hi Hl Hm. unfold wp, zoom_at. rewrite (proj2 (Z.ltb_ge i 0)), Hl by done.
  unfold wp in Hm. destruct (m t) as [[a t']|f]; done.
Qed.

Lemma wp_zoom_nth {S T A} (view : S -> list T) (set : list T -> S -> S) (i : Z) (m : M T A) s t
  (Q : A -> S -> Prop) :
  0 <= i -> view s !! Z.to_nat i = Some t ->
  wp m t (fun a t' => Q a (set (<[Z.to_nat i := t']> (view s)) s)) ->
  wp (zoom_nth view set i m) s Q.
Proof. intros Hi Hl Hm. apply wp_zoom. by eapply wp_zoom_at. Qed.

Lemma wp_with_local {S L A} (l : L) (m : M (S * L) A) s (Q : A * L -> S -> Prop) :
  wp m (s, l) (fun a p => Q (a, p.2) p.1) -> wp (with_local l m) s Q.
Proof. unfold wp, with_local. by destruct (m (s, l)) as [[a [s' l']]|f]. Qed.

Lemma wp_on_state {S L A} (m : M S A) (s : S) (l : L) (Q : A -> S * L -> Prop) :
  wp m s (fun a s' => Q a (s', l)) -> wp (on_state m) (s, l) Q.
Proof. intros. by apply wp_zoom. Qed.

Lemma wp_set_local {S L} (s : S) (l l' : L) (Q : unit -> S * L -> Prop) :
  Q tt (s, l') -> wp (set_local l') (s, l) Q.
Proof. done. Qed.

(** [while (reprocess)] whose body clears [reprocess] for good. *)
Lemma wp_reprocess {S} (body : M (S * bool) unit) s (Q : unit -> S -> Prop) :
  wp body (s, true) (fun _ p => p.2 = false /\ Q tt p.1) ->
  wp (with_local true (loop (fun _ => 2%nat) snd body);; mret tt) s Q.
Proof.
  intros H. apply wp_bind, wp_with_local. unfold loop, while. cbn [snd]. apply wp_bind.
  eapply wp_mono; [exact H|]. intros [] [s' b] [Hb HQ]. cbn [snd fst] in *. subst b. done.
Qed.

(** [wp_step] runs one primitive of the monad. *)
Ltac wp_step :=
  lazymatch goal with
  | |- wp (mbind _ _) _ _ => apply wp_bind
  | |- wp (mret _) _ _ => apply wp_ret
  | |- wp get _ _ => apply wp_get
  | |- wp (put _) _ _ => apply wp_put
  | |- wp (gets _) _ _ => apply wp_gets
  | |- wp (modify _) _ _ => apply wp_modify
  | |- wp (zoom _ _ _) _ _ => apply wp_zoom
  | |- wp (on_state _) _ _ => apply wp_on_state
  | |- wp (set_local _) _ _ => apply wp_set_local
  | |- wp (with_local _ _) _ _ => apply wp_with_local
  | |- wp (when _ _) _ _ => apply wp_when; intros
  end.
Ltac wp_steps := repeat (wp_step; cbn beta).

(** [wp_use H]: continue from a specification of the next operation. *)
Ltac wp_use H := eapply wp_mono; [eapply H|]; eauto.

(** ** Lemmas on the accesses *)

Lemma load_ok {A} (l : list A) (i : Z) (x : A) :
  0 <= i -> l !! Z.to_nat i = Some x -> load l i = Ok x.
Proof. intros Hi Hl. unfold load. by rewrite (proj2 (Z.ltb_ge i 0)), Hl by done. Qed.

Lemma store_ok {A} (l : list A) (i : Z) (x : A) :
  0 <= i < Z.of_nat (length l) -> store l i x = Ok (<[Z.to_nat i := x]> l).
Proof.
  intros [? ?]. unfold store.
  rewrite (proj2 (Z.ltb_ge i 0)), (proj2 (Z.leb_gt _ _)) by done. done.
Qed.

Lemma umod_ok (a b : Z) : b <> 0 -> umod a b = Ok (a mod b).
Proof. intros ?. unfold umod. by rewrite (proj2 (Z.eqb_neq b 0)). Qed.

Lemma udiv_ok (a b : Z) : b <> 0 -> udiv a b = Ok (a / b).
Proof. intros ?. unfold udiv. by rewrite (proj2 (Z.eqb_neq b 0)). Qed.

(** More fuel does not change the result of a loop that returns. *)
Lemma while_fuel_mono {S} (c : S -> bool) (body : M S unit) (n m : nat) s r :
  (n <= m)%nat -> while n c body s = Ok r -> while m c body s = Ok r.
Proof.
  revert m s. induction n as [|n IH]; intros m s Hle; destruct m as [|m]; cbn;
    destruct (c s); try done; try lia.
  unfold mbind, M_bind. destruct (body s) as [[[] s']|]; [|done]. apply IH. lia.
Qed.

(** The two forms of a list. *)
Lemma nil_or_cons {A} (l : list A) : l = [] \/ exists x l', l = x :: l'.
Proof. destruct l; eauto. Qed.

(** The element reached by a [for (i = 0; i < n; i++)] loop is the number of
    iterations done. *)
Lemma lookup_seqZ_prefix (n i : Z) (pre post : list Z) :
  seqZ 0 n = pre ++ i :: post -> i = Z.of_nat (length pre) /\ 0 <= i < n.
Proof.
  intros E. assert (seqZ 0 n !! length pre = Some i) as [Hi Hlt]%lookup_seqZ.
  { rewrite E. by apply list_lookup_middle. }
  lia.
Qed.

(** ** Overwriting a segment of a list *)

(** [l] with the elements from [off] on replaced by [xs]. *)
Definition splice {A} (l : list A) (off : nat) (xs : list A) : list A :=
  take off l ++ xs ++ drop (off + length xs) l.

Section splice.
Context {A : Type}.
Implicit Types l xs : list A.
Open Scope nat_scope.

Lemma splice_lookup l off xs i :
  off + length xs <= length l ->
  splice l off xs !! i = if decide (off <= i < off + length xs) then xs !! (i - off) else l !! i.
Proof.
  intros Hle. unfold splice. case_decide as Hi.
  - rewrite lookup_app_r by (rewrite length_take; lia). rewrite length_take.
    rewrite lookup_app_l by lia. f_equal. lia.
  - destruct (decide (i < off)).
    + rewrite lookup_app_l by (rewrite length_take; lia). by apply lookup_take_lt.
    + rewrite !lookup_app_r by (rewrite ?length_take; lia). rewrite length_take, lookup_drop. f_equal. lia.
Qed.

Lemma length_splice l off xs : off + length xs <= length l -> length (splice l off xs) = length l.
Proof. intros. unfold splice. rewrite !length_app, length_take, length_drop. lia. Qed.

Lemma splice_nil l off : splice l off [] = l.
Proof. unfold splice. cbn. by rewrite Nat.add_0_r, take_drop. Qed.

Lemma splice_insert_l l off b xs :
  off + S (length xs) <= length l -> splice (<[off := b]> l) (S off) xs = splice l off (b :: xs).
Proof.
  intros Hle. apply list_eq. intros i.
  rewrite !splice_lookup by (rewrite ?length_insert; cbn; lia). cbn [length].
  repeat case_decide; try lia.
  - replace (i - off) with (S (i - S off)) by lia. done.
  - assert (i = off) as -> by lia. rewrite Nat.sub_diag. by rewrite list_lookup_insert_eq by lia.
  - apply list_lookup_insert_ne. lia.
Qed.

Lemma splice_insert_r l off b xs :
  off + S (length xs) <= length l ->
  <[off + length xs := b]> (splice l off xs) = splice l off (xs ++ [b]).
Proof.
  intros Hle. apply list_eq. intros i.
  rewrite (splice_lookup l off (xs ++ [b])) by (rewrite length_app; cbn; lia).
  rewrite length_app. cbn [length].
  destruct (decide (i = off + length xs)) as [->|Hne].
  - rewrite list_lookup_insert_eq by (rewrite length_splice; lia).
    rewrite decide_True by lia. rewrite lookup_app_r by lia.
    by replace (off + length xs - off - length xs) with 0 by lia.
  - rewrite list_lookup_insert_ne, splice_lookup by lia. repeat case_decide; try lia; [|done].
    symmetry. apply lookup_app_l. lia.
Qed.

Lemma splice_insert_before l off b xs :
  0 < off -> off + length xs <= length l ->
  <[off - 1 := b]> (splice l off xs) = splice l (off - 1) (b :: xs).
Proof.
  intros Hp Hle. apply list_eq. intros i.
  rewrite (splice_lookup l (off - 1)) by (cbn; lia). cbn [length].
  destruct (decide (i = off - 1)) as [->|Hne].
  - rewrite list_lookup_insert_eq by (rewrite length_splice; lia).
    rewrite decide_True by lia. by rewrite Nat.sub_diag.
  - rewrite list_lookup_insert_ne, splice_lookup by lia. repeat case_decide; try lia; [|done].
    replace (i - (off - 1)) with (S (i - off)) by lia. done.
Qed.

End splice.

Lemma load_nat {A} (l : list A) (i : nat) (x : A) : l !! i = Some x -> load l (Z.of_nat i) = Ok x.
Proof. intros. apply load_ok; [lia|]. by rewrite Nat2Z.id. Qed.

Lemma store_nat {A} (l : list A) (i : nat) (x : A) :
  (i < length l)%nat -> store l (Z.of_nat i) x = Ok (<[i := x]> l).
Proof. intros. rewrite store_ok by lia. by rewrite Nat2Z.id. Qed.

Lemma store_oob {A} (l : list A) (i : nat) (x : A) :
  (length l <= i)%nat -> store l (Z.of_nat i) x = Fault OutOfBounds.
Proof. intros. unfold store. rewrite (proj2 (Z.leb_le _ _)) by lia. by rewrite orb_true_r. Qed.

(** ** Running into a fault: the equations of the monad *)

Lemma bind_ok {S A B} (m : M S A) (k : A -> M S B) s a s' : m s = Ok (a, s') -> (m ≫= k) s = k a s'.
Proof. intros E. unfold mbind, M_bind. by rewrite E. Qed.

Lemma bind_fault {S A B} (m : M S A) (k : A -> M S B) s f : m s = Fault f -> (m ≫= k) s = Fault f.
Proof. intros E. unfold mbind, M_bind. by rewrite E. Qed.

(** A fault after a part with a specification. *)
Lemma wp_then_fault {S A B} (m : M S A) (k : A -> M S B) s f (P : A -> S -> Prop) :
  wp m s P -> (forall a s', P a s' -> k a s' = Fault f) -> (m ≫= k) s = Fault f.
Proof. intros (a & s' & E & HP)%wp_elim Hk. by rewrite (bind_ok _ _ _ _ _ E), Hk. Qed.

Lemma on_state_fault {S L A} (m : M S A) (s : S) (l : L) f : m s = Fault f -> on_state m (s, l) = Fault f.
Proof. intros E. unfold on_state, zoom. cbn. by rewrite E. Qed.

Lemma on_state_ok {S L A} (m : M S A) (s : S) (l : L) a s' :
  m s = Ok (a, s') -> on_state m (s, l) = Ok (a, (s', l)).
Proof. intros E. unfold on_state, zoom. cbn. by rewrite E. Qed.

Lemma zoom_nth_ok {S T A} (view : S -> list T) (set : list T -> S -> S) (i : nat) (m : M T A) s t a t' :
  view s !! i = Some t -> m t = Ok (a, t') ->
  zoom_nth view set (Z.of_nat i) m s = Ok (a, set (<[i := t']> (view s)) s).
Proof.
  intros Hi E. unfold zoom_nth, zoom, zoom_at. rewrite (proj2 (Z.ltb_ge _ _)), Nat2Z.id, Hi, E by lia. done.
Qed.

Lemma with_local_fault {S L A} (l : L) (m : M (S * L) A) s f :
  m (s, l) = Fault f -> with_local l m s = Fault f.
Proof. intros E. unfold with_local. by rewrite E. Qed.

(** A loop whose first iteration faults. *)
Lemma loop_fault {S} (bound : S -> nat) (c : S -> bool) (body : M S unit) s f :
  (0 < bound s)%nat -> c s = true -> body s = Fault f -> loop bound c body s = Fault f.
Proof.
  intros Hb Hc E. unfold loop. destruct (bound s) as [|n]; [lia|]. cbn. rewrite Hc. by apply bind_fault.
Qed.

(** A loop that faults in one of its iterations. *)
Lemma loop_fault_inv {S} (I : S -> Prop) (mu bound : S -> nat) (c : S -> bool) (body : M S unit) s f :
  I s -> (mu s <= bound s)%nat ->
  (forall s, I s -> c s = true /\ (body s = Fault f /\ (0 < mu s)%nat \/ wp body s (fun _ s' => I s' /\ (mu s' < mu s)%nat))) ->
  loop bound c body s = Fault f.
Proof.
  intros HI Hmu Hbody. unfold loop. generalize dependent (bound s). intros fuel. revert s HI. induction fuel as [|fuel IH];
    intros s HI Hmu; destruct (Hbody s HI) as [Hc [[E Hpos]|([] & s' & E & HI' & Hlt)%wp_elim]]; cbn; rewrite Hc; try lia.
  - by apply bind_fault.
  - rewrite (bind_ok _ _ _ _ _ E). apply IH; [done|lia].
Qed.

(** A loop that never ends: whatever the fuel, it runs out. *)
Lemma while_diverges {S} (P : S -> Prop) (c : S -> bool) (body : M S unit) (fuel : nat) s :
  P s -> (forall s, P s -> c s = true /\ wp body s (fun _ s' => P s')) -> while fuel c body s = Fault OutOfFuel.
Proof.
  intros HP Hbody. revert s HP. induction fuel as [|fuel IH]; intros s HP; destruct (Hbody s HP) as [Hc Hb]; cbn; rewrite Hc; [done|].
  apply wp_elim in Hb as ([] & s' & E & HP'). rewrite (bind_ok _ _ _ _ _ E). by apply IH.
Qed.
