(* ===== verification/Ring.v ===== *)
(** * Ring buffers with free-running indices

    Every queue of sDDF is an array of [cap] entries with two indices that are
    incremented forever and wrap at the width of their C type; an entry lives
    at [index % cap].  This file holds the arithmetic of that representation,
    once for all index widths: [N] is the number of index values ([2^16] for
    the network queues, [2^32] for the others). *)

From S2P Require Import Prelude.

(** The entries from [head] on, [len] of them, in order. *)
Definition ring_list {A} `{Inhabited A} (cap head len : Z) (bufs : list A) : list A :=
  (fun k => bufs !!! Z.to_nat ((head + k) mod cap)) <$> seqZ 0 len.

(** Number of entries between the two indices. *)
Definition ring_len (N head tail : Z) : Z := (tail - head) mod N.

Record ring_wf {A} (N cap head tail : Z) (bufs : list A) : Prop := {
  ring_cap_pos : 0 < cap;
  ring_cap_lt : cap < N;
  ring_cap_div : (cap | N);
  ring_head_range : 0 <= head < N;
  ring_tail_range : 0 <= tail < N;
  ring_bufs_len : Z.of_nat (length bufs) = cap;
  ring_len_le : ring_len N head tail <= cap;
}.

Create HintDb ring.

Section ring.
Context {A : Type} `{!Inhabited A}.
Variables (N cap : Z).
Implicit Types bufs : list A.

Lemma mod_mod_divide (x : Z) : 0 < cap -> (cap | N) -> (x mod N) mod cap = x mod cap.
Proof. intros ? ?. by apply Z.mod_mod_divide. Qed.

Lemma ring_len_nonneg head tail : 0 < N -> 0 <= ring_len N head tail < N.
Proof. intros. apply Z.mod_pos_bound. lia. Qed.

Lemma ring_list_length head len bufs : 0 <= len -> Z.of_nat (length (ring_list cap head len bufs)) = len.
Proof. intros. unfold ring_list. rewrite length_fmap, length_seqZ. lia. Qed.

Lemma ring_list_lookup head len bufs (k : Z) :
  0 <= k < len ->
  ring_list cap head len bufs !! Z.to_nat k = Some (bufs !!! Z.to_nat ((head + k) mod cap)).
Proof.
  intros. unfold ring_list. rewrite list_lookup_fmap, lookup_seqZ_lt by lia. cbn. do 4 f_equal. lia.
Qed.

Lemma ring_list_nil head bufs : ring_list cap head 0 bufs = [].
Proof. done. Qed.

Lemma ring_list_snoc head len bufs :
  0 <= len ->
  ring_list cap head (len + 1) bufs
  = ring_list cap head len bufs ++ [bufs !!! Z.to_nat ((head + len) mod cap)].
Proof.
  intros. unfold ring_list. rewrite seqZ_app, fmap_app by lia. done.
Qed.

Lemma ring_list_cons head len bufs :
  0 < len ->
  ring_list cap head len bufs
  = bufs !!! Z.to_nat (head mod cap) :: ring_list cap (head + 1) (len - 1) bufs.
Proof.
  intros. unfold ring_list. rewrite seqZ_cons by lia. rewrite fmap_cons.
  f_equal; [by rewrite Z.add_0_r|].
  replace (Z.succ 0) with (1 + 0) by lia. rewrite <- fmap_add_seqZ, <- list_fmap_compose.
  replace (Z.pred len) with (len - 1) by lia.
  apply list_fmap_ext. intros i x _. cbn. do 2 f_equal. f_equal. lia.
Qed.

(** Only the slots between the indices matter. *)
Lemma ring_list_ext head head' len bufs bufs' :
  (forall k, 0 <= k < len ->
     bufs !!! Z.to_nat ((head + k) mod cap) = bufs' !!! Z.to_nat ((head' + k) mod cap)) ->
  ring_list cap head len bufs = ring_list cap head' len bufs'.
Proof.
  intros H. apply list_fmap_ext. intros i x [-> ?]%lookup_seqZ. apply H. lia.
Qed.

(** Two entries less than a capacity apart never share a slot. *)
Lemma ring_slot_inj (x y : Z) : 0 < cap -> x mod cap = y mod cap -> Z.abs (x - y) < cap -> x = y.
Proof.
  intros Hc E Hd. assert (x - y = cap * (x / cap - y / cap)) as D.
  { pose proof (Z.div_mod x cap). pose proof (Z.div_mod y cap). lia. }
  assert (x / cap - y / cap = 0) by nia. lia.
Qed.

Lemma mod_zero_small (x : Z) : 0 < N -> x mod N = 0 -> Z.abs x < N -> x = 0.
Proof.
  intros HN E ?. pose proof (Z.div_mod x N). assert (x / N = 0) by nia. lia.
Qed.

Lemma ring_slot_range (x : Z) : 0 < cap -> 0 <= x mod cap < cap.
Proof. intros. by apply Z.mod_pos_bound. Qed.

Lemma ring_lookup_insert_slot bufs (x y : Z) (v : A) :
  0 < cap -> Z.of_nat (length bufs) = cap ->
  <[Z.to_nat (x mod cap) := v]> bufs !!! Z.to_nat (y mod cap)
  = if decide (x mod cap = y mod cap) then v else bufs !!! Z.to_nat (y mod cap).
Proof.
  intros Hc Hl. pose proof (ring_slot_range x Hc). pose proof (ring_slot_range y Hc).
  case_decide as E.
  - rewrite <- E. apply list_lookup_total_insert_eq. lia.
  - apply list_lookup_total_insert_ne. lia.
Qed.

(** The slot [j] places after slot [t], wrapping at the end of the array. *)
Lemma ring_slot_add (x j : Z) :
  0 < cap -> 0 <= j < cap ->
  (x + j) mod cap = if x mod cap + j <? cap then x mod cap + j else x mod cap + j - cap.
Proof.
  intros Hc Hj. pose proof (ring_slot_range x Hc). rewrite <- Z.add_mod_idemp_l by lia.
  destruct (Z.ltb_spec (x mod cap + j) cap).
  - apply Z.mod_small. lia.
  - rewrite <- (Z.mod_add (x mod cap + j) (-1)) by lia. apply Z.mod_small. lia.
Qed.

(** Writing one slot changes at most one entry. *)
Lemma ring_list_insert head len bufs (i : nat) (x : A) :
  0 < cap -> len <= cap -> Z.of_nat (length bufs) = cap -> (i < length bufs)%nat ->
  exists k, ring_list cap head len (<[i := x]> bufs) = <[k := x]> (ring_list cap head len bufs).
Proof.
  intros Hc Hl Hb Hi. set (k := (Z.of_nat i - head) mod cap). exists (Z.to_nat k).
  assert (0 <= k < cap) as Hk by by apply ring_slot_range.
  assert (Z.of_nat i = (head + k) mod cap) as Ei.
  { unfold k. rewrite Z.add_mod_idemp_r by lia. replace (head + (Z.of_nat i - head)) with (Z.of_nat i) by lia.
    rewrite Z.mod_small; lia. }
  apply list_eq. intros j. destruct (decide (Z.of_nat j < len)) as [Hj|Hj]; last first.
  { rewrite !lookup_ge_None_2; [done| |]; rewrite ?length_insert; unfold ring_list; rewrite length_fmap, length_seqZ; lia. }
  destruct (decide (j = Z.to_nat k)) as [->|Hne].
  - rewrite list_lookup_insert_eq by (unfold ring_list; rewrite length_fmap, length_seqZ; lia).
    rewrite ring_list_lookup by lia. rewrite <- Ei. rewrite Nat2Z.id. by rewrite list_lookup_total_insert_eq.
  - rewrite list_lookup_insert_ne by done. replace j with (Z.to_nat (Z.of_nat j)) by lia.
    rewrite !ring_list_lookup by lia. f_equal. rewrite list_lookup_total_insert_ne; [done|].
    intros E. apply Hne. assert ((head + Z.of_nat j) mod cap = (head + k) mod cap) as Em.
    { pose proof (ring_slot_range (head + Z.of_nat j) Hc). lia. }
    apply ring_slot_inj in Em; lia.
Qed.

Section wf.
Context (head tail : Z) (bufs : list A) (Hwf : ring_wf N cap head tail bufs).

#[local] Abbreviation len := (ring_len N head tail).
#[local] Abbreviation contents := (ring_list cap head len bufs).

Lemma ring_tail_slot : tail mod cap = (head + len) mod cap.
Proof using Hwf.
  destruct Hwf. unfold ring_len. symmetry.
  rewrite <- Z.add_mod_idemp_r, mod_mod_divide, Z.add_mod_idemp_r by (done || lia).
  f_equal. lia.
Qed.

(** The capacity is at most half the index range, so a full ring and an empty
    one never have the same difference of indices. *)
Lemma ring_cap_half : 2 * cap <= N.
Proof using Hwf. destruct Hwf. destruct ring_cap_div0 as [q Hq]. assert (1 < q) by nia. nia. Qed.

Lemma ring_full_slot : len = cap -> tail mod cap = head mod cap.
Proof using Hwf.
  intros E. rewrite ring_tail_slot, E. rewrite <- (Z.mul_1_l cap) at 1.
  apply Z.mod_add. destruct Hwf. lia.
Qed.

Lemma ring_contents_length : Z.of_nat (length contents) = len.
Proof using Hwf. destruct Hwf. apply ring_list_length. apply ring_len_nonneg. lia. Qed.

Lemma ring_empty_iff : head = tail <-> contents = [].
Proof using Hwf.
  pose proof ring_contents_length as E. destruct Hwf. split.
  - intros ->. unfold ring_len. by rewrite Z.sub_diag, Z.mod_0_l by lia.
  - intros H. rewrite H in E. cbn in E. unfold ring_len in E.
    symmetry in E. apply mod_zero_small in E; lia.
Qed.

Lemma ring_len_enq : len < cap -> ring_len N head ((tail + 1) mod N) = len + 1.
Proof using Hwf.
  intros. destruct Hwf. unfold ring_len in *.
  rewrite Zminus_mod_idemp_l. replace (tail + 1 - head) with ((tail - head) + 1) by lia.
  rewrite <- Z.add_mod_idemp_l by lia. apply Z.mod_small.
  pose proof (Z.mod_pos_bound (tail - head) N). lia.
Qed.

Lemma ring_len_deq : 0 < len -> ring_len N ((head + 1) mod N) tail = len - 1.
Proof using Hwf.
  intros. destruct Hwf. unfold ring_len in *.
  rewrite Zminus_mod_idemp_r. replace (tail - (head + 1)) with ((tail - head) - 1) by lia.
  rewrite <- Zminus_mod_idemp_l. apply Z.mod_small.
  pose proof (Z.mod_pos_bound (tail - head) N). lia.
Qed.

Lemma ring_enq_wf (x : A) :
  len < cap -> ring_wf N cap head ((tail + 1) mod N) (<[Z.to_nat (tail mod cap) := x]> bufs).
Proof using Hwf.
  intros H. pose proof (ring_len_enq H). destruct Hwf. split; try done.
  - apply Z.mod_pos_bound. lia.
  - by rewrite length_insert.
  - lia.
Qed.

Lemma ring_enq_contents (x : A) :
  len < cap ->
  ring_list cap head (ring_len N head ((tail + 1) mod N)) (<[Z.to_nat (tail mod cap) := x]> bufs)
  = contents ++ [x].
Proof using Hwf.
  intros H. pose proof (ring_len_enq H) as ->.
  assert (0 <= len) by (destruct Hwf; apply ring_len_nonneg; lia).
  rewrite ring_list_snoc by done. rewrite ring_tail_slot. destruct Hwf. f_equal.
  - apply ring_list_ext. intros k Hk. rewrite ring_lookup_insert_slot by done.
    rewrite decide_False; [done|]. intros E%ring_slot_inj; lia.
  - rewrite ring_lookup_insert_slot by done. by rewrite decide_True.
Qed.

Lemma ring_deq_wf : 0 < len -> ring_wf N cap ((head + 1) mod N) tail bufs.
Proof using Hwf.
  intros H. pose proof (ring_len_deq H). destruct Hwf. split; try done.
  - apply Z.mod_pos_bound. lia.
  - lia.
Qed.

Lemma ring_deq_contents :
  0 < len ->
  contents = bufs !!! Z.to_nat (head mod cap)
             :: ring_list cap ((head + 1) mod N) (ring_len N ((head + 1) mod N) tail) bufs.
Proof using Hwf.
  intros H. rewrite (ring_len_deq H), ring_list_cons by done. f_equal.
  apply ring_list_ext. intros k Hk. destruct Hwf. f_equal. f_equal.
  rewrite <- (Z.add_mod_idemp_l ((head + 1) mod N)), mod_mod_divide, Z.add_mod_idemp_l by (done || lia).
  done.
Qed.

(** Appending several entries at once: the new array holds [xs] in the slots
    after the tail and agrees with the old one on the slots in use. *)
Lemma ring_append (bufs' : list A) (xs : list A) :
  len + Z.of_nat (length xs) <= cap ->
  Z.of_nat (length bufs') = cap ->
  (forall j, 0 <= j < Z.of_nat (length xs) ->
     bufs' !!! Z.to_nat ((tail + j) mod cap) = xs !!! Z.to_nat j) ->
  (forall k, 0 <= k < len ->
     bufs' !!! Z.to_nat ((head + k) mod cap) = bufs !!! Z.to_nat ((head + k) mod cap)) ->
  let tail' := (tail + Z.of_nat (length xs)) mod N in
  ring_len N head tail' = len + Z.of_nat (length xs) /\
  ring_wf N cap head tail' bufs' /\
  ring_list cap head (ring_len N head tail') bufs' = contents ++ xs.
Proof using Hwf.
  intros Hroom Hlen Hnew Hold tail'.
  assert (ring_len N head tail' = len + Z.of_nat (length xs)) as Hl.
  { destruct Hwf. unfold ring_len, tail' in *. rewrite Zminus_mod_idemp_l.
    replace (tail + Z.of_nat (length xs) - head) with ((tail - head) + Z.of_nat (length xs)) by lia.
    rewrite <- Z.add_mod_idemp_l by lia. apply Z.mod_small.
    pose proof (Z.mod_pos_bound (tail - head) N). lia. }
  split_and!; [done| |].
  - destruct Hwf. split; try done; [|lia]. apply Z.mod_pos_bound. lia.
  - rewrite Hl. assert (0 <= len) as Hl0 by (destruct Hwf; apply ring_len_nonneg; lia).
    apply list_eq. intros i.
    destruct (decide (Z.of_nat i < len + Z.of_nat (length xs))) as [Hi|Hi]; last first.
    { rewrite !lookup_ge_None_2; [done| |]; rewrite ?length_app;
        unfold ring_list; rewrite length_fmap, length_seqZ; lia. }
    replace i with (Z.to_nat (Z.of_nat i)) by lia. rewrite ring_list_lookup by lia.
    destruct (decide (Z.of_nat i < len)) as [Hi'|Hi'].
    + rewrite lookup_app_l by (unfold ring_list; rewrite length_fmap, length_seqZ; lia).
      rewrite ring_list_lookup by lia. f_equal. apply Hold. lia.
    + rewrite lookup_app_r by (unfold ring_list; rewrite length_fmap, length_seqZ; lia).
      replace (Z.to_nat (Z.of_nat i) - length contents)%nat with (Z.to_nat (Z.of_nat i - len))
        by (unfold ring_list; rewrite length_fmap, length_seqZ; lia).
      rewrite list_lookup_lookup_total_lt by lia. f_equal. rewrite <- Hnew by lia.
      do 2 f_equal. destruct Hwf. rewrite <- (Z.add_mod_idemp_l tail), ring_tail_slot, Z.add_mod_idemp_l by lia.
      f_equal. lia.
Qed.

(** Removing several entries at once. *)
Lemma ring_advance (n : Z) :
  0 <= n <= len ->
  let head' := (head + n) mod N in
  ring_len N head' tail = len - n /\
  ring_wf N cap head' tail bufs /\
  ring_list cap head' (ring_len N head' tail) bufs = drop (Z.to_nat n) contents.
Proof using Hwf.
  intros Hn head'. assert (ring_len N head' tail = len - n) as Hl.
  { destruct Hwf. unfold ring_len, head' in *. rewrite Zminus_mod_idemp_r.
    replace (tail - (head + n)) with ((tail - head) - n) by lia.
    rewrite <- Zminus_mod_idemp_l. apply Z.mod_small.
    pose proof (Z.mod_pos_bound (tail - head) N). lia. }
  split_and!; [done| |].
  - destruct Hwf. split; try done; [|lia]. apply Z.mod_pos_bound. lia.
  - rewrite Hl. unfold ring_list. rewrite skipn_map.
    replace len with (n + (len - n)) at 2 by lia. rewrite seqZ_app by lia.
    rewrite drop_app_length' by (rewrite length_seqZ; lia).
    rewrite Z.add_0_l. rewrite <- (Z.add_0_r n) at 2. rewrite <- fmap_add_seqZ.
    change (map ?f ?l) with (f <$> l). rewrite <- list_fmap_compose.
    apply list_fmap_ext. intros i x _. cbn. do 2 f_equal. destruct Hwf. unfold head'.
    rewrite <- (Z.add_mod_idemp_l ((head + n) mod N)), mod_mod_divide, Z.add_mod_idemp_l by (done || lia).
    f_equal. lia.
Qed.

(** The entries up to the end of the array are contiguous in it. *)
Lemma ring_take_contiguous (k : Z) :
  0 <= k <= len -> k <= cap - head mod cap ->
  take (Z.to_nat k) contents = take (Z.to_nat k) (drop (Z.to_nat (head mod cap)) bufs).
Proof using Hwf.
  intros Hk Hc. destruct Hwf. pose proof (ring_slot_range head ring_cap_pos0) as Hh.
  apply list_eq. intros i. destruct (decide (i < Z.to_nat k)%nat) as [Hi|Hi]; last first.
  { rewrite !lookup_take_ge by lia. done. }
  rewrite !lookup_take_lt by lia.
  replace i with (Z.to_nat (Z.of_nat i)) at 1 by lia. rewrite ring_list_lookup by lia.
  rewrite ring_slot_add by lia. rewrite (proj2 (Z.ltb_lt _ _)) by lia.
  rewrite lookup_drop, list_lookup_lookup_total_lt by lia. do 2 f_equal. lia.
Qed.

(** Reading and writing the slot of an index never leaves the array. *)
Lemma ring_load_slot (i : Z) : load bufs (i mod cap) = Ok (bufs !!! Z.to_nat (i mod cap)).
Proof using Hwf.
  destruct Hwf. pose proof (ring_slot_range i ring_cap_pos0).
  apply load_ok; [lia|]. apply list_lookup_lookup_total_lt. lia.
Qed.

Lemma ring_store_slot (i : Z) (x : A) :
  store bufs (i mod cap) x = Ok (<[Z.to_nat (i mod cap) := x]> bufs).
Proof using Hwf.
  destruct Hwf. pose proof (ring_slot_range i ring_cap_pos0). apply store_ok. lia.
Qed.

End wf.

(** Writing [xs] from slot [t] on, in two segments when the array ends first. *)
Definition ring_write (bufs : list A) (t : nat) (xs : list A) : list A :=
  let pre := Nat.min (length xs) (length bufs - t) in
  splice (splice bufs t (take pre xs)) 0 (drop pre xs).

Lemma ring_write_length bufs t xs :
  (t <= length bufs)%nat -> (length xs <= length bufs)%nat -> length (ring_write bufs t xs) = length bufs.
Proof.
  intros. unfold ring_write. set (pre := Nat.min _ _).
  assert (length (take pre xs) = pre) by (rewrite length_take; lia).
  rewrite !length_splice; [done|lia|]. rewrite length_splice, length_drop; lia.
Qed.

Lemma ring_write_lookup bufs t xs p :
  (t <= length bufs)%nat -> (length xs <= length bufs)%nat ->
  let pre := Nat.min (length xs) (length bufs - t) in
  ring_write bufs t xs !!! p
  = if decide (p < length xs - pre)%nat then xs !!! (pre + p)%nat
    else if decide (t <= p < t + pre)%nat then xs !!! (p - t)%nat
    else bufs !!! p.
Proof.
  intros Ht Hx pre. rewrite list_lookup_total_alt. unfold ring_write. fold pre.
  assert (length (take pre xs) = pre) as Hp by (rewrite length_take; lia).
  rewrite splice_lookup by (rewrite length_splice, ?length_drop; lia). rewrite length_drop.
  case_decide as D1; case_decide as D2; try lia.
  - rewrite lookup_drop, list_lookup_total_alt. do 2 f_equal. lia.
  - rewrite splice_lookup by lia. rewrite Hp. case_decide as D3.
    + rewrite lookup_take_lt by lia. by rewrite list_lookup_total_alt.
    + by rewrite list_lookup_total_alt.
Qed.

(** A wrapped write at the tail appends to the contents. *)
Lemma ring_write_append head tail bufs xs :
  ring_wf N cap head tail bufs ->
  ring_len N head tail + Z.of_nat (length xs) <= cap ->
  let bufs' := ring_write bufs (Z.to_nat (tail mod cap)) xs in
  let tail' := (tail + Z.of_nat (length xs)) mod N in
  ring_len N head tail' = ring_len N head tail + Z.of_nat (length xs) /\
  ring_wf N cap head tail' bufs' /\
  ring_list cap head (ring_len N head tail') bufs'
  = ring_list cap head (ring_len N head tail) bufs ++ xs.
Proof.
  intros Hwf Hroom bufs' tail'.
  pose proof (ring_slot_range tail (ring_cap_pos _ _ _ _ _ Hwf)) as Ht.
  pose proof (ring_bufs_len _ _ _ _ _ Hwf) as Hb.
  assert (0 <= ring_len N head tail) by (destruct Hwf; apply ring_len_nonneg; lia).
  set (t := Z.to_nat (tail mod cap)) in *.
  assert (length bufs' = length bufs) as Hl by (apply ring_write_length; lia).
  apply ring_append; [done|done|by rewrite Hl| |].
  - intros j Hj. unfold bufs'. rewrite ring_write_lookup by lia.
    rewrite ring_slot_add by lia. destruct (Z.ltb_spec (tail mod cap + j) cap).
    + rewrite decide_False, decide_True by lia. f_equal. lia.
    + rewrite decide_True by lia. f_equal. lia.
  - intros k Hk. unfold bufs'. rewrite ring_write_lookup by lia.
    assert (forall j, 0 <= j < Z.of_nat (length xs) -> (head + k) mod cap <> (tail + j) mod cap) as Hne.
    { intros j Hj E. rewrite <- (Z.add_mod_idemp_l tail) in E by lia.
      rewrite (ring_tail_slot _ _ _ Hwf), Z.add_mod_idemp_l in E by lia.
      apply ring_slot_inj in E; lia. }
    pose proof (ring_slot_range (head + k) (ring_cap_pos _ _ _ _ _ Hwf)) as Hs.
    assert (forall j, 0 <= j < Z.of_nat (length xs) ->
      (head + k) mod cap <> if tail mod cap + j <? cap then tail mod cap + j else tail mod cap + j - cap) as Hne'.
    { intros j Hj. rewrite <- ring_slot_add by lia. by apply Hne. }
    clear Hne. set (p := (head + k) mod cap) in *. clearbody p.
    rewrite !decide_False; [done| |]; intros Hp.
    + apply (Hne' (p - tail mod cap)); [lia|]. rewrite (proj2 (Z.ltb_lt _ _)); lia.
    + apply (Hne' (p + cap - tail mod cap)); [lia|]. rewrite (proj2 (Z.ltb_ge _ _)); lia.
Qed.

End ring.
