(* ===== verification/Fifo.v ===== *)
(** * The contract of a queue: a bounded first-in first-out list

    [fifo_spec_run] is the abstract queue: a list with a bound.  [FifoOps] is
    what a concrete queue offers (its representation invariant, the list it
    stands for, its capacity, the part of its state that the two operations
    leave alone), [FifoLaws] what it promises, and [fifo_refines] the
    simulation that follows for every sequence of operations. *)

From S2P Require Import Prelude.

Inductive fifo_op (A : Type) : Type :=
| Enq (x : A)
| Deq.
Arguments Enq {A} x.
Arguments Deq {A}.

(** What the caller of an operation sees: the C return code of an enqueue, and
    the entry read by a dequeue, if there was one. *)
Inductive fifo_obs (A : Type) : Type :=
| ObsEnq (r : Z)
| ObsDeq (r : option A).
Arguments ObsEnq {A} r.
Arguments ObsDeq {A} r.

Definition fifo_room {A} (cap : Z) (l : list A) : bool := Z.of_nat (length l) <? cap.

Definition fifo_spec_step {A} (cap : Z) (o : fifo_op A) (l : list A) : fifo_obs A * list A :=
  match o with
  | Enq x => if fifo_room cap l then (ObsEnq 0, l ++ [x]) else (ObsEnq (-1), l)
  | Deq => match l with
           | [] => (ObsDeq None, [])
           | x :: l' => (ObsDeq (Some x), l')
           end
  end.

Fixpoint fifo_spec_run {A} (cap : Z) (ops : list (fifo_op A)) (l : list A)
  : list (fifo_obs A) * list A :=
  match ops with
  | [] => ([], l)
  | o :: ops' =>
    let '(b, l1) := fifo_spec_step cap o l in
    let '(bs, l2) := fifo_spec_run cap ops' l1 in (b :: bs, l2)
  end.

(** No operation of the sequence enqueues into a full queue. *)
Fixpoint fifo_never_full {A} (cap : Z) (ops : list (fifo_op A)) (l : list A) : bool :=
  match ops with
  | [] => true
  | o :: ops' =>
    match o with Enq _ => fifo_room cap l | Deq => true end
    && fifo_never_full cap ops' (fifo_spec_step cap o l).2
  end.

Class FifoOps (Q A R : Type) := {
  fifo_wf : Q -> Prop;
  fifo_items : Q -> list A;
  fifo_cap : Q -> Z;
  fifo_rest : Q -> R;
  fifo_enq : A -> M Q Z;
  fifo_deq : M Q (option A);
}.

Class FifoLaws {Q A R} (O : FifoOps Q A R) := {
  fifo_bounded q : fifo_wf q -> Z.of_nat (length (fifo_items q)) <= fifo_cap q;
  fifo_enq_room q x :
    fifo_wf q -> Z.of_nat (length (fifo_items q)) < fifo_cap q ->
    wp (fifo_enq x) q (fun r q' =>
      r = 0 /\ fifo_wf q' /\ fifo_items q' = fifo_items q ++ [x]
      /\ fifo_cap q' = fifo_cap q /\ fifo_rest q' = fifo_rest q);
  fifo_deq_nil q : fifo_wf q -> fifo_items q = [] -> fifo_deq q = Ok (None, q);
  fifo_deq_cons q x l :
    fifo_wf q -> fifo_items q = x :: l ->
    wp fifo_deq q (fun r q' =>
      r = Some x /\ fifo_wf q' /\ fifo_items q' = l
      /\ fifo_cap q' = fifo_cap q /\ fifo_rest q' = fifo_rest q);
}.

(** The queues whose test for a full queue is exact. *)
Class FifoFull {Q A R} (O : FifoOps Q A R) :=
  fifo_enq_full q x :
    fifo_wf q -> Z.of_nat (length (fifo_items q)) = fifo_cap q ->
    fifo_enq x q = Ok (-1, q).

Definition fifo_impl_step `{O : FifoOps Q A R} (o : fifo_op A) : M Q (fifo_obs A) :=
  match o with
  | Enq x => r ← fifo_enq x; mret (ObsEnq r)
  | Deq => r ← fifo_deq; mret (ObsDeq r)
  end.

Fixpoint fifo_impl_run `{O : FifoOps Q A R} (ops : list (fifo_op A)) : M Q (list (fifo_obs A)) :=
  match ops with
  | [] => mret []
  | o :: ops' => b ← fifo_impl_step o; bs ← fifo_impl_run ops'; mret (b :: bs)
  end.

Section refinement.
Context {Q A R : Type} {O : FifoOps Q A R} {L : FifoLaws O}.

(** The states [q] and [l] are related: [q] is well formed and stands for
    [l]. *)
Definition fifo_sim (cap : Z) (rest : R) (q : Q) (l : list A) : Prop :=
  fifo_wf q /\ fifo_items q = l /\ fifo_cap q = cap /\ fifo_rest q = rest.

Lemma fifo_step_room (o : fifo_op A) cap rest q l :
  fifo_sim cap rest q l ->
  match o with Enq _ => fifo_room cap l = true | Deq => True end ->
  wp (fifo_impl_step o) q (fun b q' =>
    b = (fifo_spec_step cap o l).1 /\ fifo_sim cap rest q' (fifo_spec_step cap o l).2).
Proof using L.
  intros (Hwf & <- & <- & <-) Hroom. destruct o as [x|]; cbn.
  - rewrite Hroom. wp_step. apply Z.ltb_lt in Hroom.
    wp_use (fifo_enq_room q x Hwf Hroom). intros r q' (-> & ? & ? & ? & ?).
    wp_step. done.
  - wp_step. destruct (fifo_items q) as [|x l] eqn:E.
    + eapply wp_intro; [by apply fifo_deq_nil|]. wp_step. done.
    + wp_use (fifo_deq_cons q x l Hwf E). intros r q' (-> & ? & ? & ? & ?). wp_step. done.
Qed.

Lemma fifo_step_full `{F : !FifoFull O} (o : fifo_op A) cap rest q l :
  fifo_sim cap rest q l ->
  wp (fifo_impl_step o) q (fun b q' =>
    b = (fifo_spec_step cap o l).1 /\ fifo_sim cap rest q' (fifo_spec_step cap o l).2).
Proof using L.
  intros Hsim. destruct o as [x|]; [|by apply fifo_step_room].
  destruct (fifo_room cap l) eqn:E; [by apply fifo_step_room|].
  destruct Hsim as (Hwf & <- & <- & <-). cbn. rewrite E. wp_step.
  apply Z.ltb_ge in E. pose proof (fifo_bounded q Hwf).
  eapply wp_intro; [apply fifo_enq_full; [done|lia]|]. wp_step. done.
Qed.

(** Each step simulates, hence so does every sequence. *)
Lemma fifo_run_sim (ok : list (fifo_op A) -> list A -> Prop) cap rest :
  (forall o ops l, ok (o :: ops) l -> ok ops (fifo_spec_step cap o l).2) ->
  (forall o ops q l, ok (o :: ops) l -> fifo_sim cap rest q l ->
     wp (fifo_impl_step o) q (fun b q' =>
       b = (fifo_spec_step cap o l).1 /\ fifo_sim cap rest q' (fifo_spec_step cap o l).2)) ->
  forall ops q l, ok ops l -> fifo_sim cap rest q l ->
  wp (fifo_impl_run ops) q (fun bs q' =>
    bs = (fifo_spec_run cap ops l).1 /\ fifo_sim cap rest q' (fifo_spec_run cap ops l).2).
Proof using Type.
  intros Hok Hstep. induction ops as [|o ops IH]; intros q l Hl Hsim; cbn.
  - by wp_step.
  - wp_step. wp_use (Hstep o ops q l). intros b q1 [-> Hs1].
    specialize (IH q1 _ (Hok _ _ _ Hl) Hs1).
    wp_step. wp_use IH. intros bs q2 [-> Hs2]. wp_step.
    destruct (fifo_spec_step cap o l) as [b l1]; cbn in *.
    by destruct (fifo_spec_run cap ops l1) as [bs l2].
Qed.

Lemma fifo_refines_room cap rest ops q l :
  fifo_never_full cap ops l = true -> fifo_sim cap rest q l ->
  wp (fifo_impl_run ops) q (fun bs q' =>
    bs = (fifo_spec_run cap ops l).1 /\ fifo_sim cap rest q' (fifo_spec_run cap ops l).2).
Proof using L.
  apply (fifo_run_sim (fun ops l => fifo_never_full cap ops l = true)).
  - intros o ops' l'. cbn. by intros [_ ?]%andb_prop.
  - intros o ops' q' l' Hok Hs. apply fifo_step_room; [done|]. cbn in Hok.
    apply andb_prop in Hok as [??]. by destruct o.
Qed.

Lemma fifo_refines `{F : !FifoFull O} cap rest ops q l :
  fifo_sim cap rest q l ->
  wp (fifo_impl_run ops) q (fun bs q' =>
    bs = (fifo_spec_run cap ops l).1 /\ fifo_sim cap rest q' (fifo_spec_run cap ops l).2).
Proof using L. apply (fifo_run_sim (fun _ _ => True)); eauto using fifo_step_full. Qed.

End refinement.
