(* ===== verification/Microkit.v ===== *)
(** * The calls into the seL4 Microkit

    The Microkit library is not part of the repository.  A call that sends a
    notification has no result and touches no state of the caller: the models
    record it as an event, in order.  So are writes to device registers and the
    cache maintenance operations of the sound virtualiser, which have no effect
    on the state of a C program. *)

From S2P Require Import Prelude.

Inductive event : Type :=
| Notify (ch : Z)          (* microkit_notify *)
| DeferredNotify (ch : Z)  (* microkit_deferred_notify *)
| DeferredIrqAck (ch : Z)  (* microkit_deferred_irq_ack *)
| IrqAck (ch : Z)          (* microkit_irq_ack *)
| RegWrite (offset value : Z) (* a device register *)
| CacheClean (start stop : Z)               (* cache_clean *)
| CacheCleanAndInvalidate (start stop : Z). (* cache_clean_and_invalidate *)

#[export] Instance event_eq_dec : EqDecision event.
Proof. solve_decision. Defined.
