(* ===== verification/CLib.v ===== *)
(** * The C library of sDDF: include/sddf/util/string.h and util.h

    A byte is a [Z] in [[0, 256)] ([char] is unsigned on ARM and RISC-V), an
    object is the list of its bytes, and a pointer into it an index.  The
    routines that write keep the C loops: one recursive call per iteration, on
    the iteration count. *)

From S2P Require Import Prelude.

(** ** Memory routines of string.h *)

(** [sddf_memset(s + i, c, n)]: one byte per iteration. *)
Fixpoint sddf_memset (s : list Z) (i : Z) (c : Z) (n : nat) : res (list Z) :=
  match n with
  | O => Ok s
  | S n' =>
    match store s i (u8 c) with
    | Ok s' => sddf_memset s' (i + 1) c n'
    | Fault f => Fault f
    end
  end.

(** [sddf_memcpy(dest + to, src + from, n)] between two distinct objects. *)
Fixpoint sddf_memcpy (dest : list Z) (to : Z) (src : list Z) (from : Z) (n : nat) : res (list Z) :=
  match n with
  | O => Ok dest
  | S n' =>
    match load src from with
    | Fault f => Fault f
    | Ok b =>
      match store dest to b with
      | Fault f => Fault f
      | Ok dest' => sddf_memcpy dest' (to + 1) src (from + 1) n'
      end
    end
  end.

(** [sddf_memmove(m + d, m + s, n)] inside one object; [i] is the loop
    counter and [k] the iterations left. *)
Fixpoint sddf_memmove_loop (m : list Z) (d s n i : Z) (copy_backwards : bool) (k : nat) : res (list Z) :=
  match k with
  | O => Ok m
  | S k' =>
    let off := if copy_backwards then n - 1 - i else i in
    match load m (s + off) with
    | Fault f => Fault f
    | Ok b =>
      match store m (d + off) b with
      | Fault f => Fault f
      | Ok m' => sddf_memmove_loop m' d s n (i + 1) copy_backwards k'
      end
    end
  end.

Definition sddf_memmove (m : list Z) (d s n : Z) : res (list Z) :=
  if d =? s then Ok m else sddf_memmove_loop m d s n 0 (s <? d) (Z.to_nat n).

Fixpoint sddf_memcmp_loop (a b : list Z) (i : Z) (k : nat) : res Z :=
  match k with
  | O => Ok 0
  | S k' =>
    match load a i, load b i with
    | Ok x, Ok y => if negb (x =? y) then Ok (x - y) else sddf_memcmp_loop a b (i + 1) k'
    | Fault f, _ => Fault f
    | _, Fault f => Fault f
    end
  end.
Definition sddf_memcmp (a b : list Z) (n : Z) : res Z := sddf_memcmp_loop a b 0 (Z.to_nat n).

(** ** String routines of string.h

    The scans take the rest of the object from the pointer on, so that running
    off its end is the empty list. *)

Fixpoint sddf_strlen (s : list Z) : res Z :=
  match s with
  | [] => Fault OutOfBounds
  | c :: s' =>
    if c =? 0 then Ok 0
    else match sddf_strlen s' with Ok n => Ok (n + 1) | Fault f => Fault f end
  end.

Fixpoint sddf_strcmp (a b : list Z) : res Z :=
  match a, b with
  | x :: a', y :: b' =>
    if negb (x =? 0) && negb (y =? 0) && (x =? y) then sddf_strcmp a' b' else Ok (x - y)
  | _, _ => Fault OutOfBounds
  end.

Fixpoint sddf_strncmp (a b : list Z) (n : nat) {struct n} : res Z :=
  match n with
  | O => Ok 0
  | S n' =>
    match a, b with
    | x :: a', y :: b' =>
      if (x =? 0) || (y =? 0) || negb (x =? y) then Ok (x - y) else sddf_strncmp a' b' n'
    | _, _ => Fault OutOfBounds
    end
  end.

(** Returns the offset of the match; [Ok None] is [NULL]. *)
Fixpoint sddf_strchr (s : list Z) (c : Z) (i : Z) : res (option Z) :=
  match s with
  | [] => Fault OutOfBounds
  | x :: s' =>
    if negb (x =? 0) then
      if x =? c then Ok (Some i) else sddf_strchr s' c (i + 1)
    else if c =? 0 then Ok (Some i) else Ok None
  end.

(** The first loop of [sddf_strncpy],
    [while (dsize-- && ( *to = *src++)) to++]: the size is decremented by the
    test also when it is already 0, where it wraps.  The recursion is on the
    size. *)
Fixpoint strncpy_copy (dest : list Z) (to : Z) (src : list Z) (dsize : nat) {struct dsize} : res (list Z * Z * Z) :=
  match dsize with
  | O => Ok (dest, to, 2 ^ 64 - 1)
  | S dsize' =>
    match src with
    | [] => Fault OutOfBounds
    | c :: src' =>
      match store dest to c with
      | Fault f => Fault f
      | Ok dest' =>
        if c =? 0 then Ok (dest', to, Z.of_nat dsize') else strncpy_copy dest' (to + 1) src' dsize'
      end
    end
  end.

(** The second loop, [while (dsize--) *to++ = 0], writes [todo] zeros; the
    recursion is on the bytes of the object from [to] on, and writing past
    them is the fault. *)
Fixpoint strncpy_pad (rest : list Z) (todo : Z) : res (list Z) :=
  if todo =? 0 then Ok rest else
  match rest with
  | [] => Fault OutOfBounds
  | _ :: rest' =>
    match strncpy_pad rest' (todo - 1) with
    | Ok r => Ok (0 :: r)
    | Fault f => Fault f
    end
  end.

Definition sddf_strncpy (dest src : list Z) (dsize : Z) : res (list Z) :=
  match strncpy_copy dest 0 src (Z.to_nat dsize) with
  | Fault f => Fault f
  | Ok (dest', to, todo) =>
    match strncpy_pad (drop (Z.to_nat to) dest') todo with
    | Fault f => Fault f
    | Ok rest => Ok (take (Z.to_nat to) dest' ++ rest)
    end
  end.

(** ** util.h *)

Definition sddf_isspace (ch : Z) : bool :=
  (ch =? 32) || (ch =? 12) || (ch =? 10) || (ch =? 13) || (ch =? 9) || (ch =? 11).

Definition sddf_isdigit (ch : Z) : bool := (48 <=? ch) && (ch <=? 57).

Definition is_int (x : Z) : bool := (- 2 ^ 31 <=? x) && (x <? 2 ^ 31).

(** [result *= 10; result -= digit;] for every digit: the number is accumulated
    negatively. *)
Fixpoint atoi_digits (str : list Z) (result : Z) : res Z :=
  match str with
  | [] => Fault OutOfBounds
  | c :: str' =>
    if sddf_isdigit c then
      let r10 := result * 10 in
      let r := r10 - (c - 48) in
      if is_int r10 && is_int r then atoi_digits str' r else Fault IntOverflow
    else Ok result
  end.

Fixpoint atoi_skip_space (str : list Z) : res (list Z) :=
  match str with
  | [] => Fault OutOfBounds
  | c :: str' => if sddf_isspace c then atoi_skip_space str' else Ok str
  end.

Definition sddf_atoi (str : list Z) : res Z :=
  match atoi_skip_space str with
  | Fault f => Fault f
  | Ok s =>
    let '(sign, s') :=
      match s with
      | c :: t => if c =? 43 then (1, t) else if c =? 45 then (-1, t) else (1, s)
      | [] => (1, s)
      end in
    match atoi_digits s' 0 with
    | Fault f => Fault f
    | Ok result => if is_int (- result) then Ok (sign * (- result)) else Fault IntOverflow
    end
  end.

(** [ROUND_UP(n, d)]. *)
Definition ROUND_UP (n d : Z) : Z := d * (n / d + (if n mod d =? 0 then 0 else 1)).

(** ** Lemmas *)

Lemma sddf_memcpy_spec (n to from : nat) (dest src : list Z) :
  (to + n <= length dest)%nat -> (from + n <= length src)%nat ->
  sddf_memcpy dest (Z.of_nat to) src (Z.of_nat from) n
  = Ok (splice dest to (take n (drop from src))).
Proof.
  revert dest to from. induction n as [|n IH]; intros dest to from Hd Hs; cbn [sddf_memcpy].
  - by rewrite take_0, splice_nil.
  - destruct (lookup_lt_is_Some_2 src from) as [b Hb]; [lia|].
    rewrite (load_nat _ _ _ Hb), store_nat by lia.
    replace (Z.of_nat to + 1) with (Z.of_nat (S to)) by lia.
    replace (Z.of_nat from + 1) with (Z.of_nat (S from)) by lia.
    rewrite IH by (rewrite ?length_insert; lia).
    rewrite (drop_S src b from Hb). cbn [take].
    rewrite splice_insert_l; [done|]. rewrite length_take, length_drop. lia.
Qed.

Lemma sddf_memset_spec (n i : nat) (s : list Z) (c : Z) :
  (i + n <= length s)%nat ->
  sddf_memset s (Z.of_nat i) c n = Ok (splice s i (replicate n (u8 c))).
Proof.
  revert s i. induction n as [|n IH]; intros s i Hi; cbn [sddf_memset replicate].
  - by rewrite splice_nil.
  - rewrite store_nat by lia. replace (Z.of_nat i + 1) with (Z.of_nat (S i)) by lia.
    rewrite IH by (rewrite length_insert; lia).
    rewrite splice_insert_l; [done|]. rewrite length_replicate. lia.
Qed.

(** Forward copy: after [i] iterations the first [i] bytes have moved. *)
Lemma memmove_forward (m : list Z) (d s n i k : nat) :
  (d < s)%nat -> (i + k = n)%nat -> (s + n <= length m)%nat ->
  sddf_memmove_loop (splice m d (take i (drop s m))) (Z.of_nat d) (Z.of_nat s) (Z.of_nat n) (Z.of_nat i) false k
  = Ok (splice m d (take n (drop s m))).
Proof.
  intros Hds Hn Hlen. revert i Hn. induction k as [|k IH]; intros i Hn; cbn [sddf_memmove_loop].
  - by replace i with n by lia.
  - assert (length (take i (drop s m)) = i) as Hti by (rewrite length_take, length_drop; lia).
    destruct (lookup_lt_is_Some_2 m (s + i)) as [b Hb]; [lia|].
    rewrite <- !Nat2Z.inj_add. erewrite (load_nat _ _ b); last first.
    { rewrite splice_lookup by lia. rewrite decide_False by lia. done. }
    rewrite store_nat by (rewrite length_splice; lia).
    replace (Z.of_nat i + 1) with (Z.of_nat (S i)) by lia.
    rewrite <- (IH (S i)) by lia. f_equal.
    rewrite <- Hti at 1. rewrite splice_insert_r by lia. f_equal.
    rewrite (take_S_r _ _ b); [done|]. by rewrite lookup_drop.
Qed.

(** Backward copy: after [i] iterations the last [i] bytes have moved. *)
Lemma memmove_backward (m : list Z) (d s n i k : nat) :
  (s < d)%nat -> (i + k = n)%nat -> (d + n <= length m)%nat ->
  sddf_memmove_loop (splice m (d + k) (take i (drop (s + k) m))) (Z.of_nat d) (Z.of_nat s) (Z.of_nat n) (Z.of_nat i) true k
  = Ok (splice m d (take n (drop s m))).
Proof.
  intros Hds Hn Hlen. revert i Hn. induction k as [|k IH]; intros i Hn; cbn [sddf_memmove_loop].
  - rewrite !Nat.add_0_r. by replace i with n by lia.
  - assert (length (take i (drop (s + S k) m)) = i) as Hti by (rewrite length_take, length_drop; lia).
    destruct (lookup_lt_is_Some_2 m (s + k)) as [b Hb]; [lia|].
    replace (Z.of_nat s + (Z.of_nat n - 1 - Z.of_nat i)) with (Z.of_nat (s + k)) by lia.
    replace (Z.of_nat d + (Z.of_nat n - 1 - Z.of_nat i)) with (Z.of_nat (d + k)) by lia.
    erewrite (load_nat _ _ b); last first.
    { rewrite splice_lookup by lia. rewrite decide_False by lia. done. }
    rewrite store_nat by (rewrite length_splice; lia).
    replace (Z.of_nat i + 1) with (Z.of_nat (S i)) by lia.
    rewrite <- (IH (S i)) by lia. f_equal.
    replace (d + k)%nat with (d + S k - 1)%nat at 1 by lia.
    rewrite splice_insert_before by lia. f_equal; [lia|].
    rewrite (drop_S m b (s + k) Hb). cbn [take]. do 3 f_equal. lia.
Qed.

(** Scanning to the terminator. *)
Definition is_cstr (s : list Z) (k : nat) : Prop :=
  s !! k = Some 0 /\ forall i, (i < k)%nat -> exists c, s !! i = Some c /\ c <> 0.

Lemma is_cstr_cons c s k : c <> 0 -> is_cstr (c :: s) (S k) <-> is_cstr s k.
Proof.
  intros Hc. unfold is_cstr. cbn. split; intros [Hk Hi]; (split; [done|]).
  - intros i ?. apply (Hi (S i)). lia.
  - intros [|i] ?; cbn; [eauto|]. apply Hi. lia.
Qed.

Lemma is_cstr_cases s k :
  is_cstr s k -> (k = 0%nat /\ exists s', s = 0 :: s') \/
                 exists c s' k', s = c :: s' /\ k = S k' /\ c <> 0 /\ is_cstr s' k'.
Proof.
  intros [Hk Hi]. destruct k as [|k].
  - left. destruct s; cbn in *; [done|]. injection Hk as ->. eauto.
  - right. destruct s as [|c s]; [done|]. destruct (Hi 0%nat) as (c' & [= <-] & Hc); [lia|].
    exists c, s, k. split_and!; try done. apply (is_cstr_cons c); done.
Qed.

Lemma sddf_strlen_spec s k : is_cstr s k -> sddf_strlen s = Ok (Z.of_nat k).
Proof.
  revert k. induction s as [|x s IH]; intros k [[-> (s' & E)]|(c & s' & k' & E & -> & Hc & Hs)]%is_cstr_cases;
    try done; injection E as -> ->; cbn [sddf_strlen]; [done|].
  rewrite (proj2 (Z.eqb_neq _ _) Hc), (IH k' Hs). f_equal. lia.
Qed.

Lemma strncpy_pad_ok (rest : list Z) (n : nat) :
  (n <= length rest)%nat ->
  strncpy_pad rest (Z.of_nat n) = Ok (replicate n 0 ++ drop n rest).
Proof.
  revert rest. induction n as [|n IH]; intros rest Hn.
  - by destruct rest.
  - destruct rest as [|x rest]; cbn in Hn; [lia|]. cbn [strncpy_pad].
    rewrite (proj2 (Z.eqb_neq _ _)) by lia.
    replace (Z.of_nat (S n) - 1) with (Z.of_nat n) by lia. by rewrite IH by lia.
Qed.

Lemma strncpy_pad_overrun (rest : list Z) (todo : Z) :
  Z.of_nat (length rest) < todo -> strncpy_pad rest todo = Fault OutOfBounds.
Proof.
  revert todo. induction rest as [|x rest IH]; intros todo Ht; cbn in *;
    rewrite (proj2 (Z.eqb_neq _ _)) by lia; [done|]. by rewrite IH by lia.
Qed.

Lemma strncpy_copy_cstr (n k to : nat) (dest src : list Z) :
  is_cstr src k -> (k < n)%nat -> (to + k < length dest)%nat ->
  strncpy_copy dest (Z.of_nat to) src n
  = Ok (splice dest to (take k src ++ [0]), Z.of_nat (to + k), Z.of_nat (n - k - 1)).
Proof.
  revert k to dest src. induction n as [|n IH]; intros k to dest src Hs Hk Hto; [lia|].
  destruct (is_cstr_cases _ _ Hs) as [[-> (s' & ->)]|(c & s' & k' & -> & -> & Hc & Hs')]; cbn [strncpy_copy].
  - rewrite store_nat by lia. cbn. rewrite Nat.sub_0_r, Nat.add_0_r.
    rewrite <- (splice_nil (<[to:=0]> dest) (S to)), splice_insert_l; [done|cbn; lia].
  - rewrite store_nat by lia. rewrite (proj2 (Z.eqb_neq _ _) Hc).
    replace (Z.of_nat to + 1) with (Z.of_nat (S to)) by lia.
    rewrite (IH k') by (rewrite ?length_insert; (done || lia)). cbn [take].
    rewrite splice_insert_l by (rewrite length_app, length_take; cbn; lia).
    cbn [app]. do 3 f_equal; lia.
Qed.

Lemma strncpy_copy_long (n to : nat) (dest src : list Z) :
  (n <= length src)%nat -> (forall i c, (i < n)%nat -> src !! i = Some c -> c <> 0) ->
  (to + n <= length dest)%nat ->
  strncpy_copy dest (Z.of_nat to) src n
  = Ok (splice dest to (take n src), Z.of_nat (to + n), 2 ^ 64 - 1).
Proof.
  revert to dest src. induction n as [|n IH]; intros to dest src Hn Hnz Hto; cbn [strncpy_copy].
  - rewrite take_0, splice_nil, Nat.add_0_r. reflexivity.
  - destruct src as [|c src]; cbn in Hn; [lia|]. rewrite store_nat by lia.
    assert (c <> 0) as Hc by (apply (Hnz 0%nat); (done || lia)). rewrite (proj2 (Z.eqb_neq _ _) Hc).
    replace (Z.of_nat to + 1) with (Z.of_nat (S to)) by lia.
    rewrite IH; [|lia|intros i c' Hi Hl; by apply (Hnz (S i) c'); [lia|]|rewrite length_insert; lia].
    cbn [take]. rewrite splice_insert_l by (rewrite length_take; lia).
    replace (S to + n)%nat with (to + S n)%nat by lia. done.
Qed.

(** Value of a list of decimal digits. *)
Definition dec_value (ds : list Z) : Z := foldl (fun a d => a * 10 + d) 0 ds.

Lemma dec_fold_mono (ds : list Z) (a : Z) :
  Forall (fun d => 0 <= d <= 9) ds -> 0 <= a -> a <= foldl (fun a d => a * 10 + d) a ds.
Proof.
  revert a. induction ds as [|d ds IH]; intros a Hds Ha; cbn; [lia|].
  inversion_clear Hds as [|? ? Hd Hds']. specialize (IH (a * 10 + d) Hds' ltac:(lia)). lia.
Qed.

Lemma atoi_digits_spec (ds : list Z) (a c : Z) (rest : list Z) :
  Forall (fun d => 0 <= d <= 9) ds -> sddf_isdigit c = false -> 0 <= a ->
  foldl (fun a d => a * 10 + d) a ds <= 2 ^ 31 ->
  atoi_digits (((fun d => d + 48) <$> ds) ++ c :: rest) (- a)
  = Ok (- foldl (fun a d => a * 10 + d) a ds).
Proof.
  revert a. induction ds as [|d ds IH]; intros a Hds Hc Ha Hmax; cbn [fmap list_fmap app atoi_digits foldl].
  - by rewrite Hc.
  - inversion_clear Hds as [|? ? Hd Hds'].
    pose proof (dec_fold_mono ds (a * 10 + d) Hds' ltac:(lia)) as Hm. cbn in Hmax.
    assert (sddf_isdigit (d + 48) = true) as -> by (unfold sddf_isdigit; lia).
    assert (is_int (- a * 10) && is_int (- a * 10 - (d + 48 - 48)) = true) as -> by (unfold is_int; lia).
    replace (- a * 10 - (d + 48 - 48)) with (- (a * 10 + d)) by lia. apply IH; (done || lia).
Qed.

Lemma atoi_skip_space_spec (sp s : list Z) (c : Z) :
  Forall (fun x => sddf_isspace x = true) sp -> sddf_isspace c = false ->
  atoi_skip_space (sp ++ c :: s) = Ok (c :: s).
Proof.
  intros Hsp Hc. induction Hsp as [|x sp Hx _ IH]; cbn.
  - by rewrite Hc.
  - by rewrite Hx.
Qed.

(** ** Properties *)

(** [sddf_memmove] between two overlapping or disjoint ranges of one object,
    both inside it, moves the source bytes as they were before the call: the
    result equals copying through a temporary, whichever range starts first,
    and no access leaves the object. *)
Theorem sddf_memmove_correct (m : list Z) (d s n : nat) :
  (d + n <= length m)%nat -> (s + n <= length m)%nat ->
  sddf_memmove m (Z.of_nat d) (Z.of_nat s) (Z.of_nat n) = Ok (splice m d (take n (drop s m))).
Proof.
  intros Hd Hs. unfold sddf_memmove. destruct (Z.eqb_spec (Z.of_nat d) (Z.of_nat s)) as [E|Hne].
  - apply Nat2Z.inj in E as ->. f_equal. apply list_eq. intros i.
    rewrite splice_lookup by (rewrite length_take, length_drop; lia).
    case_decide as Hi; [|done]. rewrite length_take, length_drop in Hi.
    rewrite lookup_take_lt, lookup_drop by lia. f_equal. lia.
  - rewrite Nat2Z.id. destruct (Z.ltb_spec (Z.of_nat s) (Z.of_nat d)).
    + rewrite <- (memmove_backward m d s n 0 n) by lia. by rewrite take_0, splice_nil.
    + rewrite <- (memmove_forward m d s n 0 n) by lia. by rewrite take_0, splice_nil.
Qed.

Lemma sddf_memmove_correct_witness :
  sddf_memmove [1; 2; 3; 4; 5; 6] 2 0 4 = Ok [1; 2; 1; 2; 3; 4] /\
  sddf_memmove [1; 2; 3; 4; 5; 6] 0 1 4 = Ok [2; 3; 4; 5; 5; 6].
Proof.
  split.
  - apply (sddf_memmove_correct [1; 2; 3; 4; 5; 6] 2 0 4); cbn; lia.
  - apply (sddf_memmove_correct [1; 2; 3; 4; 5; 6] 0 1 4); cbn; lia.
Defined.

(** [sddf_strncpy] with a source that has no terminator in its first [dsize]
    bytes runs off the destination: the size has wrapped to [2^64 - 1] when
    the padding loop starts, so it writes zeros until an access is out of
    bounds, for every destination that fits in memory. *)
Theorem sddf_strncpy_unterminated_overruns (dest src : list Z) (n : nat) :
  (n <= length src)%nat -> (forall i c, (i < n)%nat -> src !! i = Some c -> c <> 0) ->
  (n <= length dest)%nat -> Z.of_nat (length dest) < 2 ^ 64 - 1 ->
  sddf_strncpy dest src (Z.of_nat n) = Fault OutOfBounds.
Proof.
  intros Hs Hnz Hd Hmax. unfold sddf_strncpy. rewrite Nat2Z.id. change 0 with (Z.of_nat 0) at 1.
  rewrite (strncpy_copy_long n 0 dest src) by done. cbn [Nat.add]. rewrite strncpy_pad_overrun; [done|].
  rewrite length_drop, length_splice by (rewrite length_take; lia). lia.
Qed.

Lemma sddf_strncpy_unterminated_overruns_witness :
  sddf_strncpy [0; 0; 0; 0; 0; 0; 0; 0] [97; 98; 99; 0] 2 = Fault OutOfBounds.
Proof.
  apply (sddf_strncpy_unterminated_overruns [0; 0; 0; 0; 0; 0; 0; 0] [97; 98; 99; 0] 2); [cbn; lia| |cbn; lia..].
  intros i c Hi Hc. destruct i as [|[|i]]; [injection Hc as <-; lia..|lia].
Defined.

(** [sddf_strncpy] of a terminated source of length [k < dsize] copies it with
    its terminator and pads with zeros up to index [dsize - 2]: the last of the
    [dsize] bytes keeps its old value, unless the terminator itself is there. *)
Theorem sddf_strncpy_terminated (dest src : list Z) (k n : nat) :
  is_cstr src k -> (k < n)%nat -> (n <= length dest)%nat ->
  sddf_strncpy dest src (Z.of_nat n)
  = Ok (splice dest 0 (take k src ++ replicate (Nat.max 1 (n - 1 - k)) 0)).
Proof.
  intros Hs Hk Hn. unfold sddf_strncpy. rewrite Nat2Z.id. change 0 with (Z.of_nat 0) at 1.
  rewrite (strncpy_copy_cstr n k 0 dest src) by (done || lia). cbn [Nat.add].
  assert (length (take k src) = k) as Hlk.
  { rewrite length_take. apply Nat.min_l. destruct Hs as [Hl _]. apply lookup_lt_Some in Hl. lia. }
  assert (length (splice dest 0 (take k src ++ [0])) = length dest) as Hls.
  { apply length_splice. rewrite length_app, Hlk. cbn. lia. }
  rewrite strncpy_pad_ok by (rewrite length_drop, Nat2Z.id; lia).
  rewrite Nat2Z.id. f_equal. unfold splice.
  rewrite !length_app, length_replicate, Hlk, !take_0, !app_nil_l, <- !app_assoc, !Nat.add_0_l. cbn [length].
  rewrite take_app_length', drop_app_length' by lia. f_equal.
  destruct (n - k - 1)%nat as [|j] eqn:Ej.
  - replace (Nat.max 1 (n - 1 - k)) with 1%nat by lia. done.
  - replace (Nat.max 1 (n - 1 - k)) with (S j) by lia. cbn. do 2 f_equal.
    rewrite drop_drop. f_equal. lia.
Qed.

Lemma sddf_strncpy_terminated_witness :
  sddf_strncpy [9; 9; 9; 9; 9] [97; 0] 4 = Ok [97; 0; 0; 9; 9].
Proof.
  apply (sddf_strncpy_terminated [9; 9; 9; 9; 9] [97; 0] 1 4); [|cbn; lia..].
  split; [done|]. intros [|i] ?; [|lia]. exists 97. done.
Defined.

(** [sddf_atoi] parses white space, an optional sign and a non-empty run of
    decimal digits followed by any other character: it returns the decimal
    value with that sign, without overflow, whenever the value is at most
    [INT_MAX]. *)
Theorem sddf_atoi_correct (sp ds rest : list Z) (sg c : Z) :
  Forall (fun x => sddf_isspace x = true) sp ->
  Forall (fun d => 0 <= d <= 9) ds -> ds <> [] ->
  sddf_isdigit c = false ->
  dec_value ds < 2 ^ 31 ->
  let digits := ((fun d => d + 48) <$> ds) ++ c :: rest in
  sddf_atoi (sp ++ digits) = Ok (dec_value ds) /\
  sddf_atoi (sp ++ 43 :: digits) = Ok (dec_value ds) /\
  sddf_atoi (sp ++ 45 :: digits) = Ok (- dec_value ds).
Proof.
  intros Hsp Hds Hne Hc Hmax digits.
  pose proof (dec_fold_mono ds 0 Hds ltac:(lia)) as Hpos. fold (dec_value ds) in Hpos.
  assert (atoi_digits digits 0 = Ok (- dec_value ds)) as Hd.
  { change 0 with (- 0). apply atoi_digits_spec; [done..|lia|fold (dec_value ds); lia]. }
  assert (is_int (- - dec_value ds) = true) as Hi by (unfold is_int; lia).
  unfold sddf_atoi. split_and!.
  - destruct ds as [|d ds']; [done|]. inversion Hds as [|? ? Hd0 _]; subst. cbn [fmap list_fmap app] in *.
    unfold digits at 1. rewrite atoi_skip_space_spec; [|done|unfold sddf_isspace; lia].
    rewrite !(proj2 (Z.eqb_neq _ _)) by lia. fold digits. rewrite Hd, Hi. f_equal. lia.
  - rewrite atoi_skip_space_spec by done. cbn. rewrite Hd, Hi. f_equal. lia.
  - rewrite atoi_skip_space_spec by done. cbn. rewrite Hd, Hi. f_equal. lia.
Qed.

Lemma sddf_atoi_correct_witness :
  sddf_atoi [32; 45; 49; 50; 0] = Ok (-12).
Proof.
  apply (sddf_atoi_correct [32] [1; 2] [] 0 0); [by repeat constructor|repeat constructor; lia|done|done|by vm_compute].
Defined.
