(* ===== verification/RingQueue.v ===== *)
(** * Queues with 32-bit indices

    The block, I2C, sound, GPU and SPI queues repeat the same four C bodies:
    test, slot, copy, increment.  [ring] is the shared structure (two indices
    and the entries), a [RingLens] says where a handle keeps one ring and its
    capacity, and [lens_enqueue] .. [lens_length] are the bodies.  The file of
    each queue instantiates them under the names of its header. *)

From S2P Require Import Prelude Ring Fifo.

Record ring (A : Type) : Type := mk_ring {
  r_tail : Z; (* uint32_t *)
  r_head : Z; (* uint32_t *)
  r_buffers : list A;
}.
Arguments mk_ring {A} _ _ _.
Arguments r_tail {A} _.
Arguments r_head {A} _.
Arguments r_buffers {A} _.

(** [H] holds a ring of [A]; [rl_rest] is the rest of [H].  [rl_slack] is the
    number of entries the test for a full ring keeps unused: 1 in the I2C
    queues, 0 in all others.  [rl_eq] says how the header tests for an empty
    ring: [tail == head] if it is true, [tail - head == 0] otherwise. *)
Class RingLens (H A R : Type) := {
  rl_view : H -> ring A;
  rl_set : ring A -> H -> H;
  rl_cap : H -> Z;
  rl_slack : Z;
  rl_eq : bool;
  rl_rest : H -> R;
}.

Class RingLensLaws {H A R} (L : RingLens H A R) := {
  rl_view_set r h : rl_view (rl_set r h) = r;
  rl_cap_set r h : rl_cap (rl_set r h) = rl_cap h;
  rl_rest_set r h : rl_rest (rl_set r h) = rl_rest h;
  rl_slack_range : 0 <= rl_slack <= 1;
}.

Section lens.
Context {H A R : Type} `{!Inhabited A} {L : RingLens H A R}.

(** [tail == head] or [tail - head == 0], in [uint32_t]. *)
Definition lens_empty (h : H) : bool :=
  if rl_eq then r_tail (rl_view h) =? r_head (rl_view h)
  else u32 (r_tail (rl_view h) - r_head (rl_view h)) =? 0.

(** [tail - head == capacity], in [uint32_t]. *)
Definition lens_full (h : H) : bool :=
  u32 (r_tail (rl_view h) - r_head (rl_view h) + rl_slack) =? rl_cap h.

Definition lens_length (h : H) : Z := u32 (r_tail (rl_view h) - r_head (rl_view h)).

Definition lens_enqueue (x : A) : M H Z :=
  h ← get;
  if lens_full h then mret (-1) else
  let q := rl_view h in
  slot ← lift (umod (r_tail q) (rl_cap h));
  bufs ← lift (store (r_buffers q) slot x);
  put (rl_set (mk_ring (u32 (r_tail q + 1)) (r_head q) bufs) h);;
  mret 0.

Definition lens_dequeue : M H (option A) :=
  h ← get;
  if lens_empty h then mret None else
  let q := rl_view h in
  slot ← lift (umod (r_head q) (rl_cap h));
  x ← lift (load (r_buffers q) slot);
  put (rl_set (mk_ring (r_tail q) (u32 (r_head q + 1)) (r_buffers q)) h);;
  mret (Some x).

(** The list a ring stands for. *)
Definition lens_items (h : H) : list A :=
  let q := rl_view h in
  ring_list (rl_cap h) (r_head q) (ring_len (2 ^ 32) (r_head q) (r_tail q)) (r_buffers q).

Definition lens_wf (h : H) : Prop :=
  let q := rl_view h in
  ring_wf (2 ^ 32) (rl_cap h) (r_head q) (r_tail q) (r_buffers q)
  /\ ring_len (2 ^ 32) (r_head q) (r_tail q) + rl_slack <= rl_cap h.

#[export] Instance lens_fifo_ops : FifoOps H A R := {
  fifo_wf := lens_wf;
  fifo_items := lens_items;
  fifo_cap h := rl_cap h - rl_slack;
  fifo_rest := rl_rest;
  fifo_enq := lens_enqueue;
  fifo_deq := lens_dequeue;
}.

Lemma lens_length_spec h : lens_wf h -> lens_length h = Z.of_nat (length (lens_items h)).
Proof. intros [Hwf _]. symmetry. by eapply ring_contents_length. Qed.

Lemma lens_empty_spec h : lens_wf h -> lens_empty h = true <-> lens_items h = [].
Proof.
  intros Hwf. assert (lens_empty h = (lens_length h =? 0)) as ->.
  { unfold lens_empty, lens_length. destruct rl_eq; [|done].
    destruct Hwf as [[] _]. apply eq_true_iff_eq. rewrite !Z.eqb_eq. uint_lia. }
  rewrite lens_length_spec, Z.eqb_eq by done. destruct (lens_items h); cbn; split; (done || lia).
Qed.

Lemma lens_empty_cons h x l : lens_wf h -> lens_items h = x :: l -> lens_empty h = false.
Proof.
  intros Hwf E. destruct (lens_empty h) eqn:F; [|done].
  apply (lens_empty_spec h Hwf) in F. congruence.
Qed.

Context {LL : RingLensLaws L}.

Lemma lens_full_spec h :
  lens_wf h -> lens_full h = (Z.of_nat (length (lens_items h)) =? rl_cap h - rl_slack).
Proof.
  intros Hwf. rewrite <- lens_length_spec by done. unfold lens_full, lens_length.
  destruct Hwf as [Hwf Hle]. pose proof (ring_cap_half _ _ _ _ _ Hwf).
  pose proof rl_slack_range. pose proof (ring_cap_pos _ _ _ _ _ Hwf).
  unfold ring_len in Hle. apply eq_true_iff_eq. rewrite !Z.eqb_eq. uint_lia.
Qed.

#[export] Instance lens_fifo_laws : FifoLaws lens_fifo_ops.
Proof using LL.
  split; cbn.
  - intros h Hwf. rewrite <- lens_length_spec by done. destruct Hwf as [? Hle].
    change (lens_length h) with (ring_len (2 ^ 32) (r_head (rl_view h)) (r_tail (rl_view h))). lia.
  - intros h x Hwf Hroom. unfold lens_enqueue. repeat wp_step.
    rewrite (lens_full_spec h Hwf). rewrite (proj2 (Z.eqb_neq _ _)) by lia.
    rewrite <- lens_length_spec in Hroom by done. destruct Hwf as [Hwf Hle].
    change (lens_length h) with (ring_len (2 ^ 32) (r_head (rl_view h)) (r_tail (rl_view h))) in Hroom.
    pose proof rl_slack_range.
    assert (ring_len (2 ^ 32) (r_head (rl_view h)) (r_tail (rl_view h)) < rl_cap h) as Hlt by lia.
    pose proof (ring_len_enq _ _ _ _ _ Hwf Hlt) as Hlen.
    wp_step. eapply wp_lift; [apply umod_ok; destruct Hwf; lia|].
    wp_step. eapply wp_lift; [by eapply ring_store_slot|].
    repeat wp_step. unfold lens_wf, lens_items. rewrite rl_view_set, rl_cap_set, rl_rest_set. cbn.
    unfold u32. rewrite Hlen.
    split_and!; [done|by apply ring_enq_wf|lia| |done..].
    rewrite <- Hlen. by apply ring_enq_contents.
  - intros h Hwf Hnil. apply lens_empty_spec in Hnil; [|done].
    unfold lens_dequeue, mbind, M_bind, get. by rewrite Hnil.
  - intros h x l Hwf Hcons. unfold lens_dequeue. repeat wp_step.
    rewrite (lens_empty_cons h x l) by done.
    pose proof (lens_length_spec h Hwf) as Hlen. rewrite Hcons in Hlen. cbn in Hlen.
    destruct Hwf as [Hwf Hle].
    change (lens_length h) with (ring_len (2 ^ 32) (r_head (rl_view h)) (r_tail (rl_view h))) in Hlen.
    assert (0 < ring_len (2 ^ 32) (r_head (rl_view h)) (r_tail (rl_view h))) as Hpos by lia.
    pose proof (ring_len_deq _ _ _ _ _ Hwf Hpos) as Hd.
    unfold lens_items in Hcons. rewrite (ring_deq_contents _ _ _ _ _ Hwf Hpos) in Hcons.
    injection Hcons as <- <-.
    wp_step. eapply wp_lift; [apply umod_ok; destruct Hwf; lia|].
    wp_step. eapply wp_lift; [by eapply ring_load_slot|].
    repeat wp_step. unfold lens_wf, lens_items. rewrite rl_view_set, rl_cap_set, rl_rest_set. cbn.
    unfold u32. rewrite Hd.
    split_and!; [done|by apply ring_deq_wf|lia|done..].
Qed.

#[export] Instance lens_fifo_full : FifoFull lens_fifo_ops.
Proof using LL.
  intros h x Hwf E. cbn in *. unfold lens_enqueue, mbind, M_bind, get.
  by rewrite lens_full_spec, (proj2 (Z.eqb_eq _ _) E) by done.
Qed.

Lemma lens_bounded h : lens_wf h -> Z.of_nat (length (lens_items h)) <= rl_cap h - rl_slack.
Proof using LL. apply (fifo_bounded (O := lens_fifo_ops)). Qed.

(** The two operations as continuation rules. *)
Lemma lens_enqueue_spec h x (Q : Z -> H -> Prop) :
  lens_wf h -> Z.of_nat (length (lens_items h)) < rl_cap h - rl_slack ->
  (forall h', lens_wf h' -> lens_items h' = lens_items h ++ [x] ->
     rl_cap h' = rl_cap h -> rl_rest h' = rl_rest h -> Q 0 h') ->
  wp (lens_enqueue x) h Q.
Proof using LL.
  intros Hwf Hr HQ. eapply wp_mono; [by apply (fifo_enq_room (O := lens_fifo_ops) h x)|].
  intros r h' (-> & ? & ? & Hc & ?). cbn in Hc. apply HQ; (done || lia).
Qed.

Lemma lens_dequeue_spec h x l (Q : option A -> H -> Prop) :
  lens_wf h -> lens_items h = x :: l ->
  (forall h', lens_wf h' -> lens_items h' = l ->
     rl_cap h' = rl_cap h -> rl_rest h' = rl_rest h -> Q (Some x) h') ->
  wp lens_dequeue h Q.
Proof using LL.
  intros Hwf Hr HQ. eapply wp_mono; [by apply (fifo_deq_cons (O := lens_fifo_ops) h x l)|].
  intros r h' (-> & ? & ? & Hc & ?). cbn in Hc. apply HQ; (done || lia).
Qed.

End lens.
Arguments lens_items {H A R _ L} h : simpl never.
Arguments lens_wf {H A R L} h : simpl never.
