(* ===== verification/NetQueue.v ===== *)
(** * Network queues: include/sddf/network/queue.h

    A queue handle holds two rings, [free] and [active], of 16-bit free-running
    indices.  The C file writes every operation twice, once per ring; here an
    operation takes the ring as a [side] and the two C functions are its
    instances. *)

From S2P Require Import Prelude Ring Fifo.

(** [NET_BUFFER_SIZE] of include/sddf/network/constants.h. *)
Definition NET_BUFFER_SIZE : Z := 2048.

Record net_buff_desc : Type := mk_buff {
  io_or_offset : Z; (* uint64_t *)
  bd_len : Z;       (* uint16_t *)
}.

#[export] Instance net_buff_desc_inhabited : Inhabited net_buff_desc := populate (mk_buff 0 0).
#[export] Instance net_buff_desc_eq_dec : EqDecision net_buff_desc.
Proof. solve_decision. Defined.

Record net_queue : Type := mk_net_queue {
  nq_tail : Z;               (* uint16_t *)
  nq_head : Z;               (* uint16_t *)
  nq_consumer_signalled : Z; (* uint32_t *)
  nq_buffers : list net_buff_desc;
}.

Record net_queue_handle : Type := mk_net_handle {
  nh_free : net_queue;
  nh_active : net_queue;
  nh_capacity : Z; (* uint32_t *)
}.

#[export] Instance net_queue_handle_inhabited : Inhabited net_queue_handle :=
  populate (mk_net_handle (mk_net_queue 0 0 0 []) (mk_net_queue 0 0 0 []) 0).

Definition set_nq_tail (t : Z) (q : net_queue) : net_queue :=
  mk_net_queue t (nq_head q) (nq_consumer_signalled q) (nq_buffers q).
Definition set_nq_head (h : Z) (q : net_queue) : net_queue :=
  mk_net_queue (nq_tail q) h (nq_consumer_signalled q) (nq_buffers q).
Definition set_nq_signalled (b : Z) (q : net_queue) : net_queue :=
  mk_net_queue (nq_tail q) (nq_head q) b (nq_buffers q).
Definition set_nq_buffers (l : list net_buff_desc) (q : net_queue) : net_queue :=
  mk_net_queue (nq_tail q) (nq_head q) (nq_consumer_signalled q) l.

(** Which ring of a handle an operation works on. *)
Inductive side : Type := Free | Active.

Definition nh_ring (sd : side) (h : net_queue_handle) : net_queue :=
  match sd with Free => nh_free h | Active => nh_active h end.
Definition set_nh_ring (sd : side) (q : net_queue) (h : net_queue_handle) : net_queue_handle :=
  match sd with
  | Free => mk_net_handle q (nh_active h) (nh_capacity h)
  | Active => mk_net_handle (nh_free h) q (nh_capacity h)
  end.
Definition other (sd : side) : side := match sd with Free => Active | Active => Free end.

(** The result type is [uint16_t]. *)
Definition net_queue_length (q : net_queue) : Z := u16 (nq_tail q - nq_head q).

(** [tail - head == 0]: both operands are promoted to [int]. *)
Definition net_queue_empty (sd : side) (queue : net_queue_handle) : bool :=
  nq_tail (nh_ring sd queue) - nq_head (nh_ring sd queue) =? 0.
Definition net_queue_empty_free : net_queue_handle -> bool := net_queue_empty Free.
Definition net_queue_empty_active : net_queue_handle -> bool := net_queue_empty Active.

(** [tail - head == capacity]: the difference is an [int], possibly negative,
    which the comparison with the [uint32_t] capacity converts to 32 bits (not
    to the 16 bits of the indices). *)
Definition net_queue_full (sd : side) (queue : net_queue_handle) : bool :=
  u32 (nq_tail (nh_ring sd queue) - nq_head (nh_ring sd queue)) =? nh_capacity queue.
Definition net_queue_full_free : net_queue_handle -> bool := net_queue_full Free.
Definition net_queue_full_active : net_queue_handle -> bool := net_queue_full Active.

Definition net_enqueue (sd : side) (buffer : net_buff_desc) : M net_queue_handle Z :=
  queue ← get;
  if net_queue_full sd queue then mret (-1) else
  let q := nh_ring sd queue in
  slot ← lift (umod (nq_tail q) (nh_capacity queue));
  bufs ← lift (store (nq_buffers q) slot buffer);
  put (set_nh_ring sd (set_nq_tail (u16 (nq_tail q + 1)) (set_nq_buffers bufs q)) queue);;
  mret 0.
Definition net_enqueue_free : net_buff_desc -> M net_queue_handle Z := net_enqueue Free.
Definition net_enqueue_active : net_buff_desc -> M net_queue_handle Z := net_enqueue Active.

(** [None] is the return of -1, in which case [*buffer] is not written. *)
Definition net_dequeue (sd : side) : M net_queue_handle (option net_buff_desc) :=
  queue ← get;
  if net_queue_empty sd queue then mret None else
  let q := nh_ring sd queue in
  slot ← lift (umod (nq_head q) (nh_capacity queue));
  buffer ← lift (load (nq_buffers q) slot);
  put (set_nh_ring sd (set_nq_head (u16 (nq_head q + 1)) q) queue);;
  mret (Some buffer).
Definition net_dequeue_free : M net_queue_handle (option net_buff_desc) := net_dequeue Free.
Definition net_dequeue_active : M net_queue_handle (option net_buff_desc) := net_dequeue Active.

Definition net_queue_init (free active : net_queue) (capacity : Z) : net_queue_handle :=
  mk_net_handle free active capacity.

(** [NET_BUFFER_SIZE * i] is computed in 32 bits ([i] is a [uint32_t]). *)
Definition net_buffers_init (base_addr : Z) : M net_queue_handle unit :=
  queue ← get;
  for_upto (nh_capacity queue) (fun i =>
    err ← net_enqueue_free (mk_buff (u64 (u32 (NET_BUFFER_SIZE * i) + base_addr)) 0);
    assert_ (err =? 0)).

Definition net_set_signalled (sd : side) (b : Z) (queue : net_queue_handle) : net_queue_handle :=
  set_nh_ring sd (set_nq_signalled b (nh_ring sd queue)) queue.
Definition net_request_signal_free : M net_queue_handle unit := modify (net_set_signalled Free 0).
Definition net_request_signal_active : M net_queue_handle unit := modify (net_set_signalled Active 0).
Definition net_cancel_signal_free : M net_queue_handle unit := modify (net_set_signalled Free 1).
Definition net_cancel_signal_active : M net_queue_handle unit := modify (net_set_signalled Active 1).

Definition net_require_signal (sd : side) (queue : net_queue_handle) : bool :=
  nq_consumer_signalled (nh_ring sd queue) =? 0.
Definition net_require_signal_free : net_queue_handle -> bool := net_require_signal Free.
Definition net_require_signal_active : net_queue_handle -> bool := net_require_signal Active.

(** ** The list a ring stands for *)

Definition net_items (sd : side) (h : net_queue_handle) : list net_buff_desc :=
  let q := nh_ring sd h in
  ring_list (nh_capacity h) (nq_head q) (ring_len (2 ^ 16) (nq_head q) (nq_tail q)) (nq_buffers q).

Definition net_wf (sd : side) (h : net_queue_handle) : Prop :=
  let q := nh_ring sd h in
  ring_wf (2 ^ 16) (nh_capacity h) (nq_head q) (nq_tail q) (nq_buffers q).

Arguments net_items sd h : simpl never.
Arguments net_wf sd h : simpl never.

Lemma nh_ring_set (sd : side) q h : nh_ring sd (set_nh_ring sd q h) = q.
Proof. by destruct sd. Qed.

Lemma nh_ring_set_other (sd : side) q h : nh_ring (other sd) (set_nh_ring sd q h) = nh_ring (other sd) h.
Proof. by destruct sd. Qed.

Lemma nh_capacity_set (sd : side) q h : nh_capacity (set_nh_ring sd q h) = nh_capacity h.
Proof. by destruct sd. Qed.
#[export] Hint Rewrite nh_ring_set nh_ring_set_other nh_capacity_set : uint_rw.

(** What one operation on a ring leaves alone: the other ring and the ring's
    signalling flag. *)
Definition net_rest (sd : side) (h : net_queue_handle) : net_queue * Z :=
  (nh_ring (other sd) h, nq_consumer_signalled (nh_ring sd h)).

#[export] Instance net_fifo_ops (sd : side) : FifoOps net_queue_handle net_buff_desc (net_queue * Z) := {
  fifo_wf := net_wf sd;
  fifo_items := net_items sd;
  fifo_cap := nh_capacity;
  fifo_rest := net_rest sd;
  fifo_enq := net_enqueue sd;
  fifo_deq := net_dequeue sd;
}.

Lemma net_items_length (sd : side) h :
  net_wf sd h -> Z.of_nat (length (net_items sd h)) = ring_len (2 ^ 16) (nq_head (nh_ring sd h)) (nq_tail (nh_ring sd h)).
Proof. apply ring_contents_length. Qed.

Lemma net_length_spec (sd : side) h :
  net_wf sd h -> Z.to_nat (net_queue_length (nh_ring sd h)) = length (net_items sd h).
Proof. intros Hwf. rewrite <- Nat2Z.id. f_equal. symmetry. by apply net_items_length. Qed.

Lemma net_empty_spec (sd : side) h : net_wf sd h -> net_queue_empty sd h = true <-> net_items sd h = [].
Proof.
  intros Hwf. unfold net_items. rewrite <- (ring_empty_iff _ _ _ _ _ Hwf).
  unfold net_queue_empty. rewrite Z.eqb_eq. lia.
Qed.

Lemma net_empty_nil (sd : side) h : net_wf sd h -> net_items sd h = [] -> net_queue_empty sd h = true.
Proof. intros. by apply net_empty_spec. Qed.

Lemma net_empty_cons (sd : side) h b l : net_wf sd h -> net_items sd h = b :: l -> net_queue_empty sd h = false.
Proof.
  intros Hwf E. destruct (net_queue_empty sd h) eqn:F; [|done].
  apply (net_empty_spec sd h Hwf) in F. congruence.
Qed.

(** The test for a full ring is exact only while the tail has not wrapped past
    the head. *)
Lemma net_full_spec (sd : side) h :
  net_wf sd h ->
  net_queue_full sd h = true <->
  Z.of_nat (length (net_items sd h)) = nh_capacity h /\ nq_head (nh_ring sd h) <= nq_tail (nh_ring sd h).
Proof.
  intros Hwf. rewrite net_items_length by done. destruct Hwf.
  unfold net_queue_full, ring_len. rewrite Z.eqb_eq. uint_lia.
Qed.

Lemma net_full_room (sd : side) h :
  net_wf sd h -> Z.of_nat (length (net_items sd h)) < nh_capacity h -> net_queue_full sd h = false.
Proof.
  intros Hwf Hr. destruct (net_queue_full sd h) eqn:F; [|done].
  apply (net_full_spec sd h Hwf) in F. lia.
Qed.

#[export] Instance net_fifo_laws (sd : side) : FifoLaws (net_fifo_ops sd).
Proof.
  split; cbn.
  - intros h Hwf. rewrite net_items_length by done. by destruct Hwf.
  - intros h x Hwf Hroom. unfold net_enqueue. repeat wp_step.
    rewrite (net_full_room sd h) by done. rewrite (net_items_length sd h Hwf) in Hroom.
    wp_step.
    eapply wp_lift; [apply umod_ok; destruct Hwf; lia|].
    wp_step. eapply wp_lift; [by eapply ring_store_slot|].
    repeat wp_step. unfold net_wf, net_items, net_rest. autorewrite with uint_rw. cbn.
    split_and!; [done| | |done..].
    + by apply ring_enq_wf.
    + by apply ring_enq_contents.
  - intros h Hwf Hnil. unfold net_dequeue, mbind, M_bind, get. by rewrite net_empty_nil.
  - intros h x l Hwf Hcons. unfold net_dequeue. repeat wp_step.
    rewrite (net_empty_cons sd h x l) by done.
    assert (0 < ring_len (2 ^ 16) (nq_head (nh_ring sd h)) (nq_tail (nh_ring sd h))) as Hlen.
    { rewrite <- net_items_length, Hcons by done. cbn. lia. }
    unfold net_items in Hcons. rewrite (ring_deq_contents _ _ _ _ _ Hwf Hlen) in Hcons.
    injection Hcons as <- <-.
    wp_step. eapply wp_lift; [apply umod_ok; destruct Hwf; lia|].
    wp_step. eapply wp_lift; [by eapply ring_load_slot|].
    repeat wp_step. unfold net_wf, net_items, net_rest. autorewrite with uint_rw. cbn.
    split_and!; [done| |done..]. by apply ring_deq_wf.
Qed.

(** ** Specifications used by the components *)

Lemma net_enqueue_spec (sd : side) h b (Q : Z -> net_queue_handle -> Prop) :
  net_wf sd h -> Z.of_nat (length (net_items sd h)) < nh_capacity h ->
  (forall h', net_wf sd h' -> net_items sd h' = net_items sd h ++ [b] ->
     nh_capacity h' = nh_capacity h -> net_rest sd h' = net_rest sd h -> Q 0 h') ->
  wp (net_enqueue sd b) h Q.
Proof.
  intros Hwf Hr HQ. eapply wp_mono; [by apply (fifo_enq_room (O := net_fifo_ops sd) h b)|].
  intros r h' (-> & ? & ? & ? & ?). auto.
Qed.

Lemma net_dequeue_spec (sd : side) h b l (Q : option net_buff_desc -> net_queue_handle -> Prop) :
  net_wf sd h -> net_items sd h = b :: l ->
  (forall h', net_wf sd h' -> net_items sd h' = l ->
     nh_capacity h' = nh_capacity h -> net_rest sd h' = net_rest sd h -> Q (Some b) h') ->
  wp (net_dequeue sd) h Q.
Proof.
  intros Hwf Hc HQ. eapply wp_mono; [by apply (fifo_deq_cons (O := net_fifo_ops sd) h b l)|].
  intros r h' (-> & ? & ? & ? & ?). auto.
Qed.

(** The rest of a ring determines the other ring entirely. *)
Lemma net_rest_other (sd : side) h h' :
  net_rest sd h' = net_rest sd h -> nh_capacity h' = nh_capacity h ->
  (net_wf (other sd) h' <-> net_wf (other sd) h) /\ net_items (other sd) h' = net_items (other sd) h.
Proof. intros [= E _] Ec. unfold net_wf, net_items. by rewrite E, Ec. Qed.

Lemma net_set_signalled_wf (sd sd' : side) b h : net_wf sd (net_set_signalled sd' b h) <-> net_wf sd h.
Proof. by destruct sd, sd'. Qed.

Lemma net_set_signalled_items (sd sd' : side) b h : net_items sd (net_set_signalled sd' b h) = net_items sd h.
Proof. by destruct sd, sd'. Qed.

Lemma net_set_signalled_capacity (sd : side) b h : nh_capacity (net_set_signalled sd b h) = nh_capacity h.
Proof. by destruct sd. Qed.
#[export] Hint Rewrite net_set_signalled_wf net_set_signalled_items net_set_signalled_capacity : uint_rw.

(** ** Properties *)

(** C30. The free and the active ring of a network queue are bounded FIFOs: any
    sequence of enqueues and dequeues on a well-formed ring that never
    enqueues into a full ring returns exactly what the abstract queue returns,
    entry by entry and return code by return code, never faults, ends in a
    well-formed ring holding the abstract queue's list (whatever the indices,
    and so across their 16-bit wrap-around), and leaves the other ring and the
    signalling flag alone. *)
Theorem net_queue_refines_fifo (sd : side) (ops : list (fifo_op net_buff_desc)) (h : net_queue_handle) :
  net_wf sd h ->
  fifo_never_full (nh_capacity h) ops (net_items sd h) = true ->
  wp (fifo_impl_run (O := net_fifo_ops sd) ops) h (fun bs h' =>
    bs = (fifo_spec_run (nh_capacity h) ops (net_items sd h)).1 /\
    net_wf sd h' /\
    net_items sd h' = (fifo_spec_run (nh_capacity h) ops (net_items sd h)).2 /\
    nh_capacity h' = nh_capacity h /\ net_rest sd h' = net_rest sd h).
Proof.
  intros Hwf Hok.
  by apply (fifo_refines_room (O := net_fifo_ops sd) (nh_capacity h) (net_rest sd h)).
Qed.

(** A ring of capacity 4 about to wrap: two entries, tail at index 0. *)
Definition net_ring_ex : net_queue :=
  mk_net_queue 0 65534 1 [mk_buff 0 0; mk_buff 2048 0; mk_buff 4096 0; mk_buff 6144 0].
Definition net_handle_ex : net_queue_handle := mk_net_handle net_ring_ex (mk_net_queue 0 0 1 (replicate 4 (mk_buff 0 0))) 4.

Lemma net_ring_ex_wf : net_wf Free net_handle_ex.
Proof. split; cbn; try lia; [by exists 16384|]. by vm_compute. Qed.

Lemma net_queue_refines_fifo_witness :
  let ops := [Enq (mk_buff 8192 0); Deq; Deq; Enq (mk_buff 10240 0); Deq] in
  net_wf Free net_handle_ex /\
  fifo_never_full 4 ops (net_items Free net_handle_ex) = true /\
  exists h', fifo_impl_run (O := net_fifo_ops Free) ops net_handle_ex
             = Ok ([ObsEnq 0; ObsDeq (Some (mk_buff 4096 0)); ObsDeq (Some (mk_buff 6144 0));
                    ObsEnq 0; ObsDeq (Some (mk_buff 8192 0))], h').
Proof.
  intros ops. split; [exact net_ring_ex_wf|]. split; [by vm_compute|].
  pose proof (net_queue_refines_fifo Free ops net_handle_ex net_ring_ex_wf eq_refl) as H.
  apply wp_elim in H. destruct H as (bs & h' & E & -> & _). exists h'. rewrite E. reflexivity.
Defined.

(** The test for a full ring compares an [int] difference of the 16-bit
    indices with the capacity, so once the tail has wrapped past the head a
    full ring is not seen as full: the enqueue succeeds, the ring then claims
    one entry more than its capacity, and the slot of the oldest entry holds
    the new one. *)
Theorem net_enqueue_overwrites_full_wrapped (sd : side) (h : net_queue_handle) (b : net_buff_desc) :
  net_wf sd h ->
  Z.of_nat (length (net_items sd h)) = nh_capacity h ->
  nq_tail (nh_ring sd h) < nq_head (nh_ring sd h) ->
  wp (net_enqueue sd b) h (fun r h' =>
    r = 0 /\
    net_queue_length (nh_ring sd h') = nh_capacity h + 1 /\
    nq_head (nh_ring sd h') = nq_head (nh_ring sd h) /\
    nq_buffers (nh_ring sd h') !!! Z.to_nat (nq_head (nh_ring sd h) mod nh_capacity h) = b).
Proof.
  intros Hwf Hlen Hwrap. rewrite net_items_length in Hlen by done.
  pose proof (ring_full_slot _ _ _ _ _ Hwf Hlen) as Hslot. unfold net_enqueue. repeat wp_step.
  destruct (net_queue_full sd h) eqn:F; [apply (net_full_spec sd h Hwf) in F; lia|].
  wp_step. eapply wp_lift; [apply umod_ok; destruct Hwf; lia|].
  wp_step. eapply wp_lift; [by eapply ring_store_slot|].
  repeat wp_step. rewrite nh_ring_set. cbn.
  split_and!; [done| |done|].
  - unfold net_queue_length. cbn. pose proof (ring_cap_half _ _ _ _ _ Hwf). destruct Hwf. unfold ring_len in *. uint_lia.
  - rewrite Hslot, ring_lookup_insert_slot by (destruct Hwf; done). by rewrite decide_True.
Qed.

(** A full ring of capacity 4 whose tail has wrapped. *)
Definition net_full_wrapped_ex : net_queue_handle :=
  mk_net_handle (set_nq_tail 2 net_ring_ex) (nh_active net_handle_ex) 4.

Lemma net_enqueue_overwrites_full_wrapped_witness :
  wp (net_enqueue Free (mk_buff 8192 0)) net_full_wrapped_ex (fun r h' =>
    r = 0 /\ net_queue_length (nh_ring Free h') = 5 /\
    nq_head (nh_ring Free h') = 65534 /\
    nq_buffers (nh_ring Free h') !!! Z.to_nat (65534 mod 4) = mk_buff 8192 0).
Proof.
  apply (net_enqueue_overwrites_full_wrapped Free net_full_wrapped_ex (mk_buff 8192 0)).
  - split; cbn; try lia; [by exists 16384|]. by vm_compute.
  - by vm_compute.
  - by vm_compute.
Defined.

(** [n] consecutive buffers starting at [base]. *)
Definition net_buffers (base n : Z) : list net_buff_desc :=
  (fun i => mk_buff (base + NET_BUFFER_SIZE * i) 0) <$> seqZ 0 n.

Lemma net_buffers_init_spec (h : net_queue_handle) (base_addr : Z) :
  net_wf Free h -> net_items Free h = [] ->
  0 <= base_addr -> base_addr + NET_BUFFER_SIZE * nh_capacity h < 2 ^ 64 ->
  wp (net_buffers_init base_addr) h (fun _ h' =>
    net_wf Free h' /\ net_items Free h' = net_buffers base_addr (nh_capacity h) /\
    nh_capacity h' = nh_capacity h /\ net_rest Free h' = net_rest Free h).
Proof.
  intros Hwf Hnil Hb Hmax. unfold net_buffers_init, for_upto. repeat wp_step.
  assert (nh_capacity h < 2 ^ 16) as Hcap by (by destruct Hwf).
  eapply (wp_for_each (fun pre h' =>
    net_wf Free h' /\
    net_items Free h' = ((fun i => mk_buff (base_addr + NET_BUFFER_SIZE * i) 0) <$> pre) /\
    nh_capacity h' = nh_capacity h /\ net_rest Free h' = net_rest Free h)).
  - done.
  - intros pre i post h1 E (Hwf1 & Hit & Hc & Hr).
    assert (i = Z.of_nat (length pre) /\ 0 <= i < nh_capacity h) as [Hi Hir].
    { eapply lookup_seqZ_prefix; eauto. }
    wp_step. apply net_enqueue_spec; [done| |].
    + rewrite Hit, length_fmap, Hc. lia.
    + intros h2 Hwf2 Hit2 Hc2 Hr2. cbn beta.
      apply wp_assert; [done|]. rewrite Hit2, Hit, Hc2, Hr2, fmap_app. cbn.
      assert (u64 (u32 (NET_BUFFER_SIZE * i) + base_addr) = base_addr + NET_BUFFER_SIZE * i) as ->.
      { unfold NET_BUFFER_SIZE in *. rewrite u32_small, u64_small; unfold is_u32, is_u64; lia. }
      done.
  - intros h' H. exact H.
Qed.

(** [net_buffers_init] on an empty free ring enqueues without a failed
    assertion, and fills the ring with exactly one descriptor per buffer, at
    consecutive multiples of the buffer size from the base address. *)
Theorem net_buffers_init_fills (h : net_queue_handle) (base_addr : Z) :
  net_wf Free h -> net_items Free h = [] ->
  0 <= base_addr -> base_addr + NET_BUFFER_SIZE * nh_capacity h < 2 ^ 64 ->
  wp (net_buffers_init base_addr) h (fun _ h' =>
    net_wf Free h' /\ net_items Free h' = net_buffers base_addr (nh_capacity h) /\
    nh_capacity h' = nh_capacity h /\ net_rest Free h' = net_rest Free h).
Proof. apply net_buffers_init_spec. Qed.

Lemma net_buffers_init_fills_witness :
  wp (net_buffers_init 4096) (mk_net_handle (set_nq_tail 65534 net_ring_ex) (nh_active net_handle_ex) 4)
    (fun _ h' => net_wf Free h' /\ net_items Free h' = net_buffers 4096 4 /\ nh_capacity h' = 4 /\
       net_rest Free h' = (nh_active net_handle_ex, 1)).
Proof.
  apply (net_buffers_init_fills (mk_net_handle (set_nq_tail 65534 net_ring_ex) (nh_active net_handle_ex) 4) 4096);
    [|by vm_compute..].
  split; cbn; try lia; [by exists 16384|]. by vm_compute.
Defined.
