(* ===== verification/SerialQueue.v ===== *)
(** * Serial queues: include/sddf/serial/queue.h

    A byte ring: the indices are in shared memory, the bytes in a data region
    of [capacity] bytes.  Besides single characters the queue offers batches,
    which are split at the end of the region, and "local" operations that move
    an index the caller keeps private until it is published. *)

From S2P Require Import Prelude Ring Fifo CLib.

Record serial_queue : Type := mk_serial_queue {
  sq_tail : Z;              (* uint32_t *)
  sq_head : Z;              (* uint32_t *)
  sq_producer_signalled : Z; (* uint32_t *)
}.

Record serial_queue_handle : Type := mk_serial_handle {
  sh_queue : serial_queue;
  sh_capacity : Z; (* uint32_t *)
  sh_data_region : list Z;
}.

Definition set_sq_tail (t : Z) (h : serial_queue_handle) : serial_queue_handle :=
  mk_serial_handle (mk_serial_queue t (sq_head (sh_queue h)) (sq_producer_signalled (sh_queue h)))
    (sh_capacity h) (sh_data_region h).
Definition set_sq_head (hd : Z) (h : serial_queue_handle) : serial_queue_handle :=
  mk_serial_handle (mk_serial_queue (sq_tail (sh_queue h)) hd (sq_producer_signalled (sh_queue h)))
    (sh_capacity h) (sh_data_region h).
Definition set_sq_signalled (b : Z) (h : serial_queue_handle) : serial_queue_handle :=
  mk_serial_handle (mk_serial_queue (sq_tail (sh_queue h)) (sq_head (sh_queue h)) b)
    (sh_capacity h) (sh_data_region h).
Definition set_sh_data (d : list Z) (h : serial_queue_handle) : serial_queue_handle :=
  mk_serial_handle (sh_queue h) (sh_capacity h) d.

Definition serial_queue_length (h : serial_queue_handle) : Z :=
  u32 (sq_tail (sh_queue h) - sq_head (sh_queue h)).

Definition serial_queue_empty (h : serial_queue_handle) (local_head : Z) : bool :=
  local_head =? sq_tail (sh_queue h).

Definition serial_queue_full (h : serial_queue_handle) (local_tail : Z) : bool :=
  u32 (local_tail - sq_head (sh_queue h)) =? sh_capacity h.

(** Writes the slot of [local_tail] and returns the code and the incremented
    tail. *)
Definition serial_enqueue_local (local_tail : Z) (character : Z) : M serial_queue_handle (Z * Z) :=
  h ← get;
  if serial_queue_full h local_tail then mret (-1, local_tail) else
  slot ← lift (umod local_tail (sh_capacity h));
  d ← lift (store (sh_data_region h) slot character);
  put (set_sh_data d h);;
  mret (0, u32 (local_tail + 1)).

Definition serial_enqueue (character : Z) : M serial_queue_handle Z :=
  h ← get;
  let tail := sq_tail (sh_queue h) in
  if serial_queue_full h tail then mret (-1) else
  slot ← lift (umod tail (sh_capacity h));
  d ← lift (store (sh_data_region h) slot character);
  put (set_sq_tail (u32 (tail + 1)) (set_sh_data d h));;
  mret 0.

(** [None] is the return of -1. *)
Definition serial_dequeue : M serial_queue_handle (option Z) :=
  h ← get;
  let head := sq_head (sh_queue h) in
  if serial_queue_empty h head then mret None else
  slot ← lift (umod head (sh_capacity h));
  c ← lift (load (sh_data_region h) slot);
  put (set_sq_head (u32 (head + 1)) h);;
  mret (Some c).

Definition serial_dequeue_local (local_head : Z) : M serial_queue_handle (option Z * Z) :=
  h ← get;
  if serial_queue_empty h local_head then mret (None, local_head) else
  slot ← lift (umod local_head (sh_capacity h));
  c ← lift (load (sh_data_region h) slot);
  mret (Some c, u32 (local_head + 1)).

Definition serial_update_shared_tail (local_tail : Z) : M serial_queue_handle unit :=
  h ← get;
  let current_length := serial_queue_length h in
  let new_length := u32 (local_tail - sq_head (sh_queue h)) in
  assert_ (current_length <=? new_length);;
  assert_ (new_length <=? sh_capacity h);;
  put (set_sq_tail local_tail h).

Definition serial_update_shared_head (local_head : Z) : M serial_queue_handle unit :=
  h ← get;
  let current_length := serial_queue_length h in
  let new_length := u32 (sq_tail (sh_queue h) - local_head) in
  assert_ (new_length <=? current_length);;
  put (set_sq_head local_head h).

Definition serial_queue_contiguous_length (h : serial_queue_handle) : res Z :=
  match umod (sq_head (sh_queue h)) (sh_capacity h) with
  | Ok s => Ok (Z.min (u32 (sh_capacity h - s)) (serial_queue_length h))
  | Fault f => Fault f
  end.

Definition serial_queue_free (h : serial_queue_handle) : Z :=
  u32 (sh_capacity h - serial_queue_length h).

Definition serial_queue_contiguous_free (h : serial_queue_handle) : res Z :=
  match umod (sq_tail (sh_queue h)) (sh_capacity h) with
  | Ok s => Ok (Z.min (u32 (sh_capacity h - s)) (serial_queue_free h))
  | Fault f => Fault f
  end.

(** [src] is the object [src] points into, from [src] on. *)
Definition serial_enqueue_batch (num : Z) (src : list Z) : M serial_queue_handle Z :=
  h ← get;
  dst ← lift (umod (sq_tail (sh_queue h)) (sh_capacity h));
  let avail := serial_queue_free h in
  let num := Z.min num avail in
  contiguous_free ← lift (serial_queue_contiguous_free h);
  let num_prewrap := Z.min num contiguous_free in
  let num_postwrap := u32 (num - num_prewrap) in
  d1 ← lift (sddf_memcpy (sh_data_region h) dst src 0 (Z.to_nat num_prewrap));
  d2 ← lift (if negb (num_postwrap =? 0)
             then sddf_memcpy d1 0 src num_prewrap (Z.to_nat num_postwrap)
             else Ok d1);
  put (set_sh_data d2 h);;
  serial_update_shared_tail (u32 (sq_tail (sh_queue h) + num));;
  mret num.

(** The two queues of a transfer, which are distinct objects. *)
Definition serial_pair : Type := serial_queue_handle * serial_queue_handle.
Definition on_free {A} (m : M serial_queue_handle A) : M serial_pair A :=
  zoom fst (fun q s => (q, s.2)) m.
Definition on_active {A} (m : M serial_queue_handle A) : M serial_pair A :=
  zoom snd (fun q s => (s.1, q)) m.

(** Each iteration removes at least one byte: the length bounds the loop. *)
Definition serial_transfer_all : M serial_pair unit :=
  s ← get;
  assert_ (serial_queue_length s.2 <=? serial_queue_free s.1);;
  loop (fun s => Z.to_nat (serial_queue_length s.2))
       (fun s => negb (serial_queue_length s.2 =? 0))
       (s ← get;
        num_active ← lift (serial_queue_contiguous_length s.2);
        off ← lift (umod (sq_head (sh_queue s.2)) (sh_capacity s.2));
        let src := drop (Z.to_nat off) (sh_data_region s.2) in
        transferred ← on_free (serial_enqueue_batch num_active src);
        assert_ (transferred =? num_active);;
        on_active (serial_update_shared_head (u32 (sq_head (sh_queue s.2) + num_active)))).

Definition serial_transfer_all_colour (col_start : list Z) (col_start_len : Z)
  (col_end : list Z) (col_end_len : Z) : M serial_pair unit :=
  s ← get;
  assert_ (u32 (serial_queue_length s.2 + col_start_len + col_end_len) <=? serial_queue_free s.1);;
  transferred ← on_free (serial_enqueue_batch col_start_len col_start);
  assert_ (transferred =? col_start_len);;
  serial_transfer_all;;
  transferred ← on_free (serial_enqueue_batch col_end_len col_end);
  assert_ (transferred =? col_end_len).

Definition serial_queue_init (queue : serial_queue) (capacity : Z) (data_region : list Z) : serial_queue_handle :=
  mk_serial_handle queue capacity data_region.

Definition serial_request_consumer_signal : M serial_queue_handle unit := modify (set_sq_signalled 0).
Definition serial_cancel_consumer_signal : M serial_queue_handle unit := modify (set_sq_signalled 1).
Definition serial_require_consumer_signal (h : serial_queue_handle) : bool :=
  sq_producer_signalled (sh_queue h) =? 0.

(** ** The bytes a queue stands for *)

Definition serial_wf (h : serial_queue_handle) : Prop :=
  ring_wf (2 ^ 32) (sh_capacity h) (sq_head (sh_queue h)) (sq_tail (sh_queue h)) (sh_data_region h).

Definition serial_items (h : serial_queue_handle) : list Z :=
  ring_list (sh_capacity h) (sq_head (sh_queue h))
    (ring_len (2 ^ 32) (sq_head (sh_queue h)) (sq_tail (sh_queue h))) (sh_data_region h).

(** What no transfer changes: capacity and signalling flag. *)
Definition serial_rest (h : serial_queue_handle) : Z * Z :=
  (sh_capacity h, sq_producer_signalled (sh_queue h)).

Arguments serial_wf h : simpl never.
Arguments serial_items h : simpl never.

Lemma serial_rest_signalled h h' :
  serial_rest h' = serial_rest h ->
  sh_capacity h' = sh_capacity h /\ sq_producer_signalled (sh_queue h') = sq_producer_signalled (sh_queue h).
Proof. unfold serial_rest. intros E. by injection E. Qed.

Lemma serial_length_spec h :
  serial_wf h -> serial_queue_length h = Z.of_nat (length (serial_items h)).
Proof. intros Hwf. symmetry. by apply (ring_contents_length _ _ _ _ _ Hwf). Qed.

Lemma serial_length_range h : serial_wf h -> 0 <= serial_queue_length h <= sh_capacity h.
Proof.
  intros Hwf. pose proof (u32_range (sq_tail (sh_queue h) - sq_head (sh_queue h))) as Hr.
  destruct Hwf. unfold is_u32 in Hr. split; [apply Hr|]. done.
Qed.

Lemma serial_free_spec h :
  serial_wf h -> serial_queue_free h = sh_capacity h - Z.of_nat (length (serial_items h)).
Proof.
  intros Hwf. rewrite <- serial_length_spec by done. unfold serial_queue_free.
  pose proof (serial_length_range h Hwf). apply u32_small. destruct Hwf. unfold is_u32. lia.
Qed.

Lemma serial_full_spec h :
  serial_wf h ->
  serial_queue_full h (sq_tail (sh_queue h)) = (Z.of_nat (length (serial_items h)) =? sh_capacity h).
Proof. intros Hwf. by rewrite <- serial_length_spec. Qed.

Lemma serial_empty_spec h :
  serial_wf h -> serial_queue_empty h (sq_head (sh_queue h)) = true <-> serial_items h = [].
Proof.
  intros Hwf. unfold serial_items, serial_queue_empty.
  rewrite <- (ring_empty_iff _ _ _ _ _ Hwf). apply Z.eqb_eq.
Qed.

(** The slot of an index leaves [cap - slot] contiguous bytes. *)
Lemma serial_slot_room h (i : Z) :
  serial_wf h -> u32 (sh_capacity h - i mod sh_capacity h) = sh_capacity h - i mod sh_capacity h
                 /\ 0 < sh_capacity h - i mod sh_capacity h.
Proof.
  intros Hwf. destruct Hwf. pose proof (ring_slot_range _ i ring_cap_pos).
  split; [|lia]. apply u32_small. unfold is_u32. lia.
Qed.

Lemma serial_update_shared_tail_spec h (t : Z) (Q : unit -> serial_queue_handle -> Prop) :
  serial_queue_length h <= u32 (t - sq_head (sh_queue h)) <= sh_capacity h ->
  Q tt (set_sq_tail t h) ->
  wp (serial_update_shared_tail t) h Q.
Proof.
  intros [? ?] HQ. unfold serial_update_shared_tail. repeat wp_step.
  apply wp_assert; [by apply Z.leb_le|]. wp_step. apply wp_assert; [by apply Z.leb_le|].
  by wp_step.
Qed.

(** A single character through the batch-free path: the general enqueue. *)
Lemma serial_enqueue_spec h c (Q : Z -> serial_queue_handle -> Prop) :
  serial_wf h -> Z.of_nat (length (serial_items h)) < sh_capacity h ->
  (forall h', serial_wf h' -> serial_items h' = serial_items h ++ [c] ->
     serial_rest h' = serial_rest h -> sq_head (sh_queue h') = sq_head (sh_queue h) -> Q 0 h') ->
  wp (serial_enqueue c) h Q.
Proof.
  intros Hwf Hr HQ. unfold serial_enqueue. repeat wp_step.
  rewrite serial_full_spec, (proj2 (Z.eqb_neq _ _)) by (done || lia).
  rewrite <- serial_length_spec in Hr by done.
  wp_step. eapply wp_lift; [apply umod_ok; destruct Hwf; lia|].
  wp_step. eapply wp_lift; [by eapply ring_store_slot|]. repeat wp_step.
  apply HQ; [by apply ring_enq_wf|by apply ring_enq_contents|done..].
Qed.

Lemma serial_dequeue_spec h c l (Q : option Z -> serial_queue_handle -> Prop) :
  serial_wf h -> serial_items h = c :: l ->
  (forall h', serial_wf h' -> serial_items h' = l -> serial_rest h' = serial_rest h ->
     sq_tail (sh_queue h') = sq_tail (sh_queue h) -> Q (Some c) h') ->
  wp serial_dequeue h Q.
Proof.
  intros Hwf Hc HQ. unfold serial_dequeue. repeat wp_step.
  pose proof (serial_length_spec h Hwf) as Hlen. rewrite Hc in Hlen. cbn [length] in Hlen.
  destruct (serial_queue_empty h (sq_head (sh_queue h))) eqn:E.
  { apply serial_empty_spec in E; [|done]. congruence. }
  assert (0 < ring_len (2 ^ 32) (sq_head (sh_queue h)) (sq_tail (sh_queue h))) as Hpos.
  { change (0 < serial_queue_length h). lia. }
  unfold serial_items in Hc. rewrite (ring_deq_contents _ _ _ _ _ Hwf Hpos) in Hc. injection Hc as <- <-.
  wp_step. eapply wp_lift; [apply umod_ok; destruct Hwf; lia|].
  wp_step. eapply wp_lift; [by eapply ring_load_slot|]. repeat wp_step.
  apply HQ; [by apply ring_deq_wf|done..].
Qed.

Lemma serial_dequeue_empty h : serial_wf h -> serial_items h = [] -> serial_dequeue h = Ok (None, h).
Proof.
  intros Hwf E. apply serial_empty_spec in E; [|done].
  unfold serial_dequeue, mbind, M_bind, get. by rewrite E.
Qed.

#[export] Instance serial_fifo_ops : FifoOps serial_queue_handle Z (Z * Z) := {
  fifo_wf := serial_wf;
  fifo_items := serial_items;
  fifo_cap := sh_capacity;
  fifo_rest := serial_rest;
  fifo_enq := serial_enqueue;
  fifo_deq := serial_dequeue;
}.

#[export] Instance serial_fifo_laws : FifoLaws serial_fifo_ops.
Proof.
  split; cbn.
  - intros h Hwf. rewrite <- serial_length_spec by done. by apply serial_length_range.
  - intros h c Hwf Hr. apply serial_enqueue_spec; [done..|]. intros h' ? ? Hrest _.
    split_and!; try done. by injection Hrest.
  - apply serial_dequeue_empty.
  - intros h c l Hwf Hc. eapply serial_dequeue_spec; [done..|]. intros h' ? ? Hrest _.
    split_and!; try done. by injection Hrest.
Qed.

#[export] Instance serial_fifo_full : FifoFull serial_fifo_ops.
Proof.
  intros h c Hwf E. cbn in *. unfold serial_enqueue, mbind, M_bind, get.
  by rewrite serial_full_spec, (proj2 (Z.eqb_eq _ _) E) by done.
Qed.

(** The two copies of a batch are one wrapped write. *)
Lemma serial_batch_copy (data src : list Z) (t n : nat) :
  (t < length data)%nat -> (n <= length data)%nat -> (n <= length src)%nat ->
  let pre := Nat.min n (length data - t) in
  exists d1,
    sddf_memcpy data (Z.of_nat t) src 0 pre = Ok d1 /\
    (if negb (Z.of_nat (n - pre) =? 0) then sddf_memcpy d1 0 src (Z.of_nat pre) (n - pre) else Ok d1)
    = Ok (ring_write data t (take n src)).
Proof.
  intros Ht Hn Hs pre. exists (splice data t (take pre src)).
  split.
  { change 0 with (Z.of_nat 0). by rewrite sddf_memcpy_spec by lia. }
  unfold ring_write. assert (length (take n src) = n) as -> by (rewrite length_take; lia). fold pre.
  rewrite take_take, (Nat.min_l pre n) by lia.
  assert (drop pre (take n src) = take (n - pre) (drop pre src)) as -> by apply skipn_firstn_comm.
  assert (length (take pre src) = pre) by (rewrite length_take; lia).
  destruct (Z.eqb_spec (Z.of_nat (n - pre)) 0) as [E|Hne]; cbn [negb].
  - assert (n - pre = 0)%nat as -> by lia. by rewrite take_0, splice_nil.
  - change 0 with (Z.of_nat 0) at 1. by rewrite sddf_memcpy_spec by (rewrite ?length_splice; lia).
Qed.

Lemma serial_enqueue_batch_spec h (num : Z) (src : list Z) (Q : Z -> serial_queue_handle -> Prop) :
  serial_wf h -> 0 <= num <= Z.of_nat (length src) ->
  let n := Z.min num (sh_capacity h - Z.of_nat (length (serial_items h))) in
  (forall h', serial_wf h' -> serial_items h' = serial_items h ++ take (Z.to_nat n) src ->
     serial_rest h' = serial_rest h -> sq_head (sh_queue h') = sq_head (sh_queue h) -> Q n h') ->
  wp (serial_enqueue_batch num src) h Q.
Proof.
  intros Hwf Hnum n HQ. unfold serial_enqueue_batch. wp_step. wp_step.
  pose proof (serial_free_spec h Hwf) as Hfree. pose proof (serial_length_range h Hwf) as Hlr.
  rewrite serial_length_spec in Hlr by done.
  assert (sh_capacity h <> 0) as Hc0 by (destruct Hwf; lia).
  pose proof (ring_slot_range _ (sq_tail (sh_queue h)) (ring_cap_pos _ _ _ _ _ Hwf)) as Ht.
  destruct (serial_slot_room h (sq_tail (sh_queue h)) Hwf) as [Hroom Hroom0].
  pose proof (ring_bufs_len _ _ _ _ _ Hwf) as Hb. pose proof (ring_cap_lt _ _ _ _ _ Hwf) as Hcl.
  wp_step. eapply wp_lift; [by apply umod_ok|]. rewrite Hfree.
  fold n. set (t := sq_tail (sh_queue h) mod sh_capacity h) in *.
  wp_step. eapply wp_lift.
  { unfold serial_queue_contiguous_free. by rewrite umod_ok by done. }
  rewrite Hfree. fold t. rewrite Hroom.
  set (pre := Z.min n (Z.min (sh_capacity h - t) (sh_capacity h - Z.of_nat (length (serial_items h))))).
  assert (0 <= n <= Z.of_nat (length src)) as Hn by (unfold n; lia).
  assert (pre = Z.min n (sh_capacity h - t)) as Hpre by (unfold pre, n; lia).
  assert (n <= sh_capacity h - Z.of_nat (length (serial_items h))) as Hnc by (unfold n; lia).
  clearbody pre n. subst pre.
  destruct (serial_batch_copy (sh_data_region h) src (Z.to_nat t) (Z.to_nat n)) as (d1 & E1 & E2); [lia..|].
  rewrite Z2Nat.id in E1 by lia.
  replace (Nat.min (Z.to_nat n) (length (sh_data_region h) - Z.to_nat t))
    with (Z.to_nat (Z.min n (sh_capacity h - t))) in E1, E2 by lia.
  wp_step. eapply wp_lift; [exact E1|]. rewrite (u32_small (n - Z.min n (sh_capacity h - t))) by (unfold is_u32; lia).
  wp_step. eapply wp_lift.
  { rewrite Z2Nat.id in E2 by lia.
    replace (Z.of_nat (Z.to_nat n - Z.to_nat (Z.min n (sh_capacity h - t)))) with (n - Z.min n (sh_capacity h - t)) in E2 by lia.
    replace (Z.to_nat (n - Z.min n (sh_capacity h - t))) with (Z.to_nat n - Z.to_nat (Z.min n (sh_capacity h - t)))%nat by lia.
    exact E2. }
  wp_step. wp_step. wp_step.
  assert (length (take (Z.to_nat n) src) = Z.to_nat n) as Hlt by (rewrite length_take; lia).
  destruct (ring_write_append _ _ _ _ _ (take (Z.to_nat n) src) Hwf) as (Hlen' & Hwf' & Hit').
  { rewrite Hlt. change (serial_queue_length h + Z.of_nat (Z.to_nat n) <= sh_capacity h).
    rewrite serial_length_spec by done. lia. }
  rewrite Hlt, Z2Nat.id in Hlen', Hwf', Hit' by lia.
  apply serial_update_shared_tail_spec.
  - change (serial_queue_length h <= ring_len (2 ^ 32) (sq_head (sh_queue h)) (u32 (sq_tail (sh_queue h) + n))
            <= sh_capacity h).
    unfold u32. rewrite Hlen'. change (ring_len _ _ _) with (serial_queue_length h).
    rewrite serial_length_spec by done. lia.
  - wp_step. apply HQ; [exact Hwf'|exact Hit'|done..].
Qed.

Lemma serial_update_shared_head_spec h (n : Z) (Q : unit -> serial_queue_handle -> Prop) :
  serial_wf h -> 0 <= n <= Z.of_nat (length (serial_items h)) ->
  (forall h', serial_wf h' -> serial_items h' = drop (Z.to_nat n) (serial_items h) ->
     serial_rest h' = serial_rest h -> sq_tail (sh_queue h') = sq_tail (sh_queue h) -> Q tt h') ->
  wp (serial_update_shared_head (u32 (sq_head (sh_queue h) + n))) h Q.
Proof.
  intros Hwf Hn HQ. rewrite <- serial_length_spec in Hn by done.
  destruct (ring_advance _ _ _ _ _ Hwf n Hn) as (Hl & Hwf' & Hit).
  unfold serial_update_shared_head. wp_step. wp_step. wp_step.
  change (u32 (sq_tail (sh_queue h) - u32 (sq_head (sh_queue h) + n)))
    with (ring_len (2 ^ 32) (u32 (sq_head (sh_queue h) + n)) (sq_tail (sh_queue h))).
  unfold u32 at 1. rewrite Hl. change (ring_len _ _ _) with (serial_queue_length h).
  apply wp_assert; [apply Z.leb_le; lia|]. wp_step. by apply HQ.
Qed.

(** What a transfer keeps: the bytes of the two queues in order, and what is
    not the contents of either. *)
Definition serial_transfer_inv (l : list Z) (r r' : Z * Z) (s : serial_pair) : Prop :=
  serial_wf s.1 /\ serial_wf s.2 /\ serial_items s.1 ++ serial_items s.2 = l
  /\ serial_rest s.1 = r /\ serial_rest s.2 = r'.

Lemma serial_transfer_step (l : list Z) (r r' : Z * Z) (s : serial_pair) :
  Z.of_nat (length l) <= r.1 ->
  serial_transfer_inv l r r' s -> negb (serial_queue_length s.2 =? 0) = true ->
  wp (s ← get;
      num_active ← lift (serial_queue_contiguous_length s.2);
      off ← lift (umod (sq_head (sh_queue s.2)) (sh_capacity s.2));
      let src := drop (Z.to_nat off) (sh_data_region s.2) in
      transferred ← on_free (serial_enqueue_batch num_active src);
      assert_ (transferred =? num_active);;
      on_active (serial_update_shared_head (u32 (sq_head (sh_queue s.2) + num_active)))) s
    (fun _ s' => serial_transfer_inv l r r' s' /\
       (Z.to_nat (serial_queue_length s'.2) < Z.to_nat (serial_queue_length s.2))%nat).
Proof.
  destruct s as [f a]. intros Hroom (Hf & Ha & <- & <- & <-) Hne%negb_true_iff%Z.eqb_neq. cbn in *.
  rewrite length_app in Hroom.
  pose proof (serial_length_spec a Ha) as Hla. pose proof (serial_length_range a Ha).
  destruct (serial_slot_room a (sq_head (sh_queue a)) Ha) as [Hr Hr0].
  pose proof (ring_cap_pos _ _ _ _ _ Ha) as Hc. pose proof (ring_bufs_len _ _ _ _ _ Ha) as Hb.
  pose proof (ring_slot_range _ (sq_head (sh_queue a)) Hc) as Hs.
  set (n := Z.min (sh_capacity a - sq_head (sh_queue a) mod sh_capacity a) (serial_queue_length a)).
  assert (0 < n <= serial_queue_length a /\ n <= sh_capacity a - sq_head (sh_queue a) mod sh_capacity a)
    as [Hn Hn'] by (unfold n; lia).
  wp_step. wp_step. wp_step. eapply wp_lift.
  { unfold serial_queue_contiguous_length. cbn [snd]. by rewrite umod_ok, Hr by lia. }
  fold n. clearbody n. cbn [fst snd]. wp_step. eapply wp_lift; [apply umod_ok; lia|].
  assert (n <= Z.of_nat (length (drop (Z.to_nat (sq_head (sh_queue a) mod sh_capacity a)) (sh_data_region a))))
    by (rewrite length_drop; lia).
  wp_step. unfold on_free. wp_step. cbn [fst snd]. apply serial_enqueue_batch_spec; [done|lia|].
  rewrite Z.min_l by lia. intros f' Hf' Hif' Hrf' _.
  wp_step. apply wp_assert; [apply Z.eqb_refl|]. unfold on_active. wp_step. cbn [fst snd].
  apply serial_update_shared_head_spec; [done|lia|]. intros a' Ha' Hia' Hra' _.
  split; [split_and!; try done|].
  - cbn. rewrite Hif', Hia', <- app_assoc. f_equal.
    unfold serial_items. rewrite <- (ring_take_contiguous _ _ _ _ _ Ha n) by (done || (split; [lia|apply Hn])).
    apply take_drop.
  - cbn. rewrite (serial_length_spec a'), Hia', length_drop by done. lia.
Qed.

Lemma serial_transfer_all_spec (s : serial_pair) (Q : unit -> serial_pair -> Prop) :
  serial_wf s.1 -> serial_wf s.2 ->
  Z.of_nat (length (serial_items s.1 ++ serial_items s.2)) <= sh_capacity s.1 ->
  (forall s', serial_wf s'.1 -> serial_wf s'.2 ->
     serial_items s'.1 = serial_items s.1 ++ serial_items s.2 -> serial_items s'.2 = [] ->
     serial_rest s'.1 = serial_rest s.1 -> serial_rest s'.2 = serial_rest s.2 -> Q tt s') ->
  wp serial_transfer_all s Q.
Proof.
  intros Hf Ha Hroom HQ. unfold serial_transfer_all. wp_step. wp_step. wp_step.
  apply wp_assert.
  { rewrite serial_length_spec, serial_free_spec by done. rewrite length_app in Hroom. apply Z.leb_le. lia. }
  apply (wp_loop (serial_transfer_inv (serial_items s.1 ++ serial_items s.2) (serial_rest s.1) (serial_rest s.2))).
  - done.
  - intros s' Hinv Hc. by apply serial_transfer_step.
  - intros s' (Hf' & Ha' & E & ? & ?) Hc%negb_false_iff%Z.eqb_eq.
    rewrite serial_length_spec in Hc by done.
    assert (serial_items s'.2 = []) as E2 by (apply length_zero_iff_nil; lia).
    rewrite E2, app_nil_r in E. by apply HQ.
Qed.

Lemma serial_transfer_all_colour_spec (col_start col_end : list Z) (s : serial_pair)
  (Q : unit -> serial_pair -> Prop) :
  serial_wf s.1 -> serial_wf s.2 ->
  Z.of_nat (length (serial_items s.1 ++ col_start ++ serial_items s.2 ++ col_end)) <= sh_capacity s.1 ->
  (forall s', serial_wf s'.1 -> serial_wf s'.2 ->
     serial_items s'.1 = serial_items s.1 ++ col_start ++ serial_items s.2 ++ col_end ->
     serial_items s'.2 = [] ->
     serial_rest s'.1 = serial_rest s.1 -> serial_rest s'.2 = serial_rest s.2 -> Q tt s') ->
  wp (serial_transfer_all_colour col_start (Z.of_nat (length col_start)) col_end (Z.of_nat (length col_end))) s Q.
Proof.
  intros Hf Ha Hroom HQ. rewrite !length_app in Hroom.
  pose proof (ring_cap_lt _ _ _ _ _ Hf). pose proof (ring_cap_pos _ _ _ _ _ Hf).
  unfold serial_transfer_all_colour. wp_step. wp_step. wp_step. apply wp_assert.
  { rewrite serial_length_spec, serial_free_spec by done. rewrite u32_small by (unfold is_u32; lia). apply Z.leb_le. lia. }
  wp_step. unfold on_free at 1. wp_step. apply serial_enqueue_batch_spec; [done|lia|].
  rewrite Z.min_l, Nat2Z.id, take_ge by lia. intros f1 Hf1 Hi1 Hr1 _.
  assert (sh_capacity f1 = sh_capacity s.1) by (by injection Hr1).
  wp_step. apply wp_assert; [apply Z.eqb_refl|].
  wp_step. apply serial_transfer_all_spec; cbn [fst snd]; [done..| |].
  { rewrite !length_app, Hi1, length_app. lia. }
  intros [f2 a2] Hf2 Ha2 Hi2 Hia2 Hr2 Hra2. cbn in *.
  assert (sh_capacity f2 = sh_capacity s.1) by (by injection Hr2; congruence).
  wp_step. unfold on_free. wp_step. cbn [fst snd]. apply serial_enqueue_batch_spec; [done|lia|].
  rewrite Z.min_l, Nat2Z.id, take_ge by (rewrite ?Hi2, ?Hi1, ?length_app; lia). intros f3 Hf3 Hi3 Hr3 _.
  apply wp_assert; [apply Z.eqb_refl|]. cbn [fst snd].
  apply HQ; try done; cbn [fst snd]; [|congruence]. by rewrite Hi3, Hi2, Hi1, <- !app_assoc.
Qed.

(** With room for all of them, [serial_transfer_all_colour] appends the
    start colour, every byte of the active queue and the end colour to the free
    queue, in this order and across both ring boundaries; it empties the active
    queue, fails no assertion, terminates within the length of the active
    queue, and changes neither capacities nor signalling flags. *)
Theorem serial_transfer_all_colour_correct (col_start col_end : list Z) (s : serial_pair) :
  serial_wf s.1 -> serial_wf s.2 ->
  Z.of_nat (length (serial_items s.1 ++ col_start ++ serial_items s.2 ++ col_end)) <= sh_capacity s.1 ->
  wp (serial_transfer_all_colour col_start (Z.of_nat (length col_start)) col_end (Z.of_nat (length col_end))) s
    (fun _ s' => serial_wf s'.1 /\ serial_wf s'.2 /\
       serial_items s'.1 = serial_items s.1 ++ col_start ++ serial_items s.2 ++ col_end /\
       serial_items s'.2 = [] /\
       serial_rest s'.1 = serial_rest s.1 /\ serial_rest s'.2 = serial_rest s.2).
Proof. intros. by apply serial_transfer_all_colour_spec. Qed.

Definition serial_pair_ex : serial_pair :=
  (mk_serial_handle (mk_serial_queue 5 3 0) 8 [0; 0; 0; 97; 98; 0; 0; 0],
   mk_serial_handle (mk_serial_queue 1 (2 ^ 32 - 2) 0) 4 [69; 0; 67; 68]).

Lemma serial_transfer_all_colour_correct_witness :
  serial_items serial_pair_ex.1 = [97; 98] /\ serial_items serial_pair_ex.2 = [67; 68; 69] /\
  exists s', serial_transfer_all_colour [27] (Z.of_nat (length [27])) [28; 29] (Z.of_nat (length [28; 29])) serial_pair_ex = Ok (tt, s') /\
    serial_items s'.1 = [97; 98; 27; 67; 68; 69; 28; 29] /\ serial_items s'.2 = [].
Proof.
  split; [reflexivity|]. split; [reflexivity|].
  pose proof (serial_transfer_all_colour_correct [27] [28; 29] serial_pair_ex
    ltac:(split; cbn; try lia; [by exists 536870912|by vm_compute])
    ltac:(split; cbn; try lia; [by exists 1073741824|by vm_compute])
    ltac:(by vm_compute)) as H.
  apply wp_elim in H. destruct H as ([] & s' & E & _ & _ & E1 & E2 & _). exists s'.
  split; [exact E|]. split; [exact E1|exact E2].
Defined.
