(* ===== verification/Bitarray.v ===== *)
(** * Bit arrays: util/bitarray.c and include/sddf/util/bitarray.h

    An array of bits in 64-bit words; regions are set, cleared, toggled and
    compared a word at a time. *)

From S2P Require Import Prelude.

Definition roundup_bits2words64 (bits : Z) : Z := u64 (bits + 63) / 64.

(** [num_of_words] is the length of [words]. *)
Record bitarray_t : Type := mk_bitarray {
  ba_words : list Z;       (* word_t * *)
  num_of_bits : Z;         (* bit_index_t *)
}.

Definition WORD_MAX : Z := 2 ^ 64 - 1.

(** [~x] of a [word_t]. *)
Definition not64 (x : Z) : Z := Z.lxor x WORD_MAX.

Definition bitmask64 (nbits : Z) : Z := if nbits =? 0 then 0 else Z.shiftr WORD_MAX (64 - nbits).

Definition bitset64_wrd (bit_pos : Z) : Z := Z.shiftr bit_pos 6.
Definition bitset64_idx (bit_pos : Z) : Z := Z.land bit_pos 63.

Definition bitarray_init (words : list Z) (num_of_words : Z) : bitarray_t :=
  mk_bitarray words (u64 (num_of_words * 64)).

Definition bitarray_get_bit (b : bitarray_t) (index : Z) : res Z :=
  w ← load (ba_words b) (bitset64_wrd index);
  mret (Z.land (Z.shiftr w (bitset64_idx index)) 1).

Inductive FillAction : Type := ZERO_REGION | FILL_REGION | SWAP_REGION.

(** [words[i] op= ...]. *)
Definition update_word (i : Z) (f : Z -> Z) : M (list Z) unit :=
  l ← get;
  w ← lift (load l i);
  l' ← lift (store l i (f w));
  put l'.

(** [_set_region] on the words. *)
Definition _set_region (start length : Z) (action : FillAction) : M (list Z) unit :=
  if length =? 0 then mret tt else
  let first_word := bitset64_wrd start in
  let last_word := bitset64_wrd (u64 (start + length - 1)) in
  let foffset := bitset64_idx start in
  let loffset := bitset64_idx (u64 (start + length - 1)) in
  if first_word =? last_word then
    let mask := u64 (Z.shiftl (bitmask64 length) foffset) in
    match action with
    | ZERO_REGION => update_word first_word (fun w => Z.land w (not64 mask))
    | FILL_REGION => update_word first_word (fun w => Z.lor w mask)
    | SWAP_REGION => update_word first_word (fun w => Z.lxor w mask)
    end
  else
    match action with
    | ZERO_REGION => update_word first_word (fun w => Z.land w (bitmask64 foffset))
    | FILL_REGION => update_word first_word (fun w => Z.lor w (not64 (bitmask64 foffset)))
    | SWAP_REGION => update_word first_word (fun w => Z.lxor w (not64 (bitmask64 foffset)))
    end;;
    for_each (seqZ (first_word + 1) (last_word - first_word - 1)) (fun i =>
      match action with
      | ZERO_REGION => update_word i (fun _ => 0)
      | FILL_REGION => update_word i (fun _ => WORD_MAX)
      | SWAP_REGION => update_word i (fun w => Z.lxor w WORD_MAX)
      end);;
    match action with
    | ZERO_REGION => update_word last_word (fun w => Z.land w (not64 (bitmask64 (loffset + 1))))
    | FILL_REGION => update_word last_word (fun w => Z.lor w (bitmask64 (loffset + 1)))
    | SWAP_REGION => update_word last_word (fun w => Z.lxor w (bitmask64 (loffset + 1)))
    end.

Definition set_words (l : list Z) (b : bitarray_t) : bitarray_t := mk_bitarray l (num_of_bits b).

Definition bitarray_region (action : FillAction) (start len : Z) : M bitarray_t unit :=
  b ← get;
  assert_ (u64 (start + len) <=? num_of_bits b);;
  zoom ba_words set_words (_set_region start len action).

Definition bitarray_set_region : Z -> Z -> M bitarray_t unit := bitarray_region FILL_REGION.
Definition bitarray_clear_region : Z -> Z -> M bitarray_t unit := bitarray_region ZERO_REGION.
Definition bitarray_toggle_region : Z -> Z -> M bitarray_t unit := bitarray_region SWAP_REGION.

(** The loop of [bitarray_cmp_region], with fuel for the remaining bits. *)
Fixpoint cmp_region_loop (n : nat) (w1 : list Z) (start1 : Z) (w2 : list Z) (start2 len : Z) : res bool :=
  if len =? 0 then Ok true else
  match n with
  | O => Fault OutOfFuel
  | S n' =>
    let bit_offset1 := bitset64_idx start1 in
    let bit_offset2 := bitset64_idx start2 in
    let bits_in_current_word1 := 64 - bit_offset1 in
    let bits_in_current_word2 := 64 - bit_offset2 in
    let bits_to_compare := if bits_in_current_word1 <? len then bits_in_current_word1 else len in
    let bits_to_compare := if bits_in_current_word2 <? bits_to_compare then bits_in_current_word2
                           else bits_to_compare in
    let mask1 := u64 (Z.shiftl (bitmask64 bits_to_compare) bit_offset1) in
    let mask2 := u64 (Z.shiftl (bitmask64 bits_to_compare) bit_offset2) in
    x1 ← load w1 (bitset64_wrd start1);
    x2 ← load w2 (bitset64_wrd start2);
    let bits1 := Z.shiftr (Z.land x1 mask1) bit_offset1 in
    let bits2 := Z.shiftr (Z.land x2 mask2) bit_offset2 in
    if negb (bits1 =? bits2) then Ok false else
    cmp_region_loop n' w1 (u64 (start1 + bits_to_compare)) w2 (u64 (start2 + bits_to_compare))
      (len - bits_to_compare)
  end.

Definition bitarray_cmp_region (b1 : bitarray_t) (start1 : Z) (b2 : bitarray_t) (start2 len : Z) : res bool :=
  if negb (u64 (start1 + len) <=? num_of_bits b1) then Fault AssertFail else
  if negb (u64 (start2 + len) <=? num_of_bits b2) then Fault AssertFail else
  cmp_region_loop (Z.to_nat len) (ba_words b1) start1 (ba_words b2) start2 len.

(** ** The bits of an array *)

Definition bit_at (l : list Z) (i : Z) : bool := Z.testbit (l !!! Z.to_nat (i / 64)) (i mod 64).

Definition act (a : FillAction) (b : bool) : bool :=
  match a with ZERO_REGION => false | FILL_REGION => true | SWAP_REGION => negb b end.

Definition words_wf (l : list Z) : Prop := Forall is_u64 l.

Lemma bitset64_wrd_div i : bitset64_wrd i = i / 64.
Proof. unfold bitset64_wrd. by rewrite Z.shiftr_div_pow2. Qed.

Lemma bitset64_idx_mod i : bitset64_idx i = i mod 64.
Proof. unfold bitset64_idx. change 63 with (Z.ones 6). by rewrite Z.land_ones. Qed.

Lemma testbit_small x k : is_u64 x -> 64 <= k -> Z.testbit x k = false.
Proof.
  intros [? ?] Hk. destruct (decide (x = 0)) as [->|]; [apply Z.bits_0|].
  apply Z.bits_above_log2; [lia|]. apply Z.lt_le_trans with 64; [|lia]. apply Z.log2_lt_pow2; lia.
Qed.

Lemma testbit_WORD_MAX k : 0 <= k -> Z.testbit WORD_MAX k = (k <? 64).
Proof.
  intros. change WORD_MAX with (Z.ones 64). by rewrite Z.testbit_ones_nonneg by lia.
Qed.

Lemma testbit_bitmask64 n k : 0 <= n <= 64 -> 0 <= k -> Z.testbit (bitmask64 n) k = (k <? n).
Proof.
  intros Hn Hk. unfold bitmask64. destruct (Z.eqb_spec n 0) as [->|].
  - rewrite Z.bits_0. symmetry. apply Z.ltb_ge. lia.
  - rewrite Z.shiftr_spec, testbit_WORD_MAX by lia. apply eq_true_iff_eq. rewrite !Z.ltb_lt. lia.
Qed.

Lemma testbit_not64 x k : 0 <= k < 64 -> Z.testbit (not64 x) k = negb (Z.testbit x k).
Proof.
  intros Hk. unfold not64. rewrite Z.lxor_spec, testbit_WORD_MAX by lia.
  rewrite (proj2 (Z.ltb_lt _ _)) by lia. apply xorb_true_r.
Qed.

Lemma testbit_u64 x k : 0 <= k < 64 -> Z.testbit (u64 x) k = Z.testbit x k.
Proof. intros. unfold u64. by rewrite Z.mod_pow2_bits_low by lia. Qed.

Lemma u64_words_range (x : Z) : (forall k, 64 <= k -> Z.testbit x k = false) -> 0 <= x -> is_u64 x.
Proof.
  intros Hb Hx. split; [done|]. destruct (Z.lt_ge_cases x (2 ^ 64)) as [|Hge]; [done|].
  assert (64 <= Z.log2 x) by (apply Z.log2_le_pow2; lia).
  pose proof (Z.bit_log2 x ltac:(lia)). rewrite Hb in * by done. done.
Qed.

Lemma is_u64_land x y : is_u64 x -> is_u64 y -> is_u64 (Z.land x y).
Proof.
  intros Hx Hy. apply u64_words_range; [|apply Z.land_nonneg; left; apply Hx].
  intros k Hk. by rewrite Z.land_spec, (testbit_small x).
Qed.

Lemma is_u64_lor x y : is_u64 x -> is_u64 y -> is_u64 (Z.lor x y).
Proof.
  intros Hx Hy. apply u64_words_range; [|apply Z.lor_nonneg; split; [apply Hx|apply Hy]].
  intros k Hk. by rewrite Z.lor_spec, (testbit_small x), (testbit_small y).
Qed.

Lemma is_u64_lxor x y : is_u64 x -> is_u64 y -> is_u64 (Z.lxor x y).
Proof.
  intros Hx Hy. apply u64_words_range; [|apply Z.lxor_nonneg; split; intros; [apply Hy|apply Hx]].
  intros k Hk. by rewrite Z.lxor_spec, (testbit_small x), (testbit_small y).
Qed.

Lemma is_u64_WORD_MAX : is_u64 WORD_MAX.
Proof. split; [done|]. unfold WORD_MAX. lia. Qed.

Lemma is_u64_not64 x : is_u64 x -> is_u64 (not64 x).
Proof. intros. apply is_u64_lxor; [done|apply is_u64_WORD_MAX]. Qed.

Lemma is_u64_bitmask64 n : 0 <= n <= 64 -> is_u64 (bitmask64 n).
Proof.
  intros Hn. apply u64_words_range.
  - intros k Hk. rewrite testbit_bitmask64 by lia. apply Z.ltb_ge. lia.
  - unfold bitmask64. destruct (n =? 0); [done|]. by apply Z.shiftr_nonneg.
Qed.

#[local] Hint Resolve is_u64_land is_u64_lor is_u64_lxor is_u64_WORD_MAX is_u64_not64 : uint.

(** ** Setting a region *)

(** [f] acts on the bits [lo] to [hi] of a word. *)
Definition acts (a : FillAction) (lo hi : Z) (f : Z -> Z) : Prop :=
  forall x, is_u64 x -> is_u64 (f x) /\
    forall k, 0 <= k < 64 ->
      Z.testbit (f x) k = if bool_decide (lo <= k < hi) then act a (Z.testbit x k) else Z.testbit x k.

(** [l'] is [l] with the bits [s] to [e] acted on. *)
Definition updated (a : FillAction) (s e : Z) (l l' : list Z) : Prop :=
  length l' = length l /\ words_wf l' /\
  forall j, 0 <= j < 64 * Z.of_nat (length l) ->
    bit_at l' j = if bool_decide (s <= j < e) then act a (bit_at l j) else bit_at l j.

Lemma updated_trans a s m e l l1 l2 :
  s <= m <= e -> updated a s m l l1 -> updated a m e l1 l2 -> updated a s e l l2.
Proof.
  intros Hm (E1 & _ & H1) (E2 & Hw & H2). split_and!; [congruence|done|]. intros j Hj.
  rewrite H2, H1 by (rewrite ?E1; lia). repeat case_bool_decide; (done || lia).
Qed.

Lemma update_word_spec a lo hi (i : Z) f l (Q : unit -> list Z -> Prop) :
  words_wf l -> 0 <= i < Z.of_nat (length l) -> 0 <= lo -> hi <= 64 -> acts a lo hi f ->
  (forall l', updated a (64 * i + lo) (64 * i + hi) l l' -> Q tt l') ->
  wp (update_word i f) l Q.
Proof.
  intros Hwf Hi Hlo Hhi Hf HQ. destruct (lookup_lt_is_Some_2 l (Z.to_nat i)) as [w Hw]; [lia|].
  assert (is_u64 w) as Hwu by (unfold words_wf in Hwf; rewrite Forall_lookup in Hwf; eauto).
  destruct (Hf w Hwu) as [Hfu Hfb].
  unfold update_word. repeat wp_step. eapply wp_lift; [apply load_ok; [lia|done]|].
  wp_step. eapply wp_lift; [by apply store_ok|]. wp_step. apply HQ. split_and!.
  - by rewrite length_insert.
  - by apply Forall_insert.
  - intros j Hj. unfold bit_at. pose proof (Z.mod_pos_bound j 64 ltac:(lia)). pose proof (Z.div_mod j 64 ltac:(lia)).
    assert (0 <= j / 64) by (apply Z.div_pos; lia).
    destruct (decide (j / 64 = i)) as [<-|Hne].
    + rewrite list_lookup_total_insert_eq, (list_lookup_total_correct _ _ _ Hw), Hfb by lia.
      assert (bool_decide (lo <= j mod 64 < hi) = bool_decide (64 * (j / 64) + lo <= j < 64 * (j / 64) + hi)) as ->;
        [apply bool_decide_ext; lia|done].
    + rewrite list_lookup_total_insert_ne by lia. rewrite bool_decide_false; [done|]. nia.
Qed.

(** The word operations act as their names say. *)
Lemma acts_mask (a : FillAction) lo hi m :
  is_u64 m -> (forall k, 0 <= k < 64 -> Z.testbit m k = bool_decide (lo <= k < hi)) ->
  acts a lo hi (fun w => match a with
                         | ZERO_REGION => Z.land w (not64 m)
                         | FILL_REGION => Z.lor w m
                         | SWAP_REGION => Z.lxor w m
                         end).
Proof.
  intros Hm Hb x Hx. destruct a; (split; [auto with uint|]); intros k Hk;
    rewrite ?Z.land_spec, ?Z.lor_spec, ?Z.lxor_spec, ?testbit_not64, Hb by done;
    case_bool_decide; cbn [act negb]; by destruct (Z.testbit x k).
Qed.

Lemma not64_involutive x : is_u64 x -> not64 (not64 x) = x.
Proof. intros. unfold not64. by rewrite Z.lxor_assoc, Z.lxor_nilpotent, Z.lxor_0_r. Qed.

Section region.
Context (a : FillAction) (l0 : list Z).

Lemma acts_word (lo hi : Z) :
  0 <= lo -> lo <= hi <= 64 ->
  acts a lo hi (fun w => match a with
    | ZERO_REGION => Z.land w (not64 (u64 (Z.shiftl (bitmask64 (hi - lo)) lo)))
    | FILL_REGION => Z.lor w (u64 (Z.shiftl (bitmask64 (hi - lo)) lo))
    | SWAP_REGION => Z.lxor w (u64 (Z.shiftl (bitmask64 (hi - lo)) lo))
    end).
Proof.
  intros Hlo Hhi. apply acts_mask; [apply u64_range|]. intros k Hk.
  rewrite testbit_u64, Z.shiftl_spec by lia. destruct (Z.lt_ge_cases k lo).
  - rewrite Z.testbit_neg_r, bool_decide_false by lia. done.
  - rewrite testbit_bitmask64 by lia. apply eq_true_iff_eq. rewrite Z.ltb_lt, bool_decide_eq_true. lia.
Qed.

Lemma acts_first (lo : Z) :
  0 <= lo <= 64 ->
  acts a lo 64 (fun w => match a with
    | ZERO_REGION => Z.land w (bitmask64 lo)
    | FILL_REGION => Z.lor w (not64 (bitmask64 lo))
    | SWAP_REGION => Z.lxor w (not64 (bitmask64 lo))
    end).
Proof.
  intros Hlo. pose proof (is_u64_bitmask64 lo Hlo) as Hu.
  pose proof (acts_mask a lo 64 (not64 (bitmask64 lo)) (is_u64_not64 _ Hu)) as H.
  rewrite (not64_involutive _ Hu) in H. apply H. intros k Hk.
  rewrite testbit_not64, testbit_bitmask64 by lia. rewrite <- Z.leb_antisym.
  apply eq_true_iff_eq. rewrite Z.leb_le, bool_decide_eq_true. lia.
Qed.

Lemma acts_last (hi : Z) :
  0 <= hi <= 64 ->
  acts a 0 hi (fun w => match a with
    | ZERO_REGION => Z.land w (not64 (bitmask64 hi))
    | FILL_REGION => Z.lor w (bitmask64 hi)
    | SWAP_REGION => Z.lxor w (bitmask64 hi)
    end).
Proof.
  intros Hhi. apply acts_mask; [by apply is_u64_bitmask64|]. intros k Hk.
  rewrite testbit_bitmask64 by lia. apply eq_true_iff_eq. rewrite Z.ltb_lt, bool_decide_eq_true. lia.
Qed.

Lemma acts_whole :
  acts a 0 64 (fun w => match a with
    | ZERO_REGION => 0
    | FILL_REGION => WORD_MAX
    | SWAP_REGION => Z.lxor w WORD_MAX
    end).
Proof.
  intros x Hx. split; [destruct a; [by split|apply is_u64_WORD_MAX|auto with uint]|]. intros k Hk.
  rewrite bool_decide_true by lia. destruct a; cbn [act].
  - apply Z.bits_0.
  - rewrite testbit_WORD_MAX by lia. apply Z.ltb_lt. lia.
  - by apply (testbit_not64 x).
Qed.

End region.

Lemma set_region_same_word a start len l (Q : unit -> list Z -> Prop) :
  words_wf l -> 0 <= start -> 0 < len -> start mod 64 + len <= 64 -> start + len <= 64 * Z.of_nat (length l) ->
  (forall l', updated a start (start + len) l l' -> Q tt l') ->
  wp (let mask := u64 (Z.shiftl (bitmask64 len) (start mod 64)) in
      match a with
      | ZERO_REGION => update_word (start / 64) (fun w => Z.land w (not64 mask))
      | FILL_REGION => update_word (start / 64) (fun w => Z.lor w mask)
      | SWAP_REGION => update_word (start / 64) (fun w => Z.lxor w mask)
      end) l Q.
Proof.
  intros Hwf Hs Hl Hone Hend HQ. cbv zeta.
  pose proof (Z.mod_pos_bound start 64 ltac:(lia)). pose proof (Z.div_mod start 64 ltac:(lia)).
  pose proof (acts_word a (start mod 64) (start mod 64 + len) ltac:(lia) ltac:(lia)) as Ha.
  replace (start mod 64 + len - start mod 64) with len in Ha by lia.
  assert (0 <= start / 64 < Z.of_nat (length l)) by (split; [apply Z.div_pos; lia|apply Z.div_lt_upper_bound; lia]).
  assert (forall l', updated a (64 * (start / 64) + start mod 64) (64 * (start / 64) + (start mod 64 + len)) l l' ->
    Q tt l') as HQ'.
  { intros l' Hu. apply HQ. replace (start + len) with (64 * (start / 64) + (start mod 64 + len)) by lia.
    replace start with (64 * (start / 64) + start mod 64) at 1 by lia. done. }
  destruct a; (eapply update_word_spec; [done|done| | |exact Ha|exact HQ']; lia).
Qed.

Lemma set_region_whole_words a first last l (Q : unit -> list Z -> Prop) :
  words_wf l -> 0 <= first < last -> last < Z.of_nat (length l) ->
  (forall l', updated a (64 * (first + 1)) (64 * last) l l' -> Q tt l') ->
  wp (for_each (seqZ (first + 1) (last - first - 1)) (fun i =>
        match a with
        | ZERO_REGION => update_word i (fun _ => 0)
        | FILL_REGION => update_word i (fun _ => WORD_MAX)
        | SWAP_REGION => update_word i (fun w => Z.lxor w WORD_MAX)
        end)) l Q.
Proof.
  intros Hwf Hf Hl HQ.
  apply (wp_for_each (fun pre l' => updated a (64 * (first + 1)) (64 * (first + 1 + Z.of_nat (length pre))) l l')).
  - split_and!; [done|done|]. intros j Hj. rewrite bool_decide_false; [done|]. cbn. lia.
  - intros pre x post l1 E Hu.
    assert (x = first + 1 + Z.of_nat (length pre) /\ x < last) as [-> Hx].
    { assert (seqZ (first + 1) (last - first - 1) !! length pre = Some x) as [? ?]%lookup_seqZ
        by (rewrite E; by apply list_lookup_middle). lia. }
    pose proof Hu as (El & Hw & _). set (i := first + 1 + Z.of_nat (length pre)) in *.
    assert (forall l2, updated a (64 * i + 0) (64 * i + 64) l1 l2 ->
      updated a (64 * (first + 1)) (64 * (first + 1 + Z.of_nat (length (pre ++ [i])))) l l2) as Hnext.
    { intros l2 Hu2. eapply updated_trans; [|exact Hu|]; [rewrite length_app; cbn; lia|].
      rewrite length_app. cbn [length]. replace (64 * i) with (64 * i + 0) by lia.
      replace (64 * (first + 1 + Z.of_nat (length pre + 1))) with (64 * i + 64) by lia. done. }
    pose proof (acts_whole a) as Ha.
    destruct a; (eapply update_word_spec; [done| | | |exact Ha|exact Hnext]; lia).
  - intros l' Hu. apply HQ. rewrite length_seqZ in Hu.
    replace (64 * (first + 1 + Z.of_nat (Z.to_nat (last - first - 1)))) with (64 * last) in Hu by lia. done.
Qed.

(** [_set_region] acts on exactly the bits of the region. *)
Lemma _set_region_spec a start len l (Q : unit -> list Z -> Prop) :
  words_wf l -> 0 <= start -> 0 <= len -> start + len <= 64 * Z.of_nat (length l) ->
  64 * Z.of_nat (length l) <= 2 ^ 64 ->
  (forall l', updated a start (start + len) l l' -> Q tt l') ->
  wp (_set_region start len a) l Q.
Proof.
  intros Hwf Hs Hl Hend Hbits HQ. unfold _set_region. destruct (Z.eqb_spec len 0) as [->|Hne].
  { wp_step. apply HQ. split_and!; [done|done|]. intros j Hj. rewrite bool_decide_false; [done|]. lia. }
  rewrite !bitset64_wrd_div, !bitset64_idx_mod, u64_small by (unfold is_u64; lia).
  set (e := start + len - 1) in *.
  pose proof (Z.mod_pos_bound start 64 ltac:(lia)). pose proof (Z.div_mod start 64 ltac:(lia)).
  pose proof (Z.mod_pos_bound e 64 ltac:(lia)). pose proof (Z.div_mod e 64 ltac:(lia)).
  destruct (Z.eqb_spec (start / 64) (e / 64)) as [Ew|Hnw].
  { apply set_region_same_word; (done || lia). }
  assert (start / 64 < e / 64) as Hlt.
  { assert (start / 64 <= e / 64) by (apply Z.div_le_mono; lia). lia. }
  assert (0 <= start / 64) by (apply Z.div_pos; lia).
  assert (e / 64 < Z.of_nat (length l)) by (apply Z.div_lt_upper_bound; lia).
  wp_step.
  assert (wp match a with
    | ZERO_REGION => update_word (start / 64) (fun w => Z.land w (bitmask64 (start mod 64)))
    | FILL_REGION => update_word (start / 64) (fun w => Z.lor w (not64 (bitmask64 (start mod 64))))
    | SWAP_REGION => update_word (start / 64) (fun w => Z.lxor w (not64 (bitmask64 (start mod 64))))
    end l (fun _ l1 => updated a start (64 * (start / 64 + 1)) l l1)) as Hfirst.
  { pose proof (acts_first a (start mod 64) ltac:(lia)) as Ha.
    assert (forall l1, updated a (64 * (start / 64) + start mod 64) (64 * (start / 64) + 64) l l1 ->
      updated a start (64 * (start / 64 + 1)) l l1) as Hu.
    { intros l1. replace (64 * (start / 64) + start mod 64) with start by lia.
      by replace (64 * (start / 64) + 64) with (64 * (start / 64 + 1)) by lia. }
    destruct a; (eapply update_word_spec; [done| | | |exact Ha|exact Hu]; lia). }
  eapply wp_mono; [exact Hfirst|]. clear Hfirst. intros [] l1 Hu1. pose proof Hu1 as (El1 & Hw1 & _).
  wp_step. apply set_region_whole_words; [done|lia|lia|]. intros l2 Hu2. pose proof Hu2 as (El2 & Hw2 & _).
  pose proof (acts_last a (e mod 64 + 1) ltac:(lia)) as Ha.
  assert (forall l3, updated a (64 * (e / 64) + 0) (64 * (e / 64) + (e mod 64 + 1)) l2 l3 -> Q tt l3) as Hu3.
  { intros l3 Hu. apply HQ. eapply updated_trans; [|exact Hu1|]; [lia|].
    eapply updated_trans; [|exact Hu2|]; [lia|].
    replace (64 * (e / 64)) with (64 * (e / 64) + 0) by lia.
    replace (start + len) with (64 * (e / 64) + (e mod 64 + 1)) by lia. done. }
  destruct a; (eapply update_word_spec; [done| | | |exact Ha|exact Hu3]; lia).
Qed.

(** ** Comparing regions *)

(** The two chunks are equal iff their bits are. *)
Lemma chunk_testbit x off n k :
  is_u64 x -> 0 <= off -> 0 <= n -> off + n <= 64 -> 0 <= k ->
  Z.testbit (Z.shiftr (Z.land x (u64 (Z.shiftl (bitmask64 n) off))) off) k
  = (k <? n) && Z.testbit x (off + k).
Proof.
  intros Hx Ho Hn Hle Hk. rewrite Z.shiftr_spec, Z.land_spec by lia. rewrite (Z.add_comm off k).
  destruct (Z.lt_ge_cases (k + off) 64).
  - rewrite testbit_u64, Z.shiftl_spec, testbit_bitmask64 by lia.
    replace (k + off - off) with k by lia. by rewrite andb_comm.
  - rewrite (testbit_small x) by (done || lia). by rewrite andb_false_r.
Qed.

Lemma chunk_eq x y off1 off2 n :
  is_u64 x -> is_u64 y -> 0 <= off1 -> 0 <= off2 -> 0 <= n -> off1 + n <= 64 -> off2 + n <= 64 ->
  Z.shiftr (Z.land x (u64 (Z.shiftl (bitmask64 n) off1))) off1
  = Z.shiftr (Z.land y (u64 (Z.shiftl (bitmask64 n) off2))) off2
  <-> forall k, 0 <= k < n -> Z.testbit x (off1 + k) = Z.testbit y (off2 + k).
Proof.
  intros. split.
  - intros E k Hk. apply (f_equal (fun z => Z.testbit z k)) in E. rewrite !chunk_testbit in E by (done || lia).
    by rewrite (proj2 (Z.ltb_lt _ _)) in E by lia.
  - intros Hb. apply Z.bits_inj'. intros k Hk. rewrite !chunk_testbit by (done || lia).
    destruct (Z.ltb_spec k n); [|done]. cbn. apply Hb. lia.
Qed.

(** The bits of the two regions agree. *)
Definition regions_eq (w1 : list Z) (start1 : Z) (w2 : list Z) (start2 len : Z) : Prop :=
  forall k, 0 <= k < len -> bit_at w1 (start1 + k) = bit_at w2 (start2 + k).

Lemma cmp_region_loop_spec (n : nat) w1 start1 w2 start2 len :
  words_wf w1 -> words_wf w2 -> 0 <= start1 -> 0 <= start2 -> 0 <= len <= Z.of_nat n ->
  start1 + len <= 64 * Z.of_nat (length w1) -> start2 + len <= 64 * Z.of_nat (length w2) ->
  64 * Z.of_nat (length w1) < 2 ^ 64 -> 64 * Z.of_nat (length w2) < 2 ^ 64 ->
  exists r, cmp_region_loop n w1 start1 w2 start2 len = Ok r /\ (r = true <-> regions_eq w1 start1 w2 start2 len).
Proof.
  intros Hw1 Hw2. revert start1 start2 len. induction n as [|n IH]; intros start1 start2 len H1 H2 Hn He1 He2 Hm1 Hm2;
    cbn [cmp_region_loop].
  { assert (len = 0) as -> by lia. exists true. split; [done|]. split; [|done]. intros _ k Hk. lia. }
  destruct (Z.eqb_spec len 0) as [->|Hne].
  { exists true. split; [done|]. split; [|done]. intros _ k Hk. lia. }
  rewrite !bitset64_idx_mod, !bitset64_wrd_div.
  pose proof (Z.mod_pos_bound start1 64 ltac:(lia)). pose proof (Z.div_mod start1 64 ltac:(lia)).
  pose proof (Z.mod_pos_bound start2 64 ltac:(lia)). pose proof (Z.div_mod start2 64 ltac:(lia)).
  set (m1 := if 64 - start1 mod 64 <? len then 64 - start1 mod 64 else len).
  set (m := if 64 - start2 mod 64 <? m1 then 64 - start2 mod 64 else m1).
  assert (0 < m <= len /\ start1 mod 64 + m <= 64 /\ start2 mod 64 + m <= 64) as (Hm & Ho1 & Ho2).
  { unfold m, m1. destruct (Z.ltb_spec (64 - start1 mod 64) len);
      [destruct (Z.ltb_spec (64 - start2 mod 64) (64 - start1 mod 64))|destruct (Z.ltb_spec (64 - start2 mod 64) len)]; lia. }
  clearbody m. clear m1.
  assert (0 <= start1 / 64 < Z.of_nat (length w1)) by (split; [apply Z.div_pos; lia|apply Z.div_lt_upper_bound; lia]).
  assert (0 <= start2 / 64 < Z.of_nat (length w2)) by (split; [apply Z.div_pos; lia|apply Z.div_lt_upper_bound; lia]).
  destruct (lookup_lt_is_Some_2 w1 (Z.to_nat (start1 / 64))) as [x1 Hx1]; [lia|].
  destruct (lookup_lt_is_Some_2 w2 (Z.to_nat (start2 / 64))) as [x2 Hx2]; [lia|].
  rewrite (load_ok w1 (start1 / 64) x1), (load_ok w2 (start2 / 64) x2) by (done || lia). unfold mbind, res_bind.
  assert (is_u64 x1 /\ is_u64 x2) as [Hu1 Hu2].
  { unfold words_wf in *. rewrite Forall_lookup in Hw1, Hw2. split; eauto. }
  assert ((forall k, 0 <= k < m -> Z.testbit x1 (start1 mod 64 + k) = Z.testbit x2 (start2 mod 64 + k))
          <-> regions_eq w1 start1 w2 start2 m) as Hchunk.
  { assert (forall w st x k, w !! Z.to_nat (st / 64) = Some x -> 0 <= st -> 0 <= k -> st mod 64 + k < 64 ->
      bit_at w (st + k) = Z.testbit x (st mod 64 + k)) as Hbit.
    { clear. intros w st x k Hx Hst Hk Hlt. unfold bit_at. pose proof (Z.div_mod st 64 ltac:(lia)).
      replace (st + k) with (st mod 64 + k + (st / 64) * 64) by lia.
      pose proof (Z.mod_pos_bound st 64 ltac:(lia)).
      rewrite Z.div_add, Z.mod_add, (Z.div_small (_ + k)), (Z.mod_small (_ + k)) by lia. cbn [Z.add].
      by rewrite (list_lookup_total_correct _ _ _ Hx). }
    split; intros Hk k Hkm; specialize (Hk k Hkm).
    - by rewrite (Hbit w1 start1 x1), (Hbit w2 start2 x2) by (done || lia).
    - by rewrite (Hbit w1 start1 x1), (Hbit w2 start2 x2) in Hk by (done || lia). }
  destruct (chunk_eq x1 x2 (start1 mod 64) (start2 mod 64) m) as [Hc1 Hc2]; [done || lia..|].
  destruct (Z.eqb_spec (Z.shiftr (Z.land x1 (u64 (Z.shiftl (bitmask64 m) (start1 mod 64)))) (start1 mod 64))
    (Z.shiftr (Z.land x2 (u64 (Z.shiftl (bitmask64 m) (start2 mod 64)))) (start2 mod 64))) as [E|Hd]; cbn [negb].
  - pose proof (proj1 Hchunk (Hc1 E)) as Hm_eq. clear E.
    rewrite !u64_small by (unfold is_u64; lia).
    destruct (IH (start1 + m) (start2 + m) (len - m)) as (r & -> & Hr); [lia..|]. exists r. split; [done|].
    rewrite Hr. unfold regions_eq in *. split; intros Hall k Hk.
    + destruct (decide (k < m)); [apply Hm_eq; lia|]. specialize (Hall (k - m) ltac:(lia)).
      by replace (start1 + m + (k - m)) with (start1 + k) in Hall by lia; replace (start2 + m + (k - m)) with (start2 + k) in Hall by lia.
    + rewrite <- !Z.add_assoc. apply Hall. lia.
  - exists false. split; [done|]. split; [done|]. intros Hall. exfalso. apply Hd.
    apply Hc2, (proj2 Hchunk). intros k Hk. apply Hall. lia.
Qed.

(** ** The public operations *)

Record bitarray_wf (b : bitarray_t) : Prop := {
  ba_bits : num_of_bits b = 64 * Z.of_nat (length (ba_words b));
  ba_size : 64 * Z.of_nat (length (ba_words b)) < 2 ^ 64;
  ba_words_wf : words_wf (ba_words b);
}.

Lemma bitarray_init_wf words n :
  words_wf words -> n = Z.of_nat (length words) -> 64 * n < 2 ^ 64 -> bitarray_wf (bitarray_init words n).
Proof.
  intros Hw -> Hn. split; cbn [bitarray_init ba_words num_of_bits]; [|done|done].
  rewrite u64_small by (unfold is_u64; lia). lia.
Qed.

Lemma bitarray_region_spec a start len b (Q : unit -> bitarray_t -> Prop) :
  bitarray_wf b -> 0 <= start -> 0 <= len -> start + len <= num_of_bits b ->
  (forall l', updated a start (start + len) (ba_words b) l' -> Q tt (set_words l' b)) ->
  wp (bitarray_region a start len) b Q.
Proof.
  intros [Hb Hs Hw] H1 H2 Hend HQ. unfold bitarray_region. repeat wp_step.
  apply wp_assert; [apply Z.leb_le; rewrite u64_small; [lia|unfold is_u64; lia]|].
  wp_step. apply _set_region_spec; [done|lia..|exact HQ].
Qed.

Lemma updated_wf a s e b l' :
  bitarray_wf b -> updated a s e (ba_words b) l' -> bitarray_wf (set_words l' b).
Proof. intros [Hb Hs Hw] (El & Hl & _). split; cbn [set_words ba_words num_of_bits]; rewrite ?El; done. Qed.

Lemma bitarray_cmp_region_spec b1 start1 b2 start2 len :
  bitarray_wf b1 -> bitarray_wf b2 -> 0 <= start1 -> 0 <= start2 -> 0 <= len ->
  start1 + len <= num_of_bits b1 -> start2 + len <= num_of_bits b2 ->
  exists r, bitarray_cmp_region b1 start1 b2 start2 len = Ok r
    /\ (r = true <-> regions_eq (ba_words b1) start1 (ba_words b2) start2 len).
Proof.
  intros [Hb1 Hs1 Hw1] [Hb2 Hs2 Hw2] ? ? ? ? ?. unfold bitarray_cmp_region.
  rewrite !u64_small by (unfold is_u64; lia). rewrite !(proj2 (Z.leb_le _ _)) by done. cbn [negb].
  apply cmp_region_loop_spec; (done || lia).
Qed.

(** C36. The word-at-a-time operations are equivalent to their bit-by-bit
    reading: [bitarray_set_region], [bitarray_clear_region] and
    [bitarray_toggle_region] of a region inside the array fail no assertion,
    touch no word outside it, and change exactly the bits of the region, for
    any offset and length; [bitarray_cmp_region] terminates and is true iff
    the two regions, at any two alignments, agree bit by bit. *)
Theorem bitarray_regions_bitwise (b1 b2 : bitarray_t) (start1 start2 len : Z) :
  bitarray_wf b1 -> bitarray_wf b2 -> 0 <= start1 -> 0 <= start2 -> 0 <= len ->
  start1 + len <= num_of_bits b1 -> start2 + len <= num_of_bits b2 ->
  (forall a, exists b', bitarray_region a start1 len b1 = Ok (tt, b') /\ bitarray_wf b' /\
     num_of_bits b' = num_of_bits b1 /\
     forall j, 0 <= j < num_of_bits b1 ->
       bit_at (ba_words b') j = if bool_decide (start1 <= j < start1 + len) then act a (bit_at (ba_words b1) j)
                                else bit_at (ba_words b1) j) /\
  exists r, bitarray_cmp_region b1 start1 b2 start2 len = Ok r /\
    (r = true <-> forall k, 0 <= k < len ->
       bit_at (ba_words b1) (start1 + k) = bit_at (ba_words b2) (start2 + k)).
Proof.
  intros Hwf1 Hwf2 ? ? ? He1 He2. split; [|by apply bitarray_cmp_region_spec].
  intros a.
  assert (wp (bitarray_region a start1 len) b1 (fun _ b' => exists l', b' = set_words l' b1 /\
    updated a start1 (start1 + len) (ba_words b1) l')) as ([] & b' & E & l' & -> & Hu)%wp_elim
    by (apply bitarray_region_spec; eauto).
  exists (set_words l' b1). split_and!; [done|by eapply updated_wf|done|].
  pose proof (ba_bits _ Hwf1) as ->. apply Hu.
Qed.

Definition bits_ex1 : bitarray_t := bitarray_init [5; 2 ^ 63; 0] 3.
Definition bits_ex2 : bitarray_t := bitarray_init [WORD_MAX; 12; 7] 3.

Lemma bits_ex_wf : bitarray_wf bits_ex1 /\ bitarray_wf bits_ex2.
Proof.
  split; (apply bitarray_init_wf; [|done|done]); repeat apply Forall_cons_2; try apply Forall_nil_2;
    unfold is_u64, WORD_MAX; lia.
Qed.

Lemma bitarray_regions_bitwise_witness :
  (exists b', bitarray_region FILL_REGION 60 100 bits_ex1 = Ok (tt, b') /\
     bit_at (ba_words b') 59 = false /\ bit_at (ba_words b') 60 = true /\
     bit_at (ba_words b') 159 = true /\ bit_at (ba_words b') 160 = false) /\
  exists r, bitarray_cmp_region bits_ex1 60 bits_ex2 10 100 = Ok r.
Proof.
  destruct (bitarray_regions_bitwise bits_ex1 bits_ex2 60 10 100 (proj1 bits_ex_wf) (proj2 bits_ex_wf))
    as [Hr (r & Hc & _)]; [vm_compute; congruence..|].
  split; [|by exists r]. destruct (Hr FILL_REGION) as (b' & E & _ & _ & Hb). exists b'. split; [done|].
  split_and!; (rewrite Hb; [by vm_compute|by vm_compute]).
Defined.
