(* ===== verification/Fsmalloc.v ===== *)
(** * Fixed-size cell allocator: util/fsmalloc.c and include/sddf/util/fsmalloc.h

    Cells of a data region are handed out in contiguous runs from a moving
    position; a bit array records which cells are available. *)

From S2P Require Import Prelude Bitarray.

(** The bit array is reached through a pointer that no one else holds; it is
    a component of the state. *)
Record fsmalloc_t : Type := mk_fsmalloc {
  avail_bitpos : Z;            (* uint64_t *)
  avail_bitarr : bitarray_t;
  num_cells : Z;               (* uint64_t *)
  cell_size : Z;               (* uint64_t *)
  base_addr : Z;               (* uintptr_t, 64 bits *)
}.

Definition set_avail_bitpos (v : Z) (f : fsmalloc_t) : fsmalloc_t :=
  mk_fsmalloc v (avail_bitarr f) (num_cells f) (cell_size f) (base_addr f).
Definition set_avail_bitarr (v : bitarray_t) (f : fsmalloc_t) : fsmalloc_t :=
  mk_fsmalloc (avail_bitpos f) v (num_cells f) (cell_size f) (base_addr f).

Definition bitpos_to_addr (f : fsmalloc_t) (bitpos : Z) : Z := u64 (base_addr f + u64 (bitpos * cell_size f)).

Definition addr_to_bitpos (f : fsmalloc_t) (addr : Z) : res Z := udiv (u64 (addr - base_addr f)) (cell_size f).

Definition fsmalloc_overflow (f : fsmalloc_t) (count : Z) : bool := num_cells f <? u64 (avail_bitpos f + count).

(** The mask is an uninitialised array on the stack: [stack i] is what its
    word [i] happens to hold. *)
Definition fsmalloc_full (stack : Z -> Z) (f : fsmalloc_t) (count : Z) : res bool :=
  if num_cells f <? count then Ok true else
  if count =? 0 then Ok false else
  let start_bitpos := if fsmalloc_overflow f count then 0 else u32 (avail_bitpos f) in
  let words := map (fun i => u64 (stack i)) (seqZ 0 (roundup_bits2words64 count)) in
  let bitarr_mask := bitarray_init words (roundup_bits2words64 count) in
  r ← bitarray_set_region 0 count bitarr_mask;
  eq ← bitarray_cmp_region (avail_bitarr f) start_bitpos (r : unit * bitarray_t).2 0 count;
  mret (negb eq).

Definition fsmalloc_free (addr count : Z) : M fsmalloc_t unit :=
  f ← get;
  pos ← lift (addr_to_bitpos f addr);
  let start_bitpos := u32 pos in
  assert_ (u64 (start_bitpos + count) <=? num_cells f);;
  zoom avail_bitarr set_avail_bitarr (bitarray_set_region start_bitpos count).

(** The result is the return value and what is written to [*addr]. *)
Definition fsmalloc_alloc (stack : Z -> Z) (count : Z) : M fsmalloc_t (Z * option Z) :=
  f ← get;
  full ← lift (fsmalloc_full stack f count);
  if (full : bool) then mret (-1, None) else
  when (fsmalloc_overflow f count) (modify (set_avail_bitpos 0));;
  f1 ← get;
  zoom avail_bitarr set_avail_bitarr (bitarray_clear_region (avail_bitpos f1) count);;
  let new_bitpos := u64 (avail_bitpos f1 + count) in
  let new_bitpos := if new_bitpos =? num_cells f1 then 0 else new_bitpos in
  modify (set_avail_bitpos new_bitpos);;
  mret (0, Some (bitpos_to_addr f1 (avail_bitpos f1))).

Definition fsmalloc_init (base cell num : Z) (words : list Z) (num_words : Z) : res fsmalloc_t :=
  let bitarr := bitarray_init words num_words in
  r ← bitarray_set_region 0 num bitarr;
  mret (mk_fsmalloc 0 (r : unit * bitarray_t).2 num cell base).

(** ** Well-formed allocators *)

Record fs_wf (f : fsmalloc_t) : Prop := {
  fs_bits : bitarray_wf (avail_bitarr f);
  fs_fits : num_cells f <= num_of_bits (avail_bitarr f);
  fs_num : 0 <= num_cells f < 2 ^ 32;
  fs_pos : 0 <= avail_bitpos f <= num_cells f;
  fs_cell : 0 < cell_size f;
  fs_base : 0 <= base_addr f;
  fs_top : base_addr f + num_cells f * cell_size f < 2 ^ 64;
}.

Definition available (f : fsmalloc_t) (j : Z) : bool := bit_at (ba_words (avail_bitarr f)) j.

(** The cell a run of [count] would start at. *)
Definition run_start (f : fsmalloc_t) (count : Z) : Z :=
  if num_cells f <? avail_bitpos f + count then 0 else avail_bitpos f.

(** [count] cells can be handed out. *)
Definition run_available (f : fsmalloc_t) (count : Z) : Prop :=
  count <= num_cells f /\ forall k, 0 <= k < count -> available f (run_start f count + k) = true.

Lemma cell_lt_top f n : fs_wf f -> 0 <= n <= num_cells f -> n * cell_size f <= num_cells f * cell_size f.
Proof. intros Hwf Hn. apply Z.mul_le_mono_nonneg_r; [|lia]. pose proof (fs_cell _ Hwf). lia. Qed.

Lemma bitpos_to_addr_ok f n :
  fs_wf f -> 0 <= n <= num_cells f -> bitpos_to_addr f n = base_addr f + n * cell_size f.
Proof.
  intros Hwf Hn. pose proof (cell_lt_top f n Hwf Hn). pose proof (fs_cell _ Hwf). pose proof (fs_base _ Hwf).
  pose proof (fs_top _ Hwf). assert (0 <= n * cell_size f) by (apply Z.mul_nonneg_nonneg; lia).
  unfold bitpos_to_addr. by rewrite !u64_small by (unfold is_u64; rewrite ?u64_small by (unfold is_u64; lia); lia).
Qed.

Lemma addr_to_bitpos_ok f n :
  fs_wf f -> 0 <= n <= num_cells f -> addr_to_bitpos f (base_addr f + n * cell_size f) = Ok n.
Proof.
  intros Hwf Hn. pose proof (cell_lt_top f n Hwf Hn). pose proof (fs_cell _ Hwf). pose proof (fs_base _ Hwf).
  pose proof (fs_top _ Hwf). assert (0 <= n * cell_size f) by (apply Z.mul_nonneg_nonneg; lia).
  unfold addr_to_bitpos. rewrite udiv_ok by lia.
  replace (base_addr f + n * cell_size f - base_addr f) with (n * cell_size f) by lia.
  rewrite u64_small by (unfold is_u64; lia). by rewrite Z.div_mul by lia.
Qed.

Lemma fsmalloc_overflow_ok f count :
  fs_wf f -> 0 <= count <= num_cells f -> fsmalloc_overflow f count = (num_cells f <? avail_bitpos f + count).
Proof.
  intros Hwf Hc. pose proof (fs_num _ Hwf). pose proof (fs_pos _ Hwf). unfold fsmalloc_overflow.
  by rewrite u64_small by (unfold is_u64; lia).
Qed.

Lemma run_start_range f count :
  fs_wf f -> 0 <= count <= num_cells f -> 0 <= run_start f count /\ run_start f count + count <= num_cells f.
Proof.
  intros Hwf Hc. pose proof (fs_num _ Hwf). pose proof (fs_pos _ Hwf). unfold run_start.
  destruct (Z.ltb_spec (num_cells f) (avail_bitpos f + count)); lia.
Qed.

(** The mask on the stack, whatever the stack held, compares as all ones. *)
Lemma stack_mask_spec stack count :
  0 < count < 2 ^ 32 ->
  exists m, bitarray_set_region 0 count (bitarray_init
      (map (fun i => u64 (stack i)) (seqZ 0 (roundup_bits2words64 count))) (roundup_bits2words64 count)) = Ok (tt, m)
    /\ bitarray_wf m /\ count <= num_of_bits m /\ forall k, 0 <= k < count -> bit_at (ba_words m) k = true.
Proof.
  intros Hc. set (n := roundup_bits2words64 count).
  assert (n = (count + 63) / 64) as En.
  { unfold n, roundup_bits2words64. by rewrite u64_small by (unfold is_u64; lia). }
  pose proof (Z.div_mod (count + 63) 64 ltac:(lia)). pose proof (Z.mod_pos_bound (count + 63) 64 ltac:(lia)).
  set (ws := map _ (seqZ 0 n)).
  assert (n = Z.of_nat (length ws)) as El by (unfold ws; rewrite length_map, length_seqZ; lia).
  assert (bitarray_wf (bitarray_init ws n)) as Hwf.
  { apply bitarray_init_wf; [|done|lia]. unfold ws, words_wf. apply Forall_map, Forall_true.
    intros i. apply u64_range. }
  pose proof (ba_bits _ Hwf) as Eb. cbn [ba_words bitarray_init] in Eb.
  assert (wp (bitarray_set_region 0 count) (bitarray_init ws n) (fun _ m => exists l', m = set_words l' (bitarray_init ws n)
    /\ updated FILL_REGION 0 count ws l')) as ([] & m & E & l' & -> & Hu)%wp_elim.
  { apply bitarray_region_spec; [done|lia..|]. cbn [Z.add]. eauto. }
  eexists. split_and!; [exact E|by eapply (updated_wf FILL_REGION 0 count)|cbn [num_of_bits set_words]; lia|].
  intros k Hk. destruct Hu as (_ & _ & Hu). cbn [set_words ba_words]. rewrite (Hu k) by lia. by rewrite bool_decide_true by lia.
Qed.

Lemma fsmalloc_full_spec stack f count :
  fs_wf f -> 0 <= count -> exists b, fsmalloc_full stack f count = Ok b /\ (b = false <-> run_available f count).
Proof.
  intros Hwf Hc0. pose proof (fs_num _ Hwf). pose proof (fs_pos _ Hwf). pose proof (fs_fits _ Hwf).
  unfold fsmalloc_full, run_available. destruct (Z.ltb_spec (num_cells f) count).
  { exists true. split; [done|]. split; [done|]. lia. }
  destruct (Z.eqb_spec count 0) as [->|].
  { exists false. split; [done|]. split; [|done]. intros _. split; [lia|]. intros k ?. lia. }
  destruct (stack_mask_spec stack count) as (m & E & Hm & Hmc & Hmb); [lia|]. cbv zeta. rewrite E. clear E.
  unfold mbind, res_bind. cbn [snd].
  assert ((if fsmalloc_overflow f count then 0 else u32 (avail_bitpos f)) = run_start f count) as ->.
  { rewrite fsmalloc_overflow_ok by (done || lia). unfold run_start.
    destruct (num_cells f <? avail_bitpos f + count); [done|]. rewrite u32_small; [done|]. unfold is_u32. lia. }
  pose proof (run_start_range f count Hwf ltac:(lia)).
  destruct (bitarray_cmp_region_spec (avail_bitarr f) (run_start f count) m 0 count) as (r & -> & Hr);
    [apply Hwf|done|lia..|].
  exists (negb r). split; [done|]. rewrite negb_false_iff, Hr. unfold regions_eq, available. split.
  - intros Hk. split; [lia|]. intros k Hkc. rewrite Hk by lia. cbn [Z.add]. by apply Hmb.
  - intros [_ Hk] k Hkc. rewrite Hk by lia. cbn [Z.add]. symmetry. by apply Hmb.
Qed.

Definition next_bitpos (f : fsmalloc_t) (count : Z) : Z :=
  if run_start f count + count =? num_cells f then 0 else run_start f count + count.

(** A successful allocation: the run is marked unavailable, its address is
    returned, the position moves behind it. *)
Definition allocated (count : Z) (f f' : fsmalloc_t) : Prop :=
  fs_wf f' /\ num_cells f' = num_cells f /\ cell_size f' = cell_size f /\ base_addr f' = base_addr f /\
  avail_bitpos f' = next_bitpos f count /\
  forall j, 0 <= j < num_cells f -> available f' j =
    if bool_decide (run_start f count <= j < run_start f count + count) then false else available f j.

Lemma zoom_region_wf f f' a s e l' :
  fs_wf f -> updated a s e (ba_words (avail_bitarr f)) l' ->
  num_cells f' = num_cells f -> cell_size f' = cell_size f -> base_addr f' = base_addr f ->
  avail_bitarr f' = set_words l' (avail_bitarr f) -> 0 <= avail_bitpos f' <= num_cells f -> fs_wf f'.
Proof.
  intros [H1 H2 H3 H4 H5 H6 H7] Hu En Ec Eb Ea Hp. split; rewrite ?En, ?Ec, ?Eb, ?Ea; try done.
  by eapply updated_wf.
Qed.

Lemma fsmalloc_alloc_spec stack count f (Q : Z * option Z -> fsmalloc_t -> Prop) :
  fs_wf f -> 0 <= count ->
  (~ run_available f count -> Q (-1, None) f) ->
  (forall f', run_available f count -> allocated count f f' ->
     Q (0, Some (base_addr f + run_start f count * cell_size f)) f') ->
  wp (fsmalloc_alloc stack count) f Q.
Proof.
  intros Hwf Hc Hno Hyes. unfold fsmalloc_alloc. do 2 wp_step. wp_step.
  destruct (fsmalloc_full_spec stack f count Hwf Hc) as (b & E & Hb).
  eapply wp_lift; [exact E|]. destruct b.
  { wp_step. apply Hno. intros ?%Hb. done. }
  assert (run_available f count) as Hr by by apply Hb.
  destruct Hr as [Hle Hav]. pose proof (run_start_range f count Hwf ltac:(lia)) as [Hs He].
  set (f1 := set_avail_bitpos (run_start f count) f).
  wp_step. apply (wp_intro _ _ tt f1).
  { unfold f1, run_start. rewrite fsmalloc_overflow_ok by (done || lia).
    destruct (num_cells f <? avail_bitpos f + count); [done|]. by destruct f. }
  do 2 wp_step. wp_step. wp_step. pose proof (fs_fits _ Hwf). pose proof (fs_num _ Hwf).
  apply bitarray_region_spec; [apply Hwf|cbn; lia..|]. cbn. intros l' Hu. do 2 wp_step. wp_step.
  rewrite u64_small by (unfold is_u64; lia). fold (next_bitpos f count).
  replace (bitpos_to_addr f1 (run_start f count)) with (base_addr f + run_start f count * cell_size f)
    by (symmetry; by apply (bitpos_to_addr_ok f); [|lia]).
  apply Hyes; [done|]. split_and!; try done.
  - eapply zoom_region_wf; [done|exact Hu|done..|]. cbn. unfold next_bitpos.
    destruct (Z.eqb_spec (run_start f count + count) (num_cells f)); lia.
  - intros j Hj. destruct Hu as (_ & _ & Hu). pose proof (ba_bits _ (fs_bits _ Hwf)).
    apply (Hu j). lia.
Qed.

Definition freed (p count : Z) (f f' : fsmalloc_t) : Prop :=
  fs_wf f' /\ num_cells f' = num_cells f /\ cell_size f' = cell_size f /\ base_addr f' = base_addr f /\
  avail_bitpos f' = avail_bitpos f /\
  forall j, 0 <= j < num_cells f -> available f' j =
    if bool_decide (p <= j < p + count) then true else available f j.

Lemma fsmalloc_free_spec p count f (Q : unit -> fsmalloc_t -> Prop) :
  fs_wf f -> 0 <= p -> 0 <= count -> p + count <= num_cells f ->
  (forall f', freed p count f f' -> Q tt f') ->
  wp (fsmalloc_free (base_addr f + p * cell_size f) count) f Q.
Proof.
  intros Hwf Hp Hc Hend HQ. pose proof (fs_fits _ Hwf). pose proof (fs_num _ Hwf).
  unfold fsmalloc_free. do 3 wp_step. eapply wp_lift; [apply addr_to_bitpos_ok; [done|lia]|]. wp_step.
  rewrite u32_small by (unfold is_u32; lia).
  apply wp_assert; [apply Z.leb_le; rewrite u64_small; [lia|unfold is_u64; lia]|]. wp_step.
  apply bitarray_region_spec; [apply Hwf|lia..|]. intros l' Hu. apply HQ. split_and!; try done.
  - eapply zoom_region_wf; [done|exact Hu|done..|]. apply Hwf.
  - intros j Hj. destruct Hu as (_ & _ & Hu). pose proof (ba_bits _ (fs_bits _ Hwf)).
    apply (Hu j). lia.
Qed.

(** ** Clients of the allocator

    The runs a client holds, as (address, count); it allocates, whatever the
    stack holds at that moment, and frees the [k]-th run it holds. *)

Inductive fs_op : Type := FsAlloc (stack : Z -> Z) (count : Z) | FsFree (k : nat).

Definition fs_step (op : fs_op) : M (fsmalloc_t * list (Z * Z)) unit :=
  s ← get;
  match op with
  | FsAlloc stack count =>
    r ← on_state (fsmalloc_alloc stack count);
    match r.2 with
    | Some addr => set_local (s.2 ++ [(addr, count)])
    | None => mret tt
    end
  | FsFree k =>
    match s.2 !! k with
    | Some r => on_state (fsmalloc_free r.1 r.2);; set_local (delete k s.2)
    | None => mret tt
    end
  end.

Definition fs_op_ok (op : fs_op) : Prop := if op is FsAlloc _ count then 0 <= count else True.

(** Run [r] holds cell [j]. *)
Definition holds (f : fsmalloc_t) (j : Z) (r : Z * Z) : Prop :=
  r.1 <= base_addr f + j * cell_size f < r.1 + r.2 * cell_size f.

#[export] Instance holds_dec f j r : Decision (holds f j r).
Proof. unfold holds. apply _. Defined.

Definition run_at (f : fsmalloc_t) (p : Z) (r : Z * Z) : Prop :=
  r.1 = base_addr f + p * cell_size f /\ 0 <= p /\ 0 <= r.2 /\ p + r.2 <= num_cells f.

Lemma holds_run f j p r : 0 < cell_size f -> run_at f p r -> holds f j r <-> p <= j < p + r.2.
Proof. intros Hc (E & _). unfold holds. rewrite E. split; intros [H1 H2]; split; nia. Qed.

(** Every run is in the region; a cell is held by one run if it is
    unavailable and by none if it is available. *)
Definition fs_inv (s : fsmalloc_t * list (Z * Z)) : Prop :=
  fs_wf s.1 /\ Forall (fun r => exists p, run_at s.1 p r) s.2 /\
  forall j, 0 <= j < num_cells s.1 ->
    length (filter (holds s.1 j) s.2) = if available s.1 j then 0%nat else 1%nat.

Lemma fs_inv_geometry f f' (live : list (Z * Z)) :
  num_cells f' = num_cells f -> cell_size f' = cell_size f -> base_addr f' = base_addr f ->
  (forall p r, run_at f p r <-> run_at f' p r) /\ (forall j, filter (holds f' j) live = filter (holds f j) live).
Proof.
  intros En Ec Eb. split; [intros p r; unfold run_at; by rewrite En, Ec, Eb|].
  intros j. apply list_filter_iff. intros r. unfold holds. by rewrite Ec, Eb.
Qed.

Lemma fs_step_alloc_inv stack count f live :
  fs_inv (f, live) -> 0 <= count -> wp (fs_step (FsAlloc stack count)) (f, live) (fun _ => fs_inv).
Proof.
  intros Hinv Hc. pose proof Hinv as (Hwf & Hruns & Hcount). cbn [fst snd] in *. unfold fs_step. do 3 wp_step. wp_step.
  apply fsmalloc_alloc_spec; [done|done|by intros _; cbn [fst snd]; wp_step|].
  intros f' [Hle Hav] (Hwf' & En & Ec & Eb & _ & Hb). cbn [fst snd]. wp_step.
  pose proof (run_start_range f count Hwf ltac:(lia)) as [Hs He].
  destruct (fs_inv_geometry f f' live En Ec Eb) as [Hrun Hfil].
  set (new := (base_addr f + run_start f count * cell_size f, count)).
  assert (run_at f (run_start f count) new) as Hnew by (unfold run_at, new; cbn; lia).
  unfold fs_inv. cbn [fst snd]. split_and!; [done| |].
  - apply Forall_app. split.
    + eapply Forall_impl; [exact Hruns|]. intros r [p Hp]. exists p. by apply Hrun.
    + apply Forall_singleton. exists (run_start f count). by apply Hrun.
  - rewrite En. intros j Hj. rewrite filter_app, length_app, Hfil, Hcount, Hb by done.
    pose proof (holds_run f j _ new (fs_cell _ Hwf) Hnew) as Hh. cbn [snd new] in Hh.
    assert (holds f' j new <-> run_start f count <= j < run_start f count + count) as Hh'
      by (rewrite <- Hh; unfold holds; by rewrite Ec, Eb).
    rewrite filter_cons, filter_nil. case_decide as Hd; case_bool_decide as Hb'.
    + assert (available f j = true) as ->; [|done].
      replace j with (run_start f count + (j - run_start f count)) by lia. apply Hav. lia.
    + tauto.
    + tauto.
    + cbn. destruct (available f j); lia.
Qed.

Lemma fs_step_free_inv k f live : fs_inv (f, live) -> wp (fs_step (FsFree k)) (f, live) (fun _ => fs_inv).
Proof.
  intros Hinv. pose proof Hinv as (Hwf & Hruns & Hcount). cbn [fst snd] in *. unfold fs_step. do 2 wp_step. cbn [fst snd].
  destruct (live !! k) as [r|] eqn:Hk; [|by wp_step].
  pose proof (proj1 (Forall_lookup _ _) Hruns k r Hk) as [p Hp]. pose proof Hp as (E & H0 & Hc & Hle).
  do 2 wp_step. rewrite E. apply fsmalloc_free_spec; [done..|]. intros f' (Hwf' & En & Ec & Eb & _ & Hb). wp_step.
  destruct (fs_inv_geometry f f' (delete k live) En Ec Eb) as [Hrun Hfil].
  pose proof (delete_Permutation live k r Hk) as Hperm.
  unfold fs_inv. cbn [fst snd]. split_and!; [done| |].
  - rewrite Hperm in Hruns. apply Forall_cons in Hruns as [_ Hruns].
    eapply Forall_impl; [exact Hruns|]. intros r' [p' Hp']. exists p'. by apply Hrun.
  - rewrite En. intros j Hj. specialize (Hcount j Hj). rewrite Hperm, filter_cons in Hcount. rewrite Hfil, Hb by done.
    pose proof (holds_run f j _ r (fs_cell _ Hwf) Hp) as Hh.
    case_decide as Hd; case_bool_decide as Hb'; [|tauto|tauto|done].
    cbn [length] in Hcount. destruct (available f j); lia.
Qed.

Lemma fs_step_inv op s : fs_inv s -> fs_op_ok op -> wp (fs_step op) s (fun _ => fs_inv).
Proof.
  destruct s as [f live]. intros Hinv Hok. destruct op; [by apply fs_step_alloc_inv|by apply fs_step_free_inv].
Qed.

(** Two different runs share no cell. *)
Lemma fs_inv_disjoint s j i k r r' :
  fs_inv s -> 0 <= j < num_cells s.1 -> i <> k -> s.2 !! i = Some r -> s.2 !! k = Some r' ->
  holds s.1 j r -> holds s.1 j r' -> False.
Proof.
  intros (_ & _ & Hcount) Hj Hne Hi Hk Hr Hr'. specialize (Hcount j Hj).
  rewrite (delete_Permutation s.2 i r Hi), filter_cons, decide_True in Hcount by done.
  assert (r' ∈ delete i s.2) as Hin.
  { apply list_elem_of_lookup. destruct (decide (k < i)%nat).
    - exists k. by rewrite list_lookup_delete_lt.
    - exists (pred k). rewrite list_lookup_delete_ge by lia. by replace (S (pred k)) with k by lia. }
  assert (r' ∈ filter (holds s.1 j) (delete i s.2)) as Hf by by apply list_elem_of_filter.
  apply list_elem_of_In in Hf. cbn [length] in Hcount.
  destruct (filter (holds s.1 j) (delete i s.2)); [done|]. cbn [length] in Hcount. destruct (available s.1 j); lia.
Qed.

(** The addresses of two runs do not overlap. *)
Definition runs_disjoint (cell : Z) (r r' : Z * Z) : Prop :=
  r.2 = 0 \/ r'.2 = 0 \/ r.1 + r.2 * cell <= r'.1 \/ r'.1 + r'.2 * cell <= r.1.

Lemma fs_inv_runs_disjoint s i k r r' :
  fs_inv s -> i <> k -> s.2 !! i = Some r -> s.2 !! k = Some r' -> runs_disjoint (cell_size s.1) r r'.
Proof.
  intros Hinv Hne Hi Hk. pose proof Hinv as (Hwf & Hruns & _). pose proof (fs_cell _ Hwf) as Hc.
  rewrite Forall_lookup in Hruns. destruct (Hruns i r Hi) as [p Hp]. destruct (Hruns k r' Hk) as [p' Hp'].
  pose proof Hp as (E & ? & ? & ?). pose proof Hp' as (E' & ? & ? & ?). unfold runs_disjoint.
  destruct (decide (r.2 = 0)) as [|]; [tauto|]. destruct (decide (r'.2 = 0)) as [|]; [tauto|]. do 2 right.
  destruct (decide (p + r.2 <= p')) as [|]; [left; nia|].
  destruct (decide (p' + r'.2 <= p)) as [|]; [right; nia|]. exfalso.
  eapply (fs_inv_disjoint s (p `max` p') i k r r'); [done|lia|done|done|done|..].
  - eapply holds_run; [done|exact Hp|]. lia.
  - eapply holds_run; [done|exact Hp'|]. lia.
Qed.

(** A run is available iff no run held has a cell of it. *)
Lemma run_available_cells f live count :
  fs_inv (f, live) -> 0 <= count ->
  run_available f count <-> count <= num_cells f /\ forall j run,
    run_start f count <= j < run_start f count + count -> run ∈ live -> ~ holds f j run.
Proof.
  intros (Hwf & _ & Hcount) Hc. cbn [fst snd] in *. unfold run_available.
  assert (count <= num_cells f -> forall j, run_start f count <= j < run_start f count + count ->
    available f j = true <-> forall run, run ∈ live -> ~ holds f j run) as Hj.
  { intros Hle j Hj. pose proof (run_start_range f count Hwf ltac:(lia)). specialize (Hcount j ltac:(lia)). split.
    - intros Ha run Hin Hh. rewrite Ha in Hcount. apply nil_length_inv in Hcount.
      apply (not_elem_of_nil run). rewrite <- Hcount. by apply list_elem_of_filter.
    - intros Hno. destruct (available f j); [done|].
      destruct (filter (holds f j) live) as [|run l] eqn:Hf; [done|].
      assert (run ∈ filter (holds f j) live) as [Hh Hin]%list_elem_of_filter by (rewrite Hf; by left).
      by destruct (Hno run). }
  split; intros [Hle H]; (split; [done|]).
  - intros j run Hr. apply (Hj Hle j Hr). specialize (H (j - run_start f count) ltac:(lia)).
    by replace (run_start f count + (j - run_start f count)) with j in H by lia.
  - intros k Hk. apply (Hj Hle); [lia|]. intros run Hin. apply H; [lia|done].
Qed.

Lemma fsmalloc_init_spec base cell num words num_words :
  words_wf words -> num_words = Z.of_nat (length words) -> 64 * num_words < 2 ^ 64 -> 0 <= num <= 64 * num_words ->
  num < 2 ^ 32 -> 0 < cell -> 0 <= base -> base + num * cell < 2 ^ 64 ->
  exists f, fsmalloc_init base cell num words num_words = Ok f /\ fs_inv (f, [])
    /\ num_cells f = num /\ cell_size f = cell /\ base_addr f = base.
Proof.
  intros Hw El Hn Hnum Hlt Hc Hb Htop. pose proof (bitarray_init_wf words num_words Hw El Hn) as Hwf.
  pose proof (ba_bits _ Hwf) as Ebits. change (ba_words (bitarray_init words num_words)) with words in Ebits.
  assert (wp (bitarray_set_region 0 num) (bitarray_init words num_words) (fun _ b => exists l',
    b = set_words l' (bitarray_init words num_words) /\ updated FILL_REGION 0 num words l'))
    as ([] & b & E & l' & -> & Hu)%wp_elim.
  { apply bitarray_region_spec; [done|lia..|]. cbn [Z.add]. eauto. }
  unfold fsmalloc_init. rewrite E. eexists. split; [done|].
  assert (fs_wf (mk_fsmalloc 0 (set_words l' (bitarray_init words num_words)) num cell base)) as Hf.
  { split; cbn [avail_bitpos avail_bitarr num_cells cell_size base_addr set_words num_of_bits];
      try lia. by eapply (updated_wf FILL_REGION 0 num). }
  split; [|done]. split; [done|]. split; [by apply Forall_nil|]. cbn. intros j Hj. destruct Hu as (_ & _ & Hu).
  unfold available. cbn [avail_bitarr set_words ba_words]. rewrite Hu by lia. by rewrite bool_decide_true by lia.
Qed.

Lemma fs_run_inv ops s : Forall fs_op_ok ops -> fs_inv s -> wp (for_each ops fs_step) s (fun _ => fs_inv).
Proof.
  intros Hok Hinv. apply (wp_for_each (fun _ => fs_inv)); [done| |done].
  intros pre op post s' -> Hs. apply Forall_app in Hok as [_ [Hop _]%Forall_cons]. by apply fs_step_inv.
Qed.

Lemma fs_step_geometry op s :
  fs_inv s -> fs_op_ok op -> wp (fs_step op) s (fun _ s' =>
    num_cells s'.1 = num_cells s.1 /\ cell_size s'.1 = cell_size s.1 /\ base_addr s'.1 = base_addr s.1).
Proof.
  destruct s as [f live]. intros (Hwf & Hruns & _) Hok. cbn [fst snd] in *. unfold fs_step. do 2 wp_step. destruct op.
  - do 2 wp_step. apply fsmalloc_alloc_spec; [done|done|by intros _; cbn [fst snd]; wp_step|].
    intros f' _ (_ & En & Ec & Eb & _). cbn [fst snd]. by wp_step.
  - cbn [fst snd]. destruct (live !! k) as [r|] eqn:Hk; [|by wp_step].
    rewrite Forall_lookup in Hruns. destruct (Hruns k r Hk) as (p & -> & H0 & Hc & Hle).
    do 2 wp_step. apply fsmalloc_free_spec; [done..|]. intros f' (_ & En & Ec & Eb & _). by wp_step.
Qed.

(** C31. Whatever sequence of allocations and frees a client makes on an
    initialised allocator, whatever is on the stack, no call faults and no
    assertion fails; the runs it holds lie inside the region and never
    overlap; and the next allocation succeeds iff the count is at most the
    number of cells and no run it holds has a cell of the run tried. *)
Theorem fsmalloc_sound (base cell num num_words : Z) (words : list Z) (ops : list fs_op) :
  words_wf words -> num_words = Z.of_nat (length words) -> 64 * num_words < 2 ^ 64 -> 0 <= num <= 64 * num_words ->
  num < 2 ^ 32 -> 0 < cell -> 0 <= base -> base + num * cell < 2 ^ 64 ->
  Forall fs_op_ok ops ->
  exists f0 f live, fsmalloc_init base cell num words num_words = Ok f0 /\
    for_each ops fs_step (f0, []) = Ok (tt, (f, live)) /\
    (forall r, r ∈ live -> base <= r.1 /\ 0 <= r.2 /\ r.1 + r.2 * cell <= base + num * cell) /\
    (forall i k r r', i <> k -> live !! i = Some r -> live !! k = Some r' -> runs_disjoint cell r r') /\
    forall stack count, 0 <= count -> exists r f', fsmalloc_alloc stack count f = Ok (r, f') /\
      (r.1 = 0 <-> count <= num /\ forall j run, run_start f count <= j < run_start f count + count ->
                                      run ∈ live -> ~ holds f j run).
Proof.
  intros Hw El Hn Hnum Hlt Hc Hb Htop Hops.
  destruct (fsmalloc_init_spec base cell num words num_words) as (f0 & E0 & Hinv0 & En0 & Ec0 & Eb0); [done..|].
  assert (wp (for_each ops fs_step) (f0, []) (fun _ s => fs_inv s /\
    num_cells s.1 = num /\ cell_size s.1 = cell /\ base_addr s.1 = base)) as ([] & [f live] & E & Hinv & En & Ec & Eb)%wp_elim.
  { apply (wp_for_each (fun _ s => fs_inv s /\ num_cells s.1 = num /\ cell_size s.1 = cell /\ base_addr s.1 = base));
      [done| |done].
    intros pre op post s' Eops (Hs & Ens & Ecs & Ebs). assert (fs_op_ok op) as Hop.
    { rewrite Eops in Hops. by apply Forall_app in Hops as [_ [? _]%Forall_cons]. }
    eapply wp_mono; [apply (wp_conj _ _ _ _ (fs_step_inv op s' Hs Hop) (fs_step_geometry op s' Hs Hop))|].
    intros _ s'' (Hs'' & E1 & E2 & E3). by rewrite E1, E2, E3. }
  exists f0, f, live. cbn [fst] in *. pose proof Hinv as (Hwf & Hruns & Hcount). cbn [fst snd] in *.
  split_and!; [done|done| | |].
  - intros r Hr. rewrite Forall_forall in Hruns. destruct (Hruns r Hr) as (p & Er & ? & ? & ?). rewrite Er. subst. nia.
  - intros i k r r' Hne Hi Hk. rewrite <- Ec. by apply (fs_inv_runs_disjoint (f, live) i k).
  - intros stack count Hcnt.
    assert (wp (fsmalloc_alloc stack count) f (fun r _ => r.1 = 0 <-> run_available f count)) as (r & f' & Ea & Hr)%wp_elim.
    { apply fsmalloc_alloc_spec; [done|done|by cbn|by cbn]. }
    exists r, f'. split; [done|]. by rewrite Hr, (run_available_cells f live), En.
Qed.

Definition fs_ex_ops : list fs_op :=
  [FsAlloc (fun i => 7 * i) 3; FsAlloc (fun _ => 2 ^ 63 + 1) 90; FsAlloc (fun _ => 0) 40; FsFree 0; FsAlloc (fun i => i) 2].

Lemma fsmalloc_sound_witness :
  exists f0 f live, fsmalloc_init 4096 512 100 [0; 0] 2 = Ok f0 /\
    for_each fs_ex_ops fs_step (f0, []) = Ok (tt, (f, live)) /\
    forall i k r r', i <> k -> live !! i = Some r -> live !! k = Some r' -> runs_disjoint 512 r r'.
Proof.
  destruct (fsmalloc_sound 4096 512 100 2 [0; 0] fs_ex_ops) as (f0 & f & live & E0 & E & _ & Hd & _);
    [|done|done|done|done|done|done|done| |].
  - repeat apply Forall_cons_2; try apply Forall_nil_2; unfold is_u64; lia.
  - repeat apply Forall_cons_2; try apply Forall_nil_2; done.
  - by exists f0, f, live.
Defined.
