(* ===== verification/SerialVirtTx.v ===== *)
(** * The serial transmit virtualiser: serial/components/virt_tx.c

    The output of each client goes to the driver in one piece, coloured if so
    configured.  A client whose output does not fit waits in a queue of pending
    clients until the driver has consumed something. *)

From S2P Require Import Prelude Ring Fifo CLib Microkit SerialQueue.

Definition SDDF_SERIAL_MAX_CLIENTS : Z := 64.
Definition TX_PENDING_MAX : Z := SDDF_SERIAL_MAX_CLIENTS + 1.

(** ["\x1b[31m"] .. ["\x1b[36m"] and ["\x1b[0m"], without terminator. *)
Definition colours : list (list Z) :=
  [[27; 91; 51; 49; 109]; [27; 91; 51; 50; 109]; [27; 91; 51; 51; 109];
   [27; 91; 51; 52; 109]; [27; 91; 51; 53; 109]; [27; 91; 51; 54; 109]].
Definition COLOUR_BEGIN_LEN : Z := 5.
Definition COLOUR_END : list Z := [27; 91; 48; 109].
Definition COLOUR_END_LEN : Z := 4.

Record serial_virt_tx_config : Type := mk_stx_config {
  xc_driver_id : Z;
  xc_driver_size : Z;        (* driver.data.size *)
  xc_client_ids : list Z;
  xc_client_sizes : list Z;
  xc_num_clients : Z;        (* uint8_t *)
  xc_begin_str : list Z;
  xc_enable_colour : bool;
  xc_enable_rx : bool;
}.

Record tx_pending_t : Type := mk_tx_pending {
  tp_queue : list Z;           (* uint32_t[TX_PENDING_MAX] *)
  tp_clients_pending : list bool;
  tp_head : Z;                 (* uint32_t *)
  tp_tail : Z;                 (* uint32_t *)
}.

Record stx_state : Type := mk_stx {
  tx_queue_handle_drv : serial_queue_handle;
  tx_queue_handle_cli : list serial_queue_handle;
  tx_pending : tx_pending_t;
  stx_events : list event;
}.

Definition set_stx_drv (q : serial_queue_handle) (s : stx_state) : stx_state :=
  mk_stx q (tx_queue_handle_cli s) (tx_pending s) (stx_events s).
Definition set_stx_cli (l : list serial_queue_handle) (s : stx_state) : stx_state :=
  mk_stx (tx_queue_handle_drv s) l (tx_pending s) (stx_events s).
Definition set_stx_pending (p : tx_pending_t) (s : stx_state) : stx_state :=
  mk_stx (tx_queue_handle_drv s) (tx_queue_handle_cli s) p (stx_events s).
Definition set_stx_events (l : list event) (s : stx_state) : stx_state :=
  mk_stx (tx_queue_handle_drv s) (tx_queue_handle_cli s) (tx_pending s) l.
Definition stx_emit (e : event) : M stx_state unit := modify (fun s => set_stx_events (stx_events s ++ [e]) s).

Definition stx_on_drv {A} (m : M serial_queue_handle A) : M stx_state A := zoom tx_queue_handle_drv set_stx_drv m.
Definition stx_on_cli {A} (i : Z) (m : M serial_queue_handle A) : M stx_state A :=
  zoom_nth tx_queue_handle_cli set_stx_cli i m.

(** An operation on the driver's queue and that of client [i]. *)
Definition stx_on_pair {A} (i : Z) (m : M serial_pair A) : M stx_state A := fun s =>
  match load (tx_queue_handle_cli s) i with
  | Fault f => Fault f
  | Ok h =>
    match m (tx_queue_handle_drv s, h) with
    | Ok (a, (d, h')) =>
      Ok (a, set_stx_cli (<[Z.to_nat i := h']> (tx_queue_handle_cli s)) (set_stx_drv d s))
    | Fault f => Fault f
    end
  end.

(** ** The queue of pending clients *)

Definition tx_pending_length (p : tx_pending_t) : Z :=
  u32 (TX_PENDING_MAX + tp_tail p - tp_head p) mod TX_PENDING_MAX.

Definition tx_pending_push (num_clients : Z) (client : Z) : M tx_pending_t unit :=
  p ← get;
  pending ← lift (load (tp_clients_pending p) client);
  if (pending : bool) then mret tt else
  assert_ (tx_pending_length p <? num_clients);;
  q ← lift (store (tp_queue p) (tp_tail p) client);
  c ← lift (store (tp_clients_pending p) client true);
  put (mk_tx_pending q c (tp_head p) (u32 (tp_tail p + 1) mod TX_PENDING_MAX)).

Definition tx_pending_pop : M tx_pending_t Z :=
  p ← get;
  assert_ (negb (tx_pending_length p =? 0));;
  client ← lift (load (tp_queue p) (tp_head p));
  c ← lift (store (tp_clients_pending p) client false);
  put (mk_tx_pending (tp_queue p) c (u32 (tp_head p + 1) mod TX_PENDING_MAX) (tp_tail p));;
  mret client.

Section handlers.
Context (config : serial_virt_tx_config).

Definition process_tx_queue (client : Z) : M stx_state bool :=
  s ← get;
  handle ← lift (load (tx_queue_handle_cli s) client);
  if serial_queue_empty handle (sq_head (sh_queue handle)) then mret false else
  let client_colour := colours !!! Z.to_nat (client mod Z.of_nat (length colours)) in
  let length := if xc_enable_colour config
                then u32 (serial_queue_length handle + u32 (COLOUR_BEGIN_LEN + COLOUR_END_LEN))
                else serial_queue_length handle in
  assert_ (negb (xc_enable_colour config) || (COLOUR_BEGIN_LEN =? Z.of_nat (List.length client_colour)));;
  when (serial_queue_free (tx_queue_handle_drv s) <? length)
    (stx_on_drv serial_request_consumer_signal);;
  s ← get;
  if serial_queue_free (tx_queue_handle_drv s) <? length then
    zoom tx_pending set_stx_pending (tx_pending_push (xc_num_clients config) client);;
    mret false
  else
    (if xc_enable_colour config
     then stx_on_pair client (serial_transfer_all_colour client_colour COLOUR_BEGIN_LEN COLOUR_END COLOUR_END_LEN)
     else stx_on_pair client serial_transfer_all);;
    mret true.

(** The body of the first loop of [tx_return]; the local variables are
    [notify_client] and [transferred]. *)
Definition tx_return_body : M (stx_state * (list bool * bool)) unit :=
  client ← on_state (zoom tx_pending set_stx_pending tx_pending_pop);
  t ← on_state (process_tx_queue client);
  p ← get;
  notify ← lift (store p.2.1 client t);
  set_local (notify, p.2.2 || t).

(** The body of the last loop of [tx_return]. *)
Definition tx_notify_client (notify : list bool) (client : Z) : M stx_state unit :=
  n ← lift (load notify client);
  s ← get;
  handle ← lift (load (tx_queue_handle_cli s) client);
  when (n && serial_require_consumer_signal handle)
    (stx_on_cli client serial_cancel_consumer_signal;;
     id ← lift (load (xc_client_ids config) client);
     stx_emit (Notify id)).

Definition tx_return : M stx_state unit :=
  s ← get;
  let num_pending_tx := tx_pending_length (tx_pending s) in
  if num_pending_tx =? 0 then mret tt else
  r ← with_local (replicate (Z.to_nat SDDF_SERIAL_MAX_CLIENTS) false, false)
        (for_upto num_pending_tx (fun _ => tx_return_body));
  let '(notify_client, transferred) := (r : unit * (list bool * bool)).2 in
  when transferred (stx_emit (Notify (xc_driver_id config)));;
  for_upto (xc_num_clients config) (tx_notify_client notify_client).

(** The search of [tx_provide] for the client of a channel. *)
Definition active_client (ch : Z) : option Z :=
  find (fun i => bool_decide (xc_client_ids config !! Z.to_nat i = Some ch)) (seqZ 0 (xc_num_clients config)).

Definition tx_provide (ch : Z) : M stx_state unit :=
  match active_client ch with
  | None => mret tt
  | Some client =>
    transferred ← process_tx_queue client;
    when transferred (stx_emit (Notify (xc_driver_id config)));;
    s ← get;
    handle ← lift (load (tx_queue_handle_cli s) client);
    when (transferred && serial_require_consumer_signal handle)
      (stx_on_cli client serial_cancel_consumer_signal;;
       stx_emit (Notify ch))
  end.

Definition notified (ch : Z) : M stx_state unit :=
  if ch =? xc_driver_id config then tx_return else tx_provide ch.

(** [init], without the message that lists the colours. *)
Definition init (magic : bool) : M stx_state unit :=
  assert_ magic;;
  stx_on_drv (modify (fun h => serial_queue_init (sh_queue h) (u32 (xc_driver_size config)) (sh_data_region h)));;
  for_upto (xc_num_clients config) (fun i =>
    size ← lift (load (xc_client_sizes config) i);
    stx_on_cli i (modify (fun h => serial_queue_init (sh_queue h) (u32 size) (sh_data_region h))));;
  when (xc_enable_rx config)
    (begin_str_len ← lift (sddf_strlen (xc_begin_str config));
     s ← get;
     d ← lift (sddf_memcpy (sh_data_region (tx_queue_handle_drv s)) 0 (xc_begin_str config) 0
                 (Z.to_nat begin_str_len));
     stx_on_drv (modify (set_sh_data d));;
     stx_on_drv (serial_update_shared_tail (u32 begin_str_len));;
     stx_emit (Notify (xc_driver_id config))).

End handlers.

(** ** The queue of pending clients is a duplicate-free FIFO *)

(** [pend] are the pending clients, in order, out of [n]. *)
Record pending_rel (n : nat) (p : tx_pending_t) (pend : list nat) : Prop := {
  pr_n : (n <= 64)%nat;
  pr_queue_len : length (tp_queue p) = 65%nat;
  pr_flags_len : length (tp_clients_pending p) = 64%nat;
  pr_head : 0 <= tp_head p < 65;
  pr_tail : tp_tail p = (tp_head p + Z.of_nat (length pend)) mod 65;
  pr_nodup : NoDup pend;
  pr_range : Forall (fun i => (i < n)%nat) pend;
  pr_slots : forall k i, pend !! k = Some i ->
               tp_queue p !! Z.to_nat ((tp_head p + Z.of_nat k) mod 65) = Some (Z.of_nat i);
  pr_flags : forall i, (i < 64)%nat -> tp_clients_pending p !! i = Some (bool_decide (i ∈ pend));
}.

Lemma pending_bound n p pend : pending_rel n p pend -> (length pend <= n)%nat.
Proof.
  intros []. assert (length pend <= length (seq 0 n))%nat as Hs; [|by rewrite length_seq in Hs].
  apply submseteq_length, NoDup_submseteq; [done|].
  intros i Hi. rewrite Forall_forall in pr_range0. apply elem_of_seq. specialize (pr_range0 i Hi). lia.
Qed.

Lemma tx_pending_length_spec n p pend :
  pending_rel n p pend -> tx_pending_length p = Z.of_nat (length pend).
Proof.
  intros Hr. pose proof (pending_bound _ _ _ Hr). destruct Hr. unfold tx_pending_length.
  change TX_PENDING_MAX with 65. rewrite pr_tail0.
  pose proof (Z.mod_pos_bound (tp_head p + Z.of_nat (length pend)) 65).
  rewrite u32_small by uint_lia.
  replace (65 + (tp_head p + Z.of_nat (length pend)) mod 65 - tp_head p)
    with ((tp_head p + Z.of_nat (length pend)) mod 65 + (65 - tp_head p)) by lia.
  rewrite Z.add_mod_idemp_l by lia.
  replace (tp_head p + Z.of_nat (length pend) + (65 - tp_head p)) with (Z.of_nat (length pend) + 1 * 65) by lia.
  rewrite Z.mod_add by lia. apply Z.mod_small. lia.
Qed.

Definition push_if_new (pend : list nat) (i : nat) : list nat := if decide (i ∈ pend) then pend else pend ++ [i].

Lemma tx_pending_push_spec n p pend (i : nat) (Q : unit -> tx_pending_t -> Prop) :
  pending_rel n p pend -> (i < n)%nat ->
  (forall p', pending_rel n p' (push_if_new pend i) -> Q tt p') ->
  wp (tx_pending_push (Z.of_nat n) (Z.of_nat i)) p Q.
Proof.
  intros Hr Hi HQ. pose proof (tx_pending_length_spec _ _ _ Hr) as Hlen. pose proof Hr as [].
  unfold tx_pending_push. repeat wp_step. eapply wp_lift; [apply load_nat, pr_flags0; lia|].
  unfold push_if_new in HQ. case_bool_decide as Hin.
  { wp_step. apply HQ. by rewrite decide_True. }
  rewrite decide_False in HQ by done.
  assert (length pend < n)%nat as Hlt.
  { assert (length (i :: pend) <= length (seq 0 n))%nat as Hs.
    { apply submseteq_length, NoDup_submseteq; [by apply NoDup_cons|]. intros j Hj. apply elem_of_seq.
      rewrite Forall_forall in pr_range0. apply elem_of_cons in Hj as [-> | Hj]; [lia|].
      specialize (pr_range0 j Hj). lia. }
    rewrite length_seq in Hs. cbn in Hs. lia. }
  pose proof (Z.mod_pos_bound (tp_head p + Z.of_nat (length pend)) 65).
  wp_step. apply wp_assert; [apply Z.ltb_lt; lia|].
  wp_step. eapply wp_lift; [apply store_ok; lia|]. wp_step. eapply wp_lift; [apply store_nat; lia|]. wp_step.
  apply HQ. split; cbn [tp_queue tp_clients_pending tp_head tp_tail]; try done.
  - by rewrite length_insert.
  - by rewrite length_insert.
  - rewrite length_app. cbn [length]. rewrite u32_small by uint_lia. change TX_PENDING_MAX with 65.
    rewrite pr_tail0, Z.add_mod_idemp_l by lia. f_equal. lia.
  - apply NoDup_app. split_and!; [done|set_solver|apply NoDup_singleton].
  - apply Forall_app. split; [done|]. repeat constructor. done.
  - intros k j Hk. destruct (decide (k < length pend)%nat) as [Hkl|Hkl].
    + rewrite lookup_app_l in Hk by done. rewrite list_lookup_insert_ne; [by apply pr_slots0|].
      rewrite pr_tail0. intros E.
      pose proof (Z.mod_pos_bound (tp_head p + Z.of_nat k) 65).
      assert ((tp_head p + Z.of_nat (length pend)) mod 65 = (tp_head p + Z.of_nat k) mod 65) as E' by lia.
      apply ring_slot_inj in E'; lia.
    + rewrite lookup_app_r in Hk by lia. apply lookup_lt_Some in Hk as Hk'. cbn in Hk'.
      assert (k = length pend) as -> by lia. rewrite Nat.sub_diag in Hk. injection Hk as <-.
      rewrite <- pr_tail0. apply list_lookup_insert_eq. lia.
  - intros j Hj. destruct (decide (i = j)) as [<-|Hne].
    + rewrite list_lookup_insert_eq by lia. rewrite bool_decide_true; [done|]. set_solver.
    + rewrite list_lookup_insert_ne, pr_flags0 by done. f_equal. apply bool_decide_ext. set_solver.
Qed.

Lemma tx_pending_pop_spec n p i pend (Q : Z -> tx_pending_t -> Prop) :
  pending_rel n p (i :: pend) -> (forall p', pending_rel n p' pend -> Q (Z.of_nat i) p') ->
  wp tx_pending_pop p Q.
Proof.
  intros Hr HQ. pose proof (tx_pending_length_spec _ _ _ Hr) as Hlen. pose proof (pending_bound _ _ _ Hr).
  pose proof Hr as []. cbn [length] in *. apply Forall_cons in pr_range0 as [Hi Hrange].
  unfold tx_pending_pop. repeat wp_step.
  apply wp_assert; [apply negb_true_iff, Z.eqb_neq; lia|].
  wp_step. eapply wp_lift.
  { pose proof (pr_slots0 0%nat i eq_refl) as Hs. rewrite Z.add_0_r, Z.mod_small in Hs by lia.
    apply load_ok; [lia|done]. }
  wp_step. eapply wp_lift; [apply store_nat; lia|]. repeat wp_step.
  apply NoDup_cons in pr_nodup0 as [Hnin Hnd].
  apply HQ. split; cbn [tp_queue tp_clients_pending tp_head tp_tail]; try done; change TX_PENDING_MAX with 65.
  - by rewrite length_insert.
  - apply Z.mod_pos_bound. lia.
  - rewrite u32_small by uint_lia. rewrite Z.add_mod_idemp_l, pr_tail0 by lia. f_equal. lia.
  - intros k j Hk. rewrite u32_small by uint_lia. rewrite Z.add_mod_idemp_l by lia.
    rewrite <- (pr_slots0 (S k) j Hk). do 3 f_equal. lia.
  - intros j Hj. destruct (decide (i = j)) as [<-|Hne].
    + rewrite list_lookup_insert_eq by lia. by rewrite bool_decide_false.
    + rewrite list_lookup_insert_ne, pr_flags0 by done. f_equal. apply bool_decide_ext. set_solver.
Qed.

(** ** The abstract virtualiser *)

(** The bytes in the driver's queue and its signalling flag, bytes and flag of
    every client, and the pending clients. *)
Record tx_view : Type := mk_view {
  tv_drv : list Z;
  tv_drv_sig : Z;
  tv_cli : list (list Z * Z);
  tv_pend : list nat;
}.

Section spec.
Context (config : serial_virt_tx_config) (cap : Z).

(** What the driver gets for the output [bytes] of client [i]. *)
Definition tx_message (i : nat) (bytes : list Z) : list Z :=
  if xc_enable_colour config
  then (colours !!! (i mod 6)%nat) ++ bytes ++ COLOUR_END
  else bytes.

Definition tv_process (i : nat) (v : tx_view) : bool * tx_view :=
  match tv_cli v !! i with
  | None | Some ([], _) => (false, v)
  | Some (bytes, sg) =>
    if bool_decide (Z.of_nat (length (tv_drv v ++ tx_message i bytes)) <= cap)
    then (true, mk_view (tv_drv v ++ tx_message i bytes) (tv_drv_sig v) (<[i := ([], sg)]> (tv_cli v)) (tv_pend v))
    else (false, mk_view (tv_drv v) 0 (tv_cli v) (push_if_new (tv_pend v) i))
  end.

(** Serving [k] pending clients; [acc] are those served, last one first. *)
Fixpoint tv_return_loop (k : nat) (v : tx_view) (acc : list nat) : tx_view * list nat :=
  match k, tv_pend v with
  | S k', i :: pend =>
    let '(t, v') := tv_process i (mk_view (tv_drv v) (tv_drv_sig v) (tv_cli v) pend) in
    tv_return_loop k' v' (if t then i :: acc else acc)
  | _, _ => (v, acc)
  end.

(** Signalling the clients [who] that want it. *)
Definition tv_wants (who : list nat) (i : nat) (c : list Z * Z) : bool := bool_decide (i ∈ who) && (c.2 =? 0).
Definition tv_signal (who : list nat) (cs : list (list Z * Z)) : list (list Z * Z) :=
  imap (fun i c => if tv_wants who i c then (c.1, 1) else c) cs.
Definition tv_signal_events (who : list nat) (cs : list (list Z * Z)) : list event :=
  concat (imap (fun i c => if tv_wants who i c then [Notify (xc_client_ids config !!! i)] else []) cs).

Definition tv_finish (who : list nat) (v : tx_view) : tx_view * list event :=
  (mk_view (tv_drv v) (tv_drv_sig v) (tv_signal who (tv_cli v)) (tv_pend v),
   (match who with [] => [] | _ => [Notify (xc_driver_id config)] end) ++ tv_signal_events who (tv_cli v)).

Definition tv_return (v : tx_view) : tx_view * list event :=
  let '(v', who) := tv_return_loop (length (tv_pend v)) v [] in tv_finish who v'.

Definition tv_provide (i : nat) (v : tx_view) : tx_view * list event :=
  let '(t, v') := tv_process i v in tv_finish (if t then [i] else []) v'.

End spec.

Definition cli_rel (h : serial_queue_handle) (c : list Z * Z) : Prop :=
  serial_wf h /\ serial_items h = c.1 /\ sq_producer_signalled (sh_queue h) = c.2.

Record tx_rel (cap : Z) (s : stx_state) (v : tx_view) : Prop := {
  xr_drv : serial_wf (tx_queue_handle_drv s);
  xr_drv_items : serial_items (tx_queue_handle_drv s) = tv_drv v;
  xr_drv_sig : sq_producer_signalled (sh_queue (tx_queue_handle_drv s)) = tv_drv_sig v;
  xr_cap : sh_capacity (tx_queue_handle_drv s) = cap;
  xr_cli : Forall2 cli_rel (tx_queue_handle_cli s) (tv_cli v);
  xr_pend : pending_rel (length (tv_cli v)) (tx_pending s) (tv_pend v);
}.

Lemma stx_on_pair_spec {A} (i : nat) (m : M serial_pair A) s h (Q : A -> stx_state -> Prop) :
  tx_queue_handle_cli s !! i = Some h ->
  wp m (tx_queue_handle_drv s, h) (fun a p =>
    Q a (set_stx_cli (<[i := p.2]> (tx_queue_handle_cli s)) (set_stx_drv p.1 s))) ->
  wp (stx_on_pair (Z.of_nat i) m) s Q.
Proof.
  intros Hh Hm. unfold wp, stx_on_pair in *. rewrite (load_nat _ _ _ Hh), Nat2Z.id.
  by destruct (m _) as [[a [d h']]|].
Qed.

Lemma colours_lookup (i : nat) :
  colours !!! Z.to_nat (Z.of_nat i mod Z.of_nat (length colours)) = colours !!! (i mod 6)%nat /\
  length (colours !!! (i mod 6)%nat) = 5%nat.
Proof.
  change (Z.of_nat (length colours)) with (Z.of_nat 6). rewrite <- Nat2Z.inj_mod, Nat2Z.id. split; [done|].
  pose proof (Nat.mod_upper_bound i 6). generalize dependent (i mod 6)%nat.
  intros k Hk. destruct k as [|[|[|[|[|[|]]]]]]; (done || lia).
Qed.

Section process.
Context (config : serial_virt_tx_config) (cap : Z).

Lemma tx_message_length i bytes :
  Z.of_nat (length (tx_message config i bytes))
  = Z.of_nat (length bytes) + (if xc_enable_colour config then 9 else 0).
Proof.
  unfold tx_message. destruct (xc_enable_colour config); [|lia].
  destruct (colours_lookup i) as [_ Hl]. rewrite !length_app, Hl. cbn. lia.
Qed.

(** Handing the output of a client to the driver, coloured or not. *)
Lemma transfer_spec i d h (Q : unit -> serial_pair -> Prop) :
  serial_wf d -> serial_wf h ->
  Z.of_nat (length (serial_items d ++ tx_message config i (serial_items h))) <= sh_capacity d ->
  (forall d' h', serial_wf d' -> serial_wf h' ->
     serial_items d' = serial_items d ++ tx_message config i (serial_items h) -> serial_items h' = [] ->
     serial_rest d' = serial_rest d -> serial_rest h' = serial_rest h -> Q tt (d', h')) ->
  wp (if xc_enable_colour config
      then serial_transfer_all_colour (colours !!! (i mod 6)%nat) COLOUR_BEGIN_LEN COLOUR_END COLOUR_END_LEN
      else serial_transfer_all) (d, h) Q.
Proof.
  intros Hd Hh Hroom HQ. unfold tx_message in *. destruct (xc_enable_colour config).
  - destruct (colours_lookup i) as [_ Hl].
    pose proof (serial_transfer_all_colour_spec (colours !!! (i mod 6)%nat) COLOUR_END (d, h) Q) as H.
    rewrite Hl in H. apply H; [done..|]. intros [d' h'] ? ? ? ? ? ?. cbn in *. by apply HQ.
  - apply serial_transfer_all_spec; [done..|]. intros [d' h'] ? ? ? ? ? ?. cbn in *. by apply HQ.
Qed.

Lemma process_tx_queue_spec (i : nat) s v :
  tx_rel cap s v -> xc_num_clients config = Z.of_nat (length (tv_cli v)) -> (i < length (tv_cli v))%nat ->
  wp (process_tx_queue config (Z.of_nat i)) s (fun t s' =>
    t = (tv_process config cap i v).1 /\ tx_rel cap s' (tv_process config cap i v).2 /\
    stx_events s' = stx_events s).
Proof.
  intros [] Hn Hi. destruct (lookup_lt_is_Some_2 _ _ Hi) as [[bytes sg] Hc].
  destruct (Forall2_lookup_r _ _ _ _ _ xr_cli0 Hc) as (h & Hh & Hhwf & Hhi & Hhs). cbn in Hhi, Hhs.
  unfold process_tx_queue, tv_process. rewrite Hc. repeat wp_step.
  eapply wp_lift; [by apply load_nat|].
  destruct bytes as [|b bytes].
  { rewrite (proj2 (serial_empty_spec h Hhwf)) by done. by wp_step. }
  destruct (serial_queue_empty _ _) eqn:Ee.
  { apply serial_empty_spec in Ee; [|done]. congruence. }
  cbv zeta. destruct (colours_lookup i) as [-> Hcl]. wp_step. apply wp_assert.
  { rewrite Hcl. by destruct (xc_enable_colour config). }
  pose proof (serial_length_range h Hhwf) as Hlr. rewrite serial_length_spec, Hhi in * by done.
  pose proof (ring_cap_half _ _ _ _ _ Hhwf) as Hcap.
  assert ((if xc_enable_colour config
           then u32 (Z.of_nat (length (b :: bytes)) + u32 (COLOUR_BEGIN_LEN + COLOUR_END_LEN))
           else Z.of_nat (length (b :: bytes)))
          = Z.of_nat (length (tx_message config i (b :: bytes)))) as ->.
  { rewrite tx_message_length. destruct (xc_enable_colour config); [|lia].
    change (u32 (COLOUR_BEGIN_LEN + COLOUR_END_LEN)) with 9. apply u32_small. unfold is_u32. lia. }
  rewrite serial_free_spec, xr_drv_items0, xr_cap0 by done.
  rewrite length_app. case_bool_decide as Hroom; cbn [fst snd].
  - rewrite (proj2 (Z.ltb_ge _ _)) by lia. cbn [when]. repeat wp_step.
    rewrite serial_free_spec, xr_drv_items0, xr_cap0, (proj2 (Z.ltb_ge _ _)) by (done || lia).
    assert (wp (stx_on_pair (Z.of_nat i) (if xc_enable_colour config
      then serial_transfer_all_colour (colours !!! (i mod 6)%nat) COLOUR_BEGIN_LEN COLOUR_END COLOUR_END_LEN
      else serial_transfer_all)) s (fun _ s' =>
        tx_rel cap s' (mk_view (tv_drv v ++ tx_message config i (b :: bytes)) (tv_drv_sig v)
                         (<[i := ([], sg)]> (tv_cli v)) (tv_pend v)) /\
        stx_events s' = stx_events s)) as Htr.
    { eapply stx_on_pair_spec; [done|]. apply transfer_spec; [done..| |].
      { rewrite Hhi, xr_drv_items0, length_app, xr_cap0. lia. }
      intros d' h' Hd' Hh' Hdi Hhi' Hdr%serial_rest_signalled Hhr%serial_rest_signalled. cbn [fst snd].
      split; [|done]. split; cbn; try done.
      - by rewrite Hdi, Hhi, xr_drv_items0.
      - by rewrite (proj2 Hdr).
      - by rewrite (proj1 Hdr).
      - apply Forall2_insert; [done|]. split_and!; [done..|]. cbn. by rewrite (proj2 Hhr).
      - by rewrite length_insert. }
    wp_step. eapply wp_mono; [destruct (xc_enable_colour config); exact Htr|].
    intros [] s' Hs'. wp_step. split; [done|exact Hs'].
  - rewrite (proj2 (Z.ltb_lt _ _)) by lia. cbn [when]. unfold stx_on_drv, serial_request_consumer_signal.
    repeat wp_step.
    cbn [tx_queue_handle_drv set_stx_drv].
    change (serial_queue_free (set_sq_signalled 0 (tx_queue_handle_drv s)))
      with (serial_queue_free (tx_queue_handle_drv s)).
    rewrite serial_free_spec, xr_drv_items0, xr_cap0, (proj2 (Z.ltb_lt _ _)) by (done || lia).
    repeat wp_step. rewrite Hn. eapply tx_pending_push_spec; [done..|]. intros p' Hp'. wp_step.
    split; [done|]. split; [|done]. by split.
Qed.

End process.

Section notified.
Context (config : serial_virt_tx_config) (cap : Z).

Definition stx_config_ok (v : tx_view) : Prop :=
  xc_num_clients config = Z.of_nat (length (tv_cli v)) /\ length (xc_client_ids config) = length (tv_cli v).

Lemma tv_process_clients i v : length (tv_cli (tv_process config cap i v).2) = length (tv_cli v).
Proof.
  unfold tv_process. destruct (tv_cli v !! i) as [[[|b bytes] sg]|]; cbn; try done.
  case_bool_decide; cbn; [by rewrite length_insert|done].
Qed.

Lemma tv_process_pend i v :
  tv_pend (tv_process config cap i v).2 = tv_pend v
  \/ (tv_process config cap i v).1 = false /\ tv_pend (tv_process config cap i v).2 = push_if_new (tv_pend v) i.
Proof.
  unfold tv_process. destruct (tv_cli v !! i) as [[[|b bytes] sg]|]; cbn; try by left.
  case_bool_decide; cbn; [by left|by right].
Qed.

(** The array of the clients to notify stands for the list [who]. *)
Definition flags_of (who : list nat) (l : list bool) : Prop :=
  length l = 64%nat /\ forall i, (i < 64)%nat -> l !! i = Some (bool_decide (i ∈ who)).

(** ** The signalling of the clients *)

Definition signalled_upto (k : nat) (who : list nat) (v : tx_view) (s : stx_state) : Prop :=
  length (tx_queue_handle_cli s) = length (tv_cli v) /\
  forall i c, tv_cli v !! i = Some c -> exists h, tx_queue_handle_cli s !! i = Some h /\
    cli_rel h (if (i <? k)%nat && tv_wants who i c then (c.1, 1) else c).

Lemma tv_signal_events_snoc who cs c i :
  xc_client_ids config !! length cs = Some i ->
  tv_signal_events config who (cs ++ [c])
  = tv_signal_events config who cs ++ (if tv_wants who (length cs) c then [Notify i] else []).
Proof.
  intros Hi. unfold tv_signal_events. rewrite imap_app, concat_app. cbn. rewrite Nat.add_0_r, app_nil_r.
  by rewrite (list_lookup_total_correct _ _ _ Hi).
Qed.

Lemma tx_notify_client_spec who l v k c s :
  flags_of who l -> stx_config_ok v -> (length (tv_cli v) <= 64)%nat ->
  tv_cli v !! k = Some c -> signalled_upto k who v s ->
  wp (tx_notify_client config l (Z.of_nat k)) s (fun _ s' =>
    signalled_upto (S k) who v s' /\ tx_queue_handle_drv s' = tx_queue_handle_drv s /\
    tx_pending s' = tx_pending s /\
    stx_events s' = stx_events s ++ (if tv_wants who k c then [Notify (xc_client_ids config !!! k)] else [])).
Proof.
  intros [Hl1 Hl2] [_ Hids] Hmax Hc [Hlen Hs]. apply lookup_lt_Some in Hc as Hk.
  destruct (Hs k c Hc) as (h & Hh & Hrel). rewrite Nat.ltb_irrefl in Hrel. cbn [andb] in Hrel.
  assert (forall i d hs, tv_cli v !! i = Some d -> i <> k -> tx_queue_handle_cli s !! i = Some hs ->
    cli_rel hs (if (i <? k)%nat && tv_wants who i d then (d.1, 1) else d) ->
    cli_rel hs (if (i <? S k)%nat && tv_wants who i d then (d.1, 1) else d)) as Hother.
  { intros i d hs _ Hne _ Hr. destruct (Nat.ltb_spec i k), (Nat.ltb_spec i (S k)); try done; lia. }
  unfold tx_notify_client. wp_step. eapply wp_lift; [apply load_nat, Hl2; lia|]. repeat wp_step.
  eapply wp_lift; [by apply load_nat|].
  assert (bool_decide (k ∈ who) && serial_require_consumer_signal h = tv_wants who k c) as ->.
  { unfold tv_wants, serial_require_consumer_signal. destruct Hrel as (_ & _ & ->). done. }
  destruct (tv_wants who k c) eqn:Ew; cbn [when].
  - wp_step. unfold stx_on_cli. eapply wp_zoom_nth; [lia|by rewrite Nat2Z.id|].
    unfold serial_cancel_consumer_signal. repeat wp_step.
    destruct (lookup_lt_is_Some_2 (xc_client_ids config) k) as [id Hid]; [lia|].
    eapply wp_lift; [by apply load_nat|]. unfold stx_emit. repeat wp_step.
    rewrite (list_lookup_total_correct _ _ _ Hid), Nat2Z.id. split_and!; [|done..]. cbn.
    split; [cbn; by rewrite length_insert|]. intros i d Hd. cbn. destruct (decide (i = k)) as [->|Hne].
    + rewrite list_lookup_insert_eq by (by eapply lookup_lt_Some). eexists. split; [done|].
      rewrite Hc in Hd. injection Hd as <-. rewrite ?Nat.leb_refl, Ew. cbn [andb].
      destruct Hrel as (? & ? & ?). done.
    + rewrite list_lookup_insert_ne by done. destruct (Hs i d Hd) as (hs & Hhs & Hr). eauto.
  - wp_step. rewrite app_nil_r. split_and!; [|done..]. split; [done|]. intros i d Hd.
    destruct (Hs i d Hd) as (hs & Hhs & Hr). exists hs. split; [done|].
    destruct (decide (i = k)) as [->|Hne]; [|eauto].
    rewrite Hc in Hd. injection Hd as <-. rewrite Ew, andb_false_r. by rewrite Ew, andb_false_r in Hr.
Qed.

Lemma signalled_finish who v s s' :
  tx_rel cap s v -> signalled_upto (length (tv_cli v)) who v s' ->
  tx_queue_handle_drv s' = tx_queue_handle_drv s -> tx_pending s' = tx_pending s ->
  tx_rel cap s' (tv_finish config who v).1.
Proof.
  intros [] [Hlen Hs] Hd Hp. split; cbn; rewrite ?Hd, ?Hp; try done.
  - apply Forall2_same_length_lookup_2.
    + unfold tv_signal. by rewrite length_imap.
    + intros i h c Hh Hc. unfold tv_signal in Hc. rewrite list_lookup_imap in Hc.
      destruct (tv_cli v !! i) as [d|] eqn:Hd'; [|done]. cbn in Hc. injection Hc as <-.
      destruct (Hs i d Hd') as (h' & Hh' & Hr). rewrite Hh in Hh'. injection Hh' as <-.
      apply lookup_lt_Some in Hd'. by rewrite (proj2 (Nat.ltb_lt _ _)) in Hr by done.
  - unfold tv_signal. by rewrite length_imap.
Qed.

Lemma tx_notify_all_spec who l v s :
  flags_of who l -> stx_config_ok v -> tx_rel cap s v ->
  wp (for_upto (xc_num_clients config) (tx_notify_client config l)) s (fun _ s' =>
    tx_rel cap s' (tv_finish config who v).1 /\
    stx_events s' = stx_events s ++ tv_signal_events config who (tv_cli v)).
Proof.
  intros Hl Hcfg Hrel. pose proof Hcfg as [Hn Hids]. unfold for_upto. rewrite Hn.
  assert (length (tv_cli v) <= 64)%nat as Hmax by (destruct Hrel as [? ? ? ? ? []]; done).
  apply (wp_for_each (fun pre s' =>
    signalled_upto (length pre) who v s' /\ tx_queue_handle_drv s' = tx_queue_handle_drv s /\
    tx_pending s' = tx_pending s /\
    stx_events s' = stx_events s ++ tv_signal_events config who (take (length pre) (tv_cli v)))).
  - split_and!; [|done..|by rewrite app_nil_r]. destruct Hrel. split; [by eapply Forall2_length|].
    intros i c Hc. destruct (Forall2_lookup_r _ _ _ _ _ xr_cli0 Hc) as (h & ? & ?). eauto.
  - intros pre x post s' E (Hs & Hd & Hp & He). apply lookup_seqZ_prefix in E as [-> Hx].
    destruct (lookup_lt_is_Some_2 (tv_cli v) (length pre)) as [c Hc]; [lia|].
    eapply wp_mono; [by eapply tx_notify_client_spec|]. intros [] s'' (Hs' & Hd' & Hp' & He').
    rewrite length_app. cbn [length]. rewrite Nat.add_1_r. split_and!; [done|congruence|congruence|].
    destruct (lookup_lt_is_Some_2 (xc_client_ids config) (length pre)) as [id Hid]; [lia|].
    assert (length (take (length pre) (tv_cli v)) = length pre) as Ht by (rewrite length_take; lia).
    rewrite He', He, (take_S_r _ _ c) by done. rewrite (tv_signal_events_snoc who _ c id) by by rewrite Ht.
    by rewrite Ht, (list_lookup_total_correct _ _ _ Hid), app_assoc.
  - intros s' (Hs & Hd & Hp & He). rewrite length_seqZ, Nat2Z.id in *. rewrite take_ge in He by done.
    split; [|done]. by apply (signalled_finish who v s s').
Qed.

(** ** The loop over the pending clients *)

(** One client popped and processed. *)
Lemma tx_return_body_spec i pend who l b v s :
  stx_config_ok v -> tx_rel cap s v -> tv_pend v = i :: pend -> flags_of who l -> i ∉ who ->
  b = negb (bool_decide (who = [])) ->
  let r := tv_process config cap i (mk_view (tv_drv v) (tv_drv_sig v) (tv_cli v) pend) in
  let who' := if r.1 then i :: who else who in
  wp (tx_return_body config) (s, (l, b)) (fun _ p =>
    tx_rel cap p.1 r.2 /\ flags_of who' p.2.1 /\ p.2.2 = negb (bool_decide (who' = [])) /\
    stx_events p.1 = stx_events s).
Proof.
  intros [Hn Hids] Hrel Hpend [Hl1 Hl2] Hnin Hb r who'. pose proof Hrel as []. rewrite Hpend in *.
  unfold tx_return_body. repeat wp_step. eapply tx_pending_pop_spec; [done|]. intros p' Hp'.
  pose proof xr_pend0 as []. apply Forall_cons in pr_range0 as [Hi _].
  wp_step. wp_step.
  eapply wp_mono; [apply (process_tx_queue_spec config cap i _ (mk_view (tv_drv v) (tv_drv_sig v) (tv_cli v) pend));
    [by split|done|done]|].
  fold r. intros t s' (-> & Hrel' & He). repeat wp_step. cbn [fst snd].
  eapply wp_lift; [apply store_nat; lia|]. wp_step. cbn [fst snd].
  split_and!; [done| | |done].
  - split; [by rewrite length_insert|]. intros j Hj. unfold who'. destruct (decide (j = i)) as [->|Hne].
    + rewrite list_lookup_insert_eq by lia. f_equal. destruct r.1; symmetry.
      * apply bool_decide_eq_true. by left.
      * by apply bool_decide_eq_false.
    + rewrite list_lookup_insert_ne, Hl2 by done. f_equal. apply bool_decide_ext.
      destruct r.1; [|done]. rewrite elem_of_cons. naive_solver.
  - unfold who'. rewrite Hb. destruct r.1; [|by rewrite orb_false_r]. by rewrite orb_true_r.
Qed.

Lemma tx_return_loop_spec (k : nat) : forall v who l b s pend0 (pre : list Z) rest,
  stx_config_ok v -> tx_rel cap s v -> flags_of who l -> b = negb (bool_decide (who = [])) ->
  take k (tv_pend v) = pend0 -> length pend0 = k -> (forall i, i ∈ who -> i ∉ pend0) -> length rest = k ->
  wp (for_each rest (fun _ : Z => tx_return_body config)) (s, (l, b)) (fun _ p =>
    let '(v', who') := tv_return_loop config cap k v who in
    tx_rel cap p.1 v' /\ flags_of who' p.2.1 /\ p.2.2 = negb (bool_decide (who' = [])) /\
    stx_events p.1 = stx_events s /\ length (tv_cli v') = length (tv_cli v)).
Proof.
  induction k as [|k IH]; intros v who l b s pend0 pre rest Hcfg Hrel Hfl Hb Ht Hk Hdis Hr.
  - destruct rest; [|done]. cbn. wp_step. split_and!; done || apply Hfl.
  - destruct rest as [|x rest]; [done|]. destruct (tv_pend v) as [|i pend] eqn:Epend; [by subst pend0|].
    cbn [take] in Ht. subst pend0. cbn [length] in *. injection Hk as Hk. injection Hr as Hr.
    assert (i ∉ who) as Hnin. { intros Hi. apply (Hdis i Hi). by left. }
    cbn [for_each tv_return_loop]. rewrite Epend. wp_step.
    eapply wp_mono; [by eapply tx_return_body_spec|]. intros [] [s' [l' b']] (Hrel' & Hfl' & Hb' & He').
    cbn [fst snd] in *.
    pose proof (tv_process_clients i (mk_view (tv_drv v) (tv_drv_sig v) (tv_cli v) pend)) as Hlen.
    pose proof (tv_process_pend i (mk_view (tv_drv v) (tv_drv_sig v) (tv_cli v) pend)) as Hpd.
    destruct (tv_process config cap i _) as [t v1]. cbn [fst snd tv_cli tv_pend] in *.
    assert (take k (tv_pend v1) = take k pend) as Htk.
    { destruct Hpd as [-> | [_ ->]]; [done|]. unfold push_if_new. case_decide; [done|].
      rewrite take_app_le; [done|]. rewrite length_take in Hk. lia. }
    assert (NoDup (i :: pend)) as Hnd by (destruct Hrel as [? ? ? ? ? []]; by rewrite Epend in *).
    apply NoDup_cons in Hnd as [Hip _].
    eapply wp_mono; [eapply (IH v1 _ l' b' s' (take k pend) pre rest)|].
    + destruct Hcfg. split; rewrite Hlen; done.
    + done.
    + done.
    + done.
    + done.
    + done.
    + intros j Hj Hjp. assert (j ∈ pend) by (by eapply subseteq_take).
      destruct t; [apply elem_of_cons in Hj as [-> | Hj]; [done|]|]; apply (Hdis j Hj); by right.
    + done.
    + intros [] p. destruct (tv_return_loop config cap k v1 _) as [v' who'].
      intros (? & ? & ? & ? & ?). split_and!; try done; congruence.
Qed.

Lemma tv_signal_events_nil cs : tv_signal_events config [] cs = [].
Proof.
  unfold tv_signal_events. induction cs as [|c cs IH] using rev_ind; [done|].
  by rewrite imap_app, concat_app, IH.
Qed.

Lemma tx_return_spec s v :
  stx_config_ok v -> tx_rel cap s v ->
  wp (tx_return config) s (fun _ s' =>
    tx_rel cap s' (tv_return config cap v).1 /\ stx_events s' = stx_events s ++ (tv_return config cap v).2).
Proof.
  intros Hcfg Hrel. pose proof Hrel as []. unfold tx_return, tv_return. repeat wp_step.
  rewrite (tx_pending_length_spec _ _ _ xr_pend0).
  destruct (Z.eqb_spec (Z.of_nat (length (tv_pend v))) 0) as [E|Hne].
  { assert (tv_pend v = []) as Hnil by (destruct (tv_pend v); [done|cbn in E; lia]). wp_step.
    rewrite Hnil. cbn [length tv_return_loop]. unfold tv_finish. cbn [fst snd].
    assert (tv_signal [] (tv_cli v) = tv_cli v) as ->.
    { apply list_eq. intros i. unfold tv_signal. rewrite list_lookup_imap. by destruct (tv_cli v !! i). }
    rewrite tv_signal_events_nil.
    rewrite !app_nil_r. split; [by destruct v|done]. }
  wp_step. unfold for_upto. wp_step.
  eapply wp_mono; [apply (tx_return_loop_spec (length (tv_pend v)) v [] _ false s (tv_pend v) [])|].
  - done.
  - done.
  - split; [by rewrite length_replicate|]. intros i Hi. by rewrite lookup_replicate_2.
  - done.
  - by rewrite take_ge.
  - done.
  - intros i Hi. by apply elem_of_nil in Hi.
  - by rewrite length_seqZ, Nat2Z.id.
  - intros [] [s1 [l b]]. destruct (tv_return_loop config cap (length (tv_pend v)) v []) as [v' who].
    cbn [fst snd]. intros (Hrel' & Hfl & -> & He & Hlen). cbn beta iota.
    assert (stx_config_ok v') as Hcfg' by (destruct Hcfg; split; rewrite Hlen; done).
    unfold stx_emit. wp_step. wp_step; [wp_step|].
    + eapply wp_mono; [apply (tx_notify_all_spec who l v'); [done..|by destruct Hrel'; split]|].
      cbn [stx_events set_stx_events]. intros [] s2 [Hr2 ->]. split; [done|]. unfold tv_finish. cbn [snd].
      rewrite He. destruct who; [done|]. by rewrite <- !app_assoc.
    + eapply wp_mono; [by apply (tx_notify_all_spec who l v')|].
      intros [] s2 [Hr2 ->]. split; [done|]. unfold tv_finish. cbn [snd].
      rewrite He. by destruct who.
Qed.

(** ** A client's notification *)

Lemma tv_signal_events_single i cs :
  (length cs <= length (xc_client_ids config))%nat ->
  tv_signal_events config [i] cs
  = match cs !! i with
    | Some c => if tv_wants [i] i c then [Notify (xc_client_ids config !!! i)] else []
    | None => []
    end.
Proof.
  induction cs as [|c cs IH] using rev_ind; intros Hl; [done|].
  rewrite length_app in Hl. cbn in Hl.
  destruct (lookup_lt_is_Some_2 (xc_client_ids config) (length cs)) as [id Hid]; [lia|].
  rewrite (tv_signal_events_snoc [i] cs c id), IH by (done || lia).
  destruct (decide (i = length cs)) as [->|Hne].
  - rewrite lookup_ge_None_2 by lia. rewrite list_lookup_middle by done. cbn [app].
    by rewrite (list_lookup_total_correct _ _ _ Hid).
  - assert (tv_wants [i] (length cs) c = false) as ->.
    { unfold tv_wants. rewrite bool_decide_false; [done|]. rewrite list_elem_of_singleton. done. }
    rewrite app_nil_r. destruct (decide (i < length cs)%nat).
    + by rewrite lookup_app_l.
    + rewrite !lookup_ge_None_2; [done|rewrite length_app; cbn; lia|lia].
Qed.

Lemma tx_provide_spec ch (i : nat) s v :
  stx_config_ok v -> tx_rel cap s v -> (i < length (tv_cli v))%nat ->
  active_client config ch = Some (Z.of_nat i) -> xc_client_ids config !! i = Some ch ->
  wp (tx_provide config ch) s (fun _ s' =>
    tx_rel cap s' (tv_provide config cap i v).1 /\ stx_events s' = stx_events s ++ (tv_provide config cap i v).2).
Proof.
  intros Hcfg Hrel Hi Hact Hid. pose proof Hcfg as [Hn Hids]. unfold tx_provide, tv_provide. rewrite Hact.
  wp_step. eapply wp_mono; [by eapply process_tx_queue_spec|].
  pose proof (tv_process_clients i v) as Hlen.
  intros t s1 (Et & Hrel1 & He). destruct (tv_process config cap i v) as [t' v1]. cbn [fst snd] in *. subst t'.
  destruct (lookup_lt_is_Some_2 (tv_cli v1) i) as [c Hc]; [lia|].
  pose proof Hrel1 as []. destruct (Forall2_lookup_r _ _ _ _ _ xr_cli0 Hc) as (h & Hh & Hcrel).
  pose proof (Forall2_length _ _ _ xr_cli0) as Hlc.
  assert (forall s2, tx_queue_handle_cli s2 = tx_queue_handle_cli s1 -> signalled_upto 0 [] v1 s2) as H0.
  { intros s2 E. split; [by rewrite E|]. intros j d Hd. rewrite E.
    destruct (Forall2_lookup_r _ _ _ _ _ xr_cli0 Hd) as (hj & ? & ?). eauto. }
  destruct t; cbn [when andb].
  - unfold stx_emit. repeat wp_step. cbn [tx_queue_handle_cli set_stx_events].
    eapply wp_lift; [by apply load_nat|]. unfold tv_finish. cbn [fst snd app].
    rewrite tv_signal_events_single, Hc, (list_lookup_total_correct _ _ _ Hid) by lia.
    assert (serial_require_consumer_signal h = tv_wants [i] i c) as ->.
    { unfold tv_wants, serial_require_consumer_signal. destruct Hcrel as (_ & _ & ->).
      rewrite bool_decide_true by by apply list_elem_of_singleton. done. }
    assert (forall s2, tx_queue_handle_drv s2 = tx_queue_handle_drv s1 -> tx_pending s2 = tx_pending s1 ->
      tx_queue_handle_cli s2 = (if tv_wants [i] i c
        then <[i := set_sq_signalled 1 h]> (tx_queue_handle_cli s1) else tx_queue_handle_cli s1) ->
      tx_rel cap s2 (tv_finish config [i] v1).1) as Hfin.
    { intros s2 Ed Ep Ec. apply (signalled_finish [i] v1 s1 s2); [done| |done..]. split.
      { rewrite Ec. destruct (tv_wants _ _ _); rewrite ?length_insert; done. }
      intros j d Hd. apply lookup_lt_Some in Hd as Hj. rewrite Ec, (proj2 (Nat.ltb_lt _ _)) by done. cbn [andb].
      destruct (Forall2_lookup_r _ _ _ _ _ xr_cli0 Hd) as (hj & Hhj & Hr).
      destruct (decide (j = i)) as [->|Hne].
      - rewrite Hc in Hd. injection Hd as <-. destruct (tv_wants [i] i c); [|by eauto].
        rewrite list_lookup_insert_eq by lia. eexists. split; [done|]. destruct Hcrel as (? & ? & ?). done.
      - assert (tv_wants [i] j d = false) as ->.
        { unfold tv_wants. rewrite bool_decide_false; [done|]. by rewrite list_elem_of_singleton. }
        destruct (tv_wants [i] i c); [rewrite list_lookup_insert_ne by done|]; eauto. }
    destruct (tv_wants [i] i c) eqn:Ew; cbn [when].
    + wp_step. unfold stx_on_cli. eapply wp_zoom_nth; [lia|by rewrite Nat2Z.id|].
      unfold serial_cancel_consumer_signal. repeat wp_step. split.
      * apply Hfin; cbn; by rewrite ?Nat2Z.id.
      * cbn. rewrite He. by rewrite <- app_assoc.
    + wp_step. split; [by apply Hfin|]. cbn. by rewrite He.
  - repeat wp_step. eapply wp_lift; [by apply load_nat|]. wp_step. unfold tv_finish. cbn [fst snd app].
    rewrite tv_signal_events_nil, app_nil_r. split; [|done].
    assert (tv_signal [] (tv_cli v1) = tv_cli v1) as ->; [|by destruct v1].
    apply list_eq. intros j. unfold tv_signal. rewrite list_lookup_imap. by destruct (tv_cli v1 !! j).
Qed.

Lemma active_client_spec ch :
  xc_num_clients config = Z.of_nat (length (xc_client_ids config)) ->
  match active_client config ch with
  | Some z => exists i, z = Z.of_nat i /\ xc_client_ids config !! i = Some ch
  | None => ch ∉ xc_client_ids config
  end.
Proof.
  intros Hn. unfold active_client. destruct (find _ _) as [z|] eqn:E.
  - apply find_some in E as [Hin Hb%bool_decide_eq_true]. apply list_elem_of_In, elem_of_seqZ in Hin.
    exists (Z.to_nat z). split; [lia|done].
  - intros [i Hi]%list_elem_of_lookup. apply lookup_lt_Some in Hi as Hlt.
    pose proof (find_none _ _ E (Z.of_nat i)) as H. cbn in H. rewrite Nat2Z.id, bool_decide_true in H by done.
    discriminate H. apply list_elem_of_In, elem_of_seqZ. lia.
Qed.

End notified.

(** The effect of a notification on channel [ch]. *)
Definition tv_notified (config : serial_virt_tx_config) (cap : Z) (ch : Z) (v : tx_view) : tx_view * list event :=
  if ch =? xc_driver_id config then tv_return config cap v
  else match active_client config ch with
       | Some i => tv_provide config cap (Z.to_nat i) v
       | None => (v, [])
       end.

(** C21. The transmit virtualiser implements the abstract one: on every
    notification, from the driver or a client, the output of a client goes to
    the driver whole, coloured, or not at all; a client that does not fit is
    remembered, once, and is served in the order of arrival when the driver
    has made room; driver and clients are signalled exactly as [tv_finish]
    says.  No assertion fails, the bound on the pending clients included. *)
Theorem serial_virt_tx_refines (config : serial_virt_tx_config) (cap ch : Z) (s : stx_state) (v : tx_view) :
  stx_config_ok config v -> tx_rel cap s v ->
  wp (notified config ch) s (fun _ s' =>
    tx_rel cap s' (tv_notified config cap ch v).1 /\
    stx_events s' = stx_events s ++ (tv_notified config cap ch v).2).
Proof.
  intros Hcfg Hrel. pose proof Hcfg as [Hn Hids]. unfold notified, tv_notified.
  destruct (ch =? xc_driver_id config); [by apply tx_return_spec|].
  pose proof (active_client_spec config ch ltac:(congruence)) as Ha.
  destruct (active_client config ch) as [z|] eqn:E.
  - destruct Ha as (i & -> & Hi). rewrite Nat2Z.id. apply lookup_lt_Some in Hi as ?.
    apply tx_provide_spec; (done || lia).
  - unfold tx_provide. rewrite E. wp_step. by rewrite app_nil_r.
Qed.

(** Client 1, which is waiting longer, does not fit; client 0 does. *)
Definition stx_config_ex : serial_virt_tx_config := mk_stx_config 9 16 [5; 6] [8; 8] 2 [] true false.
Definition stx_state_ex : stx_state :=
  mk_stx (mk_serial_handle (mk_serial_queue 5 1 1) 16 (replicate 16 120))
    [mk_serial_handle (mk_serial_queue 2 0 0) 8 [65; 66; 0; 0; 0; 0; 0; 0];
     mk_serial_handle (mk_serial_queue 4 0 0) 8 [67; 68; 69; 70; 0; 0; 0; 0]]
    (mk_tx_pending ([1; 0] ++ replicate 63 0) ([true; true] ++ replicate 62 false) 0 2) [].
Definition tx_view_ex : tx_view := mk_view (replicate 4 120) 1 [([65; 66], 0); ([67; 68; 69; 70], 0)] [1%nat; 0%nat].

Lemma tx_rel_ex : tx_rel 16 stx_state_ex tx_view_ex.
Proof.
  split; try done.
  - split; cbn; try (done || lia). by exists 268435456.
  - do 2 (constructor; [split_and!; [split; cbn; try (done || lia); by exists 536870912|done..]|]). constructor.
  - split; cbn [tp_head tp_tail tx_pending stx_state_ex tv_pend tx_view_ex tv_cli]; try (done || (cbn; lia)).
    + apply NoDup_cons. split; [set_solver|apply NoDup_singleton].
    + repeat constructor; cbn; lia.
    + intros [|[|k]] i [= <-]; done.
    + intros i Hi. do 64 (destruct i as [|i]; [reflexivity|]). lia.
Qed.

Lemma serial_virt_tx_refines_witness :
  exists s', notified stx_config_ex 9 stx_state_ex = Ok (tt, s') /\
    serial_items (tx_queue_handle_drv s')
    = replicate 4 120 ++ [27; 91; 51; 49; 109; 65; 66; 27; 91; 48; 109] /\
    tx_pending_length (tx_pending s') = 1 /\ stx_events s' = [Notify 9; Notify 5].
Proof.
  pose proof (serial_virt_tx_refines stx_config_ex 16 9 stx_state_ex tx_view_ex
    ltac:(split; reflexivity) tx_rel_ex) as H.
  apply wp_elim in H. destruct H as ([] & s' & E & [] & He). exists s'. split; [exact E|].
  split; [rewrite xr_drv_items0; by vm_compute|].
  split; [rewrite (tx_pending_length_spec _ _ _ xr_pend0); by vm_compute|].
  rewrite He. by vm_compute.
Defined.
