(* ===== verification/SerialVirtRx.v ===== *)
(** * The serial receive virtualiser: serial/components/virt_rx.c

    All input goes to the current client.  The switch character starts a
    number, which a terminating character ends: it selects another client. *)

From S2P Require Import Prelude Ring Fifo CLib Microkit SerialQueue.

Definition MAX_CLI_BASE_10 : Z := 4.

Inductive mode_t : Type := normal | switched | number.

Record serial_virt_rx_config : Type := mk_srx_config {
  yc_driver_id : Z;
  yc_driver_size : Z;
  yc_client_ids : list Z;
  yc_client_sizes : list Z;
  yc_num_clients : Z;          (* uint8_t *)
  yc_switch_char : Z;
  yc_terminate_num_char : Z;
}.

Record srx_state : Type := mk_srx {
  rx_queue_handle_drv : serial_queue_handle;
  rx_queue_handle_cli : list serial_queue_handle;
  current_mode : mode_t;
  current_client : Z;          (* uint32_t *)
  next_client : list Z;        (* char[MAX_CLI_BASE_10 + 1] *)
  next_client_index : Z;       (* uint8_t *)
  srx_events : list event;
}.

Definition set_srx_drv (q : serial_queue_handle) (s : srx_state) : srx_state :=
  mk_srx q (rx_queue_handle_cli s) (current_mode s) (current_client s) (next_client s) (next_client_index s) (srx_events s).
Definition set_srx_cli (l : list serial_queue_handle) (s : srx_state) : srx_state :=
  mk_srx (rx_queue_handle_drv s) l (current_mode s) (current_client s) (next_client s) (next_client_index s) (srx_events s).
Definition set_mode (m : mode_t) (s : srx_state) : srx_state :=
  mk_srx (rx_queue_handle_drv s) (rx_queue_handle_cli s) m (current_client s) (next_client s) (next_client_index s) (srx_events s).
Definition set_current_client (c : Z) (s : srx_state) : srx_state :=
  mk_srx (rx_queue_handle_drv s) (rx_queue_handle_cli s) (current_mode s) c (next_client s) (next_client_index s) (srx_events s).
Definition set_next_client (l : list Z) (i : Z) (s : srx_state) : srx_state :=
  mk_srx (rx_queue_handle_drv s) (rx_queue_handle_cli s) (current_mode s) (current_client s) l i (srx_events s).
Definition set_srx_events (l : list event) (s : srx_state) : srx_state :=
  mk_srx (rx_queue_handle_drv s) (rx_queue_handle_cli s) (current_mode s) (current_client s) (next_client s)
    (next_client_index s) l.
Definition srx_emit (e : event) : M srx_state unit := modify (fun s => set_srx_events (srx_events s ++ [e]) s).

Definition srx_on_drv {A} (m : M serial_queue_handle A) : M srx_state A := zoom rx_queue_handle_drv set_srx_drv m.
Definition srx_on_cli {A} (i : Z) (m : M serial_queue_handle A) : M srx_state A :=
  zoom_nth rx_queue_handle_cli set_srx_cli i m.

Definition reset_state : M srx_state unit :=
  s ← get;
  l ← lift (sddf_memset (next_client s) 0 0 (Z.to_nat (MAX_CLI_BASE_10 + 1)));
  modify (set_next_client l 0);;
  modify (set_mode normal).

Section handlers.
Context (config : serial_virt_rx_config).

(** The local variables of [rx_return]: [transferred], [local_tail], and
    whether the last [serial_dequeue] has failed. *)
Record rx_locals : Type := mk_locals {
  lv_transferred : bool;
  lv_local_tail : Z;
  lv_done : bool;
}.

(** [if (!serial_enqueue_local(cli, &local_tail, c)) transferred = true]. *)
Definition put_char (c : Z) : M (srx_state * rx_locals) unit :=
  p ← get;
  r ← on_state (srx_on_cli (current_client p.1) (serial_enqueue_local (lv_local_tail p.2) c));
  let '(err, tail) := (r : Z * Z) in
  set_local (mk_locals (if err =? 0 then true else lv_transferred p.2) tail (lv_done p.2)).

(** [next_client[next_client_index++] = c]. *)
Definition push_digit (c : Z) : M srx_state unit :=
  s ← get;
  l ← lift (store (next_client s) (next_client_index s) c);
  modify (set_next_client l (u8 (next_client_index s + 1))).

(** The switch to the client [n] typed by the user. *)
Definition switch_client (n : Z) : M (srx_state * rx_locals) unit :=
  p ← get;
  when (lv_transferred p.2)
    (on_state (srx_on_cli (current_client p.1) (serial_update_shared_tail (lv_local_tail p.2)));;
     id ← lift (load (yc_client_ids config) (current_client p.1));
     on_state (srx_emit (Notify id)));;
  on_state (modify (set_current_client (u32 n)));;
  p' ← get;
  h ← lift (load (rx_queue_handle_cli p'.1) (u32 n));
  set_local (mk_locals false (sq_tail (sh_queue h)) (lv_done p.2)).

(** The switch on the mode for one character. *)
Definition rx_char (c : Z) : M (srx_state * rx_locals) unit :=
  p ← get;
  match current_mode p.1 with
  | normal =>
    if c =? yc_switch_char config then on_state (modify (set_mode switched)) else put_char c
  | switched =>
    if sddf_isdigit c then on_state (push_digit c);; on_state (modify (set_mode number))
    else
      when (c =? yc_switch_char config) (put_char c);;
      on_state reset_state
  | number =>
    if c =? yc_terminate_num_char config then
      input_number ← lift (sddf_atoi (next_client p.1));
      when ((0 <=? input_number) && (input_number <? yc_num_clients config)) (switch_client input_number);;
      on_state reset_state
    else if (next_client_index p.1 <? MAX_CLI_BASE_10) && sddf_isdigit c then on_state (push_digit c)
    else on_state reset_state
  end.

(** [while (!serial_dequeue(&drv, &c))]: one more dequeue than characters. *)
Definition rx_return_body : M (srx_state * rx_locals) unit :=
  r ← on_state (srx_on_drv serial_dequeue);
  match r with
  | None => p ← get; set_local (mk_locals (lv_transferred p.2) (lv_local_tail p.2) true)
  | Some c => rx_char c
  end.

Definition rx_more (p : srx_state * rx_locals) : bool := negb (lv_done p.2).
Definition rx_bound (p : srx_state * rx_locals) : nat :=
  if lv_done p.2 then 0 else S (Z.to_nat (serial_queue_length (rx_queue_handle_drv p.1))).

Definition rx_return : M srx_state unit :=
  s ← get;
  h ← lift (load (rx_queue_handle_cli s) (current_client s));
  r ← with_local (mk_locals false (sq_tail (sh_queue h)) false) (loop rx_bound rx_more rx_return_body);
  let l := (r : unit * rx_locals).2 in
  s ← get;
  srx_on_cli (current_client s) (serial_update_shared_tail (lv_local_tail l));;
  s ← get;
  when (negb (serial_queue_full (rx_queue_handle_drv s) (sq_tail (sh_queue (rx_queue_handle_drv s))))
        && serial_require_consumer_signal (rx_queue_handle_drv s))
    (srx_on_drv serial_cancel_consumer_signal;;
     srx_emit (Notify (yc_driver_id config)));;
  s ← get;
  when (lv_transferred l)
    (id ← lift (load (yc_client_ids config) (current_client s));
     srx_emit (Notify id)).

Definition notified (ch : Z) : M srx_state unit :=
  if ch =? yc_driver_id config then rx_return else mret tt.

Definition init (magic : bool) : M srx_state unit :=
  assert_ magic;;
  srx_on_drv (modify (fun h => serial_queue_init (sh_queue h) (u32 (yc_driver_size config)) (sh_data_region h)));;
  for_upto (yc_num_clients config) (fun i =>
    size ← lift (load (yc_client_sizes config) i);
    srx_on_cli i (modify (fun h => serial_queue_init (sh_queue h) (u32 size) (sh_data_region h)))).

End handlers.

(** ** The abstract virtualiser *)

(** The digits typed so far as numbers, the bytes of every client with the
    capacity of its queue, whether something was put into the current client's
    queue since it was selected, and the signals sent. *)
Record rx_view : Type := mk_rview {
  rv_mode : mode_t;
  rv_cur : nat;
  rv_digits : list Z;
  rv_cli : list (list Z * Z);
  rv_trans : bool;
  rv_events : list event;
}.

Section spec.
Context (config : serial_virt_rx_config).

(** A character for the current client, lost if its queue is full. *)
Definition rv_put (c : Z) (v : rx_view) : rx_view :=
  match rv_cli v !! rv_cur v with
  | Some (l, cap) =>
    if bool_decide (Z.of_nat (length l) < cap)
    then mk_rview (rv_mode v) (rv_cur v) (rv_digits v) (<[rv_cur v := (l ++ [c], cap)]> (rv_cli v)) true (rv_events v)
    else v
  | None => v
  end.

Definition rv_reset (v : rx_view) : rx_view :=
  mk_rview normal (rv_cur v) [] (rv_cli v) (rv_trans v) (rv_events v).

Definition rv_char (c : Z) (v : rx_view) : rx_view :=
  match rv_mode v with
  | normal =>
    if c =? yc_switch_char config
    then mk_rview switched (rv_cur v) (rv_digits v) (rv_cli v) (rv_trans v) (rv_events v)
    else rv_put c v
  | switched =>
    if sddf_isdigit c
    then mk_rview number (rv_cur v) [c - 48] (rv_cli v) (rv_trans v) (rv_events v)
    else rv_reset (if c =? yc_switch_char config then rv_put c v else v)
  | number =>
    if c =? yc_terminate_num_char config then
      rv_reset
        (if dec_value (rv_digits v) <? yc_num_clients config
         then mk_rview number (Z.to_nat (dec_value (rv_digits v))) (rv_digits v) (rv_cli v) false
                (rv_events v ++ if rv_trans v then [Notify (yc_client_ids config !!! rv_cur v)] else [])
         else v)
    else if bool_decide (length (rv_digits v) < 4)%nat && sddf_isdigit c
    then mk_rview number (rv_cur v) (rv_digits v ++ [c - 48]) (rv_cli v) (rv_trans v) (rv_events v)
    else rv_reset v
  end.

(** All input, and the final signals; [sig] says that the driver wants one. *)
Definition rv_input (l : list Z) (v : rx_view) : rx_view := foldl (fun v c => rv_char c v) v l.
Definition rv_final (sig : bool) (v : rx_view) : list event :=
  rv_events v ++ (if sig then [Notify (yc_driver_id config)] else [])
    ++ (if rv_trans v then [Notify (yc_client_ids config !!! rv_cur v)] else []).

End spec.

(** ** A private tail *)

(** The queue [h] holds the published bytes; with the private tail [t] it would
    hold [l]. *)
Record local_rel (h : serial_queue_handle) (t : Z) (l : list Z) : Prop := {
  lr_wf : serial_wf h;
  lr_wf_local : serial_wf (set_sq_tail t h);
  lr_items : serial_items (set_sq_tail t h) = l;
  lr_len : serial_queue_length h <= serial_queue_length (set_sq_tail t h);
}.

Lemma local_rel_start h : serial_wf h -> local_rel h (sq_tail (sh_queue h)) (serial_items h).
Proof. intros Hwf. split; destruct h as [[]]; done. Qed.

Lemma local_rel_length h t l : local_rel h t l -> Z.of_nat (length l) = serial_queue_length (set_sq_tail t h).
Proof. intros []. by rewrite serial_length_spec, lr_items0. Qed.

Lemma serial_enqueue_local_full_spec h t l c :
  local_rel h t l -> Z.of_nat (length l) = sh_capacity h ->
  serial_enqueue_local t c h = Ok ((-1, t), h).
Proof.
  intros Hr Hf. rewrite (local_rel_length h t l Hr) in Hf.
  unfold serial_enqueue_local, mbind, M_bind, get.
  assert (serial_queue_full h t = true) as ->; [|done]. apply Z.eqb_eq. exact Hf.
Qed.

Lemma serial_enqueue_local_spec h t l c (Q : Z * Z -> serial_queue_handle -> Prop) :
  local_rel h t l -> Z.of_nat (length l) < sh_capacity h ->
  (forall h' t', local_rel h' t' (l ++ [c]) -> serial_rest h' = serial_rest h -> Q (0, t') h') ->
  wp (serial_enqueue_local t c) h Q.
Proof.
  intros Hr Hroom HQ. pose proof (local_rel_length h t l Hr) as Hlen. destruct Hr.
  rewrite Hlen in Hroom.
  assert (serial_queue_full h t = false) as Hnf.
  { apply Z.eqb_neq. change (u32 (t - sq_head (sh_queue h))) with (serial_queue_length (set_sq_tail t h)). lia. }
  unfold serial_enqueue_local. repeat wp_step. rewrite Hnf.
  wp_step. eapply wp_lift; [apply umod_ok; destruct lr_wf0; lia|].
  wp_step. eapply wp_lift.
  { apply (ring_store_slot _ _ _ _ _ lr_wf_local0 t c). }
  repeat wp_step. apply HQ; [|done]. split.
  - destruct lr_wf0. split; try done. cbn. by rewrite length_insert.
  - by apply (ring_enq_wf _ _ _ _ _ lr_wf_local0 c).
  - rewrite <- lr_items0. by apply (ring_enq_contents _ _ _ _ _ lr_wf_local0 c).
  - change (serial_queue_length h <= ring_len (2 ^ 32) (sq_head (sh_queue h)) ((t + 1) mod 2 ^ 32)).
    assert (ring_len (2 ^ 32) (sq_head (sh_queue h)) ((t + 1) mod 2 ^ 32)
            = serial_queue_length (set_sq_tail t h) + 1) as -> by apply (ring_len_enq _ _ _ _ _ lr_wf_local0 Hroom).
    lia.
Qed.

Lemma serial_update_local_spec h t l (Q : unit -> serial_queue_handle -> Prop) :
  local_rel h t l ->
  (forall h', serial_wf h' -> serial_items h' = l -> serial_rest h' = serial_rest h -> Q tt h') ->
  wp (serial_update_shared_tail t) h Q.
Proof.
  intros [] HQ. apply serial_update_shared_tail_spec.
  - split; [exact lr_len0|]. apply (serial_length_range _ lr_wf_local0).
  - by apply HQ.
Qed.

(** ** The number typed *)

Lemma isdigit_value c : sddf_isdigit c = true -> 0 <= c - 48 <= 9.
Proof. unfold sddf_isdigit. lia. Qed.

(** The buffer that holds the digits [ds]. *)
Definition digits_buffer (ds : list Z) : list Z := ((fun d => d + 48) <$> ds) ++ replicate (5 - length ds) 0.

Lemma length_digits_buffer ds : (length ds <= 5)%nat -> length (digits_buffer ds) = 5%nat.
Proof. intros. unfold digits_buffer. rewrite length_app, length_fmap, length_replicate. lia. Qed.

Lemma dec_fold_app ds d a : foldl (fun a d => a * 10 + d) a (ds ++ [d]) = foldl (fun a d => a * 10 + d) a ds * 10 + d.
Proof. by rewrite foldl_app. Qed.

Lemma dec_value_small ds :
  Forall (fun d => 0 <= d <= 9) ds -> 0 <= dec_value ds < 10 ^ Z.of_nat (length ds).
Proof.
  unfold dec_value. induction ds as [|d ds IH] using rev_ind; intros Hds; [done|].
  apply Forall_app in Hds as [Hds [Hd _]%Forall_cons]. specialize (IH Hds). rewrite dec_fold_app, length_app.
  cbn [length]. rewrite Nat2Z.inj_add, Z.pow_add_r by lia. change (10 ^ Z.of_nat 1) with 10. lia.
Qed.

Lemma atoi_digits_buffer ds :
  Forall (fun d => 0 <= d <= 9) ds -> ds <> [] -> (length ds <= 4)%nat ->
  sddf_atoi (digits_buffer ds) = Ok (dec_value ds) /\ 0 <= dec_value ds < 10 ^ 4.
Proof.
  intros Hds Hne Hl. pose proof (dec_value_small ds Hds) as Hv.
  assert (dec_value ds < 10 ^ 4).
  { eapply Z.lt_le_trans; [apply Hv|]. apply Z.pow_le_mono_r; lia. }
  split; [|lia]. unfold digits_buffer. replace (5 - length ds)%nat with (S (4 - length ds)) by lia.
  cbn [replicate].
  assert (atoi_digits (((fun d => d + 48) <$> ds) ++ 0 :: replicate (4 - length ds) 0) 0 = Ok (- dec_value ds)) as Hd.
  { change 0 with (- 0) at 3. apply atoi_digits_spec; [done..|lia|]. fold (dec_value ds). lia. }
  destruct ds as [|d ds]; [done|]. apply Forall_cons in Hds as [Hd0 _].
  unfold sddf_atoi. cbn [fmap list_fmap app] in *.
  unfold atoi_skip_space. assert (sddf_isspace (d + 48) = false) as -> by (unfold sddf_isspace; lia).
  rewrite !(proj2 (Z.eqb_neq _ _)) by lia. rewrite Hd.
  assert (is_int (- - dec_value (d :: ds)) = true) as -> by (unfold is_int; lia). f_equal. lia.
Qed.

Lemma digits_buffer_push ds d :
  (length ds <= 4)%nat -> <[length ds := d + 48]> (digits_buffer ds) = digits_buffer (ds ++ [d]).
Proof.
  intros Hl. unfold digits_buffer. rewrite fmap_app, <- app_assoc. rewrite insert_app_r_alt by (by rewrite length_fmap).
  rewrite length_fmap, Nat.sub_diag, length_app. cbn [length]. f_equal.
  replace (5 - length ds)%nat with (S (5 - (length ds + 1))) by lia. done.
Qed.

Lemma reset_buffer ds :
  (length ds <= 5)%nat -> sddf_memset (digits_buffer ds) 0 0 5 = Ok (digits_buffer []).
Proof.
  intros Hl. change 0 with (Z.of_nat 0) at 1. rewrite sddf_memset_spec by (by rewrite length_digits_buffer).
  unfold splice. rewrite drop_ge by (rewrite length_replicate, length_digits_buffer; cbn; lia). done.
Qed.

(** ** The simulation *)

Definition digits_ok (m : mode_t) (ds : list Z) : Prop :=
  Forall (fun d => 0 <= d <= 9) ds /\ (length ds <= 4)%nat /\
  match m with number => ds <> [] | _ => ds = [] end.

(** Client [i]'s queue: the current client's tail is the private one. *)
Definition client_rel (cur i : nat) (t : Z) (h : serial_queue_handle) (c : list Z * Z) : Prop :=
  sh_capacity h = c.2 /\
  if decide (i = cur) then local_rel h t c.1 else serial_wf h /\ serial_items h = c.1.

Record rx_rel (config : serial_virt_rx_config) (v : rx_view) (s : srx_state) (trans : bool) (t : Z) : Prop := {
  rr_num : yc_num_clients config = Z.of_nat (length (rv_cli v));
  rr_ids : length (yc_client_ids config) = length (rv_cli v);
  rr_max : Z.of_nat (length (rv_cli v)) < 2 ^ 8;
  rr_cur_lt : (rv_cur v < length (rv_cli v))%nat;
  rr_mode : current_mode s = rv_mode v;
  rr_cur : current_client s = Z.of_nat (rv_cur v);
  rr_digits : digits_ok (rv_mode v) (rv_digits v);
  rr_next : next_client s = digits_buffer (rv_digits v);
  rr_index : next_client_index s = Z.of_nat (length (rv_digits v));
  rr_trans : trans = rv_trans v;
  rr_events : srx_events s = rv_events v;
  rr_len : length (rx_queue_handle_cli s) = length (rv_cli v);
  rr_cli : forall i c, rv_cli v !! i = Some c -> exists h,
    rx_queue_handle_cli s !! i = Some h /\ client_rel (rv_cur v) i t h c;
  rr_untouched : rv_trans v = false -> forall h, rx_queue_handle_cli s !! rv_cur v = Some h -> t = sq_tail (sh_queue h);
}.

Section simulation.
Context (config : serial_virt_rx_config).

Lemma rx_rel_current v s trans t :
  rx_rel config v s trans t ->
  exists h l cap, rv_cli v !! rv_cur v = Some (l, cap) /\ rx_queue_handle_cli s !! rv_cur v = Some h /\
    sh_capacity h = cap /\ local_rel h t l.
Proof.
  intros []. destruct (lookup_lt_is_Some_2 _ _ rr_cur_lt0) as [[l cap] Hc].
  destruct (rr_cli0 _ _ Hc) as (h & Hh & Hcap & Hr). rewrite decide_True in Hr by done. cbn in *. eauto 10.
Qed.

Lemma put_char_spec c v s l :
  rx_rel config v s (lv_transferred l) (lv_local_tail l) ->
  wp (put_char c) (s, l) (fun _ p =>
    rx_rel config (rv_put c v) p.1 (lv_transferred p.2) (lv_local_tail p.2) /\
    rx_queue_handle_drv p.1 = rx_queue_handle_drv s /\ lv_done p.2 = lv_done l).
Proof.
  intros Hrel. destruct (rx_rel_current _ _ _ _ Hrel) as (h & q & cap & Hc & Hh & Hcap & Hl).
  pose proof Hrel as []. unfold put_char. repeat wp_step. cbn [fst snd]. rewrite rr_cur0.
  unfold srx_on_cli. eapply wp_zoom_nth; [lia|by rewrite Nat2Z.id|].
  unfold rv_put. rewrite Hc, Nat2Z.id. case_bool_decide as Hroom.
  - eapply serial_enqueue_local_spec; [done|lia|]. intros h' t' Hl' Hrest%serial_rest_signalled. cbn beta iota.
    wp_step. cbn. split_and!; [|done..]. split; cbn; try done.
    + by rewrite length_insert.
    + by rewrite length_insert.
    + by rewrite length_insert.
    + by rewrite length_insert.
    + by rewrite !length_insert.
    + intros i d Hd. destruct (decide (i = rv_cur v)) as [->|Hne].
      * rewrite list_lookup_insert_eq in Hd by done. injection Hd as <-.
        rewrite list_lookup_insert_eq by lia. eexists. split; [done|]. split; [cbn; lia|].
        by rewrite decide_True.
      * rewrite list_lookup_insert_ne in Hd by done. rewrite list_lookup_insert_ne by done.
        destruct (rr_cli0 i d Hd) as (hi & Hhi & Hci & Hri). exists hi. split; [done|]. split; [done|].
        rewrite decide_False in * by done. done.
  - assert (Z.of_nat (length q) = sh_capacity h) as Hfull.
    { pose proof (local_rel_length _ _ _ Hl) as El. destruct Hl.
      pose proof (serial_length_range _ lr_wf_local0). cbn in *. lia. }
    eapply wp_intro; [by eapply serial_enqueue_local_full_spec|]. cbn beta iota. wp_step. cbn.
    assert (set_srx_cli (<[rv_cur v := h]> (rx_queue_handle_cli s)) s = s) as ->.
    { rewrite list_insert_id by done. by destruct s. }
    done.
Qed.

Lemma push_digit_spec ds c s :
  next_client s = digits_buffer ds -> next_client_index s = Z.of_nat (length ds) -> (length ds < 4)%nat ->
  wp (push_digit c) s (fun _ s' =>
    s' = set_next_client (digits_buffer (ds ++ [c - 48])) (Z.of_nat (length (ds ++ [c - 48]))) s).
Proof.
  intros Hn Hi Hl. unfold push_digit. repeat wp_step. rewrite Hn, Hi.
  eapply wp_lift; [apply store_nat; rewrite length_digits_buffer; lia|]. wp_step.
  replace c with (c - 48 + 48) at 1 by lia. rewrite digits_buffer_push by lia.
  rewrite length_app. cbn [length]. do 2 f_equal. unfold u8. rewrite Z.mod_small; lia.
Qed.

Lemma reset_state_spec ds s :
  next_client s = digits_buffer ds -> (length ds <= 4)%nat ->
  wp reset_state s (fun _ s' => s' = set_mode normal (set_next_client (digits_buffer []) 0 s)).
Proof.
  intros Hn Hl. unfold reset_state. repeat wp_step. rewrite Hn.
  eapply wp_lift; [apply (reset_buffer ds); lia|]. by repeat wp_step.
Qed.

(** Leaving a mode: the relation for another mode, other digits. *)
Lemma rx_rel_mode v s trans t m ds :
  rx_rel config v s trans t -> digits_ok m ds ->
  rx_rel config (mk_rview m (rv_cur v) ds (rv_cli v) (rv_trans v) (rv_events v))
    (set_mode m (set_next_client (digits_buffer ds) (Z.of_nat (length ds)) s)) trans t.
Proof. intros [] Hd. by split. Qed.

Lemma rx_rel_reset v s trans t :
  rx_rel config v s trans t -> wp reset_state s (fun _ s' =>
    rx_rel config (rv_reset v) s' trans t /\ rx_queue_handle_drv s' = rx_queue_handle_drv s).
Proof.
  intros Hrel. pose proof Hrel as []. eapply wp_mono; [eapply reset_state_spec; [done|apply rr_digits0]|].
  intros [] s' ->. split; [|done]. apply (rx_rel_mode v s trans t normal []); [done|]. split_and!; [done|cbn; lia|done].
Qed.

Lemma switch_client_spec v s l (n : nat) :
  rx_rel config v s (lv_transferred l) (lv_local_tail l) -> (n < length (rv_cli v))%nat ->
  wp (switch_client config (Z.of_nat n)) (s, l) (fun _ p =>
    rx_rel config (mk_rview (rv_mode v) n (rv_digits v) (rv_cli v) false
                    (rv_events v ++ if rv_trans v then [Notify (yc_client_ids config !!! rv_cur v)] else []))
      p.1 (lv_transferred p.2) (lv_local_tail p.2) /\
    rx_queue_handle_drv p.1 = rx_queue_handle_drv s /\ lv_done p.2 = lv_done l).
Proof.
  intros Hrel Hn. destruct (rx_rel_current _ _ _ _ Hrel) as (h & q & cap & Hc & Hh & Hcap & Hl).
  pose proof Hrel as [].
  (* the state after the publication of the private tail *)
  assert (forall s1, current_client s1 = current_client s ->
    current_mode s1 = current_mode s -> next_client s1 = next_client s ->
    next_client_index s1 = next_client_index s -> rx_queue_handle_drv s1 = rx_queue_handle_drv s ->
    srx_events s1 = rv_events v ++ (if rv_trans v then [Notify (yc_client_ids config !!! rv_cur v)] else []) ->
    length (rx_queue_handle_cli s1) = length (rv_cli v) ->
    (forall i c, rv_cli v !! i = Some c -> exists h, rx_queue_handle_cli s1 !! i = Some h /\
       sh_capacity h = c.2 /\ serial_wf h /\ serial_items h = c.1) ->
    wp (on_state (modify (set_current_client (u32 (Z.of_nat n))));;
        p' ← get;
        h ← lift (load (rx_queue_handle_cli p'.1) (u32 (Z.of_nat n)));
        set_local (mk_locals false (sq_tail (sh_queue h)) (lv_done l))) (s1, l) (fun _ p =>
      rx_rel config (mk_rview (rv_mode v) n (rv_digits v) (rv_cli v) false
                    (rv_events v ++ if rv_trans v then [Notify (yc_client_ids config !!! rv_cur v)] else []))
        p.1 (lv_transferred p.2) (lv_local_tail p.2) /\
      rx_queue_handle_drv p.1 = rx_queue_handle_drv s /\ lv_done p.2 = lv_done l)) as Hrest.
  { intros s1 E1 E2 E3 E4 E5 E6 E7 Hcl. rewrite u32_small by uint_lia. repeat wp_step. cbn [fst rx_queue_handle_cli set_current_client].
    destruct (lookup_lt_is_Some_2 _ _ Hn) as [cn Hcn]. destruct (Hcl n cn Hcn) as (hn & Hhn & Hncap & Hnwf & Hnit).
    eapply wp_lift; [by apply load_nat|]. wp_step. cbn. split_and!; [|done..]. split; cbn; try congruence.
    - by rewrite E3.
    - intros i c Hi. destruct (Hcl i c Hi) as (hi & Hhi & Hicap & Hiwf & Hiit). exists hi. split; [done|].
      split; [done|]. case_decide as Ein; [|done]. subst i. rewrite Hhn in Hhi. injection Hhi as <-.
      rewrite <- Hiit. by apply local_rel_start. }
  assert (forall hc i c, rv_cli v !! i = Some c -> serial_wf hc -> serial_items hc = q -> sh_capacity hc = cap ->
    exists h', (<[rv_cur v := hc]> (rx_queue_handle_cli s)) !! i = Some h' /\
      sh_capacity h' = c.2 /\ serial_wf h' /\ serial_items h' = c.1) as Hcl.
  { intros hc i c Hi Hw Hit Hcp. destruct (decide (i = rv_cur v)) as [->|Hne].
    - rewrite list_lookup_insert_eq by lia. exists hc. rewrite Hc in Hi. by injection Hi as <-.
    - rewrite list_lookup_insert_ne by done. destruct (rr_cli0 i c Hi) as (hi & Hhi & Hicap & Hir).
      rewrite decide_False in Hir by done. exists hi. split_and!; (done || apply Hir). }
  unfold switch_client. wp_step. wp_step. wp_step. cbn [fst snd]. rewrite rr_trans0.
  destruct (rv_trans v) eqn:Etr; cbn [when].
  - repeat wp_step. rewrite rr_cur0. unfold srx_on_cli. eapply wp_zoom_nth; [lia|by rewrite Nat2Z.id|].
    eapply serial_update_local_spec; [done|]. intros h' Hh' Hit' [Hcap' _]%serial_rest_signalled.
    wp_step. destruct (lookup_lt_is_Some_2 (yc_client_ids config) (rv_cur v)) as [id Hid]; [lia|].
    eapply wp_lift; [by apply load_nat|]. unfold srx_emit. wp_step. wp_step.
    apply Hrest; cbn; try done.
    + by rewrite rr_events0, (list_lookup_total_correct _ _ _ Hid).
    + by rewrite length_insert.
    + rewrite Nat2Z.id. intros i c Hi. apply Hcl; (done || congruence).
  - wp_step. apply Hrest; try done.
    + by rewrite app_nil_r.
    + intros i c Hi. rewrite <- (list_insert_id (rx_queue_handle_cli s) (rv_cur v) h) by done.
      destruct Hl. pose proof (rr_untouched0 eq_refl h Hh) as Et.
      apply Hcl; try done. rewrite <- lr_items0, Et. by destruct h as [[]].
Qed.

(** One character. *)
Lemma rx_char_spec c v s l :
  rx_rel config v s (lv_transferred l) (lv_local_tail l) ->
  wp (rx_char config c) (s, l) (fun _ p =>
    rx_rel config (rv_char config c v) p.1 (lv_transferred p.2) (lv_local_tail p.2) /\
    rx_queue_handle_drv p.1 = rx_queue_handle_drv s /\ lv_done p.2 = lv_done l).
Proof.
  intros Hrel. pose proof Hrel as []. destruct rr_digits0 as (Hds & Hlen & Hmode).
  unfold rx_char, rv_char. wp_step. wp_step. cbn [fst snd]. rewrite rr_mode0.
  (* the end of two branches: back to the normal mode *)
  assert (forall v' s' l', rx_rel config v' s' (lv_transferred l') (lv_local_tail l') ->
    rx_queue_handle_drv s' = rx_queue_handle_drv s -> lv_done l' = lv_done l ->
    wp (on_state reset_state) (s', l') (fun _ p =>
      rx_rel config (rv_reset v') p.1 (lv_transferred p.2) (lv_local_tail p.2) /\
      rx_queue_handle_drv p.1 = rx_queue_handle_drv s /\ lv_done p.2 = lv_done l)) as Hreset.
  { intros v' s' l' Hr Hd Hl. wp_step. eapply wp_mono; [by eapply rx_rel_reset|].
    intros [] s'' [Hr' Hd']. cbn [fst snd]. split_and!; [done|congruence|done]. }
  destruct (rv_mode v) eqn:Em.
  - destruct (c =? yc_switch_char config).
    + repeat wp_step. cbn [fst snd]. split_and!; [|done..].
      pose proof (rx_rel_mode v s _ _ switched (rv_digits v) Hrel ltac:(by split_and!)) as H.
      by rewrite <- rr_index0, <- rr_next0 in H.
    + by apply put_char_spec.
  - subst. rewrite Hmode in *. destruct (sddf_isdigit c) eqn:Hdig.
    + wp_step. wp_step. eapply wp_mono; [apply (push_digit_spec [] c); [done..|cbn; lia]|].
      intros [] s' ->. repeat wp_step. cbn [fst snd]. split_and!; [|done..].
      apply (rx_rel_mode v s _ _ number [c - 48]); [done|]. apply isdigit_value in Hdig.
      split_and!; [by apply Forall_singleton|cbn; lia|done].
    + wp_step. destruct (c =? yc_switch_char config); cbn [when].
      * eapply wp_mono; [by apply put_char_spec|]. intros [] [s' l'] (Hr & Hd & Hl). cbn [fst snd] in *.
        by apply Hreset.
      * wp_step. by apply Hreset.
  - destruct (c =? yc_terminate_num_char config).
    + destruct (atoi_digits_buffer (rv_digits v)) as [Hat Hval]; [done..|].
      wp_step. eapply wp_lift; [by rewrite rr_next0|]. rewrite (proj2 (Z.leb_le _ _)) by lia. cbn [andb].
      wp_step. destruct (Z.ltb_spec (dec_value (rv_digits v)) (yc_num_clients config)); cbn [when].
      * rewrite <- (Z2Nat.id (dec_value (rv_digits v))) at 1 by lia.
        eapply wp_mono; [apply (switch_client_spec v); [done|lia]|].
        intros [] [s' l'] (Hr & Hd & Hl). cbn [fst snd] in *. rewrite Em in Hr. by apply Hreset.
      * wp_step. by apply Hreset.
    + rewrite rr_index0. unfold MAX_CLI_BASE_10.
      assert ((Z.of_nat (length (rv_digits v)) <? 4) = bool_decide (length (rv_digits v) < 4)%nat) as ->.
      { apply eq_true_iff_eq. rewrite Z.ltb_lt, bool_decide_eq_true. lia. }
      destruct (sddf_isdigit c) eqn:Hdig; [|rewrite andb_false_r; by apply Hreset].
      case_bool_decide as Hl4; cbn [andb]; [|by apply Hreset].
      wp_step. eapply wp_mono; [by apply (push_digit_spec (rv_digits v) c)|].
      intros [] s' ->. cbn [fst snd]. split_and!; [|done..].
      assert (forall x i, set_next_client x i s = set_mode number (set_next_client x i s)) as ->.
      { intros x i. unfold set_mode, set_next_client. cbn. by rewrite rr_mode0. }
      apply (rx_rel_mode v s); [done|]. apply isdigit_value in Hdig.
      split_and!; [|rewrite length_app; cbn; lia|by destruct (rv_digits v)].
      apply Forall_app. split; [done|]. by apply Forall_singleton.
Qed.

(** The state between two iterations of the loop: [rest] is still in the
    driver's queue. *)
Definition rx_loop_inv (v0 : rx_view) (all : list Z) (p : srx_state * rx_locals) : Prop :=
  exists done rest, all = done ++ rest /\
    rx_rel config (rv_input config done v0) p.1 (lv_transferred p.2) (lv_local_tail p.2) /\
    serial_wf (rx_queue_handle_drv p.1) /\ serial_items (rx_queue_handle_drv p.1) = rest /\
    (lv_done p.2 = true -> rest = []).

Lemma rx_return_loop_spec v0 s l :
  rx_rel config v0 s (lv_transferred l) (lv_local_tail l) -> lv_done l = false ->
  serial_wf (rx_queue_handle_drv s) ->
  wp (loop rx_bound rx_more (rx_return_body config)) (s, l) (fun _ p =>
    rx_rel config (rv_input config (serial_items (rx_queue_handle_drv s)) v0) p.1
      (lv_transferred p.2) (lv_local_tail p.2) /\
    serial_wf (rx_queue_handle_drv p.1) /\ serial_items (rx_queue_handle_drv p.1) = [] /\
    serial_rest (rx_queue_handle_drv p.1) = serial_rest (rx_queue_handle_drv s)).
Proof.
  intros Hrel Hdn Hwf.
  apply (wp_loop (fun p => rx_loop_inv v0 (serial_items (rx_queue_handle_drv s)) p /\
    serial_rest (rx_queue_handle_drv p.1) = serial_rest (rx_queue_handle_drv s))).
  - split; [|done]. exists [], (serial_items (rx_queue_handle_drv s)). cbn. split_and!; try done. congruence.
  - intros [s' l'] [(dn & rest & E & Hr & Hw & Hit & Hd) Hrest] Hmore%negb_true_iff. cbn [fst snd] in *.
    unfold rx_return_body. wp_step. wp_step. unfold srx_on_drv. wp_step. unfold rx_bound at 2. cbn [fst snd].
    rewrite Hmore, serial_length_spec, Hit by done. destruct rest as [|c rest].
    + eapply wp_intro; [by apply serial_dequeue_empty|]. repeat wp_step. cbn [fst snd].
      assert (set_srx_drv (rx_queue_handle_drv s') s' = s') as -> by by destruct s'.
      split; [|unfold rx_bound; cbn; lia]. split; [|done]. exists dn, []. by split_and!.
    + eapply serial_dequeue_spec; [done..|]. intros h' Hh' Hit' Hrest' _.
      eapply wp_mono; [apply (rx_char_spec c (rv_input config dn v0))|].
      { destruct Hr. by split. }
      intros [] [s'' l''] (Hr' & Hd' & Hl'). cbn [fst snd] in *. cbn [rx_queue_handle_drv set_srx_drv] in Hd'.
      split.
      * split; [|congruence]. exists (dn ++ [c]), rest. cbn [fst snd]. rewrite Hd', Hl', <- app_assoc.
        split_and!; try done; [|congruence]. unfold rv_input in *. by rewrite foldl_app.
      * unfold rx_bound. cbn [fst snd]. rewrite Hl', Hmore, Hd', serial_length_spec, Hit' by done. cbn [length]. lia.
  - intros [s' l'] [(dn & rest & E & Hr & Hw & Hit & Hd) Hrest] Hmore%negb_false_iff. cbn [fst snd] in *.
    specialize (Hd Hmore). subst rest. rewrite Hd, app_nil_r in E. rewrite E. done.
Qed.

End simulation.

Lemma final_signal_spec (ids : list Z) (trans : bool) (cur : nat) (id : Z) s :
  current_client s = Z.of_nat cur -> ids !! cur = Some id ->
  wp (s ← get; when trans (id ← lift (load ids (current_client s)); srx_emit (Notify id))) s
    (fun _ s' => s' = set_srx_events (srx_events s ++ (if trans then [Notify id] else [])) s).
Proof.
  intros Hc Hid. wp_step. wp_step. destruct trans; cbn [when].
  - wp_step. rewrite Hc. eapply wp_lift; [by apply load_nat|]. unfold srx_emit. by wp_step.
  - wp_step. rewrite app_nil_r. by destruct s.
Qed.

Lemma srx_return_spec (config : serial_virt_rx_config) (v : rx_view) (s : srx_state)
  (h : serial_queue_handle) :
  rx_queue_handle_cli s !! rv_cur v = Some h ->
  rx_rel config v s false (sq_tail (sh_queue h)) ->
  serial_wf (rx_queue_handle_drv s) ->
  let v' := rv_input config (serial_items (rx_queue_handle_drv s)) v in
  let wants := serial_require_consumer_signal (rx_queue_handle_drv s) in
  wp (rx_return config) s (fun _ s' =>
    serial_wf (rx_queue_handle_drv s') /\ serial_items (rx_queue_handle_drv s') = [] /\
    Forall2 (fun q c => serial_wf q /\ serial_items q = c.1 /\ sh_capacity q = c.2)
      (rx_queue_handle_cli s') (rv_cli v') /\
    current_client s' = Z.of_nat (rv_cur v') /\ current_mode s' = rv_mode v' /\
    next_client s' = digits_buffer (rv_digits v') /\
    srx_events s' = rv_final config wants v').
Proof.
  intros Hh Hrel Hdrv v' wants. pose proof Hrel as [].
  unfold rx_return. repeat wp_step. rewrite rr_cur0. eapply wp_lift; [by apply load_nat|]. repeat wp_step.
  eapply wp_mono; [by apply (rx_return_loop_spec config v)|].
  intros [] [s1 l1] (Hrel1 & Hw1 & Hi1 & Hrest1). cbn [fst snd] in *. fold v' in Hrel1.
  destruct (rx_rel_current _ _ _ _ _ Hrel1) as (h1 & q & cap & Hc & Hh1 & Hcap & Hl).
  pose proof Hrel1 as []. repeat wp_step. rewrite rr_cur1. unfold srx_on_cli.
  eapply wp_zoom_nth; [lia|by rewrite Nat2Z.id|]. rewrite Nat2Z.id.
  eapply serial_update_local_spec; [done|]. intros h2 Hw2 Hi2 [Hcap2 _]%serial_rest_signalled. do 3 wp_step.
  cbn [rx_queue_handle_drv set_srx_cli].
  rewrite serial_full_spec, Hi1 by done.
  pose proof (ring_cap_pos _ _ _ _ _ Hw1). rewrite (proj2 (Z.eqb_neq _ _)) by (cbn; lia). cbn [negb andb].
  assert (serial_require_consumer_signal (rx_queue_handle_drv s1) = wants) as ->.
  { apply serial_rest_signalled in Hrest1 as [_ E]. unfold wants, serial_require_consumer_signal. by rewrite E. }
  assert (Forall2 (fun q c => serial_wf q /\ serial_items q = c.1 /\ sh_capacity q = c.2)
            (<[rv_cur v' := h2]> (rx_queue_handle_cli s1)) (rv_cli v')) as Hcli.
  { apply Forall2_same_length_lookup_2; [by rewrite length_insert|]. intros i hi c Hi Hci.
    destruct (rr_cli1 i c Hci) as (h' & Hh' & Hcap' & Hr'). destruct (decide (i = rv_cur v')) as [->|Hne].
    - rewrite list_lookup_insert_eq in Hi by lia. injection Hi as <-. rewrite Hc in Hci. injection Hci as <-.
      cbn in *. split_and!; (done || congruence).
    - rewrite list_lookup_insert_ne in Hi by done. rewrite Hh' in Hi. injection Hi as <-. naive_solver. }
  destruct (lookup_lt_is_Some_2 (yc_client_ids config) (rv_cur v')) as [id Hid]; [lia|].
  unfold rv_final. destruct wants; cbn [when].
  - unfold srx_on_drv, serial_cancel_consumer_signal, srx_emit at 1. do 4 wp_step.
    eapply wp_mono; [by apply (final_signal_spec _ _ (rv_cur v') id)|]. intros [] s' ->.
    rewrite (list_lookup_total_correct _ _ _ Hid), rr_trans1. cbn. by rewrite rr_events1, <- app_assoc.
  - wp_step.
    eapply wp_mono; [by apply (final_signal_spec _ _ (rv_cur v') id)|]. intros [] s' ->.
    rewrite (list_lookup_total_correct _ _ _ Hid), rr_trans1. cbn. by rewrite rr_events1.
Qed.

(** C33. The receive virtualiser implements the abstract one: all input of the
    driver is consumed and interpreted character by character; every client's
    queue then holds exactly the bytes that were typed while it was selected
    and had room, published; a client number typed after the switch character
    selects that client if it exists, numbers of more than four digits and other
    characters are ignored; the client left, the driver and the current client
    are signalled exactly when due.  No assertion fails, and the buffer of the
    number is never overrun. *)
Theorem serial_virt_rx_refines (config : serial_virt_rx_config) (v : rx_view) (s : srx_state)
  (h : serial_queue_handle) :
  rx_queue_handle_cli s !! rv_cur v = Some h ->
  rx_rel config v s false (sq_tail (sh_queue h)) ->
  serial_wf (rx_queue_handle_drv s) ->
  let v' := rv_input config (serial_items (rx_queue_handle_drv s)) v in
  let wants := serial_require_consumer_signal (rx_queue_handle_drv s) in
  wp (rx_return config) s (fun _ s' =>
    serial_wf (rx_queue_handle_drv s') /\ serial_items (rx_queue_handle_drv s') = [] /\
    Forall2 (fun q c => serial_wf q /\ serial_items q = c.1 /\ sh_capacity q = c.2)
      (rx_queue_handle_cli s') (rv_cli v') /\
    current_client s' = Z.of_nat (rv_cur v') /\ current_mode s' = rv_mode v' /\
    next_client s' = digits_buffer (rv_digits v') /\
    srx_events s' = rv_final config wants v').
Proof. apply srx_return_spec. Qed.

(** Client 0 gets "ab", the user selects client 1, which gets "c". *)
Definition srx_config_ex : serial_virt_rx_config := mk_srx_config 9 16 [5; 6] [8; 8] 2 28 13.
Definition srx_state_ex : srx_state :=
  mk_srx (mk_serial_handle (mk_serial_queue 6 0 0) 8 [97; 98; 28; 49; 13; 99; 0; 0])
    [mk_serial_handle (mk_serial_queue 2 2 0) 8 (replicate 8 0); mk_serial_handle (mk_serial_queue 7 7 0) 8 (replicate 8 0)]
    normal 0 (replicate 5 0) 0 [].
Definition rx_view_ex : rx_view := mk_rview normal 0 [] [([], 8); ([], 8)] false [].

Lemma srx_queue_ex_wf t : 0 <= t < 8 ->
  serial_wf (mk_serial_handle (mk_serial_queue t t 0) 8 (replicate 8 0)) /\
  serial_items (mk_serial_handle (mk_serial_queue t t 0) 8 (replicate 8 0)) = [].
Proof.
  intros Ht. assert (ring_len (2 ^ 32) t t = 0) as E by (unfold ring_len; by rewrite Z.sub_diag).
  split.
  - split; cbn [sq_head sq_tail sh_queue sh_capacity sh_data_region]; try lia; [by exists 536870912|done].
  - unfold serial_items. cbn [sq_head sq_tail sh_queue]. by rewrite E.
Qed.

Lemma rx_rel_ex : rx_rel srx_config_ex rx_view_ex srx_state_ex false 2.
Proof.
  split; try done; try (cbn; lia).
  - split_and!; [done|cbn; lia|done].
  - intros [|[|i]] c [= <-]; eexists; (split; [done|]); (split; [done|]).
    + cbn. destruct (srx_queue_ex_wf 2) as [Hw Hi]; [lia|]. pose proof (local_rel_start _ Hw) as H. by rewrite Hi in H.
    + cbn. apply srx_queue_ex_wf. lia.
  - by intros _ h [= <-].
Qed.

Lemma serial_virt_rx_refines_witness :
  exists s', rx_return srx_config_ex srx_state_ex = Ok (tt, s') /\
    (serial_items <$> rx_queue_handle_cli s') = [[97; 98]; [99]] /\
    srx_events s' = [Notify 5; Notify 9; Notify 6].
Proof.
  pose proof (serial_virt_rx_refines srx_config_ex rx_view_ex srx_state_ex _ eq_refl rx_rel_ex
    ltac:(split; cbn; try (done || lia); by exists 536870912)) as H.
  apply wp_elim in H. destruct H as ([] & s' & E & _ & _ & Hc & _ & _ & _ & He). exists s'.
  split; [exact E|]. split; [|rewrite He; by vm_compute].
  assert (rv_cli (rv_input srx_config_ex (serial_items (rx_queue_handle_drv srx_state_ex)) rx_view_ex)
          = [([97; 98], 8); ([99], 8)]) as Ev by by vm_compute.
  rewrite Ev in Hc. apply Forall2_cons_inv_r in Hc as (q1 & l1 & (_ & H1 & _) & Hc & ->).
  apply Forall2_cons_inv_r in Hc as (q2 & l2 & (_ & H2 & _) & Hc & ->). apply Forall2_nil_inv_r in Hc as ->.
  cbn. by rewrite H1, H2.
Defined.
