(* ===== verification/Ialloc.v ===== *)
(** * The index allocator: include/sddf/util/ialloc.h

    Identifiers of outstanding requests come from a linked list threaded
    through an array: the entry of a free index is the next free index, the
    entry of an allocated one is [(uint32_t)-1].  The list is used as a queue:
    indices are taken at the head and returned at the tail. *)

From S2P Require Import Prelude.

Record ialloc : Type := mk_ialloc {
  idxlist : list Z;    (* uint32_t * *)
  ia_head : Z;         (* uint32_t *)
  ia_tail : Z;         (* uint32_t *)
  num_free : Z;        (* uint32_t *)
  ia_offset : Z;       (* uint32_t *)
  ia_size : Z;         (* uint32_t *)
}.

(** [-1] converted to [uint32_t]. *)
Definition IDX_NONE : Z := u32 (-1).

Definition ialloc_full (ia : ialloc) : bool := num_free ia =? 0.

Definition ialloc_num_free (ia : ialloc) : Z := num_free ia.

Definition ialloc_in_use (ia : ialloc) (id : Z) : res bool :=
  if (u32 (ia_size ia + ia_offset ia) <=? id) || (id <? ia_offset ia) then Ok false else
  x ← load (idxlist ia) (u32 (id - ia_offset ia));
  mret (x =? IDX_NONE).

(** [None] is the return of -1, otherwise the out parameter. *)
Definition ialloc_alloc : M ialloc (option Z) :=
  ia ← get;
  if ialloc_full ia then mret None else
  let id := u32 (ia_head ia + ia_offset ia) in
  next ← lift (load (idxlist ia) (ia_head ia));
  l ← lift (store (idxlist ia) (u32 (id - ia_offset ia)) IDX_NONE);
  put (mk_ialloc l next (ia_tail ia) (u32 (num_free ia - 1)) (ia_offset ia) (ia_size ia));;
  mret (Some id).

Definition ialloc_free (id : Z) : M ialloc Z :=
  ia ← get;
  in_use ← lift (ialloc_in_use ia id);
  if (u32 (ia_size ia + ia_offset ia) <=? id) || (id <? ia_offset ia) || negb in_use then mret (-1) else
  let i := u32 (id - ia_offset ia) in
  (if ialloc_full ia then
     put (mk_ialloc (idxlist ia) i i (num_free ia) (ia_offset ia) (ia_size ia))
   else
     l ← lift (store (idxlist ia) (ia_tail ia) i);
     put (mk_ialloc l (ia_head ia) i (num_free ia) (ia_offset ia) (ia_size ia)));;
  modify (fun ia => mk_ialloc (idxlist ia) (ia_head ia) (ia_tail ia) (u32 (num_free ia + 1))
                      (ia_offset ia) (ia_size ia));;
  mret 0.

(** [ialloc_init] on the array [idx]. *)
Definition ialloc_init_loop (size : Z) : M (list Z) unit :=
  for_upto (u32 (size - 1)) (fun i =>
    l ← get;
    l' ← lift (store l i (u32 (i + 1)));
    put l').

Definition ialloc_init (idx : list Z) (size : Z) : res ialloc :=
  if negb (size <? IDX_NONE) then Fault AssertFail else
  r ← ialloc_init_loop size idx;
  l ← store (r : unit * list Z).2 (u32 (size - 1)) IDX_NONE;
  mret (mk_ialloc l 0 (u32 (size - 1)) size 0 size).

Definition ialloc_init_with_offset (idx : list Z) (size offset : Z) : res ialloc :=
  ia ← ialloc_init idx size;
  mret (mk_ialloc (idxlist ia) (ia_head ia) (ia_tail ia) (num_free ia) offset (ia_size ia)).

(** ** The free list *)

(** [fl] is the list threaded through the array, without the offset.  The
    entry of the last free index is [IDX_NONE], like that of an allocated one. *)
Record ialloc_wf (ia : ialloc) (fl : list Z) : Prop := {
  ia_offset_range : 0 <= ia_offset ia;
  ia_size_range : 0 <= ia_size ia /\ ia_size ia + ia_offset ia < 2 ^ 32 /\ ia_size ia < IDX_NONE;
  ia_len : Z.of_nat (length (idxlist ia)) = ia_size ia;
  ia_nodup : NoDup fl;
  ia_in_range : Forall (fun x => 0 <= x < ia_size ia) fl;
  ia_num : num_free ia = Z.of_nat (length fl);
  ia_head_ok : forall x fl', fl = x :: fl' -> ia_head ia = x;
  ia_tail_ok : forall x, last fl = Some x -> ia_tail ia = x;
  ia_next : forall k x y, fl !! k = Some x -> fl !! S k = Some y -> idxlist ia !! Z.to_nat x = Some y;
  ia_used : forall x, 0 <= x < ia_size ia -> x ∉ fl \/ last fl = Some x ->
              idxlist ia !! Z.to_nat x = Some IDX_NONE;
}.

Lemma IDX_NONE_eq : IDX_NONE = 2 ^ 32 - 1.
Proof. done. Qed.

Lemma ialloc_size_bound ia fl : ialloc_wf ia fl -> Z.of_nat (length fl) <= ia_size ia.
Proof.
  intros []. assert (length fl <= length (seqZ 0 (ia_size ia)))%nat as H.
  { apply submseteq_length, NoDup_submseteq; [done|].
    intros x Hx. rewrite Forall_forall in ia_in_range0. apply elem_of_seqZ.
    specialize (ia_in_range0 x Hx). lia. }
  rewrite length_seqZ in H. lia.
Qed.

Lemma ialloc_full_spec ia fl : ialloc_wf ia fl -> ialloc_full ia = true <-> fl = [].
Proof.
  intros []. unfold ialloc_full. rewrite ia_num0, Z.eqb_eq. destruct fl; cbn; split; (done || lia).
Qed.

(** Position of an element of a duplicate-free list. *)
Lemma last_lookup_inj (fl : list Z) (k : nat) x :
  NoDup fl -> fl !! k = Some x -> last fl = Some x -> S k = length fl.
Proof.
  intros Hnd Hk Hl. rewrite last_lookup in Hl.
  pose proof (NoDup_lookup _ _ _ _ Hnd Hk Hl) as ->.
  apply lookup_lt_Some in Hl. lia.
Qed.

Lemma ialloc_in_use_spec ia fl id :
  ialloc_wf ia fl -> ia_offset ia <= id < ia_size ia + ia_offset ia ->
  ialloc_in_use ia id
  = Ok (bool_decide (id - ia_offset ia ∉ fl \/ last fl = Some (id - ia_offset ia))).
Proof.
  intros Hwf Hid. pose proof Hwf as []. unfold ialloc_in_use.
  rewrite u32_small by uint_lia. rewrite (proj2 (Z.leb_gt _ _)), (proj2 (Z.ltb_ge _ _)) by lia. cbn [orb].
  rewrite u32_small by uint_lia. set (i := id - ia_offset ia) in *.
  assert (is_Some (idxlist ia !! Z.to_nat i)) as [v Hv].
  { apply lookup_lt_is_Some. lia. }
  erewrite load_ok by (done || lia). unfold mbind, res_bind, mret, res_ret. f_equal.
  case_bool_decide as Hc.
  - rewrite ia_used0 in Hv by (done || lia). injection Hv as <-. done.
  - apply Z.eqb_neq. intros ->. apply Decidable.not_or in Hc as [Hin Hlast].
    assert (i ∈ fl) as [k Hk]%list_elem_of_lookup by (destruct (decide (i ∈ fl)); done || tauto).
    destruct (fl !! S k) as [y|] eqn:Hy.
    + rewrite (ia_next0 _ _ _ Hk Hy) in Hv. injection Hv as ->.
      rewrite Forall_lookup in ia_in_range0. apply ia_in_range0 in Hy. lia.
    + apply Hlast. rewrite last_lookup. apply lookup_ge_None in Hy. apply lookup_lt_Some in Hk as Hlt.
      by replace (pred (length fl)) with k by lia.
Qed.

Lemma ialloc_alloc_none_spec ia fl :
  ialloc_wf ia fl -> fl = [] -> wp ialloc_alloc ia (fun r ia' => r = None /\ ia' = ia).
Proof.
  intros Hwf Hnil. unfold ialloc_alloc. repeat wp_step.
  apply (ialloc_full_spec _ _ Hwf) in Hnil. rewrite Hnil. by wp_step.
Qed.

(** An allocation takes the head of the free list. *)
Lemma ialloc_alloc_spec ia x fl :
  ialloc_wf ia (x :: fl) ->
  wp ialloc_alloc ia (fun r ia' =>
    r = Some (x + ia_offset ia) /\ ialloc_wf ia' fl /\
    ia_offset ia' = ia_offset ia /\ ia_size ia' = ia_size ia).
Proof.
  intros Hwf. pose proof (ialloc_size_bound _ _ Hwf) as Hbd. cbn [length] in Hbd.
  pose proof Hwf as []. unfold ialloc_alloc. repeat wp_step.
  assert (ialloc_full ia = false) as ->.
  { apply not_true_is_false. intros E%(ialloc_full_spec _ _ Hwf). done. }
  rewrite (ia_head_ok0 x fl) by done.
  apply Forall_cons in ia_in_range0 as [Hx Hfl].
  assert (is_Some (idxlist ia !! Z.to_nat x)) as [v Hv] by (apply lookup_lt_is_Some; lia).
  rewrite IDX_NONE_eq in ia_size_range0.
  wp_step. eapply wp_lift; [by eapply load_ok; [lia|]|].
  rewrite (u32_small (x + _)) by uint_lia.
  rewrite (u32_small (x + _ - _)) by uint_lia. replace (x + ia_offset ia - ia_offset ia) with x by lia.
  wp_step. eapply wp_lift; [apply store_ok; lia|]. repeat wp_step.
  split_and!; [done| |done..].
  apply NoDup_cons in ia_nodup0 as [Hnin Hnd].
  split; cbn [ia_offset ia_size idxlist ia_head ia_tail num_free]; try done.
  - by rewrite length_insert.
  - rewrite ia_num0. cbn [length]. rewrite u32_small; [lia|]. uint_lia.
  - intros y fl' ->. erewrite (ia_next0 0%nat x y) in Hv by done. by injection Hv.
  - intros y Hy. apply ia_tail_ok0. destruct fl; done.
  - intros k y z Hy Hz. assert (x <> y). { intros ->. apply Hnin. by eapply list_elem_of_lookup_2. }
    rewrite list_lookup_insert_ne; [by apply (ia_next0 (S k) y z)|].
    rewrite Forall_lookup in Hfl. apply Hfl in Hy. lia.
  - intros y Hy Hor. destruct (decide (x = y)) as [->|Hne].
    + rewrite list_lookup_insert_eq by lia. done.
    + rewrite list_lookup_insert_ne by lia. apply ia_used0; [done|].
      rewrite not_elem_of_cons. destruct Hor as [?|Hl]; [by left|right].
      destruct fl; done.
Qed.

(** A free of an allocated index appends it to the free list. *)
Lemma ialloc_free_spec ia fl id :
  ialloc_wf ia fl -> ia_offset ia <= id < ia_size ia + ia_offset ia -> id - ia_offset ia ∉ fl ->
  wp (ialloc_free id) ia (fun r ia' =>
    r = 0 /\ ialloc_wf ia' (fl ++ [id - ia_offset ia]) /\
    ia_offset ia' = ia_offset ia /\ ia_size ia' = ia_size ia).
Proof.
  intros Hwf Hid Hnin. pose proof Hwf as []. rewrite IDX_NONE_eq in ia_size_range0.
  pose proof (ialloc_size_bound _ _ Hwf).
  unfold ialloc_free. repeat wp_step.
  eapply wp_lift; [by eapply ialloc_in_use_spec|]. rewrite bool_decide_true by tauto.
  rewrite (u32_small (_ + _)) by uint_lia.
  rewrite (proj2 (Z.leb_gt _ _)), (proj2 (Z.ltb_ge _ _)) by lia. cbn [orb negb].
  rewrite u32_small by uint_lia. set (i := id - ia_offset ia) in *.
  assert (Z.of_nat (length fl) < ia_size ia) as Hroom.
  { assert (length (i :: fl) <= length (seqZ 0 (ia_size ia)))%nat as Hs.
    { apply submseteq_length, NoDup_submseteq; [by apply NoDup_cons|].
      intros x [->|Hx]%elem_of_cons; apply elem_of_seqZ; [lia|].
      rewrite Forall_forall in ia_in_range0. specialize (ia_in_range0 x Hx). lia. }
    rewrite length_seqZ in Hs. cbn in Hs. lia. }
  assert (NoDup (fl ++ [i])) as Hnd'.
  { apply NoDup_app. split_and!; [done|set_solver|apply NoDup_singleton]. }
  assert (Forall (fun x => 0 <= x < ia_size ia) (fl ++ [i])) as Hr'.
  { apply Forall_app. split; [done|]. apply Forall_singleton. lia. }
  destruct (ialloc_full ia) eqn:Hfull.
  - apply (ialloc_full_spec _ _ Hwf) in Hfull as ->. repeat wp_step.
    split_and!; [done| |done..].
    split; cbn [ia_offset ia_size idxlist ia_head ia_tail num_free app]; try done.
    + by rewrite ia_num0.
    + by intros ? ? [= -> _].
    + by intros ? [= ->].
    + intros x Hx _. apply ia_used0; [done|]. left. set_solver.
  - assert (fl <> []) as Hne. { intros ?%(ialloc_full_spec _ _ Hwf). congruence. }
    destruct (last fl) as [t|] eqn:Hlast; [|by apply last_None in Hlast].
    pose proof (ia_tail_ok0 t eq_refl) as Ht.
    assert (t ∈ fl) as Htin by (apply last_Some in Hlast as [? ->]; set_solver).
    assert (0 <= t < ia_size ia) as Htr by (rewrite Forall_forall in ia_in_range0; auto).
    rewrite Ht. repeat wp_step. eapply wp_lift; [apply store_ok; lia|]. repeat wp_step.
    split_and!; [done| |done..].
    split; cbn [ia_offset ia_size idxlist ia_head ia_tail num_free]; try done.
    + by rewrite length_insert.
    + rewrite ia_num0, length_app. cbn [length]. rewrite u32_small; [lia|]. uint_lia.
    + intros x fl' E. destruct fl as [|y fl]; [done|]. cbn in E. injection E as -> _.
      by eapply ia_head_ok0.
    + intros x Hx. rewrite last_snoc in Hx. congruence.
    + intros k x y Hx Hy. apply lookup_lt_Some in Hy as Hlt. rewrite length_app in Hlt. cbn in Hlt.
      rewrite lookup_app_l in Hx by lia.
      assert (0 <= x) by (rewrite Forall_lookup in ia_in_range0; apply ia_in_range0 in Hx; lia).
      destruct (decide (S k = length fl)) as [E|E].
      * rewrite lookup_app_r in Hy by lia. rewrite E, Nat.sub_diag in Hy. injection Hy as <-.
        rewrite last_lookup in Hlast. replace (pred (length fl)) with k in Hlast by lia.
        rewrite Hlast in Hx. injection Hx as ->. apply list_lookup_insert_eq. lia.
      * rewrite lookup_app_l in Hy by lia.
        rewrite list_lookup_insert_ne; [by eapply ia_next0|].
        intros E'. assert (t = x) as -> by lia.
        pose proof (last_lookup_inj _ _ _ ia_nodup0 Hx Hlast). lia.
    + intros x Hx Hor. rewrite last_snoc, not_elem_of_app in Hor.
      assert (x ∉ fl \/ x = i) as Hor' by (destruct Hor as [[? _]|[= ->]]; tauto).
      assert (x ∉ fl) as Hxn by (destruct Hor' as [?| ->]; done).
      rewrite list_lookup_insert_ne by (intros E; assert (t = x) as -> by lia; done).
      apply ia_used0; tauto.
Qed.

(** A free of an index that is out of range, or free and not the last of the
    list, is refused. *)
Lemma ialloc_free_refused_spec ia fl id :
  ialloc_wf ia fl ->
  (id < ia_offset ia \/ ia_size ia + ia_offset ia <= id
   \/ id - ia_offset ia ∈ fl /\ last fl <> Some (id - ia_offset ia)) ->
  wp (ialloc_free id) ia (fun r ia' => r = -1 /\ ia' = ia).
Proof.
  intros Hwf Hor. pose proof Hwf as []. unfold ialloc_free. repeat wp_step.
  rewrite IDX_NONE_eq in ia_size_range0.
  destruct (decide (ia_offset ia <= id < ia_size ia + ia_offset ia)) as [Hid|Hid].
  - eapply wp_lift; [by eapply ialloc_in_use_spec|].
    rewrite bool_decide_false by (destruct Hor as [|[|[? ?]]]; [lia..|]; tauto).
    cbn [negb]. rewrite orb_true_r. by wp_step.
  - unfold ialloc_in_use. rewrite (u32_small (_ + _)) by uint_lia.
    assert ((ia_size ia + ia_offset ia <=? id) || (id <? ia_offset ia) = true) as ->.
    { apply orb_true_iff. rewrite Z.leb_le, Z.ltb_lt. lia. }
    eapply wp_lift; [done|]. cbn [orb]. by wp_step.
Qed.

Lemma ialloc_init_loop_spec (size : Z) (idx : list Z) :
  0 < size < IDX_NONE -> Z.of_nat (length idx) = size ->
  wp (ialloc_init_loop size) idx (fun _ l =>
    Z.of_nat (length l) = size /\ forall k, 0 <= k < size - 1 -> l !! Z.to_nat k = Some (k + 1)).
Proof.
  intros Hs Hl. rewrite IDX_NONE_eq in Hs. unfold ialloc_init_loop, for_upto.
  rewrite u32_small by uint_lia.
  apply (wp_for_each (fun pre l => Z.of_nat (length l) = size /\
           forall k, 0 <= k < Z.of_nat (length pre) -> l !! Z.to_nat k = Some (k + 1))).
  - split; [done|]. cbn. lia.
  - intros pre x post l E [Hlen Hpre]. apply lookup_seqZ_prefix in E as [-> Hx].
    repeat wp_step. eapply wp_lift; [apply store_ok; lia|]. wp_step. split; [by rewrite length_insert|].
    intros k Hk. rewrite length_app in Hk. cbn in Hk.
    destruct (decide (k = Z.of_nat (length pre))) as [->|].
    + rewrite list_lookup_insert_eq by lia. rewrite u32_small by uint_lia. done.
    + rewrite list_lookup_insert_ne by lia. apply Hpre. lia.
  - intros l [Hlen Hpre]. split; [done|]. intros k Hk. apply Hpre. rewrite length_seqZ. lia.
Qed.

(** A fresh allocator has all its indices in the list, in order. *)
Lemma ialloc_init_with_offset_spec (size offset : Z) (idx : list Z) :
  0 < size < IDX_NONE -> 0 <= offset -> size + offset < 2 ^ 32 -> Z.of_nat (length idx) = size ->
  exists ia, ialloc_init_with_offset idx size offset = Ok ia /\ ialloc_wf ia (seqZ 0 size) /\
    ia_offset ia = offset /\ ia_size ia = size.
Proof.
  intros Hs Ho Hso Hl. unfold ialloc_init_with_offset, ialloc_init.
  rewrite (proj2 (Z.ltb_lt _ _)) by lia. cbn [negb].
  pose proof (ialloc_init_loop_spec size idx Hs Hl) as H. rewrite IDX_NONE_eq in Hs.
  apply wp_elim in H as ([] & l & -> & Hlen & Hnext). unfold mbind, res_bind. cbn [snd].
  rewrite (u32_small (size - 1)) by uint_lia. rewrite store_ok by lia. unfold mret, res_ret.
  eexists. split; [done|]. cbn [idxlist ia_head ia_tail num_free ia_size]. split; [|done].
  assert (forall k x, seqZ 0 size !! k = Some x -> x = Z.of_nat k /\ Z.of_nat k < size) as Hk.
  { intros k x [-> ?]%lookup_seqZ. lia. }
  assert (last (seqZ 0 size) = Some (size - 1)) as Hlast.
  { rewrite last_lookup, length_seqZ. rewrite lookup_seqZ. lia. }
  split; cbn [ia_offset ia_size idxlist ia_head ia_tail num_free]; try done.
  - rewrite IDX_NONE_eq. lia.
  - by rewrite length_insert.
  - apply NoDup_seqZ.
  - apply Forall_forall. intros x Hx%elem_of_seqZ. lia.
  - rewrite length_seqZ. lia.
  - intros x fl' E. destruct (Hk 0%nat x); [by rewrite E|]. lia.
  - rewrite Hlast. by intros x [= ->].
  - intros k x y [-> ?]%Hk [-> ?]%Hk. rewrite list_lookup_insert_ne by lia.
    rewrite Hnext by lia. f_equal. lia.
  - intros x Hx Hor. assert (x = size - 1) as ->.
    { destruct Hor as [Hn|Hn]; [|congruence]. destruct Hn. apply elem_of_seqZ. lia. }
    apply list_lookup_insert_eq. lia.
Qed.

Lemma ialloc_init_spec (size : Z) (idx : list Z) :
  0 < size < IDX_NONE -> Z.of_nat (length idx) = size ->
  exists ia, ialloc_init idx size = Ok ia /\ ialloc_wf ia (seqZ 0 size) /\ ia_offset ia = 0 /\ ia_size ia = size.
Proof.
  intros Hs Hl. destruct (ialloc_init_with_offset_spec size 0 idx Hs) as (ia & E & H); [done| |done|].
  { rewrite IDX_NONE_eq in Hs. lia. }
  unfold ialloc_init_with_offset in E. destruct (ialloc_init idx size) as [ia0|] eqn:E0; [|done].
  exists ia0. split; [done|]. assert (ia0 = ia) as ->; [|done].
  injection E as <-. unfold ialloc_init in E0. destruct (negb _); [done|].
  destruct (ialloc_init_loop size idx) as [[? ?]|]; [|done]. cbn in E0. destruct (store _ _ _); [|done].
  by injection E0 as <-.
Qed.

(** ** The abstract specification: a queue of free identifiers *)

Inductive ialloc_op : Type := OpAlloc | OpFree (id : Z).
Inductive ialloc_obs : Type := ObsAlloc (id : option Z) | ObsFree (r : Z).

Definition ialloc_impl_op (op : ialloc_op) : M ialloc ialloc_obs :=
  match op with
  | OpAlloc => r ← ialloc_alloc; mret (ObsAlloc r)
  | OpFree id => r ← ialloc_free id; mret (ObsFree r)
  end.

Fixpoint ialloc_impl_run (ops : list ialloc_op) : M ialloc (list ialloc_obs) :=
  match ops with
  | [] => mret []
  | op :: ops' => o ← ialloc_impl_op op; os ← ialloc_impl_run ops'; mret (o :: os)
  end.

(** [fl] is the queue of free identifiers; [None] is a misuse that the
    allocator does not detect: a free of the identifier freed last. *)
Definition ialloc_spec_op (size offset : Z) (op : ialloc_op) (fl : list Z) : option (ialloc_obs * list Z) :=
  match op with
  | OpAlloc => match fl with
               | [] => Some (ObsAlloc None, [])
               | x :: fl' => Some (ObsAlloc (Some (x + offset)), fl')
               end
  | OpFree id =>
    if negb (bool_decide (offset <= id < size + offset)) then Some (ObsFree (-1), fl)
    else if bool_decide (last fl = Some (id - offset)) then None
    else if bool_decide (id - offset ∈ fl) then Some (ObsFree (-1), fl)
    else Some (ObsFree 0, fl ++ [id - offset])
  end.

Fixpoint ialloc_spec_run (size offset : Z) (ops : list ialloc_op) (fl : list Z)
  : option (list ialloc_obs * list Z) :=
  match ops with
  | [] => Some ([], fl)
  | op :: ops' =>
    '(o, fl) ← ialloc_spec_op size offset op fl;
    '(os, fl) ← ialloc_spec_run size offset ops' fl;
    Some (o :: os, fl)
  end.

Lemma ialloc_op_refines ia fl op o fl' :
  ialloc_wf ia fl -> ialloc_spec_op (ia_size ia) (ia_offset ia) op fl = Some (o, fl') ->
  wp (ialloc_impl_op op) ia (fun o' ia' =>
    o' = o /\ ialloc_wf ia' fl' /\ ia_offset ia' = ia_offset ia /\ ia_size ia' = ia_size ia).
Proof.
  intros Hwf E. destruct op as [|id]; cbn in *.
  - wp_step. destruct fl as [|x fl]; injection E as <- <-.
    + wp_use (ialloc_alloc_none_spec ia []). intros r ia' [-> ->]. by wp_step.
    + wp_use (ialloc_alloc_spec ia x fl). intros r ia' (-> & ? & ? & ?). by wp_step.
  - wp_step. revert E. repeat case_bool_decide; cbn; intros E; try done; injection E as <- <-.
    2: { wp_use (ialloc_free_spec ia fl id). intros r ia' (-> & ? & ? & ?). by wp_step. }
    all: wp_use (ialloc_free_refused_spec ia fl id); try lia; intros r ia' [-> ->]; by wp_step.
Qed.

Lemma ialloc_run_refines (ops : list ialloc_op) ia fl os fl' :
  ialloc_wf ia fl -> ialloc_spec_run (ia_size ia) (ia_offset ia) ops fl = Some (os, fl') ->
  wp (ialloc_impl_run ops) ia (fun os' ia' => os' = os /\ ialloc_wf ia' fl').
Proof.
  revert ia fl os. induction ops as [|op ops IH]; intros ia fl os Hwf E; cbn in *.
  - injection E as <- <-. by wp_step.
  - destruct (ialloc_spec_op _ _ op fl) as [[o fl1]|] eqn:E1; [|done]. cbn in E.
    destruct (ialloc_spec_run _ _ ops fl1) as [[os1 fl2]|] eqn:E2; [|done]. injection E as <- <-.
    wp_step. wp_use (ialloc_op_refines ia fl op o fl1). intros o' ia' (-> & Hwf' & Ho & Hs).
    wp_step. wp_use (IH ia' fl1 os1); [by rewrite Ho, Hs|]. intros os' ia'' [-> ?]. by wp_step.
Qed.

(** A fresh index allocator behaves, over any sequence of allocations and
    frees that does not free twice in a row the identifier it freed last, as
    a queue of free identifiers: it hands out the one that has been free
    longest, never one in use, fails exactly when none is free, takes back
    exactly the identifiers in use and refuses all others with -1. *)
Theorem ialloc_refines_free_queue (size offset : Z) (idx : list Z) (ops : list ialloc_op)
  (os : list ialloc_obs) (fl : list Z) :
  0 < size < IDX_NONE -> 0 <= offset -> size + offset < 2 ^ 32 -> Z.of_nat (length idx) = size ->
  ialloc_spec_run size offset ops (seqZ 0 size) = Some (os, fl) ->
  exists ia, ialloc_init_with_offset idx size offset = Ok ia /\
    wp (ialloc_impl_run ops) ia (fun os' ia' => os' = os /\ ialloc_wf ia' fl).
Proof.
  intros Hs Ho Hso Hl E.
  destruct (ialloc_init_with_offset_spec size offset idx) as (ia & Hia & Hwf & Eo & Es); [done..|].
  exists ia. split; [done|]. apply (ialloc_run_refines ops ia (seqZ 0 size)); [done|]. by rewrite Es, Eo.
Qed.

Lemma ialloc_refines_free_queue_witness :
  let ops := [OpAlloc; OpAlloc; OpAlloc; OpFree 10; OpFree 12; OpAlloc; OpFree 10; OpFree 13] in
  exists ia ia',
    ialloc_init_with_offset [7; 7] 2 10 = Ok ia /\
    ialloc_impl_run ops ia
    = Ok ([ObsAlloc (Some 10); ObsAlloc (Some 11); ObsAlloc None; ObsFree 0; ObsFree (-1);
           ObsAlloc (Some 10); ObsFree 0; ObsFree (-1)], ia').
Proof.
  intros ops.
  destruct (ialloc_refines_free_queue 2 10 [7; 7] ops
    [ObsAlloc (Some 10); ObsAlloc (Some 11); ObsAlloc None; ObsFree 0; ObsFree (-1);
     ObsAlloc (Some 10); ObsFree 0; ObsFree (-1)] [0]) as (ia & Hia & H);
    [done..|by vm_compute|].
  apply wp_elim in H. destruct H as (os & ia' & E & -> & _). exists ia, ia'. done.
Defined.

(** ** The undetected double free

    [dup_chain ia l x]: following the array from the head gives [l], then [x]
    whose entry is [x] itself, and the count says that two more indices
    follow [l]. *)

Record dup_chain (ia : ialloc) (l : list Z) (x : Z) : Prop := {
  dc_offset : 0 <= ia_offset ia;
  dc_size : ia_size ia + ia_offset ia < 2 ^ 32 /\ ia_size ia < IDX_NONE;
  dc_len : Z.of_nat (length (idxlist ia)) = ia_size ia;
  dc_range : Forall (fun x => 0 <= x < ia_size ia) (l ++ [x]);
  dc_nodup : NoDup (l ++ [x]);
  dc_head : forall y l', l ++ [x] = y :: l' -> ia_head ia = y;
  dc_next : forall k y z, (l ++ [x]) !! k = Some y -> (l ++ [x]) !! S k = Some z ->
              idxlist ia !! Z.to_nat y = Some z;
  dc_self : idxlist ia !! Z.to_nat x = Some x;
  dc_num : num_free ia = Z.of_nat (length l) + 2;
}.

Definition alloc_times (n : nat) : M ialloc (list ialloc_obs) := ialloc_impl_run (replicate n OpAlloc).

(** One allocation on a list whose head is [y]. *)
Lemma ialloc_alloc_head ia y n :
  0 <= ia_offset ia -> ia_size ia + ia_offset ia < 2 ^ 32 -> Z.of_nat (length (idxlist ia)) = ia_size ia ->
  ia_head ia = y -> 0 <= y < ia_size ia -> idxlist ia !! Z.to_nat y = Some n -> 0 < num_free ia < 2 ^ 32 ->
  ialloc_alloc ia = Ok (Some (y + ia_offset ia),
    mk_ialloc (<[Z.to_nat y := IDX_NONE]> (idxlist ia)) n (ia_tail ia) (num_free ia - 1) (ia_offset ia) (ia_size ia)).
Proof.
  intros Ho Hs Hl Hh Hy Hn Hnum. unfold ialloc_alloc, mbind, M_bind, get, lift, ialloc_full, put, mret, M_ret.
  rewrite (proj2 (Z.eqb_neq _ _)) by lia. rewrite Hh. erewrite load_ok by (done || lia).
  rewrite (u32_small (y + _)) by uint_lia. rewrite (u32_small (y + _ - _)) by uint_lia.
  replace (y + ia_offset ia - ia_offset ia) with y by lia. rewrite store_ok by lia.
  rewrite u32_small by uint_lia. done.
Qed.

Lemma dup_chain_allocs ia l x :
  dup_chain ia l x ->
  wp (alloc_times (length l + 2)) ia (fun os _ =>
    os = (fun y => ObsAlloc (Some (y + ia_offset ia))) <$> (l ++ [x; x])).
Proof.
  revert ia. induction l as [|y l IH]; intros ia Hd; pose proof Hd as [];
    rewrite IDX_NONE_eq in dc_size0; unfold alloc_times in *; cbn [length Nat.add replicate ialloc_impl_run ialloc_impl_op] in *.
  - apply Forall_cons in dc_range0 as [Hx _]. cbn in *.
    pose proof (dc_head0 x [] eq_refl) as Hh.
    do 2 wp_step. eapply wp_intro; [apply (ialloc_alloc_head ia x x); (done || lia)|]. wp_step.
    do 3 wp_step. eapply wp_intro.
    { apply (ialloc_alloc_head _ x IDX_NONE); cbn [ia_offset ia_size idxlist ia_head num_free];
        rewrite ?length_insert; try (done || lia). apply list_lookup_insert_eq. lia. }
    repeat wp_step. done.
  - assert (Z.of_nat (length ((y :: l) ++ [x])) <= ia_size ia) as Hlen.
    { assert (length ((y :: l) ++ [x]) <= length (seqZ 0 (ia_size ia)))%nat as Hs.
      { apply submseteq_length, NoDup_submseteq; [done|]. intros w Hw. apply elem_of_seqZ.
        rewrite Forall_forall in dc_range0. specialize (dc_range0 w Hw). lia. }
      rewrite length_seqZ in Hs. lia. }
    apply Forall_cons in dc_range0 as [Hy Hr]. apply NoDup_cons in dc_nodup0 as [Hnin Hnd].
    assert (exists z, (l ++ [x]) !! 0%nat = Some z) as [z Hz].
    { apply lookup_lt_is_Some. rewrite length_app. cbn. lia. }
    pose proof (dc_next0 0%nat y z eq_refl Hz) as Hyz.
    rewrite length_app in Hlen. cbn in Hlen.
    do 2 wp_step. eapply wp_intro.
    { apply (ialloc_alloc_head ia y z); try (done || lia).
      by apply (dc_head0 y (l ++ [x])). }
    repeat wp_step. eapply wp_mono; [apply IH|].
    + split; cbn [ia_offset ia_size idxlist ia_head ia_tail num_free]; try done.
      * by rewrite length_insert.
      * intros w l' E. rewrite E in Hz. by injection Hz.
      * intros k w v Hw Hv. rewrite list_lookup_insert_ne; [by apply (dc_next0 (S k) w v)|].
        assert (y <> w). { intros ->. apply Hnin. by eapply list_elem_of_lookup_2. }
        rewrite Forall_lookup in Hr. apply Hr in Hw. lia.
      * rewrite list_lookup_insert_ne; [done|].
        assert (y <> x). { intros ->. apply Hnin. set_solver. }
        apply Forall_app in Hr as [_ [Hr _]%Forall_cons]. lia.
      * rewrite dc_num0. cbn [length]. lia.
    + intros os s' ->. by wp_step.
Qed.

(** A second free of the identifier freed last is accepted: it returns 0,
    and the following allocations hand that identifier out twice. *)
Theorem ialloc_double_free_duplicates (ia : ialloc) (fl : list Z) (x : Z) :
  ialloc_wf ia (fl ++ [x]) ->
  wp (r ← ialloc_free (x + ia_offset ia); os ← alloc_times (length fl + 2); mret (r, os)) ia (fun ros _ =>
    ros = (0, (fun y => ObsAlloc (Some (y + ia_offset ia))) <$> (fl ++ [x; x]))).
Proof.
  intros Hwf. pose proof (ialloc_size_bound _ _ Hwf) as Hbd. pose proof Hwf as [].
  rewrite IDX_NONE_eq in ia_size_range0.
  assert (last (fl ++ [x]) = Some x) as Hlast by apply last_snoc.
  apply Forall_app in ia_in_range0 as [Hfl [Hx _]%Forall_cons].
  unfold ialloc_free. repeat wp_step.
  eapply wp_lift; [eapply ialloc_in_use_spec; [done|lia]|].
  replace (x + ia_offset ia - ia_offset ia) with x by lia. rewrite bool_decide_true by tauto.
  rewrite (u32_small (ia_size ia + _)) by uint_lia.
  rewrite (proj2 (Z.leb_gt _ _)), (proj2 (Z.ltb_ge _ _)) by lia. cbn [orb negb].
  rewrite u32_small by uint_lia.
  assert (ialloc_full ia = false) as ->.
  { apply not_true_is_false. intros E%(ialloc_full_spec _ _ Hwf). by destruct fl. }
  rewrite (ia_tail_ok0 x Hlast). repeat wp_step. eapply wp_lift; [apply store_ok; lia|]. repeat wp_step.
  eapply wp_mono; [apply dup_chain_allocs; split|]; cbn [ia_offset ia_size idxlist ia_head ia_tail num_free].
  - done.
  - rewrite IDX_NONE_eq. lia.
  - by rewrite length_insert.
  - apply Forall_app. split; [done|]. by apply Forall_singleton.
  - done.
  - intros y l' E. by eapply ia_head_ok0.
  - intros k y z Hy Hz. rewrite list_lookup_insert_ne; [by eapply ia_next0|]. intros E.
    assert (0 <= y) by (assert (Forall (fun x => 0 <= x < ia_size ia) (fl ++ [x])) as Hf
      by (apply Forall_app; split; [done|]; by apply Forall_singleton);
      rewrite Forall_lookup in Hf; apply Hf in Hy; lia).
    assert (x = y) as -> by lia. pose proof (last_lookup_inj _ _ _ ia_nodup0 Hy Hlast).
    apply lookup_lt_Some in Hz. lia.
  - apply list_lookup_insert_eq. lia.
  - rewrite ia_num0, length_app in *. cbn [length] in *. rewrite u32_small; [lia|]. uint_lia.
  - intros os s' ->. by wp_step.
Qed.

Lemma ialloc_double_free_duplicates_witness :
  exists ia ia',
    ialloc_init [0; 0] 2 = Ok ia /\
    (r ← ialloc_free 1; os ← alloc_times 3; mret (r, os)) ia
    = Ok ((0, [ObsAlloc (Some 0); ObsAlloc (Some 1); ObsAlloc (Some 1)]), ia').
Proof.
  destruct (ialloc_init_with_offset_spec 2 0 [0; 0]) as (ia & Hia & Hwf & Ho & Hs); [done..|].
  pose proof (ialloc_double_free_duplicates ia [0] 1 Hwf) as H. rewrite Ho in H.
  apply wp_elim in H. destruct H as (ros & ia' & E & ->). exists ia, ia'. split.
  - rewrite <- Hia. reflexivity.
  - exact E.
Defined.

(** Two identifiers, of which 0 is in use. *)
Definition ialloc_ex : ialloc := mk_ialloc [IDX_NONE; IDX_NONE] 1 1 1 0 2.

Lemma ialloc_ex_wf : ialloc_wf ialloc_ex [1].
Proof.
  split; cbn [ia_offset ia_size idxlist ia_head ia_tail num_free ialloc_ex]; try done.
  - apply NoDup_singleton.
  - repeat constructor; lia.
  - by intros x fl' [= ->].
  - by intros x [= ->].
  - intros x Hx _. assert (x = 0 \/ x = 1) as [-> | ->] by lia; done.
Qed.
