(* ===== verification/BlkQueue.v ===== *)
(** * Block queues: include/sddf/blk/queue.h and storage_info.h

    A handle holds a ring of requests (with a plug) and a ring of responses of
    the same capacity. *)

From S2P Require Import Prelude Ring Fifo RingQueue.

Definition BLK_TRANSFER_SIZE : Z := 4096.

Inductive blk_req_code : Type :=
| BLK_REQ_READ | BLK_REQ_WRITE | BLK_REQ_FLUSH | BLK_REQ_BARRIER
| BLK_REQ_OTHER (n : Z) (* a value of the C enum outside the enumeration *).

Inductive blk_resp_status : Type :=
| BLK_RESP_OK | BLK_RESP_ERR_UNSPEC | BLK_RESP_ERR_INVALID_PARAM
| BLK_RESP_ERR_IO | BLK_RESP_ERR_NO_DEVICE.

#[export] Instance blk_req_code_eq_dec : EqDecision blk_req_code.
Proof. solve_decision. Defined.
#[export] Instance blk_resp_status_eq_dec : EqDecision blk_resp_status.
Proof. solve_decision. Defined.

Record blk_req : Type := mk_blk_req {
  br_code : blk_req_code;
  br_io_or_offset : Z; (* uint64_t *)
  br_block_number : Z; (* uint64_t *)
  br_count : Z;        (* uint16_t *)
  br_id : Z;           (* uint32_t *)
}.

Record blk_resp : Type := mk_blk_resp {
  bp_status : blk_resp_status;
  bp_success_count : Z; (* uint16_t *)
  bp_id : Z;            (* uint32_t *)
}.

#[export] Instance blk_req_inhabited : Inhabited blk_req := populate (mk_blk_req BLK_REQ_READ 0 0 0 0).
#[export] Instance blk_resp_inhabited : Inhabited blk_resp := populate (mk_blk_resp BLK_RESP_OK 0 0).

Record blk_req_queue : Type := mk_blk_req_queue {
  brq_ring : ring blk_req;
  brq_plugged : bool;
}.

Record blk_queue_handle : Type := mk_blk_handle {
  bh_req_queue : blk_req_queue;
  bh_resp_queue : ring blk_resp;
  bh_capacity : Z; (* uint32_t *)
}.

#[export] Instance blk_req_lens : RingLens blk_queue_handle blk_req (bool * ring blk_resp) := {
  rl_view h := brq_ring (bh_req_queue h);
  rl_set r h := mk_blk_handle (mk_blk_req_queue r (brq_plugged (bh_req_queue h)))
                  (bh_resp_queue h) (bh_capacity h);
  rl_cap := bh_capacity;
  rl_slack := 0;
  rl_eq := false;
  rl_rest h := (brq_plugged (bh_req_queue h), bh_resp_queue h);
}.
#[export] Instance blk_req_lens_laws : RingLensLaws blk_req_lens.
Proof. split; cbn; (done || lia). Qed.

#[export] Instance blk_resp_lens : RingLens blk_queue_handle blk_resp blk_req_queue := {
  rl_view := bh_resp_queue;
  rl_set r h := mk_blk_handle (bh_req_queue h) r (bh_capacity h);
  rl_cap := bh_capacity;
  rl_slack := 0;
  rl_eq := false;
  rl_rest := bh_req_queue;
}.
#[export] Instance blk_resp_lens_laws : RingLensLaws blk_resp_lens.
Proof. split; cbn; (done || lia). Qed.

Definition blk_queue_init (request : blk_req_queue) (response : ring blk_resp) (capacity : Z) : blk_queue_handle :=
  mk_blk_handle request response capacity.

Definition blk_queue_empty_req (h : blk_queue_handle) : bool := lens_empty (L := blk_req_lens) h.
Definition blk_queue_empty_resp (h : blk_queue_handle) : bool := lens_empty (L := blk_resp_lens) h.
Definition blk_queue_full_req (h : blk_queue_handle) : bool := lens_full (L := blk_req_lens) h.
Definition blk_queue_full_resp (h : blk_queue_handle) : bool := lens_full (L := blk_resp_lens) h.
Definition blk_queue_length_req (h : blk_queue_handle) : Z := lens_length (L := blk_req_lens) h.
Definition blk_queue_length_resp (h : blk_queue_handle) : Z := lens_length (L := blk_resp_lens) h.

Definition blk_enqueue_req (code : blk_req_code) (io_or_offset block_number count id : Z)
  : M blk_queue_handle Z :=
  lens_enqueue (L := blk_req_lens) (mk_blk_req code io_or_offset block_number count id).
Definition blk_enqueue_resp (status : blk_resp_status) (success_count id : Z) : M blk_queue_handle Z :=
  lens_enqueue (L := blk_resp_lens) (mk_blk_resp status success_count id).

(** [None] is the return of -1; the out parameters are the fields of the
    entry. *)
Definition blk_dequeue_req : M blk_queue_handle (option blk_req) := lens_dequeue (L := blk_req_lens).
Definition blk_dequeue_resp : M blk_queue_handle (option blk_resp) := lens_dequeue (L := blk_resp_lens).

Definition set_brq_plugged (b : bool) (h : blk_queue_handle) : blk_queue_handle :=
  mk_blk_handle (mk_blk_req_queue (brq_ring (bh_req_queue h)) b) (bh_resp_queue h) (bh_capacity h).
Definition blk_queue_plug_req : M blk_queue_handle unit := modify (set_brq_plugged true).
Definition blk_queue_unplug_req : M blk_queue_handle unit := modify (set_brq_plugged false).
Definition blk_queue_plugged_req (h : blk_queue_handle) : bool := brq_plugged (bh_req_queue h).

(** The fields of [blk_storage_info_t] that the virtualiser reads and
    writes. *)
Record blk_storage_info : Type := mk_storage_info {
  si_read_only : bool;
  si_ready : bool;
  si_sector_size : Z; (* uint16_t *)
  si_capacity : Z;    (* uint64_t, in units of BLK_TRANSFER_SIZE *)
}.

Definition blk_storage_is_ready (s : blk_storage_info) : bool := si_ready s.
Definition blk_storage_set_ready (ready : bool) (s : blk_storage_info) : blk_storage_info :=
  mk_storage_info (si_read_only s) ready (si_sector_size s) (si_capacity s).

(** Abbreviations for the lists the two rings stand for. *)
Definition blk_reqs (h : blk_queue_handle) : list blk_req := lens_items (L := blk_req_lens) h.
Definition blk_resps (h : blk_queue_handle) : list blk_resp := lens_items (L := blk_resp_lens) h.
Definition blk_wf (h : blk_queue_handle) : Prop :=
  lens_wf (L := blk_req_lens) h /\ lens_wf (L := blk_resp_lens) h.

(** An operation on one ring leaves the other alone. *)
Lemma blk_req_frame h h' :
  rl_rest (RingLens := blk_req_lens) h' = rl_rest (RingLens := blk_req_lens) h ->
  bh_capacity h' = bh_capacity h ->
  (lens_wf (L := blk_resp_lens) h' <-> lens_wf (L := blk_resp_lens) h)
  /\ blk_resps h' = blk_resps h /\ blk_queue_plugged_req h' = blk_queue_plugged_req h.
Proof.
  destruct h, h'. cbn. intros [= ? ->] ->. done.
Qed.

Lemma blk_resp_frame h h' :
  rl_rest (RingLens := blk_resp_lens) h' = rl_rest (RingLens := blk_resp_lens) h ->
  bh_capacity h' = bh_capacity h ->
  (lens_wf (L := blk_req_lens) h' <-> lens_wf (L := blk_req_lens) h)
  /\ blk_reqs h' = blk_reqs h /\ blk_queue_plugged_req h' = blk_queue_plugged_req h.
Proof.
  destruct h, h'. cbn. intros -> ->. done.
Qed.

(** The operations as continuation rules, with all they leave alone. *)
Lemma blk_dequeue_resp_spec h x l (Q : option blk_resp -> blk_queue_handle -> Prop) :
  blk_wf h -> blk_resps h = x :: l ->
  (forall h', blk_wf h' -> blk_resps h' = l -> blk_reqs h' = blk_reqs h -> bh_capacity h' = bh_capacity h ->
     Q (Some x) h') ->
  wp blk_dequeue_resp h Q.
Proof.
  intros [Hq Hr] E HQ. eapply lens_dequeue_spec; [done..|]. intros h' Hwf Hit Hcap Hrest.
  destruct (blk_resp_frame h h') as (Hw & Hi & _); [done..|]. apply HQ; [split; [by apply Hw|done]|done..].
Qed.

Lemma blk_dequeue_req_spec h x l (Q : option blk_req -> blk_queue_handle -> Prop) :
  blk_wf h -> blk_reqs h = x :: l ->
  (forall h', blk_wf h' -> blk_reqs h' = l -> blk_resps h' = blk_resps h -> bh_capacity h' = bh_capacity h ->
     Q (Some x) h') ->
  wp blk_dequeue_req h Q.
Proof.
  intros [Hq Hr] E HQ. eapply lens_dequeue_spec; [done..|]. intros h' Hwf Hit Hcap Hrest.
  destruct (blk_req_frame h h') as (Hw & Hi & _); [done..|]. apply HQ; [split; [done|by apply Hw]|done..].
Qed.

Lemma blk_enqueue_req_spec h code addr block count id (Q : Z -> blk_queue_handle -> Prop) :
  blk_wf h -> Z.of_nat (length (blk_reqs h)) < bh_capacity h ->
  (forall h', blk_wf h' -> blk_reqs h' = blk_reqs h ++ [mk_blk_req code addr block count id] ->
     blk_resps h' = blk_resps h -> bh_capacity h' = bh_capacity h -> Q 0 h') ->
  wp (blk_enqueue_req code addr block count id) h Q.
Proof.
  intros [Hq Hr] Hroom HQ. eapply lens_enqueue_spec; [done|cbn; unfold blk_reqs in Hroom; lia|].
  intros h' Hwf Hit Hcap Hrest.
  destruct (blk_req_frame h h') as (Hw & Hi & _); [done..|]. apply HQ; [split; [done|by apply Hw]|done..].
Qed.

Lemma blk_enqueue_resp_spec h status count id (Q : Z -> blk_queue_handle -> Prop) :
  blk_wf h -> Z.of_nat (length (blk_resps h)) < bh_capacity h ->
  (forall h', blk_wf h' -> blk_resps h' = blk_resps h ++ [mk_blk_resp status count id] ->
     blk_reqs h' = blk_reqs h -> bh_capacity h' = bh_capacity h -> Q 0 h') ->
  wp (blk_enqueue_resp status count id) h Q.
Proof.
  intros [Hq Hr] Hroom HQ. eapply lens_enqueue_spec; [done|cbn; unfold blk_resps in Hroom; lia|].
  intros h' Hwf Hit Hcap Hrest.
  destruct (blk_resp_frame h h') as (Hw & Hi & _); [done..|]. apply HQ; [split; [by apply Hw|done]|done..].
Qed.

(** A full queue of responses refuses one more, unchanged. *)
Lemma blk_enqueue_resp_full_spec h status count id :
  blk_wf h -> Z.of_nat (length (blk_resps h)) = bh_capacity h ->
  blk_enqueue_resp status count id h = Ok (-1, h).
Proof.
  intros [Hq Hr] Hfull. apply (lens_fifo_full (L := blk_resp_lens)); [done|]. cbn. unfold blk_resps in Hfull. lia.
Qed.

Lemma blk_queue_empty_resp_spec h : blk_wf h -> blk_queue_empty_resp h = bool_decide (blk_resps h = []).
Proof. intros [_ Hr]. apply eq_bool_prop_intro. rewrite !Is_true_true, bool_decide_eq_true. by apply lens_empty_spec. Qed.

Lemma blk_queue_empty_req_spec h : blk_wf h -> blk_queue_empty_req h = bool_decide (blk_reqs h = []).
Proof. intros [Hq _]. apply eq_bool_prop_intro. rewrite !Is_true_true, bool_decide_eq_true. by apply lens_empty_spec. Qed.

Lemma blk_queue_full_req_spec h :
  blk_wf h -> blk_queue_full_req h = (Z.of_nat (length (blk_reqs h)) =? bh_capacity h).
Proof. intros [Hq _]. unfold blk_queue_full_req. rewrite lens_full_spec by done. cbn. by rewrite Z.sub_0_r. Qed.

Lemma blk_queue_length_resp_spec h : blk_wf h -> blk_queue_length_resp h = Z.of_nat (length (blk_resps h)).
Proof. intros [_ Hr]. by apply lens_length_spec. Qed.

Lemma blk_queue_length_req_spec h : blk_wf h -> blk_queue_length_req h = Z.of_nat (length (blk_reqs h)).
Proof. intros [Hq _]. by apply lens_length_spec. Qed.

Lemma blk_reqs_bounded h : blk_wf h -> Z.of_nat (length (blk_reqs h)) <= bh_capacity h.
Proof. intros [Hq _]. pose proof (lens_bounded (L := blk_req_lens) h Hq) as H. cbn in H. unfold blk_reqs. lia. Qed.

Lemma blk_resps_bounded h : blk_wf h -> Z.of_nat (length (blk_resps h)) <= bh_capacity h.
Proof. intros [_ Hr]. pose proof (lens_bounded (L := blk_resp_lens) h Hr) as H. cbn in H. unfold blk_resps. lia. Qed.

(** Request and response queues of a block handle are bounded FIFOs, the
    test for a full queue included: any sequence of requests enqueued and
    dequeued on a well-formed handle returns what the abstract queue returns
    (-1 exactly when the abstract queue is at its bound, respectively empty),
    without a fault, and touches neither the plug nor the responses. *)
Theorem blk_req_queue_refines_fifo (ops : list (fifo_op blk_req)) (h : blk_queue_handle) :
  lens_wf (L := blk_req_lens) h ->
  wp (fifo_impl_run (O := lens_fifo_ops (L := blk_req_lens)) ops) h (fun bs h' =>
    bs = (fifo_spec_run (bh_capacity h) ops (blk_reqs h)).1 /\
    lens_wf (L := blk_req_lens) h' /\
    blk_reqs h' = (fifo_spec_run (bh_capacity h) ops (blk_reqs h)).2 /\
    blk_queue_plugged_req h' = blk_queue_plugged_req h /\ bh_resp_queue h' = bh_resp_queue h).
Proof.
  intros Hwf.
  wp_use (fifo_refines (O := lens_fifo_ops (L := blk_req_lens)) (bh_capacity h)
            (rl_rest (RingLens := blk_req_lens) h) ops h (blk_reqs h)).
  - split_and!; [done..| |done]. cbn. lia.
  - intros bs h' (-> & Hwf' & Hit & _ & Hrest). cbn in Hrest. injection Hrest as Hp Hr. done.
Qed.

Definition blk_handle_ex : blk_queue_handle :=
  mk_blk_handle (mk_blk_req_queue (mk_ring 0 (2 ^ 32 - 1) (replicate 2 (mk_blk_req BLK_REQ_READ 0 0 0 7))) false)
    (mk_ring 0 0 (replicate 2 (mk_blk_resp BLK_RESP_OK 0 0))) 2.

Lemma blk_handle_ex_wf : blk_wf blk_handle_ex.
Proof.
  split; (split; [|by vm_compute]); (split; cbn; try lia; [by exists 2147483648|by vm_compute]).
Qed.

Lemma blk_req_queue_refines_fifo_witness :
  lens_wf (L := blk_req_lens) blk_handle_ex /\
  exists h', fifo_impl_run (O := lens_fifo_ops (L := blk_req_lens))
    [Enq (mk_blk_req BLK_REQ_WRITE 1 2 3 4); Enq (mk_blk_req BLK_REQ_WRITE 1 2 3 5); Deq; Deq; Deq] blk_handle_ex
  = Ok ([ObsEnq 0; ObsEnq (-1); ObsDeq (Some (mk_blk_req BLK_REQ_READ 0 0 0 7));
         ObsDeq (Some (mk_blk_req BLK_REQ_WRITE 1 2 3 4)); ObsDeq None], h').
Proof.
  split; [apply blk_handle_ex_wf|].
  pose proof (blk_req_queue_refines_fifo
    [Enq (mk_blk_req BLK_REQ_WRITE 1 2 3 4); Enq (mk_blk_req BLK_REQ_WRITE 1 2 3 5); Deq; Deq; Deq]
    blk_handle_ex (proj1 blk_handle_ex_wf)) as H.
  apply wp_elim in H. destruct H as (bs & h' & E & -> & _). exists h'. rewrite E. reflexivity.
Defined.
