(* ===== verification/BlkVirtState.v ===== *)
(** * The state of the block virtualiser: blk/components/virt.h

    The globals of virt.c and partitioning.c, which share the driver's queues
    and the index allocator, and the configuration. *)

From S2P Require Import Prelude RingQueue BlkQueue Ialloc Microkit.

Definition SDDF_BLK_MAX_CLIENTS : Z := 64.
Definition DRIVER_MAX_NUM_BUFFERS : Z := 1024.

Record blk_virt_config_client : Type := mk_blk_client {
  bc_id : Z;           (* conn.id *)
  bc_num_buffers : Z;  (* conn.num_buffers, uint16_t *)
  bc_io_addr : Z;      (* data.io_addr *)
  bc_vaddr : Z;        (* data.region.vaddr *)
  bc_size : Z;         (* data.region.size, uint64_t *)
  bc_partition : Z;    (* uint32_t *)
}.

Record blk_virt_config : Type := mk_blk_config {
  vc_num_clients : Z;
  vc_clients : list blk_virt_config_client;
  vc_drv_id : Z;
  vc_drv_num_buffers : Z;
  vc_drv_io_addr : Z;
  vc_drv_vaddr : Z;
  vc_drv_size : Z;
}.

(** The information of a request kept until its response. *)
Record reqbk : Type := mk_reqbk {
  rb_cli_id : Z;       (* uint32_t *)
  rb_cli_req_id : Z;   (* uint32_t *)
  rb_vaddr : Z;        (* uintptr_t *)
  rb_count : Z;        (* uint16_t *)
  rb_code : blk_req_code;
}.

#[export] Instance reqbk_inhabited : Inhabited reqbk := populate (mk_reqbk 0 0 0 0 BLK_REQ_READ).

(** [client_t] of partitioning.c: the partition of a client, in sectors. *)
Record client_t : Type := mk_client {
  cl_start_sector : Z; (* uint32_t *)
  cl_sectors : Z;      (* uint32_t *)
}.

#[export] Instance client_t_inhabited : Inhabited client_t := populate (mk_client 0 0).

Record mbr_state_t : Type := mk_mbr_state {
  ms_sent_request : bool;
  ms_req_addr : Z;
  ms_req_id : Z;
}.

(** Pointers are addresses. *)
Record gpt_meta_t : Type := mk_gpt_meta {
  gm_header : Z;
  gm_table : Z;
  gm_mirror_header : Z;
  gm_mirror_table : Z;
  gm_table_size : Z;   (* uint32_t *)
}.

Record gpt_state_t : Type := mk_gpt_state {
  gs_sent_request : bool;
  gs_req_addr : Z;
  gs_req_id : Z;
  gs_req_cnt : Z;
  gs_mirror_req_addr : Z;
  gs_mirror_req_id : Z;
  gs_mirror_req_cnt : Z;
  gs_partition_table_ready : bool;
  gs_mirror_partition_table_ready : bool;
}.

(** [msdos_mbr] is the copy of sector 0; [drv_mem] the data region shared with
    the driver, whose first byte has the address [vc_drv_vaddr]. *)
Record blk_virt_state : Type := mk_blk_state {
  drv_h : blk_queue_handle;
  client_queues : list blk_queue_handle;
  reqsbk : list reqbk;
  bv_ialloc : ialloc;
  clients : list client_t;
  msdos_mbr : list Z;
  mbr_state : mbr_state_t;
  gpt_meta : gpt_meta_t;
  gpt_state : gpt_state_t;
  initialised : bool;
  drv_mem : list Z;
  drv_info : blk_storage_info;
  cli_infos : list blk_storage_info;
  blk_events : list event;
}.

Definition set_drv_h x (s : blk_virt_state) : blk_virt_state := mk_blk_state x (client_queues s) (reqsbk s) (bv_ialloc s) (clients s) (msdos_mbr s)
  (mbr_state s) (gpt_meta s) (gpt_state s) (initialised s) (drv_mem s) (drv_info s) (cli_infos s) (blk_events s).
Definition set_client_queues x (s : blk_virt_state) : blk_virt_state := mk_blk_state (drv_h s) x (reqsbk s) (bv_ialloc s) (clients s) (msdos_mbr s)
  (mbr_state s) (gpt_meta s) (gpt_state s) (initialised s) (drv_mem s) (drv_info s) (cli_infos s) (blk_events s).
Definition set_reqsbk x (s : blk_virt_state) : blk_virt_state := mk_blk_state (drv_h s) (client_queues s) x (bv_ialloc s) (clients s) (msdos_mbr s)
  (mbr_state s) (gpt_meta s) (gpt_state s) (initialised s) (drv_mem s) (drv_info s) (cli_infos s) (blk_events s).
Definition set_ialloc x (s : blk_virt_state) : blk_virt_state := mk_blk_state (drv_h s) (client_queues s) (reqsbk s) x (clients s) (msdos_mbr s)
  (mbr_state s) (gpt_meta s) (gpt_state s) (initialised s) (drv_mem s) (drv_info s) (cli_infos s) (blk_events s).
Definition set_clients x (s : blk_virt_state) : blk_virt_state := mk_blk_state (drv_h s) (client_queues s) (reqsbk s) (bv_ialloc s) x (msdos_mbr s)
  (mbr_state s) (gpt_meta s) (gpt_state s) (initialised s) (drv_mem s) (drv_info s) (cli_infos s) (blk_events s).
Definition set_msdos_mbr x (s : blk_virt_state) : blk_virt_state := mk_blk_state (drv_h s) (client_queues s) (reqsbk s) (bv_ialloc s) (clients s) x
  (mbr_state s) (gpt_meta s) (gpt_state s) (initialised s) (drv_mem s) (drv_info s) (cli_infos s) (blk_events s).
Definition set_mbr_state x (s : blk_virt_state) : blk_virt_state := mk_blk_state (drv_h s) (client_queues s) (reqsbk s) (bv_ialloc s) (clients s)
  (msdos_mbr s) x (gpt_meta s) (gpt_state s) (initialised s) (drv_mem s) (drv_info s) (cli_infos s) (blk_events s).
Definition set_gpt_meta x (s : blk_virt_state) : blk_virt_state := mk_blk_state (drv_h s) (client_queues s) (reqsbk s) (bv_ialloc s) (clients s)
  (msdos_mbr s) (mbr_state s) x (gpt_state s) (initialised s) (drv_mem s) (drv_info s) (cli_infos s) (blk_events s).
Definition set_gpt_state x (s : blk_virt_state) : blk_virt_state := mk_blk_state (drv_h s) (client_queues s) (reqsbk s) (bv_ialloc s) (clients s)
  (msdos_mbr s) (mbr_state s) (gpt_meta s) x (initialised s) (drv_mem s) (drv_info s) (cli_infos s) (blk_events s).
Definition set_initialised x (s : blk_virt_state) : blk_virt_state := mk_blk_state (drv_h s) (client_queues s) (reqsbk s) (bv_ialloc s) (clients s)
  (msdos_mbr s) (mbr_state s) (gpt_meta s) (gpt_state s) x (drv_mem s) (drv_info s) (cli_infos s) (blk_events s).
Definition set_drv_mem x (s : blk_virt_state) : blk_virt_state := mk_blk_state (drv_h s) (client_queues s) (reqsbk s) (bv_ialloc s) (clients s)
  (msdos_mbr s) (mbr_state s) (gpt_meta s) (gpt_state s) (initialised s) x (drv_info s) (cli_infos s) (blk_events s).
Definition set_cli_infos x (s : blk_virt_state) : blk_virt_state := mk_blk_state (drv_h s) (client_queues s) (reqsbk s) (bv_ialloc s) (clients s)
  (msdos_mbr s) (mbr_state s) (gpt_meta s) (gpt_state s) (initialised s) (drv_mem s) (drv_info s) x (blk_events s).
Definition set_blk_events x (s : blk_virt_state) : blk_virt_state := mk_blk_state (drv_h s) (client_queues s) (reqsbk s) (bv_ialloc s) (clients s)
  (msdos_mbr s) (mbr_state s) (gpt_meta s) (gpt_state s) (initialised s) (drv_mem s) (drv_info s) (cli_infos s) x.

Definition on_drv_h {A} (m : M blk_queue_handle A) : M blk_virt_state A := zoom drv_h set_drv_h m.
Definition on_cli_h {A} (i : Z) (m : M blk_queue_handle A) : M blk_virt_state A :=
  zoom_nth client_queues set_client_queues i m.
Definition on_ialloc {A} (m : M ialloc A) : M blk_virt_state A := zoom bv_ialloc set_ialloc m.
Definition on_mem {A} (m : M (list Z) A) : M blk_virt_state A := zoom drv_mem set_drv_mem m.
Definition blk_emit (e : event) : M blk_virt_state unit := modify (fun s => set_blk_events (blk_events s ++ [e]) s).
