(* ===== verification/BlkPartition.v ===== *)
(** * Partition tables: blk/components/partitioning.c, msdos_mbr.h and gpt.h

    The virtualiser reads sector 0 and, on a GPT disk, the two copies of the
    partition table, into a region shared with the driver, checks them and
    assigns a partition to each client. *)

From S2P Require Import Prelude Ring Fifo RingQueue BlkQueue Ialloc Microkit CLib BlkVirtState.

Definition MSDOS_MBR_SIGNATURE : Z := 0xAA55.
Definition MSDOS_MBR_MAX_PRIMARY_PARTITIONS : Z := 4.
Definition MSDOS_MBR_SECTOR_SIZE : Z := 512.
Definition MSDOS_MBR_PARTITION_TYPE_EMPTY : Z := 0.
Definition MSDOS_MBR_PARTITION_TYPE_GPT : Z := 0xEE.
Definition GPT_SECTOR_SIZE : Z := 512.

(** ["EFI PART"] with its terminator. *)
Definition GPT_HEADER_SIGNATURE : list Z := [69; 70; 73; 32; 80; 65; 82; 84; 0].

(** ** The layouts of the packed structures *)

(** Little-endian value of some bytes, and its inverse. *)
Definition le_val (l : list Z) : Z := foldr (fun b acc => b + 256 * acc) 0 l.
Fixpoint le_bytes (n : nat) (x : Z) : list Z :=
  match n with
  | O => []
  | S n' => x mod 256 :: le_bytes n' (x / 256)
  end.
Definition le_at (l : list Z) (off : Z) (n : nat) : Z := le_val (take n (drop (Z.to_nat off) l)).

(** [struct msdos_mbr_partition] and [struct msdos_mbr] in the bytes [mbr]. *)
Definition mbr_partition_off (i : Z) : Z := 446 + 16 * i.
Definition mbr_partition_type (mbr : list Z) (i : Z) : Z := le_at mbr (mbr_partition_off i + 4) 1.
Definition mbr_partition_lba_start (mbr : list Z) (i : Z) : Z := le_at mbr (mbr_partition_off i + 8) 4.
Definition mbr_partition_sectors (mbr : list Z) (i : Z) : Z := le_at mbr (mbr_partition_off i + 12) 4.
Definition mbr_signature (mbr : list Z) : Z := le_at mbr 510 2.
Definition MBR_SIZE : nat := 512.

(** Offsets in [struct gpt_partition_header] and [struct gpt_partition_entry]. *)
Definition gh_signature : Z := 0.
Definition gh_revision : Z := 8.
Definition gh_header_size : Z := 12.
Definition gh_crc32_header : Z := 16.
Definition gh_lba_header : Z := 24.
Definition gh_lba_alt_header : Z := 32.
Definition gh_guid : Z := 56.
Definition gh_lba_start : Z := 72.
Definition gh_num_entries : Z := 80.
Definition gh_entry_size : Z := 84.
Definition gh_crc32_entry_array : Z := 88.
Definition ge_size : Z := 128.
Definition ge_lba_start : Z := 32.
Definition ge_lba_end : Z := 40.

(** ** CRC-32 *)

Definition crc_bit (crc : Z) : Z :=
  let mask := u32 (- Z.land crc 1) in
  Z.lxor (Z.shiftr crc 1) (Z.land 0xEDB88320 mask).

Definition crc_byte (crc byte : Z) : Z := Nat.iter 8 crc_bit (Z.lxor crc byte).

Definition gpt_calc_crc32 (buffer : list Z) : Z := u32 (Z.lnot (fold_left crc_byte buffer 0xFFFFFFFF)).

Section partitioning.
Context (config : blk_virt_config).

(** ** Accesses to the region shared with the driver *)

(** The [n] bytes at an address. *)
Definition read_mem (mem : list Z) (addr : Z) (n : nat) : res (list Z) :=
  let off := addr - vc_drv_vaddr config in
  if (off <? 0) || (Z.of_nat (length mem) <? off + Z.of_nat n) then Fault OutOfBounds
  else Ok (take n (drop (Z.to_nat off) mem)).

(** The object from an address on. *)
Definition read_from (mem : list Z) (addr : Z) : res (list Z) :=
  let off := addr - vc_drv_vaddr config in
  if off <? 0 then Fault OutOfBounds else Ok (drop (Z.to_nat off) mem).

Definition write_mem (mem : list Z) (addr : Z) (bytes : list Z) : res (list Z) :=
  let off := addr - vc_drv_vaddr config in
  if (off <? 0) || (Z.of_nat (length mem) <? off + Z.of_nat (length bytes)) then Fault OutOfBounds
  else Ok (splice mem (Z.to_nat off) bytes).

(** Read and write an [n]-byte field. *)
Definition rd (n : nat) (addr : Z) : M blk_virt_state Z :=
  s ← get;
  l ← lift (read_mem (drv_mem s) addr n);
  mret (le_val l).
Definition wr (n : nat) (addr x : Z) : M blk_virt_state unit :=
  s ← get;
  l ← lift (write_mem (drv_mem s) addr (le_bytes n x));
  modify (set_drv_mem l).

(** CRC-32 of a range of the region. *)
Definition crc_mem (addr len : Z) : M blk_virt_state Z :=
  s ← get;
  l ← lift (read_mem (drv_mem s) addr (Z.to_nat len));
  mret (gpt_calc_crc32 l).

(** ** Assigning partitions *)

(** The end of both loops over the clients: the entry of [clients] and the
    storage information of client [i]. *)
Definition assign_client (i start_sector sectors : Z) : M blk_virt_state unit :=
  s ← get;
  l ← lift (store (clients s) i (mk_client start_sector sectors));
  modify (set_clients l);;
  info ← lift (load (cli_infos s) i);
  infos ← lift (store (cli_infos s) i
                  (blk_storage_set_ready true
                     (mk_storage_info (si_read_only (drv_info s)) (si_ready info) (si_sector_size (drv_info s))
                        (sectors / (BLK_TRANSFER_SIZE / MSDOS_MBR_SECTOR_SIZE)))));
  modify (set_cli_infos infos).

(** A loop over the clients that returns false when its body does. *)
Fixpoint for_clients (l : list Z) (body : Z -> M blk_virt_state bool) : M blk_virt_state bool :=
  match l with
  | [] => mret true
  | i :: l' =>
    ok ← body i;
    if (ok : bool) then for_clients l' body else mret false
  end.

Definition gpt_partition_body (i : Z) : M blk_virt_state bool :=
  client ← lift (load (vc_clients config) i);
  s ← get;
  let entry := gm_table (gpt_meta s) + ge_size * bc_partition client in
  start ← rd 8 (entry + ge_lba_start);
  if start =? 0 then mret false else
  last ← rd 8 (entry + ge_lba_end);
  assign_client i (u32 start) (u32 (u64 (last - start + 1)));;
  mret true.

Definition gpt_partitions_init : M blk_virt_state bool :=
  for_clients (seqZ 0 (vc_num_clients config)) gpt_partition_body.

Definition mbr_partition_body (i : Z) : M blk_virt_state bool :=
  client ← lift (load (vc_clients config) i);
  s ← get;
  let p := bc_partition client in
  if (MSDOS_MBR_MAX_PRIMARY_PARTITIONS <=? p)
     || (mbr_partition_type (msdos_mbr s) p =? MSDOS_MBR_PARTITION_TYPE_EMPTY) then mret false
  else if negb (mbr_partition_lba_start (msdos_mbr s) p mod (BLK_TRANSFER_SIZE / MSDOS_MBR_SECTOR_SIZE) =? 0)
  then mret false
  else
    assign_client i (mbr_partition_lba_start (msdos_mbr s) p) (mbr_partition_sectors (msdos_mbr s) p);;
    mret true.

Definition mbr_partitions_init : M blk_virt_state bool :=
  s ← get;
  if negb (mbr_signature (msdos_mbr s) =? MSDOS_MBR_SIGNATURE) then mret false
  else for_clients (seqZ 0 (vc_num_clients config)) mbr_partition_body.

(** ** The validation of a GPT *)

(** The signature and the checksum of the header at [hdr]; the checksum field
    is zeroed for the calculation and put back only if the checksum is right. *)
Definition gpt_check_header (hdr : Z) : M blk_virt_state bool :=
  s ← get;
  sig ← lift (read_from (drv_mem s) (hdr + gh_signature));
  c ← lift (sddf_strcmp sig GPT_HEADER_SIGNATURE);
  if negb (c =? 0) then mret false else
  reserved_crc32 ← rd 4 (hdr + gh_crc32_header);
  wr 4 (hdr + gh_crc32_header) 0;;
  crc32_header ← crc_mem hdr 0x5C;
  if negb (crc32_header =? reserved_crc32) then mret false else
  wr 4 (hdr + gh_crc32_header) reserved_crc32;;
  mret true.

Definition gpt_check_table (hdr table table_size : Z) : M blk_virt_state bool :=
  crc32_entry_array ← crc_mem table table_size;
  expected ← rd 4 (hdr + gh_crc32_entry_array);
  mret (crc32_entry_array =? expected).

Definition set_partition_table_ready : M blk_virt_state unit := modify (fun s =>
  let g := gpt_state s in
  set_gpt_state (mk_gpt_state (gs_sent_request g) (gs_req_addr g) (gs_req_id g) (gs_req_cnt g)
    (gs_mirror_req_addr g) (gs_mirror_req_id g) (gs_mirror_req_cnt g) true
    (gs_mirror_partition_table_ready g)) s).
Definition set_mirror_partition_table_ready : M blk_virt_state unit := modify (fun s =>
  let g := gpt_state s in
  set_gpt_state (mk_gpt_state (gs_sent_request g) (gs_req_addr g) (gs_req_id g) (gs_req_cnt g)
    (gs_mirror_req_addr g) (gs_mirror_req_id g) (gs_mirror_req_cnt g) (gs_partition_table_ready g) true) s).
Definition set_mirror_header (a : Z) : M blk_virt_state unit := modify (fun s =>
  let g := gpt_meta s in
  set_gpt_meta (mk_gpt_meta (gm_header g) (gm_table g) a (gm_mirror_table g) (gm_table_size g)) s).
Definition set_mirror_table (a : Z) : M blk_virt_state unit := modify (fun s =>
  let g := gpt_meta s in
  set_gpt_meta (mk_gpt_meta (gm_header g) (gm_table g) (gm_mirror_header g) a (gm_table_size g)) s).

(** The handling of one response in the loop of [gpt_validate_partitions];
    false is its early return. *)
Definition gpt_validate_response : M blk_virt_state bool :=
  r ← on_drv_h blk_dequeue_resp;
  match r with
  | None => raise AssertFail
  | Some resp =>
    err ← on_ialloc (ialloc_free (bp_id resp));
    assert_ (err =? 0);;
    if negb (bool_decide (bp_status resp = BLK_RESP_OK)) then mret false else
    s ← get;
    if bp_id resp =? gs_req_id (gpt_state s) then
      ok ← gpt_check_header (gm_header (gpt_meta s));
      if negb (ok : bool) then mret false else
      ok ← gpt_check_table (gm_header (gpt_meta s)) (gm_table (gpt_meta s)) (gm_table_size (gpt_meta s));
      if negb (ok : bool) then mret false else
      set_partition_table_ready;;
      mret true
    else if bp_id resp =? gs_mirror_req_id (gpt_state s) then
      let mirror := u64 (gs_mirror_req_addr (gpt_state s)
                         + u32 (gs_mirror_req_cnt (gpt_state s) * BLK_TRANSFER_SIZE) - GPT_SECTOR_SIZE) in
      set_mirror_header mirror;;
      ok ← gpt_check_header mirror;
      if negb (ok : bool) then mret false else
      let table_offset := u32 (gs_mirror_req_cnt (gpt_state s) * BLK_TRANSFER_SIZE
                               - gm_table_size (gpt_meta s) - GPT_SECTOR_SIZE) in
      let table := u64 (gs_mirror_req_addr (gpt_state s) + table_offset) in
      set_mirror_table table;;
      ok ← gpt_check_table mirror table (gm_table_size (gpt_meta s));
      if negb (ok : bool) then mret false else
      set_mirror_partition_table_ready;;
      mret true
    else mret true
  end.

(** [assert(header->f == mirror_header->g)]. *)
Definition assert_field_eq (n : nat) (a b : Z) : M blk_virt_state unit :=
  x ← rd n a;
  y ← rd n b;
  assert_ (x =? y).

(** [assert(header->f = mirror_header->f)]: an assignment, which fails if the
    value is zero. *)
Definition assert_field_assign (n : nat) (a b : Z) : M blk_virt_state unit :=
  y ← rd n b;
  wr n a y;;
  assert_ (negb (y =? 0)).

Definition gpt_compare_headers : M blk_virt_state unit :=
  s ← get;
  let h := gm_header (gpt_meta s) in
  let m := gm_mirror_header (gpt_meta s) in
  assert_field_eq 4 (h + gh_revision) (m + gh_revision);;
  assert_field_eq 4 (h + gh_header_size) (m + gh_header_size);;
  for_upto 16 (fun i => assert_field_eq 1 (h + gh_guid + i) (m + gh_guid + i));;
  assert_field_eq 8 (h + gh_lba_header) (m + gh_lba_alt_header);;
  assert_field_eq 8 (h + gh_lba_alt_header) (m + gh_lba_header);;
  assert_field_assign 8 (h + gh_lba_start) (m + gh_lba_start);;
  assert_field_assign 4 (h + gh_num_entries) (m + gh_num_entries);;
  assert_field_assign 4 (h + gh_entry_size) (m + gh_entry_size);;
  assert_field_assign 4 (h + gh_crc32_entry_array) (m + gh_crc32_entry_array).

(** The loop over the responses; the local variable says that the function
    has returned false. *)
Definition gpt_resps (p : blk_virt_state * bool) : nat := Z.to_nat (blk_queue_length_resp (drv_h p.1)).
Definition gpt_more (p : blk_virt_state * bool) : bool :=
  negb p.2 && negb (blk_queue_empty_resp (drv_h p.1)).
Definition gpt_validate_body : M (blk_virt_state * bool) unit :=
  ok ← on_state gpt_validate_response;
  if (ok : bool) then mret tt else set_local true.

Definition gpt_validate_partitions : M blk_virt_state bool :=
  s ← get;
  if blk_queue_empty_resp (drv_h s) then mret false else
  r ← with_local false (loop gpt_resps gpt_more gpt_validate_body);
  if (r : unit * bool).2 then mret false else
  s ← get;
  if gs_partition_table_ready (gpt_state s) && gs_mirror_partition_table_ready (gpt_state s) then
    gpt_compare_headers;;
    mret true
  else mret false.

(** ** Requesting the tables *)

Definition mbr_request : M blk_virt_state unit :=
  id ← on_ialloc ialloc_alloc;
  match id with
  | None => raise AssertFail
  | Some req_id =>
    modify (fun s => set_mbr_state (mk_mbr_state (ms_sent_request (mbr_state s)) (vc_drv_vaddr config) req_id) s);;
    assert_ (BLK_TRANSFER_SIZE <=? vc_drv_size config);;
    err ← on_drv_h (blk_enqueue_req BLK_REQ_READ (vc_drv_io_addr config) 0 1 req_id);
    assert_ (err =? 0);;
    blk_emit (DeferredNotify (vc_drv_id config));;
    modify (fun s => set_mbr_state (mk_mbr_state true (ms_req_addr (mbr_state s)) (ms_req_id (mbr_state s))) s)
  end.

(** The second half of [mbr_handle_response], on a protective MBR. *)
Definition gpt_request : M blk_virt_state unit :=
  s ← get;
  let header := u64 (ms_req_addr (mbr_state s) + GPT_SECTOR_SIZE) in
  num_entries ← rd 4 (header + gh_num_entries);
  entry_size ← rd 4 (header + gh_entry_size);
  lba_alt_header ← rd 8 (header + gh_lba_alt_header);
  let table_size := u32 (num_entries * entry_size) in
  let g := gpt_meta s in
  modify (set_gpt_meta (mk_gpt_meta header (u64 (ms_req_addr (mbr_state s) + GPT_SECTOR_SIZE * 2))
                          (gm_mirror_header g) (gm_mirror_table g) table_size));;
  id ← on_ialloc ialloc_alloc;
  match id with
  | None => raise AssertFail
  | Some req_id =>
    let meta_blk_cnt := u32 (GPT_SECTOR_SIZE * 2 + BLK_TRANSFER_SIZE - 1 + table_size) / BLK_TRANSFER_SIZE in
    err ← on_drv_h (blk_enqueue_req BLK_REQ_READ (u64 (vc_drv_io_addr config + BLK_TRANSFER_SIZE)) 1
                      (u16 (meta_blk_cnt - 1)) req_id);
    assert_ (err =? 0);;
    id ← on_ialloc ialloc_alloc;
    match id with
    | None => raise AssertFail
    | Some mirror_req_id =>
      let meta_mirror_blk_cnt := u32 (GPT_SECTOR_SIZE + BLK_TRANSFER_SIZE - 1 + table_size) / BLK_TRANSFER_SIZE in
      let mirror_blk_start := u32 (u64 (lba_alt_header - table_size / GPT_SECTOR_SIZE)
                                   / (BLK_TRANSFER_SIZE / GPT_SECTOR_SIZE)) in
      let off := u32 (BLK_TRANSFER_SIZE * meta_blk_cnt) in
      modify (fun s => set_gpt_state (mk_gpt_state true
        (u64 (vc_drv_vaddr config + BLK_TRANSFER_SIZE)) req_id (u32 (meta_blk_cnt - 1))
        (u64 (vc_drv_vaddr config + off)) mirror_req_id meta_mirror_blk_cnt
        (gs_partition_table_ready (gpt_state s)) (gs_mirror_partition_table_ready (gpt_state s))) s);;
      err ← on_drv_h (blk_enqueue_req BLK_REQ_READ (u64 (vc_drv_io_addr config + off)) mirror_blk_start
                        (u16 meta_mirror_blk_cnt) mirror_req_id);
      assert_ (err =? 0);;
      blk_emit (DeferredNotify (vc_drv_id config))
    end
  end.

Definition mbr_handle_response : M blk_virt_state bool :=
  s ← get;
  assert_ (ms_sent_request (mbr_state s));;
  if blk_queue_empty_resp (drv_h s) then mret false else
  r ← on_drv_h blk_dequeue_resp;
  match r with
  | None => raise AssertFail
  | Some resp =>
    err ← on_ialloc (ialloc_free (ms_req_id (mbr_state s)));
    assert_ (err =? 0);;
    if negb (bool_decide (bp_status resp = BLK_RESP_OK)) then mret false else
    l ← lift (read_mem (drv_mem s) (ms_req_addr (mbr_state s)) MBR_SIZE);
    modify (set_msdos_mbr l);;
    if mbr_partition_type l 0 =? MSDOS_MBR_PARTITION_TYPE_GPT then
      gpt_request;;
      mret false
    else mret true
  end.

Definition virt_partition_init : M blk_virt_state bool :=
  s ← get;
  if negb (ms_sent_request (mbr_state s)) then
    mbr_request;;
    mret false
  else if gs_sent_request (gpt_state s) then
    success ← gpt_validate_partitions;
    if (success : bool) then gpt_partitions_init else mret false
  else
    success ← mbr_handle_response;
    if (success : bool) then mbr_partitions_init else mret false.

(** ** The block numbers of a client *)

(** The status, and the out parameter if it is [BLK_RESP_OK]. *)
Definition get_drv_block_number (cls : list client_t) (cli_block_number cli_count cli_id : Z)
  : res (blk_resp_status * Z) :=
  c ← load cls cli_id;
  let per := BLK_TRANSFER_SIZE / MSDOS_MBR_SECTOR_SIZE in
  let block_number := u64 (cli_block_number + cl_start_sector c / per) in
  let client_sectors := cl_sectors c / per in
  let client_start_sector := cl_start_sector c / per in
  if (block_number <? client_start_sector)
     || (u64 (client_start_sector + client_sectors) <? u64 (block_number + cli_count))
  then mret (BLK_RESP_ERR_INVALID_PARAM, 0)
  else mret (BLK_RESP_OK, block_number).

End partitioning.

(** ** Error detection of the checksum

    One step of the shift register is linear over exclusive or and injective on
    32-bit words. *)

(** The check value of CRC-32. *)
Example gpt_calc_crc32_check : gpt_calc_crc32 [49; 50; 51; 52; 53; 54; 55; 56; 57] = 0xCBF43926.
Proof. by vm_compute. Qed.

Definition is_byte (b : Z) : Prop := 0 <= b < 256.

Lemma crc_bit_alt x : crc_bit x = Z.lxor (Z.shiftr x 1) (if Z.odd x then 0xEDB88320 else 0).
Proof.
  unfold crc_bit. change 1 with (Z.ones 1) at 2. rewrite Z.land_ones by lia.
  change (2 ^ 1) with 2. rewrite Zmod_odd. by destruct (Z.odd x).
Qed.

Lemma Z_lxor_odd x y : Z.odd (Z.lxor x y) = xorb (Z.odd x) (Z.odd y).
Proof. rewrite <- !Z.bit0_odd. apply Z.lxor_spec. Qed.

Lemma Z_lxor_range x y n : 0 <= n -> 0 <= x < 2 ^ n -> 0 <= y < 2 ^ n -> 0 <= Z.lxor x y < 2 ^ n.
Proof.
  intros Hn Hx Hy. assert (0 <= Z.lxor x y) by (apply Z.lxor_nonneg; lia). split; [done|].
  destruct (decide (Z.lxor x y = 0)) as [->|]; [by apply Z.pow_pos_nonneg|].
  apply Z.log2_lt_pow2; [lia|].
  eapply Z.le_lt_trans; [apply Z.log2_lxor; lia|].
  apply Z.max_lub_lt; (destruct (decide (n = 0)) as [->|]; [exfalso; change (2 ^ 0) with 1 in *|]).
  - assert (x = 0) as -> by lia. assert (y = 0) as -> by lia. done.
  - destruct (decide (x = 0)) as [->|]; [cbn; lia|]. apply Z.log2_lt_pow2; lia.
  - assert (x = 0) as -> by lia. assert (y = 0) as -> by lia. done.
  - destruct (decide (y = 0)) as [->|]; [cbn; lia|]. apply Z.log2_lt_pow2; lia.
Qed.

Lemma crc_bit_linear x y : crc_bit (Z.lxor x y) = Z.lxor (crc_bit x) (crc_bit y).
Proof.
  rewrite !crc_bit_alt, Z_lxor_odd, Z.shiftr_lxor.
  apply Z.bits_inj'. intros i _. rewrite !Z.lxor_spec.
  destruct (Z.odd x), (Z.odd y); cbn [xorb]; rewrite ?Z.bits_0;
    repeat case (Z.testbit _ _); done.
Qed.

Lemma crc_bit_range x : 0 <= x < 2 ^ 32 -> 0 <= crc_bit x < 2 ^ 32.
Proof.
  intros Hx. rewrite crc_bit_alt. apply Z_lxor_range; [lia| |destruct (Z.odd x); lia].
  rewrite Z.shiftr_div_pow2 by lia. change (2 ^ 1) with 2. split; [apply Z.div_pos; lia|].
  apply Z.div_lt_upper_bound; lia.
Qed.

Lemma crc_bit_zero x : 0 <= x < 2 ^ 32 -> crc_bit x = 0 -> x = 0.
Proof.
  intros Hx E. rewrite crc_bit_alt in E.
  assert (Z.odd x = false) as Hodd.
  { apply (f_equal (fun z => Z.testbit z 31)) in E. rewrite Z.lxor_spec, Z.shiftr_spec, Z.bits_0 in E by lia.
    rewrite (Z.bits_above_log2 x) in E.
    - by destruct (Z.odd x).
    - lia.
    - destruct (decide (x = 0)) as [->|]; [done|]. apply Z.log2_lt_pow2; lia. }
  rewrite Hodd, Z.lxor_0_r, Z.shiftr_div_pow2 in E by lia. change (2 ^ 1) with 2 in E.
  rewrite (Z.div_mod x 2), E, Zmod_odd, Hodd by lia. done.
Qed.

Lemma crc_bit_double x : 0 <= x -> crc_bit (2 * x) = x.
Proof.
  intros Hx. rewrite crc_bit_alt, Z.odd_mul. cbn [Z.odd andb]. rewrite Z.lxor_0_r, Z.shiftr_div_pow2 by lia.
  change (2 ^ 1) with 2. rewrite Z.mul_comm. apply Z.div_mul. lia.
Qed.

Lemma crc_iter_linear n x y :
  Nat.iter n crc_bit (Z.lxor x y) = Z.lxor (Nat.iter n crc_bit x) (Nat.iter n crc_bit y).
Proof. induction n as [|n IH]; [done|]. by rewrite !Nat.iter_succ, IH, crc_bit_linear. Qed.

Lemma crc_iter_range n x : 0 <= x < 2 ^ 32 -> 0 <= Nat.iter n crc_bit x < 2 ^ 32.
Proof. intros Hx. induction n as [|n IH]; [done|]. by apply crc_bit_range. Qed.

Lemma crc_iter_zero n x : 0 <= x < 2 ^ 32 -> Nat.iter n crc_bit x = 0 -> x = 0.
Proof.
  intros Hx. induction n as [|n IH]; [done|]. cbn. intros E%crc_bit_zero; [auto|]. by apply crc_iter_range.
Qed.

Lemma crc_iter_shift n x : 0 <= x -> Nat.iter n crc_bit (2 ^ Z.of_nat n * x) = x.
Proof.
  intros Hx. revert x Hx. induction n as [|n IH]; intros x Hx.
  - cbn [Nat.iter nat_rect]. change (2 ^ Z.of_nat 0) with 1. lia.
  - rewrite Nat.iter_succ_r.
    replace (2 ^ Z.of_nat (S n) * x) with (2 * (2 ^ Z.of_nat n * x))
      by (rewrite Nat2Z.inj_succ, Z.pow_succ_r by lia; lia).
    rewrite crc_bit_double by (apply Z.mul_nonneg_nonneg; [apply Z.pow_nonneg|]; lia). by apply IH.
Qed.

Lemma le_val_nonneg l : Forall is_byte l -> 0 <= le_val l < 256 ^ Z.of_nat (length l).
Proof.
  induction 1 as [|b l Hb _ IH]; [done|]. cbn [le_val foldr length]. fold (le_val l).
  rewrite Nat2Z.inj_succ, Z.pow_succ_r by lia. unfold is_byte in Hb. lia.
Qed.

(** As a lemma for any [f], so that the kernel does not unfold the register. *)
Lemma fold_left_cons {A B} (f : A -> B -> A) (b : B) l a : fold_left f (b :: l) a = fold_left f l (f a b).
Proof. reflexivity. Qed.

Lemma crc_byte_eq s b : crc_byte s b = Nat.iter 8 crc_bit (Z.lxor s b).
Proof. reflexivity. Qed.

Lemma crc_byte_linear s s' b b' :
  Z.lxor (crc_byte s b) (crc_byte s' b') = crc_byte (Z.lxor s s') (Z.lxor b b').
Proof.
  rewrite !crc_byte_eq, <- crc_iter_linear.
  assert (Z.lxor (Z.lxor s b) (Z.lxor s' b') = Z.lxor (Z.lxor s s') (Z.lxor b b')) as ->; [|reflexivity].
  rewrite !Z.lxor_assoc. f_equal. rewrite <- !Z.lxor_assoc. f_equal. apply Z.lxor_comm.
Qed.

Lemma crc_byte_range s b : 0 <= s < 2 ^ 32 -> is_byte b -> 0 <= crc_byte s b < 2 ^ 32.
Proof.
  intros Hs Hb. rewrite crc_byte_eq. apply crc_iter_range. apply Z_lxor_range; [lia|done|].
  unfold is_byte in Hb. lia.
Qed.

(** Feeding bytes into the register is shifting their little-endian value
    in. *)
Lemma crc_fold_le_val l s :
  Forall is_byte l -> fold_left crc_byte l s = Nat.iter (8 * length l) crc_bit (Z.lxor s (le_val l)).
Proof.
  intros Hl. revert s. induction Hl as [|b l Hb Hl IH]; intros s.
  - cbn. by rewrite Z.lxor_0_r.
  - rewrite fold_left_cons, IH. cbn [length]. replace (8 * S (length l))%nat with (8 * length l + 8)%nat by lia.
    rewrite Nat.iter_add, crc_byte_eq.
    pose proof (le_val_nonneg l Hl) as [Hv _].
    rewrite <- (crc_iter_shift 8 (le_val l)) at 1 by done. rewrite <- crc_iter_linear.
    cbn [le_val foldr]. fold (le_val l). rewrite Z.lxor_assoc.
    assert (Z.lxor b (2 ^ Z.of_nat 8 * le_val l) = b + 256 * le_val l) as ->; [|reflexivity].
    symmetry.
    change (2 ^ Z.of_nat 8) with 256. rewrite Z.add_nocarry_lxor; [done|].
    apply Z.bits_inj'. intros i Hi. rewrite Z.land_spec, Z.bits_0. change 256 with (2 ^ 8).
    destruct (decide (i < 8)).
    + by rewrite Z.mul_comm, Z.mul_pow2_bits_low, andb_false_r by lia.
    + unfold is_byte in Hb. destruct (decide (b = 0)) as [->|]; [by rewrite Z.bits_0|].
      assert (Z.testbit b i = false) as ->; [|done].
      apply Z.bits_above_log2; [lia|]. apply Z.log2_lt_pow2; [lia|].
      apply Z.lt_le_trans with (2 ^ 8); [lia|]. apply Z.pow_le_mono_r; lia.
Qed.

(** Two runs over different bytes from different registers. *)
Lemma crc_fold_linear l l' s s' :
  length l = length l' ->
  Z.lxor (fold_left crc_byte l s) (fold_left crc_byte l' s')
  = fold_left crc_byte (zip_with Z.lxor l l') (Z.lxor s s').
Proof.
  revert l' s s'. induction l as [|b l IH]; intros [|b' l'] s s' Hl; try done.
  cbn [zip_with]. rewrite !fold_left_cons, IH by (by injection Hl). by rewrite crc_byte_linear.
Qed.

Lemma crc_fold_zeros n s : fold_left crc_byte (replicate n 0) s = Nat.iter (8 * n) crc_bit s.
Proof.
  rewrite crc_fold_le_val, length_replicate.
  - f_equal. assert (le_val (replicate n 0) = 0) as ->; [|apply Z.lxor_0_r].
    induction n as [|n IH]; [done|]. cbn [replicate le_val foldr] in *. unfold le_val in IH. by rewrite IH.
  - apply Forall_replicate. done.
Qed.

Lemma zip_with_lxor_same l : zip_with Z.lxor l l = replicate (length l) 0.
Proof. induction l as [|b l IH]; [done|]. cbn. by rewrite Z.lxor_nilpotent, IH. Qed.

Lemma le_val_zero l : Forall is_byte l -> le_val l = 0 -> l = replicate (length l) 0.
Proof.
  induction 1 as [|b l Hb Hl IH]; [done|]. cbn [le_val foldr length replicate]. fold (le_val l).
  pose proof (le_val_nonneg l Hl). unfold is_byte in Hb. intros E.
  rewrite <- IH by lia. f_equal. lia.
Qed.

Lemma zip_with_lxor_zero l l' :
  length l = length l' -> zip_with Z.lxor l l' = replicate (length l) 0 -> l = l'.
Proof.
  revert l'. induction l as [|b l IH]; intros [|b' l'] Hl E; try done.
  cbn in *. injection E as E1 E2. apply Z.lxor_eq in E1 as ->. f_equal. apply IH; [lia|done].
Qed.

Lemma zip_with_lxor_bytes l l' : Forall is_byte l -> Forall is_byte l' -> Forall is_byte (zip_with Z.lxor l l').
Proof.
  intros Hl. revert l'. induction Hl as [|b l Hb Hl IH]; intros l' Hl'; [done|].
  destruct Hl' as [|b' l' Hb' Hl']; [done|]. cbn. constructor; [|by apply IH].
  apply (Z_lxor_range b b' 8); [lia|done..].
Qed.

Lemma crc_fold_range l s : Forall is_byte l -> 0 <= s < 2 ^ 32 -> 0 <= fold_left crc_byte l s < 2 ^ 32.
Proof.
  intros Hl. revert s. induction Hl as [|b l Hb Hl IH]; intros s Hs; [done|].
  rewrite fold_left_cons. apply IH. by apply crc_byte_range.
Qed.

(** The checksum detects every error burst of up to four bytes: buffers of
    bytes that differ only in such a window have different checksums. *)
Theorem gpt_calc_crc32_detects_burst (pre d d' post : list Z) :
  Forall is_byte pre -> Forall is_byte d -> Forall is_byte d' -> Forall is_byte post ->
  length d = length d' -> (length d <= 4)%nat -> d <> d' ->
  gpt_calc_crc32 (pre ++ d ++ post) <> gpt_calc_crc32 (pre ++ d' ++ post).
Proof.
  intros Hpre Hd Hd' Hpost Hlen H4 Hne E.
  set (r := fold_left crc_byte pre 0xFFFFFFFF).
  assert (0 <= r < 2 ^ 32) as Hr by (by apply crc_fold_range).
  assert (fold_left crc_byte (d ++ post) r = fold_left crc_byte (d' ++ post) r) as E'.
  { pose proof (crc_fold_range (d ++ post) r ltac:(by apply Forall_app) Hr).
    pose proof (crc_fold_range (d' ++ post) r ltac:(by apply Forall_app) Hr).
    unfold gpt_calc_crc32 in E. rewrite !(fold_left_app _ pre) in E. fold r in E.
    unfold Z.lnot in E. uint_lia. }
  apply Z.lxor_eq_0_iff in E'.
  rewrite crc_fold_linear, Z.lxor_nilpotent, zip_with_app, zip_with_lxor_same in E' by (rewrite ?length_app; lia).
  rewrite fold_left_app, crc_fold_zeros in E'.
  pose proof (zip_with_lxor_bytes d d' Hd Hd') as Hb.
  apply crc_iter_zero in E'; [|apply crc_fold_range; [done|lia]].
  rewrite crc_fold_le_val, Z.lxor_0_l in E' by done.
  pose proof (le_val_nonneg _ Hb) as Hv. rewrite length_zip_with_l_eq in * by done.
  apply crc_iter_zero in E'.
  - apply Hne. apply zip_with_lxor_zero; [done|]. apply le_val_zero in E'; [|done].
    by rewrite length_zip_with_l_eq in E' by done.
  - split; [lia|]. eapply Z.lt_le_trans; [apply Hv|]. change (2 ^ 32) with (256 ^ 4).
    apply Z.pow_le_mono_r; lia.
Qed.

Lemma gpt_calc_crc32_detects_burst_witness :
  gpt_calc_crc32 [69; 70; 73; 32; 80; 65] <> gpt_calc_crc32 [69; 255; 0; 32; 81; 65].
Proof.
  apply (gpt_calc_crc32_detects_burst [69] [70; 73; 32; 80] [255; 0; 32; 81] [65]);
    try (repeat constructor; unfold is_byte; lia); discriminate.
Defined.

(** ** Block numbers stay in the partition, unless they wrap *)

Definition client_wf (c : client_t) : Prop := is_u32 (cl_start_sector c) /\ is_u32 (cl_sectors c).

Lemma get_drv_block_number_spec (cls : list client_t) (i : nat) (c : client_t) (block count : Z) :
  cls !! i = Some c -> client_wf c -> 0 <= block -> 0 <= count ->
  block + cl_start_sector c / 8 + count < 2 ^ 64 ->
  get_drv_block_number cls block count (Z.of_nat i)
  = Ok (if block + count <=? cl_sectors c / 8 then (BLK_RESP_OK, block + cl_start_sector c / 8)
        else (BLK_RESP_ERR_INVALID_PARAM, 0)).
Proof.
  intros Hc [Hs Hn] Hb Hcnt Hov. unfold get_drv_block_number.
  rewrite (load_nat _ _ _ Hc). unfold mbind, res_bind.
  change (BLK_TRANSFER_SIZE / MSDOS_MBR_SECTOR_SIZE) with 8.
  pose proof (Z.div_pos (cl_start_sector c) 8). pose proof (Z.div_pos (cl_sectors c) 8).
  unfold is_u32 in *.
  assert (cl_start_sector c / 8 < 2 ^ 32) by (apply Z.div_lt_upper_bound; lia).
  assert (cl_sectors c / 8 < 2 ^ 32) by (apply Z.div_lt_upper_bound; lia).
  rewrite !u64_small by (unfold is_u64; lia).
  rewrite (proj2 (Z.ltb_ge _ _)) by lia. cbn [orb].
  destruct (Z.leb_spec (block + count) (cl_sectors c / 8)).
  - by rewrite (proj2 (Z.ltb_ge _ _)) by lia.
  - by rewrite (proj2 (Z.ltb_lt _ _)) by lia.
Qed.

(** The [count] blocks from [b] on lie in the partition, whose bounds are
    sectors, eight to a block. *)
Definition in_partition (c : client_t) (b count : Z) : Prop :=
  cl_start_sector c <= 8 * b /\ 8 * (b + count) <= cl_start_sector c + cl_sectors c.

(** C34. As long as the sums do not wrap at 64 bits: a range of blocks is accepted
    iff it ends inside the partition, whose length is rounded down to blocks, and
    is then shifted by the start of the partition, which is rounded down too.
    The sectors of a range accepted never go beyond the end of the partition;
    they lie in the partition, unless it begins in the middle of a block and the
    range with its block 0, which then begins up to seven sectors before it.
    (The function that assigns MBR partitions refuses such a start, the one for
    GPT partitions does not.) *)
Theorem get_drv_block_number_in_partition (cls : list client_t) (i : nat) (c : client_t) (block count : Z) :
  cls !! i = Some c -> client_wf c -> 0 <= block -> 0 <= count ->
  block + cl_start_sector c / 8 + count < 2 ^ 64 ->
  if block + count <=? cl_sectors c / 8 then
    exists b, get_drv_block_number cls block count (Z.of_nat i) = Ok (BLK_RESP_OK, b) /\
      b = block + cl_start_sector c / 8 /\
      cl_start_sector c - cl_start_sector c mod 8 <= 8 * b /\ 8 * (b + count) <= cl_start_sector c + cl_sectors c /\
      (in_partition c b count <-> cl_start_sector c mod 8 = 0 \/ 0 < block)
  else get_drv_block_number cls block count (Z.of_nat i) = Ok (BLK_RESP_ERR_INVALID_PARAM, 0).
Proof.
  intros Hc Hwf Hb Hcnt Hov. rewrite (get_drv_block_number_spec cls i c) by done.
  destruct (Z.leb_spec (block + count) (cl_sectors c / 8)); [|done].
  eexists. split_and!; [done..| | |]; unfold in_partition; clear Hov; Z.div_mod_to_equations; lia.
Qed.

Lemma get_drv_block_number_in_partition_witness :
  get_drv_block_number [mk_client 0 0; mk_client 2048 100] 10 2 1 = Ok (BLK_RESP_OK, 266) /\
  in_partition (mk_client 2048 100) 266 2 /\
  get_drv_block_number [mk_client 34 100] 0 2 0 = Ok (BLK_RESP_OK, 4) /\ ~ in_partition (mk_client 34 100) 4 2.
Proof.
  destruct (get_drv_block_number_in_partition [mk_client 0 0; mk_client 2048 100] 1 (mk_client 2048 100) 10 2)
    as (b & E & Hb & _ & _ & Hin); [done|split; split; cbn; lia|lia|lia|reflexivity|].
  destruct (get_drv_block_number_in_partition [mk_client 34 100] 0 (mk_client 34 100) 0 2)
    as (b' & E' & Hb' & _ & _ & Hin'); [done|split; split; cbn; lia|lia|lia|reflexivity|].
  cbn in Hb, Hb'. subst b b'. split; [exact E|]. split; [by apply Hin; left|]. split; [exact E'|].
  intros [H|H]%Hin'; [by vm_compute in H|lia].
Defined.

(** The sum of the block number and the count wraps: to whatever partition a
    client is confined, there is a request for one block that is accepted and
    mapped to the last block number of the device's range, outside of any
    partition of 32-bit sector numbers. *)
Theorem get_drv_block_number_wraps (cls : list client_t) (i : nat) (c : client_t) :
  cls !! i = Some c -> client_wf c ->
  exists block, is_u64 block /\ cl_sectors c / 8 < block /\
    get_drv_block_number cls block 1 (Z.of_nat i) = Ok (BLK_RESP_OK, 2 ^ 64 - 1).
Proof.
  intros Hc [Hs Hn]. exists (2 ^ 64 - 1 - cl_start_sector c / 8). unfold is_u32, is_u64 in *.
  pose proof (Z.div_pos (cl_start_sector c) 8). pose proof (Z.div_pos (cl_sectors c) 8).
  assert (cl_start_sector c / 8 < 2 ^ 32) by (apply Z.div_lt_upper_bound; lia).
  assert (cl_sectors c / 8 < 2 ^ 32) by (apply Z.div_lt_upper_bound; lia).
  split_and!; [lia..|]. unfold get_drv_block_number. rewrite (load_nat _ _ _ Hc). unfold mbind, res_bind.
  change (BLK_TRANSFER_SIZE / MSDOS_MBR_SECTOR_SIZE) with 8.
  replace (2 ^ 64 - 1 - cl_start_sector c / 8 + cl_start_sector c / 8) with (2 ^ 64 - 1) by lia.
  rewrite (u64_small (2 ^ 64 - 1)), (u64_small (_ + _ / 8)) by (unfold is_u64; lia).
  change (u64 (2 ^ 64 - 1 + 1)) with 0.
  by rewrite !(proj2 (Z.ltb_ge _ _)) by lia.
Qed.

Lemma get_drv_block_number_wraps_witness :
  exists block, is_u64 block /\ 12 < block /\
    get_drv_block_number [mk_client 2048 100] block 1 0 = Ok (BLK_RESP_OK, 18446744073709551615).
Proof.
  destruct (get_drv_block_number_wraps [mk_client 2048 100] 0 (mk_client 2048 100)) as (b & Hu & Hb & E);
    [done|split; split; cbn; lia|].
  exists b. split_and!; [apply Hu..|exact Hb|exact E].
Defined.

(** ** Assigning MBR partitions *)

Lemma wp_for_clients (I : list Z -> blk_virt_state -> Prop) (l : list Z)
  (body : Z -> M blk_virt_state bool) s (Q : bool -> blk_virt_state -> Prop) :
  I [] s ->
  (forall pre x post s, l = pre ++ x :: post -> I pre s ->
     wp (body x) s (fun ok s' => if ok then I (pre ++ [x]) s' else Q false s')) ->
  (forall s', I l s' -> Q true s') ->
  wp (for_clients l body) s Q.
Proof.
  intros HI Hbody HQ.
  assert (forall post pre s, l = pre ++ post -> I pre s -> wp (for_clients post body) s Q) as Hgen.
  { induction post as [|x post IH]; intros pre s' -> Hpre; cbn.
    - wp_step. apply HQ. by rewrite app_nil_r.
    - wp_step. eapply wp_mono; [by eapply Hbody|]. intros [] s'' HI'.
      + apply (IH (pre ++ [x])); [|done]. by rewrite <- app_assoc.
      + by wp_step. }
  by apply (Hgen l []).
Qed.

(** A client of partition [p] can be served. *)
Definition mbr_partition_ok (mbr : list Z) (p : Z) : bool :=
  (p <? MSDOS_MBR_MAX_PRIMARY_PARTITIONS)
  && negb (mbr_partition_type mbr p =? MSDOS_MBR_PARTITION_TYPE_EMPTY)
  && (mbr_partition_lba_start mbr p mod 8 =? 0).

(** What a client learns of the device. *)
Definition cli_info_of (drv : blk_storage_info) (sectors : Z) : blk_storage_info :=
  mk_storage_info (si_read_only drv) true (si_sector_size drv) (sectors / 8).

(** [s'] differs from [s] in the clients' partitions and information only. *)
Definition only_clients (s s' : blk_virt_state) : Prop :=
  s' = set_cli_infos (cli_infos s') (set_clients (clients s') s)
  /\ length (clients s') = length (clients s) /\ length (cli_infos s') = length (cli_infos s).

Lemma assign_client_spec (i : nat) start sectors s :
  (i < length (clients s))%nat -> (i < length (cli_infos s))%nat ->
  wp (assign_client (Z.of_nat i) start sectors) s (fun _ s' =>
    s' = set_cli_infos (<[i := cli_info_of (drv_info s) sectors]> (cli_infos s))
           (set_clients (<[i := mk_client start sectors]> (clients s)) s)).
Proof.
  intros Hc Hi. unfold assign_client. repeat wp_step.
  eapply wp_lift; [by apply store_nat|]. repeat wp_step.
  destruct (lookup_lt_is_Some_2 _ _ Hi) as [info Hinfo].
  eapply wp_lift; [by apply load_nat|]. repeat wp_step.
  eapply wp_lift; [by apply store_nat|]. by wp_step.
Qed.

Section mbr_partitions.
Context (config : blk_virt_config) (s0 : blk_virt_state).
Hypothesis Hnum : vc_num_clients config = Z.of_nat (length (vc_clients config)).
Hypothesis Hcls : (length (vc_clients config) <= length (clients s0))%nat.
Hypothesis Hinf : (length (vc_clients config) <= length (cli_infos s0))%nat.
Hypothesis Hpart : Forall (fun c => 0 <= bc_partition c) (vc_clients config).

(** The state of client [i] once it is served. *)
Definition mbr_assigned (s : blk_virt_state) (i : nat) (c : blk_virt_config_client) : Prop :=
  clients s !! i = Some (mk_client (mbr_partition_lba_start (msdos_mbr s0) (bc_partition c))
                           (mbr_partition_sectors (msdos_mbr s0) (bc_partition c))) /\
  cli_infos s !! i = Some (cli_info_of (drv_info s0) (mbr_partition_sectors (msdos_mbr s0) (bc_partition c))).

(** The first [n] clients are served, the others are as before. *)
Definition mbr_progress (n : nat) (s : blk_virt_state) : Prop :=
  only_clients s0 s /\
  (forall i c, (i < n)%nat -> vc_clients config !! i = Some c ->
     mbr_partition_ok (msdos_mbr s0) (bc_partition c) = true /\ mbr_assigned s i c) /\
  (forall i, (n <= i)%nat -> clients s !! i = clients s0 !! i /\ cli_infos s !! i = cli_infos s0 !! i).

Lemma mbr_partition_body_spec (i : nat) (c : blk_virt_config_client) s :
  vc_clients config !! i = Some c -> mbr_progress i s ->
  wp (mbr_partition_body config (Z.of_nat i)) s (fun ok s' =>
    ok = mbr_partition_ok (msdos_mbr s0) (bc_partition c) /\
    if ok then mbr_progress (S i) s' else mbr_progress i s').
Proof using Hcls Hinf Hpart.
  intros Hc Hp. pose proof Hp as ((Es & Hl1 & Hl2) & Hdone & Hrest).
  assert (msdos_mbr s = msdos_mbr s0 /\ drv_info s = drv_info s0) as [Em Ed] by (by rewrite Es).
  apply lookup_lt_Some in Hc as Hlt.
  unfold mbr_partition_body, mbr_partition_ok. wp_step. eapply wp_lift; [by apply load_nat|]. repeat wp_step.
  rewrite Em. change (BLK_TRANSFER_SIZE / MSDOS_MBR_SECTOR_SIZE) with 8.
  rewrite Z.ltb_antisym. destruct (MSDOS_MBR_MAX_PRIMARY_PARTITIONS <=? _) eqn:E1; cbn [negb andb orb].
  { by wp_step. }
  destruct (mbr_partition_type _ _ =? _) eqn:E2; cbn [negb andb orb]; [by wp_step|].
  destruct (mbr_partition_lba_start _ _ mod 8 =? 0) eqn:E3; cbn [negb andb orb]; [|by wp_step].
  wp_step. eapply wp_mono; [apply assign_client_spec; lia|]. intros [] s' ->. wp_step. split; [done|].
  assert (mbr_partition_ok (msdos_mbr s0) (bc_partition c) = true) as Hok.
  { unfold mbr_partition_ok. rewrite Z.ltb_antisym, E1, E2, E3. done. }
  split_and!.
  - split_and!; cbn [clients cli_infos set_cli_infos set_clients]; rewrite ?length_insert; try done.
    by rewrite Es.
  - intros j d Hj Hd. unfold mbr_assigned. cbn [clients cli_infos set_cli_infos set_clients].
    destruct (decide (j = i)) as [->|].
    + rewrite Hc in Hd. injection Hd as <-. rewrite !list_lookup_insert_eq by lia. by rewrite Ed.
    + rewrite !list_lookup_insert_ne by done. apply Hdone; [lia|done].
  - intros j Hj. cbn [clients cli_infos set_cli_infos set_clients].
    rewrite !list_lookup_insert_ne by lia. apply Hrest. lia.
Qed.

Definition mbr_all_ok : bool :=
  (mbr_signature (msdos_mbr s0) =? MSDOS_MBR_SIGNATURE)
  && forallb (fun c => mbr_partition_ok (msdos_mbr s0) (bc_partition c)) (vc_clients config).

Lemma mbr_partitions_init_spec :
  wp (mbr_partitions_init config) s0 (fun ok s' =>
    ok = mbr_all_ok /\ only_clients s0 s' /\
    (forall i c, vc_clients config !! i = Some c ->
       (ok = true -> mbr_assigned s' i c) /\
       (mbr_partition_ok (msdos_mbr s0) (bc_partition c) = false -> cli_infos s' !! i = cli_infos s0 !! i))).
Proof using Hnum Hcls Hinf Hpart.
  unfold mbr_partitions_init, mbr_all_ok. repeat wp_step.
  assert (mbr_progress 0 s0) as H0.
  { split_and!; [by destruct s0|done..|lia|done]. }
  destruct (_ =? MSDOS_MBR_SIGNATURE) eqn:Esig; cbn [negb andb]; last first.
  { wp_step. split_and!; [done|apply H0|]. done. }
  rewrite Hnum. apply (wp_for_clients (fun pre s => mbr_progress (length pre) s)); [done| |].
  - intros pre x post s E Hp. apply lookup_seqZ_prefix in E as [-> Hx].
    destruct (lookup_lt_is_Some_2 (vc_clients config) (length pre)) as [c Hc]; [lia|].
    eapply wp_mono; [by eapply mbr_partition_body_spec|]. intros ok s' [E Hs'].
    destruct ok; [by rewrite length_app, Nat.add_1_r|].
    destruct Hs' as (Ho & Hd & Hr). split_and!; [|done|].
    + symmetry. apply not_true_is_false. rewrite forallb_forall. intros Hall.
      rewrite Hall in E; [done|]. by eapply list_elem_of_In, list_elem_of_lookup_2.
    + intros i d Hi. split; [done|]. intros Hbad.
      destruct (decide (i < length pre)%nat) as [Hlt|]; [|apply Hr; lia].
      destruct (Hd i d Hlt Hi) as [? _]. congruence.
  - intros s' (Ho & Hd & Hr). rewrite length_seqZ, Nat2Z.id in *. split_and!; [|done|].
    + symmetry. apply forallb_forall. intros c [i Hi]%list_elem_of_In%list_elem_of_lookup.
      apply lookup_lt_Some in Hi as ?. by apply (Hd i c).
    + intros i c Hi. apply lookup_lt_Some in Hi as ?. destruct (Hd i c); [done..|]. split; [done|congruence].
Qed.

End mbr_partitions.

Lemma read_mem_ok (config : blk_virt_config) mem (off n : nat) :
  (off + n <= length mem)%nat ->
  read_mem config mem (vc_drv_vaddr config + Z.of_nat off) n = Ok (take n (drop off mem)).
Proof.
  intros H. unfold read_mem. replace (vc_drv_vaddr config + Z.of_nat off - vc_drv_vaddr config) with (Z.of_nat off) by lia.
  rewrite (proj2 (Z.ltb_ge _ _)), (proj2 (Z.ltb_ge _ _)) by lia. by rewrite Nat2Z.id.
Qed.

(** The virtualiser waits for the answer [resp] to its request for sector 0. *)
Record mbr_waiting (config : blk_virt_config) (s : blk_virt_state) (fl : list Z)
  (resp : blk_resp) (resps : list blk_resp) : Prop := {
  mw_num : vc_num_clients config = Z.of_nat (length (vc_clients config));
  mw_clients : (length (vc_clients config) <= length (clients s))%nat;
  mw_infos : (length (vc_clients config) <= length (cli_infos s))%nat;
  mw_partitions : Forall (fun c => 0 <= bc_partition c) (vc_clients config);
  mw_sent : ms_sent_request (mbr_state s) = true;
  mw_addr : ms_req_addr (mbr_state s) = vc_drv_vaddr config;
  mw_gpt : gs_sent_request (gpt_state s) = false;
  mw_drv : blk_wf (drv_h s);
  mw_resps : blk_resps (drv_h s) = resp :: resps;
  mw_ialloc : ialloc_wf (bv_ialloc s) fl;
  mw_id : ia_offset (bv_ialloc s) <= ms_req_id (mbr_state s) < ia_size (bv_ialloc s) + ia_offset (bv_ialloc s);
  mw_used : ms_req_id (mbr_state s) - ia_offset (bv_ialloc s) ∉ fl;
  mw_mem : (MBR_SIZE <= length (drv_mem s))%nat;
}.

(** The response has been taken and its identifier freed. *)
Definition mbr_answered (s s' : blk_virt_state) (fl : list Z) (resps : list blk_resp) : Prop :=
  blk_wf (drv_h s') /\ blk_resps (drv_h s') = resps /\ blk_reqs (drv_h s') = blk_reqs (drv_h s) /\
  ialloc_wf (bv_ialloc s') (fl ++ [ms_req_id (mbr_state s) - ia_offset (bv_ialloc s)]) /\
  reqsbk s' = reqsbk s /\ client_queues s' = client_queues s /\ blk_events s' = blk_events s.

Lemma mbr_handle_response_spec (config : blk_virt_config) s fl resp resps :
  mbr_waiting config s fl resp resps ->
  mbr_partition_type (take MBR_SIZE (drv_mem s)) 0 <> MSDOS_MBR_PARTITION_TYPE_GPT ->
  wp (mbr_handle_response config) s (fun ok s' =>
    mbr_answered s s' fl resps /\ clients s' = clients s /\ cli_infos s' = cli_infos s /\
    drv_info s' = drv_info s /\
    if ok then bp_status resp = BLK_RESP_OK /\ msdos_mbr s' = take MBR_SIZE (drv_mem s)
    else bp_status resp <> BLK_RESP_OK).
Proof.
  intros [] Htype. unfold mbr_handle_response. repeat wp_step.
  apply wp_assert; [done|]. rewrite blk_queue_empty_resp_spec, mw_resps0 by done. cbn [bool_decide].
  rewrite bool_decide_false by done. wp_step. unfold on_drv_h. wp_step.
  eapply blk_dequeue_resp_spec; [done..|]. intros h' Hh' Hit Hreq _.
  wp_step. unfold on_ialloc. wp_step. cbn [bv_ialloc set_drv_h].
  eapply wp_mono; [by apply (ialloc_free_spec (bv_ialloc s) fl)|].
  intros r ia' (-> & Hia & Ho & Hs). repeat wp_step. apply wp_assert; [done|].
  assert (mbr_answered s (set_ialloc ia' (set_drv_h h' s)) fl resps) as Ha.
  { split_and!; cbn; done. }
  case_bool_decide as Hst; cbn [negb]; [|by wp_step].
  repeat wp_step. rewrite mw_addr0. replace (vc_drv_vaddr config) with (vc_drv_vaddr config + Z.of_nat 0) by lia.
  eapply wp_lift; [apply read_mem_ok; cbn [drv_mem set_ialloc set_drv_h]; lia|].
  repeat wp_step. cbn [drv_mem set_ialloc set_drv_h]. rewrite drop_0.
  rewrite (proj2 (Z.eqb_neq _ _)) by done. by wp_step.
Qed.

(** On the answer to its request for sector 0 the virtualiser frees the
    identifier of the request; if the read succeeded and the sector holds an
    MBR (not the protective one of a GPT), it returns true exactly when the
    signature is right and the partition of every client exists and is
    aligned, and then every client has its partition and sees a ready device of
    the partition's capacity; a client with a bad partition never sees its
    device become ready. *)
Theorem virt_partition_init_mbr (config : blk_virt_config) (s : blk_virt_state) (fl : list Z)
  (resp : blk_resp) (resps : list blk_resp) :
  mbr_waiting config s fl resp resps ->
  let mbr := take MBR_SIZE (drv_mem s) in
  mbr_partition_type mbr 0 <> MSDOS_MBR_PARTITION_TYPE_GPT ->
  wp (virt_partition_init config) s (fun ok s' =>
    mbr_answered s s' fl resps /\
    ok = bool_decide (bp_status resp = BLK_RESP_OK) && mbr_all_ok config (set_msdos_mbr mbr s) /\
    forall i c, vc_clients config !! i = Some c ->
      (ok = true -> mbr_assigned (set_msdos_mbr mbr s) s' i c) /\
      (mbr_partition_ok mbr (bc_partition c) = false -> cli_infos s' !! i = cli_infos s !! i)).
Proof.
  intros Hw mbr Htype. pose proof Hw as []. unfold virt_partition_init. repeat wp_step.
  rewrite mw_sent0, mw_gpt0. cbn [negb]. wp_step.
  eapply wp_mono; [by eapply mbr_handle_response_spec|].
  intros ok s1 (Ha & Ecl & Einf & Edrv & Hok). destruct ok; last first.
  { wp_step. rewrite bool_decide_false by done. split_and!; [done..|]. by rewrite Einf. }
  destruct Hok as [Hst Em].
  eapply wp_mono; [apply mbr_partitions_init_spec; rewrite ?Ecl, ?Einf; done|].
  intros ok s2 (-> & (Es & _) & Hcl). rewrite bool_decide_true by done. cbn [andb].
  split_and!.
  - rewrite Es. exact Ha.
  - unfold mbr_all_ok. cbn [msdos_mbr set_msdos_mbr]. by rewrite Em.
  - intros i c Hc. destruct (Hcl i c Hc) as [Hyes Hno]. split.
    + intros E. unfold mbr_assigned in *. cbn [msdos_mbr set_msdos_mbr drv_info]. rewrite Em, Edrv in *.
      apply Hyes. done.
    + intros Hbad. rewrite <- Einf. apply Hno. by rewrite Em.
Qed.

(** A disk with one partition of 4096 sectors from sector 2048 on. *)
Definition mbr_ex : list Z :=
  replicate 446 0 ++ [0; 0; 0; 0; 131; 0; 0; 0; 0; 8; 0; 0; 0; 16; 0; 0] ++ replicate 48 0 ++ [85; 170].
Definition blk_config_ex : blk_virt_config :=
  mk_blk_config 1 [mk_blk_client 5 2 0x40000000 0x2000000 8192 0] 9 2 0x50000000 0x3000000 8192.
Definition drv_handle_ex (resps : list blk_resp) : blk_queue_handle :=
  mk_blk_handle (mk_blk_req_queue (mk_ring 0 0 (replicate 2 (mk_blk_req BLK_REQ_READ 0 0 0 0))) false)
    (mk_ring (Z.of_nat (length resps)) 0 (resps ++ replicate (2 - length resps) (mk_blk_resp BLK_RESP_OK 0 0))) 2.

Lemma drv_handle_ex_wf resps :
  (length resps <= 2)%nat -> blk_wf (drv_handle_ex resps) /\ blk_resps (drv_handle_ex resps) = resps.
Proof.
  intros H. destruct resps as [|a [|b [|]]]; [..|cbn in H; lia];
    (split; [|done]; split; (split; cbn; [split; cbn; try (done || lia); by exists 2147483648|done])).
Qed.

Definition blk_state_ex : blk_virt_state :=
  mk_blk_state (drv_handle_ex [mk_blk_resp BLK_RESP_OK 1 0]) [] [] ialloc_ex [mk_client 0 0] []
    (mk_mbr_state true 0x3000000 0) (mk_gpt_meta 0 0 0 0 0) (mk_gpt_state false 0 0 0 0 0 0 false false)
    false mbr_ex (mk_storage_info true true 512 1000) [mk_storage_info false false 0 0] [].

Lemma mbr_waiting_ex : mbr_waiting blk_config_ex blk_state_ex [1] (mk_blk_resp BLK_RESP_OK 1 0) [].
Proof.
  destruct (drv_handle_ex_wf [mk_blk_resp BLK_RESP_OK 1 0]) as [Hwf Hr]; [cbn; lia|].
  split; try done; try (cbn; lia).
  - repeat constructor. cbn. lia.
  - apply ialloc_ex_wf.
  - cbn. rewrite list_elem_of_singleton. lia.
Qed.

Lemma virt_partition_init_mbr_witness :
  exists s', virt_partition_init blk_config_ex blk_state_ex = Ok (true, s') /\
    clients s' = [mk_client 2048 4096] /\ cli_infos s' = [mk_storage_info true true 512 512].
Proof.
  pose proof (virt_partition_init_mbr blk_config_ex blk_state_ex [1] _ _ mbr_waiting_ex ltac:(by vm_compute)) as H.
  apply wp_elim in H. destruct H as (ok & s' & E & _ & Hok & _).
  exists s'. replace ok with true in E by (rewrite Hok; by vm_compute). split; [exact E|].
  assert (virt_partition_init blk_config_ex blk_state_ex = Ok (true, s')) as E' by exact E. clear -E'.
  vm_compute in E'. injection E' as <-. split; reflexivity.
Defined.

(** ** The validation of a GPT copy *)

Lemma sddf_strcmp_total (a b : list Z) (k : nat) :
  b !! k = Some 0 -> (k < length a)%nat -> exists r, sddf_strcmp a b = Ok r.
Proof.
  revert a b. induction k as [|k IH]; intros [|x a] [|y b] Hb Hk; cbn in *; try done; try lia.
  - injection Hb as ->. rewrite andb_false_r. cbn. eauto.
  - destruct (_ && _ && _); [|eauto]. apply IH; [done|lia].
Qed.

Lemma le_bytes_val l : Forall is_byte l -> le_bytes (length l) (le_val l) = l.
Proof.
  induction 1 as [|b l Hb Hl IH]; [done|]. cbn [length le_bytes le_val foldr]. fold (le_val l).
  unfold is_byte in Hb. f_equal.
  - rewrite Z.mul_comm, Z.mod_add by lia. by apply Z.mod_small.
  - rewrite Z.mul_comm, Z.div_add, (Z.div_small b) by lia. exact IH.
Qed.

Lemma length_le_bytes n x : length (le_bytes n x) = n.
Proof. revert x. induction n as [|n IH]; intros x; [done|]. cbn. by rewrite IH. Qed.

(** The header at offset [off] of the region has the signature and the right
    checksum; the table of [size] bytes at [tab] has the checksum the header
    says. *)
Definition gpt_header_valid (mem : list Z) (off : nat) : bool :=
  bool_decide (sddf_strcmp (drop off mem) GPT_HEADER_SIGNATURE = Ok 0)
  && (gpt_calc_crc32 (take 92 (drop off (splice mem (off + 16) [0; 0; 0; 0])))
      =? le_val (take 4 (drop (off + 16) mem))).
Definition gpt_table_valid (mem : list Z) (off tab size : nat) : bool :=
  gpt_calc_crc32 (take size (drop tab mem)) =? le_val (take 4 (drop (off + 88) mem)).

Lemma write_mem_ok (config : blk_virt_config) mem (off : nat) bytes :
  (off + length bytes <= length mem)%nat ->
  write_mem config mem (vc_drv_vaddr config + Z.of_nat off) bytes = Ok (splice mem off bytes).
Proof.
  intros H. unfold write_mem. replace (vc_drv_vaddr config + Z.of_nat off - vc_drv_vaddr config) with (Z.of_nat off) by lia.
  rewrite (proj2 (Z.ltb_ge _ _)), (proj2 (Z.ltb_ge _ _)) by lia. by rewrite Nat2Z.id.
Qed.

Lemma splice_splice {A} (l : list A) off xs ys :
  length xs = length ys -> (off + length xs <= length l)%nat -> splice (splice l off xs) off ys = splice l off ys.
Proof.
  intros E H. apply list_eq. intros i.
  rewrite !splice_lookup by (rewrite ?length_splice; lia). by repeat case_decide; try lia.
Qed.

Lemma splice_same {A} (l : list A) off n : (off + n <= length l)%nat -> splice l off (take n (drop off l)) = l.
Proof.
  intros H. apply list_eq. intros i.
  assert (length (take n (drop off l)) = n) as Hl by (rewrite length_take, length_drop; lia).
  rewrite splice_lookup, Hl by lia. case_decide; [|done].
  rewrite lookup_take_lt, lookup_drop by lia. f_equal. lia.
Qed.

Section gpt.
Context (config : blk_virt_config).

Lemma rd_spec n (off : nat) s (Q : Z -> blk_virt_state -> Prop) :
  (off + n <= length (drv_mem s))%nat -> Q (le_val (take n (drop off (drv_mem s)))) s ->
  wp (rd config n (vc_drv_vaddr config + Z.of_nat off)) s Q.
Proof.
  intros H HQ. unfold rd. repeat wp_step. eapply wp_lift; [by apply read_mem_ok|]. by wp_step.
Qed.

Lemma wr_spec n (off : nat) x s (Q : unit -> blk_virt_state -> Prop) :
  (off + n <= length (drv_mem s))%nat ->
  Q tt (set_drv_mem (splice (drv_mem s) off (le_bytes n x)) s) ->
  wp (wr config n (vc_drv_vaddr config + Z.of_nat off) x) s Q.
Proof.
  intros H HQ. unfold wr. repeat wp_step. eapply wp_lift.
  - apply write_mem_ok. by rewrite length_le_bytes.
  - by wp_step.
Qed.

Lemma crc_mem_spec (off size : nat) s (Q : Z -> blk_virt_state -> Prop) :
  (off + size <= length (drv_mem s))%nat ->
  Q (gpt_calc_crc32 (take size (drop off (drv_mem s)))) s ->
  wp (crc_mem config (vc_drv_vaddr config + Z.of_nat off) (Z.of_nat size)) s Q.
Proof.
  intros H HQ. unfold crc_mem. repeat wp_step. rewrite Nat2Z.id.
  eapply wp_lift; [by apply read_mem_ok|]. by wp_step.
Qed.

(** The check of a header decides its validity, and puts a valid one back as
    it was. *)
Lemma gpt_check_header_spec (off : nat) s :
  (off + 92 <= length (drv_mem s))%nat -> Forall is_byte (drv_mem s) ->
  wp (gpt_check_header config (vc_drv_vaddr config + Z.of_nat off)) s (fun ok s' =>
    ok = gpt_header_valid (drv_mem s) off /\
    s' = set_drv_mem (drv_mem s') s /\ (ok = true -> s' = s)).
Proof.
  intros Hlen Hb. unfold gpt_check_header, gpt_header_valid. repeat wp_step.
  unfold gh_signature, gh_crc32_header. rewrite Z.add_0_r.
  eapply wp_lift.
  { unfold read_from. replace (_ + _ - _) with (Z.of_nat off) by lia.
    by rewrite (proj2 (Z.ltb_ge _ _)), Nat2Z.id by lia. }
  destruct (sddf_strcmp_total (drop off (drv_mem s)) GPT_HEADER_SIGNATURE 8) as [r Hr];
    [done|rewrite length_drop; lia|].
  wp_step. eapply wp_lift; [done|]. rewrite Hr.
  destruct (Z.eqb_spec r 0) as [->|Hne]; cbn [negb]; last first.
  { rewrite bool_decide_false by (by intros [= ->]). wp_step. split_and!; [done|by destruct s|done]. }
  rewrite bool_decide_true by done. cbn [andb].
  replace (vc_drv_vaddr config + Z.of_nat off + 16) with (vc_drv_vaddr config + Z.of_nat (off + 16)) by lia.
  wp_step. apply rd_spec; [lia|]. wp_step. apply wr_spec; [lia|].
  wp_step. change 0x5C with (Z.of_nat 92). cbn [le_bytes].
  change (0 mod 256) with 0. change (0 / 256) with 0.
  apply crc_mem_spec; cbn [drv_mem set_drv_mem].
  { rewrite length_splice; cbn; lia. }
  destruct (_ =? _) eqn:E; cbn [negb]; [|by wp_step].
  wp_step. apply wr_spec; cbn [drv_mem set_drv_mem].
  { rewrite length_splice; cbn; lia. }
  wp_step. split_and!; [done|done|]. intros _.
  set (b := take 4 (drop (off + 16) (drv_mem s))).
  assert (length b = 4%nat) as Hl by (unfold b; rewrite length_take, length_drop; lia).
  assert (le_bytes 4 (le_val b) = b) as ->.
  { rewrite <- Hl. apply le_bytes_val. by apply Forall_take, Forall_drop. }
  rewrite splice_splice by (rewrite ?Hl; cbn; lia). unfold b. rewrite splice_same by lia. by destruct s.
Qed.

Lemma gpt_check_table_spec (off tab size : nat) s (Q : bool -> blk_virt_state -> Prop) :
  (off + 92 <= length (drv_mem s))%nat -> (tab + size <= length (drv_mem s))%nat ->
  Q (gpt_table_valid (drv_mem s) off tab size) s ->
  wp (gpt_check_table config (vc_drv_vaddr config + Z.of_nat off) (vc_drv_vaddr config + Z.of_nat tab)
        (Z.of_nat size)) s Q.
Proof.
  intros H1 H2 HQ. unfold gpt_check_table, gh_crc32_entry_array. wp_step. apply crc_mem_spec; [done|].
  wp_step. rewrite <- Z.add_assoc. change 88 with (Z.of_nat 88). rewrite <- Nat2Z.inj_add.
  apply rd_spec; [lia|]. by wp_step.
Qed.

(** The answer [resp] to the request for the first copy of the table, whose
    header and entries are at [hdr] and [tab] of the region. *)
Record gpt_waiting (s : blk_virt_state) (fl : list Z) (resp : blk_resp) (resps : list blk_resp)
  (hdr tab size : nat) : Prop := {
  gw_drv : blk_wf (drv_h s);
  gw_resps : blk_resps (drv_h s) = resp :: resps;
  gw_ialloc : ialloc_wf (bv_ialloc s) fl;
  gw_id : ia_offset (bv_ialloc s) <= bp_id resp < ia_size (bv_ialloc s) + ia_offset (bv_ialloc s);
  gw_used : bp_id resp - ia_offset (bv_ialloc s) ∉ fl;
  gw_header : gm_header (gpt_meta s) = vc_drv_vaddr config + Z.of_nat hdr;
  gw_table : gm_table (gpt_meta s) = vc_drv_vaddr config + Z.of_nat tab;
  gw_size : gm_table_size (gpt_meta s) = Z.of_nat size;
  gw_bytes : Forall is_byte (drv_mem s);
  gw_hdr_in : (hdr + 92 <= length (drv_mem s))%nat;
  gw_tab_in : (tab + size <= length (drv_mem s))%nat;
}.

(** The first copy of a GPT is accepted exactly when the read succeeded, its
    header has the signature and its own checksum, and the entries have the
    checksum of the header; only then is it marked as ready, and then the
    region is as the driver left it. *)
Theorem gpt_validate_response_primary (s : blk_virt_state) (fl : list Z) (resp : blk_resp)
  (resps : list blk_resp) (hdr tab size : nat) :
  gpt_waiting s fl resp resps hdr tab size ->
  bp_id resp = gs_req_id (gpt_state s) ->
  wp (gpt_validate_response config) s (fun ok s' =>
    ok = bool_decide (bp_status resp = BLK_RESP_OK) && gpt_header_valid (drv_mem s) hdr
         && gpt_table_valid (drv_mem s) hdr tab size /\
    blk_resps (drv_h s') = resps /\
    ialloc_wf (bv_ialloc s') (fl ++ [bp_id resp - ia_offset (bv_ialloc s)]) /\
    (if ok then drv_mem s' = drv_mem s /\ gs_partition_table_ready (gpt_state s') = true
     else gpt_state s' = gpt_state s)).
Proof.
  intros [] Hid. unfold gpt_validate_response. wp_step. unfold on_drv_h. wp_step.
  eapply blk_dequeue_resp_spec; [done..|]. intros h' Hh' Hit _ _.
  wp_step. unfold on_ialloc. wp_step. cbn [bv_ialloc set_drv_h].
  eapply wp_mono; [by apply (ialloc_free_spec (bv_ialloc s) fl)|].
  intros r ia' (-> & Hia & _ & _). wp_step. apply wp_assert; [done|].
  case_bool_decide as Hst; cbn [negb andb]; [|by wp_step].
  repeat wp_step. cbn [gpt_state gpt_meta set_ialloc set_drv_h]. rewrite (proj2 (Z.eqb_eq _ _) Hid), gw_header0.
  wp_step. eapply wp_mono; [by apply gpt_check_header_spec|]. cbn [drv_mem set_ialloc set_drv_h].
  intros ok s1 (-> & Es1 & Hs1). destruct (gpt_header_valid _ _); cbn [negb andb]; last first.
  { wp_step. by rewrite Es1. }
  rewrite Hs1 by done. wp_step. rewrite gw_table0, gw_size0.
  apply gpt_check_table_spec; [done..|]. cbn [drv_mem set_ialloc set_drv_h].
  destruct (gpt_table_valid _ _ _ _); cbn [negb]; [|by wp_step].
  unfold set_partition_table_ready. repeat wp_step. done.
Qed.

End gpt.

(** A region with a header at 512 and a table of one entry of zeros at 1024. *)
Definition gpt_header_ex : list Z :=
  [69; 70; 73; 32; 80; 65; 82; 84; 0; 0; 1; 0; 92; 0; 0; 0] ++ le_bytes 4 437372367 ++ replicate 60 0
  ++ [1; 0; 0; 0; 128; 0; 0; 0] ++ le_bytes 4 3265854109.
Definition gpt_mem_ex : list Z := replicate 512 0 ++ gpt_header_ex ++ replicate 420 0 ++ replicate 128 0.
Definition gpt_state_ex : blk_virt_state :=
  mk_blk_state (drv_handle_ex [mk_blk_resp BLK_RESP_OK 1 0]) [] [] ialloc_ex [mk_client 0 0] []
    (mk_mbr_state true 0x3000000 0)
    (mk_gpt_meta (0x3000000 + 512) (0x3000000 + 1024) 0 0 128)
    (mk_gpt_state true 0x3001000 0 0 0x3001000 1 1 false false)
    false gpt_mem_ex (mk_storage_info true true 512 1000) [mk_storage_info false false 0 0] [].

Lemma gpt_mem_ex_bytes : Forall is_byte gpt_mem_ex.
Proof.
  assert (forallb (fun b => (0 <=? b) && (b <? 256)) gpt_mem_ex = true) as H by by vm_compute.
  rewrite forallb_forall in H. apply Forall_forall. intros x Hx%list_elem_of_In%H.
  unfold is_byte. lia.
Qed.

Lemma gpt_validate_response_primary_witness :
  exists s', gpt_validate_response blk_config_ex gpt_state_ex = Ok (true, s') /\
    gs_partition_table_ready (gpt_state s') = true.
Proof.
  destruct (drv_handle_ex_wf [mk_blk_resp BLK_RESP_OK 1 0]) as [Hwf Hr]; [cbn; lia|].
  assert (gpt_waiting blk_config_ex gpt_state_ex [1] (mk_blk_resp BLK_RESP_OK 1 0) [] 512 1024 128) as Hw.
  { split; try done; try (cbn; lia).
    - apply ialloc_ex_wf.
    - cbn. rewrite list_elem_of_singleton. lia.
    - apply gpt_mem_ex_bytes. }
  pose proof (gpt_validate_response_primary _ _ _ _ _ _ _ _ Hw eq_refl) as H.
  apply wp_elim in H. destruct H as (ok & s' & E & Hok & _ & _ & Hs'). exists s'.
  assert (ok = true) as -> by (rewrite Hok; by vm_compute).
  split; [exact E|apply Hs'].
Defined.

(** A GPT partition that begins in the middle of a block is assigned (a MBR
    partition is not, [mbr_partition_ok]), and the first block of its client is
    then a block that begins before it. *)
Example gpt_partition_in_block :
  let mem := replicate 1024 0 ++ replicate 32 0 ++ le_bytes 8 34 ++ le_bytes 8 133 ++ replicate 80 0 in
  match gpt_partitions_init blk_config_ex (set_drv_mem mem gpt_state_ex) with
  | Ok (true, s) => clients s = [mk_client 34 100] /\ get_drv_block_number (clients s) 0 1 0 = Ok (BLK_RESP_OK, 4) /\ 8 * 4 < 34
  | _ => False
  end.
Proof. vm_compute. repeat split. Qed.
