(* ===== verification/BlkVirt.v ===== *)
(** * The block virtualiser: blk/components/virt.c

    Requests of the clients are checked, translated to the client's partition
    and region and passed to the driver under an identifier of the index
    allocator; responses find their client through the table of bookkept
    requests. *)

From S2P Require Import Prelude Ring Fifo RingQueue BlkQueue Ialloc Microkit BlkVirtState BlkPartition.

Section handlers.
Context (config : blk_virt_config).

(** The body of the loop of [handle_driver]; the local variable is
    [client_notify]. *)
Definition handle_driver_body : M (blk_virt_state * list bool) unit :=
  r ← on_state (on_drv_h blk_dequeue_resp);
  match r with
  | None => raise AssertFail
  | Some resp =>
    p ← get;
    bk ← lift (load (reqsbk p.1) (bp_id resp));
    err ← on_state (on_ialloc (ialloc_free (bp_id resp)));
    assert_ (err =? 0);;
    match rb_code bk with
    | BLK_REQ_READ | BLK_REQ_WRITE | BLK_REQ_FLUSH | BLK_REQ_BARRIER => mret tt
    | BLK_REQ_OTHER _ => raise AssertFail
    end;;
    err ← on_state (on_cli_h (rb_cli_id bk)
                      (blk_enqueue_resp (bp_status resp) (bp_success_count resp) (rb_cli_req_id bk)));
    assert_ (err =? 0);;
    notify ← lift (store p.2 (rb_cli_id bk) true);
    set_local notify
  end.

Definition drv_resps_more (p : blk_virt_state * list bool) : bool := negb (blk_queue_empty_resp (drv_h p.1)).
Definition drv_resps_length (p : blk_virt_state * list bool) : nat :=
  Z.to_nat (blk_queue_length_resp (drv_h p.1)).

Definition handle_driver : M blk_virt_state unit :=
  r ← with_local (replicate (Z.to_nat SDDF_BLK_MAX_CLIENTS) false)
        (loop drv_resps_length drv_resps_more handle_driver_body);
  let client_notify := (r : unit * list bool).2 in
  for_upto (vc_num_clients config) (fun i =>
    n ← lift (load client_notify i);
    when n (c ← lift (load (vc_clients config) i);
            blk_emit (Notify (bc_id c)))).

(** The switch on the request code in [handle_client]: the status of the
    response to a bad request, or [BLK_RESP_OK] and the driver's block
    number. *)
Definition check_request (cls : list client_t) (client : blk_virt_config_client) (cli_id : Z) (req : blk_req)
  : res (blk_resp_status * Z) :=
  match br_code req with
  | BLK_REQ_READ | BLK_REQ_WRITE =>
    r ← get_drv_block_number cls (br_block_number req) (br_count req) cli_id;
    if negb (bool_decide (r.1 = BLK_RESP_OK)) then mret (r.1, 0)
    else if bc_size client <? u64 (br_io_or_offset req + BLK_TRANSFER_SIZE * br_count req)
    then mret (BLK_RESP_ERR_INVALID_PARAM, 0)
    else if br_count req =? 0 then mret (BLK_RESP_ERR_INVALID_PARAM, 0)
    else if negb (u64 (bc_vaddr client + br_io_or_offset req) mod BLK_TRANSFER_SIZE =? 0)
    then mret (BLK_RESP_ERR_INVALID_PARAM, 0)
    else mret (BLK_RESP_OK, r.2)
  | BLK_REQ_FLUSH | BLK_REQ_BARRIER => mret (BLK_RESP_OK, 0)
  | BLK_REQ_OTHER _ => mret (BLK_RESP_ERR_INVALID_PARAM, 0)
  end.

(** The body of the loop of [handle_client]; the local variables are
    [driver_notify] and [client_notify].  The handle [h] is a copy, but of
    pointers to the queues of the client. *)
Definition handle_client_body (cli_id : Z) (client : blk_virt_config_client)
  : M (blk_virt_state * (bool * bool)) unit :=
  r ← on_state (on_cli_h cli_id blk_dequeue_req);
  match r with
  | None => raise AssertFail
  | Some req =>
    p ← get;
    c ← lift (check_request (clients p.1) client cli_id req);
    let '(status, drv_block_number) := (c : blk_resp_status * Z) in
    if negb (bool_decide (status = BLK_RESP_OK)) then
      err ← on_state (on_cli_h cli_id (blk_enqueue_resp status 0 (br_id req)));
      assert_ (err =? 0);;
      set_local (p.2.1, true)
    else
      id ← on_state (on_ialloc ialloc_alloc);
      match id with
      | None => raise AssertFail
      | Some drv_req_id =>
        bks ← lift (store (reqsbk p.1) drv_req_id
                      (mk_reqbk cli_id (br_id req) (u64 (bc_vaddr client + br_io_or_offset req))
                         (br_count req) (br_code req)));
        on_state (modify (set_reqsbk bks));;
        err ← on_state (on_drv_h (blk_enqueue_req (br_code req) (u64 (bc_io_addr client + br_io_or_offset req))
                                    drv_block_number (br_count req) drv_req_id));
        assert_ (err =? 0);;
        set_local (true, p.2.2)
      end
  end.

Definition handle_client_more (cli_id : Z) (p : blk_virt_state * (bool * bool)) : bool :=
  match client_queues p.1 !! Z.to_nat cli_id with
  | Some h => negb (blk_queue_empty_req h) && negb (blk_queue_full_req (drv_h p.1))
              && negb (ialloc_full (bv_ialloc p.1))
  | None => false
  end.
Definition handle_client_length (cli_id : Z) (p : blk_virt_state * (bool * bool)) : nat :=
  match client_queues p.1 !! Z.to_nat cli_id with
  | Some h => Z.to_nat (blk_queue_length_req h)
  | None => 0
  end.

Definition handle_client (cli_id : Z) : M blk_virt_state bool :=
  client ← lift (load (vc_clients config) cli_id);
  s ← get;
  _ ← lift (load (client_queues s) cli_id);
  r ← with_local (false, false)
        (loop (handle_client_length cli_id) (handle_client_more cli_id) (handle_client_body cli_id client));
  let '(driver_notify, client_notify) := (r : unit * (bool * bool)).2 in
  when client_notify (blk_emit (Notify (bc_id client)));;
  mret driver_notify.

Definition handle_clients : M blk_virt_state unit :=
  r ← with_local false
        (for_upto (vc_num_clients config) (fun i =>
           n ← on_state (handle_client i);
           when n (set_local true)));
  let driver_notify := (r : unit * bool).2 in
  when driver_notify (blk_emit (Notify (vc_drv_id config))).

Definition notified (ch : Z) : M blk_virt_state unit :=
  s ← get;
  when (negb (initialised s))
    (ok ← virt_partition_init config;
     modify (set_initialised ok));;
  if ch =? vc_drv_id config then handle_driver;; handle_clients else handle_clients.

(** [init]: the wait for the driver's storage information to become ready is
    not modelled, the function starts when it is; [idx] is the array
    [ialloc_idxlist]. *)
Definition init (magic : bool) (idx : list Z) : M blk_virt_state unit :=
  assert_ magic;;
  for_upto (vc_num_clients config) (fun i =>
    client ← lift (load (vc_clients config) i);
    on_cli_h i (modify (fun h => blk_queue_init (bh_req_queue h) (bh_resp_queue h) (bc_num_buffers client))));;
  assert_ (vc_drv_num_buffers config <=? DRIVER_MAX_NUM_BUFFERS);;
  on_drv_h (modify (fun h => blk_queue_init (bh_req_queue h) (bh_resp_queue h) (vc_drv_num_buffers config)));;
  ia ← lift (ialloc_init idx DRIVER_MAX_NUM_BUFFERS);
  modify (set_ialloc ia);;
  _ ← virt_partition_init config;
  mret tt.

End handlers.

(** ** What [handle_client] does to the queues *)

(** The requests and responses of the client, the requests of the driver, the
    bookkeeping and the free identifiers. *)
Record serve_state : Type := mk_serve {
  sv_reqs : list blk_req;
  sv_resps : list blk_resp;
  sv_drv : list blk_req;
  sv_bk : list reqbk;
  sv_fl : list Z;
}.

Section serve.
Context (cls : list client_t) (client : blk_virt_config_client) (c : nat).
Context (offset drv_cap : Z).

(** One request; [None] if the client has none, the driver has no room or no
    identifier is free. *)
Definition serve_step (sv : serve_state) : option serve_state :=
  match sv_reqs sv, sv_fl sv with
  | req :: rs, x :: fl =>
    if Z.of_nat (length (sv_drv sv)) =? drv_cap then None else
    match check_request cls client (Z.of_nat c) req with
    | Ok (BLK_RESP_OK, b) =>
      Some (mk_serve rs (sv_resps sv)
        (sv_drv sv ++ [mk_blk_req (br_code req) (u64 (bc_io_addr client + br_io_or_offset req)) b (br_count req)
                         (x + offset)])
        (<[Z.to_nat (x + offset) := mk_reqbk (Z.of_nat c) (br_id req) (u64 (bc_vaddr client + br_io_or_offset req))
                                      (br_count req) (br_code req)]> (sv_bk sv)) fl)
    | Ok (status, _) =>
      Some (mk_serve rs (sv_resps sv ++ [mk_blk_resp status 0 (br_id req)]) (sv_drv sv) (sv_bk sv) (x :: fl))
    | Fault _ => None
    end
  | _, _ => None
  end.

Fixpoint serve (n : nat) (sv : serve_state) : serve_state :=
  match n with
  | O => sv
  | S n' => match serve_step sv with Some sv' => serve n' sv' | None => sv end
  end.

Definition serve_all (sv : serve_state) : serve_state := serve (length (sv_reqs sv)) sv.

Lemma serve_step_reqs sv sv' : serve_step sv = Some sv' -> length (sv_reqs sv) = S (length (sv_reqs sv')).
Proof.
  unfold serve_step. destruct (sv_reqs sv), (sv_fl sv); try done.
  destruct (_ =? _); [done|]. destruct (check_request _ _ _ _) as [[[] b']|]; intros E; by inversion E.
Qed.

Lemma serve_all_step sv sv' : serve_step sv = Some sv' -> serve_all sv = serve_all sv'.
Proof. intros E. unfold serve_all. rewrite (serve_step_reqs _ _ E). cbn [serve]. by rewrite E. Qed.

Lemma serve_all_stop sv : serve_step sv = None -> serve_all sv = sv.
Proof. intros E. unfold serve_all. destruct (length _); [done|]. cbn [serve]. by rewrite E. Qed.

(** Both queues only grow. *)
Lemma serve_step_grows sv sv' :
  serve_step sv = Some sv' ->
  (exists l, sv_resps sv' = sv_resps sv ++ l) /\ (exists l, sv_drv sv' = sv_drv sv ++ l).
Proof.
  unfold serve_step. destruct (sv_reqs sv), (sv_fl sv); try done. destruct (_ =? _); [done|].
  destruct (check_request _ _ _ _) as [[[] b']|]; intros E; inversion E; subst; cbn;
    split; eauto; exists []; by rewrite app_nil_r.
Qed.

Lemma serve_all_resps_grow sv : (length (sv_resps sv) <= length (sv_resps (serve_all sv)))%nat.
Proof.
  unfold serve_all. generalize (length (sv_reqs sv)). intros n. revert sv.
  induction n as [|n IH]; intros sv; cbn [serve]; [done|].
  destruct (serve_step sv) as [sv'|] eqn:E; [|done].
  destruct (serve_step_grows _ _ E) as [[l E'] _]. specialize (IH sv').
  rewrite E', length_app in IH. lia.
Qed.

End serve.

(** A client of which partition and queues exist can be checked without a
    fault. *)
Lemma check_request_total cls client (c : nat) cl req :
  cls !! c = Some cl -> exists r, check_request cls client (Z.of_nat c) req = Ok r.
Proof.
  intros Hc. unfold check_request.
  destruct (br_code req); try (by eexists);
    (unfold get_drv_block_number; rewrite (load_nat _ _ _ Hc); unfold mbind, res_bind, mret, res_ret; cbn zeta;
     repeat (case_match; try by eexists); simplify_eq; eauto).
Qed.

Lemma blk_state_eta s :
  set_client_queues (client_queues s) (set_drv_h (drv_h s) (set_reqsbk (reqsbk s) (set_ialloc (bv_ialloc s) s))) = s.
Proof. by destruct s. Qed.

Section handle_client.
Context (config : blk_virt_config) (s0 : blk_virt_state) (c : nat).
Context (client : blk_virt_config_client) (q0 : blk_queue_handle) (cl : client_t) (fl : list Z).
Context (Hclient : vc_clients config !! c = Some client).
Context (Hq : client_queues s0 !! c = Some q0).
Context (Hcl : clients s0 !! c = Some cl).
Context (Hqwf : blk_wf q0) (Hdwf : blk_wf (drv_h s0)).
Context (Hia : ialloc_wf (bv_ialloc s0) fl).
Context (Hbk : ia_size (bv_ialloc s0) + ia_offset (bv_ialloc s0) <= Z.of_nat (length (reqsbk s0))).

Definition serve_start : serve_state :=
  mk_serve (blk_reqs q0) (blk_resps q0) (blk_reqs (drv_h s0)) (reqsbk s0) fl.

#[local] Abbreviation step := (serve_step (clients s0) client c (ia_offset (bv_ialloc s0)) (bh_capacity (drv_h s0))).
#[local] Abbreviation all := (serve_all (clients s0) client c (ia_offset (bv_ialloc s0)) (bh_capacity (drv_h s0))).

(** No response is refused for lack of room. *)
Context (Hroom : Z.of_nat (length (sv_resps (all serve_start))) <= bh_capacity q0).

(** The state that corresponds to [sv]: only the two queues, the bookkeeping
    and the allocator have changed. *)
Definition serving (sv : serve_state) (s : blk_virt_state) : Prop :=
  exists dh ch ia,
    s = set_client_queues (<[c := ch]> (client_queues s0))
          (set_drv_h dh (set_reqsbk (sv_bk sv) (set_ialloc ia s0))) /\
    blk_wf dh /\ blk_reqs dh = sv_drv sv /\ blk_resps dh = blk_resps (drv_h s0) /\
    bh_capacity dh = bh_capacity (drv_h s0) /\
    blk_wf ch /\ blk_reqs ch = sv_reqs sv /\ blk_resps ch = sv_resps sv /\ bh_capacity ch = bh_capacity q0 /\
    ialloc_wf ia (sv_fl sv) /\ ia_offset ia = ia_offset (bv_ialloc s0) /\ ia_size ia = ia_size (bv_ialloc s0) /\
    length (sv_bk sv) = length (reqsbk s0).

Definition grown {A} (l l' : list A) : bool := bool_decide (length l < length l')%nat.

Definition serving_inv (p : blk_virt_state * (bool * bool)) : Prop :=
  exists sv, all sv = all serve_start /\ serving sv p.1 /\
    p.2 = (grown (blk_reqs (drv_h s0)) (sv_drv sv), grown (blk_resps q0) (sv_resps sv)) /\
    (length (blk_reqs (drv_h s0)) <= length (sv_drv sv))%nat /\
    (length (blk_resps q0) <= length (sv_resps sv))%nat.

Lemma serving_start : serving serve_start s0.
Proof using Hq Hqwf Hdwf Hia.
  exists (drv_h s0), q0, (bv_ialloc s0). split_and!; try done.
  rewrite list_insert_id by done. symmetry. apply blk_state_eta.
Qed.

(** The condition of the loop is false exactly when [serve_step] stops. *)
Lemma handle_client_more_spec sv s loc :
  serving sv s ->
  handle_client_more (Z.of_nat c) (s, loc) = bool_decide (is_Some (step sv)).
Proof using Hq Hcl.
  intros (dh & ch & ia & -> & Hd & Hdr & _ & Hdc & Hc & Hcr & _ & _ & Hiaw & _).
  unfold handle_client_more. cbn [fst client_queues set_client_queues drv_h set_drv_h bv_ialloc set_ialloc set_reqsbk].
  rewrite Nat2Z.id, list_lookup_insert_eq by (by eapply lookup_lt_Some).
  rewrite blk_queue_empty_req_spec, blk_queue_full_req_spec, Hdr, Hdc, Hcr by done.
  unfold serve_step. destruct (sv_reqs sv) as [|req rs]; [done|].
  destruct (sv_fl sv) as [|x fl'] eqn:Hfl.
  { rewrite (proj2 (ialloc_full_spec ia [] ltac:(done))) by done. by rewrite andb_false_r. }
  assert (ialloc_full ia = false) as ->.
  { apply not_true_is_false. intros F. by apply (ialloc_full_spec ia (x :: fl')) in F. }
  rewrite bool_decide_false by done. cbn [negb andb]. rewrite andb_true_r.
  destruct (_ =? _); [done|]. cbn [negb].
  destruct (check_request_total (clients s0) client c cl req Hcl) as [[st b] ->].
  destruct st; done.
Qed.

(** One iteration of the loop is one [serve_step]. *)
Lemma handle_client_body_spec sv sv' s loc :
  serving sv s -> step sv = Some sv' -> all sv = all serve_start ->
  wp (handle_client_body (Z.of_nat c) client) (s, loc) (fun _ p =>
    serving sv' p.1 /\
    p.2 = (if bool_decide (length (sv_drv sv) < length (sv_drv sv'))%nat then true else loc.1,
           if bool_decide (length (sv_resps sv) < length (sv_resps sv'))%nat then true else loc.2)).
Proof using Hq Hcl Hbk Hroom.
  intros (dh & ch & ia & -> & Hd & Hdr & Hdp & Hdc & Hc & Hcr & Hcp & Hcc & Hiaw & Hio & His & Hbl) Hstep Hall.
  assert (all sv = all sv') as Hall' by by apply serve_all_step.
  unfold serve_step in Hstep. destruct (sv_reqs sv) as [|req rs] eqn:Ers; [done|].
  destruct (sv_fl sv) as [|x fl'] eqn:Efl; [done|].
  destruct (Z.eqb_spec (Z.of_nat (length (sv_drv sv))) (bh_capacity (drv_h s0))) as [|Hfree]; [done|].
  unfold handle_client_body. wp_step. wp_step. unfold on_cli_h.
  eapply wp_zoom_nth; [lia| |].
  { cbn [client_queues set_client_queues]. rewrite Nat2Z.id. apply list_lookup_insert_eq. by eapply lookup_lt_Some. }
  eapply blk_dequeue_req_spec; [done..|]. intros ch' Hc' Hcr' Hcp' Hcc'.
  cbn [client_queues set_client_queues]. rewrite Nat2Z.id, list_insert_insert_eq.
  repeat wp_step. cbn [fst snd clients set_client_queues set_drv_h set_reqsbk set_ialloc].
  destruct (check_request (clients s0) client (Z.of_nat c) req) as [[st b]|f] eqn:Echk; [|done].
  eapply wp_lift; [done|]. cbn beta iota.
  destruct (decide (st = BLK_RESP_OK)) as [->|Hst].
  - injection Hstep as <-. rewrite bool_decide_true by done. cbn [negb]. wp_step. wp_step. unfold on_ialloc. wp_step.
    cbn [bv_ialloc set_client_queues set_drv_h set_reqsbk set_ialloc].
    eapply wp_mono; [by eapply ialloc_alloc_spec|]. intros r ia' (-> & Hia' & Hio' & His').
    pose proof (ia_in_range _ _ Hiaw) as Hx. apply Forall_cons in Hx as [Hx _].
    pose proof (ia_offset_range _ _ Hiaw).
    wp_step. cbn [reqsbk set_client_queues set_drv_h set_reqsbk set_ialloc].
    eapply wp_lift; [apply store_ok; lia|]. wp_step. wp_step. wp_step. wp_step. wp_step. unfold on_drv_h. wp_step.
    cbn [drv_h set_client_queues set_drv_h set_reqsbk set_ialloc].
    pose proof (blk_reqs_bounded _ Hd).
    eapply blk_enqueue_req_spec; [done|rewrite Hdr in *; lia|]. intros dh' Hd' Hdr' Hdp' Hdc'.
    wp_step. apply wp_assert; [done|]. wp_step. cbn [fst snd sv_drv sv_resps]. split.
    + exists dh', ch', ia'. cbn [sv_reqs sv_resps sv_drv sv_bk sv_fl]. split_and!; try (done || congruence).
      * by rewrite Hio. 
      * by rewrite length_insert.
    + rewrite length_app. cbn [length]. rewrite bool_decide_true, bool_decide_false by lia. done.
  - assert (sv' = mk_serve rs (sv_resps sv ++ [mk_blk_resp st 0 (br_id req)]) (sv_drv sv) (sv_bk sv) (x :: fl')) as ->.
    { by destruct st; inversion Hstep. }
    rewrite bool_decide_false by done. cbn [negb]. wp_step. wp_step.
    eapply wp_zoom_nth; [lia| |].
    { cbn [client_queues set_client_queues]. rewrite Nat2Z.id. apply list_lookup_insert_eq. by eapply lookup_lt_Some. }
    pose proof (serve_all_resps_grow (clients s0) client c (ia_offset (bv_ialloc s0)) (bh_capacity (drv_h s0))
      (mk_serve rs (sv_resps sv ++ [mk_blk_resp st 0 (br_id req)]) (sv_drv sv) (sv_bk sv) (x :: fl'))) as Hgrow.
    rewrite <- Hall', Hall in Hgrow. cbn [sv_resps] in Hgrow. rewrite length_app in Hgrow. cbn [length] in Hgrow.
    eapply blk_enqueue_resp_spec; [done| |].
    { rewrite Hcp', Hcp, Hcc', Hcc. lia. }
    intros ch'' Hc'' Hcp'' Hcr'' Hcc''. cbn [client_queues set_client_queues].
    rewrite Nat2Z.id, list_insert_insert_eq.
    wp_step. apply wp_assert; [done|]. wp_step. cbn [fst snd sv_drv sv_resps]. split.
    + exists dh, ch'', ia. cbn [sv_reqs sv_resps sv_drv sv_bk sv_fl]. split_and!; try (done || congruence).
    + rewrite length_app. cbn [length]. rewrite bool_decide_false, bool_decide_true by lia. done.
Qed.

Lemma grown_step {A} (a b b' : list A) :
  (length a <= length b)%nat -> (exists l, b' = b ++ l) ->
  grown a b' = (if bool_decide (length b < length b')%nat then true else grown a b)
  /\ (length a <= length b')%nat.
Proof.
  intros Hab [l ->]. rewrite length_app. split; [|lia]. unfold grown. rewrite length_app.
  repeat case_bool_decide; (done || lia).
Qed.

Lemma handle_client_spec :
  wp (handle_client config (Z.of_nat c)) s0 (fun n s' =>
    n = grown (blk_reqs (drv_h s0)) (sv_drv (all serve_start)) /\
    exists s1, serving (all serve_start) s1 /\
      s' = set_blk_events (blk_events s0 ++
             (if grown (blk_resps q0) (sv_resps (all serve_start)) then [Notify (bc_id client)] else [])) s1).
Proof using Hclient Hq Hcl Hqwf Hdwf Hia Hbk Hroom.
  unfold handle_client. wp_step. eapply wp_lift; [by apply load_nat|]. repeat wp_step.
  eapply wp_lift; [by apply load_nat|]. repeat wp_step.
  apply (wp_loop serving_inv).
  - exists serve_start. split_and!; [done|apply serving_start| |done..].
    unfold serve_start, grown. cbn. by rewrite !bool_decide_false by lia.
  - intros [s loc] (sv & Hall & Hs & Hloc & Hl1 & Hl2) Hmore. cbn [fst snd] in *.
    rewrite (handle_client_more_spec sv) in Hmore by done.
    apply bool_decide_eq_true in Hmore as [sv' Hstep].
    assert (handle_client_length (Z.of_nat c) (s, loc) = length (sv_reqs sv)) as Hlen.
    { destruct Hs as (dh & ch & ia & -> & _ & _ & _ & _ & Hc & Hcr & _). unfold handle_client_length.
      cbn [fst client_queues set_client_queues]. rewrite Nat2Z.id, list_lookup_insert_eq by (by eapply lookup_lt_Some).
      rewrite blk_queue_length_req_spec, Hcr, Nat2Z.id by done. done. }
    eapply wp_mono; [by eapply handle_client_body_spec|]. intros [] [s' loc'] [Hs' Hloc']. cbn [fst snd] in *.
    destruct (serve_step_grows _ _ _ _ _ _ _ Hstep) as [Hg1 Hg2].
    destruct (grown_step _ _ _ Hl1 Hg2) as [E1 Hl1']. destruct (grown_step _ _ _ Hl2 Hg1) as [E2 Hl2'].
    split.
    + exists sv'. cbn [fst snd]. split_and!; try done.
      * rewrite <- Hall. symmetry. by apply serve_all_step.
      * by rewrite Hloc', Hloc, E1, E2.
    + rewrite Hlen. apply serve_step_reqs in Hstep as ->.
      destruct Hs' as (dh & ch & ia & -> & _ & _ & _ & _ & Hc & Hcr & _). unfold handle_client_length.
      cbn [fst client_queues set_client_queues]. rewrite Nat2Z.id, list_lookup_insert_eq by (by eapply lookup_lt_Some).
      rewrite blk_queue_length_req_spec, Hcr, Nat2Z.id by done. lia.
  - intros [s loc] (sv & Hall & Hs & -> & _ & _) Hmore.
    rewrite (handle_client_more_spec sv) in Hmore by done. apply bool_decide_eq_false in Hmore.
    assert (sv = all serve_start) as ->.
    { rewrite <- Hall. symmetry. apply serve_all_stop. by apply eq_None_not_Some. }
    cbn [fst snd] in *. repeat wp_step; cbn [fst snd].
    + split; [done|]. exists s. split; [done|].
      destruct Hs as (dh & ch & ia & -> & _). by rewrite H.
    + split; [done|]. exists s. split; [done|]. rewrite H, app_nil_r.
      destruct Hs as (dh & ch & ia & -> & _). done.
Qed.

End handle_client.

(** What [handle_client] needs of the state for client number [c]. *)
Record blk_client_ready (config : blk_virt_config) (s : blk_virt_state) (c : nat)
  (client : blk_virt_config_client) (q : blk_queue_handle) (cl : client_t) (fl : list Z) : Prop := {
  cr_client : vc_clients config !! c = Some client;
  cr_queue : client_queues s !! c = Some q;
  cr_part : clients s !! c = Some cl;
  cr_queue_wf : blk_wf q;
  cr_drv_wf : blk_wf (drv_h s);
  cr_ialloc : ialloc_wf (bv_ialloc s) fl;
  cr_bk : ia_size (bv_ialloc s) + ia_offset (bv_ialloc s) <= Z.of_nat (length (reqsbk s));
}.

(** The outcome for the requests of client [c], see [serve_step]. *)
Definition client_served (s : blk_virt_state) (c : nat) (client : blk_virt_config_client)
  (q : blk_queue_handle) (fl : list Z) : serve_state :=
  serve_all (clients s) client c (ia_offset (bv_ialloc s)) (bh_capacity (drv_h s)) (serve_start s q fl).

(** C14. [handle_client] takes the requests of a client in order until none is
    left, the driver's queue is full or no identifier is free: each valid one
    is passed to the driver, translated, under a fresh identifier with which it
    is bookkept; each bad one is answered with an error.  Given room for these
    answers no assertion fails; nothing else changes, the client is notified
    iff it got an answer, and the result says whether the driver got a
    request. *)
Theorem handle_client_correct (config : blk_virt_config) (s : blk_virt_state) (c : nat)
  (client : blk_virt_config_client) (q : blk_queue_handle) (cl : client_t) (fl : list Z) :
  blk_client_ready config s c client q cl fl ->
  let sv := client_served s c client q fl in
  Z.of_nat (length (sv_resps sv)) <= bh_capacity q ->
  wp (handle_client config (Z.of_nat c)) s (fun n s' =>
    n = grown (blk_reqs (drv_h s)) (sv_drv sv) /\
    exists s1, serving s c q sv s1 /\
      s' = set_blk_events (blk_events s ++
             (if grown (blk_resps q) (sv_resps sv) then [Notify (bc_id client)] else [])) s1).
Proof. intros [] sv Hroom. by eapply handle_client_spec. Qed.

(** A client with a request beyond its partition and a good one. *)
Definition cli_handle_ex : blk_queue_handle :=
  mk_blk_handle
    (mk_blk_req_queue (mk_ring 2 0 [mk_blk_req BLK_REQ_READ 0 600 1 71; mk_blk_req BLK_REQ_READ 4096 3 1 72]) false)
    (mk_ring 0 0 (replicate 2 (mk_blk_resp BLK_RESP_OK 0 0))) 2.
Definition blk_run_ex : blk_virt_state :=
  mk_blk_state (drv_handle_ex []) [cli_handle_ex] (replicate 2 inhabitant) ialloc_ex [mk_client 2048 4096] []
    (mk_mbr_state true 0x3000000 0) (mk_gpt_meta 0 0 0 0 0) (mk_gpt_state false 0 0 0 0 0 0 false false)
    true [] (mk_storage_info true true 512 1000) [mk_storage_info true true 512 512] [].
Definition blk_client_ex : blk_virt_config_client := mk_blk_client 5 2 0x40000000 0x2000000 8192 0.

Lemma blk_client_ready_ex :
  blk_client_ready blk_config_ex blk_run_ex 0 blk_client_ex cli_handle_ex (mk_client 2048 4096) [1].
Proof.
  split; try done.
  - split; (split; cbn; [split; cbn; try (done || lia); by exists 2147483648|done]).
  - apply (drv_handle_ex_wf []); cbn; lia.
  - apply ialloc_ex_wf.
Qed.

Lemma handle_client_correct_witness :
  exists s', handle_client blk_config_ex 0 blk_run_ex = Ok (true, s') /\
    blk_reqs (drv_h s') = [mk_blk_req BLK_REQ_READ 0x40001000 259 1 1] /\
    (blk_resps <$> client_queues s' !! 0%nat) = Some [mk_blk_resp BLK_RESP_ERR_INVALID_PARAM 0 71] /\
    blk_events s' = [Notify 5].
Proof.
  pose proof (handle_client_correct _ _ _ _ _ _ _ blk_client_ready_ex ltac:(by vm_compute)) as H.
  apply wp_elim in H. destruct H as (n & s' & E & Hn & s1 & Hs1 & Hs'). exists s'.
  assert (n = true) as -> by (rewrite Hn; by vm_compute).
  split; [exact E|]. destruct Hs1 as (dh & ch & ia & -> & _ & Hdr & _ & _ & _ & _ & Hcp & _).
  rewrite Hs'. split_and!.
  - cbn [drv_h set_blk_events set_client_queues set_drv_h]. rewrite Hdr. by vm_compute.
  - cbn [client_queues set_blk_events set_client_queues]. cbn. f_equal.
    etransitivity; [exact Hcp|]. by vm_compute.
  - by vm_compute.
Defined.

(** ** Isolation of the clients *)

(** The sums that [handle_client] computes for a request do not wrap. *)
Definition no_wrap (client : blk_virt_config_client) (cl : client_t) (req : blk_req) : Prop :=
  0 <= br_count req /\ 0 <= br_io_or_offset req /\ 0 <= br_block_number req /\
  br_io_or_offset req + BLK_TRANSFER_SIZE * br_count req < 2 ^ 64 /\
  br_block_number req + cl_start_sector cl / 8 + br_count req < 2 ^ 64.

(** A request to the driver that stays in the region of the client and, in
    sectors, in its partition: it does not end beyond the partition, and does
    not begin before it if the partition begins with a block, else at most with
    the block in which it begins. *)
Definition in_bounds (client : blk_virt_config_client) (cl : client_t) (d : blk_req) : Prop :=
  br_code d = BLK_REQ_READ \/ br_code d = BLK_REQ_WRITE ->
  0 < br_count d /\
  bc_io_addr client <= br_io_or_offset d /\
  br_io_or_offset d + BLK_TRANSFER_SIZE * br_count d <= bc_io_addr client + bc_size client /\
  (cl_start_sector cl mod 8 = 0 -> in_partition cl (br_block_number d) (br_count d)) /\
  cl_start_sector cl - cl_start_sector cl mod 8 <= 8 * br_block_number d /\
  8 * (br_block_number d + br_count d) <= cl_start_sector cl + cl_sectors cl.

Definition client_config_wf (client : blk_virt_config_client) : Prop :=
  0 <= bc_io_addr client /\ bc_io_addr client + bc_size client < 2 ^ 64.

Lemma check_request_in_bounds cls client (c : nat) cl req b id :
  cls !! c = Some cl -> client_wf cl -> client_config_wf client -> no_wrap client cl req ->
  check_request cls client (Z.of_nat c) req = Ok (BLK_RESP_OK, b) ->
  in_bounds client cl
    (mk_blk_req (br_code req) (u64 (bc_io_addr client + br_io_or_offset req)) b (br_count req) id).
Proof.
  intros Hc Hcl [Hio Hsz] (Hn & Ho & Hb & Hw1 & Hw2) E Hcode. cbn [br_code br_count br_io_or_offset br_block_number] in *.
  unfold check_request in E.
  assert (forall e, match br_code req with BLK_REQ_READ | BLK_REQ_WRITE => e
                    | BLK_REQ_FLUSH | BLK_REQ_BARRIER => mret (BLK_RESP_OK, 0)
                    | BLK_REQ_OTHER _ => mret (BLK_RESP_ERR_INVALID_PARAM, 0) end = e :> res (blk_resp_status * Z)) as Hm.
  { intros e. by destruct Hcode as [-> | ->]. }
  rewrite Hm in E. clear Hm. rewrite (get_drv_block_number_spec cls c cl) in E by done.
  unfold mbind, res_bind in E. destruct (Z.leb_spec (br_block_number req + br_count req) (cl_sectors cl / 8)); [|done].
  cbn [fst snd] in E. rewrite bool_decide_true in E by done. cbn [negb] in E.
  unfold BLK_TRANSFER_SIZE in *.
  destruct (Z.ltb_spec (bc_size client) (u64 (br_io_or_offset req + 4096 * br_count req))) as [|Hsize]; [done|].
  destruct (Z.eqb_spec (br_count req) 0); [done|].
  destruct (negb _); [done|]. injection E as <-.
  rewrite u64_small in Hsize by (unfold is_u64; lia).
  rewrite u64_small by (unfold is_u64; lia). unfold in_partition. clear Hw1 Hw2. split_and!; (lia || Z.div_mod_to_equations; lia).
Qed.

Lemma serve_in_bounds cls client (c : nat) offset cap cl n sv (P : blk_req -> Prop) :
  (forall req b id, req ∈ sv_reqs sv -> check_request cls client (Z.of_nat c) req = Ok (BLK_RESP_OK, b) ->
     P (mk_blk_req (br_code req) (u64 (bc_io_addr client + br_io_or_offset req)) b (br_count req) id)) ->
  cls !! c = Some cl ->
  exists new, sv_drv (serve cls client c offset cap n sv) = sv_drv sv ++ new /\ Forall P new.
Proof.
  intros HP Hc. revert sv HP. induction n as [|n IH]; intros sv HP; cbn [serve].
  { exists []. by rewrite app_nil_r. }
  destruct (serve_step cls client c offset cap sv) as [sv'|] eqn:E; [|exists []; by rewrite app_nil_r].
  unfold serve_step in E. destruct (sv_reqs sv) as [|req rs] eqn:Ers; [done|].
  destruct (sv_fl sv) as [|x fl]; [done|]. destruct (_ =? cap); [done|].
  destruct (check_request cls client (Z.of_nat c) req) as [[st b]|] eqn:Ek; [|done].
  assert (forall rq b' id, rq ∈ rs -> check_request cls client (Z.of_nat c) rq = Ok (BLK_RESP_OK, b') ->
     P (mk_blk_req (br_code rq) (u64 (bc_io_addr client + br_io_or_offset rq)) b' (br_count rq) id)) as HP'.
  { intros rq b' id Hin. apply HP. by right. }
  destruct (decide (st = BLK_RESP_OK)) as [->|Hst].
  - injection E as <-. match goal with |- context [serve _ _ _ _ _ n ?w] => destruct (IH w HP') as (new & E' & Hnew) end.
    rewrite E'. cbn [sv_drv]. rewrite <- app_assoc. eexists. split; [done|]. constructor; [|done].
    apply HP; [by left|done].
  - assert (sv_reqs sv' = rs /\ sv_drv sv' = sv_drv sv) as [E1 E2] by (destruct st; by inversion E).
    destruct (IH sv') as (new & -> & Hnew); [by rewrite E1|]. rewrite E2. eauto.
Qed.

(** C13. Isolation: if the sums in its requests do not wrap at 64 bits, whatever
    a client asks for, every transfer that [handle_client] hands to the driver
    is non-empty, lies in the client's data region and, if the client's
    partition begins with a block of the driver, touches only sectors of the
    partition; otherwise none beyond it, and before it only those of the block
    in which it begins. *)
Theorem handle_client_isolates (config : blk_virt_config) (s : blk_virt_state) (c : nat)
  (client : blk_virt_config_client) (q : blk_queue_handle) (cl : client_t) (fl : list Z) :
  blk_client_ready config s c client q cl fl ->
  Z.of_nat (length (sv_resps (client_served s c client q fl))) <= bh_capacity q ->
  client_wf cl -> client_config_wf client ->
  Forall (no_wrap client cl) (blk_reqs q) ->
  wp (handle_client config (Z.of_nat c)) s (fun _ s' =>
    exists new, blk_reqs (drv_h s') = blk_reqs (drv_h s) ++ new /\ Forall (in_bounds client cl) new).
Proof.
  intros Hr Hroom Hcl Hcfg Hw. pose proof Hr as []. eapply wp_mono; [by eapply handle_client_spec|].
  intros n s' (_ & s1 & Hs1 & ->). cbn [drv_h set_blk_events].
  destruct Hs1 as (dh & ch & ia & -> & _ & Hdr & _). cbn [drv_h set_client_queues set_drv_h]. rewrite Hdr.
  apply serve_in_bounds with (cl := cl); [|done]. cbn [serve_start sv_reqs]. intros req b id Hin.
  rewrite Forall_forall in Hw. apply check_request_in_bounds; auto.
Qed.

Lemma handle_client_isolates_witness :
  wp (handle_client blk_config_ex 0) blk_run_ex (fun _ s' =>
    exists new, blk_reqs (drv_h s') = [] ++ new /\ Forall (in_bounds blk_client_ex (mk_client 2048 4096)) new).
Proof.
  apply (handle_client_isolates _ _ 0%nat _ _ _ _ blk_client_ready_ex).
  - by vm_compute.
  - split; split; cbn; lia.
  - split; cbn; lia.
  - assert (blk_reqs cli_handle_ex = [mk_blk_req BLK_REQ_READ 0 600 1 71; mk_blk_req BLK_REQ_READ 4096 3 1 72]) as ->
      by by vm_compute.
    repeat constructor; cbn; lia.
Defined.

(** Without that assumption the isolation fails: a client with an aligned
    region and a partition of at least a block can name the offset of the page
    below its region; the bound check wraps, and the driver is told to transfer
    to the page before the client's region. *)
Theorem check_request_offset_wraps (cls : list client_t) (client : blk_virt_config_client) (c : nat)
  (cl : client_t) (id : Z) :
  cls !! c = Some cl -> client_wf cl -> 8 <= cl_sectors cl ->
  0 <= bc_size client -> bc_vaddr client mod BLK_TRANSFER_SIZE = 0 ->
  BLK_TRANSFER_SIZE <= bc_io_addr client < 2 ^ 64 ->
  let req := mk_blk_req BLK_REQ_WRITE (2 ^ 64 - BLK_TRANSFER_SIZE) 0 1 id in
  check_request cls client (Z.of_nat c) req = Ok (BLK_RESP_OK, cl_start_sector cl / 8) /\
  u64 (bc_io_addr client + br_io_or_offset req) = bc_io_addr client - BLK_TRANSFER_SIZE.
Proof.
  intros Hc [Hs Hn] H8 Hsize Hal Hio req. unfold BLK_TRANSFER_SIZE in *. split.
  - unfold check_request, BLK_TRANSFER_SIZE. cbn [br_code req br_block_number br_count br_io_or_offset].
    assert (cl_start_sector cl / 8 < 2 ^ 32) by (apply Z.div_lt_upper_bound; unfold is_u32 in *; lia).
    assert (0 <= cl_start_sector cl / 8) by (apply Z.div_pos; unfold is_u32 in *; lia).
    rewrite (get_drv_block_number_spec cls c cl) by (try done; lia).
    assert (1 <= cl_sectors cl / 8) by (apply Z.div_le_lower_bound; lia).
    rewrite (proj2 (Z.leb_le _ _)) by lia. unfold mbind, res_bind. cbn [fst snd].
    rewrite bool_decide_true by done. cbn [negb].
    assert (u64 (2 ^ 64 - 4096 + 4096 * 1) = 0) as -> by done.
    rewrite (proj2 (Z.ltb_ge (bc_size client) 0)) by lia. change (1 =? 0) with false.
    assert (u64 (bc_vaddr client + (2 ^ 64 - 4096)) mod 4096 = 0) as ->.
    { unfold u64. rewrite Z.mod_mod_divide by (by exists (2 ^ 52)).
      rewrite <- Z.add_mod_idemp_l, Hal by lia. done. }
    done.
  - cbn. uint_lia.
Qed.

Lemma check_request_offset_wraps_witness :
  check_request [mk_client 2048 4096] blk_client_ex 0 (mk_blk_req BLK_REQ_WRITE 18446744073709547520 0 1 7)
  = Ok (BLK_RESP_OK, 256) /\
  u64 (0x40000000 + 18446744073709547520) = 0x40000000 - 4096.
Proof.
  apply (check_request_offset_wraps [mk_client 2048 4096] blk_client_ex 0 (mk_client 2048 4096) 7);
    try done; split; split; cbn; lia.
Defined.

(** ** The responses of the driver *)

(** The answer that client [i] gets out of the driver's response [r]. *)
Definition blk_done (bks : list reqbk) (i : nat) (r : blk_resp) : option blk_resp :=
  bk ← bks !! Z.to_nat (bp_id r);
  if rb_cli_id bk =? Z.of_nat i
  then Some (mk_blk_resp (bp_status r) (bp_success_count r) (rb_cli_req_id bk)) else None.

Definition code_known (code : blk_req_code) : Prop :=
  match code with BLK_REQ_OTHER _ => False | _ => True end.

(** Every response names a distinct identifier in use, whose bookkept request
    belongs to a client. *)
Record drv_resps_ok (s : blk_virt_state) (fl : list Z) : Prop := {
  dr_drv : blk_wf (drv_h s);
  dr_ialloc : ialloc_wf (bv_ialloc s) fl;
  dr_nodup : NoDup (bp_id <$> blk_resps (drv_h s));
  dr_used : Forall (fun r => ia_offset (bv_ialloc s) <= bp_id r < ia_size (bv_ialloc s) + ia_offset (bv_ialloc s)
                             /\ bp_id r - ia_offset (bv_ialloc s) ∉ fl) (blk_resps (drv_h s));
  dr_bk : Forall (fun r => exists bk c, reqsbk s !! Z.to_nat (bp_id r) = Some bk /\ code_known (rb_code bk) /\
                             rb_cli_id bk = Z.of_nat c /\ (c < length (client_queues s))%nat)
            (blk_resps (drv_h s));
  dr_clients : (length (client_queues s) <= Z.to_nat SDDF_BLK_MAX_CLIENTS)%nat;
  dr_queues : forall i q, client_queues s !! i = Some q ->
    blk_wf q /\
    Z.of_nat (length (blk_resps q ++ omap (blk_done (reqsbk s) i) (blk_resps (drv_h s)))) <= bh_capacity q;
}.

Section handle_driver.
Context (config : blk_virt_config) (s0 : blk_virt_state) (fl : list Z).
Context (Hok : drv_resps_ok s0 fl).

#[local] Abbreviation off := (ia_offset (bv_ialloc s0)).

(** The responses [d] have been delivered, [rest] not yet. *)
Definition delivered (d rest : list blk_resp) (s : blk_virt_state) : Prop :=
  exists dh ia qs,
    s = set_client_queues qs (set_drv_h dh (set_ialloc ia s0)) /\
    blk_wf dh /\ blk_reqs dh = blk_reqs (drv_h s0) /\ blk_resps dh = rest /\
    bh_capacity dh = bh_capacity (drv_h s0) /\
    ialloc_wf ia (fl ++ ((fun r => bp_id r - off) <$> d)) /\ ia_offset ia = off /\
    ia_size ia = ia_size (bv_ialloc s0) /\
    length qs = length (client_queues s0) /\
    forall i q, client_queues s0 !! i = Some q ->
      exists q', qs !! i = Some q' /\ blk_wf q' /\ blk_reqs q' = blk_reqs q /\
        blk_resps q' = blk_resps q ++ omap (blk_done (reqsbk s0) i) d /\ bh_capacity q' = bh_capacity q.

(** Client [i] has got something. *)
Definition got (d : list blk_resp) (i : nat) : bool :=
  negb (bool_decide (omap (blk_done (reqsbk s0) i) d = [])).

Definition notify_ok (d : list blk_resp) (l : list bool) : Prop :=
  length l = Z.to_nat SDDF_BLK_MAX_CLIENTS /\
  forall i, (i < length l)%nat -> l !! i = Some (got d i).

Definition handle_driver_inv (p : blk_virt_state * list bool) : Prop :=
  exists d rest, blk_resps (drv_h s0) = d ++ rest /\ delivered d rest p.1 /\ notify_ok d p.2.

Lemma got_snoc d r bk c i :
  reqsbk s0 !! Z.to_nat (bp_id r) = Some bk -> rb_cli_id bk = Z.of_nat c ->
  got (d ++ [r]) i = if decide (i = c) then true else got d i.
Proof using.
  intros Hb Hc. unfold got. rewrite omap_app.
  assert (blk_done (reqsbk s0) i r
    = if decide (i = c) then Some (mk_blk_resp (bp_status r) (bp_success_count r) (rb_cli_req_id bk)) else None) as E.
  { unfold blk_done. rewrite Hb. cbn. rewrite Hc.
    case_decide as Hi; [by rewrite (proj2 (Z.eqb_eq _ _)) by lia|by rewrite (proj2 (Z.eqb_neq _ _)) by lia]. }
  cbn [omap list_omap]. rewrite E. case_decide.
  - rewrite bool_decide_false; [done|]. by intros [_ ?]%app_eq_nil.
  - by rewrite app_nil_r.
Qed.

Lemma handle_driver_body_spec d r rest s l :
  blk_resps (drv_h s0) = d ++ r :: rest -> delivered d (r :: rest) s -> notify_ok d l ->
  wp handle_driver_body (s, l) (fun _ p => delivered (d ++ [r]) rest p.1 /\ notify_ok (d ++ [r]) p.2).
Proof using Hok.
  intros E (dh & ia & qs & -> & Hd & Hdr & Hdp & Hdc & Hia & Hio & His & Hlen & Hqs) [Hl1 Hl2].
  destruct Hok. rewrite E in *.
  apply Forall_app in dr_used0 as [_ [[Hid Hnfl] _]%Forall_cons].
  apply Forall_app in dr_bk0 as [_ [(bk & c & Hbk & Hcode & Hcli & Hc) _]%Forall_cons].
  unfold handle_driver_body. wp_step. wp_step. unfold on_drv_h. wp_step.
  cbn [drv_h set_client_queues set_drv_h]. eapply blk_dequeue_resp_spec; [done..|].
  intros dh' Hd' Hdp' Hdr' Hdc'. repeat wp_step. cbn [fst reqsbk set_client_queues set_drv_h set_ialloc].
  eapply wp_lift; [apply load_ok; [|done]|]. { pose proof (ia_offset_range _ _ Hia). lia. }
  wp_step. wp_step. unfold on_ialloc. wp_step. cbn [bv_ialloc set_client_queues set_drv_h set_ialloc].
  eapply wp_mono; [apply (ialloc_free_spec ia _ (bp_id r) Hia); [lia|]|].
  { rewrite Hio, elem_of_app. intros [?|(r' & Er & Hr')%list_elem_of_fmap]; [done|].
    rewrite fmap_app, NoDup_app in dr_nodup0. destruct dr_nodup0 as (_ & Hdis & _).
    apply (Hdis (bp_id r')); [by apply list_elem_of_fmap_2|].
    apply list_elem_of_fmap. exists r. split; [lia|by left]. }
  intros z ia' (-> & Hia' & Hio' & His'). wp_step. apply wp_assert; [done|]. wp_step.
  assert (forall Q, Q tt (set_ialloc ia' (set_drv_h dh' (set_client_queues qs (set_drv_h dh (set_ialloc ia s0)))), l) ->
    wp match rb_code bk with
       | BLK_REQ_READ | BLK_REQ_WRITE | BLK_REQ_FLUSH | BLK_REQ_BARRIER => mret tt
       | BLK_REQ_OTHER _ => raise AssertFail
       end (set_ialloc ia' (set_drv_h dh' (set_client_queues qs (set_drv_h dh (set_ialloc ia s0)))), l) Q) as Hsw.
  { intros Q HQ. destruct (rb_code bk); done. }
  apply Hsw. clear Hsw. wp_step. wp_step. unfold on_cli_h.
  destruct (lookup_lt_is_Some_2 _ _ Hc) as [q0 Hq0].
  destruct (Hqs c q0 Hq0) as (q & Hq & Hqwf & Hqr & Hqp & Hqc).
  eapply wp_zoom_nth; [lia| |].
  { cbn [client_queues set_ialloc set_drv_h set_client_queues]. by rewrite Hcli, Nat2Z.id. }
  assert (blk_done (reqsbk s0) c r = Some (mk_blk_resp (bp_status r) (bp_success_count r) (rb_cli_req_id bk))) as Hdone.
  { unfold blk_done. rewrite Hbk. cbn. by rewrite (proj2 (Z.eqb_eq _ _)). }
  eapply blk_enqueue_resp_spec; [done| |].
  { destruct (dr_queues0 c q0 Hq0) as [_ Hroom]. rewrite omap_app in Hroom. cbn [omap list_omap] in Hroom.
    rewrite Hdone in Hroom. rewrite Hqp, Hqc. rewrite !length_app in *. cbn [length] in Hroom. lia. }
  intros q' Hq' Hqp' Hqr' Hqc'. wp_step. apply wp_assert; [done|]. wp_step. cbn [snd].
  eapply wp_lift; [apply store_ok; lia|]. wp_step. cbn [fst snd]. split.
  - exists dh', ia', (<[c := q']> qs). rewrite Hcli, Nat2Z.id. rewrite Hio in Hia'.
    split_and!; try (done || congruence).
    + rewrite fmap_app. by rewrite app_assoc.
    + by rewrite length_insert.
    + intros i p Hp. destruct (decide (i = c)) as [->|Hne].
      * rewrite Hq0 in Hp. injection Hp as <-. exists q'. rewrite list_lookup_insert_eq by (by eapply lookup_lt_Some).
        split_and!; try (done || congruence). rewrite Hqp', Hqp, omap_app. cbn [omap list_omap]. rewrite Hdone.
        by rewrite app_assoc.
      * rewrite list_lookup_insert_ne by done. destruct (Hqs i p Hp) as (p' & ? & ? & ? & Hpp & ?).
        exists p'. split_and!; try done. rewrite Hpp, omap_app. cbn [omap list_omap].
        assert (blk_done (reqsbk s0) i r = None) as ->; [|by rewrite app_nil_r].
        unfold blk_done. rewrite Hbk. cbn. by rewrite (proj2 (Z.eqb_neq _ _)) by lia.
  - split; [by rewrite length_insert|]. intros i Hi. rewrite length_insert in Hi.
    rewrite (got_snoc d r bk c i) by done. rewrite Hcli, Nat2Z.id. case_decide as Hic.
    + subst i. by rewrite list_lookup_insert_eq by done.
    + rewrite list_lookup_insert_ne by done. by apply Hl2.
Qed.

(** The notifications of the clients that got something, in order. *)
Definition got_events (d : list blk_resp) (cs : list blk_virt_config_client) : list event :=
  concat (imap (fun i c => if got d i then [Notify (bc_id c)] else []) cs).

Lemma got_events_snoc d cs c :
  got_events d (cs ++ [c]) = got_events d cs ++ (if got d (length cs) then [Notify (bc_id c)] else []).
Proof using.
  unfold got_events. rewrite imap_app, concat_app. cbn. by rewrite Nat.add_0_r, app_nil_r.
Qed.

Lemma handle_driver_notify_spec d l s :
  vc_num_clients config = Z.of_nat (length (vc_clients config)) ->
  (length (vc_clients config) <= Z.to_nat SDDF_BLK_MAX_CLIENTS)%nat -> notify_ok d l ->
  wp (for_upto (vc_num_clients config) (fun i =>
        n ← lift (load l i);
        when n (c ← lift (load (vc_clients config) i); blk_emit (Notify (bc_id c))))) s
     (fun _ s' => s' = set_blk_events (blk_events s ++ got_events d (vc_clients config)) s).
Proof using.
  intros Hn Hmax [Hl1 Hl2]. unfold for_upto. rewrite Hn.
  apply (wp_for_each (fun pre s' =>
    s' = set_blk_events (blk_events s ++ got_events d (take (length pre) (vc_clients config))) s)).
  - cbn. rewrite app_nil_r. by destruct s.
  - intros pre x post s' E ->. apply lookup_seqZ_prefix in E as [-> Hx].
    wp_step. eapply wp_lift; [apply load_nat, Hl2; lia|].
    destruct (lookup_lt_is_Some_2 (vc_clients config) (length pre)) as [c Hc]; [lia|].
    assert (length (take (length pre) (vc_clients config)) = length pre) as Hlt by (rewrite length_take; lia).
    rewrite length_app. cbn [length]. rewrite Nat.add_1_r, (take_S_r _ _ c) by done.
    rewrite got_events_snoc, Hlt. wp_step.
    + wp_step. eapply wp_lift; [by apply load_nat|]. unfold blk_emit. wp_step.
      rewrite H. cbn [blk_events set_blk_events]. by rewrite app_assoc.
    + rewrite H. by rewrite app_nil_r.
  - intros s' ->. rewrite length_seqZ, Nat2Z.id, take_ge by lia. done.
Qed.

Lemma handle_driver_spec :
  vc_num_clients config = Z.of_nat (length (vc_clients config)) ->
  (length (vc_clients config) <= Z.to_nat SDDF_BLK_MAX_CLIENTS)%nat ->
  wp (handle_driver config) s0 (fun _ s' =>
    exists s1, delivered (blk_resps (drv_h s0)) [] s1 /\
      s' = set_blk_events (blk_events s0 ++ got_events (blk_resps (drv_h s0)) (vc_clients config)) s1).
Proof using Hok.
  intros Hn Hmax. unfold handle_driver. repeat wp_step. apply (wp_loop handle_driver_inv).
  - exists [], (blk_resps (drv_h s0)). cbn [fst snd app]. split_and!; [done| |].
    + destruct Hok. exists (drv_h s0), (bv_ialloc s0), (client_queues s0). cbn [fmap list_fmap].
      rewrite app_nil_r. split_and!; try done; [by destruct s0|].
      intros i q Hq. exists q. cbn. rewrite app_nil_r. destruct (dr_queues0 i q Hq). done.
    + split; [by rewrite length_replicate|]. intros i Hi. rewrite length_replicate in Hi.
      rewrite lookup_replicate_2 by done. done.
  - intros [s l] (d & rest & E & Hd & Hl) Hmore. cbn [fst snd] in *.
    pose proof Hd as (dh & ia & qs & Es & Hdw & _ & Hdp & _).
    unfold drv_resps_more in Hmore. cbn [fst] in Hmore.
    rewrite Es in Hmore. cbn [drv_h set_client_queues set_drv_h] in Hmore.
    rewrite blk_queue_empty_resp_spec, Hdp in Hmore by done.
    destruct rest as [|r rest]; [done|].
    eapply wp_mono; [by eapply handle_driver_body_spec|]. intros [] [s' l'] [Hd' Hl']. cbn [fst snd] in *.
    split; [exists (d ++ [r]), rest; by rewrite <- app_assoc|].
    unfold drv_resps_length. cbn [fst]. destruct Hd' as (dh' & ia' & qs' & -> & Hdw' & _ & Hdp' & _).
    rewrite Es. cbn [drv_h set_client_queues set_drv_h].
    rewrite !blk_queue_length_resp_spec, Hdp, Hdp' by done. cbn [length]. lia.
  - intros [s l] (d & rest & E & Hd & Hl) Hmore. cbn [fst snd] in *.
    pose proof Hd as (dh & ia & qs & Es & Hdw & _ & Hdp & _).
    unfold drv_resps_more in Hmore. cbn [fst] in Hmore.
    rewrite Es in Hmore. cbn [drv_h set_client_queues set_drv_h] in Hmore.
    rewrite blk_queue_empty_resp_spec, Hdp in Hmore by done.
    destruct rest as [|r rest]; [|done]. rewrite app_nil_r in E. subst d.
    eapply wp_mono; [by apply handle_driver_notify_spec|]. intros [] s' ->. exists s. split; [done|].
    f_equal. by rewrite Es.
Qed.

End handle_driver.


(** The answer to the request that [cli_handle_ex] had made as number 72. *)
Definition blk_resp_ex : blk_virt_state :=
  mk_blk_state (drv_handle_ex [mk_blk_resp BLK_RESP_OK 1 0])
    [drv_handle_ex []] [mk_reqbk 0 72 0x2001000 1 BLK_REQ_READ; inhabitant] ialloc_ex [mk_client 2048 4096] []
    (mk_mbr_state true 0x3000000 0) (mk_gpt_meta 0 0 0 0 0) (mk_gpt_state false 0 0 0 0 0 0 false false)
    true [] (mk_storage_info true true 512 1000) [mk_storage_info true true 512 512] [].


(** ** A client can stop the virtualiser *)

(** A client that does not take its responses makes the virtualiser fail an
    assertion: with its response queue full, its next bad request stops
    [handle_client]. *)
Theorem handle_client_full_responses_asserts (config : blk_virt_config) (s : blk_virt_state) (c : nat)
  (client : blk_virt_config_client) (q : blk_queue_handle) (cl : client_t) (x : Z) (fl : list Z)
  (req : blk_req) (rs : list blk_req) (st : blk_resp_status) (b : Z) :
  blk_client_ready config s c client q cl (x :: fl) ->
  blk_reqs q = req :: rs -> Z.of_nat (length (blk_resps q)) = bh_capacity q ->
  Z.of_nat (length (blk_reqs (drv_h s))) < bh_capacity (drv_h s) ->
  check_request (clients s) client (Z.of_nat c) req = Ok (st, b) -> st <> BLK_RESP_OK ->
  handle_client config (Z.of_nat c) s = Fault AssertFail.
Proof.
  intros [] Hreqs Hfull Hroom Hchk Hst.
  assert (exists q', blk_dequeue_req q = Ok (Some req, q') /\ blk_wf q' /\ blk_resps q' = blk_resps q /\
            bh_capacity q' = bh_capacity q) as (q' & Eq & Hq' & Hp & Hc).
  { assert (wp blk_dequeue_req q (fun r q' => r = Some req /\ blk_wf q' /\ blk_resps q' = blk_resps q /\
              bh_capacity q' = bh_capacity q)) as H by by eapply blk_dequeue_req_spec.
    apply wp_elim in H. destruct H as (r & q' & E & -> & H). eauto. }
  set (s1 := set_client_queues (<[c := q']> (client_queues s)) s).
  assert (client_queues s1 !! c = Some q') as Hq1 by (apply list_lookup_insert_eq; by eapply lookup_lt_Some).
  assert (handle_client_body (Z.of_nat c) client (s, (false, false)) = Fault AssertFail) as Hbody.
  { unfold handle_client_body, on_cli_h.
    erewrite bind_ok by (apply on_state_ok; by eapply zoom_nth_ok). cbn beta iota.
    erewrite (bind_ok get) by done.
    erewrite bind_ok by (unfold lift; cbn [fst clients set_client_queues]; by rewrite Hchk). cbn beta iota.
    rewrite bool_decide_false by done. cbn [negb].
    erewrite bind_ok.
    2: { apply on_state_ok. fold s1. eapply zoom_nth_ok; [exact Hq1|]. apply blk_enqueue_resp_full_spec; [done|].
         by rewrite Hp, Hc. }
    by apply bind_fault. }
  unfold handle_client. erewrite bind_ok by (unfold lift; by erewrite load_nat).
  erewrite (bind_ok get) by done. erewrite bind_ok by (unfold lift; by erewrite load_nat).
  apply bind_fault, with_local_fault, loop_fault; [| |done].
  - unfold handle_client_length. cbn [fst]. rewrite Nat2Z.id, cr_queue0, blk_queue_length_req_spec, Hreqs by done.
    cbn. lia.
  - unfold handle_client_more. cbn [fst]. rewrite Nat2Z.id, cr_queue0.
    rewrite blk_queue_empty_req_spec, blk_queue_full_req_spec, Hreqs by done.
    rewrite bool_decide_false, (proj2 (Z.eqb_neq _ _)) by (done || lia). cbn [negb andb].
    apply negb_true_iff, not_true_is_false. intros F%(ialloc_full_spec _ _ cr_ialloc0). done.
Qed.

Definition blk_full_ex : blk_virt_state :=
  set_client_queues
    [mk_blk_handle (bh_req_queue cli_handle_ex) (bh_resp_queue (drv_handle_ex (replicate 2 (mk_blk_resp BLK_RESP_OK 0 9)))) 2]
    blk_run_ex.

Lemma handle_client_full_responses_asserts_witness :
  handle_client blk_config_ex 0 blk_full_ex = Fault AssertFail.
Proof.
  eapply (handle_client_full_responses_asserts _ _ 0%nat blk_client_ex _ (mk_client 2048 4096) 1 []).
  - split; try reflexivity.
    + split; (split; cbn; [split; cbn; try (done || lia); by exists 2147483648|done]).
    + apply (drv_handle_ex_wf []); cbn; lia.
    + apply ialloc_ex_wf.
  - by vm_compute.
  - by vm_compute.
  - by vm_compute.
  - by vm_compute.
  - done.
Defined.
