(* ===== verification/I2cQueue.v ===== *)
(** * I2C queues: include/sddf/i2c/queue.h

    A queue of [NUM_QUEUE_ENTRIES] entries; the test for a full queue keeps one
    entry unused, so a queue holds at most [NUM_QUEUE_ENTRIES - 1] entries. *)

From S2P Require Import Prelude Ring Fifo RingQueue.

Definition NUM_QUEUE_ENTRIES : Z := 32.

Record i2c_queue_entry : Type := mk_i2c_entry {
  ie_offset : Z;      (* size_t *)
  ie_len : Z;         (* unsigned int *)
  ie_bus_address : Z; (* size_t *)
}.
#[export] Instance i2c_queue_entry_inhabited : Inhabited i2c_queue_entry := populate (mk_i2c_entry 0 0 0).
#[export] Instance i2c_queue_entry_eq_dec : EqDecision i2c_queue_entry.
Proof. solve_decision. Defined.

Definition i2c_queue : Type := ring i2c_queue_entry.

Record i2c_queue_handle : Type := mk_i2c_handle {
  ih_request : i2c_queue;
  ih_response : i2c_queue;
}.

#[export] Instance i2c_lens : RingLens i2c_queue i2c_queue_entry unit := {
  rl_view q := q;
  rl_set r _ := r;
  rl_cap _ := NUM_QUEUE_ENTRIES;
  rl_slack := 1;
  rl_eq := false;
  rl_rest _ := tt;
}.
#[export] Instance i2c_lens_laws : RingLensLaws i2c_lens.
Proof. split; cbn; (done || lia). Qed.

Definition i2c_queue_init (request response : i2c_queue) : i2c_queue_handle :=
  mk_i2c_handle request response.

Definition i2c_queue_empty (q : i2c_queue) : bool := lens_empty q.
Definition i2c_queue_full (q : i2c_queue) : bool := lens_full q.
Definition i2c_queue_length (q : i2c_queue) : Z := lens_length q.

Definition i2c_enqueue (bus_address offset len : Z) : M i2c_queue Z :=
  lens_enqueue (mk_i2c_entry offset len bus_address).
(** [None] is the return of -1; the out parameters are the entry's fields. *)
Definition i2c_dequeue : M i2c_queue (option i2c_queue_entry) := lens_dequeue.

Definition on_request {A} (m : M i2c_queue A) : M i2c_queue_handle A :=
  zoom ih_request (fun q h => mk_i2c_handle q (ih_response h)) m.
Definition on_response {A} (m : M i2c_queue A) : M i2c_queue_handle A :=
  zoom ih_response (fun q h => mk_i2c_handle (ih_request h) q) m.

Definition i2c_enqueue_request (bus_address offset len : Z) : M i2c_queue_handle Z :=
  on_request (i2c_enqueue bus_address offset len).
Definition i2c_enqueue_response (bus_address offset len : Z) : M i2c_queue_handle Z :=
  on_response (i2c_enqueue bus_address offset len).
Definition i2c_dequeue_request : M i2c_queue_handle (option i2c_queue_entry) := on_request i2c_dequeue.
Definition i2c_dequeue_response : M i2c_queue_handle (option i2c_queue_entry) := on_response i2c_dequeue.

(** ** The lists the queues stand for *)

Definition i2c_items (q : i2c_queue) : list i2c_queue_entry := lens_items q.
Definition i2c_wf (q : i2c_queue) : Prop := lens_wf q.
Definition i2c_handle_wf (h : i2c_queue_handle) : Prop := i2c_wf (ih_request h) /\ i2c_wf (ih_response h).
Arguments i2c_items q : simpl never.
Arguments i2c_wf q : simpl never.

Lemma i2c_full_spec q : i2c_wf q -> i2c_queue_full q = (Z.of_nat (length (i2c_items q)) =? 31).
Proof. intros Hwf. by apply (lens_full_spec q Hwf). Qed.

Lemma i2c_empty_spec q : i2c_wf q -> i2c_queue_empty q = true <-> i2c_items q = [].
Proof. apply lens_empty_spec. Qed.

Lemma i2c_bound q : i2c_wf q -> Z.of_nat (length (i2c_items q)) <= 31.
Proof. exact (lens_bounded q). Qed.

(** What [i2c_enqueue] does on any queue: the entry is appended if there is
    room, and the queue is unchanged if there is none. *)
Lemma i2c_enqueue_spec q a o l (Q : Z -> i2c_queue -> Prop) :
  i2c_wf q ->
  (i2c_queue_full q = false ->
     forall q', i2c_wf q' -> i2c_items q' = i2c_items q ++ [mk_i2c_entry o l a] -> Q 0 q') ->
  (i2c_queue_full q = true -> Q (-1) q) ->
  wp (i2c_enqueue a o l) q Q.
Proof.
  intros Hwf HQ HQ'. pose proof (i2c_bound q Hwf). destruct (i2c_queue_full q) eqn:F.
  - unfold i2c_enqueue, lens_enqueue. wp_step. wp_step. change (lens_full q) with (i2c_queue_full q).
    rewrite F. wp_step. by apply HQ'.
  - rewrite i2c_full_spec in F by done. apply Z.eqb_neq in F.
    apply lens_enqueue_spec; [done|change (Z.of_nat (length (i2c_items q)) < 31); lia|].
    intros q' ? ? _ _. by apply HQ.
Qed.

Lemma i2c_dequeue_spec q e l (Q : option i2c_queue_entry -> i2c_queue -> Prop) :
  i2c_wf q -> i2c_items q = e :: l ->
  (forall q', i2c_wf q' -> i2c_items q' = l -> Q (Some e) q') ->
  wp i2c_dequeue q Q.
Proof. intros Hwf E HQ. eapply lens_dequeue_spec; [done..|]. intros q' ? ? _ _. by apply HQ. Qed.

Lemma i2c_nonempty q : i2c_wf q -> i2c_queue_empty q = false -> exists e l, i2c_items q = e :: l.
Proof.
  intros Hwf E. destruct (i2c_items q) as [|e l] eqn:F; [|eauto].
  apply i2c_empty_spec in F; [congruence|done].
Qed.
