(* ===== verification/BufferLedger.v ===== *)
(** * Who owns which buffer

    A data region is [N] buffers of one driver, shared with clients under a
    reference count per buffer.  A ledger lists the buffers in the driver's
    possession ([D]), those in each client's ([C]) and the counts ([R]).  Its
    invariant says that a buffer is with the driver exactly if its count is 0,
    that the count is the number of clients that have the buffer, and that
    nobody has a buffer twice. *)

From S2P Require Import Prelude.

(** The number of clients that have buffer [i]. *)
Definition occurs (i : Z) (C : list (list Z)) : Z :=
  Z.of_nat (length (filter (fun l => i ∈ l) C)).

Record ledger_inv (N : Z) (D : list Z) (C : list (list Z)) (R : list Z) : Prop := mk_ledger_inv {
  li_driver_nodup : NoDup D;
  li_driver_range : Forall (fun i => 0 <= i < N) D;
  li_client_nodup : Forall NoDup C;
  li_client_range : Forall (Forall (fun i => 0 <= i < N)) C;
  li_refs_length : N <= Z.of_nat (length R);
  li_refs : forall i, 0 <= i < N -> R !!! Z.to_nat i = occurs i C;
  li_owner : forall i, 0 <= i < N -> i ∈ D <-> R !!! Z.to_nat i = 0;
}.

Lemma occurs_nil i : occurs i [] = 0.
Proof. done. Qed.

Lemma occurs_cons i l C : occurs i (l :: C) = (if bool_decide (i ∈ l) then 1 else 0) + occurs i C.
Proof.
  unfold occurs. rewrite filter_cons. case_bool_decide as H.
  - rewrite decide_True by done. cbn [length]. lia.
  - rewrite decide_False by done. lia.
Qed.

Lemma occurs_range i C : 0 <= occurs i C <= Z.of_nat (length C).
Proof. unfold occurs. pose proof (length_filter (fun l => i ∈ l) C). lia. Qed.

Lemma occurs_insert i C c l l' :
  C !! c = Some l ->
  occurs i (<[c := l']> C)
  = occurs i C - (if bool_decide (i ∈ l) then 1 else 0) + (if bool_decide (i ∈ l') then 1 else 0).
Proof.
  revert c. induction C as [|l0 C IH]; intros [|c] Hc; [done|done|..].
  - injection Hc as ->. change (<[0%nat := l']> (l :: C)) with (l' :: C). rewrite !occurs_cons. lia.
  - change (<[S c := l']> (l0 :: C)) with (l0 :: <[c := l']> C).
    rewrite !occurs_cons, (IH c) by done. lia.
Qed.

Lemma occurs_pos i C c l : C !! c = Some l -> i ∈ l -> 0 < occurs i C.
Proof.
  intros Hc Hi. pose proof (occurs_insert i C c l [] Hc) as E.
  rewrite (bool_decide_eq_true_2 (i ∈ l)), (bool_decide_eq_false_2 (i ∈ [])) in E by (done || set_solver).
  pose proof (occurs_range i (<[c := []]> C)). lia.
Qed.

Lemma occurs_zero i C l : occurs i C = 0 -> l ∈ C -> i ∉ l.
Proof. intros E [c Hc]%list_elem_of_lookup Hi. pose proof (occurs_pos i C c l Hc Hi). lia. Qed.

Lemma occurs_map_cons i j C :
  occurs i ((fun l => j :: l) <$> C) = if decide (i = j) then Z.of_nat (length C) else occurs i C.
Proof.
  induction C as [|l C IH]; cbn [fmap list_fmap].
  - by case_decide.
  - rewrite !occurs_cons, IH. cbn [length]. case_decide as E.
    + subst. rewrite bool_decide_eq_true_2 by set_solver. lia.
    + f_equal. by rewrite (bool_decide_ext (i ∈ j :: l) (i ∈ l)) by set_solver.
Qed.

Lemma occurs_perm i C C' : Forall2 Permutation C C' -> occurs i C = occurs i C'.
Proof.
  induction 1 as [|l l' C C' Hl _ IH]; [done|]. rewrite !occurs_cons, IH. f_equal.
  by rewrite (bool_decide_ext (i ∈ l) (i ∈ l')) by (by rewrite Hl).
Qed.

(** A duplicate-free list of buffers has at most [N] of them. *)
Lemma nodup_range_length (N : Z) (l : list Z) :
  NoDup l -> Forall (fun i => 0 <= i < N) l -> Z.of_nat (length l) <= Z.max 0 N.
Proof.
  intros Hn Hr. assert (l ⊆+ seqZ 0 N) as H%submseteq_length.
  { apply NoDup_submseteq; [done|]. intros i Hi. rewrite Forall_forall in Hr.
    apply elem_of_seqZ. specialize (Hr i Hi). lia. }
  rewrite length_seqZ in H. lia.
Qed.

Section ledger.
Context (N : Z) (C : list (list Z)) (R : list Z).
Implicit Types D : list Z.

Lemma ledger_perm D D' C' :
  D ≡ₚ D' -> Forall2 Permutation C C' -> ledger_inv N D C R -> ledger_inv N D' C' R.
Proof.
  intros HD HC []. split; try done.
  - by rewrite <- HD.
  - by rewrite <- HD.
  - clear -HC li_client_nodup0. induction HC as [|l l' C C' Hl _ IH]; [done|].
    apply Forall_cons in li_client_nodup0 as [? ?]. constructor; [by rewrite <- Hl|auto].
  - clear -HC li_client_range0. induction HC as [|l l' C C' Hl _ IH]; [done|].
    apply Forall_cons in li_client_range0 as [? ?]. constructor; [by rewrite <- Hl|auto].
  - intros i Hi. rewrite <- (occurs_perm i C C') by done. auto.
  - intros i Hi. rewrite <- HD. auto.
Qed.

Lemma ledger_driver_length D : ledger_inv N D C R -> Z.of_nat (length D) <= Z.max 0 N.
Proof. intros []. by apply nodup_range_length. Qed.

Lemma ledger_client_length D c l : ledger_inv N D C R -> C !! c = Some l -> Z.of_nat (length l) <= Z.max 0 N.
Proof.
  intros [] Hc. apply nodup_range_length.
  - rewrite Forall_lookup in li_client_nodup0. eauto.
  - rewrite Forall_lookup in li_client_range0. eauto.
Qed.

Lemma ledger_refs_insert D i r j :
  ledger_inv N D C R -> 0 <= i < N -> 0 <= j < N ->
  <[Z.to_nat i := r]> R !!! Z.to_nat j = if decide (j = i) then r else R !!! Z.to_nat j.
Proof.
  intros [] Hi Hj. case_decide as E.
  - subst. apply list_lookup_total_insert_eq. lia.
  - apply list_lookup_total_insert_ne. lia.
Qed.

(** A buffer of the driver has count 0 and is with no client. *)
Lemma ledger_driver_head i D :
  ledger_inv N (i :: D) C R -> 0 <= i < N /\ R !! Z.to_nat i = Some 0 /\ Forall (fun l => i ∉ l) C.
Proof.
  intros []. apply Forall_cons in li_driver_range0 as [Hi _].
  assert (R !!! Z.to_nat i = 0) as E by (apply li_owner0; [done|set_solver]).
  split_and!; [lia..| |].
  - rewrite list_lookup_lookup_total_lt by lia. by rewrite E.
  - apply Forall_forall. intros l Hl. apply (occurs_zero i C); [|done]. by rewrite <- li_refs0.
Qed.

Lemma ledger_owner_tail i D j :
  NoDup (i :: D) -> j ≠ i -> (j ∈ i :: D) <-> j ∈ D.
Proof. intros _ ?. set_solver. Qed.

(** The driver's buffer [i] goes to client [c]. *)
Lemma ledger_give i D c l :
  ledger_inv N (i :: D) C R -> C !! c = Some l ->
  ledger_inv N D (<[c := i :: l]> C) (<[Z.to_nat i := 1]> R).
Proof.
  intros H Hc. destruct (ledger_driver_head _ _ H) as (Hi & _ & Hno). pose proof H as [].
  apply NoDup_cons in li_driver_nodup0 as [Hni Hnd]. apply Forall_cons in li_driver_range0 as [_ ?].
  assert (i ∉ l) as Hil by (rewrite Forall_lookup in Hno; eauto).
  split; try done.
  - apply Forall_insert; [done|]. constructor; [done|]. rewrite Forall_lookup in li_client_nodup0. eauto.
  - apply Forall_insert; [done|]. constructor; [done|]. rewrite Forall_lookup in li_client_range0. eauto.
  - by rewrite length_insert.
  - intros j Hj. rewrite (ledger_refs_insert _ _ _ _ H), (occurs_insert _ _ _ _ _ Hc) by done.
    rewrite <- li_refs0 by done. case_decide as E.
    + subst j. rewrite (bool_decide_eq_false_2 (i ∈ l)), (bool_decide_eq_true_2 (i ∈ i :: l)) by (done || set_solver).
      assert (R !!! Z.to_nat i = 0) as -> by (apply li_owner0; [done|set_solver]). done.
    + rewrite (bool_decide_ext (j ∈ i :: l) (j ∈ l)) by set_solver. lia.
  - intros j Hj. rewrite (ledger_refs_insert _ _ _ _ H) by done. case_decide as E.
    + subst j. split; [done|lia].
    + rewrite <- li_owner0 by done. set_solver.
Qed.

(** The driver's buffer [i] goes to every client. *)
Lemma ledger_give_all i D :
  ledger_inv N (i :: D) C R -> C <> [] ->
  ledger_inv N D ((fun l => i :: l) <$> C) (<[Z.to_nat i := Z.of_nat (length C)]> R).
Proof.
  intros H Hc. destruct (ledger_driver_head _ _ H) as (Hi & _ & Hno). pose proof H as [].
  apply NoDup_cons in li_driver_nodup0 as [Hni Hnd]. apply Forall_cons in li_driver_range0 as [_ ?].
  assert (0 < Z.of_nat (length C)) by (destruct C; cbn; [done|lia]).
  split; try done.
  - apply Forall_fmap. rewrite Forall_forall in *. intros l Hl. apply NoDup_cons. auto.
  - apply Forall_fmap. rewrite Forall_forall in *. intros l Hl. cbn. apply Forall_cons. auto.
  - by rewrite length_insert.
  - intros j Hj. rewrite (ledger_refs_insert _ _ _ _ H), occurs_map_cons by done.
    case_decide; auto.
  - intros j Hj. rewrite (ledger_refs_insert _ _ _ _ H) by done. case_decide as E.
    + subst j. split; [done|lia].
    + rewrite <- li_owner0 by done. set_solver.
Qed.

(** Client [c] gives [i] back; the driver gets it if nobody else has it. *)
Lemma ledger_return i D c l :
  ledger_inv N D C R -> C !! c = Some (i :: l) ->
  let r := R !!! Z.to_nat i - 1 in
  0 <= i < N /\ 0 <= r < Z.of_nat (length C) /\
  ledger_inv N (if r =? 0 then i :: D else D) (<[c := l]> C) (<[Z.to_nat i := r]> R).
Proof.
  intros H Hc r. pose proof H as [].
  pose proof (proj1 (Forall_lookup _ _) li_client_nodup0 _ _ Hc) as [Hni Hnd]%NoDup_cons.
  pose proof (proj1 (Forall_lookup _ _) li_client_range0 _ _ Hc) as [Hi Hr]%Forall_cons.
  assert (0 < occurs i C) as Hpos by (eapply occurs_pos; [done|set_solver]).
  pose proof (occurs_range i C). rewrite <- li_refs0 in * by done.
  split_and!; [lia..|]. split.
  - destruct (Z.eqb_spec r 0); [|done]. apply NoDup_cons. split; [|done]. intros ?%li_owner0; lia.
  - destruct (r =? 0); [|done]. by constructor.
  - by apply Forall_insert.
  - by apply Forall_insert.
  - by rewrite length_insert.
  - intros j Hj. rewrite (ledger_refs_insert _ _ _ _ H), (occurs_insert _ _ _ _ _ Hc) by done.
    rewrite <- li_refs0 by done. case_decide as E.
    + subst j. rewrite (bool_decide_eq_true_2 (i ∈ i :: l)), (bool_decide_eq_false_2 (i ∈ l)) by (done || set_solver). lia.
    + rewrite (bool_decide_ext (j ∈ i :: l) (j ∈ l)) by set_solver. lia.
  - intros j Hj. rewrite (ledger_refs_insert _ _ _ _ H) by done.
    pose proof (li_owner0 j Hj). case_decide as E.
    + subst j. destruct (Z.eqb_spec r 0); [set_solver|]. split; [|done]. intros ?%li_owner0; lia.
    + destruct (r =? 0); [|done]. set_solver.
Qed.

End ledger.
