(* ===== verification/NetVirtRx.v ===== *)
(** * The network receive virtualiser: network/components/virt_rx.c

    Packets arrive in buffers of the driver's region; the virtualiser hands
    each buffer to the client its destination address names, to all clients if
    it is the broadcast address, or back to the driver, and keeps a reference
    count per buffer until the clients have returned it. *)

From S2P Require Import Prelude Ring Fifo NetQueue BufferLedger Microkit.

Definition BROADCAST_ID : Z := -2.
Definition ETH_HWADDR_LEN : Z := 6.
Definition SDDF_NET_MAX_CLIENTS : Z := 64.

Record net_virt_rx_config : Type := mk_rx_config {
  rc_driver_id : Z;
  rc_io_addr : Z;              (* data.io_addr *)
  rc_client_ids : list Z;      (* clients[i].conn.id *)
  rc_client_macs : list (list Z); (* clients[i].mac_addr *)
  rc_num_clients : Z;          (* uint8_t *)
}.

(** [rx_queue_clients] has one entry per configured client: the entries that
    [init] sets up.  [rx_data] is the data region, which the device writes. *)
Record state : Type := mk_state {
  rx_queue_drv : net_queue_handle;
  rx_queue_clients : list net_queue_handle;
  buffer_refs : list Z;  (* uint32_t *)
  notify_drv : bool;
  rx_data : list Z;
  rx_events : list event;
}.

Definition set_rx_drv (q : net_queue_handle) (s : state) : state :=
  mk_state q (rx_queue_clients s) (buffer_refs s) (notify_drv s) (rx_data s) (rx_events s).
Definition set_rx_clients (l : list net_queue_handle) (s : state) : state :=
  mk_state (rx_queue_drv s) l (buffer_refs s) (notify_drv s) (rx_data s) (rx_events s).
Definition set_buffer_refs (l : list Z) (s : state) : state :=
  mk_state (rx_queue_drv s) (rx_queue_clients s) l (notify_drv s) (rx_data s) (rx_events s).
Definition set_notify_drv (b : bool) (s : state) : state :=
  mk_state (rx_queue_drv s) (rx_queue_clients s) (buffer_refs s) b (rx_data s) (rx_events s).
Definition rx_emit (e : event) : M state unit := modify (fun s =>
  mk_state (rx_queue_drv s) (rx_queue_clients s) (buffer_refs s) (notify_drv s) (rx_data s) (rx_events s ++ [e])).

Definition on_drv {A} (m : M net_queue_handle A) : M state A := zoom rx_queue_drv set_rx_drv m.
Definition on_cli {A} (i : Z) (m : M net_queue_handle A) : M state A :=
  zoom_nth rx_queue_clients set_rx_clients i m.

(** [buffer_refs[i] = r]. *)
Definition set_ref (i r : Z) : M state unit :=
  s ← get;
  refs ← lift (store (buffer_refs s) i r);
  put (set_buffer_refs refs s).

(** The loop over the [n] bytes of an address from the [i]-th on, which ends at
    the first difference. *)
Fixpoint addr_match (n : nat) (data : list Z) (buffer : Z) (addr : Z -> res Z) (i : Z) : res bool :=
  match n with
  | O => Ok true
  | S n' =>
    b ← load data (buffer + i);
    a ← addr i;
    if b =? a then addr_match n' data buffer addr (i + 1) else Ok false
  end.

Fixpoint client_match (data : list Z) (buffer : Z) (macs : list (list Z)) (client : Z) : res (option Z) :=
  match macs with
  | [] => Ok None
  | mac :: macs' =>
    m ← addr_match (Z.to_nat ETH_HWADDR_LEN) data buffer (load mac) 0;
    if (m : bool) then Ok (Some client) else client_match data buffer macs' (client + 1)
  end.

(** [buffer] is the offset of the packet in the region [data]. *)
Definition get_mac_addr_match (config : net_virt_rx_config) (data : list Z) (buffer : Z) : res Z :=
  c ← client_match data buffer (take (Z.to_nat (rc_num_clients config)) (rc_client_macs config)) 0;
  match c with
  | Some client => Ok client
  | None =>
    broadcast_match ← addr_match (Z.to_nat ETH_HWADDR_LEN) data buffer (fun _ => Ok 255) 0;
    Ok (if (broadcast_match : bool) then BROADCAST_ID else -1)
  end.

Section handlers.
Context (config : net_virt_rx_config).

(** The body of the inner loop of [rx_return]; the local variable is
    [notify_clients]. *)
Definition rx_return_body : M (state * list bool) unit :=
  r ← on_state (on_drv net_dequeue_active);
  match r with
  | None => raise AssertFail
  | Some b =>
    let offset := u64 (io_or_offset b - rc_io_addr config) in
    let buffer := mk_buff offset (bd_len b) in
    p ← get;
    client ← lift (get_mac_addr_match config (rx_data p.1) offset);
    if client =? BROADCAST_ID then
      let ref_index := s32 (offset / NET_BUFFER_SIZE) in
      ref ← lift (load (buffer_refs p.1) ref_index);
      assert_ (ref =? 0);;
      on_state (set_ref ref_index (rc_num_clients config));;
      for_upto (rc_num_clients config) (fun i =>
        err ← on_state (on_cli i (net_enqueue_active buffer));
        assert_ (err =? 0);;
        p ← get;
        notify ← lift (store p.2 i true);
        set_local notify)
    else if 0 <=? client then
      let ref_index := s32 (offset / NET_BUFFER_SIZE) in
      ref ← lift (load (buffer_refs p.1) ref_index);
      assert_ (ref =? 0);;
      on_state (set_ref ref_index 1);;
      err ← on_state (on_cli client (net_enqueue_active buffer));
      assert_ (err =? 0);;
      notify ← lift (store p.2 client true);
      set_local notify
    else
      err ← on_state (on_drv (net_enqueue_free (mk_buff (u64 (offset + rc_io_addr config)) (bd_len b))));
      assert_ (err =? 0);;
      on_state (modify (set_notify_drv true))
  end.

Definition drv_active_more (p : state * list bool) : bool := negb (net_queue_empty_active (rx_queue_drv p.1)).
Definition drv_active_length (p : state * list bool) : nat := Z.to_nat (net_queue_length (nh_active (rx_queue_drv p.1))).

(** The outer loop: [reprocess] is the flag of the pair.  Nobody else runs
    between the request for a signal and the second test, so the second
    iteration never happens and a bound of 2 is enough. *)
Definition rx_return_outer : M ((state * list bool) * bool) unit :=
  on_state (loop drv_active_length drv_active_more rx_return_body);;
  on_state (on_state (on_drv net_request_signal_active));;
  p ← get;
  if negb (net_queue_empty_active (rx_queue_drv p.1.1))
  then on_state (on_state (on_drv net_cancel_signal_active));; set_local true
  else set_local false.

Definition rx_notify_client (notify_clients : list bool) (client : Z) : M state unit :=
  n ← lift (load notify_clients client);
  s ← get;
  q ← lift (load (rx_queue_clients s) client);
  when (n && net_require_signal_active q)
    (on_cli client net_cancel_signal_active;;
     id ← lift (load (rc_client_ids config) client);
     rx_emit (Notify id)).

Definition rx_return : M state unit :=
  r ← with_local (replicate (Z.to_nat SDDF_NET_MAX_CLIENTS) false)
        (with_local true (loop (fun _ => 2%nat) snd rx_return_outer));
  let notify_clients := (r : unit * bool * list bool).2 in
  for_upto (rc_num_clients config) (rx_notify_client notify_clients).

(** The body of the inner loop of [rx_provide]. *)
Definition rx_provide_body (client : Z) : M state unit :=
  r ← on_cli client net_dequeue_free;
  match r with
  | None => raise AssertFail
  | Some b =>
    s ← get;
    q ← lift (load (rx_queue_clients s) client);
    assert_ ((io_or_offset b mod NET_BUFFER_SIZE =? 0)
             && (io_or_offset b <? u32 (NET_BUFFER_SIZE * nh_capacity q)));;
    let ref_index := s32 (io_or_offset b / NET_BUFFER_SIZE) in
    ref ← lift (load (buffer_refs s) ref_index);
    assert_ (negb (ref =? 0));;
    set_ref ref_index (u32 (ref - 1));;
    if negb (u32 (ref - 1) =? 0) then mret tt else
    err ← on_drv (net_enqueue_free (mk_buff (u64 (io_or_offset b + rc_io_addr config)) (bd_len b)));
    assert_ (err =? 0);;
    modify (set_notify_drv true)
  end.

Definition cli_free_more (client : Z) (s : state) : bool :=
  match rx_queue_clients s !! Z.to_nat client with
  | Some q => negb (net_queue_empty_free q)
  | None => false
  end.
Definition cli_free_length (client : Z) (s : state) : nat :=
  match rx_queue_clients s !! Z.to_nat client with
  | Some q => Z.to_nat (net_queue_length (nh_free q))
  | None => 0
  end.

Definition rx_provide_outer (client : Z) : M (state * bool) unit :=
  on_state (loop (cli_free_length client) (cli_free_more client) (rx_provide_body client));;
  on_state (on_cli client net_request_signal_free);;
  p ← get;
  if cli_free_more client p.1
  then on_state (on_cli client net_cancel_signal_free);; set_local true
  else set_local false.

Definition rx_provide : M state unit :=
  for_upto (rc_num_clients config) (fun client =>
    with_local true (loop (fun _ => 2%nat) snd (rx_provide_outer client));; mret tt);;
  s ← get;
  when (notify_drv s && net_require_signal_free (rx_queue_drv s))
    (on_drv net_cancel_signal_free;;
     rx_emit (DeferredNotify (rc_driver_id config));;
     modify (set_notify_drv false)).

Definition notified (ch : Z) : M state unit := rx_return;; rx_provide.

(** [init]: [magic] is the result of [net_config_check_magic]; [drv] and
    [clients] are the queues in the mapped regions with the configured numbers
    of buffers. *)
Definition init (magic : bool) (refs : list Z) (drv : net_queue_handle) (clients : list net_queue_handle)
  : M state unit :=
  assert_ magic;;
  modify (set_buffer_refs refs);;
  for_upto (rc_num_clients config) (fun i =>
    c ← lift (load clients i);
    on_cli i (put (net_queue_init (nh_free c) (nh_active c) (nh_capacity c))));;
  on_drv (put (net_queue_init (nh_free drv) (nh_active drv) (nh_capacity drv)));;
  on_drv (net_buffers_init (rc_io_addr config));;
  s ← get;
  when (net_require_signal_free (rx_queue_drv s))
    (on_drv net_cancel_signal_free;; rx_emit (DeferredNotify (rc_driver_id config))).

End handlers.

(** ** Addresses *)

Lemma addr_match_spec data (buffer : Z) (addr : Z -> res Z) (l : list Z) (i : Z) :
  0 <= buffer -> 0 <= i ->
  buffer + i + Z.of_nat (length l) <= Z.of_nat (length data) ->
  (forall k, (k < length l)%nat -> addr (i + Z.of_nat k) = Ok (l !!! k)) ->
  addr_match (length l) data buffer addr i
  = Ok (bool_decide (take (length l) (drop (Z.to_nat (buffer + i)) data) = l)).
Proof.
  revert i. induction l as [|x l IH]; intros i Hb Hi Hlen Haddr; [done|].
  cbn [length] in *. cbn [addr_match].
  destruct (lookup_lt_is_Some_2 data (Z.to_nat (buffer + i))) as [b Eb]; [lia|].
  rewrite (load_ok data (buffer + i) b) by (done || lia). cbn.
  pose proof (Haddr 0%nat ltac:(lia)) as H0. rewrite Z.add_0_r in H0. rewrite H0. cbn.
  rewrite (drop_S _ _ _ Eb), firstn_cons.
  destruct (Z.eqb_spec b x) as [->|Hne].
  - rewrite IH; try lia.
    + replace (Z.to_nat (buffer + (i + 1))) with (S (Z.to_nat (buffer + i))) by lia.
      f_equal. apply bool_decide_ext. split; [by intros ->|by intros [= ->]].
    + intros k Hk. replace (i + 1 + Z.of_nat k) with (i + Z.of_nat (S k)) by lia. apply (Haddr (S k)). lia.
  - rewrite bool_decide_eq_false_2; [done|]. by intros [= ->].
Qed.

(** The destination address of the packet at [off]. *)
Definition dest_of (data : list Z) (off : Z) : list Z := take 6 (drop (Z.to_nat off) data).

(** The client with the address, from client number [c] on. *)
Fixpoint mac_owner (dest : list Z) (macs : list (list Z)) (c : Z) : option Z :=
  match macs with
  | [] => None
  | mac :: macs' => if bool_decide (dest = mac) then Some c else mac_owner dest macs' (c + 1)
  end.

Definition rx_target (config : net_virt_rx_config) (data : list Z) (off : Z) : Z :=
  match mac_owner (dest_of data off) (rc_client_macs config) 0 with
  | Some c => c
  | None => if bool_decide (dest_of data off = replicate 6 255) then BROADCAST_ID else -1
  end.

Lemma client_match_spec data off macs c :
  0 <= off -> off + 6 <= Z.of_nat (length data) -> Forall (fun mac => length mac = 6%nat) macs ->
  client_match data off macs c = Ok (mac_owner (dest_of data off) macs c).
Proof.
  intros Ho Hl. revert c. induction macs as [|mac macs IH]; intros c Hm; [done|].
  apply Forall_cons_1 in Hm as [Hmac Hm]. cbn [client_match mac_owner].
  change (Z.to_nat ETH_HWADDR_LEN) with 6%nat. rewrite <- Hmac at 1.
  rewrite addr_match_spec; [|lia..|].
  - rewrite Z.add_0_r, Hmac. unfold mbind, res_bind. unfold dest_of. case_bool_decide; [done|by apply IH].
  - intros k Hk. rewrite Z.add_0_l, (load_nat mac k (mac !!! k)); [done|]. by apply list_lookup_lookup_total_lt.
Qed.

Lemma get_mac_addr_match_spec config data off :
  0 <= off -> off + 6 <= Z.of_nat (length data) ->
  Forall (fun mac => length mac = 6%nat) (rc_client_macs config) ->
  rc_num_clients config = Z.of_nat (length (rc_client_macs config)) ->
  get_mac_addr_match config data off = Ok (rx_target config data off).
Proof.
  intros Ho Hl Hm Hn. unfold get_mac_addr_match, rx_target.
  rewrite Hn, Nat2Z.id, firstn_all, client_match_spec by done.
  unfold mbind, res_bind. destruct (mac_owner _ _ _); [done|].
  change (Z.to_nat ETH_HWADDR_LEN) with (length (replicate 6 255)).
  rewrite addr_match_spec; [|lia|lia|cbn; lia|].
  - rewrite Z.add_0_r. unfold dest_of. change (length (replicate 6 255)) with 6%nat. by case_bool_decide.
  - intros k Hk. f_equal. symmetry. apply lookup_total_replicate_2. by rewrite length_replicate in Hk.
Qed.

Lemma mac_owner_range dest macs c d :
  mac_owner dest macs c = Some d -> c <= d < c + Z.of_nat (length macs).
Proof.
  revert c. induction macs as [|mac macs IH]; intros c; cbn; [done|].
  case_bool_decide; [intros [= ->]; lia|]. intros ?%IH. lia.
Qed.

(** The target is a client, the broadcast marker or none. *)
Lemma rx_target_cases config data off :
  0 <= rx_target config data off < Z.of_nat (length (rc_client_macs config))
  \/ rx_target config data off = BROADCAST_ID \/ rx_target config data off = -1.
Proof.
  unfold rx_target. destruct (mac_owner _ _ _) as [c|] eqn:E.
  - apply mac_owner_range in E. lia.
  - case_bool_decide; auto.
Qed.

(** ** The invariant of the virtualiser *)

Section invariant.
Context (config : net_virt_rx_config) (N : Z).

(** The configuration, which no operation changes. *)
Record rx_config_ok : Prop := mk_rx_config_ok {
  cok_num : 1 <= rc_num_clients config <= SDDF_NET_MAX_CLIENTS;
  cok_macs : rc_num_clients config = Z.of_nat (length (rc_client_macs config));
  cok_mac_len : Forall (fun mac => length mac = 6%nat) (rc_client_macs config);
  cok_ids : rc_num_clients config = Z.of_nat (length (rc_client_ids config));
  cok_io : 0 <= rc_io_addr config;
  cok_io_max : rc_io_addr config + NET_BUFFER_SIZE * N < 2 ^ 64;
}.

(** The buffer that a descriptor in a queue of the driver, respectively of a
    client, stands for. *)
Definition drv_index (b : net_buff_desc) : Z := (io_or_offset b - rc_io_addr config) / NET_BUFFER_SIZE.
Definition cli_index (b : net_buff_desc) : Z := io_or_offset b / NET_BUFFER_SIZE.
Definition drv_desc (b : net_buff_desc) : Prop :=
  io_or_offset b = rc_io_addr config + NET_BUFFER_SIZE * drv_index b.
Definition cli_desc (b : net_buff_desc) : Prop := io_or_offset b = NET_BUFFER_SIZE * cli_index b.

Definition drv_items (q : net_queue_handle) : list net_buff_desc := net_items Active q ++ net_items Free q.

Record drv_wf (q : net_queue_handle) : Prop := mk_drv_wf {
  dw_free : net_wf Free q;
  dw_active : net_wf Active q;
  dw_cap : nh_capacity q = N;
  dw_desc : Forall drv_desc (drv_items q);
}.

Record cli_wf (q : net_queue_handle) : Prop := mk_cli_wf {
  cw_free : net_wf Free q;
  cw_active : net_wf Active q;
  cw_cap : N <= nh_capacity q;
  cw_desc : Forall cli_desc (drv_items q);
}.

(** The buffers in the possession of the driver and of each client: those in
    the queues it shares with the virtualiser and those it holds ([hd],
    [hc]). *)
Definition drv_possession (q : net_queue_handle) (hd : list Z) : list Z :=
  (drv_index <$> drv_items q) ++ hd.
Definition cli_possession (q : net_queue_handle) (h : list Z) : list Z :=
  (cli_index <$> drv_items q) ++ h.
Definition clis_possession (qs : list net_queue_handle) (hc : list (list Z)) : list (list Z) :=
  zip_with cli_possession qs hc.

Record rx_inv (hd : list Z) (hc : list (list Z)) (s : state) : Prop := mk_rx_inv {
  ri_drv : drv_wf (rx_queue_drv s);
  ri_len : Z.of_nat (length (rx_queue_clients s)) = rc_num_clients config;
  ri_clients : Forall cli_wf (rx_queue_clients s);
  ri_held : Z.of_nat (length hc) = rc_num_clients config;
  ri_data : NET_BUFFER_SIZE * N <= Z.of_nat (length (rx_data s));
  ri_ledger : ledger_inv N (drv_possession (rx_queue_drv s) hd) (clis_possession (rx_queue_clients s) hc)
                (buffer_refs s);
}.

(** ** Handing one buffer to clients *)

(** [q'] is [q] with [l] appended to the active ring. *)
Definition cli_appended (q : net_queue_handle) (l : list net_buff_desc) (q' : net_queue_handle) : Prop :=
  net_wf Active q' /\ net_items Active q' = net_items Active q ++ l /\
  nh_capacity q' = nh_capacity q /\ net_rest Active q' = net_rest Active q.

(** [T] says which clients got the buffer. *)
Definition handed (T : nat -> bool) (b : net_buff_desc) (qs qs' : list net_queue_handle) : Prop :=
  length qs' = length qs /\
  forall c q, qs !! c = Some q ->
    exists q', qs' !! c = Some q' /\ if T c then cli_appended q [b] q' else q' = q.

Lemma cli_appended_nil q : net_wf Active q -> cli_appended q [] q.
Proof. intros. split_and!; try done. by rewrite app_nil_r. Qed.

Lemma cli_appended_trans q l q' l' q'' :
  cli_appended q l q' -> cli_appended q' l' q'' -> cli_appended q (l ++ l') q''.
Proof.
  intros (? & Ei & Ec & Er) (? & Ei' & Ec' & Er').
  split_and!; [done| |by rewrite Ec'|by rewrite Er']. by rewrite Ei', Ei, app_assoc.
Qed.

Lemma cli_appended_free q l q' :
  cli_appended q l q' -> (net_wf Free q' <-> net_wf Free q) /\ net_items Free q' = net_items Free q.
Proof. intros (_ & _ & Ec & Er). by apply (net_rest_other Active). Qed.

Lemma cli_appended_possession q b q' h :
  cli_appended q [b] q' -> cli_possession q' h ≡ₚ cli_index b :: cli_possession q h.
Proof.
  intros Ha. destruct (cli_appended_free _ _ _ Ha) as [_ Ef]. destruct Ha as (_ & Ei & _ & _).
  unfold cli_possession, drv_items. rewrite Ei, Ef, !fmap_app. cbn. solve_Permutation.
Qed.

Lemma cli_appended_wf q b q' : cli_desc b -> cli_wf q -> cli_appended q [b] q' -> cli_wf q'.
Proof.
  intros Hb [] Ha. destruct (cli_appended_free _ _ _ Ha) as [Hf Ef]. destruct Ha as (? & Ei & Ec & _).
  split; [by apply Hf|done|lia|]. unfold drv_items in *. rewrite Ei, Ef.
  rewrite !Forall_app in *. naive_solver.
Qed.

Lemma handed_wf T b qs qs' : cli_desc b -> Forall cli_wf qs -> handed T b qs qs' -> Forall cli_wf qs'.
Proof.
  intros Hb Hq [Hlen Hh]. apply Forall_lookup. intros c q' Hc.
  destruct (lookup_lt_is_Some_2 qs c) as [q E]; [apply lookup_lt_Some in Hc; lia|].
  rewrite Forall_lookup in Hq. specialize (Hq _ _ E). destruct (Hh _ _ E) as (q1 & E1 & Hq1).
  assert (q1 = q') as -> by congruence. destruct (T c); [by eapply cli_appended_wf|by subst].
Qed.

Lemma handed_all_possession b qs qs' hc :
  handed (fun _ => true) b qs qs' -> length hc = length qs ->
  Forall2 Permutation ((fun l => cli_index b :: l) <$> clis_possession qs hc) (clis_possession qs' hc).
Proof.
  intros [Hlen Hh] Hl. unfold clis_possession. apply Forall2_lookup. intros c.
  rewrite list_lookup_fmap, !lookup_zip_with.
  destruct (qs !! c) as [q|] eqn:Eq; cbn; last first.
  { apply lookup_ge_None_1 in Eq. rewrite (lookup_ge_None_2 qs') by lia. constructor. }
  destruct (Hh c q Eq) as (q' & Eq' & Ha). rewrite Eq'. cbn.
  destruct (hc !! c) as [h|] eqn:Eh; cbn; constructor. symmetry. by apply cli_appended_possession.
Qed.

Lemma handed_one_possession b qs qs' hc c q h :
  handed (fun c' => Nat.eqb c' c) b qs qs' -> qs !! c = Some q -> hc !! c = Some h ->
  Forall2 Permutation (<[c := cli_index b :: cli_possession q h]> (clis_possession qs hc)) (clis_possession qs' hc).
Proof.
  intros [Hlen Hh] Hq Hhc. apply Forall2_lookup. intros c'.
  assert (c < length (clis_possession qs hc))%nat as Hlt.
  { unfold clis_possession. rewrite length_zip_with. apply lookup_lt_Some in Hq, Hhc. lia. }
  destruct (decide (c' = c)) as [->|Hne].
  - destruct (Hh c q Hq) as (q' & Eq' & Ha). rewrite Nat.eqb_refl in Ha.
    rewrite list_lookup_insert_eq by done. unfold clis_possession. rewrite lookup_zip_with, Eq', Hhc. cbn.
    constructor. symmetry. by apply cli_appended_possession.
  - rewrite list_lookup_insert_ne by done. unfold clis_possession. rewrite !lookup_zip_with.
    destruct (qs !! c') as [q1|] eqn:Eq; cbn; last first.
    { apply lookup_ge_None_1 in Eq. rewrite (lookup_ge_None_2 qs') by lia. constructor. }
    destruct (Hh c' q1 Eq) as (q' & Eq' & Ha). rewrite (proj2 (Nat.eqb_neq _ _) Hne) in Ha.
    rewrite Eq'. subst q'. cbn. destruct (hc !! c'); cbn; by constructor.
Qed.

(** A client that does not have a buffer has room for it. *)
Lemma cli_room (qs : list net_queue_handle) hc D R i (c : nat) q :
  0 <= N -> Forall cli_wf qs -> length hc = length qs ->
  ledger_inv N (i :: D) (clis_possession qs hc) R -> qs !! c = Some q ->
  Z.of_nat (length (net_items Active q)) < nh_capacity q.
Proof.
  intros HN Hq Hl Hled Hc.
  destruct (lookup_lt_is_Some_2 hc c) as [h Hh]; [apply lookup_lt_Some in Hc; lia|].
  assert (clis_possession qs hc !! c = Some (cli_possession q h)) as Hp
    by (unfold clis_possession; by rewrite lookup_zip_with, Hc, Hh).
  pose proof (ledger_give _ _ _ _ _ _ _ Hled Hp) as Hled'.
  eapply (ledger_client_length _ _ _ _ c) in Hled'; [|apply list_lookup_insert_eq; by eapply lookup_lt_Some].
  unfold cli_possession, drv_items in Hled'. rewrite fmap_app in Hled'.
  cbn [length] in Hled'. rewrite !length_app, !length_fmap in Hled'.
  rewrite Forall_lookup in Hq. destruct (Hq _ _ Hc). lia.
Qed.

End invariant.

(** ** rx_return *)

(** The descriptor as clients see it. *)
Definition rx_translate (config : net_virt_rx_config) (b : net_buff_desc) : net_buff_desc :=
  mk_buff (io_or_offset b - rc_io_addr config) (bd_len b).

(** Who gets the buffer [b] of the driver. *)
Definition rx_target_of (config : net_virt_rx_config) (data : list Z) (b : net_buff_desc) : Z :=
  rx_target config data (io_or_offset b - rc_io_addr config).
Definition rx_for (config : net_virt_rx_config) (data : list Z) (c : nat) (b : net_buff_desc) : bool :=
  (rx_target_of config data b =? Z.of_nat c) || (rx_target_of config data b =? BROADCAST_ID).

(** What client [c] receives of the driver's active buffers [A], and what goes
    back to the driver. *)
Definition rx_gets (config : net_virt_rx_config) (data : list Z) (c : nat) (A : list net_buff_desc)
  : list net_buff_desc :=
  rx_translate config <$> filter (fun b => rx_for config data c b = true) A.
Definition rx_back (config : net_virt_rx_config) (data : list Z) (A : list net_buff_desc) : list net_buff_desc :=
  filter (fun b => rx_target_of config data b = -1) A.

Section rx_return.
Context (config : net_virt_rx_config) (N : Z) (Hok : rx_config_ok config N).
Context (hd : list Z) (hc : list (list Z)).

#[local] Abbreviation inv := (rx_inv config N hd hc).

Lemma rx_gets_snoc data c A b :
  rx_gets config data c (A ++ [b])
  = rx_gets config data c A ++ (if rx_for config data c b then [rx_translate config b] else []).
Proof.
  unfold rx_gets. rewrite filter_app, fmap_app. f_equal.
  rewrite filter_cons, filter_nil. by destruct (rx_for config data c b).
Qed.

Lemma rx_back_snoc data A b :
  rx_back config data (A ++ [b])
  = rx_back config data A ++ (if decide (rx_target_of config data b = -1) then [b] else []).
Proof. unfold rx_back. rewrite filter_app, filter_cons, filter_nil. by case_decide. Qed.

Lemma on_cli_enqueue (s : state) (n : list bool) (c : nat) q b (Q : Z -> state * list bool -> Prop) :
  rx_queue_clients s !! c = Some q -> net_wf Active q ->
  Z.of_nat (length (net_items Active q)) < nh_capacity q ->
  (forall q', cli_appended q [b] q' -> Q 0 (set_rx_clients (<[c := q']> (rx_queue_clients s)) s, n)) ->
  wp (on_state (on_cli (Z.of_nat c) (net_enqueue_active b))) (s, n) Q.
Proof.
  intros Hc Hwf Hr HQ. wp_step. eapply wp_zoom_nth; [lia|by rewrite Nat2Z.id|].
  apply net_enqueue_spec; [done..|]. intros q' ? ? ? ?. rewrite Nat2Z.id. by apply HQ.
Qed.

(** The copies of a broadcast buffer. *)
Lemma rx_broadcast_loop (s : state) (n : list bool) b (Q : unit -> state * list bool -> Prop) :
  Z.of_nat (length (rx_queue_clients s)) = rc_num_clients config ->
  rc_num_clients config <= Z.of_nat (length n) ->
  Forall (net_wf Active) (rx_queue_clients s) ->
  (forall c q, rx_queue_clients s !! c = Some q -> Z.of_nat (length (net_items Active q)) < nh_capacity q) ->
  (forall qs' n', handed (fun _ => true) b (rx_queue_clients s) qs' -> length n' = length n ->
     (forall c, Z.of_nat c < rc_num_clients config -> n' !! c = Some true) -> Q tt (set_rx_clients qs' s, n')) ->
  wp (for_upto (rc_num_clients config) (fun i =>
        err ← on_state (on_cli i (net_enqueue_active b));
        assert_ (err =? 0);;
        p ← get;
        notify ← lift (store p.2 i true);
        set_local notify)) (s, n) Q.
Proof.
  intros Hlen Hn Hwf Hroom HQ. unfold for_upto.
  eapply (wp_for_each (fun pre p => exists qs' n', p = (set_rx_clients qs' s, n') /\
    handed (fun c => c <? length pre)%nat b (rx_queue_clients s) qs' /\ length n' = length n /\
    (forall c, (c < length pre)%nat -> n' !! c = Some true))).
  - exists (rx_queue_clients s), n. split_and!; [by destruct s| |done|intros; cbn in *; lia].
    split; [done|]. intros c q Hc. by exists q.
  - intros pre i post p E (qs' & n' & -> & [Hl Hh] & Hn' & Ht).
    apply lookup_seqZ_prefix in E as [-> Hi].
    destruct (lookup_lt_is_Some_2 (rx_queue_clients s) (length pre)) as [q Hq]; [lia|].
    destruct (Hh _ _ Hq) as (q1 & Hq1 & Heq). rewrite Nat.ltb_irrefl in Heq. subst q1.
    wp_step. rewrite Forall_lookup in Hwf. eapply on_cli_enqueue; [done|eauto..|].
    intros q' Hq'. wp_step. apply wp_assert; [done|]. wp_step. wp_step. wp_step.
    eapply wp_lift; [apply store_nat; cbn; lia|]. wp_step. cbn [fst snd].
    exists (<[length pre := q']> qs'), (<[length pre := true]> n').
    rewrite length_app. cbn [length]. split_and!.
    + by destruct s.
    + split; [by rewrite length_insert|]. intros c q2 Hc.
      destruct (decide (c = length pre)) as [->|Hne].
      * exists q'. rewrite list_lookup_insert_eq by (by eapply lookup_lt_Some).
        rewrite (proj2 (Nat.ltb_lt _ _)) by lia. assert (q2 = q) as -> by congruence. done.
      * rewrite list_lookup_insert_ne by done. destruct (Hh _ _ Hc) as (q3 & ? & ?). exists q3.
        assert ((c <? length pre + 1)%nat = (c <? length pre)%nat) as ->; [|done].
        apply eq_true_iff_eq. rewrite !Nat.ltb_lt. lia.
    + by rewrite length_insert.
    + intros c Hc. destruct (decide (c = length pre)) as [->|Hne].
      * apply list_lookup_insert_eq. lia.
      * rewrite list_lookup_insert_ne by done. apply Ht. lia.
  - intros p (qs' & n' & -> & [Hl Hh] & Hn' & Ht). rewrite length_seqZ in *. apply HQ; [|done|].
    + split; [done|]. intros c q Hc. destruct (Hh _ _ Hc) as (q' & ? & Ha). exists q'.
      rewrite (proj2 (Nat.ltb_lt _ _)) in Ha by (apply lookup_lt_Some in Hc; lia). done.
    + intros c Hc. apply Ht. lia.
Qed.

(** The buffers [A] have been taken from the driver and handed out. *)
Record rx_moved (A : list net_buff_desc) (p p' : state * list bool) : Prop := mk_rx_moved {
  rm_free : net_items Free (rx_queue_drv p'.1)
            = net_items Free (rx_queue_drv p.1) ++ rx_back config (rx_data p.1) A;
  rm_flag : nq_consumer_signalled (nh_free (rx_queue_drv p'.1)) = nq_consumer_signalled (nh_free (rx_queue_drv p.1));
  rm_len : length (rx_queue_clients p'.1) = length (rx_queue_clients p.1);
  rm_clients c q : rx_queue_clients p.1 !! c = Some q ->
    exists q', rx_queue_clients p'.1 !! c = Some q' /\ cli_appended q (rx_gets config (rx_data p.1) c A) q';
  rm_data : rx_data p'.1 = rx_data p.1;
  rm_events : rx_events p'.1 = rx_events p.1;
  rm_notify_drv : notify_drv p'.1 = notify_drv p.1 || bool_decide (rx_back config (rx_data p.1) A <> []);
  rm_notify_len : length p'.2 = length p.2;
  rm_notify c x : Z.of_nat c < rc_num_clients config -> p.2 !! c = Some x ->
    p'.2 !! c = Some (x || bool_decide (rx_gets config (rx_data p.1) c A <> []));
}.

Lemma rx_moved_nil p : Forall (net_wf Active) (rx_queue_clients p.1) -> rx_moved [] p p.
Proof.
  intros Hwf. split; try done.
  - by rewrite app_nil_r.
  - intros c q Hc. exists q. split; [done|]. apply cli_appended_nil. rewrite Forall_lookup in Hwf. eauto.
  - by rewrite bool_decide_eq_false_2, orb_false_r by auto.
  - intros c x _ Hx. by rewrite bool_decide_eq_false_2, orb_false_r by auto.
Qed.

Lemma bool_decide_app_nil {A} (l l' : list A) :
  bool_decide (l ++ l' <> []) = bool_decide (l <> []) || bool_decide (l' <> []).
Proof.
  destruct l as [|x l]; [done|]. by rewrite !bool_decide_eq_true_2 by done.
Qed.

Lemma rx_moved_app A A' p p' p'' :
  rx_moved A p p' -> rx_moved A' p' p'' -> rx_moved (A ++ A') p p''.
Proof.
  intros [] []. rewrite rm_data0 in *. split; try congruence.
  - unfold rx_back in *. rewrite filter_app, app_assoc. congruence.
  - intros c q Hc. destruct (rm_clients0 c q Hc) as (q' & Hc' & Ha). destruct (rm_clients1 c q' Hc') as (q'' & Hc'' & Ha').
    exists q''. split; [done|]. unfold rx_gets in *. rewrite filter_app, fmap_app. by eapply cli_appended_trans.
  - rewrite rm_notify_drv1, rm_notify_drv0. unfold rx_back. by rewrite filter_app, bool_decide_app_nil, orb_assoc.
  - intros c x Hc Hx. rewrite (rm_notify1 c _ Hc (rm_notify0 c x Hc Hx)).
    unfold rx_gets. by rewrite filter_app, fmap_app, bool_decide_app_nil, orb_assoc.
Qed.

(** A buffer handed to the clients in [T]. *)
Lemma rx_moved_handed b (s : state) n d' qs' refs' n' :
  length n' = length n ->
  let T := fun c => rx_for config (rx_data s) c b in
  rx_target_of config (rx_data s) b <> -1 ->
  net_rest Active d' = net_rest Active (rx_queue_drv s) -> nh_capacity d' = nh_capacity (rx_queue_drv s) ->
  Forall (net_wf Active) (rx_queue_clients s) ->
  handed T (rx_translate config b) (rx_queue_clients s) qs' ->
  (forall c x, Z.of_nat c < rc_num_clients config -> n !! c = Some x -> n' !! c = Some (x || T c)) ->
  rx_moved [b] (s, n) (mk_state d' qs' refs' (notify_drv s) (rx_data s) (rx_events s), n').
Proof.
  intros Hn T Ht Hr Hcap Hwf [Hlen Hh] Hnot.
  assert (forall c, rx_gets config (rx_data s) c [b] = if T c then [rx_translate config b] else []) as Hg.
  { intros c. exact (rx_gets_snoc (rx_data s) c [] b). }
  assert (rx_back config (rx_data s) [b] = []) as Hb.
  { unfold rx_back. rewrite filter_cons, filter_nil, decide_False; done. }
  destruct (net_rest_other Active _ _ Hr Hcap) as [_ Ef]. cbn [other] in Ef.
  split; cbn [fst snd rx_queue_drv rx_queue_clients rx_data rx_events notify_drv]; try done.
  - by rewrite Hb, app_nil_r.
  - unfold net_rest in Hr. cbn in Hr. congruence.
  - intros c q Hc. destruct (Hh c q Hc) as (q' & Hc' & Ha). exists q'. split; [done|]. rewrite Hg.
    destruct (T c); [done|]. subst q'. apply cli_appended_nil. rewrite Forall_lookup in Hwf. eauto.
  - by rewrite Hb, orb_false_r.
  - intros c x Hc Hx. rewrite (Hnot c x Hc Hx), Hg. by destruct (T c).
Qed.

Lemma set_ref_spec (s : state) (i r : Z) (Q : unit -> state -> Prop) :
  0 <= i < Z.of_nat (length (buffer_refs s)) ->
  Q tt (set_buffer_refs (<[Z.to_nat i := r]> (buffer_refs s)) s) -> wp (set_ref i r) s Q.
Proof.
  intros Hi HQ. unfold set_ref. wp_step. wp_step. wp_step.
  eapply wp_lift; [by apply store_ok|]. by wp_step.
Qed.

(** The state after the first active buffer [b] of the driver, whose index is
    [i], has been dequeued: the ledger without [i]. *)
Lemma rx_dequeued (s : state) b rest :
  inv s -> net_items Active (rx_queue_drv s) = b :: rest ->
  let i := drv_index config b in
  let D := (drv_index config <$> rest ++ net_items Free (rx_queue_drv s)) ++ hd in
  io_or_offset b = rc_io_addr config + NET_BUFFER_SIZE * i /\
  0 <= i < N /\ N < 2 ^ 16 /\
  ledger_inv N (i :: D) (clis_possession (rx_queue_clients s) hc) (buffer_refs s) /\
  Forall (drv_desc config) (rest ++ net_items Free (rx_queue_drv s)).
Proof.
  intros [[Hf Ha Hcap Hdesc] _ _ _ _ Hled] E i D. unfold drv_items in Hdesc. rewrite E in Hdesc.
  apply Forall_cons_1 in Hdesc as [Hb Hdesc].
  unfold drv_possession, drv_items in Hled. rewrite E in Hled.
  destruct (ledger_driver_head _ _ _ _ _ Hled) as (Hi & _ & _).
  split_and!; try done; try lia. destruct Ha. lia.
Qed.

(** The driver's queue after the dequeue of [b]. *)
Lemma rx_dequeued_drv (s : state) b rest d' :
  inv s -> net_items Active (rx_queue_drv s) = b :: rest ->
  net_wf Active d' -> net_items Active d' = rest -> nh_capacity d' = nh_capacity (rx_queue_drv s) ->
  net_rest Active d' = net_rest Active (rx_queue_drv s) ->
  drv_wf config N d' /\ drv_items d' = rest ++ net_items Free (rx_queue_drv s).
Proof.
  intros Hinv E Hwf Hi Hc Hr. destruct (rx_dequeued s b rest Hinv E) as (_ & _ & _ & _ & Hd).
  destruct Hinv as [[Hf Ha Hcap _] _ _ _ _ _].
  destruct (net_rest_other Active _ _ Hr Hc) as [Hwf' Ef]. cbn [other] in *.
  assert (drv_items d' = rest ++ net_items Free (rx_queue_drv s)) as Ed by (unfold drv_items; by rewrite Hi, Ef).
  split; [|done]. split; [by apply Hwf'|done|congruence|by rewrite Ed].
Qed.

(** The counts of the buffers handed out: one client, or all. *)
Lemma rx_inv_handed (s : state) b rest d' qs' T r :
  inv s -> net_items Active (rx_queue_drv s) = b :: rest ->
  drv_wf config N d' -> drv_items d' = rest ++ net_items Free (rx_queue_drv s) ->
  handed T (rx_translate config b) (rx_queue_clients s) qs' ->
  ((exists c, (c < length (rx_queue_clients s))%nat /\ T = (fun c' => Nat.eqb c' c) /\ r = 1)
   \/ T = (fun _ => true) /\ r = rc_num_clients config) ->
  inv (mk_state d' qs' (<[Z.to_nat (drv_index config b) := r]> (buffer_refs s))
         (notify_drv s) (rx_data s) (rx_events s)).
Proof using Hok.
  intros Hinv E Hd Hitems Hh HT. destruct (rx_dequeued s b rest Hinv E) as (Hio & Hi & HN & Hled & _).
  destruct Hinv as [_ Hlen Hcli Hheld Hdata _].
  assert (cli_index (rx_translate config b) = drv_index config b) as Hidx by done.
  assert (cli_desc (rx_translate config b)) as Hcd.
  { unfold cli_desc. rewrite Hidx. cbn. rewrite Hio. lia. }
  split; cbn [rx_queue_drv rx_queue_clients buffer_refs rx_data]; try done.
  - destruct Hh as [Hl _]. lia.
  - by eapply handed_wf.
  - unfold drv_possession. rewrite Hitems. destruct HT as [(c & Hc & -> & ->)|[-> ->]].
    + destruct (lookup_lt_is_Some_2 _ _ Hc) as [q Hq].
      destruct (lookup_lt_is_Some_2 hc c) as [h Hhc]; [lia|].
      eapply ledger_perm; [reflexivity| |eapply ledger_give; [exact Hled|]].
      * rewrite <- Hidx. by eapply handed_one_possession.
      * unfold clis_possession. by rewrite lookup_zip_with, Hq, Hhc.
    + assert (length (clis_possession (rx_queue_clients s) hc) = length (rx_queue_clients s)) as Hlp.
      { unfold clis_possession. rewrite length_zip_with. lia. }
      rewrite <- Hlen, <- Hlp.
      eapply ledger_perm; [reflexivity| |eapply ledger_give_all; [exact Hled|]].
      * rewrite <- Hidx. apply handed_all_possession; [done|lia].
      * intros Hnil. rewrite Hnil in Hlp. cbn in Hlp. destruct Hok. lia.
Qed.

(** What one iteration achieves. *)
Definition rx_stepped (b : net_buff_desc) (rest : list net_buff_desc) (p p' : state * list bool) : Prop :=
  inv p'.1 /\ length p'.2 = 64%nat /\ net_items Active (rx_queue_drv p'.1) = rest /\ rx_moved [b] p p'.

Lemma rx_for_unicast data b c :
  rx_target_of config data b = Z.of_nat c -> forall c', rx_for config data c' b = Nat.eqb c' c.
Proof.
  intros E c'. unfold rx_for. rewrite E. assert ((Z.of_nat c =? BROADCAST_ID) = false) as -> by (apply Z.eqb_neq; unfold BROADCAST_ID; lia).
  rewrite orb_false_r. apply eq_true_iff_eq. rewrite Z.eqb_eq, Nat.eqb_eq. lia.
Qed.

Lemma rx_for_broadcast data b :
  rx_target_of config data b = BROADCAST_ID -> forall c', rx_for config data c' b = true.
Proof. intros E c'. unfold rx_for. by rewrite E, orb_true_r. Qed.

(** The broadcast branch. *)
Lemma rx_step_broadcast (s : state) n b rest d' :
  inv s -> length n = 64%nat -> net_items Active (rx_queue_drv s) = b :: rest ->
  net_wf Active d' -> net_items Active d' = rest -> nh_capacity d' = nh_capacity (rx_queue_drv s) ->
  net_rest Active d' = net_rest Active (rx_queue_drv s) ->
  rx_target_of config (rx_data s) b = BROADCAST_ID ->
  wp (on_state (set_ref (drv_index config b) (rc_num_clients config));;
      for_upto (rc_num_clients config) (fun i =>
        err ← on_state (on_cli i (net_enqueue_active (rx_translate config b)));
        assert_ (err =? 0);;
        p ← get;
        notify ← lift (store p.2 i true);
        set_local notify)) (set_rx_drv d' s, n) (fun _ p' => rx_stepped b rest (s, n) p').
Proof using Hok.
  intros Hinv Hn E Hwf Hi Hc Hr Ht. destruct (rx_dequeued s b rest Hinv E) as (_ & Hi0 & HN & Hled & _).
  destruct (rx_dequeued_drv s b rest d' Hinv E Hwf Hi Hc Hr) as [Hd Hitems].
  pose proof Hinv as [_ Hlen Hcli Hheld _ Hled0]. pose proof (li_refs_length _ _ _ _ Hled0).
  assert (Forall (net_wf Active) (rx_queue_clients s)) as Hact by (eapply Forall_impl; [exact Hcli|by intros q []]).
  wp_step. wp_step. apply set_ref_spec; [cbn; lia|]. cbn [rx_queue_clients set_buffer_refs set_rx_drv].
  apply rx_broadcast_loop; cbn [rx_queue_clients set_buffer_refs set_rx_drv].
  - done.
  - rewrite Hn. destruct Hok. unfold SDDF_NET_MAX_CLIENTS in *. lia.
  - done.
  - intros c q Hq. eapply (cli_room N _ hc); [lia|done|lia|exact Hled|done].
  - intros qs' n' Hh Hn' Hnot. split_and!.
    + cbn. eapply (rx_inv_handed s b rest d'); [done..|]. by right.
    + cbn. lia.
    + done.
    + apply (rx_moved_handed b s n d'); try done.
      * rewrite Ht. done.
      * destruct Hh as [Hl Hh]. split; [done|]. intros c q Hq. rewrite (rx_for_broadcast _ _ Ht). auto.
      * intros c x Hcn Hx. rewrite (rx_for_broadcast _ _ Ht), orb_true_r. auto.
Qed.

(** The branch of a client's address. *)
Lemma rx_step_unicast (s : state) n b rest d' (client : Z) :
  inv s -> length n = 64%nat -> net_items Active (rx_queue_drv s) = b :: rest ->
  net_wf Active d' -> net_items Active d' = rest -> nh_capacity d' = nh_capacity (rx_queue_drv s) ->
  net_rest Active d' = net_rest Active (rx_queue_drv s) ->
  rx_target_of config (rx_data s) b = client -> 0 <= client < rc_num_clients config ->
  wp (on_state (set_ref (drv_index config b) 1);;
      err ← on_state (on_cli client (net_enqueue_active (rx_translate config b)));
      assert_ (err =? 0);;
      notify ← lift (store n client true);
      set_local notify) (set_rx_drv d' s, n) (fun _ p' => rx_stepped b rest (s, n) p').
Proof using Hok.
  intros Hinv Hn E Hwf Hi Hc Hr Ht Hcr. destruct (rx_dequeued s b rest Hinv E) as (_ & Hi0 & HN & Hled & _).
  destruct (rx_dequeued_drv s b rest d' Hinv E Hwf Hi Hc Hr) as [Hd Hitems].
  pose proof Hinv as [_ Hlen Hcli Hheld _ Hled0]. pose proof (li_refs_length _ _ _ _ Hled0).
  assert (Forall (net_wf Active) (rx_queue_clients s)) as Hact by (eapply Forall_impl; [exact Hcli|by intros q []]).
  destruct (lookup_lt_is_Some_2 (rx_queue_clients s) (Z.to_nat client)) as [q Hq]; [lia|].
  assert (exists c, client = Z.of_nat c) as [c ->] by (exists (Z.to_nat client); lia). rewrite Nat2Z.id in Hq.
  assert (Z.of_nat c < 64) by (destruct Hok; unfold SDDF_NET_MAX_CLIENTS in *; lia).
  wp_step. wp_step. apply set_ref_spec; [cbn; lia|]. cbn [rx_queue_clients set_buffer_refs set_rx_drv].
  wp_step. eapply on_cli_enqueue; [exact Hq|rewrite Forall_lookup in Hact; eauto|eapply (cli_room N _ hc); [lia|done|lia|exact Hled|done]|].
  intros q' Ha. wp_step. apply wp_assert; [done|]. wp_step. eapply wp_lift; [apply store_nat; lia|]. wp_step.
  pose proof (rx_for_unicast _ _ _ Ht) as Hfor.
  assert (handed (fun c' => Nat.eqb c' c) (rx_translate config b) (rx_queue_clients s) (<[c := q']> (rx_queue_clients s))) as Hh.
  { split; [by rewrite length_insert|]. intros c' q1 Hq1. destruct (decide (c' = c)) as [->|Hne].
    - exists q'. rewrite list_lookup_insert_eq, Nat.eqb_refl by (by eapply lookup_lt_Some).
      assert (q1 = q) as -> by congruence. done.
    - exists q1. rewrite list_lookup_insert_ne, (proj2 (Nat.eqb_neq _ _)) by done. done. }
  split_and!.
  - cbn. eapply (rx_inv_handed s b rest d'); [done..|]. left. exists c. split; [|done]. by eapply lookup_lt_Some.
  - cbn. by rewrite length_insert.
  - done.
  - apply (rx_moved_handed b s n d'); try done.
    + by rewrite length_insert.
    + rewrite Ht. lia.
    + destruct Hh as [Hl Hh]. split; [done|]. intros c' q1 Hq1. rewrite Hfor. auto.
    + intros c' x _ Hx. rewrite Hfor. destruct (decide (c' = c)) as [->|Hne].
      * rewrite Nat.eqb_refl, orb_true_r. apply list_lookup_insert_eq. lia.
      * rewrite (proj2 (Nat.eqb_neq _ _)), orb_false_r by done. by rewrite list_lookup_insert_ne.
Qed.

(** The branch of a packet for nobody. *)
Lemma rx_step_unmatched (s : state) n b rest d' :
  inv s -> length n = 64%nat -> net_items Active (rx_queue_drv s) = b :: rest ->
  net_wf Active d' -> net_items Active d' = rest -> nh_capacity d' = nh_capacity (rx_queue_drv s) ->
  net_rest Active d' = net_rest Active (rx_queue_drv s) ->
  rx_target_of config (rx_data s) b = -1 ->
  wp (err ← on_state (on_drv (net_enqueue_free b));
      assert_ (err =? 0);;
      on_state (modify (set_notify_drv true))) (set_rx_drv d' s, n) (fun _ p' => rx_stepped b rest (s, n) p').
Proof using Hok.
  intros Hinv Hn E Hwf Hi Hc Hr Ht. destruct (rx_dequeued s b rest Hinv E) as (Hio & Hi0 & HN & Hled & Hdesc).
  destruct (rx_dequeued_drv s b rest d' Hinv E Hwf Hi Hc Hr) as [Hd Hitems].
  pose proof Hinv as [[Hwff _ Hcap _] Hlen Hcli Hheld Hdata _].
  destruct (net_rest_other Active _ _ Hr Hc) as [Hwf' Ef]. cbn [other] in *.
  pose proof (ledger_driver_length _ _ _ _ Hled) as Hroom. cbn [length] in Hroom.
  rewrite length_app, length_fmap, length_app in Hroom.
  wp_step. wp_step. unfold on_drv. wp_step. cbn [rx_queue_drv set_rx_drv].
  apply net_enqueue_spec; [by apply Hwf'|rewrite Ef; lia|].
  intros d2 Hwf2 Hi2 Hc2 Hr2. wp_step. apply wp_assert; [done|]. wp_step. wp_step.
  destruct (net_rest_other Free _ _ Hr2 Hc2) as [Hwfa Ea]. cbn [other] in *.
  assert (forall c, rx_for config (rx_data s) c b = false) as Hnf.
  { intros c. unfold rx_for. rewrite Ht. change (-1 =? BROADCAST_ID) with false. rewrite orb_false_r. apply Z.eqb_neq. lia. }
  assert (drv_items d2 = rest ++ net_items Free (rx_queue_drv s) ++ [b]) as Hit2
    by (unfold drv_items; by rewrite Hi2, Ea, Hi, Ef).
  split_and!; [|done|cbn; congruence|].
  - split; cbn [fst snd rx_queue_drv rx_queue_clients buffer_refs rx_data set_rx_drv set_notify_drv]; try done.
    + split; [done|by apply Hwfa|cbn; congruence|].
      rewrite Hit2, app_assoc. apply Forall_app. split; [done|]. by constructor.
    + unfold drv_possession. cbn. rewrite Hit2. eapply ledger_perm; [| |exact Hled].
      * rewrite !fmap_app. cbn. solve_Permutation.
      * apply Forall2_lookup. intros k. destruct (_ !! k); by constructor.
  - assert (rx_back config (rx_data s) [b] = [b]) as Hb
      by (unfold rx_back; by rewrite filter_cons, filter_nil, decide_True).
    assert (forall c, rx_gets config (rx_data s) c [b] = []) as Hg.
    { intros c. unfold rx_gets. rewrite filter_cons, filter_nil, decide_False by (by rewrite Hnf). done. }
    split; cbn [fst snd rx_queue_drv rx_queue_clients rx_data rx_events notify_drv set_notify_drv set_rx_drv]; try done.
    + by rewrite Hb, Hi2, Ef.
    + unfold net_rest in Hr, Hr2. cbn in Hr, Hr2. congruence.
    + intros c q Hq. exists q. rewrite Hg. split; [done|]. apply cli_appended_nil.
      rewrite Forall_lookup in Hcli. by destruct (Hcli _ _ Hq).
    + rewrite Hb. by rewrite bool_decide_eq_true_2, orb_true_r by done.
    + intros c x _ Hx. by rewrite Hg, bool_decide_eq_false_2, orb_false_r by auto.
Qed.

Lemma rx_return_body_spec b rest p :
  inv p.1 -> length p.2 = 64%nat -> net_items Active (rx_queue_drv p.1) = b :: rest ->
  wp (rx_return_body config) p (fun _ p' => rx_stepped b rest p p').
Proof using Hok.
  destruct p as [s n]. intros Hinv Hn E. cbn [fst snd] in *.
  destruct (rx_dequeued s b rest Hinv E) as (Hio & Hi & HN & Hled & _).
  pose proof (rx_target_cases config (rx_data s) (io_or_offset b - rc_io_addr config)) as Hcases.
  pose proof Hinv as [[_ Ha _ _] _ _ _ Hdata _].
  destruct (ledger_driver_head _ _ _ _ _ Hled) as (_ & Href & _).
  pose proof Hok as []. unfold NET_BUFFER_SIZE in *.
  unfold rx_return_body. wp_step. wp_step. unfold on_drv. wp_step.
  eapply net_dequeue_spec; [done..|]. intros d' Hwf' Hi' Hc' Hr'. cbn [fst snd].
  assert (u64 (io_or_offset b - rc_io_addr config) = io_or_offset b - rc_io_addr config) as ->
    by (apply u64_small; unfold is_u64; lia).
  wp_step. wp_step. wp_step. cbn [fst snd rx_data set_rx_drv]. eapply wp_lift.
  { apply get_mac_addr_match_spec; (done || lia). }
  change (rx_target config (rx_data s) (io_or_offset b - rc_io_addr config)) with (rx_target_of config (rx_data s) b) in *.
  assert (s32 ((io_or_offset b - rc_io_addr config) / NET_BUFFER_SIZE) = drv_index config b) as ->.
  { unfold s32. fold (drv_index config b). rewrite Z.mod_small by lia. by rewrite (proj2 (Z.ltb_lt _ _)) by lia. }
  fold (rx_translate config b). cbn [buffer_refs set_rx_drv].
  destruct (Z.eqb_spec (rx_target_of config (rx_data s) b) BROADCAST_ID) as [Hb|Hnb].
  - wp_step. eapply wp_lift; [apply load_ok; [lia|exact Href]|]. wp_step. apply wp_assert; [done|].
    by apply rx_step_broadcast.
  - destruct (Z.leb_spec 0 (rx_target_of config (rx_data s) b)) as [Hu|Hu].
    + wp_step. eapply wp_lift; [apply load_ok; [lia|exact Href]|]. wp_step. apply wp_assert; [done|].
      apply rx_step_unicast; (done || lia).
    + assert (mk_buff (u64 (io_or_offset b - rc_io_addr config + rc_io_addr config)) (bd_len b) = b) as ->.
      { rewrite Z.sub_add, u64_small by (unfold is_u64; lia). by destruct b. }
      apply rx_step_unmatched; (done || lia).
Qed.

(** The signalling flags are not part of the invariant. *)
Lemma rx_inv_drv_signal (s : state) sd b :
  inv s -> inv (set_rx_drv (net_set_signalled sd b (rx_queue_drv s)) s).
Proof.
  intros [[] ? ? ? ? ?]. split; cbn [rx_queue_drv set_rx_drv]; try done.
  - split; unfold drv_items in *; autorewrite with uint_rw; done.
  - unfold drv_possession, drv_items in *. by rewrite !net_set_signalled_items.
Qed.

Lemma rx_inv_cli_signal (s : state) c q sd b :
  inv s -> rx_queue_clients s !! c = Some q ->
  inv (set_rx_clients (<[c := net_set_signalled sd b q]> (rx_queue_clients s)) s).
Proof.
  intros [? Hlen Hcli ? ? Hled] Hc. split; cbn [rx_queue_clients set_rx_clients]; try done.
  - by rewrite length_insert.
  - apply Forall_insert; [done|]. rewrite Forall_lookup in Hcli. destruct (Hcli _ _ Hc).
    split; unfold drv_items in *; autorewrite with uint_rw; done.
  - assert (clis_possession (<[c := net_set_signalled sd b q]> (rx_queue_clients s)) hc
            = clis_possession (rx_queue_clients s) hc) as ->; [|done].
    apply list_eq. intros c'. unfold clis_possession. rewrite !lookup_zip_with.
    destruct (decide (c' = c)) as [->|Hne]; [|by rewrite list_lookup_insert_ne].
    rewrite list_lookup_insert_eq, Hc by (by eapply lookup_lt_Some). cbn.
    destruct (hc !! c); [|done]. cbn. unfold cli_possession, drv_items. by rewrite !net_set_signalled_items.
Qed.

(** All active buffers of the driver, in one pass of the inner loop. *)
Lemma rx_return_inner p :
  inv p.1 -> length p.2 = 64%nat ->
  wp (loop drv_active_length drv_active_more (rx_return_body config)) p (fun _ p' =>
    inv p'.1 /\ length p'.2 = 64%nat /\ net_items Active (rx_queue_drv p'.1) = [] /\
    rx_moved (net_items Active (rx_queue_drv p.1)) p p').
Proof using Hok.
  intros Hinv Hn. apply (wp_loop (fun p' => exists taken rest,
    net_items Active (rx_queue_drv p.1) = taken ++ rest /\
    inv p'.1 /\ length p'.2 = 64%nat /\ net_items Active (rx_queue_drv p'.1) = rest /\ rx_moved taken p p')).
  - exists [], (net_items Active (rx_queue_drv p.1)). split_and!; try done.
    apply rx_moved_nil. destruct Hinv. eapply Forall_impl; [done|by intros q []].
  - intros p1 (taken & rest & E & Hinv1 & Hn1 & Hr & Hm) Hmore%negb_true_iff.
    pose proof Hinv1 as [[_ Ha _ _] _ _ _ _ _].
    destruct rest as [|b rest].
    { apply (net_empty_nil Active) in Hr; [|done]. unfold net_queue_empty_active in Hmore. congruence. }
    wp_use (rx_return_body_spec b rest p1). intros _ p2 (Hinv2 & Hn2 & Hr2 & Hm2). split.
    + exists (taken ++ [b]), rest. rewrite <- app_assoc. split_and!; try done. by eapply rx_moved_app.
    + pose proof Hinv2 as [[_ Ha2 _ _] _ _ _ _ _]. unfold drv_active_length.
      change (nh_active ?q) with (nh_ring Active q). rewrite !net_length_spec by done.
      rewrite Hr, Hr2. cbn. lia.
  - intros p1 (taken & rest & E & Hinv1 & Hn1 & Hr & Hm) Hstop%negb_false_iff.
    pose proof Hinv1 as [[_ Ha _ _] _ _ _ _ _]. apply (net_empty_spec Active _ Ha) in Hstop.
    rewrite Hstop in Hr. subst rest. rewrite app_nil_r in E. rewrite E. done.
Qed.

(** Both loops: the driver's ring is empty and its signal is requested. *)
Definition rx_drained (p p' : state * list bool) : Prop :=
  exists p1, inv p1.1 /\ length p1.2 = 64%nat /\ net_items Active (rx_queue_drv p1.1) = [] /\
    rx_moved (net_items Active (rx_queue_drv p.1)) p p1 /\
    p' = (set_rx_drv (net_set_signalled Active 0 (rx_queue_drv p1.1)) p1.1, p1.2).

Lemma rx_return_loops p :
  inv p.1 -> length p.2 = 64%nat ->
  wp (with_local true (loop (fun _ => 2%nat) snd (rx_return_outer config))) p (fun _ p' => rx_drained p p').
Proof using Hok.
  intros Hinv Hn. wp_step.
  apply (wp_loop_le (fun q : state * list bool * bool => if q.2 then q.1 = p else rx_drained p q.1)
           (fun q => if q.2 then 1%nat else 0%nat)); cbn.
  - done.
  - lia.
  - intros [p0 [|]]; [|done]. cbn. intros -> _. unfold rx_return_outer. wp_step. wp_step.
    wp_use (rx_return_inner p). intros _ p1 (Hinv1 & Hn1 & Hr1 & Hm1).
    wp_step. wp_step. destruct p1 as [s1 n1]. wp_step. unfold on_drv, net_request_signal_active.
    wp_step. wp_step. wp_step. wp_step. cbn [fst snd rx_queue_drv set_rx_drv] in *. unfold net_queue_empty_active.
    assert (net_queue_empty Active (net_set_signalled Active 0 (rx_queue_drv s1)) = true) as ->.
    { destruct Hinv1 as [[_ Ha _ _] _ _ _ _ _]. by apply (net_empty_nil Active). }
    cbn [negb]. wp_step. cbn. split; [|lia]. by exists (s1, n1).
  - intros [p0 b]. cbn. intros H ->. exact H.
Qed.

(** ** The notifications of [rx_return] *)

(** What the last loop does to the queue of a client. *)
Definition rx_signal (n : bool) (q : net_queue_handle) : net_queue_handle :=
  if n && net_require_signal_active q then net_set_signalled Active 1 q else q.

Definition rx_notifications (n : list bool) (qs : list net_queue_handle) (cs : list Z) : list event :=
  omap (fun c => if (n !!! Z.to_nat c) && net_require_signal_active (qs !!! Z.to_nat c)
                 then Some (Notify (rc_client_ids config !!! Z.to_nat c)) else None) cs.

Definition rx_signalled (k : nat) (n : list bool) (qs qs' : list net_queue_handle) : Prop :=
  length qs' = length qs /\
  forall c q, qs !! c = Some q ->
    qs' !! c = Some (if (c <? k)%nat then rx_signal (n !!! c) q else q).

Lemma rx_notify_loop (s : state) n :
  inv s -> length n = 64%nat ->
  wp (for_upto (rc_num_clients config) (rx_notify_client config n)) s (fun _ s' =>
    inv s' /\ rx_queue_drv s' = rx_queue_drv s /\ rx_data s' = rx_data s /\ notify_drv s' = notify_drv s /\
    rx_signalled (length (rx_queue_clients s)) n (rx_queue_clients s) (rx_queue_clients s') /\
    rx_events s' = rx_events s ++ rx_notifications n (rx_queue_clients s) (seqZ 0 (rc_num_clients config))).
Proof using Hok.
  intros Hinv Hn. pose proof Hok as []. unfold SDDF_NET_MAX_CLIENTS in *. unfold for_upto.
  pose proof Hinv as [_ Hlen _ _ _ _].
  apply (wp_for_each (fun pre s' =>
    inv s' /\ rx_queue_drv s' = rx_queue_drv s /\ rx_data s' = rx_data s /\ notify_drv s' = notify_drv s /\
    rx_signalled (length pre) n (rx_queue_clients s) (rx_queue_clients s') /\
    rx_events s' = rx_events s ++ rx_notifications n (rx_queue_clients s) pre)).
  - split_and!; try done. by rewrite app_nil_r.
  - intros pre i post s1 E (Hinv1 & Ed & Edata & Endrv & [Hl Hs] & Eev).
    apply lookup_seqZ_prefix in E as [-> Hi].
    destruct (lookup_lt_is_Some_2 (rx_queue_clients s) (length pre)) as [q Hq]; [lia|].
    pose proof (Hs _ _ Hq) as Hq1. rewrite Nat.ltb_irrefl in Hq1.
    destruct (lookup_lt_is_Some_2 n (length pre)) as [x Hx]; [lia|].
    destruct (lookup_lt_is_Some_2 (rc_client_ids config) (length pre)) as [id Hid]; [lia|].
    assert (rx_notifications n (rx_queue_clients s) (pre ++ [Z.of_nat (length pre)])
            = rx_notifications n (rx_queue_clients s) pre
              ++ (if x && net_require_signal_active q then [Notify id] else [])) as Enot.
    { unfold rx_notifications. rewrite omap_app. cbn [omap list_omap]. rewrite Nat2Z.id.
      rewrite (list_lookup_total_correct _ _ _ Hq), (list_lookup_total_correct _ _ _ Hx),
        (list_lookup_total_correct _ _ _ Hid). by destruct (x && _). }
    assert (forall qs', length qs' = length (rx_queue_clients s1) ->
      (forall c, c <> length pre -> qs' !! c = rx_queue_clients s1 !! c) ->
      qs' !! length pre = Some (rx_signal x q) ->
      rx_signalled (length (pre ++ [Z.of_nat (length pre)])) n (rx_queue_clients s) qs') as Hsig.
    { intros qs' Hl' Hne Heq. split; [lia|]. intros c q' Hc. rewrite length_app. cbn [length].
      destruct (decide (c = length pre)) as [->|Hc'].
      - rewrite (proj2 (Nat.ltb_lt _ _)) by lia. rewrite (list_lookup_total_correct _ _ _ Hx). congruence.
      - rewrite Hne, (Hs _ _ Hc) by done. do 2 f_equal.
        assert ((c <? length pre + 1)%nat = (c <? length pre)%nat) as ->; [|done].
        apply eq_true_iff_eq. rewrite !Nat.ltb_lt. lia. }
    unfold rx_notify_client. wp_step. eapply wp_lift; [by apply load_nat|]. wp_step. wp_step.
    wp_step. eapply wp_lift; [by apply load_nat|]. unfold rx_signal in Hsig.
    destruct (x && net_require_signal_active q) eqn:Ec; cbn [when].
    + wp_step. unfold on_cli, net_cancel_signal_active. eapply wp_zoom_nth; [lia|by rewrite Nat2Z.id|]. wp_step.
      wp_step. eapply wp_lift; [by apply load_nat|]. unfold rx_emit. wp_step. rewrite Nat2Z.id.
      cbn [rx_queue_drv rx_data notify_drv rx_queue_clients rx_events set_rx_clients]. split_and!; try done.
      * apply (rx_inv_cli_signal s1 (length pre) q Active 1) in Hinv1; [|done]. by destruct Hinv1.
      * apply Hsig; [by rewrite length_insert|intros; by rewrite list_lookup_insert_ne|].
        apply list_lookup_insert_eq. by eapply lookup_lt_Some.
      * by rewrite Eev, Enot, app_assoc.
    + wp_step. split_and!; try done; [by apply Hsig|]. by rewrite Eev, Enot, app_nil_r.
  - intros s' (? & ? & ? & ? & [? Hs] & ?). split_and!; try done. split; [done|]. intros c q Hc.
    rewrite (Hs _ _ Hc). rewrite length_seqZ. do 2 f_equal.
    apply lookup_lt_Some in Hc. by rewrite !(proj2 (Nat.ltb_lt _ _)) by lia.
Qed.

End rx_return.

(** ** The theorem on rx_return *)

Lemma rx_return_spec (config : net_virt_rx_config) (N : Z) (hd : list Z) (hc : list (list Z)) (s : state) :
  rx_config_ok config N -> rx_inv config N hd hc s ->
  let A := net_items Active (rx_queue_drv s) in
  wp (rx_return config) s (fun _ s' =>
    rx_inv config N hd hc s' /\
    net_items Active (rx_queue_drv s') = [] /\
    net_items Free (rx_queue_drv s') = net_items Free (rx_queue_drv s) ++ rx_back config (rx_data s) A /\
    net_require_signal_active (rx_queue_drv s') = true /\
    net_require_signal_free (rx_queue_drv s') = net_require_signal_free (rx_queue_drv s) /\
    rx_data s' = rx_data s /\
    notify_drv s' = notify_drv s || bool_decide (rx_back config (rx_data s) A <> []) /\
    (forall c q, rx_queue_clients s !! c = Some q -> exists q', rx_queue_clients s' !! c = Some q' /\
       net_items Active q' = net_items Active q ++ rx_gets config (rx_data s) c A /\
       net_items Free q' = net_items Free q /\
       (net_require_signal_active q'
        = net_require_signal_active q && bool_decide (rx_gets config (rx_data s) c A = []))) /\
    rx_events s' = rx_events s ++
      omap (fun c => if bool_decide (rx_gets config (rx_data s) (Z.to_nat c) A <> [])
                        && net_require_signal_active (rx_queue_clients s !!! Z.to_nat c)
                     then Some (Notify (rc_client_ids config !!! Z.to_nat c)) else None)
        (seqZ 0 (rc_num_clients config))).
Proof.
  intros Hok Hinv A. unfold rx_return. wp_step. wp_step.
  wp_use (rx_return_loops config N Hok hd hc). intros r p (p1 & Hinv1 & Hn1 & Hi1 & Hm & ->). cbn [fst snd].
  apply (rx_inv_drv_signal config N hd hc p1.1 Active 0) in Hinv1.
  wp_use (rx_notify_loop config N Hok hd hc _ p1.2 Hinv1). cbn [rx_queue_drv rx_queue_clients rx_data notify_drv rx_events set_rx_drv].
  intros [] s' (Hinv' & Ed & Edata & End & [Hl Hs] & Eev). destruct Hm as [Ef Eflag El Hc Ed1 Eev1 End1 En1 Hnot].
  cbn [fst snd rx_queue_drv rx_queue_clients rx_data notify_drv rx_events set_rx_drv] in *.
  rewrite Ed, Edata, End. fold A in Ef, Hc, End1, Hnot.
  pose proof Hinv as [_ Hlen _ _ _ _]. pose proof Hok as []. unfold SDDF_NET_MAX_CLIENTS in *.
  assert (forall c, (c < length (rx_queue_clients s))%nat ->
    p1.2 !! c = Some (bool_decide (rx_gets config (rx_data s) c A <> []))) as Hn.
  { intros c Hlt. rewrite (Hnot c false); [done|lia|]. apply lookup_replicate_2. change (Z.to_nat SDDF_NET_MAX_CLIENTS) with 64%nat. lia. }
  assert (forall c q q1, rx_queue_clients s !! c = Some q -> rx_queue_clients p1.1 !! c = Some q1 ->
    net_require_signal_active q1 = net_require_signal_active q) as Hreq.
  { intros c q q1 Hq Hq1. destruct (Hc c q Hq) as (q2 & Hq2 & _ & _ & _ & Hr). assert (q2 = q1) as -> by congruence.
    unfold net_require_signal_active, net_require_signal. unfold net_rest in Hr. cbn in *. congruence. }
  split_and!; try done.
  - unfold net_require_signal_free, net_require_signal. cbn. by rewrite Eflag.
  - intros c q Hq. destruct (Hc c q Hq) as (q1 & Hq1 & Ha). pose proof (Hreq _ _ _ Hq Hq1) as Er.
    destruct (cli_appended_free _ _ _ Ha) as [_ Efree]. destruct Ha as (_ & Ea & _).
    exists (rx_signal (p1.2 !!! c) q1). split_and!.
    + rewrite (Hs _ _ Hq1). by rewrite (proj2 (Nat.ltb_lt _ _)) by (by eapply lookup_lt_Some).
    + unfold rx_signal. destruct (_ && _); rewrite ?net_set_signalled_items; done.
    + unfold rx_signal. destruct (_ && _); rewrite ?net_set_signalled_items; done.
    + rewrite (list_lookup_total_correct _ _ _ (Hn c ltac:(by eapply lookup_lt_Some))).
      unfold rx_signal. rewrite <- Er. destruct (net_require_signal_active q1) eqn:E1; repeat case_bool_decide; cbn; try done.
  - rewrite Eev, Eev1. f_equal. unfold rx_notifications. apply list_omap_ext.
    apply Forall2_same_length_lookup_2; [done|]. intros k x y Hx Hy. assert (x = y) as -> by congruence.
    apply lookup_seqZ in Hx as [-> Hk].
    destruct (lookup_lt_is_Some_2 (rx_queue_clients s) (Z.to_nat (0 + Z.of_nat k))) as [q Hq]; [lia|].
    destruct (Hc _ q Hq) as (q1 & Hq1 & _).
    rewrite (list_lookup_total_correct _ _ _ (Hn _ ltac:(by eapply lookup_lt_Some))).
    rewrite (list_lookup_total_correct _ _ _ Hq), (list_lookup_total_correct _ _ _ Hq1), (Hreq _ _ _ Hq Hq1). done.
Qed.

(** C11. [rx_return] hands every active buffer of the driver on: each client receives, in order,
    the packets addressed to it and the broadcasts, with the descriptor
    translated to an offset; packets for nobody go back to the driver's free
    ring, so none is lost and none is duplicated ([rx_inv] is kept).  No
    assertion fails, no ring overflows, no reference count is read out of
    bounds; the driver's signal is requested, and exactly the clients that
    received something and had asked for a signal are notified. *)
Theorem rx_return_correct (config : net_virt_rx_config) (N : Z) (hd : list Z) (hc : list (list Z)) (s : state) :
  rx_config_ok config N -> rx_inv config N hd hc s ->
  let A := net_items Active (rx_queue_drv s) in
  wp (rx_return config) s (fun _ s' =>
    rx_inv config N hd hc s' /\
    net_items Active (rx_queue_drv s') = [] /\
    net_items Free (rx_queue_drv s') = net_items Free (rx_queue_drv s) ++ rx_back config (rx_data s) A /\
    net_require_signal_active (rx_queue_drv s') = true /\
    net_require_signal_free (rx_queue_drv s') = net_require_signal_free (rx_queue_drv s) /\
    rx_data s' = rx_data s /\
    notify_drv s' = notify_drv s || bool_decide (rx_back config (rx_data s) A <> []) /\
    (forall c q, rx_queue_clients s !! c = Some q -> exists q', rx_queue_clients s' !! c = Some q' /\
       net_items Active q' = net_items Active q ++ rx_gets config (rx_data s) c A /\
       net_items Free q' = net_items Free q /\
       (net_require_signal_active q'
        = net_require_signal_active q && bool_decide (rx_gets config (rx_data s) c A = []))) /\
    rx_events s' = rx_events s ++
      omap (fun c => if bool_decide (rx_gets config (rx_data s) (Z.to_nat c) A <> [])
                        && net_require_signal_active (rx_queue_clients s !!! Z.to_nat c)
                     then Some (Notify (rc_client_ids config !!! Z.to_nat c)) else None)
        (seqZ 0 (rc_num_clients config))).
Proof. apply rx_return_spec. Qed.

(** ** rx_provide *)

(** The counts and the buffers for the driver after the clients' buffers [bs]
    have been returned, one reference each. *)
Fixpoint rx_returned (config : net_virt_rx_config) (refs : list Z) (bs : list net_buff_desc)
  : list Z * list net_buff_desc :=
  match bs with
  | [] => (refs, [])
  | b :: bs' =>
    let r := refs !!! Z.to_nat (cli_index b) - 1 in
    let '(refs', out) := rx_returned config (<[Z.to_nat (cli_index b) := r]> refs) bs' in
    (refs', if r =? 0 then mk_buff (io_or_offset b + rc_io_addr config) (bd_len b) :: out else out)
  end.

Section rx_provide.
Context (config : net_virt_rx_config) (N : Z) (Hok : rx_config_ok config N).
Context (hd : list Z) (hc : list (list Z)).

#[local] Abbreviation inv := (rx_inv config N hd hc).

Lemma rx_returned_app refs bs bs' :
  rx_returned config refs (bs ++ bs')
  = let '(refs1, out1) := rx_returned config refs bs in
    let '(refs2, out2) := rx_returned config refs1 bs' in (refs2, out1 ++ out2).
Proof.
  revert refs. induction bs as [|b bs IH]; intros refs; cbn.
  - by destruct (rx_returned config refs bs').
  - rewrite IH. destruct (rx_returned config (<[_ := _]> refs) bs) as [refs1 out1].
    destruct (rx_returned config refs1 bs') as [refs2 out2]. by destruct (_ =? 0).
Qed.

Record rx_provided (bs : list net_buff_desc) (s s' : state) : Prop := mk_rx_provided {
  rp_refs : buffer_refs s' = (rx_returned config (buffer_refs s) bs).1;
  rp_free : net_items Free (rx_queue_drv s') = net_items Free (rx_queue_drv s) ++ (rx_returned config (buffer_refs s) bs).2;
  rp_notify : notify_drv s' = notify_drv s || bool_decide ((rx_returned config (buffer_refs s) bs).2 <> []);
  rp_rest : net_rest Free (rx_queue_drv s') = net_rest Free (rx_queue_drv s);
  rp_cap : nh_capacity (rx_queue_drv s') = nh_capacity (rx_queue_drv s);
  rp_data : rx_data s' = rx_data s;
  rp_events : rx_events s' = rx_events s;
}.

Lemma rx_provided_nil s : rx_provided [] s s.
Proof.
  split; try done; [by rewrite app_nil_r|]. cbn [rx_returned snd].
  by rewrite bool_decide_eq_false_2, orb_false_r by auto.
Qed.

Lemma rx_provided_app bs bs' s s' s'' :
  rx_provided bs s s' -> rx_provided bs' s' s'' -> rx_provided (bs ++ bs') s s''.
Proof.
  intros [] []. split; try congruence; rewrite rx_returned_app, rp_refs0 in *;
    destruct (rx_returned config (buffer_refs s) bs) as [refs1 out1]; cbn in *;
    destruct (rx_returned config refs1 bs') as [refs2 out2]; cbn in *.
  - done.
  - by rewrite rp_free1, rp_free0, app_assoc.
  - by rewrite rp_notify1, rp_notify0, bool_decide_app_nil, orb_assoc.
Qed.

(** The queue of a client while its free ring is drained. *)
Definition cli_drained (q : net_queue_handle) (rest : list net_buff_desc) (q' : net_queue_handle) : Prop :=
  net_wf Free q' /\ net_items Free q' = rest /\ nh_capacity q' = nh_capacity q /\ net_rest Free q' = net_rest Free q.

Lemma cli_drained_active q rest q' :
  cli_drained q rest q' -> (net_wf Active q' <-> net_wf Active q) /\ net_items Active q' = net_items Active q.
Proof. intros (_ & _ & Ec & Er). by apply (net_rest_other Free). Qed.

(** The ledger when client [c] returns [b]. *)
Lemma rx_inv_return (s : state) c q b rest q' :
  inv s -> rx_queue_clients s !! c = Some q -> net_items Free q = b :: rest -> cli_drained q rest q' ->
  let i := cli_index b in
  let r := buffer_refs s !!! Z.to_nat i - 1 in
  io_or_offset b = NET_BUFFER_SIZE * i /\ 0 <= i < N /\ 0 <= r < 2 ^ 32 /\ N < 2 ^ 16 /\
  (Z.to_nat i < length (buffer_refs s))%nat /\ cli_wf N q' /\
  ledger_inv N (if r =? 0 then i :: drv_possession config (rx_queue_drv s) hd else drv_possession config (rx_queue_drv s) hd)
    (clis_possession (<[c := q']> (rx_queue_clients s)) hc) (<[Z.to_nat i := r]> (buffer_refs s)).
Proof using Hok.
  intros [Hdrv Hlen Hcli Hheld _ Hled] Hq E Hd i r.
  destruct (lookup_lt_is_Some_2 hc c) as [h Hh]; [apply lookup_lt_Some in Hq; lia|].
  destruct (cli_drained_active _ _ _ Hd) as [Hwfa Ea]. destruct Hd as (Hwf' & Er & Ec & _).
  rewrite Forall_lookup in Hcli. destruct (Hcli _ _ Hq) as [Hf Ha Hcap Hdesc].
  unfold drv_items in Hdesc. rewrite E in Hdesc. apply Forall_app in Hdesc as [Hda Hdf].
  apply Forall_cons_1 in Hdf as [Hb Hdr].
  assert (clis_possession (rx_queue_clients s) hc !! c = Some (cli_possession q h)) as Hp
    by (unfold clis_possession; by rewrite lookup_zip_with, Hq, Hh).
  pose proof (cli_possession q h) as _.
  assert (cli_possession q h ≡ₚ i :: cli_possession q' h) as Hperm.
  { unfold cli_possession, drv_items. rewrite E, Er, Ea, !fmap_app. cbn. solve_Permutation. }
  set (C := <[c := i :: cli_possession q' h]> (clis_possession (rx_queue_clients s) hc)).
  assert (ledger_inv N (drv_possession config (rx_queue_drv s) hd) C (buffer_refs s)) as Hled'.
  { eapply ledger_perm; [reflexivity| |exact Hled]. apply Forall2_lookup. intros k. unfold C.
    destruct (decide (k = c)) as [->|Hne].
    - rewrite list_lookup_insert_eq, Hp by (by eapply lookup_lt_Some). by constructor.
    - rewrite list_lookup_insert_ne by done. destruct (_ !! k); by constructor. }
  assert (C !! c = Some (i :: cli_possession q' h)) as HC
    by (apply list_lookup_insert_eq; by eapply lookup_lt_Some).
  destruct (ledger_return _ _ _ _ _ _ _ Hled' HC) as (Hi & Hr & Hled2). fold r in Hr, Hled2.
  pose proof (li_refs_length _ _ _ _ Hled).
  assert (length C = length (rx_queue_clients s)) as HlC
    by (unfold C, clis_possession; rewrite length_insert, length_zip_with; lia).
  pose proof Hok as []. unfold SDDF_NET_MAX_CLIENTS in *.
  split_and!; try done; try lia.
  - destruct Hdrv as [[] _ Ecap _]. lia.
  - split; [done|by apply Hwfa|lia|]. unfold drv_items. rewrite Er, Ea. by apply Forall_app.
  - assert (<[c := cli_possession q' h]> C = clis_possession (<[c := q']> (rx_queue_clients s)) hc) as <-; [|done].
    unfold C, clis_possession. rewrite list_insert_insert_eq.
    rewrite <- (list_insert_id hc c h) at 2 by done. by rewrite insert_zip_with.
Qed.

(** After the count of [b] has been decremented to [r]. *)
Lemma rx_provide_tail (s : state) c q b rest q' :
  inv s -> rx_queue_clients s !! c = Some q -> net_items Free q = b :: rest -> cli_drained q rest q' ->
  let i := cli_index b in
  let r := buffer_refs s !!! Z.to_nat i - 1 in
  wp (if negb (r =? 0) then mret tt else
      err ← on_drv (net_enqueue_free (mk_buff (u64 (io_or_offset b + rc_io_addr config)) (bd_len b)));
      assert_ (err =? 0);;
      modify (set_notify_drv true))
    (set_buffer_refs (<[Z.to_nat i := r]> (buffer_refs s)) (set_rx_clients (<[c := q']> (rx_queue_clients s)) s))
    (fun _ s' => inv s' /\ rx_provided [b] s s' /\
       exists q', cli_drained q rest q' /\ rx_queue_clients s' = <[c := q']> (rx_queue_clients s)).
Proof using Hok.
  intros Hinv Hq E Hd i r. pose proof Hinv as [Hdrv Hlen Hcli Hheld Hdata Hled].
  destruct (rx_inv_return s c q b rest q' Hinv Hq E Hd) as (Hio & Hi & Hr & HN & Hlt & Hwfq' & Hled').
  fold i r in Hio, Hi, Hr, Hlt, Hled'.
  destruct Hdrv as [Hwff Hwfa Ecap Hdesc].
  assert ((rx_returned config (buffer_refs s) [b])
          = (<[Z.to_nat i := r]> (buffer_refs s),
             if r =? 0 then [mk_buff (io_or_offset b + rc_io_addr config) (bd_len b)] else [])) as Eret by done.
  destruct (r =? 0) eqn:Er0; cbn [negb].
  - pose proof (ledger_driver_length _ _ _ _ Hled') as Hroom. unfold drv_possession, drv_items in Hroom.
    rewrite fmap_app in Hroom. cbn [length] in Hroom. rewrite !length_app, !length_fmap in Hroom.
    wp_step. unfold on_drv. wp_step. cbn [rx_queue_drv set_buffer_refs set_rx_clients].
    apply net_enqueue_spec; [done|lia|]. intros d2 Hwf2 Hi2 Hc2 Hr2.
    destruct (net_rest_other Free _ _ Hr2 Hc2) as [Hwfa2 Ea2]. cbn [other] in *.
    pose proof Hok as []. unfold NET_BUFFER_SIZE in *.
    assert (u64 (io_or_offset b + rc_io_addr config) = io_or_offset b + rc_io_addr config) as Eio
      by (apply u64_small; unfold is_u64; lia).
    wp_step. apply wp_assert; [done|]. wp_step. rewrite Eio in Hi2. split_and!.
    + assert (drv_index config (mk_buff (io_or_offset b + rc_io_addr config) (bd_len b)) = i) as Eidx.
      { unfold drv_index. cbn. by rewrite Z.add_simpl_r. }
      split; cbn [rx_queue_drv rx_queue_clients buffer_refs rx_data set_rx_drv set_notify_drv set_buffer_refs set_rx_clients];
        try done.
      * split; [done|by apply Hwfa2|congruence|]. unfold drv_items in *. rewrite Hi2, Ea2, app_assoc.
        apply Forall_app. split; [done|]. constructor; [|done]. unfold drv_desc. rewrite Eidx. unfold NET_BUFFER_SIZE. cbn. lia.
      * by rewrite length_insert.
      * by apply Forall_insert.
      * eapply ledger_perm; [| |exact Hled'].
        -- unfold drv_possession, drv_items. rewrite Hi2, Ea2, !fmap_app. cbn. rewrite Eidx. solve_Permutation.
        -- apply Forall2_lookup. intros k. destruct (_ !! k); by constructor.
    + split; cbn [rx_queue_drv rx_queue_clients buffer_refs rx_data rx_events notify_drv set_rx_drv set_notify_drv set_buffer_refs set_rx_clients];
        rewrite ?Eret; cbn [fst snd]; try done. by rewrite bool_decide_eq_true_2, orb_true_r by done.
    + by exists q'.
  - wp_step. split_and!.
    + split; cbn [rx_queue_drv rx_queue_clients buffer_refs rx_data set_buffer_refs set_rx_clients]; try done.
      * by rewrite length_insert.
      * by apply Forall_insert.
    + split; cbn [rx_queue_drv rx_queue_clients buffer_refs rx_data rx_events notify_drv set_buffer_refs set_rx_clients];
        rewrite ?Eret; cbn [fst snd]; rewrite ?app_nil_r; try done.
      by rewrite bool_decide_eq_false_2, orb_false_r by auto.
    + by exists q'.
Qed.

Lemma rx_provide_body_spec (s : state) c q b rest :
  inv s -> rx_queue_clients s !! c = Some q -> net_items Free q = b :: rest ->
  wp (rx_provide_body config (Z.of_nat c)) s (fun _ s' =>
    inv s' /\ rx_provided [b] s s' /\
    exists q', cli_drained q rest q' /\ rx_queue_clients s' = <[c := q']> (rx_queue_clients s)).
Proof using Hok.
  intros Hinv Hq E. pose proof Hinv as [Hdrv Hlen Hcli Hheld Hdata Hled].
  rewrite Forall_lookup in Hcli. destruct (Hcli _ _ Hq) as [Hf _ Hcap _].
  unfold rx_provide_body. wp_step. unfold on_cli. eapply wp_zoom_nth; [lia|by rewrite Nat2Z.id|].
  eapply net_dequeue_spec; [done..|]. intros q' Hwf' Ei' Ec' Er'. rewrite Nat2Z.id.
  assert (cli_drained q rest q') as Hd by done.
  destruct (rx_inv_return s c q b rest q' Hinv Hq E Hd) as (Hio & Hi & Hr & HN & Hlt & Hwfq' & Hled').
  set (i := cli_index b) in *. set (r := buffer_refs s !!! Z.to_nat i - 1) in *.
  wp_step. wp_step. cbn [rx_queue_clients buffer_refs set_rx_clients].
  wp_step. eapply wp_lift; [apply load_nat, list_lookup_insert_eq; by eapply lookup_lt_Some|].
  assert (io_or_offset b / NET_BUFFER_SIZE = i) as Ediv by done.
  wp_step. apply wp_assert.
  { apply andb_true_intro. split.
    - rewrite Hio. apply Z.eqb_eq. rewrite Z.mul_comm. by apply Z.mod_mul.
    - apply Z.ltb_lt. destruct Hwfq' as [[] _ Hcap' _]. unfold NET_BUFFER_SIZE in *. uint_lia. }
  assert (s32 (io_or_offset b / NET_BUFFER_SIZE) = i) as ->.
  { rewrite Ediv. unfold s32. rewrite Z.mod_small by lia. by rewrite (proj2 (Z.ltb_lt _ _)) by lia. }
  wp_step. eapply wp_lift; [apply load_ok; [lia|by apply list_lookup_lookup_total_lt]|].
  wp_step. apply wp_assert; [apply negb_true_iff, Z.eqb_neq; lia|].
  wp_step. apply set_ref_spec; [cbn; lia|]. cbn [buffer_refs set_rx_clients].
  fold r. rewrite (u32_small r) by (unfold is_u32; lia).
  by apply (rx_provide_tail s c q b rest q').
Qed.

(** One client: all its returned buffers. *)
Lemma rx_provide_inner (s : state) c q :
  inv s -> rx_queue_clients s !! c = Some q ->
  wp (loop (cli_free_length (Z.of_nat c)) (cli_free_more (Z.of_nat c)) (rx_provide_body config (Z.of_nat c))) s
    (fun _ s' => inv s' /\ rx_provided (net_items Free q) s s' /\
       exists q', cli_drained q [] q' /\ rx_queue_clients s' = <[c := q']> (rx_queue_clients s)).
Proof using Hok.
  intros Hinv Hq. pose proof Hinv as [_ _ Hcli _ _ _]. rewrite Forall_lookup in Hcli.
  apply (wp_loop (fun s' => exists taken rest q', net_items Free q = taken ++ rest /\
    inv s' /\ rx_provided taken s s' /\ cli_drained q rest q' /\
    rx_queue_clients s' = <[c := q']> (rx_queue_clients s))).
  - exists [], (net_items Free q), q. split_and!; try done; [apply rx_provided_nil| |by rewrite list_insert_id].
    destruct (Hcli _ _ Hq). done.
  - intros s1 (taken & rest & q1 & E & Hinv1 & Hp1 & Hd1 & Ecl) Hmore.
    assert (rx_queue_clients s1 !! c = Some q1) as Hq1
      by (rewrite Ecl; apply list_lookup_insert_eq; by eapply lookup_lt_Some).
    unfold cli_free_more in Hmore. rewrite Nat2Z.id, Hq1 in Hmore. apply negb_true_iff in Hmore.
    pose proof Hd1 as (Hwf1 & Ei1 & Ec1 & Er1).
    destruct rest as [|b rest]; [apply (net_empty_nil Free) in Ei1; [|done]; unfold net_queue_empty_free in Hmore; congruence|].
    wp_use (rx_provide_body_spec s1 c q1 b rest). intros _ s2 (Hinv2 & Hp2 & q2 & Hd2 & Ecl2). split.
    + exists (taken ++ [b]), rest, q2. rewrite <- app_assoc. split_and!; try done; [by eapply rx_provided_app| |].
      * destruct Hd2 as (? & ? & ? & ?). split_and!; (done || congruence).
      * by rewrite Ecl2, Ecl, list_insert_insert_eq.
    + unfold cli_free_length. rewrite Nat2Z.id, Hq1, Ecl2, list_lookup_insert_eq by (by eapply lookup_lt_Some).
      destruct Hd2 as (? & Ei2 & _ & _). change (nh_free ?q) with (nh_ring Free q).
      rewrite !net_length_spec, Ei1, Ei2 by done. cbn. lia.
  - intros s1 (taken & rest & q1 & E & Hinv1 & Hp1 & Hd1 & Ecl) Hstop.
    unfold cli_free_more in Hstop. rewrite Nat2Z.id, Ecl, list_lookup_insert_eq in Hstop by (by eapply lookup_lt_Some).
    pose proof Hd1 as (Hwf1 & Ei1 & _ & _). apply negb_false_iff in Hstop. apply (net_empty_spec Free _ Hwf1) in Hstop.
    rewrite Hstop in Ei1. subst rest. rewrite app_nil_r in E. rewrite E in *. split_and!; try done. by exists q1.
Qed.

(** The queue of a client that has been served: its returned buffers are taken
    and its signal is requested. *)
Definition cli_served (q q' : net_queue_handle) : Prop :=
  net_items Free q' = [] /\ net_items Active q' = net_items Active q /\
  net_require_signal_free q' = true /\ nh_active q' = nh_active q.

Lemma rx_provide_client (s : state) c q :
  inv s -> rx_queue_clients s !! c = Some q ->
  wp (with_local true (loop (fun _ => 2%nat) snd (rx_provide_outer config (Z.of_nat c)));; mret tt) s
    (fun _ s' => inv s' /\ rx_provided (net_items Free q) s s' /\
       exists q', cli_served q q' /\ rx_queue_clients s' = <[c := q']> (rx_queue_clients s)).
Proof using Hok.
  intros Hinv Hq. set (Post s' := inv s' /\ rx_provided (net_items Free q) s s' /\
       exists q', cli_served q q' /\ rx_queue_clients s' = <[c := q']> (rx_queue_clients s)).
  wp_step. wp_step.
  apply (wp_loop_le (fun p : state * bool => if p.2 then p.1 = s else Post p.1)
           (fun p => if p.2 then 1%nat else 0%nat)); cbn.
  - done.
  - lia.
  - intros [s0 [|]]; [|done]. cbn. intros -> _. unfold rx_provide_outer. wp_step. wp_step.
    wp_use (rx_provide_inner s c q). intros _ s1 (Hinv1 & Hp1 & q1 & Hd1 & Ecl1).
    assert (rx_queue_clients s1 !! c = Some q1) as Hq1
      by (rewrite Ecl1; apply list_lookup_insert_eq; by eapply lookup_lt_Some).
    wp_step. wp_step. unfold on_cli, net_request_signal_free.
    eapply wp_zoom_nth; [lia|by rewrite Nat2Z.id|]. wp_step. wp_step. wp_step. rewrite Nat2Z.id. cbn [fst snd].
    pose proof (rx_inv_cli_signal config N hd hc s1 c q1 Free 0 Hinv1 Hq1) as Hinv2.
    pose proof (cli_drained_active _ _ _ Hd1) as [_ Ea]. destruct Hd1 as (Hwf1 & Ei1 & _ & Er1).
    assert (cli_free_more (Z.of_nat c) (set_rx_clients (<[c := net_set_signalled Free 0 q1]> (rx_queue_clients s1)) s1) = false) as ->.
    { unfold cli_free_more. cbn [rx_queue_clients set_rx_clients].
      rewrite Nat2Z.id, list_lookup_insert_eq by (by eapply lookup_lt_Some).
      apply negb_false_iff. by apply (net_empty_nil Free). }
    wp_step. cbn. split; [|lia]. split_and!; [done| |].
    + by destruct Hp1.
    + exists (net_set_signalled Free 0 q1). split.
      * split_and!; rewrite ?net_set_signalled_items; try done. unfold net_rest in Er1. cbn in *. congruence.
      * rewrite Ecl1. by rewrite list_insert_insert_eq.
  - intros [s' b]. cbn. intros H ->. wp_step. exact H.
Qed.

Lemma rx_provide_loop (s : state) :
  inv s ->
  wp (for_upto (rc_num_clients config) (fun client =>
        with_local true (loop (fun _ => 2%nat) snd (rx_provide_outer config client));; mret tt)) s
    (fun _ s' => inv s' /\ rx_provided (rx_queue_clients s ≫= net_items Free) s s' /\
       length (rx_queue_clients s') = length (rx_queue_clients s) /\
       forall c q, rx_queue_clients s !! c = Some q ->
         exists q', rx_queue_clients s' !! c = Some q' /\ cli_served q q').
Proof using Hok.
  intros Hinv. pose proof Hinv as [_ Hlen _ _ _ _]. unfold for_upto.
  apply (wp_for_each (fun pre s' => inv s' /\ rx_provided (take (length pre) (rx_queue_clients s) ≫= net_items Free) s s' /\
    length (rx_queue_clients s') = length (rx_queue_clients s) /\
    forall c q, rx_queue_clients s !! c = Some q ->
      exists q', rx_queue_clients s' !! c = Some q' /\ if (c <? length pre)%nat then cli_served q q' else q' = q)).
  - split_and!; try done; [apply rx_provided_nil|]. intros c q Hc. by exists q.
  - intros pre i post s1 E (Hinv1 & Hp1 & Hl1 & Hs1). apply lookup_seqZ_prefix in E as [-> Hi].
    destruct (lookup_lt_is_Some_2 (rx_queue_clients s) (length pre)) as [q Hq]; [lia|].
    destruct (Hs1 _ _ Hq) as (q1 & Hq1 & Heq). rewrite Nat.ltb_irrefl in Heq. subst q1.
    wp_use (rx_provide_client s1 (length pre) q). intros _ s2 (Hinv2 & Hp2 & q2 & Hsv & Ecl2).
    rewrite length_app. cbn [length]. split_and!; [done| |rewrite Ecl2, length_insert; done|].
    + rewrite Nat.add_1_r, (take_S_r _ _ _ Hq), bind_app. cbn. rewrite app_nil_r. by eapply rx_provided_app.
    + intros c q' Hc. rewrite Ecl2. destruct (decide (c = length pre)) as [->|Hne].
      * exists q2. rewrite list_lookup_insert_eq, (proj2 (Nat.ltb_lt _ _)) by (lia || by eapply lookup_lt_Some).
        assert (q' = q) as -> by congruence. done.
      * rewrite list_lookup_insert_ne by done. destruct (Hs1 _ _ Hc) as (q3 & ? & ?). exists q3.
        assert ((c <? length pre + 1)%nat = (c <? length pre)%nat) as ->; [|done].
        apply eq_true_iff_eq. rewrite !Nat.ltb_lt. lia.
  - intros s' (Hinv' & Hp & Hl & Hs). rewrite length_seqZ in *. rewrite take_ge in Hp by lia.
    split_and!; try done. intros c q Hc. destruct (Hs _ _ Hc) as (q' & ? & Hsv). exists q'.
    rewrite (proj2 (Nat.ltb_lt _ _)) in Hsv by (apply lookup_lt_Some in Hc; lia). done.
Qed.

End rx_provide.

Lemma rx_provide_spec (config : net_virt_rx_config) (N : Z) (hd : list Z) (hc : list (list Z)) (s : state) :
  rx_config_ok config N -> rx_inv config N hd hc s ->
  let ret := rx_returned config (buffer_refs s) (rx_queue_clients s ≫= net_items Free) in
  let notify := (notify_drv s || bool_decide (ret.2 <> [])) && net_require_signal_free (rx_queue_drv s) in
  wp (rx_provide config) s (fun _ s' =>
    rx_inv config N hd hc s' /\
    buffer_refs s' = ret.1 /\
    net_items Free (rx_queue_drv s') = net_items Free (rx_queue_drv s) ++ ret.2 /\
    net_items Active (rx_queue_drv s') = net_items Active (rx_queue_drv s) /\
    (forall c q, rx_queue_clients s !! c = Some q ->
       exists q', rx_queue_clients s' !! c = Some q' /\ cli_served q q') /\
    rx_events s' = rx_events s ++ (if notify then [DeferredNotify (rc_driver_id config)] else []) /\
    notify_drv s' = (notify_drv s || bool_decide (ret.2 <> [])) && negb notify).
Proof.
  intros Hok Hinv ret notify. unfold rx_provide. wp_step.
  wp_use (rx_provide_loop config N Hok hd hc s Hinv). intros _ s1 (Hinv1 & [] & Hl1 & Hs1).
  fold ret in rp_refs0, rp_free0, rp_notify0.
  assert (net_require_signal_free (rx_queue_drv s1) = net_require_signal_free (rx_queue_drv s)) as Ereq.
  { unfold net_require_signal_free, net_require_signal. unfold net_rest in rp_rest0. cbn in *. congruence. }
  assert (net_items Active (rx_queue_drv s1) = net_items Active (rx_queue_drv s)) as Ea.
  { by apply (net_rest_other Free). }
  wp_step. wp_step. rewrite rp_notify0, Ereq. fold notify. destruct notify eqn:En; cbn [when].
  - wp_step. unfold on_drv, net_cancel_signal_free. wp_step. wp_step. wp_step. unfold rx_emit. wp_step. wp_step.
    apply (rx_inv_drv_signal config N hd hc s1 Free 1) in Hinv1.
    cbn [rx_queue_drv rx_queue_clients buffer_refs notify_drv rx_data rx_events set_rx_drv set_notify_drv] in *.
    rewrite andb_false_r, !net_set_signalled_items, rp_events0. split_and!; try done. by destruct Hinv1.
  - wp_step. rewrite rp_events0, app_nil_r, andb_true_r. done.
Qed.

(** C12. [rx_provide] takes back every buffer in every client's free ring, one reference
    each, and gives to the driver exactly those whose count drops to zero
    ([rx_returned]); the ownership invariant is kept, so a broadcast buffer goes
    back once, after its last client.  The assertions on alignment, range and
    counts never fail, every client's signal is requested, and the driver is
    notified exactly if it has been given buffers (now or by [rx_return]) and
    had asked for a signal. *)
Theorem rx_provide_correct (config : net_virt_rx_config) (N : Z) (hd : list Z) (hc : list (list Z)) (s : state) :
  rx_config_ok config N -> rx_inv config N hd hc s ->
  let ret := rx_returned config (buffer_refs s) (rx_queue_clients s ≫= net_items Free) in
  let notify := (notify_drv s || bool_decide (ret.2 <> [])) && net_require_signal_free (rx_queue_drv s) in
  wp (rx_provide config) s (fun _ s' =>
    rx_inv config N hd hc s' /\
    buffer_refs s' = ret.1 /\
    net_items Free (rx_queue_drv s') = net_items Free (rx_queue_drv s) ++ ret.2 /\
    net_items Active (rx_queue_drv s') = net_items Active (rx_queue_drv s) /\
    (forall c q, rx_queue_clients s !! c = Some q ->
       exists q', rx_queue_clients s' !! c = Some q' /\ cli_served q q') /\
    rx_events s' = rx_events s ++ (if notify then [DeferredNotify (rc_driver_id config)] else []) /\
    notify_drv s' = (notify_drv s || bool_decide (ret.2 <> [])) && negb notify).
Proof. apply rx_provide_spec. Qed.

(** ** A system with two clients and four buffers *)

(** A ring of capacity 4 that holds [l], its indices about to wrap. *)
Definition net_ring_of (l : list net_buff_desc) : net_queue :=
  mk_net_queue (u16 (65534 + Z.of_nat (length l))) 65534 0 (ring_write (replicate 4 (mk_buff 0 0)) 2 l).
Definition net_handle_of (fr act : list net_buff_desc) : net_queue_handle :=
  mk_net_handle (net_ring_of fr) (net_ring_of act) 4.

Lemma net_ring_of_wf (l : list net_buff_desc) :
  (length l <= 4)%nat ->
  let q := net_ring_of l in ring_wf (2 ^ 16) 4 (nq_head q) (nq_tail q) (nq_buffers q).
Proof.
  intros Hl q. cbn [nq_head nq_tail nq_buffers q net_ring_of].
  assert (ring_len (2 ^ 16) 65534 (u16 (65534 + Z.of_nat (length l))) = Z.of_nat (length l)) as E
    by (unfold ring_len; uint_lia).
  split; try lia.
  - by exists 16384.
  - apply u16_range.
  - rewrite ring_write_length, length_replicate by (rewrite length_replicate; lia). done.
Qed.

Definition rx_config_ex : net_virt_rx_config :=
  mk_rx_config 0 65536 [1; 2] [[2; 0; 0; 0; 0; 1]; [2; 0; 0; 0; 0; 2]] 2.

Definition rx_data_ex : list Z :=
  splice (splice (replicate (Z.to_nat 8192) 0) 0 [2; 0; 0; 0; 0; 2]) (Z.to_nat 2048) (replicate 6 255).

Definition rx_drv_buff (i : Z) : net_buff_desc := mk_buff (65536 + 2048 * i) 64.
Definition rx_cli_buff (i : Z) : net_buff_desc := mk_buff (2048 * i) 64.

(** Three packets: for client 1, for everybody, for nobody. *)
Definition rx_state_ex : state :=
  mk_state (net_handle_of [rx_drv_buff 3] [rx_drv_buff 0; rx_drv_buff 1; rx_drv_buff 2])
    [net_handle_of [] []; net_handle_of [] []] [0; 0; 0; 0] false rx_data_ex [].

(** Buffer 0 is with client 1, buffer 1 with both; client 1 has returned both,
    client 0 still holds buffer 1. *)
Definition rx_state_ex2 : state :=
  mk_state (net_handle_of [rx_drv_buff 3] [rx_drv_buff 2])
    [net_handle_of [] []; net_handle_of [rx_cli_buff 1; rx_cli_buff 0] []] [1; 2; 0; 0] false rx_data_ex [].

Lemma rx_config_ex_ok : rx_config_ok rx_config_ex 4.
Proof. split; cbn; unfold SDDF_NET_MAX_CLIENTS, NET_BUFFER_SIZE; try lia. by repeat constructor. Qed.

Lemma rx_data_ex_length : Z.of_nat (length rx_data_ex) = 8192.
Proof. by vm_compute. Qed.

Lemma net_handle_of_wf sd fr act :
  (length fr <= 4)%nat -> (length act <= 4)%nat -> net_wf sd (net_handle_of fr act).
Proof. intros. destruct sd; by apply net_ring_of_wf. Qed.

Lemma rx_cli_ex_wf fr l :
  (length fr <= 4)%nat -> drv_items (net_handle_of fr []) = l -> Forall cli_desc l -> cli_wf 4 (net_handle_of fr []).
Proof. intros ? <- ?. split; [apply net_handle_of_wf; cbn; lia..|done|done]. Qed.

Lemma rx_drv_ex_wf fr act l :
  (length fr <= 4)%nat -> (length act <= 4)%nat -> drv_items (net_handle_of fr act) = l ->
  Forall (drv_desc rx_config_ex) l -> drv_wf rx_config_ex 4 (net_handle_of fr act).
Proof. intros ? ? <- ?. split; [apply net_handle_of_wf; cbn; lia..|done|done]. Qed.

Lemma rx_inv_ex_intro hc drvl drvf cls refs :
  drv_wf rx_config_ex 4 (net_handle_of drvf drvl) -> Forall (cli_wf 4) cls -> length cls = 2%nat ->
  length hc = 2%nat ->
  ledger_inv 4 (drv_possession rx_config_ex (net_handle_of drvf drvl) []) (clis_possession cls hc) refs ->
  rx_inv rx_config_ex 4 [] hc (mk_state (net_handle_of drvf drvl) cls refs false rx_data_ex []).
Proof.
  intros ? ? Hl Hh ?.
  split; cbn [rx_queue_drv rx_queue_clients buffer_refs rx_data]; rewrite ?Hl, ?Hh, ?rx_data_ex_length; done.
Qed.

Lemma ledger_zero4 : ledger_inv 4 [0; 1; 2; 3] [[]; []] [0; 0; 0; 0].
Proof.
  split; cbn.
  - by apply (bool_decide_unpack _); vm_compute.
  - repeat constructor; lia.
  - repeat constructor.
  - repeat constructor.
  - lia.
  - intros i Hi. rewrite !occurs_cons, !bool_decide_eq_false_2 by set_solver.
    assert (i = 0 \/ i = 1 \/ i = 2 \/ i = 3) as [->|[->|[->| ->]]] by lia; done.
  - intros i Hi. assert (i = 0 \/ i = 1 \/ i = 2 \/ i = 3) as [->|[->|[->| ->]]] by lia; (split; [done|set_solver]).
Qed.

Lemma rx_state_ex_inv : rx_inv rx_config_ex 4 [] [[]; []] rx_state_ex.
Proof.
  apply rx_inv_ex_intro; [| |done..|exact ledger_zero4].
  - apply (rx_drv_ex_wf _ _ (rx_drv_buff <$> [0; 1; 2; 3])); [cbn; lia..|by vm_compute|by repeat constructor].
  - constructor; [|constructor; [|constructor]];
      (apply (rx_cli_ex_wf _ []); [cbn; lia|by vm_compute|constructor]).
Qed.

Lemma rx_state_ex2_inv : rx_inv rx_config_ex 4 [] [[1]; []] rx_state_ex2.
Proof.
  apply rx_inv_ex_intro; [| |done..|].
  - apply (rx_drv_ex_wf _ _ (rx_drv_buff <$> [2; 3])); [cbn; lia..|by vm_compute|by repeat constructor].
  - constructor; [|constructor; [|constructor]].
    + apply (rx_cli_ex_wf _ []); [cbn; lia|by vm_compute|constructor].
    + apply (rx_cli_ex_wf _ (rx_cli_buff <$> [1; 0])); [cbn; lia|by vm_compute|by repeat constructor].
  - apply (ledger_give_all 4 [[]; [0]] [1; 0; 0; 0] 1 [2; 3]); [|done].
    by apply (ledger_give 4 [[]; []] [0; 0; 0; 0] 0 [1; 2; 3] 1 []); [exact ledger_zero4|].
Qed.

Lemma rx_return_correct_witness :
  wp (rx_return rx_config_ex) rx_state_ex (fun _ s' =>
    rx_inv rx_config_ex 4 [] [[]; []] s' /\
    net_items Free (rx_queue_drv s') = [rx_drv_buff 3; rx_drv_buff 2] /\
    rx_events s' = [Notify 1; Notify 2]).
Proof.
  eapply wp_mono; [apply (rx_return_correct rx_config_ex 4 [] [[]; []] rx_state_ex)|].
  - exact rx_config_ex_ok.
  - exact rx_state_ex_inv.
  - intros _ s' (Hinv & _ & Ef & _ & _ & _ & _ & _ & Ee). split_and!; [done|rewrite Ef|rewrite Ee]; by vm_compute.
Defined.

Lemma rx_provide_correct_witness :
  wp (rx_provide rx_config_ex) rx_state_ex2 (fun _ s' =>
    rx_inv rx_config_ex 4 [] [[1]; []] s' /\
    net_items Free (rx_queue_drv s') = [rx_drv_buff 3; rx_drv_buff 0] /\
    buffer_refs s' = [0; 1; 0; 0] /\
    rx_events s' = [DeferredNotify 0]).
Proof.
  eapply wp_mono; [apply (rx_provide_correct rx_config_ex 4 [] [[1]; []] rx_state_ex2)|].
  - exact rx_config_ex_ok.
  - exact rx_state_ex2_inv.
  - intros _ s' (Hinv & Er & Ef & _ & _ & Ee & _). split_and!; [done|rewrite Ef|rewrite Er|rewrite Ee]; by vm_compute.
Defined.
