(* ===== verification/NetRxSystem.v ===== *)
(** * The receive path as a system: driver, virtualiser and clients

    The steps of the virtualiser (NetVirtRx) interleaved with those of the
    driver and of the clients, which use their ends of the shared queues and
    hold buffers in between.  A step of the virtualiser is a whole handler. *)

From stdpp Require Import relations.
From S2P Require Import Prelude Ring Fifo NetQueue BufferLedger Microkit NetVirtRx.

(** The virtualiser's state, the buffers the driver holds, and those each
    client holds. *)
Record system : Type := mk_system {
  sys_virt : state;
  sys_driver : list Z;
  sys_clients : list (list Z);
}.

Definition set_rx_data (data : list Z) (s : state) : state :=
  mk_state (rx_queue_drv s) (rx_queue_clients s) (buffer_refs s) (notify_drv s) data (rx_events s).

Section system.
Context (config : net_virt_rx_config) (N : Z) (Hok : rx_config_ok config N).

Inductive rx_step : system -> system -> Prop :=
(** The virtualiser handles a notification. *)
| step_notified ch s s' hd hc :
    notified config ch s = Ok (tt, s') ->
    rx_step (mk_system s hd hc) (mk_system s' hd hc)
(** The driver takes a free buffer, for the device to fill. *)
| step_driver_take s d' b hd hc :
    net_dequeue_free (rx_queue_drv s) = Ok (Some b, d') ->
    rx_step (mk_system s hd hc) (mk_system (set_rx_drv d' s) (drv_index config b :: hd) hc)
(** The device has written a packet into a buffer that the driver holds; the
    driver passes it on. *)
| step_driver_deliver s d' b hd hd' hc data r :
    drv_desc config b -> hd ≡ₚ drv_index config b :: hd' ->
    length data = length (rx_data s) ->
    net_enqueue_active b (rx_queue_drv s) = Ok (r, d') ->
    rx_step (mk_system s hd hc) (mk_system (set_rx_data data (set_rx_drv d' s)) hd' hc)
(** A client takes a packet. *)
| step_client_take s c q q' b hd hc h :
    rx_queue_clients s !! c = Some q -> hc !! c = Some h ->
    net_dequeue_active q = Ok (Some b, q') ->
    rx_step (mk_system s hd hc)
      (mk_system (set_rx_clients (<[c := q']> (rx_queue_clients s)) s) hd (<[c := cli_index b :: h]> hc))
(** A client returns a buffer that it holds. *)
| step_client_return s c q q' b hd hc h h' r :
    rx_queue_clients s !! c = Some q -> hc !! c = Some h ->
    cli_desc b -> h ≡ₚ cli_index b :: h' ->
    net_enqueue_free b q = Ok (r, q') ->
    rx_step (mk_system s hd hc)
      (mk_system (set_rx_clients (<[c := q']> (rx_queue_clients s)) s) hd (<[c := h']> hc))
(** The driver or a client requests or cancels a signal. *)
| step_driver_signal s sd x hd hc :
    rx_step (mk_system s hd hc) (mk_system (set_rx_drv (net_set_signalled sd x (rx_queue_drv s)) s) hd hc)
| step_client_signal s c q sd x hd hc :
    rx_queue_clients s !! c = Some q ->
    rx_step (mk_system s hd hc)
      (mk_system (set_rx_clients (<[c := net_set_signalled sd x q]> (rx_queue_clients s)) s) hd hc).

Definition sys_inv (y : system) : Prop := rx_inv config N (sys_driver y) (sys_clients y) (sys_virt y).

Lemma rx_inv_drv_move s hd hd' hc d' data :
  rx_inv config N hd hc s -> drv_wf config N d' ->
  drv_possession config (rx_queue_drv s) hd ≡ₚ drv_possession config d' hd' ->
  length data = length (rx_data s) ->
  rx_inv config N hd' hc (set_rx_data data (set_rx_drv d' s)).
Proof using Type.
  intros [] Hd Hp Hl. split; cbn [rx_queue_drv rx_queue_clients buffer_refs rx_data set_rx_data set_rx_drv]; try done.
  - by rewrite Hl.
  - eapply ledger_perm; [exact Hp| |done]. apply Forall2_lookup. intros k. destruct (_ !! k); by constructor.
Qed.

Lemma rx_inv_cli_move s hd hc c q q' h h' :
  rx_inv config N hd hc s -> rx_queue_clients s !! c = Some q -> hc !! c = Some h -> cli_wf N q' ->
  cli_possession q h ≡ₚ cli_possession q' h' ->
  rx_inv config N hd (<[c := h']> hc) (set_rx_clients (<[c := q']> (rx_queue_clients s)) s).
Proof using Type.
  intros [] Hc Hh Hwf Hp. split; cbn [rx_queue_drv rx_queue_clients buffer_refs rx_data set_rx_clients]; try done.
  - by rewrite length_insert.
  - by apply Forall_insert.
  - by rewrite length_insert.
  - eapply ledger_perm; [reflexivity| |done]. unfold clis_possession. rewrite <- insert_zip_with.
    apply Forall2_lookup. intros k. destruct (decide (k = c)) as [->|Hne].
    + rewrite list_lookup_insert_eq by (rewrite length_zip_with; apply lookup_lt_Some in Hc, Hh; lia).
      rewrite lookup_zip_with, Hc, Hh. by constructor.
    + rewrite list_lookup_insert_ne by done. destruct (_ !! k); by constructor.
Qed.

(** What a successful dequeue and enqueue do to a well-formed ring. *)
Lemma net_dequeue_inv sd q b q' :
  net_wf sd q -> net_dequeue sd q = Ok (Some b, q') ->
  exists l, net_items sd q = b :: l /\ net_wf sd q' /\ net_items sd q' = l /\
    nh_capacity q' = nh_capacity q /\ net_rest sd q' = net_rest sd q.
Proof using Type.
  intros Hwf E. destruct (net_items sd q) as [|b0 l] eqn:Ei.
  - pose proof (fifo_deq_nil (O := net_fifo_ops sd) q Hwf Ei) as En. cbn in En. congruence.
  - pose proof (fifo_deq_cons (O := net_fifo_ops sd) q b0 l Hwf Ei) as H. cbn in H.
    unfold wp in H. rewrite E in H. destruct H as ([= ->] & ? & ? & ? & ?). by exists l.
Qed.

Lemma net_enqueue_inv sd q b r q' :
  net_wf sd q -> Z.of_nat (length (net_items sd q)) < nh_capacity q -> net_enqueue sd b q = Ok (r, q') ->
  net_wf sd q' /\ net_items sd q' = net_items sd q ++ [b] /\
    nh_capacity q' = nh_capacity q /\ net_rest sd q' = net_rest sd q.
Proof using Type.
  intros Hwf Hr E. pose proof (fifo_enq_room (O := net_fifo_ops sd) q b Hwf Hr) as H. cbn in H.
  unfold wp in H. rewrite E in H. tauto.
Qed.

Lemma step_driver_take_inv s d' b hd hc :
  rx_inv config N hd hc s -> net_dequeue_free (rx_queue_drv s) = Ok (Some b, d') ->
  rx_inv config N (drv_index config b :: hd) hc (set_rx_drv d' s).
Proof using Type.
  intros Hinv E. pose proof Hinv as [[Hf Ha Hc Hd] _ _ _ _ _].
  destruct (net_dequeue_inv Free _ _ _ Hf E) as (l & Ei & Hwf' & Ei' & Ec' & Er').
  destruct (net_rest_other Free _ _ Er' Ec') as [Hwa Ea]. cbn [other] in *.
  apply (rx_inv_drv_move s hd _ hc d' (rx_data s)); try done.
  - split; [done|by apply Hwa|congruence|]. unfold drv_items in *. rewrite Ei in Hd. rewrite Ei', Ea.
    apply Forall_app in Hd as [? [_ ?]%Forall_cons_1]. by apply Forall_app.
  - unfold drv_possession, drv_items. rewrite Ei, Ei', Ea, !fmap_app. cbn. solve_Permutation.
Qed.

Lemma step_driver_deliver_inv s d' b hd hd' hc data r :
  rx_inv config N hd hc s -> drv_desc config b -> hd ≡ₚ drv_index config b :: hd' ->
  length data = length (rx_data s) ->
  net_enqueue_active b (rx_queue_drv s) = Ok (r, d') ->
  rx_inv config N hd' hc (set_rx_data data (set_rx_drv d' s)).
Proof using Type.
  intros Hinv Hb Hp Hl E. pose proof Hinv as [[Hf Ha Hc Hd] _ _ _ _ Hled].
  clear Hok. pose proof (ledger_driver_length _ _ _ _ Hled) as Hroom.
  unfold drv_possession, drv_items in Hroom. rewrite Hp, fmap_app, !length_app, !length_fmap in Hroom. cbn [length] in Hroom.
  destruct (net_enqueue_inv Active _ _ _ _ Ha ltac:(lia) E) as (Hwf' & Ei' & Ec' & Er').
  destruct (net_rest_other Active _ _ Er' Ec') as [Hwa Ea]. cbn [other] in *.
  apply (rx_inv_drv_move s hd); try done.
  - split; [by apply Hwa|done|congruence|]. unfold drv_items in *. rewrite Ei', Ea.
    rewrite !Forall_app in *. naive_solver.
  - unfold drv_possession, drv_items. rewrite Ei', Ea, Hp, !fmap_app. cbn. solve_Permutation.
Qed.

Lemma step_client_take_inv s c q q' b hd hc h :
  rx_inv config N hd hc s -> rx_queue_clients s !! c = Some q -> hc !! c = Some h ->
  net_dequeue_active q = Ok (Some b, q') ->
  rx_inv config N hd (<[c := cli_index b :: h]> hc) (set_rx_clients (<[c := q']> (rx_queue_clients s)) s).
Proof using Type.
  clear Hok. intros Hinv Hc Hh E. pose proof Hinv as [_ _ Hcli _ _ _]. rewrite Forall_lookup in Hcli.
  destruct (Hcli _ _ Hc) as [Hf Ha Hcap Hd].
  destruct (net_dequeue_inv Active _ _ _ Ha E) as (l & Ei & Hwf' & Ei' & Ec' & Er').
  destruct (net_rest_other Active _ _ Er' Ec') as [Hwa Ea]. cbn [other] in *.
  eapply rx_inv_cli_move; try done.
  - split; [by apply Hwa|done|lia|]. unfold drv_items in *. rewrite Ei in Hd. rewrite Ei', Ea.
    by apply Forall_cons_1 in Hd as [_ ?].
  - unfold cli_possession, drv_items. rewrite Ei, Ei', Ea, !fmap_app. cbn. solve_Permutation.
Qed.

Lemma step_client_return_inv s c q q' b hd hc h h' r :
  rx_inv config N hd hc s -> rx_queue_clients s !! c = Some q -> hc !! c = Some h ->
  cli_desc b -> h ≡ₚ cli_index b :: h' -> net_enqueue_free b q = Ok (r, q') ->
  rx_inv config N hd (<[c := h']> hc) (set_rx_clients (<[c := q']> (rx_queue_clients s)) s).
Proof using Type.
  clear Hok. intros Hinv Hc Hh Hb Hp E. pose proof Hinv as [_ _ Hcli _ _ Hled]. rewrite Forall_lookup in Hcli.
  destruct (Hcli _ _ Hc) as [Hf Ha Hcap Hd].
  assert (clis_possession (rx_queue_clients s) hc !! c = Some (cli_possession q h)) as Hpos
    by (unfold clis_possession; by rewrite lookup_zip_with, Hc, Hh).
  pose proof (ledger_client_length _ _ _ _ _ _ Hled Hpos) as Hroom.
  unfold cli_possession, drv_items in Hroom. rewrite Hp, fmap_app, !length_app, !length_fmap in Hroom. cbn [length] in Hroom.
  assert (0 < nh_capacity q) by (destruct Hf; lia).
  destruct (net_enqueue_inv Free _ _ _ _ Hf ltac:(lia) E) as (Hwf' & Ei' & Ec' & Er').
  destruct (net_rest_other Free _ _ Er' Ec') as [Hwa Ea]. cbn [other] in *.
  eapply rx_inv_cli_move; try done.
  - split; [done|by apply Hwa|lia|]. unfold drv_items in *. rewrite Ei', Ea.
    rewrite !Forall_app in *. naive_solver.
  - unfold cli_possession, drv_items. rewrite Ei', Ea, Hp, !fmap_app. cbn. solve_Permutation.
Qed.

Lemma notified_spec ch s hd hc :
  rx_inv config N hd hc s -> wp (notified config ch) s (fun _ s' => rx_inv config N hd hc s').
Proof using Hok.
  intros Hinv. unfold notified. wp_step. wp_use (rx_return_spec config N hd hc s Hok Hinv).
  intros _ s1 (Hinv1 & _). wp_use (rx_provide_spec config N hd hc s1 Hok Hinv1). intros _ s2 (Hinv2 & _). done.
Qed.

Lemma rx_step_inv y y' : sys_inv y -> rx_step y y' -> sys_inv y'.
Proof using Hok.
  intros Hinv Hstep. unfold sys_inv in *. destruct Hstep; cbn [sys_virt sys_driver sys_clients] in *.
  - pose proof (notified_spec ch _ _ _ Hinv) as H'. unfold wp in H'. by rewrite H in H'.
  - by apply step_driver_take_inv.
  - by eapply step_driver_deliver_inv.
  - by eapply step_client_take_inv.
  - by eapply step_client_return_inv.
  - by apply rx_inv_drv_signal.
  - by apply rx_inv_cli_signal.
Qed.

End system.

(** ** Initial state *)

Lemma ledger_initial (N : Z) (C : list (list Z)) (R : list Z) :
  Forall (fun l => l = []) C -> N <= Z.of_nat (length R) ->
  (forall i, 0 <= i < N -> R !!! Z.to_nat i = 0) -> ledger_inv N (seqZ 0 N) C R.
Proof.
  intros HC HR Hz.
  assert (forall i, occurs i C = 0) as Hocc.
  { intros i. induction C as [|l C IH]; [done|]. apply Forall_cons_1 in HC as [-> HC].
    rewrite occurs_cons, IH, bool_decide_eq_false_2 by (done || set_solver). done. }
  split.
  - apply NoDup_seqZ.
  - apply Forall_forall. intros i Hi%elem_of_seqZ. lia.
  - eapply Forall_impl; [exact HC|]. intros l ->. constructor.
  - eapply Forall_impl; [exact HC|]. intros l ->. constructor.
  - done.
  - intros i Hi. by rewrite Hz, Hocc.
  - intros i Hi. rewrite Hz by done. rewrite elem_of_seqZ. lia.
Qed.

(** A mapped queue before [init]: both rings empty. *)
Definition net_fresh (q : net_queue_handle) : Prop :=
  net_wf Free q /\ net_wf Active q /\ net_items Free q = [] /\ net_items Active q = [].

Lemma clis_fresh_possession (qs : list net_queue_handle) (n : nat) :
  Forall net_fresh qs -> Forall (fun l => l = []) (clis_possession qs (replicate n [])).
Proof.
  intros Hq. apply Forall_lookup. intros c l. unfold clis_possession. rewrite lookup_zip_with.
  destruct (qs !! c) as [q|] eqn:E; [|done]. cbn. destruct (replicate n [] !! c) as [h|] eqn:Eh; [|done].
  apply lookup_replicate in Eh as [-> _]. intros [= <-]. rewrite Forall_lookup in Hq.
  destruct (Hq _ _ E) as (_ & _ & Ef & Ea). unfold cli_possession, drv_items. by rewrite Ef, Ea.
Qed.

(** Setting up the clients' handles. *)
Lemma init_clients (config : net_virt_rx_config) (s : state) (clients : list net_queue_handle) :
  Z.of_nat (length (rx_queue_clients s)) = rc_num_clients config ->
  Z.of_nat (length clients) = rc_num_clients config ->
  wp (for_upto (rc_num_clients config) (fun i =>
        c ← lift (load clients i);
        on_cli i (put (net_queue_init (nh_free c) (nh_active c) (nh_capacity c))))) s
    (fun _ s' => s' = set_rx_clients clients s).
Proof.
  intros Hl Hc. unfold for_upto.
  apply (wp_for_each (fun pre s' => s' = set_rx_clients (take (length pre) clients ++ drop (length pre) (rx_queue_clients s)) s)).
  - by destruct s.
  - intros pre i post s1 E ->. apply lookup_seqZ_prefix in E as [-> Hi].
    destruct (lookup_lt_is_Some_2 clients (length pre)) as [q Hq]; [lia|].
    destruct (lookup_lt_is_Some_2 (rx_queue_clients s) (length pre)) as [q0 Hq0]; [lia|].
    wp_step. eapply wp_lift; [by apply load_nat|]. unfold on_cli.
    assert (length (take (length pre) clients) = length pre) as Hlt by (rewrite length_take; lia).
    rewrite (drop_S _ _ _ Hq0).
    eapply wp_zoom_nth; [lia|cbn [rx_queue_clients set_rx_clients]; rewrite Nat2Z.id; by apply list_lookup_middle|].
    wp_step. unfold set_rx_clients. cbn [rx_queue_clients rx_queue_drv buffer_refs notify_drv rx_data rx_events]. f_equal.
    rewrite Nat2Z.id, length_app. cbn [length]. rewrite Nat.add_1_r, (take_S_r _ _ _ Hq), <- app_assoc. cbn.
    rewrite insert_app_r_alt by lia. rewrite Hlt, Nat.sub_diag. by destruct q.
  - intros s' ->. rewrite length_seqZ, take_ge, drop_ge, app_nil_r by lia. done.
Qed.

(** [init] on zeroed counts and empty queues establishes the ownership
    invariant: it does not fault, puts every buffer of the region into the
    driver's free ring, and leaves all counts at zero; the driver is notified
    if it has requested a signal. *)
Theorem init_establishes (config : net_virt_rx_config) (N : Z) (s : state) (refs : list Z)
  (drv : net_queue_handle) (clients : list net_queue_handle) :
  rx_config_ok config N ->
  net_fresh drv -> nh_capacity drv = N ->
  Forall net_fresh clients -> Forall (fun q => N <= nh_capacity q) clients ->
  Z.of_nat (length clients) = rc_num_clients config ->
  Z.of_nat (length (rx_queue_clients s)) = rc_num_clients config ->
  N <= Z.of_nat (length refs) -> Forall (fun r => r = 0) refs ->
  NET_BUFFER_SIZE * N <= Z.of_nat (length (rx_data s)) ->
  wp (init config true refs drv clients) s (fun _ s' =>
    sys_inv config N (mk_system s' [] (replicate (length clients) [])) /\
    net_items Free (rx_queue_drv s') = net_buffers (rc_io_addr config) N /\
    buffer_refs s' = refs /\
    rx_events s' = rx_events s ++
      (if net_require_signal_free drv then [DeferredNotify (rc_driver_id config)] else [])).
Proof.
  intros Hok (Hf & Ha & Ef & Ea) Hcap Hcl Hclcap Hlc Hls Hrefs Hzero Hdata.
  pose proof Hok as []. unfold init. wp_step. apply wp_assert; [done|]. wp_step. wp_step.
  wp_step. wp_use (init_clients config (set_buffer_refs refs s) clients). intros _ s1 ->.
  wp_step. unfold on_drv. wp_step. wp_step. wp_step. wp_step. cbn [rx_queue_drv set_rx_drv].
  assert (net_queue_init (nh_free drv) (nh_active drv) (nh_capacity drv) = drv) as -> by (by destruct drv).
  eapply wp_mono; [apply (net_buffers_init_spec drv (rc_io_addr config)); (done || lia)|].
  intros _ d (Hf' & Ef' & Hc' & Hr'). destruct (net_rest_other Free _ _ Hr' Hc') as [Hwa Ea']. cbn [other] in *.
  assert (net_require_signal_free d = net_require_signal_free drv) as Ereq.
  { unfold net_require_signal_free, net_require_signal. unfold net_rest in Hr'. cbn in *. congruence. }
  assert (drv_index config <$> drv_items d = seqZ 0 N) as Hidx.
  { unfold drv_items. rewrite Ea', Ea, Ef', Hcap. unfold net_buffers. cbn. rewrite <- list_fmap_compose.
    rewrite <- (list_fmap_id (seqZ 0 N)) at 2. apply list_fmap_ext. intros i x _. cbn.
    unfold drv_index. cbn. replace (rc_io_addr config + NET_BUFFER_SIZE * x - rc_io_addr config) with (x * NET_BUFFER_SIZE) by lia.
    by apply Z.div_mul. }
  assert (sys_inv config N (mk_system (set_rx_drv d (set_rx_clients clients (set_buffer_refs refs s))) []
            (replicate (length clients) []))) as Hinv.
  { split; cbn [sys_virt sys_driver sys_clients rx_queue_drv rx_queue_clients buffer_refs rx_data set_rx_drv set_rx_clients set_buffer_refs];
      try done.
    - split; [done|by apply Hwa|congruence|]. unfold drv_items. rewrite Ea', Ea, Ef'. cbn. apply Forall_forall.
      intros b (x & -> & _)%list_elem_of_fmap. unfold drv_desc, drv_index. cbn.
      replace (rc_io_addr config + NET_BUFFER_SIZE * x - rc_io_addr config) with (x * NET_BUFFER_SIZE) by lia.
      rewrite Z.div_mul by done. lia.
    - apply Forall_lookup. intros c q Hq. rewrite Forall_lookup in Hcl, Hclcap.
      destruct (Hcl _ _ Hq) as (? & ? & E1 & E2). split; try done; [by eapply Hclcap|].
      unfold drv_items. by rewrite E1, E2.
    - by rewrite length_replicate.
    - unfold drv_possession. rewrite Hidx, app_nil_r. apply ledger_initial; [by apply clis_fresh_possession|done|].
      intros i Hi. destruct (lookup_lt_is_Some_2 refs (Z.to_nat i)) as [r Hr]; [lia|].
      rewrite (list_lookup_total_correct _ _ _ Hr). rewrite Forall_lookup in Hzero. eauto. }
  wp_step. wp_step. cbn [rx_queue_drv set_rx_drv]. rewrite Ereq. destruct (net_require_signal_free drv); cbn [when].
  - wp_step. unfold net_cancel_signal_free. wp_step. wp_step. unfold rx_emit. wp_step.
    apply (rx_inv_drv_signal config N _ _ _ Free 1) in Hinv. split_and!; try done; [by destruct Hinv|].
    cbn [rx_queue_drv set_rx_drv]. by rewrite net_set_signalled_items, Ef', Hcap.
  - wp_step. split_and!; try done; [by rewrite <- Hcap|]. by rewrite app_nil_r.
Qed.


(** ** Witnesses *)

Definition rx_blank_ex : state :=
  mk_state (net_handle_of [] []) [net_handle_of [] []; net_handle_of [] []] [] false rx_data_ex [].

Lemma net_fresh_ex : net_fresh (net_handle_of [] []).
Proof. split_and!; [apply net_handle_of_wf; cbn; lia..|by vm_compute|by vm_compute]. Qed.

Lemma init_establishes_witness :
  wp (init rx_config_ex true [0; 0; 0; 0] (net_handle_of [] []) [net_handle_of [] []; net_handle_of [] []]) rx_blank_ex
    (fun _ s' => sys_inv rx_config_ex 4 (mk_system s' [] [[]; []]) /\
       net_items Free (rx_queue_drv s') = net_buffers 65536 4 /\ rx_events s' = [DeferredNotify 0]).
Proof.
  eapply wp_mono; [apply (init_establishes rx_config_ex 4 rx_blank_ex)|].
  - exact rx_config_ex_ok.
  - exact net_fresh_ex.
  - reflexivity.
  - constructor; [exact net_fresh_ex|]. constructor; [exact net_fresh_ex|constructor].
  - constructor; [|constructor; [|constructor]]; cbn; lia.
  - reflexivity.
  - reflexivity.
  - cbn; lia.
  - by repeat constructor.
  - cbn [rx_data rx_blank_ex]. rewrite rx_data_ex_length. unfold NET_BUFFER_SIZE. lia.
  - intros _ s' (? & ? & _ & ?). done.
Defined.

Lemma rx_step_ex :
  rx_step rx_config_ex (mk_system rx_state_ex [] [[]; []])
    (mk_system (set_rx_drv (set_nh_ring Free (set_nq_head 65535 (net_ring_of [rx_drv_buff 3])) (rx_queue_drv rx_state_ex)) rx_state_ex)
       [3] [[]; []]).
Proof. apply (step_driver_take rx_config_ex rx_state_ex _ (rx_drv_buff 3)). reflexivity. Qed.

