(* ===== verification/NetVirtTx.v ===== *)
(** * The network transmit virtualiser: network/components/virt_tx.c

    Each client transmits from buffers of its own region; the virtualiser checks
    and translates their offsets to addresses for the driver, and finds the
    client of a returned address by its region. *)

From S2P Require Import Prelude Ring Fifo NetQueue Microkit NetVirtRx.

Record net_virt_tx_config : Type := mk_tx_config {
  tc_driver_id : Z;
  tc_client_ids : list Z;      (* clients[i].conn.id *)
  tc_io_addrs : list Z;        (* clients[i].data.io_addr *)
  tc_num_clients : Z;          (* uint8_t *)
}.

(** [tx_queue_clients] has one entry per configured client. *)
Record tx_state : Type := mk_tx_state {
  tx_queue_drv : net_queue_handle;
  tx_queue_clients : list net_queue_handle;
  tx_events : list event;
}.

Definition set_tx_drv (q : net_queue_handle) (s : tx_state) : tx_state :=
  mk_tx_state q (tx_queue_clients s) (tx_events s).
Definition set_tx_clients (l : list net_queue_handle) (s : tx_state) : tx_state :=
  mk_tx_state (tx_queue_drv s) l (tx_events s).
Definition tx_emit (e : event) : M tx_state unit := modify (fun s =>
  mk_tx_state (tx_queue_drv s) (tx_queue_clients s) (tx_events s ++ [e])).

Definition tx_on_drv {A} (m : M net_queue_handle A) : M tx_state A := zoom tx_queue_drv set_tx_drv m.
Definition tx_on_cli {A} (i : Z) (m : M net_queue_handle A) : M tx_state A :=
  zoom_nth tx_queue_clients set_tx_clients i m.

Section handlers.
Context (config : net_virt_tx_config).

(** The loop of [extract_offset] from client number [client] on: the client and
    the offset in its region, or [None] for the return of -1.  The size of a
    region is computed in 32 bits. *)
Fixpoint extract_offset_loop (n : nat) (client : Z) (qs : list net_queue_handle) (phys : Z) : res (option (Z * Z)) :=
  match n with
  | O => Ok None
  | S n' =>
    io ← load (tc_io_addrs config) client;
    q ← load qs client;
    if (io <=? phys) && (phys <? u64 (io + u32 (nh_capacity q * NET_BUFFER_SIZE)))
    then Ok (Some (client, phys - io))
    else extract_offset_loop n' (client + 1) qs phys
  end.

Definition extract_offset (qs : list net_queue_handle) (phys : Z) : res (option (Z * Z)) :=
  extract_offset_loop (Z.to_nat (tc_num_clients config)) 0 qs phys.

(** The body of the inner loop of [tx_provide]; the local variable is
    [enqueued]. *)
Definition tx_provide_body (client : Z) : M (tx_state * bool) unit :=
  r ← on_state (tx_on_cli client net_dequeue_active);
  match r with
  | None => raise AssertFail
  | Some b =>
    p ← get;
    q ← lift (load (tx_queue_clients p.1) client);
    if negb (io_or_offset b mod NET_BUFFER_SIZE =? 0)
       || (u32 (NET_BUFFER_SIZE * nh_capacity q) <=? io_or_offset b) then
      err ← on_state (tx_on_cli client (net_enqueue_free b));
      assert_ (err =? 0)
    else
      io ← lift (load (tc_io_addrs config) client);
      err ← on_state (tx_on_drv (net_enqueue_active (mk_buff (u64 (io_or_offset b + io)) (bd_len b))));
      assert_ (err =? 0);;
      set_local true
  end.

Definition tx_active_more (client : Z) (p : tx_state * bool) : bool :=
  match tx_queue_clients p.1 !! Z.to_nat client with
  | Some q => negb (net_queue_empty_active q)
  | None => false
  end.
Definition tx_active_length (client : Z) (p : tx_state * bool) : nat :=
  match tx_queue_clients p.1 !! Z.to_nat client with
  | Some q => Z.to_nat (net_queue_length (nh_active q))
  | None => 0
  end.

(** The loop on [reprocess], which nobody else interleaves with (see
    NetVirtRx). *)
Definition tx_provide_outer (client : Z) : M ((tx_state * bool) * bool) unit :=
  on_state (loop (tx_active_length client) (tx_active_more client) (tx_provide_body client));;
  on_state (on_state (tx_on_cli client net_request_signal_active));;
  p ← get;
  if tx_active_more client p.1
  then on_state (on_state (tx_on_cli client net_cancel_signal_active));; set_local true
  else set_local false.

Definition tx_provide : M tx_state unit :=
  r ← with_local false
        (for_upto (tc_num_clients config) (fun client =>
           with_local true (loop (fun _ => 2%nat) snd (tx_provide_outer client));; mret tt));
  let enqueued := (r : unit * bool).2 in
  s ← get;
  when (enqueued && net_require_signal_active (tx_queue_drv s))
    (tx_on_drv net_cancel_signal_active;;
     tx_emit (DeferredNotify (tc_driver_id config))).

(** The body of the inner loop of [tx_return]; the local variable is
    [notify_clients]. *)
Definition tx_return_body : M (tx_state * list bool) unit :=
  r ← on_state (tx_on_drv net_dequeue_free);
  match r with
  | None => raise AssertFail
  | Some b =>
    p ← get;
    c ← lift (extract_offset (tx_queue_clients p.1) (io_or_offset b));
    match c with
    | None => raise AssertFail
    | Some (client, offset) =>
      err ← on_state (tx_on_cli client (net_enqueue_free (mk_buff offset (bd_len b))));
      assert_ (err =? 0);;
      notify ← lift (store p.2 client true);
      set_local notify
    end
  end.

Definition tx_drv_more (p : tx_state * list bool) : bool := negb (net_queue_empty_free (tx_queue_drv p.1)).
Definition tx_drv_length (p : tx_state * list bool) : nat := Z.to_nat (net_queue_length (nh_free (tx_queue_drv p.1))).

Definition tx_return_outer : M ((tx_state * list bool) * bool) unit :=
  on_state (loop tx_drv_length tx_drv_more tx_return_body);;
  on_state (on_state (tx_on_drv net_request_signal_free));;
  p ← get;
  if tx_drv_more p.1
  then on_state (on_state (tx_on_drv net_cancel_signal_free));; set_local true
  else set_local false.

Definition tx_notify_client (notify_clients : list bool) (client : Z) : M tx_state unit :=
  n ← lift (load notify_clients client);
  s ← get;
  q ← lift (load (tx_queue_clients s) client);
  when (n && net_require_signal_free q)
    (tx_on_cli client net_cancel_signal_free;;
     id ← lift (load (tc_client_ids config) client);
     tx_emit (Notify id)).

Definition tx_return : M tx_state unit :=
  r ← with_local (replicate (Z.to_nat SDDF_NET_MAX_CLIENTS) false)
        (with_local true (loop (fun _ => 2%nat) snd tx_return_outer));
  let notify_clients := (r : unit * bool * list bool).2 in
  for_upto (tc_num_clients config) (tx_notify_client notify_clients).

Definition notified (ch : Z) : M tx_state unit := tx_return;; tx_provide.

(** [init]: see NetVirtRx. *)
Definition init (magic : bool) (drv : net_queue_handle) (clients : list net_queue_handle) : M tx_state unit :=
  assert_ magic;;
  tx_on_drv (put (net_queue_init (nh_free drv) (nh_active drv) (nh_capacity drv)));;
  for_upto (tc_num_clients config) (fun i =>
    c ← lift (load clients i);
    tx_on_cli i (put (net_queue_init (nh_free c) (nh_active c) (nh_capacity c))));;
  tx_provide.

End handlers.

(** ** tx_provide *)

Record tx_config_ok (config : net_virt_tx_config) (s : tx_state) : Prop := mk_tx_config_ok {
  tok_num : 0 <= tc_num_clients config <= SDDF_NET_MAX_CLIENTS;
  tok_ids : Z.of_nat (length (tc_client_ids config)) = tc_num_clients config;
  tok_ios : Z.of_nat (length (tc_io_addrs config)) = tc_num_clients config;
  tok_len : Z.of_nat (length (tx_queue_clients s)) = tc_num_clients config;
  tok_io c q io : tx_queue_clients s !! c = Some q -> tc_io_addrs config !! c = Some io ->
    0 <= io /\ io + NET_BUFFER_SIZE * nh_capacity q < 2 ^ 64;
}.

(** A client's queue: neither ring can be overrun by the buffers in the two. *)
Record tx_cli_wf (q : net_queue_handle) : Prop := mk_tx_cli_wf {
  tw_free : net_wf Free q;
  tw_active : net_wf Active q;
  tw_room : Z.of_nat (length (net_items Free q) + length (net_items Active q)) <= nh_capacity q;
  tw_offsets : Forall (fun b => 0 <= io_or_offset b) (net_items Active q);
}.

(** The offsets the virtualiser accepts. *)
Definition tx_valid (q : net_queue_handle) (b : net_buff_desc) : bool :=
  (io_or_offset b mod NET_BUFFER_SIZE =? 0) && (io_or_offset b <? NET_BUFFER_SIZE * nh_capacity q).

Definition tx_valids (q : net_queue_handle) (A : list net_buff_desc) : list net_buff_desc :=
  filter (fun b => tx_valid q b = true) A.
Definition tx_invalids (q : net_queue_handle) (A : list net_buff_desc) : list net_buff_desc :=
  filter (fun b => tx_valid q b = false) A.

(** What the driver gets for a descriptor of a client. *)
Definition tx_pass (io : Z) (b : net_buff_desc) : net_buff_desc := mk_buff (io_or_offset b + io) (bd_len b).

Lemma filter_snoc_bool {A} (f : A -> bool) (v : bool) (l : list A) (x : A) :
  filter (fun y => f y = v) (l ++ [x]) = filter (fun y => f y = v) l ++ (if Bool.eqb (f x) v then [x] else []).
Proof.
  rewrite filter_app, filter_cons, filter_nil. f_equal.
  destruct (Bool.eqb (f x) v) eqn:E.
  - by apply eqb_prop in E; rewrite decide_True.
  - by apply eqb_false_iff in E; rewrite decide_False.
Qed.

Section tx_provide.
Context (config : net_virt_tx_config) (c : nat) (q0 : net_queue_handle) (io : Z) (p0 : tx_state * bool).
Context (Hok : tx_config_ok config p0.1) (Hq0 : tx_queue_clients p0.1 !! c = Some q0)
  (Hio : tc_io_addrs config !! c = Some io) (Hwf0 : tx_cli_wf q0)
  (Hdrv : net_wf Active (tx_queue_drv p0.1))
  (Hroom : Z.of_nat (length (net_items Active (tx_queue_drv p0.1)) + length (tx_valids q0 (net_items Active q0)))
           <= nh_capacity (tx_queue_drv p0.1)).

(** The client's queue after [taken] has been taken from its active ring. *)
Record tx_cli_at (taken rest : list net_buff_desc) (q : net_queue_handle) : Prop := mk_tx_cli_at {
  ta_free_wf : net_wf Free q;
  ta_active_wf : net_wf Active q;
  ta_active : net_items Active q = rest;
  ta_free : net_items Free q = net_items Free q0 ++ tx_invalids q0 taken;
  ta_cap : nh_capacity q = nh_capacity q0;
  ta_free_flag : nq_consumer_signalled (nh_free q) = nq_consumer_signalled (nh_free q0);
}.

(** The driver's queue after [out] has been passed on. *)
Definition tx_drv_at (out : list net_buff_desc) (d d' : net_queue_handle) : Prop :=
  net_wf Active d' /\ net_items Active d' = net_items Active d ++ out /\
  nh_capacity d' = nh_capacity d /\ net_rest Active d' = net_rest Active d.

Definition tx_provide_inv (p : tx_state * bool) : Prop :=
  exists taken rest q d,
    net_items Active q0 = taken ++ rest /\ tx_cli_at taken rest q /\
    tx_drv_at (tx_pass io <$> tx_valids q0 taken) (tx_queue_drv p0.1) d /\
    p = (mk_tx_state d (<[c := q]> (tx_queue_clients p0.1)) (tx_events p0.1),
         p0.2 || bool_decide (tx_valids q0 taken <> [])).

Lemma tx_cap_small : nh_capacity q0 < 2 ^ 16.
Proof using Hwf0. clear -Hwf0. destruct Hwf0 as [[] _ _ _]. lia. Qed.

Lemma tx_check b :
  negb (io_or_offset b mod NET_BUFFER_SIZE =? 0) || (u32 (NET_BUFFER_SIZE * nh_capacity q0) <=? io_or_offset b)
  = negb (tx_valid q0 b).
Proof using Hwf0.
  pose proof tx_cap_small as Hs. clear -Hwf0 Hs. destruct Hwf0 as [[] _ _ _]. unfold tx_valid. rewrite negb_andb. f_equal.
  rewrite u32_small by (unfold is_u32, NET_BUFFER_SIZE; lia). by rewrite Z.ltb_antisym, negb_involutive.
Qed.

Lemma tx_step p :
  tx_provide_inv p -> tx_active_more (Z.of_nat c) p = true ->
  wp (tx_provide_body config (Z.of_nat c)) p (fun _ p' => tx_provide_inv p' /\
    (tx_active_length (Z.of_nat c) p' < tx_active_length (Z.of_nat c) p)%nat).
Proof using Hok Hq0 Hio Hwf0 Hdrv Hroom.
  intros (taken & rest & q & d & E & [Hf Ha Hia Hif Hcap Hflag] & (Hd & Hid & Hdc & Hdr) & ->) Hmore.
  set (qs := tx_queue_clients p0.1) in *.
  assert (forall q', <[c := q']> qs !! c = Some q') as Hins
    by (intros; apply list_lookup_insert_eq; by eapply lookup_lt_Some).
  unfold tx_active_more in Hmore. cbn [fst snd tx_queue_clients] in Hmore.
  rewrite Nat2Z.id, Hins in Hmore. apply negb_true_iff in Hmore.
  destruct rest as [|b rest]; [apply (net_empty_nil Active) in Hia; [|done]; unfold net_queue_empty_active in Hmore; congruence|].
  assert (length (net_items Active q0) = length taken + S (length rest))%nat as Hlen by (rewrite E, length_app; done).
  pose proof (tx_check b) as Hcheck. pose proof tx_cap_small.
  assert (0 <= io_or_offset b) as Hb0.
  { destruct Hwf0 as [_ _ _ Ho]. rewrite E in Ho. by apply Forall_app in Ho as [_ [? _]%Forall_cons_1]. }
  unfold tx_provide_body. wp_step. wp_step. unfold tx_on_cli.
  eapply wp_zoom_nth; [lia|rewrite Nat2Z.id; apply Hins|].
  eapply net_dequeue_spec; [done..|]. intros q1 Ha1 Hia1 Hc1 Hr1. rewrite Nat2Z.id.
  destruct (net_rest_other Active _ _ Hr1 Hc1) as [Hf1 Ef1]. cbn [other] in *.
  wp_step. wp_step. cbn [fst snd tx_queue_clients set_tx_clients]. rewrite list_insert_insert_eq.
  wp_step. eapply wp_lift; [apply load_nat, Hins|]. rewrite Hc1, Hcap, Hcheck.
  assert (forall q' v, tx_cli_at (taken ++ [b]) rest q' ->
    (tx_active_length (Z.of_nat c) (mk_tx_state v (<[c:=q']> qs) (tx_events p0.1), true)
     < tx_active_length (Z.of_nat c) (mk_tx_state d (<[c:=q]> qs) (tx_events p0.1), true))%nat) as Hdec.
  { intros q' v []. unfold tx_active_length. cbn [fst tx_queue_clients]. rewrite Nat2Z.id, !Hins.
    change (nh_active ?x) with (nh_ring Active x). rewrite !net_length_spec by done. rewrite Hia, ta_active0. cbn. lia. }
  assert (nq_consumer_signalled (nh_free q1) = nq_consumer_signalled (nh_free q0)) as Hflag1
    by (unfold net_rest in Hr1; cbn in Hr1; congruence).
  destruct (tx_valid q0 b) eqn:Hv; cbn [negb].
  - wp_step. eapply wp_lift; [by apply load_nat|]. destruct (tok_io _ _ Hok c q0 io Hq0 Hio).
    unfold tx_valid in Hv. apply andb_prop in Hv as Hv'. destruct Hv' as [_ Hlt%Z.ltb_lt]. fold (tx_valid q0 b) in Hv.
    rewrite u64_small by (unfold is_u64; lia). fold (tx_pass io b).
    assert (Z.of_nat (length (net_items Active d)) < nh_capacity d) as Hdroom.
    { rewrite Hid, Hdc, length_app, length_fmap. unfold tx_valids in *. rewrite E, filter_app, filter_cons, decide_True in Hroom by done.
      rewrite length_app in Hroom. cbn [length] in Hroom. lia. }
    wp_step. wp_step. unfold tx_on_drv. wp_step. apply net_enqueue_spec; [done|exact Hdroom|].
    intros d1 Hd1 Hid1 Hdc1 Hdr1. cbn [tx_queue_drv set_tx_clients fst snd] in *. wp_step. apply wp_assert; [done|]. wp_step.
    assert (tx_cli_at (taken ++ [b]) rest q1) as Hat.
    { split; [by apply Hf1|done..| |congruence|done]. unfold tx_invalids in *.
      rewrite (filter_snoc_bool (tx_valid q0)), Hv, app_nil_r. congruence. }
    split; [|by apply Hdec]. exists (taken ++ [b]), rest, q1, d1.
    unfold tx_valids. rewrite (filter_snoc_bool (tx_valid q0)), Hv. cbn [Bool.eqb]. split_and!.
    + by rewrite <- app_assoc.
    + done.
    + split_and!; [done|rewrite fmap_app, app_assoc; unfold tx_valids in Hid; by rewrite Hid1, Hid|congruence|congruence].
    + rewrite bool_decide_app_nil, (bool_decide_eq_true_2 ([b] <> [])), !orb_true_r by done. done.
  - wp_step. wp_step. eapply wp_zoom_nth; [lia|rewrite Nat2Z.id; apply Hins|].
    assert (Z.of_nat (length (net_items Free q1)) < nh_capacity q1) as Hfroom.
    { rewrite Ef1, Hc1, Hcap, Hif, length_app. destruct Hwf0. unfold tx_invalids.
      pose proof (length_filter (fun b => tx_valid q0 b = false) taken). lia. }
    apply net_enqueue_spec; [by apply Hf1|done|]. intros q2 Hf2 Hif2 Hc2 Hr2. rewrite Nat2Z.id.
    destruct (net_rest_other Free _ _ Hr2 Hc2) as [Ha2 Ea2]. cbn [other] in *.
    apply wp_assert; [done|]. cbn [fst snd tx_queue_clients set_tx_clients tx_queue_drv tx_events]. rewrite list_insert_insert_eq.
    assert (tx_cli_at (taken ++ [b]) rest q2) as Hat.
    { split; [done|by apply Ha2|congruence| |congruence|]. 
      - unfold tx_invalids in *. rewrite (filter_snoc_bool (tx_valid q0)), Hv. cbn [Bool.eqb]. rewrite Hif2, Ef1, Hif. by rewrite app_assoc.
      - unfold net_rest in Hr2; cbn in Hr2. congruence. }
    split; [|by apply Hdec]. exists (taken ++ [b]), rest, q2, d.
    unfold tx_valids. rewrite (filter_snoc_bool (tx_valid q0)), Hv, app_nil_r. split_and!; try done. by rewrite <- app_assoc.
Qed.

(** One client: both loops. *)
Definition tx_client_done (p : tx_state * bool) : Prop :=
  exists q d,
    tx_cli_at (net_items Active q0) [] q /\ net_require_signal_active q = true /\
    tx_drv_at (tx_pass io <$> tx_valids q0 (net_items Active q0)) (tx_queue_drv p0.1) d /\
    p = (mk_tx_state d (<[c := q]> (tx_queue_clients p0.1)) (tx_events p0.1),
         p0.2 || bool_decide (tx_valids q0 (net_items Active q0) <> [])).

Lemma tx_provide_client :
  wp (with_local true (loop (fun _ => 2%nat) snd (tx_provide_outer config (Z.of_nat c)));; mret tt) p0
    (fun _ p => tx_client_done p).
Proof using Hok Hq0 Hio Hwf0 Hdrv Hroom.
  wp_step. wp_step.
  apply (wp_loop_le (fun p : tx_state * bool * bool => if p.2 then p.1 = p0 else tx_client_done p.1)
           (fun p => if p.2 then 1%nat else 0%nat)); cbn.
  - done.
  - lia.
  - intros [p [|]]; [|done]. cbn. intros -> _. unfold tx_provide_outer. wp_step. wp_step.
    assert (forall q', <[c := q']> (tx_queue_clients p0.1) !! c = Some q') as Hins
      by (intros; apply list_lookup_insert_eq; by eapply lookup_lt_Some).
    apply (wp_loop tx_provide_inv).
    + exists [], (net_items Active q0), q0, (tx_queue_drv p0.1). destruct Hwf0. split_and!; try done.
      * split; try done. by rewrite app_nil_r.
      * split_and!; try done. by rewrite app_nil_r.
      * rewrite bool_decide_eq_false_2, orb_false_r, list_insert_id by auto. by destruct p0 as [[] ?].
    + apply tx_step.
    + intros p1 (taken & rest & q & d & E & Hat & Hd & ->) Hstop.
      unfold tx_active_more in Hstop. cbn [fst tx_queue_clients] in Hstop. rewrite Nat2Z.id, Hins in Hstop.
      apply negb_false_iff in Hstop. apply (net_empty_spec Active) in Hstop; [|by destruct Hat].
      assert (rest = []) as -> by (destruct Hat; congruence). rewrite app_nil_r in E. subst taken.
      wp_step. wp_step. wp_step. unfold tx_on_cli, net_request_signal_active.
      eapply wp_zoom_nth; [lia|rewrite Nat2Z.id; apply Hins|]. wp_step. wp_step. wp_step.
      cbn [fst snd tx_queue_clients set_tx_clients tx_queue_drv tx_events]. rewrite Nat2Z.id, list_insert_insert_eq.
      set (q1 := net_set_signalled Active 0 q).
      assert (tx_cli_at (net_items Active q0) [] q1) as Hat1.
      { destruct Hat. split; unfold q1; rewrite ?net_set_signalled_items; try done; by apply net_set_signalled_wf. }
      unfold tx_active_more. cbn [fst snd set_tx_clients tx_queue_clients tx_queue_drv tx_events]. rewrite Nat2Z.id, Hins.
      assert (net_queue_empty_active q1 = true) as -> by (destruct Hat1; by apply (net_empty_nil Active)).
      cbn [negb]. wp_step. cbn. split; [|lia]. by exists q1, d.
  - intros [p b]. cbn. intros H ->. wp_step. exact H.
Qed.

End tx_provide.

(** What each client passes to the driver. *)
Definition tx_passes (config : net_virt_tx_config) (s : tx_state) : list (list net_buff_desc) :=
  zip_with (fun q io => tx_pass io <$> tx_valids q (net_items Active q)) (tx_queue_clients s) (tc_io_addrs config).

(** The queue of a client that has been served. *)
Definition tx_cli_done (q q' : net_queue_handle) : Prop :=
  net_items Active q' = [] /\
  net_items Free q' = net_items Free q ++ tx_invalids q (net_items Active q) /\
  net_require_signal_active q' = true /\ net_wf Free q' /\ net_wf Active q' /\ nh_capacity q' = nh_capacity q.

Definition tx_served (k : nat) (qs qs' : list net_queue_handle) : Prop :=
  length qs' = length qs /\
  forall c q, qs !! c = Some q ->
    exists q', qs' !! c = Some q' /\ if (c <? k)%nat then tx_cli_done q q' else q' = q.

Lemma tx_served_caps k qs qs' c q q' :
  tx_served k qs qs' -> qs !! c = Some q -> qs' !! c = Some q' -> nh_capacity q' = nh_capacity q.
Proof.
  intros [_ Hs] Hq Hq'. destruct (Hs _ _ Hq) as (q1 & Hq1 & H). assert (q1 = q') as -> by congruence.
  destruct (_ <? _)%nat; [|by subst]. by destruct H as (_ & _ & _ & _ & _ & ?).
Qed.

Lemma tx_provide_loop (config : net_virt_tx_config) (s : tx_state) :
  tx_config_ok config s -> Forall tx_cli_wf (tx_queue_clients s) -> net_wf Active (tx_queue_drv s) ->
  Z.of_nat (length (net_items Active (tx_queue_drv s) ++ concat (tx_passes config s))) <= nh_capacity (tx_queue_drv s) ->
  wp (for_upto (tc_num_clients config) (fun client =>
        with_local true (loop (fun _ => 2%nat) snd (tx_provide_outer config client));; mret tt)) (s, false)
    (fun _ p => tx_drv_at (concat (tx_passes config s)) (tx_queue_drv s) (tx_queue_drv p.1) /\
       tx_served (length (tx_queue_clients s)) (tx_queue_clients s) (tx_queue_clients p.1) /\
       tx_events p.1 = tx_events s /\ p.2 = bool_decide (concat (tx_passes config s) <> [])).
Proof.
  intros Hok Hcli Hdrv Hroom. pose proof Hok as []. unfold for_upto.
  assert (length (tx_passes config s) = length (tx_queue_clients s)) as Hlp
    by (unfold tx_passes; rewrite length_zip_with; lia).
  apply (wp_for_each (fun pre p =>
    tx_drv_at (concat (take (length pre) (tx_passes config s))) (tx_queue_drv s) (tx_queue_drv p.1) /\
    tx_served (length pre) (tx_queue_clients s) (tx_queue_clients p.1) /\
    tx_events p.1 = tx_events s /\ p.2 = bool_decide (concat (take (length pre) (tx_passes config s)) <> []))).
  - cbn. split_and!; try done; [split_and!; try done; by rewrite app_nil_r|]. split; [done|]. intros c q Hc. by exists q.
  - intros pre i post p1 E (Hd & Hsv & Hev & He). apply lookup_seqZ_prefix in E as [-> Hi].
    destruct (lookup_lt_is_Some_2 (tx_queue_clients s) (length pre)) as [q Hq]; [lia|].
    destruct (lookup_lt_is_Some_2 (tc_io_addrs config) (length pre)) as [io Hio]; [lia|].
    destruct (proj2 Hsv _ _ Hq) as (q1 & Hq1 & Heq). rewrite Nat.ltb_irrefl in Heq. subst q1.
    assert (tx_passes config s !! length pre = Some (tx_pass io <$> tx_valids q (net_items Active q))) as Hp
      by (unfold tx_passes; by rewrite lookup_zip_with, Hq, Hio).
    assert (concat (take (length pre + 1) (tx_passes config s))
            = concat (take (length pre) (tx_passes config s)) ++ (tx_pass io <$> tx_valids q (net_items Active q))) as Etake.
    { rewrite Nat.add_1_r, (take_S_r _ _ _ Hp), concat_app. cbn. by rewrite app_nil_r. }
    assert (length (concat (take (length pre + 1) (tx_passes config s))) <= length (concat (tx_passes config s)))%nat as Hle.
    { rewrite <- (take_drop (length pre + 1) (tx_passes config s)) at 2. rewrite concat_app, length_app. lia. }
    rewrite Etake, length_app, length_fmap in Hle. rewrite length_app in Hroom.
    destruct Hd as (Hdw & Hdi & Hdc & Hdr).
    assert (tx_config_ok config p1.1) as Hok1.
    { split; try done; [by rewrite (proj1 Hsv)|]. intros c q1 io1 Hc1 Hio1.
      destruct (lookup_lt_is_Some_2 (tx_queue_clients s) c) as [q2 Hq2]; [rewrite <- (proj1 Hsv); by eapply lookup_lt_Some|].
      rewrite (tx_served_caps _ _ _ _ _ _ Hsv Hq2 Hc1). eauto. }
    rewrite Forall_lookup in Hcli. specialize (Hcli _ _ Hq).
    eapply wp_mono.
    { apply (tx_provide_client config (length pre) q io p1); try done. rewrite Hdi, Hdc, length_app. lia. }
    intros _ p2 (q' & d & [] & Hsig & (Hdw' & Hdi' & Hdc' & Hdr') & ->).
    rewrite length_app. cbn [length fst snd tx_queue_drv tx_queue_clients tx_events]. rewrite Etake. split_and!.
    + split_and!; [done|by rewrite Hdi', Hdi, app_assoc|congruence|congruence].
    + split; [rewrite length_insert; apply Hsv|]. intros c q2 Hc. destruct (decide (c = length pre)) as [->|Hne].
      * exists q'. rewrite list_lookup_insert_eq, (proj2 (Nat.ltb_lt _ _)) by (lia || by eapply lookup_lt_Some).
        assert (q2 = q) as -> by congruence. done.
      * rewrite list_lookup_insert_ne by done. destruct (proj2 Hsv _ _ Hc) as (q3 & ? & ?). exists q3.
        assert ((c <? length pre + 1)%nat = (c <? length pre)%nat) as ->; [|done].
        apply eq_true_iff_eq. rewrite !Nat.ltb_lt. lia.
    + done.
    + rewrite bool_decide_app_nil, He. f_equal. apply bool_decide_ext. by destruct (tx_valids q (net_items Active q)).
  - intros p (Hd & Hsv & Hev & He). rewrite length_seqZ in *.
    replace (Z.to_nat (tc_num_clients config)) with (length (tx_queue_clients s)) in * by lia.
    rewrite take_ge in Hd, He by lia. done.
Qed.

(** C23. [tx_provide] takes every active buffer of every client: those with an
    aligned offset inside the client's region go to the driver, client by client
    and in order, translated to addresses; all others go back to the client's
    free ring.  Given that the driver's ring is large enough for them, no
    assertion fails, every client's signal is requested, and the driver is
    notified exactly if it got something and had asked for a signal. *)
Theorem tx_provide_correct (config : net_virt_tx_config) (s : tx_state) :
  tx_config_ok config s -> Forall tx_cli_wf (tx_queue_clients s) -> net_wf Active (tx_queue_drv s) ->
  let out := concat (tx_passes config s) in
  Z.of_nat (length (net_items Active (tx_queue_drv s) ++ out)) <= nh_capacity (tx_queue_drv s) ->
  wp (tx_provide config) s (fun _ s' =>
    net_items Active (tx_queue_drv s') = net_items Active (tx_queue_drv s) ++ out /\
    (forall c q, tx_queue_clients s !! c = Some q ->
       exists q', tx_queue_clients s' !! c = Some q' /\ tx_cli_done q q') /\
    tx_events s' = tx_events s ++
      (if bool_decide (out <> []) && net_require_signal_active (tx_queue_drv s)
       then [DeferredNotify (tc_driver_id config)] else [])).
Proof.
  intros Hok Hcli Hdrv out Hroom. unfold tx_provide. wp_step. wp_step.
  wp_use (tx_provide_loop config s). intros r [s1 e] (Hd & [Hl Hs] & Hev & He). cbn [fst snd] in *. subst e.
  destruct Hd as (Hdw & Hdi & Hdc & Hdr).
  assert (net_require_signal_active (tx_queue_drv s1) = net_require_signal_active (tx_queue_drv s)) as Ereq.
  { unfold net_require_signal_active, net_require_signal. unfold net_rest in Hdr. cbn in *. congruence. }
  assert (forall c q, tx_queue_clients s !! c = Some q ->
            exists q', tx_queue_clients s1 !! c = Some q' /\ tx_cli_done q q') as Hall.
  { intros c q Hc. destruct (Hs _ _ Hc) as (q' & ? & Hq'). exists q'.
    by rewrite (proj2 (Nat.ltb_lt _ _)) in Hq' by (by eapply lookup_lt_Some). }
  wp_step. wp_step. rewrite Ereq. fold out. destruct (_ && _); cbn [when].
  - wp_step. unfold tx_on_drv, net_cancel_signal_active. wp_step. wp_step. unfold tx_emit. wp_step.
    cbn [tx_queue_drv tx_queue_clients tx_events set_tx_drv]. rewrite net_set_signalled_items, Hev. done.
  - wp_step. rewrite Hev, app_nil_r. done.
Qed.

(** ** Finding the client of an address *)

(** The regions of the clients: their base addresses and their numbers of
    buffers. *)
Definition tx_regions (config : net_virt_tx_config) (qs : list net_queue_handle) : list (Z * Z) :=
  zip (tc_io_addrs config) (nh_capacity <$> qs).

Definition in_region (r : Z * Z) (phys : Z) : bool :=
  (r.1 <=? phys) && (phys <? r.1 + NET_BUFFER_SIZE * r.2).

Fixpoint region_owner (rs : list (Z * Z)) (c : Z) (phys : Z) : option (Z * Z) :=
  match rs with
  | [] => None
  | r :: rs' => if in_region r phys then Some (c, phys - r.1) else region_owner rs' (c + 1) phys
  end.

Lemma region_owner_range rs c phys c' off :
  region_owner rs c phys = Some (c', off) -> c <= c' < c + Z.of_nat (length rs).
Proof.
  revert c. induction rs as [|r rs IH]; intros c; cbn; [done|].
  destruct (in_region r phys); [intros [= -> _]; lia|]. intros ?%IH. lia.
Qed.

(** Regions that do not overlap. *)
Definition regions_disjoint (rs : list (Z * Z)) : Prop :=
  forall i j r r' phys, rs !! i = Some r -> rs !! j = Some r' ->
    in_region r phys = true -> in_region r' phys = true -> i = j.

Lemma region_owner_unique rs c phys (i : nat) r :
  regions_disjoint rs -> rs !! i = Some r -> in_region r phys = true ->
  region_owner rs c phys = Some (c + Z.of_nat i, phys - r.1).
Proof.
  revert c i. induction rs as [|r0 rs IH]; intros c [|i] Hdis Hi Hin; try done.
  - injection Hi as ->. cbn. rewrite Hin. do 2 f_equal. lia.
  - cbn. destruct (in_region r0 phys) eqn:E0.
    + assert (0%nat = S i) by (by eapply (Hdis 0%nat (S i) r0 r phys)). done.
    + rewrite (IH (c + 1) i); [do 2 f_equal; lia| |done|done].
      intros j k r1 r2 phys' H1 H2 H3 H4. assert (S j = S k) as [= ->]; [|done].
      by eapply (Hdis (S j) (S k) r1 r2 phys').
Qed.

Section extract.
Context (config : net_virt_tx_config) (qs : list net_queue_handle).
Context (Hios : Z.of_nat (length (tc_io_addrs config)) = tc_num_clients config)
  (Hqs : Z.of_nat (length qs) = tc_num_clients config)
  (Hcap : forall c q io, qs !! c = Some q -> tc_io_addrs config !! c = Some io ->
     0 <= io /\ io + NET_BUFFER_SIZE * nh_capacity q < 2 ^ 64 /\ 0 <= nh_capacity q < 2 ^ 16).

Lemma extract_offset_loop_spec n c phys :
  (c + n = length qs)%nat ->
  extract_offset_loop config n (Z.of_nat c) qs phys
  = Ok (region_owner (drop c (tx_regions config qs)) (Z.of_nat c) phys).
Proof using Hios Hqs Hcap.
  revert c. induction n as [|n IH]; intros c Hc; cbn [extract_offset_loop].
  - rewrite drop_ge; [done|]. unfold tx_regions. rewrite length_zip_with, length_fmap. lia.
  - destruct (lookup_lt_is_Some_2 qs c) as [q Hq]; [lia|].
    destruct (lookup_lt_is_Some_2 (tc_io_addrs config) c) as [io Hio]; [lia|].
    rewrite (load_nat _ _ _ Hio). cbn. rewrite (load_nat _ _ _ Hq). cbn.
    assert (tx_regions config qs !! c = Some (io, nh_capacity q)) as Hr
      by (unfold tx_regions; by rewrite lookup_zip_with, Hio, list_lookup_fmap, Hq).
    rewrite (drop_S _ _ _ Hr). cbn [region_owner]. unfold in_region. cbn [fst snd].
    destruct (Hcap c q io Hq Hio) as (? & ? & ?). unfold NET_BUFFER_SIZE in *.
    rewrite (u32_small (nh_capacity q * 2048)) by (unfold is_u32; lia).
    rewrite u64_small by (unfold is_u64; lia). rewrite (Z.mul_comm (nh_capacity q)).
    destruct (_ && _); [done|]. replace (Z.of_nat c + 1) with (Z.of_nat (S c)) by lia. apply IH. lia.
Qed.

Lemma extract_offset_spec phys :
  extract_offset config qs phys = Ok (region_owner (tx_regions config qs) 0 phys).
Proof using Hios Hqs Hcap. unfold extract_offset. change 0 with (Z.of_nat 0) at 1. by rewrite extract_offset_loop_spec by lia. Qed.

(** C37. What [tx_provide] passes to the driver, [tx_return] attributes to the
    same client at the same offset: with regions that do not overlap,
    [extract_offset] inverts the translation of every valid descriptor. *)
Theorem extract_offset_inverts (c : nat) (q : net_queue_handle) (io : Z) (b : net_buff_desc) :
  regions_disjoint (tx_regions config qs) ->
  qs !! c = Some q -> tc_io_addrs config !! c = Some io ->
  0 <= io_or_offset b -> tx_valid q b = true ->
  extract_offset config qs (io_or_offset (tx_pass io b)) = Ok (Some (Z.of_nat c, io_or_offset b)).
Proof using Hios Hqs Hcap.
  intros Hdis Hq Hio Hb Hv. rewrite extract_offset_spec.
  apply andb_prop in Hv as [_ Hlt%Z.ltb_lt].
  rewrite (region_owner_unique _ 0 _ c (io, nh_capacity q)); [|done| |].
  - cbn. do 3 f_equal. lia.
  - unfold tx_regions. by rewrite lookup_zip_with, Hio, list_lookup_fmap, Hq.
  - unfold in_region. cbn. apply andb_true_intro. split; [apply Z.leb_le|apply Z.ltb_lt]; lia.
Qed.

End extract.

Definition tx_config_ex : net_virt_tx_config := mk_tx_config 0 [1; 2] [65536; 131072] 2.

Lemma tx_ex_caps c q io :
  [net_handle_of [] []; net_handle_of [] []] !! c = Some q -> tc_io_addrs tx_config_ex !! c = Some io ->
  0 <= io /\ io + NET_BUFFER_SIZE * nh_capacity q < 2 ^ 64 /\ 0 <= nh_capacity q < 2 ^ 16.
Proof. destruct c as [|[|c]]; cbn; intros [= <-] [= <-]; unfold NET_BUFFER_SIZE; cbn; lia. Qed.

Lemma tx_ex_disjoint : regions_disjoint (tx_regions tx_config_ex [net_handle_of [] []; net_handle_of [] []]).
Proof.
  intros i j r r' phys. destruct i as [|[|i]], j as [|[|j]]; cbn; intros [= <-] [= <-]; try done;
    unfold in_region, NET_BUFFER_SIZE; cbn; intros [?%Z.leb_le ?%Z.ltb_lt]%andb_prop [?%Z.leb_le ?%Z.ltb_lt]%andb_prop; lia.
Qed.

Lemma extract_offset_inverts_witness :
  extract_offset tx_config_ex [net_handle_of [] []; net_handle_of [] []] (io_or_offset (tx_pass 131072 (mk_buff 4096 9)))
  = Ok (Some (1, 4096)).
Proof.
  exact (extract_offset_inverts tx_config_ex [net_handle_of [] []; net_handle_of [] []] eq_refl eq_refl tx_ex_caps
           1 (net_handle_of [] []) 131072 (mk_buff 4096 9) tx_ex_disjoint eq_refl eq_refl ltac:(discriminate) eq_refl).
Defined.

Lemma tx_cli_ex_wf act :
  (length act <= 4)%nat -> Z.of_nat (length (net_items Free (net_handle_of [] act)) + length (net_items Active (net_handle_of [] act))) <= 4 ->
  Forall (fun b => 0 <= io_or_offset b) (net_items Active (net_handle_of [] act)) -> tx_cli_wf (net_handle_of [] act).
Proof. intros. split; [apply net_handle_of_wf; cbn; lia..|done|done]. Qed.

(** Client 1 sends two good buffers and a misaligned one. *)
Definition tx_state_ex : tx_state :=
  mk_tx_state (net_handle_of [] [])
    [net_handle_of [] []; net_handle_of [] [mk_buff 0 60; mk_buff 100 60; mk_buff 6144 70]] [].

Lemma tx_provide_correct_witness :
  wp (tx_provide tx_config_ex) tx_state_ex (fun _ s' =>
    net_items Active (tx_queue_drv s') = [mk_buff 131072 60; mk_buff 137216 70] /\ tx_events s' = [DeferredNotify 0]).
Proof.
  eapply wp_mono; [apply (tx_provide_correct tx_config_ex tx_state_ex)|].
  - split; cbn; try (unfold SDDF_NET_MAX_CLIENTS; lia).
    intros c q io. destruct c as [|[|c]]; cbn; intros [= <-] [= <-]; unfold NET_BUFFER_SIZE; cbn; lia.
  - constructor; [|constructor; [|constructor]]; (apply tx_cli_ex_wf; [cbn; lia|by vm_compute|]).
    + constructor.
    + assert (net_items Active (net_handle_of [] [mk_buff 0 60; mk_buff 100 60; mk_buff 6144 70])
              = [mk_buff 0 60; mk_buff 100 60; mk_buff 6144 70]) as -> by (by vm_compute).
      repeat constructor; cbn; lia.
  - apply net_handle_of_wf; cbn; lia.
  - by vm_compute.
  - intros _ s' (Ea & _ & Ee). rewrite Ea, Ee. by vm_compute.
Defined.

(** ** tx_return *)

(** What client [c] gets back of the driver's free buffers [A]. *)
Definition tx_back (rs : list (Z * Z)) (c : Z) (A : list net_buff_desc) : list net_buff_desc :=
  omap (fun b => match region_owner rs 0 (io_or_offset b) with
                 | Some (c', off) => if c' =? c then Some (mk_buff off (bd_len b)) else None
                 | None => None
                 end) A.

(** Every address of [A] lies in the region of a client. *)
Definition tx_owned (rs : list (Z * Z)) (A : list net_buff_desc) : Prop :=
  Forall (fun b => is_Some (region_owner rs 0 (io_or_offset b))) A.

Lemma tx_back_app rs c A A' : tx_back rs c (A ++ A') = tx_back rs c A ++ tx_back rs c A'.
Proof. apply omap_app. Qed.

Section tx_return.
Context (config : net_virt_tx_config) (s0 : tx_state).
Context (Hok : tx_config_ok config s0) (Hwf : Forall (net_wf Free) (tx_queue_clients s0))
  (Hdrv : net_wf Free (tx_queue_drv s0)).

#[local] Abbreviation rs := (tx_regions config (tx_queue_clients s0)).
#[local] Abbreviation A := (net_items Free (tx_queue_drv s0)).

Context (Howned : tx_owned rs A)
  (Hroom : forall c q, tx_queue_clients s0 !! c = Some q ->
     Z.of_nat (length (net_items Free q ++ tx_back rs (Z.of_nat c) A)) <= nh_capacity q).

(** A client's queue with [l] appended to its free ring. *)
Definition tx_cli_back (q : net_queue_handle) (l : list net_buff_desc) (q' : net_queue_handle) : Prop :=
  net_wf Free q' /\ net_items Free q' = net_items Free q ++ l /\
  nh_capacity q' = nh_capacity q /\ net_rest Free q' = net_rest Free q.

Definition tx_clis_back (taken : list net_buff_desc) (qs : list net_queue_handle) : Prop :=
  length qs = length (tx_queue_clients s0) /\
  forall c q, tx_queue_clients s0 !! c = Some q ->
    exists q', qs !! c = Some q' /\ tx_cli_back q (tx_back rs (Z.of_nat c) taken) q'.

Definition tx_return_inv (p : tx_state * list bool) : Prop :=
  exists taken rest d qs n,
    A = taken ++ rest /\ p = (mk_tx_state d qs (tx_events s0), n) /\
    net_wf Free d /\ net_items Free d = rest /\ nh_capacity d = nh_capacity (tx_queue_drv s0) /\
    net_rest Free d = net_rest Free (tx_queue_drv s0) /\
    tx_clis_back taken qs /\ length n = 64%nat /\
    (forall c, (c < length (tx_queue_clients s0))%nat ->
       n !! c = Some (bool_decide (tx_back rs (Z.of_nat c) taken <> []))).

Lemma tx_clis_back_regions taken qs : tx_clis_back taken qs -> tx_regions config qs = rs.
Proof using Type.
  intros [Hl Hb]. unfold tx_regions. f_equal. apply list_eq. intros c. rewrite !list_lookup_fmap.
  destruct (tx_queue_clients s0 !! c) as [q|] eqn:E.
  - destruct (Hb _ _ E) as (q' & -> & _ & _ & Hc & _). cbn. by rewrite Hc.
  - apply lookup_ge_None_1 in E. by rewrite lookup_ge_None_2 by lia.
Qed.

(** The room left for one more buffer. *)
Lemma tx_back_room c q taken b rest off :
  tx_queue_clients s0 !! c = Some q -> A = taken ++ b :: rest ->
  region_owner rs 0 (io_or_offset b) = Some (Z.of_nat c, off) ->
  Z.of_nat (length (net_items Free q ++ tx_back rs (Z.of_nat c) taken)) < nh_capacity q.
Proof using Hroom.
  intros Hc E Ho. specialize (Hroom c q Hc). rewrite E, tx_back_app, !length_app in Hroom. rewrite length_app.
  cbn in Hroom. rewrite Ho, Z.eqb_refl in Hroom. cbn [length] in Hroom. lia.
Qed.

Lemma tx_return_step p :
  tx_return_inv p -> tx_drv_more p = true ->
  wp (tx_return_body config) p (fun _ p' => tx_return_inv p' /\ (tx_drv_length p' < tx_drv_length p)%nat).
Proof using Hok Hwf Hdrv Howned Hroom.
  intros (taken & rest & d & qs & n & E & -> & Hd & Hid & Hdc & Hdr & Hb & Hn & Hnot) Hmore%negb_true_iff.
  cbn [fst tx_queue_drv] in Hmore. pose proof Hok as [].
  destruct rest as [|b rest]; [apply (net_empty_nil Free) in Hid; [|done]; unfold net_queue_empty_free in Hmore; congruence|].
  pose proof Howned as Howned'. rewrite E in Howned'. apply Forall_app in Howned' as [_ [[[c off] Ho] _]%Forall_cons_1].
  pose proof (region_owner_range _ _ _ _ _ Ho) as Hcr. unfold tx_regions in Hcr. rewrite length_zip_with, length_fmap in Hcr.
  assert (exists c', c = Z.of_nat c' /\ (c' < length (tx_queue_clients s0))%nat) as (c' & -> & Hc')
    by (exists (Z.to_nat c); lia). clear Hcr.
  destruct (lookup_lt_is_Some_2 _ _ Hc') as [q0 Hq0]. destruct (proj2 Hb _ _ Hq0) as (q & Hq & Hqw & Hqi & Hqc & Hqr).
  pose proof (tx_back_room c' q0 taken b rest off Hq0 E Ho) as Hr.
  unfold tx_return_body. wp_step. wp_step. unfold tx_on_drv. wp_step.
  eapply net_dequeue_spec; [done..|]. intros d1 Hd1 Hid1 Hc1 Hr1. cbn [tx_queue_drv] in *. wp_step. wp_step.
  wp_step. cbn [fst snd tx_queue_clients set_tx_drv]. eapply wp_lift.
  { rewrite extract_offset_spec, (tx_clis_back_regions _ _ Hb), Ho; [done|lia|rewrite (proj1 Hb); lia|].
    intros k qk io Hk Hio. destruct (lookup_lt_is_Some_2 (tx_queue_clients s0) k) as [q1 Hq1];
      [rewrite <- (proj1 Hb); by eapply lookup_lt_Some|].
    destruct (proj2 Hb _ _ Hq1) as (q2 & Hq2 & _ & _ & Ec & _). assert (q2 = qk) as -> by congruence.
    rewrite Ec. destruct (tok_io0 _ _ _ Hq1 Hio). rewrite Forall_lookup in Hwf. destruct (Hwf _ _ Hq1). lia. }
  cbv beta iota. wp_step. wp_step. unfold tx_on_cli. eapply wp_zoom_nth; [lia|by rewrite Nat2Z.id|].
  apply net_enqueue_spec; [done|by rewrite Hqi, Hqc|]. intros q1 Hq1w Hq1i Hq1c Hq1r. rewrite Nat2Z.id.
  wp_step. apply wp_assert; [done|]. wp_step. unfold SDDF_NET_MAX_CLIENTS in *.
  eapply wp_lift; [apply store_nat; lia|]. wp_step. cbn [fst snd tx_queue_clients set_tx_drv set_tx_clients tx_queue_drv tx_events].
  assert (forall k, tx_back rs (Z.of_nat k) (taken ++ [b])
            = tx_back rs (Z.of_nat k) taken ++ (if decide (k = c') then [mk_buff off (bd_len b)] else [])) as Hsnoc.
  { intros k. rewrite tx_back_app. f_equal. cbn. rewrite Ho. case_decide as Ek.
    - subst. by rewrite Z.eqb_refl.
    - by rewrite (proj2 (Z.eqb_neq _ _)) by lia. }
  split.
  - exists (taken ++ [b]), rest, d1, (<[c' := q1]> qs), (<[c' := true]> n).
    split_and!; try done; try congruence.
    + by rewrite <- app_assoc.
    + split; [rewrite length_insert; apply Hb|]. intros k qk Hk. rewrite Hsnoc. case_decide as Ek.
      * subst k. exists q1. rewrite list_lookup_insert_eq by (by eapply lookup_lt_Some).
        assert (qk = q0) as -> by congruence. unfold tx_cli_back.
        split_and!; try done; try congruence. by rewrite Hq1i, Hqi, app_assoc.
      * rewrite list_lookup_insert_ne, app_nil_r by done. by apply Hb.
    + by rewrite length_insert.
    + intros k Hk. rewrite Hsnoc. case_decide as Ek.
      * subst k. rewrite list_lookup_insert_eq by lia. by rewrite bool_decide_eq_true_2 by (destruct (tx_back _ _ _); done).
      * rewrite list_lookup_insert_ne, app_nil_r by done. by apply Hnot.
  - unfold tx_drv_length. cbn [fst tx_queue_drv set_tx_clients set_tx_drv]. change (nh_free ?x) with (nh_ring Free x).
    rewrite !net_length_spec by done. rewrite Hid, Hid1. cbn. lia.
Qed.

Definition tx_returned_all (p : tx_state * list bool) : Prop :=
  exists d qs n,
    p = (mk_tx_state (net_set_signalled Free 0 d) qs (tx_events s0), n) /\
    net_wf Free d /\ net_items Free d = [] /\ net_rest Free d = net_rest Free (tx_queue_drv s0) /\
    tx_clis_back A qs /\ length n = 64%nat /\
    (forall c, (c < length (tx_queue_clients s0))%nat -> n !! c = Some (bool_decide (tx_back rs (Z.of_nat c) A <> []))).

Lemma tx_return_loops :
  wp (with_local (replicate (Z.to_nat SDDF_NET_MAX_CLIENTS) false)
        (with_local true (loop (fun _ => 2%nat) snd (tx_return_outer config)))) s0
    (fun r s' => tx_returned_all (s', r.2)).
Proof using Hok Hwf Hdrv Howned Hroom.
  wp_step. wp_step. set (p0 := (s0, _)).
  apply (wp_loop_le (fun p : tx_state * list bool * bool => if p.2 then p.1 = p0 else tx_returned_all p.1)
           (fun p => if p.2 then 1%nat else 0%nat)); cbn.
  - done.
  - lia.
  - intros [p [|]]; [|done]. cbn [snd fst]. intros -> _. unfold tx_return_outer. wp_step. wp_step.
    apply (wp_loop tx_return_inv).
    + exists [], A, (tx_queue_drv s0), (tx_queue_clients s0), (replicate (Z.to_nat SDDF_NET_MAX_CLIENTS) false).
      split_and!; try done; [by destruct s0| |].
      * split; [done|]. intros c q Hc. exists q. rewrite Forall_lookup in Hwf. split; [done|].
        unfold tx_cli_back. split_and!; try done; [by eapply Hwf|by rewrite app_nil_r].
      * intros c Hc. rewrite bool_decide_eq_false_2 by auto. apply lookup_replicate_2.
        pose proof Hok as []. unfold SDDF_NET_MAX_CLIENTS in *. lia.
    + apply tx_return_step.
    + intros p1 (taken & rest & d & qs & n & E & -> & Hd & Hid & Hdc & Hdr & Hb & Hn & Hnot) Hstop%negb_false_iff.
      cbn [fst tx_queue_drv] in Hstop. apply (net_empty_spec Free _ Hd) in Hstop.
      assert (rest = []) as -> by congruence. rewrite app_nil_r in E. subst taken.
      wp_step. wp_step. wp_step. unfold tx_on_drv, net_request_signal_free. wp_step. wp_step. wp_step. wp_step.
      unfold tx_drv_more. cbn [fst snd tx_queue_drv set_tx_drv tx_queue_clients tx_events].
      assert (net_queue_empty_free (net_set_signalled Free 0 d) = true) as -> by (by apply (net_empty_nil Free)).
      cbn [negb]. wp_step. cbn. split; [|lia]. by exists d, qs, n.
  - intros [p b]. cbn. intros H ->. by destruct p.
Qed.

End tx_return.

(** What the last loop does to the queue of a client. *)
Definition tx_signal (n : bool) (q : net_queue_handle) : net_queue_handle :=
  if n && net_require_signal_free q then net_set_signalled Free 1 q else q.

Definition tx_notifications (config : net_virt_tx_config) (n : list bool) (qs : list net_queue_handle) (cs : list Z)
  : list event :=
  omap (fun c => if (n !!! Z.to_nat c) && net_require_signal_free (qs !!! Z.to_nat c)
                 then Some (Notify (tc_client_ids config !!! Z.to_nat c)) else None) cs.

Lemma tx_notify_loop (config : net_virt_tx_config) (s : tx_state) (n : list bool) :
  0 <= tc_num_clients config <= SDDF_NET_MAX_CLIENTS ->
  Z.of_nat (length (tc_client_ids config)) = tc_num_clients config ->
  Z.of_nat (length (tx_queue_clients s)) = tc_num_clients config -> length n = 64%nat ->
  wp (for_upto (tc_num_clients config) (tx_notify_client config n)) s (fun _ s' =>
    tx_queue_drv s' = tx_queue_drv s /\
    (forall c q, tx_queue_clients s !! c = Some q -> tx_queue_clients s' !! c = Some (tx_signal (n !!! c) q)) /\
    tx_events s' = tx_events s ++ tx_notifications config n (tx_queue_clients s) (seqZ 0 (tc_num_clients config))).
Proof.
  intros Hnum Hids Hlen Hn. unfold SDDF_NET_MAX_CLIENTS, for_upto in *.
  apply (wp_for_each (fun pre s' => tx_queue_drv s' = tx_queue_drv s /\
    (forall c q, tx_queue_clients s !! c = Some q ->
       tx_queue_clients s' !! c = Some (if (c <? length pre)%nat then tx_signal (n !!! c) q else q)) /\
    tx_events s' = tx_events s ++ tx_notifications config n (tx_queue_clients s) pre)).
  - split_and!; try done. by rewrite app_nil_r.
  - intros pre i post s1 E (Ed & Hs & Eev). apply lookup_seqZ_prefix in E as [-> Hi].
    destruct (lookup_lt_is_Some_2 (tx_queue_clients s) (length pre)) as [q Hq]; [lia|].
    pose proof (Hs _ _ Hq) as Hq1. rewrite Nat.ltb_irrefl in Hq1.
    destruct (lookup_lt_is_Some_2 n (length pre)) as [x Hx]; [lia|].
    destruct (lookup_lt_is_Some_2 (tc_client_ids config) (length pre)) as [id Hid]; [lia|].
    assert (tx_notifications config n (tx_queue_clients s) (pre ++ [Z.of_nat (length pre)])
            = tx_notifications config n (tx_queue_clients s) pre
              ++ (if x && net_require_signal_free q then [Notify id] else [])) as Enot.
    { unfold tx_notifications. rewrite omap_app. cbn [omap list_omap]. rewrite Nat2Z.id.
      rewrite (list_lookup_total_correct _ _ _ Hq), (list_lookup_total_correct _ _ _ Hx),
        (list_lookup_total_correct _ _ _ Hid). by destruct (x && _). }
    assert (forall qs' : list net_queue_handle, (forall c, c <> length pre -> qs' !! c = tx_queue_clients s1 !! c) ->
      qs' !! length pre = Some (tx_signal x q) ->
      forall c q', tx_queue_clients s !! c = Some q' ->
      qs' !! c = Some (if (c <? length (pre ++ [Z.of_nat (length pre)]))%nat then tx_signal (n !!! c) q' else q')) as Hsig.
    { intros qs' Hne Heq c q' Hc. rewrite length_app. cbn [length]. destruct (decide (c = length pre)) as [->|Hc'].
      - rewrite (proj2 (Nat.ltb_lt _ _)) by lia. rewrite (list_lookup_total_correct _ _ _ Hx). congruence.
      - rewrite Hne, (Hs _ _ Hc) by done. do 2 f_equal.
        assert ((c <? length pre + 1)%nat = (c <? length pre)%nat) as ->; [|done].
        apply eq_true_iff_eq. rewrite !Nat.ltb_lt. lia. }
    unfold tx_notify_client. wp_step. eapply wp_lift; [by apply load_nat|]. wp_step. wp_step.
    wp_step. eapply wp_lift; [by apply load_nat|]. unfold tx_signal in Hsig.
    destruct (x && net_require_signal_free q) eqn:Ec; cbn [when].
    + wp_step. unfold tx_on_cli, net_cancel_signal_free. eapply wp_zoom_nth; [lia|by rewrite Nat2Z.id|]. wp_step.
      wp_step. eapply wp_lift; [by apply load_nat|]. unfold tx_emit. wp_step. rewrite Nat2Z.id.
      cbn [tx_queue_drv tx_queue_clients tx_events set_tx_clients]. split_and!; [done| |by rewrite Eev, Enot, app_assoc].
      refine (Hsig _ _ _); [intros; by rewrite list_lookup_insert_ne|]. apply list_lookup_insert_eq. by eapply lookup_lt_Some.
    + wp_step. split_and!; [done|by refine (Hsig (tx_queue_clients s1) _ _)|]. by rewrite Eev, Enot, app_nil_r.
  - intros s' (? & Hs & ?). split_and!; try done. intros c q Hc. rewrite (Hs _ _ Hc), length_seqZ. do 2 f_equal.
    apply lookup_lt_Some in Hc. by rewrite (proj2 (Nat.ltb_lt _ _)) by lia.
Qed.

(** [tx_return] gives every buffer that the driver has returned back to the
    client in whose region its address lies, in order, as an offset.  Given
    that all returned addresses belong to clients and that no client's free
    ring is overrun, no assertion fails, the driver's ring is emptied and its
    signal requested, and exactly the clients that got something and had asked
    for a signal are notified. *)
Theorem tx_return_correct (config : net_virt_tx_config) (s : tx_state) :
  tx_config_ok config s -> Forall (net_wf Free) (tx_queue_clients s) -> net_wf Free (tx_queue_drv s) ->
  let A := net_items Free (tx_queue_drv s) in
  let rs := tx_regions config (tx_queue_clients s) in
  tx_owned rs A ->
  (forall c q, tx_queue_clients s !! c = Some q ->
     Z.of_nat (length (net_items Free q ++ tx_back rs (Z.of_nat c) A)) <= nh_capacity q) ->
  wp (tx_return config) s (fun _ s' =>
    net_items Free (tx_queue_drv s') = [] /\ net_require_signal_free (tx_queue_drv s') = true /\
    nh_active (tx_queue_drv s') = nh_active (tx_queue_drv s) /\
    (forall c q, tx_queue_clients s !! c = Some q -> exists q', tx_queue_clients s' !! c = Some q' /\
       net_items Free q' = net_items Free q ++ tx_back rs (Z.of_nat c) A /\ nh_active q' = nh_active q) /\
    tx_events s' = tx_events s ++
      omap (fun c => if bool_decide (tx_back rs c A <> [])
                        && net_require_signal_free (tx_queue_clients s !!! Z.to_nat c)
                     then Some (Notify (tc_client_ids config !!! Z.to_nat c)) else None)
        (seqZ 0 (tc_num_clients config))).
Proof.
  intros Hok Hwf Hdrv A rs Howned Hroom. unfold tx_return. wp_step.
  wp_use (tx_return_loops config s Hok Hwf Hdrv Howned Hroom). fold rs A.
  intros [r n] s1 (d & qs & n' & [= -> <-] & Hd & Hid & Hdr & [Hl Hb] & Hn & Hnot).
  fold rs A in Hb, Hnot. pose proof Hok as []. cbn [snd].
  wp_use (tx_notify_loop config (mk_tx_state (net_set_signalled Free 0 d) qs (tx_events s)) n);
    [cbn [tx_queue_clients]; lia|]. cbn [tx_queue_drv tx_queue_clients tx_events].
  intros _ s' (Ed & Hs & Eev). rewrite Ed.
  assert (forall c q q', tx_queue_clients s !! c = Some q -> qs !! c = Some q' ->
    net_require_signal_free q' = net_require_signal_free q /\ nh_active q' = nh_active q) as Hrest.
  { intros c q q' Hc Hc'. destruct (Hb _ _ Hc) as (q1 & Hq1 & _ & _ & _ & Er). assert (q1 = q') as -> by congruence.
    unfold net_require_signal_free, net_require_signal. unfold net_rest in Er. cbn in *. split; congruence. }
  split_and!.
  - by rewrite net_set_signalled_items.
  - done.
  - unfold net_rest in Hdr. cbn in *. congruence.
  - intros c q Hc. destruct (Hb _ _ Hc) as (q' & Hq' & _ & Hi' & _). destruct (Hrest _ _ _ Hc Hq') as [_ Ea].
    exists (tx_signal (n !!! c) q'). split_and!; [by apply Hs|..]; unfold tx_signal; destruct (_ && _);
      rewrite ?net_set_signalled_items; done.
  - rewrite Eev. f_equal. unfold tx_notifications. apply list_omap_ext.
    apply Forall2_same_length_lookup_2; [done|]. intros k x y Hx Hy. assert (x = y) as -> by congruence.
    apply lookup_seqZ in Hx as [-> Hk]. rewrite Z.add_0_l, Nat2Z.id.
    destruct (lookup_lt_is_Some_2 (tx_queue_clients s) k) as [q Hq]; [lia|].
    destruct (Hb _ _ Hq) as (q' & Hq' & _). destruct (Hrest _ _ _ Hq Hq') as [Er _].
    assert (k < length (tx_queue_clients s))%nat as Hklt by lia. pose proof (Hnot k Hklt) as Hnk.
    rewrite (list_lookup_total_correct _ _ _ Hnk).
    rewrite (list_lookup_total_correct _ _ _ Hq), (list_lookup_total_correct _ _ _ Hq'), Er. done.
Qed.

(** The driver returns a buffer of each client. *)
Definition tx_state_ex2 : tx_state :=
  mk_tx_state (net_handle_of [mk_buff 137216 70; mk_buff 65536 60; mk_buff 131072 8] [])
    [net_handle_of [] []; net_handle_of [] []] [].

Lemma tx_return_correct_witness :
  wp (tx_return tx_config_ex) tx_state_ex2 (fun _ s' =>
    (exists q, tx_queue_clients s' !! 1%nat = Some q /\ net_items Free q = [mk_buff 6144 70; mk_buff 0 8]) /\
    tx_events s' = [Notify 1; Notify 2]).
Proof.
  eapply wp_mono; [apply (tx_return_correct tx_config_ex tx_state_ex2)|].
  - split; cbn; try (unfold SDDF_NET_MAX_CLIENTS; lia).
    intros c q io. destruct c as [|[|c]]; cbn; intros [= <-] [= <-]; unfold NET_BUFFER_SIZE; cbn; lia.
  - constructor; [|constructor; [|constructor]]; (apply net_handle_of_wf; cbn; lia).
  - apply net_handle_of_wf; cbn; lia.
  - assert (net_items Free (tx_queue_drv tx_state_ex2) = [mk_buff 137216 70; mk_buff 65536 60; mk_buff 131072 8]) as ->
      by (by vm_compute).
    unfold tx_owned. repeat constructor; vm_compute; by eexists.
  - intros [|[|c]] q; cbn; intros [= <-]; by vm_compute.
  - intros _ s' (_ & _ & _ & Hc & Ee). split; [|rewrite Ee; by vm_compute].
    destruct (Hc 1%nat _ eq_refl) as (q' & ? & Hi & _). exists q'. split; [done|]. rewrite Hi. by vm_compute.
Defined.
