(* ===== verification/NetCopy.v ===== *)
(** * The network copier: network/components/copy.c

    The copier sits between the receive virtualiser and an untrusted client: it
    copies each packet into a buffer of the client and returns the original
    buffer at once. *)

From S2P Require Import Prelude Ring Fifo NetQueue Microkit CLib NetVirtRx.

Record net_copy_config : Type := mk_copy_config {
  cc_virt_rx_id : Z;
  cc_client_id : Z;
}.

(** [client_data] and [device_data] are the mapped regions. *)
Record copy_state : Type := mk_copy_state {
  rx_queue_virt : net_queue_handle;
  rx_queue_cli : net_queue_handle;
  client_data : list Z;
  device_data : list Z;
  copy_events : list event;
}.

Definition set_cp_virt (q : net_queue_handle) (s : copy_state) : copy_state :=
  mk_copy_state q (rx_queue_cli s) (client_data s) (device_data s) (copy_events s).
Definition set_cp_cli (q : net_queue_handle) (s : copy_state) : copy_state :=
  mk_copy_state (rx_queue_virt s) q (client_data s) (device_data s) (copy_events s).
Definition set_client_data (l : list Z) (s : copy_state) : copy_state :=
  mk_copy_state (rx_queue_virt s) (rx_queue_cli s) l (device_data s) (copy_events s).
Definition cp_emit (e : event) : M copy_state unit := modify (fun s =>
  mk_copy_state (rx_queue_virt s) (rx_queue_cli s) (client_data s) (device_data s) (copy_events s ++ [e])).

Definition on_virt {A} (m : M net_queue_handle A) : M copy_state A := zoom rx_queue_virt set_cp_virt m.
Definition on_client {A} (m : M net_queue_handle A) : M copy_state A := zoom rx_queue_cli set_cp_cli m.

Section handlers.
Context (config : net_copy_config).

(** The body of the inner loop of [rx_return]; the local variables are
    [client_enqueued] and [virt_enqueued]. *)
Definition rx_return_body : M (copy_state * (bool * bool)) unit :=
  p ← get;
  if negb (net_queue_empty_free (rx_queue_cli p.1)) then
    c ← on_state (on_client net_dequeue_free);
    match c with
    | None => raise AssertFail
    | Some cli =>
      if negb (io_or_offset cli mod NET_BUFFER_SIZE =? 0)
         || (u32 (NET_BUFFER_SIZE * nh_capacity (rx_queue_cli p.1)) <=? io_or_offset cli) then mret tt
      else
        v ← on_state (on_virt net_dequeue_active);
        match v with
        | None => raise AssertFail
        | Some virt =>
          d ← lift (sddf_memcpy (client_data p.1) (io_or_offset cli) (device_data p.1) (io_or_offset virt)
                      (Z.to_nat (bd_len virt)));
          on_state (modify (set_client_data d));;
          err ← on_state (on_client (net_enqueue_active (mk_buff (io_or_offset cli) (bd_len virt))));
          assert_ (err =? 0);;
          err ← on_state (on_virt (net_enqueue_free (mk_buff (io_or_offset virt) 0)));
          assert_ (err =? 0);;
          set_local (true, true)
        end
    end
  else
    v ← on_state (on_virt net_dequeue_active);
    match v with
    | None => raise AssertFail
    | Some virt =>
      err ← on_state (on_virt (net_enqueue_free virt));
      assert_ (err =? 0);;
      set_local (p.2.1, true)
    end.

(** Each iteration takes a buffer from the client or one from the
    virtualiser. *)
Definition copy_bound (p : copy_state * (bool * bool)) : nat :=
  (Z.to_nat (net_queue_length (nh_active (rx_queue_virt p.1)))
   + Z.to_nat (net_queue_length (nh_free (rx_queue_cli p.1))))%nat.

Definition copy_more (p : copy_state * (bool * bool)) : bool := negb (net_queue_empty_active (rx_queue_virt p.1)).

Definition rx_return_outer : M ((copy_state * (bool * bool)) * bool) unit :=
  on_state (loop copy_bound copy_more rx_return_body);;
  on_state (on_state (on_virt net_request_signal_active));;
  p ← get;
  if copy_more p.1
  then on_state (on_state (on_virt net_cancel_signal_active));; set_local true
  else set_local false.

Definition rx_return : M copy_state unit :=
  r ← with_local (false, false) (with_local true (loop (fun _ => 2%nat) snd rx_return_outer));
  let '(client_enqueued, virt_enqueued) := (r : unit * bool * (bool * bool)).2 in
  s ← get;
  when (client_enqueued && net_require_signal_active (rx_queue_cli s))
    (on_client net_cancel_signal_active;; cp_emit (Notify (cc_client_id config)));;
  s ← get;
  when (virt_enqueued && net_require_signal_free (rx_queue_virt s))
    (on_virt net_cancel_signal_free;; cp_emit (DeferredNotify (cc_virt_rx_id config))).

Definition notified (ch : Z) : M copy_state unit := rx_return.

Definition init (magic : bool) (cli virt : net_queue_handle) : M copy_state unit :=
  assert_ magic;;
  on_client (put (net_queue_init (nh_free cli) (nh_active cli) (nh_capacity cli)));;
  on_virt (put (net_queue_init (nh_free virt) (nh_active virt) (nh_capacity virt)));;
  on_client (net_buffers_init 0).

End handlers.

(** ** The specification of a pass *)

Definition copy_valid (cap : Z) (b : net_buff_desc) : bool :=
  (io_or_offset b mod NET_BUFFER_SIZE =? 0) && (io_or_offset b <? NET_BUFFER_SIZE * cap).

(** The client's free buffers [F] against the packets [A]: the pairs copied, and
    what is left of both lists.  Invalid buffers are dropped on the way. *)
Fixpoint copy_pairs (cap : Z) (F A : list net_buff_desc) {struct F}
  : list (net_buff_desc * net_buff_desc) * list net_buff_desc * list net_buff_desc :=
  match A, F with
  | [], _ => ([], F, [])
  | _, [] => ([], [], A)
  | v :: A', c :: F' =>
    if copy_valid cap c then
      let '(ps, F1, A1) := copy_pairs cap F' A' in ((c, v) :: ps, F1, A1)
    else copy_pairs cap F' A
  end.

(** The bytes of the client's region after one copy. *)
Definition copy_one (dev : list Z) (mem : list Z) (p : net_buff_desc * net_buff_desc) : list Z :=
  splice mem (Z.to_nat (io_or_offset p.1))
    (take (Z.to_nat (bd_len p.2)) (drop (Z.to_nat (io_or_offset p.2)) dev)).

Definition copy_to_client (p : net_buff_desc * net_buff_desc) : net_buff_desc :=
  mk_buff (io_or_offset p.1) (bd_len p.2).
Definition copy_to_virt (p : net_buff_desc * net_buff_desc) : net_buff_desc := mk_buff (io_or_offset p.2) 0.

(** A packet lies in the device region and fits into a buffer. *)
Definition copy_packet_ok (dev : list Z) (b : net_buff_desc) : Prop :=
  0 <= io_or_offset b /\ 0 <= bd_len b <= NET_BUFFER_SIZE /\ io_or_offset b + bd_len b <= Z.of_nat (length dev).

Record copy_wf (s : copy_state) : Prop := mk_copy_wf {
  cw_virt_free : net_wf Free (rx_queue_virt s);
  cw_virt_active : net_wf Active (rx_queue_virt s);
  cw_cli_free : net_wf Free (rx_queue_cli s);
  cw_cli_active : net_wf Active (rx_queue_cli s);
  cw_virt_room : Z.of_nat (length (net_items Active (rx_queue_virt s)) + length (net_items Free (rx_queue_virt s)))
                 <= nh_capacity (rx_queue_virt s);
  cw_cli_room : Z.of_nat (length (net_items Active (rx_queue_cli s)) + length (net_items Free (rx_queue_cli s)))
                <= nh_capacity (rx_queue_cli s);
  cw_data : Z.of_nat (length (client_data s)) = NET_BUFFER_SIZE * nh_capacity (rx_queue_cli s);
  cw_packets : Forall (copy_packet_ok (device_data s)) (net_items Active (rx_queue_virt s));
  cw_offsets : Forall (fun b => 0 <= io_or_offset b) (net_items Free (rx_queue_cli s));
}.

(** What is not contents: capacities, the device's data, the events and the
    flags that the loops do not touch. *)
Definition copy_rest (s : copy_state) :=
  (nh_capacity (rx_queue_virt s), nh_capacity (rx_queue_cli s), device_data s, copy_events s,
   nq_consumer_signalled (nh_free (rx_queue_virt s)), nq_consumer_signalled (nh_active (rx_queue_cli s))).

Lemma copy_pairs_nil cap F : copy_pairs cap F [] = ([], F, []).
Proof. by destruct F. Qed.

Section copy.
Context (s0 : copy_state).

#[local] Abbreviation cap := (nh_capacity (rx_queue_cli s0)).
#[local] Abbreviation total := (copy_pairs cap (net_items Free (rx_queue_cli s0)) (net_items Active (rx_queue_virt s0))).

Record copy_inv (p : copy_state * (bool * bool)) : Prop := mk_copy_inv {
  ci_wf : copy_wf p.1;
  ci_rest : copy_rest p.1 = copy_rest s0;
  ci_progress : exists ps ret ps1 F1 A1,
    copy_pairs cap (net_items Free (rx_queue_cli p.1)) (net_items Active (rx_queue_virt p.1)) = (ps1, F1, A1) /\
    total.1.1 = ps ++ ps1 /\ total.1.2 = F1 /\
    (copy_to_virt <$> total.1.1) ++ total.2 = ret ++ (copy_to_virt <$> ps1) ++ A1 /\
    net_items Active (rx_queue_cli p.1) = net_items Active (rx_queue_cli s0) ++ (copy_to_client <$> ps) /\
    net_items Free (rx_queue_virt p.1) = net_items Free (rx_queue_virt s0) ++ ret /\
    client_data p.1 = foldl (copy_one (device_data s0)) (client_data s0) ps /\
    p.2 = (bool_decide (ps <> []), bool_decide (ret <> []));
}.

Lemma copy_valid_check s b :
  copy_wf s -> nh_capacity (rx_queue_cli s) = cap ->
  negb (io_or_offset b mod NET_BUFFER_SIZE =? 0)
  || (u32 (NET_BUFFER_SIZE * nh_capacity (rx_queue_cli s)) <=? io_or_offset b) = negb (copy_valid cap b).
Proof.
  intros [_ _ [] _ _ _ _ _ _] Ec. rewrite <- Ec. unfold copy_valid. rewrite negb_andb. f_equal.
  rewrite u32_small by (unfold is_u32, NET_BUFFER_SIZE; lia). by rewrite Z.ltb_antisym, negb_involutive.
Qed.

Lemma bool_decide_snoc {A} (l : list A) (x : A) : bool_decide (l ++ [x] <> []) = true.
Proof. apply bool_decide_eq_true_2. by destruct l. Qed.

(** The client has no free buffer. *)
Lemma copy_step_return p v A :
  copy_inv p -> net_items Free (rx_queue_cli p.1) = [] -> net_items Active (rx_queue_virt p.1) = v :: A ->
  wp (r ← on_state (on_virt net_dequeue_active);
      match r with
      | None => raise AssertFail
      | Some virt =>
        err ← on_state (on_virt (net_enqueue_free virt));
        assert_ (err =? 0);;
        set_local (p.2.1, true)
      end) p (fun _ p' => copy_inv p' /\ (copy_bound p' < copy_bound p)%nat).
Proof.
  destruct p as [s [ce ve]]. intros [Hwf Hrest (ps & ret & ps1 & F1 & A1 & Et & E1 & E2 & E3 & Eca & Evf & Ed & Efl)] HF HA.
  cbn [fst snd] in *. pose proof Hwf as [Hvf Hva Hcf Hca Hvr Hcr Hdl Hpk Hof].
  wp_step. wp_step. unfold on_virt. wp_step. eapply net_dequeue_spec; [done..|]. intros d1 Hd1 Hi1 Hc1 Hr1.
  destruct (net_rest_other Active _ _ Hr1 Hc1) as [Hf1 Ef1]. cbn [other] in *.
  wp_step. wp_step. wp_step. cbn [rx_queue_virt set_cp_virt].
  apply net_enqueue_spec; [by apply Hf1|rewrite Ef1, Hc1; rewrite HA in Hvr; cbn [length] in Hvr; lia|].
  intros d2 Hd2 Hi2 Hc2 Hr2. destruct (net_rest_other Free _ _ Hr2 Hc2) as [Ha2 Ea2]. cbn [other] in *.
  wp_step. apply wp_assert; [done|]. wp_step. split.
  - split; cbn [fst snd rx_queue_virt rx_queue_cli client_data device_data set_cp_virt].
    + split; cbn [rx_queue_virt rx_queue_cli client_data device_data set_cp_virt]; try done.
      * by apply Ha2.
      * rewrite Ea2, Hi1, Hi2, Ef1, Hc2, Hc1, length_app. rewrite HA in Hvr. cbn [length] in *. lia.
      * rewrite Ea2, Hi1. rewrite HA in Hpk. by apply Forall_cons_1 in Hpk as [_ ?].
    + rewrite <- Hrest. unfold copy_rest. cbn. unfold net_rest in *. cbn in *. congruence.
    + rewrite HF, HA in Et. cbn in Et. injection Et as <- <- <-.
      exists ps, (ret ++ [v]), [], [], A. rewrite HF, Ea2, Hi1. split_and!; try done.
      * by destruct A.
      * rewrite E3, <- app_assoc. done.
      * by rewrite Hi2, Ef1, Evf, app_assoc.
      * rewrite bool_decide_snoc. by injection Efl as -> _.
  - unfold copy_bound. cbn [fst rx_queue_virt rx_queue_cli set_cp_virt].
    change (nh_active ?q) with (nh_ring Active q). rewrite !(net_length_spec Active) by (done || by apply Ha2).
    rewrite Ea2, Hi1, HA. cbn. lia.
Qed.

(** The client's first free buffer is invalid. *)
Lemma copy_step_drop p v A c F cli1 :
  copy_inv p -> net_items Free (rx_queue_cli p.1) = c :: F -> net_items Active (rx_queue_virt p.1) = v :: A ->
  net_wf Free cli1 -> net_items Free cli1 = F -> nh_capacity cli1 = nh_capacity (rx_queue_cli p.1) ->
  net_rest Free cli1 = net_rest Free (rx_queue_cli p.1) -> copy_valid cap c = false ->
  let p' := (set_cp_cli cli1 p.1, p.2) in copy_inv p' /\ (copy_bound p' < copy_bound p)%nat.
Proof.
  destruct p as [s [ce ve]]. intros [Hwf Hrest (ps & ret & ps1 & F1 & A1 & Et & E1 & E2 & E3 & Eca & Evf & Ed & Efl)] HF HA H1 Hi1 Hc1 Hr1 Hv p'.
  unfold p'. cbn [fst snd] in *. pose proof Hwf as [Hvf Hva Hcf Hca Hvr Hcr Hdl Hpk Hof].
  destruct (net_rest_other Free _ _ Hr1 Hc1) as [Ha1 Ea1]. cbn [other] in *. split.
  - split; cbn [fst snd].
    + split; cbn [rx_queue_virt rx_queue_cli client_data device_data set_cp_cli]; try done.
      * by apply Ha1.
      * rewrite Ea1, Hi1, Hc1. rewrite HF in Hcr. cbn [length] in *. lia.
      * by rewrite Hc1.
      * rewrite Hi1. rewrite HF in Hof. by apply Forall_cons_1 in Hof as [_ ?].
    + rewrite <- Hrest. unfold copy_rest. cbn. unfold net_rest in *. cbn in *. congruence.
    + exists ps, ret, ps1, F1, A1. cbn [rx_queue_virt rx_queue_cli client_data set_cp_cli]. rewrite Ea1, Hi1.
      rewrite HF, HA in Et. cbn in Et. rewrite Hv in Et. rewrite HA. done.
  - unfold copy_bound. cbn [fst rx_queue_virt rx_queue_cli set_cp_cli].
    change (nh_free ?q) with (nh_ring Free q). rewrite !(net_length_spec Free) by done. rewrite Hi1, HF. cbn. lia.
Qed.

(** A packet is copied into the client's first free buffer. *)
Lemma copy_step_pair p v A c F cli1 :
  copy_inv p -> net_items Free (rx_queue_cli p.1) = c :: F -> net_items Active (rx_queue_virt p.1) = v :: A ->
  net_wf Free cli1 -> net_items Free cli1 = F -> nh_capacity cli1 = nh_capacity (rx_queue_cli p.1) ->
  net_rest Free cli1 = net_rest Free (rx_queue_cli p.1) -> copy_valid cap c = true ->
  wp (r ← on_state (on_virt net_dequeue_active);
      match r with
      | None => raise AssertFail
      | Some virt =>
        d ← lift (sddf_memcpy (client_data p.1) (io_or_offset c) (device_data p.1) (io_or_offset virt)
                    (Z.to_nat (bd_len virt)));
        on_state (modify (set_client_data d));;
        err ← on_state (on_client (net_enqueue_active (mk_buff (io_or_offset c) (bd_len virt))));
        assert_ (err =? 0);;
        err ← on_state (on_virt (net_enqueue_free (mk_buff (io_or_offset virt) 0)));
        assert_ (err =? 0);;
        set_local (true, true)
      end) (set_cp_cli cli1 p.1, p.2) (fun _ p' => copy_inv p' /\ (copy_bound p' < copy_bound p)%nat).
Proof.
  destruct p as [s [ce ve]]. intros [Hwf Hrest (ps & ret & ps1 & F1 & A1 & Et & E1 & E2 & E3 & Eca & Evf & Ed & Efl)] HF HA Hw1 Hi1 Hc1 Hr1 Hv.
  cbn [fst snd] in *. pose proof Hwf as [Hvf Hva Hcf Hca Hvr Hcr Hdl Hpk Hof].
  destruct (net_rest_other Free _ _ Hr1 Hc1) as [Ha1 Ea1]. cbn [other] in *.
  pose proof (net_length_spec Active _ Hva) as Hlv. pose proof (net_length_spec Free _ Hcf) as Hlc.
  rewrite HF in Hcr, Hof, Hlc, Et. rewrite HA in Hvr, Hpk, Hlv, Et. cbn [length] in Hcr, Hvr, Hlc, Hlv.
  apply Forall_cons_1 in Hpk as [(Hp0 & Hp1 & Hp2) Hpk]. apply Forall_cons_1 in Hof as [Hc0 Hof].
  assert (nh_capacity (rx_queue_cli s) = cap) as Ecap by (unfold copy_rest in Hrest; congruence).
  assert (io_or_offset c + NET_BUFFER_SIZE <= NET_BUFFER_SIZE * cap) as Hfit.
  { apply andb_prop in Hv as [Hm%Z.eqb_eq Hlt%Z.ltb_lt]. unfold NET_BUFFER_SIZE in *. Z.div_mod_to_equations. lia. }
  cbn in Et. rewrite Hv in Et. destruct (copy_pairs cap F A) as [[ps2 F2] A2] eqn:Et2. injection Et as <- <- <-.
  wp_step. wp_step. unfold on_virt. wp_step. cbn [rx_queue_virt set_cp_cli].
  eapply net_dequeue_spec; [done..|]. intros d1 Hd1 Hj1 Hk1 Hs1.
  destruct (net_rest_other Active _ _ Hs1 Hk1) as [Hf1 Ef1]. cbn [other] in *.
  wp_step. eapply wp_lift.
  { rewrite <- (Z2Nat.id (io_or_offset c)), <- (Z2Nat.id (io_or_offset v)) by lia.
    apply sddf_memcpy_spec; lia. }
  wp_step. wp_step. wp_step. wp_step. wp_step. unfold on_client. wp_step. cbn [rx_queue_cli set_client_data set_cp_virt set_cp_cli].
  apply net_enqueue_spec; [by apply Ha1|rewrite Ea1, Hc1; lia|]. intros cli2 Hw2 Hi2 Hc2 Hr2.
  destruct (net_rest_other Active _ _ Hr2 Hc2) as [Hwf2 Ecf2]. cbn [other] in *.
  wp_step. apply wp_assert; [done|]. wp_step. wp_step. wp_step. cbn [rx_queue_virt set_client_data set_cp_virt set_cp_cli].
  apply net_enqueue_spec; [by apply Hf1|rewrite Ef1, Hk1; lia|].
  intros d2 Hd2 Hj2 Hk2 Hs2. destruct (net_rest_other Free _ _ Hs2 Hk2) as [Ha2 Ea2]. cbn [other] in *.
  wp_step. apply wp_assert; [done|]. wp_step. split.
  - split; cbn [fst snd].
    + split; cbn [rx_queue_virt rx_queue_cli client_data device_data set_cp_virt set_cp_cli set_client_data]; try done.
      * by apply Ha2.
      * by apply Hwf2.
      * rewrite Ea2, Hj1, Hj2, Ef1, Hk2, Hk1, length_app. cbn [length]. lia.
      * rewrite Ecf2, Hi1, Hi2, Ea1, Hc2, Hc1, length_app. cbn [length]. lia.
      * rewrite length_splice; [congruence|]. rewrite length_take, length_drop. lia.
      * by rewrite Ea2, Hj1.
      * by rewrite Ecf2, Hi1.
    + rewrite <- Hrest. unfold copy_rest. cbn. unfold net_rest in *. cbn in *. congruence.
    + exists (ps ++ [(c, v)]), (ret ++ [copy_to_virt (c, v)]), ps2, F2, A2.
      cbn [rx_queue_virt rx_queue_cli client_data set_cp_virt set_cp_cli set_client_data].
      rewrite Ecf2, Hi1, Ea2, Hj1, !bool_decide_snoc. split_and!; try done.
      * by rewrite E1, <- app_assoc.
      * rewrite E3, <- app_assoc. done.
      * by rewrite Hi2, Ea1, Eca, fmap_app, app_assoc.
      * by rewrite Hj2, Ef1, Evf, app_assoc.
      * rewrite foldl_snoc, <- Ed. unfold copy_one. cbn. assert (device_data s = device_data s0) as -> by (unfold copy_rest in Hrest; congruence). done.
  - unfold copy_bound. cbn [fst rx_queue_virt rx_queue_cli set_cp_virt set_cp_cli set_client_data] in *.
    change (nh_free ?q) with (nh_ring Free q). change (nh_active ?q) with (nh_ring Active q).
    rewrite Hlv, Hlc, (net_length_spec Free) by (by apply Hwf2). rewrite (net_length_spec Active) by (by apply Ha2).
    rewrite Ecf2, Hi1, Ea2, Hj1. lia.
Qed.

Lemma copy_step p :
  copy_inv p -> copy_more p = true ->
  wp rx_return_body p (fun _ p' => copy_inv p' /\ (copy_bound p' < copy_bound p)%nat).
Proof.
  intros Hinv Hmore%negb_true_iff. pose proof Hinv as [[Hvf Hva Hcf Hca _ _ _ _ _] Hrest _].
  destruct (net_items Active (rx_queue_virt p.1)) as [|v A] eqn:HA.
  { apply (net_empty_nil Active _ Hva) in HA. unfold net_queue_empty_active in Hmore. congruence. }
  unfold rx_return_body. wp_step. wp_step.
  destruct (net_items Free (rx_queue_cli p.1)) as [|c F] eqn:HF.
  - pose proof (net_empty_nil Free _ Hcf HF) as He. unfold net_queue_empty_free. rewrite He. cbn [negb].
    by eapply copy_step_return.
  - pose proof (net_empty_cons Free _ _ _ Hcf HF) as He. unfold net_queue_empty_free. rewrite He. cbn [negb].
    destruct p as [s l]. cbn [fst snd] in *.
    wp_step. wp_step. unfold on_client at 1. wp_step. eapply net_dequeue_spec; [done..|]. intros cli1 Hw1 Hi1 Hc1 Hr1.
    cbv beta iota. rewrite copy_valid_check by (destruct Hinv; (done || unfold copy_rest in Hrest; congruence)).
    destruct (copy_valid cap c) eqn:Hv; cbn [negb].
    + by eapply (copy_step_pair (s, l)).
    + wp_step. by eapply (copy_step_drop (s, l)).
Qed.

(** The two loops. *)
Definition copy_drained (p : copy_state * (bool * bool)) : Prop :=
  exists p1, copy_inv p1 /\ net_items Active (rx_queue_virt p1.1) = [] /\
    p = (set_cp_virt (net_set_signalled Active 0 (rx_queue_virt p1.1)) p1.1, p1.2).

Lemma copy_loops :
  copy_wf s0 ->
  wp (with_local (false, false) (with_local true (loop (fun _ => 2%nat) snd rx_return_outer))) s0
    (fun r s' => copy_drained (s', r.2)).
Proof.
  intros Hwf. wp_step. wp_step. set (p0 := (s0, (false, false))).
  apply (wp_loop_le (fun p : copy_state * (bool * bool) * bool => if p.2 then p.1 = p0 else copy_drained p.1)
           (fun p => if p.2 then 1%nat else 0%nat)); cbn.
  - done.
  - lia.
  - intros [p [|]]; [|done]. cbn [snd fst]. intros -> _. unfold rx_return_outer. wp_step. wp_step.
    apply (wp_loop copy_inv).
    + split; [done|done|]. destruct total as [[ps1 F1] A1] eqn:Et. exists [], [], ps1, F1, A1.
      cbn [fst snd p0]. rewrite !app_nil_r. split_and!; try done.
    + apply copy_step.
    + intros p1 Hinv Hstop%negb_false_iff. pose proof Hinv as [[_ Hva _ _ _ _ _ _ _] _ _].
      apply (net_empty_spec Active _ Hva) in Hstop. destruct p1 as [s1 l1]. cbn [fst] in *.
      wp_step. wp_step. wp_step. unfold on_virt, net_request_signal_active. wp_step. wp_step. wp_step. wp_step.
      unfold copy_more. cbn [fst snd rx_queue_virt set_cp_virt].
      assert (net_queue_empty_active (net_set_signalled Active 0 (rx_queue_virt s1)) = true) as -> by (by apply (net_empty_nil Active)).
      cbn [negb]. wp_step. cbn. split; [|lia]. by exists (s1, l1).
  - intros [p b]. cbn. intros H ->. by destruct p.
Qed.

End copy.

(** The two notifications at the end of [rx_return]. *)
Definition copy_notified_cli (config : net_copy_config) (b : bool) (s : copy_state) : copy_state :=
  if b && net_require_signal_active (rx_queue_cli s)
  then mk_copy_state (rx_queue_virt s) (net_set_signalled Active 1 (rx_queue_cli s)) (client_data s) (device_data s)
         (copy_events s ++ [Notify (cc_client_id config)])
  else s.
Definition copy_notified_virt (config : net_copy_config) (b : bool) (s : copy_state) : copy_state :=
  if b && net_require_signal_free (rx_queue_virt s)
  then mk_copy_state (net_set_signalled Free 1 (rx_queue_virt s)) (rx_queue_cli s) (client_data s) (device_data s)
         (copy_events s ++ [DeferredNotify (cc_virt_rx_id config)])
  else s.

Lemma copy_notify_cli config b s (Q : unit -> copy_state -> Prop) :
  Q tt (copy_notified_cli config b s) ->
  wp (when (b && net_require_signal_active (rx_queue_cli s))
        (on_client net_cancel_signal_active;; cp_emit (Notify (cc_client_id config)))) s Q.
Proof. unfold copy_notified_cli. by destruct (_ && _). Qed.

Lemma copy_notify_virt config b s (Q : unit -> copy_state -> Prop) :
  Q tt (copy_notified_virt config b s) ->
  wp (when (b && net_require_signal_free (rx_queue_virt s))
        (on_virt net_cancel_signal_free;; cp_emit (DeferredNotify (cc_virt_rx_id config)))) s Q.
Proof. unfold copy_notified_virt. by destruct (_ && _). Qed.

(** C24. One pass of the copier: valid buffers of the client are paired, in order, with
    the packets; each pair's bytes are copied into the client's region and
    nothing else is written; the client receives its buffers with the packets'
    lengths, and the virtualiser gets back every buffer, the ones copied and
    those for which the client had no room.  Buffers with a bad offset are
    dropped, no copy leaves the two regions, no assertion fails, and client and
    virtualiser are notified exactly if they got something and had asked for a
    signal. *)
Theorem copy_rx_return_correct (config : net_copy_config) (s : copy_state) :
  copy_wf s ->
  let '(ps, F, A) := copy_pairs (nh_capacity (rx_queue_cli s)) (net_items Free (rx_queue_cli s))
                       (net_items Active (rx_queue_virt s)) in
  wp (rx_return config) s (fun _ s' =>
    net_items Active (rx_queue_virt s') = [] /\
    net_items Free (rx_queue_virt s') = net_items Free (rx_queue_virt s) ++ (copy_to_virt <$> ps) ++ A /\
    net_items Active (rx_queue_cli s') = net_items Active (rx_queue_cli s) ++ (copy_to_client <$> ps) /\
    net_items Free (rx_queue_cli s') = F /\
    client_data s' = foldl (copy_one (device_data s)) (client_data s) ps /\
    device_data s' = device_data s /\
    copy_events s' = copy_events s
      ++ (if bool_decide (ps <> []) && net_require_signal_active (rx_queue_cli s) then [Notify (cc_client_id config)] else [])
      ++ (if bool_decide ((copy_to_virt <$> ps) ++ A <> []) && net_require_signal_free (rx_queue_virt s)
          then [DeferredNotify (cc_virt_rx_id config)] else [])).
Proof.
  intros Hwf. destruct (copy_pairs _ _ _) as [[ps F] A] eqn:Et. unfold rx_return. wp_step.
  wp_use (copy_loops s Hwf). intros [r l] s1 ([s2 l2] & [Hwf2 Hrest (ps0 & ret & ps1 & F1 & A1 & Et1 & E1 & E2 & E3 & Eca & Evf & Ed & Efl)] & Hnil & [-> ->]%pair_equal_spec).
  cbn [fst snd] in *. rewrite Hnil, copy_pairs_nil in Et1. injection Et1 as <- <- <-. rewrite Et in *. cbn [fst snd] in *.
  rewrite app_nil_r in E1. subst ps0. cbn in E3. rewrite app_nil_r in E3. rewrite Efl.
  assert (net_require_signal_active (rx_queue_cli s2) = net_require_signal_active (rx_queue_cli s)
    /\ net_require_signal_free (rx_queue_virt s2) = net_require_signal_free (rx_queue_virt s)
    /\ copy_events s2 = copy_events s /\ device_data s2 = device_data s) as (Er1 & Er2 & Eev & Edd).
  { unfold copy_rest in Hrest. unfold net_require_signal_active, net_require_signal_free, net_require_signal. cbn.
    split_and!; congruence. }
  wp_step. wp_step. wp_step. apply copy_notify_cli. wp_step. wp_step. apply copy_notify_virt.
  unfold copy_notified_virt, copy_notified_cli. cbn [rx_queue_cli rx_queue_virt set_cp_virt].
  set (d2 := net_set_signalled Active 0 (rx_queue_virt s2)).
  assert (net_require_signal_free d2 = net_require_signal_free (rx_queue_virt s)) as Er2' by done.
  assert (forall sd, net_items sd d2 = net_items sd (rx_queue_virt s2)) as Ei2 by (intros; apply net_set_signalled_items).
  clearbody d2. rewrite E3, Er1. destruct (bool_decide (ps <> []) && _);
    cbn [rx_queue_cli rx_queue_virt set_cp_virt];
    rewrite Er2'; (destruct (bool_decide (ret <> []) && _));
    cbn [rx_queue_virt rx_queue_cli client_data device_data copy_events set_cp_virt];
    rewrite ?net_set_signalled_items, ?Ei2, ?Eev, ?app_nil_r, <- ?app_assoc; done.
Qed.

(** Two packets; the client offers a misaligned buffer and a good one. *)
Definition copy_state_ex : copy_state :=
  mk_copy_state (net_handle_of [] [mk_buff 0 4; mk_buff 2048 6]) (net_handle_of [mk_buff 7 0; mk_buff 4096 0] [])
    (replicate (Z.to_nat 8192) 0) rx_data_ex [].

Lemma copy_state_ex_wf : copy_wf copy_state_ex.
Proof.
  assert (forall sd, net_items sd (net_handle_of [] [mk_buff 0 4; mk_buff 2048 6])
            = match sd with Free => [] | Active => [mk_buff 0 4; mk_buff 2048 6] end) as Ev by (intros []; by vm_compute).
  assert (forall sd, net_items sd (net_handle_of [mk_buff 7 0; mk_buff 4096 0] [])
            = match sd with Free => [mk_buff 7 0; mk_buff 4096 0] | Active => [] end) as Ec by (intros []; by vm_compute).
  split; cbn [copy_state_ex rx_queue_virt rx_queue_cli client_data device_data].
  1-4: apply net_handle_of_wf; cbn; lia.
  - rewrite !Ev. cbn. lia.
  - rewrite !Ec. cbn. lia.
  - rewrite length_replicate. done.
  - rewrite Ev. unfold copy_packet_ok. rewrite rx_data_ex_length. unfold NET_BUFFER_SIZE. repeat constructor; cbn; lia.
  - rewrite Ec. repeat constructor; cbn; lia.
Qed.

Lemma copy_rx_return_correct_witness :
  wp (rx_return (mk_copy_config 3 5)) copy_state_ex (fun _ s' =>
    net_items Active (rx_queue_cli s') = [mk_buff 4096 4] /\
    net_items Free (rx_queue_virt s') = [mk_buff 0 0; mk_buff 2048 6] /\
    copy_events s' = [Notify 5; DeferredNotify 3]).
Proof.
  assert (copy_pairs 4 (net_items Free (rx_queue_cli copy_state_ex)) (net_items Active (rx_queue_virt copy_state_ex))
          = ([(mk_buff 4096 0, mk_buff 0 4)], [], [mk_buff 2048 6])) as E by (by vm_compute).
  pose proof (copy_rx_return_correct (mk_copy_config 3 5) copy_state_ex copy_state_ex_wf) as H.
  change (nh_capacity (rx_queue_cli copy_state_ex)) with 4 in H. rewrite E in H.
  eapply wp_mono; [exact H|]. intros _ s' (_ & Ef & Ea & _ & _ & _ & Ee). rewrite Ef, Ea, Ee.
  split; [reflexivity|]. split; [reflexivity|]. by vm_compute.
Defined.
