(* ===== verification/I2cVirt.v ===== *)
(** * The I2C virtualiser: i2c/components/virt.c

    The virtualiser owns the security list, which maps each bus address to the
    client that claimed it, and moves requests from the clients to the driver
    and responses back. *)

From S2P Require Import Prelude Ring Fifo RingQueue Microkit I2cQueue.

Definition BUS_UNCLAIMED : Z := -1.
Definition CLIENT_CH_OFFSET : Z := 1.
Definition I2C_BUS_ADDRESS_MAX : Z := 127.
Definition SDDF_I2C_MAX_CLIENTS : Z := 64.
Definition I2C_BUS_CLAIM : Z := 1.
Definition I2C_BUS_RELEASE : Z := 2.
Definition I2C_SUCCESS : Z := 0.
Definition I2C_FAILURE : Z := 1.

(** The fields of [i2c_virt_client_config_t] the virtualiser reads. *)
Record i2c_virt_client_config : Type := mk_i2c_client_config {
  ic_data_size : Z;          (* conn.data.size, uint64_t *)
  ic_driver_data_offset : Z; (* uint64_t *)
}.

#[export] Instance i2c_client_config_inhabited : Inhabited i2c_virt_client_config :=
  populate (mk_i2c_client_config 0 0).

Record i2c_virt : Type := mk_i2c_virt {
  iv_num_clients : Z; (* uint64_t *)
  iv_driver_id : Z;   (* config.driver.conn.id *)
  iv_config_clients : list i2c_virt_client_config;
  iv_client_queues : list i2c_queue_handle;
  iv_driver_queue : i2c_queue_handle;
  iv_security_list : list Z; (* int *)
  iv_events : list event;
}.

Definition set_iv_client_queues (qs : list i2c_queue_handle) (v : i2c_virt) : i2c_virt :=
  mk_i2c_virt (iv_num_clients v) (iv_driver_id v) (iv_config_clients v) qs (iv_driver_queue v)
    (iv_security_list v) (iv_events v).
Definition set_iv_driver_queue (q : i2c_queue_handle) (v : i2c_virt) : i2c_virt :=
  mk_i2c_virt (iv_num_clients v) (iv_driver_id v) (iv_config_clients v) (iv_client_queues v) q
    (iv_security_list v) (iv_events v).
Definition set_iv_security_list (sl : list Z) (v : i2c_virt) : i2c_virt :=
  mk_i2c_virt (iv_num_clients v) (iv_driver_id v) (iv_config_clients v) (iv_client_queues v)
    (iv_driver_queue v) sl (iv_events v).
Definition emit (e : event) : M i2c_virt unit := modify (fun v =>
  mk_i2c_virt (iv_num_clients v) (iv_driver_id v) (iv_config_clients v) (iv_client_queues v)
    (iv_driver_queue v) (iv_security_list v) (iv_events v ++ [e])).

Definition on_client {A} (i : Z) (m : M i2c_queue_handle A) : M i2c_virt A :=
  zoom_nth iv_client_queues set_iv_client_queues i m.
Definition on_driver {A} (m : M i2c_queue_handle A) : M i2c_virt A :=
  zoom iv_driver_queue set_iv_driver_queue m.

(** The condition and the body of the loop of [process_request]; the local
    variables are [enqueued] and whether the function has returned early. *)
Definition process_request_more (client_id : Z) (p : i2c_virt * (bool * bool)) : bool :=
  match iv_client_queues p.1 !! Z.to_nat client_id with
  | Some q => negb (i2c_queue_empty (ih_request q)) && negb (i2c_queue_full (ih_request (iv_driver_queue p.1)))
              && negb p.2.2
  | None => false
  end.

Definition process_request_body (client_id : Z) : M (i2c_virt * (bool * bool)) unit :=
  p ← get;
  r ← on_state (on_client client_id i2c_dequeue_request);
  match r with
  | None => set_local (p.2.1, true)
  | Some e =>
    let bus_address := ie_bus_address e in
    let offset := ie_offset e in
    if I2C_BUS_ADDRESS_MAX <? bus_address then mret tt else
    owner ← lift (load (iv_security_list p.1) bus_address);
    if negb (u32 owner =? client_id) then mret tt else
    cfg ← lift (load (iv_config_clients p.1) client_id);
    if ic_data_size cfg <? offset then mret tt else
    let driver_offset := u64 (ic_driver_data_offset cfg + offset) in
    err ← on_state (on_driver (i2c_enqueue_request bus_address driver_offset (ie_len e)));
    assert_ (err =? 0);;
    set_local (true, false)
  end.

Definition process_request_bound (client_id : Z) (p : i2c_virt * (bool * bool)) : nat :=
  match iv_client_queues p.1 !! Z.to_nat client_id with
  | Some q => Z.to_nat (i2c_queue_length (ih_request q))
  | None => 0
  end.

(** Each iteration dequeues a request, so the length of the client's queue
    bounds the loop. *)
Definition process_request (client_id : Z) : M i2c_virt unit :=
  v ← get;
  assert_ (client_id <? iv_num_clients v);;
  r ← with_local (false, false)
        (loop (process_request_bound client_id) (process_request_more client_id)
              (process_request_body client_id));
  let '(_, (enqueued, returned)) := (r : unit * (bool * bool)) in
  if returned then mret tt else
  when enqueued (emit (DeferredNotify (iv_driver_id v))).

Definition process_response_body : M i2c_virt unit :=
  v ← get;
  r ← on_driver i2c_dequeue_response;
  match r with
  | None => raise AssertFail
  | Some e =>
    owner ← lift (load (iv_security_list v) (ie_bus_address e));
    let client_id := u64 owner in
    if client_id =? u64 BUS_UNCLAIMED then mret tt else
    cfg ← lift (load (iv_config_clients v) client_id);
    let client_offset := u64 (ie_offset e - ic_driver_data_offset cfg) in
    on_client client_id (i2c_enqueue_response (ie_bus_address e) client_offset (ie_len e));;
    emit (Notify (CLIENT_CH_OFFSET + client_id))
  end.

Definition process_response : M i2c_virt unit :=
  loop (fun v => Z.to_nat (i2c_queue_length (ih_response (iv_driver_queue v))))
       (fun v => negb (i2c_queue_empty (ih_response (iv_driver_queue v))))
       process_response_body.

(** [init]: [magic] is the result of [i2c_config_check_magic], [driver] and
    [clients] are the queues in the mapped regions. *)
Definition init (magic : bool) (driver : i2c_queue_handle) (clients : list i2c_queue_handle) : M i2c_virt unit :=
  assert_ magic;;
  v ← get;
  assert_ (iv_driver_id v =? 0);;
  for_upto (I2C_BUS_ADDRESS_MAX + 1) (fun i =>
    v ← get;
    sl ← lift (store (iv_security_list v) i BUS_UNCLAIMED);
    put (set_iv_security_list sl v));;
  modify (set_iv_driver_queue (i2c_queue_init (ih_request driver) (ih_response driver)));;
  for_upto (iv_num_clients v) (fun i =>
    c ← lift (load clients i);
    on_client i (put (i2c_queue_init (ih_request c) (ih_response c)))).

Definition notified (ch : Z) : M i2c_virt unit :=
  v ← get;
  if ch =? iv_driver_id v then process_response
  else process_request (u32 (ch - CLIENT_CH_OFFSET)).

(** The label of the reply.  [label] and [bus] are the label and the message
    register of the call. *)
Definition protected (ch label bus : Z) : M i2c_virt Z :=
  v ← get;
  let client_id := u32 (ch - CLIENT_CH_OFFSET) in
  if negb (label =? I2C_BUS_CLAIM) && negb (label =? I2C_BUS_RELEASE) then mret I2C_FAILURE else
  if I2C_BUS_ADDRESS_MAX <? bus then mret I2C_FAILURE else
  owner ← lift (load (iv_security_list v) bus);
  if label =? I2C_BUS_CLAIM then
    if negb (owner =? BUS_UNCLAIMED) then mret I2C_FAILURE else
    sl ← lift (store (iv_security_list v) bus (s32 client_id));
    put (set_iv_security_list sl v);;
    mret I2C_SUCCESS
  else if label =? I2C_BUS_RELEASE then
    if negb (u32 owner =? client_id) then mret I2C_FAILURE else
    sl ← lift (store (iv_security_list v) bus BUS_UNCLAIMED);
    put (set_iv_security_list sl v);;
    mret I2C_SUCCESS
  else mret I2C_FAILURE.

(** ** Well-formed states *)

Record i2c_virt_wf (v : i2c_virt) : Prop := mk_i2c_virt_wf {
  iv_wf_num : 0 <= iv_num_clients v <= SDDF_I2C_MAX_CLIENTS;
  iv_wf_cfg : Z.of_nat (length (iv_config_clients v)) = SDDF_I2C_MAX_CLIENTS;
  iv_wf_len : Z.of_nat (length (iv_client_queues v)) = SDDF_I2C_MAX_CLIENTS;
  iv_wf_clients : Forall i2c_handle_wf (iv_client_queues v);
  iv_wf_driver : i2c_handle_wf (iv_driver_queue v);
  iv_wf_security : length (iv_security_list v) = 128%nat;
  iv_wf_owners : Forall (fun o => BUS_UNCLAIMED <= o < iv_num_clients v) (iv_security_list v);
}.

(** What the virtualiser passes on: the request with its offset translated into
    the driver's address space, if the client owns the address and the offset is
    within its data region. *)
Definition i2c_forward (v : i2c_virt) (c : Z) (e : i2c_queue_entry) : option i2c_queue_entry :=
  if (ie_bus_address e <=? I2C_BUS_ADDRESS_MAX)
     && (iv_security_list v !!! Z.to_nat (ie_bus_address e) =? c)
     && (ie_offset e <=? ic_data_size (iv_config_clients v !!! Z.to_nat c))
  then Some (mk_i2c_entry (u64 (ic_driver_data_offset (iv_config_clients v !!! Z.to_nat c) + ie_offset e))
               (ie_len e) (ie_bus_address e))
  else None.

Section process_request.
Context (v0 : i2c_virt) (c : Z) (q0 : i2c_queue_handle).
Context (Hwf : i2c_virt_wf v0) (Hc : 0 <= c < iv_num_clients v0).
Context (Hq : iv_client_queues v0 !! Z.to_nat c = Some q0).
Context (Haddr : Forall (fun e => 0 <= ie_bus_address e) (i2c_items (ih_request q0))).

(** The state after the requests [done] have been taken from the client. *)
Definition i2c_moved (h : i2c_queue) (d : i2c_queue) : i2c_virt :=
  set_iv_driver_queue (mk_i2c_handle d (ih_response (iv_driver_queue v0)))
    (set_iv_client_queues (<[Z.to_nat c := mk_i2c_handle h (ih_response q0)]> (iv_client_queues v0)) v0).

Definition process_request_inv (p : i2c_virt * (bool * bool)) : Prop :=
  exists taken rest h d,
    i2c_items (ih_request q0) = taken ++ rest /\
    i2c_wf h /\ i2c_items h = rest /\
    i2c_wf d /\
    i2c_items d = i2c_items (ih_request (iv_driver_queue v0)) ++ omap (i2c_forward v0 c) taken /\
    p = (i2c_moved h d, (negb (bool_decide (omap (i2c_forward v0 c) taken = [])), false)).

Lemma i2c_moved_client h d : iv_client_queues (i2c_moved h d) !! Z.to_nat c
  = Some (mk_i2c_handle h (ih_response q0)).
Proof using Hq. apply list_lookup_insert_eq. by eapply lookup_lt_Some. Qed.

Lemma omap_snoc {A B} (f : A -> option B) (l : list A) (x : A) :
  omap f (l ++ [x]) = omap f l ++ match f x with Some y => [y] | None => [] end.
Proof. rewrite omap_app. by destruct (f x) eqn:E; cbn; rewrite E. Qed.

(** The checks of the body compute [i2c_forward]. *)
Lemma process_request_checks e h d :
  0 <= ie_bus_address e ->
  i2c_wf h -> i2c_wf d -> i2c_queue_full d = false ->
  forall loc (Q : unit -> i2c_virt * (bool * bool) -> Prop),
  match i2c_forward v0 c e with
  | None => Q tt (i2c_moved h d, loc)
  | Some e' => forall d', i2c_wf d' -> i2c_items d' = i2c_items d ++ [e'] ->
                 Q tt (i2c_moved h d', (true, false))
  end ->
  wp (let bus_address := ie_bus_address e in
      let offset := ie_offset e in
      if I2C_BUS_ADDRESS_MAX <? bus_address then mret tt else
      owner ← lift (load (iv_security_list v0) bus_address);
      if negb (u32 owner =? c) then mret tt else
      cfg ← lift (load (iv_config_clients v0) c);
      if ic_data_size cfg <? offset then mret tt else
      let driver_offset := u64 (ic_driver_data_offset cfg + offset) in
      err ← on_state (on_driver (i2c_enqueue_request bus_address driver_offset (ie_len e)));
      assert_ (err =? 0);;
      set_local (true, false)) (i2c_moved h d, loc) Q.
Proof using Hwf Hc.
  intros He Hh Hd Hroom loc Q HQ. unfold i2c_forward in HQ. cbn zeta.
  destruct (Z.ltb_spec I2C_BUS_ADDRESS_MAX (ie_bus_address e)).
  { rewrite (proj2 (Z.leb_gt _ _)) in HQ by done. by wp_step. }
  rewrite (proj2 (Z.leb_le _ _)) in HQ by done. destruct Hwf.
  assert (Z.to_nat (ie_bus_address e) < length (iv_security_list v0))%nat as Hlt
    by (unfold I2C_BUS_ADDRESS_MAX in *; lia).
  destruct (lookup_lt_is_Some_2 _ _ Hlt) as [o Ho].
  wp_step. eapply wp_lift; [by apply load_ok|].
  rewrite (list_lookup_total_correct _ _ _ Ho) in HQ. rewrite Forall_lookup in iv_wf_owners0.
  specialize (iv_wf_owners0 _ _ Ho). cbn [andb] in HQ. unfold BUS_UNCLAIMED, SDDF_I2C_MAX_CLIENTS in *.
  assert ((u32 o =? c) = (o =? c)) as -> by (apply eq_true_iff_eq; rewrite !Z.eqb_eq; uint_lia).
  destruct (o =? c); cbn [negb andb] in *; [|by wp_step].
  destruct (lookup_lt_is_Some_2 (iv_config_clients v0) (Z.to_nat c)) as [cfg Hcfg]; [lia|].
  wp_step. eapply wp_lift; [apply load_ok; [lia|done]|].
  rewrite (list_lookup_total_correct _ _ _ Hcfg) in HQ.
  rewrite Z.ltb_antisym. destruct (ie_offset e <=? ic_data_size cfg); cbn [negb] in *; [|by wp_step].
  wp_step. wp_step. unfold on_driver, i2c_enqueue_request, on_request. wp_step. wp_step.
  apply i2c_enqueue_spec; [done| |cbn; congruence]. intros _ d' Hd' Hid'.
  wp_step. apply wp_assert; [done|]. wp_step. by apply HQ.
Qed.

Lemma process_request_step p :
  process_request_inv p -> process_request_more c p = true ->
  wp (process_request_body c) p (fun _ p' => process_request_inv p' /\
    (process_request_bound c p' < process_request_bound c p)%nat).
Proof using Hwf Hc Hq Haddr.
  intros (taken & rest & h & d & E & Hh & Hih & Hd & Hid & ->) Hmore.
  unfold process_request_more in Hmore. cbn [fst snd] in Hmore. rewrite i2c_moved_client in Hmore.
  cbn [ih_request iv_driver_queue i2c_moved set_iv_driver_queue] in Hmore.
  apply andb_prop in Hmore as [[Hne%negb_true_iff Hroom%negb_true_iff]%andb_prop _].
  destruct (i2c_nonempty h Hh Hne) as (e & l & El). rewrite El in Hih. subst rest.
  assert (0 <= ie_bus_address e) as He.
  { rewrite E in Haddr. apply Forall_app in Haddr as [_ Haddr']. by inversion Haddr'. }
  unfold process_request_body. wp_step. wp_step. wp_step. wp_step.
  eapply wp_zoom_nth; [lia|apply i2c_moved_client|].
  unfold i2c_dequeue_request, on_request. wp_step.
  eapply i2c_dequeue_spec; [done..|]. intros h' Hh' Hih'. cbn [ih_response].
  replace (set_iv_client_queues _ _) with (i2c_moved h' d); last first.
  { unfold i2c_moved, set_iv_client_queues. cbn. by rewrite list_insert_insert_eq. }
  cbn [fst snd]. apply process_request_checks; [done..|].
  assert (forall d' loc, i2c_wf d' ->
    i2c_items d' = i2c_items (ih_request (iv_driver_queue v0)) ++ omap (i2c_forward v0 c) (taken ++ [e]) ->
    loc = negb (bool_decide (omap (i2c_forward v0 c) (taken ++ [e]) = [])) ->
    process_request_inv (i2c_moved h' d', (loc, false)) /\
    (process_request_bound c (i2c_moved h' d', (loc, false))
     < process_request_bound c (i2c_moved h d, (negb (bool_decide (omap (i2c_forward v0 c) taken = [])), false)))%nat)
    as Hgoal.
  { intros d' loc Hd' Hid' ->. split.
    - exists (taken ++ [e]), l, h', d'. rewrite <- app_assoc. done.
    - unfold process_request_bound. cbn [fst]. rewrite !i2c_moved_client. cbn [ih_request].
      unfold i2c_queue_length. rewrite !lens_length_spec by done.
      change (lens_items h') with (i2c_items h'). change (lens_items h) with (i2c_items h).
      rewrite Hih', El. cbn. lia. }
  rewrite omap_snoc in Hgoal. destruct (i2c_forward v0 c e) as [e'|].
  - intros d' Hd' Hid'. apply Hgoal; [done|by rewrite Hid', Hid, app_assoc|].
    by rewrite bool_decide_eq_false_2 by (destruct (omap _ _); done).
  - rewrite app_nil_r in Hgoal. by apply Hgoal.
Qed.

End process_request.

(** C17. [process_request] takes a prefix of the client's requests and passes to the
    driver, in order, exactly those for a bus address that the client owns and
    with an offset in its data region, the offset translated; it stops when the
    client has no more requests or the driver's queue is full.  It never faults,
    changes nothing but the two request queues, and notifies the driver if and
    only if it passed something on. *)
Theorem process_request_correct (v : i2c_virt) (c : Z) (q : i2c_queue_handle) :
  i2c_virt_wf v -> 0 <= c < iv_num_clients v ->
  iv_client_queues v !! Z.to_nat c = Some q ->
  Forall (fun e => 0 <= ie_bus_address e) (i2c_items (ih_request q)) ->
  wp (process_request c) v (fun _ v' =>
    exists taken rest h d,
      i2c_items (ih_request q) = taken ++ rest /\
      i2c_wf h /\ i2c_items h = rest /\ i2c_wf d /\
      i2c_items d = i2c_items (ih_request (iv_driver_queue v)) ++ omap (i2c_forward v c) taken /\
      (rest = [] \/ i2c_queue_full d = true) /\
      iv_client_queues v' = <[Z.to_nat c := mk_i2c_handle h (ih_response q)]> (iv_client_queues v) /\
      iv_driver_queue v' = mk_i2c_handle d (ih_response (iv_driver_queue v)) /\
      iv_security_list v' = iv_security_list v /\
      iv_events v' = iv_events v ++
        (if bool_decide (omap (i2c_forward v c) taken = []) then [] else [DeferredNotify (iv_driver_id v)])).
Proof.
  intros Hwf Hc Hq Haddr. unfold process_request. wp_step. wp_step. wp_step.
  apply wp_assert; [apply Z.ltb_lt; lia|]. wp_step. wp_step.
  apply (wp_loop (process_request_inv v c q)).
  - exists [], (i2c_items (ih_request q)), (ih_request q), (ih_request (iv_driver_queue v)).
    assert (i2c_handle_wf q) as [? _].
    { destruct Hwf. rewrite Forall_lookup in iv_wf_clients0. by eapply iv_wf_clients0. }
    split_and!; try done; [by destruct Hwf, iv_wf_driver0|by rewrite app_nil_r|].
    unfold i2c_moved, set_iv_driver_queue, set_iv_client_queues. cbn.
    rewrite list_insert_id by (by destruct q). by destruct v as [???? []].
  - intros p. by apply process_request_step.
  - intros p (taken & rest & h & d & E & Hh & Hih & Hd & Hid & ->) Hstop. cbn [fst snd].
    unfold process_request_more in Hstop. cbn [fst snd] in Hstop. rewrite i2c_moved_client in Hstop by done.
    cbn [ih_request iv_driver_queue i2c_moved set_iv_driver_queue negb] in Hstop. rewrite andb_true_r in Hstop.
    assert (rest = [] \/ i2c_queue_full d = true) as Hend.
    { apply andb_false_iff in Hstop as [F%negb_false_iff|F%negb_false_iff]; [left|by right].
      apply i2c_empty_spec in F; [congruence|done]. }
    destruct (bool_decide_reflect (omap (i2c_forward v c) taken = [])) as [Hn|Hn]; cbn [negb when].
    + wp_step. exists taken, rest, h, d. rewrite (bool_decide_eq_true_2 _ Hn), app_nil_r. done.
    + unfold emit. wp_step. exists taken, rest, h, d. rewrite (bool_decide_eq_false_2 _ Hn). done.
Qed.

(** ** Responses *)

(** The abstract delivery of one response of the driver: the response queues of
    the clients as lists, and the notifications sent so far. *)
Definition i2c_deliver (v : i2c_virt) (s : list (list i2c_queue_entry) * list event) (e : i2c_queue_entry)
  : list (list i2c_queue_entry) * list event :=
  let owner := iv_security_list v !!! Z.to_nat (ie_bus_address e) in
  if owner =? BUS_UNCLAIMED then s else
  let l := s.1 !!! Z.to_nat owner in
  let cfg := iv_config_clients v !!! Z.to_nat owner in
  (if Z.of_nat (length l) <? NUM_QUEUE_ENTRIES - 1
   then <[Z.to_nat owner :=
           l ++ [mk_i2c_entry (u64 (ie_offset e - ic_driver_data_offset cfg)) (ie_len e) (ie_bus_address e)]]> s.1
   else s.1,
   s.2 ++ [Notify (CLIENT_CH_OFFSET + owner)]).

Definition i2c_responses (qs : list i2c_queue_handle) : list (list i2c_queue_entry) :=
  (fun h => i2c_items (ih_response h)) <$> qs.

Definition i2c_with_responses (v0 : i2c_virt) (d : i2c_queue) (qs : list i2c_queue_handle) (ev : list event)
  : i2c_virt :=
  mk_i2c_virt (iv_num_clients v0) (iv_driver_id v0) (iv_config_clients v0) qs
    (mk_i2c_handle (ih_request (iv_driver_queue v0)) d) (iv_security_list v0) (iv_events v0 ++ ev).

Definition process_response_inv (v0 v : i2c_virt) : Prop :=
  exists taken rest d qs ev,
    i2c_items (ih_response (iv_driver_queue v0)) = taken ++ rest /\
    i2c_wf d /\ i2c_items d = rest /\ Forall i2c_handle_wf qs /\
    ih_request <$> qs = ih_request <$> iv_client_queues v0 /\
    foldl (i2c_deliver v0) (i2c_responses (iv_client_queues v0), []) taken = (i2c_responses qs, ev) /\
    v = i2c_with_responses v0 d qs ev.

Lemma process_response_step v0 v :
  i2c_virt_wf v0 ->
  Forall (fun e => 0 <= ie_bus_address e <= I2C_BUS_ADDRESS_MAX) (i2c_items (ih_response (iv_driver_queue v0))) ->
  process_response_inv v0 v -> negb (i2c_queue_empty (ih_response (iv_driver_queue v))) = true ->
  wp process_response_body v (fun _ v' => process_response_inv v0 v' /\
    (Z.to_nat (i2c_queue_length (ih_response (iv_driver_queue v')))
     < Z.to_nat (i2c_queue_length (ih_response (iv_driver_queue v))))%nat).
Proof.
  intros Hwf Haddr (taken & rest & d & qs & ev & E & Hd & Hid & Hqs & Hreq & Hdel & ->) Hne%negb_true_iff.
  cbn in Hne. destruct (i2c_nonempty d Hd Hne) as (e & l & El). rewrite El in Hid. subst rest.
  assert (0 <= ie_bus_address e <= I2C_BUS_ADDRESS_MAX) as He.
  { rewrite E in Haddr. apply Forall_app in Haddr as [_ Haddr']. by inversion Haddr'. }
  unfold process_response_body. wp_step. wp_step. wp_step.
  unfold on_driver, i2c_dequeue_response, on_response. wp_step. wp_step.
  eapply i2c_dequeue_spec; [done..|]. intros d' Hd' Hid'. cbn.
  assert (forall qs' ev', Forall i2c_handle_wf qs' ->
    ih_request <$> qs' = ih_request <$> iv_client_queues v0 ->
    i2c_deliver v0 (i2c_responses qs, ev) e = (i2c_responses qs', ev') ->
    process_response_inv v0 (i2c_with_responses v0 d' qs' ev') /\
    (Z.to_nat (i2c_queue_length d') < Z.to_nat (i2c_queue_length d))%nat) as Hgoal.
  { intros qs' ev' ? ? Hdel'. split.
    - exists (taken ++ [e]), l, d', qs', ev'. rewrite <- app_assoc, foldl_snoc, Hdel. done.
    - unfold i2c_queue_length. rewrite !lens_length_spec by done.
      change (lens_items d') with (i2c_items d'). change (lens_items d) with (i2c_items d).
      rewrite Hid', El. cbn. lia. }
  destruct Hwf. unfold I2C_BUS_ADDRESS_MAX, SDDF_I2C_MAX_CLIENTS in *.
  destruct (lookup_lt_is_Some_2 (iv_security_list v0) (Z.to_nat (ie_bus_address e))) as [o Ho]; [lia|].
  wp_step. eapply wp_lift; [apply load_ok; [lia|done]|].
  rewrite Forall_lookup in iv_wf_owners0. specialize (iv_wf_owners0 _ _ Ho). unfold BUS_UNCLAIMED in *.
  unfold i2c_deliver in Hgoal. rewrite (list_lookup_total_correct _ _ _ Ho) in Hgoal.
  unfold BUS_UNCLAIMED in *.
  assert ((u64 o =? u64 (-1)) = (o =? -1)) as -> by (apply eq_true_iff_eq; rewrite !Z.eqb_eq; uint_lia).
  destruct (Z.eqb_spec o (-1)) as [->|Hne1]; [by wp_step; apply Hgoal|].
  rewrite (u64_small o) by (unfold is_u64; lia).
  destruct (lookup_lt_is_Some_2 (iv_config_clients v0) (Z.to_nat o)) as [cfg Hcfg]; [lia|].
  assert (length qs = length (iv_client_queues v0)) as Hlq.
  { rewrite <- (length_fmap ih_request qs), Hreq. apply length_fmap. }
  destruct (lookup_lt_is_Some_2 qs (Z.to_nat o)) as [q Hq]; [lia|].
  pose proof (proj1 (Forall_lookup _ _) Hqs _ _ Hq) as [Hqr Hqp].
  wp_step. eapply wp_lift; [apply load_ok; [lia|done]|].
  rewrite (list_lookup_total_correct _ _ _ Hcfg) in Hgoal.
  assert (i2c_responses qs !!! Z.to_nat o = i2c_items (ih_response q)) as Hl.
  { apply list_lookup_total_correct. unfold i2c_responses. by rewrite list_lookup_fmap, Hq. }
  cbn [fst snd] in Hgoal. rewrite Hl in Hgoal.
  wp_step. eapply wp_zoom_nth; [lia|done|].
  unfold i2c_enqueue_response, on_response. wp_step.
  pose proof (i2c_bound _ Hqp). pose proof (i2c_full_spec _ Hqp) as Hfull.
  assert (forall r, i2c_wf r ->
    wp (emit (Notify (CLIENT_CH_OFFSET + o)))
      (i2c_with_responses v0 d' (<[Z.to_nat o := mk_i2c_handle (ih_request q) r]> qs) ev)
      (fun _ s' => s' = i2c_with_responses v0 d' (<[Z.to_nat o := mk_i2c_handle (ih_request q) r]> qs)
                          (ev ++ [Notify (CLIENT_CH_OFFSET + o)]))) as Hemit.
  { intros r _. unfold emit, i2c_with_responses. wp_step. cbn. by rewrite app_assoc. }
  assert (forall r, i2c_wf r -> Forall i2c_handle_wf (<[Z.to_nat o := mk_i2c_handle (ih_request q) r]> qs) /\
    ih_request <$> <[Z.to_nat o := mk_i2c_handle (ih_request q) r]> qs = ih_request <$> iv_client_queues v0) as Hins.
  { intros r Hr. split; [by apply Forall_insert|]. rewrite list_fmap_insert, <- Hreq. cbn.
    apply list_insert_id. by rewrite list_lookup_fmap, Hq. }
  apply i2c_enqueue_spec; [done|..].
  - intros Hf r Hr Hir. eapply wp_mono; [by apply Hemit|]. intros _ s' ->.
    rewrite Hfull in Hf. apply Z.eqb_neq in Hf. rewrite (proj2 (Z.ltb_lt _ _)) in Hgoal by (unfold NUM_QUEUE_ENTRIES; lia).
    apply Hgoal; [by apply Hins..|]. unfold i2c_responses. rewrite list_fmap_insert. cbn. by rewrite Hir.
  - intros Hf. eapply wp_mono; [by apply Hemit|]. intros _ s' ->.
    rewrite Hfull in Hf. apply Z.eqb_eq in Hf. rewrite (proj2 (Z.ltb_ge _ _)) in Hgoal by (unfold NUM_QUEUE_ENTRIES; lia).
    apply Hgoal; [by apply Hins..|]. f_equal. unfold i2c_responses. rewrite list_fmap_insert. cbn.
    symmetry. apply list_insert_id. by rewrite list_lookup_fmap, Hq.
Qed.

(** [process_response] drains the driver's responses: each is delivered, in order and
    with its offset translated back, to the client that owns its bus address,
    or dropped if nobody does or the client's queue is full; a client is
    notified once for each response addressed to it.  Given that the driver
    returns bus addresses in range, it never faults, and it changes neither the
    requests nor the security list. *)
Theorem process_response_correct (v : i2c_virt) :
  i2c_virt_wf v ->
  Forall (fun e => 0 <= ie_bus_address e <= I2C_BUS_ADDRESS_MAX) (i2c_items (ih_response (iv_driver_queue v))) ->
  wp process_response v (fun _ v' =>
    i2c_items (ih_response (iv_driver_queue v')) = [] /\
    exists ev,
      foldl (i2c_deliver v) (i2c_responses (iv_client_queues v), []) (i2c_items (ih_response (iv_driver_queue v)))
      = (i2c_responses (iv_client_queues v'), ev) /\
      iv_events v' = iv_events v ++ ev /\
      ih_request <$> iv_client_queues v' = ih_request <$> iv_client_queues v /\
      ih_request (iv_driver_queue v') = ih_request (iv_driver_queue v) /\
      iv_security_list v' = iv_security_list v).
Proof.
  intros Hwf Haddr. apply (wp_loop (process_response_inv v)).
  - exists [], (i2c_items (ih_response (iv_driver_queue v))), (ih_response (iv_driver_queue v)),
      (iv_client_queues v), [].
    destruct Hwf. destruct iv_wf_driver0. split_and!; try done.
    unfold i2c_with_responses. rewrite app_nil_r. by destruct v as [???? []].
  - intros v'. by apply process_response_step.
  - intros v' (taken & rest & d & qs & ev & E & Hd & Hid & _ & Hreq & Hdel & ->) Hstop%negb_false_iff.
    cbn in Hstop |- *. apply i2c_empty_spec in Hstop; [|done]. split; [done|].
    rewrite Hstop in Hid. subst rest. rewrite app_nil_r in E. rewrite E. by exists ev.
Qed.

(** ** The security list as a lock per bus address *)

Definition i2c_owner (o : Z) : option Z := if o =? BUS_UNCLAIMED then None else Some o.
Definition i2c_owners (v : i2c_virt) : list (option Z) := i2c_owner <$> iv_security_list v.

(** A call of client [c]: its label and its bus address. *)
Definition lock_step (call : Z * Z * Z) (locks : list (option Z)) : Z * list (option Z) :=
  let '(c, label, bus) := call in
  match locks !! Z.to_nat bus with
  | Some None => if label =? I2C_BUS_CLAIM then (I2C_SUCCESS, <[Z.to_nat bus := Some c]> locks) else (I2C_FAILURE, locks)
  | Some (Some o) =>
    if (label =? I2C_BUS_RELEASE) && (o =? c) then (I2C_SUCCESS, <[Z.to_nat bus := None]> locks)
    else (I2C_FAILURE, locks)
  | None => (I2C_FAILURE, locks)
  end.

Fixpoint lock_run (calls : list (Z * Z * Z)) (locks : list (option Z)) : list Z * list (option Z) :=
  match calls with
  | [] => ([], locks)
  | call :: calls' =>
    let '(r, locks1) := lock_step call locks in
    let '(rs, locks2) := lock_run calls' locks1 in (r :: rs, locks2)
  end.

Fixpoint protected_run (calls : list (Z * Z * Z)) : M i2c_virt (list Z) :=
  match calls with
  | [] => mret []
  | (c, label, bus) :: calls' =>
    r ← protected (c + CLIENT_CH_OFFSET) label bus;
    rs ← protected_run calls';
    mret (r :: rs)
  end.

Lemma protected_step v c label bus :
  i2c_virt_wf v -> 0 <= c < iv_num_clients v -> 0 <= bus ->
  wp (protected (c + CLIENT_CH_OFFSET) label bus) v (fun r v' =>
    lock_step (c, label, bus) (i2c_owners v) = (r, i2c_owners v') /\
    i2c_virt_wf v' /\ v' = set_iv_security_list (iv_security_list v') v).
Proof.
  intros Hwf Hc Hbus. pose proof Hwf as Hwf0. destruct Hwf. unfold protected, lock_step, i2c_owners.
  unfold SDDF_I2C_MAX_CLIENTS, I2C_BUS_ADDRESS_MAX, CLIENT_CH_OFFSET in *.
  wp_step. wp_step. rewrite (u32_small (c + 1 - 1)) by (unfold is_u32; lia). rewrite Z.add_simpl_r.
  assert (v = set_iv_security_list (iv_security_list v) v) as Hv by (by destruct v).
  rewrite list_lookup_fmap.
  assert (forall sl, length sl = 128%nat -> Forall (fun o => BUS_UNCLAIMED <= o < iv_num_clients v) sl ->
    i2c_virt_wf (set_iv_security_list sl v)) as Hset by (intros; split; done).
  destruct (Z.ltb_spec 127 bus) as [Hb|Hb].
  { rewrite lookup_ge_None_2 by lia. destruct (_ && _); by wp_step. }
  destruct (lookup_lt_is_Some_2 (iv_security_list v) (Z.to_nat bus)) as [o Ho]; [lia|].
  pose proof (proj1 (Forall_lookup _ _) iv_wf_owners0 _ _ Ho) as Hor. unfold BUS_UNCLAIMED in *.
  rewrite Ho. cbn [fmap option_fmap option_map]. unfold i2c_owner, BUS_UNCLAIMED.
  destruct (Z.eqb_spec label I2C_BUS_CLAIM) as [->|HnC]; [|destruct (Z.eqb_spec label I2C_BUS_RELEASE) as [->|HnR]].
  - cbn [negb andb]. wp_step. eapply wp_lift; [by apply load_ok|]. cbn [Z.eqb].
    destruct (Z.eqb_spec o (-1)) as [->|Hn]; cbn [negb]; [|by wp_step].
    wp_step. eapply wp_lift; [apply store_ok; lia|]. wp_step. wp_step. wp_step.
    assert (s32 c = c) as ->.
    { unfold s32. rewrite Z.mod_small by lia. rewrite (proj2 (Z.ltb_lt _ _)) by lia. done. }
    split_and!; [|apply Hset; [by rewrite length_insert|apply Forall_insert; (done || lia)]|done].
    cbn. rewrite list_fmap_insert. unfold i2c_owner, BUS_UNCLAIMED.
    by rewrite (proj2 (Z.eqb_neq _ _)) by lia.
  - cbn [negb andb]. wp_step. eapply wp_lift; [by apply load_ok|]. cbn [Z.eqb Pos.eqb I2C_BUS_RELEASE I2C_BUS_CLAIM].
    assert ((u32 o =? c) = (o =? c)) as -> by (apply eq_true_iff_eq; rewrite !Z.eqb_eq; uint_lia).
    destruct (Z.eqb_spec o (-1)) as [->|Hn].
    { rewrite (proj2 (Z.eqb_neq _ _)) by lia. cbn [negb]. by wp_step. }
    destruct (o =? c); cbn [negb andb]; [|by wp_step].
    wp_step. eapply wp_lift; [apply store_ok; lia|]. wp_step. wp_step. wp_step.
    split_and!; [|apply Hset; [by rewrite length_insert|apply Forall_insert; (done || lia)]|done].
    cbn. by rewrite list_fmap_insert.
  - cbn [negb andb]. wp_step. destruct (o =? -1); done.
Qed.

(** The calls of the clients implement one lock per bus address: for any
    sequence of claims, releases and malformed calls of existing clients, the
    replies are those of the abstract locks ([lock_run]), so that an address is
    claimed only when free and released only by its owner, and nothing but the
    security list changes. *)
Theorem protected_refines_locks (calls : list (Z * Z * Z)) (v : i2c_virt) :
  i2c_virt_wf v ->
  Forall (fun '(c, label, bus) => 0 <= c < iv_num_clients v /\ 0 <= bus) calls ->
  wp (protected_run calls) v (fun rs v' =>
    lock_run calls (i2c_owners v) = (rs, i2c_owners v') /\
    i2c_virt_wf v' /\ v' = set_iv_security_list (iv_security_list v') v).
Proof.
  revert v. induction calls as [|[[c label] bus] calls IH]; intros v Hwf Hcalls; cbn [protected_run lock_run].
  - wp_step. split_and!; [done..|]. by destruct v.
  - apply Forall_cons_1 in Hcalls as [[Hc Hb] Hcalls]. wp_step. wp_use (protected_step v c label bus).
    intros r v1 (E1 & Hwf1 & Hv1). wp_step. wp_use (IH v1 Hwf1).
    { by rewrite Hv1. }
    intros rs v2 (E2 & Hwf2 & Hv2). wp_step. rewrite E1, E2. split_and!; [done..|].
    rewrite Hv2 at 1. by rewrite Hv1.
Qed.

(** ** A system with two clients *)

Definition i2c_ring_ex (l : list i2c_queue_entry) : i2c_queue :=
  mk_ring (u32 (2 ^ 32 - 2 + Z.of_nat (length l))) (2 ^ 32 - 2)
    (ring_write (replicate 32 (mk_i2c_entry 0 0 0)) 30 l).

Definition i2c_virt_ex : i2c_virt :=
  mk_i2c_virt 2 0 (replicate 64 (mk_i2c_client_config 4096 8192))
    (<[1%nat := mk_i2c_handle
        (i2c_ring_ex [mk_i2c_entry 16 4 104; mk_i2c_entry 16 4 105; mk_i2c_entry 5000 4 104; mk_i2c_entry 32 2 104])
        (i2c_ring_ex [])]>
       (replicate 64 (mk_i2c_handle (i2c_ring_ex []) (i2c_ring_ex []))))
    (mk_i2c_handle (i2c_ring_ex []) (i2c_ring_ex [mk_i2c_entry 8208 4 104; mk_i2c_entry 8208 4 7]))
    (<[104%nat := 1]> (<[105%nat := 0]> (replicate 128 (-1)))) [].

Lemma i2c_ring_ex_wf l : (length l <= 31)%nat -> i2c_wf (i2c_ring_ex l).
Proof.
  intros Hl. unfold i2c_wf, lens_wf, i2c_ring_ex. cbn [rl_view i2c_lens rl_cap rl_slack r_head r_tail r_buffers].
  assert (ring_len (2 ^ 32) (2 ^ 32 - 2) (u32 (2 ^ 32 - 2 + Z.of_nat (length l))) = Z.of_nat (length l)) as E.
  { unfold ring_len. uint_lia. }
  unfold NUM_QUEUE_ENTRIES. rewrite E. split; [split|]; try lia.
  - by exists 134217728.
  - apply u32_range.
  - rewrite ring_write_length, length_replicate by (rewrite length_replicate; lia). done.
Qed.

Lemma i2c_virt_ex_wf : i2c_virt_wf i2c_virt_ex.
Proof.
  assert (forall l l', (length l <= 31)%nat -> (length l' <= 31)%nat ->
    i2c_handle_wf (mk_i2c_handle (i2c_ring_ex l) (i2c_ring_ex l'))) as H
    by (split; by apply i2c_ring_ex_wf).
  split; cbn [iv_num_clients iv_config_clients iv_client_queues iv_driver_queue iv_security_list i2c_virt_ex].
  - done.
  - by rewrite length_replicate.
  - by rewrite length_insert, length_replicate.
  - apply Forall_insert; [apply Forall_replicate|]; apply H; cbn; lia.
  - apply H; cbn; lia.
  - done.
  - repeat apply Forall_insert; [apply Forall_replicate|..]; unfold BUS_UNCLAIMED; lia.
Qed.

Lemma process_request_correct_witness :
  i2c_virt_wf i2c_virt_ex /\
  wp (process_request 1) i2c_virt_ex (fun _ v' => iv_security_list v' = iv_security_list i2c_virt_ex) /\
  match process_request 1 i2c_virt_ex with
  | Ok (_, v') => i2c_items (ih_request (iv_driver_queue v')) = [mk_i2c_entry 8208 4 104; mk_i2c_entry 8224 2 104]
                  /\ iv_events v' = [DeferredNotify 0]
  | Fault _ => False
  end.
Proof.
  split; [apply i2c_virt_ex_wf|]. split; [|by vm_compute].
  eapply wp_mono; [eapply (process_request_correct i2c_virt_ex 1)|].
  - apply i2c_virt_ex_wf.
  - done.
  - reflexivity.
  - vm_compute. repeat constructor; discriminate.
  - intros _ v' (? & ? & ? & ? & ? & ? & ? & ? & ? & ? & ? & ? & ? & ?). done.
Defined.

Lemma process_response_correct_witness :
  i2c_virt_wf i2c_virt_ex /\
  wp process_response i2c_virt_ex (fun _ v' => i2c_items (ih_response (iv_driver_queue v')) = []) /\
  match process_response i2c_virt_ex with
  | Ok (_, v') => i2c_responses (take 2 (iv_client_queues v')) = [[]; [mk_i2c_entry 16 4 104]]
                  /\ iv_events v' = [Notify 2]
  | Fault _ => False
  end.
Proof.
  split; [apply i2c_virt_ex_wf|]. split; [|by vm_compute].
  eapply wp_mono; [eapply (process_response_correct i2c_virt_ex)|].
  - apply i2c_virt_ex_wf.
  - vm_compute. repeat constructor; discriminate.
  - intros _ v' [? _]. done.
Defined.

Lemma protected_refines_locks_witness :
  wp (protected_run [(0, 1, 7); (1, 1, 7); (1, 2, 7); (0, 2, 7); (1, 1, 7); (0, 9, 7); (0, 1, 128)]) i2c_virt_ex
    (fun rs v' => rs = [0; 1; 1; 0; 0; 1; 1] /\ i2c_virt_wf v').
Proof.
  eapply wp_mono; [apply (protected_refines_locks _ i2c_virt_ex)|].
  - apply i2c_virt_ex_wf.
  - repeat constructor; cbn; lia.
  - intros rs v' (E & ? & _). split; [|done]. vm_compute in E. by injection E as <-.
Defined.
