(* ===== verification/SoundQueue.v ===== *)
(** * Sound queues: include/sddf/virtio/sound/queue.h

    Two queues of commands and two of PCM buffers between a client and a
    server.  A command carries a union of its parameters (three bytes, on
    requests) and its status (four bytes, on responses); the queue operations
    copy it as parameters, so the fourth byte of the status stays behind. *)

From S2P Require Import Prelude Ring Fifo RingQueue.

Definition SOUND_CMD_QUEUE_CAPACITY : Z := 64.
Definition SOUND_PCM_QUEUE_CAPACITY : Z := 256.
Definition SOUND_PCM_BUFFER_SIZE : Z := 4096.

(** [sound_cmd_code_t], a 32-bit enumeration. *)
Definition SOUND_CMD_TAKE : Z := 0.
Definition SOUND_CMD_PREPARE : Z := 1.
Definition SOUND_CMD_RELEASE : Z := 2.
Definition SOUND_CMD_START : Z := 3.
Definition SOUND_CMD_STOP : Z := 4.

(** [sound_status_t], a 32-bit enumeration. *)
Definition SOUND_S_OK : Z := 0.
Definition SOUND_S_BAD_MSG : Z := 1.
Definition SOUND_S_NOT_SUPP : Z := 2.
Definition SOUND_S_IO_ERR : Z := 3.
Definition SOUND_S_BUSY : Z := 4.

(** The union is its four bytes, read as a little-endian number: [set_params]
    is the low three of them, [status] all four. *)
Record sound_cmd : Type := mk_sound_cmd {
  sc_code : Z;
  sc_cookie : Z;    (* uint32_t *)
  sc_stream_id : Z; (* uint32_t *)
  sc_union : Z;     (* 4 bytes *)
}.

Definition sc_status (c : sound_cmd) : Z := sc_union c.
Definition set_sc_status (v : Z) (c : sound_cmd) : sound_cmd :=
  mk_sound_cmd (sc_code c) (sc_cookie c) (sc_stream_id c) v.

(** [dest->set_params = src->set_params]. *)
Definition assign_set_params (dest src : Z) : Z := Z.lor (Z.land dest (Z.shiftl 255 24)) (Z.land src (Z.ones 24)).

Record sound_pcm : Type := mk_sound_pcm {
  sp_cookie : Z;
  sp_stream_id : Z;
  sp_io_or_offset : Z; (* uintptr_t *)
  sp_len : Z;          (* unsigned int *)
  sp_status : Z;
  sp_latency_bytes : Z;
}.

#[export] Instance sound_cmd_inhabited : Inhabited sound_cmd := populate (mk_sound_cmd 0 0 0 0).
#[export] Instance sound_pcm_inhabited : Inhabited sound_pcm := populate (mk_sound_pcm 0 0 0 0 0 0).
#[export] Instance sound_cmd_eq_dec : EqDecision sound_cmd.
Proof. solve_decision. Defined.
#[export] Instance sound_pcm_eq_dec : EqDecision sound_pcm.
Proof. solve_decision. Defined.

Record sound_queue_handle (A : Type) : Type := mk_sound_handle {
  sh_q : ring A;
  sh_capacity : Z; (* uint32_t *)
}.
Arguments mk_sound_handle {A} _ _.
Arguments sh_q {A} _.
Arguments sh_capacity {A} _.

Record sound_queues : Type := mk_sound_queues {
  sq_cmd_req : sound_queue_handle sound_cmd;
  sq_cmd_res : sound_queue_handle sound_cmd;
  sq_pcm_req : sound_queue_handle sound_pcm;
  sq_pcm_res : sound_queue_handle sound_pcm;
}.

#[export] Instance sound_lens {A} : RingLens (sound_queue_handle A) A unit := {
  rl_view := sh_q;
  rl_set r h := mk_sound_handle r (sh_capacity h);
  rl_cap := sh_capacity;
  rl_slack := 0;
  rl_eq := true;
  rl_rest _ := tt;
}.
#[export] Instance sound_lens_laws {A} : RingLensLaws (@sound_lens A).
Proof. split; cbn; (done || lia). Qed.

(** The parameters in the order of the header: [pcm_res] comes before
    [pcm_req]. *)
Definition sound_queues_init (cmd_req cmd_res : ring sound_cmd) (pcm_res pcm_req : ring sound_pcm)
    (cmd_count pcm_count : Z) : sound_queues :=
  mk_sound_queues (mk_sound_handle cmd_req cmd_count) (mk_sound_handle cmd_res cmd_count)
    (mk_sound_handle pcm_req pcm_count) (mk_sound_handle pcm_res pcm_count).

Definition sound_reset_indices {A} (h : sound_queue_handle A) : sound_queue_handle A :=
  mk_sound_handle (mk_ring 0 0 (r_buffers (sh_q h))) (sh_capacity h).

Definition sound_queues_init_buffers (q : sound_queues) : sound_queues :=
  mk_sound_queues (sound_reset_indices (sq_cmd_req q)) (sound_reset_indices (sq_cmd_res q))
    (sound_reset_indices (sq_pcm_req q)) (sound_reset_indices (sq_pcm_res q)).

Definition sound_cmd_queue_empty (h : sound_queue_handle sound_cmd) : bool := lens_empty h.
Definition sound_pcm_queue_empty (h : sound_queue_handle sound_pcm) : bool := lens_empty h.
Definition sound_cmd_queue_full (h : sound_queue_handle sound_cmd) : bool := lens_full h.
Definition sound_pcm_queue_full (h : sound_queue_handle sound_pcm) : bool := lens_full h.

(** The lengths are returned as [int]. *)
Definition sound_cmd_queue_length (h : sound_queue_handle sound_cmd) : Z := s32 (lens_length h).
Definition sound_pcm_queue_length (h : sound_queue_handle sound_pcm) : Z := s32 (lens_length h).

(** The copy of a command into [dest]. *)
Definition copy_cmd (dest src : sound_cmd) : sound_cmd :=
  mk_sound_cmd (sc_code src) (sc_cookie src) (sc_stream_id src) (assign_set_params (sc_union dest) (sc_union src)).

(** The slot is read for the byte the copy leaves alone. *)
Definition sound_enqueue_cmd (command : sound_cmd) : M (sound_queue_handle sound_cmd) Z :=
  h ← get;
  if sound_cmd_queue_full h then mret (-1) else
  slot ← lift (umod (r_tail (sh_q h)) (sh_capacity h));
  dest ← lift (load (r_buffers (sh_q h)) slot);
  lens_enqueue (copy_cmd dest command).

Definition sound_enqueue_pcm (pcm : sound_pcm) : M (sound_queue_handle sound_pcm) Z := lens_enqueue pcm.

(** [out] is what the caller's variable held; [None] is the return of -1. *)
Definition sound_dequeue_cmd (out : sound_cmd) : M (sound_queue_handle sound_cmd) (option sound_cmd) :=
  r ← lens_dequeue;
  mret (copy_cmd out <$> (r : option sound_cmd)).

Definition sound_dequeue_pcm : M (sound_queue_handle sound_pcm) (option sound_pcm) := lens_dequeue.

(** ** Commands up to the byte that is not copied *)

Definition canon_cmd (c : sound_cmd) : sound_cmd :=
  mk_sound_cmd (sc_code c) (sc_cookie c) (sc_stream_id c) (Z.land (sc_union c) (Z.ones 24)).

Lemma assign_set_params_low dest src : Z.land (assign_set_params dest src) (Z.ones 24) = Z.land src (Z.ones 24).
Proof.
  unfold assign_set_params. rewrite Z.land_lor_distr_l, <- !Z.land_assoc.
  change (Z.land (Z.shiftl 255 24) (Z.ones 24)) with 0. change (Z.land (Z.ones 24) (Z.ones 24)) with (Z.ones 24).
  by rewrite Z.land_0_r, Z.lor_0_l.
Qed.

Lemma assign_set_params_high dest src :
  Z.land (assign_set_params dest src) (Z.shiftl 255 24) = Z.land dest (Z.shiftl 255 24).
Proof.
  unfold assign_set_params. rewrite Z.land_lor_distr_l, <- !Z.land_assoc.
  change (Z.land (Z.ones 24) (Z.shiftl 255 24)) with 0.
  change (Z.land (Z.shiftl 255 24) (Z.shiftl 255 24)) with (Z.shiftl 255 24).
  by rewrite Z.land_0_r, Z.lor_0_r.
Qed.

Lemma canon_copy dest src : canon_cmd (copy_cmd dest src) = canon_cmd src.
Proof. unfold canon_cmd, copy_cmd. cbn. by rewrite assign_set_params_low. Qed.

(** A handle of the given capacity. *)
Definition sh_wf {A} (cap : Z) (h : sound_queue_handle A) : Prop := lens_wf h /\ sh_capacity h = cap.

Definition cmd_items (h : sound_queue_handle sound_cmd) : list sound_cmd := canon_cmd <$> lens_items h.
Definition pcm_items (h : sound_queue_handle sound_pcm) : list sound_pcm := lens_items h.

Lemma sound_enqueue_cmd_spec cap h c (Q : Z -> sound_queue_handle sound_cmd -> Prop) :
  sh_wf cap h ->
  (forall h', Z.of_nat (length (cmd_items h)) < cap -> sh_wf cap h' -> cmd_items h' = cmd_items h ++ [canon_cmd c] ->
     Q 0 h') ->
  (~ Z.of_nat (length (cmd_items h)) < cap -> Q (-1) h) ->
  wp (sound_enqueue_cmd c) h Q.
Proof.
  intros [Hwf Hcap] HQ HQ'. unfold cmd_items in *. rewrite length_fmap in *.
  pose proof (lens_bounded h Hwf) as Hb. cbn in Hb. rewrite Hcap in Hb.
  unfold sound_enqueue_cmd. do 2 wp_step. unfold sound_cmd_queue_full. rewrite lens_full_spec by done. cbn [rl_cap rl_slack sound_lens].
  rewrite Hcap. destruct (Z.eqb_spec (Z.of_nat (length (lens_items h))) (cap - 0)); [wp_step; apply HQ'; lia|].
  destruct Hwf as [Hr Hs]. pose proof (ring_cap_pos _ _ _ _ _ Hr). cbn in *.
  wp_step. eapply wp_lift; [apply umod_ok; lia|]. wp_step.
  eapply wp_lift; [rewrite <- Hcap; by eapply ring_load_slot|].
  apply lens_enqueue_spec; [done|cbn; lia|]. intros h' Hwf' Hit Hcap' _. cbn in Hcap'.
  apply HQ; [lia|by split; [|congruence]|]. by rewrite Hit, fmap_app, fmap_cons, canon_copy.
Qed.

Lemma sound_enqueue_pcm_spec cap h p (Q : Z -> sound_queue_handle sound_pcm -> Prop) :
  sh_wf cap h ->
  (forall h', Z.of_nat (length (pcm_items h)) < cap -> sh_wf cap h' -> pcm_items h' = pcm_items h ++ [p] -> Q 0 h') ->
  (~ Z.of_nat (length (pcm_items h)) < cap -> Q (-1) h) ->
  wp (sound_enqueue_pcm p) h Q.
Proof.
  intros [Hwf Hcap] HQ HQ'. unfold pcm_items in *. pose proof (lens_bounded h Hwf) as Hb. cbn in Hb. rewrite Hcap in Hb.
  destruct (decide (Z.of_nat (length (lens_items h)) < cap)).
  - apply lens_enqueue_spec; [done|cbn; lia|]. intros h' Hwf' Hit Hcap' _. cbn in Hcap'.
    apply HQ; [lia|by split; [|congruence]|done].
  - eapply wp_intro; [apply (lens_fifo_full (L := sound_lens)); [done|cbn; lia]|]. auto.
Qed.

Lemma sound_dequeue_cmd_nil cap h out (Q : option sound_cmd -> sound_queue_handle sound_cmd -> Prop) :
  sh_wf cap h -> cmd_items h = [] -> Q None h -> wp (sound_dequeue_cmd out) h Q.
Proof.
  intros [Hwf _] Hnil%fmap_nil_inv HQ. unfold sound_dequeue_cmd. wp_step.
  eapply wp_intro; [by apply (fifo_deq_nil (O := lens_fifo_ops))|]. by wp_step.
Qed.

(** The command is read into [out], except for the top byte of [out]. *)
Lemma sound_dequeue_cmd_cons cap h out c l (Q : option sound_cmd -> sound_queue_handle sound_cmd -> Prop) :
  sh_wf cap h -> cmd_items h = c :: l ->
  (forall h' src, sh_wf cap h' -> cmd_items h' = l -> canon_cmd src = c -> Q (Some (copy_cmd out src)) h') ->
  wp (sound_dequeue_cmd out) h Q.
Proof.
  intros [Hwf Hcap] Hit HQ. unfold cmd_items in Hit. destruct (lens_items h) as [|src l'] eqn:E; [done|].
  rewrite fmap_cons in Hit. injection Hit as <- <-. unfold sound_dequeue_cmd. wp_step.
  eapply lens_dequeue_spec; [done..|]. intros h' Hwf' Hit Hcap' _. cbn in Hcap'. wp_step. cbn [fmap option_fmap option_map].
  apply HQ; [by split; [|congruence]|by unfold cmd_items; rewrite Hit|done].
Qed.

Lemma sound_dequeue_pcm_nil cap h (Q : option sound_pcm -> sound_queue_handle sound_pcm -> Prop) :
  sh_wf cap h -> pcm_items h = [] -> Q None h -> wp sound_dequeue_pcm h Q.
Proof. intros [Hwf _] Hnil HQ. eapply wp_intro; [by apply (fifo_deq_nil (O := lens_fifo_ops))|done]. Qed.

Lemma sound_dequeue_pcm_cons cap h p l (Q : option sound_pcm -> sound_queue_handle sound_pcm -> Prop) :
  sh_wf cap h -> pcm_items h = p :: l ->
  (forall h', sh_wf cap h' -> pcm_items h' = l -> Q (Some p) h') ->
  wp sound_dequeue_pcm h Q.
Proof.
  intros [Hwf Hcap] Hit HQ. eapply lens_dequeue_spec; [done..|]. intros h' Hwf' Hit' Hcap' _. cbn in Hcap'.
  apply HQ; [by split; [|congruence]|done].
Qed.
