(* ===== verification/SoundVirt.v ===== *)
(** * The sound virtualiser: sound/components/virt.c

    Clients take streams, and a stream belongs to the client that took it until
    its release has been answered; commands and PCM buffers are forwarded
    between the owner of their stream and the driver. *)

From S2P Require Import Prelude Ring Fifo RingQueue Microkit SoundQueue.

Definition DRIVER_CH : Z := 0.
Definition CLIENT_CH_BEGIN : Z := 1.
Definition NUM_CLIENTS : Z := 2.
Definition NO_OWNER : Z := -1.
Definition MAX_STREAMS : Z := 16.

Record sound_virt : Type := mk_sound_virt {
  sv_data_region_paddr : Z; (* uintptr_t *)
  sv_data_region_vaddr : Z; (* uintptr_t *)
  sv_clients : list sound_queues;
  sv_driver_queues : sound_queues;
  sv_owners : list Z; (* int *)
  sv_events : list event;
}.

Definition set_sv_clients (c : list sound_queues) (v : sound_virt) : sound_virt :=
  mk_sound_virt (sv_data_region_paddr v) (sv_data_region_vaddr v) c (sv_driver_queues v) (sv_owners v) (sv_events v).
Definition set_sv_driver_queues (d : sound_queues) (v : sound_virt) : sound_virt :=
  mk_sound_virt (sv_data_region_paddr v) (sv_data_region_vaddr v) (sv_clients v) d (sv_owners v) (sv_events v).
Definition set_sv_owners (o : list Z) (v : sound_virt) : sound_virt :=
  mk_sound_virt (sv_data_region_paddr v) (sv_data_region_vaddr v) (sv_clients v) (sv_driver_queues v) o (sv_events v).
Definition set_sv_events (e : list event) (v : sound_virt) : sound_virt :=
  mk_sound_virt (sv_data_region_paddr v) (sv_data_region_vaddr v) (sv_clients v) (sv_driver_queues v) (sv_owners v) e.

Definition emit (e : event) : M sound_virt unit := modify (fun v => set_sv_events (sv_events v ++ [e]) v).

Definition on_client {A} (i : Z) (m : M sound_queues A) : M sound_virt A := zoom_nth sv_clients set_sv_clients i m.
Definition on_driver {A} (m : M sound_queues A) : M sound_virt A := zoom sv_driver_queues set_sv_driver_queues m.

Definition on_cmd_req {A} (m : M (sound_queue_handle sound_cmd) A) : M sound_queues A :=
  zoom sq_cmd_req (fun h q => mk_sound_queues h (sq_cmd_res q) (sq_pcm_req q) (sq_pcm_res q)) m.
Definition on_cmd_res {A} (m : M (sound_queue_handle sound_cmd) A) : M sound_queues A :=
  zoom sq_cmd_res (fun h q => mk_sound_queues (sq_cmd_req q) h (sq_pcm_req q) (sq_pcm_res q)) m.
Definition on_pcm_req {A} (m : M (sound_queue_handle sound_pcm) A) : M sound_queues A :=
  zoom sq_pcm_req (fun h q => mk_sound_queues (sq_cmd_req q) (sq_cmd_res q) h (sq_pcm_res q)) m.
Definition on_pcm_res {A} (m : M (sound_queue_handle sound_pcm) A) : M sound_queues A :=
  zoom sq_pcm_res (fun h q => mk_sound_queues (sq_cmd_req q) (sq_cmd_res q) (sq_pcm_req q) h) m.

(** A failed response is only logged. *)
Definition respond_to_cmd (client : Z) (cmd : sound_cmd) (status : Z) : M sound_virt unit :=
  on_client client (on_cmd_res (sound_enqueue_cmd (set_sc_status status cmd)));; mret tt.

Definition respond_to_pcm (client : Z) (pcm : sound_pcm) (status : Z) : M sound_virt unit :=
  on_client client (on_pcm_res (sound_enqueue_pcm
    (mk_sound_pcm (sp_cookie pcm) (sp_stream_id pcm) (sp_io_or_offset pcm) (sp_len pcm) status 0)));; mret tt.

Definition set_owner (stream owner : Z) : M sound_virt unit :=
  v ← get;
  o ← lift (store (sv_owners v) stream owner);
  put (set_sv_owners o v).

(** How a loop goes on: [Running], [Drained] when the dequeue of its condition
    failed, or [Returned] by a [return -1]. *)
Inductive loop_status : Type := Running | Drained | Returned.
#[export] Instance loop_status_eq_dec : EqDecision loop_status.
Proof. solve_decision. Defined.

Definition running (l : loop_status) : bool := if l is Running then true else false.

(** *** notified_by_client *)

(** The local variables; [cl_cmd] keeps between the iterations the byte that a
    dequeue does not overwrite. *)
Record client_locals : Type := mk_client_locals {
  cl_cmd : sound_cmd;
  cl_notify_client : bool;
  cl_notify_driver : bool;
  cl_status : loop_status;
}.

Definition client_cmd_body (client : Z) : M (sound_virt * client_locals) unit :=
  p ← get;
  let l : client_locals := p.2 in
  r ← on_state (on_client client (on_cmd_req (sound_dequeue_cmd (cl_cmd l))));
  match r with
  | None => set_local (mk_client_locals (cl_cmd l) (cl_notify_client l) (cl_notify_driver l) Drained)
  | Some cmd =>
    if MAX_STREAMS <? sc_stream_id cmd then
      on_state (respond_to_cmd client cmd SOUND_S_BAD_MSG);;
      set_local (mk_client_locals (set_sc_status SOUND_S_BAD_MSG cmd) (cl_notify_client l) (cl_notify_driver l) Running)
    else
    o ← lift (load (sv_owners p.1) (sc_stream_id cmd));
    if (o =? NO_OWNER) && negb (sc_code cmd =? SOUND_CMD_TAKE) then
      on_state (respond_to_cmd client cmd SOUND_S_BAD_MSG);;
      set_local (mk_client_locals (set_sc_status SOUND_S_BAD_MSG cmd) true (cl_notify_driver l) Running)
    else
    (if o =? NO_OWNER then on_state (set_owner (sc_stream_id cmd) client) else mret tt);;
    p1 ← get;
    owner ← lift (load (sv_owners p1.1) (sc_stream_id cmd));
    if negb (owner =? client) then
      on_state (respond_to_cmd client cmd SOUND_S_BUSY);;
      set_local (mk_client_locals (set_sc_status SOUND_S_BUSY cmd) true (cl_notify_driver l) Running)
    else
    err ← on_state (on_driver (on_cmd_req (sound_enqueue_cmd cmd)));
    if negb (err =? 0) then
      set_local (mk_client_locals cmd (cl_notify_client l) (cl_notify_driver l) Returned)
    else
    set_local (mk_client_locals cmd (cl_notify_client l) true Running)
  end.

(** The bounds of a PCM buffer of a client, the product of an [int] and a
    [uint32_t]. *)
Definition pcm_bad (capacity offset len : Z) : bool :=
  negb (offset mod SOUND_PCM_BUFFER_SIZE =? 0)
  || (u32 (SOUND_PCM_BUFFER_SIZE * capacity) <=? offset)
  || (SOUND_PCM_BUFFER_SIZE <? len).

Definition set_pcm_addr (a : Z) (p : sound_pcm) : sound_pcm :=
  mk_sound_pcm (sp_cookie p) (sp_stream_id p) a (sp_len p) (sp_status p) (sp_latency_bytes p).

Definition client_pcm_body (client : Z) : M (sound_virt * client_locals) unit :=
  p ← get;
  let l : client_locals := p.2 in
  r ← on_state (on_client client (on_pcm_req sound_dequeue_pcm));
  match r with
  | None => set_local (mk_client_locals (cl_cmd l) (cl_notify_client l) (cl_notify_driver l) Drained)
  | Some pcm =>
    if MAX_STREAMS <? sp_stream_id pcm then
      on_state (respond_to_pcm client pcm SOUND_S_BAD_MSG);;
      set_local (mk_client_locals (cl_cmd l) true (cl_notify_driver l) Running)
    else
    owner ← lift (load (sv_owners p.1) (sp_stream_id pcm));
    if negb (owner =? client) then
      on_state (respond_to_pcm client pcm SOUND_S_BAD_MSG);;
      set_local (mk_client_locals (cl_cmd l) true (cl_notify_driver l) Running)
    else
    q ← lift (load (sv_clients p.1) client);
    if pcm_bad (sh_capacity (sq_pcm_req q)) (sp_io_or_offset pcm) (sp_len pcm) then
      on_state (respond_to_pcm client pcm SOUND_S_BAD_MSG);;
      set_local (mk_client_locals (cl_cmd l) true (cl_notify_driver l) Running)
    else
    let vaddr := u64 (sv_data_region_vaddr p.1 + sp_io_or_offset pcm) in
    let paddr := u64 (sv_data_region_paddr p.1 + sp_io_or_offset pcm) in
    on_state (emit (CacheClean vaddr (u64 (vaddr + sp_len pcm))));;
    err ← on_state (on_driver (on_pcm_req (sound_enqueue_pcm (set_pcm_addr paddr pcm))));
    if negb (err =? 0) then
      set_local (mk_client_locals (cl_cmd l) (cl_notify_client l) (cl_notify_driver l) Returned)
    else
    set_local (mk_client_locals (cl_cmd l) (cl_notify_client l) true Running)
  end.

(** A loop takes one entry per iteration, and one more to find the queue
    empty. *)
Definition client_bound (f : sound_queues -> Z) (client : Z) (p : sound_virt * client_locals) : nat :=
  match sv_clients p.1 !! Z.to_nat client with
  | Some q => S (Z.to_nat (f q))
  | None => 1
  end.

Definition set_cl_status (s : loop_status) (l : client_locals) : client_locals :=
  mk_client_locals (cl_cmd l) (cl_notify_client l) (cl_notify_driver l) s.

(** [stack] is what the local variable [cmd] holds on entry. *)
Definition notified_by_client (stack : sound_cmd) (client : Z) : M sound_virt Z :=
  if (client <? 0) || (NUM_CLIENTS <? client) then mret (-1) else
  r ← with_local (mk_client_locals stack false false Running)
    (loop (client_bound (fun q => lens_length (sq_cmd_req q)) client) (fun p => running (cl_status p.2))
          (client_cmd_body client);;
     p ← get;
     if decide (cl_status p.2 = Returned) then mret tt else
     set_local (set_cl_status Running p.2);;
     loop (client_bound (fun q => lens_length (sq_pcm_req q)) client) (fun p => running (cl_status p.2))
          (client_pcm_body client));
  let l := (r : unit * client_locals).2 in
  if decide (cl_status l = Returned) then mret (-1) else
  when (cl_notify_client l) (emit (Notify (CLIENT_CH_BEGIN + client)));;
  when (cl_notify_driver l) (emit (Notify DRIVER_CH));;
  mret 0.

(** *** notified_by_driver *)

Record driver_locals : Type := mk_driver_locals {
  dl_cmd : sound_cmd;
  dl_notify : list bool; (* bool notify[NUM_CLIENTS] *)
  dl_status : loop_status;
}.

(** [notify[owner] = true]. *)
Definition note_client (cmd : sound_cmd) (owner : Z) : M (sound_virt * driver_locals) unit :=
  p ← get;
  n ← lift (store (dl_notify p.2) owner true);
  set_local (mk_driver_locals cmd n Running).

Definition driver_cmd_body : M (sound_virt * driver_locals) unit :=
  p ← get;
  let l : driver_locals := p.2 in
  r ← on_state (on_driver (on_cmd_res (sound_dequeue_cmd (dl_cmd l))));
  match r with
  | None => set_local (mk_driver_locals (dl_cmd l) (dl_notify l) Drained)
  | Some cmd =>
    if MAX_STREAMS <? sc_stream_id cmd then set_local (mk_driver_locals cmd (dl_notify l) Running) else
    owner ← lift (load (sv_owners p.1) (sc_stream_id cmd));
    if owner =? NO_OWNER then set_local (mk_driver_locals cmd (dl_notify l) Running) else
    (if (sc_code cmd =? SOUND_CMD_RELEASE)
        || ((sc_code cmd =? SOUND_CMD_TAKE) && negb (sc_status cmd =? SOUND_S_OK))
     then on_state (set_owner (sc_stream_id cmd) NO_OWNER) else mret tt);;
    err ← on_state (on_client owner (on_cmd_res (sound_enqueue_cmd cmd)));
    if negb (err =? 0) then set_local (mk_driver_locals cmd (dl_notify l) Returned) else
    note_client cmd owner
  end.

Definition driver_pcm_bad (paddr_base capacity paddr len : Z) : bool :=
  (paddr <? paddr_base)
  || (u64 (paddr_base + u32 (SOUND_PCM_BUFFER_SIZE * capacity)) <=? paddr)
  || (SOUND_PCM_BUFFER_SIZE <? len).

Definition driver_pcm_body : M (sound_virt * driver_locals) unit :=
  p ← get;
  let l : driver_locals := p.2 in
  r ← on_state (on_driver (on_pcm_res sound_dequeue_pcm));
  match r with
  | None => set_local (mk_driver_locals (dl_cmd l) (dl_notify l) Drained)
  | Some pcm =>
    if MAX_STREAMS <? sp_stream_id pcm then mret tt else
    owner ← lift (load (sv_owners p.1) (sp_stream_id pcm));
    if (owner <? 0) || (NUM_CLIENTS <? owner) then mret tt else
    q ← lift (load (sv_clients p.1) owner);
    let paddr := sp_io_or_offset pcm in
    if driver_pcm_bad (sv_data_region_paddr p.1) (sh_capacity (sq_pcm_res q)) paddr (sp_len pcm) then mret tt else
    let offset := u64 (paddr - sv_data_region_paddr p.1) in
    let vaddr := u64 (sv_data_region_vaddr p.1 + sp_io_or_offset pcm) in
    on_state (emit (CacheCleanAndInvalidate vaddr (u64 (vaddr + sp_len pcm))));;
    err ← on_state (on_client owner (on_pcm_res (sound_enqueue_pcm (set_pcm_addr offset pcm))));
    if negb (err =? 0) then set_local (mk_driver_locals (dl_cmd l) (dl_notify l) Returned) else
    note_client (dl_cmd l) owner
  end.

Definition driver_bound (f : sound_queues -> Z) (p : sound_virt * driver_locals) : nat :=
  S (Z.to_nat (f (sv_driver_queues p.1))).

Definition set_dl_status (s : loop_status) (l : driver_locals) : driver_locals :=
  mk_driver_locals (dl_cmd l) (dl_notify l) s.

Definition notify_clients (notify : list bool) : M sound_virt unit :=
  for_upto NUM_CLIENTS (fun client =>
    n ← lift (load notify client);
    when n (emit (Notify (CLIENT_CH_BEGIN + client)))).

Definition notified_by_driver (stack : sound_cmd) : M sound_virt Z :=
  r ← with_local (mk_driver_locals stack (replicate 2 false) Running)
    (loop (driver_bound (fun q => lens_length (sq_cmd_res q))) (fun p => running (dl_status p.2)) driver_cmd_body;;
     p ← get;
     if decide (dl_status p.2 = Returned) then mret tt else
     set_local (set_dl_status Running p.2);;
     loop (driver_bound (fun q => lens_length (sq_pcm_res q))) (fun p => running (dl_status p.2)) driver_pcm_body);
  let l := (r : unit * driver_locals).2 in
  if decide (dl_status l = Returned) then mret (-1) else
  notify_clients (dl_notify l);;
  mret 0.

(** The regions of [init] are the rings mapped for the two clients and the
    driver: command requests, command responses, PCM requests and PCM
    responses. *)
Record sound_regions : Type := mk_sound_regions {
  sr_cmd_req : ring sound_cmd;
  sr_cmd_res : ring sound_cmd;
  sr_pcm_req : ring sound_pcm;
  sr_pcm_res : ring sound_pcm;
}.

(** [sound_queues_init] gets the region of the PCM requests as its fourth
    argument. *)
Definition init_queues (r : sound_regions) : sound_queues :=
  sound_queues_init (sr_cmd_req r) (sr_cmd_res r) (sr_pcm_req r) (sr_pcm_res r)
    SOUND_CMD_QUEUE_CAPACITY SOUND_PCM_QUEUE_CAPACITY.

Definition init (c0 c1 drv : sound_regions) : M sound_virt unit :=
  v ← get;
  assert_ (negb (sv_data_region_paddr v =? 0));;
  assert_ (negb (sv_data_region_vaddr v =? 0));;
  on_client 0 (put (init_queues c0));;
  on_client 1 (put (init_queues c1));;
  on_driver (put (init_queues drv));;
  on_driver (modify sound_queues_init_buffers);;
  for_upto MAX_STREAMS (fun i => set_owner i NO_OWNER).

(** The result of a handler is only logged. *)
Definition notified (stack : sound_cmd) (ch : Z) : M sound_virt unit :=
  if ch =? DRIVER_CH then notified_by_driver stack;; mret tt
  else if (CLIENT_CH_BEGIN <=? ch) && (ch <? CLIENT_CH_BEGIN + NUM_CLIENTS) then
    notified_by_client stack (s32 (ch - CLIENT_CH_BEGIN));; mret tt
  else mret tt.

(** ** The abstract virtualiser

    Queues are lists of commands (up to the byte that is not copied) and PCM
    buffers, streams are free or have an owner. *)

Record snd_q : Type := mk_snd_q {
  aq_creq : list sound_cmd;
  aq_cres : list sound_cmd;
  aq_preq : list sound_pcm;
  aq_pres : list sound_pcm;
}.

#[export] Instance snd_q_inhabited : Inhabited snd_q := populate (mk_snd_q [] [] [] []).

Record snd_sys : Type := mk_snd_sys {
  as_paddr : Z;
  as_vaddr : Z;
  as_cli : list snd_q;
  as_drv : snd_q;
  as_owners : list (option nat);
  as_events : list event;
}.

Definition set_creq l q := mk_snd_q l (aq_cres q) (aq_preq q) (aq_pres q).
Definition set_cres l q := mk_snd_q (aq_creq q) l (aq_preq q) (aq_pres q).
Definition set_preq l q := mk_snd_q (aq_creq q) (aq_cres q) l (aq_pres q).
Definition set_pres l q := mk_snd_q (aq_creq q) (aq_cres q) (aq_preq q) l.

Definition with_cli (i : nat) (q : snd_q) (a : snd_sys) : snd_sys :=
  mk_snd_sys (as_paddr a) (as_vaddr a) (<[i := q]> (as_cli a)) (as_drv a) (as_owners a) (as_events a).
Definition with_drv (q : snd_q) (a : snd_sys) : snd_sys :=
  mk_snd_sys (as_paddr a) (as_vaddr a) (as_cli a) q (as_owners a) (as_events a).
Definition with_owner (s : nat) (o : option nat) (a : snd_sys) : snd_sys :=
  mk_snd_sys (as_paddr a) (as_vaddr a) (as_cli a) (as_drv a) (<[s := o]> (as_owners a)) (as_events a).
Definition with_event (e : event) (a : snd_sys) : snd_sys :=
  mk_snd_sys (as_paddr a) (as_vaddr a) (as_cli a) (as_drv a) (as_owners a) (as_events a ++ [e]).

(** A queue that is full stays as it is. *)
Definition push {A} (cap : Z) (x : A) (l : list A) : list A :=
  if Z.of_nat (length l) <? cap then l ++ [x] else l.
Definition room {A} (cap : Z) (l : list A) : bool := Z.of_nat (length l) <? cap.

Definition answer_cmd (i : nat) (cmd : sound_cmd) (status : Z) (a : snd_sys) : snd_sys :=
  let q := as_cli a !!! i in
  with_cli i (set_cres (push SOUND_CMD_QUEUE_CAPACITY (canon_cmd (set_sc_status status cmd)) (aq_cres q)) q) a.
Definition answer_pcm (i : nat) (p : sound_pcm) (status : Z) (a : snd_sys) : snd_sys :=
  let q := as_cli a !!! i in
  with_cli i (set_pres (push SOUND_PCM_QUEUE_CAPACITY
    (mk_sound_pcm (sp_cookie p) (sp_stream_id p) (sp_io_or_offset p) (sp_len p) status 0) (aq_pres q)) q) a.

(** Pass a command or a buffer to the driver; [false] if there is no room. *)
Definition forward_cmd (cmd : sound_cmd) (a : snd_sys) : bool * snd_sys :=
  let q := as_drv a in
  (room SOUND_CMD_QUEUE_CAPACITY (aq_creq q),
   with_drv (set_creq (push SOUND_CMD_QUEUE_CAPACITY (canon_cmd cmd) (aq_creq q)) q) a).
Definition forward_pcm (p : sound_pcm) (a : snd_sys) : bool * snd_sys :=
  let q := as_drv a in
  (room SOUND_PCM_QUEUE_CAPACITY (aq_preq q),
   with_drv (set_preq (push SOUND_PCM_QUEUE_CAPACITY p (aq_preq q)) q) a).

(** The state of a client's turn: the system and whether client and driver are
    to be notified. *)
Definition turn : Type := snd_sys * (bool * bool).

Definition spec_client_cmd (i : nat) (cmd : sound_cmd) (t : turn) : bool * turn :=
  let '(a, (nc, nd)) := t in
  let stream := Z.to_nat (sc_stream_id cmd) in
  let forward a := let '(ok, a') := forward_cmd cmd a in (ok, (a', (nc, nd || ok))) in
  if MAX_STREAMS <? sc_stream_id cmd then (true, (answer_cmd i cmd SOUND_S_BAD_MSG a, (nc, nd))) else
  match as_owners a !!! stream with
  | None =>
    if sc_code cmd =? SOUND_CMD_TAKE then forward (with_owner stream (Some i) a)
    else (true, (answer_cmd i cmd SOUND_S_BAD_MSG a, (true, nd)))
  | Some j =>
    if decide (j = i) then forward a else (true, (answer_cmd i cmd SOUND_S_BUSY a, (true, nd)))
  end.

Definition spec_client_pcm (i : nat) (p : sound_pcm) (t : turn) : bool * turn :=
  let '(a, (nc, nd)) := t in
  let refuse := (true, (answer_pcm i p SOUND_S_BAD_MSG a, (true, nd))) in
  if MAX_STREAMS <? sp_stream_id p then refuse else
  if negb (bool_decide (as_owners a !!! Z.to_nat (sp_stream_id p) = Some i)) then refuse else
  if pcm_bad SOUND_PCM_QUEUE_CAPACITY (sp_io_or_offset p) (sp_len p) then refuse else
  let vaddr := u64 (as_vaddr a + sp_io_or_offset p) in
  let '(ok, a') := forward_pcm (set_pcm_addr (u64 (as_paddr a + sp_io_or_offset p)) p)
                     (with_event (CacheClean vaddr (u64 (vaddr + sp_len p))) a) in
  (ok, (a', (nc, nd || ok))).

(** Take the pending requests in order; stop early when the driver has no
    room.  There is no owner of the stream one past the last: with a request
    for it the turn fails. *)
Fixpoint spec_client_cmds (i : nat) (l : list sound_cmd) (t : turn) : option (bool * turn) :=
  match l with
  | [] => Some (true, t)
  | cmd :: l' =>
    if sc_stream_id cmd =? MAX_STREAMS then None else
    let '(ok, t') := spec_client_cmd i cmd (with_cli i (set_creq l' (as_cli t.1 !!! i)) t.1, t.2) in
    if ok then spec_client_cmds i l' t' else Some (false, t')
  end.

Fixpoint spec_client_pcms (i : nat) (l : list sound_pcm) (t : turn) : option (bool * turn) :=
  match l with
  | [] => Some (true, t)
  | p :: l' =>
    if sp_stream_id p =? MAX_STREAMS then None else
    let '(ok, t') := spec_client_pcm i p (with_cli i (set_preq l' (as_cli t.1 !!! i)) t.1, t.2) in
    if ok then spec_client_pcms i l' t' else Some (false, t')
  end.

(** A turn cut short notifies nobody. *)
Definition spec_notified_by_client (i : nat) (a : snd_sys) : option snd_sys :=
  match spec_client_cmds i (aq_creq (as_cli a !!! i)) (a, (false, false)) with
  | None => None
  | Some (false, t) => Some t.1
  | Some (true, t) =>
    match spec_client_pcms i (aq_preq (as_cli t.1 !!! i)) t with
    | None => None
    | Some (false, t) => Some t.1
    | Some (true, t) =>
      let a1 := if t.2.1 then with_event (Notify (CLIENT_CH_BEGIN + Z.of_nat i)) t.1 else t.1 in
      Some (if t.2.2 then with_event (Notify DRIVER_CH) a1 else a1)
    end
  end.

(** The turn of the driver: the clients to notify.  [dirty] says whether the
    byte left over in the local variable is not zero. *)
Definition dturn : Type := snd_sys * list bool.

Definition spec_driver_cmd (dirty : bool) (cmd : sound_cmd) (t : dturn) : bool * dturn :=
  let '(a, n) := t in
  let stream := Z.to_nat (sc_stream_id cmd) in
  if MAX_STREAMS <? sc_stream_id cmd then (true, t) else
  match as_owners a !!! stream with
  | None => (true, t)
  | Some i =>
    let freed := (sc_code cmd =? SOUND_CMD_RELEASE)
      || ((sc_code cmd =? SOUND_CMD_TAKE) && (dirty || negb (sc_status cmd =? SOUND_S_OK))) in
    let a1 := if freed then with_owner stream None a else a in
    let q := as_cli a1 !!! i in
    let ok := room SOUND_CMD_QUEUE_CAPACITY (aq_cres q) in
    (ok, (with_cli i (set_cres (push SOUND_CMD_QUEUE_CAPACITY cmd (aq_cres q)) q) a1, if ok then <[i := true]> n else n))
  end.

Definition spec_driver_pcm (p : sound_pcm) (t : dturn) : bool * dturn :=
  let '(a, n) := t in
  if MAX_STREAMS <? sp_stream_id p then (true, t) else
  match as_owners a !!! Z.to_nat (sp_stream_id p) with
  | None => (true, t)
  | Some i =>
    if driver_pcm_bad (as_paddr a) SOUND_PCM_QUEUE_CAPACITY (sp_io_or_offset p) (sp_len p) then (true, t) else
    let vaddr := u64 (as_vaddr a + sp_io_or_offset p) in
    let a1 := with_event (CacheCleanAndInvalidate vaddr (u64 (vaddr + sp_len p))) a in
    let q := as_cli a1 !!! i in
    let ok := room SOUND_PCM_QUEUE_CAPACITY (aq_pres q) in
    (ok, (with_cli i (set_pres (push SOUND_PCM_QUEUE_CAPACITY
            (set_pcm_addr (u64 (sp_io_or_offset p - as_paddr a)) p) (aq_pres q)) q) a1, if ok then <[i := true]> n else n))
  end.

Fixpoint spec_driver_cmds (dirty : bool) (l : list sound_cmd) (t : dturn) : option (bool * dturn) :=
  match l with
  | [] => Some (true, t)
  | cmd :: l' =>
    if sc_stream_id cmd =? MAX_STREAMS then None else
    let '(ok, t') := spec_driver_cmd dirty cmd (with_drv (set_cres l' (as_drv t.1)) t.1, t.2) in
    if ok then spec_driver_cmds dirty l' t' else Some (false, t')
  end.

Fixpoint spec_driver_pcms (l : list sound_pcm) (t : dturn) : option (bool * dturn) :=
  match l with
  | [] => Some (true, t)
  | p :: l' =>
    if sp_stream_id p =? MAX_STREAMS then None else
    let '(ok, t') := spec_driver_pcm p (with_drv (set_pres l' (as_drv t.1)) t.1, t.2) in
    if ok then spec_driver_pcms l' t' else Some (false, t')
  end.

Definition spec_notify_clients (n : list bool) (a : snd_sys) : snd_sys :=
  let note (i : nat) (a : snd_sys) := if (n !!! i : bool) then with_event (Notify (CLIENT_CH_BEGIN + Z.of_nat i)) a else a in
  note 1%nat (note 0%nat a).

Definition spec_notified_by_driver (dirty : bool) (a : snd_sys) : option snd_sys :=
  match spec_driver_cmds dirty (aq_cres (as_drv a)) (a, [false; false]) with
  | None => None
  | Some (false, t) => Some t.1
  | Some (true, t) =>
    match spec_driver_pcms (aq_pres (as_drv t.1)) t with
    | None => None
    | Some (ok, t) => Some (if ok then spec_notify_clients t.2 t.1 else t.1)
    end
  end.

(** ** The correspondence *)

Definition aqueue (q : sound_queues) : snd_q :=
  mk_snd_q (cmd_items (sq_cmd_req q)) (cmd_items (sq_cmd_res q)) (pcm_items (sq_pcm_req q)) (pcm_items (sq_pcm_res q)).

Definition owner_of (o : Z) : option nat := if o =? NO_OWNER then None else Some (Z.to_nat o).

Definition view (v : sound_virt) : snd_sys :=
  mk_snd_sys (sv_data_region_paddr v) (sv_data_region_vaddr v) (aqueue <$> sv_clients v) (aqueue (sv_driver_queues v))
    (owner_of <$> sv_owners v) (sv_events v).

Record sq_wf (q : sound_queues) : Prop := {
  sq_wf_creq : sh_wf SOUND_CMD_QUEUE_CAPACITY (sq_cmd_req q);
  sq_wf_cres : sh_wf SOUND_CMD_QUEUE_CAPACITY (sq_cmd_res q);
  sq_wf_preq : sh_wf SOUND_PCM_QUEUE_CAPACITY (sq_pcm_req q);
  sq_wf_pres : sh_wf SOUND_PCM_QUEUE_CAPACITY (sq_pcm_res q);
}.

Record sv_wf (v : sound_virt) : Prop := {
  sv_wf_len : length (sv_clients v) = 2%nat;
  sv_wf_cli : Forall sq_wf (sv_clients v);
  sv_wf_drv : sq_wf (sv_driver_queues v);
  sv_wf_streams : length (sv_owners v) = 16%nat;
  sv_wf_owners : Forall (fun o => NO_OWNER <= o < NUM_CLIENTS) (sv_owners v);
}.

(** The queue operations on the four queues of a client or the driver. *)
Ltac enq_field Henq :=
  let Hwf := fresh in
  intros Hwf HQ; apply wp_zoom; unfold push, room in HQ;
  eapply Henq; [apply Hwf|..];
  [ intros h' Hlt Hh Hit; rewrite (proj2 (Z.ltb_lt _ _)) in HQ by exact Hlt; apply HQ;
    [destruct Hwf; split; done|unfold aqueue; cbn; by rewrite Hit]
  | intros Hlt; rewrite (proj2 (Z.ltb_ge _ _)) in HQ by (apply Z.nlt_ge; exact Hlt);
    match goal with q : sound_queues |- _ => destruct q end; apply HQ; done ].

Lemma cmd_req_enq q c (Q : Z -> sound_queues -> Prop) :
  sq_wf q ->
  (forall q', sq_wf q' ->
     aqueue q' = set_creq (push SOUND_CMD_QUEUE_CAPACITY (canon_cmd c) (aq_creq (aqueue q))) (aqueue q) ->
     Q (if room SOUND_CMD_QUEUE_CAPACITY (aq_creq (aqueue q)) then 0 else -1) q') ->
  wp (on_cmd_req (sound_enqueue_cmd c)) q Q.
Proof. enq_field sound_enqueue_cmd_spec. Qed.

Lemma cmd_res_enq q c (Q : Z -> sound_queues -> Prop) :
  sq_wf q ->
  (forall q', sq_wf q' ->
     aqueue q' = set_cres (push SOUND_CMD_QUEUE_CAPACITY (canon_cmd c) (aq_cres (aqueue q))) (aqueue q) ->
     Q (if room SOUND_CMD_QUEUE_CAPACITY (aq_cres (aqueue q)) then 0 else -1) q') ->
  wp (on_cmd_res (sound_enqueue_cmd c)) q Q.
Proof. enq_field sound_enqueue_cmd_spec. Qed.

Lemma pcm_req_enq q p (Q : Z -> sound_queues -> Prop) :
  sq_wf q ->
  (forall q', sq_wf q' ->
     aqueue q' = set_preq (push SOUND_PCM_QUEUE_CAPACITY p (aq_preq (aqueue q))) (aqueue q) ->
     Q (if room SOUND_PCM_QUEUE_CAPACITY (aq_preq (aqueue q)) then 0 else -1) q') ->
  wp (on_pcm_req (sound_enqueue_pcm p)) q Q.
Proof. enq_field sound_enqueue_pcm_spec. Qed.

Lemma pcm_res_enq q p (Q : Z -> sound_queues -> Prop) :
  sq_wf q ->
  (forall q', sq_wf q' ->
     aqueue q' = set_pres (push SOUND_PCM_QUEUE_CAPACITY p (aq_pres (aqueue q))) (aqueue q) ->
     Q (if room SOUND_PCM_QUEUE_CAPACITY (aq_pres (aqueue q)) then 0 else -1) q') ->
  wp (on_pcm_res (sound_enqueue_pcm p)) q Q.
Proof. enq_field sound_enqueue_pcm_spec. Qed.

Ltac deq_field Hnil Hcons :=
  let Hwf := fresh in let E := fresh in
  intros Hwf HQ; apply wp_zoom;
  match type of HQ with context [match ?l with _ => _ end] => destruct l eqn:E end;
  [ eapply Hnil; [apply Hwf|done|]; match goal with q : sound_queues |- _ => destruct q end; exact HQ
  | eapply Hcons; [apply Hwf|exact E|]; intros; eapply HQ;
    [destruct Hwf; split; done|unfold aqueue, set_creq, set_cres, set_preq, set_pres; cbn; congruence|try done..] ].

Lemma cmd_req_deq q out (Q : option sound_cmd -> sound_queues -> Prop) :
  sq_wf q ->
  match aq_creq (aqueue q) with
  | [] => Q None q
  | c :: l => forall q' src, sq_wf q' -> aqueue q' = set_creq l (aqueue q) -> canon_cmd src = c ->
                Q (Some (copy_cmd out src)) q'
  end ->
  wp (on_cmd_req (sound_dequeue_cmd out)) q Q.
Proof. deq_field sound_dequeue_cmd_nil sound_dequeue_cmd_cons. Qed.

Lemma cmd_res_deq q out (Q : option sound_cmd -> sound_queues -> Prop) :
  sq_wf q ->
  match aq_cres (aqueue q) with
  | [] => Q None q
  | c :: l => forall q' src, sq_wf q' -> aqueue q' = set_cres l (aqueue q) -> canon_cmd src = c ->
                Q (Some (copy_cmd out src)) q'
  end ->
  wp (on_cmd_res (sound_dequeue_cmd out)) q Q.
Proof. deq_field sound_dequeue_cmd_nil sound_dequeue_cmd_cons. Qed.

Lemma pcm_req_deq q (Q : option sound_pcm -> sound_queues -> Prop) :
  sq_wf q ->
  match aq_preq (aqueue q) with
  | [] => Q None q
  | p :: l => forall q', sq_wf q' -> aqueue q' = set_preq l (aqueue q) -> Q (Some p) q'
  end ->
  wp (on_pcm_req sound_dequeue_pcm) q Q.
Proof. deq_field sound_dequeue_pcm_nil sound_dequeue_pcm_cons. Qed.

Lemma pcm_res_deq q (Q : option sound_pcm -> sound_queues -> Prop) :
  sq_wf q ->
  match aq_pres (aqueue q) with
  | [] => Q None q
  | p :: l => forall q', sq_wf q' -> aqueue q' = set_pres l (aqueue q) -> Q (Some p) q'
  end ->
  wp (on_pcm_res sound_dequeue_pcm) q Q.
Proof. deq_field sound_dequeue_pcm_nil sound_dequeue_pcm_cons. Qed.

(** Operations on the parts of the state. *)
Lemma client_wp {A} (i : nat) (m : M sound_queues A) v q (Q : A -> sound_virt -> Prop) :
  sv_wf v -> sv_clients v !! i = Some q ->
  wp m q (fun r q' => sq_wf q' /\ forall v', sv_wf v' -> view v' = with_cli i (aqueue q') (view v) ->
    sv_owners v' = sv_owners v -> Q r v') ->
  wp (on_client (Z.of_nat i) m) v Q.
Proof.
  intros [H1 H2 H3 H4 H5] Hq Hm. apply (wp_zoom_nth _ _ _ _ _ q); [lia|by rewrite Nat2Z.id|]. rewrite Nat2Z.id.
  eapply wp_mono; [exact Hm|]. intros r q' [Hw HQ]. apply HQ; [|unfold view, with_cli; cbn; by rewrite list_fmap_insert|done].
  split; cbn; try done; [by rewrite length_insert|by apply Forall_insert].
Qed.

Lemma driver_wp {A} (m : M sound_queues A) v (Q : A -> sound_virt -> Prop) :
  sv_wf v ->
  wp m (sv_driver_queues v) (fun r q' => sq_wf q' /\ forall v', sv_wf v' -> view v' = with_drv (aqueue q') (view v) ->
    sv_owners v' = sv_owners v -> Q r v') ->
  wp (on_driver m) v Q.
Proof.
  intros [H1 H2 H3 H4 H5] Hm. apply wp_zoom. eapply wp_mono; [exact Hm|]. intros r q' [Hw HQ]. by apply HQ; [split|..].
Qed.

Lemma client_queue (i : nat) v : sv_wf v -> (i < 2)%nat ->
  exists q, sv_clients v !! i = Some q /\ sq_wf q /\ as_cli (view v) !!! i = aqueue q.
Proof.
  intros Hwf Hi. destruct (lookup_lt_is_Some_2 (sv_clients v) i) as [q Hq]; [rewrite (sv_wf_len _ Hwf); lia|].
  exists q. split_and!; [done|by eapply Forall_lookup_1; [apply Hwf|]|].
  apply list_lookup_total_correct. cbn. by rewrite list_lookup_fmap, Hq.
Qed.

Lemma respond_to_cmd_spec (i : nat) cmd status v (Q : unit -> sound_virt -> Prop) :
  sv_wf v -> (i < 2)%nat ->
  (forall v', sv_wf v' -> view v' = answer_cmd i cmd status (view v) -> Q tt v') ->
  wp (respond_to_cmd (Z.of_nat i) cmd status) v Q.
Proof.
  intros Hwf Hi HQ. destruct (client_queue i v Hwf Hi) as (q & Hq & Hqw & Ha). unfold respond_to_cmd. wp_step.
  eapply client_wp; [done..|]. apply cmd_res_enq; [done|]. intros q' Hw E. split; [done|].
  intros v' Hv Hview _. wp_step. apply HQ; [done|]. unfold answer_cmd. by rewrite Ha, Hview, E.
Qed.

Lemma respond_to_pcm_spec (i : nat) p status v (Q : unit -> sound_virt -> Prop) :
  sv_wf v -> (i < 2)%nat ->
  (forall v', sv_wf v' -> view v' = answer_pcm i p status (view v) -> Q tt v') ->
  wp (respond_to_pcm (Z.of_nat i) p status) v Q.
Proof.
  intros Hwf Hi HQ. destruct (client_queue i v Hwf Hi) as (q & Hq & Hqw & Ha). unfold respond_to_pcm. wp_step.
  eapply client_wp; [done..|]. apply pcm_res_enq; [done|]. intros q' Hw E. split; [done|].
  intros v' Hv Hview _. wp_step. apply HQ; [done|]. unfold answer_pcm. by rewrite Ha, Hview, E.
Qed.

Lemma stream_owner s v : sv_wf v -> 0 <= s < MAX_STREAMS ->
  exists o, load (sv_owners v) s = Ok o /\ NO_OWNER <= o < NUM_CLIENTS /\ as_owners (view v) !!! Z.to_nat s = owner_of o.
Proof.
  intros Hwf Hs. unfold MAX_STREAMS in Hs. destruct (lookup_lt_is_Some_2 (sv_owners v) (Z.to_nat s)) as [o Ho].
  { rewrite (sv_wf_streams _ Hwf). lia. }
  exists o. split_and!; [by apply load_ok; [lia|]| | |].
  1,2: eapply Forall_lookup_1 in Ho; [|apply Hwf]; apply Ho.
  apply list_lookup_total_correct. cbn. by rewrite list_lookup_fmap, Ho.
Qed.

Lemma set_owner_spec s o v (Q : unit -> sound_virt -> Prop) :
  sv_wf v -> 0 <= s < MAX_STREAMS -> NO_OWNER <= o < NUM_CLIENTS ->
  (forall v', sv_wf v' -> view v' = with_owner (Z.to_nat s) (owner_of o) (view v) ->
     sv_owners v' = <[Z.to_nat s := o]> (sv_owners v) -> Q tt v') ->
  wp (set_owner s o) v Q.
Proof.
  intros [H1 H2 H3 H4 H5] Hs Ho HQ. unfold MAX_STREAMS in Hs. unfold set_owner. do 3 wp_step.
  eapply wp_lift; [apply store_ok; lia|]. wp_step. apply HQ; [|unfold view, with_owner; cbn; by rewrite list_fmap_insert|done].
  split; cbn; try done; [by rewrite length_insert|by apply Forall_insert].
Qed.

Lemma emit_spec e v (Q : unit -> sound_virt -> Prop) :
  sv_wf v -> (forall v', sv_wf v' -> view v' = with_event e (view v) -> sv_owners v' = sv_owners v -> Q tt v') -> wp (emit e) v Q.
Proof. intros [H1 H2 H3 H4 H5] HQ. apply wp_modify. by apply HQ; [split|..]. Qed.

Lemma client_set_queue (i : nat) q a : (i < length (as_cli a))%nat -> as_cli (with_cli i q a) !!! i = q.
Proof. intros. by apply list_lookup_total_insert_eq. Qed.

Lemma view_clients v : sv_wf v -> length (as_cli (view v)) = 2%nat.
Proof. intros Hwf. cbn. rewrite length_fmap. apply Hwf. Qed.

(** *** The turn of a client *)

(** Only the copied part of a command matters. *)
Lemma spec_client_cmd_canon i c c' t : canon_cmd c = canon_cmd c' -> spec_client_cmd i c t = spec_client_cmd i c' t.
Proof.
  destruct c, c', t as [a [nc nd]]. unfold canon_cmd. cbn. intros [= -> -> -> E].
  unfold spec_client_cmd, answer_cmd, forward_cmd, canon_cmd, set_sc_status. cbn. by rewrite E.
Qed.

Lemma canon_canon c : canon_cmd (canon_cmd c) = canon_cmd c.
Proof. unfold canon_cmd. cbn. by rewrite <- Z.land_assoc. Qed.

Lemma owner_of_eq o (i : nat) : NO_OWNER <= o < NUM_CLIENTS ->
  owner_of o = if o =? NO_OWNER then None else Some (Z.to_nat o).
Proof. done. Qed.

Definition locals_turn (v : sound_virt) (l : client_locals) : turn :=
  (view v, (cl_notify_client l, cl_notify_driver l)).

Lemma client_cmd_taken (i : nat) (cmd : sound_cmd) v0 v l (Q : unit -> sound_virt * client_locals -> Prop) :
  sv_wf v -> (i < 2)%nat -> sv_owners v0 = sv_owners v -> 0 <= sc_stream_id cmd -> sc_stream_id cmd <> 16 ->
  (forall v' l', sv_wf v' -> cl_status l' <> Drained ->
     spec_client_cmd i cmd (locals_turn v l) = (running (cl_status l'), locals_turn v' l') -> Q tt (v', l')) ->
  wp (if MAX_STREAMS <? sc_stream_id cmd then
      on_state (respond_to_cmd (Z.of_nat i) cmd SOUND_S_BAD_MSG);;
      set_local (mk_client_locals (set_sc_status SOUND_S_BAD_MSG cmd) (cl_notify_client l) (cl_notify_driver l) Running)
    else
    o ← lift (load (sv_owners v0) (sc_stream_id cmd));
    if (o =? NO_OWNER) && negb (sc_code cmd =? SOUND_CMD_TAKE) then
      on_state (respond_to_cmd (Z.of_nat i) cmd SOUND_S_BAD_MSG);;
      set_local (mk_client_locals (set_sc_status SOUND_S_BAD_MSG cmd) true (cl_notify_driver l) Running)
    else
    (if o =? NO_OWNER then on_state (set_owner (sc_stream_id cmd) (Z.of_nat i)) else mret tt);;
    p1 ← get;
    owner ← lift (load (sv_owners p1.1) (sc_stream_id cmd));
    if negb (owner =? Z.of_nat i) then
      on_state (respond_to_cmd (Z.of_nat i) cmd SOUND_S_BUSY);;
      set_local (mk_client_locals (set_sc_status SOUND_S_BUSY cmd) true (cl_notify_driver l) Running)
    else
    err ← on_state (on_driver (on_cmd_req (sound_enqueue_cmd cmd)));
    if negb (err =? 0) then
      set_local (mk_client_locals cmd (cl_notify_client l) (cl_notify_driver l) Returned)
    else
    set_local (mk_client_locals cmd (cl_notify_client l) true Running)) (v, l) Q.
Proof.
  intros Hwf Hi Hown Hs0 Hs16 HQ. rewrite Hown. unfold spec_client_cmd, locals_turn in HQ. unfold MAX_STREAMS in *.
  destruct (Z.ltb_spec 16 (sc_stream_id cmd)).
  { do 2 wp_step. apply respond_to_cmd_spec; [done..|]. intros v' Hv' E. wp_step. apply HQ; [done..|]. by rewrite E. }
  destruct (stream_owner (sc_stream_id cmd) v Hwf) as (o & Ho & Hor & Hoa); [unfold MAX_STREAMS; lia|].
  wp_step. eapply wp_lift; [exact Ho|]. rewrite Hoa in HQ. unfold owner_of in HQ.
  assert (forall v1, sv_wf v1 -> load (sv_owners v1) (sc_stream_id cmd) = Ok (Z.of_nat i) ->
    (forall v' l', sv_wf v' -> cl_status l' <> Drained ->
       (let '(ok, a') := forward_cmd cmd (view v1) in (ok, (a', (cl_notify_client l, cl_notify_driver l || ok))))
       = (running (cl_status l'), (view v', (cl_notify_client l', cl_notify_driver l'))) -> Q tt (v', l')) ->
    wp (p1 ← get;
        owner ← lift (load (sv_owners p1.1) (sc_stream_id cmd));
        if negb (owner =? Z.of_nat i) then
          on_state (respond_to_cmd (Z.of_nat i) cmd SOUND_S_BUSY);;
          set_local (mk_client_locals (set_sc_status SOUND_S_BUSY cmd) true (cl_notify_driver l) Running)
        else
        err ← on_state (on_driver (on_cmd_req (sound_enqueue_cmd cmd)));
        if negb (err =? 0) then
          set_local (mk_client_locals cmd (cl_notify_client l) (cl_notify_driver l) Returned)
        else
        set_local (mk_client_locals cmd (cl_notify_client l) true Running)) (v1, l) Q) as Hforward.
  { intros v1 Hv1 Hl HQ1. do 2 wp_step. wp_step. eapply wp_lift; [exact Hl|]. rewrite Z.eqb_refl. cbn [negb].
    do 2 wp_step. apply driver_wp; [done|]. apply cmd_req_enq; [apply Hv1|]. intros q' Hq' E. split; [done|].
    intros v' Hv' Eview _. unfold forward_cmd in HQ1. change (as_drv (view v1)) with (aqueue (sv_driver_queues v1)) in HQ1.
    rewrite <- E in HQ1. rewrite Eview in HQ1 || rewrite <- Eview in HQ1.
    destruct (room SOUND_CMD_QUEUE_CAPACITY (aq_creq (aqueue (sv_driver_queues v1)))); cbn [Z.eqb negb].
    - wp_step. apply HQ1; [done..|]. by rewrite orb_true_r.
    - change (negb (-1 =? 0)) with true. cbn [negb]. wp_step. apply HQ1; [done..|]. by rewrite orb_false_r. }
  destruct (Z.eqb_spec o NO_OWNER) as [Hno|Hne].
  - destruct (sc_code cmd =? SOUND_CMD_TAKE); cbn [negb andb].
    + do 2 wp_step. apply set_owner_spec; [done|unfold MAX_STREAMS; lia|unfold NO_OWNER, NUM_CLIENTS; lia|].
      intros v1 Hv1 E Eo. apply Hforward; [done| |].
      { rewrite Eo. apply load_ok; [done|]. apply list_lookup_insert_eq. rewrite (sv_wf_streams _ Hwf). lia. }
      assert (owner_of (Z.of_nat i) = Some i) as Ei.
      { unfold owner_of. rewrite (proj2 (Z.eqb_neq _ _)) by (unfold NO_OWNER; lia). by rewrite Nat2Z.id. }
      rewrite Ei in E. rewrite E. exact HQ.
    + do 2 wp_step. apply respond_to_cmd_spec; [done..|]. intros v' Hv' E. wp_step. apply HQ; [done..|]. by rewrite E.
  - cbn [andb]. wp_step. wp_step. rewrite (decide_ext (Z.to_nat o = i) (o = Z.of_nat i)) in HQ
      by (unfold NO_OWNER in *; lia). case_decide as Heq.
    + subst o. by apply Hforward.
    + do 2 wp_step. wp_step. eapply wp_lift; [exact Ho|]. rewrite (proj2 (Z.eqb_neq _ _)) by done. cbn [negb].
      do 2 wp_step. apply respond_to_cmd_spec; [done..|]. intros v' Hv' E. wp_step. apply HQ; [done..|]. by rewrite E.
Qed.

Lemma client_pcm_taken (i : nat) (pcm : sound_pcm) v0 v l (Q : unit -> sound_virt * client_locals -> Prop) :
  sv_wf v -> sv_wf v0 -> (i < 2)%nat -> sv_owners v0 = sv_owners v ->
  sv_data_region_paddr v0 = sv_data_region_paddr v -> sv_data_region_vaddr v0 = sv_data_region_vaddr v ->
  0 <= sp_stream_id pcm -> sp_stream_id pcm <> 16 ->
  (forall v' l', sv_wf v' -> cl_status l' <> Drained ->
     spec_client_pcm i pcm (locals_turn v l) = (running (cl_status l'), locals_turn v' l') -> Q tt (v', l')) ->
  wp (if MAX_STREAMS <? sp_stream_id pcm then
      on_state (respond_to_pcm (Z.of_nat i) pcm SOUND_S_BAD_MSG);;
      set_local (mk_client_locals (cl_cmd l) true (cl_notify_driver l) Running)
    else
    owner ← lift (load (sv_owners v0) (sp_stream_id pcm));
    if negb (owner =? Z.of_nat i) then
      on_state (respond_to_pcm (Z.of_nat i) pcm SOUND_S_BAD_MSG);;
      set_local (mk_client_locals (cl_cmd l) true (cl_notify_driver l) Running)
    else
    q ← lift (load (sv_clients v0) (Z.of_nat i));
    if pcm_bad (sh_capacity (sq_pcm_req q)) (sp_io_or_offset pcm) (sp_len pcm) then
      on_state (respond_to_pcm (Z.of_nat i) pcm SOUND_S_BAD_MSG);;
      set_local (mk_client_locals (cl_cmd l) true (cl_notify_driver l) Running)
    else
    let vaddr := u64 (sv_data_region_vaddr v0 + sp_io_or_offset pcm) in
    let paddr := u64 (sv_data_region_paddr v0 + sp_io_or_offset pcm) in
    on_state (emit (CacheClean vaddr (u64 (vaddr + sp_len pcm))));;
    err ← on_state (on_driver (on_pcm_req (sound_enqueue_pcm (set_pcm_addr paddr pcm))));
    if negb (err =? 0) then
      set_local (mk_client_locals (cl_cmd l) (cl_notify_client l) (cl_notify_driver l) Returned)
    else
    set_local (mk_client_locals (cl_cmd l) (cl_notify_client l) true Running)) (v, l) Q.
Proof.
  intros Hwf Hwf0 Hi Hown Hpa Hva Hs0 Hs16 HQ. rewrite Hown, Hpa, Hva. unfold spec_client_pcm, locals_turn in HQ.
  assert (forall (HQ' : forall v' l', sv_wf v' -> cl_status l' <> Drained ->
     (true, (answer_pcm i pcm SOUND_S_BAD_MSG (view v), (true, cl_notify_driver l)))
     = (running (cl_status l'), (view v', (cl_notify_client l', cl_notify_driver l'))) -> Q tt (v', l')),
    wp (on_state (respond_to_pcm (Z.of_nat i) pcm SOUND_S_BAD_MSG);;
      set_local (mk_client_locals (cl_cmd l) true (cl_notify_driver l) Running)) (v, l) Q) as Hrefuse.
  { intros HQ'. do 2 wp_step. apply respond_to_pcm_spec; [done..|]. intros v' Hv' E. wp_step. apply HQ'; [done..|].
    by rewrite E. }
  unfold MAX_STREAMS in *. destruct (Z.ltb_spec 16 (sp_stream_id pcm)); [by apply Hrefuse|].
  destruct (stream_owner (sp_stream_id pcm) v Hwf) as (o & Ho & Hor & Hoa); [unfold MAX_STREAMS; lia|].
  wp_step. eapply wp_lift; [exact Ho|]. rewrite Hoa in HQ.
  rewrite (bool_decide_ext (owner_of o = Some i) (o = Z.of_nat i)) in HQ.
  2:{ unfold owner_of, NO_OWNER in *. destruct (Z.eqb_spec o (-1)); split; intros He; try (lia || done).
      - injection He. lia.
      - f_equal. lia. }
  case_bool_decide as Heq; cbn [negb] in HQ; last first.
  { rewrite (proj2 (Z.eqb_neq _ _)) by done. by apply Hrefuse. }
  rewrite Heq, Z.eqb_refl. cbn [negb].
  destruct (client_queue i v0 Hwf0 Hi) as (q & Hq & Hqw & _). wp_step.
  eapply wp_lift; [apply load_nat; exact Hq|]. destruct (sq_wf_preq _ Hqw) as [_ ->].
  destruct (pcm_bad _ _ _); [by apply Hrefuse|]. cbv zeta. do 2 wp_step. apply emit_spec; [done|]. intros v1 Hv1 E1 _.
  do 2 wp_step. apply driver_wp; [done|]. apply pcm_req_enq; [apply Hv1|]. intros q' Hq' E. split; [done|].
  intros v' Hv' Eview _. cbn [as_vaddr as_paddr view] in HQ. fold (view v) in HQ. rewrite <- E1 in HQ. unfold forward_pcm in HQ.
  change (as_drv (view v1)) with (aqueue (sv_driver_queues v1)) in HQ. rewrite <- E, <- Eview in HQ.
  destruct (room SOUND_PCM_QUEUE_CAPACITY (aq_preq (aqueue (sv_driver_queues v1)))).
  - change (negb (0 =? 0)) with false. cbn [negb]. wp_step. apply HQ; [done..|]. by rewrite orb_true_r.
  - change (negb (-1 =? 0)) with true. cbn [negb]. wp_step. apply HQ; [done..|]. by rewrite orb_false_r.
Qed.

(** The requests still pending are not touched by the handling of one. *)
Lemma spec_client_cmd_frame i cmd t ok t' :
  spec_client_cmd i cmd t = (ok, t') -> (i < length (as_cli t.1))%nat ->
  aq_creq (as_cli t'.1 !!! i) = aq_creq (as_cli t.1 !!! i) /\ aq_preq (as_cli t'.1 !!! i) = aq_preq (as_cli t.1 !!! i)
  /\ length (as_cli t'.1) = length (as_cli t.1).
Proof.
  destruct t as [a [nc nd]]. unfold spec_client_cmd, answer_cmd, forward_cmd. cbn [fst]. intros E Hi.
  destruct (_ <? _); [|destruct (as_owners a !!! _); [case_decide|destruct (_ =? _)]]; injection E as <- <-; cbn;
    rewrite ?length_insert, ?list_lookup_total_insert_eq by done; done.
Qed.

Lemma spec_client_pcm_frame i p t ok t' :
  spec_client_pcm i p t = (ok, t') -> (i < length (as_cli t.1))%nat ->
  aq_preq (as_cli t'.1 !!! i) = aq_preq (as_cli t.1 !!! i) /\ length (as_cli t'.1) = length (as_cli t.1).
Proof.
  destruct t as [a [nc nd]]. unfold spec_client_pcm, answer_pcm, forward_pcm. cbn [fst]. intros E Hi.
  destruct (_ <? _); [|destruct (negb _); [|destruct (pcm_bad _ _ _)]]; injection E as <- <-; cbn;
    rewrite ?length_insert, ?list_lookup_total_insert_eq by done; done.
Qed.

Definition creq (i : nat) (v : sound_virt) : list sound_cmd := aq_creq (as_cli (view v) !!! i).
Definition preq (i : nat) (v : sound_virt) : list sound_pcm := aq_preq (as_cli (view v) !!! i).

(** The stream of a request is not the one past the last. *)
Definition stream_ok (s : Z) : Prop := 0 <= s /\ s <> MAX_STREAMS.

(** A queue written back unchanged. *)
Lemma with_cli_same (i : nat) v : sv_wf v -> (i < 2)%nat -> with_cli i (as_cli (view v) !!! i) (view v) = view v.
Proof.
  intros Hwf Hi. unfold with_cli. rewrite list_insert_id; [done|].
  apply list_lookup_lookup_total_lt. by rewrite view_clients.
Qed.

Lemma client_cmd_body_spec (i : nat) v l (Q : unit -> sound_virt * client_locals -> Prop) :
  sv_wf v -> (i < 2)%nat -> (forall c rest, creq i v = c :: rest -> stream_ok (sc_stream_id c)) ->
  match creq i v with
  | [] => forall v' l', sv_wf v' -> cl_status l' = Drained -> locals_turn v' l' = locals_turn v l -> Q tt (v', l')
  | cmd :: rest => forall v' l', sv_wf v' -> cl_status l' <> Drained ->
      spec_client_cmd i cmd (with_cli i (set_creq rest (as_cli (view v) !!! i)) (view v),
        (cl_notify_client l, cl_notify_driver l)) = (running (cl_status l'), locals_turn v' l') -> Q tt (v', l')
  end ->
  wp (client_cmd_body (Z.of_nat i)) (v, l) Q.
Proof.
  intros Hwf Hi Hok HQ. destruct (client_queue i v Hwf Hi) as (q & Hq & Hqw & Ha). unfold creq in *.
  pose proof (with_cli_same i v Hwf Hi) as Hsame. rewrite Ha in *.
  unfold client_cmd_body. do 2 wp_step. cbn [fst snd]. do 2 wp_step. eapply client_wp; [done..|]. apply cmd_req_deq; [done|].
  destruct (aq_creq (aqueue q)) as [|c rest].
  - split; [done|]. intros v' Hv' Eview Eo. wp_step. apply HQ; [done..|]. unfold locals_turn. cbn. by rewrite Eview, Hsame.
  - intros q' src Hq' E Hc. split; [done|]. intros v' Hv' Eview Eo. destruct (Hok _ _ eq_refl) as [H0 H16].
    assert (sc_stream_id (copy_cmd (cl_cmd l) src) = sc_stream_id c) as Es by (rewrite <- Hc; done).
    apply client_cmd_taken; [done|done|by rewrite Eo|by rewrite Es|by rewrite Es|].
    intros v'' l' Hv'' Hst Espec. apply HQ; [done..|].
    rewrite <- Espec, <- E, <- Eview. apply spec_client_cmd_canon. rewrite canon_copy, <- Hc. apply canon_canon.
Qed.

Lemma client_pcm_body_spec (i : nat) v l (Q : unit -> sound_virt * client_locals -> Prop) :
  sv_wf v -> (i < 2)%nat -> (forall p rest, preq i v = p :: rest -> stream_ok (sp_stream_id p)) ->
  match preq i v with
  | [] => forall v' l', sv_wf v' -> cl_status l' = Drained -> locals_turn v' l' = locals_turn v l -> Q tt (v', l')
  | p :: rest => forall v' l', sv_wf v' -> cl_status l' <> Drained ->
      spec_client_pcm i p (with_cli i (set_preq rest (as_cli (view v) !!! i)) (view v),
        (cl_notify_client l, cl_notify_driver l)) = (running (cl_status l'), locals_turn v' l') -> Q tt (v', l')
  end ->
  wp (client_pcm_body (Z.of_nat i)) (v, l) Q.
Proof.
  intros Hwf Hi Hok HQ. destruct (client_queue i v Hwf Hi) as (q & Hq & Hqw & Ha). unfold preq in *.
  pose proof (with_cli_same i v Hwf Hi) as Hsame. rewrite Ha in *.
  unfold client_pcm_body. do 2 wp_step. cbn [fst snd]. do 2 wp_step. eapply client_wp; [done..|]. apply pcm_req_deq; [done|].
  destruct (aq_preq (aqueue q)) as [|p rest].
  - split; [done|]. intros v' Hv' Eview Eo. wp_step. apply HQ; [done..|]. unfold locals_turn. cbn. by rewrite Eview, Hsame.
  - intros q' Hq' E. split; [done|]. intros v' Hv' Eview Eo. destruct (Hok _ _ eq_refl) as [H0 H16].
    assert (as_paddr (view v') = as_paddr (view v) /\ as_vaddr (view v') = as_vaddr (view v)) as [Hpa Hva] by by rewrite Eview.
    apply client_pcm_taken; [done|done|done|by rewrite Eo|done|done|done|done|].
    intros v'' l' Hv'' Hst Espec. apply HQ; [done..|]. by rewrite <- Espec, <- E, <- Eview.
Qed.

(** How far the loop over a queue has come: what is left to do gives the
    result of the whole turn. *)
Definition loop_sim {A} (spec : list A -> turn -> option (bool * turn)) (items : list A) (result : option (bool * turn))
    (p : sound_virt * client_locals) : Prop :=
  match cl_status p.2 with
  | Running => spec items (locals_turn p.1 p.2) = result
  | Drained => Some (true, locals_turn p.1 p.2) = result
  | Returned => Some (false, locals_turn p.1 p.2) = result
  end.

Lemma client_bound_creq (i : nat) v l : sv_wf v -> (i < 2)%nat ->
  client_bound (fun q => lens_length (sq_cmd_req q)) (Z.of_nat i) (v, l) = S (length (creq i v)).
Proof.
  intros Hwf Hi. destruct (client_queue i v Hwf Hi) as (q & Hq & Hqw & Ha). unfold client_bound, creq. cbn [fst].
  rewrite Nat2Z.id, Hq, Ha. cbn. unfold cmd_items. rewrite length_fmap, lens_length_spec by apply Hqw. lia.
Qed.

Lemma client_bound_preq (i : nat) v l : sv_wf v -> (i < 2)%nat ->
  client_bound (fun q => lens_length (sq_pcm_req q)) (Z.of_nat i) (v, l) = S (length (preq i v)).
Proof.
  intros Hwf Hi. destruct (client_queue i v Hwf Hi) as (q & Hq & Hqw & Ha). unfold client_bound, preq. cbn [fst].
  rewrite Nat2Z.id, Hq, Ha. cbn. unfold pcm_items. rewrite lens_length_spec by apply Hqw. lia.
Qed.

Lemma client_cmds_loop (i : nat) v l (Q : unit -> sound_virt * client_locals -> Prop) :
  sv_wf v -> (i < 2)%nat -> cl_status l = Running -> Forall (fun c => 0 <= sc_stream_id c) (creq i v) ->
  spec_client_cmds i (creq i v) (locals_turn v l) <> None ->
  (forall v' l', sv_wf v' -> preq i v' = preq i v -> cl_status l' <> Running ->
     spec_client_cmds i (creq i v) (locals_turn v l) = Some (bool_decide (cl_status l' = Drained), locals_turn v' l') ->
     Q tt (v', l')) ->
  wp (loop (client_bound (fun q => lens_length (sq_cmd_req q)) (Z.of_nat i)) (fun p => running (cl_status p.2))
       (client_cmd_body (Z.of_nat i))) (v, l) Q.
Proof.
  intros Hwf Hi Hst Hok Hsome HQ.
  apply (wp_loop_le (fun p => sv_wf p.1 /\ preq i p.1 = preq i v /\ Forall (fun c => 0 <= sc_stream_id c) (creq i p.1)
      /\ loop_sim (spec_client_cmds i) (creq i p.1) (spec_client_cmds i (creq i v) (locals_turn v l)) p)
    (fun p => if running (cl_status p.2) then S (length (creq i p.1)) else 0%nat)).
  - split_and!; try done. unfold loop_sim. cbn. by rewrite Hst.
  - rewrite client_bound_creq by done. cbn [fst snd]. destruct (running _); lia.
  - intros [v1 l1] (Hv1 & Hp & Hok1 & Hsim) Hr. cbn [fst snd] in *. unfold loop_sim in Hsim. cbn [fst snd] in Hsim.
    destruct (cl_status l1) eqn:Es; try done. rewrite <- Hsim in Hsome. apply client_cmd_body_spec; [done..| |].
    { intros c rest Ec. rewrite Ec in Hok1, Hsome. apply Forall_cons in Hok1 as [H0 _]. split; [done|].
      intros E16. apply Hsome. cbn [spec_client_cmds]. by rewrite E16, Z.eqb_refl. }
    destruct (creq i v1) as [|c rest] eqn:Ec.
    + intros v' l' Hv' Es' El. cbn [fst snd]. unfold loop_sim. cbn [fst snd]. rewrite Es', El.
      assert (view v' = view v1) as Ev by exact (f_equal fst El). unfold creq, preq in *. rewrite Ev, Ec.
      split_and!; try done. cbn. lia.
    + intros v' l' Hv' Hnd Espec. apply spec_client_cmd_frame in Espec as Hf;
        [|cbn; rewrite length_insert, length_fmap, (sv_wf_len _ Hv1); lia].
      unfold locals_turn in Hf. cbn [fst] in Hf. rewrite client_set_queue in Hf by (rewrite view_clients; done).
      destruct Hf as (Hfc & Hfp & _). fold (creq i v') (preq i v') (preq i v1) in Hfc, Hfp. cbn in Hfc, Hfp.
      fold (preq i v1) in Hfp. cbn [fst snd]. unfold loop_sim. cbn [fst snd]. rewrite Hfc, Hfp.
      cbn [spec_client_cmds locals_turn fst snd] in Hsim. unfold locals_turn in Hsim. cbn [fst snd] in Hsim.
      cbn [spec_client_cmds] in Hsome. destruct (Z.eqb_spec (sc_stream_id c) MAX_STREAMS) as [|_]; [done|].
      rewrite Espec in Hsim. apply Forall_cons in Hok1 as [_ Hok1].
      destruct (cl_status l'); cbn [running] in *; split_and!; try done; cbn; lia.
  - intros [v' l'] (Hv' & Hp & _ & Hsim) Hr. unfold loop_sim in Hsim. cbn [fst snd] in *.
    apply HQ; [done|done|by destruct (cl_status l')|]. destruct (cl_status l') eqn:E; try done; by rewrite Hsim.
Qed.

Lemma client_pcms_loop (i : nat) v l (Q : unit -> sound_virt * client_locals -> Prop) :
  sv_wf v -> (i < 2)%nat -> cl_status l = Running -> Forall (fun p => 0 <= sp_stream_id p) (preq i v) ->
  spec_client_pcms i (preq i v) (locals_turn v l) <> None ->
  (forall v' l', sv_wf v' -> cl_status l' <> Running ->
     spec_client_pcms i (preq i v) (locals_turn v l) = Some (bool_decide (cl_status l' = Drained), locals_turn v' l') ->
     Q tt (v', l')) ->
  wp (loop (client_bound (fun q => lens_length (sq_pcm_req q)) (Z.of_nat i)) (fun p => running (cl_status p.2))
       (client_pcm_body (Z.of_nat i))) (v, l) Q.
Proof.
  intros Hwf Hi Hst Hok Hsome HQ.
  apply (wp_loop_le (fun p => sv_wf p.1 /\ Forall (fun p => 0 <= sp_stream_id p) (preq i p.1)
      /\ loop_sim (spec_client_pcms i) (preq i p.1) (spec_client_pcms i (preq i v) (locals_turn v l)) p)
    (fun p => if running (cl_status p.2) then S (length (preq i p.1)) else 0%nat)).
  - split_and!; try done. unfold loop_sim. cbn. by rewrite Hst.
  - rewrite client_bound_preq by done. cbn [fst snd]. destruct (running _); lia.
  - intros [v1 l1] (Hv1 & Hok1 & Hsim) Hr. cbn [fst snd] in *. unfold loop_sim in Hsim. cbn [fst snd] in Hsim.
    destruct (cl_status l1) eqn:Es; try done. rewrite <- Hsim in Hsome. apply client_pcm_body_spec; [done..| |].
    { intros c rest Ec. rewrite Ec in Hok1, Hsome. apply Forall_cons in Hok1 as [H0 _]. split; [done|].
      intros E16. apply Hsome. cbn [spec_client_pcms]. by rewrite E16, Z.eqb_refl. }
    destruct (preq i v1) as [|p rest] eqn:Ec.
    + intros v' l' Hv' Es' El. cbn [fst snd]. unfold loop_sim. cbn [fst snd]. rewrite Es', El.
      assert (view v' = view v1) as Ev by exact (f_equal fst El). unfold preq in *. rewrite Ev, Ec.
      split_and!; try done. cbn. lia.
    + intros v' l' Hv' Hnd Espec. apply spec_client_pcm_frame in Espec as Hf;
        [|cbn; rewrite length_insert, length_fmap, (sv_wf_len _ Hv1); lia].
      unfold locals_turn in Hf. cbn [fst] in Hf. rewrite client_set_queue in Hf by (rewrite view_clients; done).
      destruct Hf as (Hfp & _). fold (preq i v') in Hfp. cbn in Hfp.
      cbn [fst snd]. unfold loop_sim. cbn [fst snd]. rewrite Hfp.
      cbn [spec_client_pcms locals_turn fst snd] in Hsim. unfold locals_turn in Hsim. cbn [fst snd] in Hsim.
      cbn [spec_client_pcms] in Hsome. destruct (Z.eqb_spec (sp_stream_id p) MAX_STREAMS) as [|_]; [done|].
      rewrite Espec in Hsim. apply Forall_cons in Hok1 as [_ Hok1].
      destruct (cl_status l'); cbn [running] in *; split_and!; try done; cbn; lia.
  - intros [v' l'] (Hv' & _ & Hsim) Hr. unfold loop_sim in Hsim. cbn [fst snd] in *.
    apply HQ; [done|by destruct (cl_status l')|]. destruct (cl_status l') eqn:E; try done; by rewrite Hsim.
Qed.

(** *** Requests for the stream one past the last *)

Lemma no_owner_16 v : sv_wf v -> load (sv_owners v) MAX_STREAMS = Fault OutOfBounds.
Proof. intros Hwf. unfold load, MAX_STREAMS. cbn. by rewrite lookup_ge_None_2 by (rewrite (sv_wf_streams _ Hwf); lia). Qed.

(** The owner looked up after an entry is taken. *)
Lemma owner_16_fault {A} (v0 : sound_virt) (s : Z) (k : Z -> M (sound_virt * A) unit) p :
  sv_wf v0 -> s = MAX_STREAMS -> (o ← lift (load (sv_owners v0) s); k o) p = Fault OutOfBounds.
Proof. intros Hwf ->. apply bind_fault. unfold lift. by rewrite (no_owner_16 _ Hwf). Qed.

Lemma client_cmd_body_16 (i : nat) v l c rest :
  sv_wf v -> (i < 2)%nat -> creq i v = c :: rest -> sc_stream_id c = MAX_STREAMS ->
  client_cmd_body (Z.of_nat i) (v, l) = Fault OutOfBounds.
Proof.
  intros Hwf Hi Hc Hs. destruct (client_queue i v Hwf Hi) as (q & Hq & Hqw & Ha). unfold creq in Hc. rewrite Ha in Hc.
  unfold client_cmd_body. erewrite bind_ok; [|done]. cbn [fst snd].
  apply (wp_then_fault _ _ _ _ (fun r _ => exists cmd, r = Some cmd /\ sc_stream_id cmd = MAX_STREAMS)).
  - wp_step. eapply client_wp; [done..|]. apply cmd_req_deq; [done|]. rewrite Hc. intros q' src Hq' _ Hsrc.
    split; [done|]. intros v' _ _ _. eexists. split; [done|]. by rewrite <- Hs, <- Hsrc.
  - intros r p (cmd & -> & E). rewrite E, Z.ltb_irrefl. by apply owner_16_fault.
Qed.

Lemma client_pcm_body_16 (i : nat) v l p rest :
  sv_wf v -> (i < 2)%nat -> preq i v = p :: rest -> sp_stream_id p = MAX_STREAMS ->
  client_pcm_body (Z.of_nat i) (v, l) = Fault OutOfBounds.
Proof.
  intros Hwf Hi Hc Hs. destruct (client_queue i v Hwf Hi) as (q & Hq & Hqw & Ha). unfold preq in Hc. rewrite Ha in Hc.
  unfold client_pcm_body. erewrite bind_ok; [|done]. cbn [fst snd].
  apply (wp_then_fault _ _ _ _ (fun r _ => r = Some p)).
  - wp_step. eapply client_wp; [done..|]. apply pcm_req_deq; [done|]. rewrite Hc. intros q' Hq' _. by split.
  - intros r p' ->. rewrite Hs, Z.ltb_irrefl. by apply owner_16_fault.
Qed.

Lemma client_cmds_loop_16 (i : nat) v l :
  sv_wf v -> (i < 2)%nat -> cl_status l = Running -> Forall (fun c => 0 <= sc_stream_id c) (creq i v) ->
  spec_client_cmds i (creq i v) (locals_turn v l) = None ->
  loop (client_bound (fun q => lens_length (sq_cmd_req q)) (Z.of_nat i)) (fun p => running (cl_status p.2))
       (client_cmd_body (Z.of_nat i)) (v, l) = Fault OutOfBounds.
Proof.
  intros Hwf Hi Hst Hok Hnone.
  apply (loop_fault_inv (fun p => sv_wf p.1 /\ cl_status p.2 = Running /\ Forall (fun c => 0 <= sc_stream_id c) (creq i p.1)
      /\ spec_client_cmds i (creq i p.1) (locals_turn p.1 p.2) = None) (fun p => S (length (creq i p.1)))).
  - done.
  - by rewrite client_bound_creq.
  - intros [v1 l1] (Hv1 & Hr & Hok1 & Hn). cbn [fst snd] in *. split; [by rewrite Hr|].
    destruct (creq i v1) as [|c rest] eqn:Ec; [done|]. apply Forall_cons in Hok1 as [H0 Hok1].
    cbn [spec_client_cmds] in Hn. destruct (Z.eqb_spec (sc_stream_id c) MAX_STREAMS) as [E16|N16].
    { left. split; [by eapply client_cmd_body_16|lia]. }
    right. apply client_cmd_body_spec; [done|done|rewrite Ec; by intros ? ? [= <- <-]|]. rewrite Ec.
    intros v' l' Hv' Hnd Espec. apply spec_client_cmd_frame in Espec as Hf;
      [|cbn; rewrite length_insert, length_fmap, (sv_wf_len _ Hv1); lia].
    unfold locals_turn in Hf. cbn [fst] in Hf. rewrite client_set_queue in Hf by (rewrite view_clients; done).
    destruct Hf as (Hfc & _ & _). fold (creq i v') in Hfc. cbn in Hfc. unfold locals_turn in Hn. cbn [fst snd] in *.
    rewrite Espec in Hn. rewrite Hfc. destruct (cl_status l'); cbn [running] in Hn; try done. split; [done|]. cbn. lia.
Qed.

Lemma client_pcms_loop_16 (i : nat) v l :
  sv_wf v -> (i < 2)%nat -> cl_status l = Running -> Forall (fun p => 0 <= sp_stream_id p) (preq i v) ->
  spec_client_pcms i (preq i v) (locals_turn v l) = None ->
  loop (client_bound (fun q => lens_length (sq_pcm_req q)) (Z.of_nat i)) (fun p => running (cl_status p.2))
       (client_pcm_body (Z.of_nat i)) (v, l) = Fault OutOfBounds.
Proof.
  intros Hwf Hi Hst Hok Hnone.
  apply (loop_fault_inv (fun p => sv_wf p.1 /\ cl_status p.2 = Running /\ Forall (fun p => 0 <= sp_stream_id p) (preq i p.1)
      /\ spec_client_pcms i (preq i p.1) (locals_turn p.1 p.2) = None) (fun p => S (length (preq i p.1)))).
  - done.
  - by rewrite client_bound_preq.
  - intros [v1 l1] (Hv1 & Hr & Hok1 & Hn). cbn [fst snd] in *. split; [by rewrite Hr|].
    destruct (preq i v1) as [|p rest] eqn:Ec; [done|]. apply Forall_cons in Hok1 as [H0 Hok1].
    cbn [spec_client_pcms] in Hn. destruct (Z.eqb_spec (sp_stream_id p) MAX_STREAMS) as [E16|N16].
    { left. split; [by eapply client_pcm_body_16|lia]. }
    right. apply client_pcm_body_spec; [done|done|rewrite Ec; by intros ? ? [= <- <-]|]. rewrite Ec.
    intros v' l' Hv' Hnd Espec. apply spec_client_pcm_frame in Espec as Hf;
      [|cbn; rewrite length_insert, length_fmap, (sv_wf_len _ Hv1); lia].
    unfold locals_turn in Hf. cbn [fst] in Hf. rewrite client_set_queue in Hf by (rewrite view_clients; done).
    destruct Hf as (Hfp & _). fold (preq i v') in Hfp. cbn in Hfp. unfold locals_turn in Hn. cbn [fst snd] in *.
    rewrite Espec in Hn. rewrite Hfp. destruct (cl_status l'); cbn [running] in Hn; try done. split; [done|]. cbn. lia.
Qed.

Lemma notified_by_client_spec stack (i : nat) v a (Q : Z -> sound_virt -> Prop) :
  sv_wf v -> (i < 2)%nat ->
  Forall (fun c => 0 <= sc_stream_id c) (creq i v) -> Forall (fun p => 0 <= sp_stream_id p) (preq i v) ->
  spec_notified_by_client i (view v) = Some a -> (forall r v', sv_wf v' -> view v' = a -> Q r v') ->
  wp (notified_by_client stack (Z.of_nat i)) v Q.
Proof.
  intros Hwf Hi Hc Hp Ha HQ. unfold notified_by_client.
  rewrite (proj2 (Z.ltb_ge _ _)), (proj2 (Z.ltb_ge _ _)) by (unfold NUM_CLIENTS; lia). cbn [orb].
  unfold spec_notified_by_client in Ha. fold (creq i v) in Ha. do 3 wp_step.
  apply client_cmds_loop; [done..|intros E; unfold locals_turn in E; cbn in E; by rewrite E in Ha|].
  intros v1 l1 Hv1 Hp1 Hs1 E1. unfold locals_turn at 1 in E1. cbn in E1.
  rewrite E1 in Ha. wp_step. wp_step. cbn [snd].
  destruct (decide (cl_status l1 = Returned)) as [Hr1|Hr1].
  { wp_step. cbn [fst snd]. rewrite decide_True by done. wp_step. apply HQ; [done|].
    rewrite Hr1, bool_decide_false in Ha by done. by injection Ha. }
  assert (cl_status l1 = Drained) as Hd1 by (by destruct (cl_status l1)). rewrite Hd1 in Ha. rewrite bool_decide_true in Ha by done.
  wp_step. wp_step. change (locals_turn v1 l1).1 with (view v1) in Ha. fold (preq i v1) in Ha.
  apply client_pcms_loop; [done|done|done|by rewrite Hp1|intros E; change (locals_turn v1 (set_cl_status Running l1)) with (locals_turn v1 l1) in E; by rewrite E in Ha|].
  change (locals_turn v1 (set_cl_status Running l1)) with (locals_turn v1 l1).
  intros v2 l2 Hv2 Hs2 E2. rewrite E2 in Ha. cbn [fst snd]. destruct (decide (cl_status l2 = Returned)) as [Hr2|Hr2].
  { wp_step. apply HQ; [done|]. rewrite Hr2, bool_decide_false in Ha by done. by injection Ha. }
  assert (cl_status l2 = Drained) as Hd2 by (by destruct (cl_status l2)). rewrite Hd2 in Ha. rewrite bool_decide_true in Ha by done.
  cbn [locals_turn fst snd] in Ha. injection Ha as <-. clear E1 E2 Hd1 Hd2 Hr1 Hr2 Hs1 Hs2.
  wp_step. apply wp_when; intros En; rewrite En in HQ.
  - apply emit_spec; [done|]. intros v3 Hv3 E3 _. rewrite <- E3 in HQ. wp_step.
    apply wp_when; intros Ed; rewrite Ed in HQ; [|by wp_step; apply HQ].
    apply emit_spec; [done|]. intros v4 Hv4 E4 _. wp_step. by apply HQ.
  - wp_step. apply wp_when; intros Ed; rewrite Ed in HQ; [|by wp_step; apply HQ].
    apply emit_spec; [done|]. intros v4 Hv4 E4 _. wp_step. by apply HQ.
Qed.

Lemma notified_by_client_16 stack (i : nat) v :
  sv_wf v -> (i < 2)%nat ->
  Forall (fun c => 0 <= sc_stream_id c) (creq i v) -> Forall (fun p => 0 <= sp_stream_id p) (preq i v) ->
  spec_notified_by_client i (view v) = None -> notified_by_client stack (Z.of_nat i) v = Fault OutOfBounds.
Proof.
  intros Hwf Hi Hc Hp Hn. unfold notified_by_client.
  rewrite (proj2 (Z.ltb_ge _ _)), (proj2 (Z.ltb_ge _ _)) by (unfold NUM_CLIENTS; lia). cbn [orb].
  unfold spec_notified_by_client in Hn. fold (creq i v) in Hn. apply bind_fault, with_local_fault.
  set (l0 := mk_client_locals stack false false Running). change (view v, (false, false)) with (locals_turn v l0) in Hn.
  destruct (spec_client_cmds i (creq i v) (locals_turn v l0)) as [[ok t]|] eqn:E; [|by apply bind_fault, client_cmds_loop_16].
  apply (wp_then_fault _ _ _ _ (fun _ p => sv_wf p.1 /\ preq i p.1 = preq i v /\ cl_status p.2 = Drained /\
    spec_client_pcms i (preq i p.1) (locals_turn p.1 p.2) = None)).
  - apply client_cmds_loop; [done..|by rewrite E|]. intros v1 l1 Hv1 Hp1 Hs1 E1. rewrite E1 in E. injection E as <- <-.
    destruct (cl_status l1) eqn:Es; [done| |done]. rewrite bool_decide_true in Hn by done. cbn [fst snd].
    split_and!; [done..|]. unfold preq. unfold locals_turn in Hn at 1. cbn [fst] in Hn. by destruct (spec_client_pcms _ _ _) as [[[] ?]|].
  - intros _ [v1 l1] (Hv1 & Hp1 & Hs1 & Hn1). cbn [fst snd] in *. erewrite bind_ok; [|done]. cbn [fst snd].
    rewrite decide_False by (by rewrite Hs1). erewrite bind_ok; [|done]. apply client_pcms_loop_16; [done|done|done| |done].
    cbn [fst]. by rewrite Hp1.
Qed.

(** *** The turn of the driver *)

Definition top_byte (c : sound_cmd) : Z := Z.land (sc_union c) (Z.shiftl 255 24).
Definition dirty (c : sound_cmd) : bool := negb (top_byte c =? 0).

Lemma status_of_copy out src :
  (sc_status (copy_cmd out src) =? SOUND_S_OK) = negb (dirty out) && (sc_status (canon_cmd src) =? SOUND_S_OK).
Proof.
  unfold dirty, top_byte. rewrite negb_involutive. apply eq_true_iff_eq. rewrite andb_true_iff, !Z.eqb_eq.
  unfold sc_status, copy_cmd, canon_cmd, SOUND_S_OK. cbn [sc_union]. unfold assign_set_params. apply Z.lor_eq_0_iff.
Qed.

Lemma top_byte_copy out src : top_byte (copy_cmd out src) = top_byte out.
Proof. apply assign_set_params_high. Qed.

Definition dlocals_turn (v : sound_virt) (l : driver_locals) : dturn := (view v, dl_notify l).

Lemma note_client_spec cmd (i : nat) v l (Q : unit -> sound_virt * driver_locals -> Prop) :
  (i < 2)%nat -> length (dl_notify l) = 2%nat ->
  Q tt (v, mk_driver_locals cmd (<[i := true]> (dl_notify l)) Running) -> wp (note_client cmd (Z.of_nat i)) (v, l) Q.
Proof.
  intros Hi Hl HQ. unfold note_client. do 3 wp_step. eapply wp_lift; [apply store_nat; cbn; lia|]. by wp_step.
Qed.

Lemma owner_cases o : NO_OWNER <= o < NUM_CLIENTS ->
  o = NO_OWNER /\ owner_of o = None \/ exists i : nat, (i < 2)%nat /\ o = Z.of_nat i /\ owner_of o = Some i.
Proof.
  unfold owner_of, NO_OWNER, NUM_CLIENTS. intros Ho. destruct (Z.eqb_spec o (-1)) as [->|]; [by left|]. right.
  exists (Z.to_nat o). split_and!; (done || lia).
Qed.

Definition dcres (v : sound_virt) : list sound_cmd := aq_cres (as_drv (view v)).
Definition dpres (v : sound_virt) : list sound_pcm := aq_pres (as_drv (view v)).

Lemma driver_cmd_body_spec v l (Q : unit -> sound_virt * driver_locals -> Prop) :
  sv_wf v -> length (dl_notify l) = 2%nat -> (forall c rest, dcres v = c :: rest -> stream_ok (sc_stream_id c)) ->
  match dcres v with
  | [] => forall v' l', sv_wf v' -> dl_status l' = Drained -> dlocals_turn v' l' = dlocals_turn v l -> Q tt (v', l')
  | cmd :: rest => forall v' l', sv_wf v' -> dl_status l' <> Drained -> length (dl_notify l') = 2%nat ->
      top_byte (dl_cmd l') = top_byte (dl_cmd l) ->
      spec_driver_cmd (dirty (dl_cmd l)) cmd (with_drv (set_cres rest (as_drv (view v))) (view v), dl_notify l)
      = (running (dl_status l'), dlocals_turn v' l') -> Q tt (v', l')
  end ->
  wp driver_cmd_body (v, l) Q.
Proof.
  intros Hwf Hl Hok HQ. unfold driver_cmd_body. do 2 wp_step. cbn [fst snd]. do 2 wp_step. apply driver_wp; [done|].
  apply cmd_res_deq; [apply Hwf|]. unfold dcres in *. change (as_drv (view v)) with (aqueue (sv_driver_queues v)) in *.
  destruct (aq_cres (aqueue (sv_driver_queues v))) as [|c rest].
  - split; [apply Hwf|]. intros v' Hv' Eview Eo. wp_step. apply HQ; [done..|]. unfold dlocals_turn. by rewrite Eview.
  - intros q' src Hq' E Hc. split; [done|]. intros v1 Hv1 Eview Eo. rewrite <- E, <- Eview in HQ. clear E Eview Hq' q'.
    destruct (Hok _ _ eq_refl) as [H0 H16]. set (cmd := copy_cmd (dl_cmd l) src).
    assert (sc_stream_id cmd = sc_stream_id c /\ sc_code cmd = sc_code c) as [Es Ecode] by (subst c; done).
    pose proof (top_byte_copy (dl_cmd l) src) as Htop. fold cmd in Htop. unfold spec_driver_cmd in HQ. rewrite Es, Ecode.
    destruct (Z.ltb_spec MAX_STREAMS (sc_stream_id c)); [by wp_step; apply HQ|]. unfold MAX_STREAMS in *.
    destruct (stream_owner (sc_stream_id c) v1 Hv1) as (o & Ho & Hor & Hoa); [unfold MAX_STREAMS in *; lia|].
    rewrite Hoa in HQ. wp_step. eapply wp_lift; [rewrite <- Eo; exact Ho|].
    destruct (owner_cases o Hor) as [[-> Eow]|(i & Hi & -> & Eow)]; rewrite Eow in HQ.
    { rewrite Z.eqb_refl. by wp_step; apply HQ. }
    rewrite (proj2 (Z.eqb_neq _ _)) by (unfold NO_OWNER; lia).
    assert (negb (sc_status cmd =? SOUND_S_OK) = dirty (dl_cmd l) || negb (sc_status c =? SOUND_S_OK)) as ->.
    { unfold cmd. rewrite status_of_copy, <- Hc, negb_andb, negb_involutive. done. }
    set (freed := (sc_code c =? SOUND_CMD_RELEASE) || _) in *. wp_step.
    assert (wp (if freed then on_state (set_owner (sc_stream_id c) NO_OWNER) else mret tt) (v1, l)
      (fun _ p => p.2 = l /\ sv_wf p.1 /\ view p.1 = if freed then with_owner (Z.to_nat (sc_stream_id c)) None (view v1) else view v1)) as Hset.
    { destruct freed; [|by wp_step]. wp_step. apply set_owner_spec; [done|unfold MAX_STREAMS; lia|unfold NO_OWNER, NUM_CLIENTS; lia|].
      by intros v' Hv' E _. }
    eapply wp_mono; [exact Hset|]. intros _ [v2 l2] (El & Hv2 & E2). cbn [fst snd] in *. subst l2. rewrite <- E2 in HQ.
    destruct (client_queue i v2 Hv2 Hi) as (q & Hq & Hqw & Ha). rewrite Ha in HQ. wp_step. wp_step.
    eapply client_wp; [done..|]. apply cmd_res_enq; [done|]. intros q' Hq' E. split; [done|]. intros v3 Hv3 Eview _.
    assert (canon_cmd cmd = c) as Ecan by (unfold cmd; rewrite canon_copy; subst c; done).
    rewrite Ecan in E. rewrite <- E, <- Eview in HQ.
    destruct (room SOUND_CMD_QUEUE_CAPACITY (aq_cres (aqueue q))).
    + change (negb (0 =? 0)) with false. cbn [negb]. apply note_client_spec; [done|done|]. apply HQ; [done|done| |done|done].
      cbn. by rewrite length_insert.
    + change (negb (-1 =? 0)) with true. cbn [negb]. wp_step. by apply HQ.
Qed.

Lemma driver_pcm_body_spec v l (Q : unit -> sound_virt * driver_locals -> Prop) :
  sv_wf v -> dl_status l = Running -> length (dl_notify l) = 2%nat -> (forall p rest, dpres v = p :: rest -> stream_ok (sp_stream_id p)) ->
  match dpres v with
  | [] => forall v' l', sv_wf v' -> dl_status l' = Drained -> dlocals_turn v' l' = dlocals_turn v l -> Q tt (v', l')
  | p :: rest => forall v' l', sv_wf v' -> dl_status l' <> Drained -> length (dl_notify l') = 2%nat ->
      spec_driver_pcm p (with_drv (set_pres rest (as_drv (view v))) (view v), dl_notify l)
      = (running (dl_status l'), dlocals_turn v' l') -> Q tt (v', l')
  end ->
  wp driver_pcm_body (v, l) Q.
Proof.
  intros Hwf Hst Hl Hok HQ. unfold driver_pcm_body. do 2 wp_step. cbn [fst snd]. do 2 wp_step. apply driver_wp; [done|].
  apply pcm_res_deq; [apply Hwf|]. unfold dpres in *. change (as_drv (view v)) with (aqueue (sv_driver_queues v)) in *.
  destruct (aq_pres (aqueue (sv_driver_queues v))) as [|p rest].
  - split; [apply Hwf|]. intros v' Hv' Eview Eo. wp_step. apply HQ; [done..|]. unfold dlocals_turn. by rewrite Eview.
  - intros q' Hq' E. split; [done|]. intros v1 Hv1 Eview Eo. rewrite <- E, <- Eview in HQ.
    assert (as_paddr (view v1) = as_paddr (view v) /\ as_vaddr (view v1) = as_vaddr (view v)) as [Hpa Hva] by by rewrite Eview.
    clear E Eview Hq' q'. destruct (Hok _ _ eq_refl) as [H0 H16].
    assert (forall (HQ' : forall v' l', sv_wf v' -> dl_status l' <> Drained -> length (dl_notify l') = 2%nat ->
      (true, dlocals_turn v1 l) = (running (dl_status l'), dlocals_turn v' l') -> Q tt (v', l')),
      wp (mret tt) (v1, l) Q) as Hskip by (intros HQ'; wp_step; apply HQ'; rewrite ?Hst; done).
    unfold spec_driver_pcm in HQ. destruct (Z.ltb_spec MAX_STREAMS (sp_stream_id p)); [by apply Hskip|]. unfold MAX_STREAMS in *.
    destruct (stream_owner (sp_stream_id p) v1 Hv1) as (o & Ho & Hor & Hoa); [unfold MAX_STREAMS in *; lia|].
    rewrite Hoa in HQ. wp_step. eapply wp_lift; [rewrite <- Eo; exact Ho|].
    destruct (owner_cases o Hor) as [[-> Eow]|(i & Hi & -> & Eow)]; rewrite Eow in HQ; [by apply Hskip|].
    rewrite (proj2 (Z.ltb_ge _ _)), (proj2 (Z.ltb_ge _ _)) by (unfold NUM_CLIENTS; lia). cbn [orb].
    destruct (client_queue i v Hwf Hi) as (q0 & Hq0 & Hqw0 & _). wp_step.
    eapply wp_lift; [apply load_nat; exact Hq0|]. destruct (sq_wf_pres _ Hqw0) as [_ ->].
    change (sv_data_region_paddr v) with (as_paddr (view v)). change (sv_data_region_vaddr v) with (as_vaddr (view v)).
    rewrite <- Hpa, <- Hva. destruct (driver_pcm_bad _ _ _ _); [by apply Hskip|].
    do 2 wp_step. apply emit_spec; [done|]. intros v2 Hv2 E2 _. rewrite <- E2 in HQ.
    destruct (client_queue i v2 Hv2 Hi) as (q & Hq & Hqw & Ha). rewrite Ha in HQ. do 2 wp_step.
    eapply client_wp; [done..|]. apply pcm_res_enq; [done|]. intros q' Hq' E. split; [done|]. intros v3 Hv3 Eview _.
    rewrite <- E, <- Eview in HQ. destruct (room SOUND_PCM_QUEUE_CAPACITY (aq_pres (aqueue q))).
    + change (negb (0 =? 0)) with false. cbn [negb]. apply note_client_spec; [done|done|]. apply HQ; [done|done| |done].
      cbn. by rewrite length_insert.
    + change (negb (-1 =? 0)) with true. cbn [negb]. wp_step. by apply HQ.
Qed.

Definition dloop_sim {A} (spec : list A -> dturn -> option (bool * dturn)) (items : list A) (result : option (bool * dturn))
    (p : sound_virt * driver_locals) : Prop :=
  match dl_status p.2 with
  | Running => spec items (dlocals_turn p.1 p.2) = result
  | Drained => Some (true, dlocals_turn p.1 p.2) = result
  | Returned => Some (false, dlocals_turn p.1 p.2) = result
  end.

Lemma spec_driver_cmd_frame d c t ok t' :
  spec_driver_cmd d c t = (ok, t') -> as_drv t'.1 = as_drv t.1.
Proof.
  destruct t as [a n]. unfold spec_driver_cmd. intros E.
  destruct (_ <? _); [|destruct (as_owners a !!! _); [destruct (_ || _)|]]; by injection E as <- <-.
Qed.

Lemma spec_driver_pcm_frame p t ok t' : spec_driver_pcm p t = (ok, t') -> as_drv t'.1 = as_drv t.1.
Proof.
  destruct t as [a n]. unfold spec_driver_pcm. intros E.
  destruct (_ <? _); [|destruct (as_owners a !!! _); [destruct (driver_pcm_bad _ _ _ _)|]]; by injection E as <- <-.
Qed.

Lemma driver_cmds_loop v l (Q : unit -> sound_virt * driver_locals -> Prop) :
  sv_wf v -> dl_status l = Running -> length (dl_notify l) = 2%nat ->
  Forall (fun c => 0 <= sc_stream_id c) (dcres v) ->
  spec_driver_cmds (dirty (dl_cmd l)) (dcres v) (dlocals_turn v l) <> None ->
  (forall v' l', sv_wf v' -> dpres v' = dpres v -> length (dl_notify l') = 2%nat -> dl_status l' <> Running ->
     spec_driver_cmds (dirty (dl_cmd l)) (dcres v) (dlocals_turn v l)
     = Some (bool_decide (dl_status l' = Drained), dlocals_turn v' l') -> Q tt (v', l')) ->
  wp (loop (driver_bound (fun q => lens_length (sq_cmd_res q))) (fun p => running (dl_status p.2)) driver_cmd_body) (v, l) Q.
Proof.
  intros Hwf Hst Hl Hok Hsome HQ. set (d := dirty (dl_cmd l)) in *.
  apply (wp_loop_le (fun p => sv_wf p.1 /\ dpres p.1 = dpres v /\ length (dl_notify p.2) = 2%nat
      /\ (dl_status p.2 = Running -> dirty (dl_cmd p.2) = d) /\ Forall (fun c => 0 <= sc_stream_id c) (dcres p.1)
      /\ dloop_sim (spec_driver_cmds d) (dcres p.1) (spec_driver_cmds d (dcres v) (dlocals_turn v l)) p)
    (fun p => if running (dl_status p.2) then S (length (dcres p.1)) else 0%nat)).
  - split_and!; try done. unfold dloop_sim. cbn. by rewrite Hst.
  - unfold driver_bound, dcres. cbn. unfold cmd_items. rewrite length_fmap, lens_length_spec by apply Hwf.
    destruct (running _); lia.
  - intros [v1 l1] (Hv1 & Hp & Hn1 & Hd1 & Hok1 & Hsim) Hr. cbn [fst snd] in *. unfold dloop_sim in Hsim. cbn [fst snd] in Hsim.
    destruct (dl_status l1) eqn:Es; try done. specialize (Hd1 eq_refl). rewrite <- Hsim in Hsome. apply driver_cmd_body_spec; [done..| |].
    { intros c rest Ec. rewrite Ec in Hok1, Hsome. apply Forall_cons in Hok1 as [H0 _]. split; [done|].
      intros E16. apply Hsome. cbn [spec_driver_cmds]. by rewrite E16, Z.eqb_refl. }
    destruct (dcres v1) as [|c rest] eqn:Ec.
    + intros v' l' Hv' Es' El. cbn [fst snd]. unfold dloop_sim. cbn [fst snd]. rewrite Es', El.
      assert (view v' = view v1) as Ev by exact (f_equal fst El). assert (dl_notify l' = dl_notify l1) as En by exact (f_equal snd El).
      unfold dcres, dpres in *. rewrite Ev, Ec, En. split_and!; try done. cbn. lia.
    + intros v' l' Hv' Hnd Hn' Htop Espec. pose proof (spec_driver_cmd_frame _ _ _ _ _ Espec) as Hf.
      cbn [fst dlocals_turn with_drv as_drv] in Hf. cbn [fst snd]. unfold dloop_sim, dcres, dpres in *. cbn [fst snd].
      rewrite Hf. cbn [aq_cres aq_pres set_cres]. cbn [spec_driver_cmds dlocals_turn fst snd] in Hsim. unfold dlocals_turn in Hsim. cbn [fst snd] in Hsim.
      cbn [spec_driver_cmds] in Hsome. destruct (Z.eqb_spec (sc_stream_id c) MAX_STREAMS) as [|_]; [done|].
      rewrite <- Hd1 in Hsim at 1. rewrite Espec in Hsim. apply Forall_cons in Hok1 as [_ Hok1].
      assert (dirty (dl_cmd l') = d) as Hd' by (rewrite <- Hd1; unfold dirty; by rewrite Htop).
      destruct (dl_status l'); cbn [running] in *; split_and!; try done; cbn; lia.
  - intros [v' l'] (Hv' & Hp & Hn & _ & _ & Hsim) Hr. unfold dloop_sim in Hsim. cbn [fst snd] in *.
    apply HQ; [done|done|done|by destruct (dl_status l')|]. destruct (dl_status l') eqn:E; try done; by rewrite Hsim.
Qed.

Lemma driver_pcms_loop v l (Q : unit -> sound_virt * driver_locals -> Prop) :
  sv_wf v -> dl_status l = Running -> length (dl_notify l) = 2%nat ->
  Forall (fun p => 0 <= sp_stream_id p) (dpres v) ->
  spec_driver_pcms (dpres v) (dlocals_turn v l) <> None ->
  (forall v' l', sv_wf v' -> length (dl_notify l') = 2%nat -> dl_status l' <> Running ->
     spec_driver_pcms (dpres v) (dlocals_turn v l) = Some (bool_decide (dl_status l' = Drained), dlocals_turn v' l') ->
     Q tt (v', l')) ->
  wp (loop (driver_bound (fun q => lens_length (sq_pcm_res q))) (fun p => running (dl_status p.2)) driver_pcm_body) (v, l) Q.
Proof.
  intros Hwf Hst Hl Hok Hsome HQ.
  apply (wp_loop_le (fun p => sv_wf p.1 /\ length (dl_notify p.2) = 2%nat
      /\ Forall (fun c => 0 <= sp_stream_id c) (dpres p.1)
      /\ dloop_sim spec_driver_pcms (dpres p.1) (spec_driver_pcms (dpres v) (dlocals_turn v l)) p)
    (fun p => if running (dl_status p.2) then S (length (dpres p.1)) else 0%nat)).
  - split_and!; try done. unfold dloop_sim. cbn. by rewrite Hst.
  - unfold driver_bound, dpres. cbn. unfold pcm_items. rewrite lens_length_spec by apply Hwf.
    destruct (running _); lia.
  - intros [v1 l1] (Hv1 & Hn1 & Hok1 & Hsim) Hr. cbn [fst snd] in *. unfold dloop_sim in Hsim. cbn [fst snd] in Hsim.
    destruct (dl_status l1) eqn:Es; try done. rewrite <- Hsim in Hsome. apply driver_pcm_body_spec; [done..| |].
    { intros c rest Ec. rewrite Ec in Hok1, Hsome. apply Forall_cons in Hok1 as [H0 _]. split; [done|].
      intros E16. apply Hsome. cbn [spec_driver_pcms]. by rewrite E16, Z.eqb_refl. }
    destruct (dpres v1) as [|c rest] eqn:Ec.
    + intros v' l' Hv' Es' El. cbn [fst snd]. unfold dloop_sim. cbn [fst snd]. rewrite Es', El.
      assert (view v' = view v1) as Ev by exact (f_equal fst El). assert (dl_notify l' = dl_notify l1) as En by exact (f_equal snd El).
      unfold dpres in *. rewrite Ev, Ec, En. split_and!; try done. cbn. lia.
    + intros v' l' Hv' Hnd Hn' Espec. pose proof (spec_driver_pcm_frame _ _ _ _ Espec) as Hf.
      cbn [fst dlocals_turn with_drv as_drv] in Hf. cbn [fst snd]. unfold dloop_sim, dpres in *. cbn [fst snd].
      rewrite Hf. cbn [aq_pres set_pres]. cbn [spec_driver_pcms dlocals_turn fst snd] in Hsim. unfold dlocals_turn in Hsim. cbn [fst snd] in Hsim.
      cbn [spec_driver_pcms] in Hsome. destruct (Z.eqb_spec (sp_stream_id c) MAX_STREAMS) as [|_]; [done|].
      rewrite Espec in Hsim. apply Forall_cons in Hok1 as [_ Hok1].
      destruct (dl_status l'); cbn [running] in *; split_and!; try done; cbn; lia.
  - intros [v' l'] (Hv' & Hn & _ & Hsim) Hr. unfold dloop_sim in Hsim. cbn [fst snd] in *.
    apply HQ; [done|done|by destruct (dl_status l')|]. destruct (dl_status l') eqn:E; try done; by rewrite Hsim.
Qed.

Lemma notify_clients_spec n v (Q : unit -> sound_virt -> Prop) :
  sv_wf v -> length n = 2%nat ->
  (forall v', sv_wf v' -> view v' = spec_notify_clients n (view v) -> Q tt v') -> wp (notify_clients n) v Q.
Proof.
  intros Hwf Hn HQ. destruct n as [|b0 [|b1 []]]; try done. unfold notify_clients, for_upto.
  change (seqZ 0 NUM_CLIENTS) with [0; 1]. cbn [for_each].
  assert (forall b c v (Q : unit -> sound_virt -> Prop), sv_wf v ->
    (forall v', sv_wf v' -> view v' = (if b : bool then with_event (Notify c) (view v) else view v) -> Q tt v') ->
    wp (when b (emit (Notify c))) v Q) as Hone.
  { clear. intros b c v Q Hwf HQ. apply wp_when; intros ->; [|by apply HQ].
    apply emit_spec; [done|]. intros v' Hv' E _. by apply HQ. }
  do 2 wp_step. apply (wp_lift _ b0); [done|]. apply Hone; [done|]. intros v1 Hv1 E1.
  do 2 wp_step. apply (wp_lift _ b1); [done|]. apply Hone; [done|]. intros v2 Hv2 E2. wp_step.
  apply HQ; [done|]. rewrite E2, E1. by unfold spec_notify_clients.
Qed.

Lemma driver_cmd_body_16 v l c rest :
  sv_wf v -> dcres v = c :: rest -> sc_stream_id c = MAX_STREAMS -> driver_cmd_body (v, l) = Fault OutOfBounds.
Proof.
  intros Hwf Hc Hs. unfold driver_cmd_body. erewrite bind_ok; [|done]. cbn [fst snd].
  apply (wp_then_fault _ _ _ _ (fun r _ => exists cmd, r = Some cmd /\ sc_stream_id cmd = MAX_STREAMS)).
  - wp_step. apply driver_wp; [done|]. apply cmd_res_deq; [apply Hwf|]. unfold dcres in Hc.
    change (as_drv (view v)) with (aqueue (sv_driver_queues v)) in Hc. rewrite Hc. intros q' src Hq' _ Hsrc.
    split; [done|]. intros v' _ _ _. eexists. split; [done|]. by rewrite <- Hs, <- Hsrc.
  - intros r p (cmd & -> & E). rewrite E, Z.ltb_irrefl. by apply owner_16_fault.
Qed.

Lemma driver_pcm_body_16 v l p rest :
  sv_wf v -> dpres v = p :: rest -> sp_stream_id p = MAX_STREAMS -> driver_pcm_body (v, l) = Fault OutOfBounds.
Proof.
  intros Hwf Hc Hs. unfold driver_pcm_body. erewrite bind_ok; [|done]. cbn [fst snd].
  apply (wp_then_fault _ _ _ _ (fun r _ => r = Some p)).
  - wp_step. apply driver_wp; [done|]. apply pcm_res_deq; [apply Hwf|]. unfold dpres in Hc.
    change (as_drv (view v)) with (aqueue (sv_driver_queues v)) in Hc. rewrite Hc. intros q' Hq' _. by split.
  - intros r p' ->. rewrite Hs, Z.ltb_irrefl. by apply owner_16_fault.
Qed.

Lemma driver_cmds_loop_16 v l :
  sv_wf v -> dl_status l = Running -> length (dl_notify l) = 2%nat -> Forall (fun c => 0 <= sc_stream_id c) (dcres v) ->
  spec_driver_cmds (dirty (dl_cmd l)) (dcres v) (dlocals_turn v l) = None ->
  loop (driver_bound (fun q => lens_length (sq_cmd_res q))) (fun p => running (dl_status p.2)) driver_cmd_body (v, l)
  = Fault OutOfBounds.
Proof.
  intros Hwf Hst Hl Hok Hnone. set (d := dirty (dl_cmd l)) in *.
  apply (loop_fault_inv (fun p => sv_wf p.1 /\ dl_status p.2 = Running /\ length (dl_notify p.2) = 2%nat /\ dirty (dl_cmd p.2) = d
      /\ Forall (fun c => 0 <= sc_stream_id c) (dcres p.1) /\ spec_driver_cmds d (dcres p.1) (dlocals_turn p.1 p.2) = None)
    (fun p => S (length (dcres p.1)))).
  - done.
  - unfold driver_bound, dcres. cbn. unfold cmd_items. rewrite length_fmap, lens_length_spec by apply Hwf. lia.
  - intros [v1 l1] (Hv1 & Hr & Hn1 & Hd1 & Hok1 & Hn). cbn [fst snd] in *. split; [by rewrite Hr|].
    destruct (dcres v1) as [|c rest] eqn:Ec; [done|]. apply Forall_cons in Hok1 as [H0 Hok1].
    cbn [spec_driver_cmds] in Hn. destruct (Z.eqb_spec (sc_stream_id c) MAX_STREAMS) as [E16|N16].
    { left. split; [by eapply driver_cmd_body_16|lia]. }
    right. apply driver_cmd_body_spec; [done|done|rewrite Ec; by intros ? ? [= <- <-]|]. rewrite Ec.
    intros v' l' Hv' Hnd Hn' Htop Espec. pose proof (spec_driver_cmd_frame _ _ _ _ _ Espec) as Hf.
    cbn [fst dlocals_turn with_drv as_drv] in Hf. unfold dlocals_turn in Hn. cbn [fst snd] in *. rewrite <- Hd1 in Hn at 1. rewrite Espec in Hn.
    assert (dcres v' = rest) as -> by (unfold dcres; by rewrite Hf).
    assert (dirty (dl_cmd l') = d) as Hd' by (rewrite <- Hd1; unfold dirty; by rewrite Htop).
    destruct (dl_status l'); cbn [running] in Hn; try done. split; [done|]. cbn. lia.
Qed.

Lemma driver_pcms_loop_16 v l :
  sv_wf v -> dl_status l = Running -> length (dl_notify l) = 2%nat -> Forall (fun p => 0 <= sp_stream_id p) (dpres v) ->
  spec_driver_pcms (dpres v) (dlocals_turn v l) = None ->
  loop (driver_bound (fun q => lens_length (sq_pcm_res q))) (fun p => running (dl_status p.2)) driver_pcm_body (v, l)
  = Fault OutOfBounds.
Proof.
  intros Hwf Hst Hl Hok Hnone.
  apply (loop_fault_inv (fun p => sv_wf p.1 /\ dl_status p.2 = Running /\ length (dl_notify p.2) = 2%nat
      /\ Forall (fun p => 0 <= sp_stream_id p) (dpres p.1) /\ spec_driver_pcms (dpres p.1) (dlocals_turn p.1 p.2) = None)
    (fun p => S (length (dpres p.1)))).
  - done.
  - unfold driver_bound, dpres. cbn. unfold pcm_items. rewrite lens_length_spec by apply Hwf. lia.
  - intros [v1 l1] (Hv1 & Hr & Hn1 & Hok1 & Hn). cbn [fst snd] in *. split; [by rewrite Hr|].
    destruct (dpres v1) as [|p rest] eqn:Ec; [done|]. apply Forall_cons in Hok1 as [H0 Hok1].
    cbn [spec_driver_pcms] in Hn. destruct (Z.eqb_spec (sp_stream_id p) MAX_STREAMS) as [E16|N16].
    { left. split; [by eapply driver_pcm_body_16|lia]. }
    right. apply driver_pcm_body_spec; [done|done|done|rewrite Ec; by intros ? ? [= <- <-]|]. rewrite Ec.
    intros v' l' Hv' Hnd Hn' Espec. pose proof (spec_driver_pcm_frame _ _ _ _ Espec) as Hf.
    cbn [fst dlocals_turn with_drv as_drv] in Hf. unfold dlocals_turn in Hn. cbn [fst snd] in *. rewrite Espec in Hn.
    assert (dpres v' = rest) as -> by (unfold dpres; by rewrite Hf).
    destruct (dl_status l'); cbn [running] in Hn; try done. split; [done|]. cbn. lia.
Qed.

Lemma notified_by_driver_spec stack v a (Q : Z -> sound_virt -> Prop) :
  sv_wf v -> Forall (fun c => 0 <= sc_stream_id c) (dcres v) -> Forall (fun p => 0 <= sp_stream_id p) (dpres v) ->
  spec_notified_by_driver (dirty stack) (view v) = Some a -> (forall r v', sv_wf v' -> view v' = a -> Q r v') ->
  wp (notified_by_driver stack) v Q.
Proof.
  intros Hwf Hc Hp Ha HQ. unfold notified_by_driver. unfold spec_notified_by_driver in Ha. fold (dcres v) in Ha. do 3 wp_step.
  apply driver_cmds_loop; [done..|intros E; change (spec_driver_cmds (dirty stack) (dcres v) (view v, [false; false]) = None) in E; by rewrite E in Ha|].
  intros v1 l1 Hv1 Hp1 Hn1 Hs1 E1. unfold dlocals_turn at 1 in E1.
  cbn [dl_cmd dl_notify] in E1. change (replicate 2 false) with [false; false] in E1. rewrite E1 in Ha. wp_step. wp_step. cbn [snd].
  destruct (decide (dl_status l1 = Returned)) as [Hr1|Hr1].
  { wp_step. cbn [fst snd]. rewrite decide_True by done. wp_step. apply HQ; [done|].
    rewrite Hr1, bool_decide_false in Ha by done. by injection Ha. }
  assert (dl_status l1 = Drained) as Hd1 by (by destruct (dl_status l1)). rewrite Hd1 in Ha. rewrite bool_decide_true in Ha by done.
  wp_step. wp_step. change (dlocals_turn v1 l1).1 with (view v1) in Ha. fold (dpres v1) in Ha.
  apply driver_pcms_loop; [done|done|done|by rewrite Hp1|intros E; change (dlocals_turn v1 (set_dl_status Running l1)) with (dlocals_turn v1 l1) in E; by rewrite E in Ha|].
  change (dlocals_turn v1 (set_dl_status Running l1)) with (dlocals_turn v1 l1).
  intros v2 l2 Hv2 Hn2 Hs2 E2. rewrite E2 in Ha. injection Ha as Ha. cbn [fst snd]. destruct (decide (dl_status l2 = Returned)) as [Hr2|Hr2].
  { wp_step. apply HQ; [done|]. by rewrite Hr2, bool_decide_false in Ha by done. }
  assert (dl_status l2 = Drained) as Hd2 by (by destruct (dl_status l2)). rewrite Hd2 in Ha. rewrite bool_decide_true in Ha by done.
  cbn [dlocals_turn fst snd] in Ha. subst a. wp_step. apply notify_clients_spec; [done..|]. intros v3 Hv3 E3. wp_step. by apply HQ.
Qed.

Lemma notified_by_driver_16 stack v :
  sv_wf v -> Forall (fun c => 0 <= sc_stream_id c) (dcres v) -> Forall (fun p => 0 <= sp_stream_id p) (dpres v) ->
  spec_notified_by_driver (dirty stack) (view v) = None -> notified_by_driver stack v = Fault OutOfBounds.
Proof.
  intros Hwf Hc Hp Hn. unfold notified_by_driver. unfold spec_notified_by_driver in Hn. fold (dcres v) in Hn.
  apply bind_fault, with_local_fault. set (l0 := mk_driver_locals stack (replicate 2 false) Running).
  change (view v, [false; false]) with (dlocals_turn v l0) in Hn. change (dirty stack) with (dirty (dl_cmd l0)) in Hn.
  destruct (spec_driver_cmds _ (dcres v) (dlocals_turn v l0)) as [[ok t]|] eqn:E; [|by apply bind_fault, driver_cmds_loop_16].
  apply (wp_then_fault _ _ _ _ (fun _ p => sv_wf p.1 /\ dpres p.1 = dpres v /\ dl_status p.2 = Drained /\ length (dl_notify p.2) = 2%nat /\
    spec_driver_pcms (dpres p.1) (dlocals_turn p.1 p.2) = None)).
  - apply driver_cmds_loop; [done..|by rewrite E|]. intros v1 l1 Hv1 Hp1 Hn1 Hs1 E1. rewrite E1 in E. injection E as <- <-.
    destruct (dl_status l1) eqn:Es; [done| |done]. rewrite bool_decide_true in Hn by done. cbn [fst snd].
    split_and!; [done..|]. unfold dpres. unfold dlocals_turn in Hn at 1. cbn [fst] in Hn. by destruct (spec_driver_pcms _ _) as [[? ?]|].
  - intros _ [v1 l1] (Hv1 & Hp1 & Hs1 & Hl1 & Hn1). cbn [fst snd] in *. erewrite bind_ok; [|done]. cbn [fst snd].
    rewrite decide_False by (by rewrite Hs1). erewrite bind_ok; [|done]. apply driver_pcms_loop_16; [done|done|done| |done].
    cbn [fst]. by rewrite Hp1.
Qed.

(** ** Correctness *)

Definition spec_notified (d : bool) (ch : Z) (a : snd_sys) : option snd_sys :=
  if ch =? DRIVER_CH then spec_notified_by_driver d a
  else if (CLIENT_CH_BEGIN <=? ch) && (ch <? CLIENT_CH_BEGIN + NUM_CLIENTS) then
    spec_notified_by_client (Z.to_nat (ch - CLIENT_CH_BEGIN)) a
  else Some a.

(** The streams named by pending entries are unsigned, and so are offsets. *)
Definition client_typed (q : snd_q) : Prop :=
  Forall (fun c => 0 <= sc_stream_id c) (aq_creq q) /\
  Forall (fun p => 0 <= sp_stream_id p /\ 0 <= sp_io_or_offset p) (aq_preq q).
Definition pending_typed (a : snd_sys) : Prop :=
  Forall client_typed (as_cli a) /\
  Forall (fun c => 0 <= sc_stream_id c) (aq_cres (as_drv a)) /\ Forall (fun p => 0 <= sp_stream_id p) (aq_pres (as_drv a)).

Lemma client_typed_at a (i : nat) : pending_typed a -> (i < length (as_cli a))%nat -> client_typed (as_cli a !!! i).
Proof. intros [Hcli _] Hi. eapply Forall_lookup_1; [exact Hcli|]. by apply list_lookup_lookup_total_lt. Qed.

Lemma wp_result {S} (m : M S unit) s (P : S -> Prop) : wp m s (fun _ => P) -> exists s', m s = Ok (tt, s') /\ P s'.
Proof. intros ([] & s' & E & H)%wp_elim. by exists s'. Qed.

(** C32. On every notification the virtualiser does what the abstract one does,
    or both fail.  A client's turn takes its commands and then its PCM buffers in
    order: a command goes to the driver if the client owns the stream or takes a
    free one, and is otherwise answered; a buffer goes to the driver, at its
    physical address, if the client owns the stream and the buffer is aligned
    and in its region.  The driver's turn hands each response to the owner of its
    stream, which is freed by a release, by a failed take and, if the byte of
    the local variable that is never written was not zero on entry ([dirty]), by
    any take.  Both end early when a queue is full, and then notify nobody.  The
    loops terminate; and an array is overrun if and only if the turn comes to an
    entry that names stream 16, one past the last: then the model stops there. *)
Theorem sound_virt_refines (stack : sound_cmd) (ch : Z) (v : sound_virt) :
  sv_wf v -> pending_typed (view v) -> 0 <= ch < 2 ^ 31 ->
  match spec_notified (dirty stack) ch (view v) with
  | Some a => exists v', notified stack ch v = Ok (tt, v') /\ sv_wf v' /\ view v' = a
  | None => notified stack ch v = Fault OutOfBounds
  end.
Proof.
  intros Hwf Hty Hch. pose proof Hty as (_ & Hc & Hp). unfold notified, spec_notified.
  destruct (Z.eqb_spec ch DRIVER_CH).
  { destruct (spec_notified_by_driver (dirty stack) (view v)) as [a|] eqn:Ea; [|by apply bind_fault, notified_by_driver_16].
    apply wp_result. wp_step. eapply notified_by_driver_spec; [done..|]. intros r v' Hv' E. by wp_step. }
  destruct ((CLIENT_CH_BEGIN <=? ch) && (ch <? CLIENT_CH_BEGIN + NUM_CLIENTS)) eqn:Er; [|by exists v].
  apply andb_true_iff in Er as [H1%Z.leb_le H2%Z.ltb_lt]. unfold CLIENT_CH_BEGIN, NUM_CLIENTS in *.
  assert (s32 (ch - 1) = Z.of_nat (Z.to_nat (ch - 1))) as ->.
  { unfold s32. rewrite Z.mod_small by lia. rewrite (proj2 (Z.ltb_lt _ _)) by lia. lia. }
  assert (Z.to_nat (ch - 1) < 2)%nat as Hi by lia. set (i := Z.to_nat (ch - 1)) in *.
  destruct (client_typed_at _ i Hty ltac:(by rewrite view_clients)) as [Hcq Hpq].
  assert (Forall (fun p => 0 <= sp_stream_id p) (preq i v)) as Hpq' by (eapply Forall_impl; [exact Hpq|]; by intros ? []).
  destruct (spec_notified_by_client i (view v)) as [a|] eqn:Ea; [|by apply bind_fault, notified_by_client_16].
  apply wp_result. wp_step. eapply notified_by_client_spec; [done..|]. intros r v' Hv' E. by wp_step.
Qed.

(** *** A client cannot reach the streams of others *)

Definition owns (a : snd_sys) (i : nat) (s : Z) : Prop := as_owners a !!! Z.to_nat s = Some i.

(** The buffer lies in the data region of 256 buffers. *)
Definition pcm_in_region (a : snd_sys) (p : sound_pcm) : Prop :=
  as_paddr a <= sp_io_or_offset p /\ sp_len p <= SOUND_PCM_BUFFER_SIZE /\
  sp_io_or_offset p + SOUND_PCM_BUFFER_SIZE <= as_paddr a + SOUND_PCM_BUFFER_SIZE * SOUND_PCM_QUEUE_CAPACITY.

(** What a turn of client [i] may do. *)
Record turn_safe (i : nat) (a a' : snd_sys) : Prop := {
  ts_cmds : exists cmds, aq_creq (as_drv a') = aq_creq (as_drv a) ++ cmds
              /\ Forall (fun c => owns a' i (sc_stream_id c)) cmds;
  ts_pcms : exists pcms, aq_preq (as_drv a') = aq_preq (as_drv a) ++ pcms
              /\ Forall (fun p => owns a' i (sp_stream_id p) /\ pcm_in_region a p) pcms;
  ts_keep : forall s j, owns a j s -> owns a' j s;
  ts_claim : forall s j, owns a' j s -> owns a j s \/ j = i;
  ts_others : forall j, j <> i -> as_cli a' !! j = as_cli a !! j;
  ts_responses : aq_cres (as_drv a') = aq_cres (as_drv a) /\ aq_pres (as_drv a') = aq_pres (as_drv a);
  ts_paddr : as_paddr a' = as_paddr a;
}.

(** Nothing is appended. *)
Lemma appended_nil {A} (P : A -> Prop) (l : list A) : exists xs, l = l ++ xs /\ Forall P xs.
Proof. exists []. rewrite app_nil_r. split; [done|apply Forall_nil_2]. Qed.
#[local] Hint Resolve appended_nil : core.

Lemma turn_safe_refl i a : turn_safe i a a.
Proof. split; eauto. Qed.

Lemma turn_safe_trans i a b c : turn_safe i a b -> turn_safe i b c -> turn_safe i a c.
Proof.
  intros [(c1 & E1 & F1) (p1 & G1 & H1) K1 L1 O1 [R1 S1] P1] [(c2 & E2 & F2) (p2 & G2 & H2) K2 L2 O2 [R2 S2] P2]. split.
  - exists (c1 ++ c2). rewrite E2, E1, app_assoc. split; [done|]. apply Forall_app. split; [|done].
    eapply Forall_impl; [exact F1|]. intros x. apply K2.
  - exists (p1 ++ p2). rewrite G2, G1, app_assoc. split; [done|]. apply Forall_app. split.
    + eapply Forall_impl; [exact H1|]. intros x [? ?]. split; [by apply K2|done].
    + eapply Forall_impl; [exact H2|]. intros x [? Hr]. split; [done|]. unfold pcm_in_region in *. by rewrite <- P1.
  - intros s j Ho. by apply K2, K1.
  - intros s j Ho. apply L2 in Ho as [Ho| ->]; [by apply L1|by right].
  - intros j Hj. by rewrite O2, O1.
  - by rewrite R2, S2.
  - by rewrite P2.
Qed.

Lemma with_cli_safe i q a : turn_safe i a (with_cli i q a).
Proof.
  split; cbn; eauto. intros j Hj. by rewrite list_lookup_insert_ne.
Qed.

Lemma with_event_safe i e a : turn_safe i a (with_event e a).
Proof. split; cbn; eauto. Qed.

Lemma with_owner_safe i s a : as_owners a !!! s = None -> turn_safe i a (with_owner s (Some i) a).
Proof.
  intros Hs. assert (forall t, as_owners (with_owner s (Some i) a) !!! t = as_owners a !!! t
    \/ t = s /\ as_owners (with_owner s (Some i) a) !!! t = Some i) as Hl.
  { intros t. cbn. destruct (decide (t = s)) as [->|]; [|left; by apply list_lookup_total_insert_ne].
    destruct (decide (s < length (as_owners a))%nat); [right; split; [done|]; by apply list_lookup_total_insert_eq|].
    left. by rewrite list_insert_ge by lia. }
  split; eauto; intros t j Ho; unfold owns in *;
    destruct (Hl (Z.to_nat t)) as [E|[Et E]]; rewrite ?E in *; eauto.
  - rewrite Et in Ho. congruence.
  - right. congruence.
Qed.

Lemma forward_cmd_safe i cmd a : owns a i (sc_stream_id cmd) -> turn_safe i a (forward_cmd cmd a).2.
Proof.
  intros Ho. unfold forward_cmd, push, room. cbn [snd]. destruct (_ <? _).
  - split; eauto.
  - split; eauto.
Qed.

Lemma forward_pcm_safe i p a : owns a i (sp_stream_id p) -> pcm_in_region a p -> turn_safe i a (forward_pcm p a).2.
Proof.
  intros Ho Hr. unfold forward_pcm, push, room. cbn [snd]. destruct (_ <? _).
  - split; eauto.
  - split; eauto.
Qed.

Lemma spec_client_cmd_safe i cmd a fl ok t' :
  length (as_owners a) = 16%nat -> stream_ok (sc_stream_id cmd) ->
  spec_client_cmd i cmd (a, fl) = (ok, t') -> turn_safe i a t'.1 /\ length (as_owners t'.1) = 16%nat.
Proof.
  intros Hl [H0 H16]. destruct fl as [nc nd]. unfold spec_client_cmd, MAX_STREAMS in *.
  destruct (Z.ltb_spec 16 (sc_stream_id cmd)); [intros [= <- <-]; split; [apply with_cli_safe|done]|].
  destruct (as_owners a !!! Z.to_nat (sc_stream_id cmd)) as [j|] eqn:Eo.
  - destruct (decide (j = i)) as [->|]; intros [= <- <-]; (split; [|done]); [by apply forward_cmd_safe|apply with_cli_safe].
  - destruct (_ =? _); intros [= <- <-]; (split; [|cbn; by rewrite ?length_insert]); [|apply with_cli_safe].
    eapply turn_safe_trans; [by apply (with_owner_safe i (Z.to_nat (sc_stream_id cmd)))|].
    apply (forward_cmd_safe i cmd (with_owner _ _ a)). unfold owns. cbn.
    apply list_lookup_total_insert_eq. lia.
Qed.

Lemma pcm_good_region a p :
  0 <= as_paddr a -> as_paddr a + SOUND_PCM_BUFFER_SIZE * SOUND_PCM_QUEUE_CAPACITY <= 2 ^ 64 -> 0 <= sp_io_or_offset p ->
  pcm_bad SOUND_PCM_QUEUE_CAPACITY (sp_io_or_offset p) (sp_len p) = false ->
  pcm_in_region a (set_pcm_addr (u64 (as_paddr a + sp_io_or_offset p)) p).
Proof.
  unfold pcm_bad, pcm_in_region, SOUND_PCM_BUFFER_SIZE, SOUND_PCM_QUEUE_CAPACITY. intros Hp Htop Ho Hb.
  apply orb_false_iff in Hb as [[Hm Hr]%orb_false_iff Hl]. apply negb_false_iff, Z.eqb_eq in Hm.
  change (u32 (4096 * 256)) with (4096 * 256) in Hr. apply Z.leb_gt in Hr. apply Z.ltb_ge in Hl.
  cbn [sp_io_or_offset sp_len set_pcm_addr].
  assert (sp_io_or_offset p + 4096 <= 4096 * 256).
  { pose proof (Z.div_mod (sp_io_or_offset p) 4096 ltac:(lia)). lia. }
  rewrite u64_small by (unfold is_u64; lia). lia.
Qed.

Lemma spec_client_pcm_safe i p a fl ok t' :
  0 <= as_paddr a -> as_paddr a + SOUND_PCM_BUFFER_SIZE * SOUND_PCM_QUEUE_CAPACITY <= 2 ^ 64 -> 0 <= sp_io_or_offset p ->
  spec_client_pcm i p (a, fl) = (ok, t') -> turn_safe i a t'.1.
Proof.
  intros Hp Htop Ho. destruct fl as [nc nd]. unfold spec_client_pcm.
  destruct (_ <? _); [intros [= <- <-]; apply with_cli_safe|].
  case_bool_decide as Eo; cbn [negb]; [|intros [= <- <-]; apply with_cli_safe].
  destruct (pcm_bad _ _ _) eqn:Hb; [intros [= <- <-]; apply with_cli_safe|].
  set (a1 := with_event _ a). intros E.
  assert (t'.1 = (forward_pcm (set_pcm_addr (u64 (as_paddr a + sp_io_or_offset p)) p) a1).2) as -> by (by injection E as <- <-).
  eapply turn_safe_trans; [apply with_event_safe|]. apply forward_pcm_safe; [done|].
  by apply (pcm_good_region a).
Qed.

Lemma spec_client_cmds_safe i l t ok t' :
  length (as_owners t.1) = 16%nat -> Forall (fun c => 0 <= sc_stream_id c) l ->
  spec_client_cmds i l t = Some (ok, t') -> turn_safe i t.1 t'.1.
Proof.
  revert t. induction l as [|c l IH]; intros [a fl] Hl Hok; cbn [spec_client_cmds fst snd].
  - intros [= _ <-]. apply turn_safe_refl.
  - apply Forall_cons in Hok as [Hc Hok]. destruct (Z.eqb_spec (sc_stream_id c) MAX_STREAMS); [done|].
    destruct (spec_client_cmd _ _ _) as [ok1 t1] eqn:E1.
    apply spec_client_cmd_safe in E1 as [Hs1 Hl1]; [|done|done]. cbn [fst] in Hl.
    destruct ok1; [intros E; apply IH in E; [|done|done]|intros [= _ <-]].
    + eapply turn_safe_trans; [apply with_cli_safe|]. by eapply turn_safe_trans.
    + eapply turn_safe_trans; [apply with_cli_safe|done].
Qed.

Lemma spec_client_pcms_safe i l t ok t' :
  0 <= as_paddr t.1 -> as_paddr t.1 + SOUND_PCM_BUFFER_SIZE * SOUND_PCM_QUEUE_CAPACITY <= 2 ^ 64 ->
  Forall (fun p => 0 <= sp_stream_id p /\ 0 <= sp_io_or_offset p) l ->
  spec_client_pcms i l t = Some (ok, t') -> turn_safe i t.1 t'.1.
Proof.
  revert t. induction l as [|p l IH]; intros [a fl] Hp Htop Hok; cbn [spec_client_pcms fst snd].
  - intros [= _ <-]. apply turn_safe_refl.
  - apply Forall_cons in Hok as [[_ Hc] Hok]. destruct (Z.eqb_spec (sp_stream_id p) MAX_STREAMS); [done|].
    destruct (spec_client_pcm _ _ _) as [ok1 t1] eqn:E1. cbn [fst] in *.
    apply spec_client_pcm_safe in E1; [|done|done|done]. pose proof (ts_paddr _ _ _ E1) as Epa. cbn in Epa.
    destruct ok1; [intros E; apply IH in E; [|by rewrite Epa|by rewrite Epa|done]|intros [= _ <-]].
    + eapply turn_safe_trans; [apply with_cli_safe|]. by eapply turn_safe_trans.
    + eapply turn_safe_trans; [apply with_cli_safe|done].
Qed.

Lemma spec_client_cmds_preq i l t ok t' :
  spec_client_cmds i l t = Some (ok, t') -> (i < length (as_cli t.1))%nat ->
  aq_preq (as_cli t'.1 !!! i) = aq_preq (as_cli t.1 !!! i).
Proof.
  revert t. induction l as [|c l IH]; intros t; cbn [spec_client_cmds]; [by intros [= _ <-]|].
  destruct (_ =? MAX_STREAMS); [done|]. destruct (spec_client_cmd _ _ _) as [ok1 t2] eqn:E2. intros E Hi.
  apply spec_client_cmd_frame in E2 as (_ & Ep & El); [|cbn; by rewrite length_insert].
  cbn [fst with_cli as_cli] in Ep, El. rewrite length_insert in El. rewrite list_lookup_total_insert_eq in Ep by done.
  destruct ok1; [|by injection E as _ <-]. by rewrite (IH t2 E) by lia.
Qed.

Lemma spec_notified_by_client_safe i a a' :
  length (as_owners a) = 16%nat -> (i < length (as_cli a))%nat ->
  0 <= as_paddr a -> as_paddr a + SOUND_PCM_BUFFER_SIZE * SOUND_PCM_QUEUE_CAPACITY <= 2 ^ 64 ->
  client_typed (as_cli a !!! i) -> spec_notified_by_client i a = Some a' -> turn_safe i a a'.
Proof.
  intros Hl Hi Hp Htop [Hc Hq]. unfold spec_notified_by_client.
  destruct (spec_client_cmds _ _ _) as [[ok t1]|] eqn:E1; [|done].
  pose proof (spec_client_cmds_preq _ _ _ _ _ E1 Hi) as Epre. cbn [fst] in Epre.
  apply spec_client_cmds_safe in E1; [|done|done]. cbn [fst] in E1. destruct ok; [|by intros [= <-]].
  destruct (spec_client_pcms _ _ _) as [[ok t2]|] eqn:E2; [|done]. rewrite Epre in E2. pose proof (ts_paddr _ _ _ E1) as Epa.
  apply spec_client_pcms_safe in E2; [|by rewrite Epa..|done].
  assert (turn_safe i a t2.1) as Hs by (by eapply turn_safe_trans). destruct ok; intros [= <-]; [|done].
  destruct t2.2.1, t2.2.2; eauto using turn_safe_trans, with_event_safe.
Qed.

(** A turn that fails was asked to. *)
Lemma spec_client_cmds_none i l t : spec_client_cmds i l t = None -> Exists (fun c => sc_stream_id c = MAX_STREAMS) l.
Proof.
  revert t. induction l as [|c l IH]; intros t; cbn [spec_client_cmds]; [done|].
  destruct (Z.eqb_spec (sc_stream_id c) MAX_STREAMS); [by left|]. destruct (spec_client_cmd _ _ _) as [[] t1]; [|done].
  intros E. right. by eapply IH.
Qed.
Lemma spec_client_pcms_none i l t : spec_client_pcms i l t = None -> Exists (fun p => sp_stream_id p = MAX_STREAMS) l.
Proof.
  revert t. induction l as [|p l IH]; intros t; cbn [spec_client_pcms]; [done|].
  destruct (Z.eqb_spec (sp_stream_id p) MAX_STREAMS); [by left|]. destruct (spec_client_pcm _ _ _) as [[] t1]; [|done].
  intros E. right. by eapply IH.
Qed.

Lemma spec_notified_by_client_none i a : (i < length (as_cli a))%nat -> spec_notified_by_client i a = None ->
  Exists (fun c => sc_stream_id c = MAX_STREAMS) (aq_creq (as_cli a !!! i)) \/
  Exists (fun p => sp_stream_id p = MAX_STREAMS) (aq_preq (as_cli a !!! i)).
Proof.
  intros Hi. unfold spec_notified_by_client. destruct (spec_client_cmds _ _ _) as [[[] t1]|] eqn:E1; [|done|].
  - pose proof (spec_client_cmds_preq _ _ _ _ _ E1 Hi) as Epre. cbn [fst] in Epre. rewrite Epre.
    destruct (spec_client_pcms _ _ _) as [[[] t2]|] eqn:E2; [done|done|]. intros _. right. by eapply spec_client_pcms_none.
  - intros _. left. by eapply spec_client_cmds_none.
Qed.

(** C22. The turn of a client gives the driver only commands and buffers for
    streams the client owns, and only buffers inside the data region; it takes
    only free streams, never a stream of another client, and it leaves the
    queues of the other clients and the responses of the driver alone.  The one
    exception is a turn in which the client names stream 16, which the bound
    check lets through: the array of owners is then accessed past its end, and
    nothing is said of what follows. *)
Theorem sound_client_isolated (stack : sound_cmd) (i : nat) (v : sound_virt) :
  sv_wf v -> (i < 2)%nat -> pending_typed (view v) -> 0 <= sv_data_region_paddr v ->
  sv_data_region_paddr v + SOUND_PCM_BUFFER_SIZE * SOUND_PCM_QUEUE_CAPACITY <= 2 ^ 64 ->
  (exists v', notified stack (CLIENT_CH_BEGIN + Z.of_nat i) v = Ok (tt, v') /\ turn_safe i (view v) (view v')) \/
  (notified stack (CLIENT_CH_BEGIN + Z.of_nat i) v = Fault OutOfBounds /\
   (Exists (fun c => sc_stream_id c = MAX_STREAMS) (creq i v) \/ Exists (fun p => sp_stream_id p = MAX_STREAMS) (preq i v))).
Proof.
  intros Hwf Hi Hty Hp Htop. assert (i < length (as_cli (view v)))%nat as Hi' by (by rewrite view_clients).
  pose proof (client_typed_at _ i Hty Hi') as Hct. destruct Hct as [Hcq Hpq].
  assert (Forall (fun p => 0 <= sp_stream_id p) (preq i v)) as Hpq' by (eapply Forall_impl; [exact Hpq|]; by intros ? []).
  unfold notified.
  rewrite (proj2 (Z.eqb_neq _ _)) by (unfold CLIENT_CH_BEGIN, DRIVER_CH; lia).
  rewrite (proj2 (Z.leb_le _ _)), (proj2 (Z.ltb_lt _ _)) by (unfold CLIENT_CH_BEGIN, NUM_CLIENTS; lia). cbn [andb].
  replace (s32 (CLIENT_CH_BEGIN + Z.of_nat i - CLIENT_CH_BEGIN)) with (Z.of_nat i).
  2:{ unfold s32. rewrite Z.mod_small by lia. rewrite (proj2 (Z.ltb_lt _ _)) by lia. lia. }
  destruct (spec_notified_by_client i (view v)) as [a|] eqn:Ea; [left|right].
  - apply wp_result. wp_step. eapply notified_by_client_spec; [done..|]. intros r v' Hv' E. wp_step. rewrite E.
    eapply spec_notified_by_client_safe; [|done..]. cbn. rewrite length_fmap. apply Hwf.
  - split; [by apply bind_fault, notified_by_client_16|]. by apply spec_notified_by_client_none.
Qed.

(** A stale byte in the local variable makes an accepted take look failed: the
    stream is freed although the client was told that it has it. *)
Theorem sound_take_freed_by_stale_byte (a : snd_sys) (n : list bool) (cmd : sound_cmd) (i : nat) :
  length (as_owners a) = 16%nat -> 0 <= sc_stream_id cmd < MAX_STREAMS -> owns a i (sc_stream_id cmd) ->
  sc_code cmd = SOUND_CMD_TAKE -> sc_status cmd = SOUND_S_OK ->
  as_owners (spec_driver_cmd true cmd (a, n)).2.1 !!! Z.to_nat (sc_stream_id cmd) = None /\
  owns (spec_driver_cmd false cmd (a, n)).2.1 i (sc_stream_id cmd).
Proof.
  unfold MAX_STREAMS, owns. intros Hl Hs Ho Hc Hst. unfold spec_driver_cmd, MAX_STREAMS.
  rewrite (proj2 (Z.ltb_ge _ _)), Ho, Hc, Hst by lia. cbn. split; [|done]. apply list_lookup_total_insert_eq. lia.
Qed.

(** *** A system with two clients *)

Definition snd_ring_ex {A} (x : A) (n : nat) (l : list A) : ring A :=
  mk_ring (Z.of_nat (length l)) 0 (l ++ replicate (n - length l) x).

Definition snd_queues_ex (cr cs : list sound_cmd) (pr ps : list sound_pcm) : sound_queues :=
  mk_sound_queues (mk_sound_handle (snd_ring_ex inhabitant 64 cr) 64) (mk_sound_handle (snd_ring_ex inhabitant 64 cs) 64)
    (mk_sound_handle (snd_ring_ex inhabitant 256 pr) 256) (mk_sound_handle (snd_ring_ex inhabitant 256 ps) 256).

Definition sound_virt_ex : sound_virt :=
  mk_sound_virt 1048576 8388608
    [snd_queues_ex [mk_sound_cmd SOUND_CMD_TAKE 7 3 197121; mk_sound_cmd SOUND_CMD_START 8 4 0; mk_sound_cmd SOUND_CMD_START 9 5 0;
                    mk_sound_cmd SOUND_CMD_START 9 17 0] []
       [mk_sound_pcm 1 3 4096 4096 0 0; mk_sound_pcm 2 3 100 4096 0 0; mk_sound_pcm 3 5 0 4096 0 0] [];
     snd_queues_ex [] [] [] []]
    (snd_queues_ex [] [] [] [])
    (<[5%nat := 1]> (replicate 16 NO_OWNER)) [].

Lemma snd_ring_ex_wf {A} `{Inhabited A} (cap : nat) (l : list A) :
  (0 < cap)%nat -> Z.of_nat cap < 2 ^ 32 -> (Z.of_nat cap | 2 ^ 32) -> (length l <= cap)%nat ->
  sh_wf (Z.of_nat cap) (mk_sound_handle (snd_ring_ex inhabitant cap l) (Z.of_nat cap)).
Proof.
  intros Hc Hlt Hdiv Hl. split; [|done]. unfold lens_wf, snd_ring_ex. cbn.
  assert (ring_len (2 ^ 32) 0 (Z.of_nat (length l)) = Z.of_nat (length l)) as E
    by (unfold ring_len; rewrite Z.mod_small; lia).
  rewrite E. split; [|lia]. split; try lia; try done.
  rewrite length_app, length_replicate. lia.
Qed.

Lemma snd_queues_ex_wf cr cs pr ps :
  (length cr <= 64)%nat -> (length cs <= 64)%nat -> (length pr <= 256)%nat -> (length ps <= 256)%nat ->
  sq_wf (snd_queues_ex cr cs pr ps).
Proof.
  intros. split; unfold snd_queues_ex; cbn [sq_cmd_req sq_cmd_res sq_pcm_req sq_pcm_res];
    [apply (snd_ring_ex_wf 64)|apply (snd_ring_ex_wf 64)|apply (snd_ring_ex_wf 256)|apply (snd_ring_ex_wf 256)];
    try done; try lia; by apply Z.mod_divide.
Qed.

Lemma sound_virt_ex_wf : sv_wf sound_virt_ex.
Proof.
  split; cbn [sv_clients sv_driver_queues sv_owners sound_virt_ex]; try done.
  - repeat apply Forall_cons_2; try apply Forall_nil_2; apply snd_queues_ex_wf; cbn; lia.
  - apply snd_queues_ex_wf; cbn; lia.
  - apply Forall_insert; [apply Forall_replicate|]; unfold NO_OWNER, NUM_CLIENTS; lia.
Qed.

Lemma sound_virt_ex_typed : pending_typed (view sound_virt_ex).
Proof.
  assert (as_cli (view sound_virt_ex) = [mk_snd_q
     [mk_sound_cmd SOUND_CMD_TAKE 7 3 197121; mk_sound_cmd SOUND_CMD_START 8 4 0; mk_sound_cmd SOUND_CMD_START 9 5 0;
      mk_sound_cmd SOUND_CMD_START 9 17 0] []
     [mk_sound_pcm 1 3 4096 4096 0 0; mk_sound_pcm 2 3 100 4096 0 0; mk_sound_pcm 3 5 0 4096 0 0] [];
     mk_snd_q [] [] [] []] /\ as_drv (view sound_virt_ex) = mk_snd_q [] [] [] []) as [E1 E2] by by vm_compute.
  unfold pending_typed, client_typed. rewrite E1, E2.
  split_and!; repeat apply Forall_cons_2; try apply Forall_nil_2; cbn; split;
    repeat apply Forall_cons_2; try apply Forall_nil_2; cbn; lia.
Qed.

Lemma sound_virt_refines_witness :
  exists v', notified (mk_sound_cmd 0 0 0 0) 1 sound_virt_ex = Ok (tt, v') /\
    Some (view v') = spec_notified false 1 (view sound_virt_ex) /\
    aq_creq (as_drv (view v')) = [mk_sound_cmd SOUND_CMD_TAKE 7 3 197121] /\
    aq_preq (as_drv (view v')) = [mk_sound_pcm 1 3 1052672 4096 0 0] /\
    aq_cres (as_cli (view v') !!! 0%nat) = [mk_sound_cmd SOUND_CMD_START 8 4 SOUND_S_BAD_MSG;
      mk_sound_cmd SOUND_CMD_START 9 5 SOUND_S_BUSY; mk_sound_cmd SOUND_CMD_START 9 17 SOUND_S_BAD_MSG].
Proof.
  pose proof (sound_virt_refines (mk_sound_cmd 0 0 0 0) 1 sound_virt_ex sound_virt_ex_wf sound_virt_ex_typed ltac:(lia)) as H.
  assert (dirty (mk_sound_cmd 0 0 0 0) = false) as Ed by reflexivity. rewrite Ed in H.
  eassert (spec_notified false 1 (view sound_virt_ex) = Some _) as Ea by (vm_compute; reflexivity).
  rewrite Ea in H. destruct H as (v' & E & _ & Ev). exists v'. split; [exact E|]. rewrite Ea, Ev. split; [reflexivity|].
  clear. by vm_compute.
Defined.

Lemma sound_client_isolated_witness :
  exists v', notified (mk_sound_cmd 0 0 0 0) (CLIENT_CH_BEGIN + Z.of_nat 0) sound_virt_ex = Ok (tt, v')
    /\ turn_safe 0 (view sound_virt_ex) (view v').
Proof.
  destruct (sound_client_isolated (mk_sound_cmd 0 0 0 0) 0 sound_virt_ex sound_virt_ex_wf) as [H|[E _]];
    [lia|exact sound_virt_ex_typed|done|by vm_compute|exact H|].
  vm_compute in E. discriminate E.
Defined.

(** A client that names stream 16. *)
Example sound_stream_16_faults :
  notified (mk_sound_cmd 0 0 0 0) 2
    (set_sv_clients [snd_queues_ex [] [] [] []; snd_queues_ex [mk_sound_cmd SOUND_CMD_TAKE 7 16 0] [] [] []] sound_virt_ex)
  = Fault OutOfBounds.
Proof. by vm_compute. Qed.
