(* ===== verification/NetSignal.v ===== *)
(** * Signalling between producer and consumer of a network queue

    The consumer of a ring (here the loop of [rx_return] in
    network/components/copy.c) and its producer (the loop of [rx_return] in
    network/components/virt_rx.c) run in different protection domains.  Their
    only synchronisation is the flag [consumer_signalled] of the ring and the
    notification.  The model interleaves their accesses to the shared ring one
    by one, each an operation of include/sddf/network/queue.h, in a
    sequentially consistent memory. *)

From stdpp Require Import relations.
From S2P Require Import Prelude Ring Fifo NetQueue.
#[local] Open Scope Z_scope.

(** Where the producer is: nothing to do; entries enqueued since the last look
    at the flag; flag found clear, about to cancel it; about to notify. *)
Inductive prod_pc : Type := P_idle | P_wrote | P_cancel | P_notify.

(** Where the consumer is: blocked until a notification; draining; signal
    requested, about to look at the queue once more. *)
Inductive cons_pc : Type := C_asleep | C_drain | C_recheck.

Record sig_state : Type := mk_sig {
  sg_queue : net_queue_handle;
  sg_prod : prod_pc;
  sg_cons : cons_pc;
  sg_pending : bool;            (* a notification not yet delivered *)
  sg_sent : list net_buff_desc; (* everything ever enqueued *)
  sg_got : list net_buff_desc;  (* everything ever dequeued *)
}.

Section protocol.
Context (sd : side).
Implicit Types s : sig_state.

(** The producer enqueues while there is room. *)
Inductive enq_step : sig_state -> sig_state -> Prop :=
| step_enqueue q p c n sent got b q' :
  p = P_idle \/ p = P_wrote ->
  Z.of_nat (length (net_items sd q)) < nh_capacity q ->
  net_enqueue sd b q = Ok (0, q') ->
  enq_step (mk_sig q p c n sent got) (mk_sig q' P_wrote c n (sent ++ [b]) got).

(** [if (... net_require_signal) { net_cancel_signal; notify }]. *)
Inductive prod_step : sig_state -> sig_state -> Prop :=
| step_required q c n sent got :
  net_require_signal sd q = true ->
  prod_step (mk_sig q P_wrote c n sent got) (mk_sig q P_cancel c n sent got)
| step_not_required q c n sent got :
  net_require_signal sd q = false ->
  prod_step (mk_sig q P_wrote c n sent got) (mk_sig q P_idle c n sent got)
| step_cancel q c n sent got :
  prod_step (mk_sig q P_cancel c n sent got) (mk_sig (net_set_signalled sd 1 q) P_notify c n sent got)
| step_notify q c n sent got :
  prod_step (mk_sig q P_notify c n sent got) (mk_sig q P_idle c true sent got).

(** [while (reprocess) { while (!empty) dequeue; net_request_signal;
    reprocess = false; if (!empty) { net_cancel_signal; reprocess = true } }],
    run once per notification. *)
Inductive cons_step : sig_state -> sig_state -> Prop :=
| step_wake q p sent got :
  cons_step (mk_sig q p C_asleep true sent got) (mk_sig q p C_drain false sent got)
| step_dequeue q p n sent got b q' :
  net_queue_empty sd q = false ->
  net_dequeue sd q = Ok (Some b, q') ->
  cons_step (mk_sig q p C_drain n sent got) (mk_sig q' p C_drain n sent (got ++ [b]))
| step_request q p n sent got :
  net_queue_empty sd q = true ->
  cons_step (mk_sig q p C_drain n sent got) (mk_sig (net_set_signalled sd 0 q) p C_recheck n sent got)
| step_reprocess q p n sent got :
  net_queue_empty sd q = false ->
  cons_step (mk_sig q p C_recheck n sent got) (mk_sig (net_set_signalled sd 1 q) p C_drain n sent got)
| step_sleep q p n sent got :
  net_queue_empty sd q = true ->
  cons_step (mk_sig q p C_recheck n sent got) (mk_sig q p C_asleep n sent got).

(** Everything but new entries. *)
Definition quiet_step s s' : Prop := prod_step s s' \/ cons_step s s'.
Definition sig_step s s' : Prop := enq_step s s' \/ quiet_step s s'.

Definition sig_init s : Prop :=
  net_wf sd (sg_queue s) /\ net_items sd (sg_queue s) = [] /\ net_require_signal sd (sg_queue s) = true /\
  sg_prod s = P_idle /\ sg_cons s = C_asleep /\ sg_pending s = false /\ sg_sent s = [] /\ sg_got s = [].

(** A notification is on its way. *)
Definition coming s : Prop := sg_pending s = true \/ sg_prod s = P_notify.

Record sig_inv s : Prop := {
  si_wf : net_wf sd (sg_queue s);
  si_fifo : sg_got s ++ net_items sd (sg_queue s) = sg_sent s;
  (** no lost wake-up: a blocked consumer with work will be notified *)
  si_work : sg_cons s = C_asleep -> net_items sd (sg_queue s) <> [] ->
            coming s \/ sg_prod s = P_cancel \/ sg_prod s = P_wrote /\ net_require_signal sd (sg_queue s) = true;
  (** a flag that suppresses notifications is not left behind *)
  si_flag : sg_cons s <> C_drain -> net_require_signal sd (sg_queue s) = false -> coming s;
}.

Lemma require_set b q : net_require_signal sd (net_set_signalled sd b q) = (b =? 0).
Proof. unfold net_require_signal, net_set_signalled. by rewrite nh_ring_set. Qed.

(** Enqueue and dequeue leave the flag alone. *)
Lemma enqueue_result q b q' :
  net_wf sd q -> Z.of_nat (length (net_items sd q)) < nh_capacity q -> net_enqueue sd b q = Ok (0, q') ->
  net_wf sd q' /\ net_items sd q' = net_items sd q ++ [b] /\ net_require_signal sd q' = net_require_signal sd q.
Proof.
  intros Hwf Hroom E. pose proof (fifo_enq_room (O := net_fifo_ops sd) q b Hwf Hroom) as H. cbn in H.
  unfold wp in H. rewrite E in H. destruct H as (_ & ? & ? & _ & Hrest). unfold net_rest in Hrest.
  injection Hrest as _ Hf. unfold net_require_signal. by rewrite Hf.
Qed.

Lemma dequeue_result q b q' :
  net_wf sd q -> net_dequeue sd q = Ok (Some b, q') ->
  net_wf sd q' /\ net_items sd q = b :: net_items sd q' /\ net_require_signal sd q' = net_require_signal sd q.
Proof.
  intros Hwf E. destruct (net_items sd q) as [|x l] eqn:Hi.
  { pose proof (fifo_deq_nil (O := net_fifo_ops sd) q Hwf Hi) as H. cbn in H. congruence. }
  pose proof (fifo_deq_cons (O := net_fifo_ops sd) q x l Hwf Hi) as H. cbn in H.
  unfold wp in H. rewrite E in H. destruct H as ([= <-] & ? & <- & _ & Hrest). unfold net_rest in Hrest.
  injection Hrest as _ Hf. unfold net_require_signal. by rewrite Hf.
Qed.

Lemma sig_init_inv s : sig_init s -> sig_inv s.
Proof.
  intros (Hwf & Hi & Hr & Hp & Hc & Hn & Hs & Hg). split; [done|by rewrite Hg, Hi, Hs|by rewrite Hi|by rewrite Hr].
Qed.

Lemma sig_step_inv s s' : sig_inv s -> sig_step s s' -> sig_inv s'.
Proof.
  intros [Hwf Hf Hw Hfl] [Hs|[Hs|Hs]]; inversion Hs; subst; unfold coming in *; cbn in *.
  - destruct (enqueue_result q b q') as (? & Ei & Er); [done..|]. split; unfold coming; cbn; rewrite ?Ei, ?Er; [done| | |].
    + rewrite app_assoc. congruence.
    + intros Hc _. destruct (net_require_signal sd q); [by right; right|]. left. left.
      destruct Hfl as [?|?]; [congruence|done|done|]. by destruct H as [->| ->].
    + intros Hc Hr. destruct (Hfl Hc Hr) as [?| ->]; [by left|]. by destruct H.
  - split; unfold coming; cbn; [done|done|tauto|]. intros Hc Hr. congruence.
  - split; unfold coming; cbn; [done|done| |].
    + intros Hc Hi. destruct (Hfl ltac:(congruence) H) as [?|?]; [by left; left|done].
    + intros Hc Hr. destruct (Hfl Hc Hr) as [?|?]; [by left|done].
  - split; unfold coming; cbn; [by apply net_set_signalled_wf| | |]; rewrite ?net_set_signalled_items; tauto.
  - split; unfold coming; cbn; tauto.
  - split; unfold coming; cbn; done.
  - destruct (dequeue_result q b q') as (? & Ei & Er); [done..|]. split; unfold coming; cbn; try done.
    rewrite <- app_assoc. cbn. by rewrite <- Ei.
  - split; unfold coming; cbn; [by apply net_set_signalled_wf|by rewrite net_set_signalled_items|done|by rewrite require_set].
  - split; unfold coming; cbn; [by apply net_set_signalled_wf|by rewrite net_set_signalled_items|done|done].
  - split; unfold coming; cbn; [done|done| |].
    + intros _ Hi. by apply net_empty_spec in H.
    + intros _ Hr. by apply Hfl.
Qed.

Lemma sig_reachable_inv s0 s : sig_init s0 -> rtc sig_step s0 s -> sig_inv s.
Proof.
  intros Hi%sig_init_inv Hr. revert Hi. induction Hr; intros Hi; [done|]. eauto using sig_step_inv.
Qed.

(** ** Progress

    Every quiet step lowers a measure, whoever takes it, and the protocol can
    only come to rest with an empty queue and a blocked consumer. *)

Definition prod_rank (p : prod_pc) : nat :=
  match p with P_idle => 0 | P_notify => 4 | P_cancel => 5 | P_wrote => 6 end.

Definition cons_rank (c : cons_pc) (empty : bool) : nat :=
  match c with C_asleep => 0 | C_drain => 2 | C_recheck => if empty then 1 else 3 end.

Definition sig_measure s : nat :=
  4 * length (net_items sd (sg_queue s)) + prod_rank (sg_prod s)
  + cons_rank (sg_cons s) (bool_decide (net_items sd (sg_queue s) = [])) + (if sg_pending s then 3 else 0).

Lemma quiet_step_measure s s' : sig_inv s -> quiet_step s s' -> (sig_measure s' < sig_measure s)%nat.
Proof.
  intros Hinv Hs. pose proof (si_wf _ Hinv) as Hwf. unfold sig_measure.
  destruct Hs as [Hs|Hs]; inversion Hs; subst; cbn in *; rewrite ?net_set_signalled_items; try (destruct n; lia); try lia.
  - destruct (dequeue_result q b q' Hwf) as (_ & -> & _); [done|]. cbn [length]. lia.
  - apply net_empty_spec in H; [|done]. rewrite bool_decide_true by done. lia.
  - rewrite bool_decide_false; [lia|]. intros Hi. by rewrite net_empty_nil in H.
  - destruct (bool_decide _), n; lia.
Qed.

(** At rest: no quiet step is possible. *)
Definition at_rest s : Prop := forall s', ~ quiet_step s s'.

Lemma dequeue_possible q :
  net_wf sd q -> net_queue_empty sd q = false -> exists b q', net_dequeue sd q = Ok (Some b, q').
Proof.
  intros Hwf He. destruct (net_items sd q) as [|x l] eqn:Hi; [by rewrite net_empty_nil in He|].
  pose proof (fifo_deq_cons (O := net_fifo_ops sd) q x l Hwf Hi) as H. cbn in H.
  apply wp_elim in H as (r & q' & E & -> & _). by exists x, q'.
Qed.

Lemma at_rest_done s :
  sig_inv s -> at_rest s ->
  sg_cons s = C_asleep /\ net_items sd (sg_queue s) = [] /\ sg_got s = sg_sent s /\
  net_require_signal sd (sg_queue s) = true.
Proof.
  intros [Hwf Hf Hw Hfl] Hrest. destruct s as [q p c n sent got]. cbn in *.
  assert (p = P_idle) as ->.
  { destruct p; [done|..]; exfalso.
    - destruct (net_require_signal sd q) eqn:E; eapply Hrest; left; [by apply step_required|by apply step_not_required].
    - eapply Hrest. left. apply step_cancel.
    - eapply Hrest. left. apply step_notify. }
  assert (c = C_asleep) as ->.
  { destruct c; [done|..]; exfalso; destruct (net_queue_empty sd q) eqn:E.
    - eapply Hrest. right. by apply step_request.
    - destruct (dequeue_possible q Hwf E) as (b & q' & ?). eapply Hrest. right. by eapply step_dequeue.
    - eapply Hrest. right. by apply step_sleep.
    - eapply Hrest. right. by apply step_reprocess. }
  assert (n = false) as -> by (destruct n; [exfalso; eapply Hrest; right; apply step_wake|done]).
  unfold coming in *. cbn in *.
  assert (net_items sd q = []) as Hi.
  { destruct (net_items sd q); [done|]. exfalso. destruct Hw as [[?|?]|[?|[? _]]]; done. }
  split_and!; [done|done|by rewrite <- Hf, Hi, app_nil_r|].
  destruct (net_require_signal sd q); [done|]. by destruct Hfl.
Qed.

End protocol.

(** C16. No entry is ever left behind.  From any state that producer and
    consumer can reach, in any interleaving, everything enqueued has been
    dequeued in order or is still in the ring; if the producer pauses, no
    scheduling can take more than [sig_measure] further steps; and when no step
    is left the consumer has dequeued everything, is blocked, and has asked to
    be notified again. *)
Theorem net_signal_no_lost_wakeup (sd : side) (s0 s : sig_state) :
  sig_init sd s0 -> rtc (sig_step sd) s0 s ->
  sg_got s ++ net_items sd (sg_queue s) = sg_sent s /\
  (forall n s', nsteps (quiet_step sd) n s s' -> (n <= sig_measure sd s)%nat) /\
  (forall s', rtc (quiet_step sd) s s' -> at_rest sd s' ->
     sg_got s' = sg_sent s /\ sg_cons s' = C_asleep /\ net_items sd (sg_queue s') = [] /\
     net_require_signal sd (sg_queue s') = true).
Proof.
  intros Hinit Hreach. pose proof (sig_reachable_inv sd s0 s Hinit Hreach) as Hinv. split_and!.
  - apply Hinv.
  - intros n s' Hn. clear Hinit Hreach s0. induction Hn as [|n s s1 s' Hs _ IH]; [lia|].
    pose proof (quiet_step_measure sd s s1 Hinv Hs). assert (sig_inv sd s1) by (eapply sig_step_inv; [done|by right]).
    specialize (IH ltac:(done)). lia.
  - intros s' Hr Hrest.
    assert (sig_inv sd s' /\ sg_sent s' = sg_sent s) as [Hinv' Hsent].
    { clear Hinit Hreach Hrest s0. induction Hr as [|s s1 s' Hs _ IH]; [done|].
      assert (sig_inv sd s1) as H1 by (eapply sig_step_inv; [done|by right]). destruct (IH H1) as [? ->].
      split; [done|]. by destruct Hs as [Hs|Hs]; inversion Hs. }
    destruct (at_rest_done sd s' Hinv' Hrest) as (? & ? & ? & ?). by rewrite <- Hsent.
Qed.

(** The producer enqueues two entries while the consumer goes to sleep. *)
Definition sig_handle_ex (l : list net_buff_desc) (t h f : Z) : net_queue_handle :=
  mk_net_handle (mk_net_queue 0 0 0 (replicate 2 (mk_buff 0 0))) (mk_net_queue t h f l) 2.

Definition sig_start_ex : sig_state := mk_sig (sig_handle_ex (replicate 2 (mk_buff 0 0)) 65535 65535 0) P_idle C_asleep false [] [].
Definition sig_wrote_ex : sig_state :=
  mk_sig (sig_handle_ex [mk_buff 0 0; mk_buff 2048 60] 0 65535 0) P_wrote C_asleep false [mk_buff 2048 60] [].

Lemma sig_start_ex_wf : net_wf Active (sg_queue sig_start_ex).
Proof. split; cbn; try lia; [by exists 32768|by vm_compute]. Qed.

Lemma net_signal_no_lost_wakeup_witness :
  rtc (sig_step Active) sig_start_ex sig_wrote_ex /\
  (forall n s', nsteps (quiet_step Active) n sig_wrote_ex s' -> (n <= 10)%nat) /\
  forall s', rtc (quiet_step Active) sig_wrote_ex s' -> at_rest Active s' -> sg_got s' = [mk_buff 2048 60].
Proof.
  assert (rtc (sig_step Active) sig_start_ex sig_wrote_ex) as Hr.
  { apply rtc_once. left. 
    exact (step_enqueue Active (sg_queue sig_start_ex) P_idle C_asleep false [] [] (mk_buff 2048 60)
      (sg_queue sig_wrote_ex) (or_introl eq_refl) eq_refl eq_refl). }
  destruct (net_signal_no_lost_wakeup Active sig_start_ex sig_wrote_ex) as (_ & Hn & Hrest).
  - split_and!; [apply sig_start_ex_wf|by vm_compute..].
  - exact Hr.
  - split_and!; [exact Hr|exact Hn|]. intros s' Hs Ha. by apply Hrest.
Defined.
