(* ===== verification/Udivmod.v ===== *)
(** * Division of 128 bits by 64: include/sddf/util/udivmodti4.h

    [udiv128by64to64default] is Knuth's algorithm D with two 32-bit digits, on
    64-bit words that wrap around. *)

From S2P Require Import Prelude.

(** [__builtin_clzll], which the compiler leaves undefined at 0. *)
Definition clz64 (v : Z) : res Z := if v =? 0 then Fault DivByZero else Ok (63 - Z.log2 v).

(** The number base, [1ULL << 32]. *)
Definition udiv_b : Z := Z.shiftl 1 32.

(** [while (q >= b || q * vn0 > b * rhat + un) { q--; rhat += vn1;
    if (rhat >= b) break; }], for at most [n] iterations. *)
Fixpoint udiv_adjust (n : nat) (q rhat vn1 vn0 un : Z) : res Z :=
  if (udiv_b <=? q) || (u64 (u64 (udiv_b * rhat) + un) <? u64 (q * vn0)) then
    match n with
    | O => Fault OutOfFuel
    | S n' =>
      let q := u64 (q - 1) in
      let rhat := u64 (rhat + vn1) in
      if udiv_b <=? rhat then Ok q else udiv_adjust n' q rhat vn1 vn0 un
    end
  else Ok q.

(** One quotient digit and the remainder after it. *)
Definition udiv_digit (un64 un v vn1 vn0 : Z) : res (Z * Z) :=
  q ← udiv un64 vn1;
  let rhat := u64 (un64 - u64 (q * vn1)) in
  q ← udiv_adjust 2 q rhat vn1 vn0 un;
  mret (q, u64 (u64 (u64 (un64 * udiv_b) + un) - u64 (q * v))).

(** The result is the quotient and what is written to [*r]. *)
Definition udiv128by64to64default (u1 u0 v : Z) : res (Z * Z) :=
  s ← clz64 v;
  let '(v, un64, un10) :=
    if 0 <? s then (u64 (Z.shiftl v s), Z.lor (u64 (Z.shiftl u1 s)) (Z.shiftr u0 (64 - s)), u64 (Z.shiftl u0 s))
    else (v, u1, u0) in
  let vn1 := Z.shiftr v 32 in
  let vn0 := Z.land v 4294967295 in
  let un1 := Z.shiftr un10 32 in
  let un0 := Z.land un10 4294967295 in
  d1 ← udiv_digit un64 un1 v vn1 vn0;
  d0 ← udiv_digit (d1 : Z * Z).2 un0 v vn1 vn0;
  mret (u64 (u64 (d1.1 * udiv_b) + d0.1), Z.shiftr (d0 : Z * Z).2 s).

Definition udiv128by64to64 (u1 u0 v : Z) : res (Z * Z) := udiv128by64to64default u1 u0 v.

(** ** A quotient digit *)

Section digit.
(** A normalised divisor of two digits and a dividend whose quotient is one
    digit. *)
Context (v vn1 vn0 un64 un : Z).
Context (Hv : v = vn1 * 2 ^ 32 + vn0) (Hvn1 : 2 ^ 31 <= vn1 < 2 ^ 32) (Hvn0 : 0 <= vn0 < 2 ^ 32).
Context (Hun64 : 0 <= un64 < v) (Hun : 0 <= un < 2 ^ 32).

#[local] Abbreviation Q := ((un64 * 2 ^ 32 + un) / v).

Lemma digit_true_range : 0 <= Q < 2 ^ 32.
Proof using All. split; [apply Z.div_pos; nia|apply Z.div_lt_upper_bound; nia]. Qed.

Lemma digit_le (q : Z) : q * v <= un64 * 2 ^ 32 + un -> q <= Q.
Proof using All. intros. apply Z.div_le_lower_bound; nia. Qed.

Lemma digit_gt (q : Z) : un64 * 2 ^ 32 + un < q * v -> Q < q.
Proof using All. intros. apply Z.div_lt_upper_bound; nia. Qed.

(** What holds at the loop test: [k] iterations are left at most. *)
Record adjusting (k : nat) (q rhat : Z) : Prop := {
  ad_split : q * vn1 + rhat = un64;
  ad_above : Q <= q;
  ad_bound : q <= 2 ^ 32 + 1 /\ (k = 1%nat -> q <= 2 ^ 32);
  ad_rhat : 0 <= rhat < 2 ^ 32;
  ad_left : (k = 1%nat -> 2 ^ 31 <= rhat) /\ (1 <= k <= 2)%nat;
}.

(** The products of the test do not wrap. *)
Lemma adjust_test k q rhat : adjusting k q rhat ->
  (udiv_b <=? q) || (u64 (u64 (udiv_b * rhat) + un) <? u64 (q * vn0))
  = bool_decide (2 ^ 32 <= q \/ 2 ^ 32 * rhat + un < q * vn0).
Proof using All.
  intros [Hs Ha [Hb _] Hr _]. change udiv_b with (2 ^ 32). pose proof digit_true_range.
  assert (0 <= q * vn0 < 2 ^ 64) by nia.
  rewrite (u64_small (2 ^ 32 * rhat)) by (unfold is_u64; lia).
  rewrite !u64_small by (unfold is_u64; lia).
  apply eq_true_iff_eq. rewrite orb_true_iff, Z.leb_le, Z.ltb_lt, bool_decide_eq_true. done.
Qed.

(** A passed test means that the digit is too large. *)
Lemma adjust_too_large k q rhat : adjusting k q rhat ->
  2 ^ 32 <= q \/ 2 ^ 32 * rhat + un < q * vn0 -> Q < q.
Proof using All.
  intros [Hs Ha Hb Hr _] [H|H]; [pose proof digit_true_range; lia|]. apply digit_gt. nia.
Qed.

(** A failed one that it is right. *)
Lemma adjust_exact k q rhat : adjusting k q rhat ->
  ~ (2 ^ 32 <= q \/ 2 ^ 32 * rhat + un < q * vn0) -> q = Q.
Proof using All. intros [Hs Ha Hb Hr _] H. assert (q <= Q) by (apply digit_le; nia). lia. Qed.

(** So is a digit reached by the [break]. *)
Lemma adjust_break q rhat : q * vn1 + rhat = un64 -> Q <= q -> q <= 2 ^ 32 -> 2 ^ 32 <= rhat -> q = Q.
Proof using All. intros Hs Ha Hb Hr. pose proof digit_true_range. assert (q <= Q) by (apply digit_le; nia). lia. Qed.

Lemma udiv_adjust_spec k q rhat : adjusting k q rhat -> udiv_adjust k q rhat vn1 vn0 un = Ok Q.
Proof using All.
  revert q rhat. induction k as [|k IH]; intros q rhat Hi; [by destruct Hi as [_ _ _ _ [_ ?]]; lia|].
  cbn [udiv_adjust]. rewrite (adjust_test (S k)) by done. case_bool_decide as Ht; [|f_equal; by eapply adjust_exact].
  pose proof (adjust_too_large _ _ _ Hi Ht) as Hlt. destruct Hi as [Hs Ha [Hb Hb1] Hr [Hk1 Hk]].
  pose proof digit_true_range.
  rewrite (u64_small (q - 1)) by (unfold is_u64; lia). rewrite (u64_small (rhat + vn1)) by (unfold is_u64; lia).
  change udiv_b with (2 ^ 32). destruct (Z.leb_spec (2 ^ 32) (rhat + vn1)) as [Hbr|Hbr].
  - f_equal. apply (adjust_break (q - 1) (rhat + vn1)); lia.
  - destruct k as [|k]; [specialize (Hk1 eq_refl); lia|]. assert (k = 0%nat) as -> by lia.
    apply IH. split; lia.
Qed.

Lemma udiv_digit_spec :
  udiv_digit un64 un v vn1 vn0 = Ok (Q, (un64 * 2 ^ 32 + un) mod v).
Proof using All.
  unfold udiv_digit. rewrite udiv_ok by lia. unfold mbind, res_bind.
  pose proof (Z.div_mod un64 vn1 ltac:(lia)) as Hd. pose proof (Z.mod_pos_bound un64 vn1 ltac:(lia)).
  assert (0 <= un64 / vn1) by (apply Z.div_pos; lia).
  assert (un64 / vn1 <= 2 ^ 32 + 1) as Hq by (apply Z.lt_succ_r, Z.div_lt_upper_bound; nia).
  rewrite (u64_small (un64 / vn1 * vn1)) by (unfold is_u64; nia).
  rewrite u64_small by (unfold is_u64; nia).
  rewrite (udiv_adjust_spec 2).
  - f_equal. f_equal. rewrite Z.mod_eq by lia. change udiv_b with (2 ^ 32).
    pose proof (Z.mod_pos_bound (un64 * 2 ^ 32 + un) v ltac:(lia)) as Hm. rewrite Z.mod_eq in Hm by lia.
    rewrite (Z.mul_comm _ v). unfold u64.
    rewrite Zplus_mod_idemp_l, <- Zminus_mod. apply Z.mod_small. nia.
  - split; [nia| |split; [lia|done]|lia|split; [done|lia]].
    apply Z.lt_succ_r. apply digit_gt. nia.
Qed.

End digit.

(** ** The division *)

Lemma clz64_spec v : 0 < v < 2 ^ 64 ->
  exists s, clz64 v = Ok s /\ 0 <= s <= 63 /\ 2 ^ 63 <= v * 2 ^ s < 2 ^ 64.
Proof.
  intros Hv. unfold clz64. rewrite (proj2 (Z.eqb_neq _ _)) by lia. exists (63 - Z.log2 v). split; [done|].
  pose proof (Z.log2_nonneg v). assert (Z.log2 v < 64) by (apply Z.log2_lt_pow2; lia). split; [lia|].
  pose proof (Z.log2_spec v ltac:(lia)) as [Hl Hu]. rewrite Z.pow_succ_r in Hu by lia.
  assert (2 ^ Z.log2 v * 2 ^ (63 - Z.log2 v) = 2 ^ 63) by (rewrite <- Z.pow_add_r by lia; f_equal; lia).
  assert (0 < 2 ^ (63 - Z.log2 v)) by (apply Z.pow_pos_nonneg; lia). nia.
Qed.

(** Shifting a two-word number left across the words. *)
Lemma shift_words u1 u0 s :
  0 < s <= 63 -> is_u64 u0 -> 0 <= u1 -> u1 * 2 ^ s < 2 ^ 64 ->
  Z.lor (u64 (Z.shiftl u1 s)) (Z.shiftr u0 (64 - s)) = u1 * 2 ^ s + u0 / 2 ^ (64 - s) /\
  u64 (Z.shiftl u0 s) = u0 * 2 ^ s - u0 / 2 ^ (64 - s) * 2 ^ 64.
Proof.
  intros Hs [H0 H0'] H1 Hlt. rewrite !Z.shiftl_mul_pow2, Z.shiftr_div_pow2 by lia.
  assert (2 ^ 64 = 2 ^ s * 2 ^ (64 - s)) as E by (rewrite <- Z.pow_add_r by lia; f_equal; lia).
  assert (0 < 2 ^ s) by (apply Z.pow_pos_nonneg; lia). assert (0 < 2 ^ (64 - s)) by (apply Z.pow_pos_nonneg; lia).
  assert (0 <= u0 / 2 ^ (64 - s) < 2 ^ s) as Hd by (split; [apply Z.div_pos; lia|apply Z.div_lt_upper_bound; lia]).
  split.
  - rewrite u64_small by (unfold is_u64; nia). rewrite <- Z.lxor_lor, <- Z.add_nocarry_lxor; [done|..];
      (apply Z.bits_inj'; intros k Hk; rewrite Z.land_spec, Z.bits_0; destruct (Z.lt_ge_cases k s);
       [by rewrite Z.mul_pow2_bits_low
       |rewrite (Z.bits_above_log2 (u0 / 2 ^ (64 - s))), andb_false_r; [done|lia|];
        destruct (decide (u0 / 2 ^ (64 - s) = 0)) as [->|]; [cbn; lia|apply Z.log2_lt_pow2; [lia|];
        apply Z.lt_le_trans with (2 ^ s); [lia|apply Z.pow_le_mono_r; lia]]]).
  - assert (u0 * 2 ^ s / 2 ^ 64 = u0 / 2 ^ (64 - s)) as Hq by (rewrite E, (Z.mul_comm u0); apply Z.div_mul_cancel_l; lia).
    unfold u64. rewrite Z.mod_eq, Hq by lia. lia.
Qed.

Lemma split32 x : 0 <= x -> x = Z.shiftr x 32 * 2 ^ 32 + Z.land x 4294967295 /\ 0 <= Z.land x 4294967295 < 2 ^ 32.
Proof.
  intros Hx. change 4294967295 with (Z.ones 32). rewrite Z.land_ones, Z.shiftr_div_pow2 by lia.
  pose proof (Z.div_mod x (2 ^ 32) ltac:(lia)). pose proof (Z.mod_pos_bound x (2 ^ 32) ltac:(lia)). lia.
Qed.

(** Long division with two digits. *)
Lemma long_division U un1 un0 v :
  0 < v -> 0 <= un1 < 2 ^ 32 -> 0 <= un0 < 2 ^ 32 -> 0 <= U ->
  let N := U * 2 ^ 64 + (un1 * 2 ^ 32 + un0) in
  let R1 := (U * 2 ^ 32 + un1) mod v in
  (U * 2 ^ 32 + un1) / v * 2 ^ 32 + (R1 * 2 ^ 32 + un0) / v = N / v /\ (R1 * 2 ^ 32 + un0) mod v = N mod v.
Proof.
  intros Hv H1 H0 HU N R1. pose proof (Z.div_mod (U * 2 ^ 32 + un1) v ltac:(lia)) as E1. fold R1 in E1.
  pose proof (Z.div_mod (R1 * 2 ^ 32 + un0) v ltac:(lia)) as E0.
  pose proof (Z.mod_pos_bound (R1 * 2 ^ 32 + un0) v ltac:(lia)).
  assert (N = v * ((U * 2 ^ 32 + un1) / v * 2 ^ 32 + (R1 * 2 ^ 32 + un0) / v) + (R1 * 2 ^ 32 + un0) mod v) as E by (unfold N; lia).
  split; [eapply Z.div_unique_pos|eapply Z.mod_unique_pos]; [|exact E| |exact E]; lia.
Qed.

(** The two digits on a normalised divisor. *)
Lemma udiv_normalised un64 un10 v :
  2 ^ 63 <= v < 2 ^ 64 -> 0 <= un64 < v -> is_u64 un10 ->
  (d1 ← udiv_digit un64 (Z.shiftr un10 32) v (Z.shiftr v 32) (Z.land v 4294967295);
   d0 ← udiv_digit (d1 : Z * Z).2 (Z.land un10 4294967295) v (Z.shiftr v 32) (Z.land v 4294967295);
   mret (u64 (u64 (d1.1 * udiv_b) + d0.1), (d0 : Z * Z).2))
  = Ok ((un64 * 2 ^ 64 + un10) / v, (un64 * 2 ^ 64 + un10) mod v).
Proof.
  intros Hv Hu [Hu0 Hu1]. destruct (split32 v ltac:(lia)) as [Ev Hvn0]. destruct (split32 un10 ltac:(lia)) as [Eu Hun0].
  set (vn1 := Z.shiftr v 32) in *. set (vn0 := Z.land v 4294967295) in *.
  set (un1 := Z.shiftr un10 32) in *. set (un0 := Z.land un10 4294967295) in *.
  assert (2 ^ 31 <= vn1 < 2 ^ 32 /\ 0 <= un1 < 2 ^ 32) as [Hvn1 Hun1] by lia.
  rewrite (udiv_digit_spec v vn1 vn0 un64 un1) by done. unfold mbind at 1, res_bind at 1. cbn [fst snd].
  pose proof (Z.mod_pos_bound (un64 * 2 ^ 32 + un1) v ltac:(lia)).
  rewrite (udiv_digit_spec v vn1 vn0 _ un0) by (done || lia). unfold mbind, res_bind. cbn [fst snd].
  destruct (long_division un64 un1 un0 v) as [EQ ER]; [lia..|]. rewrite <- Eu in EQ, ER.
  pose proof (digit_true_range v vn1 vn0 un64 un1 Ev Hvn1 Hvn0 Hu Hun1).
  rewrite ER, <- EQ. change udiv_b with (2 ^ 32). pose proof (digit_true_range v vn1 vn0 _ un0 Ev Hvn1 Hvn0 H Hun0).
  rewrite !u64_small by (unfold is_u64; rewrite ?u64_small by (unfold is_u64; lia); lia). done.
Qed.

Lemma shift_remainder (m1 : res (Z * Z)) (m0 : Z * Z -> res (Z * Z)) (f : Z * Z -> Z * Z -> Z) (s q r : Z) :
  (d1 ← m1; d0 ← m0 d1; mret (f d1 d0, (d0 : Z * Z).2)) = Ok (q, r) ->
  (d1 ← m1; d0 ← m0 d1; mret (f d1 d0, Z.shiftr (d0 : Z * Z).2 s)) = Ok (q, Z.shiftr r s).
Proof.
  unfold mbind, res_bind. destruct m1 as [d1|]; [|done]. destruct (m0 d1) as [d0|]; [|done]. by intros [= <- <-].
Qed.

Lemma udiv128by64to64_spec u1 u0 v :
  is_u64 u0 -> 0 < v < 2 ^ 64 -> 0 <= u1 < v ->
  udiv128by64to64 u1 u0 v = Ok ((u1 * 2 ^ 64 + u0) / v, (u1 * 2 ^ 64 + u0) mod v).
Proof.
  intros Hu0 Hv Hu1. unfold udiv128by64to64, udiv128by64to64default.
  destruct (clz64_spec v Hv) as (s & -> & Hs & Hn). unfold mbind at 1, res_bind at 1.
  destruct (Z.ltb_spec 0 s) as [Hpos|Hz]; last first.
  { assert (s = 0) as -> by lia. pose proof (udiv_normalised u1 u0 v ltac:(lia) Hu1 Hu0) as E.
    apply (shift_remainder _ _ (fun d1 d0 => u64 (u64 (d1.1 * udiv_b) + d0.1)) 0) in E. by rewrite Z.shiftr_0_r in E. }
  assert (0 < 2 ^ s) as Hp by (apply Z.pow_pos_nonneg; lia).
  destruct (shift_words u1 u0 s) as [-> ->]; [lia|done|lia|nia|]. rewrite Z.shiftl_mul_pow2, (u64_small (v * 2 ^ s)) by (unfold is_u64; lia).
  set (d := u0 / 2 ^ (64 - s)). set (un64 := u1 * 2 ^ s + d). set (un10 := u0 * 2 ^ s - d * 2 ^ 64).
  assert (un64 * 2 ^ 64 + un10 = (u1 * 2 ^ 64 + u0) * 2 ^ s) as EN by (unfold un64, un10; lia).
  assert (is_u64 un10 /\ 0 <= d) as [Hun10 Hd].
  { destruct Hu0 as [H0 H0']. unfold un10, is_u64.
    assert (2 ^ 64 = 2 ^ s * 2 ^ (64 - s)) as E by (rewrite <- Z.pow_add_r by lia; f_equal; lia).
    assert (0 < 2 ^ (64 - s)) by (apply Z.pow_pos_nonneg; lia).
    pose proof (Z.div_mod u0 (2 ^ (64 - s)) ltac:(lia)). pose proof (Z.mod_pos_bound u0 (2 ^ (64 - s)) ltac:(lia)).
    unfold d. split; [nia|]. apply Z.div_pos; lia. }
  assert (0 <= un64 < v * 2 ^ s) as Hun64.
  { split; [unfold un64; nia|]. destruct Hu0, Hun10. assert (un64 * 2 ^ 64 < v * 2 ^ s * 2 ^ 64) by nia. lia. }
  pose proof (udiv_normalised un64 un10 (v * 2 ^ s) ltac:(lia) Hun64 Hun10) as E. rewrite EN in E.
  rewrite Z.div_mul_cancel_r in E by lia. rewrite Z.mul_mod_distr_r in E by lia.
  apply (shift_remainder _ _ (fun d1 d0 => u64 (u64 (d1.1 * udiv_b) + d0.1)) s) in E.
  rewrite (Z.shiftr_div_pow2 (_ * _) s), Z.div_mul in E by lia. exact E.
Qed.

(** C35. For every divisor, and every dividend whose quotient fits in 64 bits,
    [udiv128by64to64] returns the exact quotient and remainder: the
    normalisation, the at most two corrections of each digit and the
    wrapping subtractions included.  The correction loops stop within their
    bound, and nothing divides by zero. *)
Theorem udiv128by64to64_exact (u1 u0 v : Z) :
  is_u64 u1 -> is_u64 u0 -> is_u64 v -> u1 < v ->
  udiv128by64to64 u1 u0 v = Ok ((u1 * 2 ^ 64 + u0) / v, (u1 * 2 ^ 64 + u0) mod v).
Proof. intros [H1 _] H0 [_ Hv] Hlt. apply udiv128by64to64_spec; [done|lia..]. Qed.

(** Dividends for which both corrections are needed. *)
Lemma udiv128by64to64_exact_witness :
  udiv128by64to64 (2 ^ 63 - 1) (2 ^ 64 - 1) (2 ^ 63 + 2 ^ 32 - 1)
  = Ok (18446744065119617029, 9223372006790004740) /\
  udiv128by64to64 12345678 987654321 1000000000 = Ok (227737562482426390, 763169969).
Proof.
  split.
  - rewrite udiv128by64to64_exact by (unfold is_u64; lia). vm_compute. reflexivity.
  - rewrite udiv128by64to64_exact by (unfold is_u64; lia). vm_compute. reflexivity.
Defined.
