(* ===== verification/TimerTable.v ===== *)
(** * The timer service, and what the timer drivers share

    Every driver of drivers/timer keeps one deadline per client in a table of
    six, and programs its hardware for the earliest.  The two loops over the
    table are the same text in all of them (the clients of the JH7110 driver
    start at another channel) and are written and proved here once.

    The contract of a driver is an abstract [service]: deadlines and the
    notifications sent, with one step per request.  The class [TimerDriver]
    states the contract: at each request the driver reads its clock once, at a
    time between the start and the end of the handler, and then does the step
    of the service at that time.  TimerArm, TimerGoldfish, TimerMeson,
    TimerJh7110 and TimerImx are its instances. *)

From S2P Require Import Prelude Microkit.

(** include/sddf/timer/protocol.h *)
Definition SDDF_TIMER_GET_TIME : Z := 0.
Definition SDDF_TIMER_SET_TIMEOUT : Z := 1.
Definition NS_IN_S : Z := 1000000000.
Definition NS_IN_US : Z := 1000.
Definition US_IN_S : Z := 1000000.
Definition MS_IN_S : Z := 1000.

Definition MAX_TIMEOUTS : Z := 6.
Definition UINT64_MAX : Z := 2 ^ 64 - 1.
Definition UINT32_MAX : Z := 2 ^ 32 - 1.

(** The fields of [device_resources] the drivers use; [dr_magic] is the result
    of [device_resources_check_magic]. *)
Record device_resources : Type := mk_device_resources {
  dr_magic : bool;
  dr_num_irqs : Z;
  dr_num_regions : Z;
  dr_irq_id : Z; (* irqs[0].id *)
}.

(** ** The table of deadlines *)

Record table : Type := mk_table {
  tt_timeouts : list Z; (* uint64_t[MAX_TIMEOUTS] *)
  tt_events : list event;
}.

Definition set_timeouts (l : list Z) (t : table) : table := mk_table l (tt_events t).
Definition with_event (e : event) (t : table) : table := mk_table (tt_timeouts t) (tt_events t ++ [e]).
Definition emit (e : event) : M table unit := modify (with_event e).

(** [timeouts[i] = x]. *)
Definition store_timeout (i x : Z) : M table unit :=
  t ← get;
  l ← lift (store (tt_timeouts t) i x);
  modify (set_timeouts l).

(** The body of the first loop of [process_timeouts]; the client of timeout
    [i] has channel [base + i]. *)
Definition expire_timeout (base curr_time i : Z) : M table unit :=
  t ← get;
  timeout ← lift (load (tt_timeouts t) i);
  when (timeout <=? curr_time) (
    emit (Notify (base + i));;
    store_timeout i UINT64_MAX).

(** The second loop: its variable is [next_timeout]. *)
Definition min_timeout (i : Z) : M (table * Z) unit :=
  p ← get;
  timeout ← lift (load (tt_timeouts p.1) i);
  when (timeout <? p.2) (set_local timeout).

(** The two loops; the result is [next_timeout]. *)
Definition process_table (base curr_time : Z) : M table Z :=
  for_upto MAX_TIMEOUTS (expire_timeout base curr_time);;
  r ← with_local UINT64_MAX (for_upto MAX_TIMEOUTS min_timeout);
  mret (r : unit * Z).2.

Definition init_timeouts : M table unit := for_upto MAX_TIMEOUTS (fun i => store_timeout i UINT64_MAX).

(** ** What the loops compute *)

Definition expire (curr t : Z) : Z := if t <=? curr then UINT64_MAX else t.
Definition expired_ids (curr : Z) (l : list Z) : list Z := filter (fun i => l !!! Z.to_nat i <= curr) (seqZ 0 MAX_TIMEOUTS).
Definition earliest (l : list Z) : Z := foldl Z.min UINT64_MAX l.
Arguments earliest : simpl never.

Definition notify_all (base : Z) (ids : list Z) : list event := (fun i => Notify (base + i)) <$> ids.

(** The table after the loops. *)
Definition processed (base curr : Z) (t : table) : table :=
  mk_table (expire curr <$> tt_timeouts t) (tt_events t ++ notify_all base (expired_ids curr (tt_timeouts t))).

(** A table of six deadlines of 64 bits. *)
Definition table_wf (t : table) : Prop := length (tt_timeouts t) = 6%nat /\ Forall is_u64 (tt_timeouts t).

Lemma earliest_snoc l t : earliest (l ++ [t]) = Z.min (earliest l) t.
Proof. unfold earliest. by rewrite foldl_app. Qed.

Lemma earliest_lower l t : t ∈ l -> earliest l <= t.
Proof.
  induction l as [|t' l IH] using rev_ind; [by intros ?%not_elem_of_nil|].
  rewrite earliest_snoc, elem_of_app, list_elem_of_singleton. intros [Hin| ->]; [|lia]. specialize (IH Hin). lia.
Qed.

Lemma earliest_in l : earliest l = UINT64_MAX \/ earliest l ∈ l.
Proof.
  induction l as [|t l IH] using rev_ind; [by left|]. rewrite earliest_snoc, elem_of_app, list_elem_of_singleton.
  destruct (Z.min_spec (earliest l) t) as [[_ ->]|[_ ->]]; tauto.
Qed.

Lemma earliest_range l : Forall is_u64 l -> is_u64 (earliest l).
Proof. rewrite Forall_forall. intros Hl. destruct (earliest_in l) as [->|Hin]; [done|by apply Hl]. Qed.

Lemma earliest_all_max l : Forall (fun t => t = UINT64_MAX) l -> earliest l = UINT64_MAX.
Proof. rewrite Forall_forall. intros Hl. destruct (earliest_in l) as [->|Hin]; [done|by apply Hl]. Qed.

Lemma expire_u64 curr t : is_u64 t -> is_u64 (expire curr t).
Proof. unfold expire. by destruct (t <=? curr). Qed.

Lemma processed_wf base curr t : table_wf t -> table_wf (processed base curr t).
Proof.
  intros [Hl Hu]. split; cbn [tt_timeouts processed]; [by rewrite length_fmap|].
  apply Forall_fmap. eapply Forall_impl; [exact Hu|]. intros. by apply expire_u64.
Qed.

(** No deadline that is left has passed. *)
Lemma expire_later curr l : curr < UINT64_MAX -> curr < earliest (expire curr <$> l).
Proof.
  intros Hc. destruct (earliest_in (expire curr <$> l)) as [->|Hin]; [done|].
  apply list_elem_of_fmap in Hin as (t & -> & _). unfold expire. destruct (Z.leb_spec t curr); lia.
Qed.

Section loops.
Variables (base curr : Z).
Implicit Types t : table.

Lemma expire_loop t (Q : unit -> table -> Prop) :
  length (tt_timeouts t) = 6%nat ->
  Q tt (mk_table (expire curr <$> tt_timeouts t)
         (tt_events t ++ notify_all base (expired_ids curr (tt_timeouts t)))) ->
  wp (for_upto MAX_TIMEOUTS (expire_timeout base curr)) t Q.
Proof.
  intros Hl HQ. set (l := tt_timeouts t) in *.
  apply (wp_for_each (fun pre t' => t' = mk_table (take (length pre) (expire curr <$> l) ++ drop (length pre) l)
     (tt_events t ++ notify_all base (filter (fun i => l !!! Z.to_nat i <= curr) pre)))).
  - cbn. rewrite app_nil_r. unfold l. by destruct t.
  - intros pre i post t' E ->. apply lookup_seqZ_prefix in E as [-> Hi]. unfold MAX_TIMEOUTS in Hi.
    destruct (lookup_lt_is_Some_2 l (length pre)) as [x Hx]; [lia|].
    unfold expire_timeout. do 3 wp_step. cbn [tt_timeouts].
    assert (length (take (length pre) (expire curr <$> l)) = length pre) as Htk by (rewrite length_take, length_fmap; lia).
    assert ((take (length pre) (expire curr <$> l) ++ drop (length pre) l) !! length pre = Some x) as Hlk.
    { rewrite lookup_app_r by lia. by rewrite Htk, Nat.sub_diag, lookup_drop, Nat.add_0_r. }
    eapply wp_lift; [by apply load_nat|]. rewrite length_app, filter_app. cbn [length].
    assert (take (length pre + 1) (expire curr <$> l) = take (length pre) (expire curr <$> l) ++ [expire curr x]) as ->.
    { replace (length pre + 1)%nat with (S (length pre)) by lia. apply take_S_r. by rewrite list_lookup_fmap, Hx. }
    assert (drop (length pre) l = x :: drop (length pre + 1) l) as Hd.
    { replace (length pre + 1)%nat with (S (length pre)) by lia. by apply drop_S. }
    rewrite filter_cons, filter_nil, Nat2Z.id, (list_lookup_total_correct _ _ _ Hx).
    assert (expire curr x = if x <=? curr then UINT64_MAX else x) as -> by done.
    apply wp_when; intros Hb.
    + rewrite Hb. apply Z.leb_le in Hb. rewrite decide_True by done. unfold emit, store_timeout. do 5 wp_step.
      eapply wp_lift; [cbn [tt_timeouts]; apply store_nat; by eapply lookup_lt_Some|]. wp_step. unfold set_timeouts. cbn.
      unfold notify_all. rewrite fmap_app. cbn. rewrite app_assoc. f_equal. rewrite insert_app_r_alt by lia.
      rewrite Htk, Nat.sub_diag, Hd. cbn. by rewrite <- app_assoc.
    + rewrite Hb. apply Z.leb_gt in Hb. rewrite decide_False by lia. rewrite app_nil_r. f_equal.
      rewrite Hd at 1. by rewrite <- app_assoc.
  - intros t' ->. replace (length (seqZ 0 MAX_TIMEOUTS)) with (length l)
      by (rewrite length_seqZ; unfold MAX_TIMEOUTS; lia).
    rewrite take_ge by (by rewrite length_fmap). rewrite drop_all, app_nil_r. exact HQ.
Qed.

Lemma min_loop t (Q : unit -> table * Z -> Prop) :
  length (tt_timeouts t) = 6%nat -> Q tt (t, earliest (tt_timeouts t)) ->
  wp (for_upto MAX_TIMEOUTS min_timeout) (t, UINT64_MAX) Q.
Proof.
  intros Hl HQ. apply (wp_for_each (fun pre p => p = (t, earliest (take (length pre) (tt_timeouts t))))).
  - done.
  - intros pre i post p E ->. apply lookup_seqZ_prefix in E as [-> Hi]. unfold MAX_TIMEOUTS in Hi.
    destruct (lookup_lt_is_Some_2 (tt_timeouts t) (length pre)) as [x Hx]; [lia|].
    unfold min_timeout. do 3 wp_step. eapply wp_lift; [by apply load_nat|]. rewrite length_app. cbn [length].
    replace (length pre + 1)%nat with (S (length pre)) by lia. rewrite (take_S_r _ _ _ Hx), earliest_snoc. cbn [snd].
    apply wp_when; intros Hb.
    + wp_step. apply Z.ltb_lt in Hb. f_equal. lia.
    + apply Z.ltb_ge in Hb. f_equal. lia.
  - intros p ->. replace (length (seqZ 0 MAX_TIMEOUTS)) with (length (tt_timeouts t))
      by (rewrite length_seqZ; unfold MAX_TIMEOUTS; lia).
    by rewrite firstn_all.
Qed.

(** The clients whose deadline has passed are notified, in order, and lose it;
    the result is the earliest deadline left. *)
Lemma process_table_spec t (Q : Z -> table -> Prop) :
  table_wf t -> Q (earliest (tt_timeouts (processed base curr t))) (processed base curr t) ->
  wp (process_table base curr) t Q.
Proof.
  intros [Hl _] HQ. unfold process_table. wp_step. apply expire_loop; [done|]. do 2 wp_step.
  apply min_loop; [cbn [tt_timeouts]; by rewrite length_fmap|]. by wp_step.
Qed.
End loops.

Lemma init_timeouts_spec t (Q : unit -> table -> Prop) :
  length (tt_timeouts t) = 6%nat -> Q tt (mk_table (replicate 6 UINT64_MAX) (tt_events t)) -> wp init_timeouts t Q.
Proof.
  intros Hl HQ. destruct t as [l e]. cbn [tt_timeouts] in Hl.
  by destruct l as [|t0 [|t1 [|t2 [|t3 [|t4 [|t5 [|]]]]]]].
Qed.

(** The table with the deadline of client [i] set to [x]. *)
Definition with_deadline (i x : Z) (t : table) : table := mk_table (<[Z.to_nat i := x]> (tt_timeouts t)) (tt_events t).

Lemma with_deadline_wf i x t : table_wf t -> is_u64 x -> table_wf (with_deadline i x t).
Proof. intros [Hl Hu] Hx. split; cbn; [by rewrite length_insert|by apply Forall_insert]. Qed.

Lemma store_timeout_spec i x t (Q : unit -> table -> Prop) :
  0 <= i < MAX_TIMEOUTS -> table_wf t -> Q tt (with_deadline i x t) -> wp (store_timeout i x) t Q.
Proof.
  intros Hi [Hl _] HQ. unfold store_timeout. do 3 wp_step.
  eapply wp_lift; [apply store_ok; unfold MAX_TIMEOUTS in Hi; lia|]. by wp_step.
Qed.

(** ** The service *)

(** What a driver promises its clients: [sv_deadlines] are the timeouts still
    to come, [sv_notified] the channels notified so far. *)
Record service : Type := mk_service {
  sv_deadlines : list Z;
  sv_notified : list Z;
}.

(** What a request asks of the service: to look for timeouts that have passed,
    to tell the time, to set the timeout of client [i] to [offset] from now, or
    nothing. *)
Inductive service_req : Type :=
| SServe
| SGet
| SSet (i offset : Z)
| SNone.

Definition serve (base now : Z) (sv : service) : service :=
  mk_service (expire now <$> sv_deadlines sv)
    (sv_notified sv ++ (Z.add base <$> expired_ids now (sv_deadlines sv))).

(** One request, served when the clock reads [now]; [time] is what the driver
    replies for that reading. *)
Definition service_step (base : Z) (time : Z -> Z) (now : Z) (r : service_req) (sv : service) : service * option Z :=
  match r with
  | SServe => (serve base now sv, None)
  | SGet => (sv, Some (time now))
  | SSet i offset =>
    (serve base now (mk_service (<[Z.to_nat i := now + offset]> (sv_deadlines sv)) (sv_notified sv)), None)
  | SNone => (sv, None)
  end.

Fixpoint service_run (base : Z) (time : Z -> Z) (l : list (Z * service_req)) (sv : service) : service * list (option Z) :=
  match l with
  | [] => (sv, [])
  | (now, r) :: l' =>
    let '(sv1, reply) := service_step base time now r sv in
    let '(sv2, replies) := service_run base time l' sv1 in
    (sv2, reply :: replies)
  end.

(** A client has one of the six channels, and its offset leaves room for the
    sum with the time. *)
Definition req_ok (r : service_req) : Prop :=
  match r with
  | SSet i offset => 0 <= i < MAX_TIMEOUTS /\ 0 <= offset < 2 ^ 63
  | _ => True
  end.

(** The service a table gives. *)
Definition notified_of (es : list event) : list Z := omap (fun e => match e with Notify ch => Some ch | _ => None end) es.
Definition service_of (t : table) : service := mk_service (tt_timeouts t) (notified_of (tt_events t)).

Lemma notified_of_app es es' : notified_of (es ++ es') = notified_of es ++ notified_of es'.
Proof. apply omap_app. Qed.

Lemma notified_of_all base ids : notified_of (notify_all base ids) = Z.add base <$> ids.
Proof. unfold notified_of, notify_all. induction ids as [|i ids IH]; cbn; [done|by rewrite IH]. Qed.

(** What [process_table] does is what the service does. *)
Lemma service_of_processed base curr t : service_of (processed base curr t) = serve base curr (service_of t).
Proof. unfold service_of, processed, serve. cbn. by rewrite notified_of_app, notified_of_all. Qed.

Lemma service_of_event e t : notified_of [e] = [] -> service_of (with_event e t) = service_of t.
Proof. intros He. unfold service_of. cbn. by rewrite notified_of_app, He, app_nil_r. Qed.

(** The request that a call of the client on channel [ch] makes; [offset]
    converts its argument. *)
Definition call_kind (base : Z) (offset : Z -> Z) (ch label mr0 : Z) : service_req :=
  if label =? SDDF_TIMER_GET_TIME then SGet
  else if label =? SDDF_TIMER_SET_TIMEOUT then SSet (ch - base) (offset mr0)
  else SNone.

(** The interrupt of a driver that has one, and a call. *)
Inductive timer_request : Type :=
| TInterrupt
| TCall (ch label mr0 : Z).

Definition timer_kind (offset : Z -> Z) (r : timer_request) : service_req :=
  match r with
  | TInterrupt => SServe
  | TCall ch label mr0 => call_kind 0 offset ch label mr0
  end.

(** [c <= t1 <= ... <= tn <= c']. *)
Fixpoint in_order (c : Z) (l : list Z) (c' : Z) : Prop :=
  match l with
  | [] => c <= c'
  | t :: l' => c <= t /\ in_order t l' c'
  end.

Lemma in_order_mono c0 c l c' : c0 <= c -> in_order c l c' -> in_order c0 l c'.
Proof. destruct l; cbn; [lia|intuition lia]. Qed.

(** ** The contract of a driver

    [S] is the state of driver and device, [R] its requests: the interrupts it
    gets and the calls of its clients.  [td_clock] is the true time, in the
    unit of the driver's deadlines; [td_good] rules out a clock out of range;
    [td_skew] says what the driver may read at a true time (that time itself,
    for all but one). *)
Class TimerDriver (S R : Type) := {
  td_clock : S -> Z;
  td_service : S -> service;
  td_kind : R -> service_req;
  td_base : Z;
  td_time : Z -> Z;
  td_step : R -> M S (option Z);
  td_inv : S -> Prop;
  td_good : S -> Prop;
  td_skew : Z -> Z -> Prop;
}.

(** [td_step] from [s] to [s'] with the result [reply] is one step of the
    service. *)
Definition implements {S R : Type} `{TimerDriver S R} (s : S) (r : R) (reply : option Z) (s' : S) : Prop :=
  td_good s' -> td_good s /\
  exists t now, td_clock s <= t <= td_clock s' /\ td_skew t now /\
    service_step td_base td_time now (td_kind r) (td_service s) = (td_service s', reply).

Class TimerDriverOk (S R : Type) `{TimerDriver S R} := {
  td_step_ok (s : S) (r : R) : td_inv s -> req_ok (td_kind r) ->
    wp (td_step r) s (fun reply s' => td_inv s' /\ implements s r reply s');
}.

Section driver.
Context {S R : Type} `{TimerDriverOk S R}.

Fixpoint run_requests (rs : list R) : M S (list (option Z)) :=
  match rs with
  | [] => mret []
  | r :: rs' => reply ← td_step r; replies ← run_requests rs'; mret (reply :: replies)
  end.

(** Along any sequence of requests a driver does not fault and refines the
    service. *)
Definition run_implements (s : S) (rs : list R) (replies : list (option Z)) (s' : S) : Prop :=
  td_good s' -> td_good s /\
  exists trues nows, in_order (td_clock s) trues (td_clock s') /\ Forall2 td_skew trues nows /\
    length nows = length rs /\
    service_run td_base td_time (zip nows (td_kind <$> rs)) (td_service s) = (td_service s', replies).

Lemma timer_driver_refines (rs : list R) (s : S) :
  td_inv s -> Forall (fun r => req_ok (td_kind r)) rs ->
  wp (run_requests rs) s (fun replies s' => td_inv s' /\ run_implements s rs replies s').
Proof.
  revert s. induction rs as [|r rs IH]; intros s Hi Hrs; cbn [run_requests].
  - wp_step. split; [done|]. intros Hg. split; [done|]. exists [], []. cbn. split_and!; [lia|constructor|done|done].
  - apply Forall_cons in Hrs as [Hr Hrs]. wp_step. wp_use td_step_ok. intros reply s1 [Hi1 Hs1].
    wp_step. wp_use IH. intros replies s' [Hi' Hs']. wp_step. split; [done|]. intros Hg'.
    destruct (Hs' Hg') as (Hg1 & trues & nows & Ho & Hsk & Hlen & Hrun).
    destruct (Hs1 Hg1) as (Hg & t & now & Ht & Hskew & Hstep). split; [done|].
    exists (t :: trues), (now :: nows). cbn. rewrite Hstep, Hrun. split_and!; [lia| |by constructor|lia|done].
    eapply in_order_mono; [|exact Ho]. lia.
Qed.

(** The same for a driver that reads its clock right. *)
Lemma accurate_driver_runs (rs : list R) (s : S) :
  (forall t now, td_skew t now -> t = now) ->
  td_inv s -> Forall (fun r => req_ok (td_kind r)) rs ->
  exists replies s', run_requests rs s = Ok (replies, s') /\ td_inv s' /\
    (td_good s' -> exists nows, in_order (td_clock s) nows (td_clock s') /\ length nows = length rs /\
       service_run td_base td_time (zip nows (td_kind <$> rs)) (td_service s) = (td_service s', replies)).
Proof.
  intros Hacc Hi Hrs. destruct (wp_elim _ _ _ (timer_driver_refines rs s Hi Hrs)) as (replies & s' & E & Hi' & Himp).
  exists replies, s'. split_and!; [done|done|]. intros Hg.
  destruct (Himp Hg) as (_ & trues & nows & Ho & Hsk & Hlen & Hrun). exists nows. split_and!; [|done|done].
  replace nows with trues; [done|]. clear -Hacc Hsk. induction Hsk; [done|]. f_equal; [by apply Hacc|done].
Qed.
End driver.

(** ** What a client gets

    A client sets a timeout once and waits for it.  It is notified exactly once:
    at the first request at which the driver looks at its table and reads a
    time not before the deadline; never if there is none. *)

Definition looks (r : service_req) : bool := match r with SServe | SSet _ _ => true | _ => false end.
Definition sets (i : Z) (r : service_req) : bool := match r with SSet j _ => j =? i | _ => false end.
Definition count (x : Z) (l : list Z) : nat := length (filter (fun y => y = x) l).
Arguments count : simpl never.

(** A request that finds the deadline [d] passed. *)
Definition due (d : Z) (p : Z * service_req) : bool := looks p.2 && (d <=? p.1).

#[local] Instance add_channel_inj base : Inj eq eq (Z.add base).
Proof. intros x y. lia. Qed.

Lemma count_app x l l' : count x (l ++ l') = (count x l + count x l')%nat.
Proof. unfold count. by rewrite filter_app, length_app. Qed.

Lemma count_NoDup x l : NoDup l -> count x l = if bool_decide (x ∈ l) then 1%nat else 0%nat.
Proof.
  unfold count. induction 1 as [|y l Hy Hl IH]; [done|]. rewrite filter_cons. destruct (decide (y = x)) as [->|Hne].
  - cbn [length]. rewrite IH. rewrite (bool_decide_eq_false_2 (x ∈ l)) by done.
    by rewrite bool_decide_eq_true_2 by (by left).
  - rewrite IH. by rewrite (bool_decide_ext (x ∈ l) (x ∈ y :: l)) by (rewrite elem_of_cons; naive_solver).
Qed.

Lemma expired_ids_elem now l i d : 0 <= i < MAX_TIMEOUTS -> l !! Z.to_nat i = Some d -> i ∈ expired_ids now l <-> d <= now.
Proof.
  intros Hi Hd. unfold expired_ids. rewrite list_elem_of_filter, elem_of_seqZ, (list_lookup_total_correct _ _ _ Hd). lia.
Qed.

Lemma serve_client base now sv i d :
  0 <= i < MAX_TIMEOUTS -> sv_deadlines sv !! Z.to_nat i = Some d ->
  sv_deadlines (serve base now sv) !! Z.to_nat i = Some (expire now d) /\
  count (base + i) (sv_notified (serve base now sv))
    = (count (base + i) (sv_notified sv) + Nat.b2n (d <=? now)%Z)%nat.
Proof.
  intros Hi Hd. unfold serve. cbn [sv_deadlines sv_notified]. split; [by rewrite list_lookup_fmap, Hd|]. rewrite count_app. f_equal.
  assert (base + i ∈ (Z.add base <$> expired_ids now (sv_deadlines sv)) <-> d <= now) as Hiff.
  { etrans; [apply list_elem_of_fmap_inj, _|]. by apply expired_ids_elem. }
  rewrite count_NoDup by (apply NoDup_fmap_2; [apply _|]; apply NoDup_filter, NoDup_seqZ).
  destruct (Z.leb_spec d now); [rewrite bool_decide_eq_true_2 by tauto|rewrite bool_decide_eq_false_2 by (intros ?%Hiff; lia)]; done.
Qed.

(** One request, seen by a client that it does not set. *)
Lemma service_step_client base time now r sv i d :
  0 <= i < MAX_TIMEOUTS -> sv_deadlines sv !! Z.to_nat i = Some d -> req_ok r -> sets i r = false ->
  exists d', sv_deadlines (service_step base time now r sv).1 !! Z.to_nat i = Some d' /\
    d' = (if due d (now, r) then UINT64_MAX else d) /\
    count (base + i) (sv_notified (service_step base time now r sv).1)
      = (count (base + i) (sv_notified sv) + Nat.b2n (due d (now, r)))%nat.
Proof.
  intros Hi Hd Hr Hs. assert (forall sv', sv_deadlines sv' !! Z.to_nat i = Some d -> sv_notified sv' = sv_notified sv ->
    sv_deadlines (serve base now sv') !! Z.to_nat i = Some (expire now d) /\
    count (base + i) (sv_notified (serve base now sv')) = (count (base + i) (sv_notified sv) + Nat.b2n (d <=? now)%Z)%nat)
    as Hserve by (intros sv' Hd' <-; by apply serve_client).
  destruct r as [| |j offset|]; unfold due; cbn [looks andb fst snd service_step].
  - destruct (Hserve sv) as [H1 H2]; [done..|]. eexists. split_and!; [done|done|done].
  - exists d. rewrite Nat.add_0_r. done.
  - cbn in Hs, Hr. apply Z.eqb_neq in Hs. eexists. split_and!; [| |eapply Hserve].
    + apply Hserve; [|done]. cbn. by rewrite list_lookup_insert_ne by lia.
    + done.
    + cbn. by rewrite list_lookup_insert_ne by lia.
    + done.
  - exists d. rewrite Nat.add_0_r. done.
Qed.

Lemma service_once base time i d l sv :
  0 <= i < MAX_TIMEOUTS -> sv_deadlines sv !! Z.to_nat i = Some d ->
  Forall (fun p => p.1 < UINT64_MAX /\ req_ok p.2 /\ sets i p.2 = false) l ->
  count (base + i) (sv_notified (service_run base time l sv).1)
    = (count (base + i) (sv_notified sv) + Nat.b2n (existsb (due d) l))%nat.
Proof.
  intros Hi. revert d sv. induction l as [|[now r] l IH]; intros d sv Hd Hl; cbn; [lia|].
  apply Forall_cons in Hl as [(Hnow & Hr & Hs) Hl]. cbn in Hnow, Hr, Hs.
  destruct (service_step_client base time now r sv i d) as (d' & Hd' & E & Hc); [done..|].
  destruct (service_step base time now r sv) as [sv1 reply] eqn:Estep. cbn [fst] in Hd', Hc.
  specialize (IH d' sv1 Hd' Hl). destruct (service_run base time l sv1) as [sv2 replies]. cbn [fst] in *. rewrite IH, Hc.
  destruct (due d (now, r)); subst d'; cbn [orb Nat.b2n]; [|lia].
  assert (existsb (due UINT64_MAX) l = false) as ->; [|cbn [Nat.b2n]; lia].
  apply not_true_iff_false. intros (p & Hin%list_elem_of_In & Hp)%existsb_exists.
  rewrite Forall_forall in Hl. destruct (Hl p Hin) as (Hn & _). unfold due in Hp.
  rewrite (proj2 (Z.leb_gt _ _)) in Hp by done. by rewrite andb_false_r in Hp.
Qed.

(** ** Clocks *)

(** The time of a device, which passes by itself: it moves by as much as the
    scripts say, before the next request ([ck_idle]) and before the next access
    of the driver to a register ([ck_script]). *)
Record clock : Type := mk_clock {
  ck_now : Z;
  ck_idle : list N;
  ck_script : list N;
}.

(** Let time pass; the result is the time then. *)
Definition elapse : M clock Z :=
  c ← get;
  match ck_script c with
  | [] => mret (ck_now c)
  | d :: l => put (mk_clock (ck_now c + Z.of_N d) (ck_idle c) l);; mret (ck_now c + Z.of_N d)
  end.

Definition idle : M clock unit := modify (fun c =>
  match ck_idle c with
  | [] => c
  | d :: l => mk_clock (ck_now c + Z.of_N d) l (ck_script c)
  end).

Definition total (l : list N) : Z := foldr (fun d n => Z.of_N d + n) 0 l.

(** The time when the scripts are over. *)
Definition ck_end (c : clock) : Z := ck_now c + total (ck_idle c) + total (ck_script c).

Arguments total : simpl never.

Lemma total_cons d l : total (d :: l) = Z.of_N d + total l.
Proof. done. Qed.

Lemma total_nonneg l : 0 <= total l.
Proof. induction l as [|d l IH]; [done|rewrite total_cons; lia]. Qed.

Lemma ck_now_end c : ck_now c <= ck_end c.
Proof. unfold ck_end. pose proof (total_nonneg (ck_idle c)). pose proof (total_nonneg (ck_script c)). lia. Qed.

(** Time that stays within [0, bound), an access taking less than [step]. *)
Record clock_ok (bound step : Z) (c : clock) : Prop := {
  co_nonneg : 0 <= ck_now c;
  co_end : ck_end c < bound;
  co_step : Forall (fun d => Z.of_N d < step) (ck_script c);
}.

Lemma elapse_ok bound step c (Q : Z -> clock -> Prop) :
  0 < step -> clock_ok bound step c ->
  (forall c', ck_now c <= ck_now c' < ck_now c + step -> ck_now c' < bound -> clock_ok bound step c' -> Q (ck_now c') c') ->
  wp elapse c Q.
Proof.
  intros Hs [H0 Hb Hst] HQ. unfold elapse. do 2 wp_step. destruct (ck_script c) as [|d l] eqn:E.
  - wp_step. pose proof (ck_now_end c). apply HQ; [lia|lia|]. split; [done|done|by rewrite E].
  - apply Forall_cons in Hst as [Hd Hst]. do 3 wp_step.
    set (c' := mk_clock (ck_now c + Z.of_N d) (ck_idle c) l).
    assert (ck_end c' = ck_end c) as He by (unfold ck_end; rewrite E, total_cons; cbn; lia). pose proof (ck_now_end c').
    apply (HQ c'); [cbn; lia|lia|]. split; [cbn; lia|lia|done].
Qed.

Lemma idle_ok bound step c (Q : unit -> clock -> Prop) :
  clock_ok bound step c -> (forall c', ck_now c <= ck_now c' -> clock_ok bound step c' -> Q tt c') -> wp idle c Q.
Proof.
  intros [H0 Hb Hst] HQ. unfold idle. wp_step. destruct (ck_idle c) as [|d l] eqn:E; [by apply HQ|].
  apply HQ; [cbn; lia|]. split; [cbn; lia| |done]. unfold ck_end in *. rewrite E, total_cons in Hb. cbn. lia.
Qed.

(** When nothing is asked of the length of an access. *)
Definition clock_below (bound : Z) (c : clock) : Prop := 0 <= ck_now c /\ ck_end c < bound.

Lemma elapse_below bound c (Q : Z -> clock -> Prop) :
  clock_below bound c ->
  (forall c', ck_now c <= ck_now c' < bound -> clock_below bound c' -> Q (ck_now c') c') -> wp elapse c Q.
Proof.
  intros [H0 Hb] HQ. pose proof (ck_now_end c). pose proof (total_nonneg (ck_script c)).
  apply (elapse_ok bound (1 + total (ck_script c))); [lia| |].
  - split; [done|done|]. clear. induction (ck_script c) as [|d l IH]; [done|]. rewrite total_cons. pose proof (total_nonneg l).
    apply Forall_cons_2; [lia|]. eapply Forall_impl; [exact IH|]. cbn. lia.
  - intros c' Hle Hlt [Hc0 Hc1 _]. apply HQ; [lia|by split].
Qed.

(** ** Words of a counter *)

Lemma land_words hi lo : 0 <= lo < 2 ^ 32 -> Z.land (Z.shiftl hi 32) lo = 0.
Proof.
  intros Hlo. apply Z.bits_inj'. intros n Hn. rewrite Z.land_spec, Z.shiftl_spec, Z.bits_0 by done.
  destruct (Z.lt_ge_cases n 32); [by rewrite Z.testbit_neg_r by lia|]. apply andb_false_iff. right.
  rewrite <- (Z.mod_small lo (2 ^ 32)) by done. apply Z.mod_pow2_bits_high. lia.
Qed.

Lemma lor_words hi lo : 0 <= lo < 2 ^ 32 -> Z.lor (Z.shiftl hi 32) lo = hi * 2 ^ 32 + lo.
Proof.
  intros Hlo. rewrite <- Z.lxor_lor.
  - rewrite <- Z.add_nocarry_lxor; [by rewrite Z.shiftl_mul_pow2|]. apply land_words. lia.
  - apply land_words. lia.
Qed.

(** The two words of a 64-bit value. *)
Lemma words_split t : t = Z.shiftr t 32 * 2 ^ 32 + u32 t.
Proof. rewrite Z.shiftr_div_pow2 by done. unfold u32. pose proof (Z.div_mod t (2 ^ 32)). lia. Qed.

Lemma high_word_range t : is_u64 t -> is_u32 (Z.shiftr t 32).
Proof.
  unfold is_u64, is_u32. rewrite Z.shiftr_div_pow2 by done. intros Ht.
  split; [apply Z.div_pos; lia|apply Z.div_lt_upper_bound; lia].
Qed.

Lemma words_join t : Z.lor (Z.shiftl (Z.shiftr t 32) 32) (u32 t) = t.
Proof. rewrite lor_words by apply u32_range. by rewrite <- words_split. Qed.
