(* ===== verification/TimerArm.v ===== *)
(** * The ARM generic timer driver: drivers/timer/arm/timer.c

    One hardware comparator serves the timeouts of all clients: the driver
    keeps a deadline per client and programs the earliest one. *)

From S2P Require Import Prelude Microkit Udivmod TimerTable.

Definition KHZ : Z := 1000.
Definition MHZ : Z := 1000 * KHZ.
Definition GHZ : Z := 1000 * MHZ.

Definition GENERIC_TIMER_ENABLE : Z := Z.shiftl 1 0.
Definition LOW_WORD (x : Z) : Z := Z.land x (Z.ones 64).
Definition HIGH_WORD (x : Z) : Z := Z.shiftr x 64.

(** The driver's variables and the registers of the timer it writes.  The
    counter [CNTPCT] runs by itself: a handler gets its value as [ticks]. *)
Record timer_state : Type := mk_timer {
  tm_timer_freq : Z;     (* uint64_t *)
  tm_table : table;      (* timeouts *)
  tm_ctl : Z;            (* CNTP_CTL *)
  tm_cval : Z;           (* CNTP_CVAL *)
}.

Definition set_timer_freq (x : Z) (s : timer_state) : timer_state :=
  mk_timer x (tm_table s) (tm_ctl s) (tm_cval s).
Definition set_table (x : table) (s : timer_state) : timer_state :=
  mk_timer (tm_timer_freq s) x (tm_ctl s) (tm_cval s).
Definition set_ctl (x : Z) (s : timer_state) : timer_state :=
  mk_timer (tm_timer_freq s) (tm_table s) x (tm_cval s).
Definition set_cval (x : Z) (s : timer_state) : timer_state :=
  mk_timer (tm_timer_freq s) (tm_table s) (tm_ctl s) x.
Definition on_table {A} (m : M table A) : M timer_state A := zoom tm_table set_table m.
Definition tm_timeouts (s : timer_state) : list Z := tt_timeouts (tm_table s).
Definition tm_events (s : timer_state) : list event := tt_events (tm_table s).

Definition generic_timer_get_freq (cntfrq : Z) : Z := u32 cntfrq.
Definition generic_timer_set_compare (ticks : Z) : M timer_state unit := modify (set_cval ticks).
Definition generic_timer_read_ctrl (s : timer_state) : Z := u32 (tm_ctl s).
Definition generic_timer_write_ctrl (ctrl : Z) : M timer_state unit := modify (set_ctl ctrl).
Definition generic_timer_or_ctrl (bits : Z) : M timer_state unit :=
  ctrl ← gets generic_timer_read_ctrl;
  generic_timer_write_ctrl (Z.lor ctrl bits).
Definition generic_timer_enable : M timer_state unit := generic_timer_or_ctrl GENERIC_TIMER_ENABLE.
(** [~GENERIC_TIMER_ENABLE] is an [int], converted to [uintptr_t]. *)
Definition generic_timer_disable : M timer_state unit := generic_timer_or_ctrl (u64 (Z.lnot GENERIC_TIMER_ENABLE)).

Definition freq_cycles_and_hz_to_ns (ncycles hz : Z) : res Z :=
  if hz mod GHZ =? 0 then udiv ncycles (hz / GHZ)
  else if hz mod MHZ =? 0 then udiv (u64 (ncycles * MS_IN_S)) (hz / MHZ)
  else if hz mod KHZ =? 0 then udiv (u64 (ncycles * US_IN_S)) (hz / KHZ)
  else
  let ncycles_in_s := u128 (ncycles * NS_IN_S) in
  r ← udiv128by64to64 (HIGH_WORD ncycles_in_s) (LOW_WORD ncycles_in_s) NS_IN_S;
  mret (r : Z * Z).1.

Definition freq_ns_and_hz_to_cycles (ns hz : Z) : res Z :=
  let calc := u128 (ns * hz) in
  r ← udiv128by64to64 (HIGH_WORD calc) (LOW_WORD calc) NS_IN_S;
  mret (r : Z * Z).1.

Definition set_timeout (timeout : Z) : M timer_state unit :=
  s ← get;
  ticks ← lift (freq_ns_and_hz_to_cycles timeout (tm_timer_freq s));
  generic_timer_set_compare ticks.

Definition process_timeouts (curr_time : Z) : M timer_state unit :=
  next_timeout ← on_table (process_table 0 curr_time);
  when (negb (next_timeout =? UINT64_MAX)) (set_timeout next_timeout).

Definition init (dr : device_resources) (cntfrq : Z) : M timer_state unit :=
  assert_ (dr_magic dr);;
  assert_ (dr_num_irqs dr =? 1);;
  assert_ (dr_num_regions dr =? 0);;
  on_table (emit (IrqAck (dr_irq_id dr)));;
  on_table init_timeouts;;
  generic_timer_set_compare UINT64_MAX;;
  generic_timer_enable;;
  modify (set_timer_freq (generic_timer_get_freq cntfrq)).

Definition notified (dr : device_resources) (ticks ch : Z) : M timer_state unit :=
  assert_ (ch =? dr_irq_id dr);;
  on_table (emit (DeferredIrqAck ch));;
  generic_timer_set_compare UINT64_MAX;;
  s ← get;
  curr_time ← lift (freq_cycles_and_hz_to_ns ticks (tm_timer_freq s));
  process_timeouts curr_time.

(** [mr0] is the first message register of the call; the result is the number
    of registers of the reply and what the first of them holds. *)
Definition protected (ticks ch label mr0 : Z) : M timer_state (Z * option Z) :=
  if label =? SDDF_TIMER_GET_TIME then
    s ← get;
    time_ns ← lift (freq_cycles_and_hz_to_ns ticks (tm_timer_freq s));
    mret (1, Some time_ns)
  else if label =? SDDF_TIMER_SET_TIMEOUT then
    s ← get;
    curr_time ← lift (freq_cycles_and_hz_to_ns ticks (tm_timer_freq s));
    let offset_us := mr0 in
    on_table (store_timeout ch (u64 (curr_time + offset_us)));;
    process_timeouts curr_time;;
    mret (0, None)
  else mret (0, None).

(** ** Conversions *)

(** A frequency the conversions are exact for: whole kilohertz, at most one
    gigahertz. *)
Definition freq_ok (hz : Z) : Prop := 0 < hz <= GHZ /\ hz mod KHZ = 0.

(** A counter value whose time does not overflow on the way. *)
Definition ticks_ok (ticks : Z) : Prop := 0 <= ticks /\ ticks * US_IN_S < 2 ^ 64.

Definition ns_of (hz ticks : Z) : Z := ticks * NS_IN_S / hz.
Definition cycles_of (hz ns : Z) : Z := ns * hz / NS_IN_S.

Lemma mul_div_divisible a m hz k : 0 < hz -> 0 < k -> hz mod k = 0 -> a * m / (hz / k) = a * (m * k) / hz.
Proof.
  intros Hh Hk Hm. assert (hz = k * (hz / k)) as E by (pose proof (Z.div_mod hz k ltac:(lia)); lia).
  assert (0 < hz / k) by nia. rewrite E at 2. rewrite (Z.mul_comm k (hz / k)), Z.mul_assoc.
  by rewrite Z.div_mul_cancel_r by lia.
Qed.

Lemma freq_cycles_spec ticks hz : freq_ok hz -> ticks_ok ticks -> freq_cycles_and_hz_to_ns ticks hz = Ok (ns_of hz ticks).
Proof.
  unfold freq_ok, ticks_ok, freq_cycles_and_hz_to_ns, ns_of, GHZ, MHZ, KHZ, US_IN_S, MS_IN_S, NS_IN_S.
  change (1000 * (1000 * 1000)) with 1000000000. change (1000 * 1000) with 1000000. intros [Hh Hk] [Ht Ht'].
  assert (forall k, 0 < k -> hz mod k = 0 -> hz / k <> 0) as Hnz.
  { intros k Hk0 Hm E. pose proof (Z.div_mod hz k ltac:(lia)). lia. }
  destruct (Z.eqb_spec (hz mod 1000000000) 0) as [Hg|_]; [|destruct (Z.eqb_spec (hz mod 1000000) 0) as [Hm|_]].
  - rewrite udiv_ok by (apply Hnz; lia). f_equal. rewrite <- (Z.mul_1_r ticks) at 1. rewrite mul_div_divisible by lia. done.
  - rewrite udiv_ok by (apply Hnz; lia). f_equal. rewrite u64_small by (unfold is_u64; lia).
    rewrite mul_div_divisible by lia. done.
  - rewrite Hk. cbn [Z.eqb]. rewrite udiv_ok by (apply Hnz; lia). f_equal. rewrite u64_small by (unfold is_u64; lia).
    rewrite mul_div_divisible by lia. done.
Qed.

Lemma words_128 x : 0 <= x < 2 ^ 128 -> HIGH_WORD x * 2 ^ 64 + LOW_WORD x = x /\ is_u64 (LOW_WORD x) /\ 0 <= HIGH_WORD x.
Proof.
  intros Hx. unfold HIGH_WORD, LOW_WORD, is_u64. rewrite Z.land_ones, Z.shiftr_div_pow2 by lia.
  pose proof (Z.div_mod x (2 ^ 64) ltac:(lia)). pose proof (Z.mod_pos_bound x (2 ^ 64) ltac:(lia)).
  pose proof (Z.div_pos x (2 ^ 64)). lia.
Qed.

Lemma div_by_ns x : 0 <= x -> x / NS_IN_S < 2 ^ 64 ->
  udiv128by64to64 (HIGH_WORD x) (LOW_WORD x) NS_IN_S = Ok (x / NS_IN_S, x mod NS_IN_S).
Proof.
  unfold NS_IN_S. intros Hx Hq. assert (x < 2 ^ 64 * 1000000000) as Hlt.
  { pose proof (Z.div_mod x 1000000000 ltac:(lia)). pose proof (Z.mod_pos_bound x 1000000000 ltac:(lia)). lia. }
  destruct (words_128 x) as (E & Hl & Hh); [lia|]. rewrite udiv128by64to64_spec by (done || unfold is_u64 in Hl; lia).
  by rewrite E.
Qed.

Lemma freq_ns_spec ns hz : freq_ok hz -> is_u64 ns -> freq_ns_and_hz_to_cycles ns hz = Ok (cycles_of hz ns).
Proof.
  intros [Hh _] Hns. unfold freq_ns_and_hz_to_cycles, cycles_of. unfold GHZ, MHZ, KHZ, is_u64 in *.
  unfold u128. rewrite Z.mod_small by nia. rewrite div_by_ns; [done|nia|].
  apply Z.div_lt_upper_bound; unfold NS_IN_S; nia.
Qed.

(** When the frequency is not a whole number of kilohertz the conversion
    divides by the wrong number: the count itself comes out as its time. *)
Theorem freq_cycles_other_frequency (ticks hz : Z) :
  is_u64 ticks -> hz mod KHZ <> 0 -> freq_cycles_and_hz_to_ns ticks hz = Ok ticks.
Proof.
  intros Ht Hk. unfold freq_cycles_and_hz_to_ns.
  assert (forall m, m <> 0 -> hz mod (m * KHZ) <> 0) as Hn.
  { intros m Hm E. apply Hk. apply Z.mod_divide in E as [q ->]; [|unfold KHZ; lia].
    replace (q * (m * KHZ)) with (q * m * KHZ) by lia. apply Z.mod_mul. done. }
  unfold GHZ, MHZ. rewrite (Z.mul_assoc 1000 1000). rewrite !(proj2 (Z.eqb_neq _ _)) by (done || apply Hn; done).
  unfold u128, is_u64, NS_IN_S in *. rewrite Z.mod_small by lia. change 1000000000 with NS_IN_S.
  assert (ticks * NS_IN_S / NS_IN_S = ticks) as E by (apply Z.div_mul; done).
  rewrite div_by_ns by (rewrite ?E; unfold NS_IN_S; lia). by rewrite E.
Qed.

(** A deadline has passed at a count iff the count is past the programmed one,
    up to one tick. *)
Lemma deadline_not_late hz T ticks : 0 < hz -> T <= ns_of hz ticks -> cycles_of hz T <= ticks.
Proof.
  unfold ns_of, cycles_of, NS_IN_S. intros Hh HT. apply Z.div_le_upper_bound; [lia|].
  pose proof (Z.mul_div_le (ticks * 1000000000) hz Hh). nia.
Qed.

Lemma deadline_reached hz T ticks : 0 < hz -> cycles_of hz T < ticks -> T <= ns_of hz ticks.
Proof.
  unfold ns_of, cycles_of, NS_IN_S. intros Hh HT. apply Z.div_le_lower_bound; [lia|].
  pose proof (Z.mul_succ_div_gt (T * hz) 1000000000 ltac:(lia)). lia.
Qed.

Lemma ns_of_range hz ticks : freq_ok hz -> ticks_ok ticks -> is_u64 (ns_of hz ticks).
Proof.
  unfold freq_ok, ticks_ok, ns_of, is_u64, KHZ, US_IN_S, NS_IN_S. intros [[Hh _] Hk] [Ht Ht'].
  pose proof (Z.div_mod hz 1000 ltac:(lia)). assert (1000 <= hz) by lia.
  split; [apply Z.div_pos; lia|]. apply Z.div_lt_upper_bound; nia.
Qed.

(** ** The deadlines *)

Record timer_wf (s : timer_state) : Prop := {
  tw_table : table_wf (tm_table s);
  tw_freq : freq_ok (tm_timer_freq s);
}.

(** The comparator after the deadlines [l] are left. *)
Definition programmed (hz : Z) (l : list Z) (cval : Z) : Z :=
  if earliest l =? UINT64_MAX then cval else cycles_of hz (earliest l).

Lemma process_timeouts_spec curr s (Q : unit -> timer_state -> Prop) :
  timer_wf s ->
  Q tt (mk_timer (tm_timer_freq s) (processed 0 curr (tm_table s)) (tm_ctl s)
         (programmed (tm_timer_freq s) (tt_timeouts (processed 0 curr (tm_table s))) (tm_cval s))) ->
  wp (process_timeouts curr) s Q.
Proof.
  intros [Ht Hf] HQ. unfold process_timeouts, on_table. do 2 wp_step. apply process_table_spec; [done|].
  unfold programmed in HQ. apply wp_when; intros Hb.
  - apply negb_true_iff in Hb. rewrite Hb in HQ. unfold set_timeout. do 3 wp_step. cbn [tm_timer_freq set_table].
    eapply wp_lift; [apply freq_ns_spec; [done|apply earliest_range, processed_wf, Ht]|].
    unfold generic_timer_set_compare. by wp_step.
  - apply negb_false_iff in Hb. by rewrite Hb in HQ.
Qed.

(** ** Sequences of interrupts and calls *)

Inductive timer_op : Type :=
| Irq (ticks : Z)
| Call (ticks ch label mr0 : Z).

Definition timer_step (dr : device_resources) (op : timer_op) : M timer_state unit :=
  match op with
  | Irq ticks => notified dr ticks (dr_irq_id dr)
  | Call ticks ch label mr0 => protected ticks ch label mr0;; mret tt
  end.

(** A client has a channel below [MAX_TIMEOUTS], and its deadline is not
    beyond the range of the clock. *)
Definition timer_op_ok (hz : Z) (op : timer_op) : Prop :=
  match op with
  | Irq ticks => ticks_ok ticks
  | Call ticks ch label mr0 =>
    ticks_ok ticks /\ 0 <= ch < MAX_TIMEOUTS /\ 0 <= mr0 /\ ns_of hz ticks + mr0 < UINT64_MAX
  end.

(** The comparator holds the earliest deadline. *)
Record timer_inv (hz : Z) (s : timer_state) : Prop := {
  ti_wf : timer_wf s;
  ti_hz : tm_timer_freq s = hz;
  ti_armed : earliest (tm_timeouts s) <> UINT64_MAX -> tm_cval s = cycles_of hz (earliest (tm_timeouts s));
}.

(** [process_timeouts] establishes it, whatever the comparator held. *)
Lemma process_timeouts_inv hz curr s (Q : unit -> timer_state -> Prop) :
  timer_wf s -> tm_timer_freq s = hz ->
  (forall s', timer_inv hz s' -> tm_table s' = processed 0 curr (tm_table s) -> Q tt s') ->
  wp (process_timeouts curr) s Q.
Proof.
  intros Hwf Hhz HQ. apply process_timeouts_spec; [done|]. apply HQ; [|done].
  split; [split; [apply processed_wf|]; apply Hwf|done|]. unfold tm_timeouts. cbn [tm_table tm_cval]. intros He.
  unfold programmed. rewrite (proj2 (Z.eqb_neq _ _)) by done. by rewrite Hhz.
Qed.

Lemma notified_timer_spec dr hz ticks s (Q : unit -> timer_state -> Prop) :
  timer_wf s -> tm_timer_freq s = hz -> ticks_ok ticks ->
  (forall s', timer_inv hz s' ->
     tm_table s' = processed 0 (ns_of hz ticks) (with_event (DeferredIrqAck (dr_irq_id dr)) (tm_table s)) -> Q tt s') ->
  wp (notified dr ticks (dr_irq_id dr)) s Q.
Proof.
  intros Hwf Hhz Ht HQ. pose proof (tw_freq _ Hwf) as Hf. unfold notified, on_table, emit, generic_timer_set_compare.
  wp_step. apply wp_assert; [by rewrite Z.eqb_refl|]. repeat wp_step. cbn [tm_timer_freq set_cval set_table].
  eapply wp_lift; [by apply freq_cycles_spec|]. rewrite Hhz. apply (process_timeouts_inv hz); [|done|done].
  split; [apply Hwf|done].
Qed.

Lemma set_timeout_spec hz ticks ch mr0 s (Q : Z * option Z -> timer_state -> Prop) :
  timer_wf s -> tm_timer_freq s = hz -> timer_op_ok hz (Call ticks ch SDDF_TIMER_SET_TIMEOUT mr0) ->
  (forall s', timer_inv hz s' ->
     tm_table s' = processed 0 (ns_of hz ticks) (with_deadline ch (ns_of hz ticks + mr0) (tm_table s)) -> Q (0, None) s') ->
  wp (protected ticks ch SDDF_TIMER_SET_TIMEOUT mr0) s Q.
Proof.
  intros Hwf Hhz (Ht & Hch & Hm & Hlt) HQ. pose proof (tw_freq _ Hwf) as Hf. pose proof (tw_table _ Hwf) as Htw.
  unfold protected. change (SDDF_TIMER_SET_TIMEOUT =? SDDF_TIMER_GET_TIME) with false.
  rewrite Z.eqb_refl. cbn [negb]. do 3 wp_step. eapply wp_lift; [by apply freq_cycles_spec|]. rewrite Hhz in *.
  pose proof (ns_of_range hz ticks Hf Ht) as Hns.
  assert (is_u64 (ns_of hz ticks + mr0)) as Hsum by (unfold UINT64_MAX, is_u64 in *; lia).
  rewrite u64_small by done. unfold on_table. do 2 wp_step. apply store_timeout_spec; [done..|]. wp_step.
  apply (process_timeouts_inv hz); [|done|].
  - split; cbn; [by apply with_deadline_wf|by rewrite Hhz].
  - intros s' Hi Htm. wp_step. by apply HQ.
Qed.

Lemma protected_other_spec hz ticks ch label mr0 s (Q : Z * option Z -> timer_state -> Prop) :
  freq_ok (tm_timer_freq s) -> tm_timer_freq s = hz -> ticks_ok ticks -> label <> SDDF_TIMER_SET_TIMEOUT ->
  Q (if label =? SDDF_TIMER_GET_TIME then (1, Some (ns_of hz ticks)) else (0, None)) s ->
  wp (protected ticks ch label mr0) s Q.
Proof.
  intros Hf Hhz Ht Hl HQ. unfold protected. destruct (label =? SDDF_TIMER_GET_TIME).
  - do 2 wp_step. wp_step. eapply wp_lift; [by apply freq_cycles_spec|]. rewrite Hhz. by wp_step.
  - rewrite (proj2 (Z.eqb_neq _ _)) by done. by wp_step.
Qed.

Lemma timer_step_inv dr hz op s : timer_inv hz s -> timer_op_ok hz op -> wp (timer_step dr op) s (fun _ => timer_inv hz).
Proof.
  intros Hi Hok. pose proof Hi as [Hwf Hhz _]. destruct op as [ticks|ticks ch label mr0]; cbn [timer_step].
  - by apply (notified_timer_spec dr hz).
  - wp_step. destruct (decide (label = SDDF_TIMER_SET_TIMEOUT)) as [->|Hn].
    + apply (set_timeout_spec hz); [done..|]. intros s' Hs' _. by wp_step.
    + apply (protected_other_spec hz); [apply Hwf|done|apply Hok|done|]. by wp_step.
Qed.

Lemma timer_init_spec dr cntfrq s (Q : unit -> timer_state -> Prop) :
  dr_magic dr = true -> dr_num_irqs dr = 1 -> dr_num_regions dr = 0 ->
  length (tm_timeouts s) = 6%nat -> freq_ok (u32 cntfrq) ->
  (forall s', timer_inv (u32 cntfrq) s' -> Q tt s') -> wp (init dr cntfrq) s Q.
Proof.
  intros Hm Hi Hr Hl Hf HQ. unfold init, on_table, emit. wp_step. apply wp_assert; [done|].
  wp_step. apply wp_assert; [by rewrite Hi|]. wp_step. apply wp_assert; [by rewrite Hr|]. repeat wp_step.
  apply init_timeouts_spec; [done|]. unfold generic_timer_set_compare, generic_timer_enable, generic_timer_or_ctrl,
    generic_timer_write_ctrl. repeat wp_step. apply HQ. split; [|done|by intros []]. split; [|done].
  split; [done|]. by repeat constructor.
Qed.

(** ** The driver implements the timer service *)

(** The driver with the counter it reads. *)
Record arm_timer : Type := mk_arm_timer {
  ar_dr : device_resources;
  ar_driver : timer_state;
  ar_clock : clock; (* CNTPCT *)
}.

Definition ar_set_driver (x : timer_state) (a : arm_timer) : arm_timer := mk_arm_timer (ar_dr a) x (ar_clock a).
Definition ar_set_clock (x : clock) (a : arm_timer) : arm_timer := mk_arm_timer (ar_dr a) (ar_driver a) x.

Definition arm_step (r : timer_request) : M arm_timer (option Z) :=
  ticks ← zoom ar_clock ar_set_clock elapse;
  dr ← gets ar_dr;
  match r with
  | TInterrupt => zoom ar_driver ar_set_driver (notified dr ticks (dr_irq_id dr));; mret None
  | TCall ch label mr0 =>
    reply ← zoom ar_driver ar_set_driver (protected ticks ch label mr0);
    mret (reply : Z * option Z).2
  end.

Definition arm_inv (a : arm_timer) : Prop :=
  timer_inv (tm_timer_freq (ar_driver a)) (ar_driver a) /\ clock_below (2 ^ 63 / US_IN_S) (ar_clock a).

#[export] Instance arm_timer_driver : TimerDriver arm_timer timer_request := {
  td_clock a := ns_of (tm_timer_freq (ar_driver a)) (ck_now (ar_clock a));
  td_service a := service_of (tm_table (ar_driver a));
  td_kind := timer_kind id;
  td_base := 0;
  td_time := id;
  td_step := arm_step;
  td_inv := arm_inv;
  td_good _ := True;
  td_skew := eq;
}.

Lemma ns_of_mono hz t t' : 0 < hz -> t <= t' -> ns_of hz t <= ns_of hz t'.
Proof. intros Hh Ht. unfold ns_of. apply Z.div_le_mono; unfold NS_IN_S; lia. Qed.

Lemma ns_of_bound hz t : freq_ok hz -> 0 <= t < 2 ^ 63 / US_IN_S -> ticks_ok t /\ ns_of hz t < 2 ^ 63.
Proof.
  unfold freq_ok, ticks_ok, ns_of, US_IN_S, NS_IN_S, KHZ. intros [[Hh _] Hk] Ht.
  change (2 ^ 63 / 1000000) with 9223372036854 in Ht. split; [lia|].
  pose proof (Z.div_mod hz 1000 ltac:(lia)). apply Z.div_lt_upper_bound; nia.
Qed.

#[export] Instance arm_timer_ok : TimerDriverOk arm_timer timer_request.
Proof.
  split. intros [dr s c] r [Hi Hc] Hr. cbn [td_inv td_step td_kind arm_timer_driver ar_driver ar_clock] in *.
  pose proof (tw_freq _ (ti_wf _ _ Hi)) as Hf. unfold arm_step. wp_step. wp_step. apply (elapse_below _ _ _ Hc).
  intros c' Hle Hc'. do 2 wp_step. cbn [ar_dr ar_set_clock ar_driver]. set (hz := tm_timer_freq s) in *.
  destruct Hc as [H0 _]. cbn [ar_clock] in *. destruct (ns_of_bound hz (ck_now c') Hf ltac:(lia)) as [Ht Hns].
  assert (forall s' reply, timer_inv hz s' ->
    service_step 0 id (ns_of hz (ck_now c')) (timer_kind id r) (service_of (tm_table s)) = (service_of (tm_table s'), reply) ->
    arm_inv (mk_arm_timer dr s' c') /\ implements (mk_arm_timer dr s c) r reply (mk_arm_timer dr s' c')) as Hstep.
  { intros s' reply Hs' E. split; [split; cbn; [by rewrite (ti_hz _ _ Hs')|done]|]. intros _. split; [done|].
    exists (ns_of hz (ck_now c')), (ns_of hz (ck_now c')). cbn. rewrite (ti_hz _ _ Hs'). split_and!; try done.
    apply ns_of_mono; [apply Hf|lia]. }
  destruct r as [|ch label mr0].
  - do 2 wp_step. apply (notified_timer_spec dr hz); [apply Hi|done|done|]. intros s' Hs' E. wp_step.
    apply Hstep; [done|]. by rewrite E, service_of_processed, service_of_event.
  - do 2 wp_step. cbn [ar_driver ar_set_clock]. unfold timer_kind, call_kind in *.
    destruct (Z.eqb_spec label SDDF_TIMER_SET_TIMEOUT) as [->|Hn].
    + change (SDDF_TIMER_SET_TIMEOUT =? SDDF_TIMER_GET_TIME) with false in *. cbn [req_ok] in Hr. rewrite Z.sub_0_r in *.
      apply (set_timeout_spec hz); [apply Hi|done| |].
      * split; [done|]. unfold id in Hr. pose proof (ns_of_range hz _ Hf Ht). unfold UINT64_MAX, is_u64 in *. lia.
      * intros s' Hs' E. wp_step. apply Hstep; [done|]. by rewrite E, service_of_processed.
    + apply (protected_other_spec hz); [done..|]. wp_step. apply Hstep; [done|]. by destruct (label =? SDDF_TIMER_GET_TIME).
Qed.

(** The driver keeps the deadlines of its clients with one comparator.
    After initialisation and any sequence of interrupts and calls, nothing
    faults, and in the state reached: an interrupt notifies exactly the clients
    whose deadline has passed, in order of their channels; the comparator is
    never set later than the tick at which the earliest deadline has passed;
    one tick past the comparator that deadline has passed, so the interrupt
    serves it; and a call that sets a timeout makes its client's deadline the
    current time plus the timeout, unless that has already passed. *)
Theorem timer_deadlines (dr : device_resources) (cntfrq : Z) (ops : list timer_op) (s0 : timer_state) :
  dr_magic dr = true -> dr_num_irqs dr = 1 -> dr_num_regions dr = 0 ->
  length (tm_timeouts s0) = 6%nat -> freq_ok (u32 cntfrq) -> Forall (timer_op_ok (u32 cntfrq)) ops ->
  exists s, (init dr cntfrq;; for_each ops (timer_step dr)) s0 = Ok (tt, s) /\
    (forall ticks, ticks_ok ticks -> exists s',
       notified dr ticks (dr_irq_id dr) s = Ok (tt, s') /\
       tm_events s' = tm_events s ++ DeferredIrqAck (dr_irq_id dr)
         :: notify_all 0 (expired_ids (ns_of (u32 cntfrq) ticks) (tm_timeouts s))) /\
    (earliest (tm_timeouts s) <> UINT64_MAX -> forall ticks,
       (earliest (tm_timeouts s) <= ns_of (u32 cntfrq) ticks -> tm_cval s <= ticks) /\
       (tm_cval s < ticks -> earliest (tm_timeouts s) <= ns_of (u32 cntfrq) ticks)) /\
    (forall ticks ch mr0, timer_op_ok (u32 cntfrq) (Call ticks ch SDDF_TIMER_SET_TIMEOUT mr0) -> exists r s',
       protected ticks ch SDDF_TIMER_SET_TIMEOUT mr0 s = Ok (r, s') /\
       tm_timeouts s' = expire (ns_of (u32 cntfrq) ticks)
         <$> <[Z.to_nat ch := ns_of (u32 cntfrq) ticks + mr0]> (tm_timeouts s)).
Proof.
  intros Hm Hi Hr Hl Hf Hops. set (hz := u32 cntfrq) in *.
  assert (wp (init dr cntfrq;; for_each ops (timer_step dr)) s0 (fun _ => timer_inv hz)) as ([] & s & E & Hinv)%wp_elim.
  { wp_step. apply timer_init_spec; [done..|]. intros s1 H1.
    apply (wp_for_each (fun _ => timer_inv hz)); [done| |done]. intros pre op post s' -> Hs'.
    apply Forall_app in Hops as [_ [Hop _]%Forall_cons]. by apply timer_step_inv. }
  exists s. pose proof Hinv as [Hwf Hhz Harm]. split_and!; [done|..].
  - intros ticks Ht.
    assert (wp (notified dr ticks (dr_irq_id dr)) s (fun _ s' => tm_events s' = tm_events s ++ DeferredIrqAck (dr_irq_id dr)
      :: notify_all 0 (expired_ids (ns_of hz ticks) (tm_timeouts s)))) as ([] & s' & E' & He)%wp_elim.
    { apply (notified_timer_spec dr hz); [done..|]. intros s' _ E'. unfold tm_events at 1. rewrite E'. cbn.
      by rewrite <- app_assoc. }
    by exists s'.
  - intros He ticks. rewrite (Harm He). split; [apply deadline_not_late|apply deadline_reached]; apply Hf.
  - intros ticks ch mr0 Hok.
    assert (wp (protected ticks ch SDDF_TIMER_SET_TIMEOUT mr0) s (fun _ s' => tm_timeouts s' = expire (ns_of hz ticks)
      <$> <[Z.to_nat ch := ns_of hz ticks + mr0]> (tm_timeouts s))) as (r & s' & E' & He)%wp_elim
      by (apply (set_timeout_spec hz); [done..|]; intros s' _ E'; unfold tm_timeouts at 1; by rewrite E').
    by exists r, s'.
Qed.

(** A 24 MHz timer and three timeouts. *)
Definition timer_dr_ex : device_resources := mk_device_resources true 1 0 4.
Definition timer_ops_ex : list timer_op :=
  [Call 24000 0 SDDF_TIMER_SET_TIMEOUT 5000000; Call 48000 1 SDDF_TIMER_SET_TIMEOUT 1000000;
   Call 48001 2 SDDF_TIMER_GET_TIME 0; Irq 72001; Call 72002 1 SDDF_TIMER_SET_TIMEOUT 10000].

Lemma timer_deadlines_witness :
  exists s, (init timer_dr_ex 24000000;; for_each timer_ops_ex (timer_step timer_dr_ex))
      (mk_timer 0 (mk_table (replicate 6 0) []) 0 0) = Ok (tt, s) /\
    earliest (tm_timeouts s) = 3010083 /\ tm_cval s = 72241 /\
    tm_events s = [IrqAck 4; DeferredIrqAck 4; Notify 1] /\
    forall ticks, tm_cval s < ticks -> earliest (tm_timeouts s) <= ns_of 24000000 ticks.
Proof.
  destruct (timer_deadlines timer_dr_ex 24000000 timer_ops_ex (mk_timer 0 (mk_table (replicate 6 0) []) 0 0))
    as (s & E & _ & Harm & _); [done|done|done|done|by vm_compute| |].
  { repeat apply Forall_cons_2; try apply Forall_nil_2; vm_compute; intuition congruence. }
  exists s. split; [exact E|]. vm_compute in E. injection E as <-.
  split_and!; [by vm_compute|done|done|]. intros ticks. apply Harm. by vm_compute.
Defined.
