(* ===== verification/TimerGoldfish.v ===== *)
(** * The Goldfish timer driver: drivers/timer/goldfish/timer.c

    The timer of the emulator: a clock in nanoseconds that is read in two
    words, and an alarm at a given time.  The C build is modelled; the build
    with the Pancake compiler calls code that is not C. *)

From S2P Require Import Prelude Microkit TimerTable.

(** The driver's [timeouts] and the device: reading [time_low] latches the
    high word of the clock for [time_high], writing [alarm_low] activates the
    alarm. *)
Record goldfish : Type := mk_goldfish {
  gf_dr : device_resources;
  gf_table : table;
  gf_clock : clock;
  gf_latch : Z;       (* time_high *)
  gf_alarm_low : Z;
  gf_alarm_high : Z;
  gf_active : bool;
  gf_irq_enabled : Z;
}.

Definition set_table (x : table) (s : goldfish) : goldfish := mk_goldfish (gf_dr s) x (gf_clock s) (gf_latch s) (gf_alarm_low s) (gf_alarm_high s) (gf_active s) (gf_irq_enabled s).
Definition set_clock (x : clock) (s : goldfish) : goldfish := mk_goldfish (gf_dr s) (gf_table s) x (gf_latch s) (gf_alarm_low s) (gf_alarm_high s) (gf_active s) (gf_irq_enabled s).
Definition set_latch (x : Z) (s : goldfish) : goldfish := mk_goldfish (gf_dr s) (gf_table s) (gf_clock s) x (gf_alarm_low s) (gf_alarm_high s) (gf_active s) (gf_irq_enabled s).
Definition set_alarm_low (x : Z) (s : goldfish) : goldfish := mk_goldfish (gf_dr s) (gf_table s) (gf_clock s) (gf_latch s) x (gf_alarm_high s) (gf_active s) (gf_irq_enabled s).
Definition set_alarm_high (x : Z) (s : goldfish) : goldfish := mk_goldfish (gf_dr s) (gf_table s) (gf_clock s) (gf_latch s) (gf_alarm_low s) x (gf_active s) (gf_irq_enabled s).
Definition set_active (x : bool) (s : goldfish) : goldfish := mk_goldfish (gf_dr s) (gf_table s) (gf_clock s) (gf_latch s) (gf_alarm_low s) (gf_alarm_high s) x (gf_irq_enabled s).
Definition set_irq_enabled (x : Z) (s : goldfish) : goldfish := mk_goldfish (gf_dr s) (gf_table s) (gf_clock s) (gf_latch s) (gf_alarm_low s) (gf_alarm_high s) (gf_active s) x.

Definition on_table {A} (m : M table A) : M goldfish A := zoom gf_table set_table m.
Definition pass : M goldfish Z := zoom gf_clock set_clock elapse.

(** ** The registers *)

Definition read_time_low : M goldfish Z :=
  now ← pass;
  modify (set_latch (u32 (Z.shiftr now 32)));;
  mret (u32 now).
Definition read_time_high : M goldfish Z := pass;; gets gf_latch.
Definition write_alarm_high (x : Z) : M goldfish unit := modify (set_alarm_high x).
Definition write_alarm_low (x : Z) : M goldfish unit := modify (set_alarm_low x);; modify (set_active true).
Definition write_irq_enabled (x : Z) : M goldfish unit := modify (set_irq_enabled x).
Definition clear_interrupt : Z := 0x1c.

(** ** The driver *)

Definition get_ticks_in_ns : M goldfish Z :=
  time ← read_time_low;
  high ← read_time_high;
  mret (Z.lor time (u64 (Z.shiftl high 32))).

Definition set_timeout (timeout : Z) : M goldfish unit :=
  write_alarm_high (u32 (Z.shiftr timeout 32));;
  write_alarm_low (u32 timeout);;
  write_irq_enabled 1.

Definition process_timeouts (curr_time : Z) : M goldfish unit :=
  next_timeout ← on_table (process_table 0 curr_time);
  when (negb (next_timeout =? UINT64_MAX)) (set_timeout next_timeout).

Definition init : M goldfish unit :=
  dr ← gets gf_dr;
  assert_ (dr_magic dr);;
  assert_ (dr_num_irqs dr =? 1);;
  assert_ (dr_num_regions dr =? 1);;
  on_table (emit (IrqAck (dr_irq_id dr)));;
  on_table init_timeouts.

Definition notified (ch : Z) : M goldfish unit :=
  dr ← gets gf_dr;
  assert_ (ch =? dr_irq_id dr);;
  on_table (emit (DeferredIrqAck ch));;
  on_table (emit (RegWrite clear_interrupt 1));;
  curr_time ← get_ticks_in_ns;
  process_timeouts curr_time.

(** The result is the number of registers of the reply and what the first of
    them holds. *)
Definition protected (ch label mr0 : Z) : M goldfish (Z * option Z) :=
  if label =? SDDF_TIMER_GET_TIME then
    time_ns ← get_ticks_in_ns;
    mret (1, Some time_ns)
  else if label =? SDDF_TIMER_SET_TIMEOUT then
    curr_time ← get_ticks_in_ns;
    let offset_us := mr0 in
    on_table (store_timeout ch (u64 (curr_time + offset_us)));;
    process_timeouts curr_time;;
    mret (0, None)
  else mret (0, None).

(** ** The alarm *)

(** An interrupt comes when the active alarm is reached, which ends it. *)
Definition goldfish_step (r : timer_request) : M goldfish (option Z) :=
  match r with
  | TInterrupt =>
    modify (set_active false);;
    dr ← gets gf_dr;
    notified (dr_irq_id dr);;
    mret None
  | TCall ch label mr0 =>
    reply ← protected ch label mr0;
    mret (reply : Z * option Z).2
  end.

(** The alarm is set, at [t]. *)
Definition alarm_at (s : goldfish) (t : Z) : Prop :=
  gf_active s = true /\ gf_irq_enabled s = 1 /\ Z.lor (Z.shiftl (gf_alarm_high s) 32) (gf_alarm_low s) = t.

Record goldfish_inv (s : goldfish) : Prop := {
  gi_table : table_wf (gf_table s);
  gi_clock : clock_below (2 ^ 63) (gf_clock s);
  gi_alarm : earliest (tt_timeouts (gf_table s)) <> UINT64_MAX -> alarm_at s (earliest (tt_timeouts (gf_table s)));
}.

#[export] Instance goldfish_driver : TimerDriver goldfish timer_request := {
  td_clock s := ck_now (gf_clock s);
  td_service s := service_of (gf_table s);
  td_kind := timer_kind id;
  td_base := 0;
  td_time := id;
  td_step := goldfish_step;
  td_inv := goldfish_inv;
  td_good _ := True;
  td_skew := eq;
}.

(** The two reads give the time of the first of them: the words are never of
    two different times. *)
Lemma goldfish_get_ticks_spec s (Q : Z -> goldfish -> Prop) :
  clock_below (2 ^ 63) (gf_clock s) ->
  (forall now c latch, ck_now (gf_clock s) <= now <= ck_now c -> now < 2 ^ 63 -> clock_below (2 ^ 63) c ->
     Q now (set_latch latch (set_clock c s))) ->
  wp get_ticks_in_ns s Q.
Proof.
  intros Hc HQ. unfold get_ticks_in_ns, read_time_low, read_time_high, pass. do 3 wp_step.
  apply (elapse_below _ _ _ Hc). intros c1 Hle1 Hc1. repeat wp_step. cbn [gf_clock set_latch set_clock].
  apply (elapse_below _ _ _ Hc1). intros c2 Hle2 Hc2. repeat wp_step. cbn [gf_latch set_latch set_clock].
  destruct Hc as [H0 _]. assert (is_u64 (ck_now c1)) as H1 by (unfold is_u64; lia).
  rewrite (u32_small (Z.shiftr _ _)) by by apply high_word_range.
  assert (is_u64 (Z.shiftl (Z.shiftr (ck_now c1) 32) 32)) as Hs.
  { rewrite Z.shiftl_mul_pow2 by done. pose proof (words_split (ck_now c1)). pose proof (u32_range (ck_now c1)).
    pose proof (high_word_range _ H1). unfold is_u64, is_u32 in *. lia. }
  rewrite u64_small, Z.lor_comm, words_join by done.
  apply (HQ (ck_now c1) c2 (Z.shiftr (ck_now c1) 32)); [lia|lia|done].
Qed.

(** After [process_timeouts] the alarm is at the earliest deadline left. *)
Lemma goldfish_process_timeouts_spec curr s (Q : unit -> goldfish -> Prop) :
  table_wf (gf_table s) -> clock_below (2 ^ 63) (gf_clock s) ->
  (forall s', goldfish_inv s' -> gf_clock s' = gf_clock s -> gf_table s' = processed 0 curr (gf_table s) -> Q tt s') ->
  wp (process_timeouts curr) s Q.
Proof.
  intros Ht Hc HQ. unfold process_timeouts, on_table. do 2 wp_step. apply process_table_spec; [done|].
  pose proof (processed_wf 0 curr _ Ht) as Hp. apply wp_when; intros Hb.
  - apply negb_true_iff, Z.eqb_neq in Hb.
    unfold set_timeout, write_alarm_high, write_alarm_low, write_irq_enabled. repeat wp_step. apply HQ; [|done|done].
    split; [done|done|]. intros _. split_and!; [done|done|]. cbn [gf_alarm_high gf_alarm_low gf_table set_irq_enabled set_active set_alarm_low set_alarm_high set_table].
    rewrite (u32_small (Z.shiftr _ _)) by apply high_word_range, earliest_range, Hp. apply words_join.
  - apply negb_false_iff, Z.eqb_eq in Hb. apply HQ; [|done|done]. by split.
Qed.

(** One request is one step of the service, at the time its clock was read. *)
Lemma goldfish_done s c r now reply s' :
  goldfish_inv s' -> gf_clock s' = c -> ck_now (gf_clock s) <= now <= ck_now c ->
  service_step 0 id now (timer_kind id r) (service_of (gf_table s)) = (service_of (gf_table s'), reply) ->
  goldfish_inv s' /\ implements s r reply s'.
Proof. intros Hi <- Hnow E. split; [done|]. intros _. split; [done|]. by exists now, now. Qed.

#[export] Instance goldfish_ok : TimerDriverOk goldfish timer_request.
Proof.
  split. intros s r [Ht Hc Ha] Hr. cbn [td_inv td_step td_kind goldfish_driver] in *.
  destruct r as [|ch label mr0]; cbn [goldfish_step].
  - repeat wp_step. unfold notified. repeat wp_step. apply wp_assert; [by apply Z.eqb_refl|]. unfold on_table, emit. repeat wp_step.
    apply goldfish_get_ticks_spec; [done|]. intros now c latch Hnow Hb Hc'. apply goldfish_process_timeouts_spec; [done|done|].
    intros s' Hi Hcl Htab. wp_step. eapply goldfish_done; [done|exact Hcl|exact Hnow|].
    rewrite Htab, service_of_processed. cbn [gf_table set_table set_latch set_clock set_active].
    by rewrite !(service_of_event _ (with_event _ _)), service_of_event.
  - unfold protected, timer_kind, call_kind in *. destruct (label =? SDDF_TIMER_GET_TIME) eqn:El; [|destruct (label =? SDDF_TIMER_SET_TIMEOUT) eqn:El'].
    + do 2 wp_step. apply goldfish_get_ticks_spec; [done|]. intros now c latch Hnow Hb Hc'. do 2 wp_step.
      apply (goldfish_done _ c _ now); [by split|done|done|]. unfold timer_kind, call_kind. by rewrite El.
    + do 2 wp_step. cbn [req_ok] in Hr. rewrite Z.sub_0_r in Hr. unfold id in Hr.
      apply goldfish_get_ticks_spec; [done|]. intros now c latch Hnow Hb Hc'. wp_step. destruct Hc as [H0 _].
      assert (is_u64 (now + mr0)) as Hsum by (unfold is_u64; lia). rewrite u64_small by done.
      unfold on_table. wp_step. apply store_timeout_spec; [apply Hr|done|]. wp_step.
      apply goldfish_process_timeouts_spec; [by apply with_deadline_wf|done|]. intros s' Hi Hcl Htab. do 2 wp_step.
      eapply goldfish_done; [done|exact Hcl|exact Hnow|]. unfold timer_kind, call_kind. rewrite El, El', Z.sub_0_r.
      by rewrite Htab, service_of_processed.
    + do 2 wp_step. pose proof (ck_now_end (gf_clock s)). apply (goldfish_done _ (gf_clock s) _ (ck_now (gf_clock s))); [by split|done|lia|].
      unfold timer_kind, call_kind. by rewrite El, El'.
Qed.

Lemma goldfish_init_spec s (Q : unit -> goldfish -> Prop) :
  dr_magic (gf_dr s) = true -> dr_num_irqs (gf_dr s) = 1 -> dr_num_regions (gf_dr s) = 1 ->
  length (tt_timeouts (gf_table s)) = 6%nat -> clock_below (2 ^ 63) (gf_clock s) ->
  (forall s', goldfish_inv s' -> gf_clock s' = gf_clock s -> tt_timeouts (gf_table s') = replicate 6 UINT64_MAX -> Q tt s') ->
  wp init s Q.
Proof.
  intros Hm Hi Hr Hl Hc HQ. unfold init, on_table, emit. do 3 wp_step. apply wp_assert; [done|].
  wp_step. apply wp_assert; [by rewrite Hi|]. wp_step. apply wp_assert; [by rewrite Hr|]. repeat wp_step.
  apply init_timeouts_spec; [done|]. apply HQ; [|done|done]. split; [|done|by intros []].
  split; [done|]. by repeat constructor.
Qed.

(** The Goldfish driver implements the timer service.  After initialisation
    and any sequence of interrupts and calls nothing faults; notifications and
    replies are those of the service at times that follow each other, each
    within the handler that read it, although the clock is read in two words;
    and in the state reached the alarm is active, at exactly the earliest
    deadline left. *)
Theorem goldfish_timer_serves (s0 : goldfish) (rs : list timer_request) :
  dr_magic (gf_dr s0) = true -> dr_num_irqs (gf_dr s0) = 1 -> dr_num_regions (gf_dr s0) = 1 ->
  length (tt_timeouts (gf_table s0)) = 6%nat -> clock_below (2 ^ 63) (gf_clock s0) ->
  Forall (fun r => req_ok (timer_kind id r)) rs ->
  exists s1 replies s, init s0 = Ok (tt, s1) /\ run_requests rs s1 = Ok (replies, s) /\
    (exists nows, in_order (ck_now (gf_clock s1)) nows (ck_now (gf_clock s)) /\ length nows = length rs /\
       service_run 0 id (zip nows (timer_kind id <$> rs)) (service_of (gf_table s1)) = (service_of (gf_table s), replies)) /\
    (earliest (tt_timeouts (gf_table s)) <> UINT64_MAX -> alarm_at s (earliest (tt_timeouts (gf_table s)))).
Proof.
  intros Hm Hi Hr Hl Hc Hrs. assert (wp init s0 (fun _ => goldfish_inv)) as ([] & s1 & E1 & Hi1)%wp_elim
    by (by apply goldfish_init_spec).
  destruct (accurate_driver_runs (S:=goldfish) (R:=timer_request) rs s1) as (replies & s & E & His & Himp); [done|done|done|].
  exists s1, replies, s. split_and!; [done|done|by apply Himp|apply His].
Qed.

(** Two timeouts, the high word of the clock changing between the two reads
    that start the second. *)
Definition goldfish_ex : goldfish :=
  mk_goldfish (mk_device_resources true 1 1 4) (mk_table (replicate 6 0) [])
    (mk_clock 4294967000 [] [90; 100; 100; 20; 1000; 10; 3; 4]%N) 0 0 0 false 0.
Definition goldfish_reqs_ex : list timer_request :=
  [TCall 0 SDDF_TIMER_SET_TIMEOUT 700; TCall 1 SDDF_TIMER_SET_TIMEOUT 6000; TInterrupt; TCall 2 SDDF_TIMER_GET_TIME 0].

Lemma goldfish_timer_serves_witness :
  exists s1 s, init goldfish_ex = Ok (tt, s1) /\
    run_requests goldfish_reqs_ex s1 = Ok ([None; None; None; Some 4294968323], s) /\
    notified_of (tt_events (gf_table s)) = [0] /\ alarm_at s 4294973290.
Proof.
  destruct (goldfish_timer_serves goldfish_ex goldfish_reqs_ex) as (s1 & replies & s & E1 & E & _ & Ha);
    [done|done|done|done|done| |].
  { repeat constructor; vm_compute; intuition congruence. }
  exists s1, s. vm_compute in E1. injection E1 as <-. vm_compute in E. injection E as <- <-.
  split_and!; [done|done|done|]. by apply Ha.
Defined.
