(* ===== verification/TimerMeson.v ===== *)
(** * The Meson timer driver: drivers/timer/meson/timer.c

    Timer E counts microseconds in 64 bits, read in two words; timer A counts
    down and interrupts.  The C build is modelled; the build with the Pancake
    compiler calls code that is not C. *)

From S2P Require Import Prelude Microkit TimerTable.

Definition TIMER_A_INPUT_CLK : Z := 0.
Definition TIMER_E_INPUT_CLK : Z := 8.
Definition TIMER_A_EN : Z := Z.shiftl 1 16.
Definition TIMER_A_MODE : Z := Z.shiftl 1 12.
Definition TIMESTAMP_TIMEBASE_1_US : Z := 1.
Definition TIMEOUT_TIMEBASE_1_US : Z := 0.

(** The driver's [timeouts] and the device; [me_started] is the time when
    [timer_a] was written, from which it counts down. *)
Record meson : Type := mk_meson {
  me_dr : device_resources;
  me_table : table;
  me_clock : clock;
  me_mux : Z;     (* uint32_t *)
  me_timer_a : Z; (* uint32_t *)
  me_started : Z;
}.

Definition set_table (x : table) (s : meson) : meson := mk_meson (me_dr s) x (me_clock s) (me_mux s) (me_timer_a s) (me_started s).
Definition set_clock (x : clock) (s : meson) : meson := mk_meson (me_dr s) (me_table s) x (me_mux s) (me_timer_a s) (me_started s).
Definition set_mux (x : Z) (s : meson) : meson := mk_meson (me_dr s) (me_table s) (me_clock s) x (me_timer_a s) (me_started s).
Definition set_timer_a (x start : Z) (s : meson) : meson := mk_meson (me_dr s) (me_table s) (me_clock s) (me_mux s) x start.

Definition on_table {A} (m : M table A) : M meson A := zoom me_table set_table m.
Definition pass : M meson Z := zoom me_clock set_clock elapse.

(** ** The registers *)

Definition read_timer_e : M meson Z := now ← pass; mret (u32 now).
Definition read_timer_e_hi : M meson Z := now ← pass; mret (u32 (Z.shiftr now 32)).
Definition mux_clear (bits : Z) : M meson unit := modify (fun s => set_mux (Z.land (me_mux s) (u32 (Z.lnot bits))) s).
Definition mux_set (bits : Z) : M meson unit := modify (fun s => set_mux (Z.lor (me_mux s) bits) s).
Definition write_timer_a (x : Z) : M meson unit := now ← pass; modify (set_timer_a x now).
Definition timer_e_offset : Z := 0x48.

(** ** The driver *)

Definition get_ticks : M meson Z :=
  initial_high ← read_timer_e_hi;
  low ← read_timer_e;
  high ← read_timer_e_hi;
  low ← (if negb (high =? initial_high) then read_timer_e else mret low);
  mret (Z.lor (u64 (Z.shiftl high 32)) low).

Definition process_timeouts (curr_time : Z) : M meson unit :=
  next_timeout ← on_table (process_table 0 curr_time);
  when (negb (next_timeout =? UINT64_MAX)) (
    mux_clear TIMER_A_MODE;;
    write_timer_a (u32 (next_timeout - curr_time));;
    mux_set TIMER_A_EN).

Definition notified (ch : Z) : M meson unit :=
  dr ← gets me_dr;
  if negb (ch =? dr_irq_id dr) then mret tt
  else
  on_table (emit (DeferredIrqAck ch));;
  mux_clear TIMER_A_EN;;
  curr_time ← get_ticks;
  process_timeouts curr_time.

(** The result is the number of registers of the reply and what the first of
    them holds. *)
Definition protected (ch label mr0 : Z) : M meson (Z * option Z) :=
  if label =? SDDF_TIMER_GET_TIME then
    ticks ← get_ticks;
    mret (1, Some (u64 (ticks * NS_IN_US)))
  else if label =? SDDF_TIMER_SET_TIMEOUT then
    curr_time ← get_ticks;
    let offset_us := mr0 / NS_IN_US in
    on_table (store_timeout ch (u64 (curr_time + offset_us)));;
    process_timeouts curr_time;;
    mret (0, None)
  else mret (0, None).

Definition init : M meson unit :=
  dr ← gets me_dr;
  assert_ (dr_magic dr);;
  assert_ (dr_num_irqs dr =? 1);;
  assert_ (dr_num_regions dr =? 1);;
  on_table (emit (IrqAck (dr_irq_id dr)));;
  on_table init_timeouts;;
  modify (set_mux (Z.lor (Z.lor TIMER_A_EN (Z.shiftl TIMESTAMP_TIMEBASE_1_US TIMER_E_INPUT_CLK))
                    (Z.shiftl TIMEOUT_TIMEBASE_1_US TIMER_A_INPUT_CLK)));;
  on_table (emit (RegWrite timer_e_offset 0)).

(** ** The driver implements the timer service *)

(** The request comes after some time. *)
Definition meson_step (r : timer_request) : M meson (option Z) :=
  zoom me_clock set_clock idle;;
  match r with
  | TInterrupt => dr ← gets me_dr; notified (dr_irq_id dr);; mret None
  | TCall ch label mr0 => reply ← protected ch label mr0; mret (reply : Z * option Z).2
  end.

(** Microseconds whose nanoseconds fit 63 bits; an access to a register takes
    less than 2^30 of them. *)
Definition meson_clock_ok : clock -> Prop := clock_ok (2 ^ 63 / NS_IN_US) (2 ^ 30).

(** Timer A is counting, from the time [now] at which the table was last looked
    at or later, for the time that was left then until [t] (its low 32 bits). *)
Definition counts_down_to (s : meson) (t : Z) : Prop :=
  Z.testbit (me_mux s) 16 = true /\ Z.testbit (me_mux s) 12 = false /\
  exists now, now <= me_started s <= ck_now (me_clock s) /\ now < t /\ me_timer_a s = u32 (t - now).

Record meson_inv (s : meson) : Prop := {
  mi_table : table_wf (me_table s);
  mi_clock : meson_clock_ok (me_clock s);
  mi_armed : earliest (tt_timeouts (me_table s)) <> UINT64_MAX -> counts_down_to s (earliest (tt_timeouts (me_table s)));
}.

Definition meson_kind : timer_request -> service_req := timer_kind (fun mr0 => mr0 / NS_IN_US).

#[export] Instance meson_driver : TimerDriver meson timer_request := {
  td_clock s := ck_now (me_clock s);
  td_service s := service_of (me_table s);
  td_kind := meson_kind;
  td_base := 0;
  td_time now := now * NS_IN_US;
  td_step := meson_step;
  td_inv := meson_inv;
  td_good _ := True;
  td_skew := eq;
}.

(** The two words are put together right: when the high word changed the low
    word is read again, and there is no time for a second change. *)
Lemma meson_words t1 t2 t3 t4 :
  0 <= t1 <= t2 -> t2 <= t3 <= t4 -> t4 < t1 + 2 ^ 32 -> t4 < 2 ^ 63 ->
  let high := u32 (Z.shiftr t3 32) in
  Z.lor (u64 (Z.shiftl high 32)) (u32 (if high =? u32 (Z.shiftr t1 32) then t2 else t4))
    = if high =? u32 (Z.shiftr t1 32) then t2 else t4.
Proof.
  intros H12 H34 Hs Hb high. subst high.
  assert (forall t, 0 <= t < 2 ^ 63 -> u32 (Z.shiftr t 32) = t / 2 ^ 32 /\ 0 <= t / 2 ^ 32 < 2 ^ 31) as Hhi.
  { intros t Ht. rewrite Z.shiftr_div_pow2 by done.
    assert (0 <= t / 2 ^ 32 < 2 ^ 31) by (split; [apply Z.div_pos; lia|apply Z.div_lt_upper_bound; lia]).
    rewrite u32_small; [done|unfold is_u32; lia]. }
  assert (forall t, u32 t = t mod 2 ^ 32) as Hlo by done.
  destruct (Hhi t1) as [-> _]; [lia|]. destruct (Hhi t3) as [-> H3]; [lia|].
  rewrite u64_small by (rewrite Z.shiftl_mul_pow2 by done; unfold is_u64; lia).
  rewrite lor_words by apply u32_range. rewrite Hlo.
  pose proof (Z.div_mod t1 (2 ^ 32)). pose proof (Z.div_mod t2 (2 ^ 32)). pose proof (Z.div_mod t4 (2 ^ 32)).
  pose proof (Z.mod_pos_bound t1 (2 ^ 32)). pose proof (Z.mod_pos_bound t4 (2 ^ 32)). pose proof (Z.mod_pos_bound t2 (2 ^ 32)).
  pose proof (Z.div_le_mono t1 t2 (2 ^ 32)). pose proof (Z.div_le_mono t2 t3 (2 ^ 32)). pose proof (Z.div_le_mono t3 t4 (2 ^ 32)).
  destruct (Z.eqb_spec (t3 / 2 ^ 32) (t1 / 2 ^ 32)); lia.
Qed.

Lemma meson_pass_spec s (Q : Z -> meson -> Prop) :
  meson_clock_ok (me_clock s) ->
  (forall c, ck_now (me_clock s) <= ck_now c < ck_now (me_clock s) + 2 ^ 30 -> ck_now c < 2 ^ 63 / NS_IN_US ->
     meson_clock_ok c -> Q (ck_now c) (set_clock c s)) ->
  wp pass s Q.
Proof. intros Hc HQ. unfold pass. wp_step. by apply (elapse_ok (2 ^ 63 / NS_IN_US) (2 ^ 30)). Qed.

Lemma meson_get_ticks_spec s (Q : Z -> meson -> Prop) :
  meson_clock_ok (me_clock s) ->
  (forall now c, ck_now (me_clock s) <= now <= ck_now c -> now < 2 ^ 63 / NS_IN_US -> meson_clock_ok c -> Q now (set_clock c s)) ->
  wp get_ticks s Q.
Proof.
  intros Hc HQ. unfold get_ticks, read_timer_e, read_timer_e_hi. pose proof (co_nonneg _ _ _ Hc).
  assert (2 ^ 63 / NS_IN_US < 2 ^ 63) by done.
  do 2 wp_step. apply meson_pass_spec; [done|]. intros c1 Hle1 _ Hc1. do 3 wp_step.
  apply meson_pass_spec; [done|]. intros c2 Hle2 _ Hc2. do 3 wp_step. cbn [me_clock set_clock] in *.
  apply meson_pass_spec; [done|]. intros c3 Hle3 Hb3 Hc3. do 2 wp_step. cbn [me_clock set_clock] in *.
  pose proof (meson_words (ck_now c1) (ck_now c2) (ck_now c3)) as Hw.
  destruct (u32 (Z.shiftr (ck_now c3) 32) =? u32 (Z.shiftr (ck_now c1) 32)) eqn:E; cbn [negb].
  - do 2 wp_step. specialize (Hw (ck_now c3) ltac:(lia) ltac:(lia) ltac:(lia) ltac:(lia)). cbv zeta in Hw. rewrite E in Hw.
    rewrite Hw. apply (HQ _ c3); [lia|lia|done].
  - wp_step. apply meson_pass_spec; [done|]. intros c4 Hle4 Hb4 Hc4. do 2 wp_step. cbn [me_clock set_clock] in *.
    specialize (Hw (ck_now c4) ltac:(lia) ltac:(lia) ltac:(lia) ltac:(lia)). cbv zeta in Hw. rewrite E in Hw.
    rewrite Hw. apply (HQ _ c4); [lia|lia|done].
Qed.

Lemma meson_process_timeouts_spec curr s (Q : unit -> meson -> Prop) :
  table_wf (me_table s) -> meson_clock_ok (me_clock s) -> curr <= ck_now (me_clock s) -> curr < UINT64_MAX ->
  (forall s', meson_inv s' -> ck_now (me_clock s) <= ck_now (me_clock s') -> me_table s' = processed 0 curr (me_table s) -> Q tt s') ->
  wp (process_timeouts curr) s Q.
Proof.
  intros Ht Hc Hle Hcurr HQ. unfold process_timeouts, on_table. do 2 wp_step. apply process_table_spec; [done|].
  pose proof (processed_wf 0 curr _ Ht) as Hp. apply wp_when; intros Hb.
  - unfold mux_clear, write_timer_a, mux_set. do 4 wp_step. apply meson_pass_spec; [done|].
    intros c' Hle' _ Hc'. do 2 wp_step. cbn [me_clock set_clock set_mux set_table] in *. apply HQ; [|cbn; lia|done].
    split; [done|done|]. intros _. split_and!; cbn [me_mux set_mux set_timer_a set_clock set_table].
    + by rewrite Z.lor_spec, orb_true_r.
    + by rewrite Z.lor_spec, Z.land_spec, !andb_false_r.
    + exists curr. cbn. split_and!; [lia|lia| |done]. by apply expire_later.
  - apply negb_false_iff, Z.eqb_eq in Hb. apply HQ; [|done|done]. by split.
Qed.

Lemma meson_done s r now reply s' :
  meson_inv s' -> ck_now (me_clock s) <= now <= ck_now (me_clock s') ->
  service_step 0 (fun now => now * NS_IN_US) now (meson_kind r) (service_of (me_table s)) = (service_of (me_table s'), reply) ->
  meson_inv s' /\ implements s r reply s'.
Proof. intros Hi Hnow E. split; [done|]. intros _. split; [done|]. by exists now, now. Qed.

(** Time that passes leaves the invariant. *)
Lemma meson_inv_later s c : meson_inv s -> meson_clock_ok c -> ck_now (me_clock s) <= ck_now c -> meson_inv (set_clock c s).
Proof.
  intros [Ht Hc Ha] Hc' Hle. split; [done|done|]. intros He. destruct (Ha He) as (H16 & H12 & now & Hn & Hlt & Hv).
  split_and!; [done|done|]. exists now. cbn. split_and!; [lia|lia|lia|done].
Qed.

#[export] Instance meson_ok : TimerDriverOk meson timer_request.
Proof.
  split. intros s r Hi Hr. pose proof (mi_clock _ Hi) as Hc. cbn [td_inv td_step td_kind meson_driver] in *.
  unfold meson_step. do 2 wp_step. apply (idle_ok (2 ^ 63 / NS_IN_US) (2 ^ 30)); [done|]. intros c0 Hle0 Hc0.
  pose proof (meson_inv_later _ _ Hi Hc0 Hle0) as Hi0. pose proof (mi_table _ Hi) as Ht.
  assert (2 ^ 63 / NS_IN_US < UINT64_MAX) as Hmax by done.
  destruct r as [|ch label mr0].
  - do 3 wp_step. unfold notified. do 2 wp_step. rewrite Z.eqb_refl. cbn [negb]. unfold on_table, emit, mux_clear. repeat wp_step.
    apply meson_get_ticks_spec; [done|]. cbn [me_clock set_clock set_table set_mux]. intros now c Hnow Hb Hc'.
    apply meson_process_timeouts_spec; [done|done|cbn; lia|lia|]. intros s' Hs' Hcl Htab. cbn [me_clock set_clock] in Hcl. wp_step.
    eapply meson_done; [done|split; [|etrans; [apply Hnow|done]]; lia|].
    rewrite Htab, service_of_processed. cbn [me_table set_table set_mux set_clock]. by rewrite service_of_event.
  - wp_step. unfold protected, meson_kind, timer_kind, call_kind in *.
    destruct (label =? SDDF_TIMER_GET_TIME) eqn:El; [|destruct (label =? SDDF_TIMER_SET_TIMEOUT) eqn:El'].
    + wp_step. apply meson_get_ticks_spec; [done|]. intros now c Hnow Hb Hc'. cbn [me_clock set_clock] in *. do 2 wp_step.
      pose proof (co_nonneg _ _ _ Hc). rewrite u64_small
        by (unfold NS_IN_US, is_u64 in *; change (2 ^ 63 / 1000) with 9223372036854775 in Hb; lia).
      apply (meson_done _ _ now); [|cbn; lia|].
      * apply (meson_inv_later (set_clock c0 s)); [done|done|cbn; lia].
      * unfold meson_kind, timer_kind, call_kind. by rewrite El.
    + wp_step. cbn [req_ok] in Hr. rewrite Z.sub_0_r in Hr.
      apply meson_get_ticks_spec; [done|]. intros now c Hnow Hb Hc'. cbn [me_clock set_clock] in *. wp_step. pose proof (co_nonneg _ _ _ Hc).
      assert (is_u64 (now + mr0 / NS_IN_US)) as Hsum by (unfold is_u64; assert (2 ^ 63 / NS_IN_US < 2 ^ 63) by done; lia).
      rewrite u64_small by done. unfold on_table. wp_step. apply store_timeout_spec; [apply Hr|done|]. wp_step.
      apply meson_process_timeouts_spec; [by apply with_deadline_wf|done|cbn; lia|lia|]. intros s' Hs' Hcl Htab.
      cbn [me_clock set_clock set_table] in Hcl. do 2 wp_step. apply (meson_done _ _ now); [done|lia|].
      unfold meson_kind, timer_kind, call_kind. rewrite El, El', Z.sub_0_r. by rewrite Htab, service_of_processed.
    + do 2 wp_step. apply (meson_done _ _ (ck_now c0)); [done|cbn; lia|].
      unfold meson_kind, timer_kind, call_kind. by rewrite El, El'.
Qed.

Lemma meson_init_spec s (Q : unit -> meson -> Prop) :
  dr_magic (me_dr s) = true -> dr_num_irqs (me_dr s) = 1 -> dr_num_regions (me_dr s) = 1 ->
  length (tt_timeouts (me_table s)) = 6%nat -> meson_clock_ok (me_clock s) ->
  (forall s', meson_inv s' -> Q tt s') -> wp init s Q.
Proof.
  intros Hm Hi Hr Hl Hc HQ. unfold init, on_table, emit. do 3 wp_step. apply wp_assert; [done|].
  wp_step. apply wp_assert; [by rewrite Hi|]. wp_step. apply wp_assert; [by rewrite Hr|]. repeat wp_step.
  apply init_timeouts_spec; [done|]. repeat wp_step. apply HQ. split; [|done|by intros []].
  split; [done|]. by repeat constructor.
Qed.

(** The Meson driver implements the timer service in microseconds.  After
    initialisation and any sequence of interrupts and calls nothing faults;
    notifications and replies are those of the service at times that follow
    each other, each within the handler that read it, the two words of the
    counter being put together right even when the low one wraps around
    between the reads; and in the state reached timer A counts down to the
    earliest deadline left: it is enabled, not periodic, and was started with
    the time left (its low 32 bits), at or after the moment that time was
    computed for.  So it does not interrupt before a deadline less than 2^32
    microseconds away. *)
Theorem meson_timer_serves (s0 : meson) (rs : list timer_request) :
  dr_magic (me_dr s0) = true -> dr_num_irqs (me_dr s0) = 1 -> dr_num_regions (me_dr s0) = 1 ->
  length (tt_timeouts (me_table s0)) = 6%nat -> meson_clock_ok (me_clock s0) ->
  Forall (fun r => req_ok (meson_kind r)) rs ->
  exists s1 replies s, init s0 = Ok (tt, s1) /\ run_requests rs s1 = Ok (replies, s) /\
    (exists nows, in_order (ck_now (me_clock s1)) nows (ck_now (me_clock s)) /\ length nows = length rs /\
       service_run 0 (fun now => now * NS_IN_US) (zip nows (meson_kind <$> rs)) (service_of (me_table s1))
         = (service_of (me_table s), replies)) /\
    (earliest (tt_timeouts (me_table s)) <> UINT64_MAX -> counts_down_to s (earliest (tt_timeouts (me_table s)))).
Proof.
  intros Hm Hi Hr Hl Hc Hrs. assert (wp init s0 (fun _ => meson_inv)) as ([] & s1 & E1 & Hi1)%wp_elim
    by (by apply meson_init_spec).
  destruct (accurate_driver_runs (S:=meson) (R:=timer_request) rs s1) as (replies & s & E & His & Himp); [done|done|done|].
  exists s1, replies, s. split_and!; [done|done|by apply Himp|apply His].
Qed.

(** The low word wraps around between its read and the second read of the high
    word. *)
Definition meson_ex : meson :=
  mk_meson (mk_device_resources true 1 1 4) (mk_table (replicate 6 0) [])
    (mk_clock 4294967000 [10; 100000; 5]%N [100; 150; 100; 7; 3; 1; 1; 1]%N) 0 0 0.
Definition meson_reqs_ex : list timer_request :=
  [TCall 0 SDDF_TIMER_SET_TIMEOUT 50000000; TInterrupt; TCall 2 SDDF_TIMER_SET_TIMEOUT 2000000; TCall 2 SDDF_TIMER_GET_TIME 0].

Lemma meson_timer_serves_witness :
  exists s1 s, init meson_ex = Ok (tt, s1) /\
    run_requests meson_reqs_ex s1 = Ok ([None; None; None; Some 4295067378000], s) /\
    notified_of (tt_events (me_table s)) = [0] /\ counts_down_to s 4295069378.
Proof.
  destruct (meson_timer_serves meson_ex meson_reqs_ex) as (s1 & replies & s & E1 & E & _ & Ha); [done|done|done|done| | |].
  { split; [done|done|]. repeat constructor. }
  { repeat constructor; vm_compute; intuition congruence. }
  exists s1, s. vm_compute in E1. injection E1 as <-. vm_compute in E. injection E as <- <-.
  split_and!; [done|done|done|]. by apply Ha.
Defined.
