(* ===== verification/TimerJh7110.v ===== *)
(** * The JH7110 timer driver: drivers/timer/jh7110/timer.c

    Two 32-bit down counters of the StarFive timer: one runs all the time and
    interrupts when it wraps around, which the driver counts to make a clock of
    64 bits; the other is loaded with the time to the next deadline.  The C
    build is modelled; the build with the Pancake compiler calls code that is
    not C. *)

From S2P Require Import Prelude Microkit TimerTable.

Definition CLIENT_CH_START : Z := 2.
Definition STARFIVE_TIMER_MAX_TICKS : Z := UINT32_MAX.
Definition STARFIVE_TIMER_MODE_CONTINUOUS : Z := 0.
Definition STARFIVE_TIMER_MODE_SINGLE : Z := 1.
Definition STARFIVE_TIMER_DISABLED : Z := 0.
Definition STARFIVE_TIMER_ENABLED : Z := 1.
Definition STARFIVE_TIMER_INTERRUPT_UNMASKED : Z := 0.
Definition STARFIVE_TIMER_INTCLR_BUSY : Z := Z.shiftl 1 1.
Definition STARFIVE_TIMER_TICKS_PER_SECOND : Z := 0x16e3600.

(** The registers of one counter that the driver writes. *)
Record starfive_timer_regs_t : Type := mk_regs {
  sf_ctrl : Z;
  sf_load : Z;
  sf_enable : Z;
  sf_intmask : Z;
}.

Definition set_ctrl (x : Z) (r : starfive_timer_regs_t) : starfive_timer_regs_t := mk_regs x (sf_load r) (sf_enable r) (sf_intmask r).
Definition set_load (x : Z) (r : starfive_timer_regs_t) : starfive_timer_regs_t := mk_regs (sf_ctrl r) x (sf_enable r) (sf_intmask r).
Definition set_enable (x : Z) (r : starfive_timer_regs_t) : starfive_timer_regs_t := mk_regs (sf_ctrl r) (sf_load r) x (sf_intmask r).
Definition set_intmask (x : Z) (r : starfive_timer_regs_t) : starfive_timer_regs_t := mk_regs (sf_ctrl r) (sf_load r) (sf_enable r) x.

(** The fields of [device_resources] the driver uses. *)
Record jh_resources : Type := mk_jh_resources {
  jr_magic : bool;
  jr_num_irqs : Z;
  jr_num_regions : Z;
  jr_irqs : list Z; (* irqs[i].id *)
}.

(** The device.

    [de_clock] is the number of ticks since the counter was enabled.
    [de_pending]: it has wrapped around since its interrupt was last cleared;
    [de_lost]: it has done so a second time.  [de_cleared]: the interrupt of the
    timeout counter has been cleared since it was enabled.

    A register [intclr] that has been written takes no other write for a while:
    [de_counter_busy] and [de_timeout_busy] are the numbers of reads that will
    still find it busy, and [de_waits] has those for the writes to come.
    [de_masked]: a read has found the register of the counter busy while a wrap
    was pending.

    For the statements only: [de_read], when the counter was last read;
    [de_started], when the timeout counter was last enabled, and [de_asked], when
    the counter had last been read then; [de_step], more than the time that
    passes from one entry of the clock's script to the next. *)
Record jh_device : Type := mk_device {
  de_clock : clock;
  de_pending : bool;
  de_lost : bool;
  de_masked : bool;
  de_cleared : bool;
  de_counter_busy : N;
  de_timeout_busy : N;
  de_waits : list N;
  de_counter_regs : starfive_timer_regs_t;
  de_timeout_regs : starfive_timer_regs_t;
  de_read : Z;
  de_started : Z;
  de_asked : Z;
  de_step : Z;
}.

Record jh7110 : Type := mk_jh {
  jh_dr : jh_resources;
  jh_table : table;
  jh_counter_irq : Z;
  jh_timeout_irq : Z;
  jh_counter_timer_elapses : Z; (* uint32_t *)
  jh_timeout_timer_elapses : Z; (* uint32_t *)
  jh_dev : jh_device;
}.

Definition set_table (x : table) (s : jh7110) : jh7110 := mk_jh (jh_dr s) x (jh_counter_irq s) (jh_timeout_irq s) (jh_counter_timer_elapses s) (jh_timeout_timer_elapses s) (jh_dev s).
Definition set_irqs (c t : Z) (s : jh7110) : jh7110 := mk_jh (jh_dr s) (jh_table s) c t (jh_counter_timer_elapses s) (jh_timeout_timer_elapses s) (jh_dev s).
Definition set_counter_elapses (x : Z) (s : jh7110) : jh7110 := mk_jh (jh_dr s) (jh_table s) (jh_counter_irq s) (jh_timeout_irq s) x (jh_timeout_timer_elapses s) (jh_dev s).
Definition set_timeout_elapses (x : Z) (s : jh7110) : jh7110 := mk_jh (jh_dr s) (jh_table s) (jh_counter_irq s) (jh_timeout_irq s) (jh_counter_timer_elapses s) x (jh_dev s).
Definition set_dev (x : jh_device) (s : jh7110) : jh7110 := mk_jh (jh_dr s) (jh_table s) (jh_counter_irq s) (jh_timeout_irq s) (jh_counter_timer_elapses s) (jh_timeout_timer_elapses s) x.

Definition on_table {A} (m : M table A) : M jh7110 A := zoom jh_table set_table m.
Definition on_dev {A} (m : M jh_device A) : M jh7110 A := zoom jh_dev set_dev m.

(** ** The registers *)

Definition epoch (t : Z) : Z := t / 2 ^ 32.

(** Which of the two counters. *)
Inductive jh_timer : Type := CounterTimer | TimeoutTimer.

Definition set_pending (x : bool) (d : jh_device) : jh_device := mk_device (de_clock d) x (de_lost d) (de_masked d) (de_cleared d) (de_counter_busy d) (de_timeout_busy d) (de_waits d) (de_counter_regs d) (de_timeout_regs d) (de_read d) (de_started d) (de_asked d) (de_step d).
Definition set_masked (x : bool) (d : jh_device) : jh_device := mk_device (de_clock d) (de_pending d) (de_lost d) x (de_cleared d) (de_counter_busy d) (de_timeout_busy d) (de_waits d) (de_counter_regs d) (de_timeout_regs d) (de_read d) (de_started d) (de_asked d) (de_step d).
Definition set_cleared (x : bool) (d : jh_device) : jh_device := mk_device (de_clock d) (de_pending d) (de_lost d) (de_masked d) x (de_counter_busy d) (de_timeout_busy d) (de_waits d) (de_counter_regs d) (de_timeout_regs d) (de_read d) (de_started d) (de_asked d) (de_step d).
Definition set_waits (x : list N) (d : jh_device) : jh_device := mk_device (de_clock d) (de_pending d) (de_lost d) (de_masked d) (de_cleared d) (de_counter_busy d) (de_timeout_busy d) x (de_counter_regs d) (de_timeout_regs d) (de_read d) (de_started d) (de_asked d) (de_step d).
Definition set_counter_regs (x : starfive_timer_regs_t) (d : jh_device) : jh_device := mk_device (de_clock d) (de_pending d) (de_lost d) (de_masked d) (de_cleared d) (de_counter_busy d) (de_timeout_busy d) (de_waits d) x (de_timeout_regs d) (de_read d) (de_started d) (de_asked d) (de_step d).
Definition set_timeout_regs (x : starfive_timer_regs_t) (d : jh_device) : jh_device := mk_device (de_clock d) (de_pending d) (de_lost d) (de_masked d) (de_cleared d) (de_counter_busy d) (de_timeout_busy d) (de_waits d) (de_counter_regs d) x (de_read d) (de_started d) (de_asked d) (de_step d).
Definition set_read (x : Z) (d : jh_device) : jh_device := mk_device (de_clock d) (de_pending d) (de_lost d) (de_masked d) (de_cleared d) (de_counter_busy d) (de_timeout_busy d) (de_waits d) (de_counter_regs d) (de_timeout_regs d) x (de_started d) (de_asked d) (de_step d).
Definition start (now : Z) (d : jh_device) : jh_device := mk_device (de_clock d) (de_pending d) (de_lost d) (de_masked d) false (de_counter_busy d) (de_timeout_busy d) (de_waits d) (de_counter_regs d) (set_enable STARFIVE_TIMER_ENABLED (de_timeout_regs d)) (de_read d) now (de_read d) (de_step d).

Definition busy_of (w : jh_timer) (d : jh_device) : N := match w with CounterTimer => de_counter_busy d | TimeoutTimer => de_timeout_busy d end.
Definition set_busy (w : jh_timer) (x : N) (d : jh_device) : jh_device :=
  let '(c, t) := match w with CounterTimer => (x, de_timeout_busy d) | TimeoutTimer => (de_counter_busy d, x) end in
  mk_device (de_clock d) (de_pending d) (de_lost d) (de_masked d) (de_cleared d) c t (de_waits d) (de_counter_regs d) (de_timeout_regs d) (de_read d) (de_started d) (de_asked d) (de_step d).

(** The interrupt of a counter is pending: the timeout counter has reached zero
    and has not been cleared. *)
Definition pending_of (w : jh_timer) (d : jh_device) : bool :=
  match w with
  | CounterTimer => de_pending d
  | TimeoutTimer => (sf_enable (de_timeout_regs d) =? STARFIVE_TIMER_ENABLED) && negb (de_cleared d)
      && (de_started d + sf_load (de_timeout_regs d) <=? ck_now (de_clock d))
  end.

(** The driver accesses a register: time has passed, and the counter may have
    wrapped around. *)
Definition tick (c : clock) (d : jh_device) : jh_device :=
  let wraps := epoch (ck_now c) - epoch (ck_now (de_clock d)) in
  mk_device c (de_pending d || (0 <? wraps)) (de_lost d || (1 <? Z.b2z (de_pending d) + wraps)) (de_masked d) (de_cleared d)
    (de_counter_busy d) (de_timeout_busy d) (de_waits d) (de_counter_regs d) (de_timeout_regs d) (de_read d) (de_started d) (de_asked d) (de_step d).

Definition pass : M jh_device Z :=
  d ← get;
  r ← lift (elapse (de_clock d));
  let '(now, c) := (r : Z * clock) in
  put (tick c d);;
  mret now.

(** [value]: the counter runs down. *)
Definition read_value : M jh_device Z :=
  now ← pass;
  modify (set_read now);;
  mret (STARFIVE_TIMER_MAX_TICKS - u32 now).

(** [intclr]: bit 0 says that the interrupt is pending, bit 1 that the register
    is busy. *)
Definition intclr (w : jh_timer) (d : jh_device) : Z :=
  Z.b2z (pending_of w d) + 2 * Z.b2z (negb (busy_of w d =? 0)%N).
Definition read_intclr (w : jh_timer) : M jh_device Z :=
  pass;;
  d ← get;
  let masked := match w with CounterTimer => intclr w d =? 3 | TimeoutTimer => false end in
  put (set_masked (de_masked d || masked) (set_busy w (N.pred (busy_of w d)) d));;
  mret (intclr w d).

(** [intclr = 1]: a busy register does not take it. *)
Definition write_intclr (w : jh_timer) : M jh_device unit :=
  pass;;
  modify (fun d =>
    if (busy_of w d =? 0)%N
    then set_busy w (hd 0%N (de_waits d)) (set_waits (tl (de_waits d))
           (match w with CounterTimer => set_pending false d | TimeoutTimer => set_cleared true d end))
    else d).

(** [while (intclr & STARFIVE_TIMER_INTCLR_BUSY) {}] *)
Definition wait_intclr (w : jh_timer) : M jh_device unit :=
  intclr ← read_intclr w;
  with_local intclr (loop (fun p => S (N.to_nat (busy_of w p.1))) (fun p => negb (Z.land p.2 STARFIVE_TIMER_INTCLR_BUSY =? 0))
    (intclr ← on_state (read_intclr w); set_local intclr));;
  mret tt.

Definition counter_regs (f : starfive_timer_regs_t -> starfive_timer_regs_t) : M jh7110 unit :=
  on_dev (modify (fun d => set_counter_regs (f (de_counter_regs d)) d)).
Definition timeout_regs (f : starfive_timer_regs_t -> starfive_timer_regs_t) : M jh7110 unit :=
  on_dev (modify (fun d => set_timeout_regs (f (de_timeout_regs d)) d)).
(** Enabling the timeout counter starts it. *)
Definition enable_timeout : M jh7110 unit :=
  now ← on_dev pass;
  on_dev (modify (start now)).

(** ** The driver *)

Definition get_ticks_in_ns : M jh7110 Z :=
  value ← on_dev read_value;
  let value_l := STARFIVE_TIMER_MAX_TICKS - value in
  value_h ← gets jh_counter_timer_elapses;
  intclr ← on_dev (read_intclr CounterTimer);
  '(value_h, value_l) ← (if intclr =? 1 then
      value ← on_dev read_value;
      mret (value_h + 1, STARFIVE_TIMER_MAX_TICKS - value)
    else mret (value_h, value_l));
  let value_ticks := Z.lor (u64 (Z.shiftl value_h 32)) value_l in
  let value_whole_seconds := value_ticks / STARFIVE_TIMER_TICKS_PER_SECOND in
  let value_subsecond_ticks := value_ticks mod STARFIVE_TIMER_TICKS_PER_SECOND in
  let value_subsecond_ns := u64 (value_subsecond_ticks * NS_IN_S) / STARFIVE_TIMER_TICKS_PER_SECOND in
  mret (u64 (u64 (value_whole_seconds * NS_IN_S) + value_subsecond_ns)).

(** The ticks [ns] is converted to for the register [load]. *)
Definition num_ticks_of (ns : Z) : Z :=
  let ticks_whole_seconds := u64 (ns / NS_IN_S * STARFIVE_TIMER_TICKS_PER_SECOND) in
  let ticks_remainder := u64 (ns mod NS_IN_S * STARFIVE_TIMER_TICKS_PER_SECOND) / NS_IN_S in
  let num_ticks := u64 (ticks_whole_seconds + ticks_remainder) in
  if num_ticks >? STARFIVE_TIMER_MAX_TICKS then STARFIVE_TIMER_MAX_TICKS else num_ticks.

Definition process_timeouts (curr_time : Z) : M jh7110 unit :=
  next_timeout ← on_table (process_table CLIENT_CH_START curr_time);
  when (negb (next_timeout =? UINT64_MAX)) (
    let ns := u64 (next_timeout - curr_time) in
    timeout_regs (set_enable STARFIVE_TIMER_DISABLED);;
    modify (set_timeout_elapses 0);;
    timeout_regs (set_ctrl STARFIVE_TIMER_MODE_SINGLE);;
    timeout_regs (set_load (u32 (num_ticks_of ns)));;
    enable_timeout).

Definition notified (ch : Z) : M jh7110 unit :=
  s ← get;
  if ch =? jh_counter_irq s then
    modify (set_counter_elapses (u32 (jh_counter_timer_elapses s + 1)));;
    on_dev (wait_intclr CounterTimer);;
    on_dev (write_intclr CounterTimer);;
    on_table (emit (DeferredIrqAck ch))
  else if ch =? jh_timeout_irq s then
    modify (set_timeout_elapses (u32 (jh_timeout_timer_elapses s + 1)));;
    on_dev (wait_intclr TimeoutTimer);;
    on_dev (write_intclr TimeoutTimer);;
    curr_time ← get_ticks_in_ns;
    process_timeouts curr_time;;
    on_table (emit (DeferredIrqAck ch))
  else mret tt.

(** The result is the number of registers of the reply and what the first of
    them holds. *)
Definition protected (ch label mr0 : Z) : M jh7110 (Z * option Z) :=
  if label =? SDDF_TIMER_GET_TIME then
    time_ns ← get_ticks_in_ns;
    mret (1, Some time_ns)
  else if label =? SDDF_TIMER_SET_TIMEOUT then
    curr_time ← get_ticks_in_ns;
    let offset_ns := mr0 in
    on_table (store_timeout (u32 (ch - CLIENT_CH_START)) (u64 (curr_time + offset_ns)));;
    process_timeouts curr_time;;
    mret (0, None)
  else mret (0, None).

Definition init : M jh7110 unit :=
  dr ← gets jh_dr;
  assert_ (jr_magic dr);;
  assert_ (jr_num_irqs dr =? 2);;
  assert_ (jr_num_regions dr =? 1);;
  for_upto (jr_num_irqs dr) (fun i => id ← lift (load (jr_irqs dr) i); on_table (emit (IrqAck id)));;
  on_table init_timeouts;;
  counter_irq ← lift (load (jr_irqs dr) 0);
  timeout_irq ← lift (load (jr_irqs dr) 1);
  modify (set_irqs counter_irq timeout_irq);;
  timeout_regs (set_enable STARFIVE_TIMER_DISABLED);;
  timeout_regs (set_ctrl STARFIVE_TIMER_MODE_CONTINUOUS);;
  timeout_regs (set_load STARFIVE_TIMER_MAX_TICKS);;
  timeout_regs (set_intmask STARFIVE_TIMER_INTERRUPT_UNMASKED);;
  counter_regs (set_enable STARFIVE_TIMER_DISABLED);;
  counter_regs (set_ctrl STARFIVE_TIMER_MODE_CONTINUOUS);;
  counter_regs (set_load STARFIVE_TIMER_MAX_TICKS);;
  counter_regs (set_intmask STARFIVE_TIMER_INTERRUPT_UNMASKED);;
  counter_regs (set_enable STARFIVE_TIMER_ENABLED).

(** ** Conversions *)

Definition ns_of (ticks : Z) : Z := ticks * NS_IN_S / STARFIVE_TIMER_TICKS_PER_SECOND.
Definition ticks_of (ns : Z) : Z := ns * STARFIVE_TIMER_TICKS_PER_SECOND / NS_IN_S.

(** Multiplying whole units and the rest apart gives the same as at once. *)
Lemma div_split a b c : 0 < c -> a / c * b + a mod c * b / c = a * b / c.
Proof.
  intros Hc. rewrite (Z.div_mod a c) at 3 by lia.
  replace ((c * (a / c) + a mod c) * b) with (a mod c * b + a / c * b * c) by ring.
  rewrite Z.div_add by lia. lia.
Qed.

Lemma num_ticks_spec ns : is_u64 ns -> num_ticks_of ns = Z.min (ticks_of ns) STARFIVE_TIMER_MAX_TICKS.
Proof.
  unfold is_u64, num_ticks_of, ticks_of. intros Hns.
  pose proof (Z.mod_pos_bound ns NS_IN_S ltac:(done)) as Hm.
  assert (0 <= ns / NS_IN_S <= 18446744073) as Hd.
  { split; [apply Z.div_pos; [lia|done]|]. transitivity ((2 ^ 64 - 1) / NS_IN_S); [apply Z.div_le_mono; [done|lia]|done]. }
  rewrite <- (div_split ns) by done. set (q := ns / NS_IN_S) in *. set (r := ns mod NS_IN_S) in *.
  assert (0 <= r * STARFIVE_TIMER_TICKS_PER_SECOND / NS_IN_S <= STARFIVE_TIMER_TICKS_PER_SECOND) as Hr.
  { unfold NS_IN_S, STARFIVE_TIMER_TICKS_PER_SECOND in *. split; [apply Z.div_pos; lia|]. apply Z.div_le_upper_bound; lia. }
  unfold STARFIVE_TIMER_TICKS_PER_SECOND, STARFIVE_TIMER_MAX_TICKS, UINT32_MAX, NS_IN_S in *.
  rewrite (u64_small (q * 24000000)), (u64_small (r * 24000000)) by (unfold is_u64; lia).
  rewrite u64_small by (unfold is_u64; lia). destruct (Z.gtb_spec (q * 24000000 + r * 24000000 / 1000000000) (2 ^ 32 - 1)); lia.
Qed.

Definition TICKS_BOUND : Z := 2 ^ 57.

Lemma jh_ns_of_bound t : 0 <= t < TICKS_BOUND -> 0 <= ns_of t < 2 ^ 63.
Proof.
  unfold TICKS_BOUND, ns_of, NS_IN_S, STARFIVE_TIMER_TICKS_PER_SECOND. intros Ht.
  split; [apply Z.div_pos; lia|apply Z.div_lt_upper_bound; lia].
Qed.

Lemma jh_ns_of_mono t t' : t <= t' -> ns_of t <= ns_of t'.
Proof. intros Ht. unfold ns_of. apply Z.div_le_mono; unfold NS_IN_S, STARFIVE_TIMER_TICKS_PER_SECOND; lia. Qed.

(** The conversion of [get_ticks_in_ns]. *)
Lemma ns_parts t : 0 <= t < TICKS_BOUND ->
  u64 (u64 (t / STARFIVE_TIMER_TICKS_PER_SECOND * NS_IN_S)
       + u64 (t mod STARFIVE_TIMER_TICKS_PER_SECOND * NS_IN_S) / STARFIVE_TIMER_TICKS_PER_SECOND) = ns_of t.
Proof.
  intros Ht. pose proof (jh_ns_of_bound t Ht) as Hns. unfold ns_of in *. rewrite <- (div_split t) in * by done.
  pose proof (Z.mod_pos_bound t STARFIVE_TIMER_TICKS_PER_SECOND ltac:(done)) as Hm.
  assert (0 <= t / STARFIVE_TIMER_TICKS_PER_SECOND) by (apply Z.div_pos; [lia|done]).
  set (q := t / STARFIVE_TIMER_TICKS_PER_SECOND) in *. set (r := t mod STARFIVE_TIMER_TICKS_PER_SECOND) in *.
  assert (0 <= r * NS_IN_S / STARFIVE_TIMER_TICKS_PER_SECOND) by (apply Z.div_pos; [unfold NS_IN_S; lia|done]).
  unfold STARFIVE_TIMER_TICKS_PER_SECOND, NS_IN_S in *.
  rewrite (u64_small (r * 1000000000)) by (unfold is_u64; lia).
  rewrite !u64_small by (rewrite ?u64_small; unfold is_u64; lia). done.
Qed.

(** The time a loaded number of ticks takes, to the tick. *)
Lemma ticks_cover t now start : now <= ns_of start -> t - 42 <= ns_of (start + ticks_of (t - now)).
Proof.
  unfold ns_of, ticks_of, NS_IN_S, STARFIVE_TIMER_TICKS_PER_SECOND. intros Hn.
  apply Z.div_le_lower_bound; [done|]. pose proof (Z.mul_div_le (start * 1000000000) 24000000 ltac:(done)).
  pose proof (Z.mul_succ_div_gt ((t - now) * 24000000) 1000000000 ltac:(done)). lia.
Qed.
Lemma ticks_within t asked start k : start < asked + k -> ns_of (start + ticks_of (t - ns_of asked)) <= t + ns_of k.
Proof.
  unfold ns_of, ticks_of, NS_IN_S, STARFIVE_TIMER_TICKS_PER_SECOND. intros Hs. Z.div_mod_to_equations. lia.
Qed.

(** ** The clock of 64 bits *)

(** The driver can tell the wraps of the counter: none was lost, and a pending
    one was never hidden by the busy bit. *)
Definition sound (d : jh_device) : Prop := de_lost d = false /\ de_masked d = false.

(** The wraps counted by the driver and the one that is pending make the high
    word of the time, as long as none was lost. *)
Record dev_ok (elapses : Z) (d : jh_device) : Prop := {
  do_clock : clock_ok TICKS_BOUND (de_step d) (de_clock d);
  do_step : 0 < de_step d;
  do_epoch : sound d -> elapses + Z.b2z (de_pending d) = epoch (ck_now (de_clock d));
}.

(** From [d] to [d'] time passes. *)
Record later (d d' : jh_device) : Prop := {
  la_now : ck_now (de_clock d) <= ck_now (de_clock d');
  la_sound : sound d' -> sound d;
  la_pending : de_pending d = true -> de_pending d' = true;
  la_regs : de_timeout_regs d' = de_timeout_regs d;
  la_started : de_started d' = de_started d;
  la_asked : de_asked d' = de_asked d;
  la_step : de_step d' = de_step d;
}.

#[export] Instance jh_later_refl : Reflexive later.
Proof. by intros d. Qed.
#[export] Instance jh_later_trans : Transitive later.
Proof. intros d1 d2 d3 [] []. split; [lia|tauto|tauto|congruence..]. Qed.

(** The same, with interrupts cleared meanwhile. *)
Record since (d d' : jh_device) : Prop := {
  si_now : ck_now (de_clock d) <= ck_now (de_clock d');
  si_sound : sound d' -> sound d;
  si_regs : de_timeout_regs d' = de_timeout_regs d;
  si_started : de_started d' = de_started d;
  si_asked : de_asked d' = de_asked d;
  si_step : de_step d' = de_step d;
}.
Lemma later_since d d' : later d d' -> since d d'.
Proof. by intros []. Qed.
#[export] Instance jh_since_trans : Transitive since.
Proof. intros d1 d2 d3 [] []. split; [lia|tauto|congruence..]. Qed.

Lemma jh_epoch_mono t t' : t <= t' -> epoch t <= epoch t'.
Proof. intros. unfold epoch. by apply Z.div_le_mono. Qed.

Lemma jh_tick_ok e c d :
  dev_ok e d -> clock_ok TICKS_BOUND (de_step d) c -> ck_now (de_clock d) <= ck_now c ->
  dev_ok e (tick c d) /\ later d (tick c d).
Proof.
  intros [Hc Hst He] Hc' Hle. pose proof (jh_epoch_mono _ _ Hle) as Hep. unfold tick. cbn zeta.
  set (w := epoch (ck_now c) - epoch (ck_now (de_clock d))).
  split; split; cbn; try done.
  - intros [[Hl Hw%Z.ltb_ge]%orb_false_iff Hm]. specialize (He (conj Hl Hm)). destruct (Z.ltb_spec 0 w); destruct (de_pending d); cbn in *; lia.
  - by intros [[Hl _]%orb_false_iff Hm].
  - by intros ->.
Qed.

Lemma jh_pass_spec e d (Q : Z -> jh_device -> Prop) :
  dev_ok e d ->
  (forall d', dev_ok e d' -> later d d' -> (forall w, busy_of w d' = busy_of w d) -> de_read d' = de_read d ->
     ck_now (de_clock d') < ck_now (de_clock d) + de_step d -> Q (ck_now (de_clock d')) d') -> wp pass d Q.
Proof.
  intros Hd HQ. unfold pass. do 3 wp_step.
  assert (wp elapse (de_clock d) (fun now c => now = ck_now c /\ clock_ok TICKS_BOUND (de_step d) c /\
    ck_now (de_clock d) <= ck_now c < ck_now (de_clock d) + de_step d)) as (now & c & E & -> & Hc & Hle & Hlt)%wp_elim.
  { apply (elapse_ok TICKS_BOUND (de_step d)); [apply Hd..|]. intros c' [H1 H2] _ Hc. by split_and!. }
  eapply wp_lift; [exact E|]. cbv beta iota. do 3 wp_step. destruct (jh_tick_ok e c d Hd Hc Hle). apply (HQ (tick c d)); [done|done|by intros []|done|done].
Qed.

Lemma intclr_busy w d : Z.land (intclr w d) STARFIVE_TIMER_INTCLR_BUSY = 2 * Z.b2z (negb (busy_of w d =? 0)%N).
Proof. unfold intclr. by destruct (pending_of w d), (busy_of w d =? 0)%N. Qed.

Lemma sound_masked b w n d : sound (set_masked (de_masked d || b) (set_busy w n d)) <-> sound d /\ b = false.
Proof. unfold sound. destruct w; cbn; rewrite orb_false_iff; tauto. Qed.

(** What the driver finds is what the device had when time had passed. *)
Lemma read_intclr_spec e w d (Q : Z -> jh_device -> Prop) :
  dev_ok e d ->
  (forall v d', dev_ok e d' -> later d d' -> busy_of w d' = N.pred (busy_of w d) -> de_read d' = de_read d ->
     ck_now (de_clock d') < ck_now (de_clock d) + de_step d ->
     Z.land v STARFIVE_TIMER_INTCLR_BUSY = 2 * Z.b2z (negb (busy_of w d =? 0)%N) ->
     (w = CounterTimer -> sound d' -> (v =? 1) = de_pending d') -> Q v d') -> wp (read_intclr w) d Q.
Proof.
  intros Hd HQ. unfold read_intclr. wp_step. apply (jh_pass_spec e); [done|]. intros d' [Hc Hst He] Hl Hb Hr Hlt. repeat wp_step.
  apply HQ; try (by destruct w).
  - split; [by destruct w..|]. intros [Hs _]%sound_masked. specialize (He Hs). by destruct w.
  - destruct Hl. split; try by destruct w. intros [Hs _]%sound_masked. auto.
  - rewrite <- (Hb w). by destruct w.
  - rewrite intclr_busy. by rewrite (Hb w).
  - intros -> [_ Hm]%sound_masked. unfold intclr, pending_of in *. cbn [de_pending set_masked set_busy].
    destruct (de_pending d'), (busy_of CounterTimer d' =? 0)%N; done.
Qed.

(** Waiting ends, with the register ready. *)
Lemma wait_intclr_spec e w d (Q : unit -> jh_device -> Prop) :
  dev_ok e d -> (forall d', dev_ok e d' -> later d d' -> busy_of w d' = 0%N -> Q tt d') -> wp (wait_intclr w) d Q.
Proof.
  intros Hd0 HQ. unfold wait_intclr. wp_step. apply (read_intclr_spec e); [done|]. intros v1 d1 Hd1 Hl1 Hb1 _ _ Hv1 _. do 2 wp_step.
  set (I := fun p : jh_device * Z => dev_ok e p.1 /\ later d p.1 /\ (Z.land p.2 STARFIVE_TIMER_INTCLR_BUSY = 0 -> busy_of w p.1 = 0%N)).
  set (mu := fun p : jh_device * Z =>
    (N.to_nat (busy_of w p.1) + Nat.b2n (negb (Z.land p.2 STARFIVE_TIMER_INTCLR_BUSY =? 0)%Z))%nat).
  apply (wp_loop_le I mu).
  - unfold I. cbn [fst snd]. split_and!; [done|done|]. rewrite Hv1. destruct (N.eqb_spec (busy_of w d) 0) as [E|]; [|done].
    intros _. by rewrite Hb1, E.
  - unfold mu. cbn [fst snd]. destruct (Z.land _ _ =? 0); cbn; lia.
  - intros [d2 v] (Hd2 & Hl2 & _) Hv. cbn [fst snd] in *. apply negb_true_iff in Hv. do 2 wp_step.
    apply (read_intclr_spec e); [done|]. intros v3 d3 Hd3 Hl3 Hb3 _ _ Hv3 _. wp_step. unfold I, mu. cbn [fst snd].
    rewrite Hv3, Hv, Hb3. destruct (N.eqb_spec (busy_of w d2) 0) as [E|]; cbn.
    + rewrite E. by split_and!; [|etrans| |apply Nat.lt_0_1].
    + split_and!; [done|by etrans|done|]. change (negb _) with true. cbn [Nat.b2n]. lia.
  - intros [d2 v] (Hd2 & Hl2 & Hb2) Hv. cbn [fst snd] in *. apply negb_false_iff, Z.eqb_eq in Hv. wp_step. by apply HQ; [..|apply Hb2].
Qed.

(** The interrupt of a register that is ready is cleared: for the counter, one
    wrap less is pending. *)
Lemma write_intclr_spec e w d (Q : unit -> jh_device -> Prop) :
  dev_ok e d -> busy_of w d = 0%N -> (w = CounterTimer -> de_pending d = true) ->
  (forall d', dev_ok (e + match w with CounterTimer => 1 | TimeoutTimer => 0 end) d' -> since d d' ->
     (sound d' -> e + Z.b2z (de_pending d) <= epoch (ck_now (de_clock d'))) -> Q tt d') -> wp (write_intclr w) d Q.
Proof.
  intros Hd Hb Hp HQ. pose proof (do_epoch _ _ Hd) as He. unfold write_intclr. wp_step. apply (jh_pass_spec e); [done|].
  intros d' [Hc' Hst' He'] Hl Hb' _ _. wp_step. rewrite Hb', Hb. cbn [N.eqb].
  apply HQ.
  - split; [by destruct w..|]. intros H. assert (sound d') as Hs by by destruct w. specialize (He' Hs).
    destruct w; cbn; [|lia]. rewrite (la_pending _ _ Hl (Hp eq_refl)) in He'. cbn in He'. lia.
  - destruct Hl. by destruct w.
  - intros H. assert (sound d') as Hs by by destruct w. rewrite (He (la_sound _ _ Hl Hs)).
    destruct w; apply jh_epoch_mono, Hl.
Qed.

Lemma value_low now : STARFIVE_TIMER_MAX_TICKS - (STARFIVE_TIMER_MAX_TICKS - u32 now) = u32 now.
Proof. lia. Qed.

Lemma jh_join_epoch t : 0 <= t < TICKS_BOUND -> Z.lor (u64 (Z.shiftl (epoch t) 32)) (u32 t) = t.
Proof.
  intros Ht. unfold epoch. rewrite <- Z.shiftr_div_pow2 by done.
  rewrite u64_small; [apply words_join|]. rewrite Z.shiftl_mul_pow2 by done. pose proof (words_split t). pose proof (u32_range t).
  assert (0 <= Z.shiftr t 32) by (apply Z.shiftr_nonneg; lia). unfold is_u64, TICKS_BOUND, is_u32 in *. lia.
Qed.

(** The time [curr] that the driver has read, between [d0] and now: right,
    unless a wrap was lost or hidden. *)
Definition reads_time (d0 d : jh_device) (curr : Z) : Prop :=
  sound d -> exists t, ck_now (de_clock d0) <= t <= ck_now (de_clock d) /\ curr = ns_of t.
(** It was read last, and not long ago. *)
Definition reads_now (d0 d : jh_device) (curr : Z) : Prop :=
  ck_now (de_clock d0) <= de_read d <= ck_now (de_clock d) /\ ck_now (de_clock d) < de_read d + de_step d /\
  (sound d -> curr = ns_of (de_read d)).

Lemma reads_now_time d0 d curr : reads_now d0 d curr -> reads_time d0 d curr.
Proof. intros (H1 & _ & H2) Hs. exists (de_read d). by split; [|apply H2]. Qed.

Lemma dev_range e d t : dev_ok e d -> 0 <= t <= ck_now (de_clock d) -> 0 <= t < TICKS_BOUND.
Proof. intros [[_ Hce _] _ _] Ht. pose proof (ck_now_end (de_clock d)). lia. Qed.

(** The time read is the time at which the counter was last read. *)
Lemma jh_get_ticks_spec s (Q : Z -> jh7110 -> Prop) :
  dev_ok (jh_counter_timer_elapses s) (jh_dev s) ->
  (forall now d, dev_ok (jh_counter_timer_elapses s) d -> later (jh_dev s) d -> reads_now (jh_dev s) d now -> Q now (set_dev d s)) ->
  wp get_ticks_in_ns s Q.
Proof.
  intros Hd HQ. set (e := jh_counter_timer_elapses s) in *. pose proof (co_nonneg _ _ _ (do_clock _ _ Hd)) as H0.
  unfold get_ticks_in_ns, on_dev, read_value. do 3 wp_step. apply (jh_pass_spec e); [done|]. intros d1' Hd1' Hl1' _ _ _. repeat wp_step.
  cbn [jh_dev set_dev jh_counter_timer_elapses]. fold e. set (d1 := set_read (ck_now (de_clock d1')) d1').
  assert (dev_ok e d1) as Hd1 by by destruct Hd1'. assert (later (jh_dev s) d1) as Hl1 by by destruct Hl1'.
  apply (read_intclr_spec e); [done|]. intros v d2 Hd2 Hl2 _ Hr2 Hlt2 _ Hv. specialize (Hv eq_refl). pose proof (la_now _ _ Hl1) as Hn1. pose proof (la_now _ _ Hl2) as Hn2.
  pose proof (la_step _ _ Hl2) as Hst2. wp_step. rewrite value_low. change (ck_now (de_clock d1')) with (ck_now (de_clock d1)).
  change (de_read d1) with (ck_now (de_clock d1)) in Hr2. destruct (v =? 1).
  - do 3 wp_step. cbn [jh_dev set_dev]. apply (jh_pass_spec e); [done|]. intros d3' Hd3' Hl3' _ _ _. repeat wp_step. cbn [jh_dev set_dev].
    set (d3 := set_read (ck_now (de_clock d3')) d3'). pose proof (la_now _ _ Hl3') as Hn3.
    assert (later d2 d3) as Hl3 by by destruct Hl3'. assert (dev_ok e d3) as Hd3 by by destruct Hd3'. rewrite value_low.
    apply (HQ _ d3); [done|by repeat (etrans; [done|])|]. split_and!; [cbn; lia|cbn; lia|cbn; destruct Hd3; cbn in *; lia|]. intros Hs.
    pose proof (do_epoch _ _ Hd3 Hs) as He. rewrite (la_pending _ _ Hl3) in He by (by rewrite <- Hv by apply (la_sound _ _ Hl3 Hs)).
    cbn [Z.b2z] in He. change (de_clock d3) with (de_clock d3') in He. rewrite He. pose proof (dev_range _ _ (ck_now (de_clock d3)) Hd3 ltac:(cbn; lia)) as Hr.
    cbn [de_clock d3 set_read] in Hr. rewrite jh_join_epoch by done. by apply ns_parts.
  - do 2 wp_step. apply (HQ _ d2); [done|by etrans|]. split_and!; [lia|lia|lia|]. intros Hs. rewrite Hr2.
    assert (de_pending d1 = false) as Ep1 by (destruct (de_pending d1) eqn:E; [|done]; rewrite (la_pending _ _ Hl2 E) in Hv; by specialize (Hv Hs)).
    pose proof (do_epoch _ _ Hd1 (la_sound _ _ Hl2 Hs)) as He. rewrite Ep1, Z.add_0_r in He. rewrite He.
    pose proof (dev_range _ _ (ck_now (de_clock d1)) Hd1 ltac:(lia)) as Hr. rewrite jh_join_epoch by done. by apply ns_parts.
Qed.

(** ** The driver implements the timer service *)

Inductive jh_request : Type :=
| JCounter
| JTimeout
| JCall (ch label mr0 : Z).

Definition jh_kind (r : jh_request) : service_req :=
  match r with
  | JCounter => SNone
  | JTimeout => SServe
  | JCall ch label mr0 => call_kind CLIENT_CH_START id ch label mr0
  end.

(** The interrupt of the counter comes when it is pending. *)
Definition jh_step (r : jh_request) : M jh7110 (option Z) :=
  s ← get;
  match r with
  | JCounter => when (de_pending (jh_dev s)) (notified (jh_counter_irq s));; mret None
  | JTimeout => notified (jh_timeout_irq s);; mret None
  | JCall ch label mr0 => reply ← protected ch label mr0; mret (reply : Z * option Z).2
  end.

(** The timeout counter runs once, for the ticks that were left until [t] when
    the clock was last read before it was started, at most 2^32 - 1; and that was
    less than two steps before. *)
Definition counts_down_to (d : jh_device) (t : Z) : Prop :=
  sf_enable (de_timeout_regs d) = STARFIVE_TIMER_ENABLED /\ sf_ctrl (de_timeout_regs d) = STARFIVE_TIMER_MODE_SINGLE /\
  de_asked d <= de_started d < de_asked d + 2 * de_step d /\ de_started d <= ck_now (de_clock d) /\ ns_of (de_asked d) < t /\
  sf_load (de_timeout_regs d) = Z.min (ticks_of (t - ns_of (de_asked d))) STARFIVE_TIMER_MAX_TICKS.

Record jh_wf (s : jh7110) : Prop := {
  jw_table : table_wf (jh_table s);
  jw_dev : dev_ok (jh_counter_timer_elapses s) (jh_dev s);
  jw_irqs : jh_counter_irq s <> jh_timeout_irq s;
  jw_elapses : 0 <= jh_counter_timer_elapses s;
}.

Record jh_inv (s : jh7110) : Prop := {
  ji_wf : jh_wf s;
  ji_armed : sound (jh_dev s) -> earliest (tt_timeouts (jh_table s)) <> UINT64_MAX ->
    counts_down_to (jh_dev s) (earliest (tt_timeouts (jh_table s)));
}.

#[export] Instance jh_driver : TimerDriver jh7110 jh_request := {
  td_clock s := ns_of (ck_now (de_clock (jh_dev s)));
  td_service s := service_of (jh_table s);
  td_kind := jh_kind;
  td_base := CLIENT_CH_START;
  td_time := id;
  td_step := jh_step;
  td_inv := jh_inv;
  td_good s := sound (jh_dev s);
  td_skew := eq;
}.

Lemma counts_since d d' t : since d d' -> counts_down_to d t -> counts_down_to d' t.
Proof.
  intros [Hn _ Hr Hs Ha Hst] (H1 & H2 & H3 & H4 & H5 & H6). unfold counts_down_to. rewrite Hr, Hs, Ha, Hst. split_and!; try done; lia.
Qed.

(** Time does not go back, and a lost wrap stays lost. *)
Definition passes (d d' : jh_device) : Prop :=
  ck_now (de_clock d) <= ck_now (de_clock d') /\ (sound d' -> sound d).

#[export] Instance jh_passes_trans : Transitive passes.
Proof. intros d1 d2 d3 [] []. split; [lia|tauto]. Qed.

Lemma since_passes d d' : since d d' -> passes d d'.
Proof. by intros []. Qed.
Lemma jh_later_passes d d' : later d d' -> passes d d'.
Proof. by intros []. Qed.

Lemma load_fits ns : 0 <= ns -> is_u32 (Z.min (ticks_of ns) STARFIVE_TIMER_MAX_TICKS).
Proof.
  intros Hns. assert (0 <= ticks_of ns) by (apply Z.div_pos; [unfold STARFIVE_TIMER_TICKS_PER_SECOND; lia|done]).
  unfold is_u32, STARFIVE_TIMER_MAX_TICKS, UINT32_MAX. lia.
Qed.

(** [process_timeouts] starts the timeout counter for the earliest deadline. *)
Lemma jh_process_timeouts_spec d0 curr s (Q : unit -> jh7110 -> Prop) :
  jh_wf s -> 0 <= ck_now (de_clock d0) -> reads_now d0 (jh_dev s) curr ->
  (forall s', jh_inv s' -> passes (jh_dev s) (jh_dev s') -> jh_table s' = processed CLIENT_CH_START curr (jh_table s) ->
     Q tt s') ->
  wp (process_timeouts curr) s Q.
Proof.
  intros [Ht Hd Hi He] H0 Hr HQ. unfold process_timeouts, on_table. do 2 wp_step. apply process_table_spec; [done|].
  pose proof (processed_wf CLIENT_CH_START curr _ Ht) as Hp. apply wp_when; intros Hbm.
  - unfold timeout_regs, enable_timeout, on_dev. repeat wp_step.
    cbn [jh_dev set_dev set_timeout_elapses set_table]. set (l := tt_timeouts (processed CLIENT_CH_START curr (jh_table s))).
    match goal with |- wp pass ?d _ => assert (dev_ok (jh_counter_timer_elapses s) d) as Hd1 by (destruct Hd; by split) end.
    apply (jh_pass_spec _ _ _ Hd1). intros d2 Hd2 Hl2 _ Hr2 Hlt2. repeat wp_step. cbn [jh_dev set_dev]. apply HQ.
    + split; [split; cbn; try done; by destruct Hd2; split|]. cbn [jh_dev jh_table set_dev set_timeout_elapses set_table].
      intros Hs _. fold l. assert (sound d2) as Hs2 by done. clear Hs. pose proof (la_regs _ _ Hl2) as Hregs. cbn in Hregs.
      destruct Hr as (Hr1 & Hr3 & Hr4). pose proof (la_now _ _ Hl2) as Hn. pose proof (la_step _ _ Hl2) as Hst.
      specialize (Hr4 (la_sound _ _ Hl2 Hs2)). cbn in Hr2, Hn, Hst, Hlt2.
      pose proof (dev_range _ _ (de_read (jh_dev s)) Hd ltac:(lia)) as Hrange. pose proof (jh_ns_of_bound _ Hrange) as Hc. rewrite <- Hr4 in Hc.
      assert (curr < earliest l) as Hlt by (apply expire_later; unfold UINT64_MAX; lia).
      assert (is_u64 (earliest l)) as Hu by apply earliest_range, Hp.
      assert (is_u64 (earliest l - curr)) as Hns by (unfold is_u64 in *; lia).
      unfold counts_down_to. cbn. rewrite Hregs, Hr2, <- Hr4. cbn. split_and!; [done|done|lia|lia|lia|done|].
      rewrite u64_small, num_ticks_spec by done. rewrite u32_small; [done|].
      change (is_u32 (Z.min (ticks_of (earliest l - curr)) STARFIVE_TIMER_MAX_TICKS)). apply load_fits. lia.
    + apply jh_later_passes in Hl2. exact Hl2.
    + done.
  - apply negb_false_iff, Z.eqb_eq in Hbm. apply HQ; [|by split|done]. by split; split.
Qed.

Lemma jh_done s r reply s' :
  jh_inv s' -> passes (jh_dev s) (jh_dev s') ->
  (sound (jh_dev s') -> exists t, ck_now (de_clock (jh_dev s)) <= t <= ck_now (de_clock (jh_dev s')) /\
     service_step CLIENT_CH_START id (ns_of t) (jh_kind r) (service_of (jh_table s)) = (service_of (jh_table s'), reply)) ->
  jh_inv s' /\ implements s r reply s'.
Proof.
  intros Hi [Hle Hl] Ht. split; [done|]. intros Hg. split; [by apply Hl|]. destruct (Ht Hg) as (t & Hr & E).
  exists (ns_of t), (ns_of t). cbn [td_clock jh_driver]. split_and!; [apply jh_ns_of_mono; lia|apply jh_ns_of_mono; lia|done|done].
Qed.

Lemma jh_inv_since s d x e : jh_inv s -> jh_dev s = x -> since x d -> dev_ok e d -> 0 <= e -> forall t n,
  table_wf t -> tt_timeouts t = tt_timeouts (jh_table s) ->
  jh_inv (mk_jh (jh_dr s) t (jh_counter_irq s) (jh_timeout_irq s) e n d).
Proof.
  intros [[Ht Hd Hi He] Ha] <- Hl Hd' He' t n Hw Et. split; [by split|]. cbn [jh_dev jh_table]. rewrite Et.
  intros Hs Hne. eapply counts_since; [exact Hl|]. apply Ha; [by apply (si_sound _ _ Hl)|done].
Qed.

(** The interrupt of the counter: one more wrap is counted. *)
Lemma counter_step s (Q : option Z -> jh7110 -> Prop) :
  jh_inv s -> (forall s', jh_inv s' -> passes (jh_dev s) (jh_dev s') -> service_of (jh_table s') = service_of (jh_table s) -> Q None s') ->
  wp (jh_step JCounter) s Q.
Proof.
  intros Hi HQ. pose proof Hi as [[Ht Hd Hirq He] Ha]. unfold jh_step. do 2 wp_step. wp_step. destruct (de_pending (jh_dev s)) eqn:Ep; cbn [when].
  2: { do 2 wp_step. apply HQ; [done|by split|done]. }
  unfold notified. do 2 wp_step. rewrite Z.eqb_refl. unfold on_dev, on_table, emit. do 3 wp_step. wp_step.
  cbn [jh_dev set_counter_elapses]. apply (wait_intclr_spec _ _ _ _ Hd). intros d1 Hd1 Hl1 Hb1. do 2 wp_step. cbn [jh_dev set_dev].
  apply (write_intclr_spec _ _ _ _ Hd1 Hb1); [intros _; by apply (la_pending _ _ Hl1)|]. intros d' Hd' Hl Hep. rewrite (la_pending _ _ Hl1 Ep) in Hep. cbn in Hep.
  apply later_since in Hl1. assert (since (jh_dev s) d') as Hsi by by etrans. repeat wp_step.
  cbn [jh_dev jh_table set_dev set_table set_counter_elapses]. apply HQ; [|by apply since_passes|cbn; by apply service_of_event].
  apply (jh_inv_since s d' _ _ Hi eq_refl Hsi); [|apply u32_range|done|done].
  destruct Hd' as [Hc Hst Hel]. split; [done|done|]. intros Hs. rewrite u32_small; [by apply Hel|].
  specialize (Hep Hs). destruct Hc as [H0 Hce _]. pose proof (ck_now_end (de_clock d')).
  assert (epoch (ck_now (de_clock d')) < 2 ^ 32); [|unfold is_u32; lia]. unfold epoch, TICKS_BOUND in *. apply Z.div_lt_upper_bound; lia.
Qed.

(** A reading at [t], then [process_timeouts] on the table [tab]. *)
Lemma jh_reads_later d0 d1 d2 d3 now : passes d0 d1 -> reads_time d1 d2 now -> passes d2 d3 -> reads_time d0 d3 now.
Proof. intros [H01 _] Hr [H23 Hl] El. destruct (Hr (Hl El)) as (t & Ht & ->). exists t. split; [lia|done]. Qed.

(** The interrupt of the timeout counter. *)
Lemma timeout_step s (Q : option Z -> jh7110 -> Prop) :
  jh_inv s ->
  (forall s' now, jh_inv s' -> passes (jh_dev s) (jh_dev s') -> reads_time (jh_dev s) (jh_dev s') now ->
     service_of (jh_table s') = serve CLIENT_CH_START now (service_of (jh_table s)) -> Q None s') ->
  wp (jh_step JTimeout) s Q.
Proof.
  intros [[Ht Hd Hirq He] Ha] HQ. unfold jh_step. do 3 wp_step. unfold notified. do 2 wp_step.
  rewrite (proj2 (Z.eqb_neq _ _)), Z.eqb_refl by done. unfold on_dev, on_table, emit. do 4 wp_step.
  cbn [jh_dev set_timeout_elapses]. apply (wait_intclr_spec _ _ _ _ Hd). intros d0 Hd0 Hl0 Hb0. do 2 wp_step. cbn [jh_dev set_dev].
  apply (write_intclr_spec _ _ _ _ Hd0 Hb0); [done|]. intros d1 Hd1 Hl1 _. rewrite Z.add_0_r in Hd1. wp_step.
  apply jh_get_ticks_spec; [done|]. cbn [jh_dev jh_counter_timer_elapses set_table set_dev set_timeout_elapses].
  intros now d2 Hd2 Hl2 Hnow. wp_step. pose proof (co_nonneg _ _ _ (do_clock _ _ Hd1)) as H0.
  apply (jh_process_timeouts_spec d1); [by split|done|done|]. intros s' Hi' Hp' Htab. repeat wp_step.
  cbn [jh_dev jh_table set_table set_dev set_timeout_elapses] in Hp', Htab.
  assert (passes (jh_dev s) d1) as Hp1 by (etrans; [by apply jh_later_passes|by apply since_passes]). pose proof (jh_later_passes _ _ Hl2) as Hp2.
  apply (HQ _ now); cbn [jh_dev jh_table set_table].
  - destruct Hi' as [[] Ha']. by split.
  - by repeat (etrans; [done|]).
  - apply (jh_reads_later _ d1 d2); [done|by apply reads_now_time|done].
  - rewrite service_of_event by done. by rewrite Htab, service_of_processed.
Qed.

(** A call of a client. *)
Lemma call_step s ch label mr0 (Q : option Z -> jh7110 -> Prop) :
  jh_inv s -> req_ok (jh_kind (JCall ch label mr0)) ->
  (forall s' now reply, jh_inv s' -> passes (jh_dev s) (jh_dev s') -> reads_time (jh_dev s) (jh_dev s') now ->
     (sound (jh_dev s') ->
      service_step CLIENT_CH_START id now (jh_kind (JCall ch label mr0)) (service_of (jh_table s)) = (service_of (jh_table s'), reply)) ->
     Q reply s') ->
  wp (jh_step (JCall ch label mr0)) s Q.
Proof.
  intros Hi Hr HQ. pose proof Hi as [[Ht Hd Hirq He] Ha]. pose proof (co_nonneg _ _ _ (do_clock _ _ Hd)) as H0.
  unfold jh_step. do 3 wp_step. unfold protected, jh_kind, call_kind in *.
  destruct (label =? SDDF_TIMER_GET_TIME) eqn:El; [|destruct (label =? SDDF_TIMER_SET_TIMEOUT) eqn:El'].
  - wp_step. apply jh_get_ticks_spec; [done|]. intros now d Hd' Hl' Hnow. do 2 wp_step.
    apply (HQ _ now); [|by apply jh_later_passes|by apply reads_now_time|done].
    by apply (jh_inv_since s d _ _ Hi eq_refl); [apply later_since|..].
  - cbn [req_ok] in Hr. destruct Hr as [Hch Hoff]. unfold id in Hoff.
    wp_step. apply jh_get_ticks_spec; [done|]. intros now d Hd' Hl' Hnow. wp_step. unfold on_table. wp_step.
    rewrite (u32_small (ch - CLIENT_CH_START)) by (unfold is_u32, MAX_TIMEOUTS in *; lia).
    apply store_timeout_spec; [done|done|]. wp_step.
    apply (jh_process_timeouts_spec (jh_dev s)); [split; cbn; try done; by apply with_deadline_wf, u64_range|done|done|].
    intros s' Hi' Hp' Htab. cbn [jh_dev jh_table set_table set_dev] in Hp', Htab. do 2 wp_step.
    pose proof (jh_later_passes _ _ Hl') as Hp1.
    apply (HQ _ now); [done|by etrans|by apply (jh_reads_later _ (jh_dev s) d); [|apply reads_now_time|]|].
    intros Hs. destruct Hnow as (Hn1 & _ & Hn). rewrite Hn by apply Hp', Hs.
    pose proof (jh_ns_of_bound _ (dev_range _ _ (de_read d) Hd' ltac:(lia))).
    cbn [service_step]. rewrite Htab, service_of_processed, Hn by apply Hp', Hs. rewrite u64_small by (unfold is_u64, id; lia). done.
  - do 2 wp_step. apply (HQ _ (ns_of (ck_now (de_clock (jh_dev s))))); [done|by split| |done].
    intros _. eexists. split; [|done]. lia.
Qed.

#[export] Instance jh_ok : TimerDriverOk jh7110 jh_request.
Proof.
  split. intros s r Hi Hr. cbn [td_inv td_step td_kind jh_driver] in *. destruct r as [| |ch label mr0].
  - apply counter_step; [done|]. intros s' Hi' Hp Hserv. apply jh_done; [done|done|]. intros _.
    exists (ck_now (de_clock (jh_dev s))). cbn [service_step jh_kind]. rewrite Hserv. split; [destruct Hp; lia|done].
  - apply timeout_step; [done|]. intros s' now Hi' Hp Hnow Hserv. apply jh_done; [done|done|]. intros Hl.
    destruct (Hnow Hl) as (t & Ht & ->). exists t. cbn [service_step jh_kind]. by rewrite Hserv.
  - apply call_step; [done|done|]. intros s' now reply Hi' Hp Hnow Hserv. apply jh_done; [done|done|]. intros Hl.
    destruct (Hnow Hl) as (t & Ht & ->). exists t. split; [done|by apply Hserv].
Qed.

(** The device before the driver starts its counter. *)
Record jh_start (s : jh7110) : Prop := {
  js_magic : jr_magic (jh_dr s) = true;
  js_num_irqs : jr_num_irqs (jh_dr s) = 2;
  js_num_regions : jr_num_regions (jh_dr s) = 1;
  js_irqs : exists c t rest, jr_irqs (jh_dr s) = c :: t :: rest /\ c <> t;
  js_timeouts : length (tt_timeouts (jh_table s)) = 6%nat;
  js_elapses : jh_counter_timer_elapses s = 0;
  js_clock : ck_now (de_clock (jh_dev s)) = 0 /\ ck_end (de_clock (jh_dev s)) < TICKS_BOUND;
  js_step : 0 < de_step (jh_dev s) /\ Forall (fun n => Z.of_N n < de_step (jh_dev s)) (ck_script (de_clock (jh_dev s)));
  js_idle : de_pending (jh_dev s) = false;
}.

(** Writing the configuration of a counter leaves what the clock needs. *)
Definition starts_idle (s : jh7110) : Prop := jh_wf s /\ tt_timeouts (jh_table s) = replicate 6 UINT64_MAX.

Lemma counter_regs_idle f s (Q : unit -> jh7110 -> Prop) :
  starts_idle s -> (forall s', starts_idle s' -> Q tt s') -> wp (counter_regs f) s Q.
Proof. intros [[Ht [Hc Hst He] Hne Hel] Hi] HQ. unfold counter_regs, on_dev. do 2 wp_step. apply HQ. by split; [split; [|split|..]|]. Qed.

Lemma timeout_regs_idle f s (Q : unit -> jh7110 -> Prop) :
  starts_idle s -> (forall s', starts_idle s' -> Q tt s') -> wp (timeout_regs f) s Q.
Proof. intros [[Ht [Hc Hst He] Hne Hel] Hi] HQ. unfold timeout_regs, on_dev. do 2 wp_step. apply HQ. by split; [split; [|split|..]|]. Qed.

Lemma jh_init_spec s (Q : unit -> jh7110 -> Prop) :
  jh_start s -> (forall s', jh_inv s' -> Q tt s') -> wp init s Q.
Proof.
  intros [Hm Hi Hr (c & t & rest & Hirqs & Hne) Hl He [H0 Hce] [Hs0 Hst] Hp] HQ. unfold init. do 3 wp_step. apply wp_assert; [done|].
  wp_step. apply wp_assert; [by rewrite Hi|]. wp_step. apply wp_assert; [by rewrite Hr|]. rewrite Hi, Hirqs.
  wp_step. eapply wp_intro; [reflexivity|]. unfold on_table. do 2 wp_step. apply init_timeouts_spec; [done|].
  wp_step. eapply wp_lift; [reflexivity|]. wp_step. eapply wp_lift; [reflexivity|].
  do 2 wp_step. match goal with |- wp _ ?s0 _ => assert (starts_idle s0) as Hs end.
  { split; [|done]. split; [by split; [|repeat constructor]| |done|cbn; lia]. split; cbn; [split; [lia|lia|done]|done|]. by rewrite He, Hp, H0. }
  do 4 (wp_step; apply timeout_regs_idle; [exact Hs|]; clear Hs; intros ? Hs).
  do 4 (wp_step; apply counter_regs_idle; [exact Hs|]; clear Hs; intros ? Hs).
  apply counter_regs_idle; [exact Hs|]. clear Hs. intros s2 [Hw El]. apply HQ. split; [done|]. rewrite El. by intros _ [].
Qed.

(** C28. The JH7110 driver implements the timer service in nanoseconds.  After
    initialisation and any sequence of interrupts of both counters and calls
    nothing faults, and the waits for a busy register end.  As long as no wrap
    of the counter went by while the last was not served, and none was pending
    while the driver found the register busy, notifications and replies are
    those of the service at times that follow each other, each within the
    handler that read it: the clock made of the 32-bit counter, the wraps counted
    and the one that may be pending is exact.  In the state reached the timeout
    counter runs for the earliest deadline left: it was started, less than two
    accesses after the counter was last read before that, with the ticks that
    were left then (2^32 - 1 if that is more), so that it ends less than 43 ns
    before the deadline, and later than it by no more than these accesses
    took. *)
Theorem jh_timer_serves (s0 : jh7110) (rs : list jh_request) :
  jh_start s0 -> Forall (fun r => req_ok (jh_kind r)) rs ->
  exists s1 replies s, init s0 = Ok (tt, s1) /\ run_requests rs s1 = Ok (replies, s) /\
    (sound (jh_dev s) ->
     (exists nows, in_order (ns_of (ck_now (de_clock (jh_dev s1)))) nows (ns_of (ck_now (de_clock (jh_dev s)))) /\
        length nows = length rs /\
        service_run CLIENT_CH_START id (zip nows (jh_kind <$> rs)) (service_of (jh_table s1)) = (service_of (jh_table s), replies)) /\
     (let next := earliest (tt_timeouts (jh_table s)) in
      let d := jh_dev s in
      let ends := ns_of (de_started d + sf_load (de_timeout_regs d)) in
      next <> UINT64_MAX -> counts_down_to d next /\
        ends <= next + ns_of (2 * de_step d) /\
        (sf_load (de_timeout_regs d) < STARFIVE_TIMER_MAX_TICKS -> next - 42 <= ends))).
Proof.
  intros Hs Hrs. assert (wp init s0 (fun _ => jh_inv)) as ([] & s1 & E1 & Hi1)%wp_elim by (by apply jh_init_spec).
  destruct (accurate_driver_runs (S:=jh7110) (R:=jh_request) rs s1) as (replies & s & E & His & Himp); [done|done|done|].
  exists s1, replies, s. split; [done|]. split; [done|]. intros Hl. split; [by apply Himp|]. cbv zeta. intros He.
  pose proof (ji_armed _ His Hl He) as Hcd. split; [done|]. destruct Hcd as (_ & _ & Hst & _ & _ & ->). split.
  - etrans; [|apply ticks_within, Hst]. apply jh_ns_of_mono. lia.
  - intros Hcap. rewrite Z.min_l by lia. apply ticks_cover, jh_ns_of_mono. lia.
Qed.

(** A wrap of the counter while a timeout runs, seen first by a call and then
    counted; the registers are busy for a while after each write. *)
Definition jh_ex : jh7110 :=
  mk_jh (mk_jh_resources true 2 1 [0; 1]) (mk_table (replicate 6 0) []) 0 0 0 0
    (mk_device (mk_clock 0 [] [4294000000; 10; 20; 967400; 5; 6; 7; 8; 9; 10; 11; 12; 13; 2399000; 1; 1]%N)
       false false false false 0 2 [2; 3]%N (mk_regs 0 0 0 0) (mk_regs 0 0 0 0) 0 0 0 (2 ^ 32)).
Definition jh_reqs_ex : list jh_request :=
  [JCall 2 SDDF_TIMER_SET_TIMEOUT 100000000; JCall 3 SDDF_TIMER_GET_TIME 0; JCounter; JTimeout; JCall 3 SDDF_TIMER_SET_TIMEOUT 5000].

Lemma jh_ex_start : jh_start jh_ex.
Proof. split; try done; [by exists 0, 1, []|split; [done|by repeat constructor]]. Qed.

Lemma jh_timer_serves_witness :
  exists s1 replies s, init jh_ex = Ok (tt, s1) /\ run_requests jh_reqs_ex s1 = Ok (replies, s) /\
    sound (jh_dev s) /\ jh_counter_timer_elapses s = 1 /\ notified_of (tt_events (jh_table s)) = [2] /\
    counts_down_to (jh_dev s) (earliest (tt_timeouts (jh_table s))).
Proof.
  destruct (jh_timer_serves jh_ex jh_reqs_ex) as (s1 & replies & s & E1 & E & Hser); [exact jh_ex_start| |].
  { repeat constructor; vm_compute; intuition congruence. }
  exists s1, replies, s. vm_compute in E1. injection E1 as <-. vm_compute in E. injection E as <- <-.
  split; [reflexivity|]. split; [reflexivity|]. split; [by split|]. split; [reflexivity|]. split; [reflexivity|].
  destruct Hser as [_ Ha]; [by split|]. by apply Ha.
Defined.

(** The counter wraps around while its register is still busy with the last
    clearing: the register reads 3, and the time goes back by a whole turn of
    the counter. *)
Example jh_busy_goes_back :
  match run_requests [JCall 2 SDDF_TIMER_GET_TIME 0; JCall 2 SDDF_TIMER_GET_TIME 0]
    (mk_jh (mk_jh_resources true 2 1 [0; 1]) (mk_table (replicate 6 0) []) 0 1 0 0
      (mk_device (mk_clock (2 ^ 32 - 100) [] [10; 10; 200; 10]%N) false false false false 2 0 []
         (mk_regs 0 0 0 0) (mk_regs 0 0 0 0) 0 0 0 (2 ^ 32))) with
  | Ok ([Some t; Some t'], s) => ns_of (2 ^ 32) - t < 5000 /\ t' < 6000 /\ de_lost (jh_dev s) = false
  | _ => False
  end.
Proof. vm_compute. repeat split. Qed.
