(* ===== verification/TimerImx.v ===== *)
(** * The i.MX timer driver: drivers/timer/imx/timer.c

    The general purpose timer: a counter of 32 bits whose wraps the driver
    counts, and a comparator that interrupts when the counter is at its value.
    The C build is modelled; the build with the Pancake compiler calls code
    that is not C. *)

From S2P Require Import Prelude Microkit TimerTable.

Definition GPT_STATUS_REGISTER_CLEAR : Z := 0x3F.
Definition GPT_FREQ : Z := 12.
(** The bits of [SR] and [IR] for the comparator [OCR1] and for a wrap. *)
Definition OF1 : Z := 1.
Definition ROV : Z := Z.shiftl 1 5.

(** The device.  [gp_of1] and [gp_rov] are the two flags of the status register
    [SR] that the driver tests (the others are never tested); [gp_lost] says
    that the counter wrapped around a second time before the flag was cleared;
    a reset takes [gp_reset] reads of [CR]. *)
Record gpt : Type := mk_gpt {
  gp_clock : clock;  (* CNT is its low word *)
  gp_of1 : bool;
  gp_rov : bool;
  gp_lost : bool;
  gp_cr : Z;
  gp_pr : Z;
  gp_ir : Z;
  gp_ocr1 : Z;
  gp_reset : N;
}.

Definition set_flags (of1 rov : bool) (g : gpt) : gpt := mk_gpt (gp_clock g) of1 rov (gp_lost g) (gp_cr g) (gp_pr g) (gp_ir g) (gp_ocr1 g) (gp_reset g).
Definition set_cr (x : Z) (n : N) (g : gpt) : gpt := mk_gpt (gp_clock g) (gp_of1 g) (gp_rov g) (gp_lost g) x (gp_pr g) (gp_ir g) (gp_ocr1 g) n.
Definition set_pr (x : Z) (g : gpt) : gpt := mk_gpt (gp_clock g) (gp_of1 g) (gp_rov g) (gp_lost g) (gp_cr g) x (gp_ir g) (gp_ocr1 g) (gp_reset g).
Definition set_ir (x : Z) (g : gpt) : gpt := mk_gpt (gp_clock g) (gp_of1 g) (gp_rov g) (gp_lost g) (gp_cr g) (gp_pr g) x (gp_ocr1 g) (gp_reset g).
Definition set_ocr1 (x : Z) (g : gpt) : gpt := mk_gpt (gp_clock g) (gp_of1 g) (gp_rov g) (gp_lost g) (gp_cr g) (gp_pr g) (gp_ir g) x (gp_reset g).

Record imx : Type := mk_imx {
  ix_dr : device_resources;
  ix_table : table;
  ix_overflow_count : Z; (* uint32_t *)
  ix_gpt : gpt;
}.

Definition set_table (x : table) (s : imx) : imx := mk_imx (ix_dr s) x (ix_overflow_count s) (ix_gpt s).
Definition set_overflow_count (x : Z) (s : imx) : imx := mk_imx (ix_dr s) (ix_table s) x (ix_gpt s).
Definition set_gpt (x : gpt) (s : imx) : imx := mk_imx (ix_dr s) (ix_table s) (ix_overflow_count s) x.

Definition on_table {A} (m : M table A) : M imx A := zoom ix_table set_table m.
Definition on_gpt {A} (m : M gpt A) : M imx A := zoom ix_gpt set_gpt m.

(** ** The registers *)

Definition epoch (t : Z) : Z := t / 2 ^ 32.

(** The counter passes the value [x] between two times. *)
Definition reaches (x t t' : Z) : bool := (t - x) / 2 ^ 32 <? (t' - x) / 2 ^ 32.

Definition tick (c : clock) (g : gpt) : gpt :=
  let t := ck_now (gp_clock g) in
  let wraps := epoch (ck_now c) - epoch t in
  mk_gpt c (gp_of1 g || reaches (gp_ocr1 g) t (ck_now c)) (gp_rov g || (0 <? wraps))
    (gp_lost g || (1 <? Z.b2z (gp_rov g) + wraps)) (gp_cr g) (gp_pr g) (gp_ir g) (gp_ocr1 g) (gp_reset g).

Definition pass : M gpt Z :=
  g ← get;
  r ← lift (elapse (gp_clock g));
  let '(now, c) := (r : Z * clock) in
  put (tick c g);;
  mret now.

Definition read_SR : M gpt Z := pass;; g ← get; mret (Z.b2z (gp_of1 g) + 32 * Z.b2z (gp_rov g)).
Definition read_CNT : M gpt Z := now ← pass; mret (u32 now).
(** A 1 written to a flag of [SR] clears it. *)
Definition write_SR (v : Z) : M gpt unit := modify (fun g =>
  set_flags (gp_of1 g && (Z.land v OF1 =? 0)) (gp_rov g && (Z.land v ROV =? 0)) g).
Definition write_OCR1 (v : Z) : M gpt unit := pass;; modify (set_ocr1 v).
Definition ir_set (bits : Z) : M gpt unit := modify (fun g => set_ir (Z.lor (gp_ir g) bits) g).
Definition ir_clear (bits : Z) : M gpt unit := modify (fun g => set_ir (Z.land (gp_ir g) (u32 (Z.lnot bits))) g).
(** [CR]: the reset bit reads as 1 until the reset is done; the counter does not
    run meanwhile. *)
Definition CR_SWR : Z := Z.shiftl 1 15.
Definition read_CR : M gpt Z :=
  g ← get;
  modify (set_cr (gp_cr g) (N.pred (gp_reset g)));;
  mret (if (gp_reset g =? 0)%N then Z.land (gp_cr g) (u32 (Z.lnot CR_SWR)) else gp_cr g).
Definition write_CR (v : Z) : M gpt unit := modify (fun g => set_cr v (gp_reset g) g).

(** ** The driver *)

Definition get_ticks : M imx Z :=
  overflow ← gets ix_overflow_count;
  sr1 ← on_gpt read_SR;
  cnt ← on_gpt read_CNT;
  sr2 ← on_gpt read_SR;
  '(overflow, cnt) ← (if negb (Z.land sr2 (Z.shiftl 1 5) =? 0) && (Z.land sr1 (Z.shiftl 1 5) =? 0) then
      cnt ← on_gpt read_CNT;
      mret (u64 (overflow + 1), cnt)
    else mret (overflow, cnt));
  mret (Z.lor (u64 (Z.shiftl overflow 32)) cnt).

Definition process_timeouts (curr_time : Z) : M imx unit :=
  next_timeout ← on_table (process_table 0 curr_time);
  overflow_count ← gets ix_overflow_count;
  when (negb (next_timeout =? UINT64_MAX) && (overflow_count =? Z.shiftr next_timeout 32)) (
    on_gpt (write_OCR1 (u32 next_timeout));;
    on_gpt (ir_set 1)).

(** The head of [notified]: the flags are cleared and a wrap is counted. *)
Definition acknowledge : M imx unit :=
  sr ← on_gpt read_SR;
  on_gpt (write_SR sr);;
  when (negb (Z.land sr (Z.shiftl 1 5) =? 0)) (modify (fun s => set_overflow_count (u32 (ix_overflow_count s + 1)) s));;
  when (negb (Z.land sr 1 =? 0)) (on_gpt (ir_clear 1)).

Definition notified (ch : Z) : M imx unit :=
  dr ← gets ix_dr;
  if negb (ch =? dr_irq_id dr) then mret tt
  else
  on_table (emit (DeferredIrqAck ch));;
  acknowledge;;
  curr_time ← get_ticks;
  process_timeouts curr_time.

(** The result is the number of registers of the reply and what the first of
    them holds. *)
Definition protected (ch label mr0 : Z) : M imx (Z * option Z) :=
  if label =? SDDF_TIMER_GET_TIME then
    ticks ← get_ticks;
    mret (1, Some (u64 (ticks / GPT_FREQ * NS_IN_US)))
  else if label =? SDDF_TIMER_SET_TIMEOUT then
    curr_time ← get_ticks;
    let offset_ticks := u64 (mr0 / NS_IN_US * GPT_FREQ) in
    on_table (store_timeout ch (u64 (curr_time + offset_ticks)));;
    process_timeouts curr_time;;
    mret (0, None)
  else mret (0, None).

Definition init : M imx unit :=
  dr ← gets ix_dr;
  assert_ (dr_magic dr);;
  assert_ (dr_num_irqs dr =? 1);;
  assert_ (dr_num_regions dr =? 1);;
  on_table (emit (IrqAck (dr_irq_id dr)));;
  on_table init_timeouts;;
  on_gpt (write_CR 0);;
  on_gpt (write_SR GPT_STATUS_REGISTER_CLEAR);;
  on_gpt (write_CR (Z.lor 0 (Z.shiftl 1 15)));;
  cr ← on_gpt read_CR;
  with_local cr (loop (fun p => S (N.to_nat (gp_reset (ix_gpt p.1)))) (fun p => negb (Z.land p.2 (Z.shiftl 1 15) =? 0))
    (cr ← on_state (on_gpt read_CR); set_local cr));;
  on_gpt (write_CR (Z.lor (Z.lor (Z.shiftl 1 9) (Z.shiftl 1 6)) 1));;
  on_gpt (modify (set_ir (Z.shiftl 1 5)));;
  on_gpt (modify (set_pr 1)).

(** ** The clock of 64 bits *)

Definition TICKS_BOUND : Z := 2 ^ 57.

(** The wraps counted and the one that is flagged make the high word of the
    time, as long as none was lost. *)
Record gpt_ok (overflow : Z) (g : gpt) : Prop := {
  go_clock : clock_below TICKS_BOUND (gp_clock g);
  go_nonneg : 0 <= overflow;
  go_epoch : gp_lost g = false -> overflow + Z.b2z (gp_rov g) = epoch (ck_now (gp_clock g));
}.

(** From [g] to [g'] time passes. *)
Record later (g g' : gpt) : Prop := {
  la_now : ck_now (gp_clock g) <= ck_now (gp_clock g');
  la_lost : gp_lost g' = false -> gp_lost g = false;
  la_rov : gp_rov g = true -> gp_rov g' = true;
  la_ir : gp_ir g' = gp_ir g;
  la_ocr1 : gp_ocr1 g' = gp_ocr1 g;
}.

#[export] Instance imx_later_refl : Reflexive later.
Proof. by intros g. Qed.
#[export] Instance imx_later_trans : Transitive later.
Proof. intros g1 g2 g3 [] []. split; [lia|tauto|tauto|congruence|congruence]. Qed.

(** Time does not go back, and a lost wrap stays lost. *)
Definition passes (g g' : gpt) : Prop :=
  ck_now (gp_clock g) <= ck_now (gp_clock g') /\ (gp_lost g' = false -> gp_lost g = false).

#[export] Instance imx_passes_trans : Transitive passes.
Proof. intros g1 g2 g3 [] []. split; [lia|tauto]. Qed.

Lemma imx_later_passes g g' : later g g' -> passes g g'.
Proof. by intros []. Qed.

Lemma imx_epoch_mono t t' : t <= t' -> epoch t <= epoch t'.
Proof. intros. unfold epoch. by apply Z.div_le_mono. Qed.

Lemma imx_tick_ok e c g :
  gpt_ok e g -> clock_below TICKS_BOUND c -> ck_now (gp_clock g) <= ck_now c -> gpt_ok e (tick c g) /\ later g (tick c g).
Proof.
  intros [Hc H0 He] Hc' Hle. pose proof (imx_epoch_mono _ _ Hle) as Hep. unfold tick. cbn zeta.
  set (w := epoch (ck_now c) - epoch (ck_now (gp_clock g))).
  split; split; cbn; try done.
  - intros [Hl Hw%Z.ltb_ge]%orb_false_iff. specialize (He Hl). destruct (Z.ltb_spec 0 w); destruct (gp_rov g); cbn in *; lia.
  - by intros [Hl _]%orb_false_iff.
  - by intros ->.
Qed.

Lemma imx_pass_spec e g (Q : Z -> gpt -> Prop) :
  gpt_ok e g -> (forall g', gpt_ok e g' -> later g g' -> Q (ck_now (gp_clock g')) g') -> wp pass g Q.
Proof.
  intros Hg HQ. unfold pass. do 3 wp_step.
  assert (wp elapse (gp_clock g) (fun now c => now = ck_now c /\ clock_below TICKS_BOUND c /\ ck_now (gp_clock g) <= ck_now c))
    as (now & c & E & -> & Hc & Hle)%wp_elim by (apply (elapse_below _ _ _ (go_clock _ _ Hg)); intros; split_and!; try done; lia).
  eapply wp_lift; [exact E|]. cbv beta iota. do 3 wp_step. destruct (imx_tick_ok e c g Hg Hc Hle). by apply (HQ (tick c g)).
Qed.

Definition status (of1 rov : bool) : Z := Z.b2z of1 + 32 * Z.b2z rov.

Lemma read_SR_spec e g (Q : Z -> gpt -> Prop) :
  gpt_ok e g -> (forall g', gpt_ok e g' -> later g g' -> Q (status (gp_of1 g') (gp_rov g')) g') -> wp read_SR g Q.
Proof. intros Hg HQ. unfold read_SR. wp_step. apply (imx_pass_spec e); [done|]. intros g' Hg' Hl. do 3 wp_step. by apply HQ. Qed.

Lemma read_CNT_spec e g (Q : Z -> gpt -> Prop) :
  gpt_ok e g -> (forall g', gpt_ok e g' -> later g g' -> Q (u32 (ck_now (gp_clock g'))) g') -> wp read_CNT g Q.
Proof. intros Hg HQ. unfold read_CNT. wp_step. apply (imx_pass_spec e); [done|]. intros g' Hg' Hl. wp_step. by apply HQ. Qed.

Lemma status_rov of1 rov : (Z.land (status of1 rov) (Z.shiftl 1 5) =? 0) = negb rov.
Proof. by destruct of1, rov. Qed.
Lemma status_of1 of1 rov : (Z.land (status of1 rov) 1 =? 0) = negb of1.
Proof. by destruct of1, rov. Qed.

Lemma clock_range e g t : gpt_ok e g -> 0 <= t <= ck_now (gp_clock g) -> 0 <= t < TICKS_BOUND.
Proof. intros [[_ Hce] _ _] Ht. pose proof (ck_now_end (gp_clock g)). lia. Qed.

Lemma imx_join_epoch e t : 0 <= e < 2 ^ 32 -> Z.lor (u64 (Z.shiftl e 32)) (u32 t) = e * 2 ^ 32 + u32 t.
Proof.
  intros He. rewrite u64_small by (rewrite Z.shiftl_mul_pow2 by done; unfold is_u64; lia). apply lor_words, u32_range.
Qed.

Lemma epoch_split t : epoch t * 2 ^ 32 + u32 t = t.
Proof. unfold epoch, u32. pose proof (Z.div_mod t (2 ^ 32) ltac:(done)). lia. Qed.

Lemma epoch_range t : 0 <= t < TICKS_BOUND -> 0 <= epoch t < 2 ^ 25.
Proof. unfold epoch, TICKS_BOUND. intros. split; [apply Z.div_pos; lia|apply Z.div_lt_upper_bound; lia]. Qed.

(** What the driver reads at [t]: the time, or, when the counter has wrapped
    around and the flag was set before the first read, 2^32 ticks less. *)
Definition skew (t now : Z) : Prop := now = t \/ now = t - 2 ^ 32.

Definition reads_time (overflow : Z) (g0 g : gpt) (now : Z) : Prop :=
  gp_lost g = false ->
  exists t, ck_now (gp_clock g0) <= t <= ck_now (gp_clock g) /\ skew t now /\ overflow <= epoch now /\ 0 <= now <= t /\
    (gp_rov g0 = true -> now = t - 2 ^ 32).

Lemma imx_get_ticks_spec s (Q : Z -> imx -> Prop) :
  gpt_ok (ix_overflow_count s) (ix_gpt s) ->
  (forall now g, gpt_ok (ix_overflow_count s) g -> later (ix_gpt s) g -> reads_time (ix_overflow_count s) (ix_gpt s) g now ->
     Q now (set_gpt g s)) ->
  wp get_ticks s Q.
Proof.
  intros Hg HQ. set (e := ix_overflow_count s) in *. pose proof (proj1 (go_clock _ _ Hg)) as H0. pose proof (go_nonneg _ _ Hg) as He0.
  unfold get_ticks, on_gpt. do 4 wp_step. apply (read_SR_spec e); [done|]. intros g1 Hg1 Hl1. do 2 wp_step. cbn [ix_gpt set_gpt].
  apply (read_CNT_spec e); [done|]. intros g2 Hg2 Hl2. do 2 wp_step. cbn [ix_gpt set_gpt].
  apply (read_SR_spec e); [done|]. intros g3 Hg3 Hl3. rewrite !status_rov, negb_involutive. fold e. wp_step.
  pose proof (la_now _ _ Hl1). pose proof (la_now _ _ Hl2). pose proof (la_now _ _ Hl3).
  destruct (gp_rov g3) eqn:E3, (gp_rov g1) eqn:E1; cbn [andb negb].
  - (* the flag was set before *)
    do 2 wp_step. apply (HQ _ g3); [done|by repeat (etrans; [done|])|]. intros Hlost. exists (ck_now (gp_clock g2)).
    pose proof (go_epoch _ _ Hg2 (la_lost _ _ Hl3 Hlost)) as He. rewrite (la_rov _ _ Hl2 E1) in He. cbn in He.
    pose proof (epoch_range _ (clock_range _ _ _ Hg2 ltac:(split; [|reflexivity]; lia))).
    rewrite imx_join_epoch by lia. pose proof (epoch_split (ck_now (gp_clock g2))).
    pose proof (u32_range (ck_now (gp_clock g2))) as [Hu _].
    assert (e * 2 ^ 32 + u32 (ck_now (gp_clock g2)) = ck_now (gp_clock g2) - 2 ^ 32) as -> by lia.
    split_and!; [lia|lia|by right| |lia|lia|done]. unfold epoch in *. rewrite <- (Z.mul_1_l (2 ^ 32)) at 1.
    rewrite <- Z.add_opp_r, <- Z.mul_opp_l, Z.div_add by done. lia.
  - (* wrapped around between the reads *)
    do 2 wp_step. cbn [ix_gpt set_gpt]. apply (read_CNT_spec e); [done|]. intros g4 Hg4 Hl4. do 2 wp_step. pose proof (la_now _ _ Hl4).
    apply (HQ _ g4); [done|by repeat (etrans; [done|])|]. intros Hlost. exists (ck_now (gp_clock g4)).
    pose proof (go_epoch _ _ Hg4 Hlost) as He. rewrite (la_rov _ _ Hl4 E3) in He. cbn in He.
    pose proof (epoch_range _ (clock_range _ _ _ Hg4 ltac:(split; [|reflexivity]; lia))).
    rewrite (u64_small (e + 1)) by (unfold is_u64; lia). rewrite imx_join_epoch by lia. rewrite He, epoch_split.
    split_and!; [lia|lia|by left|lia|lia|lia|]. intros E0. by rewrite (la_rov _ _ Hl1 E0) in E1.
  - exfalso. by rewrite (la_rov _ _ Hl3 (la_rov _ _ Hl2 E1)) in E3.
  - do 2 wp_step. apply (HQ _ g3); [done|by repeat (etrans; [done|])|]. intros Hlost. exists (ck_now (gp_clock g2)).
    pose proof (go_epoch _ _ Hg2 (la_lost _ _ Hl3 Hlost)) as He.
    destruct (gp_rov g2) eqn:E2; [by rewrite (la_rov _ _ Hl3 E2) in E3|]. cbn in He. rewrite Z.add_0_r in He.
    pose proof (epoch_range _ (clock_range _ _ _ Hg2 ltac:(split; [|reflexivity]; lia))).
    rewrite imx_join_epoch by lia. rewrite He, epoch_split. split_and!; [lia|lia|by left|lia|lia|lia|].
    intros E0. by rewrite (la_rov _ _ Hl1 E0) in E1.
Qed.

(** ** The driver implements the timer service *)

Definition imx_step (r : timer_request) : M imx (option Z) :=
  match r with
  | TInterrupt => dr ← gets ix_dr; notified (dr_irq_id dr);; mret None
  | TCall ch label mr0 => reply ← protected ch label mr0; mret (reply : Z * option Z).2
  end.

(** The comparator waits for [t] when that is in the current epoch; when it is
    in a later one, the driver waits for the counter to wrap around. *)
Definition waits_for (s : imx) (t : Z) : Prop :=
  ix_overflow_count s <= epoch t /\
  (epoch t = ix_overflow_count s -> gp_ocr1 (ix_gpt s) = u32 t /\ Z.testbit (gp_ir (ix_gpt s)) 0 = true).

Record imx_wf (s : imx) : Prop := {
  iw_table : table_wf (ix_table s);
  iw_gpt : gpt_ok (ix_overflow_count s) (ix_gpt s);
  iw_rov : Z.testbit (gp_ir (ix_gpt s)) 5 = true;
}.

Record imx_inv (s : imx) : Prop := {
  ii_wf : imx_wf s;
  ii_armed : gp_lost (ix_gpt s) = false -> earliest (tt_timeouts (ix_table s)) <> UINT64_MAX ->
    waits_for s (earliest (tt_timeouts (ix_table s)));
}.

Definition imx_offset (mr0 : Z) : Z := mr0 / NS_IN_US * GPT_FREQ.
Definition imx_time (now : Z) : Z := now / GPT_FREQ * NS_IN_US.

#[export] Instance imx_driver : TimerDriver imx timer_request := {
  td_clock s := ck_now (gp_clock (ix_gpt s));
  td_service s := service_of (ix_table s);
  td_kind := timer_kind imx_offset;
  td_base := 0;
  td_time := imx_time;
  td_step := imx_step;
  td_inv := imx_inv;
  td_good s := gp_lost (ix_gpt s) = false;
  td_skew := skew;
}.

Lemma reads_range e g0 g now : gpt_ok e g -> reads_time e g0 g now -> gp_lost g = false ->
  e <= epoch now /\ 0 <= now < TICKS_BOUND.
Proof.
  intros Hg Hr Hl. destruct (Hr Hl) as (t & Ht & _ & He & Hn & _). split; [done|].
  pose proof (clock_range _ _ t Hg ltac:(lia)). lia.
Qed.

(** [process_timeouts] sets the comparator for the earliest deadline, if it is
    in the current epoch. *)
Lemma imx_process_timeouts_spec g0 curr s (Q : unit -> imx -> Prop) :
  imx_wf s -> reads_time (ix_overflow_count s) g0 (ix_gpt s) curr ->
  (forall s', imx_inv s' -> passes (ix_gpt s) (ix_gpt s') -> ix_table s' = processed 0 curr (ix_table s) -> Q tt s') ->
  wp (process_timeouts curr) s Q.
Proof.
  intros [Ht Hg Hrov] Hr HQ. unfold process_timeouts, on_table, on_gpt. do 2 wp_step. apply process_table_spec; [done|].
  pose proof (processed_wf 0 curr _ Ht) as Hp. do 2 wp_step. cbn [ix_overflow_count ix_gpt set_table].
  rewrite Z.shiftr_div_pow2 by done. set (l := tt_timeouts (processed 0 curr (ix_table s))). fold (epoch (earliest l)).
  assert (gp_lost (ix_gpt s) = false -> ix_overflow_count s <= epoch (earliest l)) as Hle.
  { intros Hl. destruct (reads_range _ _ _ _ Hg Hr Hl) as [He Hn]. etrans; [exact He|]. apply imx_epoch_mono.
    assert (curr < earliest l); [|lia]. apply expire_later. unfold TICKS_BOUND, UINT64_MAX in *. lia. }
  apply wp_when; intros Hb.
  - apply andb_true_iff in Hb as [_ Hep%Z.eqb_eq]. unfold write_OCR1, ir_set. do 3 wp_step. cbn [ix_gpt set_table].
    apply (imx_pass_spec _ _ _ Hg). intros g1 Hg1 Hl1. repeat wp_step. cbn [ix_gpt set_gpt set_table].
    pose proof (la_ir _ _ Hl1) as Hir. apply HQ; [|by destruct (imx_later_passes _ _ Hl1)|done].
    split; [split; [done|by destruct Hg1; split|]|].
    + cbn [ix_gpt set_gpt gp_ir set_ir set_ocr1]. by rewrite Z.lor_spec, Hir, Hrov.
    + intros _ _. change (tt_timeouts (ix_table _)) with l. split; [apply Z.eq_le_incl, Hep|]. intros _.
      cbn [ix_gpt set_gpt gp_ir gp_ocr1 set_ir set_ocr1]. by rewrite Z.lor_spec, orb_true_r.
  - apply HQ; [|by split|done]. split; [by split|]. intros Hl He. change (tt_timeouts (ix_table _)) with l in *.
    rewrite (proj2 (Z.eqb_neq _ _)) in Hb by done. apply Z.eqb_neq in Hb. split; [by apply Hle|]. intros E. by destruct Hb.
Qed.

Lemma imx_done s r reply s' :
  imx_inv s' -> passes (ix_gpt s) (ix_gpt s') ->
  (gp_lost (ix_gpt s') = false -> exists t now, ck_now (gp_clock (ix_gpt s)) <= t <= ck_now (gp_clock (ix_gpt s')) /\ skew t now /\
     service_step 0 imx_time now (timer_kind imx_offset r) (service_of (ix_table s)) = (service_of (ix_table s'), reply)) ->
  imx_inv s' /\ implements s r reply s'.
Proof. intros Hi [_ Hl] Ht. split; [done|]. intros Hg. split; [by apply Hl|by apply Ht]. Qed.

Lemma imx_wf_later s g : imx_wf s -> gpt_ok (ix_overflow_count s) g -> later (ix_gpt s) g -> imx_wf (set_gpt g s).
Proof. intros [Ht _ Hr] Hg Hl. split; [done|done|]. cbn. by rewrite (la_ir _ _ Hl). Qed.

Lemma imx_inv_later s g : imx_inv s -> gpt_ok (ix_overflow_count s) g -> later (ix_gpt s) g -> imx_inv (set_gpt g s).
Proof.
  intros [Hw Ha] Hg Hl. split; [by apply imx_wf_later|]. cbn. intros Hlost He. destruct (Ha (la_lost _ _ Hl Hlost) He) as [H1 H2].
  split; [done|]. cbn. by rewrite (la_ir _ _ Hl), (la_ocr1 _ _ Hl).
Qed.

Lemma imx_reads_later e g0 g1 g2 g3 now t : passes g0 g1 -> reads_time e g1 g2 now -> passes g2 g3 -> gp_lost g3 = false ->
  t = ck_now (gp_clock g0) -> exists t', t <= t' <= ck_now (gp_clock g3) /\ skew t' now.
Proof. intros [H01 _] Hr [H23 Hl] El ->. destruct (Hr (Hl El)) as (t & Ht & Hs & _). exists t. split; [lia|done]. Qed.

Lemma acknowledge_spec s (Q : unit -> imx -> Prop) :
  imx_wf s -> (forall s', imx_wf s' -> passes (ix_gpt s) (ix_gpt s') -> ix_table s' = ix_table s -> Q tt s') ->
  wp acknowledge s Q.
Proof.
  intros [Ht Hg Hr] HQ. unfold acknowledge, on_gpt. do 2 wp_step. apply (read_SR_spec _ _ _ Hg). intros g1 Hg1 Hl1. unfold write_SR.
  do 3 wp_step. rewrite status_rov, status_of1, !negb_involutive. cbn [ix_gpt set_gpt].
  change OF1 with 1. change ROV with (Z.shiftl 1 5). rewrite status_rov, status_of1, !andb_negb_r.
  assert (forall ir, Z.testbit ir 5 = true -> Z.testbit (Z.land ir (u32 (Z.lnot 1))) 5 = true) as Hir
    by (intros ir Hb; by rewrite Z.land_spec, Hb).
  assert (Z.testbit (gp_ir g1) 5 = true) as Hr1 by (by rewrite (la_ir _ _ Hl1)).
  assert (gp_lost g1 = false -> ix_overflow_count s + 1 < 2 ^ 32) as Hsmall.
  { intros El. pose proof (go_epoch _ _ Hg1 El) as He.
    pose proof (epoch_range _ (clock_range _ _ (ck_now (gp_clock g1)) Hg1 ltac:(split; [apply Hg1|done]))).
    destruct (gp_rov g1); cbn in He; lia. }
  assert (0 <= ix_overflow_count s) as H0 by apply Hg. destruct Hg1 as [Hc1 _ He1].
  assert (forall e ir cr n, 0 <= e -> (gp_lost g1 = false -> e = epoch (ck_now (gp_clock g1))) -> Z.testbit ir 5 = true ->
    Q tt (mk_imx (ix_dr s) (ix_table s) e
            (mk_gpt (gp_clock g1) false false (gp_lost g1) cr (gp_pr g1) ir (gp_ocr1 g1) n))) as Hfin.
  { intros e ir cr n He Hep Hb. apply HQ; [|by destruct (imx_later_passes _ _ Hl1)|done]. split; [done| |done].
    split; [done|done|]. intros El. cbn [gp_rov Z.b2z]. rewrite Z.add_0_r. by apply Hep. }
  wp_step. destruct (gp_rov g1) eqn:E5; cbn [when]; wp_step; (destruct (gp_of1 g1); cbn [when]; [unfold ir_clear; do 2 wp_step|wp_step]);
    cbn [ix_overflow_count set_gpt]; (apply Hfin; [try apply u32_range; done|intros El; specialize (He1 El); cbn in He1|auto]);
    rewrite ?u32_small by (specialize (Hsmall El); unfold is_u32; lia); cbn [ix_overflow_count set_overflow_count set_gpt]; lia.
Qed.


Lemma interrupt_step s (Q : option Z -> imx -> Prop) :
  imx_wf s ->
  (forall s' t now, imx_inv s' -> passes (ix_gpt s) (ix_gpt s') ->
     (gp_lost (ix_gpt s') = false -> ck_now (gp_clock (ix_gpt s)) <= t <= ck_now (gp_clock (ix_gpt s')) /\ skew t now) ->
     service_of (ix_table s') = serve 0 now (service_of (ix_table s)) -> Q None s') ->
  wp (imx_step TInterrupt) s Q.
Proof.
  intros Hw HQ. unfold imx_step. do 3 wp_step. unfold notified. do 2 wp_step. rewrite Z.eqb_refl. cbn [negb].
  unfold on_table, emit. do 3 wp_step. wp_step. apply acknowledge_spec; [by destruct Hw|]. intros s1 Hw1 Hp1 Ht1. wp_step.
  pose proof (iw_gpt _ Hw1) as Hg1. apply imx_get_ticks_spec; [done|]. intros now g Hg Hl Hr.
  apply (imx_process_timeouts_spec (ix_gpt s1)); [by apply imx_wf_later|done|]. intros s' Hi' Hp' Ht'. wp_step.
  cbn [ix_gpt ix_table set_gpt set_table] in *.
  assert (service_of (ix_table s') = serve 0 now (service_of (ix_table s))) as Hserv
    by (by rewrite Ht', service_of_processed, Ht1, service_of_event).
  assert (passes (ix_gpt s) (ix_gpt s')) as Hp by (etrans; [exact Hp1|]; etrans; [by apply imx_later_passes|exact Hp']).
  destruct (gp_lost (ix_gpt s')) eqn:El; [apply (HQ _ 0 now); [done|done|congruence|done]|].
  destruct (imx_reads_later _ _ _ _ _ _ _ Hp1 Hr Hp' El eq_refl) as (t & Ht & Hs). by apply (HQ _ t now).
Qed.

Lemma imx_call_step s ch label mr0 (Q : option Z -> imx -> Prop) :
  imx_inv s -> req_ok (timer_kind imx_offset (TCall ch label mr0)) ->
  (forall s' t now reply, imx_inv s' -> passes (ix_gpt s) (ix_gpt s') ->
     (gp_lost (ix_gpt s') = false -> (ck_now (gp_clock (ix_gpt s)) <= t <= ck_now (gp_clock (ix_gpt s')) /\ skew t now) /\
        service_step 0 imx_time now (timer_kind imx_offset (TCall ch label mr0)) (service_of (ix_table s)) = (service_of (ix_table s'), reply)) ->
     Q reply s') ->
  wp (imx_step (TCall ch label mr0)) s Q.
Proof.
  intros Hi Hr HQ. pose proof Hi as [[Ht Hg Hrov] Ha]. pose proof (proj1 (go_clock _ _ Hg)) as H0.
  unfold imx_step. wp_step. unfold protected, timer_kind, call_kind in *.
  destruct (label =? SDDF_TIMER_GET_TIME) eqn:El; [|destruct (label =? SDDF_TIMER_SET_TIMEOUT) eqn:El'].
  - wp_step. apply imx_get_ticks_spec; [done|]. intros now g Hg' Hl Hread. do 2 wp_step. pose proof (imx_later_passes _ _ Hl) as Hp.
    destruct (gp_lost g) eqn:Elost.
    { apply (HQ _ 0 now); [by apply imx_inv_later|done|]. cbn. congruence. }
    destruct (Hread Elost) as (t & Htr & Hs & _). apply (HQ _ t now); [by apply imx_inv_later|done|]. intros _. split; [done|].
    destruct (reads_range _ _ _ _ Hg' Hread Elost) as [_ Hn]. cbn [service_step snd]. rewrite u64_small; [done|].
    unfold is_u64, GPT_FREQ, NS_IN_US, TICKS_BOUND in *. pose proof (Z.div_mod now 12). pose proof (Z.mod_pos_bound now 12). lia.
  - cbn [req_ok] in Hr. destruct Hr as [Hch Hoff]. rewrite Z.sub_0_r in *. unfold imx_offset in Hoff.
    wp_step. apply imx_get_ticks_spec; [done|]. intros now g Hg' Hl Hread. wp_step. unfold on_table. wp_step.
    rewrite (u64_small (mr0 / NS_IN_US * GPT_FREQ)) by (unfold is_u64; lia).
    apply store_timeout_spec; [done|done|]. wp_step.
    apply (imx_process_timeouts_spec (ix_gpt s)); [split; cbn; [by apply with_deadline_wf, u64_range|done|by rewrite (la_ir _ _ Hl)]|done|].
    intros s' Hi' Hp' Htab. cbn [ix_gpt ix_table set_table set_gpt] in Hp', Htab. do 2 wp_step.
    assert (passes (ix_gpt s) (ix_gpt s')) as Hp by (etrans; [by apply imx_later_passes|exact Hp']).
    destruct (gp_lost (ix_gpt s')) eqn:Elost; [apply (HQ _ 0 now); [done|done|congruence]|].
    destruct (Hread (proj2 Hp' Elost)) as (t & Htr & Hs & _). apply (HQ _ t now); [done|done|]. intros _.
    split; [destruct Hp'; split; [lia|done]|]. destruct (reads_range _ _ _ _ Hg' Hread (proj2 Hp' Elost)) as [_ Hn].
    cbn [service_step snd]. rewrite Htab, service_of_processed, u64_small by (unfold is_u64, TICKS_BOUND in *; lia). done.
  - do 2 wp_step. set (t := ck_now (gp_clock (ix_gpt s))). apply (HQ _ t t); [done|by split|]. intros _. split; [split; [lia|by left]|done].
Qed.

#[export] Instance imx_ok : TimerDriverOk imx timer_request.
Proof.
  split. intros s r Hi Hr. cbn [td_inv td_step td_kind imx_driver] in *. destruct r as [|ch label mr0].
  - apply interrupt_step; [apply Hi|]. intros s' t now Hi' Hp Ht Hserv. apply imx_done; [done|done|]. intros Hl.
    exists t, now. destruct (Ht Hl). split_and!; try tauto. cbn. by rewrite Hserv.
  - apply imx_call_step; [done|done|]. intros s' t now reply Hi' Hp Ht. apply imx_done; [done|done|]. intros Hl.
    exists t, now. destruct (Ht Hl). tauto.
Qed.

(** The device before the driver configures it, its counter stopped at 0. *)
Record imx_start (s : imx) : Prop := {
  is_magic : dr_magic (ix_dr s) = true;
  is_num_irqs : dr_num_irqs (ix_dr s) = 1;
  is_num_regions : dr_num_regions (ix_dr s) = 1;
  is_timeouts : length (tt_timeouts (ix_table s)) = 6%nat;
  is_overflow : ix_overflow_count s = 0;
  is_clock : ck_now (gp_clock (ix_gpt s)) = 0 /\ ck_end (gp_clock (ix_gpt s)) < TICKS_BOUND;
}.

(** What a reset does not touch. *)
Definition same_but_cr (g g' : gpt) : Prop := exists x n, g' = set_cr x n g.

Lemma read_CR_spec g (Q : Z -> gpt -> Prop) :
  gp_cr g = CR_SWR ->
  (forall g', same_but_cr g g' -> gp_cr g' = CR_SWR -> gp_reset g' = N.pred (gp_reset g) ->
     Q (if (gp_reset g =? 0)%N then 0 else CR_SWR) g') ->
  wp read_CR g Q.
Proof.
  intros Hcr HQ. unfold read_CR. repeat wp_step. rewrite Hcr. change (Z.land CR_SWR (u32 (Z.lnot CR_SWR))) with 0.
  apply HQ; [by eexists _, _|done|done].
Qed.

(** Waiting for the reset ends. *)
Lemma reset_loop s cr (Q : unit -> imx * Z -> Prop) :
  gp_cr (ix_gpt s) = CR_SWR -> cr = (if bool_decide (cr = 0) then 0 else CR_SWR) ->
  (forall g x, same_but_cr (ix_gpt s) g -> Q tt (set_gpt g s, x)) ->
  wp (loop (fun p => S (N.to_nat (gp_reset (ix_gpt p.1)))) (fun p => negb (Z.land p.2 (Z.shiftl 1 15) =? 0))
       (cr ← on_state (on_gpt read_CR); set_local cr)) (s, cr) Q.
Proof.
  intros Hcr Hv HQ.
  set (I := fun p : imx * Z => (exists g, p.1 = set_gpt g s /\ same_but_cr (ix_gpt s) g /\ gp_cr g = CR_SWR) /\
    (p.2 = 0 \/ p.2 = CR_SWR)).
  set (mu := fun p : imx * Z => (N.to_nat (gp_reset (ix_gpt p.1)) + Nat.b2n (negb (p.2 =? 0)%Z))%nat).
  apply (wp_loop_le I mu).
  - split; cbn [fst snd]; [|case_bool_decide; [by left|by right]]. exists (ix_gpt s). split_and!; [by destruct s| |done].
    exists (gp_cr (ix_gpt s)), (gp_reset (ix_gpt s)). by destruct (ix_gpt s).
  - unfold mu. cbn [fst snd]. destruct (negb _); cbn; lia.
  - intros [s1 v] ((g & Hs1 & (x & n & Hg) & Hgc) & Hv1) Hc. cbn [fst snd] in *. subst s1. unfold on_gpt. do 3 wp_step.
    cbn [ix_gpt set_gpt]. apply read_CR_spec; [done|]. intros g' (x' & n' & Hg') Hgc' Hr'. wp_step. unfold I, mu. cbn [fst snd ix_gpt set_gpt].
    assert (v = CR_SWR) as -> by (destruct Hv1 as [->|]; [done|done]). rewrite Hr'. split.
    + split; [|by destruct (_ =? _)%N; [left|right]]. exists g'. split_and!; [done| |done]. exists x', n'. by rewrite Hg', Hg.
    + change (negb (CR_SWR =? 0)) with true. destruct (N.eqb_spec (gp_reset g) 0) as [->|]; [apply Nat.lt_0_1|].
      change (negb (CR_SWR =? 0)) with true. cbn [Nat.b2n]. lia.
  - intros [s1 v] ((g & Hs1 & Hg & _) & _) _. cbn [fst snd] in Hs1. subst s1. by apply HQ.
Qed.

Lemma imx_init_spec s (Q : unit -> imx -> Prop) : imx_start s -> (forall s', imx_inv s' -> Q tt s') -> wp init s Q.
Proof.
  intros [Hm Hi Hr Hl Ho [H0 Hce]] HQ. destruct s as [dr t ov [c of1 rov lost cr pr ir ocr1 n]]. cbn [ix_dr ix_table ix_overflow_count ix_gpt gp_clock] in *.
  unfold init, on_table, on_gpt, emit, write_CR, write_SR. do 3 wp_step. apply wp_assert; [done|].
  wp_step. apply wp_assert; [cbn; by rewrite Hi|]. wp_step. apply wp_assert; [cbn; by rewrite Hr|]. do 5 wp_step.
  apply init_timeouts_spec; [done|]. cbn [ix_dr ix_table ix_gpt set_table tt_events with_event].
  do 9 (wp_step; cbn [ix_dr ix_table ix_overflow_count ix_gpt set_table set_gpt set_flags set_cr gp_clock gp_of1 gp_rov gp_lost gp_cr gp_pr gp_ir gp_ocr1 gp_reset]).
  change (Z.land GPT_STATUS_REGISTER_CLEAR OF1 =? 0) with false. change (Z.land GPT_STATUS_REGISTER_CLEAR ROV =? 0) with false.
  rewrite !andb_false_r. do 2 wp_step. apply read_CR_spec; [done|]. intros g1 (x1 & n1 & ->) Hcr1 _. do 2 wp_step.
  apply reset_loop; [done|by destruct (_ =? _)%N|]. intros g2 x (x2 & n2 & ->). repeat wp_step.
  cbn [ix_gpt set_gpt fst set_cr set_ir set_pr gp_clock gp_of1 gp_rov gp_lost gp_cr gp_pr gp_ir gp_ocr1 gp_reset ix_table ix_overflow_count ix_dr].
  apply HQ. split; [split; [split; [done|by repeat constructor]| |done]|by intros _ []].
  split; [split; cbn; lia|cbn; lia|]. cbn. by rewrite Ho, H0.
Qed.

Lemma imx_runs (s0 : imx) (rs : list timer_request) :
  imx_start s0 -> Forall (fun r => req_ok (timer_kind imx_offset r)) rs ->
  exists s1 replies s, init s0 = Ok (tt, s1) /\ run_requests rs s1 = Ok (replies, s) /\
    imx_inv s /\ run_implements s1 rs replies s.
Proof.
  intros Hs Hrs. assert (wp init s0 (fun _ => imx_inv)) as ([] & s1 & E1 & Hi1)%wp_elim by (by apply imx_init_spec).
  assert (wp (run_requests rs) s1 (fun replies s => imx_inv s /\ run_implements (S:=imx) s1 rs replies s))
    as (replies & s & E & His & Himp)%wp_elim by (exact (timer_driver_refines (S:=imx) (R:=timer_request) rs s1 Hi1 Hrs)).
  by exists s1, replies, s.
Qed.

(** C29. The i.MX driver implements the timer service in ticks.  After
    initialisation and any sequence of interrupts and calls nothing faults, and
    the wait for the reset ends.  As long as no wrap of the counter went by
    while the last was not served, notifications and replies are those of the
    service at the times read; each is the time at some moment of its handler,
    those moments following each other, or 2^32 ticks less.  In the state
    reached the comparator is set, and its interrupt enabled, for the earliest
    deadline left if that is in the current epoch of the counter; if not it is
    in a later one, and the interrupt of a wrap is enabled. *)
Theorem imx_timer_serves (s0 : imx) (rs : list timer_request) :
  imx_start s0 -> Forall (fun r => req_ok (timer_kind imx_offset r)) rs ->
  exists s1 replies s, init s0 = Ok (tt, s1) /\ run_requests rs s1 = Ok (replies, s) /\
    Z.testbit (gp_ir (ix_gpt s)) 5 = true /\
    (gp_lost (ix_gpt s) = false ->
     (exists trues nows, in_order (ck_now (gp_clock (ix_gpt s1))) trues (ck_now (gp_clock (ix_gpt s))) /\
        Forall2 (fun t now => now = t \/ now = t - 2 ^ 32) trues nows /\ length nows = length rs /\
        service_run 0 imx_time (zip nows (timer_kind imx_offset <$> rs)) (service_of (ix_table s1))
          = (service_of (ix_table s), replies)) /\
     (earliest (tt_timeouts (ix_table s)) <> UINT64_MAX -> waits_for s (earliest (tt_timeouts (ix_table s))))).
Proof.
  intros Hs Hrs. destruct (imx_runs s0 rs Hs Hrs) as (s1 & replies & s & E1 & E & His & Himp).
  exists s1, replies, s. split_and!; [done|done|apply His|]. intros Hl. split; [by apply Himp|by apply His].
Qed.

Lemma reaches_behind T t t' : T <= t -> t <= t' -> epoch T = epoch t' -> reaches (u32 T) t t' = false.
Proof.
  intros HT Ht Hep. unfold reaches. apply Z.ltb_ge.
  assert (forall u, T <= u <= t' -> (u - u32 T) / 2 ^ 32 = epoch T) as Hq; [|rewrite !Hq by lia; done].
  intros u Hu. symmetry. pose proof (epoch_split T). pose proof (epoch_split t'). pose proof (u32_range t') as [_ Hb].
  pose proof (u32_range T) as [Hb0 _]. apply (Z.div_unique _ _ _ (u - T)); lia.
Qed.

(** C38. While a wrap is flagged and its interrupt not yet served, a client that
    asks for the time gets that of 2^32 ticks before (six minutes at 12 MHz):
    time goes back. *)
Theorem imx_pending_wrap_goes_back (s : imx) (ch mr0 : Z) :
  imx_inv s -> gp_rov (ix_gpt s) = true ->
  exists time s', protected ch SDDF_TIMER_GET_TIME mr0 s = Ok ((1, Some time), s') /\
    (gp_lost (ix_gpt s') = false -> exists t, ck_now (gp_clock (ix_gpt s)) <= t <= ck_now (gp_clock (ix_gpt s')) /\
       time = imx_time (t - 2 ^ 32)).
Proof.
  intros Hi Hrov. pose proof (iw_gpt _ (ii_wf _ Hi)) as Hg.
  assert (wp (protected ch SDDF_TIMER_GET_TIME mr0) s (fun r s' => exists time, r = (1, Some time) /\
    (gp_lost (ix_gpt s') = false -> exists t, ck_now (gp_clock (ix_gpt s)) <= t <= ck_now (gp_clock (ix_gpt s')) /\
       time = imx_time (t - 2 ^ 32)))) as (r & s' & E & time & -> & Ht)%wp_elim; [|by exists time, s'].
  unfold protected. rewrite Z.eqb_refl. wp_step. apply imx_get_ticks_spec; [done|]. intros now g Hg' Hl Hread. wp_step.
  eexists. split; [done|]. cbn [ix_gpt set_gpt]. intros Hlost. destruct (Hread Hlost) as (t & Htr & _ & _ & Hn & Hback).
  exists t. split; [done|]. rewrite <- Hback by done. destruct (reads_range _ _ _ _ Hg' Hread Hlost) as [_ Hb].
  rewrite u64_small; [done|]. unfold is_u64, GPT_FREQ, NS_IN_US, TICKS_BOUND in *. pose proof (Z.div_mod now 12).
  pose proof (Z.mod_pos_bound now 12). lia.
Qed.

(** A deadline that passes while the driver programs it is missed: the
    comparator is set for a value the counter has left behind, and no interrupt
    comes before the counter wraps around. *)
Theorem imx_passed_deadline_waits (s : imx) (c : clock) :
  imx_inv s -> gp_lost (ix_gpt s) = false -> gp_of1 (ix_gpt s) = false -> gp_rov (ix_gpt s) = false ->
  earliest (tt_timeouts (ix_table s)) <= ck_now (gp_clock (ix_gpt s)) ->
  ck_now (gp_clock (ix_gpt s)) <= ck_now c -> epoch (ck_now c) = epoch (ck_now (gp_clock (ix_gpt s))) ->
  gp_of1 (tick c (ix_gpt s)) = false /\ gp_rov (tick c (ix_gpt s)) = false.
Proof.
  intros [[Ht Hg _] Ha] Hl Hof Hrov Hp Hle Hep. set (T := earliest (tt_timeouts (ix_table s))) in *.
  pose proof (go_epoch _ _ Hg Hl) as He. rewrite Hrov, Z.add_0_r in He.
  pose proof (clock_range _ _ _ Hg (conj (proj1 (go_clock _ _ Hg)) (Z.le_refl _))) as Hr.
  destruct (Ha Hl) as [H1 H2]; [unfold TICKS_BOUND, UINT64_MAX in *; lia|].
  assert (epoch T = ix_overflow_count s) as HT by (apply Z.le_antisymm; [rewrite He; by apply imx_epoch_mono|done]).
  destruct (H2 HT) as [Hocr _]. unfold tick. cbn [gp_of1 gp_rov]. rewrite Hof, Hrov, Hep, Z.sub_diag, Hocr.
  split; [|done]. apply reaches_behind; [done|done|congruence].
Qed.

(** A timeout of 2 us, set while an access takes 30 ticks of 1/12 us; and the
    same device when the counter has wrapped around. *)
Definition imx_ex (script : list N) : imx :=
  mk_imx (mk_device_resources true 1 1 4) (mk_table (replicate 6 0) []) 0
    (mk_gpt (mk_clock 0 [] script) false false false 0 0 0 0 3).

Lemma imx_timer_serves_witness :
  exists s1 s, init (imx_ex [4294967000; 100; 100; 30; 50; 20; 1; 1; 1; 1; 1; 1]%N) = Ok (tt, s1) /\
    run_requests [TCall 0 SDDF_TIMER_SET_TIMEOUT 100000; TInterrupt; TInterrupt; TCall 1 SDDF_TIMER_GET_TIME 0] s1
      = Ok ([None; None; None; Some 357913942000], s) /\
    notified_of (tt_events (ix_table s)) = [] /\ waits_for s (earliest (tt_timeouts (ix_table s))).
Proof.
  destruct (imx_timer_serves (imx_ex [4294967000; 100; 100; 30; 50; 20; 1; 1; 1; 1; 1; 1]%N)
    [TCall 0 SDDF_TIMER_SET_TIMEOUT 100000; TInterrupt; TInterrupt; TCall 1 SDDF_TIMER_GET_TIME 0])
    as (s1 & replies & s & E1 & E & _ & Ha); [by split| |].
  { repeat constructor; vm_compute; intuition congruence. }
  exists s1, s. vm_compute in E1. injection E1 as <-. vm_compute in E. injection E as <- <-.
  split_and!; [done|done|done|]. by apply Ha.
Defined.

Lemma imx_pending_wrap_goes_back_witness :
  exists s1 s s', init (imx_ex [4294967285; 1; 20; 10; 1; 1; 1]%N) = Ok (tt, s1) /\
    run_requests [TCall 0 SDDF_TIMER_GET_TIME 0] s1 = Ok ([Some 357913943000], s) /\
    protected 0 SDDF_TIMER_GET_TIME 0 s = Ok ((1, Some 1000), s') /\
    exists t, 4294967316 <= t <= 4294967319 /\ 1000 = imx_time (t - 2 ^ 32).
Proof.
  destruct (imx_runs (imx_ex [4294967285; 1; 20; 10; 1; 1; 1]%N) [TCall 0 SDDF_TIMER_GET_TIME 0])
    as (s1 & replies & s & E1 & E & Hi & _); [by split|by repeat constructor|].
  assert (gp_rov (ix_gpt s) = true) as Hr
    by (vm_compute in E1; injection E1 as <-; vm_compute in E; injection E as _ <-; reflexivity).
  destruct (imx_pending_wrap_goes_back s 0 0 Hi Hr) as (time & s' & E2 & Ht). exists s1, s, s'.
  vm_compute in E1. injection E1 as <-. vm_compute in E. injection E as <- <-. vm_compute in E2. injection E2 as <- <-.
  split_and!; [done|done|done|]. destruct Ht as (t & H1 & H2); [done|]. by exists t.
Defined.

Lemma imx_passed_deadline_waits_witness :
  exists s1 s, init (imx_ex [1000; 10; 10; 30]%N) = Ok (tt, s1) /\
    run_requests [TCall 0 SDDF_TIMER_SET_TIMEOUT 2000] s1 = Ok ([None], s) /\
    earliest (tt_timeouts (ix_table s)) = 1034 /\ ck_now (gp_clock (ix_gpt s)) = 1050 /\
    gp_of1 (tick (mk_clock 4294967295 [] []) (ix_gpt s)) = false.
Proof.
  destruct (imx_runs (imx_ex [1000; 10; 10; 30]%N) [TCall 0 SDDF_TIMER_SET_TIMEOUT 2000])
    as (s1 & replies & s & E1 & E & Hi & _); [by split|repeat constructor; vm_compute; intuition congruence|].
  exists s1, s. vm_compute in E1. injection E1 as <-. vm_compute in E. injection E as <- <-.
  split_and!; [done|done|done|done|]. by apply (imx_passed_deadline_waits _ (mk_clock 4294967295 [] []) Hi).
Defined.
