(* ===== verification/TimerService.v ===== *)
(** * What a client of a timer driver gets

    Proved once against the contract [TimerDriver] of TimerTable, and stated of
    every driver that reads its clock right: those of the ARM, Goldfish, Meson
    and JH7110 timers. *)

From S2P Require Import Prelude TimerTable TimerArm TimerGoldfish TimerMeson TimerJh7110.

Lemma zip_forall {A B} (P : A -> Prop) (Q : B -> Prop) (l : list A) (k : list B) :
  Forall P l -> Forall Q k -> Forall (fun p => P p.1 /\ Q p.2) (zip l k).
Proof.
  intros Hl. revert k. induction Hl as [|a l Ha Hl IH]; intros k Hk; [done|]. destruct Hk as [|b k Hb Hk]; [done|].
  by apply Forall_cons_2; [|apply IH].
Qed.

Lemma in_order_bound c l c' : in_order c l c' -> Forall (fun t => t <= c') l /\ c <= c'.
Proof.
  revert c. induction l as [|t l IH]; intros c; cbn; [intros; by split|]. intros [H1 H2]. destruct (IH _ H2) as [H3 H4].
  split; [by constructor|lia].
Qed.

(** The client that sets its timeout now. *)
Lemma service_set_once base time i offset now l sv :
  0 <= i < MAX_TIMEOUTS -> length (sv_deadlines sv) = 6%nat ->
  Forall (fun p => p.1 < UINT64_MAX /\ req_ok p.2 /\ sets i p.2 = false) l -> now < UINT64_MAX ->
  count (base + i) (sv_notified (service_run base time ((now, SSet i offset) :: l) sv).1)
    = (count (base + i) (sv_notified sv) + Nat.b2n (existsb (due (now + offset)) ((now, SSet i offset) :: l)))%nat.
Proof.
  intros Hi Hlen Hl Hnow. set (sv0 := mk_service (<[Z.to_nat i := now + offset]> (sv_deadlines sv)) (sv_notified sv)).
  assert (sv_deadlines sv0 !! Z.to_nat i = Some (now + offset)) as Hd
    by (apply list_lookup_insert_eq; unfold MAX_TIMEOUTS in Hi; lia).
  assert (service_run base time ((now, SSet i offset) :: l) sv = ((service_run base time ((now, SServe) :: l) sv0).1,
            None :: (service_run base time l (serve base now sv0)).2)) as ->
    by (cbn [service_run service_step]; fold sv0; by destruct (service_run base time l (serve base now sv0))).
  cbn [fst]. rewrite (service_once base time i (now + offset)); [done|done|done|]. by apply Forall_cons_2.
Qed.

(** From [s1], whatever the driver is asked first: a client that then sets its
    timeout and waits. *)
Definition client_served {S R} `{TimerDriver S R} (s1 : S) : Prop :=
  forall (rs0 : list R) (r : R) (rs : list R) (i offset : Z),
  Forall (fun r => req_ok (td_kind r)) (rs0 ++ r :: rs) ->
  td_kind r = SSet i offset -> Forall (fun r => sets i (td_kind r) = false) rs ->
  exists replies0 s replies s', run_requests rs0 s1 = Ok (replies0, s) /\ run_requests (r :: rs) s = Ok (replies, s') /\
    (td_good s' -> exists t nows,
       in_order (td_clock s) (t :: nows) (td_clock s') /\ length nows = length rs /\
       count (td_base + i) (sv_notified (td_service s'))
         = (count (td_base + i) (sv_notified (td_service s))
            + Nat.b2n (existsb (due (t + offset)) (zip (t :: nows) (td_kind <$> r :: rs))))%nat).

Section client.
Context {S R : Type} `{TimerDriverOk S R}.
Hypothesis Hacc : forall t now, td_skew t now -> t = now.
Hypothesis Hlen : forall s, td_inv s -> length (sv_deadlines (td_service s)) = 6%nat.
Hypothesis Hend : forall s, td_inv s -> td_clock s < UINT64_MAX.

Lemma client_once (s : S) (r : R) (rs : list R) (i offset : Z) :
  td_inv s -> td_kind r = SSet i offset -> req_ok (SSet i offset) ->
  Forall (fun r => req_ok (td_kind r) /\ sets i (td_kind r) = false) rs ->
  exists replies s', run_requests (r :: rs) s = Ok (replies, s') /\
    (td_good s' -> exists t nows,
       in_order (td_clock s) (t :: nows) (td_clock s') /\ length nows = length rs /\
       count (td_base + i) (sv_notified (td_service s'))
         = (count (td_base + i) (sv_notified (td_service s))
            + Nat.b2n (existsb (due (t + offset)) (zip (t :: nows) (td_kind <$> r :: rs))))%nat).
Proof using All.
  intros Hi Hk Hok Hrs. assert (Forall (fun r => req_ok (td_kind r)) (r :: rs)) as Hall.
  { apply Forall_cons_2; [by rewrite Hk|]. eapply Forall_impl; [exact Hrs|]. by intros ? []. }
  destruct (accurate_driver_runs (r :: rs) s Hacc Hi Hall) as (replies & s' & E & Hi' & Hrun).
  exists replies, s'. split; [done|]. intros Hg. pose proof (Hend _ Hi') as Hc. destruct (Hrun Hg) as (nows & Ho & Hln & Hsr).
  destruct nows as [|t nows]; [done|]. exists t, nows. destruct (in_order_bound _ _ _ Ho) as [[Ht Hb]%Forall_cons _].
  split_and!; [done|by injection Hln|]. cbn [zip zip_with fmap list_fmap] in *. rewrite Hk in *.
  replace (td_service s') with (service_run td_base td_time ((t, SSet i offset) :: zip nows (td_kind <$> rs)) (td_service s)).1
    by (by rewrite Hsr).
  apply service_set_once; [apply Hok|by apply Hlen| |lia]. eapply Forall_impl.
  - apply (zip_forall (fun t => t < UINT64_MAX) (fun q => req_ok q /\ sets i q = false)).
    + eapply Forall_impl; [exact Hb|]. cbn. lia.
    + by apply Forall_fmap.
  - by intros [n q] (H1 & H2 & H3).
Qed.

Lemma client_served_ok (init : M S unit) (s0 : S) :
  wp init s0 (fun _ => td_inv) -> exists s1, init s0 = Ok (tt, s1) /\ client_served s1.
Proof using All.
  intros ([] & s1 & E1 & Hi1)%wp_elim. exists s1. split; [done|]. intros rs0 r rs i offset [Hrs0 [Hr Hrs]%Forall_cons]%Forall_app Hk Hs.
  destruct (accurate_driver_runs rs0 s1 Hacc Hi1 Hrs0) as (replies0 & s & E0 & Hi & _). rewrite Hk in Hr.
  destruct (client_once s r rs i offset Hi Hk Hr) as (replies & s' & E & Hn); [by apply Forall_and|].
  by exists replies0, s, replies, s'.
Qed.
End client.

(** [init] of the ARM driver, with the counter beside it. *)
Definition arm_init (dr : device_resources) (cntfrq : Z) : M arm_timer unit := zoom ar_driver ar_set_driver (TimerArm.init dr cntfrq).


