(* ===== verification/SpiQueue.v ===== *)
(** * SPI queues: include/microkit/os/sddf/spi/queue.h

    A handle holds four rings: commands, responses, and the chip selects that
    go with each.  The capacity is a power of two, given by its logarithm. *)

From S2P Require Import Prelude Ring Fifo RingQueue.

(** [spi_status_t] *)
Definition SPI_STATUS_OK : Z := 0.
Definition SPI_STATUS_ERR_CMD_OOB : Z := -1.
Definition SPI_STATUS_ERR_CMD_UNALIGNED_OFFSET : Z := -2.
Definition SPI_STATUS_ERR_CMD_PARTIAL_OVERLAP : Z := -3.
Definition SPI_STATUS_ERR_PARTIAL_TXN : Z := -4.

(** [CMD_LEN]: a length of 0 stands for 65536. *)
Definition CMD_LEN (len : Z) : Z := if len =? 0 then 65536 else len.

Record spi_cmd : Type := mk_spi_cmd {
  sc_read_offset : Z;          (* size_t *)
  sc_write_offset : Z;         (* size_t *)
  sc_len : Z;                  (* uint16_t *)
  sc_cs_active_after_cmd : bool;
}.

Record spi_resp : Type := mk_spi_resp {
  sr_status : Z;
  sr_err_cmd_idx : Z; (* uint16_t *)
}.

#[export] Instance spi_cmd_inhabited : Inhabited spi_cmd := populate (mk_spi_cmd 0 0 0 false).
#[export] Instance spi_resp_inhabited : Inhabited spi_resp := populate (mk_spi_resp 0 0).

Record spi_handle : Type := mk_spi_handle {
  sh_cmd : ring spi_cmd;
  sh_resp : ring spi_resp;
  sh_cmd_cs : ring Z;  (* uint8_t *)
  sh_resp_cs : ring Z;
  sh_capacity_bits : Z; (* uint8_t *)
}.

#[export] Instance spi_handle_inhabited : Inhabited spi_handle :=
  populate (mk_spi_handle (mk_ring 0 0 []) (mk_ring 0 0 []) (mk_ring 0 0 []) (mk_ring 0 0 []) 0).

(** [1 << queue_capacity_bits], compared with a [uint32_t]. *)
Definition spi_capacity (h : spi_handle) : Z := u32 (Z.shiftl 1 (sh_capacity_bits h)).

Definition spi_handle_init (cmd : ring spi_cmd) (resp : ring spi_resp) (cmd_cs resp_cs : ring Z) (bits : Z)
  : M spi_handle bool :=
  if 32 <=? bits then mret false else
  put (mk_spi_handle cmd resp cmd_cs resp_cs bits);; mret true.

#[export] Instance spi_cmd_lens : RingLens spi_handle spi_cmd (ring spi_resp * ring Z * ring Z) := {
  rl_view := sh_cmd;
  rl_set r h := mk_spi_handle r (sh_resp h) (sh_cmd_cs h) (sh_resp_cs h) (sh_capacity_bits h);
  rl_cap := spi_capacity;
  rl_slack := 0;
  rl_eq := true;
  rl_rest h := (sh_resp h, sh_cmd_cs h, sh_resp_cs h);
}.
#[export] Instance spi_resp_lens : RingLens spi_handle spi_resp (ring spi_cmd * ring Z * ring Z) := {
  rl_view := sh_resp;
  rl_set r h := mk_spi_handle (sh_cmd h) r (sh_cmd_cs h) (sh_resp_cs h) (sh_capacity_bits h);
  rl_cap := spi_capacity;
  rl_slack := 0;
  rl_eq := true;
  rl_rest h := (sh_cmd h, sh_cmd_cs h, sh_resp_cs h);
}.
Definition spi_cmd_cs_lens : RingLens spi_handle Z (ring spi_cmd * ring spi_resp * ring Z) := {|
  rl_view := sh_cmd_cs;
  rl_set r h := mk_spi_handle (sh_cmd h) (sh_resp h) r (sh_resp_cs h) (sh_capacity_bits h);
  rl_cap := spi_capacity;
  rl_slack := 0;
  rl_eq := true;
  rl_rest h := (sh_cmd h, sh_resp h, sh_resp_cs h);
|}.
Definition spi_resp_cs_lens : RingLens spi_handle Z (ring spi_cmd * ring spi_resp * ring Z) := {|
  rl_view := sh_resp_cs;
  rl_set r h := mk_spi_handle (sh_cmd h) (sh_resp h) (sh_cmd_cs h) r (sh_capacity_bits h);
  rl_cap := spi_capacity;
  rl_slack := 0;
  rl_eq := true;
  rl_rest h := (sh_cmd h, sh_resp h, sh_cmd_cs h);
|}.

#[export] Instance spi_cmd_lens_laws : RingLensLaws spi_cmd_lens.
Proof. split; cbn; (done || lia). Qed.
#[export] Instance spi_resp_lens_laws : RingLensLaws spi_resp_lens.
Proof. split; cbn; (done || lia). Qed.
#[export] Instance spi_cmd_cs_lens_laws : RingLensLaws spi_cmd_cs_lens.
Proof. split; cbn; (done || lia). Qed.
#[export] Instance spi_resp_cs_lens_laws : RingLensLaws spi_resp_cs_lens.
Proof. split; cbn; (done || lia). Qed.

Definition spi_cmd_queue_empty (h : spi_handle) : bool := lens_empty (L := spi_cmd_lens) h.
Definition spi_resp_queue_empty (h : spi_handle) : bool := lens_empty (L := spi_resp_lens) h.
Definition spi_cmd_cs_queue_empty (h : spi_handle) : bool := lens_empty (L := spi_cmd_cs_lens) h.
Definition spi_resp_cs_queue_empty (h : spi_handle) : bool := lens_empty (L := spi_resp_cs_lens) h.
Definition spi_cmd_queue_full (h : spi_handle) : bool := lens_full (L := spi_cmd_lens) h.
Definition spi_resp_queue_full (h : spi_handle) : bool := lens_full (L := spi_resp_lens) h.
Definition spi_cmd_cs_queue_full (h : spi_handle) : bool := lens_full (L := spi_cmd_cs_lens) h.
Definition spi_resp_cs_queue_full (h : spi_handle) : bool := lens_full (L := spi_resp_cs_lens) h.
Definition spi_cmd_queue_len (h : spi_handle) : Z := lens_length (L := spi_cmd_lens) h.
Definition spi_resp_queue_len (h : spi_handle) : Z := lens_length (L := spi_resp_lens) h.
Definition spi_cmd_cs_queue_len (h : spi_handle) : Z := lens_length (L := spi_cmd_cs_lens) h.
Definition spi_resp_cs_queue_len (h : spi_handle) : Z := lens_length (L := spi_resp_cs_lens) h.

(** The enqueues return whether they succeeded. *)
Definition succeeded {H} (m : M H Z) : M H bool := r ← m; mret (r =? 0).

Definition spi_enqueue_cmd (cmd : spi_cmd) : M spi_handle bool := succeeded (lens_enqueue (L := spi_cmd_lens) cmd).
Definition spi_enqueue_resp (status err_cmd_idx : Z) : M spi_handle bool :=
  succeeded (lens_enqueue (L := spi_resp_lens) (mk_spi_resp status err_cmd_idx)).
Definition spi_enqueue_cmd_cs (cs : Z) : M spi_handle bool := succeeded (lens_enqueue (L := spi_cmd_cs_lens) cs).
Definition spi_enqueue_resp_cs (cs : Z) : M spi_handle bool := succeeded (lens_enqueue (L := spi_resp_cs_lens) cs).

(** [None] is the return of [false]. *)
Definition spi_dequeue_cmd : M spi_handle (option spi_cmd) := lens_dequeue (L := spi_cmd_lens).
Definition spi_dequeue_resp : M spi_handle (option spi_resp) := lens_dequeue (L := spi_resp_lens).
Definition spi_dequeue_cmd_cs : M spi_handle (option Z) := lens_dequeue (L := spi_cmd_cs_lens).
Definition spi_dequeue_resp_cs : M spi_handle (option Z) := lens_dequeue (L := spi_resp_cs_lens).

(** Enqueueing [len] elements of an array at once; the sum is 32 bits wide. *)
Definition lens_mass_enqueue {H A R} (L : RingLens H A R) (element : list A) (len : Z) : M H bool :=
  h ← get;
  if rl_cap h <? u32 (len + lens_length (L := L) h) then mret false else
  for_upto len (fun i =>
    h ← get;
    let q := rl_view h in
    slot ← lift (umod (u32 (r_tail q + i)) (rl_cap h));
    x ← lift (load element i);
    bufs ← lift (store (r_buffers q) slot x);
    put (rl_set (mk_ring (r_tail q) (r_head q) bufs) h));;
  modify (fun h => let q := rl_view h in rl_set (mk_ring (u32 (r_tail q + len)) (r_head q) (r_buffers q)) h);;
  mret true.

Definition spi_mass_enqueue_cmd : list spi_cmd -> Z -> M spi_handle bool := lens_mass_enqueue spi_cmd_lens.
Definition spi_mass_enqueue_resp : list spi_resp -> Z -> M spi_handle bool := lens_mass_enqueue spi_resp_lens.
Definition spi_mass_enqueue_cmd_cs : list Z -> Z -> M spi_handle bool := lens_mass_enqueue spi_cmd_cs_lens.
Definition spi_mass_enqueue_resp_cs : list Z -> Z -> M spi_handle bool := lens_mass_enqueue spi_resp_cs_lens.

(** ** What the mass enqueue does *)

Section mass.
Context {H A R : Type} `{!Inhabited A} (L : RingLens H A R) {LL : RingLensLaws L}.

#[local] Abbreviation items h := (lens_items (L := L) h).
#[local] Abbreviation len_of h := (ring_len (2 ^ 32) (r_head (rl_view h)) (r_tail (rl_view h))).

(** After [i] copies: the new entries sit behind the tail, nothing in use is
    overwritten. *)
Definition mass_inv (h0 : H) (element : list A) (i : Z) (h : H) : Prop :=
  rl_cap h = rl_cap h0 /\ rl_rest h = rl_rest h0 /\
  r_tail (rl_view h) = r_tail (rl_view h0) /\ r_head (rl_view h) = r_head (rl_view h0) /\
  length (r_buffers (rl_view h)) = length (r_buffers (rl_view h0)) /\
  (forall j, 0 <= j < i -> r_buffers (rl_view h) !!! Z.to_nat ((r_tail (rl_view h0) + j) mod rl_cap h0) = element !!! Z.to_nat j) /\
  (forall k, 0 <= k < len_of h0 ->
     r_buffers (rl_view h) !!! Z.to_nat ((r_head (rl_view h0) + k) mod rl_cap h0)
     = r_buffers (rl_view h0) !!! Z.to_nat ((r_head (rl_view h0) + k) mod rl_cap h0)).

Lemma mass_enqueue_spec h element n (Q : bool -> H -> Prop) :
  lens_wf (L := L) h -> rl_slack = 0 -> 0 <= n <= Z.of_nat (length element) -> n < 2 ^ 31 ->
  (forall h', Z.of_nat (length (items h)) + n <= rl_cap h -> lens_wf (L := L) h' ->
     items h' = items h ++ take (Z.to_nat n) element -> rl_cap h' = rl_cap h -> rl_rest h' = rl_rest h -> Q true h') ->
  (~ Z.of_nat (length (items h)) + n <= rl_cap h -> Q false h) ->
  wp (lens_mass_enqueue L element n) h Q.
Proof using LL.
  intros Hwf0 Hslack Hn Hn31 HQ HQ'. pose proof (lens_length_spec h Hwf0) as Hlen. pose proof Hwf0 as [Hwf _].
  pose proof (ring_cap_half _ _ _ _ _ Hwf) as Hhalf. pose proof (ring_cap_pos _ _ _ _ _ Hwf) as Hcap.
  pose proof (ring_len_le _ _ _ _ _ Hwf) as Hle. unfold lens_length in Hlen. change (u32 _) with (len_of h) in Hlen.
  unfold lens_mass_enqueue. do 2 wp_step. unfold lens_length. change (u32 (r_tail _ - _)) with (len_of h).
  assert (0 <= len_of h) by (apply ring_len_nonneg; lia).
  rewrite u32_small by (unfold is_u32; lia). destruct (Z.ltb_spec (rl_cap h) (n + len_of h)); [wp_step; apply HQ'; lia|].
  wp_step. apply (wp_for_each (fun pre h' => mass_inv h element (Z.of_nat (length pre)) h')).
  - repeat split; try done. cbn. lia.
  - intros pre i post h1 E (Ec & Er & Et & Eh & El & Hnew & Hold). apply lookup_seqZ_prefix in E as [-> Hi].
    set (i := Z.of_nat (length pre)) in *. pose proof (ring_slot_range (rl_cap h) (r_tail (rl_view h) + i) Hcap) as Hslot.
    pose proof (ring_bufs_len _ _ _ _ _ Hwf) as Hb.
    do 3 wp_step. eapply wp_lift; [apply umod_ok; lia|]. rewrite Ec, Et. unfold u32.
    rewrite (mod_mod_divide (2 ^ 32)) by (lia || apply Hwf). wp_step.
    eapply wp_lift; [apply load_ok; [lia|apply list_lookup_lookup_total_lt; lia]|]. wp_step.
    eapply wp_lift; [apply store_ok; lia|]. wp_step. unfold mass_inv. rewrite rl_view_set, rl_cap_set, rl_rest_set.
    cbn [r_tail r_head r_buffers]. rewrite length_insert, length_app. cbn [length]. split_and!; try done.
    + intros j Hj. rewrite ring_lookup_insert_slot by lia. case_decide as D.
      * apply ring_slot_inj in D; [|lia|lia]. f_equal. lia.
      * apply Hnew. destruct (decide (j = i)) as [->|]; [done|lia].
    + intros k Hk. rewrite ring_lookup_insert_slot by lia. rewrite decide_False; [by apply Hold|]. intros D.
      rewrite <- (Z.add_mod_idemp_l (r_tail _)) in D by lia. rewrite (ring_tail_slot _ _ _ _ _ Hwf), Z.add_mod_idemp_l in D by lia.
      apply ring_slot_inj in D; [lia|lia|]. lia.
  - intros h1 (Ec & Er & Et & Eh & El & Hnew & Hold). rewrite length_seqZ, Z2Nat.id in Hnew by lia. do 3 wp_step.
    destruct (ring_append _ _ _ _ _ Hwf (r_buffers (rl_view h1)) (take (Z.to_nat n) element)) as (A1 & A2 & A3).
    + rewrite length_take. lia.
    + pose proof (ring_bufs_len _ _ _ _ _ Hwf). lia.
    + rewrite length_take. intros j Hj. rewrite Hnew by lia. rewrite !list_lookup_total_alt, lookup_take_lt by lia. done.
    + exact Hold.
    + rewrite length_take in A1, A2, A3. replace (Z.of_nat (Z.to_nat n `min` length element)) with n in A1, A2, A3 by lia.
      apply HQ; [lia|..]; unfold lens_wf, lens_items; rewrite ?rl_view_set, ?rl_cap_set, ?rl_rest_set;
        cbn [r_tail r_head r_buffers]; rewrite ?Et, ?Eh, ?Ec; unfold u32; try done.
      split; [done|]. rewrite A1. lia.
Qed.

End mass.

(** ** The lists of a handle *)

Definition cmds (h : spi_handle) : list spi_cmd := lens_items (L := spi_cmd_lens) h.
Definition resps (h : spi_handle) : list spi_resp := lens_items (L := spi_resp_lens) h.
Definition cmd_css (h : spi_handle) : list Z := lens_items (L := spi_cmd_cs_lens) h.
Definition resp_css (h : spi_handle) : list Z := lens_items (L := spi_resp_cs_lens) h.
Definition spi_lists (h : spi_handle) := (spi_capacity h, cmds h, resps h, cmd_css h, resp_css h).

(** A client maps no chip select queues. *)
Record spi_client_wf (h : spi_handle) : Prop := {
  scw_cmd : lens_wf (L := spi_cmd_lens) h;
  scw_resp : lens_wf (L := spi_resp_lens) h;
}.
Record spi_driver_wf (h : spi_handle) : Prop := {
  sdw_client : spi_client_wf h;
  sdw_cmd_cs : lens_wf (L := spi_cmd_cs_lens) h;
  sdw_resp_cs : lens_wf (L := spi_resp_cs_lens) h;
}.

(** Each operation on one of the rings leaves the other three alone. *)
Ltac spi_frame :=
  intros; cbn [rl_rest rl_cap spi_cmd_lens spi_resp_lens spi_cmd_cs_lens spi_resp_cs_lens] in *; simplify_eq;
  repeat match goal with H : spi_driver_wf _ |- _ => destruct H | H : spi_client_wf _ |- _ => destruct H end;
  repeat match goal with |- spi_driver_wf _ => split | |- spi_client_wf _ => split end;
  unfold spi_lists, cmds, resps, cmd_css, resp_css, lens_items, lens_wf in *;
  cbn [rl_view rl_cap rl_slack spi_cmd_lens spi_resp_lens spi_cmd_cs_lens spi_resp_cs_lens] in *;
  repeat match goal with H : ?a = ?b |- _ => progress (rewrite H in * ) end; (done || tauto).

Section specs.
Context (h : spi_handle).

Lemma spi_bounds : spi_client_wf h ->
  Z.of_nat (length (cmds h)) <= spi_capacity h /\ Z.of_nat (length (resps h)) <= spi_capacity h.
Proof.
  intros [H1 H2]. pose proof (lens_bounded (L := spi_cmd_lens) h H1) as B1.
  pose proof (lens_bounded (L := spi_resp_lens) h H2) as B2. cbn in B1, B2. unfold cmds, resps. lia.
Qed.

Lemma spi_mass_enqueue_cmd_spec t n (Q : bool -> spi_handle -> Prop) :
  spi_driver_wf h -> 0 <= n <= Z.of_nat (length t) -> n < 2 ^ 31 ->
  (forall h', Z.of_nat (length (cmds h)) + n <= spi_capacity h -> spi_driver_wf h' ->
     spi_lists h' = (spi_capacity h, cmds h ++ take (Z.to_nat n) t, resps h, cmd_css h, resp_css h) -> Q true h') ->
  (spi_capacity h < Z.of_nat (length (cmds h)) + n -> Q false h) ->
  wp (spi_mass_enqueue_cmd t n) h Q.
Proof.
  intros Hwf Hn Hn' HQ HQ'. apply (mass_enqueue_spec spi_cmd_lens); [apply Hwf|done..| |].
  - intros h' Hroom Hw Hi Hc Hr. apply HQ; [done|..]; spi_frame.
  - intros Hroom. apply HQ'. cbn in Hroom. unfold cmds. lia.
Qed.

Lemma spi_dequeue_cmd_spec x l (Q : option spi_cmd -> spi_handle -> Prop) :
  spi_client_wf h -> cmds h = x :: l ->
  (forall h', spi_client_wf h' -> spi_lists h' = (spi_capacity h, l, resps h, cmd_css h, resp_css h) -> Q (Some x) h') ->
  wp spi_dequeue_cmd h Q.
Proof.
  intros Hwf E HQ. apply (lens_dequeue_spec (L := spi_cmd_lens) h x l); [apply Hwf|done|].
  intros h' Hw Hi Hc Hr. apply HQ; spi_frame.
Qed.

Lemma spi_enqueue_resp_spec st i (Q : bool -> spi_handle -> Prop) :
  spi_client_wf h ->
  (forall h', Z.of_nat (length (resps h)) < spi_capacity h -> spi_client_wf h' ->
     (spi_driver_wf h -> spi_driver_wf h') ->
     spi_lists h' = (spi_capacity h, cmds h, resps h ++ [mk_spi_resp st i], cmd_css h, resp_css h) -> Q true h') ->
  (spi_capacity h <= Z.of_nat (length (resps h)) -> Q false h) ->
  wp (spi_enqueue_resp st i) h Q.
Proof.
  intros Hwf HQ HQ'. pose proof (spi_bounds Hwf) as [_ B]. unfold spi_enqueue_resp, succeeded. wp_step.
  destruct (decide (Z.of_nat (length (resps h)) = spi_capacity h)) as [E|E].
  - eapply wp_intro; [apply (lens_fifo_full (L := spi_resp_lens)); [apply Hwf|]|wp_step; apply HQ'; lia].
    cbn. unfold resps in E. lia.
  - apply (lens_enqueue_spec (L := spi_resp_lens)); [apply Hwf|cbn; unfold resps in *; lia|].
    intros h' Hw Hi Hc Hr. wp_step. apply HQ; [lia|..]; spi_frame.
Qed.

Lemma spi_enqueue_cmd_cs_spec cs (Q : bool -> spi_handle -> Prop) :
  spi_driver_wf h -> Z.of_nat (length (cmd_css h)) < spi_capacity h ->
  (forall h', spi_driver_wf h' -> spi_lists h' = (spi_capacity h, cmds h, resps h, cmd_css h ++ [cs], resp_css h) ->
     Q true h') ->
  wp (spi_enqueue_cmd_cs cs) h Q.
Proof.
  intros Hwf Hroom HQ. unfold spi_enqueue_cmd_cs, succeeded. wp_step.
  apply (lens_enqueue_spec (L := spi_cmd_cs_lens)); [apply Hwf|cbn; unfold cmd_css in *; lia|].
  intros h' Hw Hi Hc Hr. wp_step. apply HQ; spi_frame.
Qed.

Lemma spi_dequeue_resp_spec x l (Q : option spi_resp -> spi_handle -> Prop) :
  spi_driver_wf h -> resps h = x :: l ->
  (forall h', spi_driver_wf h' -> spi_lists h' = (spi_capacity h, cmds h, l, cmd_css h, resp_css h) -> Q (Some x) h') ->
  wp spi_dequeue_resp h Q.
Proof.
  intros Hwf E HQ. apply (lens_dequeue_spec (L := spi_resp_lens) h x l); [apply Hwf|done|].
  intros h' Hw Hi Hc Hr. apply HQ; spi_frame.
Qed.

Lemma spi_dequeue_resp_cs_spec x l (Q : option Z -> spi_handle -> Prop) :
  spi_driver_wf h -> resp_css h = x :: l ->
  (forall h', spi_driver_wf h' -> spi_lists h' = (spi_capacity h, cmds h, resps h, cmd_css h, l) -> Q (Some x) h') ->
  wp spi_dequeue_resp_cs h Q.
Proof.
  intros Hwf E HQ. apply (lens_dequeue_spec (L := spi_resp_cs_lens) h x l); [apply Hwf|done|].
  intros h' Hw Hi Hc Hr. apply HQ; spi_frame.
Qed.
End specs.
