(* ===== verification/SpiVirt.v ===== *)
(** * The SPI virtualiser: spi/components/virt.c

    A transaction is a run of commands up to the first one that releases the
    chip select.  The virtualiser collects the transactions of a client,
    checks them, and passes each on as a whole; responses go back by chip
    select. *)

From S2P Require Import Prelude Ring Fifo RingQueue Microkit SpiQueue.

Definition CLIENT_CH_OFFSET : Z := 1.
Definition SDDF_SPI_MAX_CLIENTS : Z := 64.
Definition SPI_MAX_CS_LINES : Z := SDDF_SPI_MAX_CLIENTS.

(** The fields of [spi_virt_config_client_t] the virtualiser reads. *)
Record spi_client_config : Type := mk_spi_client_config {
  pc_conn_id : Z;   (* uint8_t *)
  pc_data_size : Z; (* uint64_t *)
  pc_cs : Z;        (* uint8_t *)
}.

Record spi_virt : Type := mk_spi_virt {
  pv_num_clients : Z; (* config.num_clients *)
  pv_driver_id : Z;   (* config.driver.id *)
  pv_config : list spi_client_config;
  pv_cs_to_client_id : list Z; (* uint64_t *)
  pv_driver : spi_handle;
  pv_clients : list spi_handle;
  pv_tx : list spi_cmd;
  pv_tx_len : Z; (* uint32_t *)
  pv_tx_cached : bool;
  pv_tx_cs : Z;
  pv_events : list event;
}.

Definition set_pv_cs (x : list Z) v := mk_spi_virt (pv_num_clients v) (pv_driver_id v) (pv_config v) x
  (pv_driver v) (pv_clients v) (pv_tx v) (pv_tx_len v) (pv_tx_cached v) (pv_tx_cs v) (pv_events v).
Definition set_pv_driver (x : spi_handle) v := mk_spi_virt (pv_num_clients v) (pv_driver_id v) (pv_config v)
  (pv_cs_to_client_id v) x (pv_clients v) (pv_tx v) (pv_tx_len v) (pv_tx_cached v) (pv_tx_cs v) (pv_events v).
Definition set_pv_clients (x : list spi_handle) v := mk_spi_virt (pv_num_clients v) (pv_driver_id v) (pv_config v)
  (pv_cs_to_client_id v) (pv_driver v) x (pv_tx v) (pv_tx_len v) (pv_tx_cached v) (pv_tx_cs v) (pv_events v).
Definition set_pv_tx (x : list spi_cmd) v := mk_spi_virt (pv_num_clients v) (pv_driver_id v) (pv_config v)
  (pv_cs_to_client_id v) (pv_driver v) (pv_clients v) x (pv_tx_len v) (pv_tx_cached v) (pv_tx_cs v) (pv_events v).
Definition set_pv_tx_len (x : Z) v := mk_spi_virt (pv_num_clients v) (pv_driver_id v) (pv_config v)
  (pv_cs_to_client_id v) (pv_driver v) (pv_clients v) (pv_tx v) x (pv_tx_cached v) (pv_tx_cs v) (pv_events v).
Definition set_pv_cached (b : bool) v := mk_spi_virt (pv_num_clients v) (pv_driver_id v) (pv_config v)
  (pv_cs_to_client_id v) (pv_driver v) (pv_clients v) (pv_tx v) (pv_tx_len v) b (pv_tx_cs v) (pv_events v).
Definition set_pv_tx_cs (x : Z) v := mk_spi_virt (pv_num_clients v) (pv_driver_id v) (pv_config v)
  (pv_cs_to_client_id v) (pv_driver v) (pv_clients v) (pv_tx v) (pv_tx_len v) (pv_tx_cached v) x (pv_events v).
Definition with_event (e : event) v := mk_spi_virt (pv_num_clients v) (pv_driver_id v) (pv_config v)
  (pv_cs_to_client_id v) (pv_driver v) (pv_clients v) (pv_tx v) (pv_tx_len v) (pv_tx_cached v) (pv_tx_cs v)
  (pv_events v ++ [e]).
Definition emit (e : event) : M spi_virt unit := modify (with_event e).

Definition on_client {A} (i : Z) (m : M spi_handle A) : M spi_virt A := zoom_nth pv_clients set_pv_clients i m.
Definition on_driver {A} (m : M spi_handle A) : M spi_virt A := zoom pv_driver set_pv_driver m.

(** Both offsets are read from [cmd->read_offset]. *)
Definition validate_cmd (cmd : spi_cmd) (data_region_size : Z) : Z :=
  let read_offset := sc_read_offset cmd in
  let write_offset := sc_read_offset cmd in
  let len := CMD_LEN (sc_len cmd) in
  let reading := negb (read_offset =? u64 (-1)) in
  let writing := negb (write_offset =? u64 (-1)) in
  let read_end := u64 (read_offset + len) in
  let write_end := u64 (write_offset + len) in
  let read_unaligned := reading && negb (Z.land read_offset 3 =? 0) in
  let write_unaligned := writing && negb (Z.land write_offset 3 =? 0) in
  if read_unaligned || write_unaligned then SPI_STATUS_ERR_CMD_UNALIGNED_OFFSET else
  let read_oob := reading && (data_region_size <=? read_end) in
  let write_oob := writing && (data_region_size <=? write_end) in
  if read_oob || write_oob then SPI_STATUS_ERR_CMD_OOB else
  let partial_overlap := reading && writing
    && ((write_offset <? read_offset) && (read_offset <? write_end)
        || (read_offset <? write_offset) && (write_offset <? read_end)) in
  if partial_overlap then SPI_STATUS_ERR_CMD_PARTIAL_OVERLAP else SPI_STATUS_OK.

(** The local variables of [find_next_tx]: [resp] and whether it has
    returned. *)
Definition find_body (client_id data_region_size : Z) : M (spi_virt * (spi_resp * bool)) unit :=
  p ← get;
  let resp : spi_resp := p.2.1 in
  r ← on_state (on_client client_id spi_dequeue_cmd);
  match r with
  | None => raise AssertFail
  | Some cmd =>
    tx ← lift (store (pv_tx p.1) (pv_tx_len p.1) cmd);
    on_state (modify (set_pv_tx tx));;
    let resp := if sr_status resp =? SPI_STATUS_OK
                then mk_spi_resp (validate_cmd cmd data_region_size) (u16 (pv_tx_len p.1)) else resp in
    on_state (modify (set_pv_tx_len (u32 (pv_tx_len p.1 + 1))));;
    set_local (resp, negb (sc_cs_active_after_cmd cmd))
  end.

Definition find_next_tx (client_id data_region_size : Z) : M spi_virt spi_resp :=
  v ← get;
  h ← lift (load (pv_clients v) client_id);
  let queue_len := spi_cmd_queue_len h in
  modify (set_pv_tx_len 0);;
  r ← with_local (mk_spi_resp SPI_STATUS_OK (u16 (-1)), false)
        (loop (fun _ => Z.to_nat queue_len) (fun p => (pv_tx_len p.1 <? queue_len) && negb p.2.2)
              (find_body client_id data_region_size));
  let '(_, (resp, returned)) := (r : unit * (spi_resp * bool)) in
  if returned then mret resp else mret (mk_spi_resp SPI_STATUS_ERR_PARTIAL_TXN (u16 (-1))).

(** The body of the do loop; the local variable says how it goes on: [None]
    for another round, [Some b] for its end, [b] being whether the function
    has returned. *)
Definition request_body (client_id cs data_region_size conn_id : Z) : M (spi_virt * option bool) unit :=
  resp ← on_state (find_next_tx client_id data_region_size);
  if sr_status resp =? SPI_STATUS_OK then
    v ← gets fst;
    ok ← on_state (on_driver (spi_mass_enqueue_cmd (pv_tx v) (pv_tx_len v)));
    (if (ok : bool) then
       ok ← on_state (on_driver (spi_enqueue_cmd_cs cs));
       assert_ ok;;
       on_state (emit (DeferredNotify (pv_driver_id v)))
     else on_state (modify (set_pv_cached true));; on_state (modify (set_pv_tx_cs cs)));;
    set_local (Some true)
  else
    on_state (on_driver (spi_enqueue_resp (sr_status resp) (sr_err_cmd_idx resp)));;
    if sr_status resp =? SPI_STATUS_ERR_PARTIAL_TXN then
      on_state (emit (DeferredNotify conn_id));;
      set_local (Some true)
    else
    v ← gets fst;
    h ← lift (load (pv_clients v) client_id);
    set_local (if 0 <? spi_cmd_queue_len h then None else Some false).

Definition request_bound (client_id : Z) (p : spi_virt * option bool) : nat :=
  match pv_clients p.1 !! Z.to_nat client_id with
  | Some h => S (Z.to_nat (spi_cmd_queue_len h))
  | None => 1
  end.

Definition process_request (client_id : Z) : M spi_virt unit :=
  v ← get;
  (if pv_tx_cached v then
     ok ← on_driver (spi_mass_enqueue_cmd (pv_tx v) (pv_tx_len v));
     assert_ ok;;
     ok ← on_driver (spi_enqueue_cmd_cs (pv_tx_cs v));
     assert_ ok
   else mret tt);;
  modify (set_pv_cached false);;
  cfg ← lift (load (pv_config v) client_id);
  r ← with_local None
        (loop (request_bound client_id) (fun p => bool_decide (p.2 = None))
              (request_body client_id (pc_cs cfg) (pc_data_size cfg) (pc_conn_id cfg)));
  if bool_decide ((r : unit * option bool).2 = Some true) then mret tt
  else emit (DeferredNotify (pc_conn_id cfg)).

Definition response_body : M spi_virt unit :=
  cs ← on_driver spi_dequeue_resp_cs;
  match cs with
  | None => raise AssertFail
  | Some cs =>
    resp ← on_driver spi_dequeue_resp;
    match resp with
    | None => raise AssertFail
    | Some r =>
      v ← get;
      client_id ← lift (load (pv_cs_to_client_id v) cs);
      ok ← on_client client_id (spi_enqueue_resp (sr_status r) (sr_err_cmd_idx r));
      when ok (emit (Notify (u32 (CLIENT_CH_OFFSET + client_id))))
    end
  end.

Definition process_response : M spi_virt unit :=
  loop (fun v => Z.to_nat (spi_resp_queue_len (pv_driver v)))
       (fun v => negb (spi_resp_queue_empty (pv_driver v)))
       response_body.

(** [magic] is the result of [spi_config_check_magic]; [driver] and [clients]
    are the mapped queues and their capacity bits, and the cs queues of a
    client do not exist. *)
Definition init (magic : bool) (driver : spi_handle) (clients : list spi_handle) : M spi_virt unit :=
  v ← get;
  assert_ magic;;
  assert_ (pv_driver_id v =? 0);;
  assert_ (0 <? pv_num_clients v);;
  ok ← on_driver (spi_handle_init (sh_cmd driver) (sh_resp driver) (sh_cmd_cs driver) (sh_resp_cs driver)
                    (sh_capacity_bits driver));
  assert_ ok;;
  for_upto (pv_num_clients v) (fun i =>
    c ← lift (load clients i);
    ok ← on_client i (spi_handle_init (sh_cmd c) (sh_resp c) (mk_ring 0 0 []) (mk_ring 0 0 []) (sh_capacity_bits c));
    assert_ ok);;
  modify (set_pv_cached false);;
  for_upto SPI_MAX_CS_LINES (fun i =>
    v ← get;
    l ← lift (store (pv_cs_to_client_id v) i (u64 (-1)));
    put (set_pv_cs l v));;
  for_upto (pv_num_clients v) (fun i =>
    v ← get;
    c ← lift (load (pv_config v) i);
    l ← lift (store (pv_cs_to_client_id v) (pc_cs c) (u64 (pc_conn_id c - CLIENT_CH_OFFSET)));
    put (set_pv_cs l v)).

Definition notified (ch : Z) : M spi_virt unit :=
  v ← get;
  let client_id := u32 (ch - CLIENT_CH_OFFSET) in
  if ch =? pv_driver_id v then process_response
  else if client_id <? pv_num_clients v then process_request client_id
  else mret tt.

(** ** Transactions *)

Definition active (c : spi_cmd) : bool := sc_cs_active_after_cmd c.

(** The first transaction of a list of commands and what follows it; [None] if
    no command releases the chip select. *)
Fixpoint next_tx (l : list spi_cmd) : option (list spi_cmd * list spi_cmd) :=
  match l with
  | [] => None
  | c :: l' =>
    if active c then match next_tx l' with Some (t, r) => Some (c :: t, r) | None => None end
    else Some ([c], l')
  end.

Definition cmd_ok (size : Z) (c : spi_cmd) : bool := validate_cmd c size =? SPI_STATUS_OK.
Definition tx_ok (size : Z) (t : list spi_cmd) : bool := forallb (cmd_ok size) t.

(** The answer to a transaction: the status of the first bad command and its
    index. *)
Fixpoint tx_error (size i : Z) (t : list spi_cmd) : spi_resp :=
  match t with
  | [] => mk_spi_resp SPI_STATUS_OK (u16 i)
  | c :: t' => if cmd_ok size c then tx_error size (i + 1) t' else mk_spi_resp (validate_cmd c size) (u16 i)
  end.

Inductive outcome : Type := Forward (t : list spi_cmd) | Partial | AllBad.

(** How a turn of a client goes through its commands: bad transactions are
    answered and skipped until a good one, which is passed on and ends the
    turn, or until none is left; commands after the last transaction are
    discarded. *)
Inductive served (size : Z) : list spi_cmd -> list spi_resp -> outcome -> list spi_cmd -> Prop :=
| served_forward l t r : next_tx l = Some (t, r) -> tx_ok size t = true -> served size l [] (Forward t) r
| served_partial l : next_tx l = None ->
    served size l [mk_spi_resp SPI_STATUS_ERR_PARTIAL_TXN (u16 (-1))] Partial []
| served_last l t : next_tx l = Some (t, []) -> tx_ok size t = false ->
    served size l [tx_error size 0 t] AllBad []
| served_skip l t r errs o rest : next_tx l = Some (t, r) -> tx_ok size t = false -> r <> [] ->
    served size r errs o rest -> served size l (tx_error size 0 t :: errs) o rest.

Lemma next_tx_split l t r : next_tx l = Some (t, r) -> l = t ++ r /\ t <> [].
Proof.
  revert t r. induction l as [|c l IH]; intros t r; cbn; [done|].
  destruct (active c); [|by intros [= <- <-]].
  destruct (next_tx l) as [[t' r']|]; [|done]. intros [= <- <-]. destruct (IH t' r' eq_refl) as [-> _]. done.
Qed.

Lemma next_tx_end pre c post :
  Forall (fun c => active c = true) pre -> active c = false -> next_tx (pre ++ c :: post) = Some (pre ++ [c], post).
Proof. intros Hp Hc. induction Hp as [|x pre Hx _ IH]; cbn; [by rewrite Hc|]. by rewrite Hx, IH. Qed.

Lemma next_tx_none l : Forall (fun c => active c = true) l -> next_tx l = None.
Proof. intros Hp. induction Hp as [|x pre Hx _ IH]; cbn; [done|]. by rewrite Hx, IH. Qed.

(** The errors recorded while the commands come in one by one. *)
Definition check_step (size : Z) (resp : spi_resp) (i : Z) (c : spi_cmd) : spi_resp :=
  if sr_status resp =? SPI_STATUS_OK then mk_spi_resp (validate_cmd c size) (u16 i) else resp.

Definition checked (size : Z) (pre : list spi_cmd) (resp : spi_resp) : Prop :=
  if tx_ok size pre then sr_status resp = SPI_STATUS_OK else resp = tx_error size 0 pre.

Lemma tx_error_snoc size i t c :
  tx_error size i (t ++ [c])
  = if tx_ok size t then tx_error size (i + Z.of_nat (length t)) [c] else tx_error size i t.
Proof.
  revert i. induction t as [|x t IH]; intros i; [by rewrite Z.add_0_r|].
  unfold tx_ok. cbn [forallb app tx_error length]. fold (tx_ok size t).
  destruct (cmd_ok size x) eqn:E; [|done]. rewrite IH. cbn [andb].
  destruct (tx_ok size t); [|done].
  by replace (i + Z.of_nat (S (length t))) with (i + 1 + Z.of_nat (length t)) by lia.
Qed.

Lemma tx_error_bad size i t : tx_ok size t = false -> sr_status (tx_error size i t) <> SPI_STATUS_OK.
Proof.
  revert i. induction t as [|x t IH]; intros i; cbn; [done|]. unfold cmd_ok.
  destruct (Z.eqb_spec (validate_cmd x size) SPI_STATUS_OK); cbn; auto.
Qed.

Lemma checked_snoc size pre resp c :
  checked size pre resp -> checked size (pre ++ [c]) (check_step size resp (Z.of_nat (length pre)) c).
Proof.
  unfold checked, check_step, tx_ok. rewrite forallb_app, tx_error_snoc. fold (tx_ok size pre). cbn [forallb].
  destruct (tx_ok size pre) eqn:E; cbn [andb].
  - intros ->. cbn [Z.eqb SPI_STATUS_OK tx_error]. destruct (cmd_ok size c) eqn:Ec; cbn [andb]; [|done].
    unfold cmd_ok in Ec. cbn. lia.
  - intros ->. by rewrite (proj2 (Z.eqb_neq _ _)) by by apply tx_error_bad.
Qed.

(** ** The invariant *)

Definition TX_SIZE : Z := Z.shiftl 1 12.

Definition spi_live (h : spi_handle) : Prop := spi_client_wf h /\ spi_capacity h <= TX_SIZE.

Record spi_virt_wf (v : spi_virt) : Prop := {
  sv_num : 0 < pv_num_clients v <= SDDF_SPI_MAX_CLIENTS;
  sv_clients_len : length (pv_clients v) = Z.to_nat SDDF_SPI_MAX_CLIENTS;
  sv_config_len : length (pv_config v) = Z.to_nat SDDF_SPI_MAX_CLIENTS;
  sv_clients : Forall spi_live (take (Z.to_nat (pv_num_clients v)) (pv_clients v));
  sv_driver : spi_driver_wf (pv_driver v);
  (* Every transaction waiting in the driver's queue has a command. *)
  sv_matched : (length (cmd_css (pv_driver v)) <= length (cmds (pv_driver v)))%nat;
  sv_tx : Z.of_nat (length (pv_tx v)) = TX_SIZE;
  sv_tx_len : 0 <= pv_tx_len v <= TX_SIZE;
  sv_cached : pv_tx_cached v = true -> 0 < pv_tx_len v;
}.

(** [v] with client [c] at [h], the driver at [d] and [n] commands collected
    in [tx]. *)
Definition collected (v : spi_virt) (c : Z) (d h : spi_handle) (tx : list spi_cmd) (n : Z) : spi_virt :=
  mk_spi_virt (pv_num_clients v) (pv_driver_id v) (pv_config v) (pv_cs_to_client_id v) d
    (<[Z.to_nat c := h]> (pv_clients v)) tx n (pv_tx_cached v) (pv_tx_cs v) (pv_events v).

Definition find_inv (v : spi_virt) (c : Z) (d h : spi_handle) (size : Z) (p : spi_virt * (spi_resp * bool)) : Prop :=
  exists pre rest h' tx,
    cmds h = pre ++ rest /\ spi_client_wf h' /\
    spi_lists h' = (spi_capacity h, rest, resps h, cmd_css h, resp_css h) /\
    Z.of_nat (length tx) = TX_SIZE /\ take (length pre) tx = pre /\
    p.1 = collected v c d h' tx (Z.of_nat (length pre)) /\
    checked size pre p.2.1 /\
    if p.2.2 then next_tx (cmds h) = Some (pre, rest) else Forall (fun c => active c = true) pre.

Lemma spi_cmd_queue_len_spec h : spi_client_wf h -> spi_cmd_queue_len h = Z.of_nat (length (cmds h)).
Proof. intros [H _]. by apply (lens_length_spec (L := spi_cmd_lens)). Qed.

Lemma check_step_eq size resp i c :
  (if sr_status resp =? SPI_STATUS_OK then mk_spi_resp (validate_cmd c size) (u16 i) else resp)
  = check_step size resp i c.
Proof. done. Qed.

Lemma find_body_spec v c d h size p :
  0 <= c < Z.of_nat (length (pv_clients v)) -> Z.of_nat (length (cmds h)) <= TX_SIZE ->
  find_inv v c d h size p ->
  (pv_tx_len p.1 <? Z.of_nat (length (cmds h))) && negb p.2.2 = true ->
  wp (find_body c size) p (fun _ p' => find_inv v c d h size p' /\
    (Z.to_nat (Z.of_nat (length (cmds h)) - pv_tx_len p'.1) < Z.to_nat (Z.of_nat (length (cmds h)) - pv_tx_len p.1))%nat).
Proof.
  intros Hc Hmax (pre & rest & h' & tx & E & Hw & Hl & Htx & Htake & Hp & Hck & Hret) [Hlt%Z.ltb_lt Hnr]%andb_true_iff.
  destruct p as [v1 [resp ret]]. cbn [fst snd] in *. subst v1. cbn [pv_tx_len collected] in *.
  destruct ret; [done|]. rewrite E, length_app in Hlt, Hmax. destruct rest as [|x rest]; [cbn [length] in Hlt; lia|].
  injection Hl as Hcap Hcmds Hresps Hcs1 Hcs2. cbn [length] in Hmax.
  unfold find_body. do 4 wp_step. eapply wp_zoom_nth; [lia|apply list_lookup_insert_eq; lia|].
  eapply spi_dequeue_cmd_spec; [done..|]. intros h2 Hw2 Hl2. rewrite Hcap, Hresps, Hcs1, Hcs2 in Hl2.
  cbn [pv_clients collected]. rewrite list_insert_insert_eq.
  assert (length pre < length tx)%nat as Hpt by (cbn [length] in Hmax; lia).
  wp_step. eapply wp_lift; [by apply store_nat|]. do 5 wp_step.
  cbn [fst snd pv_tx_len set_pv_tx set_pv_clients collected]. rewrite check_step_eq.
  assert (u32 (Z.of_nat (length pre) + 1) = Z.of_nat (length pre) + 1) as Eu.
  { change TX_SIZE with 4096 in *. apply u32_small. unfold is_u32. lia. }
  rewrite Eu. split.
  - exists (pre ++ [x]), rest, h2, (<[length pre := x]> tx). cbn [fst snd]. rewrite <- app_assoc, length_app.
    split_and!; try done.
    + by rewrite length_insert.
    + cbn [length]. rewrite Nat.add_1_r. rewrite (take_S_r _ _ x) by by apply list_lookup_insert_eq.
      rewrite take_insert_ge by lia. by rewrite Htake.
    + unfold collected, set_pv_tx_len, set_pv_tx, set_pv_clients. cbn. f_equal. lia.
    + by apply checked_snoc.
    + destruct (sc_cs_active_after_cmd x) eqn:Ex; cbn [negb].
      * apply Forall_app. split; [done|]. by apply Forall_singleton.
      * rewrite E. by apply next_tx_end.
  - rewrite E, length_app. cbn [fst pv_tx_len set_pv_tx_len length]. lia.
Qed.

(** [find_next_tx] takes the first transaction of the queue into [tx], or all
    commands if it has none. *)
Lemma find_next_tx_spec v c h size (Q : spi_resp -> spi_virt -> Prop) :
  0 <= c -> pv_clients v !! Z.to_nat c = Some h -> spi_client_wf h ->
  Z.of_nat (length (cmds h)) <= TX_SIZE -> Z.of_nat (length (pv_tx v)) = TX_SIZE ->
  (forall t r h' tx resp, next_tx (cmds h) = Some (t, r) -> spi_client_wf h' ->
     spi_lists h' = (spi_capacity h, r, resps h, cmd_css h, resp_css h) ->
     Z.of_nat (length tx) = TX_SIZE -> take (length t) tx = t -> checked size t resp ->
     Q resp (collected v c (pv_driver v) h' tx (Z.of_nat (length t)))) ->
  (forall h' tx, next_tx (cmds h) = None -> spi_client_wf h' ->
     spi_lists h' = (spi_capacity h, [], resps h, cmd_css h, resp_css h) -> Z.of_nat (length tx) = TX_SIZE ->
     Q (mk_spi_resp SPI_STATUS_ERR_PARTIAL_TXN (u16 (-1)))
       (collected v c (pv_driver v) h' tx (Z.of_nat (length (cmds h))))) ->
  wp (find_next_tx c size) v Q.
Proof.
  intros Hc Hh Hw Hmax Htx HQ HQ'. pose proof (lookup_lt_Some _ _ _ Hh) as Hlt.
  unfold find_next_tx. do 3 wp_step. eapply wp_lift; [by apply load_ok|]. do 4 wp_step.
  rewrite spi_cmd_queue_len_spec by done.
  apply (wp_loop_le (find_inv v c (pv_driver v) h size)
           (fun p => Z.to_nat (Z.of_nat (length (cmds h)) - pv_tx_len p.1))).
  - exists [], (cmds h), h, (pv_tx v). split_and!; try done; [|by apply Forall_nil_2].
    cbn [fst set_pv_tx_len]. unfold collected. rewrite list_insert_id by done. by destruct v.
  - cbn. lia.
  - intros p. apply find_body_spec; lia || done.
  - intros p (pre & rest & h' & tx & E & Hw' & Hl & Htx' & Htake & Hp & Hck & Hret) Hstop.
    destruct p as [v1 [resp ret]]. cbn [fst snd] in *. subst v1. destruct ret.
    + wp_step. eapply HQ; done.
    + cbn [collected pv_tx_len] in Hstop. rewrite andb_true_r, Z.ltb_ge, E, length_app in Hstop.
      destruct rest as [|x rest]; [|cbn in Hstop; lia]. rewrite app_nil_r in E. wp_step.
      rewrite <- E. apply HQ'; [|done..]. rewrite E. by apply next_tx_none.
Qed.

(** ** A turn of a client *)

(** The error answers, as far as they fit. *)
Definition push_errs (cap : Z) (l errs : list spi_resp) : list spi_resp :=
  l ++ take (Z.to_nat (cap - Z.of_nat (length l))) errs.

Lemma push_errs_snoc cap l errs e :
  push_errs cap l (errs ++ [e])
  = if Z.of_nat (length (push_errs cap l errs)) <? cap then push_errs cap l errs ++ [e] else push_errs cap l errs.
Proof.
  unfold push_errs. rewrite length_app, length_take, take_app. set (n := Z.to_nat _).
  destruct (Z.ltb_spec (Z.of_nat (length l + n `min` length errs)) cap) as [H|H].
  - rewrite app_assoc. f_equal. apply take_ge. cbn. lia.
  - replace (n - length errs)%nat with 0%nat by lia. by rewrite app_nil_r.
Qed.

(** The state after a turn of client [c], at [h], that answered [errs], came to
    [o] and left [rest]: error answers sit in the response queue of the driver;
    a good transaction is in the driver's queue with its chip select, or kept
    for later if the driver has no room. *)
Definition request_post (v : spi_virt) (c : Z) (h : spi_handle) (cfg : spi_client_config)
  (errs : list spi_resp) (o : outcome) (rest : list spi_cmd) (v' : spi_virt) : Prop :=
  let d := pv_driver v in
  exists h' d' tx n,
    spi_client_wf h' /\ spi_lists h' = (spi_capacity h, rest, resps h, cmd_css h, resp_css h) /\
    spi_driver_wf d' /\ Z.of_nat (length tx) = TX_SIZE /\ 0 <= n <= TX_SIZE /\
    let answered cs css := spi_lists d' = (spi_capacity d, cs, push_errs (spi_capacity d) (resps d) errs, css, resp_css d) in
    match o with
    | Forward t =>
      n = Z.of_nat (length t) /\ take (length t) tx = t /\ t <> [] /\
      if Z.of_nat (length (cmds d)) + n <=? spi_capacity d
      then answered (cmds d ++ t) (cmd_css d ++ [pc_cs cfg]) /\
           v' = with_event (DeferredNotify (pv_driver_id v)) (collected v c d' h' tx n)
      else answered (cmds d) (cmd_css d) /\
           v' = set_pv_tx_cs (pc_cs cfg) (set_pv_cached true (collected v c d' h' tx n))
    | Partial | AllBad =>
      answered (cmds d) (cmd_css d) /\
      v' = with_event (DeferredNotify (pc_conn_id cfg)) (collected v c d' h' tx n)
    end.

Definition request_inv (v : spi_virt) (c : Z) (h : spi_handle) (cfg : spi_client_config) (p : spi_virt * option bool) : Prop :=
  let d := pv_driver v in
  let serves := served (pc_data_size cfg) in
  match p.2 with
  | None => exists errs l h' d' tx n,
      (forall errs' o rest, serves l errs' o rest -> serves (cmds h) (errs ++ errs') o rest) /\
      spi_client_wf h' /\ spi_lists h' = (spi_capacity h, l, resps h, cmd_css h, resp_css h) /\
      spi_driver_wf d' /\
      spi_lists d' = (spi_capacity d, cmds d, push_errs (spi_capacity d) (resps d) errs, cmd_css d, resp_css d) /\
      Z.of_nat (length tx) = TX_SIZE /\ 0 <= n <= TX_SIZE /\ p.1 = collected v c d' h' tx n
  | Some true => exists errs o rest, serves (cmds h) errs o rest /\ request_post v c h cfg errs o rest p.1
  | Some false => exists errs rest, serves (cmds h) errs AllBad rest /\
      request_post v c h cfg errs AllBad rest (with_event (DeferredNotify (pc_conn_id cfg)) p.1)
  end.

Definition request_measure (c : Z) (p : spi_virt * option bool) : nat :=
  match p.2 with None => request_bound c p | Some _ => 0%nat end.

Lemma collected_twice v c d h tx n d2 h2 tx2 n2 :
  collected (collected v c d h tx n) c d2 h2 tx2 n2 = collected v c d2 h2 tx2 n2.
Proof. unfold collected. cbn. by rewrite list_insert_insert_eq. Qed.

Lemma collected_lookup v c d h tx n :
  0 <= c < Z.of_nat (length (pv_clients v)) -> pv_clients (collected v c d h tx n) !! Z.to_nat c = Some h.
Proof. intros. apply list_lookup_insert_eq. lia. Qed.

(** Answering an error into the driver's queue. *)
Lemma answer_error v d d0 r errs (Q : bool -> spi_virt -> Prop) :
  pv_driver v = d -> spi_driver_wf d ->
  spi_lists d = (spi_capacity d0, cmds d0, push_errs (spi_capacity d0) (resps d0) errs, cmd_css d0, resp_css d0) ->
  (forall ok d', spi_driver_wf d' ->
    spi_lists d' = (spi_capacity d0, cmds d0, push_errs (spi_capacity d0) (resps d0) (errs ++ [r]), cmd_css d0, resp_css d0) ->
    Q ok (set_pv_driver d' v)) ->
  wp (on_driver (spi_enqueue_resp (sr_status r) (sr_err_cmd_idx r))) v Q.
Proof.
  intros Ed Hd Hl HQ. injection Hl as Hcap Hc Hr Hcs Hrcs. unfold on_driver. wp_step. rewrite Ed.
  apply spi_enqueue_resp_spec; [apply Hd|..].
  - intros d' Hroom _ Hw Hl'. apply HQ; [auto|]. rewrite Hl', Hcap, Hc, Hr, Hcs, Hrcs. rewrite push_errs_snoc.
    rewrite Hr, Hcap in Hroom. rewrite (proj2 (Z.ltb_lt _ _)) by lia. by destruct r.
  - intros Hroom. apply HQ; [done|]. unfold spi_lists. rewrite Hcap, Hc, Hr, Hcs, Hrcs. rewrite push_errs_snoc.
    rewrite Hr, Hcap in Hroom. by rewrite (proj2 (Z.ltb_ge _ _)) by lia.
Qed.

Lemma checked_ok size t resp : checked size t resp -> (sr_status resp =? SPI_STATUS_OK) = tx_ok size t.
Proof.
  unfold checked. destruct (tx_ok size t) eqn:E; [by intros ->|]. intros ->.
  apply Z.eqb_neq. by apply tx_error_bad.
Qed.

Lemma validate_not_partial c size : validate_cmd c size <> SPI_STATUS_ERR_PARTIAL_TXN.
Proof. unfold validate_cmd. repeat case_match; done. Qed.

Lemma tx_error_not_partial size i t : sr_status (tx_error size i t) <> SPI_STATUS_ERR_PARTIAL_TXN.
Proof.
  revert i. induction t as [|c t IH]; intros i; cbn; [done|].
  destruct (cmd_ok size c); [apply IH|apply validate_not_partial].
Qed.

(** Passing on a good transaction, now or later. *)
Lemma forward_spec v c h cfg errs l d' h' tx t resp rest :
  spi_virt_wf v -> 0 <= c < pv_num_clients v ->
  (forall errs' o rest, served (pc_data_size cfg) l errs' o rest ->
     served (pc_data_size cfg) (cmds h) (errs ++ errs') o rest) ->
  spi_client_wf h' -> spi_lists h' = (spi_capacity h, rest, resps h, cmd_css h, resp_css h) ->
  spi_driver_wf d' ->
  spi_lists d' = (spi_capacity (pv_driver v), cmds (pv_driver v),
                  push_errs (spi_capacity (pv_driver v)) (resps (pv_driver v)) errs,
                  cmd_css (pv_driver v), resp_css (pv_driver v)) ->
  Z.of_nat (length tx) = TX_SIZE -> take (length t) tx = t ->
  next_tx l = Some (t, rest) -> tx_ok (pc_data_size cfg) t = true -> sr_status resp = SPI_STATUS_OK ->
  wp (v' ← gets fst;
      ok ← on_state (on_driver (spi_mass_enqueue_cmd (pv_tx v') (pv_tx_len v')));
      (if (ok : bool) then
         ok ← on_state (on_driver (spi_enqueue_cmd_cs (pc_cs cfg)));
         assert_ ok;;
         on_state (emit (DeferredNotify (pv_driver_id v')))
       else on_state (modify (set_pv_cached true));; on_state (modify (set_pv_tx_cs (pc_cs cfg))));;
      set_local (Some true))
    (collected v c d' h' tx (Z.of_nat (length t)), None) (fun _ p => request_inv v c h cfg p /\ p.2 = Some true).
Proof.
  intros Hwf Hc Hskip Hw Hl Hd Hld Htx Htake Hnext Hok _.
  pose proof (next_tx_split _ _ _ Hnext) as [_ Hne]. injection Hld as Hcap Hcmds Hresps Hcs Hrcs.
  assert (length t <= length tx)%nat as Hlen by (rewrite <- Htake, length_take; lia).
  assert (0 < length t)%nat by (destruct t; [done|cbn; lia]).
  change TX_SIZE with 4096 in *. pose proof (sv_matched v Hwf) as Hm.
  assert (served (pc_data_size cfg) (cmds h) errs (Forward t) rest) as Hserved.
  { rewrite <- (app_nil_r errs). apply Hskip. by apply served_forward. }
  unfold on_driver. do 4 wp_step. wp_step. cbn [pv_tx pv_tx_len pv_driver collected fst].
  apply spi_mass_enqueue_cmd_spec; [done|lia..| |].
  - intros d1 Hroom Hd1 Hl1. rewrite Nat2Z.id, Htake, Hcap, Hcmds, Hresps, Hcs, Hrcs in *.
    injection Hl1 as Hcap1 Hcmds1 Hresps1 Hcs1 Hrcs1. do 4 wp_step.
    apply spi_enqueue_cmd_cs_spec; [done|cbn; rewrite Hcs1, Hcap1; lia|]. cbn [pv_driver set_pv_driver].
    intros d2 Hd2 Hl2. rewrite Hcap1, Hcmds1, Hresps1, Hcs1, Hrcs1 in Hl2.
    wp_step. apply wp_assert; [done|]. unfold emit. repeat wp_step. split; [|done].
    exists errs, (Forward t), rest. split; [done|]. exists h', d2, tx, (Z.of_nat (length t)).
    rewrite (proj2 (Z.leb_le _ _)) by lia. cbn match. change TX_SIZE with 4096. split_and!; (done || lia).
  - intros Hroom. rewrite Hcap, Hcmds in Hroom. repeat wp_step. split; [|done].
    exists errs, (Forward t), rest. split; [done|]. exists h', d', tx, (Z.of_nat (length t)).
    rewrite (proj2 (Z.leb_gt _ _)) by lia. cbn match. change TX_SIZE with 4096. unfold spi_lists.
    split_and!; (done || lia || congruence).
Qed.

Lemma sv_live v c h :
  spi_virt_wf v -> 0 <= c < pv_num_clients v -> pv_clients v !! Z.to_nat c = Some h -> spi_live h.
Proof.
  intros Hwf Hc Hh. pose proof (sv_clients v Hwf) as H. rewrite Forall_lookup in H. apply (H (Z.to_nat c)).
  rewrite lookup_take_lt by lia. done.
Qed.

Lemma request_body_spec v c h cfg p :
  spi_virt_wf v -> 0 <= c < pv_num_clients v -> pv_clients v !! Z.to_nat c = Some h ->
  request_inv v c h cfg p -> bool_decide (p.2 = None) = true ->
  wp (request_body c (pc_cs cfg) (pc_data_size cfg) (pc_conn_id cfg)) p (fun _ p' =>
    request_inv v c h cfg p' /\ (request_measure c p' < request_measure c p)%nat).
Proof.
  intros Hwf Hc Hh Hinv Hnone%bool_decide_eq_true. destruct p as [v1 fin]. cbn [snd] in Hnone. subst fin.
  destruct Hinv as (errs & l & h1 & d1 & tx & n & Hskip & Hw1 & Hl1 & Hd1 & Hld1 & Htx & Hn & E). cbn [fst] in E. subst v1.
  pose proof (sv_live v c h Hwf Hc Hh) as [Hw Hcap]. pose proof (lookup_lt_Some _ _ _ Hh) as Hlt.
  pose proof Hl1 as Hl1'. injection Hl1 as Hcap1 Hcmds1 Hresps1 Hcs1 Hrcs1. pose proof (spi_bounds h1 Hw1) as [Hb _].
  rewrite Hcap1, Hcmds1 in Hb. change TX_SIZE with 4096 in Hcap.
  assert (forall v2 b, (request_measure c (v2, Some b) < request_measure c (collected v c d1 h1 tx n, None))%nat) as Hmeas.
  { intros. cbn. unfold request_bound. cbn [fst]. rewrite collected_lookup by lia. lia. }
  unfold request_body. do 2 wp_step.
  apply (find_next_tx_spec _ c h1); [lia|apply collected_lookup; lia|done|rewrite Hcmds1; change TX_SIZE with 4096; lia|done|..].
  - intros t r h2 tx2 resp Hnext Hw2 Hl2 Htx2 Htake Hck. rewrite Hcap1, Hresps1, Hcs1, Hrcs1 in Hl2. rewrite Hcmds1 in Hnext.
    rewrite collected_twice. cbn [pv_driver collected]. rewrite (checked_ok _ _ _ Hck).
    destruct (tx_ok (pc_data_size cfg) t) eqn:Eok.
    { eapply wp_mono; [eapply (forward_spec v c h cfg errs l d1 h2 tx2 t resp r); try done|].
      - pose proof (checked_ok _ _ _ Hck) as F. rewrite Eok in F. by apply Z.eqb_eq in F.
      - intros [] [v3 fin] [Hinv Hfin]. cbn in Hfin. subst fin. auto. }
    unfold checked in Hck. rewrite Eok in Hck. subst resp. do 2 wp_step.
    eapply (answer_error _ d1 (pv_driver v)); [done..|]. intros ok d2 Hd2 Hld2.
    rewrite (proj2 (Z.eqb_neq _ _)) by apply tx_error_not_partial. do 3 wp_step.
    change (set_pv_driver d2 (collected v c d1 h2 tx2 (Z.of_nat (length t)))) with (collected v c d2 h2 tx2 (Z.of_nat (length t))).
    eapply wp_lift; [apply load_ok; [lia|]; apply collected_lookup; lia|]. wp_step.
    rewrite spi_cmd_queue_len_spec by done. pose proof Hl2 as Hl2'. injection Hl2 as Hcap2 Hcmds2 _ _ _. rewrite Hcmds2.
    pose proof (next_tx_split _ _ _ Hnext) as [El Hne].
    assert (Z.of_nat (length t) <= 4096). { rewrite El, length_app in Hb. lia. }
    destruct (Z.ltb_spec 0 (Z.of_nat (length r))) as [Hr|Hr].
    + split.
      * exists (errs ++ [tx_error (pc_data_size cfg) 0 t]), r, h2, d2, tx2, (Z.of_nat (length t)).
        change TX_SIZE with 4096. split_and!; try (done || lia).
        intros errs' o rest Hs. rewrite <- app_assoc. apply Hskip. cbn. eapply served_skip; [done..| |done]. by destruct r.
      * cbn. unfold request_bound. cbn [fst]. rewrite !collected_lookup, !spi_cmd_queue_len_spec by (done || lia).
        rewrite Hcmds1, Hcmds2, El, length_app. destruct t; [done|cbn; lia].
    + split; [|apply Hmeas]. destruct r; [|cbn in Hr; lia].
      exists (errs ++ [tx_error (pc_data_size cfg) 0 t]), []. split; [apply Hskip; by apply served_last|].
      exists h2, d2, tx2, (Z.of_nat (length t)). change TX_SIZE with 4096. split_and!; (done || lia).
  - intros h2 tx2 Hnext Hw2 Hl2 Htx2. rewrite Hcap1, Hresps1, Hcs1, Hrcs1 in Hl2. rewrite Hcmds1 in Hnext |- *.
    rewrite collected_twice. cbn [pv_driver collected sr_status].
    rewrite (proj2 (Z.eqb_neq SPI_STATUS_ERR_PARTIAL_TXN SPI_STATUS_OK)) by done. do 2 wp_step.
    eapply (answer_error _ d1 (pv_driver v) (mk_spi_resp _ _)); [done..|]. intros ok d2 Hd2 Hld2.
    rewrite Z.eqb_refl. unfold emit. repeat wp_step. split; [|apply Hmeas].
    exists (errs ++ [mk_spi_resp SPI_STATUS_ERR_PARTIAL_TXN (u16 (-1))]), Partial, []. split; [apply Hskip; by apply served_partial|].
    exists h2, d2, tx2, (Z.of_nat (length l)). change TX_SIZE with 4096. split_and!; (done || lia).
Qed.

Lemma collected_wf v c h h' d' tx n :
  spi_virt_wf v -> 0 <= c < pv_num_clients v -> pv_clients v !! Z.to_nat c = Some h ->
  spi_client_wf h' -> spi_capacity h' = spi_capacity h -> spi_driver_wf d' ->
  (length (cmd_css d') <= length (cmds d'))%nat -> Z.of_nat (length tx) = TX_SIZE -> 0 <= n <= TX_SIZE ->
  (pv_tx_cached v = true -> 0 < n) -> spi_virt_wf (collected v c d' h' tx n).
Proof.
  intros Hwf Hc Hh Hw Hcap Hd Hm Htx Hn Hca. pose proof (sv_live v c h Hwf Hc Hh) as [_ Hle]. destruct Hwf.
  split; cbn [pv_num_clients pv_clients pv_config pv_driver pv_tx pv_tx_len pv_tx_cached collected]; try done.
  - by rewrite length_insert.
  - rewrite take_insert_lt by lia. apply Forall_insert; [done|]. split; [done|lia].
Qed.

Lemma request_post_wf v c h cfg errs o rest v' :
  spi_virt_wf v -> 0 <= c < pv_num_clients v -> pv_clients v !! Z.to_nat c = Some h -> pv_tx_cached v = false ->
  request_post v c h cfg errs o rest v' -> spi_virt_wf v'.
Proof.
  intros Hwf Hc Hh Hnc (h' & d' & tx & n & Hw & Hl & Hd & Htx & Hn & Hpost). pose proof (sv_matched v Hwf).
  injection Hl as Hcap _ _ _ _.
  assert (forall cs css e, spi_lists d' = e -> e.1.1.1.2 = cs -> e.1.2 = css -> (length css <= length cs)%nat ->
    spi_virt_wf (collected v c d' h' tx n)) as Hcol.
  { intros cs css e <- <- <- ?. eapply collected_wf; try done. congruence. }
  destruct o as [t| |].
  - destruct Hpost as (-> & Htake & Hne & Hpost). assert (0 < length t)%nat by (destruct t; [done|cbn; lia]).
    destruct (_ <=? _); destruct Hpost as [Ha ->]; (eapply Hcol in Ha; [|done..|cbn [fst snd]; rewrite ?length_app; cbn [length]; lia]);
      destruct Ha; split; done || (intros; cbn [pv_tx_len with_event set_pv_tx_cs set_pv_cached collected]; lia).
  - destruct Hpost as [Ha ->]. eapply Hcol in Ha; [|done..|cbn [fst snd]; lia]. by destruct Ha; split.
  - destruct Hpost as [Ha ->]. eapply Hcol in Ha; [|done..|cbn [fst snd]; lia]. by destruct Ha; split.
Qed.

(** The transaction kept from an earlier turn. *)
Definition pending_cmds (v : spi_virt) : list spi_cmd :=
  if pv_tx_cached v then take (Z.to_nat (pv_tx_len v)) (pv_tx v) else [].
Definition pending_cs (v : spi_virt) : list Z := if pv_tx_cached v then [pv_tx_cs v] else [].

(** [process_request] after the part that deals with a kept transaction. *)
Abbreviation request_main c v :=
  (cfg ← lift (load (pv_config v) c);
   r ← with_local None
         (loop (request_bound c) (fun p => bool_decide (p.2 = None))
               (request_body c (pc_cs cfg) (pc_data_size cfg) (pc_conn_id cfg)));
   if bool_decide ((r : unit * option bool).2 = Some true) then mret tt
   else emit (DeferredNotify (pc_conn_id cfg))).

Lemma request_main_spec v c h cfg :
  spi_virt_wf v -> 0 <= c < pv_num_clients v -> pv_clients v !! Z.to_nat c = Some h ->
  pv_config v !! Z.to_nat c = Some cfg ->
  wp (request_main c v) v
    (fun _ v' => exists errs o rest, served (pc_data_size cfg) (cmds h) errs o rest /\ request_post v c h cfg errs o rest v').
Proof.
  intros Hwf Hc Hh Hcfg. pose proof (sv_live v c h Hwf Hc Hh) as [Hw _].
  wp_step. eapply wp_lift; [apply load_ok; [lia|done]|]. do 2 wp_step.
  apply (wp_loop_le (request_inv v c h cfg) (request_measure c)).
  - exists [], (cmds h), h, (pv_driver v), (pv_tx v), (pv_tx_len v). destruct Hwf.
    split_and!; try (done || lia); cbn [fst].
    + unfold push_errs. by rewrite take_nil, app_nil_r.
    + unfold collected. rewrite list_insert_id by done. by destruct v.
  - done.
  - intros p. by apply request_body_spec.
  - intros [v1 [b|]] Hinv Hstop; [|by rewrite bool_decide_eq_true_2 in Hstop]. cbn [fst snd]. destruct b.
    + rewrite bool_decide_eq_true_2 by done. wp_step. done.
    + rewrite bool_decide_eq_false_2 by done. unfold emit. wp_step.
      destruct Hinv as (errs & rest & Hs & Hp). eauto.
Qed.

(** A turn of a client of the SPI virtualiser, from any well-formed state in
    which the driver has room for a transaction kept from an earlier turn:
    that transaction goes first; then the client's transactions are taken in
    order, each bad one is answered with its first bad command, and the first
    good one is passed to the driver whole, followed by its chip select and a
    notification, or kept if the driver has no room for all of it.  If no
    good one is left the client is notified.  The turn terminates, no
    assertion fails and the state stays well formed. *)
Theorem spi_process_request_correct (v : spi_virt) (c : Z) (h : spi_handle) (cfg : spi_client_config) :
  spi_virt_wf v -> 0 <= c < pv_num_clients v -> pv_clients v !! Z.to_nat c = Some h ->
  pv_config v !! Z.to_nat c = Some cfg ->
  Z.of_nat (length (cmds (pv_driver v) ++ pending_cmds v)) <= spi_capacity (pv_driver v) ->
  wp (process_request c) v (fun _ v' => exists d errs o rest,
    spi_lists d = (spi_capacity (pv_driver v), cmds (pv_driver v) ++ pending_cmds v, resps (pv_driver v),
                   cmd_css (pv_driver v) ++ pending_cs v, resp_css (pv_driver v)) /\
    served (pc_data_size cfg) (cmds h) errs o rest /\
    request_post (set_pv_cached false (set_pv_driver d v)) c h cfg errs o rest v' /\
    spi_virt_wf v').
Proof.
  intros Hwf Hc Hh Hcfg Hroom. unfold process_request. do 3 wp_step.
  assert (forall d, spi_driver_wf d -> (length (cmd_css d) <= length (cmds d))%nat ->
    spi_virt_wf (set_pv_cached false (set_pv_driver d v))) as Hset by (destruct Hwf; split; done).
  assert (forall d, spi_driver_wf d -> (length (cmd_css d) <= length (cmds d))%nat ->
    spi_lists d = (spi_capacity (pv_driver v), cmds (pv_driver v) ++ pending_cmds v, resps (pv_driver v),
                   cmd_css (pv_driver v) ++ pending_cs v, resp_css (pv_driver v)) ->
    wp (request_main c v) (set_pv_cached false (set_pv_driver d v))
      (fun _ v' => exists d errs o rest,
        spi_lists d = (spi_capacity (pv_driver v), cmds (pv_driver v) ++ pending_cmds v, resps (pv_driver v),
                       cmd_css (pv_driver v) ++ pending_cs v, resp_css (pv_driver v)) /\
        served (pc_data_size cfg) (cmds h) errs o rest /\
        request_post (set_pv_cached false (set_pv_driver d v)) c h cfg errs o rest v' /\ spi_virt_wf v')) as Hmain.
  { intros d Hd Hm Hl. specialize (Hset d Hd Hm). eapply wp_mono; [by apply (request_main_spec _ c h cfg Hset)|].
    intros _ v' (errs & o & rest & Hs & Hp). exists d, errs, o, rest. split_and!; try done.
    by apply (request_post_wf _ c h cfg errs o rest v' Hset). }
  destruct Hwf. destruct (pv_tx_cached v) eqn:Eca.
  - assert (length (pending_cmds v) = Z.to_nat (pv_tx_len v)) as Hlp.
    { unfold pending_cmds. rewrite Eca, length_take. lia. }
    rewrite length_app, Hlp in Hroom. specialize (sv_cached0 eq_refl). change TX_SIZE with 4096 in *.
    unfold on_driver. do 2 wp_step. apply spi_mass_enqueue_cmd_spec; [done|lia..| |lia].
    intros d1 _ Hd1 Hl1. injection Hl1 as Hcap1 Hcmds1 Hresps1 Hcs1 Hrcs1. wp_step. apply wp_assert; [done|].
    assert (cmds d1 = cmds (pv_driver v) ++ pending_cmds v) as Hcmds1'.
    { rewrite Hcmds1. unfold pending_cmds. by rewrite Eca. }
    do 2 wp_step. apply spi_enqueue_cmd_cs_spec; [done|cbn; rewrite Hcs1, Hcap1; lia|]. cbn [pv_driver set_pv_driver].
    intros d2 Hd2 Hl2. rewrite Hcap1, Hcmds1', Hresps1, Hcs1, Hrcs1 in Hl2. apply wp_assert; [done|]. do 2 wp_step.
    apply Hmain; [done| |by unfold pending_cs; rewrite Eca]. injection Hl2 as _ Hcmds2 _ Hcs2 _.
    rewrite Hcs2, Hcmds2, !length_app, Hlp. cbn. lia.
  - do 3 wp_step. replace (set_pv_cached false v) with (set_pv_cached false (set_pv_driver (pv_driver v) v)) by by destruct v.
    apply Hmain; [done..|]. unfold pending_cmds, pending_cs. by rewrite Eca, !app_nil_r.
Qed.

(** ** Responses *)

(** The responses for client [i] among the pairs the driver returned. *)
Definition addressed (v : spi_virt) (i : Z) (l : list (Z * spi_resp)) : list spi_resp :=
  (filter (fun p => pv_cs_to_client_id v !!! Z.to_nat p.1 = i) l).*2.

Definition notifications (i : Z) (ev : list event) : nat :=
  length (filter (fun e => e = Notify (CLIENT_CH_OFFSET + i)) ev).

Definition delivered (v : spi_virt) (d : spi_handle) (cl : list spi_handle) (ev : list event) : spi_virt :=
  mk_spi_virt (pv_num_clients v) (pv_driver_id v) (pv_config v) (pv_cs_to_client_id v) d cl (pv_tx v) (pv_tx_len v)
    (pv_tx_cached v) (pv_tx_cs v) (pv_events v ++ ev).

(** A chip select that belongs to a client. *)
Definition cs_known (v : spi_virt) (cs : Z) : Prop :=
  0 <= cs /\ exists i, pv_cs_to_client_id v !! Z.to_nat cs = Some i /\ 0 <= i < pv_num_clients v.

(** What the clients have after the pairs [l]. *)
Definition clients_got (v : spi_virt) (l : list (Z * spi_resp)) (cl : list spi_handle) (ev : list event) : Prop :=
  length cl = length (pv_clients v) /\
  forall i h, 0 <= i < pv_num_clients v -> pv_clients v !! Z.to_nat i = Some h ->
    exists h', cl !! Z.to_nat i = Some h' /\ spi_client_wf h' /\
      spi_lists h' = (spi_capacity h, cmds h, push_errs (spi_capacity h) (resps h) (addressed v i l), cmd_css h, resp_css h) /\
      length (resps h') = (length (resps h) + notifications i ev)%nat.

Definition response_inv (v : spi_virt) (l : list (Z * spi_resp)) (v' : spi_virt) : Prop :=
  exists taken rest d cl ev,
    l = taken ++ rest /\ spi_driver_wf d /\
    spi_lists d = (spi_capacity (pv_driver v), cmds (pv_driver v), rest.*2, cmd_css (pv_driver v), rest.*1) /\
    clients_got v taken cl ev /\ v' = delivered v d cl ev.

Lemma addressed_snoc v i l cs r :
  addressed v i (l ++ [(cs, r)])
  = if decide (pv_cs_to_client_id v !!! Z.to_nat cs = i) then addressed v i l ++ [r] else addressed v i l.
Proof.
  unfold addressed. rewrite filter_app, fmap_app, filter_cons. cbn [fst filter list_filter].
  case_decide; cbn; [done|]. by rewrite app_nil_r.
Qed.

Lemma notifications_snoc i ev j :
  notifications i (ev ++ [Notify (CLIENT_CH_OFFSET + j)])
  = if decide (j = i) then S (notifications i ev) else notifications i ev.
Proof.
  unfold notifications. rewrite filter_app, length_app, filter_cons. cbn [filter list_filter].
  case_decide as H; case_decide as H2; cbn [length]; try lia.
  - injection H. lia.
  - by subst.
Qed.

Lemma response_body_spec v l v1 :
  spi_virt_wf v -> Forall (fun p => cs_known v p.1) l ->
  response_inv v l v1 -> negb (spi_resp_queue_empty (pv_driver v1)) = true ->
  wp response_body v1 (fun _ v2 => response_inv v l v2 /\
    (Z.to_nat (spi_resp_queue_len (pv_driver v2)) < Z.to_nat (spi_resp_queue_len (pv_driver v1)))%nat).
Proof.
  intros Hwf Hknown (taken & rest & d & cl & ev & El & Hd & Hld & [Hlen Hgot] & ->) Hne%negb_true_iff.
  cbn [pv_driver delivered] in *. pose proof Hld as Hld'. injection Hld' as _ _ Hresps _ Hcss.
  pose proof (scw_resp _ (sdw_client _ Hd)) as Hdr.
  destruct rest as [|[cs r] rest].
  { pose proof (proj2 (lens_empty_spec (L := spi_resp_lens) d Hdr) Hresps) as F. unfold spi_resp_queue_empty in Hne. congruence. }
  rewrite El, Forall_app, Forall_cons in Hknown. destruct Hknown as (_ & [Hcs (i & Hi & Hin)] & _). cbn [fst] in *.
  unfold response_body, on_driver. do 2 wp_step. eapply (spi_dequeue_resp_cs_spec d); [done|exact Hcss|].
  intros d1 Hd1 Hl1. do 2 wp_step. cbn [pv_driver set_pv_driver delivered].
  injection Hld as Hcap Hcmds _ Hcs1 _. rewrite Hcap, Hcmds, Hcs1, Hresps in Hl1. pose proof Hl1 as Hl1'. injection Hl1' as Hcap1 Hcmds1 Hresps1 Hcs2 Hcss1.
  eapply (spi_dequeue_resp_spec d1); [done|exact Hresps1|]. intros d2 Hd2 Hl2. rewrite Hcap1, Hcmds1, Hcs2, Hcss1 in Hl2.
  do 3 wp_step. cbn [fst]. eapply wp_lift; [by apply load_ok|]. wp_step.
  destruct (lookup_lt_is_Some_2 (pv_clients v) (Z.to_nat i)) as [h Hh].
  { rewrite (sv_clients_len v Hwf). pose proof (sv_num v Hwf). lia. }
  destruct (Hgot i h Hin Hh) as (h1 & Hh1 & Hw1 & Hl3 & Hnot).
  eapply wp_zoom_nth; [lia|exact Hh1|].
  pose proof Hl3 as Hl3'. injection Hl3' as Hcaph Hcmdsh Hrespsh Hcsh1 Hcsh2.
  assert (pv_cs_to_client_id v !!! Z.to_nat cs = i) as Hcsi by by apply list_lookup_total_correct.
  assert (forall h2 (ev2 : list event), clients_got v (taken ++ [(cs, r)]) (<[Z.to_nat i := h2]> cl) ev2 ->
    response_inv v l (delivered v d2 (<[Z.to_nat i := h2]> cl) ev2) /\
    (Z.to_nat (spi_resp_queue_len d2) < Z.to_nat (spi_resp_queue_len d))%nat) as Hgoal.
  { intros h2 ev2 Hg. split.
    - exists (taken ++ [(cs, r)]), rest, d2, (<[Z.to_nat i := h2]> cl), ev2. by rewrite <- app_assoc.
    - unfold spi_resp_queue_len. rewrite !lens_length_spec by (apply Hd || apply Hd2).
      injection Hl2 as _ _ Hr2 _ _. unfold resps in Hresps, Hr2. rewrite Hresps, Hr2, !Nat2Z.id. apply Nat.lt_succ_diag_r. }
  assert (forall h2 ev2, spi_client_wf h2 ->
    spi_lists h2 = (spi_capacity h, cmds h, push_errs (spi_capacity h) (resps h) (addressed v i taken ++ [r]), cmd_css h, resp_css h) ->
    (forall j, j <> i -> notifications j ev2 = notifications j ev) ->
    length (resps h2) = (length (resps h) + notifications i ev2)%nat ->
    clients_got v (taken ++ [(cs, r)]) (<[Z.to_nat i := h2]> cl) ev2) as Hclients.
  { intros h2 ev2 Hw2 Hl4 Hoth Hcnt. split; [by rewrite length_insert|]. intros j hj Hj Hhj. rewrite addressed_snoc, Hcsi.
    destruct (decide (i = j)) as [<-|Hij].
    - rewrite Hh in Hhj. injection Hhj as <-. exists h2. rewrite list_lookup_insert_eq by (by eapply lookup_lt_Some). done.
    - rewrite list_lookup_insert_ne by lia. rewrite Hoth by done. by apply Hgot. }
  apply spi_enqueue_resp_spec; [done|..].
  - intros h2 Hroom Hw2 _ Hl4. cbn [when]. unfold emit. wp_step.
    rewrite Hcaph, Hcmdsh, Hrespsh, Hcsh1, Hcsh2 in Hl4. rewrite Hcaph, Hrespsh in Hroom.
    pose proof (sv_num v Hwf). unfold SDDF_SPI_MAX_CLIENTS, CLIENT_CH_OFFSET in *.
    rewrite u32_small by (unfold is_u32; lia).
    replace (with_event _ _) with (delivered v d2 (<[Z.to_nat i := h2]> cl) (ev ++ [Notify (CLIENT_CH_OFFSET + i)]))
      by (unfold delivered, with_event; cbn; by rewrite app_assoc).
    apply Hgoal, Hclients; [done|..].
    + rewrite push_errs_snoc, (proj2 (Z.ltb_lt _ _)) by lia. rewrite Hl4. by destruct r.
    + intros j Hj. by rewrite notifications_snoc, decide_False.
    + rewrite notifications_snoc, decide_True by done. injection Hl4 as _ _ Hr4 _ _.
      rewrite Hr4, length_app, <- Hrespsh, Hnot. cbn. lia.
  - intros Hroom. rewrite Hcaph, Hrespsh in Hroom. cbn [when]. wp_step.
    apply (Hgoal h1 ev), Hclients; [done| |done|done].
    rewrite push_errs_snoc, (proj2 (Z.ltb_ge _ _)) by lia. done.
Qed.

(** [process_response] drains the responses of the driver, provided each
    comes with the chip select of some client: every client gets the
    responses for its chip select in order, as far as its queue has room, and
    is notified once for each it got; nothing else changes and no assertion
    fails. *)
Theorem spi_process_response_correct (v : spi_virt) :
  spi_virt_wf v ->
  length (resp_css (pv_driver v)) = length (resps (pv_driver v)) ->
  Forall (cs_known v) (resp_css (pv_driver v)) ->
  wp process_response v (fun _ v' => exists d cl ev,
    spi_driver_wf d /\
    spi_lists d = (spi_capacity (pv_driver v), cmds (pv_driver v), [], cmd_css (pv_driver v), []) /\
    clients_got v (zip (resp_css (pv_driver v)) (resps (pv_driver v))) cl ev /\
    v' = delivered v d cl ev).
Proof.
  intros Hwf Hlen Hknown. set (l := zip (resp_css (pv_driver v)) (resps (pv_driver v))).
  assert (l.*1 = resp_css (pv_driver v)) as E1 by (apply fst_zip; lia).
  assert (l.*2 = resps (pv_driver v)) as E2 by (apply snd_zip; lia).
  apply (wp_loop (response_inv v l)).
  - exists [], l, (pv_driver v), (pv_clients v), []. split_and!; [done|apply Hwf|by rewrite E1, E2|..].
    + split; [done|]. intros i h Hi Hh. exists h. unfold push_errs. change (addressed v i []) with (@nil spi_resp).
      rewrite take_nil, app_nil_r. split_and!; try done.
      by apply (sv_live v i h Hwf Hi Hh).
    + unfold delivered. rewrite app_nil_r. by destruct v.
  - intros v1. apply response_body_spec; [done|]. rewrite <- E1 in Hknown. by rewrite Forall_fmap in Hknown.
  - intros v1 (taken & rest & d & cl & ev & El & Hd & Hld & Hg & ->) Hstop%negb_false_iff.
    cbn [pv_driver delivered] in Hstop. pose proof (scw_resp _ (sdw_client _ Hd)) as Hdr.
    apply (lens_empty_spec (L := spi_resp_lens)) in Hstop; [|done].
    assert (rest = []) as ->. { injection Hld as _ _ Hr _ _. unfold resps in Hr. rewrite Hstop in Hr. by destruct rest. }
    rewrite app_nil_r in El. subst taken. by exists d, cl, ev.
Qed.

(** An error answer has no chip select to go with it. *)
Lemma process_response_unmatched v :
  spi_driver_wf (pv_driver v) -> resps (pv_driver v) <> [] -> resp_css (pv_driver v) = [] ->
  process_response v = Fault AssertFail.
Proof.
  intros [[_ Hr] _ Hcs] Hne Hnil. unfold process_response.
  assert (spi_resp_queue_empty (pv_driver v) = false) as He.
  { destruct (spi_resp_queue_empty _) eqn:E; [|done]. by apply (lens_empty_spec (L := spi_resp_lens)) in E. }
  apply loop_fault.
  - unfold spi_resp_queue_len. rewrite lens_length_spec by done. unfold resps in Hne. destruct (lens_items _); [done|cbn; lia].
  - by rewrite He.
  - unfold response_body, on_driver, spi_dequeue_resp_cs.
    pose proof (fifo_deq_nil (O := lens_fifo_ops (L := spi_resp_cs_lens)) _ Hcs Hnil) as Hd. cbn in Hd.
    erewrite bind_ok; [|unfold zoom; by rewrite Hd]. done.
Qed.

(** A turn of a client that begins with a bad or an unfinished transaction,
    or with none at all, stops the virtualiser when it next handles responses:
    the answer goes into the response queue of the driver, not of the client,
    and [process_response] fails the assertion that a chip select comes with
    it. *)
Theorem spi_bad_transaction_asserts (v : spi_virt) (c : Z) (h : spi_handle) (cfg : spi_client_config) :
  spi_virt_wf v -> 0 <= c < pv_num_clients v -> pv_clients v !! Z.to_nat c = Some h ->
  pv_config v !! Z.to_nat c = Some cfg -> pv_tx_cached v = false ->
  resps (pv_driver v) = [] -> resp_css (pv_driver v) = [] ->
  match next_tx (cmds h) with Some (t, _) => tx_ok (pc_data_size cfg) t = false | None => True end ->
  (process_request c;; process_response) v = Fault AssertFail.
Proof.
  intros Hwf Hc Hh Hcfg Hca Hr Hrcs Hbad.
  assert (spi_virt_wf (set_pv_cached false v)) as Hwf' by (destruct Hwf; split; done).
  pose proof (request_main_spec _ c h cfg Hwf' Hc Hh Hcfg) as Hm. apply wp_elim in Hm as ([] & v' & E & errs & o & rest & Hs & Hp).
  assert (process_request c v = Ok (tt, v')) as E'.
  { rewrite <- E. unfold process_request. rewrite (bind_ok get _ v v v) by done. rewrite Hca. done. }
  rewrite (bind_ok _ _ _ _ _ E'). assert (errs <> []) as Hne.
  { inversion Hs as [l t r Hn Ho| | |]; subst; try done. by rewrite Hn, Ho in Hbad. }
  destruct Hp as (h' & d' & tx & n & _ & _ & Hd & _ & _ & Hpost). pose proof (sdw_client _ (sv_driver v Hwf)) as Hdw.
  assert (0 < spi_capacity (pv_driver v)) as Hcap by (apply scw_cmd in Hdw as [Hdw _]; by eapply ring_cap_pos).
  cbn [pv_driver set_pv_cached] in Hpost. rewrite Hr, Hrcs in Hpost.
  assert (forall cs css, spi_lists d' = (spi_capacity (pv_driver v), cs, push_errs (spi_capacity (pv_driver v)) [] errs, css, []) ->
    resps d' <> [] /\ resp_css d' = []) as Hd'.
  { intros cs css Hl. injection Hl as _ _ Hr' _ Hrcs'. split; [|done]. rewrite Hr'. unfold push_errs. cbn [app length].
    destruct errs; [done|]. by destruct (Z.to_nat (spi_capacity (pv_driver v) - _)) eqn:?; [lia|]. }
  destruct o as [t| |]; [destruct Hpost as (_ & _ & _ & Hpost); destruct (_ <=? _)|..];
    destruct Hpost as [[? ?]%Hd' ->]; by apply process_response_unmatched.
Qed.

(** ** A system with two clients *)

(** A ring of eight entries, about to wrap. *)
Definition spi_ring_ex {A} (x : A) (l : list A) : ring A :=
  mk_ring (u32 (2 ^ 32 - 2 + Z.of_nat (length l))) (2 ^ 32 - 2) (ring_write (replicate 8 x) 6 l).

Definition spi_cmd_ex (o : Z) (more : bool) : spi_cmd := mk_spi_cmd o o 4 more.
Definition spi_handle_ex (c : list spi_cmd) (r : list spi_resp) (ccs rcs : list Z) : spi_handle :=
  mk_spi_handle (spi_ring_ex (spi_cmd_ex 0 false) c) (spi_ring_ex (mk_spi_resp 0 0) r) (spi_ring_ex 0 ccs) (spi_ring_ex 0 rcs) 3.

(** Client 0 has one bad transaction, client 1 a bad and a good one. *)
Definition spi_virt_ex (driver : spi_handle) : spi_virt :=
  mk_spi_virt 2 0 (replicate 64 (mk_spi_client_config 2 4096 5))
    (<[5%nat := 1]> (<[9%nat := 0]> (replicate 64 (2 ^ 64 - 1)))) driver
    ([spi_handle_ex [spi_cmd_ex 2 false] [] [] [];
      spi_handle_ex [spi_cmd_ex 4095 false; spi_cmd_ex 0 true; spi_cmd_ex 8 false; spi_cmd_ex 16 false] [] [] []]
     ++ replicate 62 (spi_handle_ex [] [] [] []))
    (replicate 4096 (spi_cmd_ex 0 false)) 0 false 0 [].

Lemma spi_ring_ex_wf {A} (x : A) l :
  (length l <= 8)%nat ->
  ring_wf (2 ^ 32) 8 (r_head (spi_ring_ex x l)) (r_tail (spi_ring_ex x l)) (r_buffers (spi_ring_ex x l))
  /\ ring_len (2 ^ 32) (r_head (spi_ring_ex x l)) (r_tail (spi_ring_ex x l)) + 0 <= 8.
Proof.
  intros Hl. unfold spi_ring_ex. cbn [r_head r_tail r_buffers].
  assert (ring_len (2 ^ 32) (2 ^ 32 - 2) (u32 (2 ^ 32 - 2 + Z.of_nat (length l))) = Z.of_nat (length l)) as E.
  { unfold ring_len. uint_lia. }
  rewrite E. split; [split|]; try lia.
  - by exists 536870912.
  - apply u32_range.
  - rewrite ring_write_length, length_replicate by (rewrite length_replicate; lia). done.
Qed.

Lemma spi_handle_ex_wf c r ccs rcs :
  (length c <= 8)%nat -> (length r <= 8)%nat -> (length ccs <= 8)%nat -> (length rcs <= 8)%nat ->
  spi_driver_wf (spi_handle_ex c r ccs rcs).
Proof. intros. split; [split|..]; by apply spi_ring_ex_wf. Qed.

Lemma spi_virt_ex_wf r rcs :
  (length r <= 8)%nat -> (length rcs <= 8)%nat -> spi_virt_wf (spi_virt_ex (spi_handle_ex [] r [] rcs)).
Proof.
  intros. split; cbn [pv_num_clients pv_clients pv_config pv_driver pv_tx pv_tx_len pv_tx_cached spi_virt_ex]; try done.
  - repeat apply Forall_cons_2; try apply Forall_nil_2; (split; [apply spi_handle_ex_wf; cbn; lia|done]).
  - apply spi_handle_ex_wf; (done || cbn; lia).
Qed.

Lemma spi_process_request_correct_witness :
  let v := spi_virt_ex (spi_handle_ex [] [] [] []) in
  wp (process_request 1) v (fun _ v' => spi_virt_wf v') /\
  match process_request 1 v with
  | Ok (_, v') => cmds (pv_driver v') = [spi_cmd_ex 0 true; spi_cmd_ex 8 false] /\ cmd_css (pv_driver v') = [5]
                  /\ resps (pv_driver v') = [mk_spi_resp SPI_STATUS_ERR_CMD_UNALIGNED_OFFSET 0]
                  /\ pv_events v' = [DeferredNotify 0]
  | Fault _ => False
  end.
Proof.
  intros v. split; [|by vm_compute].
  eapply wp_mono; [eapply (spi_process_request_correct v 1)|].
  - apply spi_virt_ex_wf; cbn; lia.
  - done.
  - reflexivity.
  - reflexivity.
  - vm_compute. discriminate.
  - intros _ v' (? & ? & ? & ? & ? & ? & ? & Hwf). exact Hwf.
Defined.

Lemma spi_process_response_correct_witness :
  let v := spi_virt_ex (spi_handle_ex [] [mk_spi_resp 0 2; mk_spi_resp 0 3] [] [5; 9]) in
  wp process_response v (fun _ v' => resps (pv_driver v') = []) /\
  match process_response v with
  | Ok (_, v') => resps <$> take 2 (pv_clients v') = [[mk_spi_resp 0 3]; [mk_spi_resp 0 2]]
                  /\ pv_events v' = [Notify 2; Notify 1]
  | Fault _ => False
  end.
Proof.
  intros v. split; [|by vm_compute].
  eapply wp_mono; [eapply (spi_process_response_correct v)|].
  - apply spi_virt_ex_wf; cbn; lia.
  - reflexivity.
  - change (resp_css (pv_driver v)) with [5; 9].
    repeat apply Forall_cons_2; try apply Forall_nil_2; (split; [lia|eexists; split; [reflexivity|cbn; lia]]).
  - intros _ v' (d & cl & ev & _ & Hl & _ & ->). by injection Hl.
Defined.

Lemma spi_bad_transaction_asserts_witness :
  let v := spi_virt_ex (spi_handle_ex [] [] [] []) in
  (process_request 0;; process_response) v = Fault AssertFail.
Proof.
  intros v. eapply (spi_bad_transaction_asserts v 0).
  - apply spi_virt_ex_wf; cbn; lia.
  - done.
  - reflexivity.
  - reflexivity.
  - reflexivity.
  - reflexivity.
  - reflexivity.
  - by vm_compute.
Defined.
