(* ===== verification/HwRing.v ===== *)
(** * Descriptor rings shared with a network device

    The drivers of drivers/network keep a ring of descriptors per direction,
    with two free-running 32-bit indices.  A descriptor belongs to the device
    while its ownership bit is set; the device writes back a status and clears
    the bit at times of its choosing.  This file holds the state the drivers
    share, the device as their environment, and the reasoning about the loops
    that fill and drain a ring. *)

From S2P Require Import Prelude Ring Fifo NetQueue Microkit.

(** [hw_ring_t] *)
Record hw_ring (D : Type) : Type := mk_hw_ring {
  hr_tail : Z;     (* uint32_t *)
  hr_head : Z;     (* uint32_t *)
  hr_capacity : Z; (* uint32_t *)
  hr_descr : list D;
}.
Arguments mk_hw_ring {D} _ _ _ _.
Arguments hr_tail {D} _.
Arguments hr_head {D} _.
Arguments hr_capacity {D} _.
Arguments hr_descr {D} _.

(** What the drivers' descriptors have in common: [hd_own] is the ownership
    bit, [hd_addr] the address of the buffer, [hd_fits] the addresses that a
    descriptor can hold, and [hd_write_back w d] is [d]
    after the device has written the fields it may write as in [w] and cleared
    the bit. *)
Class HwDesc (D : Type) := {
  hd_own : D -> bool;
  hd_addr : D -> Z;
  hd_fits : Z -> Prop;
  hd_write_back : D -> D -> D;
}.
Class HwDescLaws (D : Type) `{HwDesc D} := {
  hd_write_back_own w d : hd_own (hd_write_back w d) = false;
  hd_write_back_addr w d : hd_addr (hd_write_back w d) = hd_addr d;
}.

Inductive dirn : Type := Rx | Tx.
#[export] Instance dirn_eq_dec : EqDecision dirn.
Proof. solve_decision. Defined.
Definition flip (dir : dirn) : dirn := match dir with Rx => Tx | Tx => Rx end.

(** The globals of a driver.  [es_device] is what the device will do: the
    [n]-th element lists the write-backs that come before the [n]-th time the
    driver looks at a descriptor.  [es_irq] are the values the interrupt
    register will have when it is read; it reads 0 after the last of them. *)
Record eth_state (D : Type) : Type := mk_eth {
  es_rx : hw_ring D;
  es_tx : hw_ring D;
  es_rx_queue : net_queue_handle;
  es_tx_queue : net_queue_handle;
  es_device : list (list (dirn * nat * D));
  es_irq : list Z;
  es_events : list event;
}.
Arguments mk_eth {D} _ _ _ _ _ _ _.
Arguments es_rx {D} _.
Arguments es_tx {D} _.
Arguments es_rx_queue {D} _.
Arguments es_tx_queue {D} _.
Arguments es_device {D} _.
Arguments es_irq {D} _.
Arguments es_events {D} _.

(** Both values of a function of the directions. *)
Lemma both_dirs (P : dirn -> Prop) dir : P dir -> P (flip dir) -> forall dir', P dir'.
Proof. by destruct dir; intros ? ? []. Qed.

Section operations.
Context {D : Type} `{!Inhabited D} `{HwDesc D}.
Implicit Types (r : hw_ring D) (s : eth_state D).

Definition es_ring (dir : dirn) s : hw_ring D := match dir with Rx => es_rx s | Tx => es_tx s end.
Definition es_queue (dir : dirn) s : net_queue_handle := match dir with Rx => es_rx_queue s | Tx => es_tx_queue s end.
Definition set_ring (dir : dirn) r s : eth_state D :=
  match dir with
  | Rx => mk_eth r (es_tx s) (es_rx_queue s) (es_tx_queue s) (es_device s) (es_irq s) (es_events s)
  | Tx => mk_eth (es_rx s) r (es_rx_queue s) (es_tx_queue s) (es_device s) (es_irq s) (es_events s)
  end.
Definition set_queue (dir : dirn) (q : net_queue_handle) s : eth_state D :=
  match dir with
  | Rx => mk_eth (es_rx s) (es_tx s) q (es_tx_queue s) (es_device s) (es_irq s) (es_events s)
  | Tx => mk_eth (es_rx s) (es_tx s) (es_rx_queue s) q (es_device s) (es_irq s) (es_events s)
  end.
Definition set_device l s : eth_state D :=
  mk_eth (es_rx s) (es_tx s) (es_rx_queue s) (es_tx_queue s) l (es_irq s) (es_events s).
Definition set_irq l s : eth_state D :=
  mk_eth (es_rx s) (es_tx s) (es_rx_queue s) (es_tx_queue s) (es_device s) l (es_events s).
Definition set_events l s : eth_state D :=
  mk_eth (es_rx s) (es_tx s) (es_rx_queue s) (es_tx_queue s) (es_device s) (es_irq s) l.

Definition emit (e : event) : M (eth_state D) unit := modify (fun s => set_events (es_events s ++ [e]) s).
Definition on_ring {A} (dir : dirn) (m : M (hw_ring D) A) : M (eth_state D) A := zoom (es_ring dir) (set_ring dir) m.
Definition on_queue {A} (dir : dirn) (m : M net_queue_handle A) : M (eth_state D) A := zoom (es_queue dir) (set_queue dir) m.

Definition hw_ring_full r : bool := u32 (hr_tail r - hr_head r) =? hr_capacity r.
Definition hw_ring_empty r : bool := u32 (hr_tail r - hr_head r) =? 0.

(** The assignments to [ring->descr[idx]], [ring->tail] and [ring->head]. *)
Definition set_slot (idx : Z) (d : D) : M (hw_ring D) unit :=
  r ← get;
  l ← lift (store (hr_descr r) idx d);
  put (mk_hw_ring (hr_tail r) (hr_head r) (hr_capacity r) l).
Definition incr_tail : M (hw_ring D) unit :=
  modify (fun r => mk_hw_ring (u32 (hr_tail r + 1)) (hr_head r) (hr_capacity r) (hr_descr r)).
Definition incr_head : M (hw_ring D) unit :=
  modify (fun r => mk_hw_ring (hr_tail r) (u32 (hr_head r + 1)) (hr_capacity r) (hr_descr r)).

(** One write-back of the device, of a descriptor it owns. *)
Definition write_back s (act : dirn * nat * D) : eth_state D :=
  let '(dir, i, w) := act in
  let r := es_ring dir s in
  match hr_descr r !! i with
  | Some d =>
    if hd_own d
    then set_ring dir (mk_hw_ring (hr_tail r) (hr_head r) (hr_capacity r) (<[i := hd_write_back w d]> (hr_descr r))) s
    else s
  | None => s
  end.
Definition device_runs : M (eth_state D) unit := modify (fun s =>
  match es_device s with
  | [] => s
  | acts :: rest => foldl write_back (set_device rest s) acts
  end).

Definition read_irq : M (eth_state D) Z :=
  s ← get;
  match es_irq s with
  | [] => mret 0
  | e :: l => put (set_irq l s);; mret e
  end.

(** ** The list a ring stands for *)

Definition hw_items r : list D := ring_list (hr_capacity r) (hr_head r) (ring_len (2 ^ 32) (hr_head r) (hr_tail r)) (hr_descr r).
Definition hw_wf r : Prop := ring_wf (2 ^ 32) (hr_capacity r) (hr_head r) (hr_tail r) (hr_descr r).

Lemma hw_items_length r : hw_wf r -> u32 (hr_tail r - hr_head r) = Z.of_nat (length (hw_items r)).
Proof. intros Hwf. symmetry. by eapply ring_contents_length. Qed.

Lemma hw_full_spec r : hw_wf r -> hw_ring_full r = (Z.of_nat (length (hw_items r)) =? hr_capacity r).
Proof. intros. unfold hw_ring_full. by rewrite hw_items_length. Qed.

Lemma hw_empty_spec r : hw_wf r -> hw_ring_empty r = true <-> hw_items r = [].
Proof.
  intros. unfold hw_ring_empty. rewrite hw_items_length, Z.eqb_eq by done.
  destruct (hw_items r); cbn; split; (done || lia).
Qed.

Lemma hw_bounded r : hw_wf r -> Z.of_nat (length (hw_items r)) <= hr_capacity r.
Proof. intros Hwf. rewrite <- hw_items_length by done. by destruct Hwf. Qed.

(** Writing the slot of the tail and advancing it appends. *)
Lemma hw_push r d (Q : unit -> hw_ring D -> Prop) :
  hw_wf r -> Z.of_nat (length (hw_items r)) < hr_capacity r ->
  (forall r', hw_wf r' -> hw_items r' = hw_items r ++ [d] -> hr_capacity r' = hr_capacity r -> hr_head r' = hr_head r ->
     hr_tail r' = u32 (hr_tail r + 1) -> Q tt r') ->
  wp (set_slot (hr_tail r mod hr_capacity r) d;; incr_tail) r Q.
Proof.
  intros Hwf Hroom HQ. unfold set_slot. do 2 wp_step. wp_step. wp_step. eapply wp_lift; [by eapply ring_store_slot|].
  wp_step. unfold incr_tail. wp_step. rewrite <- hw_items_length in Hroom by done.
  apply HQ; try done; cbn; [by apply ring_enq_wf|by apply ring_enq_contents].
Qed.

Lemma hw_pop r d l (Q : unit -> hw_ring D -> Prop) :
  hw_wf r -> hw_items r = d :: l ->
  (forall r', hw_wf r' -> hw_items r' = l -> hr_capacity r' = hr_capacity r -> Q tt r') ->
  wp incr_head r Q.
Proof.
  intros Hwf E HQ. assert (0 < ring_len (2 ^ 32) (hr_head r) (hr_tail r)) as Hpos.
  { change (0 < u32 (hr_tail r - hr_head r)). rewrite hw_items_length, E by done. cbn. lia. }
  unfold incr_head. wp_step. apply HQ; [by apply ring_deq_wf| |done].
  unfold hw_items in E. rewrite (ring_deq_contents _ _ _ _ _ Hwf Hpos) in E. by injection E.
Qed.

(** Appending an entry and dropping the head, in this order also when the ring
    is full. *)
Lemma hw_rotate r d0 d l :
  hw_wf r -> hw_items r = d0 :: l ->
  let r' := mk_hw_ring (u32 (hr_tail r + 1)) (u32 (hr_head r + 1)) (hr_capacity r)
              (<[Z.to_nat (hr_tail r mod hr_capacity r) := d]> (hr_descr r)) in
  hw_wf r' /\ hw_items r' = l ++ [d].
Proof.
  intros Hwf E. cbn zeta.
  pose proof (hw_bounded r Hwf) as Hb. rewrite E in Hb. cbn in Hb.
  assert (wp incr_head r (fun _ r1 => hw_wf r1 /\ hw_items r1 = l)) as H1 by (eapply hw_pop; eauto).
  unfold incr_head, wp, modify in H1. destruct H1 as [Hwf1 E1].
  set (r1 := mk_hw_ring _ _ _ _) in *.
  assert (wp (set_slot (hr_tail r1 mod hr_capacity r1) d;; incr_tail) r1 (fun _ r2 => hw_wf r2 /\ hw_items r2 = l ++ [d])) as H2.
  { apply hw_push; [done|rewrite E1; cbn; lia|]. intros. by rewrite <- E1. }
  unfold wp, set_slot, incr_tail, mbind, M_bind, get, put, modify, lift in H2.
  rewrite (ring_store_slot _ _ _ _ _ Hwf1) in H2. exact H2.
Qed.

Lemma hw_head r d l : hw_wf r -> hw_items r = d :: l -> load (hr_descr r) (hr_head r mod hr_capacity r) = Ok d.
Proof.
  intros Hwf E. assert (0 < ring_len (2 ^ 32) (hr_head r) (hr_tail r)) as Hpos.
  { change (0 < u32 (hr_tail r - hr_head r)). rewrite hw_items_length, E by done. cbn. lia. }
  unfold hw_items in E. rewrite (ring_deq_contents _ _ _ _ _ Hwf Hpos) in E. injection E as <- _.
  by eapply ring_load_slot.
Qed.

End operations.
Arguments hw_items {D _} r : simpl never.
Arguments hw_wf {D} r : simpl never.

(** ** The device *)

Section device.
Context {D : Type} `{!Inhabited D} `{HwDescLaws D}.
Implicit Types (r : hw_ring D) (s : eth_state D).

(** [d'] is [d], perhaps written back. *)
Definition dev_le (d d' : D) : Prop := d' = d \/ (hd_own d = true /\ hd_own d' = false /\ hd_addr d' = hd_addr d).

#[export] Instance dev_le_preorder : PreOrder dev_le.
Proof.
  split; [by left|]. intros d d' d'' [->|(O & O' & A)] [->|(P & P' & B)]; unfold dev_le; try tauto. congruence.
Qed.

Lemma dev_le_addrs l l' : Forall2 dev_le l l' -> hd_addr <$> l' = hd_addr <$> l.
Proof. induction 1 as [|d d' l l' [->|(_ & _ & E)] _ IH]; cbn; [done|..]; by rewrite ?E, IH. Qed.

(** [s'] is [s] after some write-backs. *)
Definition ring_le r r' : Prop :=
  hr_tail r' = hr_tail r /\ hr_head r' = hr_head r /\ hr_capacity r' = hr_capacity r /\ (hw_wf r -> hw_wf r') /\
  Forall2 dev_le (hw_items r) (hw_items r').

Definition state_le s s' : Prop :=
  (forall dir, ring_le (es_ring dir s) (es_ring dir s') /\ es_queue dir s' = es_queue dir s) /\
  es_irq s' = es_irq s /\ es_events s' = es_events s.

#[export] Instance ring_le_preorder : PreOrder ring_le.
Proof.
  split; [intros r; unfold ring_le; by split_and!|]. intros r r' r'' (T & Hd & C & W & I) (T' & Hd' & C' & W' & I').
  split_and!; try congruence; [tauto|by etrans].
Qed.
#[export] Instance state_le_preorder : PreOrder state_le.
Proof.
  split; [intros s; unfold state_le; by split_and!|]. intros s s' s'' (S & I & E) (S' & I' & E').
  split; [|split; congruence]. intros dir. destruct (S dir) as [R Q], (S' dir) as [R' Q']. split; [by etrans|congruence].
Qed.

Lemma ring_write_back r i w d :
  hr_descr r !! i = Some d -> hd_own d = true ->
  ring_le r (mk_hw_ring (hr_tail r) (hr_head r) (hr_capacity r) (<[i := hd_write_back w d]> (hr_descr r))).
Proof.
  intros Hi Ho. split_and!; try done.
  - intros Hw. destruct Hw. split; try done. cbn. by rewrite length_insert.
  - unfold hw_items, ring_list. cbn [hr_capacity hr_head hr_tail hr_descr].
    rewrite Forall2_fmap. apply Forall_Forall2_diag, Forall_forall. intros k _. rewrite !list_lookup_total_alt.
    destruct (decide (Z.to_nat ((hr_head r + k) mod hr_capacity r) = i)) as [->|Hne].
    + rewrite Hi, list_lookup_insert_eq by (by eapply lookup_lt_Some). cbn. right.
      rewrite hd_write_back_own, hd_write_back_addr. done.
    + by rewrite list_lookup_insert_ne by done.
Qed.

Lemma write_back_le s act : state_le s (write_back s act).
Proof.
  destruct act as [[dir i] w]. unfold write_back. destruct (hr_descr (es_ring dir s) !! i) as [d|] eqn:Hi; [|done].
  destruct (hd_own d) eqn:Ho; [|done]. split; [|by destruct dir].
  intros dir'. pose proof (ring_write_back _ _ w _ Hi Ho). by destruct dir, dir'.
Qed.

Lemma write_backs_le acts s : state_le s (foldl write_back s acts).
Proof. revert s. induction acts as [|a acts IH]; intros s; cbn; [done|]. etrans; [apply (write_back_le s a)|apply IH]. Qed.

Lemma device_runs_spec s (Q : unit -> eth_state D -> Prop) :
  (forall s', state_le s s' -> Q tt s') -> wp device_runs s Q.
Proof.
  intros HQ. unfold device_runs. wp_step. apply HQ. destruct (es_device s) as [|acts rest]; [done|].
  trans (set_device rest s); [by split; [intros []|]|apply write_backs_le].
Qed.

(** Each write-back completes at most one entry of a ring. *)
Definition done_count r : nat := length (filter (fun d => hd_own d = false) (hw_items r)).
Definition write_backs_left s : nat := length (concat (es_device s)).

Lemma filter_insert_le {A} (P : A -> Prop) `{forall x, Decision (P x)} (l : list A) (i : nat) (x : A) :
  (length (filter P (<[i := x]> l)) <= S (length (filter P l)))%nat.
Proof.
  revert i. induction l as [|y l IH]; intros i; [destruct i; cbn; lia|].
  destruct i as [|i].
  - change (<[0%nat := x]> (y :: l)) with (x :: l). rewrite !filter_cons. repeat case_decide; cbn; lia.
  - change (<[S i := x]> (y :: l)) with (y :: <[i := x]> l). specialize (IH i). rewrite !filter_cons. case_decide; cbn; lia.
Qed.

Lemma write_back_count dir s act :
  hw_wf (es_ring dir s) -> (done_count (es_ring dir (write_back s act)) <= S (done_count (es_ring dir s)))%nat.
Proof.
  intros Hwf. destruct act as [[dir' i] w]. unfold write_back. destruct (hr_descr (es_ring dir' s) !! i) as [d|] eqn:Hi; [|lia].
  destruct (hd_own d); [|lia].
  destruct (decide (dir' = dir)) as [->|Hne]; [|destruct dir, dir'; cbn; done || lia].
  replace (es_ring dir (set_ring dir _ s)) with (mk_hw_ring (hr_tail (es_ring dir s)) (hr_head (es_ring dir s)) (hr_capacity (es_ring dir s))
    (<[i := hd_write_back w d]> (hr_descr (es_ring dir s)))) by by destruct dir.
  unfold done_count, hw_items. cbn [hr_capacity hr_head hr_tail hr_descr]. destruct Hwf.
  destruct (ring_list_insert (hr_capacity (es_ring dir s)) (hr_head (es_ring dir s))
    (ring_len (2 ^ 32) (hr_head (es_ring dir s)) (hr_tail (es_ring dir s))) (hr_descr (es_ring dir s)) i (hd_write_back w d)) as [k ->];
    [done..|by eapply lookup_lt_Some|]. apply filter_insert_le.
Qed.

Lemma write_backs_count dir acts s :
  hw_wf (es_ring dir s) -> (done_count (es_ring dir (foldl write_back s acts)) <= done_count (es_ring dir s) + length acts)%nat.
Proof.
  revert s. induction acts as [|a acts IH]; intros s Hwf; cbn; [lia|]. pose proof (write_back_count dir s a Hwf).
  specialize (IH (write_back s a)). destruct (write_back_le s a) as [Hd _]. destruct (Hd dir) as [(_ & _ & _ & Hw & _) _].
  specialize (IH (Hw Hwf)). lia.
Qed.

Lemma write_backs_device acts s : es_device (foldl write_back s acts) = es_device s.
Proof.
  revert s. induction acts as [|[[dir i] w] acts IH]; intros s; cbn; [done|]. rewrite IH.
  destruct (hr_descr (es_ring dir s) !! i) as [d|]; [|done]. destruct (hd_own d); by destruct dir.
Qed.

Lemma device_runs_count s dir (Q : unit -> eth_state D -> Prop) :
  hw_wf (es_ring dir s) ->
  (forall s', state_le s s' ->
     (done_count (es_ring dir s') + write_backs_left s' <= done_count (es_ring dir s) + write_backs_left s)%nat -> Q tt s') ->
  wp device_runs s Q.
Proof.
  intros Hwf HQ.
  assert (wp device_runs s (fun _ s' => state_le s s')) as H1 by (apply device_runs_spec; auto).
  unfold device_runs in *. unfold wp, modify in H1 |- *. apply HQ; [done|]. unfold write_backs_left.
  destruct (es_device s) as [|acts rest] eqn:E; [by rewrite E; lia|]. rewrite write_backs_device. cbn [es_device set_device concat].
  pose proof (write_backs_count dir acts (set_device rest s)) as Hcnt. rewrite length_app.
  replace (es_ring dir (set_device rest s)) with (es_ring dir s) in Hcnt by by destruct dir. specialize (Hcnt Hwf). lia.
Qed.

End device.

(** ** The loops of a driver

    A driver fills the ring of a direction from one side of its queue, the
    input, and drains it into the other, the output. *)

Definition side_in (dir : dirn) : side := match dir with Rx => Free | Tx => Active end.
Definition side_out (dir : dirn) : side := other (side_in dir).

Section loops.
Context {D : Type} `{!Inhabited D} `{HwDescLaws D}.
Context (dir : dirn).
Implicit Types (r : hw_ring D) (s : eth_state D).

#[local] Abbreviation ring s := (es_ring dir s).
#[local] Abbreviation queue s := (es_queue dir s).
#[local] Abbreviation inq s := (net_items (side_in dir) (queue s)).
#[local] Abbreviation outq s := (net_items (side_out dir) (queue s)).

#[local] Abbreviation sig_in s := (nq_consumer_signalled (nh_ring (side_in dir) (queue s))).
#[local] Abbreviation sig_out s := (nq_consumer_signalled (nh_ring (side_out dir) (queue s))).

(** [s'] differs from [s] at most in this direction, and by what the device
    does to the other. *)
Definition other_le s s' : Prop :=
  ring_le (es_ring (flip dir) s) (es_ring (flip dir) s') /\ es_queue (flip dir) s' = es_queue (flip dir) s /\ es_irq s' = es_irq s.

#[export] Instance other_le_preorder : PreOrder other_le.
Proof.
  split; [intros s; unfold other_le; by split_and!|]. intros s s' s'' (S & I & E) (S' & I' & E').
  split; [by etrans|split; congruence].
Qed.

Lemma state_le_other s s' : state_le s s' -> other_le s s'.
Proof. intros (S & I & E). destruct (S (flip dir)). by split_and!. Qed.

(** One side of the queue and the ring are well formed. *)
Definition dir_wf s : Prop :=
  hw_wf (ring s) /\ net_wf Free (queue s) /\ net_wf Active (queue s).

Lemma dir_wf_queue s : dir_wf s -> net_wf (side_in dir) (queue s) /\ net_wf (side_out dir) (queue s).
Proof. intros (_ & ? & ?). by destruct dir. Qed.

Definition can_provide s : bool := negb (hw_ring_full (ring s)) && negb (net_queue_empty (side_in dir) (queue s)).
Definition provide_bound s : nat := Z.to_nat (net_queue_length (nh_ring (side_in dir) (queue s))).

(** *** The accesses of one round *)

(** Taking a buffer from the input and writing it into the ring. *)
Lemma take_next s b l (Q : option net_buff_desc -> eth_state D -> Prop) :
  dir_wf s -> inq s = b :: l -> Z.of_nat (length (hw_items (ring s))) < hr_capacity (ring s) ->
  (forall s1, es_ring dir s1 = es_ring dir s ->
     (forall d (Q' : unit -> eth_state D -> Prop),
        (forall s', other_le s s' -> dir_wf s' -> hw_items (ring s') = hw_items (ring s) ++ [d] ->
           hr_capacity (ring s') = hr_capacity (ring s) -> hr_tail (ring s') = u32 (hr_tail (ring s) + 1) ->
           inq s' = l -> outq s' = outq s -> nh_capacity (queue s') = nh_capacity (queue s) ->
           sig_out s' = sig_out s -> es_events s' = es_events s -> Q' tt s') ->
        wp (on_ring dir (set_slot (hr_tail (ring s) mod hr_capacity (ring s)) d;; incr_tail)) s1 Q') ->
     Q (Some b) s1) ->
  wp (on_queue dir (net_dequeue (side_in dir))) s Q.
Proof.
  intros Hwf Hb Hroom HQ. pose proof (dir_wf_queue s Hwf) as [Hi _]. destruct Hwf as (Hr & Hf & Ha).
  unfold on_queue. wp_step. eapply net_dequeue_spec; [done|exact Hb|]. intros q' Hq' Hi' Hc' Hrest'.
  destruct (net_rest_other _ _ _ Hrest' Hc') as [Hwo Hio]. injection Hrest' as Ho _.
  apply HQ; [by destruct dir|]. intros d Q' HQ'. unfold on_ring. wp_step.
  replace (es_ring dir (set_queue dir q' s)) with (ring s) by by destruct dir.
  apply hw_push; [done|done|]. intros r' Hr' Hir' Hcr' Hhr' Htr'.
  apply HQ'; unfold dir_wf, other_le, side_out in *; destruct dir; cbn in *; try (done || congruence); split_and!; first [done|by apply Hwo].
Qed.

(** What the driver finds at the head after the device has run. *)
Lemma find_head s s1 d l :
  dir_wf s -> hw_items (ring s) = d :: l -> state_le s s1 ->
  exists d' l', Forall2 dev_le (d :: l) (d' :: l') /\ hw_items (ring s1) = d' :: l' /\ dir_wf s1 /\
    load (hr_descr (ring s1)) (hr_head (ring s) mod hr_capacity (ring s)) = Ok d' /\
    hr_capacity (ring s1) = hr_capacity (ring s) /\ queue s1 = queue s /\ es_events s1 = es_events s /\ other_le s s1.
Proof.
  intros (Hr & Hf & Ha) Hd Hle. pose proof (state_le_other _ _ Hle) as Hoth. destruct Hle as (Hdir & _ & Hev).
  destruct (Hdir dir) as [(Et & Eh & Ec & Hw & Hit) Eq]. specialize (Hw Hr). rewrite Hd in Hit.
  destruct (hw_items (ring s1)) as [|d' l'] eqn:E; [by inversion Hit|]. exists d', l'.
  split_and!; try done; [unfold dir_wf; by rewrite Eq|]. rewrite <- Eh, <- Ec. by eapply hw_head.
Qed.

(** Handing the head of the ring on. *)
Lemma hand_on s d l b (Q : Z -> eth_state D -> Prop) :
  dir_wf s -> hw_items (ring s) = d :: l -> Z.of_nat (length (outq s)) < nh_capacity (queue s) ->
  (forall s1, (forall Q' : unit -> eth_state D -> Prop,
      (forall s', other_le s s' -> dir_wf s' -> hw_items (ring s') = l -> hr_capacity (ring s') = hr_capacity (ring s) ->
         outq s' = outq s ++ [b] -> inq s' = inq s -> nh_capacity (queue s') = nh_capacity (queue s) ->
         sig_in s' = sig_in s -> sig_out s' = sig_out s -> es_events s' = es_events s -> es_device s' = es_device s -> Q' tt s') ->
      wp (on_ring dir incr_head) s1 Q') -> Q 0 s1) ->
  wp (on_queue dir (net_enqueue (side_out dir) b)) s Q.
Proof.
  intros Hwf Hd Hroom HQ. pose proof (dir_wf_queue s Hwf) as [_ Ho]. destruct Hwf as (Hr & Hf & Ha).
  unfold on_queue. wp_step. apply net_enqueue_spec; [done|done|]. intros q' Hq' Hi' Hc' Hrest'.
  destruct (net_rest_other _ _ _ Hrest' Hc') as [Hwo Hio]. injection Hrest' as Ho' Hs'.
  apply HQ. intros Q' HQ'. unfold on_ring. wp_step.
  replace (es_ring dir (set_queue dir q' s)) with (ring s) by by destruct dir.
  eapply hw_pop; [done|exact Hd|]. intros r' Hr' Hir' Hcr'.
  apply HQ'; unfold dir_wf, other_le, side_out in *; destruct dir; cbn in *; try (done || congruence); split_and!; first [done|by apply Hwo].
Qed.

(** *** Filling *)

Section provide.
(** [mk cap b idx]: the descriptor a driver writes for [b] into slot [idx] of
    a ring of capacity [cap]; [kick cap t]: the register writes that follow,
    when the tail was [t]. *)
Context (mk : Z -> net_buff_desc -> Z -> D) (kick : Z -> Z -> list event) (body : M (eth_state D) unit).

(** The register writes of [k] rounds. *)
Fixpoint kicks (cap t : Z) (k : nat) : list event :=
  match k with O => [] | S k' => kicks cap t k' ++ kick cap (u32 (t + Z.of_nat k')) end.

(** [k] buffers have moved from the input into the ring. *)
Definition provided (s s' : eth_state D) (k : nat) : Prop :=
  other_le s s' /\ dir_wf s' /\ (k <= length (inq s))%nat /\
  hw_items (ring s') = hw_items (ring s) ++ imap (fun i b => mk (hr_capacity (ring s)) b ((hr_tail (ring s) + Z.of_nat i) mod hr_capacity (ring s))) (take k (inq s)) /\
  hr_capacity (ring s') = hr_capacity (ring s) /\
  hr_tail (ring s') = u32 (hr_tail (ring s) + Z.of_nat k) /\
  inq s' = drop k (inq s) /\ outq s' = outq s /\ nh_capacity (queue s') = nh_capacity (queue s) /\
  sig_out s' = sig_out s /\ es_events s' = es_events s ++ kicks (hr_capacity (ring s)) (hr_tail (ring s)) k.

(** What one round does. *)
Definition provides_one : Prop :=
  forall s b l (Q : unit -> eth_state D -> Prop), dir_wf s -> inq s = b :: l ->
    Z.of_nat (length (hw_items (ring s))) < hr_capacity (ring s) ->
    (forall s', other_le s s' -> dir_wf s' ->
       hw_items (ring s') = hw_items (ring s) ++ [mk (hr_capacity (ring s)) b (hr_tail (ring s) mod hr_capacity (ring s))] ->
       hr_capacity (ring s') = hr_capacity (ring s) -> hr_tail (ring s') = u32 (hr_tail (ring s) + 1) ->
       inq s' = l -> outq s' = outq s -> nh_capacity (queue s') = nh_capacity (queue s) ->
       sig_out s' = sig_out s -> es_events s' = es_events s ++ kick (hr_capacity (ring s)) (hr_tail (ring s)) -> Q tt s') ->
    wp body s Q.

Lemma can_provide_spec s :
  dir_wf s -> can_provide s = true <->
  Z.of_nat (length (hw_items (ring s))) <> hr_capacity (ring s) /\ inq s <> [].
Proof.
  intros (Hr & Hf & Ha). unfold can_provide. rewrite andb_true_iff, !negb_true_iff, hw_full_spec, Z.eqb_neq by done.
  pose proof (dir_wf_queue s (conj Hr (conj Hf Ha))) as [Hi _]. pose proof (net_empty_spec _ _ Hi) as He.
  destruct (net_queue_empty _ _); intuition congruence.
Qed.

Lemma provide_loop s (Q : unit -> eth_state D -> Prop) :
  provides_one -> dir_wf s ->
  (forall s' k, provided s s' k -> can_provide s' = false -> Q tt s') ->
  wp (loop provide_bound can_provide body) s Q.
Proof.
  intros Hbody Hwf HQ. apply (wp_loop (fun s' => exists k, provided s s' k)).
  - exists 0%nat. split_and!; try done; [lia|by rewrite app_nil_r| |by rewrite app_nil_r]. rewrite Z.add_0_r.
    destruct Hwf as [[] _]. by rewrite u32_small.
  - intros s1 (k & Ho & Hwf1 & Hk & Hi & Hc & Ht & Hin & Hout & Hcap & Hsig & Hev) Hgo.
    apply can_provide_spec in Hgo as [Hroom Hne]; [|done]. destruct (inq s1) as [|b l] eqn:E1; [done|].
    pose proof (hw_bounded _ (proj1 Hwf1)).
    eapply Hbody; [done|exact E1|lia|]. intros s2 Ho2 Hwf2 Hi2 Hc2 Ht2 Hin2 Hout2 Hcap2 Hsig2 Hev2.
    assert (inq s !! k = Some b) as Hb.
    { rewrite <- (Nat.add_0_r k), <- lookup_drop, <- Hin. done. }
    pose proof (lookup_lt_Some _ _ _ Hb). split.
    + exists (S k). split_and!; try congruence; [by etrans|lia| | | |].
      * rewrite Hi2, Hi, (take_S_r _ _ b) by done. rewrite imap_app, <- app_assoc. cbn. rewrite Hc. do 3 f_equal.
        rewrite length_take, Nat.add_0_r, Nat.min_l by lia. f_equal. rewrite Ht. destruct Hwf as [[] _].
        unfold u32. by rewrite mod_mod_divide.
      * rewrite Ht2, Ht. unfold u32. rewrite Zplus_mod_idemp_l. f_equal. lia.
      * rewrite Hin2. rewrite (drop_S _ b) in Hin by done. by injection Hin.
      * rewrite Hev2, Hev, <- app_assoc. cbn [kicks]. by rewrite Hc, Ht.
    + unfold provide_bound. rewrite !net_length_spec by (by apply dir_wf_queue).
      rewrite Hin2, E1. cbn. lia.
  - intros s' (k & Hp) Hstop. eauto.
Qed.

(** Asking for a signal or cancelling the request. *)
Lemma provided_signal s s' k b :
  provided s s' k -> provided s (set_queue dir (net_set_signalled (side_in dir) b (queue s')) s') k.
Proof. unfold provided, dir_wf, other_le. intros H'. destruct_and! H'. split_and!; by destruct dir. Qed.

Lemma can_provide_signal s b :
  can_provide (set_queue dir (net_set_signalled (side_in dir) b (queue s)) s) = can_provide s.
Proof. unfold can_provide. destruct dir; reflexivity. Qed.

End provide.

(** *** Draining *)

Section return_.
(** [buf d]: what a driver hands on for a descriptor that the device is done
    with. *)
Context (buf : D -> net_buff_desc) (body : M (eth_state D * (bool * bool)) unit).

(** The descriptors [taken] have left the ring for the output. *)
Definition returned (s s' : eth_state D) (taken : list D) : Prop :=
  other_le s s' /\ dir_wf s' /\
  Forall2 dev_le (hw_items (ring s)) (taken ++ hw_items (ring s')) /\ Forall (fun d => hd_own d = false) taken /\
  hr_capacity (ring s') = hr_capacity (ring s) /\
  outq s' = outq s ++ (buf <$> taken) /\ inq s' = inq s /\ nh_capacity (queue s') = nh_capacity (queue s) /\
  sig_in s' = sig_in s /\ sig_out s' = sig_out s /\ es_events s' = es_events s.

(** What one round does, after the device has run. *)
Definition returns_one : Prop :=
  forall s flag d l (Q : unit -> eth_state D * (bool * bool) -> Prop), dir_wf s -> hw_items (ring s) = d :: l ->
    Z.of_nat (length (outq s)) < nh_capacity (queue s) ->
    (forall s' d' l', other_le s s' -> dir_wf s' -> Forall2 dev_le (d :: l) (d' :: l') ->
       hr_capacity (ring s') = hr_capacity (ring s) ->
       hw_items (ring s') = (if hd_own d' then d' :: l' else l') ->
       outq s' = outq s ++ (if hd_own d' then [] else [buf d']) -> inq s' = inq s ->
       nh_capacity (queue s') = nh_capacity (queue s) ->
       sig_in s' = sig_in s -> sig_out s' = sig_out s -> es_events s' = es_events s ->
       Q tt (s', (if hd_own d' then flag else true, hd_own d'))) ->
    wp body (s, (flag, false)) Q.

Definition can_return (p : eth_state D * (bool * bool)) : bool := negb (hw_ring_empty (ring p.1)) && negb p.2.2.
Definition return_bound (p : eth_state D * (bool * bool)) : nat :=
  S (Z.to_nat (u32 (hr_tail (ring p.1) - hr_head (ring p.1)))).

Definition any_taken {A} (l : list A) : bool := match l with [] => false | _ => true end.

(** The loop stops at a descriptor that the device still owns. *)
Lemma return_loop s (Q : unit -> eth_state D * (bool * bool) -> Prop) :
  returns_one -> dir_wf s ->
  Z.of_nat (length (outq s) + length (hw_items (ring s))) <= nh_capacity (queue s) ->
  (forall s' taken broke, returned s s' taken -> Forall (fun d => hd_own d = true) (take 1 (hw_items (ring s'))) ->
     Q tt (s', (any_taken taken, broke))) ->
  wp (loop return_bound can_return body) (s, (false, false)) Q.
Proof.
  intros Hbody Hwf Hroom HQ.
  apply (wp_loop_le (fun p => exists taken, returned s p.1 taken /\ p.2.1 = any_taken taken /\
           (p.2.2 = true -> Forall (fun d => hd_own d = true) (take 1 (hw_items (ring p.1)))))
         (fun p => (length (hw_items (ring p.1)) + if p.2.2 then 0 else 1)%nat)).
  - exists []. unfold returned. cbn [app fmap list_fmap]. rewrite app_nil_r. split_and!; (done || by apply Forall_nil_2).
  - unfold return_bound. cbn [fst snd]. rewrite hw_items_length by apply Hwf. lia.
  - intros [s1 [flag broke]] (taken & (Ho & Hwf1 & Hle & Hdone & Hc & Hout & Hin & Hcap & Hsi & Hso & Hev) & Hflag & _) Hgo.
    unfold can_return in Hgo. cbn [fst snd] in *. apply andb_true_iff in Hgo as [Hne%negb_true_iff Hb%negb_true_iff].
    subst broke flag. destruct (hw_items (ring s1)) as [|d l] eqn:E1.
    { pose proof (proj2 (hw_empty_spec _ (proj1 Hwf1)) E1). congruence. }
    pose proof (Forall2_length _ _ _ Hle) as Hlen. rewrite length_app in Hlen. cbn in Hlen.
    eapply Hbody; [done|exact E1|rewrite Hout, Hcap, length_app, length_fmap; lia|].
    intros s2 d' l' Ho2 Hwf2 Hle2 Hc2 Hi2 Hout2 Hin2 Hcap2 Hsi2 Hso2 Hev2.
    assert (Forall2 dev_le (hw_items (ring s)) (taken ++ d' :: l')) as Hle'.
    { trans (taken ++ d :: l); [done|]. by apply Forall2_app. }
    pose proof (Forall2_length _ _ _ Hle2) as Hlen2. cbn in Hlen2. cbn [fst snd]. rewrite Hi2.
    destruct (hd_own d') eqn:Eo; rewrite ?app_nil_r in *.
    + split; [|cbn; lia]. exists taken. split_and!; [|done|by intros _; apply Forall_singleton].
      split_and!; try congruence. by etrans.
    + split; [|cbn; lia]. exists (taken ++ [d']). split_and!; [|by destruct taken|done].
      split_and!; try congruence; [by etrans| | |].
      * by rewrite Hi2, <- app_assoc.
      * apply Forall_app. split; [done|]. by apply Forall_singleton.
      * by rewrite Hout2, Hout, fmap_app, app_assoc.
  - intros [s1 [flag broke]] (taken & Hr & Hflag & Hbr) Hstop. cbn [fst snd] in *. subst flag. apply HQ; [done|].
    unfold can_return in Hstop. cbn [fst snd] in Hstop. apply andb_false_iff in Hstop as [He%negb_false_iff|Hb%negb_false_iff].
    + apply hw_empty_spec in He; [|apply Hr]. rewrite He. by apply Forall_nil_2.
    + auto.
Qed.

End return_.

(** ** Where the buffers are *)

(** The addresses of a direction, from the next one to leave to the last one
    to come: output, ring, input. *)
Definition buffer_seq s : list Z :=
  (io_or_offset <$> outq s) ++ (hd_addr <$> hw_items (ring s)) ++ (io_or_offset <$> inq s).

(** All buffers of a direction fit in either side of its queue, and their
    addresses fit a descriptor. *)
Record eth_dir_wf s : Prop := {
  ed_wf : dir_wf s;
  ed_room : Z.of_nat (length (buffer_seq s)) <= nh_capacity (queue s);
  ed_addrs : Forall hd_fits (buffer_seq s);
}.

Lemma ed_return_room s : eth_dir_wf s -> Z.of_nat (length (outq s) + length (hw_items (ring s))) <= nh_capacity (queue s).
Proof. intros [_ Hr _]. unfold buffer_seq in Hr. rewrite !length_app, !length_fmap in Hr. lia. Qed.

Lemma seq_wf s s' :
  dir_wf s' -> buffer_seq s' ≡ₚ buffer_seq s -> nh_capacity (queue s') = nh_capacity (queue s) ->
  eth_dir_wf s -> eth_dir_wf s'.
Proof. intros Hw Hs Hc [_ Hr Ha]. split; [done|by rewrite Hs, Hc|by rewrite Hs]. Qed.

Lemma provided_seq mk kick s s' k :
  (forall cap b i, hd_fits (io_or_offset b) -> hd_addr (mk cap b i) = io_or_offset b) ->
  provided mk kick s s' k -> eth_dir_wf s -> buffer_seq s' = buffer_seq s /\ eth_dir_wf s'.
Proof.
  intros Hmk (_ & Hw & Hk & Hi & _ & _ & Hin & Hout & Hcap & _) Hwf.
  assert (buffer_seq s' = buffer_seq s) as Hs.
  { unfold buffer_seq. rewrite Hi, Hin, Hout, fmap_app, fmap_imap. f_equal. rewrite <- app_assoc. f_equal.
    rewrite <- (take_drop k (inq s)) at 3. rewrite fmap_app. f_equal.
    rewrite (imap_ext _ (const io_or_offset)); [apply imap_const|]. intros i b Hb. cbn. apply Hmk.
    pose proof (ed_addrs s Hwf) as Ha. unfold buffer_seq in Ha. rewrite !Forall_app, !Forall_fmap in Ha.
    destruct Ha as (_ & _ & Ha). apply (Forall_lookup_1 _ _ i b Ha). eapply lookup_take_Some in Hb. apply Hb. }
  split; [done|]. apply (seq_wf s); [done|by rewrite Hs|done..].
Qed.

Lemma returned_seq buf s s' taken :
  (forall d, io_or_offset (buf d) = hd_addr d) ->
  returned buf s s' taken -> eth_dir_wf s -> buffer_seq s' = buffer_seq s /\ eth_dir_wf s'.
Proof.
  intros Hbuf (_ & Hw & Hle & _ & _ & Hout & Hin & Hcap & _) Hwf.
  assert (buffer_seq s' = buffer_seq s) as Hs.
  { unfold buffer_seq. rewrite Hout, Hin, fmap_app, <- (dev_le_addrs _ _ Hle), fmap_app, <- !app_assoc. f_equal. f_equal.
    rewrite <- list_fmap_compose. apply list_fmap_ext. intros. apply Hbuf. }
  split; [done|]. apply (seq_wf s); [done|by rewrite Hs|done..].
Qed.
End loops.

(** ** Both directions together *)

Section conservation.
Context {D : Type} `{!Inhabited D} `{HwDescLaws D}.
Implicit Types (s : eth_state D).

Definition eth_wf s : Prop := forall dir, eth_dir_wf dir s.

(** No buffer is lost, duplicated or overtaken by another of its direction. *)
Definition conserves s s' : Prop := eth_wf s' /\ forall dir, buffer_seq dir s' = buffer_seq dir s.

Lemma conserves_trans s s' s'' : conserves s s' -> conserves s' s'' -> conserves s s''.
Proof. intros [_ E] [W E']. split; [done|]. intros dir. by rewrite E', E. Qed.

Lemma conserves_refl s : eth_wf s -> conserves s s.
Proof. by split. Qed.

Lemma other_le_wf dir s s' :
  other_le dir s s' -> eth_dir_wf (flip dir) s ->
  eth_dir_wf (flip dir) s' /\ buffer_seq (flip dir) s' = buffer_seq (flip dir) s.
Proof.
  intros ((_ & _ & _ & Hw & Hl) & Hq & _) [(Hr & Hf & Ha) Hroom Haddr].
  assert (buffer_seq (flip dir) s' = buffer_seq (flip dir) s) as Hs.
  { unfold buffer_seq. by rewrite Hq, (dev_le_addrs _ _ Hl). }
  split; [|done]. split; [split_and!; rewrite ?Hq; auto|by rewrite Hs, Hq|by rewrite Hs].
Qed.

Lemma conserves_intro dir s s' :
  eth_wf s -> other_le dir s s' -> eth_dir_wf dir s' -> buffer_seq dir s' = buffer_seq dir s -> conserves s s'.
Proof.
  intros Hwf Ho Hw Hs. destruct (other_le_wf dir s s' Ho (Hwf _)) as [Hw' Hs']. split.
  - intros d. by apply (both_dirs (fun dir => eth_dir_wf dir s') dir).
  - intros d. by apply (both_dirs (fun d => buffer_seq d s' = buffer_seq d s) dir).
Qed.

(** Signals and events are not among the buffers. *)
Definition with_signal (dir : dirn) (sd : side) (b : Z) s : eth_state D :=
  set_queue dir (net_set_signalled sd b (es_queue dir s)) s.

(** The notification after a drain that handed something on. *)
Definition signal_done (dir : dirn) (ch : Z) (any : bool) s : eth_state D :=
  if any && net_require_signal (side_out dir) (es_queue dir s)
  then set_events (es_events s ++ [Notify ch]) (with_signal dir (side_out dir) 1 s) else s.

Lemma with_signal_wf dir sd b dir' s : eth_dir_wf dir' s -> eth_dir_wf dir' (with_signal dir sd b s).
Proof.
  intros [(Hr & Hf & Ha) Hroom Haddr]. unfold with_signal in *.
  destruct dir, dir', sd; (split; [split_and!|..]); assumption.
Qed.

Lemma with_signal_seq dir sd b dir' s : buffer_seq dir' (with_signal dir sd b s) = buffer_seq dir' s.
Proof. by destruct dir, dir', sd. Qed.

Lemma conserves_signal dir sd b s s' : conserves s s' -> conserves s (with_signal dir sd b s').
Proof. intros [W E]. split; intros dir'; [by apply with_signal_wf|by rewrite with_signal_seq]. Qed.

Lemma conserves_events ev s s' : conserves s s' -> conserves s (set_events ev s').
Proof. intros [W E]. split; intros dir'; [destruct (W dir'); by destruct dir'|by rewrite <- E; destruct dir']. Qed.

Lemma signal_done_conserves dir ch any s s' : conserves s s' -> conserves s (signal_done dir ch any s').
Proof. intros. unfold signal_done. destruct (_ && _); [|done]. by apply conserves_events, conserves_signal. Qed.

(** The end of [rx_return] and of [tx_return]. *)
Lemma signal_rx_spec ch any s (Q : unit -> eth_state D -> Prop) :
  Q tt (signal_done Rx ch any s) ->
  wp (s ← get; when (any && net_require_signal_active (es_rx_queue s)) (on_queue Rx net_cancel_signal_active;; emit (Notify ch))) s Q.
Proof.
  unfold signal_done. cbn [side_out side_in other es_queue]. intros HQ. do 2 wp_step. unfold net_require_signal_active.
  destruct (any && _); [|done]. cbn [when]. unfold on_queue, emit, net_cancel_signal_active. do 4 wp_step. exact HQ.
Qed.
Lemma signal_tx_spec ch any s (Q : unit -> eth_state D -> Prop) :
  Q tt (signal_done Tx ch any s) ->
  wp (s ← get; when (any && net_require_signal_free (es_tx_queue s)) (on_queue Tx net_cancel_signal_free;; emit (Notify ch))) s Q.
Proof.
  unfold signal_done. cbn [side_out side_in other es_queue]. intros HQ. do 2 wp_step. unfold net_require_signal_free.
  destruct (any && _); [|done]. cbn [when]. unfold on_queue, emit, net_cancel_signal_free. do 4 wp_step. exact HQ.
Qed.

Lemma conserves_irq l s s' : conserves s s' -> conserves s (set_irq l s').
Proof. intros [W E]. split; intros dir'; [destruct (W dir'); by destruct dir'|by rewrite <- E; destruct dir']. Qed.

End conservation.
