(* ===== verification/HwRecycle.v ===== *)
(** * Descriptor rings whose bad frames go back to the device

    The Meson and the DesignWare drivers hand on the received frames without an
    error and give the others to the device again: while the driver drains the
    ring it also fills it, and the device may complete such a descriptor once
    more before the drain is over.  This file holds what the two drivers have in
    common beyond HwRing: the loop that drains the receive ring, the loops that
    fill both rings, what every operation keeps, and the interrupt loop. *)

From S2P Require Import Prelude Ring Fifo NetQueue Microkit HwRing.

(** ** Draining the receive ring *)

Section recycle.
Context {D : Type} `{!Inhabited D} `{HwDescLaws D}.
(** [has_error]: the status of a frame reports an error; [rx_buf]: what the
    driver hands on for one that does not; [is_kick]: the register writes that
    tell the device of a descriptor given back. *)
Context (has_error : D -> bool) (rx_buf : D -> net_buff_desc) (is_kick : event -> Prop).
Implicit Types s : eth_state D.

#[local] Abbreviation rx_items s := (hw_items (es_rx s)).
#[local] Abbreviation rx_out s := (net_items Active (es_rx_queue s)).

(** The frames [good] have been handed on, those with errors are back in the
    ring. *)
Record rx_moved s s' (good : list D) : Prop := {
  rm_other : other_le Rx s s';
  rm_wf : dir_wf Rx s';
  rm_good : Forall (fun d => hd_own d = false /\ has_error d = false) good;
  rm_out : rx_out s' = rx_out s ++ (rx_buf <$> good);
  rm_addrs : (hd_addr <$> good) ++ (hd_addr <$> rx_items s') ≡ₚ hd_addr <$> rx_items s;
  rm_in : net_items Free (es_rx_queue s') = net_items Free (es_rx_queue s);
  rm_cap : nh_capacity (es_rx_queue s') = nh_capacity (es_rx_queue s);
  rm_flags : nq_consumer_signalled (nh_free (es_rx_queue s')) = nq_consumer_signalled (nh_free (es_rx_queue s)) /\
             nq_consumer_signalled (nh_active (es_rx_queue s')) = nq_consumer_signalled (nh_active (es_rx_queue s));
  rm_events : exists evs, es_events s' = es_events s ++ evs /\ Forall is_kick evs;
}.

(** The rounds that are left at most: each takes a completed descriptor. *)
Definition rx_work s : nat := (done_count (es_rx s) + write_backs_left s)%nat.

Definition rx_step s (flag : bool) (p : eth_state D * (bool * bool)) : Prop := exists good,
  rx_moved s p.1 good /\ p.2.1 = flag || any_taken good /\
  if p.2.2 then Forall (fun d => hd_own d = true) (take 1 (rx_items p.1)) /\ (rx_work p.1 <= rx_work s)%nat
  else (rx_work p.1 < rx_work s)%nat.

(** What a round finds when it looks at the head of the ring. *)
Record rx_found s s1 (d : D) (l : list D) : Prop := {
  rf_other : other_le Rx s s1;
  rf_wf : dir_wf Rx s1;
  rf_items : rx_items s1 = d :: l;
  rf_addrs : hd_addr <$> d :: l = hd_addr <$> rx_items s;
  rf_queue : es_rx_queue s1 = es_rx_queue s;
  rf_events : es_events s1 = es_events s;
  rf_work : (rx_work s1 <= rx_work s)%nat;
  rf_load : load (hr_descr (es_rx s1)) (hr_head (es_rx s) mod hr_capacity (es_rx s)) = Ok d;
}.

Lemma rx_look s (Q : unit -> eth_state D -> Prop) :
  dir_wf Rx s -> rx_items s <> [] -> (forall s1 d l, rx_found s s1 d l -> Q tt s1) -> wp device_runs s Q.
Proof.
  intros Hwf Hne HQ. destruct (rx_items s) as [|d l] eqn:Hd; [done|].
  apply (device_runs_count s Rx); [apply Hwf|]. intros s1 Hle Hwork.
  destruct (find_head Rx s s1 d l Hwf Hd Hle) as (d' & l' & Hll & Hd' & Hwf1 & Hload & Hc & Hq & Hev & Ho).
  apply (HQ s1 d' l'). split; try done. rewrite Hd. by apply dev_le_addrs.
Qed.

(** The device still owns the head: the loop ends. *)
Lemma rx_step_owned s s1 d l flag : rx_found s s1 d l -> hd_own d = true -> rx_step s flag (s1, (flag, true)).
Proof.
  intros [Ho Hw Hi Ha Hq He Hk _] Eo. exists []. cbn [fst snd]. split_and!; [|by rewrite orb_false_r| |done].
  - split; rewrite ?Hq; cbn [fmap list_fmap app]; rewrite ?app_nil_r; try done; [by rewrite Hi, Ha|].
    exists []. by rewrite app_nil_r.
  - rewrite Hi. by apply Forall_singleton.
Qed.

(** A frame with an error: a fresh descriptor for its buffer enters at the tail
    while the head leaves. *)
Lemma rx_step_recycled s s1 d l d2 evs flag :
  rx_found s s1 d l -> hd_own d = false -> hd_own d2 = true -> hd_addr d2 = hd_addr d -> Forall is_kick evs ->
  let r := es_rx s1 in
  let r2 := mk_hw_ring (u32 (hr_tail r + 1)) (u32 (hr_head r + 1)) (hr_capacity r)
              (<[Z.to_nat (hr_tail r mod hr_capacity r) := d2]> (hr_descr r)) in
  rx_step s flag (set_events (es_events s1 ++ evs) (set_ring Rx r2 s1), (flag, false)).
Proof.
  intros [Ho Hw Hi Ha Hq He Hk _] Eo Eo2 Ea Hevs r r2.
  destruct (hw_rotate r d d2 l (proj1 Hw) Hi) as [Hr2 Hi2]. fold r2 in Hr2, Hi2.
  set (s2 := set_events (es_events s1 ++ evs) (set_ring Rx r2 s1)).
  exists []. cbn [fst snd]. split_and!; [|by rewrite orb_false_r|].
  - split; cbn [fmap list_fmap app]; rewrite ?app_nil_r; try done.
    + split_and!; [done|apply Hw..].
    + change (rx_out s1 = rx_out s). by rewrite Hq.
    + change (rx_items s2) with (hw_items r2). rewrite Hi2, <- Ha, fmap_app. cbn. by rewrite Ea, Permutation_app_comm.
    + change (net_items Free (es_rx_queue s1) = net_items Free (es_rx_queue s)). by rewrite Hq.
    + change (nh_capacity (es_rx_queue s1) = nh_capacity (es_rx_queue s)). by rewrite Hq.
    + cbn. by rewrite Hq.
    + exists evs. cbn. by rewrite He.
  - unfold rx_work, done_count in *. change (es_rx s2) with r2. change (write_backs_left s2) with (write_backs_left s1).
    rewrite Hi2, filter_app, length_app. rewrite Hi, filter_cons, decide_True in Hk by done. cbn [length] in Hk.
    rewrite filter_cons_False, filter_nil by congruence. cbn [length]. lia.
Qed.

(** A good frame is handed on. *)
Lemma rx_step_good s s1 d l flag (Q : Z -> eth_state D -> Prop) :
  rx_found s s1 d l -> hd_own d = false -> has_error d = false ->
  Z.of_nat (length (rx_out s)) < nh_capacity (es_rx_queue s) ->
  (forall s2, (forall Q' : unit -> eth_state D -> Prop,
      (forall s3, rx_step s flag (s3, (true, false)) -> Q' tt s3) -> wp (on_ring Rx incr_head) s2 Q') -> Q 0 s2) ->
  wp (on_queue Rx (net_enqueue_active (rx_buf d))) s1 Q.
Proof.
  intros [Ho Hw Hi Ha Hq He Hk _] Eo Ee Hroom HQ.
  eapply (hand_on Rx); [done|exact Hi|cbn [es_queue side_out side_in other]; by rewrite Hq|]. intros s2 Hpop. apply HQ.
  intros Q' HQ'. apply Hpop. intros s3 Ho3 Hw3 Hi3 Hc3 Hout3 Hin3 Hcap3 Hsi3 Hso3 Hev3 Hdev3. apply HQ'.
  cbn [es_ring es_queue side_out side_in other nh_ring] in *. rewrite Hq in *. exists [d]. cbn [fst snd].
  split_and!; [|by rewrite orb_true_r|].
  - split; try done; [by etrans|by apply Forall_singleton| |exists []; by rewrite Hev3, He, app_nil_r].
    by rewrite Hi3, <- Ha.
  - unfold rx_work, done_count in *. rewrite Hi3. rewrite Hi, filter_cons, decide_True in Hk by done. cbn [length] in Hk.
    unfold write_backs_left in *. rewrite Hdev3. lia.
Qed.

Lemma rx_moved_trans s s1 s2 g1 g2 : rx_moved s s1 g1 -> rx_moved s1 s2 g2 -> rx_moved s s2 (g1 ++ g2).
Proof.
  intros [O1 W1 G1 T1 A1 I1 C1 [F1 F1'] (e1 & E1 & K1)] [O2 W2 G2 T2 A2 I2 C2 [F2 F2'] (e2 & E2 & K2)].
  split; try congruence; [by etrans|by apply Forall_app| | |split; congruence|].
  - by rewrite T2, T1, fmap_app, app_assoc.
  - rewrite fmap_app, <- app_assoc, A2. done.
  - exists (e1 ++ e2). rewrite E2, E1, <- app_assoc. split; [done|by apply Forall_app].
Qed.

Lemma rx_moved_refl s : dir_wf Rx s -> rx_moved s s [].
Proof.
  intros. split; cbn [fmap list_fmap app]; rewrite ?app_nil_r; try done.
  exists []. by rewrite app_nil_r.
Qed.

Lemma rx_moved_room s s' good :
  rx_moved s s' good -> (length (rx_out s') + length (rx_items s') = length (rx_out s) + length (rx_items s))%nat.
Proof.
  intros Hm. pose proof (Permutation_length (rm_addrs _ _ _ Hm)) as Hl. rewrite length_app, !length_fmap in Hl.
  rewrite (rm_out _ _ _ Hm), length_app, length_fmap. lia.
Qed.

(** The bound on the rounds of [rx_return]: a frame with an error goes back to
    the device, which may complete it again. *)
Definition rx_return_bound (p : eth_state D * (bool * bool)) : nat :=
  S (Z.to_nat (u32 (hr_tail (es_rx p.1) - hr_head (es_rx p.1))) + write_backs_left p.1).

Definition recycles_one (body : M (eth_state D * (bool * bool)) unit) : Prop := forall s flag,
  dir_wf Rx s -> rx_items s <> [] -> Z.of_nat (length (rx_out s)) < nh_capacity (es_rx_queue s) ->
  Forall hd_fits (hd_addr <$> rx_items s) -> wp body (s, (flag, false)) (fun _ p => rx_step s flag p).

Lemma recycle_loop body s (Q : unit -> eth_state D * (bool * bool) -> Prop) :
  recycles_one body -> eth_dir_wf Rx s ->
  (forall s1 good broke, rx_moved s s1 good -> Forall (fun d => hd_own d = true) (take 1 (rx_items s1)) ->
     Q tt (s1, (any_taken good, broke))) ->
  wp (loop rx_return_bound (can_return Rx) body) (s, (false, false)) Q.
Proof.
  intros Hbody Hwf HQ. pose proof (ed_wf _ _ Hwf) as Hdw. pose proof (ed_return_room _ _ Hwf) as Hroom.
  assert (Forall hd_fits (hd_addr <$> rx_items s)) as Hu.
  { pose proof (ed_addrs _ _ Hwf) as Ha. unfold buffer_seq in Ha. rewrite !Forall_app in Ha. apply Ha. }
  cbn [es_queue side_out side_in other es_ring] in Hroom.
  apply (wp_loop_le (fun p => exists good, rx_moved s p.1 good /\ p.2.1 = any_taken good /\
           (p.2.2 = true -> Forall (fun d => hd_own d = true) (take 1 (rx_items p.1))))
         (fun p => (rx_work p.1 + if p.2.2 then 0 else 1)%nat)).
  - exists []. split_and!; try done. by apply rx_moved_refl.
  - cbn [fst snd]. unfold rx_return_bound, rx_work, done_count. cbn [fst]. rewrite hw_items_length by apply Hdw.
    pose proof (length_filter (fun d => hd_own d = false) (rx_items s)). lia.
  - intros [s1 [flag broke]] (good & Hm & Hflag & _) Hgo. unfold can_return in Hgo. cbn [fst snd es_ring] in *.
    apply andb_true_iff in Hgo as [Hne%negb_true_iff Hb%negb_true_iff]. subst broke flag.
    pose proof (rm_wf _ _ _ Hm) as Hw1. pose proof (rx_moved_room _ _ _ Hm) as Hlen.
    assert (rx_items s1 <> []) as Hne1. { intros F. apply hw_empty_spec in F; [congruence|apply Hw1]. }
    eapply wp_mono; [apply (Hbody s1 (any_taken good) Hw1 Hne1)|].
    + rewrite (rm_cap _ _ _ Hm). destruct (rx_items s1); [done|cbn in Hlen; lia].
    + pose proof Hu as Hu'. rewrite <- (rm_addrs _ _ _ Hm), Forall_app in Hu'. apply Hu'.
    + intros [] [s2 [flag2 broke2]] (good2 & Hm2 & Hf2 & Hb2). cbn [fst snd] in *. split.
      * exists (good ++ good2). split_and!; [by eapply rx_moved_trans|subst flag2; by destruct good|].
        intros ->. apply Hb2.
      * destruct broke2; lia.
  - intros [s1 [flag broke]] (good & Hm & Hflag & Hbr) Hstop. cbn [fst snd] in *. subst flag. apply HQ; [done|].
    unfold can_return in Hstop. cbn [fst snd es_ring] in Hstop.
    apply andb_false_iff in Hstop as [He%negb_false_iff|Hb%negb_false_iff]; [|auto].
    apply hw_empty_spec in He; [|apply (rm_wf _ _ _ Hm)]. rewrite He. by apply Forall_nil_2.
Qed.

End recycle.

(** ** Filling the rings *)

Section fill.
Context {D : Type} `{!Inhabited D} `{HwDescLaws D}.
Context (mk : Z -> net_buff_desc -> Z -> D) (kick : Z -> Z -> list event) (body : M (eth_state D) unit).
Implicit Types s : eth_state D.

(** [rx_provide] and [tx_provide]: the loop on [reprocess] takes one round. *)
Lemma rx_reprocess s (Q : unit -> eth_state D -> Prop) :
  provides_one Rx mk kick body -> dir_wf Rx s ->
  (forall s1 k, provided Rx mk kick s s1 k -> can_provide Rx s1 = false -> Q tt (with_signal Rx Free 0 s1)) ->
  wp (with_local true (loop (fun _ => 2%nat) snd
       (on_state (loop (provide_bound Rx) (can_provide Rx) body);;
        on_state (on_queue Rx net_request_signal_free);;
        s ← gets fst;
        if negb (net_queue_empty_free (es_rx_queue s)) && negb (hw_ring_full (es_rx s))
        then on_state (on_queue Rx net_cancel_signal_free);; set_local true
        else set_local false));; mret tt) s Q.
Proof.
  intros Hbody Hwf HQ. apply wp_reprocess. do 2 wp_step.
  apply (provide_loop Rx mk kick body); [done|done|]. intros s1 k Hp Hstop.
  specialize (HQ s1 k Hp Hstop). unfold on_queue, net_request_signal_free. do 6 wp_step. cbn [fst es_queue].
  assert (negb (net_queue_empty_free (es_rx_queue (with_signal Rx Free 0 s1))) && negb (hw_ring_full (es_rx (with_signal Rx Free 0 s1))) = false) as Hb.
  { rewrite andb_comm, <- Hstop. exact (can_provide_signal Rx s1 0). }
  unfold with_signal in Hb. cbn [es_queue] in *. rewrite Hb. by wp_step.
Qed.

Lemma tx_reprocess s (Q : unit -> eth_state D -> Prop) :
  provides_one Tx mk kick body -> dir_wf Tx s ->
  (forall s1 k, provided Tx mk kick s s1 k -> can_provide Tx s1 = false -> Q tt (with_signal Tx Active 0 s1)) ->
  wp (with_local true (loop (fun _ => 2%nat) snd
       (on_state (loop (provide_bound Tx) (can_provide Tx) body);;
        on_state (on_queue Tx net_request_signal_active);;
        s ← gets fst;
        if negb (hw_ring_full (es_tx s)) && negb (net_queue_empty_active (es_tx_queue s))
        then on_state (on_queue Tx net_cancel_signal_active);; set_local true
        else set_local false));; mret tt) s Q.
Proof.
  intros Hbody Hwf HQ. apply wp_reprocess. do 2 wp_step.
  apply (provide_loop Tx mk kick body); [done|done|]. intros s1 k Hp Hstop.
  specialize (HQ s1 k Hp Hstop). unfold on_queue, net_request_signal_active. do 6 wp_step. cbn [fst es_queue].
  assert (negb (hw_ring_full (es_tx (with_signal Tx Active 0 s1))) && negb (net_queue_empty_active (es_tx_queue (with_signal Tx Active 0 s1))) = false) as Hb.
  { rewrite <- Hstop. exact (can_provide_signal Tx s1 0). }
  unfold with_signal in Hb. cbn [es_queue] in *. rewrite Hb. by wp_step.
Qed.

End fill.

(** ** Conservation and readiness *)

Section keeps.
Context {D : Type} `{!Inhabited D} `{HwDescLaws D}.
Implicit Types s : eth_state D.

Definition rx_ready s : Prop := net_require_signal_free (es_rx_queue s) = true.
Definition tx_ready s : Prop := net_require_signal_active (es_tx_queue s) = true.

(** A frame with an error overtakes others in the receive ring. *)
Definition keeps s s' : Prop :=
  eth_wf s' /\ buffer_seq Rx s' ≡ₚ buffer_seq Rx s /\ buffer_seq Tx s' = buffer_seq Tx s /\
  (rx_ready s -> rx_ready s') /\ (tx_ready s -> tx_ready s').

Lemma keeps_refl s : eth_wf s -> keeps s s.
Proof. intros. by split_and!. Qed.

Lemma keeps_trans s s' s'' : keeps s s' -> keeps s' s'' -> keeps s s''.
Proof. intros (_ & P & E & R & T) (W & P' & E' & R' & T'). split_and!; [done|by etrans|congruence|auto..]. Qed.

Lemma keeps_conserves s s' :
  conserves s s' -> (rx_ready s -> rx_ready s') -> (tx_ready s -> tx_ready s') -> keeps s s'.
Proof. intros [W E] ? ?. split_and!; [done|by rewrite E|by rewrite E|done..]. Qed.

Lemma keeps_events ev s s' : keeps s s' -> keeps s (set_events ev s').
Proof.
  intros (W & P & E & R & T). split_and!; [by apply (conserves_events ev s' s'), conserves_refl|done..].
Qed.

Lemma keeps_irq l s s' : keeps s s' -> keeps s (set_irq l s').
Proof.
  intros (W & P & E & R & T). split_and!; [by apply (conserves_irq l s' s'), conserves_refl|done..].
Qed.

Lemma provided_keeps_rx mk kick s s1 k :
  (forall cap b i, hd_fits (io_or_offset b) -> hd_addr (mk cap b i) = io_or_offset b) ->
  eth_wf s -> provided Rx mk kick s s1 k ->
  keeps s (with_signal Rx Free 0 s1) /\ es_irq s1 = es_irq s.
Proof.
  intros Hmk Hwf Hp. pose proof (proj1 Hp) as Ho.
  destruct (provided_seq Rx mk kick s s1 k Hmk Hp (Hwf Rx)) as [Hseq Hw1]. split; [|apply Ho].
  apply keeps_conserves; [apply conserves_signal; by eapply (conserves_intro Rx)|done|].
  destruct Ho as (_ & Eq & _). cbn [flip es_queue] in Eq. unfold tx_ready. cbn. by rewrite Eq.
Qed.

Lemma provided_keeps_tx mk kick s s1 k :
  (forall cap b i, hd_fits (io_or_offset b) -> hd_addr (mk cap b i) = io_or_offset b) ->
  eth_wf s -> provided Tx mk kick s s1 k ->
  keeps s (with_signal Tx Active 0 s1) /\ es_irq s1 = es_irq s.
Proof.
  intros Hmk Hwf Hp. pose proof (proj1 Hp) as Ho.
  destruct (provided_seq Tx mk kick s s1 k Hmk Hp (Hwf Tx)) as [Hseq Hw1]. split; [|apply Ho].
  apply keeps_conserves; [apply conserves_signal; by eapply (conserves_intro Tx)| |done].
  destruct Ho as (_ & Eq & _). cbn [flip es_queue] in Eq. unfold rx_ready. cbn. by rewrite Eq.
Qed.

Lemma signal_done_keeps dir ch any s s' :
  keeps s s' -> keeps s (signal_done dir ch any s').
Proof.
  intros (W & P & E & R & T). destruct (signal_done_conserves dir ch any s' s' (conserves_refl s' W)) as [W' E'].
  split_and!; [done|by rewrite E'|by rewrite E'|..]; unfold signal_done; destruct (_ && _); destruct dir; auto.
Qed.

Lemma rx_moved_keeps has_error rx_buf is_kick s s1 good ch :
  (forall d, io_or_offset (rx_buf d) = hd_addr d) ->
  eth_wf s -> rx_moved has_error rx_buf is_kick s s1 good ->
  keeps s (signal_done Rx ch (any_taken good) s1) /\ es_irq (signal_done Rx ch (any_taken good) s1) = es_irq s.
Proof.
  intros Hbuf Hwf Hm. split; [|unfold signal_done; destruct (_ && _); apply (rm_other _ _ _ _ _ _ Hm)].
  apply signal_done_keeps. assert (buffer_seq Rx s1 ≡ₚ buffer_seq Rx s) as Hs.
  { unfold buffer_seq. cbn [es_queue es_ring side_out side_in other].
    rewrite (rm_out _ _ _ _ _ _ Hm), (rm_in _ _ _ _ _ _ Hm), <- (rm_addrs _ _ _ _ _ _ Hm), fmap_app, <- !app_assoc.
    rewrite <- list_fmap_compose. apply Permutation_app_head.
    rewrite (list_fmap_ext (io_or_offset ∘ rx_buf) hd_addr); [done|]. intros. apply Hbuf. }
  destruct (other_le_wf Rx s s1 (rm_other _ _ _ _ _ _ Hm) (Hwf Tx)) as [Hw2 Hs2]. split_and!; [|done|done|..].
  - intros d. apply (both_dirs (fun d => eth_dir_wf d s1) Rx); [|done].
    apply (seq_wf Rx s); [apply Hm|done|apply Hm|apply Hwf].
  - unfold rx_ready, net_require_signal_free, net_require_signal. cbn [nh_ring]. by rewrite (proj1 (rm_flags _ _ _ _ _ _ Hm)).
  - unfold tx_ready. pose proof (rm_other _ _ _ _ _ _ Hm) as (_ & Eq & _). cbn [flip es_queue] in Eq. by rewrite Eq.
Qed.

Lemma returned_keeps buf s s1 taken ch :
  (forall d, io_or_offset (buf d) = hd_addr d) ->
  eth_wf s -> returned Tx buf s s1 taken ->
  keeps s (signal_done Tx ch (any_taken taken) s1) /\ es_irq (signal_done Tx ch (any_taken taken) s1) = es_irq s.
Proof.
  intros Hbuf Hwf Hr. pose proof (proj1 Hr) as Ho.
  destruct (returned_seq Tx buf s s1 taken Hbuf Hr (Hwf Tx)) as [Hseq Hw1].
  split; [|unfold signal_done; destruct (_ && _); apply Ho].
  apply signal_done_keeps, keeps_conserves; [by eapply (conserves_intro Tx)|..].
  - destruct Ho as (_ & Eq & _). cbn [flip es_queue] in Eq. unfold rx_ready. by rewrite Eq.
  - destruct Hr as (_ & _ & _ & _ & _ & _ & _ & _ & Hsig & _). unfold tx_ready, net_require_signal_active, net_require_signal.
    cbn [side_in es_queue] in Hsig. by rewrite Hsig.
Qed.

End keeps.

(** ** Interrupts and dispatch *)

Section irq.
Context {D : Type} `{!Inhabited D} `{HwDescLaws D}.
(** [tx_return], [tx_provide], [rx_return] and [rx_provide] of a driver. *)
Context (tr tp rr rp : M (eth_state D) unit).
Context (Htr : forall s, eth_wf s -> wp tr s (fun _ s' => keeps s s' /\ es_irq s' = es_irq s)).
Context (Htp : forall s, eth_wf s ->
  wp tp s (fun _ s' => keeps s s' /\ es_irq s' = es_irq s /\ tx_ready s' /\ can_provide Tx s' = false)).
Context (Hrr : forall s, eth_wf s -> wp rr s (fun _ s' => keeps s s' /\ es_irq s' = es_irq s)).
Context (Hrp : forall s, eth_wf s ->
  wp rp s (fun _ s' => keeps s s' /\ es_irq s' = es_irq s /\ rx_ready s' /\ can_provide Rx s' = false)).
(** The status register, and the bits that the loop tests. *)
Context (status mask txbit rxbit : Z).
Implicit Types s : eth_state D.

#[local] Abbreviation ack := (e ← read_irq; e2 ← read_irq; emit (RegWrite status (Z.land e2 e));; mret e : M (eth_state D) Z).

(** [e = status; status &= e] reads the register twice. *)
Lemma ack_spec s (Q : Z -> eth_state D -> Prop) :
  (forall ev, Q (hd 0 (es_irq s)) (set_events ev (set_irq (tail (tail (es_irq s))) s))) -> wp ack s Q.
Proof.
  intros HQ. unfold read_irq, emit.
  destruct (es_irq s) as [|e [|e2 l]] eqn:E; do 2 wp_step; wp_step; rewrite E; repeat wp_step; rewrite ?E; cbn [es_irq set_irq];
    repeat wp_step; [|apply HQ..].
  specialize (HQ (es_events s ++ [RegWrite status (Z.land 0 0)])). destruct s. cbn in *. by subst.
Qed.

#[local] Abbreviation irq_body := (
  e ← gets snd;
  when (negb (Z.land e txbit =? 0)) (on_state tr;; on_state tp);;
  when (negb (Z.land e rxbit =? 0)) (on_state rr);;
  e ← on_state ack;
  set_local e : M (eth_state D * Z) unit).

Lemma irq_body_spec s e :
  eth_wf s -> wp irq_body (s, e) (fun _ p => keeps s p.1 /\ es_irq p.1 = tail (tail (es_irq s)) /\ p.2 = hd 0 (es_irq s)).
Proof using Htr Htp Hrr.
  intros Hwf. do 3 wp_step. cbn [snd].
  assert (wp (when (negb (Z.land e txbit =? 0)) (on_state tr;; on_state tp)) (s, e)
            (fun _ p => keeps s p.1 /\ es_irq p.1 = es_irq s /\ p.2 = e)) as Htx.
  { wp_step; [|split_and!; [by apply keeps_refl|done..]]. do 2 wp_step.
    wp_use (Htr s Hwf). intros [] s1 [K1 I1]. wp_step. wp_use (Htp s1 (proj1 K1)).
    intros [] s2 (K2 & I2 & _). split_and!; [by eapply keeps_trans|cbn in *; congruence|done]. }
  wp_use Htx. intros [] [s1 e1] (K1 & I1 & He1). cbn [fst snd] in *. subst e1. wp_step.
  assert (wp (when (negb (Z.land e rxbit =? 0)) (on_state rr)) (s1, e)
            (fun _ p => keeps s1 p.1 /\ es_irq p.1 = es_irq s1 /\ p.2 = e)) as Hrx.
  { wp_step; [|split_and!; [apply keeps_refl, K1|done..]]. wp_step.
    wp_use (Hrr s1 (proj1 K1)). intros [] s2 [K2 I2]. done. }
  wp_use Hrx. intros [] [s2 e2] (K2 & I2 & He2). cbn [fst snd] in *. subst e2.
  do 2 wp_step. apply ack_spec. intros ev. wp_step. cbn [fst snd]. rewrite I2, I1.
  split_and!; [|done..]. by apply keeps_events, keeps_irq, (keeps_trans s s1).
Qed.

#[local] Abbreviation irq_handler := (
  e ← ack;
  with_local e (loop (fun p => S (length (es_irq p.1))) (fun p => negb (Z.land p.2 mask =? 0)) irq_body);;
  mret tt : M (eth_state D) unit).

Lemma irq_handler_spec s : eth_wf s -> wp irq_handler s (fun _ s' => keeps s s').
Proof using Htr Htp Hrr.
  intros Hwf. wp_step. apply ack_spec. intros ev. do 2 wp_step.
  apply (wp_loop_le (fun p => keeps s p.1)
           (fun p => if negb (Z.land p.2 mask =? 0) then S (length (es_irq p.1)) else 0%nat)).
  - by apply keeps_events, keeps_irq, keeps_refl.
  - cbn [fst snd]. case_match; lia.
  - intros [s1 e] K Hgo. cbn [fst snd] in *. rewrite Hgo.
    wp_use (irq_body_spec s1 e (proj1 K)). intros [] [s2 e2] (K2 & I2 & E2). cbn [fst snd] in *.
    split; [by eapply keeps_trans|]. subst e2. rewrite I2.
    destruct (es_irq s1) as [|e' [|e'' l]]; cbn [hd tail length]; [rewrite !Z.land_0_l; cbn; lia|case_match; lia..].
  - intros [s1 e] K _. by wp_step.
Qed.

Lemma recycle_dispatch_spec irq vrx vtx s ch :
  eth_wf s -> NoDup [irq; vrx; vtx] ->
  wp (if ch =? irq then irq_handler;; emit (DeferredIrqAck ch)
      else if ch =? vrx then rp else if ch =? vtx then tp else mret tt) s (fun _ s' =>
    eth_wf s' /\ buffer_seq Rx s' ≡ₚ buffer_seq Rx s /\ buffer_seq Tx s' = buffer_seq Tx s /\
    (ch = vrx \/ rx_ready s -> rx_ready s') /\
    (ch = vtx \/ tx_ready s -> tx_ready s') /\
    (ch = vrx -> can_provide Rx s' = false) /\
    (ch = vtx -> can_provide Tx s' = false)).
Proof using Htr Htp Hrr Hrp.
  intros Hwf Hnd. rewrite !NoDup_cons, !not_elem_of_cons in Hnd. destruct Hnd as ((N1 & N2 & _) & (N3 & _) & _).
  destruct (Z.eqb_spec ch irq) as [->|H1]; [|destruct (Z.eqb_spec ch vrx) as [->|H2];
    [|destruct (Z.eqb_spec ch vtx) as [->|H3]]].
  - wp_step. wp_use (irq_handler_spec s Hwf). intros [] s1 K. unfold emit. wp_step.
    apply (keeps_events (es_events s1 ++ [DeferredIrqAck irq])) in K. destruct K as (W & P & E & R & T).
    split_and!; [done|done|done|intros [?|?]; [done|by apply R]|intros [?|?]; [done|by apply T]|done..].
  - wp_use (Hrp s Hwf). intros [] s1 ((W & P & E & R & T) & _ & Hr & Hp).
    split_and!; try done; intros [?|?]; auto; done.
  - wp_use (Htp s Hwf). intros [] s1 ((W & P & E & R & T) & _ & Ht & Hp).
    split_and!; try done; intros [?|?]; auto; done.
  - wp_step. split_and!; try done; intros [?|?]; done.
Qed.

End irq.
