(* ===== verification/EthImx.v ===== *)
(** * The i.MX network driver: drivers/network/imx/ethernet.c

    The driver fills the receive ring from the free queue of the receive
    virtualiser and the transmit ring from the active queue of the transmit
    virtualiser, and hands back what the device is done with. *)

From S2P Require Import Prelude Ring Fifo NetQueue Microkit HwRing.

(** The registers and bits the loops use (ethernet.h). *)
Definition EIR : Z := 4.
Definition RDAR : Z := 16.
Definition TDAR : Z := 20.
Definition RDAR_RDAR : Z := Z.shiftl 1 24.
Definition TDAR_TDAR : Z := Z.shiftl 1 24.
Definition NETIRQ_TXF : Z := Z.shiftl 1 27.
Definition NETIRQ_RXF : Z := Z.shiftl 1 25.
Definition NETIRQ_EBERR : Z := Z.shiftl 1 22.
Definition IRQ_MASK : Z := Z.lor (Z.lor NETIRQ_RXF NETIRQ_TXF) NETIRQ_EBERR.
Definition RXD_EMPTY : Z := Z.shiftl 1 15.
Definition WRAP : Z := Z.shiftl 1 13.
Definition TXD_READY : Z := Z.shiftl 1 15.
Definition TXD_ADDCRC : Z := Z.shiftl 1 10.
Definition TXD_LAST : Z := Z.shiftl 1 11.

Definition RX_COUNT : Z := 256.
Definition TX_COUNT : Z := 256.

(** [struct descriptor] *)
Record imx_desc : Type := mk_imx_desc {
  id_len : Z;  (* uint16_t *)
  id_stat : Z; (* uint16_t *)
  id_addr : Z; (* uint32_t *)
}.
#[export] Instance imx_desc_inhabited : Inhabited imx_desc := populate (mk_imx_desc 0 0 0).

(** [RXD_EMPTY] and [TXD_READY] are the same bit; the device writes length and
    status. *)
#[export] Instance imx_hw_desc : HwDesc imx_desc := {
  hd_own d := negb (Z.land (id_stat d) RXD_EMPTY =? 0);
  hd_addr := id_addr;
  hd_fits := is_u32;
  hd_write_back w d := mk_imx_desc (id_len w) (Z.ldiff (id_stat w) RXD_EMPTY) (id_addr d);
}.
#[export] Instance imx_hw_desc_laws : HwDescLaws imx_desc.
Proof.
  split; [|done]. intros w d. cbn [hd_own imx_hw_desc hd_write_back id_stat].
  by rewrite Z.ldiff_land, <- Z.land_assoc, (Z.land_comm (Z.lnot _)), Z.land_lnot_diag, Z.land_0_r.
Qed.

Abbreviation imx_state := (eth_state imx_desc).

(** [device_resources.irqs[0].id], [config.virt_rx.id], [config.virt_tx.id]. *)
Record eth_config : Type := mk_eth_config {
  ec_irq : Z;
  ec_virt_rx : Z;
  ec_virt_tx : Z;
}.

Definition update_ring_slot (idx phys len stat : Z) : M (hw_ring imx_desc) unit :=
  set_slot idx (mk_imx_desc len stat (u32 phys)).

Definition rx_provide_body : M imx_state unit :=
  r ← on_queue Rx net_dequeue_free;
  match r with
  | None => raise AssertFail
  | Some buffer =>
    s ← get;
    idx ← lift (umod (hr_tail (es_rx s)) (hr_capacity (es_rx s)));
    let stat := if u32 (idx + 1) =? hr_capacity (es_rx s) then Z.lor RXD_EMPTY WRAP else RXD_EMPTY in
    on_ring Rx (update_ring_slot idx (io_or_offset buffer) 0 stat;; incr_tail);;
    emit (RegWrite RDAR RDAR_RDAR)
  end.

(** The loop on [reprocess], which is the local variable. *)
Definition rx_provide_outer : M (imx_state * bool) unit :=
  on_state (loop (provide_bound Rx) (can_provide Rx) rx_provide_body);;
  s ← gets fst;
  on_state (if negb (hw_ring_full (es_rx s)) then on_queue Rx net_request_signal_free
            else on_queue Rx net_cancel_signal_free);;
  s ← gets fst;
  if negb (net_queue_empty_free (es_rx_queue s)) && negb (hw_ring_full (es_rx s))
  then on_state (on_queue Rx net_cancel_signal_free);; set_local true
  else set_local false.
Definition rx_provide : M imx_state unit :=
  with_local true (loop (fun _ => 2%nat) snd rx_provide_outer);; mret tt.

(** The local variables are [packets_transferred] and whether the loop has been
    left by its [break]. *)
Definition rx_return_body : M (imx_state * (bool * bool)) unit :=
  s ← gets fst;
  idx ← lift (umod (hr_head (es_rx s)) (hr_capacity (es_rx s)));
  on_state device_runs;;
  p ← get;
  d ← lift (load (hr_descr (es_rx p.1)) idx);
  if negb (Z.land (id_stat d) RXD_EMPTY =? 0) then set_local (p.2.1, true)
  else
    err ← on_state (on_queue Rx (net_enqueue_active (mk_buff (id_addr d) (id_len d))));
    assert_ (err =? 0);;
    set_local (true, false);;
    on_state (on_ring Rx incr_head).

Definition tx_provide_body : M imx_state unit :=
  r ← on_queue Tx net_dequeue_active;
  match r with
  | None => raise AssertFail
  | Some buffer =>
    s ← get;
    idx ← lift (umod (hr_tail (es_tx s)) (hr_capacity (es_tx s)));
    let stat := Z.lor (Z.lor TXD_READY TXD_ADDCRC) TXD_LAST in
    let stat := if u32 (idx + 1) =? hr_capacity (es_tx s) then Z.lor stat WRAP else stat in
    on_ring Tx (update_ring_slot idx (io_or_offset buffer) (bd_len buffer) stat;; incr_tail);;
    emit (RegWrite TDAR TDAR_TDAR)
  end.

Definition tx_provide_outer : M (imx_state * bool) unit :=
  on_state (loop (provide_bound Tx) (can_provide Tx) tx_provide_body);;
  on_state (on_queue Tx net_request_signal_active);;
  s ← gets fst;
  if negb (hw_ring_full (es_tx s)) && negb (net_queue_empty_active (es_tx_queue s))
  then on_state (on_queue Tx net_cancel_signal_active);; set_local true
  else set_local false.
Definition tx_provide : M imx_state unit :=
  with_local true (loop (fun _ => 2%nat) snd tx_provide_outer);; mret tt.

Definition tx_return_body : M (imx_state * (bool * bool)) unit :=
  s ← gets fst;
  idx ← lift (umod (hr_head (es_tx s)) (hr_capacity (es_tx s)));
  on_state device_runs;;
  p ← get;
  d ← lift (load (hr_descr (es_tx p.1)) idx);
  if negb (Z.land (id_stat d) TXD_READY =? 0) then set_local (p.2.1, true)
  else
    err ← on_state (on_queue Tx (net_enqueue_free (mk_buff (id_addr d) 0)));
    assert_ (err =? 0);;
    set_local (true, false);;
    on_state (on_ring Tx incr_head).

Section handlers.
Context (config : eth_config).

Definition rx_return : M imx_state unit :=
  r ← with_local (false, false) (loop (return_bound Rx) (can_return Rx) rx_return_body);
  let packets_transferred := (r : unit * (bool * bool)).2.1 in
  s ← get;
  when (packets_transferred && net_require_signal_active (es_rx_queue s))
    (on_queue Rx net_cancel_signal_active;;
     emit (Notify (ec_virt_rx config))).

Definition tx_return : M imx_state unit :=
  r ← with_local (false, false) (loop (return_bound Tx) (can_return Tx) tx_return_body);
  let enqueued := (r : unit * (bool * bool)).2.1 in
  s ← get;
  when (enqueued && net_require_signal_free (es_tx_queue s))
    (on_queue Tx net_cancel_signal_free;;
     emit (Notify (ec_virt_tx config))).

(** The local variable is [e]. *)
Definition handle_irq_body : M (imx_state * Z) unit :=
  e ← gets snd;
  when (negb (Z.land e NETIRQ_TXF =? 0)) (on_state tx_return;; on_state tx_provide);;
  when (negb (Z.land e NETIRQ_RXF =? 0)) (on_state rx_return;; on_state rx_provide);;
  e ← on_state read_irq;
  let e := Z.land e IRQ_MASK in
  on_state (emit (RegWrite EIR e));;
  set_local e.

Definition handle_irq : M imx_state unit :=
  e ← read_irq;
  let e := Z.land e IRQ_MASK in
  emit (RegWrite EIR e);;
  with_local e (loop (fun p => S (length (es_irq p.1))) (fun p => negb (Z.land p.2 IRQ_MASK =? 0)) handle_irq_body);;
  mret tt.

Definition notified (ch : Z) : M imx_state unit :=
  if ch =? ec_irq config then handle_irq;; emit (DeferredIrqAck ch)
  else if ch =? ec_virt_rx config then rx_provide
  else if ch =? ec_virt_tx config then tx_provide
  else mret tt.

End handlers.

(** ** One round of each loop *)

Definition rx_desc (cap : Z) (b : net_buff_desc) (idx : Z) : imx_desc :=
  mk_imx_desc 0 (if u32 (idx + 1) =? cap then Z.lor RXD_EMPTY WRAP else RXD_EMPTY) (u32 (io_or_offset b)).
Definition tx_desc (cap : Z) (b : net_buff_desc) (idx : Z) : imx_desc :=
  let stat := Z.lor (Z.lor TXD_READY TXD_ADDCRC) TXD_LAST in
  mk_imx_desc (bd_len b) (if u32 (idx + 1) =? cap then Z.lor stat WRAP else stat) (u32 (io_or_offset b)).

Lemma imx_rx_desc_addr cap b idx : hd_fits (io_or_offset b) -> hd_addr (rx_desc cap b idx) = io_or_offset b.
Proof. exact (u32_small _). Qed.
Lemma imx_tx_desc_addr cap b idx : hd_fits (io_or_offset b) -> hd_addr (tx_desc cap b idx) = io_or_offset b.
Proof. exact (u32_small _). Qed.

Lemma imx_rx_provide_body_spec : provides_one Rx rx_desc (fun _ _ => [RegWrite RDAR RDAR_RDAR]) rx_provide_body.
Proof.
  intros s b l Q Hwf Hb Hroom HQ. unfold rx_provide_body. wp_step.
  eapply (take_next Rx); [done..|]. intros s1 Es1 Hpush. cbn [es_ring] in *. do 3 wp_step.
  rewrite Es1. eapply wp_lift; [apply umod_ok; destruct Hwf as [[] _]; lia|]. wp_step.
  apply Hpush. intros s' **. unfold emit. wp_step. apply HQ; try done. cbn. congruence.
Qed.

Lemma imx_tx_provide_body_spec : provides_one Tx tx_desc (fun _ _ => [RegWrite TDAR TDAR_TDAR]) tx_provide_body.
Proof.
  intros s b l Q Hwf Hb Hroom HQ. unfold tx_provide_body. wp_step.
  eapply (take_next Tx); [done..|]. intros s1 Es1 Hpush. cbn [es_ring] in *. do 3 wp_step.
  rewrite Es1. eapply wp_lift; [apply umod_ok; destruct Hwf as [[] _]; lia|]. wp_step.
  apply Hpush. intros s' **. unfold emit. wp_step. apply HQ; try done. cbn. congruence.
Qed.

Definition rx_buf (d : imx_desc) : net_buff_desc := mk_buff (id_addr d) (id_len d).
Definition tx_buf (d : imx_desc) : net_buff_desc := mk_buff (id_addr d) 0.

Lemma imx_rx_return_body_spec : returns_one Rx rx_buf rx_return_body.
Proof.
  intros s flag d l Q Hwf Hd Hroom HQ. unfold rx_return_body. do 3 wp_step. cbn [fst].
  eapply wp_lift; [apply umod_ok; destruct Hwf as [[] _]; cbn in *; lia|]. do 2 wp_step. apply device_runs_spec. intros s1 Hle.
  destruct (find_head Rx s s1 d l Hwf Hd Hle) as (d' & l' & Hll & Hd' & Hwf1 & Hload & Hc & Hq & Hev & Ho).
  do 3 wp_step. eapply wp_lift; [exact Hload|]. change (negb (Z.land (id_stat d') RXD_EMPTY =? 0)) with (hd_own d').
  destruct (hd_own d') eqn:Eo.
  - wp_step. specialize (HQ s1 d' l'). rewrite Eo, Hq in HQ. apply HQ; rewrite ?app_nil_r; done.
  - do 2 wp_step. eapply (hand_on Rx); [done|exact Hd'|by rewrite Hq|]. intros s2 Hpop.
    wp_step. apply wp_assert; [done|]. do 3 wp_step. apply Hpop. intros s' Ho' Hw' Hi' Hc' Hout' Hin' Hcap' Hsi' Hso' Hev' _.
    rewrite Hq in *. specialize (HQ s' d' l'). rewrite Eo in HQ. apply HQ; try (done || congruence). by etrans.
Qed.

Lemma imx_tx_return_body_spec : returns_one Tx tx_buf tx_return_body.
Proof.
  intros s flag d l Q Hwf Hd Hroom HQ. unfold tx_return_body. do 3 wp_step. cbn [fst].
  eapply wp_lift; [apply umod_ok; destruct Hwf as [[] _]; cbn in *; lia|]. do 2 wp_step. apply device_runs_spec. intros s1 Hle.
  destruct (find_head Tx s s1 d l Hwf Hd Hle) as (d' & l' & Hll & Hd' & Hwf1 & Hload & Hc & Hq & Hev & Ho).
  do 3 wp_step. eapply wp_lift; [exact Hload|]. change (negb (Z.land (id_stat d') TXD_READY =? 0)) with (hd_own d').
  destruct (hd_own d') eqn:Eo.
  - wp_step. specialize (HQ s1 d' l'). rewrite Eo, Hq in HQ. apply HQ; rewrite ?app_nil_r; done.
  - do 2 wp_step. eapply (hand_on Tx); [done|exact Hd'|by rewrite Hq|]. intros s2 Hpop.
    wp_step. apply wp_assert; [done|]. do 3 wp_step. apply Hpop. intros s' Ho' Hw' Hi' Hc' Hout' Hin' Hcap' Hsi' Hso' Hev' _.
    rewrite Hq in *. specialize (HQ s' d' l'). rewrite Eo in HQ. apply HQ; try (done || congruence). by etrans.
Qed.

(** ** The four operations *)

Lemma imx_rx_provide_spec s (Q : unit -> imx_state -> Prop) :
  dir_wf Rx s ->
  (forall s1 k, provided Rx rx_desc (fun _ _ => [RegWrite RDAR RDAR_RDAR]) s s1 k -> can_provide Rx s1 = false ->
     Q tt (with_signal Rx Free (if hw_ring_full (es_rx s1) then 1 else 0) s1)) ->
  wp rx_provide s Q.
Proof.
  intros Hwf HQ. apply wp_reprocess. unfold rx_provide_outer. do 2 wp_step.
  apply (provide_loop Rx rx_desc (fun _ _ => [RegWrite RDAR RDAR_RDAR])); [apply imx_rx_provide_body_spec|done|]. intros s1 k Hp Hstop.
  specialize (HQ s1 k Hp Hstop). do 3 wp_step. cbn [fst].
  assert (forall b, negb (net_queue_empty_free (es_rx_queue (with_signal Rx Free b s1))) && negb (hw_ring_full (es_rx (with_signal Rx Free b s1))) = false) as Hb.
  { intros b. rewrite andb_comm. rewrite <- Hstop. exact (can_provide_signal Rx s1 b). }
  unfold with_signal in Hb. cbn [es_queue] in Hb. unfold on_queue, net_request_signal_free, net_cancel_signal_free.
  destruct (hw_ring_full (es_rx s1)); cbn [negb]; do 5 wp_step; cbn [fst es_queue]; rewrite Hb; by wp_step.
Qed.

Lemma imx_tx_provide_spec s (Q : unit -> imx_state -> Prop) :
  dir_wf Tx s ->
  (forall s1 k, provided Tx tx_desc (fun _ _ => [RegWrite TDAR TDAR_TDAR]) s s1 k -> can_provide Tx s1 = false ->
     Q tt (with_signal Tx Active 0 s1)) ->
  wp tx_provide s Q.
Proof.
  intros Hwf HQ. apply wp_reprocess. unfold tx_provide_outer. do 2 wp_step.
  apply (provide_loop Tx tx_desc (fun _ _ => [RegWrite TDAR TDAR_TDAR])); [apply imx_tx_provide_body_spec|done|]. intros s1 k Hp Hstop.
  specialize (HQ s1 k Hp Hstop). unfold on_queue, net_request_signal_active. do 6 wp_step. cbn [fst es_queue].
  assert (negb (hw_ring_full (es_tx (with_signal Tx Active 0 s1))) && negb (net_queue_empty_active (es_tx_queue (with_signal Tx Active 0 s1))) = false) as Hb.
  { rewrite <- Hstop. exact (can_provide_signal Tx s1 0). }
  unfold with_signal in Hb. cbn [es_queue] in *. rewrite Hb. by wp_step.
Qed.

(** ** Conservation and readiness *)

(** The virtualisers know that they must notify when they add work: the driver
    has asked for a signal, or will look again when the full ring drains. *)
Definition rx_ready (s : imx_state) : Prop :=
  hw_ring_full (es_rx s) = true \/ net_require_signal_free (es_rx_queue s) = true.
Definition tx_ready (s : imx_state) : Prop := net_require_signal_active (es_tx_queue s) = true.

Definition goes_on (s s' : imx_state) : Prop :=
  conserves s s' /\ es_irq s' = es_irq s /\ (rx_ready s -> rx_ready s') /\ (tx_ready s -> tx_ready s').

Lemma goes_on_trans s s' s'' : goes_on s s' -> goes_on s' s'' -> goes_on s s''.
Proof. intros (C & I & R & T) (C' & I' & R' & T'). split_and!; [by eapply conserves_trans|congruence|auto..]. Qed.

Lemma other_le_rx_ready (s s' : imx_state) : other_le Tx s s' -> rx_ready s -> rx_ready s'.
Proof.
  intros ((Et & Eh & Ec & _) & Eq & _). cbn [flip es_ring es_queue] in *. unfold rx_ready, hw_ring_full.
  by rewrite Et, Eh, Ec, Eq.
Qed.
Lemma other_le_tx_ready (s s' : imx_state) : other_le Rx s s' -> tx_ready s -> tx_ready s'.
Proof. intros (_ & Eq & _). cbn [flip es_queue] in *. unfold tx_ready. by rewrite Eq. Qed.

Lemma rx_provide_goes_on s :
  eth_wf s -> wp rx_provide s (fun _ s' => goes_on s s' /\ rx_ready s' /\ can_provide Rx s' = false).
Proof.
  intros Hwf. apply imx_rx_provide_spec; [apply (Hwf Rx)|]. intros s1 k Hp Hstop. pose proof (proj1 Hp) as Ho.
  destruct (provided_seq Rx rx_desc _ s s1 k imx_rx_desc_addr Hp (Hwf Rx)) as [Hseq Hw1].
  assert (rx_ready (with_signal Rx Free (if hw_ring_full (es_rx s1) then 1 else 0) s1)) as Hready.
  { unfold rx_ready. change (es_rx (with_signal _ _ _ _)) with (es_rx s1). destruct (hw_ring_full (es_rx s1)) eqn:E; [by left|by right]. }
  split_and!; [split_and!|done|].
  - apply conserves_signal. by eapply (conserves_intro Rx).
  - apply Ho.
  - done.
  - intros Ht. by apply (other_le_tx_ready s).
  - rewrite <- Hstop. exact (can_provide_signal Rx s1 _).
Qed.

Lemma tx_provide_goes_on s :
  eth_wf s -> wp tx_provide s (fun _ s' => goes_on s s' /\ tx_ready s' /\ can_provide Tx s' = false).
Proof.
  intros Hwf. apply imx_tx_provide_spec; [apply (Hwf Tx)|]. intros s1 k Hp Hstop. pose proof (proj1 Hp) as Ho.
  destruct (provided_seq Tx tx_desc _ s s1 k imx_tx_desc_addr Hp (Hwf Tx)) as [Hseq Hw1].
  split_and!; [split_and!|done|].
  - apply conserves_signal. by eapply (conserves_intro Tx).
  - apply Ho.
  - intros Hr. by apply (other_le_rx_ready s).
  - done.
  - rewrite <- Hstop. exact (can_provide_signal Tx s1 _).
Qed.

Section specs.
Context (config : eth_config).

Lemma imx_rx_return_spec s (Q : unit -> imx_state -> Prop) :
  eth_dir_wf Rx s ->
  (forall s1 taken, returned Rx rx_buf s s1 taken -> Forall (fun d => hd_own d = true) (take 1 (hw_items (es_rx s1))) ->
     Q tt (signal_done Rx (ec_virt_rx config) (any_taken taken) s1)) ->
  wp (rx_return config) s Q.
Proof.
  intros Hwf HQ. unfold rx_return. do 2 wp_step.
  apply (return_loop Rx rx_buf); [apply imx_rx_return_body_spec|apply Hwf|by apply ed_return_room|].
  intros s1 taken broke Hr Hown. by apply signal_rx_spec, HQ.
Qed.

Lemma imx_tx_return_spec s (Q : unit -> imx_state -> Prop) :
  eth_dir_wf Tx s ->
  (forall s1 taken, returned Tx tx_buf s s1 taken -> Forall (fun d => hd_own d = true) (take 1 (hw_items (es_tx s1))) ->
     Q tt (signal_done Tx (ec_virt_tx config) (any_taken taken) s1)) ->
  wp (tx_return config) s Q.
Proof.
  intros Hwf HQ. unfold tx_return. do 2 wp_step.
  apply (return_loop Tx tx_buf); [apply imx_tx_return_body_spec|apply Hwf|by apply ed_return_room|].
  intros s1 taken broke Hr Hown. by apply signal_tx_spec, HQ.
Qed.

(** Handing on received packets opens the ring, so [rx_provide] follows. *)
Lemma rx_return_conserves s :
  eth_wf s -> wp (rx_return config) s (fun _ s' => conserves s s' /\ es_irq s' = es_irq s /\ (tx_ready s -> tx_ready s')).
Proof.
  intros Hwf. apply imx_rx_return_spec; [apply Hwf|]. intros s1 taken Hr _. pose proof (proj1 Hr) as Ho.
  destruct (returned_seq Rx rx_buf s s1 taken ltac:(done) Hr (Hwf Rx)) as [Hseq Hw1].
  split_and!; [apply signal_done_conserves; by eapply (conserves_intro Rx)|..]; unfold signal_done; destruct (_ && _);
    solve [apply Ho|intros Ht; by apply (other_le_tx_ready s)].
Qed.

Lemma tx_return_goes_on s :
  eth_wf s -> wp (tx_return config) s (fun _ s' => goes_on s s').
Proof.
  intros Hwf. apply imx_tx_return_spec; [apply Hwf|]. intros s1 taken Hr _. pose proof (proj1 Hr) as Ho.
  destruct (returned_seq Tx tx_buf s s1 taken ltac:(done) Hr (Hwf Tx)) as [Hseq Hw1].
  assert (tx_ready s -> tx_ready s1) as Ht.
  { destruct Hr as (_ & _ & _ & _ & _ & _ & _ & _ & Hsig & _). unfold tx_ready, net_require_signal_active, net_require_signal.
    cbn [side_in es_queue] in Hsig. by rewrite Hsig. }
  split_and!; [apply signal_done_conserves; by eapply (conserves_intro Tx)|..]; unfold signal_done; destruct (_ && _);
    solve [apply Ho|intros Hrx; by apply (other_le_rx_ready s)|done].
Qed.

(** What a round of [handle_irq] leaves. *)
Definition irq_round (s : imx_state) (p : imx_state * Z) : Prop :=
  conserves s p.1 /\ (rx_ready s -> rx_ready p.1) /\ (tx_ready s -> tx_ready p.1) /\
  es_irq p.1 = tail (es_irq s) /\ p.2 = Z.land (hd 0 (es_irq s)) IRQ_MASK.

Lemma read_irq_spec s s1 (Q : unit -> imx_state * Z -> Prop) e :
  goes_on s s1 -> (forall p, irq_round s p -> Q tt p) ->
  wp (e ← on_state read_irq; let e := Z.land e IRQ_MASK in on_state (emit (RegWrite EIR e));; set_local e) (s1, e) Q.
Proof.
  intros (C & I & R & T) HQ. do 2 wp_step. unfold read_irq. do 2 wp_step. unfold emit.
  destruct (es_irq s1) as [|e' l] eqn:E; repeat wp_step; apply HQ; unfold irq_round; rewrite <- I;
    (split_and!; [by repeat apply conserves_irq || apply conserves_events|auto..]); cbn; congruence.
Qed.

Lemma imx_handle_irq_body_spec s e :
  eth_wf s -> wp (handle_irq_body config) (s, e) (fun _ p => irq_round s p).
Proof.
  intros Hwf. unfold handle_irq_body. do 3 wp_step. cbn [snd].
  assert (forall s, eth_wf s -> goes_on s s) as Hrefl by (intros; split_and!; [by apply conserves_refl|done..]).
  assert (wp (when (negb (Z.land e NETIRQ_TXF =? 0)) (on_state (tx_return config);; on_state tx_provide)) (s, e)
            (fun _ p => goes_on s p.1 /\ p.2 = e)) as Htx.
  { wp_step; [|by split; auto]. do 2 wp_step.
    wp_use (tx_return_goes_on s Hwf). intros [] s1 Hg1. wp_step. wp_use (tx_provide_goes_on s1 (proj1 (proj1 Hg1))).
    intros [] s2 [Hg2 _]. split; [|done]. by eapply goes_on_trans. }
  wp_use Htx. intros [] [s1 e1] [Hg1 He1]. cbn [fst snd] in *. subst e1. wp_step.
  assert (wp (when (negb (Z.land e NETIRQ_RXF =? 0)) (on_state (rx_return config);; on_state rx_provide)) (s1, e)
            (fun _ p => goes_on s1 p.1 /\ p.2 = e)) as Hrx.
  { pose proof (proj1 (proj1 Hg1)) as Hwf1. wp_step; [|by split; auto]. do 2 wp_step.
    wp_use (rx_return_conserves s1 Hwf1). intros [] s2 (C2 & I2 & T2). wp_step.
    wp_use (rx_provide_goes_on s2 (proj1 C2)). intros [] s3 ((C3 & I3 & R3 & T3) & Hready & _).
    split; [|done]. split_and!; [by eapply conserves_trans|cbn in *; congruence|auto..]. }
  wp_use Hrx. intros [] [s2 e2] [Hg2 He2]. cbn [fst snd] in *. subst e2.
  apply (read_irq_spec s); [by eapply goes_on_trans|done].
Qed.

Lemma imx_handle_irq_spec s :
  eth_wf s -> wp (handle_irq config) s (fun _ s' => conserves s s' /\ (rx_ready s -> rx_ready s') /\ (tx_ready s -> tx_ready s')).
Proof.
  intros Hwf. unfold handle_irq.
  apply wp_bind. apply (wp_intro _ _ (hd 0 (es_irq s)) (set_irq (tail (es_irq s)) s)).
  { unfold read_irq, mbind, M_bind, get. destruct (es_irq s) eqn:E; [|done]. cbn. do 3 f_equal. destruct s; cbn in *. by subst. }
  unfold emit. do 4 wp_step.
  apply (wp_loop_le (fun p => conserves s p.1 /\ (rx_ready s -> rx_ready p.1) /\ (tx_ready s -> tx_ready p.1))
           (fun p => if negb (Z.land p.2 IRQ_MASK =? 0) then S (length (es_irq p.1)) else 0%nat)).
  - split_and!; [|done..]. by apply conserves_events, conserves_irq, conserves_refl.
  - cbn. destruct (negb _); cbn; lia.
  - intros [s1 e] (C & R & T) Hgo. cbn [fst snd] in *. rewrite Hgo.
    wp_use (imx_handle_irq_body_spec s1 e (proj1 C)). intros [] [s2 e2] (C2 & R2 & T2 & I2 & E2). cbn [fst snd] in *.
    split; [split_and!; [by eapply conserves_trans|auto..]|]. subst e2. rewrite I2.
    destruct (es_irq s1) as [|e' l]; cbn [hd tail length]; [rewrite !Z.land_0_l; cbn; lia|case_match; lia].
  - intros [s1 e] HI _. by wp_step.
Qed.

(** ** Properties *)

(** C7. Whatever the driver is notified of, whatever interrupts are pending and
    whenever the device writes descriptors back meanwhile, [notified]
    terminates without a failed assertion, and the sequence of buffer
    addresses of each direction, from those handed on over those in the ring to
    those still to come, is unchanged: no buffer is lost, duplicated or
    overtaken, and no queue or ring overruns.  A virtualiser that adds buffers
    later will know that the driver wants to be notified, unless the receive
    ring is full, and then the next interrupt for it makes the driver look. *)
Theorem eth_imx_notified_conserves (s : imx_state) (ch : Z) :
  eth_wf s -> NoDup [ec_irq config; ec_virt_rx config; ec_virt_tx config] ->
  wp (notified config ch) s (fun _ s' =>
    eth_wf s' /\ (forall dir, buffer_seq dir s' = buffer_seq dir s) /\
    (ch = ec_virt_rx config \/ rx_ready s -> rx_ready s') /\
    (ch = ec_virt_tx config \/ tx_ready s -> tx_ready s') /\
    (ch = ec_virt_rx config -> can_provide Rx s' = false) /\
    (ch = ec_virt_tx config -> can_provide Tx s' = false)).
Proof.
  intros Hwf Hnd. rewrite !NoDup_cons, !not_elem_of_cons in Hnd. destruct Hnd as ((N1 & N2 & _) & (N3 & _) & _).
  unfold notified.
  destruct (Z.eqb_spec ch (ec_irq config)) as [->|H1]; [|destruct (Z.eqb_spec ch (ec_virt_rx config)) as [->|H2];
    [|destruct (Z.eqb_spec ch (ec_virt_tx config)) as [->|H3]]].
  - wp_step. wp_use (imx_handle_irq_spec s Hwf). intros [] s1 (C & R & T). unfold emit. wp_step.
    apply (conserves_events (es_events s1 ++ [DeferredIrqAck (ec_irq config)])) in C.
    split_and!; [apply C|apply C|intros [?|?]; [done|by apply R]|intros [?|?]; [done|by apply T]|done..].
  - wp_use (rx_provide_goes_on s Hwf). intros [] s1 ((C & _ & R & T) & Hr & Hp).
    split_and!; [apply C|apply C|done|intros [?|?]; [done|auto]|done..].
  - wp_use (tx_provide_goes_on s Hwf). intros [] s1 ((C & _ & R & T) & Ht & Hp).
    split_and!; [apply C|apply C|intros [?|?]; [done|auto]|done..].
  - wp_step. split_and!; try done; intros [?|?]; done.
Qed.

(** The four ring operations, while the device works: the provides move
    buffers from the queue into the ring, in order, until the ring is full or
    the queue empty, with the address, length, flags and end-of-ring mark the
    device expects; the returns hand on exactly the descriptors at the head
    that the device has written back, in order, with the length it wrote
    (receive) or 0 (transmit), stop at the first it still owns, and notify the
    virtualiser iff something was handed on and a signal is asked for. *)
Theorem eth_imx_ring_operations (s : imx_state) :
  eth_wf s ->
  wp rx_provide s (fun _ s' => exists s1 k,
    provided Rx rx_desc (fun _ _ => [RegWrite RDAR RDAR_RDAR]) s s1 k /\ can_provide Rx s1 = false /\
    s' = with_signal Rx Free (if hw_ring_full (es_rx s1) then 1 else 0) s1) /\
  wp tx_provide s (fun _ s' => exists s1 k,
    provided Tx tx_desc (fun _ _ => [RegWrite TDAR TDAR_TDAR]) s s1 k /\ can_provide Tx s1 = false /\
    s' = with_signal Tx Active 0 s1) /\
  wp (rx_return config) s (fun _ s' => exists s1 taken,
    returned Rx rx_buf s s1 taken /\ Forall (fun d => hd_own d = true) (take 1 (hw_items (es_rx s1))) /\
    s' = signal_done Rx (ec_virt_rx config) (any_taken taken) s1) /\
  wp (tx_return config) s (fun _ s' => exists s1 taken,
    returned Tx tx_buf s s1 taken /\ Forall (fun d => hd_own d = true) (take 1 (hw_items (es_tx s1))) /\
    s' = signal_done Tx (ec_virt_tx config) (any_taken taken) s1).
Proof.
  intros Hwf. split_and!.
  - apply imx_rx_provide_spec; [apply (Hwf Rx)|eauto].
  - apply imx_tx_provide_spec; [apply (Hwf Tx)|eauto].
  - apply imx_rx_return_spec; [apply Hwf|eauto].
  - apply imx_tx_return_spec; [apply Hwf|eauto].
Qed.

End specs.

(** ** A driver with rings of four descriptors, about to wrap *)

Definition imx_queue_ex (free active : list net_buff_desc) : net_queue_handle :=
  let q l := mk_net_queue (Z.of_nat (length l)) 0 0 (l ++ replicate (8 - length l) (mk_buff 0 0)) in
  mk_net_handle (q free) (q active) 8.
Definition imx_config_ex : eth_config := mk_eth_config 0 1 2.

(** Two receive buffers are with the device, one packet waits to be sent; the
    device fills the first buffer while the driver handles the interrupt. *)
Definition imx_state_ex : imx_state :=
  mk_eth (mk_hw_ring 1 (2 ^ 32 - 1) 4 [mk_imx_desc 0 RXD_EMPTY 8192; mk_imx_desc 0 0 0; mk_imx_desc 0 0 0;
                                         mk_imx_desc 0 (RXD_EMPTY + WRAP) 4096])
         (mk_hw_ring 7 7 4 (replicate 4 (mk_imx_desc 0 0 0)))
         (imx_queue_ex [mk_buff 12288 0] []) (imx_queue_ex [] [mk_buff 65536 60])
         [[(Rx, 3%nat, mk_imx_desc 1500 WRAP 0)]] [NETIRQ_RXF] [].

Lemma imx_state_ex_wf : eth_wf imx_state_ex.
Proof.
  assert (forall h t (l : list imx_desc), 0 <= h < 2 ^ 32 -> 0 <= t < 2 ^ 32 -> length l = 4%nat -> ring_len (2 ^ 32) h t <= 4 ->
    hw_wf (mk_hw_ring t h 4 l)) as Hring.
  { intros h t l Hh Ht Hl Hlen. split; cbn; try lia. by exists 1073741824. }
  assert (forall t (l : list net_buff_desc), 0 <= t <= 8 -> length l = 8%nat -> ring_wf (2 ^ 16) 8 0 t l) as Hq.
  { intros t l Ht Hl. split; try lia; [by exists 8192|]. unfold ring_len. rewrite Z.mod_small; lia. }
  intros []; (split; [split_and!|..]).
  - apply Hring; cbn; done || lia.
  - by apply Hq; cbn; lia.
  - by apply Hq; cbn; lia.
  - by vm_compute.
  - change (Forall is_u32 [4096; 8192; 12288]). unfold is_u32. repeat apply Forall_cons_2; try apply Forall_nil_2; lia.
  - apply Hring; cbn; done || lia.
  - by apply Hq; cbn; lia.
  - by apply Hq; cbn; lia.
  - by vm_compute.
  - change (Forall is_u32 [65536]). unfold is_u32. repeat apply Forall_cons_2; try apply Forall_nil_2; lia.
Qed.

Lemma eth_imx_notified_conserves_witness :
  wp (notified imx_config_ex 0) imx_state_ex (fun _ s' => eth_wf s' /\ buffer_seq Rx s' = [4096; 8192; 12288]) /\
  match notified imx_config_ex 0 imx_state_ex with
  | Ok (_, s') => net_items Active (es_rx_queue s') = [mk_buff 4096 1500] /\
                  es_events s' = [RegWrite EIR NETIRQ_RXF; Notify 1; RegWrite RDAR RDAR_RDAR; RegWrite EIR 0; DeferredIrqAck 0]
  | Fault _ => False
  end.
Proof.
  split; [|by vm_compute]. eapply wp_mono; [apply (eth_imx_notified_conserves imx_config_ex imx_state_ex 0)|].
  - exact imx_state_ex_wf.
  - repeat apply NoDup_cons_2; try apply NoDup_nil_2; cbn; set_solver.
  - intros _ s' (Hwf & Hseq & _). split; [exact Hwf|]. rewrite (Hseq Rx). reflexivity.
Defined.

Lemma eth_imx_ring_operations_witness :
  exists s1 taken, returned Rx rx_buf imx_state_ex s1 taken /\ rx_buf <$> taken = [mk_buff 4096 1500].
Proof.
  destruct (eth_imx_ring_operations imx_config_ex imx_state_ex imx_state_ex_wf) as (_ & _ & H & _).
  apply wp_elim in H. destruct H as ([] & s' & E & s1 & taken & Hr & _ & Hs). exists s1, taken. split; [exact Hr|].
  destruct Hr as (_ & _ & _ & _ & _ & Hout & _). 
  assert (net_items Active (es_rx_queue s') = net_items Active (es_rx_queue s1)) as Hq.
  { rewrite Hs. unfold signal_done. by destruct (_ && _). }
  cbn [side_out side_in other es_queue] in Hout. change (net_items Active (es_rx_queue imx_state_ex)) with (@nil net_buff_desc) in Hout.
  cbn [app] in Hout. rewrite <- Hout, <- Hq. vm_compute in E. injection E as <-. reflexivity.
Defined.
