(* ===== verification/EthMeson.v ===== *)
(** * The Meson network driver: drivers/network/meson/ethernet.c

    Like the i.MX driver, with descriptors of four words; a received frame with
    an error goes straight back into the receive ring. *)

From S2P Require Import Prelude Ring Fifo NetQueue Microkit HwRing HwRecycle.

(** The registers, by their offset from [eth_mac], and bits of ethernet.h; the
    DMA registers start at [DMA_REG_OFFSET], 0x1000. *)
Definition RX_COUNT : Z := 256.
Definition TX_COUNT : Z := 256.
Definition MAX_RX_FRAME_SZ : Z := 1536.
Definition POLL_DATA : Z := 2 ^ 32 - 1.
Definition txpolldemand : Z := 0x1004.
Definition rxpolldemand : Z := 0x1008.
Definition dma_status : Z := 0x1014.
Definition DMA_INTR_TXF : Z := Z.shiftl 1 0.
Definition DMA_INTR_RXF : Z := Z.shiftl 1 6.
Definition DMA_INTR_FBE : Z := Z.shiftl 1 13.
Definition DMA_INTR_AIS : Z := Z.shiftl 1 15.
Definition DMA_INTR_NIS : Z := Z.shiftl 1 16.
Definition DMA_INTR_NORMAL : Z := Z.lor (Z.lor DMA_INTR_NIS DMA_INTR_TXF) DMA_INTR_RXF.
Definition DMA_INTR_ABNORMAL : Z := Z.lor DMA_INTR_AIS DMA_INTR_FBE.
Definition DMA_INTR_MASK : Z := Z.lor DMA_INTR_NORMAL DMA_INTR_ABNORMAL.
Definition DESC_RXSTS_OWNBYDMA : Z := Z.shiftl 1 31.
Definition DESC_RXSTS_LENMSK : Z := 1073676288. (* 0x3fff0000 *)
Definition DESC_RXSTS_LENSHFT : Z := 16.
Definition DESC_RXSTS_ERROR : Z := Z.shiftl 1 15.
Definition DESC_RXCTRL_RXRINGEND : Z := Z.shiftl 1 25.
Definition DESC_RXCTRL_SIZE1MASK : Z := 2047.
Definition DESC_RXCTRL_SIZE1SHFT : Z := 0.
Definition DESC_TXSTS_OWNBYDMA : Z := Z.shiftl 1 31.
Definition DESC_TXCTRL_TXINT : Z := Z.shiftl 1 31.
Definition DESC_TXCTRL_TXLAST : Z := Z.shiftl 1 30.
Definition DESC_TXCTRL_TXFIRST : Z := Z.shiftl 1 29.
Definition DESC_TXCTRL_TXCIC : Z := Z.shiftl 3 27.
Definition DESC_TXCTRL_TXRINGEND : Z := Z.shiftl 1 25.
Definition DESC_TXCTRL_SIZE1MASK : Z := 2047.
Definition DESC_TXCTRL_SIZE1SHFT : Z := 0.

(** [struct descriptor]; all fields are [uint32_t]. *)
Record meson_desc : Type := mk_meson_desc {
  md_status : Z;
  md_cntl : Z;
  md_addr : Z;
  md_next : Z;
}.
#[export] Instance meson_desc_inhabited : Inhabited meson_desc := populate (mk_meson_desc 0 0 0 0).

(** The device writes the status; the ownership bit is the same in both
    directions. *)
#[export] Instance meson_hw_desc : HwDesc meson_desc := {
  hd_own d := negb (Z.land (md_status d) DESC_RXSTS_OWNBYDMA =? 0);
  hd_addr := md_addr;
  hd_fits := is_u32;
  hd_write_back w d := mk_meson_desc (Z.ldiff (md_status w) DESC_RXSTS_OWNBYDMA) (md_cntl d) (md_addr d) (md_next d);
}.
#[export] Instance meson_hw_desc_laws : HwDescLaws meson_desc.
Proof.
  split; [|done]. intros w d. cbn [hd_own meson_hw_desc hd_write_back md_status].
  by rewrite Z.ldiff_land, <- Z.land_assoc, (Z.land_comm (Z.lnot _)), Z.land_lnot_diag, Z.land_0_r.
Qed.

Abbreviation meson_state := (eth_state meson_desc).

(** The identifiers of [device_resources] and [config], and whether
    [CONFIG_PLAT_ODROIDC4] is defined. *)
Record eth_config : Type := mk_eth_config {
  ec_irq : Z;
  ec_virt_rx : Z;
  ec_virt_tx : Z;
  ec_odroidc4 : bool;
}.

Definition update_ring_slot (idx status cntl phys next : Z) : M (hw_ring meson_desc) unit :=
  set_slot idx (mk_meson_desc status cntl (u32 phys) next).

(** The control word of a receive descriptor. *)
Definition rx_cntl (idx cap : Z) : Z :=
  let cntl := Z.land (Z.shiftl MAX_RX_FRAME_SZ DESC_RXCTRL_SIZE1SHFT) DESC_RXCTRL_SIZE1MASK in
  if u32 (idx + 1) =? cap then Z.lor cntl DESC_RXCTRL_RXRINGEND else cntl.

Definition rx_provide_body : M meson_state unit :=
  r ← on_queue Rx net_dequeue_free;
  match r with
  | None => raise AssertFail
  | Some buffer =>
    s ← get;
    idx ← lift (umod (hr_tail (es_rx s)) (hr_capacity (es_rx s)));
    let cntl := rx_cntl idx (hr_capacity (es_rx s)) in
    on_ring Rx (update_ring_slot idx DESC_RXSTS_OWNBYDMA cntl (io_or_offset buffer) 0;; incr_tail);;
    emit (RegWrite rxpolldemand POLL_DATA)
  end.

Definition rx_provide_outer : M (meson_state * bool) unit :=
  on_state (loop (provide_bound Rx) (can_provide Rx) rx_provide_body);;
  on_state (on_queue Rx net_request_signal_free);;
  s ← gets fst;
  if negb (net_queue_empty_free (es_rx_queue s)) && negb (hw_ring_full (es_rx s))
  then on_state (on_queue Rx net_cancel_signal_free);; set_local true
  else set_local false.
Definition rx_provide : M meson_state unit :=
  with_local true (loop (fun _ => 2%nat) snd rx_provide_outer);; mret tt.

(** The local variables are [packets_transferred] and whether the loop has been
    left by its [break]. *)
Definition rx_return_body : M (meson_state * (bool * bool)) unit :=
  s ← gets fst;
  idx ← lift (umod (hr_head (es_rx s)) (hr_capacity (es_rx s)));
  on_state device_runs;;
  p ← get;
  d ← lift (load (hr_descr (es_rx p.1)) idx);
  if negb (Z.land (md_status d) DESC_RXSTS_OWNBYDMA =? 0) then set_local (p.2.1, true)
  else
    (if negb (Z.land (md_status d) DESC_RXSTS_ERROR =? 0) then
       idx ← lift (umod (hr_tail (es_rx p.1)) (hr_capacity (es_rx p.1)));
       let cntl := rx_cntl idx (hr_capacity (es_rx p.1)) in
       on_state (on_ring Rx (update_ring_slot idx DESC_RXSTS_OWNBYDMA cntl (md_addr d) 0));;
       on_state (emit (RegWrite rxpolldemand POLL_DATA));;
       on_state (on_ring Rx incr_tail)
     else
       let len := Z.shiftr (Z.land (md_status d) DESC_RXSTS_LENMSK) DESC_RXSTS_LENSHFT in
       err ← on_state (on_queue Rx (net_enqueue_active (mk_buff (md_addr d) (u16 len))));
       assert_ (err =? 0);;
       set_local (true, false));;
    on_state (on_ring Rx incr_head).

Definition tx_provide_body (config : eth_config) : M meson_state unit :=
  r ← on_queue Tx net_dequeue_active;
  match r with
  | None => raise AssertFail
  | Some buffer =>
    s ← get;
    idx ← lift (umod (hr_tail (es_tx s)) (hr_capacity (es_tx s)));
    let cntl := Z.land (u32 (Z.shiftl (bd_len buffer) DESC_TXCTRL_SIZE1SHFT)) DESC_TXCTRL_SIZE1MASK in
    let cntl := Z.lor cntl (Z.lor (Z.lor DESC_TXCTRL_TXLAST DESC_TXCTRL_TXFIRST) DESC_TXCTRL_TXINT) in
    let cntl := if u32 (idx + 1) =? hr_capacity (es_tx s) then Z.lor cntl DESC_TXCTRL_TXRINGEND else cntl in
    let cntl := if ec_odroidc4 config then Z.lor cntl DESC_TXCTRL_TXCIC else cntl in
    on_ring Tx (update_ring_slot idx DESC_TXSTS_OWNBYDMA cntl (io_or_offset buffer) 0;; incr_tail)
  end.

Definition tx_provide_outer (config : eth_config) : M (meson_state * bool) unit :=
  on_state (loop (provide_bound Tx) (can_provide Tx) (tx_provide_body config));;
  on_state (on_queue Tx net_request_signal_active);;
  s ← gets fst;
  if negb (hw_ring_full (es_tx s)) && negb (net_queue_empty_active (es_tx_queue s))
  then on_state (on_queue Tx net_cancel_signal_active);; set_local true
  else set_local false.
Definition tx_provide (config : eth_config) : M meson_state unit :=
  (with_local true (loop (fun _ => 2%nat) snd (tx_provide_outer config));; mret tt);;
  emit (RegWrite txpolldemand POLL_DATA).

Definition tx_return_body : M (meson_state * (bool * bool)) unit :=
  s ← gets fst;
  idx ← lift (umod (hr_head (es_tx s)) (hr_capacity (es_tx s)));
  on_state device_runs;;
  p ← get;
  d ← lift (load (hr_descr (es_tx p.1)) idx);
  if negb (Z.land (md_status d) DESC_TXSTS_OWNBYDMA =? 0) then set_local (p.2.1, true)
  else
    err ← on_state (on_queue Tx (net_enqueue_free (mk_buff (md_addr d) 0)));
    assert_ (err =? 0);;
    set_local (true, false);;
    on_state (on_ring Tx incr_head).

Section handlers.
Context (config : eth_config).

Definition rx_return : M meson_state unit :=
  r ← with_local (false, false) (loop rx_return_bound (can_return Rx) rx_return_body);
  let packets_transferred := (r : unit * (bool * bool)).2.1 in
  s ← get;
  when (packets_transferred && net_require_signal_active (es_rx_queue s))
    (on_queue Rx net_cancel_signal_active;;
     emit (Notify (ec_virt_rx config))).

Definition tx_return : M meson_state unit :=
  r ← with_local (false, false) (loop (return_bound Tx) (can_return Tx) tx_return_body);
  let enqueued := (r : unit * (bool * bool)).2.1 in
  s ← get;
  when (enqueued && net_require_signal_free (es_tx_queue s))
    (on_queue Tx net_cancel_signal_free;;
     emit (Notify (ec_virt_tx config))).

(** [e = eth_dma->status; eth_dma->status &= e] reads the register twice. *)
Definition read_status : M meson_state Z :=
  e ← read_irq;
  e2 ← read_irq;
  emit (RegWrite dma_status (Z.land e2 e));;
  mret e.

Definition handle_irq_body : M (meson_state * Z) unit :=
  e ← gets snd;
  when (negb (Z.land e DMA_INTR_TXF =? 0)) (on_state tx_return;; on_state (tx_provide config));;
  when (negb (Z.land e DMA_INTR_RXF =? 0)) (on_state rx_return);;
  e ← on_state read_status;
  set_local e.

Definition handle_irq : M meson_state unit :=
  e ← read_status;
  with_local e (loop (fun p => S (length (es_irq p.1))) (fun p => negb (Z.land p.2 DMA_INTR_MASK =? 0)) handle_irq_body);;
  mret tt.

Definition notified (ch : Z) : M meson_state unit :=
  if ch =? ec_irq config then handle_irq;; emit (DeferredIrqAck ch)
  else if ch =? ec_virt_rx config then rx_provide
  else if ch =? ec_virt_tx config then tx_provide config
  else mret tt.

End handlers.

(** ** One round of each loop *)

Definition rx_desc (cap : Z) (b : net_buff_desc) (idx : Z) : meson_desc :=
  mk_meson_desc DESC_RXSTS_OWNBYDMA (rx_cntl idx cap) (u32 (io_or_offset b)) 0.
Definition tx_desc (config : eth_config) (cap : Z) (b : net_buff_desc) (idx : Z) : meson_desc :=
  let cntl := Z.land (u32 (Z.shiftl (bd_len b) DESC_TXCTRL_SIZE1SHFT)) DESC_TXCTRL_SIZE1MASK in
  let cntl := Z.lor cntl (Z.lor (Z.lor DESC_TXCTRL_TXLAST DESC_TXCTRL_TXFIRST) DESC_TXCTRL_TXINT) in
  let cntl := if u32 (idx + 1) =? cap then Z.lor cntl DESC_TXCTRL_TXRINGEND else cntl in
  mk_meson_desc DESC_TXSTS_OWNBYDMA (if ec_odroidc4 config then Z.lor cntl DESC_TXCTRL_TXCIC else cntl) (u32 (io_or_offset b)) 0.

Lemma meson_rx_desc_addr cap b idx : hd_fits (io_or_offset b) -> hd_addr (rx_desc cap b idx) = io_or_offset b.
Proof. exact (u32_small _). Qed.
Lemma meson_tx_desc_addr config cap b idx : hd_fits (io_or_offset b) -> hd_addr (tx_desc config cap b idx) = io_or_offset b.
Proof. exact (u32_small _). Qed.

Lemma meson_rx_provide_body_spec : provides_one Rx rx_desc (fun _ _ => [RegWrite rxpolldemand POLL_DATA]) rx_provide_body.
Proof.
  intros s b l Q Hwf Hb Hroom HQ. unfold rx_provide_body. wp_step.
  eapply (take_next Rx); [done..|]. intros s1 Es1 Hpush. cbn [es_ring] in *. do 3 wp_step.
  rewrite Es1. eapply wp_lift; [apply umod_ok; destruct Hwf as [[] _]; lia|]. wp_step.
  apply Hpush. intros s' **. unfold emit. wp_step. apply HQ; try done. cbn. congruence.
Qed.

Lemma meson_tx_provide_body_spec config : provides_one Tx (tx_desc config) (fun _ _ => []) (tx_provide_body config).
Proof.
  intros s b l Q Hwf Hb Hroom HQ. unfold tx_provide_body. wp_step.
  eapply (take_next Tx); [done..|]. intros s1 Es1 Hpush. cbn [es_ring] in *. do 3 wp_step.
  rewrite Es1. eapply wp_lift; [apply umod_ok; destruct Hwf as [[] _]; lia|].
  apply Hpush. intros s' **. apply HQ; try done. by rewrite app_nil_r.
Qed.

Definition has_error (d : meson_desc) : bool := negb (Z.land (md_status d) DESC_RXSTS_ERROR =? 0).
Definition rx_buf (d : meson_desc) : net_buff_desc :=
  mk_buff (md_addr d) (u16 (Z.shiftr (Z.land (md_status d) DESC_RXSTS_LENMSK) DESC_RXSTS_LENSHFT)).
Definition tx_buf (d : meson_desc) : net_buff_desc := mk_buff (md_addr d) 0.

Lemma meson_tx_return_body_spec : returns_one Tx tx_buf tx_return_body.
Proof.
  intros s flag d l Q Hwf Hd Hroom HQ. unfold tx_return_body. do 3 wp_step. cbn [fst].
  eapply wp_lift; [apply umod_ok; destruct Hwf as [[] _]; cbn in *; lia|]. do 2 wp_step. apply device_runs_spec. intros s1 Hle.
  destruct (find_head Tx s s1 d l Hwf Hd Hle) as (d' & l' & Hll & Hd' & Hwf1 & Hload & Hc & Hq & Hev & Ho).
  do 3 wp_step. eapply wp_lift; [exact Hload|]. change (negb (Z.land (md_status d') DESC_TXSTS_OWNBYDMA =? 0)) with (hd_own d').
  destruct (hd_own d') eqn:Eo.
  - wp_step. specialize (HQ s1 d' l'). rewrite Eo, Hq in HQ. apply HQ; rewrite ?app_nil_r; done.
  - do 2 wp_step. eapply (hand_on Tx); [done|exact Hd'|by rewrite Hq|]. intros s2 Hpop.
    wp_step. apply wp_assert; [done|]. do 3 wp_step. apply Hpop. intros s' Ho' Hw' Hi' Hc' Hout' Hin' Hcap' Hsi' Hso' Hev' _.
    rewrite Hq in *. specialize (HQ s' d' l'). rewrite Eo in HQ. apply HQ; try (done || congruence). by etrans.
Qed.

Definition is_poll (e : event) : Prop := e = RegWrite rxpolldemand POLL_DATA.

Lemma meson_rx_return_body_spec : recycles_one has_error rx_buf is_poll rx_return_body.
Proof.
  intros s flag Hwf Hne Hroom Hu. unfold rx_return_body. do 3 wp_step. cbn [fst].
  eapply wp_lift; [apply umod_ok; destruct Hwf as [[] _]; cbn in *; lia|]. do 2 wp_step.
  apply rx_look; [done..|]. intros s1 d l Hf. pose proof (rf_wf _ _ _ _ Hf) as Hwf1.
  do 3 wp_step. eapply wp_lift; [exact (rf_load _ _ _ _ Hf)|].
  change (negb (Z.land (md_status d) DESC_RXSTS_OWNBYDMA =? 0)) with (hd_own d).
  destruct (hd_own d) eqn:Eo; [|change (negb (Z.land (md_status d) DESC_RXSTS_ERROR =? 0)) with (has_error d); destruct (has_error d) eqn:Ee].
  - wp_step. by eapply rx_step_owned.
  - do 2 wp_step. eapply wp_lift; [apply umod_ok; destruct Hwf1 as [[] _]; cbn in *; lia|].
    unfold on_ring, update_ring_slot, set_slot, emit, incr_tail, incr_head. do 6 wp_step.
    eapply wp_lift; [eapply ring_store_slot; exact (proj1 Hwf1)|]. repeat wp_step. cbn [fst snd].
    eapply (rx_step_recycled _ _ _ s s1 d l _ [RegWrite rxpolldemand POLL_DATA] flag Hf Eo); [done| |by apply Forall_singleton].
    rewrite <- (rf_addrs _ _ _ _ Hf) in Hu. apply u32_small. by inversion Hu.
  - do 3 wp_step. eapply (rx_step_good has_error rx_buf is_poll); [done..|]. intros s2 Hpop.
    wp_step. apply wp_assert; [done|]. do 2 wp_step. by apply Hpop.
Qed.

(** ** The four operations *)

#[local] Abbreviation rx_items s := (hw_items (es_rx s)).
#[local] Abbreviation rx_out s := (net_items Active (es_rx_queue s)).
#[local] Abbreviation moved := (rx_moved has_error rx_buf is_poll).

Lemma meson_rx_provide_spec s (Q : unit -> meson_state -> Prop) :
  dir_wf Rx s ->
  (forall s1 k, provided Rx rx_desc (fun _ _ => [RegWrite rxpolldemand POLL_DATA]) s s1 k -> can_provide Rx s1 = false ->
     Q tt (with_signal Rx Free 0 s1)) ->
  wp rx_provide s Q.
Proof. apply rx_reprocess, meson_rx_provide_body_spec. Qed.

Section specs.
Context (config : eth_config).

Lemma meson_tx_provide_spec s (Q : unit -> meson_state -> Prop) :
  dir_wf Tx s ->
  (forall s1 k, provided Tx (tx_desc config) (fun _ _ => []) s s1 k -> can_provide Tx s1 = false ->
     Q tt (set_events (es_events s1 ++ [RegWrite txpolldemand POLL_DATA]) (with_signal Tx Active 0 s1))) ->
  wp (tx_provide config) s Q.
Proof.
  intros Hwf HQ. unfold tx_provide. wp_step. eapply tx_reprocess; [apply meson_tx_provide_body_spec|done|].
  intros s1 k Hp Hstop. unfold emit. wp_step. by apply (HQ s1 k).
Qed.

Lemma meson_rx_return_spec s (Q : unit -> meson_state -> Prop) :
  eth_dir_wf Rx s ->
  (forall s1 good, moved s s1 good -> Forall (fun d => hd_own d = true) (take 1 (rx_items s1)) ->
     Q tt (signal_done Rx (ec_virt_rx config) (any_taken good) s1)) ->
  wp (rx_return config) s Q.
Proof.
  intros Hwf HQ. unfold rx_return. do 2 wp_step. apply (recycle_loop has_error rx_buf is_poll); [apply meson_rx_return_body_spec|done|].
  intros s1 good broke Hm Hown. by apply signal_rx_spec, HQ.
Qed.

Lemma meson_tx_return_spec s (Q : unit -> meson_state -> Prop) :
  eth_dir_wf Tx s ->
  (forall s1 taken, returned Tx tx_buf s s1 taken -> Forall (fun d => hd_own d = true) (take 1 (hw_items (es_tx s1))) ->
     Q tt (signal_done Tx (ec_virt_tx config) (any_taken taken) s1)) ->
  wp (tx_return config) s Q.
Proof.
  intros Hwf HQ. unfold tx_return. do 2 wp_step.
  apply (return_loop Tx tx_buf); [apply meson_tx_return_body_spec|apply Hwf|by apply ed_return_room|].
  intros s1 taken broke Hr Hown. by apply signal_tx_spec, HQ.
Qed.

Lemma meson_rx_provide_keeps s :
  eth_wf s -> wp rx_provide s (fun _ s' => keeps s s' /\ es_irq s' = es_irq s /\ rx_ready s' /\ can_provide Rx s' = false).
Proof.
  intros Hwf. apply meson_rx_provide_spec; [apply (Hwf Rx)|]. intros s1 k Hp Hstop.
  destruct (provided_keeps_rx _ _ s s1 k meson_rx_desc_addr Hwf Hp) as [K I].
  split_and!; [done..|]. rewrite <- Hstop. exact (can_provide_signal Rx s1 _).
Qed.

Lemma meson_tx_provide_keeps s :
  eth_wf s ->
  wp (tx_provide config) s (fun _ s' => keeps s s' /\ es_irq s' = es_irq s /\ tx_ready s' /\ can_provide Tx s' = false).
Proof.
  intros Hwf. apply meson_tx_provide_spec; [apply (Hwf Tx)|]. intros s1 k Hp Hstop.
  destruct (provided_keeps_tx _ _ s s1 k (meson_tx_desc_addr config) Hwf Hp) as [K I].
  split_and!; [by apply keeps_events|done..|]. rewrite <- Hstop. exact (can_provide_signal Tx s1 _).
Qed.

Lemma meson_rx_return_keeps s :
  eth_wf s -> wp (rx_return config) s (fun _ s' => keeps s s' /\ es_irq s' = es_irq s).
Proof.
  intros Hwf. apply meson_rx_return_spec; [apply Hwf|]. intros s1 good Hm _.
  exact (rx_moved_keeps has_error rx_buf is_poll s s1 good _ (fun _ => eq_refl) Hwf Hm).
Qed.

Lemma meson_tx_return_keeps s :
  eth_wf s -> wp (tx_return config) s (fun _ s' => keeps s s' /\ es_irq s' = es_irq s).
Proof.
  intros Hwf. apply meson_tx_return_spec; [apply Hwf|]. intros s1 taken Hr _.
  exact (returned_keeps tx_buf s s1 taken _ (fun _ => eq_refl) Hwf Hr).
Qed.

(** ** Properties *)

(** As for the i.MX driver: whatever the notification, the pending
    interrupts and the write-backs of the device, [notified] terminates
    without a failed assertion, no buffer is lost or duplicated and no queue or
    ring overruns; the transmit direction keeps its order, and the receive
    direction up to frames with errors, which go back into the ring.  The
    driver's wish to be notified is never withdrawn. *)
Theorem eth_meson_notified_conserves (s : meson_state) (ch : Z) :
  eth_wf s -> NoDup [ec_irq config; ec_virt_rx config; ec_virt_tx config] ->
  wp (notified config ch) s (fun _ s' =>
    eth_wf s' /\ buffer_seq Rx s' ≡ₚ buffer_seq Rx s /\ buffer_seq Tx s' = buffer_seq Tx s /\
    (ch = ec_virt_rx config \/ rx_ready s -> rx_ready s') /\
    (ch = ec_virt_tx config \/ tx_ready s -> tx_ready s') /\
    (ch = ec_virt_rx config -> can_provide Rx s' = false) /\
    (ch = ec_virt_tx config -> can_provide Tx s' = false)).
Proof.
  intros Hwf Hnd. eapply (recycle_dispatch_spec (tx_return config) (tx_provide config) (rx_return config) rx_provide);
    [apply meson_tx_return_keeps|apply meson_tx_provide_keeps|apply meson_rx_return_keeps|apply meson_rx_provide_keeps|done..].
Qed.

(** [rx_return], while the device works: frames the device has written
    back leave the ring from its head until one that it still owns; those
    without an error are handed on in order with the length in their status,
    those with an error are given to the device again, with the same address.
    The loop ends although the device may complete these again, and the
    virtualiser is notified iff a frame was handed on and a signal is asked
    for. *)
Theorem eth_meson_rx_return_correct (s : meson_state) :
  eth_wf s ->
  wp (rx_return config) s (fun _ s' => exists s1 good,
    Forall (fun d => hd_own d = false /\ has_error d = false) good /\
    rx_out s1 = rx_out s ++ (rx_buf <$> good) /\
    (hd_addr <$> good) ++ (hd_addr <$> rx_items s1) ≡ₚ hd_addr <$> rx_items s /\
    Forall (fun d => hd_own d = true) (take 1 (rx_items s1)) /\
    net_items Free (es_rx_queue s1) = net_items Free (es_rx_queue s) /\ es_tx_queue s1 = es_tx_queue s /\
    (exists evs, es_events s1 = es_events s ++ evs /\ Forall is_poll evs) /\
    s' = signal_done Rx (ec_virt_rx config) (any_taken good) s1).
Proof.
  intros Hwf. apply meson_rx_return_spec; [apply Hwf|]. intros s1 good Hm Hown. exists s1, good.
  split_and!; try apply Hm; done.
Qed.

End specs.

(** ** A driver with rings of four descriptors, about to wrap *)

Definition meson_queue_ex (free active : list net_buff_desc) : net_queue_handle :=
  let q l := mk_net_queue (Z.of_nat (length l)) 0 0 (l ++ replicate (8 - length l) (mk_buff 0 0)) in
  mk_net_handle (q free) (q active) 8.
Definition meson_config_ex : eth_config := mk_eth_config 0 1 2 true.

(** Two receive buffers are with the device; it completes the first with an
    error, then the second with 64 bytes, while the driver handles the
    interrupt. *)
Definition meson_state_ex : meson_state :=
  mk_eth (mk_hw_ring 1 (2 ^ 32 - 1) 4 [mk_meson_desc DESC_RXSTS_OWNBYDMA 0 8192 0; mk_meson_desc 0 0 0 0;
                                         mk_meson_desc 0 0 0 0; mk_meson_desc DESC_RXSTS_OWNBYDMA 0 4096 0])
         (mk_hw_ring 7 7 4 (replicate 4 (mk_meson_desc 0 0 0 0)))
         (meson_queue_ex [mk_buff 12288 0] []) (meson_queue_ex [] [mk_buff 65536 60])
         [[(Rx, 3%nat, mk_meson_desc DESC_RXSTS_ERROR 0 0 0)]; [(Rx, 0%nat, mk_meson_desc (64 * 65536) 0 0 0)]]
         [DMA_INTR_RXF; DMA_INTR_RXF] [].

Lemma meson_state_ex_wf : eth_wf meson_state_ex.
Proof.
  assert (forall h t (l : list meson_desc), 0 <= h < 2 ^ 32 -> 0 <= t < 2 ^ 32 -> length l = 4%nat -> ring_len (2 ^ 32) h t <= 4 ->
    hw_wf (mk_hw_ring t h 4 l)) as Hring.
  { intros h t l Hh Ht Hl Hlen. split; cbn; try lia. by exists 1073741824. }
  assert (forall t (l : list net_buff_desc), 0 <= t <= 8 -> length l = 8%nat -> ring_wf (2 ^ 16) 8 0 t l) as Hq.
  { intros t l Ht Hl. split; try lia; [by exists 8192|]. unfold ring_len. rewrite Z.mod_small; lia. }
  intros []; (split; [split_and!; [apply Hring; cbn; done || lia|by apply Hq; cbn; lia..]|by vm_compute|]).
  - change (Forall is_u32 [4096; 8192; 12288]). unfold is_u32. repeat apply Forall_cons_2; try apply Forall_nil_2; lia.
  - change (Forall is_u32 [65536]). unfold is_u32. repeat apply Forall_cons_2; try apply Forall_nil_2; lia.
Qed.

Lemma eth_meson_notified_conserves_witness :
  wp (notified meson_config_ex 0) meson_state_ex (fun _ s' => eth_wf s' /\ buffer_seq Rx s' ≡ₚ [4096; 8192; 12288]) /\
  match notified meson_config_ex 0 meson_state_ex with
  | Ok (_, s') => net_items Active (es_rx_queue s') = [mk_buff 8192 64] /\ hd_addr <$> hw_items (es_rx s') = [4096]
  | Fault _ => False
  end.
Proof.
  split; [|by vm_compute]. eapply wp_mono; [apply (eth_meson_notified_conserves meson_config_ex meson_state_ex 0)|].
  - exact meson_state_ex_wf.
  - repeat apply NoDup_cons_2; try apply NoDup_nil_2; cbn; set_solver.
  - intros _ s' (Hwf & Hseq & _). split; [exact Hwf|exact Hseq].
Defined.

Lemma eth_meson_rx_return_correct_witness :
  wp (rx_return meson_config_ex) meson_state_ex (fun _ s' =>
    exists s1 good, net_items Active (es_rx_queue s1) = rx_buf <$> good /\
      s' = signal_done Rx 1 (any_taken good) s1).
Proof.
  eapply wp_mono; [apply (eth_meson_rx_return_correct meson_config_ex meson_state_ex meson_state_ex_wf)|].
  intros _ s' (s1 & good & _ & Hout & _ & _ & _ & _ & _ & Hs). exists s1, good. split; [exact Hout|exact Hs].
Defined.
