(* ===== verification/EthDwmac.v ===== *)
(** * The DesignWare network driver: drivers/network/dwmac-5.10a/ethernet.c

    The device writes a descriptor back over the address of its buffer, so the
    driver keeps what it dequeued beside each descriptor, and hands that on.  As
    in the Meson driver a frame with an error goes back into the receive ring.
    The C build is modelled; the registers that [eth_init] programs are in
    EthDwmacInit. *)

From S2P Require Import Prelude Ring Fifo NetQueue Microkit HwRing HwRecycle.

(** The registers (offsets from [eth_regs]) and bits the loops use
    (ethernet.h). *)
Definition RX_COUNT : Z := 256.
Definition TX_COUNT : Z := 256.
Definition DMA_CH0_TXDESC_TAIL_PTR : Z := 0x1120.
Definition DMA_CH0_RXDESC_TAIL_PTR : Z := 0x1128.
Definition DMA_CH0_STATUS : Z := 0x1160.
Definition DMA_CH0_INTERRUPT_EN_TIE : Z := Z.shiftl 1 0.
Definition DMA_CH0_INTERRUPT_EN_RIE : Z := Z.shiftl 1 6.
Definition DMA_CH0_INTERRUPT_EN_FBEE : Z := Z.shiftl 1 12.
Definition DMA_CH0_INTERRUPT_EN_AIE : Z := Z.shiftl 1 14.
Definition DMA_CH0_INTERRUPT_EN_NIE : Z := Z.shiftl 1 15.
Definition DMA_INTR_NORMAL : Z := Z.lor (Z.lor DMA_CH0_INTERRUPT_EN_TIE DMA_CH0_INTERRUPT_EN_RIE) DMA_CH0_INTERRUPT_EN_NIE.
Definition DMA_INTR_ABNORMAL : Z := Z.lor DMA_CH0_INTERRUPT_EN_FBEE DMA_CH0_INTERRUPT_EN_AIE.
Definition DMA_INTR_MASK : Z := Z.lor DMA_INTR_NORMAL DMA_INTR_ABNORMAL.
Definition DESC_RXSTS_OWNBYDMA : Z := Z.shiftl 1 31.
Definition DESC_RXSTS_BUFFER1_ADDR_VALID : Z := Z.shiftl 1 24.
Definition DESC_RXSTS_IOC : Z := Z.shiftl 1 30.
Definition DESC_RXSTS_ERROR : Z := Z.shiftl 1 15.
Definition DESC_TXSTS_OWNBYDMA : Z := Z.shiftl 1 31.
Definition DESC_TXCTRL_TXINT : Z := Z.shiftl 1 31.
Definition DESC_TXCTRL_TXLAST : Z := Z.shiftl 1 28.
Definition DESC_TXCTRL_TXFIRST : Z := Z.shiftl 1 29.
Definition DESC_TXCTRL_TXCIC : Z := Z.shiftl 3 16.

(** [struct descriptor]; all fields are [uint32_t]. *)
Record dwmac_desc : Type := mk_dwmac_desc {
  dd_addr_low : Z;
  dd_addr_high : Z;
  dd_des2 : Z;
  dd_des3 : Z;
}.

(** The elements of [ring->descr] and of [ring->descr_mdata] at one index. *)
Record dwmac_slot : Type := mk_dwmac_slot {
  ds_descr : dwmac_desc;
  ds_mdata : net_buff_desc;
}.
#[export] Instance dwmac_slot_inhabited : Inhabited dwmac_slot :=
  populate (mk_dwmac_slot (mk_dwmac_desc 0 0 0 0) (mk_buff 0 0)).

(** The device may write all four words; the ownership bit is the same in both
    directions.  [io_or_offset] is a [uint64_t]. *)
#[export] Instance dwmac_hw_desc : HwDesc dwmac_slot := {
  hd_own d := negb (Z.land (dd_des3 (ds_descr d)) DESC_RXSTS_OWNBYDMA =? 0);
  hd_addr d := io_or_offset (ds_mdata d);
  hd_fits := is_u64;
  hd_write_back w d :=
    mk_dwmac_slot (mk_dwmac_desc (dd_addr_low (ds_descr w)) (dd_addr_high (ds_descr w)) (dd_des2 (ds_descr w))
                     (Z.ldiff (dd_des3 (ds_descr w)) DESC_RXSTS_OWNBYDMA)) (ds_mdata d);
}.
#[export] Instance dwmac_hw_desc_laws : HwDescLaws dwmac_slot.
Proof.
  split; [|done]. intros w d. cbn [hd_own dwmac_hw_desc hd_write_back ds_descr dd_des3].
  by rewrite Z.ldiff_land, <- Z.land_assoc, (Z.land_comm (Z.lnot _)), Z.land_lnot_diag, Z.land_0_r.
Qed.

Abbreviation dwmac_state := (eth_state dwmac_slot).

(** The identifiers of [device_resources] and [config], and [rx_desc_base] and
    [tx_desc_base], the addresses of the rings for the device. *)
Record eth_config : Type := mk_eth_config {
  ec_irq : Z;
  ec_virt_rx : Z;
  ec_virt_tx : Z;
  ec_rx_desc_base : Z; (* uintptr_t *)
  ec_tx_desc_base : Z; (* uintptr_t *)
}.

(** [ring->descr_mdata[idx] = buffer] *)
Definition set_mdata (idx : Z) (buffer : net_buff_desc) : M (hw_ring dwmac_slot) unit :=
  r ← get;
  d ← lift (load (hr_descr r) idx);
  set_slot idx (mk_dwmac_slot (ds_descr d) buffer).

Definition update_ring_slot (idx addr_low addr_high des2 des3 : Z) : M (hw_ring dwmac_slot) unit :=
  r ← get;
  d ← lift (load (hr_descr r) idx);
  set_slot idx (mk_dwmac_slot (mk_dwmac_desc addr_low addr_high des2 des3) (ds_mdata d)).

(** [rx_desc_base + sizeof(struct descriptor) * idx], as a register takes it. *)
Definition desc_addr (base idx : Z) : Z := u32 (u64 (base + 16 * idx)).

Section handlers.
Context (config : eth_config).

Definition rx_des3 : Z := Z.lor (Z.lor DESC_RXSTS_OWNBYDMA DESC_RXSTS_BUFFER1_ADDR_VALID) DESC_RXSTS_IOC.

Definition rx_provide_body : M dwmac_state unit :=
  r ← on_queue Rx net_dequeue_free;
  match r with
  | None => raise AssertFail
  | Some buffer =>
    s ← get;
    idx ← lift (umod (hr_tail (es_rx s)) (hr_capacity (es_rx s)));
    on_ring Rx (set_mdata idx buffer;;
                update_ring_slot idx (u32 (io_or_offset buffer)) (u32 (Z.shiftr (io_or_offset buffer) 32)) 0 rx_des3);;
    emit (RegWrite DMA_CH0_RXDESC_TAIL_PTR (desc_addr (ec_rx_desc_base config) (hr_tail (es_rx s))));;
    on_ring Rx incr_tail
  end.

Definition rx_provide_outer : M (dwmac_state * bool) unit :=
  on_state (loop (provide_bound Rx) (can_provide Rx) rx_provide_body);;
  on_state (on_queue Rx net_request_signal_free);;
  s ← gets fst;
  if negb (net_queue_empty_free (es_rx_queue s)) && negb (hw_ring_full (es_rx s))
  then on_state (on_queue Rx net_cancel_signal_free);; set_local true
  else set_local false.
Definition rx_provide : M dwmac_state unit :=
  with_local true (loop (fun _ => 2%nat) snd rx_provide_outer);; mret tt.

(** The local variables are [packets_transferred] and whether the loop has been
    left by its [break]. *)
Definition rx_return_body : M (dwmac_state * (bool * bool)) unit :=
  s ← gets fst;
  idx ← lift (umod (hr_head (es_rx s)) (hr_capacity (es_rx s)));
  on_state device_runs;;
  p ← get;
  d ← lift (load (hr_descr (es_rx p.1)) idx);
  let des3 := dd_des3 (ds_descr d) in
  if negb (Z.land des3 DESC_RXSTS_OWNBYDMA =? 0) then set_local (p.2.1, true)
  else
    let buffer := ds_mdata d in
    (if negb (Z.land des3 DESC_RXSTS_ERROR =? 0) then
       idx ← lift (umod (hr_tail (es_rx p.1)) (hr_capacity (es_rx p.1)));
       on_state (on_ring Rx (set_mdata idx buffer;;
         update_ring_slot idx (u32 (io_or_offset buffer)) (u32 (Z.shiftr (io_or_offset buffer) 32)) 0 rx_des3));;
       on_state (emit (RegWrite DMA_CH0_RXDESC_TAIL_PTR (desc_addr (ec_rx_desc_base config) idx)));;
       on_state (on_ring Rx incr_tail)
     else
       let buffer := mk_buff (io_or_offset buffer) (u16 (Z.land des3 0x7FFF)) in
       err ← on_state (on_queue Rx (net_enqueue_active buffer));
       assert_ (err =? 0);;
       set_local (true, false));;
    on_state (on_ring Rx incr_head).

Definition rx_return : M dwmac_state unit :=
  r ← with_local (false, false) (loop rx_return_bound (can_return Rx) rx_return_body);
  let packets_transferred := (r : unit * (bool * bool)).2.1 in
  s ← get;
  when (packets_transferred && net_require_signal_active (es_rx_queue s))
    (on_queue Rx net_cancel_signal_active;;
     emit (Notify (ec_virt_rx config))).

Definition tx_provide_body : M dwmac_state unit :=
  r ← on_queue Tx net_dequeue_active;
  match r with
  | None => raise AssertFail
  | Some buffer =>
    let des2 := Z.lor DESC_TXCTRL_TXINT (bd_len buffer) in
    s ← get;
    idx ← lift (umod (hr_tail (es_tx s)) (hr_capacity (es_tx s)));
    let des3 := Z.lor (Z.lor (Z.lor (Z.lor DESC_TXSTS_OWNBYDMA DESC_TXCTRL_TXFIRST) DESC_TXCTRL_TXLAST) DESC_TXCTRL_TXCIC)
                  (bd_len buffer) in
    on_ring Tx (set_mdata idx buffer;;
                update_ring_slot idx (u32 (io_or_offset buffer)) (u32 (Z.shiftr (io_or_offset buffer) 32)) des2 des3);;
    on_ring Tx incr_tail;;
    emit (RegWrite DMA_CH0_TXDESC_TAIL_PTR (desc_addr (ec_tx_desc_base config) idx))
  end.

Definition tx_provide_outer : M (dwmac_state * bool) unit :=
  on_state (loop (provide_bound Tx) (can_provide Tx) tx_provide_body);;
  on_state (on_queue Tx net_request_signal_active);;
  s ← gets fst;
  if negb (hw_ring_full (es_tx s)) && negb (net_queue_empty_active (es_tx_queue s))
  then on_state (on_queue Tx net_cancel_signal_active);; set_local true
  else set_local false.
Definition tx_provide : M dwmac_state unit :=
  with_local true (loop (fun _ => 2%nat) snd tx_provide_outer);; mret tt.

Definition tx_return_body : M (dwmac_state * (bool * bool)) unit :=
  s ← gets fst;
  idx ← lift (umod (hr_head (es_tx s)) (hr_capacity (es_tx s)));
  on_state device_runs;;
  p ← get;
  d ← lift (load (hr_descr (es_tx p.1)) idx);
  if negb (Z.land (dd_des3 (ds_descr d)) DESC_TXSTS_OWNBYDMA =? 0) then set_local (p.2.1, true)
  else
    err ← on_state (on_queue Tx (net_enqueue_free (ds_mdata d)));
    assert_ (err =? 0);;
    set_local (true, false);;
    on_state (on_ring Tx incr_head).

Definition tx_return : M dwmac_state unit :=
  r ← with_local (false, false) (loop (return_bound Tx) (can_return Tx) tx_return_body);
  let enqueued := (r : unit * (bool * bool)).2.1 in
  s ← get;
  when (enqueued && net_require_signal_free (es_tx_queue s))
    (on_queue Tx net_cancel_signal_free;;
     emit (Notify (ec_virt_tx config))).

(** [e = *DMA_REG(DMA_CH0_STATUS); *DMA_REG(DMA_CH0_STATUS) &= e] reads the
    register twice. *)
Definition read_status : M dwmac_state Z :=
  e ← read_irq;
  e2 ← read_irq;
  emit (RegWrite DMA_CH0_STATUS (Z.land e2 e));;
  mret e.

Definition handle_irq_body : M (dwmac_state * Z) unit :=
  e ← gets snd;
  when (negb (Z.land e DMA_CH0_INTERRUPT_EN_TIE =? 0)) (on_state tx_return;; on_state tx_provide);;
  when (negb (Z.land e DMA_CH0_INTERRUPT_EN_RIE =? 0)) (on_state rx_return);;
  e ← on_state read_status;
  set_local e.

Definition handle_irq : M dwmac_state unit :=
  e ← read_status;
  with_local e (loop (fun p => S (length (es_irq p.1))) (fun p => negb (Z.land p.2 DMA_INTR_MASK =? 0)) handle_irq_body);;
  mret tt.

Definition notified (ch : Z) : M dwmac_state unit :=
  if ch =? ec_irq config then handle_irq;; emit (DeferredIrqAck ch)
  else if ch =? ec_virt_rx config then rx_provide
  else if ch =? ec_virt_tx config then tx_provide
  else mret tt.

End handlers.

(** ** One round of each loop *)

Definition rx_slot (cap : Z) (b : net_buff_desc) (idx : Z) : dwmac_slot :=
  mk_dwmac_slot (mk_dwmac_desc (u32 (io_or_offset b)) (u32 (Z.shiftr (io_or_offset b) 32)) 0 rx_des3) b.
Definition tx_slot (cap : Z) (b : net_buff_desc) (idx : Z) : dwmac_slot :=
  mk_dwmac_slot (mk_dwmac_desc (u32 (io_or_offset b)) (u32 (Z.shiftr (io_or_offset b) 32)) (Z.lor DESC_TXCTRL_TXINT (bd_len b))
    (Z.lor (Z.lor (Z.lor (Z.lor DESC_TXSTS_OWNBYDMA DESC_TXCTRL_TXFIRST) DESC_TXCTRL_TXLAST) DESC_TXCTRL_TXCIC) (bd_len b))) b.
Definition rx_kick (config : eth_config) (cap tail : Z) : list event :=
  [RegWrite DMA_CH0_RXDESC_TAIL_PTR (desc_addr (ec_rx_desc_base config) tail)].
Definition tx_kick (config : eth_config) (cap tail : Z) : list event :=
  [RegWrite DMA_CH0_TXDESC_TAIL_PTR (desc_addr (ec_tx_desc_base config) (tail mod cap))].

(** The two assignments to a slot. *)
Lemma slot_writes idx b lo hi des2 des3 r (Q : unit -> hw_ring dwmac_slot -> Prop) :
  wp (set_slot idx (mk_dwmac_slot (mk_dwmac_desc lo hi des2 des3) b)) r Q ->
  wp (set_mdata idx b;; update_ring_slot idx lo hi des2 des3) r Q.
Proof.
  intros HQ. destruct (decide (0 <= idx < Z.of_nat (length (hr_descr r)))) as [Hi|Hi].
  - destruct (lookup_lt_is_Some_2 (hr_descr r) (Z.to_nat idx)) as [d Hd]; [lia|].
    assert (wp (set_slot idx (mk_dwmac_slot (mk_dwmac_desc lo hi des2 des3) b)) r (fun _ r' =>
              r' = mk_hw_ring (hr_tail r) (hr_head r) (hr_capacity r)
                (<[Z.to_nat idx := mk_dwmac_slot (mk_dwmac_desc lo hi des2 des3) b]> (hr_descr r)))) as Hs.
    { unfold set_slot. repeat wp_step. eapply wp_lift; [by apply store_ok|]. by wp_step. }
    apply wp_elim in Hs as ([] & r' & E & ->). apply (wp_run _ _ _ _ _ E) in HQ.
    unfold set_mdata, update_ring_slot, set_slot. repeat wp_step. eapply wp_lift; [by apply load_ok; [lia|exact Hd]|].
    repeat wp_step. eapply wp_lift; [by apply store_ok|]. repeat wp_step.
    eapply wp_lift; [apply load_ok; [lia|]; apply list_lookup_insert_eq; lia|]. repeat wp_step.
    eapply wp_lift; [apply store_ok; cbn [hr_descr]; by rewrite length_insert|]. wp_step. cbn [hr_descr hr_tail hr_head hr_capacity ds_mdata].
    by rewrite list_insert_insert_eq.
  - exfalso. revert HQ. unfold wp, set_slot, mbind, M_bind, get, lift, store.
    replace ((idx <? 0) || (Z.of_nat (length (hr_descr r)) <=? idx)) with true; [done|]. symmetry. apply orb_true_iff.
    rewrite Z.ltb_lt, Z.leb_le. lia.
Qed.

(** The writes to the slot, the register and the tail, in any order. *)
Lemma on_ring_slot dir idx b lo hi des2 des3 s (Q : unit -> dwmac_state -> Prop) :
  wp (on_ring dir (set_slot idx (mk_dwmac_slot (mk_dwmac_desc lo hi des2 des3) b);; incr_tail)) s Q ->
  wp (on_ring dir ((set_mdata idx b;; update_ring_slot idx lo hi des2 des3);; incr_tail)) s Q.
Proof.
  intros HQ. unfold on_ring. wp_step. wp_step. apply slot_writes. revert HQ. unfold on_ring, wp, zoom, mbind, M_bind.
  by destruct (set_slot _ _ _) as [[[] r]|].
Qed.
Lemma on_ring_emit dir (a b : M (hw_ring dwmac_slot) unit) e s (Q : unit -> dwmac_state -> Prop) :
  wp (on_ring dir (a;; b)) s (fun _ s' => wp (emit e) s' Q) -> wp (on_ring dir a;; emit e;; on_ring dir b) s Q.
Proof.
  unfold wp, on_ring, zoom, emit, modify, mbind, M_bind. destruct (a (es_ring dir s)) as [[[] r]|]; [|done].
  replace (es_ring dir (set_events _ (set_ring dir r s))) with r by by destruct dir.
  destruct (b r) as [[[] r2]|]; [|done]. by destruct dir.
Qed.
Lemma on_ring_seq dir (a b : M (hw_ring dwmac_slot) unit) e s (Q : unit -> dwmac_state -> Prop) :
  wp (on_ring dir (a;; b)) s (fun _ s' => wp (emit e) s' Q) -> wp (on_ring dir a;; on_ring dir b;; emit e) s Q.
Proof.
  unfold wp, on_ring, zoom, emit, modify, mbind, M_bind. destruct (a (es_ring dir s)) as [[[] r]|]; [|done].
  replace (es_ring dir (set_ring dir r s)) with r by by destruct dir.
  destruct (b r) as [[[] r2]|]; [|done]. by destruct dir.
Qed.

Lemma dwmac_slot_addr cap b idx : hd_fits (io_or_offset b) -> hd_addr (rx_slot cap b idx) = io_or_offset b.
Proof. done. Qed.
Lemma dwmac_tx_slot_addr cap b idx : hd_fits (io_or_offset b) -> hd_addr (tx_slot cap b idx) = io_or_offset b.
Proof. done. Qed.

Section rounds.
Context (config : eth_config).

Lemma dwmac_rx_provide_body_spec : provides_one Rx rx_slot (rx_kick config) (rx_provide_body config).
Proof.
  intros s b l Q Hwf Hb Hroom HQ. unfold rx_provide_body. wp_step.
  eapply (take_next Rx); [done..|]. intros s1 Es1 Hpush. cbn [es_ring] in *. do 3 wp_step.
  rewrite Es1. eapply wp_lift; [apply umod_ok; destruct Hwf as [[] _]; lia|].
  apply on_ring_emit, on_ring_slot, Hpush. intros s' **. unfold emit. wp_step. apply HQ; try done. cbn. unfold rx_kick, tx_kick. congruence.
Qed.

Lemma dwmac_tx_provide_body_spec : provides_one Tx tx_slot (tx_kick config) (tx_provide_body config).
Proof.
  intros s b l Q Hwf Hb Hroom HQ. unfold tx_provide_body. wp_step.
  eapply (take_next Tx); [done..|]. intros s1 Es1 Hpush. cbn [es_ring] in *. do 3 wp_step.
  rewrite Es1. eapply wp_lift; [apply umod_ok; destruct Hwf as [[] _]; lia|].
  apply on_ring_seq, on_ring_slot, Hpush. intros s' **. unfold emit. wp_step. apply HQ; try done. cbn. unfold rx_kick, tx_kick. congruence.
Qed.

Definition has_error (d : dwmac_slot) : bool := negb (Z.land (dd_des3 (ds_descr d)) DESC_RXSTS_ERROR =? 0).
Definition rx_buf (d : dwmac_slot) : net_buff_desc :=
  mk_buff (io_or_offset (ds_mdata d)) (u16 (Z.land (dd_des3 (ds_descr d)) 0x7FFF)).
Definition is_tail_write (e : event) : Prop := exists idx,
  e = RegWrite DMA_CH0_RXDESC_TAIL_PTR (desc_addr (ec_rx_desc_base config) idx).

Lemma dwmac_tx_return_body_spec : returns_one Tx ds_mdata tx_return_body.
Proof.
  intros s flag d l Q Hwf Hd Hroom HQ. unfold tx_return_body. do 3 wp_step. cbn [fst].
  eapply wp_lift; [apply umod_ok; destruct Hwf as [[] _]; cbn in *; lia|]. do 2 wp_step. apply device_runs_spec. intros s1 Hle.
  destruct (find_head Tx s s1 d l Hwf Hd Hle) as (d' & l' & Hll & Hd' & Hwf1 & Hload & Hc & Hq & Hev & Ho).
  do 3 wp_step. eapply wp_lift; [exact Hload|]. change (negb (Z.land (dd_des3 (ds_descr d')) DESC_TXSTS_OWNBYDMA =? 0)) with (hd_own d').
  destruct (hd_own d') eqn:Eo.
  - wp_step. specialize (HQ s1 d' l'). rewrite Eo, Hq in HQ. apply HQ; rewrite ?app_nil_r; done.
  - do 2 wp_step. eapply (hand_on Tx); [done|exact Hd'|by rewrite Hq|]. intros s2 Hpop.
    wp_step. apply wp_assert; [done|]. do 3 wp_step. apply Hpop. intros s' Ho' Hw' Hi' Hc' Hout' Hin' Hcap' Hsi' Hso' Hev' _.
    rewrite Hq in *. specialize (HQ s' d' l'). rewrite Eo in HQ. apply HQ; try (done || congruence). by etrans.
Qed.

Lemma dwmac_rx_return_body_spec : recycles_one has_error rx_buf is_tail_write (rx_return_body config).
Proof.
  intros s flag Hwf Hne Hroom Hu. unfold rx_return_body. do 3 wp_step. cbn [fst].
  eapply wp_lift; [apply umod_ok; destruct Hwf as [[] _]; cbn in *; lia|]. do 2 wp_step.
  apply rx_look; [done..|]. intros s1 d l Hf. pose proof (rf_wf _ _ _ _ Hf) as Hwf1.
  do 3 wp_step. eapply wp_lift; [exact (rf_load _ _ _ _ Hf)|].
  change (negb (Z.land (dd_des3 (ds_descr d)) DESC_RXSTS_OWNBYDMA =? 0)) with (hd_own d).
  destruct (hd_own d) eqn:Eo; [|change (negb (Z.land (dd_des3 (ds_descr d)) DESC_RXSTS_ERROR =? 0)) with (has_error d); destruct (has_error d) eqn:Ee].
  - wp_step. by eapply rx_step_owned.
  - do 2 wp_step. eapply wp_lift; [apply umod_ok; destruct Hwf1 as [[] _]; cbn in *; lia|].
    unfold on_ring. do 3 wp_step. apply slot_writes.
    unfold set_slot, emit, incr_tail, incr_head. repeat wp_step.
    eapply wp_lift; [eapply ring_store_slot; exact (proj1 Hwf1)|]. repeat wp_step. cbn [fst snd].
    eapply (rx_step_recycled _ _ _ s s1 d l (rx_slot 0 (ds_mdata d) 0) [_] flag Hf Eo); [done|done|].
    apply Forall_singleton. by eexists.
  - do 3 wp_step. eapply (rx_step_good has_error rx_buf is_tail_write); [done..|]. intros s2 Hpop.
    wp_step. apply wp_assert; [done|]. do 2 wp_step. by apply Hpop.
Qed.

End rounds.

(** ** The four operations *)

#[local] Abbreviation rx_items s := (hw_items (es_rx s)).
#[local] Abbreviation rx_out s := (net_items Active (es_rx_queue s)).

Section specs.
Context (config : eth_config).
#[local] Abbreviation moved := (rx_moved has_error rx_buf (is_tail_write config)).

Lemma dwmac_rx_provide_spec s (Q : unit -> dwmac_state -> Prop) :
  dir_wf Rx s ->
  (forall s1 k, provided Rx rx_slot (rx_kick config) s s1 k -> can_provide Rx s1 = false -> Q tt (with_signal Rx Free 0 s1)) ->
  wp (rx_provide config) s Q.
Proof. apply rx_reprocess, dwmac_rx_provide_body_spec. Qed.

Lemma dwmac_tx_provide_spec s (Q : unit -> dwmac_state -> Prop) :
  dir_wf Tx s ->
  (forall s1 k, provided Tx tx_slot (tx_kick config) s s1 k -> can_provide Tx s1 = false -> Q tt (with_signal Tx Active 0 s1)) ->
  wp (tx_provide config) s Q.
Proof. apply tx_reprocess, dwmac_tx_provide_body_spec. Qed.

Lemma dwmac_rx_return_spec s (Q : unit -> dwmac_state -> Prop) :
  eth_dir_wf Rx s ->
  (forall s1 good, moved s s1 good -> Forall (fun d => hd_own d = true) (take 1 (rx_items s1)) ->
     Q tt (signal_done Rx (ec_virt_rx config) (any_taken good) s1)) ->
  wp (rx_return config) s Q.
Proof.
  intros Hwf HQ. unfold rx_return. do 2 wp_step.
  apply (recycle_loop has_error rx_buf (is_tail_write config)); [apply dwmac_rx_return_body_spec|done|].
  intros s1 good broke Hm Hown. by apply signal_rx_spec, HQ.
Qed.

Lemma dwmac_tx_return_spec s (Q : unit -> dwmac_state -> Prop) :
  eth_dir_wf Tx s ->
  (forall s1 taken, returned Tx ds_mdata s s1 taken -> Forall (fun d => hd_own d = true) (take 1 (hw_items (es_tx s1))) ->
     Q tt (signal_done Tx (ec_virt_tx config) (any_taken taken) s1)) ->
  wp (tx_return config) s Q.
Proof.
  intros Hwf HQ. unfold tx_return. do 2 wp_step.
  apply (return_loop Tx ds_mdata); [apply dwmac_tx_return_body_spec|apply Hwf|by apply ed_return_room|].
  intros s1 taken broke Hr Hown. by apply signal_tx_spec, HQ.
Qed.

Lemma dwmac_rx_provide_keeps s :
  eth_wf s ->
  wp (rx_provide config) s (fun _ s' => keeps s s' /\ es_irq s' = es_irq s /\ rx_ready s' /\ can_provide Rx s' = false).
Proof.
  intros Hwf. apply dwmac_rx_provide_spec; [apply (Hwf Rx)|]. intros s1 k Hp Hstop.
  destruct (provided_keeps_rx _ _ s s1 k dwmac_slot_addr Hwf Hp) as [K I].
  split_and!; [done..|]. rewrite <- Hstop. exact (can_provide_signal Rx s1 _).
Qed.

Lemma dwmac_tx_provide_keeps s :
  eth_wf s ->
  wp (tx_provide config) s (fun _ s' => keeps s s' /\ es_irq s' = es_irq s /\ tx_ready s' /\ can_provide Tx s' = false).
Proof.
  intros Hwf. apply dwmac_tx_provide_spec; [apply (Hwf Tx)|]. intros s1 k Hp Hstop.
  destruct (provided_keeps_tx _ _ s s1 k dwmac_tx_slot_addr Hwf Hp) as [K I].
  split_and!; [done..|]. rewrite <- Hstop. exact (can_provide_signal Tx s1 _).
Qed.

Lemma dwmac_rx_return_keeps s :
  eth_wf s -> wp (rx_return config) s (fun _ s' => keeps s s' /\ es_irq s' = es_irq s).
Proof.
  intros Hwf. apply dwmac_rx_return_spec; [apply Hwf|]. intros s1 good Hm _.
  exact (rx_moved_keeps has_error rx_buf (is_tail_write config) s s1 good _ (fun _ => eq_refl) Hwf Hm).
Qed.

Lemma dwmac_tx_return_keeps s :
  eth_wf s -> wp (tx_return config) s (fun _ s' => keeps s s' /\ es_irq s' = es_irq s).
Proof.
  intros Hwf. apply dwmac_tx_return_spec; [apply Hwf|]. intros s1 taken Hr _.
  exact (returned_keeps ds_mdata s s1 taken _ (fun _ => eq_refl) Hwf Hr).
Qed.

(** ** Properties *)

(** C25. Whatever the notification, the pending interrupts and the write-backs of
    the device, which may overwrite the addresses in its descriptors, [notified]
    terminates without a failed assertion and every buffer, by its 64-bit
    address, stays where it is or moves on: none is lost or duplicated and no
    queue or ring overruns; the transmit direction keeps its order, and the
    receive direction up to frames with errors, which go back into the ring.
    The driver's wish to be notified is never withdrawn. *)
Theorem eth_dwmac_notified_conserves (s : dwmac_state) (ch : Z) :
  eth_wf s -> NoDup [ec_irq config; ec_virt_rx config; ec_virt_tx config] ->
  wp (notified config ch) s (fun _ s' =>
    eth_wf s' /\ buffer_seq Rx s' ≡ₚ buffer_seq Rx s /\ buffer_seq Tx s' = buffer_seq Tx s /\
    (ch = ec_virt_rx config \/ rx_ready s -> rx_ready s') /\
    (ch = ec_virt_tx config \/ tx_ready s -> tx_ready s') /\
    (ch = ec_virt_rx config -> can_provide Rx s' = false) /\
    (ch = ec_virt_tx config -> can_provide Tx s' = false)).
Proof.
  intros Hwf Hnd. eapply (recycle_dispatch_spec (tx_return config) (tx_provide config) (rx_return config) (rx_provide config));
    [apply dwmac_tx_return_keeps|apply dwmac_tx_provide_keeps|apply dwmac_rx_return_keeps|apply dwmac_rx_provide_keeps|done..].
Qed.

(** The provides, while the device works: buffers move from the queue into the
    ring, in order, until the ring is full or the queue empty, each with its
    address split over two words, and after each the tail register is
    written; the queue is left asking for a signal. *)
Theorem eth_dwmac_provides (s : dwmac_state) :
  eth_wf s ->
  wp (rx_provide config) s (fun _ s' => exists s1 k,
    provided Rx rx_slot (rx_kick config) s s1 k /\ can_provide Rx s1 = false /\ s' = with_signal Rx Free 0 s1) /\
  wp (tx_provide config) s (fun _ s' => exists s1 k,
    provided Tx tx_slot (tx_kick config) s s1 k /\ can_provide Tx s1 = false /\ s' = with_signal Tx Active 0 s1).
Proof.
  intros Hwf. split; [apply dwmac_rx_provide_spec|apply dwmac_tx_provide_spec]; try apply (Hwf _); eauto.
Qed.

End specs.

(** The two words of an address determine it. *)
Lemma slot_address b cap idx :
  is_u64 (io_or_offset b) ->
  dd_addr_low (ds_descr (rx_slot cap b idx)) + Z.shiftl (dd_addr_high (ds_descr (rx_slot cap b idx))) 32 = io_or_offset b.
Proof.
  cbn [rx_slot ds_descr dd_addr_low dd_addr_high]. intros H. rewrite Z.shiftl_mul_pow2, Z.shiftr_div_pow2 by lia. uint_lia.
Qed.

(** The tail register takes the address of the descriptor when the ring is
    drained, and of one behind the ring once [tail] has passed the capacity:
    [rx_provide] does not reduce it. *)
Lemma rx_tail_register_leaves_ring base tail :
  0 <= base < 2 ^ 32 - 16 * 1024 -> 256 <= tail < 1024 -> desc_addr base tail >= base + 16 * 256.
Proof. unfold desc_addr. intros Hb Ht. rewrite u64_small, u32_small; unfold is_u64, is_u32; lia. Qed.

(** ** A driver with rings of four descriptors, about to wrap *)

Definition dwmac_queue_ex (free active : list net_buff_desc) : net_queue_handle :=
  let q l := mk_net_queue (Z.of_nat (length l)) 0 0 (l ++ replicate (8 - length l) (mk_buff 0 0)) in
  mk_net_handle (q free) (q active) 8.
Definition dwmac_config_ex : eth_config := mk_eth_config 0 1 2 (2 ^ 30) (2 ^ 30 + 4096).

(** Two receive buffers above 4 GiB are with the device; it completes the first
    with an error and the second with 64 bytes, over their addresses. *)
Definition dwmac_state_ex : dwmac_state :=
  mk_eth (mk_hw_ring 1 (2 ^ 32 - 1) 4 [rx_slot 4 (mk_buff (2 ^ 33 + 2048) 0) 0; rx_slot 4 (mk_buff 0 0) 0;
                                       rx_slot 4 (mk_buff 0 0) 0; rx_slot 4 (mk_buff (2 ^ 33) 0) 3])
         (mk_hw_ring 7 7 4 (replicate 4 (mk_dwmac_slot (mk_dwmac_desc 0 0 0 0) (mk_buff 0 0))))
         (dwmac_queue_ex [mk_buff (2 ^ 33 + 4096) 0] []) (dwmac_queue_ex [] [mk_buff 65536 60])
         [[(Rx, 3%nat, mk_dwmac_slot (mk_dwmac_desc 1 2 3 DESC_RXSTS_ERROR) (mk_buff 0 0))];
          [(Rx, 0%nat, mk_dwmac_slot (mk_dwmac_desc 4 5 6 64) (mk_buff 0 0))]]
         [DMA_CH0_INTERRUPT_EN_RIE; DMA_CH0_INTERRUPT_EN_RIE] [].

Lemma dwmac_state_ex_wf : eth_wf dwmac_state_ex.
Proof.
  assert (forall h t (l : list dwmac_slot), 0 <= h < 2 ^ 32 -> 0 <= t < 2 ^ 32 -> length l = 4%nat -> ring_len (2 ^ 32) h t <= 4 ->
    hw_wf (mk_hw_ring t h 4 l)) as Hring.
  { intros h t l Hh Ht Hl Hlen. split; cbn; try lia. by exists 1073741824. }
  assert (forall t (l : list net_buff_desc), 0 <= t <= 8 -> length l = 8%nat -> ring_wf (2 ^ 16) 8 0 t l) as Hq.
  { intros t l Ht Hl. split; try lia; [by exists 8192|]. unfold ring_len. rewrite Z.mod_small; lia. }
  intros []; (split; [split_and!; [apply Hring; cbn; done || lia|by apply Hq; cbn; lia..]|by vm_compute|]).
  - change (Forall is_u64 [2 ^ 33; 2 ^ 33 + 2048; 2 ^ 33 + 4096]). unfold is_u64. repeat apply Forall_cons_2; try apply Forall_nil_2; lia.
  - change (Forall is_u64 [65536]). unfold is_u64. repeat apply Forall_cons_2; try apply Forall_nil_2; lia.
Qed.

Lemma eth_dwmac_notified_conserves_witness :
  wp (notified dwmac_config_ex 0) dwmac_state_ex (fun _ s' => eth_wf s' /\ buffer_seq Rx s' ≡ₚ [2 ^ 33; 2 ^ 33 + 2048; 2 ^ 33 + 4096]) /\
  match notified dwmac_config_ex 0 dwmac_state_ex with
  | Ok (_, s') => net_items Active (es_rx_queue s') = [mk_buff (2 ^ 33 + 2048) 64] /\ hd_addr <$> hw_items (es_rx s') = [2 ^ 33]
  | Fault _ => False
  end.
Proof.
  split; [|by vm_compute]. eapply wp_mono; [apply (eth_dwmac_notified_conserves dwmac_config_ex dwmac_state_ex 0)|].
  - exact dwmac_state_ex_wf.
  - repeat apply NoDup_cons_2; try apply NoDup_nil_2; cbn; set_solver.
  - intros _ s' (Hwf & Hseq & _). split; [exact Hwf|exact Hseq].
Defined.
