(* ===== verification/EthRegs.v ===== *)
(** * The registers of a network device while its driver sets it up

    [init] of the drivers of drivers/network programs the device before it fills
    the rings.  What the device does with its registers is not code of the
    repository: it is the parameter [settle] of the model, and what the drivers
    rely on are named hypotheses of their theorems.  The files EthImxInit,
    EthMesonInit and EthDwmacInit hold the set-up of each driver. *)

From S2P Require Import Prelude Microkit HwRing.

(** The registers by their offset; [er_busy] is the number of reads that still
    see them as they were written, and [er_waits] what this will be after the
    next writes. *)
Record eth_regs : Type := mk_eth_regs {
  er_now : Z -> Z;
  er_busy : N;
  er_waits : list N;
}.

Definition upd (off v : Z) (m : Z -> Z) : Z -> Z := fun o => if o =? off then v else m o.

(** The device acts on the registers when it is not busy. *)
Definition reg_tick (settle : (Z -> Z) -> Z -> Z) (r : eth_regs) : eth_regs :=
  if (er_busy r =? 0)%N then mk_eth_regs (settle (er_now r)) 0 (er_waits r)
  else mk_eth_regs (er_now r) (er_busy r - 1) (er_waits r).

Section access.
Context {D : Type}.
(** [settle m]: the registers [m], once the device has done what they ask of
    it. *)
Context (settle : (Z -> Z) -> Z -> Z).

Abbreviation dev := (eth_state D * eth_regs)%type.

Definition on_eth_regs {A} (m : M eth_regs A) : M dev A := zoom snd (fun r p => (p.1, r)) m.

Definition reg_read (off : Z) : M dev Z :=
  on_eth_regs (modify (reg_tick settle);; gets (fun r => er_now r off)).
Definition reg_write (off v : Z) : M dev unit :=
  on_eth_regs (modify (reg_tick settle);;
               modify (fun r => mk_eth_regs (upd off (u32 v) (er_now r)) (hd 0%N (er_waits r)) (tl (er_waits r))));;
  on_state (emit (RegWrite off (u32 v))).

(** [reg |= bits] and [reg &= ~bits]. *)
Definition reg_set (off bits : Z) : M dev unit := v ← reg_read off; reg_write off (Z.lor v bits).
Definition reg_clear (off bits : Z) : M dev unit := v ← reg_read off; reg_write off (Z.ldiff v bits).

(** [while (c(reg));]: it reads the register until [c] fails. *)
Fixpoint poll_upto (n : nat) (off : Z) (c : Z -> bool) : M dev unit :=
  match n with
  | O => raise OutOfFuel
  | S n' => v ← reg_read off; if c v then poll_upto n' off c else mret tt
  end.
Definition poll (off : Z) (c : Z -> bool) : M dev unit := fun p =>
  poll_upto (S (N.to_nat (er_busy p.2))) off c p.

End access.

Lemma upd_same off v m : upd off v m off = v.
Proof. unfold upd. by rewrite Z.eqb_refl. Qed.
Lemma upd_other off o v m : o <> off -> upd off v m o = m o.
Proof. intros H. unfold upd. by rewrite (proj2 (Z.eqb_neq _ _)). Qed.


(** [reg & bits] *)
Definition has_bits (v bits : Z) : bool := negb (Z.land v bits =? 0).

Lemma wp_emit {D} e (s : eth_state D) (Q : unit -> eth_state D -> Prop) :
  Q tt (set_events (es_events s ++ [e]) s) -> wp (emit e) s Q.
Proof. done. Qed.

(** ** Reasoning about a set-up

    [calm m]: no reset is under way.  Then the device changes no bit of
    [held off] in the register [off]. *)
Record hw_holds (settle : (Z -> Z) -> Z -> Z) (calm : (Z -> Z) -> Prop) (held : Z -> Z) : Prop := {
  hh_held m off : calm m -> Z.land (settle m off) (held off) = Z.land (m off) (held off);
  hh_calm m m' : calm m -> (forall off, Z.land (m' off) (held off) = Z.land (m off) (held off)) -> calm m';
}.

Section setup.
Context {D : Type} (settle : (Z -> Z) -> Z -> Z) (calm : (Z -> Z) -> Prop) (held : Z -> Z).
Context (HW : hw_holds settle calm held).
Implicit Types (s : eth_state D) (r : eth_regs) (m : Z -> Z).

(** The registers are as in [m], up to bits of the device's own. *)
Definition tracks m r : Prop := calm m /\ forall off, Z.land (er_now r off) (held off) = Z.land (m off) (held off).

Lemma tracks_tick m r : tracks m r -> tracks m (reg_tick settle r).
Proof using HW.
  intros [Hc Hh]. split; [done|]. intros off. unfold reg_tick. destruct (er_busy r =? 0)%N; cbn [er_now]; [|done].
  rewrite (hh_held _ _ _ HW); [done|]. by eapply (hh_calm _ _ _ HW).
Qed.

Lemma reg_read_tick s r off (Q : Z -> eth_state D * eth_regs -> Prop) :
  Q (er_now (reg_tick settle r) off) (s, reg_tick settle r) -> wp (reg_read settle off) (s, r) Q.
Proof. intros HQ. unfold reg_read, on_eth_regs. by repeat wp_step. Qed.

Lemma reg_read_spec m s r off (Q : Z -> eth_state D * eth_regs -> Prop) :
  tracks m r ->
  (forall v r', tracks m r' -> v = er_now r' off -> Z.land v (held off) = Z.land (m off) (held off) -> Q v (s, r')) ->
  wp (reg_read settle off) (s, r) Q.
Proof using HW.
  intros Ht HQ. apply reg_read_tick.
  pose proof (tracks_tick _ _ Ht) as Ht'. apply HQ; [done|done|apply Ht'].
Qed.

(** A register of which the device changes nothing. *)
Lemma reg_read_held m s r off (Q : Z -> eth_state D * eth_regs -> Prop) :
  held off = -1 -> tracks m r -> (forall r', tracks m r' -> Q (m off) (s, r')) -> wp (reg_read settle off) (s, r) Q.
Proof using HW.
  intros Hh Ht HQ. apply (reg_read_spec m); [done|]. intros v r' Ht' _. rewrite Hh, !Z.land_m1_r. intros ->. by apply HQ.
Qed.

Lemma reg_write_spec m s r off v (Q : unit -> eth_state D * eth_regs -> Prop) :
  tracks m r -> calm (upd off (u32 v) m) ->
  (forall r', tracks (upd off (u32 v) m) r' -> Q tt (set_events (es_events s ++ [RegWrite off (u32 v)]) s, r')) ->
  wp (reg_write settle off v) (s, r) Q.
Proof using HW.
  intros Ht Hc HQ. unfold reg_write, on_eth_regs, emit. repeat wp_step. cbn [fst snd]. apply HQ. split; [done|].
  destruct (tracks_tick _ _ Ht) as [_ Hh]. intros o. cbn [er_now]. unfold upd. by case_match.
Qed.

(** A write that starts something: nothing is known until it is over. *)
Lemma reg_write_any s r off v (Q : unit -> eth_state D * eth_regs -> Prop) :
  (forall r', er_now r' off = u32 v -> Q tt (set_events (es_events s ++ [RegWrite off (u32 v)]) s, r')) ->
  wp (reg_write settle off v) (s, r) Q.
Proof.
  intros HQ. unfold reg_write, on_eth_regs, emit. repeat wp_step. cbn [fst snd]. apply HQ. cbn [er_now]. unfold upd.
  by rewrite Z.eqb_refl.
Qed.

(** A poll ends when the device has acted: it reads the register once more
    than the device is busy. *)
Lemma poll_spec s r off c (Q : unit -> eth_state D * eth_regs -> Prop) :
  c (settle (er_now r) off) = false ->
  (forall r', er_now r' = er_now r \/ er_now r' = settle (er_now r) -> c (er_now r' off) = false -> Q tt (s, r')) ->
  wp (poll settle off c) (s, r) Q.
Proof.
  intros Hc HQ. unfold poll, wp at 1. cbn [snd]. change (wp (poll_upto settle (S (N.to_nat (er_busy r))) off c) (s, r) Q).
  remember (N.to_nat (er_busy r)) as n eqn:En. revert r En Hc HQ. induction n as [|n IH]; intros r En Hc HQ.
  - cbn [poll_upto]. wp_step. apply reg_read_tick. unfold reg_tick.
    rewrite (proj2 (N.eqb_eq (er_busy r) 0)) by lia. cbn [er_now]. rewrite Hc. wp_step. by apply HQ; [right|].
  - change (poll_upto settle (S (S n)) off c) with (v ← reg_read settle off; if c v then poll_upto settle (S n) off c else mret tt : M (eth_state D * eth_regs) unit).
    wp_step. apply reg_read_tick. unfold reg_tick. rewrite (proj2 (N.eqb_neq (er_busy r) 0)) by lia. cbn [er_now].
    destruct (c (er_now r off)) eqn:E.
    + apply IH; cbn [er_busy er_now]; [lia|done|]. intros r' Hr'. by apply HQ.
    + wp_step. by apply HQ; [left|].
Qed.

End setup.

Lemma held_bits x y h b : Z.land x h = Z.land y h -> Z.land b h = b -> Z.land x b = Z.land y b.
Proof. intros E Hb. rewrite <- Hb, (Z.land_comm b), !Z.land_assoc. by rewrite E. Qed.

(** Values that agree on the bits [h] go on agreeing. *)
Lemma u32_low v h : Z.land (u32 v) h = Z.land v (Z.land (Z.ones 32) h).
Proof. unfold u32. by rewrite <- Z.land_ones, <- Z.land_assoc by lia. Qed.
Lemma low_agree v w k h : Z.land v h = Z.land w h -> Z.land v (Z.land k h) = Z.land w (Z.land k h).
Proof. intros E. by rewrite (Z.land_comm k), !Z.land_assoc, E. Qed.
Lemma ldiff_agree v w b h : Z.land v h = Z.land w h -> Z.land (Z.ldiff v b) h = Z.land (Z.ldiff w b) h.
Proof.
  intros E. rewrite !Z.ldiff_land, <- !Z.land_assoc, !(Z.land_comm (Z.lnot b)), !Z.land_assoc. by rewrite E.
Qed.

(** ** Runs over known registers *)

Section runs.
Context {D : Type} (settle : (Z -> Z) -> Z -> Z) (calm : (Z -> Z) -> Prop) (held : Z -> Z).
Context (HW : hw_holds settle calm held).
Implicit Types (s : eth_state D) (p : eth_state D * eth_regs) (m : Z -> Z).

(** The registers are as in [m]; of the state of the driver only the events
    differ from [s]. *)
Record runs_at m s p : Prop := {
  ra_regs : tracks calm held m p.2;
  ra_state : exists ev, p.1 = set_events ev s;
}.

Lemma runs_at_start m s r : tracks calm held m r -> runs_at m s (s, r).
Proof. intros H. split; [done|]. exists (es_events s). by destruct s. Qed.

Lemma runs_at_more m s s' p : (exists ev, s' = set_events ev s) -> runs_at m s' p -> runs_at m s p.
Proof. intros (ev & ->) [H (ev' & E)]. split; [done|]. exists ev'. by destruct s. Qed.

Lemma run_read m s p off v (Q : Z -> eth_state D * eth_regs -> Prop) :
  held off = -1 -> runs_at m s p -> m off = v -> (forall p', runs_at m s p' -> Q v p') -> wp (reg_read settle off) p Q.
Proof using HW.
  destruct p as [s1 r]. intros Hh [Ht Hs] <- HQ. eapply (reg_read_held _ _ _ HW); [done|exact Ht|]. intros r' Ht'. by apply HQ.
Qed.

(** A register with bits of the device's own. *)
Lemma run_read_some m s p off (Q : Z -> eth_state D * eth_regs -> Prop) :
  runs_at m s p -> (forall v p', Z.land v (held off) = Z.land (m off) (held off) -> runs_at m s p' -> Q v p') ->
  wp (reg_read settle off) p Q.
Proof using HW.
  destruct p as [s1 r]. intros [Ht Hs] HQ. eapply (reg_read_spec _ _ _ HW); [exact Ht|]. intros v r' Ht' _ Hv. by apply HQ.
Qed.
Lemma run_read_any m s p off (Q : Z -> eth_state D * eth_regs -> Prop) :
  runs_at m s p -> (forall v p', runs_at m s p' -> Q v p') -> wp (reg_read settle off) p Q.
Proof using HW. intros Hp HQ. eapply run_read_some; eauto. Qed.

Lemma run_write m s p off v (Q : unit -> eth_state D * eth_regs -> Prop) :
  runs_at m s p -> calm (upd off (u32 v) m) -> (forall p', runs_at (upd off (u32 v) m) s p' -> Q tt p') ->
  wp (reg_write settle off v) p Q.
Proof using HW.
  destruct p as [s1 r]. intros [Ht (ev & E)] Hc HQ. cbn [fst snd] in *. subst s1.
  eapply (reg_write_spec _ _ _ HW); [exact Ht|done|]. intros r' Ht'. apply HQ. split; [done|].
  eexists. by destruct s.
Qed.

(** The registers are equally well described by what agrees with [m] on the
    bits held. *)
Lemma runs_at_agree m n s p :
  calm n -> (forall off, Z.land (m off) (held off) = Z.land (n off) (held off)) -> runs_at m s p -> runs_at n s p.
Proof. intros Hn Hmn [[_ Hh] Hs]. split; [|done]. split; [done|]. intros off. by rewrite Hh. Qed.

Lemma upd_agree m off v w :
  Z.land v (held off) = Z.land w (held off) ->
  forall o, Z.land (upd off v m o) (held o) = Z.land (upd off w m o) (held o).
Proof. intros H o. unfold upd. destruct (Z.eqb_spec o off) as [->|]; done. Qed.

(** A write whose value is known on the bits held. *)
Lemma run_write_agree m s p off v w (Q : unit -> eth_state D * eth_regs -> Prop) :
  runs_at m s p -> Z.land (u32 v) (held off) = Z.land (u32 w) (held off) -> calm (upd off (u32 w) m) ->
  (forall p', runs_at (upd off (u32 w) m) s p' -> Q tt p') -> wp (reg_write settle off v) p Q.
Proof using HW.
  intros Hp Hvw Hc HQ. eapply run_write; [exact Hp| |].
  - eapply (hh_calm _ _ _ HW); [exact Hc|]. by apply upd_agree.
  - intros p' Hp'. apply HQ. eapply runs_at_agree; [exact Hc| |exact Hp']. by apply upd_agree.
Qed.

Lemma run_set m s p off bits v (Q : unit -> eth_state D * eth_regs -> Prop) :
  runs_at m s p -> m off = v -> calm (upd off (u32 (Z.lor v bits)) m) ->
  (forall p', runs_at (upd off (u32 (Z.lor v bits)) m) s p' -> Q tt p') -> wp (reg_set settle off bits) p Q.
Proof using HW.
  intros Hp <- Hc HQ. unfold reg_set. wp_step. eapply run_read_some; [exact Hp|]. intros v p' Hv Hp'.
  eapply run_write_agree; [exact Hp'| |exact Hc|exact HQ].
  rewrite !u32_low, !Z.land_lor_distr_l. f_equal. by apply low_agree.
Qed.

Lemma run_clear m s p off bits v (Q : unit -> eth_state D * eth_regs -> Prop) :
  runs_at m s p -> m off = v -> calm (upd off (u32 (Z.ldiff v bits)) m) ->
  (forall p', runs_at (upd off (u32 (Z.ldiff v bits)) m) s p' -> Q tt p') -> wp (reg_clear settle off bits) p Q.
Proof using HW.
  intros Hp <- Hc HQ. unfold reg_clear. wp_step. eapply run_read_some; [exact Hp|]. intros v p' Hv Hp'.
  eapply run_write_agree; [exact Hp'| |exact Hc|exact HQ]. rewrite !u32_low. by apply ldiff_agree, low_agree.
Qed.

(** The last of the events is the write. *)
Lemma run_write_last m s p off v (Q : unit -> eth_state D * eth_regs -> Prop) :
  runs_at m s p -> calm (upd off (u32 v) m) ->
  (forall p' ev, runs_at (upd off (u32 v) m) s p' -> p'.1 = set_events (ev ++ [RegWrite off (u32 v)]) s -> Q tt p') ->
  wp (reg_write settle off v) p Q.
Proof using HW.
  destruct p as [s1 r]. intros [Ht (ev & E)] Hc HQ. cbn [fst snd] in *. subst s1.
  eapply (reg_write_spec _ _ _ HW); [exact Ht|done|]. intros r' Ht'. apply (HQ _ ev); [split; [done|]|].
  - eexists. by destruct s.
  - by destruct s.
Qed.

(** A poll that the device is sure to end. *)
Lemma run_poll m s p off c (Q : unit -> eth_state D * eth_regs -> Prop) :
  runs_at m s p -> (forall r, tracks calm held m r -> c (settle (er_now r) off) = false) ->
  (forall p', runs_at m s p' -> Q tt p') -> wp (poll settle off c) p Q.
Proof using HW.
  destruct p as [s1 r]. intros [Ht Hs] Hc HQ. apply poll_spec; [by apply Hc|]. intros r' Hr' _. apply HQ. split; [|done].
  destruct Ht as [Hm Hh]. split; [done|]. intros o. cbn [snd]. destruct Hr' as [-> | ->]; [done|].
  rewrite (hh_held _ _ _ HW); [done|]. by eapply (hh_calm _ _ _ HW).
Qed.

(** Writing a bit that the device clears when it is done, and waiting for that:
    nothing is known of the registers but what the device leaves. *)
Lemma run_reset m s p off v c (Q : unit -> eth_state D * eth_regs -> Prop) :
  runs_at m s p -> c (u32 v) = true -> (forall n, c (n off) = true -> c (settle n off) = false /\ calm (settle n)) ->
  (forall n p', n off = u32 v -> (forall o, o <> off -> Z.land (n o) (held o) = Z.land (m o) (held o)) ->
     runs_at (settle n) s p' -> Q tt p') ->
  wp (reg_write settle off v) p (fun _ p' => wp (poll settle off c) p' Q).
Proof using HW.
  destruct p as [s1 r]. intros [Ht (ev & E)] Hv Hc HQ. cbn [fst snd] in *. subst s1. unfold reg_write, on_eth_regs.
  repeat wp_step. apply wp_emit. cbn [fst snd]. set (r1 := mk_eth_regs _ _ _).
  assert (er_now r1 off = u32 v) as Hoff by apply upd_same. pose proof (Hc (er_now r1)) as Hc1. rewrite Hoff in Hc1.
  destruct (Hc1 Hv) as [Hs Hm]. apply poll_spec; [exact Hs|]. intros r2 [E2|E2] H2; [rewrite E2, Hoff in H2; congruence|].
  apply (HQ (er_now r1)); [done| |].
  - intros o Ho. cbn [er_now r1]. rewrite upd_other by done. apply (tracks_tick _ _ _ HW _ _ Ht).
  - split; [split; [done|intros o; cbn [snd]; by rewrite E2]|]. eexists. by destruct s.
Qed.

(** What the registers hold at the end. *)
Lemma runs_at_field m s p off b : runs_at m s p -> Z.land b (held off) = b -> Z.land (er_now p.2 off) b = Z.land (m off) b.
Proof. intros [[_ Ht] _]. by apply held_bits. Qed.
Lemma runs_at_now m s p off : runs_at m s p -> held off = -1 -> er_now p.2 off = m off.
Proof. intros [[_ Ht] _] Hh. specialize (Ht off). by rewrite Hh, !Z.land_m1_r in Ht. Qed.
End runs.

(** [upd_tac] computes [upd .. off = ?v]; [run_step hw calm_tac] takes one
    access, [calm_tac] shows that a write starts nothing. *)
Ltac upd_tac := repeat first [rewrite upd_same | rewrite upd_other by discriminate]; try reflexivity.
Ltac run_step hw calm_tac :=
  lazymatch goal with
  | |- wp (mbind _ _) _ _ => apply wp_bind
  | |- wp (reg_set _ _ _) _ _ => eapply (run_set _ _ _ hw); [eassumption|upd_tac|calm_tac|]; clear_runs; intros ? ?
  | |- wp (reg_clear _ _ _) _ _ => eapply (run_clear _ _ _ hw); [eassumption|upd_tac|calm_tac|]; clear_runs; intros ? ?
  | |- wp (reg_read _ _) _ _ =>
    first [eapply (run_read _ _ _ hw); [reflexivity|eassumption|upd_tac|]; clear_runs; intros ? ?
          |eapply (run_read_some _ _ _ hw); [eassumption|]; clear_runs; intros ? ? ? ?]
  | |- wp (reg_write _ _ _) _ _ => eapply (run_write _ _ _ hw); [eassumption|calm_tac|]; clear_runs; intros ? ?
  end
with clear_runs := repeat match goal with H : runs_at _ _ _ _ _ |- _ => clear H end.

(** ** Fields of a register *)

Lemma u32_land y b : is_u32 b -> Z.land (u32 y) b = Z.land y b.
Proof.
  intros Hb. unfold u32. rewrite <- Z.land_ones, <- Z.land_assoc by lia. f_equal.
  rewrite Z.land_comm, Z.land_ones by lia. by apply u32_small.
Qed.
Lemma field_put v f x : Z.land x f = x -> Z.land (Z.lor (Z.ldiff v f) x) f = x.
Proof.
  intros H. rewrite Z.land_lor_distr_l, H, Z.ldiff_land, <- Z.land_assoc, (Z.land_comm (Z.lnot _)), Z.land_lnot_diag, Z.land_0_r. done.
Qed.
Lemma field_other v f x b : Z.land f b = 0 -> Z.land x b = 0 -> Z.land (Z.lor (Z.ldiff v f) x) b = Z.land v b.
Proof.
  intros Hf Hx. rewrite Z.land_lor_distr_l, Hx, Z.lor_0_r. apply Z.bits_inj'. intros n _.
  apply (f_equal (fun z => Z.testbit z n)) in Hf. rewrite Z.land_spec, Z.bits_0 in Hf.
  rewrite !Z.land_spec, Z.ldiff_spec. by destruct (Z.testbit v n), (Z.testbit f n), (Z.testbit b n).
Qed.
Lemma set_same v b : Z.land (Z.lor v b) b = b.
Proof. apply Z.bits_inj'. intros n _. rewrite Z.land_spec, Z.lor_spec. by destruct (Z.testbit v n), (Z.testbit b n). Qed.
Lemma set_other v x b : Z.land x b = 0 -> Z.land (Z.lor v x) b = Z.land v b.
Proof. intros H. by rewrite Z.land_lor_distr_l, H, Z.lor_0_r. Qed.
Lemma clear_same v b : Z.land (Z.ldiff v b) b = 0.
Proof. by rewrite Z.ldiff_land, <- Z.land_assoc, (Z.land_comm (Z.lnot _)), Z.land_lnot_diag, Z.land_0_r. Qed.
Lemma clear_other v x b : Z.land x b = 0 -> Z.land (Z.ldiff v x) b = Z.land v b.
Proof.
  intros H. rewrite <- (Z.lor_0_r (Z.ldiff v x)). by apply field_other; [|rewrite Z.land_0_l].
Qed.

(** [reg &= ~f; reg |= x] writes the field [f]. *)
Lemma reg_field v f x : is_u32 f -> Z.land x f = x -> Z.land (u32 (Z.lor (u32 (Z.ldiff v f)) (u32 x))) f = x.
Proof.
  intros Hf Hx. by rewrite u32_land, Z.land_lor_distr_l, !u32_land, clear_same, Z.lor_0_l by done.
Qed.
Lemma reg_field_other v f x b :
  is_u32 b -> Z.land f b = 0 -> Z.land x f = x -> Z.land (u32 (Z.lor (u32 (Z.ldiff v f)) (u32 x))) b = Z.land v b.
Proof.
  intros Hb Hfb Hx. rewrite u32_land, Z.land_lor_distr_l, !u32_land, clear_other by done.
  by rewrite <- Hx, <- Z.land_assoc, Hfb, Z.land_0_r, Z.lor_0_r.
Qed.
