(* ===== verification/EthDwmacInit.v ===== *)
(** * Setting up the DesignWare device: init and eth_init of
      drivers/network/dwmac-5.10a/ethernet.c

    The registers are those of EthRegs; what the device does with them is the
    parameter [settle].  Boards are those for which the file compiles. *)

From S2P Require Import Prelude Ring Fifo NetQueue Microkit HwRing HwRecycle EthDwmac EthRegs.

(** [CONFIG_PLAT_IMX8MP_EVK], [CONFIG_PLAT_STAR64]. *)
Inductive platform : Type := IMX8MP_EVK | STAR64.

(** Offsets and bits of ethernet.h. *)
Definition MAX_RX_FRAME_SZ : Z := 0x600.
Definition MAC_CONFIGURATION : Z := 0x0.
Definition MAC_PACKET_FILTER : Z := 0x8.
Definition MAC_Q0_TX_FLOW_CTRL : Z := 0x70.
Definition MAC_RXQ_CTRL0 : Z := 0xA0.
Definition MAC_PHYIF_CONTROL_STATUS : Z := 0xF8.
Definition MAC_HW_FEATURE1 : Z := 0x120.
Definition MAC_ADDRESS0_HIGH : Z := 0x300.
Definition MAC_ADDRESS0_LOW : Z := 0x304.
Definition MAC_CONFIG_RE : Z := Z.shiftl 1 0.
Definition MAC_CONFIG_TE : Z := Z.shiftl 1 1.
Definition MAC_CONFIG_DM : Z := Z.shiftl 1 13.
Definition MAC_CONFIG_FES : Z := Z.shiftl 1 14.
Definition MAC_CONFIG_PS : Z := Z.shiftl 1 15.
Definition MAC_CONFIG_IPC : Z := Z.shiftl 1 27.
Definition MAC_PACKET_FILTER_PR : Z := Z.shiftl 1 0.
Definition MAC_RXQ_CTRL0_Q0_CLEAR : Z := Z.lor (Z.shiftl 1 0) (Z.shiftl 1 1).
Definition MAC_RXQ_CTRL0_Q0_DCB_GEN_EN : Z := Z.shiftl 1 1.
Definition MTL_RXQ_DMA_MAP0 : Z := 0xC30.
Definition MTL_TXQ0_OPERATION_MODE : Z := 0xD00.
Definition MTL_RXQ0_OPERATION_MODE : Z := 0xD30.
Definition MTL_RXQ_DMA_MAP0_Q0_MDMACH_MASK : Z := Z.lor (Z.lor (Z.shiftl 1 0) (Z.shiftl 1 1)) (Z.shiftl 1 2).
Definition MTL_RXQ_DMA_MAP0_Q0_DMA0 : Z := u64 (Z.lnot MTL_RXQ_DMA_MAP0_Q0_MDMACH_MASK).
Definition MTL_TXQ_OP_MODE_TSF : Z := Z.shiftl 1 1.
Definition MTL_TXQ_OP_MODE_TXQEN : Z := Z.shiftl 1 3.
Definition MTL_TXQ_OP_MODE_TQS_POS : Z := 16.
Definition MTL_TXQ_OP_MODE_TQS_MASK : Z := Z.shiftl 31 MTL_TXQ_OP_MODE_TQS_POS.
Definition MTL_RXQ_OP_MODE_RSF : Z := Z.shiftl 1 5.
Definition MTL_RXQ_OP_MODE_RQS_POS : Z := 20.
Definition MTL_RXQ_OP_MODE_RQS_MASK : Z := Z.shiftl 31 MTL_RXQ_OP_MODE_RQS_POS.
Definition DMA_MODE : Z := 0x1000.
Definition DMA_CH0_CONTROL : Z := 0x1100.
Definition DMA_CH0_TX_CONTROL : Z := 0x1104.
Definition DMA_CH0_RX_CONTROL : Z := 0x1108.
Definition DMA_CH0_TXDESC_LIST_ADDR : Z := 0x1114.
Definition DMA_CH0_RXDESC_LIST_ADDR : Z := 0x111C.
Definition DMA_CH0_TXDESC_RING_LENGTH : Z := 0x112C.
Definition DMA_CH0_RXDESC_RING_LENGTH : Z := 0x1130.
Definition DMA_CH0_INTERRUPT_EN : Z := 0x1134.
Definition DMA_MODE_SWR : Z := Z.shiftl 1 0.
Definition DMA_CH0_CONTROL_PBLx8 : Z := Z.shiftl 1 16.
Definition DMA_CH0_TX_CONTROL_ST : Z := Z.shiftl 1 0.
Definition DMA_CH0_TX_CONTROL_OSF : Z := Z.shiftl 1 4.
Definition DMA_CH0_TX_CONTROL_PBL_POS : Z := 16.
Definition DMA_CH0_TX_CONTROL_PBL_MASK : Z := Z.shiftl 63 DMA_CH0_TX_CONTROL_PBL_POS.
Definition DMA_CH0_RX_CONTROL_SR : Z := Z.shiftl 1 0.
Definition DMA_CH0_RX_RBSZ_POS : Z := 1.
Definition DMA_CH0_RX_RBSZ_MASK : Z := Z.shiftl 0x3FFF DMA_CH0_RX_RBSZ_POS.
Definition DMA_CH0_RX_CONTROL_PBL_POS : Z := 16.
Definition DMA_CH0_RX_CONTROL_PBL_MASK : Z := Z.shiftl 63 DMA_CH0_RX_CONTROL_PBL_POS.

(** [resets + 0x38]: a register of another device, with an address of its
    own. *)
Definition resets : Z := 0x3000000.
Definition reset_eth : Z := resets + 0x38.

(** What [init] finds: the results of the two checks of magic numbers, the
    fields of [device_resources] that are tested, the memory of both descriptor
    regions, and the mapped queues.  The addresses [regions[1].io_addr] and
    [regions[2].io_addr] are in the [eth_config]. *)
Record eth_boot : Type := mk_eth_boot {
  eb_magic : bool;
  eb_num_irqs : Z;
  eb_num_regions : Z;
  eb_rx_size : Z;
  eb_tx_size : Z;
  eb_rx_descr : list dwmac_desc;
  eb_tx_descr : list dwmac_desc;
  eb_rx_queue : net_queue_handle;
  eb_tx_queue : net_queue_handle;
}.

(** [128 << n] on [int]. *)
Definition fifo_size (n : Z) : res Z := if Z.shiftl 128 n <? 2 ^ 31 then Ok (Z.shiftl 128 n) else Fault IntOverflow.

(** [ring.capacity = n; ring.descr = descr] *)
Definition attach (n : Z) (descr : list dwmac_desc) (r : hw_ring dwmac_slot) : hw_ring dwmac_slot :=
  mk_hw_ring (hr_tail r) (hr_head r) n (zip_with mk_dwmac_slot descr (ds_mdata <$> hr_descr r)).

Abbreviation dwmac_dev := (dwmac_state * eth_regs)%type.

Section init.
Context (plat : platform) (settle : (Z -> Z) -> Z -> Z) (config : eth_config).


#[local] Abbreviation rd := (reg_read settle).
#[local] Abbreviation wr := (reg_write settle).
#[local] Abbreviation set := (reg_set settle).
#[local] Abbreviation clear := (reg_clear settle).

(** The software reset. *)
Definition eth_reset : M dwmac_dev unit :=
  set DMA_MODE DMA_MODE_SWR;;
  poll settle DMA_MODE (fun v => has_bits v DMA_MODE_SWR).

(** "Configure MTL" *)
Definition eth_init_mtl : M dwmac_dev unit :=
  set MTL_TXQ0_OPERATION_MODE (Z.lor MTL_TXQ_OP_MODE_TSF MTL_TXQ_OP_MODE_TXQEN);;
  set MTL_RXQ0_OPERATION_MODE MTL_RXQ_OP_MODE_RSF;;
  map0 ← rd MTL_RXQ_DMA_MAP0;
  let map0 := Z.ldiff map0 MTL_RXQ_DMA_MAP0_Q0_MDMACH_MASK in
  let map0 := u32 (Z.lor map0 MTL_RXQ_DMA_MAP0_Q0_DMA0) in
  wr MTL_RXQ_DMA_MAP0 map0;;
  val ← rd MAC_HW_FEATURE1;
  tx_fifo_sz ← lift (fifo_size (Z.land (Z.shiftr val 6) 0x1f));
  rx_fifo_sz ← lift (fifo_size (Z.land (Z.shiftr val 0) 0x1f));
  let tqs := u32 (tx_fifo_sz / 256 - 1) in
  let rqs := u32 (rx_fifo_sz / 256 - 1) in
  clear MTL_TXQ0_OPERATION_MODE MTL_TXQ_OP_MODE_TQS_MASK;;
  set MTL_TXQ0_OPERATION_MODE (u32 (Z.shiftl tqs MTL_TXQ_OP_MODE_TQS_POS));;
  clear MTL_RXQ0_OPERATION_MODE MTL_RXQ_OP_MODE_RQS_MASK;;
  set MTL_RXQ0_OPERATION_MODE (u32 (Z.shiftl rqs MTL_RXQ_OP_MODE_RQS_POS)).

(** "Configure MAC"; [mac] are [mac_high] and [mac_low]. *)
Definition eth_init_mac (mac : Z * Z) : M dwmac_dev unit :=
  v ← rd MAC_RXQ_CTRL0;
  wr MAC_RXQ_CTRL0 (Z.land v MAC_RXQ_CTRL0_Q0_CLEAR);;
  set MAC_RXQ_CTRL0 MAC_RXQ_CTRL0_Q0_DCB_GEN_EN;;
  wr MAC_PACKET_FILTER MAC_PACKET_FILTER_PR;;
  wr MAC_Q0_TX_FLOW_CTRL 0;;
  conf ← rd MAC_CONFIGURATION;
  let conf := Z.lor conf MAC_CONFIG_DM in
  let conf := Z.lor conf MAC_CONFIG_IPC in
  let conf := Z.ldiff conf (Z.lor MAC_CONFIG_PS MAC_CONFIG_FES) in
  wr MAC_CONFIGURATION conf;;
  wr MAC_ADDRESS0_HIGH mac.1;;
  wr MAC_ADDRESS0_LOW mac.2.

(** "Configure DMA", interrupts and start. *)
Definition eth_init_dma : M dwmac_dev unit :=
  set DMA_CH0_TX_CONTROL DMA_CH0_TX_CONTROL_OSF;;
  clear DMA_CH0_RX_CONTROL DMA_CH0_RX_RBSZ_MASK;;
  set DMA_CH0_RX_CONTROL (Z.shiftl MAX_RX_FRAME_SZ DMA_CH0_RX_RBSZ_POS);;
  match plat with
  | IMX8MP_EVK =>
    set DMA_CH0_CONTROL DMA_CH0_CONTROL_PBLx8;;
    set DMA_CH0_TX_CONTROL (Z.land (Z.shiftl 32 DMA_CH0_TX_CONTROL_PBL_POS) DMA_CH0_TX_CONTROL_PBL_MASK);;
    set DMA_CH0_RX_CONTROL (Z.land (Z.shiftl 32 DMA_CH0_RX_CONTROL_PBL_POS) DMA_CH0_RX_CONTROL_PBL_MASK)
  | STAR64 =>
    set DMA_CH0_TX_CONTROL (Z.land (Z.shiftl 16 DMA_CH0_TX_CONTROL_PBL_POS) DMA_CH0_TX_CONTROL_PBL_MASK);;
    set DMA_CH0_RX_CONTROL (Z.land (Z.shiftl 16 DMA_CH0_RX_CONTROL_PBL_POS) DMA_CH0_RX_CONTROL_PBL_MASK)
  end;;
  wr DMA_CH0_TXDESC_RING_LENGTH (TX_COUNT - 1);;
  wr DMA_CH0_RXDESC_RING_LENGTH (RX_COUNT - 1);;
  wr DMA_CH0_RXDESC_LIST_ADDR (Z.land (ec_rx_desc_base config) 0xffffffff);;
  wr DMA_CH0_TXDESC_LIST_ADDR (Z.land (ec_tx_desc_base config) 0xffffffff);;
  wr DMA_CH0_INTERRUPT_EN DMA_INTR_NORMAL;;
  set DMA_CH0_TX_CONTROL DMA_CH0_TX_CONTROL_ST;;
  set DMA_CH0_RX_CONTROL DMA_CH0_RX_CONTROL_SR;;
  set MAC_CONFIGURATION (Z.lor MAC_CONFIG_RE MAC_CONFIG_TE);;
  wr DMA_CH0_RXDESC_TAIL_PTR (desc_addr (ec_rx_desc_base config) (RX_COUNT - 1)).

Definition eth_init : M dwmac_dev unit :=
  mac ← (match plat with
         | IMX8MP_EVK => mac_high ← rd MAC_ADDRESS0_HIGH; mac_low ← rd MAC_ADDRESS0_LOW; mret (mac_high, mac_low)
         | STAR64 => mret (0x00005b75, 0x0039cf6c)
         end : M dwmac_dev (Z * Z));
  eth_reset;;
  eth_init_mtl;;
  eth_init_mac mac;;
  eth_init_dma.

Definition eth_setup (b : eth_boot) : M dwmac_dev unit :=
  assert_ (Z.land (ec_rx_desc_base config) 0xFFFFFFFF =? ec_rx_desc_base config);;
  on_state (on_ring Rx (modify (attach RX_COUNT (eb_rx_descr b))));;
  on_state (on_ring Tx (modify (attach TX_COUNT (eb_tx_descr b))));;
  eth_init.

(** Taking the device out of reset. *)
Definition deassert_resets : M dwmac_dev unit :=
  for_upto 2 (fun i =>
    reset_val ← rd reset_eth;
    let mask := Z.shiftl 1 i in
    wr reset_eth (Z.ldiff reset_val mask)).

Definition init (b : eth_boot) : M dwmac_dev unit :=
  assert_ (eb_magic b);;
  assert_ (eb_num_irqs b =? 1);;
  assert_ (eb_num_regions b =? 3);;
  assert_ (RX_COUNT * 16 <=? eb_rx_size b);;
  assert_ (TX_COUNT * 16 <=? eb_tx_size b);;
  on_state (emit (IrqAck (ec_irq config)));;
  when (match plat with STAR64 => true | IMX8MP_EVK => false end) deassert_resets;;
  phy_stat ← rd MAC_PHYIF_CONTROL_STATUS;
  on_state (on_queue Rx (put (net_queue_init (nh_free (eb_rx_queue b)) (nh_active (eb_rx_queue b)) (nh_capacity (eb_rx_queue b)))));;
  on_state (on_queue Tx (put (net_queue_init (nh_free (eb_tx_queue b)) (nh_active (eb_tx_queue b)) (nh_capacity (eb_tx_queue b)))));;
  eth_setup b;;
  on_state (emit (IrqAck (ec_irq config)));;
  on_state (rx_provide config);;
  on_state (tx_provide config);;
  on_state (emit (IrqAck (ec_irq config))).

End init.

(** ** The device *)

(** The fields the driver uses, as ethernet.h describes them: bits of these
    registers that the device keeps when they are written.  Of a list address the
    low bits are not among them, nor of the buffer size, since they are
    reserved for a wide bus; of the feature register, which cannot be
    written, the fields are the sizes of the FIFOs. *)
Definition ADDRESS0_HIGH_ADDRHI : Z := 0xffff.
Definition ADDRESS0_LOW_ADDRLO : Z := 0xffffffff.
Definition TX_FLOW_CTRL_TFE : Z := Z.shiftl 1 1.
Definition HW_FEATURE1_FIFOS : Z := Z.lor (Z.shiftl 31 6) 31.
Definition DESC_LIST_ADDR : Z := 0xfffffff0.
Definition DESC_RING_LENGTH : Z := 0x3ff.
Definition RBSZ_UPPER : Z := Z.shiftl 0x3ff 5.
Definition INTERRUPT_EN_BITS : Z := 0xffc3.
Definition reset_eth_bits : Z := 3.

Definition fields : list (Z * Z) :=
  [(MAC_CONFIGURATION, foldr Z.lor 0 [MAC_CONFIG_RE; MAC_CONFIG_TE; MAC_CONFIG_DM; MAC_CONFIG_FES; MAC_CONFIG_PS; MAC_CONFIG_IPC]);
   (MAC_PACKET_FILTER, MAC_PACKET_FILTER_PR);
   (MAC_Q0_TX_FLOW_CTRL, TX_FLOW_CTRL_TFE);
   (MAC_RXQ_CTRL0, MAC_RXQ_CTRL0_Q0_CLEAR);
   (MAC_HW_FEATURE1, HW_FEATURE1_FIFOS);
   (MAC_ADDRESS0_HIGH, ADDRESS0_HIGH_ADDRHI);
   (MAC_ADDRESS0_LOW, ADDRESS0_LOW_ADDRLO);
   (MTL_RXQ_DMA_MAP0, MTL_RXQ_DMA_MAP0_Q0_MDMACH_MASK);
   (MTL_TXQ0_OPERATION_MODE, foldr Z.lor 0 [MTL_TXQ_OP_MODE_TSF; MTL_TXQ_OP_MODE_TXQEN; MTL_TXQ_OP_MODE_TQS_MASK]);
   (MTL_RXQ0_OPERATION_MODE, foldr Z.lor 0 [MTL_RXQ_OP_MODE_RSF; MTL_RXQ_OP_MODE_RQS_MASK]);
   (DMA_MODE, DMA_MODE_SWR);
   (DMA_CH0_CONTROL, DMA_CH0_CONTROL_PBLx8);
   (DMA_CH0_TX_CONTROL, foldr Z.lor 0 [DMA_CH0_TX_CONTROL_ST; DMA_CH0_TX_CONTROL_OSF; DMA_CH0_TX_CONTROL_PBL_MASK]);
   (DMA_CH0_RX_CONTROL, foldr Z.lor 0 [DMA_CH0_RX_CONTROL_SR; RBSZ_UPPER; DMA_CH0_RX_CONTROL_PBL_MASK]);
   (DMA_CH0_TXDESC_LIST_ADDR, DESC_LIST_ADDR); (DMA_CH0_RXDESC_LIST_ADDR, DESC_LIST_ADDR);
   (DMA_CH0_TXDESC_RING_LENGTH, DESC_RING_LENGTH); (DMA_CH0_RXDESC_RING_LENGTH, DESC_RING_LENGTH);
   (DMA_CH0_INTERRUPT_EN, INTERRUPT_EN_BITS);
   (reset_eth, reset_eth_bits)].
Definition held (off : Z) : Z := foldr (fun f k => if off =? f.1 then f.2 else k) 0 fields.

(** No reset is under way, and the feature register says what the device has. *)
Definition calm (feature : Z) (m : Z -> Z) : Prop :=
  has_bits (m DMA_MODE) DMA_MODE_SWR = false /\ Z.land (m MAC_HW_FEATURE1) HW_FEATURE1_FIFOS = Z.land feature HW_FEATURE1_FIFOS.

(** When no reset is under way, the device keeps the fields above; every other
    bit of every register it may change at any access.  A reset ends, and
    leaves nothing known but the feature register. *)
Record dwmac_hw (settle : (Z -> Z) -> Z -> Z) (feature : Z) : Prop := {
  dh_holds : hw_holds settle (calm feature) held;
  dh_reset m : calm feature (settle m);
}.

(** The exponents of the sizes of the two FIFOs. *)
Definition tx_exp (feature : Z) : Z := Z.land (Z.shiftr feature 6) 31.
Definition rx_exp (feature : Z) : Z := Z.land (Z.shiftr feature 0) 31.
Definition queue_size (e : Z) : Z := u32 (Z.shiftl 128 e / 256 - 1).

Lemma field_of v p k : 0 <= p -> Z.land (Z.shiftr v p) k = Z.shiftr (Z.land v (Z.shiftl k p)) p.
Proof. intros Hp. by rewrite Z.shiftr_land, Z.shiftr_shiftl_l, Z.sub_diag, Z.shiftl_0_r by lia. Qed.
Lemma fifos_agree v w :
  Z.land v HW_FEATURE1_FIFOS = Z.land w HW_FEATURE1_FIFOS -> tx_exp v = tx_exp w /\ rx_exp v = rx_exp w.
Proof.
  intros E. unfold tx_exp, rx_exp. rewrite !field_of by lia. by rewrite !(held_bits v w _ _ E).
Qed.

Ltac calm_tac := solve [unfold calm; rewrite ?upd_other by discriminate; assumption].

Section setup.
Context (plat : platform) (settle : (Z -> Z) -> Z -> Z) (config : eth_config) (feature : Z).
Context (HD : dwmac_hw settle feature).
Implicit Types (s : dwmac_state) (m : Z -> Z).
#[local] Abbreviation calm := (calm feature).
#[local] Abbreviation at_regs := (runs_at calm held).
Let HW : hw_holds settle calm held := dh_holds _ _ HD.

#[local] Ltac steps_until acc :=
  repeat (lazymatch goal with |- wp acc _ _ => fail | |- wp (acc _) _ _ => fail | _ => run_step HW calm_tac end).

Lemma fifo_size_ok e : 0 <= e <= 23 -> fifo_size e = Ok (Z.shiftl 128 e).
Proof.
  intros He. unfold fifo_size. rewrite Z.shiftl_mul_pow2 by lia. rewrite (proj2 (Z.ltb_lt _ _)); [done|].
  assert (2 ^ e <= 2 ^ 23) by (apply Z.pow_le_mono_r; lia). lia.
Qed.

Lemma dwmac_eth_init_mtl_spec m s p :
  at_regs m s p -> calm m -> tx_exp feature <= 23 -> rx_exp feature <= 23 ->
  wp (eth_init_mtl settle) p (fun _ p' => exists m' v, at_regs m' s p' /\ calm m' /\
    (forall off, off ∉ [MTL_TXQ0_OPERATION_MODE; MTL_RXQ0_OPERATION_MODE; MTL_RXQ_DMA_MAP0] -> m' off = m off) /\
    m' MTL_TXQ0_OPERATION_MODE = u32 (Z.lor (u32 (Z.ldiff (u32 (Z.lor (m MTL_TXQ0_OPERATION_MODE) (Z.lor MTL_TXQ_OP_MODE_TSF MTL_TXQ_OP_MODE_TXQEN)))
        MTL_TXQ_OP_MODE_TQS_MASK)) (u32 (Z.shiftl (queue_size (tx_exp feature)) MTL_TXQ_OP_MODE_TQS_POS))) /\
    m' MTL_RXQ0_OPERATION_MODE = u32 (Z.lor (u32 (Z.ldiff (u32 (Z.lor (m MTL_RXQ0_OPERATION_MODE) MTL_RXQ_OP_MODE_RSF))
        MTL_RXQ_OP_MODE_RQS_MASK)) (u32 (Z.shiftl (queue_size (rx_exp feature)) MTL_RXQ_OP_MODE_RQS_POS))) /\
    m' MTL_RXQ_DMA_MAP0 = u32 (u32 (Z.lor (Z.ldiff v MTL_RXQ_DMA_MAP0_Q0_MDMACH_MASK) MTL_RXQ_DMA_MAP0_Q0_DMA0))).
Proof.
  intros Hp Hc Ht Hr. unfold eth_init_mtl. steps_until (reg_read (D := dwmac_slot) settle MAC_HW_FEATURE1).
  eapply (run_read_some _ _ _ HW); [eassumption|]. clear_runs. intros val ? Hval ?.
  upd_tac. rewrite !upd_other in Hval by discriminate. change (held MAC_HW_FEATURE1) with HW_FEATURE1_FIFOS in Hval.
  rewrite (proj2 Hc) in Hval. apply fifos_agree in Hval as [Ev Ew]. fold (tx_exp val). fold (rx_exp val). rewrite Ev, Ew.
  assert (0 <= tx_exp feature /\ 0 <= rx_exp feature) as [? ?] by (unfold tx_exp, rx_exp; rewrite !Z.land_nonneg; lia).
  wp_step. eapply wp_lift; [by apply fifo_size_ok|]. wp_step. eapply wp_lift; [by apply fifo_size_ok|].
  repeat run_step HW calm_tac. eexists _, _. split; [eassumption|]. split_and!; [calm_tac| |by upd_tac..].
  intros off Hoff. rewrite !not_elem_of_cons in Hoff. by rewrite !upd_other by tauto.
Qed.

Lemma dwmac_eth_init_mac_spec m s p mac :
  at_regs m s p -> calm m ->
  wp (eth_init_mac settle mac) p (fun _ p' => exists m' v w, at_regs m' s p' /\ calm m' /\
    (forall off, off ∉ [MAC_RXQ_CTRL0; MAC_PACKET_FILTER; MAC_Q0_TX_FLOW_CTRL; MAC_CONFIGURATION; MAC_ADDRESS0_HIGH; MAC_ADDRESS0_LOW] ->
       m' off = m off) /\
    m' MAC_RXQ_CTRL0 = u32 (Z.lor (u32 (Z.land v MAC_RXQ_CTRL0_Q0_CLEAR)) MAC_RXQ_CTRL0_Q0_DCB_GEN_EN) /\
    m' MAC_PACKET_FILTER = MAC_PACKET_FILTER_PR /\ m' MAC_Q0_TX_FLOW_CTRL = 0 /\
    m' MAC_CONFIGURATION = u32 (Z.ldiff (Z.lor (Z.lor w MAC_CONFIG_DM) MAC_CONFIG_IPC) (Z.lor MAC_CONFIG_PS MAC_CONFIG_FES)) /\
    m' MAC_ADDRESS0_HIGH = u32 mac.1 /\ m' MAC_ADDRESS0_LOW = u32 mac.2).
Proof.
  intros Hp Hc. unfold eth_init_mac. repeat run_step HW calm_tac.
  eexists _, _, _. split; [eassumption|]. split_and!; [calm_tac| |by upd_tac..].
  intros off Hoff. rewrite !not_elem_of_cons in Hoff. by rewrite !upd_other by tauto.
Qed.

Lemma dwmac_eth_init_dma_spec m s p :
  at_regs m s p -> calm m ->
  wp (eth_init_dma plat settle config) p (fun _ p' => exists m' tx pbl ev, at_regs m' s p' /\
    p'.1 = set_events (ev ++ [RegWrite DMA_CH0_RXDESC_TAIL_PTR (u32 (desc_addr (ec_rx_desc_base config) 255))]) s /\
    (forall off, off ∉ [DMA_CH0_CONTROL; DMA_CH0_TX_CONTROL; DMA_CH0_RX_CONTROL; DMA_CH0_TXDESC_RING_LENGTH; DMA_CH0_RXDESC_RING_LENGTH;
        DMA_CH0_RXDESC_LIST_ADDR; DMA_CH0_TXDESC_LIST_ADDR; DMA_CH0_INTERRUPT_EN; MAC_CONFIGURATION; DMA_CH0_RXDESC_TAIL_PTR] ->
       m' off = m off) /\
    m' DMA_CH0_TX_CONTROL = u32 (Z.lor tx DMA_CH0_TX_CONTROL_ST) /\
    m' DMA_CH0_RX_CONTROL = u32 (Z.lor (u32 (Z.lor (u32 (Z.lor (u32 (Z.ldiff (m DMA_CH0_RX_CONTROL) DMA_CH0_RX_RBSZ_MASK))
      (Z.shiftl MAX_RX_FRAME_SZ DMA_CH0_RX_RBSZ_POS))) pbl)) DMA_CH0_RX_CONTROL_SR) /\ Z.land pbl DMA_CH0_RX_RBSZ_MASK = 0 /\
    m' DMA_CH0_TXDESC_RING_LENGTH = 255 /\ m' DMA_CH0_RXDESC_RING_LENGTH = 255 /\
    m' DMA_CH0_RXDESC_LIST_ADDR = u32 (Z.land (ec_rx_desc_base config) 0xffffffff) /\
    m' DMA_CH0_TXDESC_LIST_ADDR = u32 (Z.land (ec_tx_desc_base config) 0xffffffff) /\
    m' DMA_CH0_INTERRUPT_EN = DMA_INTR_NORMAL /\
    m' MAC_CONFIGURATION = u32 (Z.lor (m MAC_CONFIGURATION) (Z.lor MAC_CONFIG_RE MAC_CONFIG_TE))).
Proof.
  intros Hp Hc. unfold eth_init_dma.
  destruct plat; steps_until (reg_write (D := dwmac_slot) settle DMA_CH0_RXDESC_TAIL_PTR);
    (eapply (run_write_last _ _ _ HW); [eassumption|calm_tac|]; clear_runs; intros ? ev ? ?).
  - eexists _, _, (Z.shiftl 32 16), _. split; [eassumption|]. split; [eassumption|]. split_and!; [|upd_tac..].
    intros off Hoff. rewrite !not_elem_of_cons in Hoff. by rewrite !upd_other by tauto.
  - eexists _, _, (Z.shiftl 16 16), _. split; [eassumption|]. split; [eassumption|]. split_and!; [|upd_tac..].
    intros off Hoff. rewrite !not_elem_of_cons in Hoff. by rewrite !upd_other by tauto.
Qed.

Lemma dwmac_eth_reset_spec m s p :
  at_regs m s p -> wp (eth_reset settle) p (fun _ p' => exists n, at_regs n s p' /\ calm n).
Proof using HD.
  intros Hp. unfold eth_reset, reg_set. wp_step. wp_step. eapply (run_read_any _ _ _ HW); [exact Hp|]. intros v p1 Hp1.
  assert (has_bits (u32 (Z.lor v DMA_MODE_SWR)) DMA_MODE_SWR = true) as Hv by (unfold has_bits; by rewrite u32_land, set_same).
  eapply (run_reset _ _ _ HW); [exact Hp1|exact Hv|intros n _; split; apply (dh_reset _ _ HD n)|].
  intros n p2 _ _ Hp2. exists (settle n). split; [done|apply HD].
Qed.

(** The fields the device is to have when it is set up, [mac] being the address
    to be restored.  (The tail of the receive ring is written again when the ring is
    filled.) *)
Record dwmac_programmed (mac : Z * Z) (m : Z -> Z) : Prop := {
  dp_mac_high : Z.land (m MAC_ADDRESS0_HIGH) ADDRESS0_HIGH_ADDRHI = Z.land mac.1 ADDRESS0_HIGH_ADDRHI;
  dp_mac_low : Z.land (m MAC_ADDRESS0_LOW) ADDRESS0_LOW_ADDRLO = Z.land mac.2 ADDRESS0_LOW_ADDRLO;
  dp_enabled : Z.land (m MAC_CONFIGURATION) (Z.lor MAC_CONFIG_RE MAC_CONFIG_TE) = Z.lor MAC_CONFIG_RE MAC_CONFIG_TE;
  dp_duplex : Z.land (m MAC_CONFIGURATION) (Z.lor MAC_CONFIG_DM MAC_CONFIG_IPC) = Z.lor MAC_CONFIG_DM MAC_CONFIG_IPC;
  dp_speed : Z.land (m MAC_CONFIGURATION) (Z.lor MAC_CONFIG_PS MAC_CONFIG_FES) = 0;
  dp_filter : Z.land (m MAC_PACKET_FILTER) MAC_PACKET_FILTER_PR = MAC_PACKET_FILTER_PR;
  dp_flow : Z.land (m MAC_Q0_TX_FLOW_CTRL) TX_FLOW_CTRL_TFE = 0;
  dp_rxq : Z.land (m MAC_RXQ_CTRL0) MAC_RXQ_CTRL0_Q0_DCB_GEN_EN = MAC_RXQ_CTRL0_Q0_DCB_GEN_EN;
  dp_map0 : Z.land (m MTL_RXQ_DMA_MAP0) MTL_RXQ_DMA_MAP0_Q0_MDMACH_MASK = 0;
  dp_txq : Z.land (m MTL_TXQ0_OPERATION_MODE) (Z.lor MTL_TXQ_OP_MODE_TSF MTL_TXQ_OP_MODE_TXQEN) = Z.lor MTL_TXQ_OP_MODE_TSF MTL_TXQ_OP_MODE_TXQEN;
  dp_tqs : Z.land (m MTL_TXQ0_OPERATION_MODE) MTL_TXQ_OP_MODE_TQS_MASK = Z.shiftl (2 ^ (tx_exp feature - 1) - 1) MTL_TXQ_OP_MODE_TQS_POS;
  dp_rsf : Z.land (m MTL_RXQ0_OPERATION_MODE) MTL_RXQ_OP_MODE_RSF = MTL_RXQ_OP_MODE_RSF;
  dp_rqs : Z.land (m MTL_RXQ0_OPERATION_MODE) MTL_RXQ_OP_MODE_RQS_MASK = Z.shiftl (2 ^ (rx_exp feature - 1) - 1) MTL_RXQ_OP_MODE_RQS_POS;
  dp_tx_ring : Z.land (m DMA_CH0_TXDESC_LIST_ADDR) DESC_LIST_ADDR = Z.land (ec_tx_desc_base config) DESC_LIST_ADDR;
  dp_rx_ring : Z.land (m DMA_CH0_RXDESC_LIST_ADDR) DESC_LIST_ADDR = Z.land (ec_rx_desc_base config) DESC_LIST_ADDR;
  dp_tx_length : Z.land (m DMA_CH0_TXDESC_RING_LENGTH) DESC_RING_LENGTH = 255;
  dp_rx_length : Z.land (m DMA_CH0_RXDESC_RING_LENGTH) DESC_RING_LENGTH = 255;
  dp_irq : Z.land (m DMA_CH0_INTERRUPT_EN) INTERRUPT_EN_BITS = DMA_INTR_NORMAL;
  dp_tx : Z.land (m DMA_CH0_TX_CONTROL) DMA_CH0_TX_CONTROL_ST = DMA_CH0_TX_CONTROL_ST;
  dp_rx : Z.land (m DMA_CH0_RX_CONTROL) DMA_CH0_RX_CONTROL_SR = DMA_CH0_RX_CONTROL_SR;
  dp_rbsz : Z.land (m DMA_CH0_RX_CONTROL) RBSZ_UPPER = Z.shiftl MAX_RX_FRAME_SZ DMA_CH0_RX_RBSZ_POS;
}.

(** The size of a queue in blocks of 256 bytes, less one. *)
Lemma queue_size_pow e : 1 <= e <= 6 -> queue_size e = 2 ^ (e - 1) - 1.
Proof. intros He. assert (e = 1 \/ e = 2 \/ e = 3 \/ e = 4 \/ e = 5 \/ e = 6) as Hc by lia. destruct_or! Hc; by subst e. Qed.

Lemma queue_size_fits e p : 1 <= e <= 6 -> 0 <= p ->
  Z.land (Z.shiftl (2 ^ (e - 1) - 1) p) (Z.shiftl 31 p) = Z.shiftl (2 ^ (e - 1) - 1) p.
Proof.
  intros He Hp. rewrite <- Z.shiftl_land. f_equal.
  assert (e = 1 \/ e = 2 \/ e = 3 \/ e = 4 \/ e = 5 \/ e = 6) as Hc by lia. destruct_or! Hc; by subst e.
Qed.

(** The address the driver restores: the one it finds, or a constant. *)
Definition mac_of (m : Z -> Z) : Z * Z :=
  match plat with IMX8MP_EVK => (m MAC_ADDRESS0_HIGH, m MAC_ADDRESS0_LOW) | STAR64 => (0x00005b75, 0x0039cf6c) end.

(** Every bit of the register is written, apart from the field. *)
Lemma map0_written v : u32 (u32 (Z.lor (Z.ldiff v MTL_RXQ_DMA_MAP0_Q0_MDMACH_MASK) MTL_RXQ_DMA_MAP0_Q0_DMA0)) = u32 (Z.lnot 7).
Proof.
  rewrite (u32_small (u32 _)) by apply u32_range. unfold u32. rewrite <- !Z.land_ones by lia.
  change MTL_RXQ_DMA_MAP0_Q0_MDMACH_MASK with 7. change MTL_RXQ_DMA_MAP0_Q0_DMA0 with (Z.land (Z.lnot 7) (Z.ones 64)).
  apply Z.bits_inj'. intros n Hn. rewrite !Z.land_spec, Z.lor_spec, Z.ldiff_spec, Z.land_spec, Z.lnot_spec by done.
  destruct (decide (n < 32)) as [Hl|Hl].
  - rewrite !Z.ones_spec_low by lia. by destruct (Z.testbit v n), (Z.testbit 7 n).
  - rewrite (Z.ones_spec_high 32) by lia. by rewrite !andb_false_r.
Qed.

Lemma map0_value v :
  Z.land (u32 (u32 (Z.lor (Z.ldiff v MTL_RXQ_DMA_MAP0_Q0_MDMACH_MASK) MTL_RXQ_DMA_MAP0_Q0_DMA0))) MTL_RXQ_DMA_MAP0_Q0_MDMACH_MASK = 0.
Proof. by rewrite map0_written. Qed.

Lemma rbsz_upper v x : Z.land v DMA_CH0_RX_RBSZ_MASK = x -> Z.land v RBSZ_UPPER = Z.land x RBSZ_UPPER.
Proof. intros <-. by rewrite <- Z.land_assoc. Qed.

Lemma read_mac_spec m s p :
  at_regs m s p -> calm m ->
  wp (match plat with
      | IMX8MP_EVK => mac_high ← reg_read settle MAC_ADDRESS0_HIGH; mac_low ← reg_read settle MAC_ADDRESS0_LOW; mret (mac_high, mac_low)
      | STAR64 => mret (0x00005b75, 0x0039cf6c)
      end : M dwmac_dev (Z * Z)) p (fun mac p' => at_regs m s p' /\
    Z.land mac.1 ADDRESS0_HIGH_ADDRHI = Z.land (mac_of m).1 ADDRESS0_HIGH_ADDRHI /\
    Z.land mac.2 ADDRESS0_LOW_ADDRLO = Z.land (mac_of m).2 ADDRESS0_LOW_ADDRLO).
Proof using HD.
  intros Hp Hc. unfold mac_of. destruct plat; [|by wp_step]. repeat run_step HW calm_tac. by wp_step.
Qed.

Lemma dwmac_eth_init_spec m s p :
  at_regs m s p -> calm m -> 1 <= tx_exp feature <= 6 -> 1 <= rx_exp feature <= 6 ->
  wp (eth_init plat settle config) p (fun _ p' => exists m' ev, at_regs m' s p' /\ dwmac_programmed (mac_of m) m' /\
    p'.1 = set_events (ev ++ [RegWrite DMA_CH0_RXDESC_TAIL_PTR (desc_addr (ec_rx_desc_base config) 255)]) s).
Proof using HD.
  intros Hp Hc Ht Hr. unfold eth_init. wp_step. wp_use (read_mac_spec m s p Hp Hc). intros mac p1 (Hp1 & Mh & Ml).
  wp_step. wp_use (dwmac_eth_reset_spec m s p1 Hp1). intros [] p2 (n & Hp2 & Hcn).
  wp_step. wp_use (dwmac_eth_init_mtl_spec n s p2); [lia..|]. intros [] p3 (m3 & v3 & Hp3 & Hc3 & Ho3 & T3 & R3 & M3).
  wp_step. wp_use (dwmac_eth_init_mac_spec m3 s p3 mac). intros [] p4 (m4 & v4 & w4 & Hp4 & Hc4 & Ho4 & Q4 & F4 & O4 & C4 & A4 & B4).
  pose proof Hp4 as [_ (ev4 & E4)].
  wp_use (dwmac_eth_init_dma_spec m4 s p4).
  intros [] p5 (m5 & tx & pbl & ev & Hp5 & Hev & Ho5 & T5 & R5 & Hpbl & L5 & L5' & D5 & D5' & I5 & C5).
  exists m5, ev. split; [done|]. split; [|by rewrite u32_small in Hev by apply u32_range].
  assert (forall off, off ∈ [MAC_ADDRESS0_HIGH; MAC_ADDRESS0_LOW; MAC_PACKET_FILTER; MAC_RXQ_CTRL0; MAC_Q0_TX_FLOW_CTRL] -> m5 off = m4 off) as E45.
  { intros off Hoff. apply Ho5. revert Hoff. rewrite !elem_of_cons, elem_of_nil.
    intros [-> | [-> | [-> | [-> | [-> | []]]]]]; apply (bool_decide_eq_true_1 _); reflexivity. }
  assert (forall off, off ∈ [MTL_TXQ0_OPERATION_MODE; MTL_RXQ0_OPERATION_MODE; MTL_RXQ_DMA_MAP0] -> m5 off = m3 off) as E35.
  { intros off Hoff. rewrite Ho5, Ho4; [done|..]; revert Hoff; rewrite !elem_of_cons, elem_of_nil;
      intros [-> | [-> | [-> | []]]]; apply (bool_decide_eq_true_1 _); reflexivity. }
  rewrite queue_size_pow in T3, R3 by lia.
  split; rewrite ?E45, ?E35 by (rewrite !elem_of_cons; tauto); rewrite ?T3, ?R3, ?M3, ?Q4, ?F4, ?O4, ?A4, ?B4, ?T5, ?R5, ?L5, ?L5', ?D5, ?D5', ?I5, ?C5; try done.
  - by rewrite u32_land.
  - by rewrite u32_land.
  - by rewrite u32_land, set_same.
  - by rewrite u32_land, C4, set_other, u32_land, clear_other, <- Z.lor_assoc, set_same.
  - by rewrite u32_land, C4, set_other, u32_land, clear_same.
  - by rewrite u32_land, set_same.
  - apply map0_value.
  - rewrite reg_field_other by (done || by apply queue_size_fits). by rewrite u32_land, set_same.
  - by apply reg_field, queue_size_fits.
  - rewrite reg_field_other by (done || by apply queue_size_fits). by rewrite u32_land, set_same.
  - by apply reg_field, queue_size_fits.
  - by rewrite u32_land, <- Z.land_assoc by done.
  - by rewrite u32_land, <- Z.land_assoc by done.
  - by rewrite u32_land, set_same.
  - by rewrite u32_land, set_same.
  - rewrite (rbsz_upper _ (Z.shiftl MAX_RX_FRAME_SZ DMA_CH0_RX_RBSZ_POS)); [reflexivity|]. rewrite u32_land, set_other, u32_land, set_other by done.
    by apply (reg_field _ _ (Z.shiftl MAX_RX_FRAME_SZ DMA_CH0_RX_RBSZ_POS)).
Qed.

Lemma deassert_resets_spec m s p :
  at_regs m s p -> calm m ->
  wp (deassert_resets settle) p (fun _ p' => exists m', at_regs m' s p' /\ calm m' /\
    (forall off, off <> reset_eth -> m' off = m off) /\ Z.land (m' reset_eth) reset_eth_bits = 0).
Proof using HD.
  intros Hp Hc. unfold deassert_resets, for_upto. change (seqZ 0 2) with [0; 1]. cbn [for_each].
  repeat run_step HW calm_tac. wp_step. eexists. split; [eassumption|]. split_and!; [calm_tac| |].
  - intros off Hoff. by rewrite !upd_other by done.
  - upd_tac. rewrite u32_land by done. change reset_eth_bits with (Z.lor 1 2). rewrite Z.land_lor_distr_r.
    rewrite (clear_same _ 2), Z.lor_0_r, clear_other by done.
    match goal with H : Z.land ?v _ = Z.land (upd reset_eth _ _ reset_eth) _ |- Z.land ?v _ = _ =>
      rewrite (held_bits _ _ _ 1 H) by done end.
    rewrite upd_same, u32_land by done. apply clear_same.
Qed.

Lemma dwmac_programmed_now mac m s p : at_regs m s p -> dwmac_programmed mac m -> dwmac_programmed mac (er_now p.2).
Proof using. intros Hp []. split; rewrite (runs_at_field _ _ m s p) by done; done. Qed.
End setup.

(** ** Filling the rings *)

(** The value last written to a register. *)
Definition last_write (off : Z) (l : list event) : option Z :=
  foldl (fun v e => match e with RegWrite o x => if o =? off then Some x else v | _ => v end) None l.

Lemma last_write_app off l l' :
  last_write off (l ++ l') = match last_write off l' with Some v => Some v | None => last_write off l end.
Proof.
  induction l' as [|e l' IH] using rev_ind; [by rewrite app_nil_r|]. unfold last_write in *. rewrite app_assoc, !foldl_snoc, IH.
  cbn beta. destruct e; try done. by destruct (_ =? off).
Qed.

Lemma last_write_rx_kicks config cap k :
  last_write DMA_CH0_RXDESC_TAIL_PTR (kicks (rx_kick config) cap 0 k) =
  match k with O => None | S k' => Some (desc_addr (ec_rx_desc_base config) (u32 (Z.of_nat k'))) end.
Proof. destruct k as [|k]; [done|]. cbn [kicks]. rewrite last_write_app. by cbn. Qed.

Lemma last_write_tx_kicks config cap t k : last_write DMA_CH0_RXDESC_TAIL_PTR (kicks (tx_kick config) cap t k) = None.
Proof. induction k as [|k IH]; [done|]. cbn [kicks]. rewrite last_write_app. cbn. exact IH. Qed.

(** A ring never used. *)
Definition unused {D} (r : hw_ring D) : Prop := hr_head r = 0 /\ hr_tail r = 0.

Lemma unused_items (r : hw_ring dwmac_slot) : hw_wf r -> unused r -> hw_items r = [].
Proof.
  intros Hwf [Hh Ht]. apply hw_empty_spec; [done|]. unfold hw_ring_empty. by rewrite Hh, Ht.
Qed.

(** A provide that starts from an empty ring takes the first buffers of the queue, in
    order, until the ring is full. *)
Lemma provided_fills dir mk kick (s s' : dwmac_state) k :
  (forall cap b i, ds_mdata (mk cap b i) = b) ->
  dir_wf dir s -> unused (es_ring dir s) -> provided dir mk kick s s' k -> can_provide dir s' = false ->
  let waiting := net_items (side_in dir) (es_queue dir s) in
  let n := Z.to_nat (hr_capacity (es_ring dir s)) in
  k = Nat.min n (length waiting) /\
  ds_mdata <$> hw_items (es_ring dir s') = take n waiting /\
  net_items (side_in dir) (es_queue dir s') = drop n waiting.
Proof.
  intros Hmk [Hwf _] Hu (_ & Hwf' & Hk & Hi & Hc & _ & Hin & _) Hstop waiting n. fold waiting in Hk, Hi, Hin.
  rewrite (unused_items _ Hwf Hu), app_nil_l in Hi.
  assert (ds_mdata <$> hw_items (es_ring dir s') = take k waiting) as Hm.
  { rewrite Hi, fmap_imap, (imap_ext _ (const id)); [by rewrite imap_const, list_fmap_id|]. intros i b _. apply Hmk. }
  assert (length (hw_items (es_ring dir s')) = k) as Hlen by (rewrite Hi, length_imap, length_take; lia).
  pose proof (hw_bounded _ (proj1 Hwf')) as Hb. rewrite Hlen, Hc in Hb.
  assert (k = Nat.min n (length waiting)) as Ek.
  { destruct (decide (k = n \/ k = length waiting)) as [|Hn]; [lia|]. exfalso.
    enough (can_provide dir s' = true) by congruence. apply can_provide_spec; [done|]. rewrite Hlen, Hc. split; [lia|].
    rewrite Hin. intros E%(f_equal length). rewrite length_drop in E. cbn in E. lia. }
  split; [done|]. rewrite Hm, Hin. rewrite Ek. split.
  - destruct (decide (n <= length waiting)%nat); [by rewrite Nat.min_l|]. by rewrite Nat.min_r, !take_ge by lia.
  - destruct (decide (n <= length waiting)%nat); [by rewrite Nat.min_l|]. by rewrite Nat.min_r, !drop_ge by lia.
Qed.

(** ** Properties *)

(** What [init] asks for: the system description promises it. *)
Record dwmac_boot_ok (config : eth_config) (b : eth_boot) : Prop := {
  bo_magic : eb_magic b = true;
  bo_irqs : eb_num_irqs b = 1;
  bo_regions : eb_num_regions b = 3;
  bo_rx_size : 4096 <= eb_rx_size b;
  bo_tx_size : 4096 <= eb_tx_size b;
  bo_rx_base : is_u32 (ec_rx_desc_base config);
}.

(** The driver with its rings and queues attached. *)
Definition dwmac_booted (b : eth_boot) (s0 : dwmac_state) : dwmac_state :=
  mk_eth (attach RX_COUNT (eb_rx_descr b) (es_rx s0)) (attach TX_COUNT (eb_tx_descr b) (es_tx s0))
    (eb_rx_queue b) (eb_tx_queue b) (es_device s0) (es_irq s0) (es_events s0).

Lemma keeps_run {D} `{!Inhabited D} `{HwDescLaws D} ev (s s' : eth_state D) : keeps (set_events ev s) s' -> eth_wf s -> keeps s s'.
Proof. intros K Hwf. eapply keeps_trans; [apply keeps_events, keeps_refl, Hwf|exact K]. Qed.

(** Both rings hold the buffers found in the queues, from the first and in order,
    as many as fit, and the queues the rest; the device has been told of the last
    descriptor filled in the receive ring (of the last of all, when there was no
    buffer). *)
Record rings_filled (config : eth_config) (b : eth_boot) (s : dwmac_state) : Prop := {
  rf_rx : hd_addr <$> hw_items (es_rx s) = take 256 (io_or_offset <$> net_items Free (eb_rx_queue b));
  rf_rx_rest : net_items Free (es_rx_queue s) = drop 256 (net_items Free (eb_rx_queue b));
  rf_tx : hd_addr <$> hw_items (es_tx s) = take 256 (io_or_offset <$> net_items Active (eb_tx_queue b));
  rf_tx_rest : net_items Active (es_tx_queue s) = drop 256 (net_items Active (eb_tx_queue b));
  rf_rx_tail : last_write DMA_CH0_RXDESC_TAIL_PTR (es_events s) =
    Some (desc_addr (ec_rx_desc_base config) (match length (hw_items (es_rx s)) with O => 255 | S n => Z.of_nat n end));
}.

(** [rx_provide] on an unused ring. *)
Lemma rx_provide_fills config (b : eth_boot) (s : dwmac_state) ev :
  eth_wf s -> unused (es_rx s) -> hr_capacity (es_rx s) = 256 -> net_items Free (es_rx_queue s) = net_items Free (eb_rx_queue b) ->
  es_events s = ev -> last_write DMA_CH0_RXDESC_TAIL_PTR ev = Some (desc_addr (ec_rx_desc_base config) 255) ->
  wp (rx_provide config) s (fun _ s' => keeps s s' /\ rx_ready s' /\
    es_tx_queue s' = es_tx_queue s /\ ring_le (es_tx s) (es_tx s') /\
    hd_addr <$> hw_items (es_rx s') = take 256 (io_or_offset <$> net_items Free (eb_rx_queue b)) /\
    net_items Free (es_rx_queue s') = drop 256 (net_items Free (eb_rx_queue b)) /\
    last_write DMA_CH0_RXDESC_TAIL_PTR (es_events s') =
      Some (desc_addr (ec_rx_desc_base config) (match length (hw_items (es_rx s')) with O => 255 | S n => Z.of_nat n end))).
Proof.
  intros Hwf Hu Hcap Hfree Hev Hlast. apply dwmac_rx_provide_spec; [apply (Hwf Rx)|]. intros s1 k Hp Hstop.
  destruct (provided_keeps_rx _ _ s s1 k dwmac_slot_addr Hwf Hp) as [K _].
  destruct (provided_fills Rx rx_slot (rx_kick config) s s1 k (fun _ _ _ => eq_refl) (ed_wf _ _ (Hwf Rx)) Hu Hp Hstop) as (Ek & Em & Er).
  cbn [es_ring es_queue side_in] in *. rewrite Hcap, Hfree in *. change (Z.to_nat 256) with 256%nat in *.
  assert (length (hw_items (es_rx s1)) = k) as Hlen.
  { apply (f_equal length) in Em. rewrite length_fmap, length_take in Em. lia. }
  destruct Hp as ((Hle & Hq & _) & _ & _ & _ & _ & _ & _ & _ & _ & _ & Hevs). cbn [es_ring es_queue flip] in *.
  destruct Hu as [_ Ht]. rewrite Ht in Hevs.
  split; [exact K|]. split_and!; [done|done|exact Hle| |exact Er|].
  - cbn. rewrite <- fmap_take, <- Em, <- list_fmap_compose. done.
  - cbn [with_signal set_queue es_events es_rx]. rewrite Hevs, Hlen, last_write_app, last_write_rx_kicks, Hev.
    destruct k as [|k]; [exact Hlast|]. rewrite u32_small; [done|]. unfold is_u32. lia.
Qed.

(** [tx_provide] on an unused ring leaves the receiver alone. *)
Lemma tx_provide_fills config (b : eth_boot) (s : dwmac_state) :
  eth_wf s -> unused (es_tx s) -> hr_capacity (es_tx s) = 256 -> net_items Active (es_tx_queue s) = net_items Active (eb_tx_queue b) ->
  wp (tx_provide config) s (fun _ s' => keeps s s' /\ tx_ready s' /\
    es_rx_queue s' = es_rx_queue s /\ ring_le (es_rx s) (es_rx s') /\
    hd_addr <$> hw_items (es_tx s') = take 256 (io_or_offset <$> net_items Active (eb_tx_queue b)) /\
    net_items Active (es_tx_queue s') = drop 256 (net_items Active (eb_tx_queue b)) /\
    last_write DMA_CH0_RXDESC_TAIL_PTR (es_events s') = last_write DMA_CH0_RXDESC_TAIL_PTR (es_events s)).
Proof.
  intros Hwf Hu Hcap Hact. apply dwmac_tx_provide_spec; [apply (Hwf Tx)|]. intros s1 k Hp Hstop.
  destruct (provided_keeps_tx _ _ s s1 k dwmac_tx_slot_addr Hwf Hp) as [K _].
  destruct (provided_fills Tx tx_slot (tx_kick config) s s1 k (fun _ _ _ => eq_refl) (ed_wf _ _ (Hwf Tx)) Hu Hp Hstop) as (_ & Em & Er).
  cbn [es_ring es_queue side_in] in *. rewrite Hcap, Hact in *. change (Z.to_nat 256) with 256%nat in *.
  destruct Hp as ((Hle & Hq & _) & _ & _ & _ & _ & _ & _ & _ & _ & _ & Hevs). cbn [es_ring es_queue flip] in *.
  split; [exact K|]. split_and!; [done|done|exact Hle| |exact Er|].
  - cbn. rewrite <- fmap_take, <- Em, <- list_fmap_compose. done.
  - cbn [with_signal set_queue es_events]. by rewrite Hevs, last_write_app, last_write_tx_kicks.
Qed.

(** Both, as [init] calls them. *)
Lemma provides_fill config (b : eth_boot) (s0 s : dwmac_state) ev :
  s = set_events ev (dwmac_booted b s0) -> eth_wf (dwmac_booted b s0) -> unused (es_rx s0) -> unused (es_tx s0) ->
  last_write DMA_CH0_RXDESC_TAIL_PTR ev = Some (desc_addr (ec_rx_desc_base config) 255) ->
  wp (rx_provide config) s (fun _ s' => wp (tx_provide config) s' (fun _ s'' =>
    rings_filled config b s'' /\ keeps (dwmac_booted b s0) s'' /\ rx_ready s'' /\ tx_ready s'')).
Proof.
  intros -> Hwf Hrx Htx Hlast.
  assert (eth_wf (set_events ev (dwmac_booted b s0))) as Hwf5 by by apply (keeps_events ev _ _ (keeps_refl _ Hwf)).
  wp_use (rx_provide_fills config b _ ev Hwf5 Hrx); [done..|]. intros [] s6 (K6 & R6 & Q6 & [Et6 [Eh6 [Ec6 _]]] & A6 & D6 & L6).
  assert (unused (es_tx s6)) as U6 by (unfold unused; by rewrite Et6, Eh6).
  wp_use (tx_provide_fills config b s6 (proj1 K6) U6 Ec6 (f_equal (net_items Active) Q6)).
  intros [] s7 (K7 & T7 & Q7 & (_ & _ & _ & _ & F7) & A7 & D7 & L7).
  split_and!; [|eapply keeps_run; [|exact Hwf]; by eapply keeps_trans|apply K7, R6|exact T7].
  split; [|by rewrite Q7|done..|].
  - by rewrite (dev_le_addrs _ _ F7).
  - rewrite L7, L6. by rewrite <- (Forall2_length _ _ _ F7).
Qed.

(** C26. For every board, however long the device takes over a reset, whatever
    it makes of its registers meanwhile and of the bits of them that are not fields
    the driver uses, [init] returns, without a failed assertion or an overflow of
    [int], with the fields of the device programmed: both rings at their addresses with
    their lengths, the sizes of the queues from the feature register, the address
    of the station from before the reset (or the constant of the board), full
    duplex at the speed chosen, no flow control, and the sender, the receiver and
    just the interrupts wanted on.  Each ring is filled with the first buffers of its
    queue in order, as many as it has slots, the device being told of the last
    of the receive ring; no buffer is lost, and the driver is waiting to be
    notified. *)
Theorem eth_dwmac_init_programs plat settle config feature (b : eth_boot) (s0 : dwmac_state) (r0 : eth_regs) :
  dwmac_hw settle feature -> calm feature (er_now r0) -> 1 <= tx_exp feature <= 6 -> 1 <= rx_exp feature <= 6 ->
  dwmac_boot_ok config b -> eth_wf (dwmac_booted b s0) -> unused (es_rx s0) -> unused (es_tx s0) ->
  wp (init plat settle config b) (s0, r0) (fun _ p =>
    dwmac_programmed config feature (mac_of plat (er_now r0)) (er_now p.2) /\
    rings_filled config b p.1 /\ keeps (dwmac_booted b s0) p.1 /\ rx_ready p.1 /\ tx_ready p.1).
Proof.
  intros HD Hc Ht Hr [Hmag Hirq Hreg Hrx Htx Hb] Hwf Hur Hut. pose proof (dh_holds _ _ HD) as HW. unfold init.
  do 5 (wp_step; apply wp_assert; [rewrite ?Hmag, ?Hirq, ?Hreg, ?Z.leb_le; unfold RX_COUNT, TX_COUNT; done || lia|]).
  do 2 wp_step. apply wp_emit. set (s1 := set_events _ s0).
  assert (runs_at (calm feature) held (er_now r0) s1 (s1, r0)) as Hp0 by by apply runs_at_start.
  assert (wp (when (match plat with STAR64 => true | IMX8MP_EVK => false end) (deassert_resets settle)) (s1, r0) (fun _ p =>
    exists m, runs_at (calm feature) held m s1 p /\ calm feature m /\ forall off, off <> reset_eth -> m off = er_now r0 off)) as Hd.
  { destruct plat; cbn [when]; [wp_step; eauto|]. wp_use (deassert_resets_spec settle feature HD (er_now r0) s1 (s1, r0)).
    intros [] p (m & Hp & Hcm & Ho & _). eauto. }
  wp_step. wp_use Hd. intros [] p1 (m1 & Hp1 & Hc1 & Ho1). wp_step.
  eapply (run_read_any _ _ _ HW); [exact Hp1|]. intros v [s2 r2] [Ht2 (ev & E)]. cbn [fst snd] in *. subst s2.
  unfold on_queue at 1 2. do 6 wp_step. unfold eth_setup. repeat wp_step. apply wp_assert.
  { change 0xFFFFFFFF with (Z.ones 32). rewrite Z.land_ones by lia. apply Z.eqb_eq, u32_small, Hb. }
  unfold on_ring. repeat wp_step.
  match goal with |- wp (eth_init _ _ _) (?s, _) _ => set (s3 := s) end.
  assert (s3 = set_events ev (dwmac_booted b s0)) as E3.
  { unfold s3, s1, dwmac_booted. destruct b as [? ? ? ? ? ? ? [] []]. reflexivity. }
  assert (mac_of plat m1 = mac_of plat (er_now r0)) as Em.
  { unfold mac_of. destruct plat; [|done]. by rewrite !Ho1 by discriminate. }
  wp_use (dwmac_eth_init_spec plat settle config feature HD m1 s3 (s3, r2)); rewrite ?Em; [by apply runs_at_start|].
  intros [] [s4 r4] (m4 & ev4 & Hp4 & Hprog & E4). pose proof (dwmac_programmed_now _ _ _ _ _ _ Hp4 Hprog) as Hnow.
  cbn [fst snd] in *. subst s4. do 2 wp_step. apply wp_emit. do 2 wp_step.
  wp_use (provides_fill config b s0); [rewrite E3; reflexivity|cbn [es_events set_events]; by rewrite !last_write_app|].
  intros [] s6 H6. do 2 wp_step. wp_use H6. intros [] s7 (F7 & K7 & R7 & T7). wp_step. apply wp_emit. cbn [fst snd].
  split; [exact Hnow|]. split; [|split; [by apply keeps_events|done]].
  destruct F7 as [? ? ? ? L]. split; try done. cbn [es_events set_events]. by rewrite last_write_app.
Qed.

(** ** A device with FIFOs of 4 and 8 KiB, whose reset takes three reads *)

Definition dwmac_feature_ex : Z := Z.lor (Z.shiftl 5 6) 6.

(** All other bits read as zero. *)
Definition dwmac_settle_ex (m : Z -> Z) : Z -> Z := fun off =>
  if off =? MAC_HW_FEATURE1 then dwmac_feature_ex
  else if has_bits (m DMA_MODE) DMA_MODE_SWR then 0 else Z.land (m off) (held off).

Lemma dwmac_hw_ex : dwmac_hw dwmac_settle_ex dwmac_feature_ex.
Proof.
  assert (forall v w, Z.land v (held DMA_MODE) = Z.land w (held DMA_MODE) -> has_bits v DMA_MODE_SWR = has_bits w DMA_MODE_SWR) as Hb.
  { intros v w E. unfold has_bits. by rewrite (held_bits _ _ _ DMA_MODE_SWR E). }
  split; [split|].
  - intros m off [Hr Hf]. unfold dwmac_settle_ex. rewrite Hr. destruct (Z.eqb_spec off MAC_HW_FEATURE1) as [->|_]; [by symmetry|].
    by rewrite <- Z.land_assoc, Z.land_diag.
  - intros m m' [Hr Hf] Hm. split; [by rewrite (Hb _ _ (Hm DMA_MODE))|]. rewrite <- Hf. exact (Hm MAC_HW_FEATURE1).
  - intros m. split; [|done]. unfold dwmac_settle_ex. cbn. destruct (has_bits (m DMA_MODE) DMA_MODE_SWR) eqn:E; [done|].
    rewrite <- E. apply Hb. by rewrite <- Z.land_assoc, Z.land_diag.
Qed.

Definition dwmac_regs_ex : eth_regs :=
  mk_eth_regs (fun off => if off =? MAC_ADDRESS0_HIGH then 0x80005b75 else if off =? MAC_ADDRESS0_LOW then 0x39cf6c
                          else if off =? MAC_HW_FEATURE1 then dwmac_feature_ex else 0) 0 [3%N].
Definition dwmac_blank : hw_ring dwmac_slot := mk_hw_ring 0 0 0 (replicate 256 inhabitant).
Definition dwmac_boot_ex : eth_boot :=
  mk_eth_boot true 1 3 4096 4096 (replicate 256 (mk_dwmac_desc 0 0 0 0)) (replicate 256 (mk_dwmac_desc 0 0 0 0))
    (dwmac_queue_ex [mk_buff 8192 0; mk_buff 12288 0] []) (dwmac_queue_ex [] []).
Definition dwmac_start_ex : dwmac_state :=
  mk_eth dwmac_blank dwmac_blank (dwmac_queue_ex [] []) (dwmac_queue_ex [] []) [] [] [].

Lemma dwmac_booted_ex_wf : eth_wf (dwmac_booted dwmac_boot_ex dwmac_start_ex).
Proof.
  assert (hw_wf (attach 256 (replicate 256 (mk_dwmac_desc 0 0 0 0)) dwmac_blank)) as Hring.
  { split; cbn [attach hr_head hr_tail hr_capacity hr_descr dwmac_blank]; try lia; [by exists 16777216|by vm_compute|by vm_compute]. }
  assert (forall t (l : list net_buff_desc), 0 <= t <= 8 -> length l = 8%nat -> ring_wf (2 ^ 16) 8 0 t l) as Hq.
  { intros t l Ht Hl. split; try lia; [by exists 8192|]. unfold ring_len. rewrite Z.mod_small; lia. }
  intros []; (split; [split_and!; [exact Hring|by apply Hq; cbn; lia..]|by vm_compute|]).
  - change (Forall is_u64 [8192; 12288]). unfold is_u64. repeat apply Forall_cons_2; try apply Forall_nil_2; lia.
  - change (Forall is_u64 []). apply Forall_nil_2.
Qed.

Lemma eth_dwmac_init_programs_witness :
  wp (init IMX8MP_EVK dwmac_settle_ex dwmac_config_ex dwmac_boot_ex) (dwmac_start_ex, dwmac_regs_ex) (fun _ p =>
    dwmac_programmed dwmac_config_ex dwmac_feature_ex (0x80005b75, 0x39cf6c) (er_now p.2) /\
    hd_addr <$> hw_items (es_rx p.1) = [8192; 12288] /\ hw_items (es_tx p.1) = [] /\
    last_write DMA_CH0_RXDESC_TAIL_PTR (es_events p.1) = Some (desc_addr (ec_rx_desc_base dwmac_config_ex) 1)).
Proof.
  eapply wp_mono; [apply (eth_dwmac_init_programs IMX8MP_EVK dwmac_settle_ex dwmac_config_ex dwmac_feature_ex)|].
  - exact dwmac_hw_ex.
  - split; reflexivity.
  - vm_compute. split; discriminate.
  - vm_compute. split; discriminate.
  - split; [reflexivity|reflexivity|reflexivity|cbn; lia|cbn; lia|]. vm_compute. split; [discriminate|reflexivity].
  - exact dwmac_booted_ex_wf.
  - split; reflexivity.
  - split; reflexivity.
  - intros _ p (Hprog & [Frx _ Ftx _ Ftail] & _). split; [exact Hprog|]. change (take 256 _) with [8192; 12288] in Frx.
    change (take 256 _) with (@nil Z) in Ftx. split_and!; [exact Frx|by apply fmap_nil_inv in Ftx|].
    rewrite Ftail. apply (f_equal length) in Frx. rewrite length_fmap in Frx. by rewrite Frx.
Defined.
