(* ===== verification/EthImxInit.v ===== *)
(** * Setting up the i.MX device: eth_setup and init of
      drivers/network/imx/ethernet.c

    The registers are those of EthRegs; what the device does with them is the
    parameter [settle]. *)

From S2P Require Import Prelude Ring Fifo NetQueue Microkit HwRing EthImx EthRegs.

(** Bits and values of ethernet.h, and offsets in [struct enet_regs]. *)
Definition ECR_RESET : Z := 1.
Definition ECR_DBSWP : Z := Z.shiftl 1 8.
Definition MIBC_DIS : Z := Z.shiftl 1 31.
Definition MIBC_IDLE : Z := Z.shiftl 1 30.
Definition MIBC_CLEAR : Z := Z.shiftl 1 29.
Definition TIPG : Z := 8.
Definition RACC_LINEDIS : Z := Z.shiftl 1 6.
Definition RCR_MII_MODE : Z := Z.shiftl 1 2.
Definition RCR_RGMII_EN : Z := Z.shiftl 1 6.
Definition RCR_PROMISCUOUS : Z := Z.shiftl 1 3.
Definition ECR_ETHEREN : Z := 2.
Definition ECR_SPEED : Z := Z.shiftl 1 5.
Definition PAUSE_OPCODE_FIELD : Z := Z.shiftl 1 16.
Definition TCR_FDEN : Z := Z.shiftl 1 2.
Definition ICEN : Z := Z.shiftl 1 31.
Definition TACC_IPCHK : Z := Z.shiftl 1 3.
Definition TACC_PROCHK : Z := Z.shiftl 1 4.
Definition STRFWD : Z := Z.shiftl 1 8.
Definition RACC_IPDIS : Z := Z.shiftl 1 1.
Definition RACC_PRODIS : Z := Z.shiftl 1 2.
Definition ICFT (x : Z) : Z := Z.shiftl (Z.land x 0xff) 20.
Definition RCR_MAX_FL (x : Z) : Z := Z.shiftl (Z.land x 0x3fff) 16.
Definition MAX_PACKET_SIZE : Z := 1536.

Definition eir : Z := 0x4.
Definition eimr : Z := 0x8.
Definition rdar : Z := 0x10.
Definition tdar : Z := 0x14.
Definition ecr : Z := 0x24.
Definition mscr : Z := 0x44.
Definition mibc : Z := 0x64.
Definition rcr : Z := 0x84.
Definition tcr : Z := 0xC4.
Definition palr : Z := 0xE4.
Definition paur : Z := 0xE8.
Definition opd : Z := 0xEC.
Definition txic0 : Z := 0xF0.
Definition iaur : Z := 0x118.
Definition ialr : Z := 0x11C.
Definition gaur : Z := 0x120.
Definition galr : Z := 0x124.
Definition tfwr : Z := 0x144.
Definition rdsr : Z := 0x180.
Definition tdsr : Z := 0x184.
Definition mrbr : Z := 0x188.
Definition rsfl : Z := 0x190.
Definition tipg : Z := 0x1AC.
Definition tacc : Z := 0x1C0.
Definition racc : Z := 0x1C4.

(** What [init] finds: the results of the two checks of magic numbers, the
    fields of [device_resources], the memory of both descriptor regions and the
    mapped queues. *)
Record eth_boot : Type := mk_eth_boot {
  eb_magic : bool;
  eb_num_irqs : Z;
  eb_num_regions : Z;
  eb_rx_size : Z;
  eb_tx_size : Z;
  eb_rx_io_addr : Z; (* uint64_t *)
  eb_tx_io_addr : Z; (* uint64_t *)
  eb_rx_descr : list imx_desc;
  eb_tx_descr : list imx_desc;
  eb_rx_queue : net_queue_handle;
  eb_tx_queue : net_queue_handle;
}.

Definition attach (n : Z) (descr : list imx_desc) (r : hw_ring imx_desc) : hw_ring imx_desc :=
  mk_hw_ring (hr_tail r) (hr_head r) n descr.

Abbreviation imx_dev := (imx_state * eth_regs)%type.

Section init.
Context (settle : (Z -> Z) -> Z -> Z) (b : eth_boot).
#[local] Abbreviation rd := (reg_read settle).
#[local] Abbreviation wr := (reg_write settle).
#[local] Abbreviation set := (reg_set settle).
#[local] Abbreviation clear := (reg_clear settle).

(** "Perform reset" *)
Definition eth_reset : M imx_dev unit :=
  wr ecr ECR_RESET;;
  poll settle ecr (fun v => has_bits v ECR_RESET).

(** The counters of the MIB block: "Disable", "Clear", "Restart". *)
Definition eth_mib : M imx_dev unit :=
  set mibc MIBC_DIS;;
  poll settle mibc (fun v => negb (has_bits v MIBC_IDLE));;
  set mibc MIBC_CLEAR;;
  poll settle mibc (fun v => negb (has_bits v MIBC_IDLE));;
  clear mibc MIBC_CLEAR;;
  clear mibc MIBC_DIS.

(** From the hash tables to the end; [l] and [h] are the address read
    first. *)
Definition eth_program (l h : Z) : M imx_dev unit :=
  wr iaur 0;;
  wr ialr 0;;
  wr gaur 0;;
  wr galr 0;;
  v ← rd palr;
  when (v =? 0) (wr palr l;; wr paur h);;
  wr opd PAUSE_OPCODE_FIELD;;
  wr txic0 (Z.lor (Z.lor ICEN (ICFT 128)) 0xFF);;
  wr tipg TIPG;;
  wr tfwr STRFWD;;
  wr rsfl 0;;
  wr racc (Z.lor (Z.lor RACC_LINEDIS RACC_IPDIS) RACC_PRODIS);;
  wr tacc (Z.lor TACC_PROCHK TACC_IPCHK);;
  wr rdsr (eb_rx_io_addr b);;
  wr tdsr (eb_tx_io_addr b);;
  wr mrbr MAX_PACKET_SIZE;;
  wr rcr (Z.lor (Z.lor (Z.lor (RCR_MAX_FL 1518) RCR_RGMII_EN) RCR_MII_MODE) RCR_PROMISCUOUS);;
  wr tcr TCR_FDEN;;
  set ecr ECR_SPEED;;
  set ecr ECR_ETHEREN;;
  wr rdar RDAR_RDAR;;
  e ← rd eir;
  wr eir e;;
  wr eimr IRQ_MASK.

Definition eth_setup : M imx_dev unit :=
  l ← rd palr;
  h ← rd paur;
  on_state (on_ring Rx (modify (attach RX_COUNT (eb_rx_descr b))));;
  on_state (on_ring Tx (modify (attach TX_COUNT (eb_tx_descr b))));;
  eth_reset;;
  set ecr ECR_DBSWP;;
  wr eimr 0;;
  wr eir 0xffffffff;;
  wr mscr (Z.shiftl 24 1);;
  eth_mib;;
  eth_program l h.

Definition init : M imx_dev unit :=
  assert_ (eb_magic b);;
  assert_ (eb_num_irqs b =? 1);;
  assert_ (eb_num_regions b =? 3);;
  assert_ (RX_COUNT * 8 <=? eb_rx_size b);;
  assert_ (TX_COUNT * 8 <=? eb_tx_size b);;
  eth_setup;;
  on_state (on_queue Rx (put (net_queue_init (nh_free (eb_rx_queue b)) (nh_active (eb_rx_queue b)) (nh_capacity (eb_rx_queue b)))));;
  on_state (on_queue Tx (put (net_queue_init (nh_free (eb_tx_queue b)) (nh_active (eb_tx_queue b)) (nh_capacity (eb_tx_queue b)))));;
  on_state rx_provide;;
  on_state tx_provide.

End init.

(** ** The device *)

Definition calm (m : Z -> Z) : Prop := has_bits (m ecr) ECR_RESET = false.
(** The interrupt events and the two registers that start a direction are the
    device's own, and so is the idle bit of the MIB block. *)
Definition held (off : Z) : Z :=
  if (off =? eir) || (off =? rdar) || (off =? tdar) then 0 else if off =? mibc then Z.lnot MIBC_IDLE else -1.

(** Apart from those the registers hold what is written to them; a reset ends,
    and it either keeps the address of the station or clears its lower half;
    the MIB block becomes idle when it is disabled. *)
Record imx_hw (settle : (Z -> Z) -> Z -> Z) : Prop := {
  ih_holds : hw_holds settle calm held;
  ih_reset m : calm (settle m);
  ih_mac m : settle m palr = 0 \/ (settle m palr, settle m paur) = (m palr, m paur);
  ih_idle m : has_bits (m mibc) MIBC_DIS = true -> has_bits (settle m mibc) MIBC_IDLE = true;
}.

Ltac calm_tac := solve
  [ unfold calm; rewrite ?upd_other by discriminate; assumption
  | unfold calm, has_bits in *; repeat first [rewrite upd_same | rewrite upd_other by discriminate];
    repeat first [rewrite u32_land by done | rewrite set_other by done]; assumption ].

Section setup.
Context (settle : (Z -> Z) -> Z -> Z) (b : eth_boot) (HI : imx_hw settle).
Implicit Types (s : imx_state) (m : Z -> Z).
#[local] Abbreviation at_regs := (runs_at calm held).
Let HW : hw_holds settle calm held := ih_holds _ HI.

Lemma imx_eth_reset_spec m s p :
  at_regs m s p ->
  wp (eth_reset settle) p (fun _ p' => exists n, at_regs n s p' /\ calm n /\ (n palr = 0 \/ (n palr, n paur) = (m palr, m paur))).
Proof using HI.
  intros Hp. unfold eth_reset. wp_step. eapply (run_reset _ _ _ HW); [exact Hp|done|intros n _; split; apply HI|].
  intros n p' _ Ho Hp'. exists (settle n). split_and!; [done|apply HI|].
  pose proof (Ho palr ltac:(discriminate)) as Hl. pose proof (Ho paur ltac:(discriminate)) as Hh.
  change (held palr) with (-1) in Hl. change (held paur) with (-1) in Hh. rewrite !Z.land_m1_r in Hl, Hh.
  destruct (ih_mac _ HI n) as [E|E]; [by left|right; congruence].
Qed.

(** Disabled, the MIB block becomes idle. *)
Lemma mib_poll_spec m s p (Q : unit -> imx_dev -> Prop) :
  at_regs m s p -> Z.land (m mibc) MIBC_DIS = MIBC_DIS -> (forall p', at_regs m s p' -> Q tt p') ->
  wp (poll settle mibc (fun v => negb (has_bits v MIBC_IDLE))) p Q.
Proof using HI.
  intros Hp Hm HQ. eapply (run_poll _ _ _ HW); [exact Hp| |exact HQ]. intros r [_ Hr].
  apply negb_false_iff, ih_idle; [done|]. unfold has_bits. by rewrite (held_bits _ _ _ _ (Hr mibc)), Hm.
Qed.

Lemma imx_eth_mib_spec m s p :
  at_regs m s p -> calm m ->
  wp (eth_mib settle) p (fun _ p' => exists m', at_regs m' s p' /\ calm m' /\ (forall off, off <> mibc -> m' off = m off) /\
    Z.land (m' mibc) MIBC_DIS = 0).
Proof using HI.
  intros Hp Hc. unfold eth_mib, reg_set, reg_clear. do 2 wp_step.
  eapply (run_read_some _ _ _ HW); [exact Hp|]. intros v1 p1 _ Hp1. eapply (run_write _ _ _ HW); [exact Hp1|calm_tac|].
  intros p2 Hp2. wp_step. eapply mib_poll_spec; [exact Hp2|by rewrite upd_same, u32_land, set_same|]. intros p3 Hp3.
  do 2 wp_step. eapply (run_read_some _ _ _ HW); [exact Hp3|]. intros v2 p4 Hv2 Hp4.
  apply (held_bits _ _ _ MIBC_DIS) in Hv2; [|done]. rewrite upd_same, u32_land, set_same in Hv2 by done.
  eapply (run_write _ _ _ HW); [exact Hp4|calm_tac|]. intros p5 Hp5. wp_step.
  eapply mib_poll_spec; [exact Hp5|by rewrite upd_same, u32_land, set_other|]. intros p6 Hp6.
  do 2 wp_step. eapply (run_read_some _ _ _ HW); [exact Hp6|]. intros v3 p7 _ Hp7.
  eapply (run_write _ _ _ HW); [exact Hp7|calm_tac|]. intros p8 Hp8.
  wp_step. eapply (run_read_some _ _ _ HW); [exact Hp8|]. intros v4 p9 _ Hp9.
  eapply (run_write _ _ _ HW); [exact Hp9|calm_tac|]. intros p10 Hp10.
  eexists. split; [exact Hp10|]. split_and!; [calm_tac| |by rewrite upd_same, u32_land, clear_same].
  intros off Hoff. by rewrite !upd_other.
Qed.

(** What the registers hold when the device is set up. *)
Record imx_programmed (mac : Z * Z) (m : Z -> Z) : Prop := {
  ip_mac : (m palr, m paur) = mac;
  ip_rings : (m rdsr, m tdsr) = (u32 (eb_rx_io_addr b), u32 (eb_tx_io_addr b));
  ip_size : m mrbr = MAX_PACKET_SIZE;
  ip_swap : Z.land (m ecr) ECR_DBSWP = ECR_DBSWP;
  ip_speed : Z.land (m ecr) ECR_SPEED = ECR_SPEED;
  ip_on : Z.land (m ecr) ECR_ETHEREN = ECR_ETHEREN;
  ip_reset : Z.land (m ecr) ECR_RESET = 0;
  ip_irq : m eimr = IRQ_MASK;
  ip_rcr : m rcr = Z.lor (Z.lor (Z.lor (RCR_MAX_FL 1518) RCR_RGMII_EN) RCR_MII_MODE) RCR_PROMISCUOUS;
  ip_tcr : m tcr = TCR_FDEN;
  ip_checks : (m racc, m tacc) = (Z.lor (Z.lor RACC_LINEDIS RACC_IPDIS) RACC_PRODIS, Z.lor TACC_PROCHK TACC_IPCHK);
  ip_tfwr : (m tfwr, m rsfl) = (STRFWD, 0);
  ip_hash : (m iaur, m ialr, m gaur, m galr) = (0, 0, 0, 0);
  ip_txic : m txic0 = Z.lor (Z.lor ICEN (ICFT 128)) 0xFF;
  ip_mscr : m mscr = 48;
}.

Lemma imx_eth_program_spec m s p l h :
  at_regs m s p -> calm m -> is_u32 l -> is_u32 h -> m palr = 0 \/ (m palr, m paur) = (l, h) ->
  Z.land (m ecr) ECR_DBSWP = ECR_DBSWP -> m mscr = 48 ->
  wp (eth_program settle b l h) p (fun _ p' => exists m', at_regs m' s p' /\ imx_programmed (l, h) m').
Proof using HI.
  intros Hp Hc Hl Hh Hmac Hd Hms. unfold eth_program. repeat run_step HW calm_tac.
  assert (forall m1 (p1 : imx_dev), at_regs m1 s p1 -> calm m1 -> m1 palr = m palr -> m1 paur = m paur ->
    wp (when (m palr =? 0) (reg_write settle palr l;; reg_write settle paur h)) p1 (fun _ p2 => exists m2, at_regs m2 s p2 /\ calm m2 /\
      (m2 palr, m2 paur) = (l, h) /\ forall off, off <> palr -> off <> paur -> m2 off = m1 off)) as Hw.
  { intros m1 p1 Hp1 Hc1 E1 E2. destruct (Z.eqb_spec (m palr) 0) as [Ez|Ez]; cbn [when].
    - repeat run_step HW calm_tac. eexists. split; [eassumption|]. split_and!; [calm_tac|upd_tac; by rewrite !u32_small|].
      intros off N1 N2. by rewrite !upd_other.
    - wp_step. exists m1. split_and!; [done|done| |done]. destruct Hmac as [|]; congruence. }
  eapply wp_mono; [eapply Hw; [eassumption|calm_tac|by upd_tac|by upd_tac]|]. clear_runs.
  intros [] p2 (m2 & Hp2 & Hc2 & Emac & Ho).
  assert (m2 ecr = m ecr /\ m2 mscr = m mscr) as [Ee Es] by (rewrite !Ho by discriminate; split; by upd_tac).
  assert ((m2 iaur, m2 ialr, m2 gaur, m2 galr) = (0, 0, 0, 0)) as Eh by (rewrite !Ho by discriminate; by upd_tac).
  repeat run_step HW calm_tac. eexists. split; [eassumption|]. split.
  all: upd_tac; rewrite ?Ho by discriminate; upd_tac; try done.
  - by rewrite u32_land, set_other, u32_land, set_other.
  - by rewrite u32_land, set_other, u32_land, set_same.
  - by rewrite u32_land, set_same.
  - rewrite u32_land, set_other, u32_land, set_other by done. unfold calm, has_bits in Hc. by apply negb_false_iff, Z.eqb_eq in Hc.
Qed.

(** The driver with its rings attached. *)
Definition imx_attached (s : imx_state) : imx_state :=
  set_ring Tx (attach TX_COUNT (eb_tx_descr b) (es_tx s)) (set_ring Rx (attach RX_COUNT (eb_rx_descr b) (es_rx s)) s).

Lemma imx_eth_setup_spec m s r :
  at_regs m s (s, r) -> calm m -> is_u32 (m palr) -> is_u32 (m paur) ->
  wp (eth_setup settle b) (s, r) (fun _ p => exists m', at_regs m' (imx_attached s) p /\ imx_programmed (m palr, m paur) m').
Proof using HI.
  intros Hp Hc Hl Hh. unfold eth_setup. repeat run_step HW calm_tac. destruct p'0 as [s1 r1].
  match goal with Hr : runs_at _ _ m s (s1, r1) |- _ => destruct Hr as [Ht (ev & E)] end. cbn [fst snd] in *. subst s1.
  unfold on_ring. repeat wp_step.
  match goal with |- wp (eth_reset _) (?x, _) _ => assert (exists ev', x = set_events ev' (imx_attached s)) as (ev' & ->) by (exists ev; by destruct s) end.
  wp_use (imx_eth_reset_spec m (imx_attached s)); [by split; [|eexists]|]. intros [] p2 (n & Hp2 & Hcn & Hmac).
  repeat run_step HW calm_tac.
  wp_use (imx_eth_mib_spec); [calm_tac|]. intros [] p3 (m3 & Hp3 & Hc3 & Ho3 & _).
  wp_use (imx_eth_program_spec m3 (imx_attached s)).
  - rewrite !Ho3 by discriminate. upd_tac. exact Hmac.
  - rewrite !Ho3 by discriminate. upd_tac. by rewrite u32_land, set_same.
Qed.

End setup.

(** ** Properties *)

(** What [init] asks for: the system description promises it. *)
Record imx_boot_ok (b : eth_boot) : Prop := {
  bo_magic : eb_magic b = true;
  bo_irqs : eb_num_irqs b = 1;
  bo_regions : eb_num_regions b = 3;
  bo_rx_size : 2048 <= eb_rx_size b;
  bo_tx_size : 2048 <= eb_tx_size b;
}.

(** The driver with its rings and queues attached. *)
Definition imx_booted (b : eth_boot) (s0 : imx_state) : imx_state :=
  mk_eth (attach RX_COUNT (eb_rx_descr b) (es_rx s0)) (attach TX_COUNT (eb_tx_descr b) (es_tx s0))
    (eb_rx_queue b) (eb_tx_queue b) (es_device s0) (es_irq s0) (es_events s0).

Lemma imx_programmed_now b mac m (s : imx_state) p : runs_at calm held m s p -> imx_programmed b mac m -> imx_programmed b mac (er_now p.2).
Proof. intros Hp []. split; rewrite ?(runs_at_now _ _ m s p) by done; done. Qed.

(** [init], however long the device takes over a reset and over the idling of
    its counters: it returns without a failed assertion with the device
    programmed: the rings at their addresses, the address of the station that
    it had before the reset, the speed and the checks of received and sent
    frames, and the device and its interrupts on; the rings are filled with what
    the queues hold, no buffer is lost or overtaken, and the driver is waiting
    to be notified. *)
Theorem eth_imx_init_programs settle (b : eth_boot) (s0 : imx_state) (r0 : eth_regs) :
  imx_hw settle -> calm (er_now r0) -> is_u32 (er_now r0 palr) -> is_u32 (er_now r0 paur) ->
  imx_boot_ok b -> eth_wf (imx_booted b s0) ->
  wp (init settle b) (s0, r0) (fun _ p =>
    imx_programmed b (er_now r0 palr, er_now r0 paur) (er_now p.2) /\
    conserves (imx_booted b s0) p.1 /\ rx_ready p.1 /\ tx_ready p.1 /\ can_provide Tx p.1 = false).
Proof.
  intros HI Hc Hl Hh [Hmag Hirq Hreg Hrx Htx] Hwf. unfold init.
  do 5 (wp_step; apply wp_assert; [rewrite ?Hmag, ?Hirq, ?Hreg, ?Z.leb_le; unfold RX_COUNT, TX_COUNT; done || lia|]).
  wp_step. wp_use (imx_eth_setup_spec settle b HI (er_now r0) s0 r0); [by apply runs_at_start|].
  intros [] [s1 r1] (m1 & Hp1 & Hprog). pose proof (imx_programmed_now _ _ _ _ _ Hp1 Hprog) as Hnow.
  destruct Hp1 as [_ (ev & E)]. cbn [fst snd] in *. subst s1. unfold on_queue at 1 2. repeat (wp_step; cbn [fst snd]).
  match goal with |- wp rx_provide ?x _ => assert (x = set_events ev (imx_booted b s0)) as ->
    by by destruct b as [? ? ? ? ? ? ? ? ? [] []] end.
  assert (eth_wf (set_events ev (imx_booted b s0))) as Hwf5 by by apply (conserves_events ev _ _ (conserves_refl _ Hwf)).
  wp_use (rx_provide_goes_on _ Hwf5). intros [] s6 (G6 & R6 & _).
  wp_step. wp_use (tx_provide_goes_on s6 (proj1 (proj1 G6))). intros [] s7 (G7 & T7 & P7). cbn [fst snd].
  split; [exact Hnow|]. split_and!; [|by apply G7|done|done].
  apply (conserves_trans _ (set_events ev (imx_booted b s0))); [by apply conserves_events, conserves_refl|].
  eapply conserves_trans; [apply G6|apply G7].
Qed.

(** A device whose reset clears all registers. *)
Definition imx_settle_ex (m : Z -> Z) : Z -> Z := fun off =>
  if off =? mibc then Z.lor (m mibc) MIBC_IDLE else if has_bits (m ecr) ECR_RESET then 0 else m off.

Lemma imx_hw_ex : imx_hw imx_settle_ex.
Proof.
  split; [split|..].
  - intros m off Hc. unfold imx_settle_ex. rewrite Hc. destruct (Z.eqb_spec off mibc) as [->|]; [|done].
    apply set_other. by vm_compute.
  - intros m m' Hc Hm. unfold calm. specialize (Hm ecr). change (held ecr) with (-1) in Hm.
    rewrite !Z.land_m1_r in Hm. by rewrite Hm.
  - intros m. unfold calm, imx_settle_ex. cbn. by destruct (has_bits (m ecr) ECR_RESET) eqn:E.
  - intros m. unfold imx_settle_ex. cbn. destruct (has_bits (m ecr) ECR_RESET); [by left|by right].
  - intros m _. unfold imx_settle_ex, has_bits. rewrite Z.eqb_refl, set_same. done.
Qed.
