(* ===== verification/EthMesonInit.v ===== *)
(** * Setting up the Meson device: eth_setup and init of
      drivers/network/meson/ethernet.c

    The registers are those of EthRegs; what the device does with them is the
    parameter [settle]. *)

From S2P Require Import Prelude Ring Fifo NetQueue Microkit HwRing HwRecycle EthMeson EthRegs.

(** Bits of ethernet.h. *)
Definition DMA_PBL : Z := 32.
Definition DMAMAC_SWRST : Z := Z.shiftl 1 0.
Definition TX_PBL_MASK : Z := 0x3f00.
Definition TX_PBL_SHFT : Z := 8.
Definition PRIORXTX_11 : Z := Z.shiftl 0 14.
Definition DMA_PBL_X : Z := Z.shiftl 1 24.
Definition RXSTART : Z := Z.shiftl 1 1.
Definition TX_OPSCND : Z := Z.shiftl 1 2.
Definition EN_FLOWCTL : Z := Z.shiftl 1 8.
Definition FLOWCTL_SHFT : Z := 9.
Definition DISFLOWCTL_SHFT : Z := 11.
Definition TXSTART : Z := Z.shiftl 1 13.
Definition FLUSHTXFIFO : Z := Z.shiftl 1 20.
Definition TX_STOREFORWARD : Z := Z.shiftl 1 21.
Definition RX_STOREFORWARD : Z := Z.shiftl 1 25.
Definition RX_ENABLE : Z := Z.shiftl 1 2.
Definition TX_ENABLE : Z := Z.shiftl 1 3.
Definition IP_CHK_OFFLD : Z := Z.shiftl 1 10.
Definition FULLDPLXMODE : Z := Z.shiftl 1 11.
Definition PMSCUOUS_MODE : Z := 1.
Definition GMAC_FLOW_CTRL_PT_SHIFT : Z := 16.
Definition GMAC_FLOW_CTRL_UP : Z := 8.
Definition GMAC_FLOW_CTRL_RFE : Z := 4.
Definition GMAC_FLOW_CTRL_TFE : Z := 2.
Definition GMAC_INT_RGMII : Z := 1.
Definition GMAC_INT_PCSLNK : Z := Z.shiftl 1 1.
Definition GMAC_INT_PCSAN : Z := Z.shiftl 1 2.
Definition GMAC_INT_PMT : Z := Z.shiftl 1 3.
Definition GMAC_INTR_MASK : Z := Z.lor (Z.lor (Z.lor GMAC_INT_RGMII GMAC_INT_PCSLNK) GMAC_INT_PCSAN) GMAC_INT_PMT.
Definition pause_time : Z := 0xffff.

(** Offsets from [eth_mac] of the fields of [struct eth_mac_regs] and, behind
    [DMA_REG_OFFSET], of [struct eth_dma_regs]. *)
Definition DMA_REG_OFFSET : Z := 0x1000.
Definition conf : Z := 0x00.
Definition framefilt : Z := 0x04.
Definition flowcontrol : Z := 0x18.
Definition intmask : Z := 0x3c.
Definition macaddr0hi : Z := 0x40.
Definition macaddr0lo : Z := 0x44.
Definition busmode : Z := DMA_REG_OFFSET + 0x00.
Definition rxdesclistaddr : Z := DMA_REG_OFFSET + 0x0c.
Definition txdesclistaddr : Z := DMA_REG_OFFSET + 0x10.
Definition opmode : Z := DMA_REG_OFFSET + 0x18.
Definition intenable : Z := DMA_REG_OFFSET + 0x1c.

(** What [init] finds: the results of the two checks of magic numbers, the
    fields of [device_resources], the memory of both descriptor regions and the
    mapped queues. *)
Record eth_boot : Type := mk_eth_boot {
  eb_magic : bool;
  eb_num_irqs : Z;
  eb_num_regions : Z;
  eb_rx_size : Z;
  eb_tx_size : Z;
  eb_rx_io_addr : Z; (* uint64_t *)
  eb_tx_io_addr : Z; (* uint64_t *)
  eb_rx_descr : list meson_desc;
  eb_tx_descr : list meson_desc;
  eb_rx_queue : net_queue_handle;
  eb_tx_queue : net_queue_handle;
}.

Definition attach (n : Z) (descr : list meson_desc) (r : hw_ring meson_desc) : hw_ring meson_desc :=
  mk_hw_ring (hr_tail r) (hr_head r) n descr.

Abbreviation meson_dev := (meson_state * eth_regs)%type.

Section init.
(** [odroidc2]: whether [CONFIG_PLAT_ODROIDC2] is defined. *)
Context (odroidc2 : bool) (settle : (Z -> Z) -> Z -> Z) (config : eth_config) (b : eth_boot).
#[local] Abbreviation rd := (reg_read settle).
#[local] Abbreviation wr := (reg_write settle).
#[local] Abbreviation set := (reg_set settle).

(** "Perform reset" and "Perform flush" *)
Definition eth_reset : M meson_dev unit :=
  set busmode DMAMAC_SWRST;;
  poll settle busmode (fun v => has_bits v DMAMAC_SWRST).
Definition eth_flush : M meson_dev unit :=
  wr opmode FLUSHTXFIFO;;
  poll settle opmode (fun v => has_bits v FLUSHTXFIFO).

Definition busmode_value : Z :=
  if ec_odroidc4 config || odroidc2
  then Z.lor (Z.lor PRIORXTX_11 DMA_PBL_X) (Z.land (Z.shiftl 16 TX_PBL_SHFT) TX_PBL_MASK)
  else Z.lor PRIORXTX_11 (Z.land (Z.shiftl DMA_PBL TX_PBL_SHFT) TX_PBL_MASK).

(** After the flush; [l] and [h] are the address read first. *)
Definition eth_program (l h : Z) : M meson_dev unit :=
  wr macaddr0lo l;;
  wr macaddr0hi h;;
  wr busmode busmode_value;;
  wr opmode (Z.lor (Z.lor (Z.lor (Z.lor (Z.lor RX_STOREFORWARD TX_STOREFORWARD) EN_FLOWCTL) (Z.shiftl 0 FLOWCTL_SHFT))
    (Z.shiftl 0 DISFLOWCTL_SHFT)) TX_OPSCND);;
  wr conf (Z.lor FULLDPLXMODE IP_CHK_OFFLD);;
  wr rxdesclistaddr (eb_rx_io_addr b);;
  wr txdesclistaddr (eb_tx_io_addr b);;
  set framefilt PMSCUOUS_MODE;;
  let flow_ctrl := Z.lor (Z.lor GMAC_FLOW_CTRL_UP GMAC_FLOW_CTRL_RFE) GMAC_FLOW_CTRL_TFE in
  let flow_ctrl := Z.lor flow_ctrl (u32 (Z.shiftl pause_time GMAC_FLOW_CTRL_PT_SHIFT)) in
  wr flowcontrol flow_ctrl.

Definition eth_setup : M meson_dev unit :=
  l ← rd macaddr0lo;
  h ← rd macaddr0hi;
  assert_ (Z.land (eb_rx_io_addr b) 0xFFFFFFFF =? eb_rx_io_addr b);;
  assert_ (Z.land (eb_tx_io_addr b) 0xFFFFFFFF =? eb_tx_io_addr b);;
  on_state (on_ring Rx (modify (attach RX_COUNT (eb_rx_descr b))));;
  on_state (on_ring Tx (modify (attach TX_COUNT (eb_tx_descr b))));;
  eth_reset;;
  eth_flush;;
  eth_program l h.

(** The end of [init]: "Enable IRQs", "We are ready to receive". *)
Definition eth_enable : M meson_dev unit :=
  set intenable DMA_INTR_MASK;;
  set intmask GMAC_INTR_MASK;;
  set conf (Z.lor RX_ENABLE TX_ENABLE);;
  set opmode (Z.lor TXSTART RXSTART).

Definition init : M meson_dev unit :=
  assert_ (eb_magic b);;
  assert_ (eb_num_irqs b =? 1);;
  assert_ (eb_num_regions b =? 3);;
  assert_ (RX_COUNT * 16 <=? eb_rx_size b);;
  assert_ (TX_COUNT * 16 <=? eb_tx_size b);;
  on_state (emit (IrqAck (ec_irq config)));;
  eth_setup;;
  on_state (on_queue Rx (put (net_queue_init (nh_free (eb_rx_queue b)) (nh_active (eb_rx_queue b)) (nh_capacity (eb_rx_queue b)))));;
  on_state (on_queue Tx (put (net_queue_init (nh_free (eb_tx_queue b)) (nh_active (eb_tx_queue b)) (nh_capacity (eb_tx_queue b)))));;
  on_state rx_provide;;
  on_state (tx_provide config);;
  eth_enable.

End init.

(** ** The device *)

Definition calm (m : Z -> Z) : Prop :=
  has_bits (m busmode) DMAMAC_SWRST = false /\ has_bits (m opmode) FLUSHTXFIFO = false.
Definition held (off : Z) : Z :=
  if (off =? dma_status) || (off =? txpolldemand) || (off =? rxpolldemand) then 0 else -1.

(** When neither a reset nor a flush is under way, the registers hold what is
    written to them, apart from the interrupt status and the two poll demands;
    resets and flushes end. *)
Record meson_hw (settle : (Z -> Z) -> Z -> Z) : Prop := {
  mh_holds : hw_holds settle calm held;
  mh_reset m : calm (settle m);
}.

Ltac calm_tac := solve
  [ unfold calm in *; rewrite ?upd_other by discriminate; assumption
  | unfold calm, has_bits in *; repeat first [rewrite upd_same | rewrite upd_other by discriminate];
    split; repeat first [rewrite u32_land by done | rewrite set_other by done]; first [tauto | reflexivity] ].

Section setup.
Context (odroidc2 : bool) (settle : (Z -> Z) -> Z -> Z) (config : eth_config) (b : eth_boot) (HM : meson_hw settle).
Implicit Types (s : meson_state) (m : Z -> Z).
#[local] Abbreviation at_regs := (runs_at calm held).
Let HW : hw_holds settle calm held := mh_holds _ HM.

Lemma meson_eth_reset_spec m s p : at_regs m s p -> wp (eth_reset settle) p (fun _ p' => exists n, at_regs n s p' /\ calm n).
Proof using HM.
  intros Hp. unfold eth_reset, reg_set. do 2 wp_step. eapply (run_read_any _ _ _ HW); [exact Hp|]. intros v p1 Hp1.
  eapply (run_reset _ _ _ HW); [exact Hp1| |intros n _; split; [apply HM|apply HM]|].
  - unfold has_bits. by rewrite u32_land, set_same.
  - intros n p2 _ _ Hp2. exists (settle n). split; [done|apply HM].
Qed.

Lemma meson_eth_flush_spec m s p : at_regs m s p -> wp (eth_flush settle) p (fun _ p' => exists n, at_regs n s p' /\ calm n).
Proof using HM.
  intros Hp. unfold eth_flush. wp_step. eapply (run_reset _ _ _ HW); [exact Hp|done|intros n _; split; [apply HM|apply HM]|].
  intros n p2 _ _ Hp2. exists (settle n). split; [done|apply HM].
Qed.

(** What the registers hold after [eth_setup], and at the end of [init]. *)
Record meson_set_up (mac : Z * Z) (m : Z -> Z) : Prop := {
  ms_mac : (m macaddr0lo, m macaddr0hi) = mac;
  ms_busmode : m busmode = busmode_value odroidc2 config;
  ms_rings : (m rxdesclistaddr, m txdesclistaddr) = (eb_rx_io_addr b, eb_tx_io_addr b);
  ms_filter : Z.land (m framefilt) PMSCUOUS_MODE = PMSCUOUS_MODE;
  ms_flow : m flowcontrol = 0xffff000e;
}.
Record meson_programmed (mac : Z * Z) (m : Z -> Z) : Prop := {
  mp_set_up : meson_set_up mac m;
  mp_conf : m conf = Z.lor (Z.lor FULLDPLXMODE IP_CHK_OFFLD) (Z.lor RX_ENABLE TX_ENABLE);
  mp_opmode : m opmode = Z.lor (Z.lor (Z.lor (Z.lor RX_STOREFORWARD TX_STOREFORWARD) EN_FLOWCTL) TX_OPSCND) (Z.lor TXSTART RXSTART);
  mp_irq : Z.land (m intenable) DMA_INTR_MASK = DMA_INTR_MASK;
  mp_mask : Z.land (m intmask) GMAC_INTR_MASK = GMAC_INTR_MASK;
}.

Lemma meson_eth_program_spec m s p l h :
  at_regs m s p -> calm m -> is_u32 l -> is_u32 h -> is_u32 (eb_rx_io_addr b) -> is_u32 (eb_tx_io_addr b) ->
  wp (eth_program odroidc2 settle config b l h) p (fun _ p' => exists m', at_regs m' s p' /\ calm m' /\ meson_set_up (l, h) m' /\
    m' conf = Z.lor FULLDPLXMODE IP_CHK_OFFLD /\
    m' opmode = Z.lor (Z.lor (Z.lor RX_STOREFORWARD TX_STOREFORWARD) EN_FLOWCTL) TX_OPSCND).
Proof using HM.
  intros Hp Hc Hl Hh Hr Ht. unfold eth_program.
  assert (u32 (busmode_value odroidc2 config) = busmode_value odroidc2 config /\
    negb (Z.land (busmode_value odroidc2 config) DMAMAC_SWRST =? 0) = false) as [Eb Hb] by (unfold busmode_value; by destruct (_ || _)).
  remember (busmode_value odroidc2 config) as bm eqn:Ebm.
  repeat run_step HW calm_tac. eexists. split; [eassumption|]. split_and!; [calm_tac|split|by upd_tac|by upd_tac].
  - upd_tac. by rewrite !u32_small by assumption.
  - upd_tac. congruence.
  - upd_tac. by rewrite !u32_small by assumption.
  - upd_tac. by rewrite u32_land, set_same.
  - by upd_tac.
Qed.

Lemma meson_eth_enable_spec m s p mac :
  at_regs m s p -> calm m -> meson_set_up mac m -> m conf = Z.lor FULLDPLXMODE IP_CHK_OFFLD ->
  m opmode = Z.lor (Z.lor (Z.lor RX_STOREFORWARD TX_STOREFORWARD) EN_FLOWCTL) TX_OPSCND ->
  wp (eth_enable settle) p (fun _ p' => exists m', at_regs m' s p' /\ meson_programmed mac m').
Proof using HM.
  intros Hp Hc [M1 M2 M3 M4 M5] Ec Eo. unfold eth_enable. repeat run_step HW calm_tac.
  eexists. split; [eassumption|]. split; [split|..]; upd_tac; rewrite ?Ec, ?Eo; try assumption; try reflexivity.
  - by rewrite u32_land, set_same.
  - by rewrite u32_land, set_same.
Qed.

(** The driver with its rings attached. *)
Definition meson_attached (s : meson_state) : meson_state :=
  set_ring Tx (attach TX_COUNT (eb_tx_descr b) (es_tx s)) (set_ring Rx (attach RX_COUNT (eb_rx_descr b) (es_rx s)) s).

Lemma meson_eth_setup_spec m s r :
  at_regs m s (s, r) -> calm m -> is_u32 (m macaddr0lo) -> is_u32 (m macaddr0hi) -> is_u32 (eb_rx_io_addr b) -> is_u32 (eb_tx_io_addr b) ->
  wp (eth_setup odroidc2 settle config b) (s, r) (fun _ p => exists m', at_regs m' (meson_attached s) p /\ calm m' /\
    meson_set_up (m macaddr0lo, m macaddr0hi) m' /\ m' conf = Z.lor FULLDPLXMODE IP_CHK_OFFLD /\
    m' opmode = Z.lor (Z.lor (Z.lor RX_STOREFORWARD TX_STOREFORWARD) EN_FLOWCTL) TX_OPSCND).
Proof using HM.
  intros Hp Hc Hl Hh Hr Ht. unfold eth_setup. repeat run_step HW calm_tac. destruct p'0 as [s1 r1].
  match goal with Hq : runs_at _ _ m s (s1, r1) |- _ => destruct Hq as [Htr (ev & E)] end. cbn [fst snd] in *. subst s1.
  assert (forall x, is_u32 x -> (Z.land x 0xFFFFFFFF =? x) = true) as Ha.
  { intros x Hx. change 0xFFFFFFFF with (Z.ones 32). rewrite Z.land_ones by lia. by apply Z.eqb_eq, u32_small. }
  apply wp_assert; [by apply Ha|]. wp_step. apply wp_assert; [by apply Ha|].
  unfold on_ring. repeat wp_step.
  match goal with |- wp (eth_reset _) (?x, _) _ => assert (exists ev', x = set_events ev' (meson_attached s)) as (ev' & ->) by (exists ev; by destruct s) end.
  wp_use (meson_eth_reset_spec m (meson_attached s)); [by split; [|eexists]|]. intros [] p2 (n & Hp2 & Hcn).
  wp_step. wp_use (meson_eth_flush_spec n (meson_attached s)). intros [] p3 (n2 & Hp3 & Hcn2).
  wp_use (meson_eth_program_spec n2 (meson_attached s)).
Qed.
End setup.

(** ** Properties *)

(** What [init] asks for: the system description promises it. *)
Record meson_boot_ok (b : eth_boot) : Prop := {
  bo_magic : eb_magic b = true;
  bo_irqs : eb_num_irqs b = 1;
  bo_regions : eb_num_regions b = 3;
  bo_rx_size : 4096 <= eb_rx_size b;
  bo_tx_size : 4096 <= eb_tx_size b;
  bo_rx_io : is_u32 (eb_rx_io_addr b);
  bo_tx_io : is_u32 (eb_tx_io_addr b);
}.

(** The driver with its rings and queues attached. *)
Definition meson_booted (b : eth_boot) (s0 : meson_state) : meson_state :=
  mk_eth (attach RX_COUNT (eb_rx_descr b) (es_rx s0)) (attach TX_COUNT (eb_tx_descr b) (es_tx s0))
    (eb_rx_queue b) (eb_tx_queue b) (es_device s0) (es_irq s0) (es_events s0).

Lemma meson_programmed_now od config b mac m (s : meson_state) p :
  runs_at calm held m s p -> meson_programmed od config b mac m -> meson_programmed od config b mac (er_now p.2).
Proof. intros Hp [[] ? ? ? ?]. split; [split|..]; rewrite ?(runs_at_now _ _ m s p) by done; done. Qed.

(** [init], on every board and however long the device takes over the reset and
    the flush: it returns without a failed assertion with the rings filled from
    the queues, no buffer lost, the driver waiting to be notified, and then the
    device programmed and on: the rings at their addresses, the address of the
    station that it had before the reset, store and forward with flow control,
    the interrupts of both directions. *)
Theorem eth_meson_init_programs od settle config (b : eth_boot) (s0 : meson_state) (r0 : eth_regs) :
  meson_hw settle -> calm (er_now r0) -> is_u32 (er_now r0 macaddr0lo) -> is_u32 (er_now r0 macaddr0hi) ->
  meson_boot_ok b -> eth_wf (meson_booted b s0) ->
  wp (init od settle config b) (s0, r0) (fun _ p =>
    meson_programmed od config b (er_now r0 macaddr0lo, er_now r0 macaddr0hi) (er_now p.2) /\
    keeps (meson_booted b s0) p.1 /\ rx_ready p.1 /\ tx_ready p.1 /\ can_provide Tx p.1 = false).
Proof.
  intros HM Hc Hl Hh [Hmag Hirq Hreg Hrx Htx Hri Hti] Hwf. unfold init.
  do 5 (wp_step; apply wp_assert; [rewrite ?Hmag, ?Hirq, ?Hreg, ?Z.leb_le; unfold RX_COUNT, TX_COUNT; done || lia|]).
  do 2 wp_step. apply wp_emit. set (s1 := set_events _ s0). wp_step.
  wp_use (meson_eth_setup_spec od settle config b HM (er_now r0) s1 r0); [by apply runs_at_start|].
  intros [] [s2 r2] (m2 & Hp2 & Hc2 & Hs2 & Ec & Eo). destruct Hp2 as [Ht2 (ev & E)]. cbn [fst snd] in *. subst s2.
  unfold on_queue at 1 2. repeat (wp_step; cbn [fst snd]).
  match goal with |- wp rx_provide ?x _ => assert (x = set_events ev (meson_booted b s0)) as ->
    by by destruct b as [? ? ? ? ? ? ? ? ? [] []] end.
  assert (eth_wf (set_events ev (meson_booted b s0))) as Hwf5 by by apply (keeps_events ev _ _ (keeps_refl _ Hwf)).
  wp_use (meson_rx_provide_keeps _ Hwf5). intros [] s6 (K6 & _ & R6 & _).
  do 2 wp_step. wp_use (meson_tx_provide_keeps config s6 (proj1 K6)). intros [] s7 (K7 & _ & T7 & P7). cbn [fst snd].
  wp_use (meson_eth_enable_spec od settle config b HM m2 s7 (s7, r2)); [by apply runs_at_start|].
  intros [] p (m8 & Hp8 & Hprog). pose proof (meson_programmed_now _ _ _ _ _ _ _ Hp8 Hprog) as Hnow.
  destruct Hp8 as [_ (ev8 & E8)]. rewrite E8. split; [exact Hnow|].
  split_and!; [|by apply K7|done|by destruct s7].
  apply keeps_events. eapply keeps_trans; [|exact K7]. eapply keeps_trans; [|exact K6]. by apply keeps_events, keeps_refl.
Qed.

(** A device whose reset clears all registers. *)
Definition meson_settle_ex (m : Z -> Z) : Z -> Z :=
  if has_bits (m busmode) DMAMAC_SWRST || has_bits (m opmode) FLUSHTXFIFO then fun _ => 0 else m.

Lemma meson_hw_ex : meson_hw meson_settle_ex.
Proof.
  split; [split|..].
  - intros m off [Hc1 Hc2]. unfold meson_settle_ex. by rewrite Hc1, Hc2.
  - intros m m' Hc Hm. unfold calm. pose proof (Hm busmode) as Hb. pose proof (Hm opmode) as Ho.
    change (held busmode) with (-1) in Hb. change (held opmode) with (-1) in Ho. rewrite !Z.land_m1_r in Hb, Ho. by rewrite Hb, Ho.
  - intros m. unfold calm, meson_settle_ex.
    destruct (has_bits (m busmode) DMAMAC_SWRST) eqn:E1, (has_bits (m opmode) FLUSHTXFIFO) eqn:E2; cbn [orb]; done.
Qed.
