(* ===== verification/VirtQueue.v ===== *)
(** * Split virtqueues: include/sddf/virtio/virtio_queue.h and virtio.h

    The descriptor table, and the two rings over it: of the descriptors the
    driver makes available, and of those the device has used.  Both rings have
    16-bit indices that run freely, the entry of index [i] being at [i % num].
    The lemmas say what a ring holds between two such indices. *)

From S2P Require Import Prelude.

Definition VIRTQ_DESC_F_NEXT : Z := 1.
Definition VIRTQ_DESC_F_WRITE : Z := 2.

Definition VIRTIO_VERSION : Z := 0x2.
Definition VIRTIO_MMIO_IRQ_VQUEUE : Z := Z.shiftl 1 0.
Definition VIRTIO_MMIO_IRQ_CONFIG : Z := Z.shiftl 1 1.
Definition VIRTIO_MMIO_MAGIC_VALUE : Z := 0x74726976.
Definition VIRTIO_DEVICE_STATUS_ACKNOWLEDGE : Z := 0x1.
Definition VIRTIO_DEVICE_STATUS_DRIVER : Z := 0x2.
Definition VIRTIO_DEVICE_STATUS_FEATURES_OK : Z := 0x8.
Definition VIRTIO_DEVICE_STATUS_DRIVER_OK : Z := 0x4.
Definition VIRTIO_DEVICE_ID_NET : Z := 0x1.
Definition VIRTIO_DEVICE_ID_BLK : Z := 0x2.

Record virtq_desc : Type := mk_virtq_desc {
  vd_addr : Z;  (* uint64_t *)
  vd_len : Z;   (* uint32_t *)
  vd_flags : Z; (* uint16_t *)
  vd_next : Z;  (* uint16_t *)
}.

(** The [flags] of the two rings are neither read nor written. *)
Record virtq_avail : Type := mk_virtq_avail {
  va_idx : Z;         (* uint16_t *)
  va_ring : list Z;   (* uint16_t [] *)
}.

Record virtq_used_elem : Type := mk_virtq_used_elem {
  vu_id : Z;  (* uint32_t *)
  vu_len : Z; (* uint32_t *)
}.

Record virtq_used : Type := mk_virtq_used {
  vu_idx : Z; (* uint16_t *)
  vu_ring : list virtq_used_elem;
}.

(** The memory the three pointers of the struct lead to. *)
Record virtq : Type := mk_virtq {
  vq_num : Z; (* unsigned int *)
  vq_desc : list virtq_desc;
  vq_avail : virtq_avail;
  vq_used : virtq_used;
}.

Definition set_vq_desc x q := mk_virtq (vq_num q) x (vq_avail q) (vq_used q).
Definition set_vq_avail x q := mk_virtq (vq_num q) (vq_desc q) x (vq_used q).
Definition set_vq_used x q := mk_virtq (vq_num q) (vq_desc q) (vq_avail q) x.

(** The memory a driver gives to a virtqueue: what is at an offset of it, seen as the table and the
    rings. *)
Record virtq_memory : Type := mk_virtq_memory {
  mem_desc : Z -> list virtq_desc;
  mem_avail : Z -> virtq_avail;
  mem_used : Z -> virtq_used;
}.

#[export] Instance virtq_desc_eq_dec : EqDecision virtq_desc.
Proof. solve_decision. Defined.
#[export] Instance virtq_used_elem_eq_dec : EqDecision virtq_used_elem.
Proof. solve_decision. Defined.

(** The locations of the registers of [virtio_mmio_regs_t] that are written. *)
Definition DriverFeatures : Z := 0x20.
Definition DriverFeaturesSel : Z := 0x24.
Definition QueueSel : Z := 0x30.
Definition QueueNum : Z := 0x38.
Definition QueueReady : Z := 0x44.
Definition QueueNotify : Z := 0x50.
Definition InterruptACK : Z := 0x64.
Definition Status : Z := 0x70.
Definition QueueDescLow : Z := 0x80.
Definition QueueDescHigh : Z := 0x84.
Definition QueueDriverLow : Z := 0x90.
Definition QueueDriverHigh : Z := 0x94.
Definition QueueDeviceLow : Z := 0xa0.
Definition QueueDeviceHigh : Z := 0xa4.

(** What the read-only registers say, and whether the device accepts the
    features the driver asks for. *)
Record virtio_mmio : Type := mk_virtio_mmio {
  vm_magic : Z;
  vm_version : Z;
  vm_device_id : Z;
  vm_queue_num_max : Z;
  vm_features_ok : bool;
}.

Definition virtio_mmio_check_magic (regs : virtio_mmio) : bool := vm_magic regs =? 0x74726976.
Definition virtio_mmio_check_device_id (regs : virtio_mmio) (id : Z) : bool := vm_device_id regs =? id.
Definition virtio_mmio_version (regs : virtio_mmio) : Z := vm_version regs.

(** A test [flags & bit]. *)
Definition has (flags bit : Z) : bool := negb (Z.land flags bit =? 0).

(** [#define ALIGN(x, align)]. *)
Definition ALIGN (x align : Z) : Z := Z.land (x + align - 1) (Z.lnot (align - 1)).

Lemma has_bit0 x : has x VIRTIO_MMIO_IRQ_VQUEUE = Z.testbit x 0.
Proof.
  unfold has, VIRTIO_MMIO_IRQ_VQUEUE. change (Z.shiftl 1 0) with (Z.ones 1). rewrite Z.land_ones by done.
  rewrite Z.bit0_odd, <- Z.negb_even. f_equal. rewrite Zeven_mod. done.
Qed.

(** ** Free-running indices *)

Section ring.
Context {A : Type}.
Variables (num : Z).
Hypothesis num_pos : 0 < num <= 2 ^ 16.
Hypothesis num_div : (num | 2 ^ 16).
Implicit Types (ring : list A) (xs : list A).

(** From the index [start] on the ring holds [xs]. *)
Definition ring_holds ring (start : Z) xs : Prop :=
  forall (k : nat) x, xs !! k = Some x -> ring !! Z.to_nat ((start + Z.of_nat k) mod num) = Some x.

Lemma u16_mod_num x : u16 x mod num = x mod num.
Proof using num_pos num_div. unfold u16. by apply Z.mod_mod_divide. Qed.

Lemma slot_range x : 0 <= x mod num < num.
Proof using num_pos. apply Z.mod_pos_bound. lia. Qed.

Lemma ring_holds_nil ring start : ring_holds ring start [].
Proof. by intros k x. Qed.

Lemma ring_holds_first ring start x xs : ring_holds ring start (x :: xs) -> ring !! Z.to_nat (start mod num) = Some x.
Proof. intros H. specialize (H 0%nat x eq_refl). by rewrite Z.add_0_r in H. Qed.

Lemma ring_holds_pop ring start x xs : ring_holds ring start (x :: xs) -> ring_holds ring (u16 (start + 1)) xs.
Proof using num_pos num_div.
  intros H k y Hy. rewrite Z.add_mod, u16_mod_num, <- Z.add_mod by lia. specialize (H (S k) y Hy).
  by replace (start + 1 + Z.of_nat k) with (start + Z.of_nat (S k)) by lia.
Qed.

(** The slots of two entries less than [num] apart differ. *)
Lemma slot_ne start (i j : nat) :
  (i < j)%nat -> Z.of_nat j < num + Z.of_nat i ->
  Z.to_nat ((start + Z.of_nat i) mod num) <> Z.to_nat ((start + Z.of_nat j) mod num).
Proof using num_pos.
  intros Hij Hj E. pose proof (slot_range (start + Z.of_nat i)). pose proof (slot_range (start + Z.of_nat j)).
  assert ((start + Z.of_nat i) mod num = (start + Z.of_nat j) mod num) as E' by lia.
  assert ((Z.of_nat j - Z.of_nat i) mod num = 0) as E0.
  { replace (Z.of_nat j - Z.of_nat i) with (start + Z.of_nat j - (start + Z.of_nat i)) by lia.
    rewrite Zminus_mod, E', Z.sub_diag. apply Z.mod_0_l. lia. }
  rewrite Z.mod_small in E0 by lia. lia.
Qed.

Lemma ring_holds_push ring start xs y :
  ring_holds ring start xs -> Z.of_nat (length xs) < num -> Z.of_nat (length ring) = num ->
  ring_holds (<[Z.to_nat ((start + Z.of_nat (length xs)) mod num) := y]> ring) start (xs ++ [y]).
Proof using num_pos.
  intros H Hlen Hr k x Hx. pose proof (slot_range (start + Z.of_nat (length xs))).
  destruct (decide (k = length xs)) as [->|Hne].
  - rewrite list_lookup_middle in Hx by done. simplify_eq. apply list_lookup_insert_eq. lia.
  - assert (k < length xs)%nat as Hk by (apply lookup_lt_Some in Hx; rewrite length_app in Hx; cbn in Hx; lia).
    rewrite lookup_app_l in Hx by done. rewrite list_lookup_insert_ne by (apply not_eq_sym, slot_ne; [done|lia]). by apply H.
Qed.

(** A free-running index passes [n] entries. *)
Lemma u16_add_u16 x n : u16 (u16 x + n) = u16 (x + n).
Proof. unfold u16. by rewrite Zplus_mod_idemp_l. Qed.
End ring.
