(* ===== verification/VirtioBlk.v ===== *)
(** * The virtio block driver: drivers/blk/virtio/block.c

    The driver turns each READ or WRITE of its queue into a chain of three
    descriptors, makes it available to the device and, when the device has used
    it, sends the response.  The device and the virtualiser run beside it: what
    they do is a script of acts, one list for each look of the driver at what
    it shares with them. *)

From S2P Require Import Prelude RingQueue Microkit Ialloc BlkQueue VirtQueue.

Definition QUEUE_SIZE : Z := 1024.
Definition VIRTQ_NUM_REQUESTS : Z := QUEUE_SIZE.
Definition VIRTIO_BLK_REQ_HDR_SIZE : Z := 16.
Definition VIRTIO_BLK_DRIVER_VERSION : Z := 2.
Definition VIRTIO_BLK_SECTOR_SIZE : Z := 512.
Definition VIRTIO_BLK_T_IN : Z := 0.
Definition VIRTIO_BLK_T_OUT : Z := 1.
Definition VIRTIO_BLK_S_OK : Z := 0.

(** [reserved] is never accessed. *)
Record virtio_blk_req : Type := mk_virtio_blk_req {
  hr_type : Z;   (* uint32_t *)
  hr_sector : Z; (* uint64_t *)
  hr_status : Z; (* uint8_t *)
}.

(** Its size in memory: 4 + 4 + 8 + 1 bytes, aligned to 8. *)
Definition sizeof_virtio_blk_req : Z := 24.

(** The fields of the device configuration that the driver reads. *)
Record virtio_blk_config : Type := mk_virtio_blk_config {
  vc_capacity : Z;  (* uint64_t *)
  vc_cylinders : Z; (* uint16_t *)
  vc_heads : Z;     (* uint8_t *)
  vc_sectors : Z;   (* uint8_t *)
}.

(** [device_resources] and [config], the registers, the configuration space
    and the memory they lead to.  [vs_ok] is the conjunction of the four
    conditions on the two sections that [init] asserts first. *)
Record vblk_setup : Type := mk_vblk_setup {
  vs_ok : bool;
  vs_irq : Z;
  vs_virt : Z;
  vs_headers_paddr : Z;
  vs_headers_vaddr : Z;
  vs_requests_paddr : Z;
  vs_requests_vaddr : Z;
  vs_metadata_size : Z;
  vs_regs : virtio_mmio;
  vs_config : virtio_blk_config;
  vs_memory : virtq_memory;
  vs_req_queue : blk_req_queue;
  vs_resp_queue : ring blk_resp;
  vs_num_buffers : Z;
}.

(** [blk_storage_info_t] without the serial number and the depth. *)
Record blk_storage : Type := mk_blk_storage {
  bs_info : blk_storage_info;
  bs_cylinders : Z;
  bs_heads : Z;
  bs_blocks : Z;
  bs_block_size : Z;
}.

(** ** The device and the virtualiser *)

(** What the device is asked to do: read into memory ([jb_in]) or write from
    it, [jb_len] bytes at [jb_addr], from the sector on. *)
Record job : Type := mk_job {
  jb_in : bool;
  jb_sector : Z;
  jb_addr : Z;
  jb_len : Z;
}.
#[export] Instance job_eq_dec : EqDecision job.
Proof. solve_decision. Defined.

(** A chain as the device has fetched it: the descriptor at its head, the job,
    the header whose status it will write, and the number of chains fetched
    before it. *)
Record chain : Type := mk_chain {
  ch_head : Z;
  ch_job : job;
  ch_status : Z;
  ch_number : nat;
}.

(** [bd_seen] counts the available descriptors fetched, modulo [2^16].
    [bd_fetched] and [bd_done] log what was fetched, and the number and the
    status of what was completed.  [bd_kicked]: the device has been told to
    look, and has not found the ring empty since.  [bd_broken]: it found a
    chain that is not a block request. *)
Record blk_device : Type := mk_blk_device {
  bd_seen : Z;
  bd_flight : list chain;
  bd_fetched : list job;
  bd_done : list (nat * Z);
  bd_kicked : bool;
  bd_broken : bool;
  bd_interrupt : Z; (* InterruptStatus *)
}.

(** The requests sent and the responses taken so far, and whether the driver
    has been notified, or is about to be, and has not been delivered. *)
Record blk_peer : Type := mk_blk_peer {
  pe_sent : list blk_req;
  pe_taken : list blk_resp;
  pe_pending : bool;
}.

Inductive blk_act : Type :=
| DFetch
| DComplete (k : nat) (status len : Z)
| DConfig
| CPut (r : blk_req)
| CTake.

(** The globals of the driver, the device, the virtualiser, and the script. *)
Record vblk : Type := mk_vblk {
  vb_virtq : virtq;
  vb_queue : blk_queue_handle;
  vb_headers : list virtio_blk_req;
  vb_header_to_id : list Z;
  vb_ialloc : ialloc;
  vb_last_seen_used : Z; (* uint16_t *)
  vb_storage : blk_storage;
  vb_device : blk_device;
  vb_peer : blk_peer;
  vb_script : list (list blk_act);
  vb_events : list event;
}.

Definition set_vb_virtq x u := mk_vblk x (vb_queue u) (vb_headers u) (vb_header_to_id u) (vb_ialloc u) (vb_last_seen_used u) (vb_storage u) (vb_device u) (vb_peer u) (vb_script u) (vb_events u).
Definition set_vb_queue x u := mk_vblk (vb_virtq u) x (vb_headers u) (vb_header_to_id u) (vb_ialloc u) (vb_last_seen_used u) (vb_storage u) (vb_device u) (vb_peer u) (vb_script u) (vb_events u).
Definition set_vb_headers x u := mk_vblk (vb_virtq u) (vb_queue u) x (vb_header_to_id u) (vb_ialloc u) (vb_last_seen_used u) (vb_storage u) (vb_device u) (vb_peer u) (vb_script u) (vb_events u).
Definition set_vb_header_to_id x u := mk_vblk (vb_virtq u) (vb_queue u) (vb_headers u) x (vb_ialloc u) (vb_last_seen_used u) (vb_storage u) (vb_device u) (vb_peer u) (vb_script u) (vb_events u).
Definition set_vb_ialloc x u := mk_vblk (vb_virtq u) (vb_queue u) (vb_headers u) (vb_header_to_id u) x (vb_last_seen_used u) (vb_storage u) (vb_device u) (vb_peer u) (vb_script u) (vb_events u).
Definition set_vb_last_seen_used x u := mk_vblk (vb_virtq u) (vb_queue u) (vb_headers u) (vb_header_to_id u) (vb_ialloc u) x (vb_storage u) (vb_device u) (vb_peer u) (vb_script u) (vb_events u).
Definition set_vb_storage x u := mk_vblk (vb_virtq u) (vb_queue u) (vb_headers u) (vb_header_to_id u) (vb_ialloc u) (vb_last_seen_used u) x (vb_device u) (vb_peer u) (vb_script u) (vb_events u).
Definition set_vb_device x u := mk_vblk (vb_virtq u) (vb_queue u) (vb_headers u) (vb_header_to_id u) (vb_ialloc u) (vb_last_seen_used u) (vb_storage u) x (vb_peer u) (vb_script u) (vb_events u).
Definition set_vb_peer x u := mk_vblk (vb_virtq u) (vb_queue u) (vb_headers u) (vb_header_to_id u) (vb_ialloc u) (vb_last_seen_used u) (vb_storage u) (vb_device u) x (vb_script u) (vb_events u).
Definition set_vb_script x u := mk_vblk (vb_virtq u) (vb_queue u) (vb_headers u) (vb_header_to_id u) (vb_ialloc u) (vb_last_seen_used u) (vb_storage u) (vb_device u) (vb_peer u) x (vb_events u).
Definition set_vb_events x u := mk_vblk (vb_virtq u) (vb_queue u) (vb_headers u) (vb_header_to_id u) (vb_ialloc u) (vb_last_seen_used u) (vb_storage u) (vb_device u) (vb_peer u) (vb_script u) x.

Definition set_bd_kicked x d := mk_blk_device (bd_seen d) (bd_flight d) (bd_fetched d) (bd_done d) x (bd_broken d) (bd_interrupt d).
Definition set_bd_broken x d := mk_blk_device (bd_seen d) (bd_flight d) (bd_fetched d) (bd_done d) (bd_kicked d) x (bd_interrupt d).
Definition set_bd_interrupt x d := mk_blk_device (bd_seen d) (bd_flight d) (bd_fetched d) (bd_done d) (bd_kicked d) (bd_broken d) x.

Section driver.
Context (cfg : vblk_setup).
Implicit Types u : vblk.

(** *** Acts *)

(** The header at an address of the device. *)
Definition header_at (addr : Z) : option Z :=
  let off := addr - vs_headers_paddr cfg in
  if (0 <=? off) && (off mod sizeof_virtio_blk_req =? 0) then Some (off / sizeof_virtio_blk_req) else None.

Definition desc_at u (i : Z) : option virtq_desc := vq_desc (vb_virtq u) !! Z.to_nat i.

(** The chain that starts at descriptor [head], as the specification of the
    device describes a block request, with the data in one descriptor: a
    header of 16 bytes, the data, which the device writes if it is to read, and
    one byte for the status. *)
Definition read_chain u (head : Z) : option chain :=
  d0 ← desc_at u head;
  d1 ← desc_at u (vd_next d0);
  d2 ← desc_at u (vd_next d1);
  h ← header_at (vd_addr d0);
  st ← header_at (vd_addr d2 - VIRTIO_BLK_REQ_HDR_SIZE);
  hdr ← vb_headers u !! Z.to_nat h;
  let rd := hr_type hdr =? VIRTIO_BLK_T_IN in
  if (vd_flags d0 =? VIRTQ_DESC_F_NEXT) && (vd_len d0 =? VIRTIO_BLK_REQ_HDR_SIZE)
     && (rd || (hr_type hdr =? VIRTIO_BLK_T_OUT))
     && (vd_flags d1 =? if rd then Z.lor VIRTQ_DESC_F_NEXT VIRTQ_DESC_F_WRITE else VIRTQ_DESC_F_NEXT)
     && (vd_flags d2 =? VIRTQ_DESC_F_WRITE) && (vd_len d2 =? 1)
  then Some (mk_chain head (mk_job rd (hr_sector hdr) (vd_addr d1) (vd_len d1)) st
               (length (bd_fetched (vb_device u))))
  else None.

(** A look at the available ring, a new chain if there is one. *)
Definition device_fetch u : vblk :=
  let d := vb_device u in
  let a := vq_avail (vb_virtq u) in
  if bd_seen d =? va_idx a then set_vb_device (set_bd_kicked false d) u else
  match head ← va_ring a !! Z.to_nat (bd_seen d mod QUEUE_SIZE); read_chain u head with
  | Some c =>
    set_vb_device (mk_blk_device (u16 (bd_seen d + 1)) (bd_flight d ++ [c]) (bd_fetched d ++ [ch_job c])
                     (bd_done d) (bd_kicked d) (bd_broken d) (bd_interrupt d)) u
  | None => set_vb_device (set_bd_broken true d) u
  end.

(** The device completes the [k]-th of the chains it has, in any order: it
    writes the status, then the used ring, and raises its interrupt. *)
Definition device_complete (k : nat) (status len : Z) u : vblk :=
  let d := vb_device u in
  let vu := vq_used (vb_virtq u) in
  match bd_flight d !! k with
  | Some c =>
    set_vb_headers (alter (fun h => mk_virtio_blk_req (hr_type h) (hr_sector h) (u8 status)) (Z.to_nat (ch_status c)) (vb_headers u))
      (set_vb_virtq (set_vq_used (mk_virtq_used (u16 (vu_idx vu + 1))
          (<[Z.to_nat (vu_idx vu mod QUEUE_SIZE) := mk_virtq_used_elem (ch_head c) len]> (vu_ring vu))) (vb_virtq u))
        (set_vb_device (mk_blk_device (bd_seen d) (delete k (bd_flight d)) (bd_fetched d)
            (bd_done d ++ [(ch_number c, u8 status)]) (bd_kicked d) (bd_broken d)
            (Z.lor (bd_interrupt d) VIRTIO_MMIO_IRQ_VQUEUE)) u))
  | None => u
  end.

(** What a request of the virtualiser may be: one that it has checked. *)
Definition is_rw (r : blk_req) : bool := bool_decide (br_code r = BLK_REQ_READ \/ br_code r = BLK_REQ_WRITE).
Definition in_bits (w x : Z) : bool := (0 <=? x) && (x <? 2 ^ w).
Definition req_ok (r : blk_req) : bool :=
  in_bits 64 (br_io_or_offset r) && in_bits 16 (br_count r) && in_bits 32 (br_id r) &&
  match br_code r with
  | BLK_REQ_READ | BLK_REQ_WRITE =>
    (0 <=? br_block_number r) && ((br_block_number r + br_count r) * 8 <=? vc_capacity (vs_config cfg))
  | BLK_REQ_FLUSH | BLK_REQ_BARRIER => true
  | BLK_REQ_OTHER _ => false
  end.

(** It never has more requests outstanding than the queue has room for. *)
Definition peer_may_put (r : blk_req) u : bool :=
  req_ok r && (Z.of_nat (length (pe_sent (vb_peer u))) <? bh_capacity (vb_queue u) + Z.of_nat (length (pe_taken (vb_peer u)))).

Definition act_step (a : blk_act) u : vblk :=
  let d := vb_device u in
  let p := vb_peer u in
  match a with
  | DFetch => device_fetch u
  | DComplete k status len => device_complete k status len u
  | DConfig => set_vb_device (set_bd_interrupt (Z.lor (bd_interrupt d) VIRTIO_MMIO_IRQ_CONFIG) d) u
  | CPut r =>
    if peer_may_put r u then
      match blk_enqueue_req (br_code r) (br_io_or_offset r) (br_block_number r) (br_count r) (br_id r) (vb_queue u) with
      | Ok (0, q) => set_vb_peer (mk_blk_peer (pe_sent p ++ [r]) (pe_taken p) true) (set_vb_queue q u)
      | _ => u
      end
    else u
  | CTake =>
    match blk_dequeue_resp (vb_queue u) with
    | Ok (Some r, q) => set_vb_peer (mk_blk_peer (pe_sent p) (pe_taken p ++ [r]) (pe_pending p)) (set_vb_queue q u)
    | _ => u
    end
  end.

(** The driver looks: what comes first in the script has happened. *)
Definition look u : vblk :=
  match vb_script u with
  | [] => u
  | acts :: rest => foldl (fun u a => act_step a u) (set_vb_script rest u) acts
  end.

Definition puts (acts : list blk_act) : nat :=
  length (omap (fun a => match a with CPut r => Some r | _ => None end) acts).

(** *** Operations *)

Definition on_queue {A} (m : M blk_queue_handle A) : M vblk A := zoom vb_queue set_vb_queue m.
Definition on_ialloc {A} (m : M ialloc A) : M vblk A := zoom vb_ialloc set_vb_ialloc m.
Definition emit (e : event) : M vblk unit := modify (fun u => set_vb_events (vb_events u ++ [e]) u).
Definition on_device (f : blk_device -> blk_device) : M vblk unit := modify (fun u => set_vb_device (f (vb_device u)) u).

Definition load_desc (i : Z) : M vblk virtq_desc := u ← get; lift (load (vq_desc (vb_virtq u)) i).
Definition store_desc (i : Z) (d : virtq_desc) : M vblk unit :=
  u ← get;
  l ← lift (store (vq_desc (vb_virtq u)) i d);
  modify (fun u => set_vb_virtq (set_vq_desc l (vb_virtq u)) u).

(** [ialloc_free] of one descriptor, and the assertion after it. *)
Definition free_desc (i : Z) : M vblk unit :=
  err ← on_ialloc (ialloc_free i);
  assert_ (err =? 0).

(** The loop of [handle_response] for the used entry of index [i]. *)
Definition respond (i : Z) : M vblk unit :=
  modify look;;
  u ← get;
  let q := vb_virtq u in
  virtq_idx ← lift (umod i (vq_num q));
  hdr_used ← lift (load (vu_ring (vq_used q)) virtq_idx);
  hdr_desc ← load_desc (vu_id hdr_used);
  assert_ (has (vd_flags hdr_desc) VIRTQ_DESC_F_NEXT);;
  assert_ (vd_len hdr_desc =? VIRTIO_BLK_REQ_HDR_SIZE);;
  hdr ← lift (load (vb_headers u) virtq_idx);
  let data_desc_idx := vd_next hdr_desc in
  data_slot ← lift (umod data_desc_idx (vq_num q));
  data_desc ← load_desc data_slot;
  let data_len := vd_len data_desc in
  data_desc' ← load_desc data_desc_idx;
  let footer_desc_idx := vd_next data_desc' in
  let status := if hr_status hdr =? VIRTIO_BLK_S_OK then BLK_RESP_OK else BLK_RESP_ERR_UNSPEC in
  id ← lift (load (vb_header_to_id u) (vu_id hdr_used));
  err ← on_queue (blk_enqueue_resp status (u16 (data_len / BLK_TRANSFER_SIZE)) id);
  assert_ (err =? 0);;
  free_desc (vu_id hdr_used);;
  free_desc data_desc_idx;;
  free_desc footer_desc_idx.

(** The local variables are [i] and [notify]. *)
Definition handle_response_body : M (vblk * (Z * bool)) unit :=
  p ← get;
  let i := (p : vblk * (Z * bool)).2.1 in
  on_state (respond i);;
  set_local (u16 (i + 1), true).

Definition handle_response : M vblk unit :=
  u ← get;
  let i := vb_last_seen_used u in
  modify look;;
  u ← get;
  let curr_idx := vu_idx (vq_used (vb_virtq u)) in
  r ← with_local (i, false)
    (loop (fun p => Z.to_nat (u16 (curr_idx - p.2.1))) (fun p => negb (p.2.1 =? curr_idx)) handle_response_body);
  let '(i', notify) := (r : unit * (Z * bool)).2 in
  when notify (emit (Notify (vs_virt cfg)));;
  modify (set_vb_last_seen_used i').

(** One of the three calls of [ialloc_alloc], with its assertion. *)
Definition alloc_desc : M vblk Z :=
  idx ← on_ialloc ialloc_alloc;
  match idx with
  | Some i => assert_ (negb (i =? IDX_NONE));; mret i
  | None => raise AssertFail
  end.

(** The header and the three descriptors of a READ or WRITE. *)
Definition write_chain (req : blk_req) (hdr_desc_idx data_desc_idx footer_desc_idx : Z) : M vblk unit :=
  let virtio_block_number := u64 (br_block_number req * (BLK_TRANSFER_SIZE / VIRTIO_BLK_SECTOR_SIZE)) in
  let virtio_count := u64 (br_count req * (BLK_TRANSFER_SIZE / VIRTIO_BLK_SECTOR_SIZE)) in
  let rd := bool_decide (br_code req = BLK_REQ_READ) in
  let data_flags := if rd then Z.lor VIRTQ_DESC_F_NEXT VIRTQ_DESC_F_WRITE else VIRTQ_DESC_F_NEXT in
  let type := if rd then VIRTIO_BLK_T_IN else VIRTIO_BLK_T_OUT in
  u ← get;
  hdr ← lift (load (vb_headers u) hdr_desc_idx);
  hdrs ← lift (store (vb_headers u) hdr_desc_idx (mk_virtio_blk_req type virtio_block_number (hr_status hdr)));
  modify (set_vb_headers hdrs);;
  store_desc hdr_desc_idx
    (mk_virtq_desc (u64 (vs_headers_paddr cfg + hdr_desc_idx * sizeof_virtio_blk_req)) VIRTIO_BLK_REQ_HDR_SIZE
       VIRTQ_DESC_F_NEXT (u16 data_desc_idx));;
  store_desc data_desc_idx
    (mk_virtq_desc (br_io_or_offset req) (u32 (VIRTIO_BLK_SECTOR_SIZE * virtio_count)) data_flags (u16 footer_desc_idx));;
  hdr_desc ← load_desc hdr_desc_idx;
  store_desc footer_desc_idx
    (mk_virtq_desc (u64 (vd_addr hdr_desc + VIRTIO_BLK_REQ_HDR_SIZE)) 1 VIRTQ_DESC_F_WRITE 0).

(** The entry in the available ring, and then its index, which the device looks
    at. *)
Definition make_available (hdr_desc_idx id : Z) : M vblk unit :=
  u ← get;
  let a := vq_avail (vb_virtq u) in
  slot ← lift (umod (va_idx a) (vq_num (vb_virtq u)));
  ring ← lift (store (va_ring a) slot (u16 hdr_desc_idx));
  modify (fun u => set_vb_virtq (set_vq_avail (mk_virtq_avail (va_idx a) ring) (vb_virtq u)) u);;
  modify look;;
  modify (fun u => let a := vq_avail (vb_virtq u) in
    set_vb_virtq (set_vq_avail (mk_virtq_avail (u16 (va_idx a + 1)) (va_ring a)) (vb_virtq u)) u);;
  u ← get;
  ids ← lift (store (vb_header_to_id u) hdr_desc_idx id);
  modify (set_vb_header_to_id ids).

(** The case of [BLK_REQ_READ] and [BLK_REQ_WRITE]. *)
Definition submit (req : blk_req) : M vblk unit :=
  let virtio_block_number := u64 (br_block_number req * (BLK_TRANSFER_SIZE / VIRTIO_BLK_SECTOR_SIZE)) in
  let virtio_count := u64 (br_count req * (BLK_TRANSFER_SIZE / VIRTIO_BLK_SECTOR_SIZE)) in
  assert_ (u64 (virtio_block_number + virtio_count) <=? vc_capacity (vs_config cfg));;
  hdr_desc_idx ← alloc_desc;
  data_desc_idx ← alloc_desc;
  footer_desc_idx ← alloc_desc;
  write_chain req hdr_desc_idx data_desc_idx footer_desc_idx;;
  make_available hdr_desc_idx (br_id req).

(** [BLK_REQ_FLUSH] and [BLK_REQ_BARRIER]. *)
Definition answer_at_once (req : blk_req) : M vblk unit :=
  err ← on_queue (blk_enqueue_resp BLK_RESP_OK 0 (br_id req));
  assert_ (err =? 0);;
  emit (Notify (vs_virt cfg)).

(** The local variable is [virtio_queue_notify]. *)
Definition handle_request_body : M (vblk * bool) unit :=
  p ← get;
  let virtio_queue_notify := (p : vblk * bool).2 in
  req ← on_state (on_queue blk_dequeue_req);
  match req with
  | None => raise AssertFail
  | Some req =>
    assert_ (VIRTIO_BLK_SECTOR_SIZE <=? BLK_TRANSFER_SIZE);;
    match br_code req with
    | BLK_REQ_READ | BLK_REQ_WRITE => on_state (submit req);; on_state (modify look);; set_local true
    | BLK_REQ_FLUSH | BLK_REQ_BARRIER => on_state (answer_at_once req);; on_state (modify look)
    | BLK_REQ_OTHER _ => on_state (modify look)
    end
  end.

Definition request_more u : bool :=
  negb (blk_queue_empty_req (vb_queue u)) && (3 <=? ialloc_num_free (vb_ialloc u)).
Definition request_work u : nat :=
  Z.to_nat (blk_queue_length_req (vb_queue u)) + puts (concat (vb_script u)).

Definition handle_request : M vblk unit :=
  modify look;;
  r ← with_local false (loop (fun p => request_work p.1) (fun p => request_more p.1) handle_request_body);
  when (r : unit * bool).2 (emit (RegWrite QueueNotify 0);; on_device (set_bd_kicked true)).

(** [regs->InterruptACK = VIRTIO_MMIO_IRQ_VQUEUE]. *)
Definition ack_vqueue : M vblk unit :=
  emit (RegWrite InterruptACK VIRTIO_MMIO_IRQ_VQUEUE);;
  on_device (fun d => set_bd_interrupt (Z.clearbit (bd_interrupt d) 0) d).

Definition handle_irq : M vblk unit :=
  modify look;;
  u ← get;
  let irq_status := bd_interrupt (vb_device u) in
  when (has irq_status VIRTIO_MMIO_IRQ_VQUEUE)
    (modify look;;
     ack_vqueue;;
     handle_response).

Definition notified (ch : Z) : M vblk unit :=
  if ch =? vs_irq cfg then handle_irq;; emit (DeferredIrqAck ch);; handle_request else
  if ch =? vs_virt cfg then handle_request else
  mret tt.

(** *** Initialisation *)

(** What the status register reads after [v] was written to it. *)
Definition status_read (v : Z) : Z := if vm_features_ok (vs_regs cfg) then v else Z.clearbit v 3.

Definition write_reg (reg v : Z) : M vblk unit := emit (RegWrite reg v).

(** The storage information, filled in and then marked ready. *)
Definition publish_storage_info : M vblk unit :=
  let c := vs_config cfg in
  modify (fun u => set_vb_storage
    (mk_blk_storage
       (mk_storage_info false (si_ready (bs_info (vb_storage u)))
          VIRTIO_BLK_SECTOR_SIZE (u64 (vc_capacity c * VIRTIO_BLK_SECTOR_SIZE) / BLK_TRANSFER_SIZE))
       (vc_cylinders c) (vc_heads c) (vc_sectors c) 1) u);;
  modify (fun u => let s := vb_storage u in
    set_vb_storage (mk_blk_storage (blk_storage_set_ready true (bs_info s)) (bs_cylinders s) (bs_heads s) (bs_blocks s) (bs_block_size s)) u).

Definition desc_off : Z := 0.
Definition avail_off : Z := ALIGN (desc_off + 16 * VIRTQ_NUM_REQUESTS) 2.
Definition used_off : Z := ALIGN (avail_off + (6 + 2 * VIRTQ_NUM_REQUESTS)) 4.
Definition virtq_size : Z := used_off + (6 + 8 * VIRTQ_NUM_REQUESTS).

(** The two halves of the address of a part of the virtqueue. *)
Definition write_addr (low high off : Z) : M vblk unit :=
  write_reg low (Z.land (u64 (vs_requests_paddr cfg + off)) 0xFFFFFFFF);;
  write_reg high (Z.shiftr (u64 (vs_requests_paddr cfg + off)) 32).

Definition virtio_blk_init : M vblk unit :=
  let regs := vs_regs cfg in
  assert_ (virtio_mmio_check_magic regs);;
  assert_ (virtio_mmio_version regs =? VIRTIO_VERSION);;
  assert_ (virtio_mmio_check_device_id regs VIRTIO_DEVICE_ID_BLK);;
  assert_ (virtio_mmio_version regs =? VIRTIO_BLK_DRIVER_VERSION);;
  u ← get;
  ia ← lift (ialloc_init (idxlist (vb_ialloc u)) QUEUE_SIZE);
  modify (set_vb_ialloc ia);;
  write_reg Status 0;;
  write_reg Status VIRTIO_DEVICE_STATUS_ACKNOWLEDGE;;
  write_reg Status VIRTIO_DEVICE_STATUS_DRIVER;;
  assert_ (negb (vc_capacity (vs_config cfg) <? BLK_TRANSFER_SIZE / VIRTIO_BLK_SECTOR_SIZE));;
  publish_storage_info;;
  write_reg DriverFeatures 0;;
  write_reg DriverFeaturesSel 1;;
  write_reg DriverFeatures 0;;
  let status := Z.lor (status_read VIRTIO_DEVICE_STATUS_DRIVER) VIRTIO_DEVICE_STATUS_FEATURES_OK in
  write_reg Status status;;
  if negb (has (status_read status) VIRTIO_DEVICE_STATUS_FEATURES_OK) then mret tt else
  assert_ (virtq_size <=? vs_metadata_size cfg);;
  modify (set_vb_virtq (mk_virtq VIRTQ_NUM_REQUESTS (mem_desc (vs_memory cfg) desc_off)
            (mem_avail (vs_memory cfg) avail_off) (mem_used (vs_memory cfg) used_off)));;
  assert_ (VIRTQ_NUM_REQUESTS <=? vm_queue_num_max regs);;
  write_reg QueueSel 0;;
  write_reg QueueNum VIRTQ_NUM_REQUESTS;;
  write_addr QueueDescLow QueueDescHigh desc_off;;
  write_addr QueueDriverLow QueueDriverHigh avail_off;;
  write_addr QueueDeviceLow QueueDeviceHigh used_off;;
  write_reg QueueReady 1;;
  write_reg Status (Z.lor (status_read status) VIRTIO_DEVICE_STATUS_DRIVER_OK);;
  ack_vqueue.

Definition init : M vblk unit :=
  assert_ (vs_ok cfg);;
  emit (IrqAck (vs_irq cfg));;
  assert_ (negb (vs_headers_paddr cfg =? 0));;
  assert_ (negb (vs_headers_vaddr cfg =? 0));;
  assert_ (negb (vs_requests_paddr cfg =? 0));;
  assert_ (negb (vs_requests_vaddr cfg =? 0));;
  virtio_blk_init;;
  modify (set_vb_queue (blk_queue_init (vs_req_queue cfg) (vs_resp_queue cfg) (vs_num_buffers cfg))).

(** The state before [init]: globals are zero, and so are the arrays
    [descriptors] and [virtio_header_to_id]; [headers] is the second region. *)
Definition vblk_boot (headers : list virtio_blk_req) : vblk :=
  mk_vblk (mk_virtq 0 [] (mk_virtq_avail 0 []) (mk_virtq_used 0 []))
    (mk_blk_handle (mk_blk_req_queue (mk_ring 0 0 []) false) (mk_ring 0 0 []) 0)
    headers (replicate (Z.to_nat QUEUE_SIZE) 0) (mk_ialloc (replicate (Z.to_nat QUEUE_SIZE) 0) 0 0 0 0 0) 0
    (mk_blk_storage (mk_storage_info false false 0 0) 0 0 0 0)
    (mk_blk_device 0 [] [] [] false false 0) (mk_blk_peer [] [] false) [] [].

(** Delivery of a notification, then the driver; the acts of the script go on
    meanwhile.  What is left of the script does not happen. *)
Definition deliver (ch : Z) (script : list (list blk_act)) u : vblk :=
  let u := set_vb_script script u in
  if ch =? vs_virt cfg then set_vb_peer (mk_blk_peer (pe_sent (vb_peer u)) (pe_taken (vb_peer u)) false) u else u.

Inductive blk_event : Type :=
| Act (a : blk_act)
| Deliver (ch : Z) (script : list (list blk_act)).

Definition run_event (e : blk_event) : M vblk unit :=
  match e with
  | Act a => modify (act_step a)
  | Deliver ch script => modify (deliver ch script);; notified ch;; modify (set_vb_script [])
  end.

Fixpoint run (es : list blk_event) : M vblk unit :=
  match es with
  | [] => mret tt
  | e :: es' => run_event e;; run es'
  end.
End driver.
