(* ===== verification/VirtioBlkInv.v ===== *)
(** * What the virtio block driver, its device and the virtualiser keep

    A request in flight owns three descriptors and goes through four stages:
    prepared by the driver, in the available ring, at the device, in the used
    ring.  The invariant says so, that the rings and descriptors hold what the
    stages require, and where each request sent so far is; it holds at every
    look of the driver, and every act keeps it. *)

From S2P Require Import Prelude Fifo RingQueue Microkit Ialloc BlkQueue VirtQueue VirtioBlk.

Record fly : Type := mk_fly {
  fy_head : Z;
  fy_data : Z;
  fy_foot : Z;
  fy_req : blk_req;
}.
Definition fy_idx (t : fly) : list Z := [fy_head t; fy_data t; fy_foot t].

(** What a READ or WRITE asks of the device. *)
Definition job_of (r : blk_req) : job :=
  mk_job (bool_decide (br_code r = BLK_REQ_READ)) (br_block_number r * 8) (br_io_or_offset r) (4096 * br_count r).

Definition rws (l : list blk_req) : list blk_req := filter (fun r => is_rw r = true) l.
Definition others (l : list blk_req) : list blk_req := filter (fun r => is_rw r = false) l.

(** The identifier and count that a request is to be answered with. *)
Definition answer_of (r : blk_req) : Z * Z := (br_id r, if is_rw r then br_count r else 0).
Definition resp_key (p : blk_resp) : Z * Z := (bp_id p, bp_success_count p).

(** Where the requests are: the free descriptors; the requests prepared,
    available, at the device and used; those the device has fetched so far,
    those the driver has taken from its queue, and the number of completed
    requests it has answered. *)
Record stages : Type := mk_stages {
  g_free : list Z;
  g_prep : list fly;
  g_wait : list fly;
  g_dev : list fly;
  g_used : list fly;
  g_fetched : list blk_req;
  g_past : list blk_req;
  g_answered : nat;
}.
Definition flying (g : stages) : list fly := g_prep g ++ g_wait g ++ g_dev g ++ g_used g.
Definition owned (g : stages) : list Z := g_free g ++ concat (map fy_idx (flying g)).

Lemma queue_size_range : 0 < QUEUE_SIZE <= 2 ^ 16.
Proof. done. Qed.
Lemma queue_size_div : (QUEUE_SIZE | 2 ^ 16).
Proof. by exists 64. Qed.
#[export] Hint Resolve queue_size_range queue_size_div : core.

Section inv.
Context (cfg : vblk_setup).
Implicit Types (u : vblk) (g : stages) (t : fly).

Record fly_ok (ds : list virtq_desc) (hs : list virtio_blk_req) t : Prop := {
  fk_ok : req_ok cfg (fy_req t) = true;
  fk_rw : is_rw (fy_req t) = true;
  fk_head : ds !! Z.to_nat (fy_head t) = Some (mk_virtq_desc (vs_headers_paddr cfg + fy_head t * 24) 16 1 (fy_data t));
  fk_data : ds !! Z.to_nat (fy_data t) = Some (mk_virtq_desc (jb_addr (job_of (fy_req t))) (jb_len (job_of (fy_req t)))
              (if jb_in (job_of (fy_req t)) then 3 else 1) (fy_foot t));
  fk_foot : ds !! Z.to_nat (fy_foot t) = Some (mk_virtq_desc (vs_headers_paddr cfg + fy_head t * 24 + 16) 1 2 0);
  fk_hdr : exists st, hs !! Z.to_nat (fy_head t)
             = Some (mk_virtio_blk_req (if jb_in (job_of (fy_req t)) then 0 else 1) (jb_sector (job_of (fy_req t))) st);
}.

(** What the device has fetched for [t]. *)
Record chain_ok (fetched : list blk_req) (c : chain) t : Prop := {
  ck_head : ch_head c = fy_head t;
  ck_status : ch_status c = fy_head t;
  ck_job : ch_job c = job_of (fy_req t);
  ck_number : fetched !! ch_number c = Some (fy_req t);
}.

(** [s] is [last_seen_used] and [i] the index the driver has got to; of the
    used entries it has seen [n]; [nt] says that it will notify the device. *)
Record vblk_inv (s i : Z) (n : nat) (nt : bool) g u : Prop := {
  iv_last : vb_last_seen_used u = s;
  iv_num : vq_num (vb_virtq u) = QUEUE_SIZE;
  iv_desc : Z.of_nat (length (vq_desc (vb_virtq u))) = QUEUE_SIZE;
  iv_avail_len : Z.of_nat (length (va_ring (vq_avail (vb_virtq u)))) = QUEUE_SIZE;
  iv_used_len : Z.of_nat (length (vu_ring (vq_used (vb_virtq u)))) = QUEUE_SIZE;
  iv_headers : Z.of_nat (length (vb_headers u)) = QUEUE_SIZE;
  iv_ids_len : Z.of_nat (length (vb_header_to_id u)) = QUEUE_SIZE;
  iv_queue : blk_wf (vb_queue u);
  iv_ialloc : ialloc_wf (vb_ialloc u) (g_free g) /\ ia_offset (vb_ialloc u) = 0 /\ ia_size (vb_ialloc u) = QUEUE_SIZE;
  iv_owned : owned g ≡ₚ seqZ 0 QUEUE_SIZE;
  iv_fly : Forall (fly_ok (vq_desc (vb_virtq u)) (vb_headers u)) (flying g);
  iv_ids : Forall (fun t => vb_header_to_id u !! Z.to_nat (fy_head t) = Some (br_id (fy_req t)))
             (g_wait g ++ g_dev g ++ g_used g);
  iv_seen : is_u16 (bd_seen (vb_device u));
  iv_avail : ring_holds QUEUE_SIZE (va_ring (vq_avail (vb_virtq u))) (bd_seen (vb_device u))
               (map fy_head (g_wait g ++ g_prep g));
  iv_avail_idx : va_idx (vq_avail (vb_virtq u)) = u16 (bd_seen (vb_device u) + Z.of_nat (length (g_wait g)));
  iv_i : is_u16 i;
  iv_used : ring_holds QUEUE_SIZE (map vu_id (vu_ring (vq_used (vb_virtq u)))) i (map fy_head (g_used g));
  iv_used_idx : vu_idx (vq_used (vb_virtq u)) = u16 (i + Z.of_nat (length (g_used g)));
  iv_broken : bd_broken (vb_device u) = false;
  iv_flight : Forall2 (chain_ok (g_fetched g)) (bd_flight (vb_device u)) (g_dev g);
  iv_jobs : bd_fetched (vb_device u) = map job_of (g_fetched g);
  iv_rws : rws (g_past g) = g_fetched g ++ map fy_req (g_wait g);
  iv_numbers : map fst (bd_done (vb_device u)) ++ map ch_number (bd_flight (vb_device u)) ≡ₚ seq 0 (length (g_fetched g));
  iv_answered : (g_answered g <= length (bd_done (vb_device u)))%nat;
  iv_done : Forall2 (fun d t => g_fetched g !! d.1 = Some (fy_req t)) (drop (g_answered g) (bd_done (vb_device u))) (g_used g);
  iv_sent : pe_sent (vb_peer u) = g_past g ++ map fy_req (g_prep g) ++ blk_reqs (vb_queue u);
  iv_resps : map resp_key (pe_taken (vb_peer u) ++ blk_resps (vb_queue u))
             ≡ₚ map answer_of (others (g_past g)
                  ++ omap (fun d => g_fetched g !! d.1) (take (g_answered g) (bd_done (vb_device u))));
  iv_room : Z.of_nat (length (pe_sent (vb_peer u))) <= bh_capacity (vb_queue u) + Z.of_nat (length (pe_taken (vb_peer u)));
  iv_oks : Forall (fun r => req_ok cfg r = true) (pe_sent (vb_peer u));
  iv_n : (n <= length (g_used g))%nat;
  iv_irq : length (g_used g) = n \/ Z.testbit (bd_interrupt (vb_device u)) 0 = true;
  iv_kick : g_wait g = [] \/ bd_kicked (vb_device u) = true \/ nt = true;
}.

(** What the virtualiser has checked. *)
Lemma req_ok_facts r :
  req_ok cfg r = true ->
  is_u64 (br_io_or_offset r) /\ is_u16 (br_count r) /\ is_u32 (br_id r) /\ (forall c, br_code r <> BLK_REQ_OTHER c) /\
  (is_rw r = true -> 0 <= br_block_number r /\ (br_block_number r + br_count r) * 8 <= vc_capacity (vs_config cfg)).
Proof.
  unfold req_ok, in_bits, is_rw, is_u64, is_u16, is_u32. rewrite !andb_true_iff, !Z.leb_le, !Z.ltb_lt. intros [[[Ha Hc] Hi] Hm].
  split_and!; [lia..| |].
  - intros c E. by rewrite E in Hm.
  - intros H%bool_decide_eq_true. destruct H as [E|E]; rewrite E, andb_true_iff, !Z.leb_le in Hm; done.
Qed.

(** ** Consequences *)

Lemma rws_others l : (length (rws l) + length (others l) = length l)%nat.
Proof.
  unfold rws, others. induction l as [|r l IH]; [done|]. rewrite !filter_cons.
  destruct (is_rw r); repeat case_decide; cbn; (congruence || lia).
Qed.

Lemma omap_length_some {A B} (f : A -> option B) l :
  Forall (fun x => is_Some (f x)) l -> length (omap f l) = length l.
Proof. induction 1 as [|x l [y E] _ IH]; [done|]. cbn. rewrite E. cbn. by f_equal. Qed.

Lemma omap_lookup_app {A B} (f : A -> nat) (l k : list B) ds :
  Forall (fun d => is_Some (l !! f d)) ds -> omap (fun d => (l ++ k) !! f d) ds = omap (fun d => l !! f d) ds.
Proof.
  induction 1 as [|d ds [x E] _ IH]; [done|]. cbn. rewrite E, (lookup_app_l_Some _ _ _ _ E), IH. done.
Qed.

Section consequences.
Context (s i : Z) (n : nat) (nt : bool) (g : stages) (u : vblk).
Hypothesis HI : vblk_inv s i n nt g u.

Lemma inv_range x : x ∈ owned g -> 0 <= x < QUEUE_SIZE.
Proof using HI. rewrite (iv_owned _ _ _ _ _ _ HI), elem_of_seqZ. lia. Qed.

Lemma inv_nodup : NoDup (owned g).
Proof using HI. rewrite (iv_owned _ _ _ _ _ _ HI). apply NoDup_seqZ. Qed.

Lemma inv_fly_in t x : t ∈ flying g -> x ∈ fy_idx t -> x ∈ owned g.
Proof. intros Ht Hx. apply elem_of_app. right. apply list_elem_of_In, in_concat. exists (fy_idx t).
  split; [by apply in_map, list_elem_of_In|by apply list_elem_of_In]. Qed.

Lemma concat_idx_length (l : list fly) : length (concat (map fy_idx l)) = (3 * length l)%nat.
Proof. induction l as [|t l IH]; [done|]. cbn in *. lia. Qed.

Lemma inv_descs : (length (g_free g) + 3 * length (flying g) = 1024)%nat.
Proof using HI.
  pose proof (Permutation_length (iv_owned _ _ _ _ _ _ HI)) as H. unfold owned in H.
  rewrite length_app, concat_idx_length, length_seqZ in H. exact H.
Qed.

(** What was completed was fetched before. *)
Lemma inv_done_range : Forall (fun d : nat * Z => is_Some (g_fetched g !! d.1)) (bd_done (vb_device u)).
Proof using HI.
  apply Forall_forall. intros d Hd. apply lookup_lt_is_Some.
  assert (d.1 ∈ seq 0 (length (g_fetched g))) as Hin%elem_of_seq; [|lia].
  rewrite <- (iv_numbers _ _ _ _ _ _ HI). apply elem_of_app. left. apply list_elem_of_fmap. by exists d.
Qed.

(** Every request is in one place. *)
Lemma inv_count :
  length (pe_sent (vb_peer u))
  = (length (pe_taken (vb_peer u)) + length (blk_resps (vb_queue u)) + length (flying g) + length (blk_reqs (vb_queue u)))%nat.
Proof using HI.
  destruct HI. apply (f_equal length) in iv_sent0, iv_rws0. rewrite !length_app, !length_map in *.
  apply Permutation_length in iv_numbers0, iv_resps0. rewrite !length_map, !length_app, ?length_map, ?length_seq in *.
  pose proof (Forall2_length _ _ _ iv_flight0). pose proof (Forall2_length _ _ _ iv_done0) as Hd. rewrite length_drop in Hd.
  pose proof (rws_others (g_past g)). unfold flying. rewrite !length_app.
  rewrite omap_length_some, length_take in iv_resps0; [lia|].
  apply Forall_take, inv_done_range.
Qed.

Lemma inv_slots : Z.of_nat (length (flying g)) <= 341.
Proof using HI. pose proof inv_descs. lia. Qed.
End consequences.

(** ** The device reads what the driver wrote *)

Lemma header_at_ok h : 0 <= h -> header_at cfg (vs_headers_paddr cfg + h * 24) = Some h.
Proof.
  intros Hh. unfold header_at, sizeof_virtio_blk_req. replace (_ + _ - _) with (h * 24) by lia.
  rewrite Z.mod_mul, Z.div_mul by lia. by rewrite (proj2 (Z.leb_le _ _)) by lia.
Qed.

Lemma read_chain_ok u t :
  fly_ok (vq_desc (vb_virtq u)) (vb_headers u) t -> 0 <= fy_head t ->
  read_chain cfg u (fy_head t)
  = Some (mk_chain (fy_head t) (job_of (fy_req t)) (fy_head t) (length (bd_fetched (vb_device u)))).
Proof.
  intros [] Hh. destruct fk_hdr0 as [st Hst]. unfold read_chain, desc_at. rewrite fk_head0. cbn [mbind option_bind vd_next].
  rewrite fk_data0. cbn [mbind option_bind vd_next vd_addr]. rewrite fk_foot0. cbn [mbind option_bind vd_next vd_addr].
  unfold VIRTIO_BLK_REQ_HDR_SIZE. rewrite Z.add_simpl_r. rewrite !header_at_ok by done. cbn [mbind option_bind].
  rewrite Hst. cbn [mbind option_bind hr_type hr_sector vd_flags vd_len]. unfold job_of.
  by destruct (bool_decide (br_code (fy_req t) = BLK_REQ_READ)).
Qed.

(** ** Every act keeps the invariant *)

Section acts.
Context (s i : Z) (n : nat) (nt : bool).

Definition kept g u g' u' : Prop :=
  vblk_inv s i n nt g' u' /\ g_prep g' = g_prep g /\ g_free g' = g_free g /\ vb_script u' = vb_script u.

Lemma perm_flying g g' : flying g' ≡ₚ flying g -> g_free g' = g_free g -> owned g' ≡ₚ owned g.
Proof. intros H Hf. unfold owned. by rewrite Hf, H. Qed.

Lemma fetch_kept g u : vblk_inv s i n nt g u -> exists g', kept g u g' (device_fetch cfg u).
Proof.
  intros HI. pose proof (inv_slots _ _ _ _ _ _ HI) as Hslots. pose proof HI as []. unfold device_fetch.
  destruct (nil_or_cons (g_wait g)) as [Ew|(t & l & Ew)].
  { assert (bd_seen (vb_device u) = va_idx (vq_avail (vb_virtq u))) as E by (rewrite iv_avail_idx0, Ew; cbn; by rewrite Z.add_0_r, u16_small).
    rewrite E, Z.eqb_refl. exists g. split; [|done]. split; try done. by left. }
  assert (t ∈ flying g) as Ht by (unfold flying; rewrite Ew; set_solver).
  assert (0 <= fy_head t) as Hh. { eapply inv_range; [done|]. eapply inv_fly_in; [done|set_solver]. }
  assert (length (flying g) = length (g_prep g) + S (length l) + length (g_dev g) + length (g_used g))%nat as Hl
    by (unfold flying; rewrite !length_app, Ew; cbn; lia).
  rewrite (proj2 (Z.eqb_neq _ _)).
  2: { rewrite iv_avail_idx0, Ew. cbn [length]. unfold is_u16 in *. uint_lia. }
  rewrite Ew in iv_avail0. cbn [app map] in iv_avail0. rewrite (ring_holds_first _ _ _ _ _ iv_avail0). cbn [mbind option_bind].
  rewrite read_chain_ok; [|by eapply Forall_forall in iv_fly0|done].
  exists (mk_stages (g_free g) (g_prep g) l (g_dev g ++ [t]) (g_used g) (g_fetched g ++ [fy_req t]) (g_past g) (g_answered g)).
  assert (flying (mk_stages (g_free g) (g_prep g) l (g_dev g ++ [t]) (g_used g) (g_fetched g ++ [fy_req t]) (g_past g) (g_answered g)) ≡ₚ flying g) as Hp.
  { unfold flying. cbn [g_prep g_wait g_dev g_used]. rewrite Ew. solve_Permutation. }
  split; [|done]. split; try done; cbn [g_free g_prep g_wait g_dev g_used g_fetched g_past g_answered vb_device set_vb_device
    bd_seen bd_flight bd_fetched bd_done bd_kicked bd_broken bd_interrupt ch_job].
  - by rewrite (perm_flying _ _ Hp).
  - by rewrite Hp.
  - rewrite Ew in iv_ids0. cbn [app] in iv_ids0. rewrite Forall_cons, !Forall_app in iv_ids0. rewrite !Forall_app, Forall_singleton. tauto.
  - apply u16_range.
  - by eapply ring_holds_pop; eauto.
  - cbn [vb_virtq set_vb_device]. rewrite iv_avail_idx0, Ew, u16_add_u16. f_equal. cbn [length]. lia.
  - apply Forall2_app; [|apply Forall2_cons; split; [|constructor]].
    + eapply Forall2_impl; [done|]. intros c t' []. split; try done. by apply lookup_app_l_Some.
    + split; try done. cbn. by rewrite iv_jobs0, length_map, list_lookup_middle.
  - by rewrite map_app, iv_jobs0.
  - by rewrite iv_rws0, Ew, <- app_assoc.
  - rewrite map_app. cbn [map ch_number]. rewrite app_assoc, iv_numbers0, iv_jobs0, length_map, length_app, seq_app. done.
  - eapply Forall2_impl; [done|]. intros d t' Hd. by apply lookup_app_l_Some.
  - by rewrite omap_lookup_app by (by eapply Forall_take, inv_done_range).
  - destruct iv_kick0 as [|]; [congruence|auto].
Qed.
Lemma kept_refl g u : vblk_inv s i n nt g u -> kept g u g u.
Proof. done. Qed.

Lemma fly_ok_status ds hs t h st :
  fly_ok ds hs t -> fly_ok ds (alter (fun x => mk_virtio_blk_req (hr_type x) (hr_sector x) st) h hs) t.
Proof.
  intros [? ? ? ? ? [st0 E]]. split; try done. destruct (decide (h = Z.to_nat (fy_head t))) as [->|Hne].
  - exists st. by rewrite list_lookup_alter_eq, E.
  - exists st0. by rewrite list_lookup_alter_ne.
Qed.

Lemma complete_kept g u k status len :
  vblk_inv s i n nt g u -> exists g', kept g u g' (device_complete k status len u).
Proof.
  intros HI. pose proof (inv_slots _ _ _ _ _ _ HI) as Hslots. pose proof HI as []. unfold device_complete.
  destruct (bd_flight (vb_device u) !! k) as [c|] eqn:Ec; [|by exists g].
  destruct (Forall2_lookup_l _ _ _ _ _ iv_flight0 Ec) as (t & Et & [Hch Hst Hjob Hnum]).
  pose proof (delete_Permutation _ _ _ Et) as Hdev. pose proof (delete_Permutation _ _ _ Ec) as Hfl.
  pose proof (Forall2_delete _ _ _ k iv_flight0) as Hdel.
  set (dev := delete k (g_dev g)) in *. set (fl := delete k (bd_flight (vb_device u))) in *.
  set (g' := mk_stages (g_free g) (g_prep g) (g_wait g) dev (g_used g ++ [t]) (g_fetched g) (g_past g) (g_answered g)).
  assert (flying g' ≡ₚ flying g) as Hp by (unfold flying, g'; cbn [g_prep g_wait g_dev g_used]; rewrite Hdev; solve_Permutation).
  assert (length (g_used g) < length (flying g))%nat as Hlen by (unfold flying; rewrite Hdev, !length_app; cbn; lia).
  exists g'. split; [|done].
  split; try done; cbn [vb_virtq vb_headers vb_device vb_queue vb_header_to_id set_vb_headers set_vb_virtq set_vb_device
    set_vq_used vq_num vq_desc vq_avail vq_used vu_ring vu_idx bd_seen bd_flight bd_fetched bd_done bd_kicked bd_broken bd_interrupt].
  - by rewrite length_insert.
  - by rewrite length_alter.
  - by rewrite (perm_flying _ _ Hp).
  - rewrite Hp. eapply Forall_impl; [done|]. intros t'. apply fly_ok_status.
  - unfold g'. cbn [g_wait g_dev g_used]. rewrite Hdev in iv_ids0. rewrite !Forall_app, ?Forall_cons, ?Forall_nil in *. tauto.
  - unfold g'. cbn [g_used]. rewrite list_fmap_insert, map_app, iv_used_idx0, u16_mod_num by eauto. cbn [vu_id map]. rewrite Hch.
    rewrite <- (length_map fy_head (g_used g)). apply ring_holds_push; [eauto|done| |by rewrite length_map].
    rewrite length_map. unfold QUEUE_SIZE. lia.
  - unfold g'. cbn [g_used]. rewrite iv_used_idx0, u16_add_u16, length_app. f_equal. cbn. lia.
  - unfold g'. cbn [g_fetched]. rewrite <- iv_numbers0, map_app, <- app_assoc. apply Permutation_app_head. by rewrite Hfl.
  - unfold g'. cbn [g_answered]. rewrite length_app. lia.
  - unfold g'. cbn [g_answered g_fetched g_used]. rewrite drop_app_le by done. apply Forall2_app; [done|]. by repeat constructor.
  - unfold g'. cbn [g_answered g_fetched g_past]. by rewrite take_app_le.
  - unfold g'. cbn [g_used]. rewrite length_app. lia.
  - right. by rewrite Z.lor_spec, orb_true_r.
Qed.

Lemma config_kept g u : vblk_inv s i n nt g u -> exists g', kept g u g' (act_step cfg DConfig u).
Proof.
  intros HI. pose proof HI as []. exists g. split; [|done]. split; try done. destruct iv_irq0 as [|H]; [by left|right].
  cbn [vb_device set_vb_device act_step bd_interrupt set_bd_interrupt]. by rewrite Z.lor_spec, H.
Qed.

Lemma put_kept g u r : vblk_inv s i n nt g u -> exists g', kept g u g' (act_step cfg (CPut r) u).
Proof.
  intros HI. pose proof (inv_count _ _ _ _ _ _ HI) as Hc. pose proof HI as []. exists g. cbn [act_step].
  destruct (peer_may_put cfg r u) eqn:Hput; [|done]. apply andb_true_iff in Hput as [Hok Hroom%Z.ltb_lt].
  assert (wp (blk_enqueue_req (br_code r) (br_io_or_offset r) (br_block_number r) (br_count r) (br_id r)) (vb_queue u)
    (fun e q => e = 0 /\ blk_wf q /\ blk_reqs q = blk_reqs (vb_queue u) ++ [r] /\ blk_resps q = blk_resps (vb_queue u) /\ bh_capacity q = bh_capacity (vb_queue u))) as H.
  { apply blk_enqueue_req_spec; [done|lia|]. intros q Hq E1 E2 E3. by destruct r. }
  apply wp_elim in H as (e & q & -> & -> & Hq & E1 & E2 & E3). split; [|done].
  split; try done; cbn [vb_queue vb_peer set_vb_peer set_vb_queue pe_sent pe_taken].
  - by rewrite iv_sent0, E1, <- !app_assoc.
  - by rewrite E2.
  - rewrite E3, length_app. cbn. lia.
  - rewrite Forall_app, Forall_singleton. done.
Qed.

Lemma take_kept g u : vblk_inv s i n nt g u -> exists g', kept g u g' (act_step cfg CTake u).
Proof.
  intros HI. pose proof HI as []. exists g. cbn [act_step]. destruct (nil_or_cons (blk_resps (vb_queue u))) as [E|(x & l & E)].
  { assert (blk_dequeue_resp (vb_queue u) = Ok (None, vb_queue u)) as ->; [|done].
    apply (fifo_deq_nil (O := lens_fifo_ops (L := blk_resp_lens))); [apply iv_queue0|done]. }
  assert (wp blk_dequeue_resp (vb_queue u) (fun o q => o = Some x /\ blk_wf q /\ blk_resps q = l /\ blk_reqs q = blk_reqs (vb_queue u) /\  bh_capacity q = bh_capacity (vb_queue u))) as H.
  { by eapply blk_dequeue_resp_spec. }
  apply wp_elim in H as (o & q & -> & -> & Hq & E1 & E2 & E3). split; [|done].
  split; try done; cbn [vb_queue vb_peer set_vb_peer set_vb_queue pe_sent pe_taken].
  - by rewrite E2.
  - by rewrite <- app_assoc, E1, <- iv_resps0, E.
  - rewrite E3, length_app. cbn. lia.
Qed.

Lemma act_kept g u a : vblk_inv s i n nt g u -> exists g', kept g u g' (act_step cfg a u).
Proof.
  destruct a; [apply fetch_kept|apply complete_kept|apply config_kept|apply put_kept|apply take_kept].
Qed.

Lemma acts_kept g u acts :
  vblk_inv s i n nt g u -> exists g', kept g u g' (foldl (fun u a => act_step cfg a u) u acts).
Proof.
  revert g u. induction acts as [|a acts IH]; intros g u HI; [by exists g|]. cbn.
  destruct (act_kept g u a HI) as (g1 & HI1 & Ep & Ef & Es). destruct (IH g1 _ HI1) as (g2 & HI2 & Ep2 & Ef2 & Es2).
  exists g2. split; [done|]. split_and!; congruence.
Qed.

Lemma inv_script g u x : vblk_inv s i n nt g u -> vblk_inv s i n nt g (set_vb_script x u).
Proof. intros []. by split. Qed.

Lemma look_kept g u :
  vblk_inv s i n nt g u ->
  exists g', vblk_inv s i n nt g' (look cfg u) /\ g_prep g' = g_prep g /\ g_free g' = g_free g.
Proof.
  intros HI. unfold look. destruct (vb_script u) as [|acts rest]; [by exists g|].
  destruct (acts_kept g (set_vb_script rest u) acts (inv_script _ _ _ HI)) as (g' & H & ? & ? & _). by exists g'.
Qed.
(** What acts do to the queue of requests: only a put makes it longer, and it
    notifies the driver. *)
Definition reqs_grow (k : nat) u u' : Prop :=
  (length (blk_reqs (vb_queue u')) <= length (blk_reqs (vb_queue u)) + k)%nat /\
  (pe_pending (vb_peer u') = true \/
   pe_pending (vb_peer u') = pe_pending (vb_peer u) /\ blk_reqs (vb_queue u') = blk_reqs (vb_queue u)).

Lemma reqs_grow_same k u u' :
  blk_reqs (vb_queue u') = blk_reqs (vb_queue u) -> pe_pending (vb_peer u') = pe_pending (vb_peer u) -> reqs_grow k u u'.
Proof. intros E1 E2. split; [rewrite E1; lia|by right]. Qed.

Lemma reqs_grow_trans k k' u u' u'' : reqs_grow k u u' -> reqs_grow k' u' u'' -> reqs_grow (k + k') u u''.
Proof.
  intros [H1 H2] [H3 H4]. split; [lia|]. destruct H4 as [|[E1 E2]]; [by left|]. destruct H2 as [|[E3 E4]]; [left|right]; by rewrite E1, ?E2.
Qed.

Lemma act_reqs g u a : vblk_inv s i n nt g u -> reqs_grow (puts [a]) u (act_step cfg a u).
Proof.
  intros HI. destruct a as [|k status len| |r|]; cbn [act_step].
  - unfold device_fetch. repeat case_match; by apply reqs_grow_same.
  - unfold device_complete. case_match; by apply reqs_grow_same.
  - by apply reqs_grow_same.
  - repeat case_match; try by apply reqs_grow_same. split; [|by left]. cbn [vb_queue set_vb_peer set_vb_queue].
    destruct HI as [? ? ? ? ? ? ? Hq]. destruct (decide (Z.of_nat (length (blk_reqs (vb_queue u))) < bh_capacity (vb_queue u))) as [Hr|Hr].
    + assert (wp (blk_enqueue_req (br_code r) (br_io_or_offset r) (br_block_number r) (br_count r) (br_id r)) (vb_queue u)
        (fun _ q => length (blk_reqs q) = S (length (blk_reqs (vb_queue u))))) as Hw.
      { apply blk_enqueue_req_spec; [done..|]. intros q _ -> _ _. rewrite length_app. cbn. lia. }
      apply wp_elim in Hw as (e & q & E & Hl). match goal with |- context [blk_reqs ?b] => assert (q = b) as <- by congruence end.
      change (puts [CPut r]) with 1%nat. lia.
    + exfalso. pose proof (blk_reqs_bounded _ Hq). assert (blk_enqueue_req (br_code r) (br_io_or_offset r) (br_block_number r) (br_count r) (br_id r) (vb_queue u) = Ok (-1, vb_queue u)) as E; [|congruence].
      apply (lens_fifo_full (L := blk_req_lens)); [apply Hq|]. cbn. unfold blk_reqs in *. lia.
  - pose proof HI as [? ? ? ? ? ? ? Hq]. destruct (nil_or_cons (blk_resps (vb_queue u))) as [E|(x & l & E)].
    + assert (blk_dequeue_resp (vb_queue u) = Ok (None, vb_queue u)) as ->; [|by apply reqs_grow_same].
      apply (fifo_deq_nil (O := lens_fifo_ops (L := blk_resp_lens))); [apply Hq|done].
    + assert (wp blk_dequeue_resp (vb_queue u) (fun o q => blk_reqs q = blk_reqs (vb_queue u))) as Hw by (by eapply blk_dequeue_resp_spec).
      apply wp_elim in Hw as (o & q & -> & E1). destruct o; by apply reqs_grow_same.
Qed.

Lemma puts_app l l' : puts (l ++ l') = (puts l + puts l')%nat.
Proof. unfold puts. by rewrite omap_app, length_app. Qed.

Lemma acts_reqs g u acts :
  vblk_inv s i n nt g u -> reqs_grow (puts acts) u (foldl (fun u a => act_step cfg a u) u acts).
Proof.
  revert g u. induction acts as [|a acts IH]; intros g u HI; [by apply reqs_grow_same|]. cbn [foldl].
  destruct (act_kept g u a HI) as (g1 & HI1 & _). change (a :: acts) with ([a] ++ acts). rewrite puts_app.
  eapply reqs_grow_trans; [by eapply act_reqs|by eapply IH].
Qed.

Lemma look_reqs g u :
  vblk_inv s i n nt g u ->
  exists k, reqs_grow k u (look cfg u) /\ (puts (concat (vb_script u)) = k + puts (concat (vb_script (look cfg u))))%nat.
Proof.
  intros HI. unfold look. destruct (vb_script u) as [|acts rest] eqn:E.
  - exists 0%nat. split; [by apply reqs_grow_same|by rewrite E].
  - exists (puts acts). apply (inv_script _ _ rest) in HI. split; [by apply (acts_reqs g (set_vb_script rest u))|].
    destruct (acts_kept g (set_vb_script rest u) acts HI) as (_ & _ & _ & _ & Es). rewrite Es. cbn [concat vb_script set_vb_script].
    by rewrite puts_app.
Qed.
End acts.
End inv.
