(* ===== verification/VirtioBlkSpec.v ===== *)
(** * The virtio block driver: its operations

    Each operation from a state of the invariant ends in one, and what it
    answers.  The properties of the driver as a whole follow. *)

From S2P Require Import Prelude Fifo RingQueue Microkit Ialloc BlkQueue VirtQueue VirtioBlk VirtioBlkInv.

Section specs.
Context (cfg : vblk_setup).
Implicit Types (u : vblk) (g : stages) (t : fly).

(** ** Accesses *)

Lemma wp_load_desc u i d (Q : virtq_desc -> vblk -> Prop) :
  0 <= i -> vq_desc (vb_virtq u) !! Z.to_nat i = Some d -> Q d u -> wp (load_desc i) u Q.
Proof. intros Hi E HQ. unfold load_desc. do 2 wp_step. eapply wp_lift; [by apply load_ok|done]. Qed.

Lemma wp_store_desc u i d (Q : unit -> vblk -> Prop) :
  0 <= i < Z.of_nat (length (vq_desc (vb_virtq u))) ->
  Q tt (set_vb_virtq (set_vq_desc (<[Z.to_nat i := d]> (vq_desc (vb_virtq u))) (vb_virtq u)) u) ->
  wp (store_desc i d) u Q.
Proof.
  intros Hi HQ. unfold store_desc. do 3 wp_step. eapply wp_lift; [by apply store_ok|]. by wp_step.
Qed.

(** The allocator with the descriptors [fl] free. *)
Definition frees (u : vblk) (fl : list Z) : Prop :=
  ialloc_wf (vb_ialloc u) fl /\ ia_offset (vb_ialloc u) = 0 /\ ia_size (vb_ialloc u) = QUEUE_SIZE.

Lemma wp_free_desc u fl x (Q : unit -> vblk -> Prop) :
  frees u fl -> 0 <= x < QUEUE_SIZE -> x ∉ fl ->
  (forall ia, frees (set_vb_ialloc ia u) (fl ++ [x]) -> Q tt (set_vb_ialloc ia u)) ->
  wp (free_desc x) u Q.
Proof.
  intros (Hwf & Ho & Hs) Hx Hn HQ. unfold free_desc, on_ialloc. do 2 wp_step.
  eapply wp_mono; [apply (ialloc_free_spec _ fl x); [done|lia|by rewrite Ho, Z.sub_0_r]|].
  cbv beta. intros r ia (-> & Hwf' & Ho' & Hs'). apply wp_assert; [done|]. apply HQ. unfold frees.
  cbn [vb_ialloc set_vb_ialloc]. rewrite Ho, Z.sub_0_r in Hwf'. split_and!; [done|congruence..].
Qed.

Lemma wp_alloc_desc u x fl (Q : Z -> vblk -> Prop) :
  frees u (x :: fl) -> (forall ia, frees (set_vb_ialloc ia u) fl -> 0 <= x < QUEUE_SIZE -> Q x (set_vb_ialloc ia u)) ->
  wp alloc_desc u Q.
Proof.
  intros (Hwf & Ho & Hs) HQ. unfold alloc_desc, on_ialloc. do 2 wp_step.
  eapply wp_mono; [by apply (ialloc_alloc_spec _ x fl)|]. cbv beta. intros r ia (-> & Hwf' & Ho' & Hs').
  rewrite Ho, Z.add_0_r. assert (0 <= x < QUEUE_SIZE) as Hx.
  { destruct Hwf as [_ _ _ _ Hr _ _ _ _ _]. rewrite Forall_cons in Hr. lia. }
  wp_step. apply wp_assert; [|wp_step; apply HQ; [|done]].
  - apply negb_true_iff, Z.eqb_neq. unfold IDX_NONE, QUEUE_SIZE in *. change (u32 (-1)) with 4294967295. lia.
  - unfold frees. cbn [vb_ialloc set_vb_ialloc]. split_and!; [done|congruence..].
Qed.

(** ** Responses *)

(** What the response to the used entry [i] says of the status. *)
Definition status_said (i : Z) u : option blk_resp_status :=
  h ← vb_headers u !! Z.to_nat (i mod QUEUE_SIZE);
  Some (if hr_status h =? VIRTIO_BLK_S_OK then BLK_RESP_OK else BLK_RESP_ERR_UNSPEC).

(** The completion that the used entry [i] is of. *)
Definition completion (i : Z) u : option (nat * Z) :=
  bd_done (vb_device u) !! (length (bd_done (vb_device u)) - Z.to_nat (u16 (vu_idx (vq_used (vb_virtq u)) - i)))%nat.

(** The response to the used entry [i] is for the request that was completed,
    and has a status from the header at [i]. *)
Definition answers (i : Z) u (p : blk_resp) : Prop :=
  exists d r st, completion i u = Some d /\ r ∈ pe_sent (vb_peer u) /\
    bd_fetched (vb_device u) !! d.1 = Some (job_of r) /\ status_said i u = Some st /\
    p = mk_blk_resp st (br_count r) (br_id r).

Lemma inv_completion s i n nt g u t l :
  vblk_inv cfg s i n nt g u -> g_used g = t :: l ->
  exists d, completion i u = Some d /\ fy_req t ∈ pe_sent (vb_peer u) /\
    bd_fetched (vb_device u) !! d.1 = Some (job_of (fy_req t)).
Proof.
  intros HI Eu. pose proof (inv_slots _ _ _ _ _ _ _ HI) as Hs. destruct HI. rewrite Eu in *.
  apply Forall2_cons_inv_r in iv_done as (d & ds & Hd & Hds%Forall2_length & Edrop). exists d.
  assert (Z.of_nat (length (t :: l)) <= 341) as Hlen by (unfold flying in Hs; rewrite !length_app, Eu in Hs; lia).
  split_and!.
  - unfold completion. rewrite iv_used_idx. pose proof (f_equal length Edrop) as Hl. rewrite length_drop in Hl. cbn [length] in Hl, Hlen.
    replace (u16 (u16 (i + _) - i)) with (Z.of_nat (length (t :: l))) by (cbn [length]; unfold is_u16 in *; uint_lia).
    replace (_ - _)%nat with (g_answered g) by (cbn [length]; lia).
    by rewrite <- (Nat.add_0_r (g_answered g)), <- lookup_drop, Edrop.
  - rewrite iv_sent. apply elem_of_app. left.
    assert (fy_req t ∈ rws (g_past g)) as Hin; [|by apply list_elem_of_filter in Hin as [_ ?]].
    rewrite iv_rws. apply elem_of_app. left. by eapply list_elem_of_lookup_2.
  - by rewrite iv_jobs, list_lookup_fmap, Hd.
Qed.

Lemma inv_free_room s i n nt g u :
  vblk_inv cfg s i n nt g u -> (0 < length (flying g))%nat ->
  Z.of_nat (length (blk_resps (vb_queue u))) < bh_capacity (vb_queue u).
Proof. intros HI Hf. pose proof (inv_count _ _ _ _ _ _ _ HI). pose proof (iv_room _ _ _ _ _ _ _ HI). lia. Qed.

(** The used chain [t] is answered and its descriptors are freed. *)
Definition retired g t (l : list fly) : stages :=
  mk_stages (((g_free g ++ [fy_head t]) ++ [fy_data t]) ++ [fy_foot t]) (g_prep g) (g_wait g) (g_dev g) l (g_fetched g)
    (g_past g) (S (g_answered g)).

Lemma retired_inv s i n nt g u t l q ia p :
  vblk_inv cfg s i (S n) nt g u -> g_used g = t :: l ->
  blk_wf q -> blk_resps q = blk_resps (vb_queue u) ++ [p] -> blk_reqs q = blk_reqs (vb_queue u) ->
  bh_capacity q = bh_capacity (vb_queue u) -> resp_key p = answer_of (fy_req t) ->
  frees (set_vb_ialloc ia u) (g_free (retired g t l)) ->
  vblk_inv cfg s (u16 (i + 1)) n nt (retired g t l) (set_vb_ialloc ia (set_vb_queue q u)).
Proof.
  intros [] Eu Hq E1 E2 E3 Hkey Hia.
  set (rest := g_prep g ++ g_wait g ++ g_dev g ++ l).
  assert (flying g ≡ₚ t :: rest) as Hfl by (unfold flying, rest; rewrite Eu; solve_Permutation).
  assert (flying (retired g t l) = rest) as Hfl' by done.
  assert (owned (retired g t l) ≡ₚ owned g) as Hown.
  { unfold owned. rewrite Hfl, Hfl'. cbn [retired g_free map concat]. unfold fy_idx at 2. solve_Permutation. }
  rewrite Eu in *. apply Forall2_cons_inv_r in iv_done as (d & ds & Hd & Hds & Edrop).
  split; try done; cbn [set_vb_ialloc set_vb_queue vb_queue vb_peer vb_virtq vb_device].
  - by rewrite Hown.
  - rewrite Hfl'. rewrite Hfl in iv_fly. by apply Forall_cons in iv_fly as [_ ?].
  - cbn [retired g_wait g_dev g_used]. rewrite !Forall_app, Forall_cons in iv_ids. rewrite !Forall_app. tauto.
  - apply u16_range.
  - cbn [map] in iv_used. by eapply ring_holds_pop; eauto.
  - rewrite iv_used_idx, u16_add_u16. f_equal. cbn [length retired g_used]. lia.
  - cbn [retired g_answered]. apply (f_equal length) in Edrop. rewrite length_drop in Edrop. cbn in Edrop. lia.
  - cbn [retired g_answered g_fetched g_used]. replace (S (g_answered g)) with (g_answered g + 1)%nat by lia.
    by rewrite <- drop_drop, Edrop.
  - by rewrite E2.
  - cbn [retired g_answered g_fetched g_past]. rewrite E1, app_assoc, map_app, iv_resps.
    assert (bd_done (vb_device u) !! g_answered g = Some d) as Ed by (rewrite <- (Nat.add_0_r (g_answered g)), <- lookup_drop, Edrop; done).
    rewrite (take_S_r _ _ _ Ed), omap_app. cbn [omap list_omap]. rewrite Hd. cbn [map].
    rewrite Hkey, !map_app. cbn [map]. by rewrite app_assoc.
  - by rewrite E3.
  - cbn [length retired g_used] in *. lia.
  - cbn [length retired g_used] in *. destruct iv_irq; [left; lia|by right].
Qed.

Lemma retire_spec s i n nt g u t l st cnt (Q : unit -> vblk -> Prop) :
  vblk_inv cfg s i (S n) nt g u -> g_used g = t :: l -> cnt = br_count (fy_req t) ->
  (forall u', vblk_inv cfg s (u16 (i + 1)) n nt (retired g t l) u' -> vb_script u' = vb_script u ->
     blk_resps (vb_queue u') = blk_resps (vb_queue u) ++ [mk_blk_resp st cnt (br_id (fy_req t))] -> Q tt u') ->
  wp (err ← on_queue (blk_enqueue_resp st cnt (br_id (fy_req t))); assert_ (err =? 0);;
      free_desc (fy_head t);; free_desc (fy_data t);; free_desc (fy_foot t)) u Q.
Proof.
  intros HI Eu -> HQ. assert (t ∈ flying g) as Ht by (unfold flying; rewrite Eu; set_solver).
  assert (forall x, x ∈ fy_idx t -> 0 <= x < QUEUE_SIZE) as Hr by (intros x Hx; eapply inv_range, inv_fly_in; done).
  pose proof (inv_free_room _ _ _ _ _ _ HI) as Hroom. pose proof (inv_nodup _ _ _ _ _ _ _ HI) as Hnd.
  assert (owned g ≡ₚ g_free g ++ fy_idx t ++ concat (map fy_idx (g_prep g ++ g_wait g ++ g_dev g ++ l))) as Hown.
  { unfold owned. apply Permutation_app_head. transitivity (concat (map fy_idx (t :: g_prep g ++ g_wait g ++ g_dev g ++ l))); [|done].
    assert (flying g ≡ₚ t :: g_prep g ++ g_wait g ++ g_dev g ++ l) as -> by (unfold flying; rewrite Eu; solve_Permutation). done. }
  rewrite Hown, !NoDup_app in Hnd. destruct Hnd as (_ & Hnf & [Hnt _]).
  assert (forall x, x ∈ fy_idx t -> x ∉ g_free g) as Hn by (intros x Hx Hf; apply (Hnf x Hf); apply elem_of_app; by left).
  unfold fy_idx in Hn, Hr, Hnt. rewrite !NoDup_cons in Hnt.
  unfold on_queue. do 2 wp_step. apply blk_enqueue_resp_spec; [by destruct HI|apply Hroom; destruct (flying g); [by apply not_elem_of_nil in Ht|cbn; lia]|].
  intros q Hq E1 E2 E3. wp_step. apply wp_assert; [done|].
  wp_step. apply (wp_free_desc _ (g_free g)); [apply HI|apply Hr; set_solver|apply Hn; set_solver|]. intros ia1 H1.
  wp_step. eapply wp_free_desc; [exact H1|apply Hr; set_solver|set_solver|]. intros ia2 H2.
  eapply wp_free_desc; [exact H2|apply Hr; set_solver|set_solver|]. intros ia3 H3. apply HQ; [|done..].
  eapply (retired_inv _ _ _ _ _ _ _ _ q ia3); [done..| |exact H3].
  unfold resp_key, answer_of. cbn [bp_id bp_success_count]. destruct (proj1 (Forall_forall _ _) (iv_fly _ _ _ _ _ _ _ HI) t Ht) as [_ ->]. done.
Qed.

Lemma vblk_respond_spec s i n nt g u (Q : unit -> vblk -> Prop) :
  vblk_inv cfg s i (S n) nt g u ->
  (forall g' u' p, vblk_inv cfg s (u16 (i + 1)) n nt g' u' -> g_prep g' = g_prep g ->
     answers i (look cfg u) p -> blk_resps (vb_queue u') = blk_resps (vb_queue (look cfg u)) ++ [p] ->
     vb_script u' = vb_script (look cfg u) -> Q tt u') ->
  wp (respond cfg i) u Q.
Proof.
  intros HI0 HQ. destruct (look_kept cfg s i (S n) nt g u HI0) as (g1 & HI & Ep & _). clear HI0.
  unfold respond. do 5 wp_step. set (u1 := look cfg u) in *. clearbody u1.
  pose proof HI as []. destruct (nil_or_cons (g_used g1)) as [Eu|(t & l & Eu)]; [rewrite Eu in iv_n; cbn in iv_n; lia|].
  assert (t ∈ flying g1) as Ht by (unfold flying; rewrite Eu; set_solver).
  pose proof (proj1 (Forall_forall _ _) iv_fly t Ht) as [Hok Hrw Hd0 Hd1 Hd2 Hh].
  assert (forall x, x ∈ fy_idx t -> 0 <= x < QUEUE_SIZE) as Hr by (intros x Hx; eapply inv_range, inv_fly_in; done).
  assert (0 <= fy_head t < QUEUE_SIZE /\ 0 <= fy_data t < QUEUE_SIZE) as (Rh & Rd) by (split; apply Hr; set_solver).
  rewrite iv_num. eapply wp_lift; [by apply umod_ok|]. wp_step.
  rewrite Eu in iv_used, iv_ids. cbn [map] in iv_used. pose proof (ring_holds_first _ _ _ _ _ iv_used) as He.
  rewrite list_lookup_fmap in He. destruct (vu_ring _ !! Z.to_nat (i mod QUEUE_SIZE)) as [e|] eqn:Ee; [|done].
  injection He as He. pose proof (slot_range QUEUE_SIZE queue_size_range i) as Hslot.
  eapply wp_lift; [apply load_ok; [lia|exact Ee]|]. rewrite He. wp_step.
  apply (wp_load_desc _ _ _ _ (proj1 Rh) Hd0). wp_step. apply wp_assert; [done|]. wp_step. apply wp_assert; [done|]. wp_step.
  destruct (lookup_lt_is_Some_2 (vb_headers u1) (Z.to_nat (i mod QUEUE_SIZE))) as [h Eh]; [lia|].
  eapply wp_lift; [apply load_ok; [lia|exact Eh]|]. cbn [vd_next]. wp_step. eapply wp_lift; [by apply umod_ok|].
  wp_step. rewrite Z.mod_small by done. apply (wp_load_desc _ _ _ _ (proj1 Rd) Hd1). wp_step.
  apply (wp_load_desc _ _ _ _ (proj1 Rd) Hd1). wp_step.
  eapply wp_lift; [apply load_ok; [by destruct Rh|rewrite !Forall_app, Forall_cons in iv_ids; by apply iv_ids]|].
  assert (u16 (jb_len (job_of (fy_req t)) / BLK_TRANSFER_SIZE) = br_count (fy_req t)) as Ecnt.
  { apply req_ok_facts in Hok as (_ & Hc & _). cbn [job_of jb_len]. unfold BLK_TRANSFER_SIZE.
    rewrite Z.mul_comm, Z.div_mul by lia. by apply u16_small. }
  cbn [vd_next vd_len]. rewrite Ecnt. eapply (retire_spec _ _ _ _ _ _ t l); [done..|].
  intros u' HI' Es Eq. destruct (inv_completion _ _ _ _ _ _ _ _ HI Eu) as (d & Hc & Hin & Hf).
  eapply HQ; [exact HI'|exact Ep| |exact Eq|exact Es]. exists d, (fy_req t). eexists.
  split_and!; [done..|unfold status_said; by rewrite Eh|done].
Qed.
(** ** The interrupt handler *)

Lemma inv_events s i n nt g u x : vblk_inv cfg s i n nt g u -> vblk_inv cfg s i n nt g (set_vb_events x u).
Proof. intros []. by split. Qed.
Lemma inv_last s s' i n nt g u : vblk_inv cfg s i n nt g u -> vblk_inv cfg s' i n nt g (set_vb_last_seen_used s' u).
Proof. intros []. by split. Qed.
Lemma inv_all_seen s i n nt g u : vblk_inv cfg s i n nt g u -> vblk_inv cfg s i (length (g_used g)) nt g u.
Proof. intros []. split; try done. by left. Qed.

Lemma vblk_look_quiet u : vb_script u = [] -> look cfg u = u.
Proof. intros E. unfold look. by rewrite E. Qed.

(** The loop from the used entry [i0] in [u0], with nothing happening beside:
    the first response is that to [i0]. *)
Definition in_order (i0 : Z) u0 (i : Z) u : Prop :=
  vb_script u0 = [] -> vb_script u = [] /\
    (i = i0 /\ u = u0 \/ exists p, answers i0 u0 p /\ blk_resps (vb_queue u0) ++ [p] `prefix_of` blk_resps (vb_queue u)).

Lemma in_order_step i0 u0 i u u' p :
  in_order i0 u0 i u -> answers i (look cfg u) p -> blk_resps (vb_queue u') = blk_resps (vb_queue (look cfg u)) ++ [p] ->
  vb_script u' = vb_script (look cfg u) -> in_order i0 u0 (u16 (i + 1)) u'.
Proof.
  intros H Ha Er Es E0. destruct (H E0) as [Eq Hor]. rewrite (vblk_look_quiet u Eq) in *. split; [congruence|right].
  destruct Hor as [[-> ->]|(p0 & Hp0 & Hpre)].
  - exists p. by rewrite Er.
  - exists p0. split; [done|]. rewrite Er. by apply prefix_app_r.
Qed.

Lemma handle_response_spec s n nt g u (Q : unit -> vblk -> Prop) :
  vblk_inv cfg s s n nt g u ->
  (forall s' g' u', vblk_inv cfg s' s' 0 nt g' u' -> g_prep g' = g_prep g ->
     (vb_script u = [] -> vb_script u' = [] /\ ((0 < n)%nat -> exists p, answers s u p /\
        blk_resps (vb_queue u) ++ [p] `prefix_of` blk_resps (vb_queue u'))) -> Q tt u') ->
  wp (handle_response cfg) u Q.
Proof.
  intros HI0 HQ. assert (vb_script u = [] -> look cfg u = u) as Hquiet by apply vblk_look_quiet.
  destruct (look_kept cfg _ _ _ _ _ _ HI0) as (g1 & HI & Ep & _). pose proof (iv_n _ _ _ _ _ _ _ HI) as Hn.
  apply inv_all_seen in HI.
  unfold handle_response. do 7 wp_step. rewrite (iv_last _ _ _ _ _ _ _ HI0). clear HI0.
  set (u1 := look cfg u) in *. clearbody u1. pose proof (inv_slots _ _ _ _ _ _ _ HI) as Hs1.
  assert (vu_idx (vq_used (vb_virtq u1)) = u16 (s + Z.of_nat (length (g_used g1)))) as Ecur by apply HI.
  set (curr := vu_idx (vq_used (vb_virtq u1))) in *. wp_step.
  set (I := fun p : vblk * (Z * bool) => exists m g', vblk_inv cfg s p.2.1 m nt g' p.1 /\ g_prep g' = g_prep g /\
    curr = u16 (p.2.1 + Z.of_nat m) /\ in_order s u1 p.2.1 p.1).
  assert (forall p m g', vblk_inv cfg s p.2.1 m nt g' (p : vblk * (Z * bool)).1 -> curr = u16 (p.2.1 + Z.of_nat m) ->
    Z.to_nat (u16 (curr - p.2.1)) = m) as Hmu.
  { intros p m g' Hp E. pose proof (inv_slots _ _ _ _ _ _ _ Hp) as Hs. pose proof (iv_n _ _ _ _ _ _ _ Hp).
    unfold flying in Hs. rewrite !length_app in Hs. pose proof (iv_i _ _ _ _ _ _ _ Hp). unfold is_u16 in *. uint_lia. }
  apply (wp_loop I).
  - exists (length (g_used g1)), g1. cbn [fst snd]. split_and!; [done..|]. intros E. split; [done|by left].
  - intros [v [i b]] (m & g' & Hp & Ep' & Em & Hin) Hne%negb_true_iff%Z.eqb_neq. pose proof (Hmu (v, (i, b)) m g' Hp Em) as Hm. cbn [fst snd] in *.
    destruct m as [|m].
    { exfalso. apply Hne. rewrite Em, Z.add_0_r, u16_small; [done|]. apply Hp. }
    unfold handle_response_body. do 4 wp_step. cbn [fst snd]. eapply vblk_respond_spec; [done|].
    intros g2 v2 p Hp2 Ep2 Ha Er Es. wp_step. cbn [fst snd].
    assert (curr = u16 (u16 (i + 1) + Z.of_nat m)) as Em2 by (rewrite u16_add_u16, Em; f_equal; lia).
    pose proof (Hmu (v2, (u16 (i + 1), true)) m g2 Hp2 Em2) as Hm2. cbn [fst snd] in Hm2. split; [|lia].
    exists m, g2. split_and!; [done|congruence|done|by eapply in_order_step].
  - intros [v [i b]] (m & g' & Hp & Ep' & Em & Hin) Heq%negb_false_iff%Z.eqb_eq. pose proof (Hmu (v, (i, b)) m g' Hp Em) as Hm. cbn [fst snd] in *.
    rewrite Heq, Z.sub_diag in Hm. cbn in Hm. subst m.
    assert (forall x, vblk_inv cfg i i 0 nt g' (set_vb_last_seen_used i (set_vb_events x v))) as Hend
      by (intros x; eapply inv_last, inv_events; done).
    assert (forall x, vb_script u = [] -> vb_script (set_vb_last_seen_used i (set_vb_events x v)) = [] /\
      ((0 < n)%nat -> exists p, answers s u p /\
        blk_resps (vb_queue u) ++ [p] `prefix_of` blk_resps (vb_queue (set_vb_last_seen_used i (set_vb_events x v))))) as Hq.
    { intros x E. specialize (Hquiet E). rewrite <- Hquiet in E |- *. destruct (Hin E) as [Ev Hor]. split; [done|]. intros Hpos.
      destruct Hor as [[-> ->]|Hor]; [|done]. exfalso. rewrite Em, Z.add_0_r in Ecur.
      unfold flying in Hs1. rewrite !length_app in Hs1. pose proof (iv_i _ _ _ _ _ _ _ HI). unfold is_u16 in *.
      assert (length (g_used g1) = 0%nat) by uint_lia. lia. }
    destruct b; cbn [when]; unfold emit; repeat wp_step.
    + eapply HQ; [apply Hend|done|apply Hq].
    + eapply HQ; [apply (Hend (vb_events v))|done|apply (Hq (vb_events v))].
Qed.
End specs.
