(* ===== verification/VirtioBlkReq.v ===== *)
(** * The virtio block driver: requests

    How [handle_request] takes requests from the queue while there are three
    descriptors for one, makes their chains available, and answers FLUSH and
    BARRIER. *)

From S2P Require Import Prelude Fifo RingQueue Microkit Ialloc BlkQueue VirtQueue VirtioBlk VirtioBlkInv VirtioBlkSpec.

Section requests.
Context (cfg : vblk_setup).
Implicit Types (u : vblk) (g : stages) (t : fly).

(** The headers are in memory that the device can address. *)
Hypothesis headers_fit : 0 <= vs_headers_paddr cfg /\ vs_headers_paddr cfg + QUEUE_SIZE * sizeof_virtio_blk_req < 2 ^ 64.
Hypothesis capacity_fits : is_u64 (vc_capacity (vs_config cfg)).

(** A request taken from the queue, with three descriptors. *)
Definition prepared g t fl : stages :=
  mk_stages fl [t] (g_wait g) (g_dev g) (g_used g) (g_fetched g) (g_past g) (g_answered g).

Definition hdr_of t : virtq_desc := mk_virtq_desc (vs_headers_paddr cfg + fy_head t * 24) 16 1 (fy_data t).
Definition data_of t : virtq_desc :=
  mk_virtq_desc (br_io_or_offset (fy_req t)) (4096 * br_count (fy_req t))
    (if bool_decide (br_code (fy_req t) = BLK_REQ_READ) then 3 else 1) (fy_foot t).
Definition foot_of t : virtq_desc := mk_virtq_desc (vs_headers_paddr cfg + fy_head t * 24 + 16) 1 2 0.

Definition with_descs t (ds : list virtq_desc) : list virtq_desc :=
  <[Z.to_nat (fy_foot t) := foot_of t]> (<[Z.to_nat (fy_data t) := data_of t]> (<[Z.to_nat (fy_head t) := hdr_of t]> ds)).
Definition with_header t st (hs : list virtio_blk_req) : list virtio_blk_req :=
  <[Z.to_nat (fy_head t) := mk_virtio_blk_req (if bool_decide (br_code (fy_req t) = BLK_REQ_READ) then 0 else 1)
                             (br_block_number (fy_req t) * 8) st]> hs.

Definition prepare t st ia h (u : vblk) : vblk :=
  let q := vb_virtq u in
  let a := vq_avail q in
  set_vb_virtq (mk_virtq (vq_num q) (with_descs t (vq_desc q))
      (mk_virtq_avail (va_idx a) (<[Z.to_nat (va_idx a mod QUEUE_SIZE) := fy_head t]> (va_ring a))) (vq_used q))
    (set_vb_headers (with_header t st (vb_headers u)) (set_vb_ialloc ia (set_vb_queue h u))).

(** Descriptors of different requests differ. *)
Lemma fly_ok_other ds hs t st t' :
  fly_ok cfg ds hs t' -> (forall x y, x ∈ fy_idx t -> y ∈ fy_idx t' -> Z.to_nat x <> Z.to_nat y) ->
  fly_ok cfg (with_descs t ds) (with_header t st hs) t'.
Proof.
  intros [] Hne. unfold with_descs, with_header. split; try done.
  1-3: by rewrite !list_lookup_insert_ne by (apply Hne; unfold fy_idx; set_solver).
  destruct fk_hdr as [st' E]. exists st'. by rewrite list_lookup_insert_ne by (apply Hne; unfold fy_idx; set_solver).
Qed.

Lemma fly_ok_self ds hs t st :
  req_ok cfg (fy_req t) = true -> is_rw (fy_req t) = true -> NoDup (fy_idx t) ->
  Forall (fun x => 0 <= x < Z.of_nat (length ds)) (fy_idx t) -> length hs = length ds ->
  fly_ok cfg (with_descs t ds) (with_header t st hs) t.
Proof.
  unfold fy_idx. rewrite !NoDup_cons, !Forall_cons. intros Hok Hrw (H1 & H2 & _) (R1 & R2 & R3 & _) Hl.
  assert (fy_head t <> fy_data t /\ fy_head t <> fy_foot t /\ fy_data t <> fy_foot t) as (N1 & N2 & N3) by set_solver.
  unfold with_descs, with_header. split; try done.
  - rewrite !list_lookup_insert_ne by lia. by rewrite list_lookup_insert_eq by lia.
  - rewrite list_lookup_insert_ne by lia. by rewrite list_lookup_insert_eq by (rewrite length_insert; lia).
  - by rewrite list_lookup_insert_eq by (rewrite !length_insert; lia).
  - exists st. by rewrite list_lookup_insert_eq by lia.
Qed.
Lemma owned_apart s i n nt g u t rest :
  vblk_inv cfg s i n nt g u -> owned g ≡ₚ fy_idx t ++ rest ->
  forall x y, x ∈ fy_idx t -> y ∈ rest -> Z.to_nat x <> Z.to_nat y.
Proof.
  intros HI E x y Hx Hy. pose proof (inv_nodup _ _ _ _ _ _ _ HI) as Hnd. rewrite E, NoDup_app in Hnd.
  assert (0 <= x < QUEUE_SIZE) by (eapply inv_range; [done|]; rewrite E; apply elem_of_app; by left).
  assert (0 <= y < QUEUE_SIZE) by (eapply inv_range; [done|]; rewrite E; apply elem_of_app; by right).
  destruct Hnd as (_ & Hn & _). assert (x <> y) by (intros ->; by apply (Hn y)). lia.
Qed.

Lemma prepare_inv s i n nt g u t fl st ia h :
  vblk_inv cfg s i n nt g u -> g_prep g = [] -> g_free g = fy_idx t ++ fl ->
  blk_reqs (vb_queue u) = fy_req t :: blk_reqs h -> is_rw (fy_req t) = true ->
  blk_wf h -> blk_resps h = blk_resps (vb_queue u) -> bh_capacity h = bh_capacity (vb_queue u) ->
  frees (set_vb_ialloc ia u) fl -> vblk_inv cfg s i n nt (prepared g t fl) (prepare t st ia h u).
Proof.
  intros HI Ep Ef Er Hrw Hh E1 E2 Hia. pose proof (inv_nodup _ _ _ _ _ _ _ HI) as Hnd. pose proof (inv_range _ _ _ _ _ _ _ HI) as Hrange.
  pose proof (inv_descs _ _ _ _ _ _ _ HI) as Hcount.
  assert (owned g ≡ₚ fy_idx t ++ fl ++ concat (map fy_idx (flying g))) as Hown by (unfold owned; by rewrite Ef, app_assoc).
  pose proof (owned_apart _ _ _ _ _ _ _ _ HI Hown) as Hapart.
  assert (flying (prepared g t fl) = t :: flying g) as Efl by (unfold flying; by rewrite Ep).
  destruct HI. split; try done; cbn [prepare vb_virtq vb_headers vb_queue vb_peer vb_device set_vb_virtq set_vb_headers set_vb_ialloc set_vb_queue
    vq_desc vq_avail vq_used va_ring va_idx].
  - unfold with_descs. by rewrite !length_insert.
  - by rewrite length_insert.
  - unfold with_header. by rewrite length_insert.
  - transitivity (owned g); [|done]. rewrite Hown. unfold owned. rewrite Efl. cbn [map concat prepared g_free]. solve_Permutation.
  - rewrite Efl. apply Forall_cons. split.
    + apply fly_ok_self; [|done| | |lia].
      * rewrite iv_sent, Ep, Er in iv_oks. cbn [map app] in iv_oks. rewrite Forall_app, Forall_cons in iv_oks. tauto.
      * rewrite Hown, NoDup_app in Hnd. tauto.
      * apply Forall_forall. intros x Hx. rewrite iv_desc. apply Hrange. rewrite Hown. set_solver.
    + apply Forall_forall. intros t' Ht'. apply fly_ok_other; [by apply (proj1 (Forall_forall _ _) iv_fly)|].
      intros x y Hx Hy. apply Hapart; [done|]. apply elem_of_app. right. apply list_elem_of_In, in_concat.
      exists (fy_idx t'). split; [by apply in_map, list_elem_of_In|by apply list_elem_of_In].
  - cbn [prepared g_wait g_prep]. rewrite Ep, app_nil_r in iv_avail. rewrite map_app. cbn [map].
    rewrite iv_avail_idx, u16_mod_num by eauto. rewrite <- (length_map fy_head (g_wait g)).
    apply ring_holds_push; [eauto|done| |done]. rewrite length_map. unfold flying in Hcount. rewrite Ef, !length_app in Hcount. cbn in Hcount. unfold QUEUE_SIZE. lia.
  - rewrite iv_sent, Ep, Er. done.
  - by rewrite E1.
  - by rewrite E2.
Qed.

(** The descriptor becomes available. *)
Definition published g t : stages :=
  mk_stages (g_free g) [] (g_wait g ++ [t]) (g_dev g) (g_used g) (g_fetched g) (g_past g ++ [fy_req t]) (g_answered g).

Definition publish t (u : vblk) : vblk :=
  let a := vq_avail (vb_virtq u) in
  set_vb_header_to_id (<[Z.to_nat (fy_head t) := br_id (fy_req t)]> (vb_header_to_id u))
    (set_vb_virtq (set_vq_avail (mk_virtq_avail (u16 (va_idx a + 1)) (va_ring a)) (vb_virtq u)) u).

Lemma publish_inv s i n nt g u t :
  vblk_inv cfg s i n nt g u -> g_prep g = [t] -> vblk_inv cfg s i n true (published g t) (publish t u).
Proof.
  intros HI Ep. pose proof (inv_range _ _ _ _ _ _ _ HI) as Hrange.
  assert (flying (published g t) ≡ₚ flying g) as Hfl by (unfold flying; cbn [published g_prep g_wait g_dev g_used]; rewrite Ep; solve_Permutation).
  set (rest := g_wait g ++ g_dev g ++ g_used g).
  assert (owned g ≡ₚ fy_idx t ++ g_free g ++ concat (map fy_idx rest)) as Hown.
  { unfold owned, flying. rewrite Ep. cbn [map concat app]. rewrite Permutation_app_swap_app. done. }
  pose proof (owned_apart _ _ _ _ _ _ _ _ HI Hown) as Hapart.
  assert (0 <= fy_head t < QUEUE_SIZE) as Hh by (apply Hrange; rewrite Hown; unfold fy_idx; set_solver).
  assert (is_rw (fy_req t) = true) as Hrw.
  { assert (t ∈ flying g) as Ht by (unfold flying; rewrite Ep; set_solver). by destruct (proj1 (Forall_forall _ _) (iv_fly _ _ _ _ _ _ _ HI) t Ht). }
  assert (rws (g_past g ++ [fy_req t]) = rws (g_past g) ++ [fy_req t] /\ others (g_past g ++ [fy_req t]) = others (g_past g)) as [Ew Eo].
  { unfold rws, others. rewrite !filter_app, !filter_cons. rewrite decide_True, decide_False by congruence. by rewrite app_nil_r. }
  destruct HI. split; try done; cbn [publish vb_virtq vb_headers vb_queue vb_peer vb_device vb_header_to_id set_vb_virtq set_vb_headers set_vb_ialloc set_vb_queue
    set_vb_header_to_id vq_desc vq_avail vq_used va_ring va_idx set_vq_avail].
  - by rewrite length_insert.
  - transitivity (owned g); [by apply perm_flying|done].
  - by rewrite Hfl.
  - cbn [published g_wait g_dev g_used]. assert ((g_wait g ++ [t]) ++ g_dev g ++ g_used g ≡ₚ t :: rest) as -> by (unfold rest; solve_Permutation).
    apply Forall_cons. split; [apply list_lookup_insert_eq; lia|]. apply Forall_forall. intros t' Ht'.
    rewrite list_lookup_insert_ne; [by apply (proj1 (Forall_forall _ _) iv_ids)|].
    apply Hapart; [unfold fy_idx; set_solver|]. apply elem_of_app. right. apply list_elem_of_In, in_concat.
    exists (fy_idx t'). split; [by apply in_map, list_elem_of_In|by left].
  - cbn [published g_wait g_prep]. by rewrite app_nil_r, <- Ep.
  - cbn [published g_wait]. rewrite iv_avail_idx, u16_add_u16, length_app. f_equal. cbn. lia.
  - cbn [published g_past g_fetched g_wait]. by rewrite Ew, iv_rws, map_app, app_assoc.
  - cbn [published g_past g_prep]. rewrite iv_sent, Ep. by rewrite <- app_assoc.
  - cbn [published g_past g_fetched g_answered]. by rewrite Eo.
  - by right; right.
Qed.
Lemma next_req_ok s i n nt g u req l :
  vblk_inv cfg s i n nt g u -> g_prep g = [] -> blk_reqs (vb_queue u) = req :: l -> req_ok cfg req = true.
Proof.
  intros HI Ep Er. pose proof (iv_oks _ _ _ _ _ _ _ HI) as H. rewrite (iv_sent _ _ _ _ _ _ _ HI), Ep, Er in H.
  cbn [map app] in H. rewrite Forall_app, Forall_cons in H. tauto.
Qed.

Lemma write_chain_spec u t (Q : unit -> vblk -> Prop) :
  req_ok cfg (fy_req t) = true -> is_rw (fy_req t) = true -> fy_head t <> fy_data t ->
  Z.of_nat (length (vb_headers u)) = QUEUE_SIZE -> Z.of_nat (length (vq_desc (vb_virtq u))) = QUEUE_SIZE ->
  0 <= fy_head t < QUEUE_SIZE -> 0 <= fy_data t < QUEUE_SIZE -> 0 <= fy_foot t < QUEUE_SIZE ->
  (forall st, Q tt (set_vb_virtq (set_vq_desc (with_descs t (vq_desc (vb_virtq u))) (vb_virtq u))
                      (set_vb_headers (with_header t st (vb_headers u)) u))) ->
  wp (write_chain cfg (fy_req t) (fy_head t) (fy_data t) (fy_foot t)) u Q.
Proof.
  intros Hok Hrw Hne Lh Ld R1 R2 R3 HQ. destruct (req_ok_facts _ _ Hok) as (_ & Hc & _ & _ & Hb). specialize (Hb Hrw).
  unfold is_u64, is_u16, QUEUE_SIZE, sizeof_virtio_blk_req in *.
  unfold write_chain, VIRTIO_BLK_SECTOR_SIZE, VIRTIO_BLK_REQ_HDR_SIZE, sizeof_virtio_blk_req. change (BLK_TRANSFER_SIZE / 512) with 8.
  rewrite (u64_small (br_block_number (fy_req t) * 8)), (u64_small (br_count (fy_req t) * 8)) by (unfold is_u64; lia).
  rewrite (u16_small (fy_data t)), (u16_small (fy_foot t)) by (unfold is_u16; lia).
  rewrite (u64_small (vs_headers_paddr cfg + fy_head t * 24)) by (unfold is_u64; lia).
  replace (512 * (br_count (fy_req t) * 8)) with (4096 * br_count (fy_req t)) by lia. rewrite u32_small by (unfold is_u32; lia).
  destruct (lookup_lt_is_Some_2 (vb_headers u) (Z.to_nat (fy_head t))) as [hdr Eh]; [lia|]. do 3 wp_step.
  eapply wp_lift; [apply load_ok; [lia|exact Eh]|]. wp_step. eapply wp_lift; [apply store_ok; lia|]. do 2 wp_step.
  wp_step. apply wp_store_desc; [change (0 <= fy_head t < Z.of_nat (length (vq_desc (vb_virtq u)))); lia|].
  wp_step. apply wp_store_desc; cbn [vb_virtq set_vb_virtq vq_desc set_vq_desc set_vb_headers]; [rewrite length_insert; lia|].
  wp_step. eapply wp_load_desc; cbn [vb_virtq set_vb_virtq vq_desc set_vq_desc set_vb_headers]; [lia| |].
  { rewrite list_lookup_insert_ne by lia. apply list_lookup_insert_eq. lia. }
  apply wp_store_desc; cbn [vb_virtq set_vb_virtq vq_desc set_vq_desc set_vb_headers]; [rewrite !length_insert; lia|].
  cbn [vd_addr]. rewrite (u64_small (vs_headers_paddr cfg + fy_head t * 24 + 16)) by (unfold is_u64; lia).
  apply (HQ (hr_status hdr)).
Qed.

Lemma make_available_spec s i n nt g u v t (Q : unit -> vblk -> Prop) :
  vblk_inv cfg s i n nt g u -> g_prep g = [t] ->
  u = set_vb_virtq (set_vq_avail (mk_virtq_avail (va_idx (vq_avail (vb_virtq v)))
        (<[Z.to_nat (va_idx (vq_avail (vb_virtq v)) mod QUEUE_SIZE) := fy_head t]> (va_ring (vq_avail (vb_virtq v))))) (vb_virtq v)) v ->
  (forall g' u' k, vblk_inv cfg s i n true g' u' -> g_prep g' = [] -> reqs_grow k u u' ->
     (puts (concat (vb_script u)) = k + puts (concat (vb_script u')))%nat -> Q tt u') ->
  wp (make_available cfg (fy_head t) (br_id (fy_req t))) v Q.
Proof.
  intros HI Ep Eu HQ. assert (0 <= fy_head t < QUEUE_SIZE) as Rh.
  { eapply inv_range; [done|]. apply (inv_fly_in g t); [unfold flying; rewrite Ep; set_solver|unfold fy_idx; set_solver]. }
  assert (vq_num (vb_virtq v) = QUEUE_SIZE) as Hn by (rewrite <- (iv_num _ _ _ _ _ _ _ HI), Eu; done).
  assert (Z.of_nat (length (va_ring (vq_avail (vb_virtq v)))) = QUEUE_SIZE) as La.
  { rewrite <- (iv_avail_len _ _ _ _ _ _ _ HI), Eu. cbn [vb_virtq set_vb_virtq vq_avail set_vq_avail va_ring]. by rewrite length_insert. }
  pose proof (slot_range QUEUE_SIZE queue_size_range (va_idx (vq_avail (vb_virtq v)))) as Hslot.
  unfold make_available. do 3 wp_step. rewrite Hn. eapply wp_lift; [by apply umod_ok|]. wp_step.
  rewrite u16_small by (unfold is_u16, QUEUE_SIZE in *; lia). eapply wp_lift; [apply store_ok; lia|]. do 4 wp_step. rewrite <- Eu.
  destruct (look_kept cfg _ _ _ _ _ _ HI) as (g3 & HI3 & Ep3 & _). destruct (look_reqs cfg _ _ _ _ _ _ HI) as (k & Hk & Hpk).
  set (u3 := look cfg u) in *. clearbody u3. pose proof (iv_ids_len _ _ _ _ _ _ _ HI3) as Li.
  do 5 wp_step. eapply wp_lift; [apply store_ok; change (0 <= fy_head t < Z.of_nat (length (vb_header_to_id u3))); lia|]. wp_step.
  apply (HQ (published g3 t) (publish t u3) k); [eapply publish_inv; [done|congruence]|done..].
Qed.

Lemma submit_spec s i n nt g u req h x1 x2 x3 fl (Q : unit -> vblk -> Prop) :
  vblk_inv cfg s i n nt g u -> g_prep g = [] -> g_free g = x1 :: x2 :: x3 :: fl ->
  blk_reqs (vb_queue u) = req :: blk_reqs h -> is_rw req = true ->
  blk_wf h -> blk_resps h = blk_resps (vb_queue u) -> bh_capacity h = bh_capacity (vb_queue u) ->
  (forall g' u' k, vblk_inv cfg s i n true g' u' -> g_prep g' = [] -> reqs_grow k (set_vb_queue h u) u' ->
     (puts (concat (vb_script u)) = k + puts (concat (vb_script u')))%nat -> Q tt u') ->
  wp (submit cfg req) (set_vb_queue h u) Q.
Proof.
  intros HI Ep Ef Er Hrw Hh E1 E2 HQ. set (t := mk_fly x1 x2 x3 req).
  pose proof (next_req_ok _ _ _ _ _ _ _ _ HI Ep Er) as Hok.
  assert (x1 <> x2) as Hne.
  { pose proof (inv_nodup _ _ _ _ _ _ _ HI) as H. unfold owned in H. rewrite Ef, NoDup_app, !NoDup_cons in H. set_solver. }
  destruct (req_ok_facts _ _ Hok) as (_ & Hc & _ & _ & Hb). specialize (Hb Hrw).
  pose proof capacity_fits as Hcap. unfold is_u64, is_u16 in *.
  unfold submit. change (BLK_TRANSFER_SIZE / VIRTIO_BLK_SECTOR_SIZE) with 8. rewrite !u64_small by (unfold is_u64; rewrite ?u64_small; unfold is_u64; lia).
  wp_step. apply wp_assert; [apply Z.leb_le; lia|].
  wp_step. eapply wp_alloc_desc; [rewrite <- Ef; exact (iv_ialloc _ _ _ _ _ _ _ HI)|]. intros ia1 F1 R1.
  wp_step. eapply wp_alloc_desc; [exact F1|]. intros ia2 F2 R2.
  wp_step. eapply wp_alloc_desc; [exact F2|]. intros ia3 F3 R3.
  wp_step. apply (write_chain_spec _ t); [done..|by apply HI|by apply HI|done|done|done|]. intros st.
  pose proof (prepare_inv _ _ _ _ _ _ t fl st ia3 h HI Ep Ef Er Hrw Hh E1 E2 F3) as HI2.
  by eapply (make_available_spec _ _ _ _ _ _ _ t); [exact HI2|..].
Qed.

(** FLUSH and BARRIER are answered at once. *)
Lemma answered_inv s i n nt g u req h q p e :
  vblk_inv cfg s i n nt g u -> g_prep g = [] -> is_rw req = false ->
  blk_reqs (vb_queue u) = req :: blk_reqs h -> blk_wf q -> blk_resps q = blk_resps (vb_queue u) ++ [p] ->
  blk_reqs q = blk_reqs h -> bh_capacity q = bh_capacity (vb_queue u) -> resp_key p = answer_of req ->
  vblk_inv cfg s i n nt
    (mk_stages (g_free g) [] (g_wait g) (g_dev g) (g_used g) (g_fetched g) (g_past g ++ [req]) (g_answered g))
    (set_vb_events e (set_vb_queue q u)).
Proof.
  intros HI Ep Hrw Er Hq E1 E2 E3 Hkey.
  assert (rws (g_past g ++ [req]) = rws (g_past g) /\ others (g_past g ++ [req]) = others (g_past g) ++ [req]) as [Ew Eo].
  { unfold rws, others. rewrite !filter_app, !filter_cons. rewrite decide_False, decide_True by congruence. by rewrite app_nil_r. }
  destruct g as [fr pr wa de us fe pa an]. cbn [g_prep] in Ep. subst pr. destruct HI. split; try done;
    cbn [vb_queue vb_peer set_vb_events set_vb_queue g_past g_prep g_fetched g_answered g_wait map app] in *.
  - by rewrite Ew.
  - by rewrite iv_sent, Er, E2, <- app_assoc.
  - rewrite Eo, E1, app_assoc, map_app, iv_resps. cbn [map]. rewrite Hkey, !map_app. cbn [map]. solve_Permutation.
  - by rewrite E3.
Qed.

Definition request_inv (s i : Z) (n : nat) (p : vblk * bool) : Prop :=
  exists g, vblk_inv cfg s i n p.2 g p.1 /\ g_prep g = [].

Lemma request_more_spec s i n nt g u :
  vblk_inv cfg s i n nt g u ->
  request_more u = bool_decide (blk_reqs (vb_queue u) <> [] /\ (3 <= length (g_free g))%nat).
Proof.
  intros HI. destruct (iv_ialloc _ _ _ _ _ _ _ HI) as [Hwf _]. unfold request_more.
  rewrite blk_queue_empty_req_spec by apply HI. unfold ialloc_num_free. rewrite (ia_num _ _ Hwf).
  apply eq_bool_prop_intro. rewrite !Is_true_true, andb_true_iff, negb_true_iff, bool_decide_eq_false, bool_decide_eq_true, Z.leb_le.
  split; intros [? ?]; split; (done || lia).
Qed.

Lemma request_work_spec s i n nt g u :
  vblk_inv cfg s i n nt g u -> request_work u = (length (blk_reqs (vb_queue u)) + puts (concat (vb_script u)))%nat.
Proof. intros HI. unfold request_work. rewrite blk_queue_length_req_spec by apply HI. by rewrite Nat2Z.id. Qed.

(** The rest of an iteration, from the state after the request was dequeued. *)
Definition iterates (s i : Z) (n : nat) u (m : M (vblk * bool) unit) (p : vblk * bool) : Prop :=
  wp m p (fun _ p' => request_inv s i n p' /\ (request_work p'.1 < length (blk_reqs (vb_queue u)) + puts (concat (vb_script u)))%nat).

Lemma submit_iterates s i n nt g u req h :
  vblk_inv cfg s i n nt g u -> g_prep g = [] -> (3 <= length (g_free g))%nat ->
  blk_reqs (vb_queue u) = req :: blk_reqs h -> is_rw req = true ->
  blk_wf h -> blk_resps h = blk_resps (vb_queue u) -> bh_capacity h = bh_capacity (vb_queue u) ->
  iterates s i n u (on_state (submit cfg req);; on_state (modify (look cfg));; set_local true) (set_vb_queue h u, nt).
Proof.
  intros HI Ep Hfree Er Hrw Hh E1 E2. destruct (g_free g) as [|x1 [|x2 [|x3 fl]]] eqn:Ef; cbn [length] in Hfree; try lia.
  unfold iterates. do 2 wp_step. eapply submit_spec; [done|done|exact Ef|done..|]. intros g1 u1 k HI1 Ep1 Hk Hp.
  do 4 wp_step. cbn [fst snd]. destruct (look_kept cfg _ _ _ _ _ _ HI1) as (g2 & HI2 & Ep2 & _).
  destruct (look_reqs cfg _ _ _ _ _ _ HI1) as (k2 & [Hk2 _] & Hp2). split; [exists g2; by rewrite Ep2|].
  rewrite (request_work_spec _ _ _ _ _ _ HI2). destruct Hk as [Hk _]. cbn [vb_queue set_vb_queue] in Hk. rewrite Er. cbn [length]. lia.
Qed.

Lemma answer_iterates s i n nt g u req h :
  vblk_inv cfg s i n nt g u -> g_prep g = [] ->
  blk_reqs (vb_queue u) = req :: blk_reqs h -> is_rw req = false ->
  blk_wf h -> blk_resps h = blk_resps (vb_queue u) -> bh_capacity h = bh_capacity (vb_queue u) ->
  iterates s i n u (on_state (answer_at_once cfg req);; on_state (modify (look cfg))) (set_vb_queue h u, nt).
Proof.
  intros HI Ep Er Hrw Hh E1 E2. unfold iterates, answer_at_once, on_queue. do 4 wp_step. cbn [vb_queue set_vb_queue].
  apply blk_enqueue_resp_spec; [done| |].
  { pose proof (inv_count _ _ _ _ _ _ _ HI) as Hc. pose proof (iv_room _ _ _ _ _ _ _ HI). rewrite Er in Hc. cbn [length] in Hc. rewrite E1, E2. lia. }
  intros q Hq F1 F2 F3. rewrite E1 in F1. wp_step. apply wp_assert; [done|]. unfold emit. do 3 wp_step. cbn [fst snd].
  assert (resp_key (mk_blk_resp BLK_RESP_OK 0 (br_id req)) = answer_of req) as Hkey by (unfold answer_of; by rewrite Hrw).
  pose proof (answered_inv _ _ _ _ _ _ req h q _ (vb_events u ++ [Notify (vs_virt cfg)]) HI Ep Hrw Er Hq F1 F2 ltac:(congruence) Hkey) as HI1.
  destruct (look_kept cfg _ _ _ _ _ _ HI1) as (g2 & HI2 & Ep2 & _). destruct (look_reqs cfg _ _ _ _ _ _ HI1) as (k & [Hk _] & Hp).
  split; [by exists g2|]. eapply Nat.le_lt_trans; [apply Nat.eq_le_incl; exact (request_work_spec _ _ _ _ _ _ HI2)|].
  cbn [vb_queue set_vb_events set_vb_queue vb_script] in Hk, Hp.
  rewrite Er. rewrite F2 in Hk. cbn [length]. lia.
Qed.

Lemma handle_request_body_spec s i n p :
  request_inv s i n p -> request_more p.1 = true ->
  wp (handle_request_body cfg) p (fun _ p' => request_inv s i n p' /\ (request_work p'.1 < request_work p.1)%nat).
Proof.
  destruct p as [u nt]. intros (g & HI & Ep) Hmore. cbn [fst snd] in *.
  rewrite (request_more_spec _ _ _ _ _ _ HI) in Hmore. apply bool_decide_eq_true in Hmore as [Hne Hfree].
  destruct (nil_or_cons (blk_reqs (vb_queue u))) as [|(req & l & Er)]; [done|].
  pose proof (next_req_ok _ _ _ _ _ _ _ _ HI Ep Er) as Hok.
  rewrite (request_work_spec _ _ _ _ _ _ HI).
  unfold handle_request_body. do 4 wp_step. unfold on_queue. wp_step. eapply blk_dequeue_req_spec; [by apply HI|exact Er|].
  intros h Hh E1 E2 E3. wp_step. apply wp_assert; [done|].
  rewrite <- E1 in Er.
  change (iterates s i n u (match br_code req with
    | BLK_REQ_READ | BLK_REQ_WRITE => on_state (submit cfg req);; on_state (modify (look cfg));; set_local true
    | BLK_REQ_FLUSH | BLK_REQ_BARRIER => on_state (answer_at_once cfg req);; on_state (modify (look cfg))
    | BLK_REQ_OTHER _ => on_state (modify (look cfg))
    end) (set_vb_queue h u, nt)).
  pose proof (eq_refl (is_rw req)) as Hrw. unfold is_rw at 2 in Hrw. destruct (br_code req) eqn:Ec.
  1-2: by eapply submit_iterates.
  1-2: by eapply answer_iterates.
  by destruct (req_ok_facts _ _ Hok) as (_ & _ & _ & Hno & _); destruct (Hno n0).
Qed.

(** The device is told. *)
Lemma kicked_inv s i n nt g u e :
  vblk_inv cfg s i n nt g u -> vblk_inv cfg s i n false g (set_vb_device (set_bd_kicked true (vb_device u)) (set_vb_events e u)).
Proof. intros []. split; try done. by right; left. Qed.

Lemma handle_request_spec s i n g u (Q : unit -> vblk -> Prop) :
  vblk_inv cfg s i n false g u -> g_prep g = [] ->
  (forall g' u', vblk_inv cfg s i n false g' u' -> g_prep g' = [] ->
     blk_reqs (vb_queue u') = [] \/ (length (g_free g') < 3)%nat -> Q tt u') ->
  wp (handle_request cfg) u Q.
Proof.
  intros HI Ep HQ. unfold handle_request. do 4 wp_step. destruct (look_kept cfg _ _ _ _ _ _ HI) as (g1 & HI1 & Ep1 & _).
  apply (wp_loop (request_inv s i n)).
  - exists g1. cbn [fst snd]. by rewrite Ep1.
  - intros p. apply handle_request_body_spec.
  - intros [v nt] (g2 & HI2 & Ep2) Hmore. cbn [fst snd] in *. rewrite (request_more_spec _ _ _ _ _ _ HI2), bool_decide_eq_false in Hmore.
    assert (blk_reqs (vb_queue v) = [] \/ (length (g_free g2) < 3)%nat) as Hdone.
    { destruct (decide (blk_reqs (vb_queue v) = [])); [by left|right]. apply not_le. intros H. apply Hmore. split; [done|lia]. }
    destruct nt; cbn [when]; unfold emit, on_device; repeat wp_step; [|by eapply HQ].
    eapply HQ; [exact (kicked_inv _ _ _ _ _ _ _ HI2)|done..].
Qed.
End requests.
