(* ===== verification/VirtioBlkSystem.v ===== *)
(** * The virtio block driver as a whole

    From initialisation on, over any sequence of notifications and of acts of
    the device and the virtualiser: what the device is asked to do, what the
    virtualiser is answered, and what the driver waits for. *)

From S2P Require Import Prelude Fifo Ring RingQueue Microkit Ialloc BlkQueue VirtQueue VirtioBlk VirtioBlkInv VirtioBlkSpec VirtioBlkReq.

Section system.
Context (cfg : vblk_setup).
Implicit Types (u : vblk) (g : stages).

(** What the driver asserts of its configuration and of the device, and what
    it relies on: the device accepts the features, the memory it is given is
    zero where the rings have their indices, and large enough, and the queue is
    empty. *)
Record setup_ok : Prop := {
  so_ok : vs_ok cfg = true;
  so_addresses : vs_headers_paddr cfg <> 0 /\ vs_headers_vaddr cfg <> 0 /\ vs_requests_paddr cfg <> 0 /\ vs_requests_vaddr cfg <> 0;
  so_regs : vm_magic (vs_regs cfg) = VIRTIO_MMIO_MAGIC_VALUE /\ vm_version (vs_regs cfg) = 2 /\ vm_device_id (vs_regs cfg) = 2;
  so_features : vm_features_ok (vs_regs cfg) = true;
  so_num_max : QUEUE_SIZE <= vm_queue_num_max (vs_regs cfg);
  so_metadata : virtq_size <= vs_metadata_size cfg;
  so_capacity : 8 <= vc_capacity (vs_config cfg) < 2 ^ 64;
  so_headers : 0 <= vs_headers_paddr cfg /\ vs_headers_paddr cfg + QUEUE_SIZE * sizeof_virtio_blk_req < 2 ^ 64;
  so_desc : Z.of_nat (length (mem_desc (vs_memory cfg) desc_off)) = QUEUE_SIZE;
  so_avail : va_idx (mem_avail (vs_memory cfg) avail_off) = 0 /\ Z.of_nat (length (va_ring (mem_avail (vs_memory cfg) avail_off))) = QUEUE_SIZE;
  so_used : vu_idx (mem_used (vs_memory cfg) used_off) = 0 /\ Z.of_nat (length (vu_ring (mem_used (vs_memory cfg) used_off))) = QUEUE_SIZE;
  so_queue : let h := blk_queue_init (vs_req_queue cfg) (vs_resp_queue cfg) (vs_num_buffers cfg) in
    blk_wf h /\ blk_reqs h = [] /\ blk_resps h = [];
}.

(** Between two notifications: no request waits in the queue unless the driver
    is being notified or too few descriptors are free. *)
Definition idle u : Prop :=
  exists g, vblk_inv cfg (vb_last_seen_used u) (vb_last_seen_used u) 0 false g u /\ g_prep g = [] /\ vb_script u = [] /\
    (blk_reqs (vb_queue u) = [] \/ pe_pending (vb_peer u) = true \/ (length (g_free g) < 3)%nat).

Hypothesis Hcfg : setup_ok.

(** ** Notifications *)

Lemma inv_interrupt s i n nt g u x : vblk_inv cfg s i n nt g u -> (Z.testbit (bd_interrupt (vb_device u)) 0 = true -> Z.testbit x 0 = true) ->
  vblk_inv cfg s i n nt g (set_vb_device (set_bd_interrupt x (vb_device u)) u).
Proof. intros [] Hx. split; try done. cbn. tauto. Qed.

(** The acknowledgement, when all used entries are going to be looked at. *)
Lemma inv_ack s i nt g u x : vblk_inv cfg s i (length (g_used g)) nt g u ->
  vblk_inv cfg s i (length (g_used g)) nt g (set_vb_device (set_bd_interrupt x (vb_device u)) u).
Proof. intros []. split; try done. by left. Qed.

Lemma vblk_irq_spec s g u (Q : unit -> vblk -> Prop) :
  vblk_inv cfg s s 0 false g u -> g_prep g = [] ->
  (forall s' g' u', vblk_inv cfg s' s' 0 false g' u' -> g_prep g' = [] ->
     (vb_script u = [] -> vb_script u' = [] /\ (vu_idx (vq_used (vb_virtq u)) <> s -> exists p, answers s u p /\
        blk_resps (vb_queue u) ++ [p] `prefix_of` blk_resps (vb_queue u'))) -> Q tt u') ->
  wp (handle_irq cfg) u Q.
Proof.
  intros HI Ep HQ. unfold handle_irq. destruct (look_kept cfg _ _ _ _ _ _ HI) as (g1 & HI1 & Ep1 & _).
  pose proof (vblk_look_quiet cfg u) as Hq. do 4 wp_step.
  set (u1 := look cfg u) in *. clearbody u1. rewrite has_bit0. destruct (Z.testbit _ 0) eqn:Hb; cbn [when].
  - destruct (look_kept cfg _ _ _ _ _ _ HI1) as (g2 & HI2 & Ep2 & _). pose proof (vblk_look_quiet cfg u1) as Hq1.
    do 2 wp_step. unfold ack_vqueue, emit, on_device. do 4 wp_step. set (u2 := look cfg u1) in *. clearbody u2.
    pose proof (inv_ack _ _ _ _ _ (Z.clearbit (bd_interrupt (vb_device u2)) 0)
      (inv_events cfg _ _ _ _ _ _ (vb_events u2 ++ [RegWrite InterruptACK VIRTIO_MMIO_IRQ_VQUEUE]) (inv_all_seen cfg _ _ _ _ _ _ HI2))) as HI3.
    eapply handle_response_spec; [exact HI3|]. intros s' g' u' HI' Ep' Hres. eapply HQ; [exact HI'|congruence|].
    intros E. rewrite (Hq E) in *. rewrite (Hq1 E) in *. destruct (Hres E) as [Es Hp]. split; [exact Es|]. intros Hne.
    apply Hp. destruct (g_used g2) eqn:Eu; [|cbn; lia]. exfalso. apply Hne. rewrite (iv_used_idx _ _ _ _ _ _ _ HI2), Eu. cbn [length].
    rewrite Z.add_0_r, u16_small; [done|]. apply HI2.
  - wp_step. eapply HQ; [exact HI1|congruence|]. intros E. rewrite (Hq E) in *. split; [done|]. intros Hne. exfalso. apply Hne.
    destruct (iv_irq _ _ _ _ _ _ _ HI1) as [H0|]; [|congruence]. rewrite (iv_used_idx _ _ _ _ _ _ _ HI1), H0.
    rewrite Z.add_0_r, u16_small; [done|]. apply HI1.
Qed.
Lemma capacity_fits : is_u64 (vc_capacity (vs_config cfg)).
Proof using Hcfg. destruct Hcfg as [_ _ _ _ _ _ H]. unfold is_u64. lia. Qed.

(** A notification that is answered with [handle_request] last. *)
Lemma request_idle s g u (Q : unit -> vblk -> Prop) :
  vblk_inv cfg s s 0 false g u -> g_prep g = [] ->
  (forall u', idle (set_vb_script [] u') -> Q tt u') -> wp (handle_request cfg) u Q.
Proof using Hcfg.
  intros HI Ep HQ. eapply handle_request_spec; [apply Hcfg|apply capacity_fits|exact HI|done|].
  intros g' u' HI' Ep' Hdone. apply HQ. exists g'. cbn [vb_last_seen_used set_vb_script]. rewrite (iv_last _ _ _ _ _ _ _ HI').
  split_and!; [by apply inv_script|done..|]. destruct Hdone; auto.
Qed.

Lemma deliver_inv s i n nt g u ch script :
  vblk_inv cfg s i n nt g u -> vblk_inv cfg s i n nt g (deliver cfg ch script u).
Proof. intros []. unfold deliver. destruct (ch =? vs_virt cfg); by split. Qed.

Lemma run_event_idle e u : idle u -> wp (run_event cfg e) u (fun _ u' => idle u').
Proof using Hcfg.
  intros (g & HI & Ep & Es & Hdone). destruct e as [a|ch script]; cbn [run_event].
  - wp_step. destruct (act_kept cfg _ _ _ _ _ _ a HI) as (g' & HI' & Ep' & Ef & Es').
    destruct (act_reqs cfg _ _ _ _ _ _ a HI) as [_ Hgrow]. exists g'. rewrite (iv_last _ _ _ _ _ _ _ HI').
    split_and!; [done|congruence..|]. rewrite Ef. destruct Hgrow as [|[-> ->]]; auto.
  - do 2 wp_step. apply (deliver_inv _ _ _ _ _ _ ch script) in HI as HI'. unfold notified.
    destruct (ch =? vs_irq cfg).
    { do 2 wp_step. eapply vblk_irq_spec; [exact HI'|done|]. intros s' g' u' HI2 Ep2 _. unfold emit. do 2 wp_step.
      eapply request_idle; [by apply inv_events, HI2|done|]. intros u2 H2. by wp_step. }
    destruct (ch =? vs_virt cfg) eqn:Ev; wp_step.
    { eapply request_idle; [exact HI'|done|]. intros u2 H2. by wp_step. }
    do 2 wp_step. exists g. unfold deliver in *. rewrite Ev in *. split_and!; [by apply inv_script|done..].
Qed.

Lemma run_idle es u : idle u -> wp (run cfg es) u (fun _ u' => idle u').
Proof using Hcfg.
  revert u. induction es as [|e es IH]; intros u Hu; cbn [run]; wp_step; [done|].
  by wp_use (run_event_idle e u Hu).
Qed.

(** ** Initialisation *)

(** What the virtualiser is told of the device. *)
Definition storage_info : blk_storage :=
  mk_blk_storage (mk_storage_info false true 512 (u64 (vc_capacity (vs_config cfg) * 512) / 4096))
    (vc_cylinders (vs_config cfg)) (vc_heads (vs_config cfg)) (vc_sectors (vs_config cfg)) 1.

(** The state that initialisation leaves. *)
Definition started (headers : list virtio_blk_req) u : Prop :=
  idle u /\ vb_peer u = mk_blk_peer [] [] false /\ vb_headers u = headers /\
  bd_fetched (vb_device u) = [] /\ bd_done (vb_device u) = [] /\
  vb_storage u = storage_info.

Lemma started_idle u ia :
  ialloc_wf ia (seqZ 0 QUEUE_SIZE) -> ia_offset ia = 0 -> ia_size ia = QUEUE_SIZE -> vb_ialloc u = ia ->
  vb_virtq u = mk_virtq QUEUE_SIZE (mem_desc (vs_memory cfg) desc_off) (mem_avail (vs_memory cfg) avail_off) (mem_used (vs_memory cfg) used_off) ->
  vb_queue u = blk_queue_init (vs_req_queue cfg) (vs_resp_queue cfg) (vs_num_buffers cfg) ->
  Z.of_nat (length (vb_headers u)) = QUEUE_SIZE -> Z.of_nat (length (vb_header_to_id u)) = QUEUE_SIZE ->
  vb_last_seen_used u = 0 -> vb_device u = mk_blk_device 0 [] [] [] false false 0 -> vb_peer u = mk_blk_peer [] [] false ->
  vb_script u = [] -> idle u.
Proof using Hcfg.
  intros Hia Ho Hs Ei Eq Eh Lh Li El Ed Epe Es. destruct Hcfg as [_ _ _ _ _ _ _ _ Hd [Ha1 Ha2] [Hu1 Hu2] (Hq & Er & Ep)].
  rewrite <- Eh in *. exists (mk_stages (seqZ 0 QUEUE_SIZE) [] [] [] [] [] [] 0). rewrite El. split_and!; [|done|done|by left].
  split; rewrite ?Eq, ?Ed, ?Epe, ?Ei; try done; cbn [pe_sent pe_taken g_past g_prep map app g_answered bd_done].
  - by rewrite Ep.
  - pose proof (blk_reqs_bounded _ Hq). cbn [length]. lia.
  - by left.
  - by left.
Qed.

Lemma wp_write_reg r v u (Q : unit -> vblk -> Prop) : (forall ev, Q tt (set_vb_events ev u)) -> wp (write_reg r v) u Q.
Proof. intros HQ. apply HQ. Qed.

Lemma wp_publish u (Q : unit -> vblk -> Prop) : Q tt (set_vb_storage storage_info u) -> wp (publish_storage_info cfg) u Q.
Proof. done. Qed.

Lemma set_events_twice e e' u : set_vb_events e (set_vb_events e' u) = set_vb_events e u.
Proof. done. Qed.

(** The writes at the end of [virtio_blk_init]. *)
#[local] Ltac wp_regs := repeat (wp_step; apply wp_write_reg; intros ?; rewrite ?set_events_twice).

Lemma init_starts headers :
  Z.of_nat (length headers) = QUEUE_SIZE -> wp (init cfg) (vblk_boot headers) (fun _ u => started headers u).
Proof using Hcfg.
  intros Hl. destruct (ialloc_init_spec QUEUE_SIZE (idxlist (vb_ialloc (vblk_boot headers)))) as (ia & Eia & Hia & Ho & Hs); [done..|].
  destruct Hcfg as [Hok (N1 & N2 & N3 & N4) (M1 & M2 & M3) Hfeat Hnum Hmeta Hcap _ _ _ _ _].
  unfold init. wp_step. apply wp_assert; [done|]. unfold emit. do 2 wp_step.
  do 4 (wp_step; apply wp_assert; [by apply negb_true_iff, Z.eqb_neq|]).
  wp_step. unfold virtio_blk_init, virtio_mmio_check_magic, virtio_mmio_version, virtio_mmio_check_device_id. rewrite M1, M2, M3.
  do 4 (wp_step; apply wp_assert; [done|]). do 3 wp_step. eapply wp_lift; [exact Eia|]. do 2 wp_step.
  wp_regs. wp_step. apply wp_assert.
  { apply negb_true_iff, Z.ltb_ge. change (BLK_TRANSFER_SIZE / VIRTIO_BLK_SECTOR_SIZE) with 8. lia. }
  wp_step. apply wp_publish. wp_regs. unfold status_read. rewrite Hfeat. cbv zeta. wp_regs.
  change (negb (has (Z.lor VIRTIO_DEVICE_STATUS_DRIVER VIRTIO_DEVICE_STATUS_FEATURES_OK) VIRTIO_DEVICE_STATUS_FEATURES_OK)) with false. cbv iota.
  wp_step. apply wp_assert; [by apply Z.leb_le|]. do 2 wp_step. wp_step. apply wp_assert; [by apply Z.leb_le|].
  unfold write_addr, ack_vqueue. fold (write_reg InterruptACK VIRTIO_MMIO_IRQ_VQUEUE). unfold on_device. repeat (first [wp_step | apply wp_write_reg; intros ?; rewrite ?set_events_twice]).
  split_and!; [apply (started_idle _ ia Hia Ho Hs); (reflexivity || exact Hl)|reflexivity..].
Qed.
(** The driver from the start. *)
Definition boot_run (es : list blk_event) : M vblk unit := init cfg;; run cfg es.

Lemma boot_run_idle headers es :
  Z.of_nat (length headers) = QUEUE_SIZE -> wp (boot_run es) (vblk_boot headers) (fun _ u => idle u).
Proof using Hcfg.
  intros Hl. unfold boot_run. wp_step. wp_use (init_starts headers Hl). intros [] u [Hu _]. by apply run_idle.
Qed.
End system.

(** ** Properties *)

(** What is known of the answers in [u]: [past] are the requests the driver has
    taken from its queue, and [m] of the completions have been answered. *)
Definition answered_so_far (past : list blk_req) (m : nat) u : Prop :=
  pe_sent (vb_peer u) = past ++ blk_reqs (vb_queue u) /\ (m <= length (bd_done (vb_device u)))%nat /\
  map resp_key (pe_taken (vb_peer u) ++ blk_resps (vb_queue u))
  ≡ₚ map answer_of (others past ++ omap (fun d : nat * Z => rws (pe_sent (vb_peer u)) !! d.1) (take m (bd_done (vb_device u)))).

Lemma idle_answered cfg u : idle cfg u -> exists past m, answered_so_far past m u.
Proof.
  intros (g & HI & Ep & _). exists (g_past g), (g_answered g). pose proof (inv_done_range _ _ _ _ _ _ _ HI) as Hd.
  assert (rws (pe_sent (vb_peer u)) = g_fetched g ++ (map fy_req (g_wait g) ++ rws (blk_reqs (vb_queue u)))) as Er.
  { rewrite (iv_sent _ _ _ _ _ _ _ HI), Ep. cbn [map app]. unfold rws. rewrite filter_app.
    change (filter _ (g_past g)) with (rws (g_past g)). by rewrite (iv_rws _ _ _ _ _ _ _ HI), <- app_assoc. }
  destruct HI. split_and!; [by rewrite iv_sent, Ep|done|]. rewrite Er, omap_lookup_app by (by apply Forall_take). done.
Qed.

(** C3. From initialisation on, whatever the device and the virtualiser do
    between any two looks of the driver, and in whatever order requests are
    completed: no assertion of the driver fails and no access is out of
    bounds; every chain that the device finds is a proper block request, and
    the device is asked for exactly the READ and WRITE requests, in order, each
    with its sector, address and length; no chain is completed twice, and the
    responses are, up to their order and status, one for each completion the
    driver has seen and one for each FLUSH or BARRIER it has taken. *)
Theorem virtio_blk_serves cfg headers es :
  setup_ok cfg -> Z.of_nat (length headers) = QUEUE_SIZE ->
  exists u, boot_run cfg es (vblk_boot headers) = Ok (tt, u) /\
    bd_broken (vb_device u) = false /\
    bd_fetched (vb_device u) `prefix_of` map job_of (rws (pe_sent (vb_peer u))) /\
    NoDup (map fst (bd_done (vb_device u)) ++ map ch_number (bd_flight (vb_device u))) /\
    exists past m, answered_so_far past m u.
Proof.
  intros Hcfg Hl. destruct (wp_elim _ _ _ (boot_run_idle cfg Hcfg headers es Hl)) as ([] & u & E & Hu). exists u.
  split; [done|]. pose proof (idle_answered cfg u Hu) as Ha. destruct Hu as (g & HI & Ep & _). destruct HI. split_and!; [done| | |done].
  - rewrite iv_jobs, iv_sent, Ep. cbn [map app]. unfold rws. rewrite filter_app. change (filter _ (g_past g)) with (rws (g_past g)).
    rewrite iv_rws, !map_app, <- !app_assoc. by apply prefix_app_r.
  - rewrite iv_numbers. apply NoDup_seq.
Qed.

Lemma omap_lookup_seq {A} (l : list A) (k : list A) : omap (fun j => (k ++ l) !! j) (seq (length k) (length l)) = l.
Proof.
  revert k. induction l as [|x l IH]; intros k; [done|]. cbn. rewrite list_lookup_middle by done. f_equal.
  specialize (IH (k ++ [x])). rewrite length_app, Nat.add_comm in IH. cbn in IH. by rewrite <- app_assoc in IH.
Qed.

Lemma omap_numbers {A} (l : list A) (ds : list (nat * Z)) :
  map fst ds ≡ₚ seq 0 (length l) -> omap (fun d => l !! d.1) ds ≡ₚ l.
Proof.
  intros H. assert (omap (fun d : nat * Z => l !! d.1) ds = omap (fun j => l !! j) (map fst ds)) as ->.
  { clear H. induction ds as [|d ds IH]; [done|]. cbn. by rewrite IH. }
  rewrite H. pose proof (omap_lookup_seq l []) as E. cbn [app length] in E. by rewrite E.
Qed.

(** C4. Nothing is left waiting: whenever the device has no chain and has not
    been told of one since it found none, no interrupt is pending and the
    driver has been delivered its notifications, every request that was sent
    has been answered exactly once. *)
Theorem virtio_blk_all_answered cfg headers es :
  setup_ok cfg -> Z.of_nat (length headers) = QUEUE_SIZE ->
  exists u, boot_run cfg es (vblk_boot headers) = Ok (tt, u) /\
    (bd_flight (vb_device u) = [] -> bd_kicked (vb_device u) = false -> Z.testbit (bd_interrupt (vb_device u)) 0 = false ->
     pe_pending (vb_peer u) = false ->
     blk_reqs (vb_queue u) = [] /\
     map resp_key (pe_taken (vb_peer u) ++ blk_resps (vb_queue u)) ≡ₚ map answer_of (pe_sent (vb_peer u))).
Proof.
  intros Hcfg Hl. destruct (wp_elim _ _ _ (boot_run_idle cfg Hcfg headers es Hl)) as ([] & u & E & g & HI & Ep & _ & Hdone).
  exists u. split; [done|]. intros Hf Hk Hi Hp. pose proof (inv_descs _ _ _ _ _ _ _ HI) as Hdescs. destruct HI.
  destruct iv_kick as [Ew|[|]]; [|congruence..]. destruct iv_irq as [Eu%nil_length_inv|]; [|congruence].
  rewrite Hf in iv_flight, iv_numbers. apply Forall2_nil_inv_l in iv_flight. rewrite app_nil_r in iv_numbers.
  assert (flying g = []) as Efl by (unfold flying; by rewrite Ep, Ew, Eu, iv_flight). rewrite Efl in Hdescs. cbn in Hdescs.
  destruct Hdone as [Er|[|]]; [|congruence|lia]. split; [done|]. rewrite Eu in iv_done. apply Forall2_nil_inv_r in iv_done.
  assert (take (g_answered g) (bd_done (vb_device u)) = bd_done (vb_device u)) as Et.
  { rewrite <- (take_drop (g_answered g) (bd_done (vb_device u))) at 2. by rewrite iv_done, app_nil_r. }
  rewrite iv_resps, Et, omap_numbers by done. rewrite Ew, app_nil_r in iv_rws. rewrite <- iv_rws.
  rewrite iv_sent, Ep, Er. cbn [map app]. rewrite app_nil_r. apply Permutation_map. unfold rws, others.
  clear. induction (g_past g) as [|r l IH]; [done|]. rewrite !filter_cons. destruct (is_rw r); repeat case_decide; try congruence.
  - by rewrite <- Permutation_middle, IH.
  - cbn. by rewrite IH.
Qed.

(** C39. A request that the device has failed is answered as a success: the
    driver takes the status from the header at the place of the completion in
    the used ring, not from that of the request, so if that other header has
    no error the response is BLK_RESP_OK, with the full count. *)
Theorem virtio_blk_failure_reported_ok cfg headers es u done k st h :
  setup_ok cfg -> Z.of_nat (length headers) = QUEUE_SIZE ->
  boot_run cfg es (vblk_boot headers) = Ok (tt, u) ->
  vu_idx (vq_used (vb_virtq u)) = u16 (vb_last_seen_used u + 1) -> bd_done (vb_device u) = done ++ [(k, st)] -> st <> VIRTIO_BLK_S_OK ->
  vb_headers u !! Z.to_nat (vb_last_seen_used u mod QUEUE_SIZE) = Some h -> hr_status h = VIRTIO_BLK_S_OK ->
  exists u' r, handle_irq cfg u = Ok (tt, u') /\
    r ∈ pe_sent (vb_peer u) /\ bd_fetched (vb_device u) !! k = Some (job_of r) /\
    blk_resps (vb_queue u) ++ [mk_blk_resp BLK_RESP_OK (br_count r) (br_id r)] `prefix_of` blk_resps (vb_queue u').
Proof.
  intros Hcfg Hl Erun Eidx Ed Hst Eh Hh.
  pose proof (wp_run _ _ _ _ _ Erun (boot_run_idle cfg Hcfg headers es Hl)) as (g & HI & Ep & Es & _).
  assert (is_u16 (vb_last_seen_used u)) as Hu by apply HI. unfold is_u16 in Hu.
  assert (vu_idx (vq_used (vb_virtq u)) <> vb_last_seen_used u) as Hne by (rewrite Eidx; uint_lia).
  assert (wp (handle_irq cfg) u (fun _ u' => exists p, answers (vb_last_seen_used u) u p /\
    blk_resps (vb_queue u) ++ [p] `prefix_of` blk_resps (vb_queue u'))) as H.
  { eapply vblk_irq_spec; [exact HI|done|]. intros s' g' u' _ _ Hq. by apply Hq. }
  apply wp_elim in H as ([] & u' & E & p & (d & r & st' & Hc & Hr & Hf & Hs & ->) & Hpre). exists u', r.
  unfold completion in Hc. rewrite Ed, Eidx, length_app in Hc.
  replace (Z.to_nat (u16 (u16 (vb_last_seen_used u + 1) - vb_last_seen_used u))) with 1%nat in Hc by uint_lia.
  cbn [length] in Hc. rewrite list_lookup_middle in Hc by lia. injection Hc as <-.
  unfold status_said in Hs. rewrite Eh in Hs. cbn [mbind option_bind] in Hs. rewrite Hh in Hs. injection Hs as <-. done.
Qed.

(** ** Runs *)

Definition vblk_setup_ex : vblk_setup :=
  mk_vblk_setup true 0 1 0x10000 0x1000 0x20000 0x2000 0x200000 (mk_virtio_mmio VIRTIO_MMIO_MAGIC_VALUE 2 2 1024 true)
    (mk_virtio_blk_config 1000 0 0 0)
    (mk_virtq_memory (fun _ => replicate 1024 (mk_virtq_desc 0 0 0 0)) (fun _ => mk_virtq_avail 0 (replicate 1024 0))
       (fun _ => mk_virtq_used 0 (replicate 1024 (mk_virtq_used_elem 0 0))))
    (mk_blk_req_queue (mk_ring 0 0 (replicate 4 (mk_blk_req BLK_REQ_READ 0 0 0 0))) false)
    (mk_ring 0 0 (replicate 4 (mk_blk_resp BLK_RESP_OK 0 0))) 4.
Definition headers_ex : list virtio_blk_req := replicate 1024 (mk_virtio_blk_req 0 0 0).

Lemma vblk_setup_ex_ok : setup_ok vblk_setup_ex.
Proof.
  split; try done; cbn; try (unfold QUEUE_SIZE; lia).
  split; [|done]. split; (split; [|by vm_compute]); split; cbn; try lia; try done; try (by exists (2 ^ 30)); by vm_compute.
Qed.

(** A WRITE, a READ and a FLUSH; the device takes the two, and fails the READ,
    which it completes first. *)
Definition events_ex : list blk_event :=
  [Act (CPut (mk_blk_req BLK_REQ_WRITE 0x5000 1 2 77)); Act (CPut (mk_blk_req BLK_REQ_READ 0x7000 3 1 78));
   Act (CPut (mk_blk_req BLK_REQ_FLUSH 0 0 0 79)); Deliver 1 [[]; [DFetch]; [CTake]]; Act DFetch; Act DFetch;
   Act (DComplete 0 0 0); Deliver 0 [[DConfig]; [DComplete 0 1 0]; [CTake]]; Act DFetch; Deliver 0 []].

Lemma virtio_blk_serves_witness :
  exists u, boot_run vblk_setup_ex events_ex (vblk_boot headers_ex) = Ok (tt, u) /\
    bd_broken (vb_device u) = false /\
    bd_fetched (vb_device u) `prefix_of` map job_of (rws (pe_sent (vb_peer u))) /\
    NoDup (map fst (bd_done (vb_device u)) ++ map ch_number (bd_flight (vb_device u))) /\
    exists past m, answered_so_far past m u.
Proof. apply virtio_blk_serves; [apply vblk_setup_ex_ok|done]. Defined.

(** At the end of the run all is quiet. *)
Lemma virtio_blk_all_answered_witness :
  exists u, boot_run vblk_setup_ex events_ex (vblk_boot headers_ex) = Ok (tt, u) /\
    map resp_key (pe_taken (vb_peer u) ++ blk_resps (vb_queue u)) = [(79, 0); (77, 2); (78, 1)] /\
    map resp_key (pe_taken (vb_peer u) ++ blk_resps (vb_queue u)) ≡ₚ map answer_of (pe_sent (vb_peer u)).
Proof.
  destruct (virtio_blk_all_answered vblk_setup_ex headers_ex events_ex vblk_setup_ex_ok eq_refl) as (u & E & H).
  exists u. split; [exact E|]. vm_compute in E. injection E as <-. split; [vm_compute; reflexivity|].
  apply H; vm_compute; reflexivity.
Defined.

(** Two requests, the second of which fails: both are answered as successes. *)
Definition failing_ex : list blk_event :=
  [Act (CPut (mk_blk_req BLK_REQ_WRITE 0x5000 1 2 77)); Act (CPut (mk_blk_req BLK_REQ_READ 0x7000 3 1 78)); Deliver 1 [];
   Act DFetch; Act DFetch; Act (DComplete 0 0 0); Deliver 0 []; Act (DComplete 0 1 0)].

Lemma virtio_blk_failure_reported_ok_witness :
  exists u u' r, boot_run vblk_setup_ex failing_ex (vblk_boot headers_ex) = Ok (tt, u) /\
    bd_done (vb_device u) = [(0%nat, 0)] ++ [(1%nat, 1)] /\ handle_irq vblk_setup_ex u = Ok (tt, u') /\
    r ∈ pe_sent (vb_peer u) /\ bd_fetched (vb_device u) !! 1%nat = Some (job_of r) /\
    blk_resps (vb_queue u) ++ [mk_blk_resp BLK_RESP_OK (br_count r) (br_id r)] `prefix_of` blk_resps (vb_queue u').
Proof.
  destruct (boot_run vblk_setup_ex failing_ex (vblk_boot headers_ex)) as [[[] u]|] eqn:E; [|vm_compute in E; discriminate].
  destruct (virtio_blk_failure_reported_ok vblk_setup_ex headers_ex failing_ex u [(0%nat, 0)] 1 1 (mk_virtio_blk_req 0 0 0)
    vblk_setup_ex_ok eq_refl E) as (u' & r & H1 & H2 & H3 & H4).
  1-5: vm_compute in E; injection E as <-; vm_compute; (reflexivity || discriminate).
  exists u, u', r. split; [reflexivity|]. split; [vm_compute in E; injection E as <-; vm_compute; reflexivity|].
  exact (conj H1 (conj H2 (conj H3 H4))).
Defined.

(** A BARRIER is answered while the device still has the WRITE before it. *)
Example virtio_blk_barrier_overtakes :
  exists u, boot_run vblk_setup_ex
    [Act (CPut (mk_blk_req BLK_REQ_WRITE 0x5000 1 2 77)); Act (CPut (mk_blk_req BLK_REQ_BARRIER 0 0 0 78)); Deliver 1 []]
    (vblk_boot headers_ex) = Ok (tt, u) /\
    blk_resps (vb_queue u) = [mk_blk_resp BLK_RESP_OK 0 78] /\ bd_done (vb_device u) = [].
Proof. eexists. split; [vm_compute; reflexivity|]. split; vm_compute; reflexivity. Qed.

(** A device that refuses the features: the storage is announced as ready, and
    the first request makes the driver access a table it does not have. *)
Example virtio_blk_features_refused :
  let cfg := mk_vblk_setup true 0 1 0x10000 0x1000 0x20000 0x2000 0x200000 (mk_virtio_mmio VIRTIO_MMIO_MAGIC_VALUE 2 2 1024 false)
    (vs_config vblk_setup_ex) (vs_memory vblk_setup_ex) (vs_req_queue vblk_setup_ex) (vs_resp_queue vblk_setup_ex) 4 in
  (exists u, boot_run cfg [] (vblk_boot headers_ex) = Ok (tt, u) /\ si_ready (bs_info (vb_storage u)) = true) /\
  boot_run cfg [Act (CPut (mk_blk_req BLK_REQ_READ 0x5000 1 2 77)); Deliver 1 []] (vblk_boot headers_ex) = Fault OutOfBounds.
Proof. split; [eexists; split; [vm_compute; reflexivity|]|]; vm_compute; reflexivity. Qed.
