(* ===== verification/VirtioNet.v ===== *)
(** * The virtio network driver: drivers/network/virtio/ethernet.c

    A lane per direction: the driver turns each buffer of its input queue into
    a chain of two descriptors, a header of its own and the buffer, makes it
    available to the device and, when the device has used it, hands the buffer
    to its output queue.  The device and the virtualisers run beside it: what
    they do is a script of acts, one list for each look of the driver at what it
    shares with them. *)

From S2P Require Import Prelude Ialloc NetQueue Microkit HwRing VirtQueue.

Definition VIRTIO_NET_RX_QUEUE : Z := 0.
Definition VIRTIO_NET_TX_QUEUE : Z := 1.
Definition VIRTIO_NET_F_MAC : Z := 5.
Definition VIRTIO_F_VERSION_1 : Z := 32.
Definition VIRTIO_NET_HDR_GSO_NONE : Z := 0.

Definition RX_COUNT : Z := 512.
Definition TX_COUNT : Z := 512.
Definition HW_RING_SIZE : Z := 0x10000.

Record virtio_net_hdr : Type := mk_net_hdr {
  nt_flags : Z;       (* uint8_t *)
  nt_gso_type : Z;    (* uint8_t *)
  nt_hdr_len : Z;     (* uint16_t *)
  nt_gso_size : Z;    (* uint16_t *)
  nt_csum_start : Z;  (* uint16_t *)
  nt_csum_offset : Z; (* uint16_t *)
}.
Definition sizeof_virtio_net_hdr : Z := 10.

(** ** The layout of the second region ([eth_setup]) *)

Definition rx_desc_off : Z := 0.
Definition rx_avail_off : Z := ALIGN (rx_desc_off + 16 * RX_COUNT) 2.
Definition rx_used_off : Z := ALIGN (rx_avail_off + (6 + 2 * RX_COUNT)) 4.
Definition tx_desc_off : Z := ALIGN (rx_used_off + (6 + 8 * RX_COUNT)) 16.
Definition tx_avail_off : Z := ALIGN (tx_desc_off + 16 * TX_COUNT) 2.
Definition tx_used_off : Z := ALIGN (tx_avail_off + (6 + 2 * TX_COUNT)) 4.
Definition virtq_size : Z := tx_used_off + (6 + 8 * TX_COUNT).
Definition tx_headers_size : Z := TX_COUNT / 2 * sizeof_virtio_net_hdr.
Definition rx_headers_size : Z := RX_COUNT / 2 * sizeof_virtio_net_hdr.

Definition desc_off (dir : dirn) : Z := match dir with Rx => rx_desc_off | Tx => tx_desc_off end.
Definition avail_off (dir : dirn) : Z := match dir with Rx => rx_avail_off | Tx => tx_avail_off end.
Definition used_off (dir : dirn) : Z := match dir with Rx => rx_used_off | Tx => tx_used_off end.
Definition COUNT (dir : dirn) : Z := match dir with Rx => RX_COUNT | Tx => TX_COUNT end.

(** [device_resources] and [config], the registers and the memory they lead to.
    [ne_ok] is the conjunction of the four conditions on the two sections that
    [init] asserts first. *)
Record vnet_setup : Type := mk_vnet_setup {
  ne_ok : bool;
  ne_irq : Z;
  ne_virt_rx : Z;
  ne_virt_tx : Z;
  ne_vaddr : Z; (* hw_ring_buffer_vaddr *)
  ne_paddr : Z; (* hw_ring_buffer_paddr *)
  ne_regs : virtio_mmio;
  ne_memory : virtq_memory;
  ne_rx_queue : net_queue_handle;
  ne_tx_queue : net_queue_handle;
}.

(** ** State *)

(** A chain as the device has fetched it: the descriptor at its head, the
    place and the contents of its header, and the buffer. *)
Record net_chain : Type := mk_net_chain {
  nc_head : Z;
  nc_slot : Z;
  nc_hdr : virtio_net_hdr;
  nc_addr : Z;
  nc_len : Z;
}.

(** The device's side of a lane.  [dv_seen] counts the available chains
    fetched, modulo [2^16]; [dv_log] and [dv_done] log the buffers fetched, and
    the addresses of those completed.  [dv_kicked]: it has been told to look, and
    has not found the ring empty since.  [dv_early]: it was told before it was
    live.  [dv_broken]: it found a chain that is not a packet. *)
Record net_device : Type := mk_net_device {
  dv_seen : Z;
  dv_flight : list net_chain;
  dv_log : list (Z * Z);
  dv_done : list Z;
  dv_kicked : bool;
  dv_early : bool;
  dv_broken : bool;
}.

(** The virtualiser's side: what it has put into the input queue and taken from
    the output queue; whether the driver has been notified and has not been
    delivered; whether it has still to look if the driver wants a notification;
    whether it sleeps until the driver notifies it. *)
Record net_peer : Type := mk_net_peer {
  np_sent : list net_buff_desc;
  np_taken : list net_buff_desc;
  np_pending : bool;
  np_owes : bool;
  np_waiting : bool;
}.

(** An act on a lane: the device fetches a chain or completes one, the
    virtualiser puts a buffer, looks if the driver wants a notification, takes a
    buffer, or goes to sleep. *)
Inductive lane_act : Type :=
| DFetch
| DComplete (k : nat) (len : Z) (hdr : virtio_net_hdr)
| VPut (b : net_buff_desc)
| VSignal
| VTake
| VWait.

Inductive net_act : Type :=
| Lane (dir : dirn) (a : lane_act)
| DConfig.

(** One direction; the first five fields are globals of the driver. *)
Record lane : Type := mk_lane {
  ln_virtq : virtq;
  ln_last_seen : Z;  (* uint16_t last_seen_used *)
  ln_last_desc : Z;  (* int last_desc_idx *)
  ln_ialloc : ialloc;
  ln_queue : net_queue_handle;
  ln_device : net_device;
  ln_peer : net_peer;
}.

(** [vn_headers] is the memory from the first TX header on; the RX headers
    begin [tx_headers_size] bytes later.  [vn_live]: the device has been told
    [DRIVER_OK]. *)
Record vnet : Type := mk_vnet {
  vn_rx : lane;
  vn_tx : lane;
  vn_headers : list virtio_net_hdr;
  vn_live : bool;
  vn_interrupt : Z; (* InterruptStatus *)
  vn_script : list (list net_act);
  vn_events : list event;
}.

Definition set_ln_virtq x l := mk_lane x (ln_last_seen l) (ln_last_desc l) (ln_ialloc l) (ln_queue l) (ln_device l) (ln_peer l).
Definition set_ln_last_seen x l := mk_lane (ln_virtq l) x (ln_last_desc l) (ln_ialloc l) (ln_queue l) (ln_device l) (ln_peer l).
Definition set_ln_last_desc x l := mk_lane (ln_virtq l) (ln_last_seen l) x (ln_ialloc l) (ln_queue l) (ln_device l) (ln_peer l).
Definition set_ln_ialloc x l := mk_lane (ln_virtq l) (ln_last_seen l) (ln_last_desc l) x (ln_queue l) (ln_device l) (ln_peer l).
Definition set_ln_queue x l := mk_lane (ln_virtq l) (ln_last_seen l) (ln_last_desc l) (ln_ialloc l) x (ln_device l) (ln_peer l).
Definition set_ln_device x l := mk_lane (ln_virtq l) (ln_last_seen l) (ln_last_desc l) (ln_ialloc l) (ln_queue l) x (ln_peer l).
Definition set_ln_peer x l := mk_lane (ln_virtq l) (ln_last_seen l) (ln_last_desc l) (ln_ialloc l) (ln_queue l) (ln_device l) x.

Definition set_dv_broken x d := mk_net_device (dv_seen d) (dv_flight d) (dv_log d) (dv_done d) (dv_kicked d) (dv_early d) x.
Definition set_dv_kicked x d := mk_net_device (dv_seen d) (dv_flight d) (dv_log d) (dv_done d) x (dv_early d) (dv_broken d).
Definition set_dv_early x d := mk_net_device (dv_seen d) (dv_flight d) (dv_log d) (dv_done d) (dv_kicked d) x (dv_broken d).
Definition set_np_pending x p := mk_net_peer (np_sent p) (np_taken p) x (np_owes p) (np_waiting p).
Definition set_np_waiting x p := mk_net_peer (np_sent p) (np_taken p) (np_pending p) (np_owes p) x.

Definition vn_lane (dir : dirn) (u : vnet) : lane := match dir with Rx => vn_rx u | Tx => vn_tx u end.
Definition set_vn_lane (dir : dirn) x u :=
  match dir with
  | Rx => mk_vnet x (vn_tx u) (vn_headers u) (vn_live u) (vn_interrupt u) (vn_script u) (vn_events u)
  | Tx => mk_vnet (vn_rx u) x (vn_headers u) (vn_live u) (vn_interrupt u) (vn_script u) (vn_events u)
  end.
Definition set_vn_headers x u := mk_vnet (vn_rx u) (vn_tx u) x (vn_live u) (vn_interrupt u) (vn_script u) (vn_events u).
Definition set_vn_live x u := mk_vnet (vn_rx u) (vn_tx u) (vn_headers u) x (vn_interrupt u) (vn_script u) (vn_events u).
Definition set_vn_interrupt x u := mk_vnet (vn_rx u) (vn_tx u) (vn_headers u) (vn_live u) x (vn_script u) (vn_events u).
Definition set_vn_script x u := mk_vnet (vn_rx u) (vn_tx u) (vn_headers u) (vn_live u) (vn_interrupt u) x (vn_events u).
Definition set_vn_events x u := mk_vnet (vn_rx u) (vn_tx u) (vn_headers u) (vn_live u) (vn_interrupt u) (vn_script u) x.

Definition net_in (dir : dirn) (l : lane) : net_queue := nh_ring (side_in dir) (ln_queue l).
Definition net_out (dir : dirn) (l : lane) : net_queue := nh_ring (side_out dir) (ln_queue l).

Section driver.
Context (cfg : vnet_setup).
Implicit Types (u : vnet) (l : lane).

Definition virtio_net_tx_headers_paddr : Z := u64 (ne_paddr cfg + virtq_size).
Definition virtio_net_rx_headers_paddr : Z := u64 (virtio_net_tx_headers_paddr + tx_headers_size).
Definition headers_paddr (dir : dirn) : Z :=
  match dir with Rx => virtio_net_rx_headers_paddr | Tx => virtio_net_tx_headers_paddr end.
Definition virt (dir : dirn) : Z := match dir with Rx => ne_virt_rx cfg | Tx => ne_virt_tx cfg end.

(** *** Acts *)

(** The header at an address of the device. *)
Definition net_header_at (addr : Z) : option Z :=
  let off := addr - virtio_net_tx_headers_paddr in
  if (0 <=? off) && (off mod sizeof_virtio_net_hdr =? 0) then Some (off / sizeof_virtio_net_hdr) else None.

(** The chain that starts at descriptor [head]: a header and the packet, both
    written by the device in the receiving lane, and read in the other. *)
Definition read_net_chain (dir : dirn) (headers : list virtio_net_hdr) l (head : Z) : option net_chain :=
  d0 ← vq_desc (ln_virtq l) !! Z.to_nat head;
  d1 ← vq_desc (ln_virtq l) !! Z.to_nat (vd_next d0);
  slot ← net_header_at (vd_addr d0);
  hdr ← headers !! Z.to_nat slot;
  let w := match dir with Rx => VIRTQ_DESC_F_WRITE | Tx => 0 end in
  if (vd_flags d0 =? Z.lor VIRTQ_DESC_F_NEXT w) && (vd_len d0 =? sizeof_virtio_net_hdr) && (vd_flags d1 =? w)
  then Some (mk_net_chain head slot hdr (vd_addr d1) (vd_len d1)) else None.

(** A look at the available ring, a new chain if there is one. *)
Definition net_fetch (dir : dirn) (headers : list virtio_net_hdr) l : lane :=
  let d := ln_device l in
  let a := vq_avail (ln_virtq l) in
  if dv_seen d =? va_idx a then set_ln_device (set_dv_kicked false d) l else
  match head ← va_ring a !! Z.to_nat (dv_seen d mod COUNT dir); read_net_chain dir headers l head with
  | Some c =>
    set_ln_device (mk_net_device (u16 (dv_seen d + 1)) (dv_flight d ++ [c]) (dv_log d ++ [(nc_addr c, nc_len c)])
                     (dv_done d) (dv_kicked d) (dv_early d) (dv_broken d)) l
  | None => set_ln_device (set_dv_broken true d) l
  end.

(** The device has used the [k]-th of its chains, in any order. *)
Definition net_complete (dir : dirn) (k : nat) (len : Z) l : lane :=
  let d := ln_device l in
  let vu := vq_used (ln_virtq l) in
  match dv_flight d !! k with
  | Some c =>
    set_ln_virtq (set_vq_used (mk_virtq_used (u16 (vu_idx vu + 1))
        (<[Z.to_nat (vu_idx vu mod COUNT dir) := mk_virtq_used_elem (nc_head c) len]> (vu_ring vu))) (ln_virtq l))
      (set_ln_device (mk_net_device (dv_seen d) (delete k (dv_flight d)) (dv_log d) (dv_done d ++ [nc_addr c])
                        (dv_kicked d) (dv_early d) (dv_broken d)) l)
  | None => l
  end.

(** The virtualiser never has more buffers with the driver than the queues have
    room for. *)
Definition in_bits (w x : Z) : bool := (0 <=? x) && (x <? 2 ^ w).
Definition buff_ok (b : net_buff_desc) : bool := in_bits 64 (io_or_offset b) && in_bits 16 (bd_len b).
Definition may_put (b : net_buff_desc) l : bool :=
  buff_ok b && (Z.of_nat (length (np_sent (ln_peer l))) <? nh_capacity (ln_queue l) + Z.of_nat (length (np_taken (ln_peer l)))).

Definition lane_step (dir : dirn) (headers : list virtio_net_hdr) (a : lane_act) l : lane :=
  let p := ln_peer l in
  match a with
  | DFetch => net_fetch dir headers l
  | DComplete k len _ => net_complete dir k len l
  | VPut b =>
    if may_put b l then
      match net_enqueue (side_in dir) b (ln_queue l) with
      | Ok (0, q) => set_ln_peer (mk_net_peer (np_sent p ++ [b]) (np_taken p) (np_pending p) true (np_waiting p)) (set_ln_queue q l)
      | _ => l
      end
    else l
  | VSignal =>
    if net_require_signal (side_in dir) (ln_queue l)
    then set_ln_peer (mk_net_peer (np_sent p) (np_taken p) true false (np_waiting p))
           (set_ln_queue (net_set_signalled (side_in dir) 1 (ln_queue l)) l)
    else set_ln_peer (mk_net_peer (np_sent p) (np_taken p) (np_pending p) false (np_waiting p)) l
  | VTake =>
    match net_dequeue (side_out dir) (ln_queue l) with
    | Ok (Some b, q) => set_ln_peer (mk_net_peer (np_sent p) (np_taken p ++ [b]) (np_pending p) (np_owes p) (np_waiting p)) (set_ln_queue q l)
    | _ => l
    end
  | VWait =>
    if net_queue_empty (side_out dir) (ln_queue l)
    then set_ln_peer (set_np_waiting true p) (set_ln_queue (net_set_signalled (side_out dir) 0 (ln_queue l)) l)
    else l
  end.

(** What an act does beside its lane: the device that has received a packet
    has written the header before it, and raises its interrupt. *)
Definition lane_effect (dir : dirn) (a : lane_act) u : vnet :=
  match a with
  | DComplete k _ hdr =>
    match dv_flight (ln_device (vn_lane dir u)) !! k with
    | Some c =>
      set_vn_interrupt (Z.lor (vn_interrupt u) VIRTIO_MMIO_IRQ_VQUEUE)
        (match dir with Rx => set_vn_headers (<[Z.to_nat (nc_slot c) := hdr]> (vn_headers u)) u | Tx => u end)
    | None => u
    end
  | _ => u
  end.

Definition by_device (a : lane_act) : bool := match a with DFetch | DComplete _ _ _ => true | _ => false end.

Definition act_step (a : net_act) u : vnet :=
  match a with
  | Lane dir a =>
    if by_device a && negb (vn_live u) then u
    else set_vn_lane dir (lane_step dir (vn_headers u) a (vn_lane dir u)) (lane_effect dir a u)
  | DConfig => set_vn_interrupt (Z.lor (vn_interrupt u) VIRTIO_MMIO_IRQ_CONFIG) u
  end.

(** The driver looks: what comes first in the script has happened. *)
Definition look u : vnet :=
  match vn_script u with
  | [] => u
  | acts :: rest => foldl (fun u a => act_step a u) (set_vn_script rest u) acts
  end.

Definition puts (dir : dirn) (acts : list net_act) : nat :=
  length (omap (fun a => match a with Lane dir' (VPut b) => if decide (dir' = dir) then Some b else None | _ => None end) acts).

(** *** Operations *)

Definition on_lane {A} (dir : dirn) (m : M lane A) : M vnet A := zoom (vn_lane dir) (set_vn_lane dir) m.
Definition on_queue {A} (m : M net_queue_handle A) : M lane A := zoom ln_queue set_ln_queue m.
Definition on_ialloc {A} (m : M ialloc A) : M lane A := zoom ln_ialloc set_ln_ialloc m.
Definition emit (e : event) : M vnet unit := modify (fun u => set_vn_events (vn_events u ++ [e]) u).

Definition load_desc (i : Z) : M lane virtq_desc := l ← get; lift (load (vq_desc (ln_virtq l)) i).
Definition store_desc (i : Z) (d : virtq_desc) : M lane unit :=
  l ← get;
  ds ← lift (store (vq_desc (ln_virtq l)) i d);
  put (set_ln_virtq (set_vq_desc ds (ln_virtq l)) l).

(** [last_desc_idx += n], of type [int]. *)
Definition count_descs (n : Z) : M lane unit :=
  l ← get;
  let x := ln_last_desc l + n in
  if (- 2 ^ 31 <=? x) && (x <? 2 ^ 31) then put (set_ln_last_desc x l) else raise IntOverflow.

(** [last_desc_idx >= num], where [num] is [unsigned]. *)
Definition virtio_avail_full l : bool := vq_num (ln_virtq l) <=? u32 (ln_last_desc l).
Definition virtio_avail_full_rx u : bool := virtio_avail_full (vn_rx u).
Definition virtio_avail_full_tx u : bool := virtio_avail_full (vn_tx u).

(** One of the two calls of [ialloc_alloc], with its assertion. *)
Definition alloc_desc : M lane Z :=
  idx ← on_ialloc ialloc_alloc;
  match idx with
  | Some i => assert_ (negb (i =? IDX_NONE));; mret i
  | None => raise AssertFail
  end.

Definition free_desc (i : Z) : M lane unit :=
  err ← on_ialloc (ialloc_free i);
  assert_ (err =? 0).

(** The entry of the available ring that comes next. *)
Definition store_avail (hdr_desc_idx : Z) : M lane unit :=
  l ← get;
  let a := vq_avail (ln_virtq l) in
  slot ← lift (umod (va_idx a) (vq_num (ln_virtq l)));
  ring ← lift (store (va_ring a) slot (u16 hdr_desc_idx));
  put (set_ln_virtq (set_vq_avail (mk_virtq_avail (va_idx a) ring) (ln_virtq l)) l).
Definition incr_avail : M lane unit :=
  modify (fun l => let a := vq_avail (ln_virtq l) in
    set_ln_virtq (set_vq_avail (mk_virtq_avail (u16 (va_idx a + 1)) (va_ring a)) (ln_virtq l)) l).

(** The two descriptors of a buffer: the [next] of the second stays. *)
Definition write_descs (dir : dirn) (buffer : net_buff_desc) (hdr_desc_idx pkt_desc_idx : Z) : M lane unit :=
  store_desc hdr_desc_idx
    (mk_virtq_desc (u64 (headers_paddr dir + hdr_desc_idx * sizeof_virtio_net_hdr)) sizeof_virtio_net_hdr
       (match dir with Rx => Z.lor VIRTQ_DESC_F_NEXT VIRTQ_DESC_F_WRITE | Tx => VIRTQ_DESC_F_NEXT end) (u16 pkt_desc_idx));;
  pkt ← load_desc pkt_desc_idx;
  store_desc pkt_desc_idx
    (match dir with
     | Rx => mk_virtq_desc (io_or_offset buffer) NET_BUFFER_SIZE VIRTQ_DESC_F_WRITE (vd_next pkt)
     | Tx => mk_virtq_desc (io_or_offset buffer) (bd_len buffer) 0 (vd_next pkt)
     end).

(** The two allocations and the assertions on what they return. *)
Definition alloc_descs : M lane (Z * Z) :=
  hdr_desc_idx ← alloc_desc;
  pkt_desc_idx ← alloc_desc;
  l ← get;
  assert_ (hdr_desc_idx <? vq_num (ln_virtq l));;
  assert_ (pkt_desc_idx <? vq_num (ln_virtq l));;
  mret (hdr_desc_idx, pkt_desc_idx).

(** What [rx_provide] does with a buffer, up to the increment of the index. *)
Definition rx_describe (buffer : net_buff_desc) : M vnet unit :=
  on_lane Rx (
    ids ← alloc_descs;
    write_descs Rx buffer (ids : Z * Z).1 ids.2;;
    store_avail ids.1).

(** The same for [tx_provide], which writes the ring first, and the header. *)
Definition tx_describe (buffer : net_buff_desc) : M vnet unit :=
  ids ← on_lane Tx (
    ids ← alloc_descs;
    store_avail (ids : Z * Z).1;;
    mret ids);
  u ← get;
  hdrs ← lift (store (vn_headers u) (ids : Z * Z).1 (mk_net_hdr 0 VIRTIO_NET_HDR_GSO_NONE 0 0 0 0));
  put (set_vn_headers hdrs u);;
  on_lane Tx (write_descs Tx buffer ids.1 ids.2).

Definition describe (dir : dirn) : net_buff_desc -> M vnet unit := match dir with Rx => rx_describe | Tx => tx_describe end.

(** The condition of the inner loop, and of another round of the outer one. *)
Definition provide_more (dir : dirn) u : bool :=
  negb (virtio_avail_full (vn_lane dir u)) && negb (net_queue_empty (side_in dir) (ln_queue (vn_lane dir u))).

Definition provide_work (dir : dirn) u : nat :=
  (Z.to_nat (net_queue_length (net_in dir (vn_lane dir u))) + puts dir (concat (vn_script u)))%nat.

(** The local variables are [reprocess] and [transferred]; [rx_provide] works on
    the free queue of its handle, [tx_provide] on the active one. *)
Definition provide_body (dir : dirn) : M (vnet * (bool * bool)) unit :=
  r ← on_state (on_lane dir (on_queue (net_dequeue (side_in dir))));
  match r with
  | None => raise AssertFail
  | Some buffer =>
    on_state (describe dir buffer);;
    on_state (modify look);;
    on_state (on_lane dir (incr_avail;; count_descs 2));;
    on_state (modify look);;
    p ← get;
    set_local (p.2.1, true)
  end.

Definition provide_outer (dir : dirn) : M (vnet * (bool * bool)) unit :=
  loop (fun p => provide_work dir p.1) (fun p => provide_more dir p.1) (provide_body dir);;
  on_state (modify look);;
  on_state (on_lane dir (on_queue (modify (net_set_signalled (side_in dir) 0))));;
  on_state (modify look);;
  p ← get;
  if provide_more dir (p : vnet * (bool * bool)).1
  then on_state (on_lane dir (on_queue (modify (net_set_signalled (side_in dir) 1))));; set_local (true, p.2.2)
  else set_local (false, p.2.2).

(** A write of [QueueNotify]. *)
Definition kick (dir : dirn) : M vnet unit :=
  emit (RegWrite QueueNotify (match dir with Rx => VIRTIO_NET_RX_QUEUE | Tx => VIRTIO_NET_TX_QUEUE end));;
  u ← get;
  on_lane dir (modify (fun l =>
    let d := ln_device l in set_ln_device (if vn_live u then set_dv_kicked true d else set_dv_early true d) l)).

Definition provide (dir : dirn) : M vnet unit :=
  modify look;;
  r ← with_local (true, false) (loop (fun p => S (puts dir (concat (vn_script p.1)))) (fun p => p.2.1) (provide_outer dir));
  when (r : unit * (bool * bool)).2.2 (kick dir).
Definition rx_provide : M vnet unit := provide Rx.
Definition tx_provide : M vnet unit := provide Tx.

(** The used entry of index [i]. *)
Definition return_one (dir : dirn) (i : Z) : M lane unit :=
  l ← get;
  let q := ln_virtq l in
  slot ← lift (umod i (vq_num q));
  hdr_used ← lift (load (vu_ring (vq_used q)) slot);
  hdr_desc ← load_desc (vu_id hdr_used);
  assert_ (has (vd_flags hdr_desc) VIRTQ_DESC_F_NEXT);;
  pkt_slot ← lift (umod (vd_next hdr_desc) (vq_num q));
  pkt ← load_desc pkt_slot;
  assert_ (negb (has (vd_flags pkt) VIRTQ_DESC_F_NEXT));;
  err ← on_queue (net_enqueue (side_out dir) (mk_buff (vd_addr pkt) (match dir with Rx => u16 (vd_len pkt) | Tx => 0 end)));
  assert_ (err =? 0);;
  free_desc (vu_id hdr_used);;
  hdr_desc ← load_desc (vu_id hdr_used);
  free_desc (vd_next hdr_desc);;
  count_descs (-2);;
  l ← get;
  assert_ (0 <=? ln_last_desc l).

(** Only [tx_return] looks if the queue has room. *)
Definition return_room (dir : dirn) u : bool :=
  match dir with Rx => true | Tx => negb (net_queue_full_free (ln_queue (vn_tx u))) end.

(** The local variables are [i] and [packets_transferred], or [enqueued]. *)
Definition return_body (dir : dirn) : M (vnet * (Z * Z)) unit :=
  p ← get;
  let '(i, n) := (p : vnet * (Z * Z)).2 in
  on_state (on_lane dir (return_one dir i));;
  on_state (modify look);;
  set_local (u16 (i + 1), u16 (n + 1)).

(** [sddf_notify]. *)
Definition notify (dir : dirn) : M vnet unit :=
  emit (Notify (virt dir));;
  on_lane dir (modify (fun l => set_ln_peer (set_np_waiting false (ln_peer l)) l)).

Definition return_ (dir : dirn) : M vnet unit :=
  u ← get;
  let i := ln_last_seen (vn_lane dir u) in
  modify look;;
  u ← get;
  let curr_idx := vu_idx (vq_used (ln_virtq (vn_lane dir u))) in
  r ← with_local (i, 0)
    (loop (fun p => Z.to_nat (u16 (curr_idx - p.2.1))) (fun p => negb (p.2.1 =? curr_idx) && return_room dir p.1) (return_body dir));
  let '(_, n) := (r : unit * (Z * Z)).2 in
  on_lane dir (modify (fun l => set_ln_last_seen (u16 (ln_last_seen l + n)) l));;
  modify look;;
  u ← get;
  when ((0 <? n) && net_require_signal (side_out dir) (ln_queue (vn_lane dir u)))
    (on_lane dir (on_queue (modify (net_set_signalled (side_out dir) 1)));;
     notify dir).
Definition rx_return : M vnet unit := return_ Rx.
Definition tx_return : M vnet unit := return_ Tx.

(** [regs->InterruptACK = VIRTIO_MMIO_IRQ_VQUEUE]. *)
Definition ack_vqueue : M vnet unit :=
  emit (RegWrite InterruptACK VIRTIO_MMIO_IRQ_VQUEUE);;
  modify (fun u => set_vn_interrupt (Z.clearbit (vn_interrupt u) 0) u).

Definition handle_irq : M vnet unit :=
  modify look;;
  u ← get;
  let irq_status := vn_interrupt u in
  when (has irq_status VIRTIO_MMIO_IRQ_VQUEUE)
    (modify look;;
     ack_vqueue;;
     tx_return;;
     tx_provide;;
     rx_return).

Definition notified (ch : Z) : M vnet unit :=
  if ch =? ne_irq cfg then handle_irq;; emit (DeferredIrqAck ch) else
  if ch =? ne_virt_rx cfg then rx_provide else
  if ch =? ne_virt_tx cfg then tx_provide else
  mret tt.

(** *** Initialisation *)

Definition write_reg (reg v : Z) : M vnet unit := emit (RegWrite reg v).

(** What the status register reads after [v] was written to it. *)
Definition status_read (v : Z) : Z := if vm_features_ok (ne_regs cfg) then v else Z.clearbit v 3.

(** The assignments to one of [rx_virtq] and [tx_virtq], and the assertions on
    its alignment. *)
Definition setup_virtq (dir : dirn) : M vnet unit :=
  on_lane dir (modify (fun l => set_ln_virtq
    (mk_virtq (COUNT dir) (mem_desc (ne_memory cfg) (desc_off dir)) (mem_avail (ne_memory cfg) (avail_off dir))
       (mem_used (ne_memory cfg) (used_off dir))) l));;
  assert_ (u64 (ne_vaddr cfg + desc_off dir) mod 16 =? 0);;
  assert_ (u64 (ne_vaddr cfg + avail_off dir) mod 2 =? 0);;
  assert_ (u64 (ne_vaddr cfg + used_off dir) mod 4 =? 0).

(** The two halves of the address of a part of a virtqueue. *)
Definition write_addr (low high off : Z) : M vnet unit :=
  write_reg low (Z.land (u64 (ne_paddr cfg + off)) 0xFFFFFFFF);;
  write_reg high (Z.shiftr (u64 (ne_paddr cfg + off)) 32).

Definition setup_queue (dir : dirn) : M vnet unit :=
  assert_ (COUNT dir <=? vm_queue_num_max (ne_regs cfg));;
  write_reg QueueSel (match dir with Rx => VIRTIO_NET_RX_QUEUE | Tx => VIRTIO_NET_TX_QUEUE end);;
  write_reg QueueNum (COUNT dir);;
  write_addr QueueDescLow QueueDescHigh (desc_off dir);;
  write_addr QueueDriverLow QueueDriverHigh (avail_off dir);;
  write_addr QueueDeviceLow QueueDeviceHigh (used_off dir);;
  write_reg QueueReady 1.

(** The bytes of [config->mac], at [Config] of the registers. *)
Definition Config : Z := 0x100.
Definition write_mac : M vnet unit :=
  write_reg Config 0x52;;
  write_reg (Config + 1) 0x54;;
  write_reg (Config + 2) 0x01;;
  write_reg (Config + 3) 0x00;;
  write_reg (Config + 4) 0x00;;
  write_reg (Config + 5) 0x07.

Definition eth_setup : M vnet unit :=
  let regs := ne_regs cfg in
  assert_ (virtio_mmio_check_magic regs);;
  assert_ (virtio_mmio_version regs =? VIRTIO_VERSION);;
  assert_ (virtio_mmio_check_device_id regs VIRTIO_DEVICE_ID_NET);;
  write_reg Status 0;;
  write_reg Status VIRTIO_DEVICE_STATUS_ACKNOWLEDGE;;
  write_reg Status VIRTIO_DEVICE_STATUS_DRIVER;;
  write_reg DriverFeatures VIRTIO_NET_F_MAC;;
  write_reg DriverFeaturesSel 1;;
  write_reg DriverFeatures VIRTIO_F_VERSION_1;;
  write_reg Status VIRTIO_DEVICE_STATUS_FEATURES_OK;;
  if negb (has (status_read VIRTIO_DEVICE_STATUS_FEATURES_OK) VIRTIO_DEVICE_STATUS_FEATURES_OK) then mret tt else
  setup_virtq Rx;;
  setup_virtq Tx;;
  assert_ (virtq_size + tx_headers_size + rx_headers_size <=? HW_RING_SIZE);;
  rx_provide;;
  tx_provide;;
  setup_queue Rx;;
  setup_queue Tx;;
  write_mac;;
  write_reg Status VIRTIO_DEVICE_STATUS_DRIVER_OK;;
  modify (set_vn_live true);;
  ack_vqueue.

Definition init_lane (dir : dirn) (q : net_queue_handle) : M vnet unit :=
  on_lane dir (modify (set_ln_queue (net_queue_init (nh_free q) (nh_active q) (nh_capacity q)))).
Definition init_ialloc (dir : dirn) : M vnet unit :=
  u ← get;
  ia ← lift (ialloc_init (idxlist (ln_ialloc (vn_lane dir u))) (COUNT dir));
  on_lane dir (modify (set_ln_ialloc ia)).

Definition init : M vnet unit :=
  assert_ (ne_ok cfg);;
  init_ialloc Rx;;
  init_ialloc Tx;;
  init_lane Rx (ne_rx_queue cfg);;
  init_lane Tx (ne_tx_queue cfg);;
  eth_setup.

(** The state before [init]: globals are zero, and so are the arrays of the
    allocators; the virtualisers may have put buffers into the queues. *)
Definition lane_boot (dir : dirn) (q : net_queue_handle) : lane :=
  mk_lane (mk_virtq 0 [] (mk_virtq_avail 0 []) (mk_virtq_used 0 [])) 0 0
    (mk_ialloc (replicate (Z.to_nat (COUNT dir)) 0) 0 0 0 0 0)
    (mk_net_handle (mk_net_queue 0 0 0 []) (mk_net_queue 0 0 0 []) 0)
    (mk_net_device 0 [] [] [] false false false)
    (mk_net_peer (net_items (side_in dir) q) [] false true false).
Definition vnet_boot (headers : list virtio_net_hdr) (script : list (list net_act)) : vnet :=
  mk_vnet (lane_boot Rx (ne_rx_queue cfg)) (lane_boot Tx (ne_tx_queue cfg)) headers false 0 script [].

(** Delivery of a notification, then the driver; the acts of the script go on
    meanwhile.  What is left of the script does not happen. *)
Definition hear (ch : Z) (dir : dirn) u : vnet :=
  if ch =? virt dir then set_vn_lane dir (set_ln_peer (set_np_pending false (ln_peer (vn_lane dir u))) (vn_lane dir u)) u else u.

Inductive net_event : Type :=
| Act (a : net_act)
| Deliver (ch : Z) (script : list (list net_act)).

Definition run_event (e : net_event) : M vnet unit :=
  match e with
  | Act a => modify (act_step a)
  | Deliver ch script =>
    modify (fun u => hear ch Tx (hear ch Rx (set_vn_script script u)));;
    notified ch;;
    modify (set_vn_script [])
  end.

Fixpoint run (es : list net_event) : M vnet unit :=
  match es with
  | [] => mret tt
  | e :: es' => run_event e;; run es'
  end.

Definition boot_run (es : list net_event) : M vnet unit := init;; modify (set_vn_script []);; run es.
End driver.
