(* ===== verification/VirtioNetInv.v ===== *)
(** * What the virtio network driver, its device and the virtualisers keep

    A buffer on its way through a lane owns two descriptors and goes through
    four stages: described by the driver, in the available ring, at the device,
    in the used ring.  The invariant of a lane says so, and where each buffer
    that was put into the lane is; every act keeps it. *)

From stdpp Require Import functions.
From S2P Require Import Prelude Fifo Ialloc NetQueue Microkit HwRing VirtQueue VirtioNet.

Record cargo : Type := mk_cargo {
  cg_head : Z;
  cg_pkt : Z;
  cg_buf : net_buff_desc;
}.
Definition cg_idx (t : cargo) : list Z := [cg_head t; cg_pkt t].
Definition cg_addr (t : cargo) : Z := io_or_offset (cg_buf t).

(** What the device is to find for a buffer, and what the driver hands on for
    one at an address. *)
Definition frame (dir : dirn) (b : net_buff_desc) : Z * Z :=
  (io_or_offset b, match dir with Rx => NET_BUFFER_SIZE | Tx => bd_len b end).
Definition back (dir : dirn) (addr : Z) : net_buff_desc :=
  mk_buff addr (match dir with Rx => NET_BUFFER_SIZE | Tx => 0 end).

(** The free descriptors, the four stages, and the addresses of the buffers
    that have been handed on. *)
Record voyage : Type := mk_voyage {
  g_free : list Z;
  g_prep : list cargo;
  g_wait : list cargo;
  g_dev : list cargo;
  g_used : list cargo;
  g_past : list Z;
}.
Definition sailing (g : voyage) : list cargo := g_prep g ++ g_wait g ++ g_dev g ++ g_used g.
Definition owned (g : voyage) : list Z := g_free g ++ concat (map cg_idx (sailing g)).

(** Where the driver is in a lane: [ph_s] is [last_seen_used] and [ph_i] the
    index it has got to; of the used entries it has seen [ph_n]; [ph_nt] says that
    it will notify the device, [ph_mv] that it will look if the virtualiser
    wants a notification. *)
Record phase : Type := mk_phase {
  ph_s : Z;
  ph_i : Z;
  ph_n : nat;
  ph_nt : bool;
  ph_mv : bool;
}.

Lemma count_range : 0 < 512 <= 2 ^ 16.
Proof. done. Qed.
Lemma count_div : (512 | 2 ^ 16).
Proof. by exists 128. Qed.
Lemma COUNT_eq dir : COUNT dir = 512.
Proof. by destruct dir. Qed.
#[export] Hint Resolve count_range count_div : core.

Section inv.
Context (cfg : vnet_setup) (dir : dirn).
Implicit Types (l : lane) (g : voyage) (t : cargo) (ph : phase).

#[local] Abbreviation inq l := (net_items (side_in dir) (ln_queue l)).
#[local] Abbreviation outq l := (net_items (side_out dir) (ln_queue l)).
#[local] Abbreviation sig_in l := (nq_consumer_signalled (net_in dir l)).
#[local] Abbreviation sig_out l := (nq_consumer_signalled (net_out dir l)).

Definition head_desc t : virtq_desc :=
  mk_virtq_desc (u64 (headers_paddr cfg dir + cg_head t * 10)) 10 (match dir with Rx => 3 | Tx => 1 end) (cg_pkt t).

Record cargo_ok (ds : list virtq_desc) t : Prop := {
  ca_head : ds !! Z.to_nat (cg_head t) = Some (head_desc t);
  ca_pkt : exists nx, ds !! Z.to_nat (cg_pkt t)
    = Some (mk_virtq_desc (frame dir (cg_buf t)).1 (frame dir (cg_buf t)).2 (match dir with Rx => 2 | Tx => 0 end) nx);
}.

(** Where the header of the chain at [h] is. *)
Definition header_slot (h : Z) : Z := match dir with Rx => 256 + h | Tx => h end.

(** What the device has fetched for [t]. *)
Record chain_ok (c : net_chain) t : Prop := {
  ko_head : nc_head c = cg_head t;
  ko_addr : nc_addr c = cg_addr t;
  ko_slot : nc_slot c = header_slot (cg_head t);
}.

Record lane_inv ph (irq : Z) g l : Prop := {
  li_last : ln_last_seen l = ph_s ph;
  li_num : vq_num (ln_virtq l) = 512;
  li_desc : length (vq_desc (ln_virtq l)) = 512%nat;
  li_avail_len : length (va_ring (vq_avail (ln_virtq l))) = 512%nat;
  li_used_len : length (vu_ring (vq_used (ln_virtq l))) = 512%nat;
  li_in : net_wf (side_in dir) (ln_queue l);
  li_out : net_wf (side_out dir) (ln_queue l);
  li_ialloc : ialloc_wf (ln_ialloc l) (g_free g) /\ ia_offset (ln_ialloc l) = 0 /\ ia_size (ln_ialloc l) = 512;
  li_owned : owned g ≡ₚ seqZ 0 512;
  li_cargo : Forall (cargo_ok (vq_desc (ln_virtq l))) (sailing g);
  li_count : ln_last_desc l = 2 * Z.of_nat (length (g_wait g) + length (g_dev g) + length (g_used g));
  li_seen : is_u16 (dv_seen (ln_device l));
  li_avail : ring_holds 512 (va_ring (vq_avail (ln_virtq l))) (dv_seen (ln_device l)) (map cg_head (g_wait g ++ g_prep g));
  li_avail_idx : va_idx (vq_avail (ln_virtq l)) = u16 (dv_seen (ln_device l) + Z.of_nat (length (g_wait g)));
  li_i : is_u16 (ph_i ph);
  li_used : ring_holds 512 (map vu_id (vu_ring (vq_used (ln_virtq l)))) (ph_i ph) (map cg_head (g_used g));
  li_used_idx : vu_idx (vq_used (ln_virtq l)) = u16 (ph_i ph + Z.of_nat (length (g_used g)));
  li_broken : dv_broken (ln_device l) = false;
  li_flight : Forall2 chain_ok (dv_flight (ln_device l)) (g_dev g);
  li_log : dv_log (ln_device l) ++ map (frame dir) (map cg_buf (g_wait g ++ g_prep g) ++ inq l) = map (frame dir) (np_sent (ln_peer l));
  li_fetched : dv_done (ln_device l) ++ map nc_addr (dv_flight (ln_device l)) ≡ₚ map fst (dv_log (ln_device l));
  li_done : dv_done (ln_device l) = g_past g ++ map cg_addr (g_used g);
  li_back : np_taken (ln_peer l) ++ outq l = map (back dir) (g_past g);
  li_room : Z.of_nat (length (np_sent (ln_peer l))) <= nh_capacity (ln_queue l) + Z.of_nat (length (np_taken (ln_peer l)));
  li_oks : Forall (fun b => buff_ok b = true) (np_sent (ln_peer l));
  li_n : (ph_n ph <= length (g_used g))%nat;
  li_irq : length (g_used g) = ph_n ph \/ Z.testbit irq 0 = true;
  li_kick : g_wait g = [] \/ dv_kicked (ln_device l) = true \/ ph_nt ph = true \/ dv_early (ln_device l) = true;
  li_wait : np_waiting (ln_peer l) = true -> sig_out l = 0 /\ (outq l = [] \/ ph_mv ph = true);
}.

(** The virtualiser will notify the driver of what it puts. *)
Definition heard l : Prop := sig_in l = 0 \/ np_pending (ln_peer l) = true.
(** What the lane has for the driver to do is done, or the driver will be
    notified. *)
Definition rests l : Prop :=
  inq l = [] \/ 512 <= ln_last_desc l \/ np_pending (ln_peer l) = true \/ np_owes (ln_peer l) = true.

(** ** Consequences *)

Section consequences.
Context (ph : phase) (irq : Z) (g : voyage) (l : lane).
Hypothesis HI : lane_inv ph irq g l.

Lemma vn_range x : x ∈ owned g -> 0 <= x < 512.
Proof using HI. rewrite (li_owned _ _ _ _ HI), elem_of_seqZ. lia. Qed.

Lemma vn_nodup : NoDup (owned g).
Proof using HI. rewrite (li_owned _ _ _ _ HI). apply NoDup_seqZ. Qed.

Lemma vn_owned_in t x : t ∈ sailing g -> x ∈ cg_idx t -> x ∈ owned g.
Proof using. clear HI. intros Ht Hx. apply elem_of_app. right. apply list_elem_of_In, in_concat. exists (cg_idx t).
  split; [by apply in_map, list_elem_of_In|by apply list_elem_of_In]. Qed.

Lemma vn_idx_length (k : list cargo) : length (concat (map cg_idx k)) = (2 * length k)%nat.
Proof using. clear HI. induction k as [|t k IH]; [done|]. cbn in *. lia. Qed.

Lemma vn_descs : (length (g_free g) + 2 * length (sailing g) = 512)%nat.
Proof using HI.
  pose proof (Permutation_length (li_owned _ _ _ _ HI)) as H. unfold owned in H.
  rewrite length_app, vn_idx_length, length_seqZ in H. exact H.
Qed.

Lemma vn_sailing_length : length (sailing g) = (length (g_prep g) + (length (g_wait g) + length (g_dev g) + length (g_used g)))%nat.
Proof using. unfold sailing. rewrite !length_app. lia. Qed.

(** Every buffer is in one place. *)
Lemma vn_places :
  length (np_sent (ln_peer l)) = (length (np_taken (ln_peer l)) + length (outq l) + length (sailing g) + length (inq l))%nat.
Proof using HI.
  pose proof vn_sailing_length. destruct HI. apply (f_equal length) in li_log0, li_done0, li_back0.
  apply Permutation_length in li_fetched0. pose proof (Forall2_length _ _ _ li_flight0).
  rewrite !length_app, !length_map, ?length_app, ?length_map, ?length_app in *. lia.
Qed.

Lemma vn_out_room : (0 < length (sailing g))%nat -> Z.of_nat (length (outq l)) < nh_capacity (ln_queue l).
Proof using HI. intros H. pose proof vn_places. pose proof (li_room _ _ _ _ HI). lia. Qed.
End consequences.

Lemma vn_irq ph irq irq' g l :
  lane_inv ph irq g l -> (Z.testbit irq 0 = true -> Z.testbit irq' 0 = true) -> lane_inv ph irq' g l.
Proof. intros [] H. split; try done. tauto. Qed.

Lemma vn_owned_perm g g' : sailing g' ≡ₚ sailing g -> g_free g' = g_free g -> owned g' ≡ₚ owned g.
Proof. intros H Hf. unfold owned. by rewrite Hf, H. Qed.

(** ** The device reads what the driver wrote *)

Hypothesis Haddr : 0 <= ne_paddr cfg /\ ne_paddr cfg + HW_RING_SIZE < 2 ^ 64.

Lemma headers_paddr_eq h :
  0 <= h < 512 -> u64 (headers_paddr cfg dir + h * 10) = ne_paddr cfg + virtq_size + header_slot h * 10.
Proof.
  intros Hh. unfold headers_paddr, virtio_net_rx_headers_paddr, virtio_net_tx_headers_paddr, header_slot, HW_RING_SIZE in *.
  change virtq_size with 26654 in *. change tx_headers_size with 2560. destruct dir.
  - rewrite (u64_small (ne_paddr cfg + 26654)), (u64_small (ne_paddr cfg + 26654 + 2560)), u64_small by (unfold is_u64; lia). lia.
  - rewrite (u64_small (ne_paddr cfg + 26654)), u64_small by (unfold is_u64; lia). lia.
Qed.

Lemma net_header_at_ok h :
  0 <= h < 512 -> net_header_at cfg (u64 (headers_paddr cfg dir + h * 10)) = Some (header_slot h).
Proof.
  intros Hh. rewrite headers_paddr_eq by done. unfold net_header_at, virtio_net_tx_headers_paddr, sizeof_virtio_net_hdr.
  unfold HW_RING_SIZE in *. change virtq_size with 26654 in *. rewrite u64_small by (unfold is_u64; lia).
  replace (_ + _ - _) with (header_slot h * 10) by lia. rewrite Z.mod_mul, Z.div_mul by lia.
  rewrite (proj2 (Z.leb_le _ _)) by (unfold header_slot; destruct dir; lia). done.
Qed.

Lemma read_net_chain_ok headers l t :
  length headers = 768%nat -> cargo_ok (vq_desc (ln_virtq l)) t -> 0 <= cg_head t < 512 ->
  exists hdr, read_net_chain cfg dir headers l (cg_head t)
    = Some (mk_net_chain (cg_head t) (header_slot (cg_head t)) hdr (frame dir (cg_buf t)).1 (frame dir (cg_buf t)).2).
Proof.
  intros Hlen [H0 [nx H1]] Hh. unfold read_net_chain. rewrite H0. cbn [mbind option_bind vd_next vd_addr head_desc].
  rewrite H1. cbn [mbind option_bind]. rewrite net_header_at_ok by done. cbn [mbind option_bind].
  destruct (lookup_lt_is_Some_2 headers (Z.to_nat (header_slot (cg_head t)))) as [hdr Eh]; [unfold header_slot; destruct dir; lia|].
  exists hdr. rewrite Eh. unfold head_desc, frame. by destruct dir.
Qed.

(** ** Every act on a lane keeps the invariant *)

(** What acts leave of a lane; [k] puts are among them. *)
Definition drifts (k : nat) g l g' l' : Prop :=
  g_prep g' = g_prep g /\ g_free g' = g_free g /\ ln_last_desc l' = ln_last_desc l /\
  (heard l -> heard l' /\ (rests l -> rests l')) /\ (length (inq l') <= length (inq l) + k)%nat.
Definition kept ph irq' (k : nat) g l g' l' : Prop := lane_inv ph irq' g' l' /\ drifts k g l g' l'.

Lemma drifts_refl g l : drifts 0 g l g l.
Proof. split_and!; (done || lia). Qed.
Lemma drifts_trans k k' g l g' l' g'' l'' : drifts k g l g' l' -> drifts k' g' l' g'' l'' -> drifts (k + k') g l g'' l''.
Proof.
  intros (P & F & D & H & L) (P' & F' & D' & H' & L'). split_and!; try congruence; [|lia].
  intros Hh. destruct (H Hh) as [Hh' Hr]. destruct (H' Hh') as [Hh'' Hr']. auto.
Qed.

(** An act of the device. *)
Lemma kept_device ph irq g l g' l' :
  lane_inv ph irq g' l' -> g_prep g' = g_prep g -> g_free g' = g_free g -> ln_last_desc l' = ln_last_desc l ->
  ln_queue l' = ln_queue l -> ln_peer l' = ln_peer l -> kept ph irq 0 g l g' l'.
Proof. intros HI Ep Ef Ed Eq El. unfold kept, drifts, heard, rests, net_in. rewrite Ed, Eq, El. split_and!; (done || lia). Qed.

Lemma vn_kept_refl ph irq g l : lane_inv ph irq g l -> kept ph irq 0 g l g l.
Proof. intros. by apply kept_device. Qed.

Lemma fetch_keeps ph irq headers g l :
  length headers = 768%nat -> lane_inv ph irq g l -> exists g', kept ph irq 0 g l g' (net_fetch cfg dir headers l).
Proof.
  intros Hh HI. pose proof (vn_descs _ _ _ _ HI) as Hslots. pose proof HI as []. unfold net_fetch.
  destruct (nil_or_cons (g_wait g)) as [Ew|(t & w & Ew)].
  { assert (dv_seen (ln_device l) = va_idx (vq_avail (ln_virtq l))) as E by (rewrite li_avail_idx0, Ew; cbn; by rewrite Z.add_0_r, u16_small).
    rewrite E, Z.eqb_refl. exists g. apply kept_device; try done. split; try done. by left. }
  assert (t ∈ sailing g) as Ht by (unfold sailing; rewrite Ew; set_solver).
  assert (0 <= cg_head t < 512) as Rh. { eapply vn_range; [done|]. eapply vn_owned_in; [done|unfold cg_idx; set_solver]. }
  assert (length (sailing g) = length (g_prep g) + S (length w) + length (g_dev g) + length (g_used g))%nat as Hl
    by (unfold sailing; rewrite !length_app, Ew; cbn; lia).
  rewrite (proj2 (Z.eqb_neq _ _)).
  2: { rewrite li_avail_idx0, Ew. cbn [length]. unfold is_u16 in *. uint_lia. }
  rewrite Ew in li_avail0. cbn [app map] in li_avail0. rewrite COUNT_eq, (ring_holds_first _ _ _ _ _ li_avail0). cbn [mbind option_bind].
  destruct (read_net_chain_ok headers l t) as [hdr ->]; [done|by eapply Forall_forall in li_cargo0|done|].
  set (g' := mk_voyage (g_free g) (g_prep g) w (g_dev g ++ [t]) (g_used g) (g_past g)).
  assert (sailing g' ≡ₚ sailing g) as Hp by (unfold sailing, g'; cbn [g_prep g_wait g_dev g_used]; rewrite Ew; solve_Permutation).
  exists g'. apply kept_device; [|done..].
  split; try done; cbn [set_ln_device ln_virtq ln_queue ln_last_desc ln_device ln_peer dv_seen dv_flight dv_log dv_done dv_kicked dv_early dv_broken nc_addr nc_len].
  - by rewrite (vn_owned_perm _ _ Hp).
  - by rewrite Hp.
  - unfold g'. cbn [g_wait g_dev g_used]. rewrite li_count0, Ew, length_app. cbn [length]. lia.
  - apply u16_range.
  - by eapply ring_holds_pop; eauto.
  - rewrite li_avail_idx0, Ew, u16_add_u16. f_equal. cbn [length]. unfold g'. cbn [g_wait]. lia.
  - unfold g'. cbn [g_dev]. apply Forall2_app; [done|]. by repeat constructor.
  - rewrite <- li_log0, Ew, <- app_assoc. unfold g'. cbn [g_wait g_prep app map]. by destruct (frame dir (cg_buf t)).
  - rewrite !map_app, app_assoc, li_fetched0. done.
  - destruct li_kick0 as [|]; [congruence|auto].
Qed.

Lemma complete_keeps ph irq irq' g l k len :
  lane_inv ph irq g l -> Z.testbit irq' 0 = true -> exists g', kept ph irq' 0 g l g' (net_complete dir k len l).
Proof.
  intros HI Hirq. pose proof (vn_descs _ _ _ _ HI) as Hslots. pose proof (vn_irq _ _ irq' _ _ HI ltac:(done)) as HI'.
  pose proof HI as []. unfold net_complete.
  destruct (dv_flight (ln_device l) !! k) as [c|] eqn:Ec; [|exists g; by apply vn_kept_refl].
  destruct (Forall2_lookup_l _ _ _ _ _ li_flight0 Ec) as (t & Et & [Hch Had _]).
  pose proof (delete_Permutation _ _ _ Et) as Hdev. pose proof (delete_Permutation _ _ _ Ec) as Hfl.
  pose proof (Forall2_delete _ _ _ k li_flight0) as Hdel.
  set (dev := delete k (g_dev g)) in *. set (fl := delete k (dv_flight (ln_device l))) in *.
  set (g' := mk_voyage (g_free g) (g_prep g) (g_wait g) dev (g_used g ++ [t]) (g_past g)).
  assert (sailing g' ≡ₚ sailing g) as Hp by (unfold sailing, g'; cbn [g_prep g_wait g_dev g_used]; rewrite Hdev; solve_Permutation).
  assert (length (g_dev g) = S (length dev)) as Hdl by (by rewrite Hdev).
  assert (length (g_used g) < length (sailing g))%nat as Hlen by (unfold sailing; rewrite !length_app; lia).
  exists g'. apply kept_device; [|done..]. rewrite COUNT_eq.
  split; try done; cbn [set_ln_virtq set_ln_device set_vq_used ln_virtq ln_queue ln_last_desc ln_device ln_peer vq_num vq_desc vq_avail vq_used vu_ring vu_idx
    dv_seen dv_flight dv_log dv_done dv_kicked dv_early dv_broken].
  - by rewrite length_insert.
  - by rewrite (vn_owned_perm _ _ Hp).
  - by rewrite Hp.
  - unfold g'. cbn [g_wait g_dev g_used]. rewrite li_count0, length_app. cbn [length]. lia.
  - unfold g'. cbn [g_used]. rewrite list_fmap_insert, map_app, li_used_idx0, u16_mod_num by eauto. cbn [vu_id map]. rewrite Hch.
    rewrite <- (length_map cg_head (g_used g)). apply ring_holds_push; [eauto|done| |rewrite length_map; lia].
    rewrite length_map. lia.
  - unfold g'. cbn [g_used]. rewrite li_used_idx0, u16_add_u16, length_app. f_equal. cbn. lia.
  - rewrite <- li_fetched0, <- app_assoc. apply Permutation_app_head. by rewrite Hfl.
  - unfold g'. cbn [g_used g_past]. by rewrite map_app, app_assoc, li_done0, Had.
  - unfold g'. cbn [g_used]. rewrite length_app. lia.
  - by right.
Qed.

(** What an operation on one ring of the queue leaves of the other. *)
Lemma net_rest_inv sd q q' :
  net_rest sd q' = net_rest sd q -> nh_capacity q' = nh_capacity q ->
  (net_wf (other sd) q' <-> net_wf (other sd) q) /\ net_items (other sd) q' = net_items (other sd) q /\
  nq_consumer_signalled (nh_ring sd q') = nq_consumer_signalled (nh_ring sd q) /\ nh_ring (other sd) q' = nh_ring (other sd) q.
Proof. intros E Ec. destruct (net_rest_other _ _ _ E Ec). injection E as E1 E2. done. Qed.

Lemma other_other sd : other (other sd) = sd.
Proof. by destruct sd. Qed.

Lemma put_keeps ph irq headers g l b :
  lane_inv ph irq g l -> exists g', kept ph irq 1 g l g' (lane_step cfg dir headers (VPut b) l).
Proof.
  intros HI. pose proof (vn_places _ _ _ _ HI) as Hc. exists g. cbn [lane_step].
  assert (kept ph irq 1 g l g l) as Hsame by (unfold kept, drifts; split_and!; (done || lia)).
  destruct (may_put b l) eqn:Hput; [|done]. apply andb_true_iff in Hput as [Hok Hroom%Z.ltb_lt].
  pose proof HI as [].
  assert (wp (net_enqueue (side_in dir) b) (ln_queue l) (fun e q => e = 0 /\ net_wf (side_in dir) q /\
    net_items (side_in dir) q = inq l ++ [b] /\ nh_capacity q = nh_capacity (ln_queue l) /\ net_rest (side_in dir) q = net_rest (side_in dir) (ln_queue l))) as H.
  { apply net_enqueue_spec; [done|lia|]. done. }
  apply wp_elim in H as (e & q & -> & -> & Hq & E1 & E2 & E3). destruct (net_rest_inv _ _ _ E3 E2) as (Hw & Ei & Es & Er).
  fold (side_out dir) in *.
  split; [|unfold drifts, heard, rests, net_in; cbn [set_ln_peer set_ln_queue ln_queue ln_peer ln_last_desc np_pending np_owes]; rewrite ?E1, ?Es, ?length_app; split_and!; first [done | cbn; lia | naive_solver]].
  split; try done; cbn [set_ln_peer set_ln_queue ln_queue ln_peer np_sent np_taken np_waiting].
  - by apply Hw.
  - rewrite E1, app_assoc, !map_app, app_assoc, <- li_log0, !map_app. done.
  - by rewrite Ei.
  - rewrite E2, length_app. cbn. lia.
  - rewrite Forall_app, Forall_singleton. done.
  - unfold net_out. cbn [ln_queue set_ln_peer set_ln_queue]. rewrite Er, Ei. done.
Qed.

Lemma signal_keeps ph irq headers g l :
  lane_inv ph irq g l -> exists g', kept ph irq 0 g l g' (lane_step cfg dir headers VSignal l).
Proof.
  intros HI. exists g. cbn [lane_step]. unfold net_require_signal. destruct (Z.eqb_spec (nq_consumer_signalled (nh_ring (side_in dir) (ln_queue l))) 0) as [E|E].
  - split.
    { destruct HI. split; try done; cbn [set_ln_peer set_ln_queue ln_queue ln_peer np_sent np_taken np_waiting];
        rewrite ?net_set_signalled_items, ?net_set_signalled_wf, ?net_set_signalled_capacity; try done.
      unfold net_out. intros Hw. destruct (li_wait0 Hw) as [E1 E2]. split; [|done]. rewrite <- E1. by destruct dir. }
    unfold drifts, heard, rests. cbn [set_ln_peer set_ln_queue ln_queue ln_peer ln_last_desc np_pending np_owes].
    rewrite net_set_signalled_items. split_and!; (done || tauto || lia).
  - split; [destruct HI; by split|]. unfold drifts, heard, rests, net_in. cbn [set_ln_peer ln_queue ln_peer ln_last_desc np_pending np_owes].
    split_and!; try (done || lia). tauto.
Qed.

Lemma take_keeps ph irq headers g l :
  lane_inv ph irq g l -> exists g', kept ph irq 0 g l g' (lane_step cfg dir headers VTake l).
Proof.
  intros HI. pose proof HI as []. exists g. cbn [lane_step]. destruct (nil_or_cons (outq l)) as [E|(x & m & E)].
  { assert (net_dequeue (side_out dir) (ln_queue l) = Ok (None, ln_queue l)) as ->; [|by apply vn_kept_refl].
    by apply (fifo_deq_nil (O := net_fifo_ops (side_out dir))). }
  assert (wp (net_dequeue (side_out dir)) (ln_queue l) (fun o q => o = Some x /\ net_wf (side_out dir) q /\
    net_items (side_out dir) q = m /\ nh_capacity q = nh_capacity (ln_queue l) /\ net_rest (side_out dir) q = net_rest (side_out dir) (ln_queue l))) as H.
  { by eapply net_dequeue_spec. }
  apply wp_elim in H as (o & q & -> & -> & Hq & E1 & E2 & E3). destruct (net_rest_inv _ _ _ E3 E2) as (Hw & Ei & Es & Er).
  unfold side_out in Hw, Ei, Er. rewrite other_other in Hw, Ei, Er.
  split; [|unfold drifts, heard, rests, net_in; cbn [set_ln_peer set_ln_queue ln_queue ln_peer ln_last_desc np_pending np_owes]; rewrite ?Ei, ?Er; split_and!; (done || lia)].
  split; try done; cbn [set_ln_peer set_ln_queue ln_queue ln_peer np_sent np_taken np_waiting].
  - by apply Hw.
  - by rewrite Ei.
  - by rewrite <- app_assoc, E1, <- li_back0, E.
  - rewrite E2, length_app. cbn. lia.
  - unfold net_out. cbn [ln_queue set_ln_peer set_ln_queue]. rewrite Es. rewrite E in li_wait0. intros Hw0.
    destruct (li_wait0 Hw0) as [? [|]]; [done|auto].
Qed.

Lemma wait_keeps ph irq headers g l :
  lane_inv ph irq g l -> exists g', kept ph irq 0 g l g' (lane_step cfg dir headers VWait l).
Proof.
  intros HI. exists g. cbn [lane_step]. destruct (net_queue_empty (side_out dir) (ln_queue l)) eqn:He; [|by apply vn_kept_refl].
  apply net_empty_spec in He; [|apply HI].
  split; [|unfold drifts, heard, rests; cbn [set_ln_peer set_ln_queue ln_queue ln_peer ln_last_desc np_pending np_owes set_np_waiting];
    rewrite net_set_signalled_items; split_and!; try (done || lia); by destruct dir].
  destruct HI. split; try done; cbn [set_ln_peer set_ln_queue ln_queue ln_peer np_sent np_taken np_waiting set_np_waiting];
    rewrite ?net_set_signalled_items, ?net_set_signalled_wf, ?net_set_signalled_capacity; try done.
  intros _. split; [by destruct dir|auto].
Qed.

Definition irq_set (a : lane_act) l (irq irq' : Z) : Prop :=
  (Z.testbit irq 0 = true -> Z.testbit irq' 0 = true) /\
  forall k len hdr, a = DComplete k len hdr -> is_Some (dv_flight (ln_device l) !! k) -> Z.testbit irq' 0 = true.

Definition lane_puts (a : lane_act) : nat := match a with VPut _ => 1 | _ => 0 end.

Lemma lane_step_keeps ph irq irq' headers g l a :
  length headers = 768%nat -> lane_inv ph irq g l -> irq_set a l irq irq' ->
  exists g', kept ph irq' (lane_puts a) g l g' (lane_step cfg dir headers a l).
Proof.
  intros Hh HI [H1 H2]. pose proof (vn_irq _ _ irq' _ _ HI H1) as HI'. destruct a as [|k len hdr|b| | |]; cbn [lane_puts].
  - by apply fetch_keeps.
  - cbn [lane_step]. destruct (dv_flight (ln_device l) !! k) as [c|] eqn:E; [eapply complete_keeps; eauto|].
    exists g. unfold net_complete. rewrite E. by apply vn_kept_refl.
  - by apply put_keeps.
  - by apply signal_keeps.
  - by apply take_keeps.
  - by apply wait_keeps.
Qed.
End inv.

(** ** Acts on the whole *)

Section whole.
Context (cfg : vnet_setup).
Hypothesis Haddr : 0 <= ne_paddr cfg /\ ne_paddr cfg + HW_RING_SIZE < 2 ^ 64.
Implicit Types (u : vnet) (ph : dirn -> phase) (g : dirn -> voyage).

Definition vnet_inv ph g u : Prop :=
  (forall d, lane_inv cfg d (ph d) (vn_interrupt u) (g d) (vn_lane d u)) /\ length (vn_headers u) = 768%nat /\
  (vn_live u = false -> Z.testbit (vn_interrupt u) 0 = false).

(** Acts have happened: [k d] puts in lane [d]. *)
Definition passes ph (k : dirn -> nat) g u g' u' : Prop :=
  vnet_inv ph g' u' /\ vn_live u' = vn_live u /\ forall d, drifts d (k d) (g d) (vn_lane d u) (g' d) (vn_lane d u').

Lemma passes_refl ph g u : vnet_inv ph g u -> passes ph (fun _ => 0%nat) g u g u.
Proof. intros. split_and!; [done..|]. intros d. apply drifts_refl. Qed.

Lemma passes_trans ph k k' g u g' u' g'' u'' :
  passes ph k g u g' u' -> passes ph k' g' u' g'' u'' -> passes ph (fun d => k d + k' d)%nat g u g'' u''.
Proof. intros (_ & L & D) (I & L' & D'). split_and!; [done|congruence|]. intros d. by eapply drifts_trans. Qed.

Lemma vn_lane_set d d' x u : vn_lane d (set_vn_lane d' x u) = if decide (d = d') then x else vn_lane d u.
Proof. by destruct d, d'. Qed.

Lemma lane_effect_frame d a u :
  vn_lane d (lane_effect d a u) = vn_lane d u /\ vn_lane (flip d) (lane_effect d a u) = vn_lane (flip d) u /\
  vn_live (lane_effect d a u) = vn_live u /\ length (vn_headers (lane_effect d a u)) = length (vn_headers u) /\
  vn_script (lane_effect d a u) = vn_script u.
Proof. destruct a; cbn; try done. case_match; [|done]. destruct d; cbn; by rewrite ?length_insert. Qed.

Lemma lane_effect_irq d a u : irq_set a (vn_lane d u) (vn_interrupt u) (vn_interrupt (lane_effect d a u)).
Proof.
  split.
  - destruct a; try done. cbn [lane_effect]. case_match; [|done]. cbn [vn_interrupt set_vn_interrupt]. intros Hb. by rewrite Z.lor_spec, Hb.
  - intros k len hdr -> [c E]. cbn [lane_effect]. rewrite E. cbn [vn_interrupt set_vn_interrupt]. by rewrite Z.lor_spec, orb_true_r.
Qed.

Lemma act_passes ph g u a :
  vnet_inv ph g u -> exists g', passes ph (fun d => puts d [a]) g u g' (act_step cfg a u).
Proof.
  intros HI. pose proof HI as (Hl & Hh & Hv).
  assert (forall u', vnet_inv ph g u' -> vn_live u' = vn_live u -> (forall d, vn_lane d u' = vn_lane d u) ->
            exists g', passes ph (fun d => puts d [a]) g u g' u') as Hsame.
  { intros u' HI' Hlive Hlane. exists g. split_and!; [done..|]. intros d. rewrite Hlane. split_and!; (done || lia). }
  destruct a as [dir a|]; cbn [act_step].
  2: { apply Hsame; [|done..]. split; [|split; [done|]]; cbn [vn_interrupt vn_live set_vn_interrupt].
       - intros d. eapply vn_irq; [apply Hl|]. intros E. by rewrite Z.lor_spec, E.
       - intros E. by rewrite Z.lor_spec, (Hv E). }
  destruct (by_device a && negb (vn_live u)) eqn:Hdev; [by apply Hsame|].
  destruct (lane_effect_frame dir a u) as (E1 & E2 & E3 & E4 & _). pose proof (lane_effect_irq dir a u) as Hirq.
  destruct (lane_step_keeps cfg dir Haddr _ _ _ (vn_headers u) _ _ a Hh (Hl dir) Hirq) as (x & HI' & HD).
  exists (<[dir := x]> g). split; [|split].
  - split; [|split; [by destruct dir; cbn; rewrite E4|]].
    2: { intros E. assert (vn_live u = false) as E0 by (rewrite <- E3, <- E; by destruct dir). specialize (Hv E0).
         rewrite E0, andb_true_r in Hdev. rewrite <- Hv. by destruct a, dir. }
    intros d.
    replace (vn_interrupt (set_vn_lane _ _ _)) with (vn_interrupt (lane_effect dir a u)) by by destruct dir.
    destruct (decide (d = dir)) as [->|Hne].
    + by rewrite fn_lookup_insert, vn_lane_set, decide_True.
    + rewrite fn_lookup_insert_ne, vn_lane_set, decide_False by congruence.
      replace d with (flip dir) in * by by destruct d, dir. rewrite E2. eapply vn_irq; [apply Hl|apply Hirq].
  - by destruct dir; cbn.
  - intros d. destruct (decide (d = dir)) as [->|Hne].
    + rewrite fn_lookup_insert, vn_lane_set, decide_True by done. destruct HD as (? & ? & ? & ? & HL). split_and!; try done.
      eapply Nat.le_trans; [exact HL|]. unfold puts. destruct a; cbn; try lia. rewrite decide_True by done. cbn. lia.
    + rewrite fn_lookup_insert_ne, vn_lane_set, decide_False by congruence.
      replace d with (flip dir) in * by by destruct d, dir. rewrite E2. split_and!; (done || lia).
Qed.

Lemma vn_puts_cons d a acts : puts d (a :: acts) = (puts d [a] + puts d acts)%nat.
Proof. unfold puts. cbn. repeat case_match; cbn; lia. Qed.
Lemma vn_puts_app d l l' : puts d (l ++ l') = (puts d l + puts d l')%nat.
Proof. unfold puts. by rewrite omap_app, length_app. Qed.

Lemma act_script a u : vn_script (act_step cfg a u) = vn_script u.
Proof. destruct a as [dir a|]; [|done]. cbn. case_match; [done|]. destruct (lane_effect_frame dir a u) as (_ & _ & _ & _ & E). by destruct dir. Qed.

Lemma acts_pass ph g u acts :
  vnet_inv ph g u ->
  exists g', passes ph (fun d => puts d acts) g u g' (foldl (fun u a => act_step cfg a u) u acts) /\
    vn_script (foldl (fun u a => act_step cfg a u) u acts) = vn_script u.
Proof.
  revert g u. induction acts as [|a acts IH]; intros g u HI; cbn [foldl].
  { exists g. split; [by apply passes_refl|done]. }
  destruct (act_passes _ _ _ a HI) as (g1 & H1). destruct (IH g1 _ (proj1 H1)) as (g2 & H2 & Es).
  exists g2. split; [|by rewrite Es, act_script]. pose proof (passes_trans _ _ _ _ _ _ _ _ _ H1 H2) as (I & L & D).
  split_and!; [done..|]. intros d. rewrite vn_puts_cons. apply D.
Qed.

Lemma look_passes ph g u :
  vnet_inv ph g u ->
  exists g' k, passes ph k g u g' (look cfg u) /\
    forall d, puts d (concat (vn_script u)) = (k d + puts d (concat (vn_script (look cfg u))))%nat.
Proof.
  intros HI. unfold look. destruct (vn_script u) as [|acts rest] eqn:E.
  - exists g, (fun _ => 0%nat). split; [by apply passes_refl|]. intros d. by rewrite E.
  - destruct (acts_pass ph g (set_vn_script rest u) acts) as (g' & H & Es); [done|].
    exists g', (fun d => puts d acts). split; [exact H|]. intros d. rewrite Es. cbn [concat vn_script set_vn_script].
    apply vn_puts_app.
Qed.

(** The waiting time of the driver at a look. *)
Lemma wp_look ph g u (Q : unit -> vnet -> Prop) :
  vnet_inv ph g u ->
  (forall g' u' k, passes ph k g u g' u' ->
     (forall d, puts d (concat (vn_script u)) = (k d + puts d (concat (vn_script u')))%nat) -> Q tt u') ->
  wp (modify (look cfg)) u Q.
Proof. intros HI HQ. wp_step. destruct (look_passes _ _ _ HI) as (g' & k & H & Hk). by eapply HQ. Qed.
End whole.
