(* ===== verification/VirtioNetSpec.v ===== *)
(** * The virtio network driver: its operations

    What the two operations of a lane do to it: a buffer is described and made
    available, and a used one is handed on. *)

From S2P Require Import Prelude Fifo Ialloc NetQueue Microkit HwRing VirtQueue VirtioNet VirtioNetInv.

(** ** Accesses *)

Lemma vn_load_desc l i d (Q : virtq_desc -> lane -> Prop) :
  0 <= i -> vq_desc (ln_virtq l) !! Z.to_nat i = Some d -> Q d l -> wp (load_desc i) l Q.
Proof. intros Hi E HQ. unfold load_desc. do 2 wp_step. eapply wp_lift; [by apply load_ok|done]. Qed.

Lemma vn_store_desc l i d (Q : unit -> lane -> Prop) :
  0 <= i < 512 -> length (vq_desc (ln_virtq l)) = 512%nat ->
  Q tt (set_ln_virtq (set_vq_desc (<[Z.to_nat i := d]> (vq_desc (ln_virtq l))) (ln_virtq l)) l) ->
  wp (store_desc i d) l Q.
Proof. intros Hi Hl HQ. unfold store_desc. do 3 wp_step. eapply wp_lift; [apply store_ok; lia|]. by wp_step. Qed.

(** The allocator with the descriptors [fl] free. *)
Definition frees (ia : ialloc) (fl : list Z) : Prop := ialloc_wf ia fl /\ ia_offset ia = 0 /\ ia_size ia = 512.

Lemma vn_free_desc l fl x (Q : unit -> lane -> Prop) :
  frees (ln_ialloc l) fl -> 0 <= x < 512 -> x ∉ fl ->
  (forall ia, frees ia (fl ++ [x]) -> Q tt (set_ln_ialloc ia l)) -> wp (free_desc x) l Q.
Proof.
  intros (Hwf & Ho & Hs) Hx Hn HQ. unfold free_desc, on_ialloc. do 2 wp_step.
  eapply wp_mono; [apply (ialloc_free_spec _ fl x); [done|lia|by rewrite Ho, Z.sub_0_r]|].
  cbv beta. intros r ia (-> & Hwf' & Ho' & Hs'). apply wp_assert; [done|]. apply HQ. unfold frees.
  rewrite Ho, Z.sub_0_r in Hwf'. split_and!; [done|congruence..].
Qed.

Lemma vn_alloc_desc l x fl (Q : Z -> lane -> Prop) :
  frees (ln_ialloc l) (x :: fl) -> (forall ia, frees ia fl -> 0 <= x < 512 -> Q x (set_ln_ialloc ia l)) ->
  wp alloc_desc l Q.
Proof.
  intros (Hwf & Ho & Hs) HQ. unfold alloc_desc, on_ialloc. do 2 wp_step.
  eapply wp_mono; [by apply (ialloc_alloc_spec _ x fl)|]. cbv beta. intros r ia (-> & Hwf' & Ho' & Hs').
  rewrite Ho, Z.add_0_r. assert (0 <= x < 512) as Hx.
  { destruct Hwf as [_ _ _ _ Hr _ _ _ _ _]. rewrite Forall_cons in Hr. lia. }
  wp_step. apply wp_assert; [|wp_step; apply HQ; [|done]].
  - apply negb_true_iff, Z.eqb_neq. unfold IDX_NONE. change (u32 (-1)) with 4294967295. lia.
  - unfold frees. split_and!; [done|congruence..].
Qed.

Lemma vn_alloc_descs l x y fl (Q : Z * Z -> lane -> Prop) :
  frees (ln_ialloc l) (x :: y :: fl) -> vq_num (ln_virtq l) = 512 ->
  (forall ia, frees ia fl -> 0 <= x < 512 -> 0 <= y < 512 -> Q (x, y) (set_ln_ialloc ia l)) ->
  wp alloc_descs l Q.
Proof.
  intros Hf Hn HQ. unfold alloc_descs. wp_step. eapply vn_alloc_desc; [exact Hf|]. intros ia1 H1 Hx.
  wp_step. eapply vn_alloc_desc; [exact H1|]. intros ia2 H2 Hy. do 2 wp_step. cbn [ln_virtq set_ln_ialloc]. rewrite Hn.
  do 2 (wp_step; apply wp_assert; [apply Z.ltb_lt; lia|]). wp_step. by apply (HQ ia2).
Qed.

Lemma vn_store_avail l x (Q : unit -> lane -> Prop) :
  vq_num (ln_virtq l) = 512 -> length (va_ring (vq_avail (ln_virtq l))) = 512%nat -> 0 <= x < 512 ->
  Q tt (set_ln_virtq (set_vq_avail (mk_virtq_avail (va_idx (vq_avail (ln_virtq l)))
    (<[Z.to_nat (va_idx (vq_avail (ln_virtq l)) mod 512) := x]> (va_ring (vq_avail (ln_virtq l))))) (ln_virtq l)) l) ->
  wp (store_avail x) l Q.
Proof.
  intros Hn Hl Hx HQ. pose proof (slot_range 512 count_range (va_idx (vq_avail (ln_virtq l)))). unfold store_avail.
  do 3 wp_step. rewrite Hn. eapply wp_lift; [by apply umod_ok|]. wp_step. rewrite u16_small by (unfold is_u16; lia).
  eapply wp_lift; [apply store_ok; lia|]. by wp_step.
Qed.

Section describe.
Context (cfg : vnet_setup) (dir : dirn).

(** The table with the two descriptors of [t]. *)
Definition pkt_desc (t : cargo) (nx : Z) : virtq_desc :=
  mk_virtq_desc (frame dir (cg_buf t)).1 (frame dir (cg_buf t)).2 (match dir with Rx => 2 | Tx => 0 end) nx.
Definition with_descs (t : cargo) (nx : Z) (ds : list virtq_desc) : list virtq_desc :=
  <[Z.to_nat (cg_pkt t) := pkt_desc t nx]> (<[Z.to_nat (cg_head t) := head_desc cfg dir t]> ds).

Lemma vn_write_descs l t (Q : unit -> lane -> Prop) :
  0 <= cg_head t < 512 -> 0 <= cg_pkt t < 512 -> length (vq_desc (ln_virtq l)) = 512%nat ->
  (forall nx, Q tt (set_ln_virtq (set_vq_desc (with_descs t nx (vq_desc (ln_virtq l))) (ln_virtq l)) l)) ->
  wp (write_descs cfg dir (cg_buf t) (cg_head t) (cg_pkt t)) l Q.
Proof.
  intros Hh Hp Hl HQ. unfold write_descs. wp_step. apply vn_store_desc; [done..|].
  assert (mk_virtq_desc (u64 (headers_paddr cfg dir + cg_head t * sizeof_virtio_net_hdr)) sizeof_virtio_net_hdr
    (match dir with Rx => Z.lor VIRTQ_DESC_F_NEXT VIRTQ_DESC_F_WRITE | Tx => VIRTQ_DESC_F_NEXT end) (u16 (cg_pkt t)) = head_desc cfg dir t) as ->.
  { unfold head_desc, sizeof_virtio_net_hdr. rewrite u16_small by (unfold is_u16; lia). by destruct dir. }
  destruct (lookup_lt_is_Some_2 (<[Z.to_nat (cg_head t) := head_desc cfg dir t]> (vq_desc (ln_virtq l))) (Z.to_nat (cg_pkt t))) as [d Ed];
    [rewrite length_insert; lia|].
  wp_step. eapply vn_load_desc; [lia|exact Ed|]. apply vn_store_desc; [done|by cbn; rewrite length_insert|].
  specialize (HQ (vd_next d)). unfold with_descs, pkt_desc, frame in HQ. by destruct dir.
Qed.

(** The lane in which [t] is described, and its head in the ring, but the index
    not yet incremented. *)
Definition described (t : cargo) (nx : Z) (ia : ialloc) (l : lane) : lane :=
  let q := ln_virtq l in
  mk_lane (mk_virtq (vq_num q) (with_descs t nx (vq_desc q))
    (mk_virtq_avail (va_idx (vq_avail q)) (<[Z.to_nat (va_idx (vq_avail q) mod 512) := cg_head t]> (va_ring (vq_avail q)))) (vq_used q))
    (ln_last_seen l) (ln_last_desc l) ia (ln_queue l) (ln_device l) (ln_peer l).

(** Only the lane has changed, and contents of headers. *)
Definition same_beside (u u' : vnet) : Prop :=
  vn_lane (flip dir) u' = vn_lane (flip dir) u /\ vn_interrupt u' = vn_interrupt u /\ vn_live u' = vn_live u /\
  vn_script u' = vn_script u /\ length (vn_headers u') = length (vn_headers u).

Lemma same_set x u : same_beside u (set_vn_lane dir x u).
Proof. unfold same_beside. by destruct dir. Qed.
End describe.

Lemma describe_spec cfg dir u l b x y fl (Q : unit -> vnet -> Prop) :
  vn_lane dir u = l -> frees (ln_ialloc l) (x :: y :: fl) -> vq_num (ln_virtq l) = 512 -> length (vq_desc (ln_virtq l)) = 512%nat ->
  length (va_ring (vq_avail (ln_virtq l))) = 512%nat -> length (vn_headers u) = 768%nat ->
  (forall u' nx ia, frees ia fl -> vn_lane dir u' = described cfg dir (mk_cargo x y b) nx ia l -> same_beside dir u u' -> Q tt u') ->
  wp (describe cfg dir b) u Q.
Proof.
  intros El Hf Hn Hd Hr Hh HQ. destruct l as [[num ds [ai ar] us] ls ld ia0 q d p]. cbn [ln_virtq ln_ialloc vq_num vq_desc vq_avail va_ring] in *.
  destruct dir; cbn [describe vn_lane] in *; unfold on_lane.
  - unfold rx_describe, on_lane. wp_step. cbn [vn_lane]. rewrite El. wp_step. eapply vn_alloc_descs; [exact Hf|done|]. intros ia Hia Hx Hy. cbn [fst snd].
    cbn [set_ln_ialloc ln_virtq ln_last_seen ln_last_desc ln_queue ln_device ln_peer].
    wp_step. apply (vn_write_descs cfg Rx _ (mk_cargo x y b)); [done..|]. intros nx.
    cbn [set_ln_virtq set_vq_desc ln_virtq ln_last_seen ln_last_desc ln_ialloc ln_queue ln_device ln_peer vq_num vq_desc vq_avail vq_used].
    apply vn_store_avail; [done..|]. eapply (HQ _ nx ia); [done..|]. apply (same_set Rx).
  - unfold tx_describe, on_lane. do 2 wp_step. cbn [vn_lane]. rewrite El. wp_step. eapply vn_alloc_descs; [exact Hf|done|]. intros ia Hia Hx Hy. cbn [fst snd].
    cbn [set_ln_ialloc ln_virtq ln_last_seen ln_last_desc ln_queue ln_device ln_peer].
    wp_step. apply vn_store_avail; [done..|].
    cbn [set_ln_virtq set_vq_avail ln_virtq ln_last_seen ln_last_desc ln_ialloc ln_queue ln_device ln_peer vq_num vq_desc vq_avail vq_used va_idx va_ring].
    do 4 wp_step. cbn [fst snd vn_headers set_vn_lane]. eapply wp_lift; [apply store_ok; lia|]. do 3 wp_step. cbn [vn_lane set_vn_headers vn_tx set_vn_lane].
    apply (vn_write_descs cfg Tx _ (mk_cargo x y b)); [done..|]. intros nx. apply (HQ _ nx ia); [done..|].
    unfold same_beside. cbn. by rewrite length_insert.
Qed.

(** ** A lane from one state of the invariant to the next *)

Section lanes.
Context (cfg : vnet_setup) (dir : dirn).
Implicit Types (l : lane) (g : voyage) (t : cargo) (ph : phase).

#[local] Abbreviation inq l := (net_items (side_in dir) (ln_queue l)).
#[local] Abbreviation outq l := (net_items (side_out dir) (ln_queue l)).

Lemma cargo_apart g t t' :
  NoDup (concat (map cg_idx (t :: sailing g))) -> t' ∈ sailing g -> forall x, x ∈ cg_idx t -> x ∉ cg_idx t'.
Proof.
  cbn [map concat]. intros (_ & Hn & _)%NoDup_app Ht x Hx Hx'. apply (Hn x Hx).
  apply list_elem_of_In, in_concat. exists (cg_idx t'). split; [by apply in_map, list_elem_of_In|by apply list_elem_of_In].
Qed.

Lemma cargo_ok_described t t' nx ds :
  length ds = 512%nat -> (forall x, x ∈ cg_idx t' -> 0 <= x < 512) -> (forall x, x ∈ cg_idx t -> 0 <= x < 512) ->
  (forall x, x ∈ cg_idx t -> x ∉ cg_idx t') -> cargo_ok cfg dir ds t' -> cargo_ok cfg dir (with_descs cfg dir t nx ds) t'.
Proof.
  unfold cg_idx. intros Hl Hr' Hr Hn [H1 [nx' H2]].
  assert (forall x, x ∈ cg_idx t' -> with_descs cfg dir t nx ds !! Z.to_nat x = ds !! Z.to_nat x) as E.
  { intros x Hx. unfold with_descs. pose proof (Hr' x Hx). pose proof (Hr (cg_head t) ltac:(set_solver)). pose proof (Hr (cg_pkt t) ltac:(set_solver)).
    rewrite !list_lookup_insert_ne; [done|intros Ee..].
    - apply (Hn (cg_head t)); [set_solver|]. by replace (cg_head t) with x by lia.
    - apply (Hn (cg_pkt t)); [set_solver|]. by replace (cg_pkt t) with x by lia. }
  split; [|exists nx']; by rewrite E by (unfold cg_idx; set_solver).
Qed.

Lemma cargo_ok_new t nx ds :
  length ds = 512%nat -> 0 <= cg_head t < 512 -> 0 <= cg_pkt t < 512 -> cg_head t <> cg_pkt t ->
  cargo_ok cfg dir (with_descs cfg dir t nx ds) t.
Proof.
  intros Hl Hh Hp Hne. unfold with_descs. split.
  - rewrite list_lookup_insert_ne by lia. apply list_lookup_insert_eq. lia.
  - exists nx. apply list_lookup_insert_eq. rewrite length_insert. lia.
Qed.

(** The next buffer [b] of the input is described. *)
Definition prepared g t (fl : list Z) : voyage := mk_voyage fl [t] (g_wait g) (g_dev g) (g_used g) (g_past g).

Lemma described_inv ph irq g l t fl nx ia q m :
  lane_inv cfg dir ph irq g l -> g_prep g = [] -> g_free g = cg_head t :: cg_pkt t :: fl -> frees ia fl ->
  inq l = cg_buf t :: m -> net_wf (side_in dir) q -> net_items (side_in dir) q = m ->
  nh_capacity q = nh_capacity (ln_queue l) -> net_rest (side_in dir) q = net_rest (side_in dir) (ln_queue l) ->
  lane_inv cfg dir ph irq (prepared g t fl) (described cfg dir t nx ia (set_ln_queue q l)).
Proof.
  intros HI Ep Ef Hia Ein Hq E1 E2 E3. destruct (net_rest_inv _ _ _ E3 E2) as (Hw & Ei & _ & Er). fold (side_out dir) in *.
  pose proof (vn_nodup _ _ _ _ _ _ HI) as Hnd. pose proof (vn_range _ _ _ _ _ _ HI) as Hrange. pose proof (vn_descs _ _ _ _ _ _ HI) as Hdescs.
  set (g' := prepared g t fl).
  assert (sailing g' = t :: sailing g) as Hs by (unfold sailing, g', prepared; cbn [g_prep g_wait g_dev g_used]; by rewrite Ep).
  assert (owned g' ≡ₚ owned g) as Hown.
  { unfold owned. rewrite Hs, Ef. unfold g', prepared. cbn [g_free map concat]. unfold cg_idx at 1. solve_Permutation. }
  rewrite <- Hown in Hnd. assert (forall x, x ∈ owned g' -> 0 <= x < 512) as Hr by (intros x; rewrite Hown; apply Hrange).
  unfold owned in Hnd, Hr. rewrite Hs in Hnd, Hr. apply NoDup_app in Hnd as (_ & _ & Hnd).
  assert (forall t', t' ∈ t :: sailing g -> forall x, x ∈ cg_idx t' -> 0 <= x < 512) as Hrt.
  { intros t' Ht' x Hx. apply Hr, elem_of_app. right. apply list_elem_of_In, in_concat. exists (cg_idx t').
    split; [by apply in_map, list_elem_of_In|by apply list_elem_of_In]. }
  assert (0 <= cg_head t < 512 /\ 0 <= cg_pkt t < 512) as [Rh Rp] by (split; apply (Hrt t); unfold cg_idx; set_solver).
  assert (cg_head t <> cg_pkt t) as Hne.
  { cbn [map concat] in Hnd. unfold cg_idx in Hnd at 1. cbn [app] in Hnd. apply NoDup_cons in Hnd as [Hn _]. set_solver. }
  assert (length (sailing g) = length (g_wait g) + length (g_dev g) + length (g_used g))%nat as Hl by (rewrite vn_sailing_length, Ep; done).
  rewrite Ef in Hdescs. cbn [length] in Hdescs.
  pose proof HI as []. rewrite Ep, app_nil_r in *. unfold g', prepared.
  split; try done; cbn [described set_ln_queue ln_virtq ln_last_seen ln_last_desc ln_ialloc ln_queue ln_device ln_peer vq_num vq_desc vq_avail vq_used
    va_idx va_ring g_free g_prep g_wait g_dev g_used g_past].
  - unfold with_descs. by rewrite !length_insert.
  - by rewrite length_insert.
  - by apply Hw.
  - transitivity (owned g); [exact Hown|done].
  - unfold sailing in Hs |- *. cbn [g_prep g_wait g_dev g_used app] in *.
    change (Forall (cargo_ok cfg dir (with_descs cfg dir t nx (vq_desc (ln_virtq l)))) (t :: (g_wait g ++ g_dev g ++ g_used g))).
    apply Forall_cons. split; [by apply cargo_ok_new|]. apply Forall_forall. intros t' Ht'.
    assert (t' ∈ sailing g) as Ht2 by (unfold sailing; rewrite Ep; done).
    apply cargo_ok_described; [done|apply Hrt, elem_of_cons; auto|apply Hrt, elem_of_cons; auto|by eapply cargo_apart|].
    by apply (proj1 (Forall_forall _ _) li_cargo).
  - rewrite map_app, li_avail_idx, u16_mod_num by eauto. rewrite <- (length_map cg_head (g_wait g)). cbn [map].
    apply ring_holds_push; [eauto|done|rewrite length_map; lia|lia].
  - by rewrite <- li_log, Ein, E1, (map_app cg_buf), <- app_assoc.
  - by rewrite Ei.
  - by rewrite E2.
  - unfold net_out. cbn [described set_ln_queue ln_queue]. by rewrite Er, Ei.
Qed.

(** The index is incremented. *)
Definition with_nt (nt : bool) ph : phase := mk_phase (ph_s ph) (ph_i ph) (ph_n ph) nt (ph_mv ph).
Definition shipped g t : voyage := mk_voyage (g_free g) [] (g_wait g ++ [t]) (g_dev g) (g_used g) (g_past g).
Definition publish l : lane :=
  let q := ln_virtq l in
  mk_lane (mk_virtq (vq_num q) (vq_desc q) (mk_virtq_avail (u16 (va_idx (vq_avail q) + 1)) (va_ring (vq_avail q))) (vq_used q))
    (ln_last_seen l) (ln_last_desc l + 2) (ln_ialloc l) (ln_queue l) (ln_device l) (ln_peer l).

Lemma vn_publish_inv ph irq g l t :
  lane_inv cfg dir ph irq g l -> g_prep g = [t] -> lane_inv cfg dir (with_nt true ph) irq (shipped g t) (publish l).
Proof.
  intros [] Ep. set (g' := shipped g t).
  assert (sailing g' ≡ₚ sailing g) as Hp by (unfold sailing, g', shipped; cbn [g_prep g_wait g_dev g_used]; rewrite Ep; solve_Permutation).
  split; try done; cbn [publish ln_virtq ln_last_seen ln_last_desc ln_ialloc ln_queue ln_device ln_peer vq_num vq_desc vq_avail vq_used va_idx va_ring].
  - by rewrite (vn_owned_perm _ _ Hp).
  - by rewrite Hp.
  - unfold g', shipped. cbn [g_wait g_dev g_used]. rewrite li_count, length_app. cbn [length]. lia.
  - unfold g', shipped. cbn [g_wait g_prep]. by rewrite app_nil_r, <- Ep.
  - unfold g', shipped. cbn [g_wait]. rewrite li_avail_idx, u16_add_u16, length_app. f_equal. cbn. lia.
  - unfold g', shipped. cbn [g_wait g_prep]. by rewrite app_nil_r, <- Ep.
  - by right; right; left.
Qed.

Lemma publish_spec l (Q : unit -> lane -> Prop) :
  0 <= ln_last_desc l < 2 ^ 30 -> Q tt (publish l) -> wp (incr_avail;; count_descs 2) l Q.
Proof.
  intros Hd HQ. unfold incr_avail, count_descs. do 4 wp_step. cbn [ln_last_desc set_ln_virtq].
  rewrite (proj2 (Z.leb_le _ _)), (proj2 (Z.ltb_lt _ _)) by lia. cbn [andb]. by wp_step.
Qed.

(** The used chain [t] is handed on and its descriptors are freed. *)
Definition returned_to g t (w : list cargo) : voyage :=
  mk_voyage ((g_free g ++ [cg_head t]) ++ [cg_pkt t]) (g_prep g) (g_wait g) (g_dev g) w (g_past g ++ [cg_addr t]).
Definition after_return ph : phase := mk_phase (ph_s ph) (u16 (ph_i ph + 1)) (pred (ph_n ph)) (ph_nt ph) true.

Lemma returned_inv ph irq g l t w q ia :
  lane_inv cfg dir ph irq g l -> ph_n ph <> 0%nat -> g_used g = t :: w ->
  net_wf (side_out dir) q -> net_items (side_out dir) q = outq l ++ [back dir (cg_addr t)] ->
  nh_capacity q = nh_capacity (ln_queue l) -> net_rest (side_out dir) q = net_rest (side_out dir) (ln_queue l) ->
  frees ia (g_free (returned_to g t w)) ->
  lane_inv cfg dir (after_return ph) irq (returned_to g t w)
    (mk_lane (ln_virtq l) (ln_last_seen l) (ln_last_desc l - 2) ia q (ln_device l) (ln_peer l)).
Proof.
  intros [] Hn Eu Hq E1 E2 E3 Hia. destruct (net_rest_inv _ _ _ E3 E2) as (Hw & Ei & Es & Er).
  unfold side_out in Hw, Ei, Er. rewrite other_other in Hw, Ei, Er. fold (side_out dir) in *.
  set (rest := g_prep g ++ g_wait g ++ g_dev g ++ w).
  assert (sailing g ≡ₚ t :: rest) as Hs by (unfold sailing, rest; rewrite Eu; solve_Permutation).
  assert (owned (returned_to g t w) ≡ₚ owned g) as Hown.
  { unfold owned. rewrite Hs. change (sailing (returned_to g t w)) with rest. cbn [returned_to g_free map concat].
    unfold cg_idx at 2. solve_Permutation. }
  rewrite Eu in *. cbn [length map] in *.
  split; try done; cbn [after_return returned_to ln_virtq ln_last_seen ln_last_desc ln_ialloc ln_queue ln_device ln_peer
    ph_s ph_i ph_n ph_nt ph_mv g_free g_prep g_wait g_dev g_used g_past].
  - by apply Hw.
  - transitivity (owned g); [exact Hown|done].
  - rewrite Hs in li_cargo. by apply Forall_cons in li_cargo as [_ ?].
  - lia.
  - apply u16_range.
  - by eapply ring_holds_pop; eauto.
  - rewrite li_used_idx, u16_add_u16. f_equal. lia.
  - by rewrite Ei.
  - by rewrite <- app_assoc.
  - rewrite E1, app_assoc, li_back, map_app. done.
  - by rewrite E2.
  - lia.
  - destruct li_irq; [left; lia|by right].
  - unfold net_out. cbn [ln_queue]. rewrite Es. intros Hwt. destruct (li_wait Hwt). auto.
Qed.

Lemma return_one_spec ph irq g l (Q : unit -> lane -> Prop) :
  lane_inv cfg dir ph irq g l -> ph_n ph <> 0%nat ->
  (forall g' l', lane_inv cfg dir (after_return ph) irq g' l' -> g_prep g' = g_prep g ->
     (heard dir l -> heard dir l') -> Q tt l') ->
  wp (return_one dir (ph_i ph)) l Q.
Proof.
  intros HI Hn HQ. pose proof HI as []. destruct (nil_or_cons (g_used g)) as [Eu|(t & w & Eu)]; [rewrite Eu in li_n; cbn in li_n; lia|].
  assert (t ∈ sailing g) as Ht by (unfold sailing; rewrite Eu, !elem_of_app, elem_of_cons; auto).
  pose proof (proj1 (Forall_forall _ _) li_cargo t Ht) as [Hd0 [nx Hd1]].
  assert (0 <= cg_head t < 512 /\ 0 <= cg_pkt t < 512) as [Rh Rp].
  { split; eapply vn_range, vn_owned_in; try done; unfold cg_idx; rewrite !elem_of_cons; auto. }
  pose proof (vn_nodup _ _ _ _ _ _ HI) as Hnd.
  assert (owned g ≡ₚ g_free g ++ cg_idx t ++ concat (map cg_idx (g_prep g ++ g_wait g ++ g_dev g ++ w))) as Hown.
  { unfold owned. apply Permutation_app_head. transitivity (concat (map cg_idx (t :: g_prep g ++ g_wait g ++ g_dev g ++ w))); [|done].
    assert (sailing g ≡ₚ t :: g_prep g ++ g_wait g ++ g_dev g ++ w) as -> by (unfold sailing; rewrite Eu; solve_Permutation). done. }
  rewrite Hown, !NoDup_app in Hnd. destruct Hnd as (_ & Hnf & [Hnt _]). unfold cg_idx in Hnt. apply NoDup_cons in Hnt as [Hnt _].
  assert ((cg_head t ∉ g_free g) /\ cg_pkt t ∉ (g_free g ++ [cg_head t])) as [Fh Fp].
  { assert (forall x, x ∈ cg_idx t -> x ∉ g_free g) as Hx by (intros x Hx Hf; apply (Hnf x Hf), elem_of_app; by left).
    unfold cg_idx in Hx. split; [apply Hx; rewrite !elem_of_cons; auto|]. rewrite elem_of_app, list_elem_of_singleton. intros [Hf|E].
    - apply (Hx (cg_pkt t)); [rewrite !elem_of_cons; auto|done].
    - apply Hnt. rewrite E. apply elem_of_cons. by left. }
  pose proof (vn_out_room _ _ _ _ _ _ HI) as Hroom.
  unfold return_one. do 3 wp_step. rewrite li_num. eapply wp_lift; [by apply umod_ok|]. wp_step.
  rewrite Eu in li_used. cbn [map] in li_used. pose proof (ring_holds_first _ _ _ _ _ li_used) as He.
  rewrite list_lookup_fmap in He. destruct (vu_ring _ !! Z.to_nat (ph_i ph mod 512)) as [e|] eqn:Ee; [|done].
  injection He as He. pose proof (slot_range 512 count_range (ph_i ph)) as Hslot.
  eapply wp_lift; [apply load_ok; [lia|exact Ee]|]. rewrite He. wp_step.
  apply (vn_load_desc _ _ _ _ (proj1 Rh) Hd0). wp_step. apply wp_assert; [by destruct dir|]. cbn [head_desc vd_next]. wp_step.
  eapply wp_lift; [by apply umod_ok|]. rewrite Z.mod_small by done. wp_step. apply (vn_load_desc _ _ _ _ (proj1 Rp) Hd1).
  wp_step. apply wp_assert; [by destruct dir|]. cbn [vd_addr vd_len]. unfold on_queue. do 2 wp_step.
  assert (mk_buff (frame dir (cg_buf t)).1 (match dir with Rx => u16 (frame dir (cg_buf t)).2 | Tx => 0 end) = back dir (cg_addr t)) as ->
    by by destruct dir.
  apply net_enqueue_spec; [done|apply Hroom; destruct (sailing g); [by apply not_elem_of_nil in Ht|cbn; lia]|].
  intros q Hq E1 E2 E3. wp_step. apply wp_assert; [done|].
  wp_step. apply (vn_free_desc _ (g_free g)); [done..|]. intros ia1 H1.
  wp_step. apply (vn_load_desc _ _ (head_desc cfg dir t)); [lia|exact Hd0|]. cbn [head_desc vd_next].
  wp_step. eapply vn_free_desc; [exact H1|done..|]. intros ia2 H2.
  unfold count_descs. do 3 wp_step. cbn [ln_last_desc set_ln_ialloc set_ln_queue].
  pose proof (vn_descs _ _ _ _ _ _ HI) as Hdescs. pose proof (vn_sailing_length g) as Hsl.
  rewrite li_count, Eu in *. cbn [length] in *.
  rewrite (proj2 (Z.leb_le _ _)), (proj2 (Z.ltb_lt _ _)) by lia. cbn [andb]. do 3 wp_step. cbn [ln_last_desc set_ln_last_desc].
  apply wp_assert; [apply Z.leb_le; lia|].
  pose proof (returned_inv _ _ _ _ _ _ q ia2 HI Hn Eu Hq E1 E2 E3 H2) as HI'. rewrite li_count in HI'.
  eapply HQ; [exact HI'|done|]. unfold heard, net_in. cbn [ln_queue ln_peer set_ln_last_desc set_ln_ialloc set_ln_queue].
  destruct (net_rest_inv _ _ _ E3 E2) as (_ & _ & _ & Er). unfold side_out in Er. rewrite other_other in Er. by rewrite Er.
Qed.
End lanes.
