(* ===== verification/VirtioNetOps.v ===== *)
(** * The virtio network driver: its loops

    [provide] and [return_] of a lane, with device and virtualisers running
    beside them, and the interrupt handler. *)

From stdpp Require Import functions.
From S2P Require Import Prelude Fifo Ialloc NetQueue Microkit HwRing VirtQueue VirtioNet VirtioNetInv VirtioNetSpec.

(** The phase of a lane, and that of the other. *)
Definition two {A} (dir : dirn) (x y : A) (d : dirn) : A := if decide (d = dir) then x else y.

Lemma two_here {A} dir (x y : A) : two dir x y dir = x.
Proof. by destruct dir. Qed.
Lemma two_there {A} dir (x y : A) : two dir x y (flip dir) = y.
Proof. by destruct dir. Qed.
Lemma two_swap {A} dir (x y : A) d : two dir x y d = two (flip dir) y x d.
Proof. by destruct dir, d. Qed.

Section ops.
Context (cfg : vnet_setup).
Hypothesis Haddr : 0 <= ne_paddr cfg /\ ne_paddr cfg + HW_RING_SIZE < 2 ^ 64.
Implicit Types (u : vnet) (g : dirn -> voyage) (x y : phase).

Section lane.
Context (dir : dirn).

#[local] Abbreviation ln u := (vn_lane dir u).
#[local] Abbreviation inq l := (net_items (side_in dir) (ln_queue l)).

Definition ship x y g u : Prop := vnet_inv cfg (two dir x y) g u.

(** What an operation of the lane leaves of the other one. *)
Definition beside g u g' u' : Prop :=
  (exists k, drifts (flip dir) k (g (flip dir)) (vn_lane (flip dir) u) (g' (flip dir)) (vn_lane (flip dir) u')) /\
  vn_live u' = vn_live u.

Lemma beside_refl g u : beside g u g u.
Proof. split; [|done]. exists 0%nat. apply drifts_refl. Qed.
Lemma beside_trans g u g' u' g'' u'' : beside g u g' u' -> beside g' u' g'' u'' -> beside g u g'' u''.
Proof. intros [[k D] L] [[k' D'] L']. split; [|congruence]. exists (k + k')%nat. by eapply drifts_trans. Qed.
Lemma beside_passes ph k g u g' u' : passes cfg ph k g u g' u' -> beside g u g' u'.
Proof. intros (_ & L & D). split; [|done]. exists (k (flip dir)). apply D. Qed.
Lemma beside_step gx g u u' : same_beside dir u u' -> beside g u (<[dir := gx]> g) u'.
Proof.
  intros (E & _ & L & _). split; [|done]. exists 0%nat. rewrite E, fn_lookup_insert_ne by (by destruct dir). apply drifts_refl.
Qed.

Lemma ship_lane x y g u : ship x y g u -> lane_inv cfg dir x (vn_interrupt u) (g dir) (ln u).
Proof. intros [H _]. specialize (H dir). by rewrite two_here in H. Qed.

(** The driver changes its lane. *)
Lemma ship_step x y g u x' gx u' :
  ship x y g u -> lane_inv cfg dir x' (vn_interrupt u) gx (ln u') -> same_beside dir u u' -> ship x' y (<[dir := gx]> g) u'.
Proof.
  intros (H & Hh & Hv) Hl (E & Ei & El & _ & Eh). split; [|split; [congruence|by rewrite El, Ei]]. rewrite Ei.
  apply (both_dirs _ dir).
  - by rewrite two_here, fn_lookup_insert.
  - rewrite two_there, fn_lookup_insert_ne by (by destruct dir). rewrite E. specialize (H (flip dir)). by rewrite two_there in H.
Qed.

(** A change of the lane alone, with the phase it leads to. *)
Lemma wp_ship {A} (m : M lane A) x y g u (Q : A -> vnet -> Prop) :
  ship x y g u ->
  wp m (ln u) (fun a l' => exists x' gx, lane_inv cfg dir x' (vn_interrupt u) gx l' /\
    forall u', ship x' y (<[dir := gx]> g) u' -> ln u' = l' -> same_beside dir u u' -> beside g u (<[dir := gx]> g) u' -> Q a u') ->
  wp (on_lane dir m) u Q.
Proof.
  intros HI Hm. unfold on_lane. wp_step. eapply wp_mono; [exact Hm|]. intros a l' (x' & gx & Hl & HQ).
  pose proof (same_set dir l' u) as Hs. apply HQ; [|by destruct dir|done|by apply beside_step].
  eapply ship_step; [done|by destruct dir|done].
Qed.

(** Changes that do not show in the invariant: the phase may be weakened. *)
Lemma inv_signal_in x irq v l b :
  lane_inv cfg dir x irq v l -> lane_inv cfg dir x irq v (set_ln_queue (net_set_signalled (side_in dir) b (ln_queue l)) l).
Proof.
  intros []. split; try done; cbn [set_ln_queue ln_queue ln_peer np_sent np_taken np_waiting];
    rewrite ?net_set_signalled_items, ?net_set_signalled_wf, ?net_set_signalled_capacity; try done.
  unfold net_out. intros Hw. destruct (li_wait Hw) as [E1 E2]. split; [|done]. rewrite <- E1. by destruct dir.
Qed.

Lemma vn_full_spec x irq v l :
  lane_inv cfg dir x irq v l -> virtio_avail_full l = bool_decide (512 <= ln_last_desc l) /\ 0 <= ln_last_desc l <= 512.
Proof.
  intros HI. pose proof (vn_descs _ _ _ _ _ _ HI) as H. rewrite vn_sailing_length in H. destruct HI.
  assert (0 <= ln_last_desc l <= 512) as Hr by lia. split; [|done]. unfold virtio_avail_full. rewrite li_num, u32_small by (unfold is_u32; lia).
  apply eq_bool_prop_intro. by rewrite !Is_true_true, Z.leb_le, bool_decide_eq_true.
Qed.

Lemma provide_more_spec x y g u :
  ship x y g u -> provide_more dir u = true <-> ln_last_desc (ln u) < 512 /\ inq (ln u) <> [].
Proof.
  intros HI%ship_lane. destruct (vn_full_spec _ _ _ _ HI) as [E _]. unfold provide_more.
  rewrite E, andb_true_iff, !negb_true_iff, bool_decide_eq_false. pose proof (net_empty_spec _ _ (li_in _ _ _ _ _ _ HI)) as He.
  destruct (net_queue_empty _ _); (split; intros [H1 H2]; split; try done; try lia; intuition congruence).
Qed.

Lemma provide_work_spec x y g u :
  ship x y g u -> provide_work dir u = (length (inq (ln u)) + puts dir (concat (vn_script u)))%nat.
Proof. intros HI%ship_lane. unfold provide_work, net_in. by rewrite net_length_spec by apply HI. Qed.

(** ** A buffer is provided *)

Lemma take_and_describe x y g u b m (Q : unit -> vnet -> Prop) :
  ship x y g u -> g_prep (g dir) = [] -> inq (ln u) = b :: m -> ln_last_desc (ln u) < 512 ->
  (forall g' u' t, ship x y g' u' -> g_prep (g' dir) = [t] -> inq (ln u') = m -> ln_last_desc (ln u') = ln_last_desc (ln u) ->
     vn_script u' = vn_script u -> beside g u g' u' -> Q tt u') ->
  wp (on_lane dir (on_queue (net_dequeue (side_in dir)))) u (fun r u1 =>
    exists buffer, r = Some buffer /\ wp (describe cfg dir buffer) u1 Q).
Proof.
  intros HI Ep Ein Hroom HQ. pose proof (ship_lane _ _ _ _ HI) as Hl. pose proof HI as (_ & Hh & _).
  pose proof (vn_descs _ _ _ _ _ _ Hl) as Hdescs. pose proof (vn_sailing_length (g dir)) as Hsl.
  assert (exists h p fl, g_free (g dir) = h :: p :: fl) as (h & p & fl & Ef).
  { rewrite (li_count _ _ _ _ _ _ Hl) in Hroom. rewrite Ep in Hsl. cbn [length] in Hsl.
    destruct (g_free (g dir)) as [|h [|p fl]]; cbn [length] in Hdescs; [lia..|]. by exists h, p, fl. }
  unfold on_lane, on_queue. do 2 wp_step. eapply net_dequeue_spec; [by apply Hl|exact Ein|]. intros q Hq E1 E2 E3.
  exists b. split; [done|].
  set (u1 := set_vn_lane dir (set_ln_queue q (ln u)) u). assert (same_beside dir u u1) as Hs1 by apply same_set.
  eapply (describe_spec cfg dir u1 (set_ln_queue q (ln u)) b h p fl); try apply Hl.
  - by destruct dir.
  - rewrite <- Ef. apply Hl.
  - destruct Hs1 as (_ & _ & _ & _ & E). by rewrite E.
  - intros u' nx ia Hia El Hs2.
    assert (same_beside dir u u') as Hs.
    { destruct Hs1 as (A1 & A2 & A3 & A4 & A5), Hs2 as (B1 & B2 & B3 & B4 & B5). split_and!; congruence. }
    pose proof (described_inv cfg dir _ _ _ _ (mk_cargo h p b) fl nx ia q m Hl Ep Ef Hia Ein Hq E1 E2 E3) as HI'. rewrite <- El in HI'.
    apply (HQ (<[dir := prepared (g dir) (mk_cargo h p b) fl]> g) u' (mk_cargo h p b)).
    + by eapply ship_step.
    + by rewrite fn_lookup_insert.
    + rewrite El. exact E1.
    + by rewrite El.
    + apply Hs.
    + by apply beside_step.
Qed.

(** ** Providing *)

Lemma with_nt_twice a b x : with_nt a (with_nt b x) = with_nt a x.
Proof. done. Qed.

(** A run of [provide] from [u0]: [tr] says whether something was made
    available. *)
Definition providing x y g0 u0 (tr : bool) g u : Prop :=
  ship (with_nt tr x) y g u /\ g_prep (g dir) = [] /\ beside g0 u0 g u.

Lemma providing_passes x y g0 u0 tr k g u g' u' :
  providing x y g0 u0 tr g u -> passes cfg (two dir (with_nt tr x) y) k g u g' u' -> providing x y g0 u0 tr g' u'.
Proof.
  intros (HI & Ep & Hb) Hp. pose proof Hp as (HI' & _ & Hd). destruct (Hd dir) as (Ep' & _).
  split_and!; [done|congruence|]. eapply beside_trans; [done|by eapply beside_passes].
Qed.

Lemma provide_body_spec x y g0 u0 r tr g u :
  providing x y g0 u0 tr g u -> provide_more dir u = true ->
  wp (provide_body cfg dir) (u, (r, tr)) (fun _ p =>
    p.2 = (r, true) /\ (exists g', providing x y g0 u0 true g' p.1) /\
    (provide_work dir p.1 < provide_work dir u)%nat /\ (puts dir (concat (vn_script p.1)) <= puts dir (concat (vn_script u)))%nat).
Proof.
  intros (HI & Ep & Hb) Hmore. pose proof (provide_more_spec _ _ _ _ HI) as Hm. apply Hm in Hmore as [Hroom Hne].
  rewrite (provide_work_spec _ _ _ _ HI). destruct (nil_or_cons (inq (ln u))) as [|(b & m & Ein)]; [done|].
  unfold provide_body. do 2 wp_step.
  eapply wp_mono; [apply (take_and_describe _ _ _ _ b m (fun _ u1 => exists g1 t, ship (with_nt tr x) y g1 u1 /\ g_prep (g1 dir) = [t] /\
     inq (ln u1) = m /\ ln_last_desc (ln u1) = ln_last_desc (ln u) /\ vn_script u1 = vn_script u /\ beside g u g1 u1) HI Ep Ein Hroom); eauto 10|].
  cbv beta. intros o u1 (buffer & -> & Hd). do 2 wp_step. eapply wp_mono; [exact Hd|]. cbv beta. clear Hd.
  intros [] u2 (g2 & t & HI2 & Ep2 & Ein2 & Ed2 & Es2 & Hb2).
  do 2 wp_step. eapply wp_look; [exact Haddr|exact HI2|]. intros g3 u3 k3 Hp3 Hk3.
  pose proof Hp3 as (HI3 & _ & Hd3). destruct (Hd3 dir) as (Ep3 & _ & Ed3 & _ & El3).
  pose proof (ship_lane _ _ _ _ HI3) as Hl3. destruct (vn_full_spec _ _ _ _ Hl3) as [_ Hr3].
  do 2 wp_step. eapply (wp_ship _ (with_nt tr x) y g3 u3); [exact HI3|]. apply publish_spec; [lia|].
  exists (with_nt true x), (shipped (g3 dir) t). split; [rewrite <- (with_nt_twice true tr); apply vn_publish_inv; [done|congruence]|].
  intros u4 HI4 El4 (_ & _ & _ & Es4 & _) Hb4. do 2 wp_step. eapply wp_look; [exact Haddr|exact HI4|]. intros g5 u5 k5 Hp5 Hk5.
  pose proof Hp5 as (HI5 & _ & Hd5). destruct (Hd5 dir) as (Ep5 & _ & _ & _ & El5). do 3 wp_step. cbn [fst snd].
  pose proof (provide_work_spec _ _ _ _ HI5) as Hw5. rewrite Hw5, Ein. specialize (Hk3 dir). specialize (Hk5 dir).
  rewrite El4 in El5. cbn [publish ln_queue] in El5. rewrite Ein2 in El3. rewrite Es2 in Hk3. rewrite Es4 in Hk5. cbn [length].
  split_and!; [done| |lia|lia]. exists g5. split_and!; [done| |].
  - rewrite Ep5. by rewrite fn_lookup_insert.
  - eapply beside_trans; [exact Hb|]. eapply beside_trans; [exact Hb2|].
    eapply beside_trans; [by eapply beside_passes|]. eapply beside_trans; [exact Hb4|]. by eapply beside_passes.
Qed.

(** The inner loop. *)
Lemma provide_inner_spec x y g0 u0 r tr g u (Q : unit -> vnet * (bool * bool) -> Prop) :
  providing x y g0 u0 tr g u ->
  (forall tr' g' u', providing x y g0 u0 tr' g' u' -> provide_more dir u' = false ->
     (puts dir (concat (vn_script u')) <= puts dir (concat (vn_script u)))%nat -> Q tt (u', (r, tr'))) ->
  wp (loop (fun p => provide_work dir p.1) (fun p => provide_more dir p.1) (provide_body cfg dir)) (u, (r, tr)) Q.
Proof.
  intros HP HQ. apply (wp_loop (fun p : vnet * (bool * bool) => p.2.1 = r /\ (exists g', providing x y g0 u0 p.2.2 g' p.1) /\
    (puts dir (concat (vn_script p.1)) <= puts dir (concat (vn_script u)))%nat)).
  - cbn [fst snd]. eauto.
  - intros [v [r' tr']] (Er & [g' H] & Hle) Hmore. cbn [fst snd] in *. subst r'. eapply wp_mono; [by eapply provide_body_spec|].
    cbv beta. intros [] [v' [? ?]] ([= -> ->] & H' & Hw & Hle'). cbn [fst snd] in *. split; [|done]. split_and!; [done..|lia].
  - intros [v [r' tr']] (Er & [g' H] & Hle) Hmore. cbn [fst snd] in *. subst r'. by eapply HQ.
Qed.

Lemma providing_signal x y g0 u0 tr g u b (Q : unit -> vnet -> Prop) :
  providing x y g0 u0 tr g u ->
  (forall g' u', providing x y g0 u0 tr g' u' -> vn_script u' = vn_script u ->
     ln u' = set_ln_queue (net_set_signalled (side_in dir) b (ln_queue (ln u))) (ln u) -> Q tt u') ->
  wp (on_lane dir (on_queue (modify (net_set_signalled (side_in dir) b)))) u Q.
Proof.
  intros (HI & Ep & Hb) HQ. eapply wp_ship; [exact HI|]. unfold on_queue. do 2 wp_step.
  exists (with_nt tr x), (g dir). split; [apply inv_signal_in, (ship_lane _ _ _ _ HI)|]. intros u' HI' El Hs Hb'.
  apply (HQ (<[dir := g dir]> g)); [|apply Hs|done]. split_and!; [done|by rewrite fn_lookup_insert|by eapply beside_trans].
Qed.

(** Where the inner loop ends, and where the test that follows it is false. *)
Lemma provide_done x y g0 u0 tr g u :
  providing x y g0 u0 tr g u -> provide_more dir u = false -> ln_last_desc (ln u) < 512 -> inq (ln u) = [].
Proof.
  intros (HI & _) E H. destruct (decide (inq (ln u) = [])) as [|Hne]; [done|].
  by rewrite (proj2 (provide_more_spec _ _ _ _ HI)) in E.
Qed.
Lemma provide_done_rests x y g0 u0 tr g u : providing x y g0 u0 tr g u -> provide_more dir u = false -> rests dir (ln u).
Proof.
  intros HP E. destruct (Z.lt_ge_cases (ln_last_desc (ln u)) 512); [left; by eapply provide_done|by right; left].
Qed.

(** One round: it is the last one, or the virtualiser has put something. *)
Lemma provide_outer_spec x y g0 u0 tr g u :
  providing x y g0 u0 tr g u ->
  wp (provide_outer cfg dir) (u, (true, tr)) (fun _ p => exists g', providing x y g0 u0 p.2.2 g' p.1 /\
    (puts dir (concat (vn_script p.1)) + (if p.2.1 then 1 else 0) < puts dir (concat (vn_script u)) + 1)%nat /\
    (p.2.1 = false -> heard dir (ln p.1) /\ rests dir (ln p.1))).
Proof.
  intros HP. unfold provide_outer. wp_step. eapply provide_inner_spec; [exact HP|]. intros tr1 g1 u1 HP1 Hstop Hle1.
  pose proof (provide_done _ _ _ _ _ _ _ HP1 Hstop) as Hin1. pose proof HP1 as (HI1 & _).
  do 2 wp_step. eapply wp_look; [exact Haddr|exact HI1|]. intros ga ua ka Hpa Hka. specialize (Hka dir).
  pose proof (providing_passes _ _ _ _ _ _ _ _ _ _ HP1 Hpa) as HPa. destruct Hpa as (_ & _ & Hda). destruct (Hda dir) as (_ & _ & Eda & _ & Ela).
  do 2 wp_step. eapply providing_signal; [exact HPa|]. intros g2 u2 HP2 Es2 El2.
  do 2 wp_step. pose proof HP2 as (HI2 & _). eapply wp_look; [exact Haddr|exact HI2|]. intros g3 u3 k3 Hp3 Hk3. specialize (Hk3 dir).
  pose proof (providing_passes _ _ _ _ _ _ _ _ _ _ HP2 Hp3) as HP3. pose proof HP3 as (HI3 & _).
  destruct Hp3 as (_ & _ & Hd3). destruct (Hd3 dir) as (_ & _ & Ed3 & Hh3 & El3).
  assert (ln_last_desc (ln u2) = ln_last_desc (ln ua) /\ inq (ln u2) = inq (ln ua)) as [Ed2 Ei2]
    by (rewrite El2; cbn [ln_last_desc set_ln_queue ln_queue]; by rewrite net_set_signalled_items).
  rewrite Es2 in Hk3. do 2 wp_step. cbn [fst snd]. destruct (provide_more dir u3) eqn:E3.
  - apply (provide_more_spec _ _ _ _ HI3) in E3 as [Hroom Hne]. do 2 wp_step. eapply providing_signal; [exact HP3|]. intros g4 u4 HP4 Es4 _.
    wp_step. cbn [fst snd]. exists g4. split_and!; [done| |done]. rewrite Es4. rewrite Ei2 in El3. rewrite Hin1 in Ela by lia. cbn [length] in Ela.
    destruct (inq (ln u3)); [done|]. cbn [length] in El3. lia.
  - wp_step. cbn [fst snd]. exists g3. split_and!; [done|lia|]. intros _.
    split; [|by eapply provide_done_rests]. apply Hh3. left. rewrite El2. unfold net_in. by destruct dir.
Qed.

(** The device is told. *)
Lemma kick_inv x irq v l (live : bool) :
  lane_inv cfg dir (with_nt true x) irq v l ->
  lane_inv cfg dir (with_nt false x) irq v
    (set_ln_device (if live then set_dv_kicked true (ln_device l) else set_dv_early true (ln_device l)) l).
Proof. intros []. destruct live; (split; try done); cbn; auto. Qed.

Lemma ship_events x y g u e : ship x y g u -> ship x y g (set_vn_events e u).
Proof. done. Qed.
Lemma beside_events g u g' u' e : beside g u g' u' -> beside g u g' (set_vn_events e u').
Proof. done. Qed.

Lemma provide_spec x y g u (Q : unit -> vnet -> Prop) :
  ship x y g u -> ph_nt x = false -> g_prep (g dir) = [] ->
  (forall g' u', ship x y g' u' -> g_prep (g' dir) = [] -> beside g u g' u' -> heard dir (ln u') -> rests dir (ln u') -> Q tt u') ->
  wp (provide cfg dir) u Q.
Proof.
  intros HI Hnt Ep HQ. assert (with_nt false x = x) as Ex by (destruct x; cbn in *; by subst).
  unfold provide. wp_step. eapply wp_look; [exact Haddr|exact HI|]. intros g1 u1 k1 Hp1 _.
  assert (providing x y g u false g1 u1) as HP1.
  { eapply (providing_passes x y g u false k1 g u); [|by rewrite Ex]. split_and!; [by rewrite Ex|done|apply beside_refl]. }
  do 2 wp_step.
  apply (wp_loop_le (fun p => (exists g', providing x y g u p.2.2 g' p.1) /\ (p.2.1 = false -> heard dir (ln p.1) /\ rests dir (ln p.1)))
           (fun p => puts dir (concat (vn_script p.1)) + (if p.2.1 then 1 else 0))%nat).
  - cbn [fst snd]. split; [by exists g1|done].
  - cbn [fst snd]. lia.
  - intros [v [r tr]] [[g' HP] _] Hr. cbn [fst snd] in *. subst r. eapply wp_mono; [by eapply provide_outer_spec|].
    cbv beta. intros [] p (g2 & HP2 & Hlt & Hres). split; [split; [by exists g2|done]|lia].
  - intros [v [r tr]] [[g2 (HI2 & Ep2 & Hb2)] Hres] Hr. cbn [fst snd] in *. subst r. destruct (Hres eq_refl) as [Hh Hs]. clear Hres.
    destruct tr; cbn [when].
    + unfold kick, emit. do 4 wp_step. eapply wp_ship; [by apply ship_events, HI2|]. wp_step.
      exists (with_nt false x), (g2 dir). split; [apply kick_inv, (ship_lane _ _ _ _ HI2)|]. rewrite Ex. intros u3 HI3 El _ Hb3.
      eapply HQ; [exact HI3|by rewrite fn_lookup_insert| | |]; [|unfold heard, rests, net_in in *; rewrite El; by destruct dir..].
      eapply beside_trans; [apply beside_events; exact Hb2|exact Hb3].
    + wp_step. rewrite Ex in HI2. by eapply HQ.
Qed.

(** ** Handing on *)

(** [m] used entries are still to be looked at; [c] have been. *)
Definition at_used x (s i : Z) (m : nat) (c : Z) : phase := mk_phase s i m (ph_nt x) (0 <? c).

Lemma all_seen x irq v l : lane_inv cfg dir x irq v l ->
  lane_inv cfg dir (mk_phase (ph_s x) (ph_i x) (length (g_used v)) (ph_nt x) (ph_mv x)) irq v l.
Proof. intros []. split; try done. by left. Qed.

Lemma used_bound x irq v l : lane_inv cfg dir x irq v l -> (length (g_used v) <= 256)%nat.
Proof. intros HI. pose proof (vn_descs _ _ _ _ _ _ HI). pose proof (vn_sailing_length v). lia. Qed.

Lemma ship_phase x x' y g u : ship x y g u -> lane_inv cfg dir x' (vn_interrupt u) (g dir) (ln u) -> ship x' y g u.
Proof.
  intros (H & Hh & Hv) Hl. split; [|done]. apply (both_dirs _ dir); [by rewrite two_here|].
  specialize (H (flip dir)). by rewrite two_there in *.
Qed.

Lemma return_room_ok x y g u : ship x y g u -> ph_n x <> 0%nat -> return_room dir u = true.
Proof.
  intros HI%ship_lane Hn. pose proof (vn_out_room _ _ _ _ _ _ HI) as Hr. pose proof (vn_sailing_length (g dir)).
  destruct HI. destruct dir; [done|]. cbn [return_room]. apply negb_true_iff, net_full_room; [done|]. apply Hr. lia.
Qed.

(** The virtualiser is notified. *)
Definition signalled l : lane :=
  set_ln_peer (set_np_waiting false (ln_peer l)) (set_ln_queue (net_set_signalled (side_out dir) 1 (ln_queue l)) l).

Lemma wp_signal u (Q : unit -> vnet -> Prop) :
  Q tt (set_vn_events (vn_events u ++ [Notify (virt cfg dir)]) (set_vn_lane dir (signalled (ln u)) u)) ->
  wp (on_lane dir (on_queue (modify (net_set_signalled (side_out dir) 1)));; notify cfg dir) u Q.
Proof. unfold signalled, notify, on_lane, on_queue, emit. intros HQ. repeat wp_step. destruct u. destruct dir; exact HQ. Qed.

Lemma heard_signalled l : heard dir l -> heard dir (signalled l).
Proof. unfold heard, net_in, signalled. by destruct dir. Qed.

Lemma signalled_inv x irq v l :
  lane_inv cfg dir x irq v l -> lane_inv cfg dir (mk_phase (ph_s x) (ph_i x) (ph_n x) (ph_nt x) false) irq v (signalled l).
Proof.
  intros []. split; try done; cbn [signalled set_ln_peer set_ln_queue ln_queue ln_peer np_sent np_taken np_waiting set_np_waiting];
    rewrite ?net_set_signalled_items, ?net_set_signalled_wf, ?net_set_signalled_capacity; done.
Qed.

Lemma unsignalled_inv x irq v l :
  lane_inv cfg dir x irq v l -> ph_mv x && net_require_signal (side_out dir) (ln_queue l) = false ->
  lane_inv cfg dir (mk_phase (ph_s x) (ph_i x) (ph_n x) (ph_nt x) false) irq v l.
Proof.
  intros [] H. split; try done. intros Hw. destruct (li_wait Hw) as [E [|Hmv]]; [auto|].
  rewrite Hmv in H. unfold net_require_signal in H. cbn [andb] in H. apply Z.eqb_neq in H. done.
Qed.

Lemma return_spec x y g u (Q : unit -> vnet -> Prop) :
  ship x y g u -> ph_i x = ph_s x -> ph_mv x = false -> g_prep (g dir) = [] ->
  (forall g' u' s, ship (mk_phase s s 0 (ph_nt x) false) y g' u' -> g_prep (g' dir) = [] -> beside g u g' u' ->
     (heard dir (ln u) -> heard dir (ln u')) -> Q tt u') ->
  wp (return_ cfg dir) u Q.
Proof.
  intros HI Hi Hmv Ep HQ. unfold return_. do 3 wp_step. rewrite (li_last _ _ _ _ _ _ (ship_lane _ _ _ _ HI)).
  eapply wp_look; [exact Haddr|exact HI|]. intros g1 u1 k1 Hp1 _. pose proof Hp1 as (HI1 & _ & Hd1).
  destruct (Hd1 dir) as (Ep1 & _ & _ & Hh1 & _). pose proof (ship_lane _ _ _ _ HI1) as Hl1. pose proof (used_bound _ _ _ _ Hl1) as Hub.
  assert (heard dir (ln u) -> heard dir (ln u1)) as Hheard1 by (intros H; by destruct (Hh1 H)).
  pose proof (li_i _ _ _ _ _ _ Hl1) as His. rewrite Hi in His. unfold is_u16 in His.
  do 2 wp_step. cbv zeta. rewrite (li_used_idx _ _ _ _ _ _ Hl1), Hi. set (len := length (g_used (g1 dir))) in *.
  set (s := ph_s x) in *. set (curr := u16 (s + Z.of_nat len)).
  set (I := fun p : vnet * (Z * Z) => exists m g', 0 <= p.2.2 /\ p.2.2 + Z.of_nat m = Z.of_nat len /\ p.2.1 = u16 (s + p.2.2) /\
    ship (at_used x s p.2.1 m p.2.2) y g' p.1 /\ g_prep (g' dir) = [] /\ beside g u g' p.1 /\ (heard dir (ln u) -> heard dir (ln p.1))).
  do 2 wp_step. apply (wp_loop_le I (fun p => (len - Z.to_nat p.2.2)%nat)).
  - exists len, g1. cbn [fst snd]. split_and!; try done; try lia.
    + by rewrite Z.add_0_r, u16_small.
    + eapply ship_phase; [exact HI1|]. unfold at_used. pose proof (all_seen _ _ _ _ Hl1) as H. rewrite Hi, Hmv in H. exact H.
    + congruence.
    + eapply beside_passes, Hp1.
  - cbn [fst snd]. unfold curr, len in *. uint_lia.
  - intros [v [i c]] (m & g2 & Hc & Hm & Ei & HI2 & Ep2 & Hb2 & Hh2) Hgo. cbn [fst snd] in *.
    apply andb_true_iff in Hgo as [Hne%negb_true_iff%Z.eqb_neq _].
    assert (m <> 0%nat) as Hm0. { intros ->. apply Hne. rewrite Ei. unfold curr. do 2 f_equal. lia. }
    unfold return_body. do 2 wp_step. cbn [snd]. do 2 wp_step. eapply wp_ship; [exact HI2|]. cbn [fst snd].
    apply (return_one_spec cfg dir _ _ _ _ _ (ship_lane _ _ _ _ HI2) Hm0). intros gx l' Hl' Epx Hhx.
    exists (at_used x s (u16 (i + 1)) (pred m) (c + 1)), gx. split.
    { unfold after_return, at_used in *. cbn [ph_s ph_i ph_n ph_nt] in Hl'. by rewrite (proj2 (Z.ltb_lt _ _)) by lia. }
    intros v3 HI3 El3 _ Hb3. do 2 wp_step. eapply wp_look; [exact Haddr|exact HI3|]. intros g4 v4 k4 Hp4 _.
    pose proof Hp4 as (HI4 & _ & Hd4). destruct (Hd4 dir) as (Ep4 & _ & _ & Hh4 & _). wp_step. cbn [fst snd].
    assert (u16 (c + 1) = c + 1) as Ec by (apply u16_small; unfold is_u16; lia). split.
    + exists (pred m), g4. cbn [fst snd]. rewrite Ec. split_and!; [lia|lia| |done| | |].
      * rewrite Ei, u16_add_u16. f_equal. lia.
      * rewrite Ep4, fn_lookup_insert. congruence.
      * eapply beside_trans; [exact Hb2|]. eapply beside_trans; [exact Hb3|]. by eapply beside_passes.
      * intros H. rewrite El3 in Hh4. by destruct (Hh4 (Hhx (Hh2 H))).
    + rewrite Ec. lia.
  - intros [v [i c]] (m & g2 & Hc & Hm & Ei & HI2 & Ep2 & Hb2 & Hh2) Hstop. cbn [fst snd] in *.
    assert (m = 0%nat) as ->.
    { destruct (decide (m = 0%nat)) as [|Hm0]; [done|]. exfalso. rewrite (return_room_ok _ _ _ _ HI2 Hm0), andb_true_r in Hstop.
      apply negb_false_iff, Z.eqb_eq in Hstop. rewrite Ei in Hstop. unfold curr in Hstop. uint_lia. }
    wp_step. eapply wp_ship; [exact HI2|]. wp_step.
    exists (mk_phase i i 0 (ph_nt x) (0 <? c)), (g2 dir). split.
    { pose proof (ship_lane _ _ _ _ HI2) as Hl2. pose proof (li_last _ _ _ _ _ _ Hl2) as E. cbn [at_used ph_s] in E.
      destruct Hl2. split; try done. cbn [set_ln_last_seen ln_last_seen ph_s]. by rewrite E, <- Ei. }
    intros v3 HI3 El3 _ Hb3. wp_step. eapply wp_look; [exact Haddr|exact HI3|]. intros g4 v4 k4 Hp4 _.
    pose proof Hp4 as (HI4 & _ & Hd4). destruct (Hd4 dir) as (Ep4 & _ & _ & Hh4 & _). rewrite fn_lookup_insert in Ep4.
    assert (beside g u g4 v4) as Hb4.
    { eapply beside_trans; [exact Hb2|]. eapply beside_trans; [exact Hb3|]. by eapply beside_passes. }
    assert (heard dir (ln u) -> heard dir (ln v4)) as Hheard4.
    { intros H. apply Hh4. rewrite El3. by apply Hh2. }
    pose proof (ship_lane _ _ _ _ HI4) as Hl4. assert (g_prep (g4 dir) = []) as Ep4' by congruence. do 3 wp_step.
    + apply wp_signal.
      eapply (HQ (<[dir := g4 dir]> g4) _ i).
      * apply ship_events. eapply ship_step; [exact HI4|rewrite vn_lane_set, decide_True by done; exact (signalled_inv _ _ _ _ Hl4)|apply same_set].
      * by rewrite fn_lookup_insert.
      * apply beside_events. eapply beside_trans; [exact Hb4|]. apply beside_step, same_set.
      * intros Hhd%Hheard4. cbn [vn_events set_vn_events]. apply heard_signalled in Hhd. by destruct dir.
    + eapply (HQ g4 _ i); [|done..]. eapply ship_phase; [exact HI4|]. exact (unsignalled_inv _ _ _ _ Hl4 ltac:(done)).
Qed.
End lane.

(** ** Between notifications *)

Definition resting (s : Z) : phase := mk_phase s s 0 false false.

(** Both lanes are at rest, and nothing is half described. *)
Definition at_rest g u : Prop :=
  (exists s r, vnet_inv cfg (two Tx (resting s) (resting r)) g u) /\ forall d, g_prep (g d) = [].

(** From [u] to [u'] no virtualiser stops notifying the driver, and nothing is
    left lying in the transmitting lane. *)
Definition attentive u u' : Prop :=
  (forall d, heard d (vn_lane d u) -> heard d (vn_lane d u')) /\
  (heard Tx (vn_lane Tx u) -> rests Tx (vn_lane Tx u) -> rests Tx (vn_lane Tx u')).

Lemma vnet_inv_ext ph ph' g u : (forall d, ph d = ph' d) -> vnet_inv cfg ph g u -> vnet_inv cfg ph' g u.
Proof. intros E [H Hr]. split; [|done]. intros d. rewrite <- E. apply H. Qed.

Lemma passes_attentive ph k g u g' u' : passes cfg ph k g u g' u' -> attentive u u'.
Proof.
  intros (_ & _ & Hd). split; [intros d|]; [destruct (Hd d) as (_ & _ & _ & H & _)|destruct (Hd Tx) as (_ & _ & _ & H & _)];
    intros Hh; by destruct (H Hh).
Qed.

Lemma passes_prep ph k g u g' u' : passes cfg ph k g u g' u' -> (forall d, g_prep (g d) = []) -> forall d, g_prep (g' d) = [].
Proof. intros (_ & _ & Hd) Hp d. destruct (Hd d) as (E & _). congruence. Qed.

(** The acknowledgement, when all used entries are going to be looked at. *)
Lemma ack_inv s r g u e z :
  vnet_inv cfg (two Tx (resting s) (resting r)) g u -> (vn_live u = false -> Z.testbit z 0 = false) ->
  vnet_inv cfg (two Tx (mk_phase s s (length (g_used (g Tx))) false false) (mk_phase r r (length (g_used (g Rx))) false false)) g
    (set_vn_interrupt z (set_vn_events e u)).
Proof.
  intros (H & Hh & Hv) Hz. split; [|done]. intros d. pose proof (all_seen d _ _ _ _ (H d)) as Hl. destruct d.
  all: destruct Hl; split; try done; by left.
Qed.

Lemma drifts_attentive k g u g' u' d :
  drifts d k (g d) (vn_lane d u) (g' d) (vn_lane d u') ->
  g_prep (g' d) = g_prep (g d) /\ (heard d (vn_lane d u) -> heard d (vn_lane d u') /\ (rests d (vn_lane d u) -> rests d (vn_lane d u'))).
Proof. by intros (? & _ & _ & ? & _). Qed.

Lemma net_irq_spec g u (Q : unit -> vnet -> Prop) :
  at_rest g u -> (forall g' u', at_rest g' u' -> attentive u u' -> Q tt u') -> wp (handle_irq cfg) u Q.
Proof.
  intros [(s & r & HI) Hp] HQ. unfold handle_irq. wp_step. eapply wp_look; [exact Haddr|exact HI|]. intros g1 u1 k1 Hp1 _.
  pose proof (proj1 Hp1) as HI1. pose proof (passes_prep _ _ _ _ _ _ Hp1 Hp) as Hpr1. pose proof (passes_attentive _ _ _ _ _ _ Hp1) as [Ha1 Hr1].
  do 3 wp_step.
  2: { eapply (HQ g1); [split; [by exists s, r|done]|done]. }
  wp_step. eapply wp_look; [exact Haddr|exact HI1|]. intros g2 u2 k2 Hp2 _.
  pose proof (proj1 Hp2) as HI2. pose proof (passes_prep _ _ _ _ _ _ Hp2 Hpr1) as Hpr2. pose proof (passes_attentive _ _ _ _ _ _ Hp2) as [Ha2 Hr2].
  unfold ack_vqueue, emit. do 4 wp_step.
  pose proof (ack_inv s r g2 u2 (vn_events u2 ++ [RegWrite InterruptACK VIRTIO_MMIO_IRQ_VQUEUE]) (Z.clearbit (vn_interrupt u2) 0) HI2) as HI3.
  specialize (HI3 ltac:(intros _; apply Z.clearbit_eq)).
  wp_step. eapply (return_spec Tx); [exact HI3|done|done|apply Hpr2|]. intros g4 u4 s4 HI4 Ep4 [[k4 Hb4] _] _. apply drifts_attentive in Hb4 as [Eq4 Hh4].
  wp_step. eapply (provide_spec Tx); [exact HI4|done|done|]. intros g5 u5 HI5 Ep5 [[k5 Hb5] _] Hheard5 Hrests5. apply drifts_attentive in Hb5 as [Eq5 Hh5].
  eapply (return_spec Rx); [eapply vnet_inv_ext; [|exact HI5]; apply two_swap|done|done| |].
  { cbn [flip] in *. rewrite Eq5, Eq4. apply Hpr2. }
  intros g6 u6 r6 HI6 Ep6 [[k6 Hb6] _] Hh6. apply drifts_attentive in Hb6 as [Eq6 Hh6'].
  cbn [flip] in *. destruct (Hh6' Hheard5) as [Hheard6 Hrests6].
  eapply (HQ g6).
  - split; [|intros []; [done|congruence]]. exists s4, r6. eapply vnet_inv_ext; [|exact HI6]. intros d. by rewrite two_swap.
  - split; [|intros _ _; by apply Hrests6]. intros [] Hd; [|done]. by apply Hh6, Hh5, Hh4, (Ha2 Rx), (Ha1 Rx).
Qed.
End ops.
