(* ===== verification/VirtioNetSystem.v ===== *)
(** * The virtio network driver as a whole

    From initialisation on, over any sequence of notifications and of acts of
    the device and the virtualisers: what the device finds, what is handed on,
    and what is left lying. *)

From stdpp Require Import functions.
From S2P Require Import Prelude Fifo Ring Ialloc NetQueue Microkit HwRing VirtQueue VirtioNet VirtioNetInv VirtioNetSpec VirtioNetOps.

Section system.
Context (cfg : vnet_setup).
Implicit Types (u : vnet) (g : dirn -> voyage).

Definition queue_of (dir : dirn) : net_queue_handle := match dir with Rx => ne_rx_queue cfg | Tx => ne_tx_queue cfg end.

(** What the driver asserts of its configuration and of the device, and what
    it relies on: the device accepts the features, the memory of the rings is
    zero where they have their indices, and large enough, and the queues to the
    virtualisers are empty. *)
Record net_setup_ok : Prop := {
  no_ok : ne_ok cfg = true;
  no_channels : ne_irq cfg <> ne_virt_rx cfg /\ ne_irq cfg <> ne_virt_tx cfg /\ ne_virt_rx cfg <> ne_virt_tx cfg;
  no_regs : vm_magic (ne_regs cfg) = VIRTIO_MMIO_MAGIC_VALUE /\ vm_version (ne_regs cfg) = 2 /\ vm_device_id (ne_regs cfg) = 1;
  no_features : vm_features_ok (ne_regs cfg) = true;
  no_num_max : 512 <= vm_queue_num_max (ne_regs cfg);
  no_paddr : 0 <= ne_paddr cfg /\ ne_paddr cfg + HW_RING_SIZE < 2 ^ 64;
  no_vaddr : 0 <= ne_vaddr cfg /\ ne_vaddr cfg + HW_RING_SIZE < 2 ^ 64 /\ ne_vaddr cfg mod 16 = 0;
  no_desc dir : length (mem_desc (ne_memory cfg) (desc_off dir)) = 512%nat;
  no_avail dir : va_idx (mem_avail (ne_memory cfg) (avail_off dir)) = 0 /\ length (va_ring (mem_avail (ne_memory cfg) (avail_off dir))) = 512%nat;
  no_used dir : vu_idx (mem_used (ne_memory cfg) (used_off dir)) = 0 /\ length (vu_ring (mem_used (ne_memory cfg) (used_off dir))) = 512%nat;
  no_queue dir : net_wf (side_in dir) (queue_of dir) /\ net_wf (side_out dir) (queue_of dir) /\
    net_items (side_out dir) (queue_of dir) = [] /\ Forall (fun b => buff_ok b = true) (net_items (side_in dir) (queue_of dir));
}.

(** Between two notifications: the virtualisers know when to notify the driver,
    and what waits to be transmitted waits for a reason. *)
Definition net_idle u : Prop :=
  (exists g, at_rest cfg g u) /\ (forall d, heard d (vn_lane d u)) /\ rests Tx (vn_lane Tx u).

Hypothesis Hcfg : net_setup_ok.
#[local] Abbreviation Haddr := (no_paddr Hcfg).

(** ** Notifications *)

Lemma idle_attentive g u u' : net_idle u -> at_rest cfg g u' -> attentive u u' -> net_idle u'.
Proof. intros (_ & Hh & Hr) Ha [H1 H2]. split; [by exists g|]. split; [auto|by apply H2]. Qed.

Lemma idle_script x u : net_idle u -> net_idle (set_vn_script x u).
Proof. done. Qed.
Lemma idle_events x u : net_idle u -> net_idle (set_vn_events x u).
Proof. done. Qed.

(** The driver hears of a notification. *)
Lemma hear_lane ch dir d u :
  vn_lane d (hear cfg ch dir u)
  = if decide (d = dir /\ ch = virt cfg dir) then set_ln_peer (set_np_pending false (ln_peer (vn_lane d u))) (vn_lane d u) else vn_lane d u.
Proof.
  unfold hear. destruct (Z.eqb_spec ch (virt cfg dir)) as [E|E].
  - rewrite vn_lane_set. destruct (decide (d = dir)) as [->|Hn]; [by rewrite decide_True|rewrite decide_False; [done|tauto]].
  - rewrite decide_False; [done|tauto].
Qed.

Lemma hear_rest ch dir g u : at_rest cfg g u -> at_rest cfg g (hear cfg ch dir u).
Proof.
  intros [(s & r & Hl & Hh & Hv) Hp]. split; [|done]. exists s, r.
  assert (vn_interrupt (hear cfg ch dir u) = vn_interrupt u /\ vn_headers (hear cfg ch dir u) = vn_headers u /\ vn_live (hear cfg ch dir u) = vn_live u) as (E1 & E2 & E3)
    by (unfold hear; destruct (_ =? _); [by destruct dir|done]).
  split; [|by rewrite E1, E2, E3]. intros d. rewrite E1, hear_lane. case_decide; [|apply Hl]. by destruct (Hl d); split.
Qed.

Lemma hear_deaf ch dir d u : virt cfg d <> ch -> vn_lane d (hear cfg ch dir u) = vn_lane d u.
Proof. intros Hn. rewrite hear_lane. destruct (decide _) as [[-> E]|]; [congruence|done]. Qed.

Definition heard_of (ch : Z) u : vnet := hear cfg ch Tx (hear cfg ch Rx u).

Lemma heard_of_rest ch g u : at_rest cfg g u -> at_rest cfg g (heard_of ch u).
Proof. intros. by apply hear_rest, hear_rest. Qed.
Lemma heard_of_lane ch d u : virt cfg d <> ch -> vn_lane d (heard_of ch u) = vn_lane d u.
Proof. intros. unfold heard_of. by rewrite !hear_deaf. Qed.

Lemma rest_ship dir g u : at_rest cfg g u -> exists s r, ship cfg dir (resting s) (resting r) g u.
Proof.
  intros [(s & r & H) _]. destruct dir; [exists r, s|by exists s, r]. eapply vnet_inv_ext; [|exact H]. apply two_swap.
Qed.
Lemma ship_rest dir s r g u : ship cfg dir (resting s) (resting r) g u -> (forall d, g_prep (g d) = []) -> at_rest cfg g u.
Proof.
  intros H Hp. split; [|done]. destruct dir; [exists r, s|by exists s, r]. eapply vnet_inv_ext; [|exact H]. apply two_swap.
Qed.

(** A lane is provided with all there is; the other is left as it was. *)
Lemma provide_rest dir g u (Q : unit -> vnet -> Prop) :
  at_rest cfg g u ->
  (forall g' u', at_rest cfg g' u' -> heard dir (vn_lane dir u') -> rests dir (vn_lane dir u') -> vn_live u' = vn_live u ->
     (heard (flip dir) (vn_lane (flip dir) u) -> heard (flip dir) (vn_lane (flip dir) u') /\
        (rests (flip dir) (vn_lane (flip dir) u) -> rests (flip dir) (vn_lane (flip dir) u'))) -> Q tt u') ->
  wp (provide cfg dir) u Q.
Proof using Hcfg.
  intros HI HQ. destruct (rest_ship dir _ _ HI) as (s & r & HS). destruct HI as [_ Hp].
  eapply (provide_spec cfg Haddr dir); [exact HS|done|apply Hp|]. intros g' u' HS' Ep [[k Hb] Hlive] Hh Hr.
  apply drifts_attentive in Hb as [Eq Hb]. eapply (HQ g'); [|done..]. eapply ship_rest; [exact HS'|].
  apply (both_dirs _ dir); [done|]. by rewrite Eq.
Qed.

Lemma notified_idle ch u (Q : unit -> vnet -> Prop) :
  net_idle u -> (forall u', net_idle u' -> Q tt u') -> wp (notified cfg ch) (heard_of ch u) Q.
Proof using Hcfg.
  intros Hu HQ. pose proof Hu as ((g & Hg) & Hh & Hr). apply (heard_of_rest ch) in Hg as Hg1. destruct (no_channels Hcfg) as (N1 & N2 & N3).
  unfold notified. destruct (Z.eqb_spec ch (ne_irq cfg)) as [->|Nirq].
  { wp_step. eapply net_irq_spec; [exact Haddr|exact Hg1|]. intros g' u' Hg' Ha. unfold emit. wp_step. apply HQ, idle_events.
    destruct Ha as [Ha1 Ha2]. split; [by exists g'|]. rewrite !heard_of_lane in * by done.
    split; [|by apply Ha2]. intros d. apply Ha1. rewrite heard_of_lane by (by destruct d). apply Hh. }
  destruct (Z.eqb_spec ch (ne_virt_rx cfg)) as [->|Nrx].
  { eapply (provide_rest Rx); [exact Hg1|]. intros g' u' Hg' Hh' _ _ Hb. cbn [flip] in Hb. rewrite (heard_of_lane _ Tx) in Hb by (cbn; congruence).
    destruct (Hb (Hh Tx)) as [Hh2 Hr2]. apply HQ. split; [by exists g'|]. split; [by intros []|by apply Hr2]. }
  destruct (Z.eqb_spec ch (ne_virt_tx cfg)) as [->|Ntx].
  { eapply (provide_rest Tx); [exact Hg1|]. intros g' u' Hg' Hh' Hr' _ Hb. cbn [flip] in Hb. rewrite (heard_of_lane _ Rx) in Hb by done.
    destruct (Hb (Hh Rx)) as [Hh2 _]. apply HQ. split; [by exists g'|]. split; [by intros []|done]. }
  wp_step. apply HQ. split; [by exists g|]. assert (forall d, vn_lane d (heard_of ch u) = vn_lane d u) as E.
  { intros d. apply heard_of_lane. destruct d; cbn; congruence. }
  rewrite E. split; [|done]. intros d. rewrite E. apply Hh.
Qed.

Lemma event_idle e u : net_idle u -> wp (run_event cfg e) u (fun _ u' => net_idle u').
Proof using Hcfg.
  intros Hu. destruct e as [a|ch script]; cbn [run_event].
  - wp_step. destruct Hu as ((g & (s & r & HI) & Hp) & Hh & Hr). destruct (act_passes cfg Haddr _ _ _ a HI) as (g' & Hpass).
    destruct (passes_attentive _ _ _ _ _ _ _ Hpass) as [H1 H2]. split; [|split; [auto|by apply H2]].
    exists g'. split; [exists s, r; apply Hpass|by eapply passes_prep].
  - do 3 wp_step. apply notified_idle; [by apply idle_script|]. intros u' Hu'. wp_step. by apply idle_script.
Qed.

Lemma events_idle es u : net_idle u -> wp (run cfg es) u (fun _ u' => net_idle u').
Proof using Hcfg.
  revert u. induction es as [|e es IH]; intros u Hu; cbn [run]; wp_step; [done|]. by wp_use (event_idle e u Hu).
Qed.

(** ** Initialisation *)

(** A lane when its virtqueue is set up. *)
Definition lane_ready (dir : dirn) (ia : ialloc) : lane :=
  mk_lane (mk_virtq 512 (mem_desc (ne_memory cfg) (desc_off dir)) (mem_avail (ne_memory cfg) (avail_off dir)) (mem_used (ne_memory cfg) (used_off dir)))
    0 0 ia (queue_of dir) (mk_net_device 0 [] [] [] false false false)
    (mk_net_peer (net_items (side_in dir) (queue_of dir)) [] false true false).

Lemma lane_ready_inv dir ia irq :
  frees ia (seqZ 0 512) -> lane_inv cfg dir (resting 0) irq (mk_voyage (seqZ 0 512) [] [] [] [] []) (lane_ready dir ia).
Proof using Hcfg.
  intros Hia. destruct (no_queue Hcfg dir) as (Hin & Hout & Eout & Hok). destruct (no_avail Hcfg dir), (no_used Hcfg dir).
  split; try done; cbn [lane_ready ln_virtq ln_queue ln_peer ln_device vq_desc vq_avail vq_used np_sent np_taken dv_done g_past g_used resting ph_i].
  - apply (no_desc Hcfg).
  - cbn [length]. rewrite Z.add_0_r. apply (fifo_bounded (O := net_fifo_ops (side_in dir)) _ Hin).
  - by left.
  - by left.
Qed.

Lemma vn_write_reg reg v a b h lv i sc ev (Q : unit -> vnet -> Prop) :
  (forall ev', Q tt (mk_vnet a b h lv i sc ev')) -> wp (write_reg reg v) (mk_vnet a b h lv i sc ev) Q.
Proof. intros HQ. unfold write_reg, emit. wp_step. apply HQ. Qed.

(** Code that does nothing but write registers. *)
Definition only_events (m : M vnet unit) : Prop := forall u, wp m u (fun _ u' => exists e, u' = set_vn_events e u).

Lemma only_reg reg v : only_events (write_reg reg v).
Proof. intros u. unfold write_reg, emit. wp_step. by eexists. Qed.
Lemma only_bind m k : only_events m -> only_events k -> only_events (m;; k).
Proof. intros Hm Hk u. wp_step. wp_use (Hm u). intros [] u1 [e ->]. by wp_use (Hk (set_vn_events e u)). Qed.
Lemma only_assert b : b = true -> only_events (assert_ b).
Proof. intros -> u. apply wp_assert; [done|]. exists (vn_events u). by destruct u. Qed.

Lemma only_setup_queue dir : only_events (setup_queue cfg dir).
Proof using Hcfg.
  unfold setup_queue, write_addr. repeat (apply only_bind); repeat apply only_reg. apply only_assert, Z.leb_le. rewrite COUNT_eq. apply Hcfg.
Qed.
Lemma only_write_mac : only_events write_mac.
Proof. unfold write_mac. repeat (apply only_bind); apply only_reg. Qed.

Lemma at_rest_events g u e : at_rest cfg g u -> at_rest cfg g (set_vn_events e u).
Proof. done. Qed.

(** The two allocations and the parts of the virtqueues. *)
Lemma aligned dir :
  u64 (ne_vaddr cfg + desc_off dir) mod 16 = 0 /\ u64 (ne_vaddr cfg + avail_off dir) mod 2 = 0 /\ u64 (ne_vaddr cfg + used_off dir) mod 4 = 0.
Proof using Hcfg.
  destruct (no_vaddr Hcfg) as (H1 & H2 & H3). unfold HW_RING_SIZE in H2.
  assert (0 <= desc_off dir < 0x10000 /\ 0 <= avail_off dir < 0x10000 /\ 0 <= used_off dir < 0x10000) as (R1 & R2 & R3) by (destruct dir; vm_compute; intuition discriminate).
  rewrite !u64_small by (unfold is_u64; lia).
  assert (desc_off dir mod 16 = 0 /\ avail_off dir mod 2 = 0 /\ used_off dir mod 4 = 0) as (E1 & E2 & E3) by by destruct dir.
  split_and!; Z.div_mod_to_equations; lia.
Qed.

Lemma provide_early dir g u (Q : unit -> vnet -> Prop) :
  at_rest cfg g u ->
  (forall g' u', at_rest cfg g' u' -> heard dir (vn_lane dir u') -> vn_live u' = vn_live u -> rests dir (vn_lane dir u') ->
     (heard (flip dir) (vn_lane (flip dir) u) -> heard (flip dir) (vn_lane (flip dir) u')) -> Q tt u') ->
  wp (provide cfg dir) u Q.
Proof using Hcfg.
  intros HI HQ. eapply provide_rest; [exact HI|]. intros g' u' H1 H2 H3 H4 H5. eapply HQ; try done. intros H. by apply H5.
Qed.

(** Nothing has been used before the device is live. *)
Lemma go_live g u e z :
  at_rest cfg g u -> vn_live u = false -> at_rest cfg g (set_vn_interrupt z (set_vn_events e (set_vn_live true u))).
Proof.
  intros [(s & r & Hl & Hh & Hv) Hp] Hlive. split; [|done]. exists s, r. split; [|split; [done|by intros [=]]].
  intros d. specialize (Hv Hlive). destruct (Hl d). split; try done.
  left. destruct li_irq as [|E]; [done|congruence].
Qed.

Lemma wp_init_ialloc dir u (Q : unit -> vnet -> Prop) :
  idxlist (ln_ialloc (vn_lane dir u)) = replicate (Z.to_nat (COUNT dir)) 0 ->
  (forall ia, frees ia (seqZ 0 512) -> Q tt (set_vn_lane dir (set_ln_ialloc ia (vn_lane dir u)) u)) -> wp (init_ialloc dir) u Q.
Proof.
  intros E HQ. unfold init_ialloc, on_lane. do 3 wp_step. rewrite E, COUNT_eq.
  destruct (ialloc_init_spec 512 (replicate (Z.to_nat 512) 0)) as (ia & Eia & Hia & Ho & Hs); [done..|].
  eapply wp_lift; [exact Eia|]. do 2 wp_step. apply HQ. exact (conj Hia (conj Ho Hs)).
Qed.

Lemma wp_setup_virtq dir u (Q : unit -> vnet -> Prop) :
  Q tt (set_vn_lane dir (set_ln_virtq (mk_virtq 512 (mem_desc (ne_memory cfg) (desc_off dir)) (mem_avail (ne_memory cfg) (avail_off dir))
          (mem_used (ne_memory cfg) (used_off dir))) (vn_lane dir u)) u) ->
  wp (setup_virtq cfg dir) u Q.
Proof using Hcfg.
  intros HQ. destruct (aligned dir) as (A1 & A2 & A3). unfold setup_virtq, on_lane. do 3 wp_step. rewrite COUNT_eq.
  do 2 (wp_step; apply wp_assert; [by apply Z.eqb_eq|]). apply wp_assert; [by apply Z.eqb_eq|done].
Qed.

(** The state in which the driver first provides. *)
Definition ready (headers : list virtio_net_hdr) (script : list (list net_act)) u : Prop :=
  exists ia1 ia2 e, frees ia1 (seqZ 0 512) /\ frees ia2 (seqZ 0 512) /\
    u = mk_vnet (lane_ready Rx ia1) (lane_ready Tx ia2) headers false 0 script e.

Definition after_ready : M vnet unit :=
  rx_provide cfg;;
  tx_provide cfg;;
  setup_queue cfg Rx;;
  setup_queue cfg Tx;;
  write_mac;;
  write_reg Status VIRTIO_DEVICE_STATUS_DRIVER_OK;;
  modify (set_vn_live true);;
  ack_vqueue.

Lemma init_ready headers script (Q : unit -> vnet -> Prop) :
  (forall u, ready headers script u -> wp after_ready u Q) -> wp (init cfg) (vnet_boot cfg headers script) Q.
Proof using Hcfg.
  intros HQ. destruct (no_regs Hcfg) as (M1 & M2 & M3).
  unfold init. wp_step. apply wp_assert; [apply Hcfg|].
  wp_step. apply wp_init_ialloc; [done|]. intros ia1 H1. wp_step. apply wp_init_ialloc; [done|]. intros ia2 H2.
  unfold init_lane, on_lane. do 6 wp_step.
  cbn [vnet_boot lane_boot vn_lane set_vn_lane set_ln_ialloc set_ln_queue ln_virtq ln_last_seen ln_last_desc ln_ialloc ln_queue ln_device ln_peer
    vn_rx vn_tx vn_headers vn_live vn_interrupt vn_script vn_events].
  unfold eth_setup, virtio_mmio_check_magic, virtio_mmio_version, virtio_mmio_check_device_id. rewrite M1, M2, M3.
  do 3 (wp_step; apply wp_assert; [done|]). do 7 (wp_step; apply vn_write_reg; intros ?).
  unfold status_read. rewrite (no_features Hcfg).
  change (negb (has VIRTIO_DEVICE_STATUS_FEATURES_OK VIRTIO_DEVICE_STATUS_FEATURES_OK)) with false. cbv iota.
  wp_step. apply wp_setup_virtq. wp_step. apply wp_setup_virtq. wp_step. apply wp_assert; [done|].
  apply HQ. exists ia1, ia2. eexists. split_and!; [done..|].
  cbn [vn_lane set_vn_lane set_ln_virtq ln_virtq ln_last_seen ln_last_desc ln_ialloc ln_queue ln_device ln_peer vn_rx vn_tx vn_headers vn_live vn_interrupt vn_script vn_events].
  unfold lane_ready, queue_of. by destruct (ne_rx_queue cfg), (ne_tx_queue cfg).
Qed.

Lemma ready_rest headers script u : length headers = 768%nat -> ready headers script u ->
  at_rest cfg (fun _ => mk_voyage (seqZ 0 512) [] [] [] [] []) u.
Proof using Hcfg.
  intros Hl (ia1 & ia2 & e & H1 & H2 & ->). split; [|done]. exists 0, 0. split; [|done]. intros [].
  - by apply (lane_ready_inv Rx).
  - by apply (lane_ready_inv Tx).
Qed.

Lemma init_idle headers script :
  length headers = 768%nat -> wp (init cfg) (vnet_boot cfg headers script) (fun _ u => net_idle u).
Proof using Hcfg.
  intros Hl. apply init_ready. intros u Hu. pose proof (ready_rest _ _ _ Hl Hu) as H0.
  assert (vn_live u = false) as Hlive by by destruct Hu as (? & ? & ? & _ & _ & ->).
  unfold after_ready. wp_step. eapply (provide_early Rx); [exact H0|]. intros g1 u1 Hg1 Hh1 Hlive1 _ _.
  wp_step. eapply (provide_early Tx); [exact Hg1|]. intros g2 u2 Hg2 Hh2 Hlive2 Hr2 Hb2. cbn [flip] in Hb2.
  wp_step. eapply wp_mono; [apply only_setup_queue|]. intros [] ? [e1 ->].
  wp_step. eapply wp_mono; [apply only_setup_queue|]. intros [] ? [e2 ->].
  wp_step. eapply wp_mono; [apply only_write_mac|]. intros [] ? [e3 ->].
  wp_step. eapply wp_mono; [apply only_reg|]. intros [] ? [e4 ->].
  unfold ack_vqueue, emit. repeat wp_step. split; [|by split; [intros []; [apply Hb2|]|]].
  exists g2. apply (go_live g2 u2); [done|congruence].
Qed.

Lemma boot_idle headers script es :
  length headers = 768%nat -> wp (boot_run cfg es) (vnet_boot cfg headers script) (fun _ u => net_idle u).
Proof using Hcfg.
  intros Hl. unfold boot_run. wp_step. eapply wp_mono; [by apply init_idle|]. intros [] u Hu. do 2 wp_step.
  by apply events_idle, idle_script.
Qed.
End system.

(** ** Properties *)

(** What a lane has done: every chain the device found is a packet; the buffers
    it fetched are the first of those put, in order, with their lengths; what
    the virtualiser gets are the first of those completed, in order, and each
    buffer fetched is completed at most once. *)
Definition lane_served (dir : dirn) (l : lane) : Prop :=
  dv_broken (ln_device l) = false /\
  dv_log (ln_device l) `prefix_of` map (frame dir) (np_sent (ln_peer l)) /\
  (exists m, np_taken (ln_peer l) ++ net_items (side_out dir) (ln_queue l) = map (back dir) (take m (dv_done (ln_device l)))) /\
  dv_done (ln_device l) ++ map nc_addr (dv_flight (ln_device l)) ≡ₚ map fst (dv_log (ln_device l)).

Lemma inv_served cfg dir ph irq g l : lane_inv cfg dir ph irq g l -> lane_served dir l.
Proof.
  intros []. split_and!; [done| | |done].
  - rewrite <- li_log. by apply prefix_app_r.
  - exists (length (g_past g)). by rewrite li_done, take_app_length.
Qed.

(** C5. From initialisation on, whatever the device and the virtualisers do
    between any two looks of the driver, and in whatever order the device
    completes: no assertion of the driver fails, no access is out of bounds and
    its loops end; in each direction the device finds proper packets, fetches
    exactly the buffers that were put into the input queue, in order, each with
    its address and length, and every buffer it completes is handed on once, in
    the order of completion; a received one with the size of the buffer as its
    length. *)
Theorem virtio_net_serves cfg headers script es :
  net_setup_ok cfg -> length headers = 768%nat ->
  exists u, boot_run cfg es (vnet_boot cfg headers script) = Ok (tt, u) /\ forall dir, lane_served dir (vn_lane dir u).
Proof.
  intros Hcfg Hl. destruct (wp_elim _ _ _ (boot_idle cfg Hcfg headers script es Hl)) as ([] & u & E & (g & (s & r & HI & _) & _) & _).
  exists u. split; [done|]. intros dir. eapply inv_served, HI.
Qed.

(** C6. Nothing is left lying: whenever no interrupt is pending, everything the
    device has completed has been handed on, and no virtualiser that sleeps has
    anything to take; and if moreover the virtualiser of the transmitter has
    notified the driver of what it put, which has been delivered, and the
    device has looked since it was last told and completed what it found, then
    all frames put into the transmit queue have been fetched, and their buffers
    are back.  (That the device was not told before it was live is a condition:
    it takes no notice then.) *)
Theorem virtio_net_nothing_left cfg headers script es :
  net_setup_ok cfg -> length headers = 768%nat ->
  exists u, boot_run cfg es (vnet_boot cfg headers script) = Ok (tt, u) /\
    (Z.testbit (vn_interrupt u) 0 = false ->
     (forall dir, let l := vn_lane dir u in
        np_taken (ln_peer l) ++ net_items (side_out dir) (ln_queue l) = map (back dir) (dv_done (ln_device l)) /\
        (np_waiting (ln_peer l) = true -> net_items (side_out dir) (ln_queue l) = [])) /\
     let l := vn_tx u in
     np_pending (ln_peer l) = false -> np_owes (ln_peer l) = false ->
     dv_early (ln_device l) = false -> dv_kicked (ln_device l) = false -> dv_flight (ln_device l) = [] ->
     net_items Active (ln_queue l) = [] /\
     dv_log (ln_device l) = map (frame Tx) (np_sent (ln_peer l)) /\
     np_taken (ln_peer l) ++ net_items Free (ln_queue l) ≡ₚ map (back Tx) (map io_or_offset (np_sent (ln_peer l)))).
Proof.
  intros Hcfg Hl. destruct (wp_elim _ _ _ (boot_idle cfg Hcfg headers script es Hl)) as ([] & u & E & (g & (s & r & HI & _) & Hp) & _ & Hr).
  exists u. split; [done|]. intros Hirq.
  assert (forall dir, g_used (g dir) = [] /\ dv_done (ln_device (vn_lane dir u)) = g_past (g dir)) as Hu.
  { intros dir. destruct (HI dir). destruct li_irq as [Hn|]; [|congruence].
    assert (g_used (g dir) = []) as Eu by (apply nil_length_inv; rewrite Hn; by destruct dir).
    split; [done|]. by rewrite li_done, Eu, app_nil_r. }
  split.
  - intros dir. cbv zeta. destruct (HI dir), (Hu dir) as [_ Ed]. split; [by rewrite Ed|]. intros Hw. destruct (li_wait Hw) as [_ [|Hm]]; [done|]. by destruct dir.
  - cbv zeta. change (vn_tx u) with (vn_lane Tx u). intros Hpend Howes Hearly Hkick Hfl. destruct (HI Tx), (Hu Tx) as [Eu Ed]. specialize (Hp Tx).
    set (l := vn_lane Tx u) in *. clearbody l. rewrite Hfl in li_flight, li_fetched. apply Forall2_nil_inv_l in li_flight as Edev.
    destruct li_kick as [Ew|[|[|]]]; [|done || congruence..]. rewrite Ew, Hp, Edev, Eu in *. cbn [length Nat.add map app] in *.
    destruct Hr as [Ei|[Hd|[|]]]; [|lia|congruence..]. change (net_items (side_in Tx) (ln_queue l)) with (net_items Active (ln_queue l)) in *.
    split; [done|]. rewrite Ei, app_nil_r in li_log. split; [done|].
    change (net_items Free (ln_queue l)) with (net_items (side_out Tx) (ln_queue l)). rewrite li_back, <- Ed. apply Permutation_map.
    rewrite app_nil_r in li_fetched. rewrite li_fetched, li_log, map_map. done.
Qed.

(** C40. The headers of the two directions overlap: the space for the headers of
    the transmitter is for half of its descriptors, but any of them may be the
    head of a chain, so that the header that the device writes before a packet
    received into the chain of a descriptor below 256 replaces that of the
    frame to be sent whose chain begins 256 descriptors later, and is what the
    device reads for it. *)
Theorem virtio_net_rx_header_overwrites_tx cfg headers script es u k c len hdr t :
  net_setup_ok cfg -> length headers = 768%nat -> boot_run cfg es (vnet_boot cfg headers script) = Ok (tt, u) -> vn_live u = true ->
  dv_flight (ln_device (vn_rx u)) !! k = Some c -> nc_head c < 256 -> cg_head t = nc_head c + 256 ->
  exists slot, net_header_at cfg (vd_addr (head_desc cfg Tx t)) = Some slot /\
    vn_headers (act_step cfg (Lane Rx (DComplete k len hdr)) u) !! Z.to_nat slot = Some hdr.
Proof.
  intros Hcfg Hl Erun Hlive Hc Hlt Ht.
  pose proof (wp_run _ _ _ _ _ Erun (boot_idle cfg Hcfg headers script es Hl)) as ((g & (s & r & HI & Hh & _) & _) & _).
  pose proof (HI Rx) as Hrx. pose proof (li_flight _ _ _ _ _ _ Hrx) as Hf. cbn [vn_lane] in Hf.
  destruct (Forall2_lookup_l _ _ _ _ _ Hf Hc) as (t' & Et & [Eh _ Es]).
  assert (0 <= cg_head t' < 512) as Hr.
  { eapply vn_range; [exact Hrx|]. apply (vn_owned_in (g Rx) t'); [|unfold cg_idx; rewrite elem_of_cons; auto].
    unfold sailing. rewrite !elem_of_app. apply list_elem_of_lookup_2 in Et. auto. }
  exists (cg_head t). split.
  - cbn [head_desc vd_addr]. apply (net_header_at_ok cfg Tx (no_paddr _ Hcfg)). lia.
  - cbn [act_step by_device]. rewrite Hlive. cbn [andb negb set_vn_lane vn_headers lane_effect vn_lane]. rewrite Hc.
    cbn [set_vn_interrupt vn_headers set_vn_headers]. rewrite Es. cbn [header_slot].
    replace (256 + cg_head t') with (cg_head t) by lia. apply list_lookup_insert_eq. lia.
Qed.

(** ** Runs *)

Definition net_queue_ex : net_queue_handle :=
  let q := mk_net_queue 0 0 0 (replicate 512 (mk_buff 0 0)) in mk_net_handle q q 512.
Definition vnet_setup_ex : vnet_setup :=
  mk_vnet_setup true 0 1 2 0x10000 0x20000 (mk_virtio_mmio VIRTIO_MMIO_MAGIC_VALUE 2 1 1024 true)
    (mk_virtq_memory (fun _ => replicate 512 (mk_virtq_desc 0 0 0 0)) (fun _ => mk_virtq_avail 0 (replicate 512 0))
       (fun _ => mk_virtq_used 0 (replicate 512 (mk_virtq_used_elem 0 0)))) net_queue_ex net_queue_ex.
Definition net_hdr_ex : virtio_net_hdr := mk_net_hdr 1 2 3 4 5 6.
Definition net_headers_ex : list virtio_net_hdr := replicate 768 (mk_net_hdr 0 0 0 0 0 0).

Lemma net_queue_ex_wf sd : net_wf sd net_queue_ex.
Proof. destruct sd; (split; cbn; try lia; [by exists 128|by vm_compute]). Qed.

Lemma vnet_setup_ex_ok : net_setup_ok vnet_setup_ex.
Proof.
  split; try done.
  - intros dir. assert (queue_of vnet_setup_ex dir = net_queue_ex) as -> by by destruct dir.
    split_and!; [apply net_queue_ex_wf..| |]; by destruct dir.
Qed.

(** The virtualiser of a direction puts a buffer and notifies. *)
Definition gives (dir : dirn) (ch addr len : Z) : list net_event :=
  [Act (Lane dir (VPut (mk_buff addr len))); Act (Lane dir VSignal); Deliver ch []].

(** Two frames are sent and one is received; the frames are completed in the
    other order, the second while the driver hands on the first. *)
Definition net_events_ex : list net_event :=
  [Act (Lane Tx VWait)] ++ gives Rx 1 0x8000 0 ++ gives Tx 2 0x4000 60 ++
  [Act (Lane Tx DFetch); Act (Lane Tx (VPut (mk_buff 0x5000 61))); Act (Lane Tx VSignal); Deliver 2 [[]; [Lane Rx DFetch]];
   Act (Lane Tx DFetch); Act (Lane Tx (DComplete 1 0 net_hdr_ex)); Act (Lane Rx (DComplete 0 70 net_hdr_ex));
   Deliver 0 [[]; [DConfig]; [Lane Tx (DComplete 0 0 net_hdr_ex)]; []; [Lane Tx VTake]]; Deliver 0 []; Act (Lane Tx DFetch)].

Lemma virtio_net_serves_witness :
  exists u, boot_run vnet_setup_ex net_events_ex (vnet_boot vnet_setup_ex net_headers_ex []) = Ok (tt, u) /\
    forall dir, lane_served dir (vn_lane dir u).
Proof. apply virtio_net_serves; [apply vnet_setup_ex_ok|reflexivity]. Defined.

Lemma virtio_net_nothing_left_witness :
  exists u, boot_run vnet_setup_ex net_events_ex (vnet_boot vnet_setup_ex net_headers_ex []) = Ok (tt, u) /\
    np_taken (ln_peer (vn_rx u)) ++ net_items Active (ln_queue (vn_rx u)) = [mk_buff 0x8000 2048] /\
    np_taken (ln_peer (vn_tx u)) ++ net_items Free (ln_queue (vn_tx u)) = [mk_buff 0x5000 0; mk_buff 0x4000 0] /\
    dv_log (ln_device (vn_tx u)) = map (frame Tx) (np_sent (ln_peer (vn_tx u))).
Proof.
  destruct (virtio_net_nothing_left vnet_setup_ex net_headers_ex [] net_events_ex vnet_setup_ex_ok eq_refl) as (u & E & H).
  exists u. split; [exact E|]. vm_compute in E. injection E as <-.
  split; [vm_compute; reflexivity|]. split; [vm_compute; reflexivity|].
  apply H; vm_compute; reflexivity.
Defined.

(** 128 frames are sent one after the other, while the chain of the first
    received packet is at the device. *)
Definition overlap_ex : list net_event :=
  gives Rx 1 0x8000 0 ++ [Act (Lane Rx DFetch)] ++
  concat (replicate 128 (gives Tx 2 0x4000 60 ++ [Act (Lane Tx DFetch); Act (Lane Tx (DComplete 0 0 net_hdr_ex)); Deliver 0 []; Act (Lane Tx VTake)])) ++
  gives Tx 2 0x4000 60.

Lemma virtio_net_rx_header_overwrites_tx_witness :
  exists u slot, boot_run vnet_setup_ex overlap_ex (vnet_boot vnet_setup_ex net_headers_ex []) = Ok (tt, u) /\
    net_header_at vnet_setup_ex (vd_addr (head_desc vnet_setup_ex Tx (mk_cargo 256 257 (mk_buff 0x4000 60)))) = Some slot /\
    vn_headers (act_step vnet_setup_ex (Lane Rx (DComplete 0 70 net_hdr_ex)) u) !! Z.to_nat slot = Some net_hdr_ex.
Proof.
  destruct (boot_run vnet_setup_ex overlap_ex (vnet_boot vnet_setup_ex net_headers_ex [])) as [[[] u]|] eqn:E; [|vm_compute in E; discriminate].
  destruct (virtio_net_rx_header_overwrites_tx vnet_setup_ex net_headers_ex [] overlap_ex u 0 (mk_net_chain 0 256 (mk_net_hdr 0 0 0 0 0 0) 0x8000 2048) 70 net_hdr_ex
    (mk_cargo 256 257 (mk_buff 0x4000 60)) vnet_setup_ex_ok eq_refl E) as (slot & H1 & H2).
  1-4: vm_compute in E; injection E as <-; vm_compute; reflexivity.
  exists u, slot. split; [reflexivity|]. exact (conj H1 H2).
Defined.

(** The device reads the header of the received packet for the frame it sends
    next. *)
Example virtio_net_sends_received_header :
  match boot_run vnet_setup_ex (overlap_ex ++ [Act (Lane Rx (DComplete 0 70 net_hdr_ex)); Act (Lane Tx DFetch)])
          (vnet_boot vnet_setup_ex net_headers_ex []) with
  | Ok (_, u) => dv_flight (ln_device (vn_tx u)) = [mk_net_chain 256 256 net_hdr_ex 0x4000 60]
  | Fault _ => False
  end.
Proof. vm_compute. reflexivity. Qed.

(** 258 buffers for the receiver, of which the device gets 256 and uses all: the
    interrupt hands them on, but gives the device none of the two that wait. *)
Example virtio_net_rx_starves :
  match boot_run vnet_setup_ex (map (fun i => Act (Lane Rx (VPut (mk_buff (4096 * i) 0)))) (seqZ 0 258) ++ [Act (Lane Rx VSignal); Deliver 1 []] ++
          concat (replicate 256 [Act (Lane Rx DFetch); Act (Lane Rx (DComplete 0 60 net_hdr_ex))]) ++ [Act (Lane Rx DFetch); Deliver 0 []])
          (vnet_boot vnet_setup_ex net_headers_ex []) with
  | Ok (_, u) =>
    let l := vn_rx u in
    length (net_items Free (ln_queue l)) = 2%nat /\ dv_flight (ln_device l) = [] /\ dv_kicked (ln_device l) = false /\
    dv_seen (ln_device l) = va_idx (vq_avail (ln_virtq l)) /\ np_pending (ln_peer l) = false /\ np_owes (ln_peer l) = false /\ vn_interrupt u = 0
  | Fault _ => False
  end.
Proof. vm_compute. repeat split. Qed.

(** What the driver tells the device, with a buffer in the receive queue from
    the start: the features 0, 2 and 37 instead of 5 and 32, and of the buffer
    before the device is live. *)
Example virtio_net_start_events :
  let q := mk_net_queue 1 0 0 (replicate 512 (mk_buff 0x8000 0)) in
  let cfg := mk_vnet_setup true 0 1 2 0x10000 0x20000 (ne_regs vnet_setup_ex) (ne_memory vnet_setup_ex)
    (mk_net_handle q (mk_net_queue 0 0 0 (replicate 512 (mk_buff 0 0))) 512) net_queue_ex in
  match boot_run cfg [] (vnet_boot cfg net_headers_ex []) with
  | Ok (_, u) =>
    take 8 (vn_events u) =
      [RegWrite Status 0; RegWrite Status 1; RegWrite Status 2; RegWrite DriverFeatures 5; RegWrite DriverFeaturesSel 1;
       RegWrite DriverFeatures 32; RegWrite Status 8; RegWrite QueueNotify 0] /\
    last (vn_events u) = Some (RegWrite InterruptACK 1) /\
    dv_early (ln_device (vn_rx u)) = true /\ dv_kicked (ln_device (vn_rx u)) = false
  | Fault _ => False
  end.
Proof. vm_compute. repeat split. Qed.
