(* ===== verification/UartDev.v ===== *)
(** * Serial drivers: what the UART drivers of drivers/serial share

    A UART as its driver sees it: registers [R] of its own, a receive and a
    transmit FIFO, and two queues it shares with the virtualisers.  Everything
    else runs beside the driver: characters arrive, are sent, the status
    changes, the virtualisers take characters from the receive queue and put
    others in the transmit queue.  The drivers of arm, imx, meson and ns16550a
    have the same two loops, over different registers; they are written here
    once, over the class [UartRegs] of those registers, and proved once from its
    laws.  The drivers themselves are in UartArm, UartImx, UartMeson and
    UartNs16550a. *)

From S2P Require Import Prelude Ring Fifo SerialQueue Microkit.

(** ** The device and the other side of the queues *)

(** What may happen between two instructions of the driver.  A word that
    arrives in the receive FIFO is a character with error flags above it;
    [ETake], [ECheck] are the virt_rx side of the receive queue
    ([serial_dequeue], and the test for a signal after it), [EGive] and
    [ERequest] the virt_tx side of the transmit queue. *)
Inductive env_act : Type :=
| EArrive (w : Z)
| ESend
| EStatus (bits : Z)
| ETake
| ECheck
| EGive (c : Z)
| ERequest.

(** What the virtualisers did so far: the characters taken and given; whether
    virt_rx took one and has the test of the signalling flag before it; and
    the notifications the driver has been sent, or is about to be, and has not
    been delivered. *)
Record virt : Type := mk_virt {
  vt_taken : list Z;
  vt_given : list Z;
  vt_owes : bool;
  vt_rx_pending : bool;
  vt_tx_pending : bool;
}.

(** [ua_sent] is what was sent so far, [ua_bits] the status bits that do not
    follow from the FIFOs.  [ua_script] is what is still to happen beside the
    driver: one list of acts for each look of the driver at shared state.  The
    queues are [rx_queue_handle] and [tx_queue_handle]. *)
Record uart (R : Type) : Type := mk_uart {
  ua_regs : R;
  ua_rx : list Z;
  ua_tx : list Z;
  ua_depth : nat;
  ua_sent : list Z;
  ua_bits : Z;
  ua_script : list (list env_act);
  ua_rxq : serial_queue_handle;
  ua_txq : serial_queue_handle;
  ua_virt : virt;
  ua_events : list event;
}.
Arguments mk_uart {R} _ _ _ _ _ _ _ _ _ _ _.
Arguments ua_regs {R} _.
Arguments ua_rx {R} _.
Arguments ua_tx {R} _.
Arguments ua_depth {R} _.
Arguments ua_sent {R} _.
Arguments ua_bits {R} _.
Arguments ua_script {R} _.
Arguments ua_rxq {R} _.
Arguments ua_txq {R} _.
Arguments ua_virt {R} _.
Arguments ua_events {R} _.

(** [serial_driver_config_t] and the interrupt of [device_resources]. *)
Record serial_driver_config : Type := mk_serial_driver_config {
  sd_rx_id : Z;
  sd_tx_id : Z;
  sd_default_baud : Z; (* uint64_t *)
  sd_rx_enabled : bool;
  sd_irq : Z;
}.

(** A test [reg & bits] and bits that a status register takes from the FIFOs. *)
Definition has (reg bits : Z) : bool := negb (Z.land reg bits =? 0).
Definition with_bit (b : bool) (k : Z) (w : Z) : Z := if b then Z.setbit w k else Z.clearbit w k.
(** [reg |= bits] and [reg &= ~bits]. *)
Definition set_bits (b : bool) (bits reg : Z) : Z := if b then Z.lor reg bits else Z.land reg (u32 (Z.lnot bits)).

(** The characters that arrive, and that virt_tx tries to give. *)
Definition arrivals (acts : list env_act) : list Z :=
  omap (fun a => match a with EArrive w => Some w | _ => None end) acts.
Definition gives (acts : list env_act) : list Z :=
  omap (fun a => match a with EGive c => Some c | _ => None end) acts.
Arguments arrivals : simpl never.
Arguments gives : simpl never.

(** A look may clear status bits. *)
Definition bits_sub (b b' : Z) : Prop := forall k, Z.testbit b k = true -> Z.testbit b' k = true.
#[export] Instance bits_sub_refl : Reflexive bits_sub.
Proof. by intros b k. Qed.

Section uart.
Context {R : Type}.
Implicit Types u : uart R.

Definition set_ua_regs x u : uart R := mk_uart x (ua_rx u) (ua_tx u) (ua_depth u) (ua_sent u) (ua_bits u) (ua_script u) (ua_rxq u) (ua_txq u) (ua_virt u) (ua_events u).
Definition set_ua_rx x u : uart R := mk_uart (ua_regs u) x (ua_tx u) (ua_depth u) (ua_sent u) (ua_bits u) (ua_script u) (ua_rxq u) (ua_txq u) (ua_virt u) (ua_events u).
Definition set_ua_tx x u : uart R := mk_uart (ua_regs u) (ua_rx u) x (ua_depth u) (ua_sent u) (ua_bits u) (ua_script u) (ua_rxq u) (ua_txq u) (ua_virt u) (ua_events u).
Definition set_ua_sent x u : uart R := mk_uart (ua_regs u) (ua_rx u) (ua_tx u) (ua_depth u) x (ua_bits u) (ua_script u) (ua_rxq u) (ua_txq u) (ua_virt u) (ua_events u).
Definition set_ua_bits x u : uart R := mk_uart (ua_regs u) (ua_rx u) (ua_tx u) (ua_depth u) (ua_sent u) x (ua_script u) (ua_rxq u) (ua_txq u) (ua_virt u) (ua_events u).
Definition set_ua_script x u : uart R := mk_uart (ua_regs u) (ua_rx u) (ua_tx u) (ua_depth u) (ua_sent u) (ua_bits u) x (ua_rxq u) (ua_txq u) (ua_virt u) (ua_events u).
Definition set_ua_rxq x u : uart R := mk_uart (ua_regs u) (ua_rx u) (ua_tx u) (ua_depth u) (ua_sent u) (ua_bits u) (ua_script u) x (ua_txq u) (ua_virt u) (ua_events u).
Definition set_ua_txq x u : uart R := mk_uart (ua_regs u) (ua_rx u) (ua_tx u) (ua_depth u) (ua_sent u) (ua_bits u) (ua_script u) (ua_rxq u) x (ua_virt u) (ua_events u).
Definition set_ua_virt x u : uart R := mk_uart (ua_regs u) (ua_rx u) (ua_tx u) (ua_depth u) (ua_sent u) (ua_bits u) (ua_script u) (ua_rxq u) (ua_txq u) x (ua_events u).
Definition set_ua_events x u : uart R := mk_uart (ua_regs u) (ua_rx u) (ua_tx u) (ua_depth u) (ua_sent u) (ua_bits u) (ua_script u) (ua_rxq u) (ua_txq u) (ua_virt u) x.

Definition on_rxq {A} (m : M serial_queue_handle A) : M (uart R) A := zoom ua_rxq set_ua_rxq m.
Definition on_txq {A} (m : M serial_queue_handle A) : M (uart R) A := zoom ua_txq set_ua_txq m.
Definition on_regs (f : R -> R) : M (uart R) unit := modify (fun u => set_ua_regs (f (ua_regs u)) u).
Definition uart_emit (e : event) : M (uart R) unit := modify (fun u => set_ua_events (ua_events u ++ [e]) u).

Definition tx_queue_empty u : bool := serial_queue_empty (ua_txq u) (sq_head (sh_queue (ua_txq u))).
Definition rx_queue_full u : bool := serial_queue_full (ua_rxq u) (sq_tail (sh_queue (ua_rxq u))).
Definition tx_is_full u : bool := (ua_depth u <=? length (ua_tx u))%nat.
Definition rx_is_empty u : bool := bool_decide (ua_rx u = []).

(** One act of the device or of a virtualiser; virt_rx tests for a signal as
    the end of its [rx_return] does. *)
Definition act_step (a : env_act) u : uart R :=
  let v := ua_virt u in
  match a with
  | EArrive w => set_ua_rx (ua_rx u ++ [w]) u
  | ESend => match ua_tx u with
             | c :: l => set_ua_sent (ua_sent u ++ [c]) (set_ua_tx l u)
             | [] => u
             end
  | EStatus bits => set_ua_bits bits u
  | ETake => match serial_dequeue (ua_rxq u) with
             | Ok (Some c, q) =>
               set_ua_virt (mk_virt (vt_taken v ++ [c]) (vt_given v) true (vt_rx_pending v) (vt_tx_pending v))
                 (set_ua_rxq q u)
             | _ => u
             end
  | ECheck =>
    if negb (rx_queue_full u) && serial_require_consumer_signal (ua_rxq u) then
      set_ua_virt (mk_virt (vt_taken v) (vt_given v) false true (vt_tx_pending v))
        (set_ua_rxq (set_sq_signalled 1 (ua_rxq u)) u)
    else set_ua_virt (mk_virt (vt_taken v) (vt_given v) false (vt_rx_pending v) (vt_tx_pending v)) u
  | EGive c => match serial_enqueue c (ua_txq u) with
               | Ok (0, q) =>
                 set_ua_virt (mk_virt (vt_taken v) (vt_given v ++ [u8 c]) (vt_owes v) (vt_rx_pending v) true)
                   (set_ua_txq q u)
               | _ => u
               end
  | ERequest => set_ua_txq (set_sq_signalled 0 (ua_txq u)) u
  end.

(** The driver looks at shared state: what comes first in the script has
    happened. *)
Definition look u : uart R :=
  match ua_script u with
  | [] => u
  | acts :: rest => foldl (fun u a => act_step a u) (set_ua_script rest u) acts
  end.

(** A read of a status register that is [f] of the device. *)
Definition read_status (f : uart R -> Z) : M (uart R) Z := modify look;; gets f.

(** A write to the data register, and a read of it; a read with an empty FIFO
    gives any value. *)
Definition push_char (c : Z) : M (uart R) unit := modify (fun u => set_ua_tx (ua_tx u ++ [u8 c]) u).
Definition pop_char : M (uart R) Z :=
  u ← get;
  match ua_rx u with
  | w :: l => put (set_ua_rx l u);; mret w
  | [] => mret (ua_bits u)
  end.

(** What is still to be received, and to be transmitted, in all. *)
Definition rx_total u : nat := length (ua_rx u) + length (arrivals (concat (ua_script u))).
Definition tx_total u : nat := Z.to_nat (serial_queue_length (ua_txq u)) + length (gives (concat (ua_script u))).
End uart.

(** The registers of a driver: tests of the status, access to the data, and the
    bits that enable interrupts. *)
Class UartRegs (R : Type) := {
  ur_room : uart R -> bool;
  ur_tx_full : M (uart R) bool;
  ur_rx_empty : M (uart R) bool;
  ur_write : Z -> M (uart R) unit;
  ur_read : M (uart R) Z;
  ur_tx_irq : bool -> R -> R;
  ur_rx_irq : bool -> R -> R;
  ur_tx_irq_on : R -> bool;
  ur_rx_irq_on : R -> bool;
}.

(** What a driver relies on: the tests are looks that say what the FIFOs are
    like, up to status bits that the look clears; there is room for a character
    where the driver finds room, and while no character is written; and the
    enables are independent. *)
Class UartRegsLaws (R : Type) `{!UartRegs R} := {
  ur_room_free u : ur_room u = true -> tx_is_full u = false;
  ur_room_stays u u' :
    ur_room u = true -> ua_depth u' = ua_depth u -> (length (ua_tx u') <= length (ua_tx u))%nat -> ur_room u' = true;
  ur_tx_full_ok u : exists b, bits_sub b (ua_bits (look u)) /\ let u' := set_ua_bits b (look u) in ur_tx_full u = Ok (negb (ur_room u'), u');
  ur_rx_empty_ok u : exists b, bits_sub b (ua_bits (look u)) /\ let u' := set_ua_bits b (look u) in ur_rx_empty u = Ok (rx_is_empty u', u');
  ur_write_ok c u : ur_write c u = Ok (tt, set_ua_tx (ua_tx u ++ [u8 c]) u);
  ur_read_ok u w l : ua_rx u = w :: l -> ur_read u = Ok (u8 w, set_ua_rx l u);
  ur_tx_irq_same b r : ur_tx_irq_on (ur_tx_irq b r) = b;
  ur_tx_irq_other b r : ur_rx_irq_on (ur_tx_irq b r) = ur_rx_irq_on r;
  ur_rx_irq_same b r : ur_rx_irq_on (ur_rx_irq b r) = b;
  ur_rx_irq_other b r : ur_tx_irq_on (ur_rx_irq b r) = ur_tx_irq_on r;
}.

(** ** The loops of the drivers *)

Section driver.
Context {R : Type} `{!UartRegs R} (config : serial_driver_config).

(** The loop of [tx_provide]; the local variables are whether the condition of
    the loop held, and [transferred]. *)
Definition tx_send_body : M (uart R * (bool * bool)) unit :=
  full ← on_state ur_tx_full;
  p ← get;
  if (full : bool) then set_local (false, (p : uart R * (bool * bool)).2.2) else
  c ← on_state (on_txq serial_dequeue);
  match c with
  | None => set_local (false, p.2.2)
  | Some c => on_state (ur_write c);; set_local (true, true)
  end.
Definition tx_send_length (p : uart R * (bool * bool)) : nat := S (tx_total p.1).
Definition tx_send : M (uart R) bool :=
  r ← with_local (true, false) (loop tx_send_length (fun p => p.2.1) tx_send_body);
  mret (r : unit * (bool * bool)).2.2.

(** The end of [tx_provide]. *)
Definition tx_signal (transferred : bool) : M (uart R) unit :=
  modify look;;
  u ← get;
  when (transferred && serial_require_consumer_signal (ua_txq u))
    (on_txq serial_cancel_consumer_signal;; uart_emit (Notify (sd_tx_id config))).

(** The [tx_provide] of imx, meson and ns16550a. *)
Definition tx_provide_with : M (uart R) unit :=
  transferred ← tx_send;
  modify look;;
  u ← get;
  on_regs (ur_tx_irq (negb (tx_queue_empty u)));;
  tx_signal transferred.

(** The inner loop of [rx_return]; the local variables are whether the
    condition held, and [enqueued].  [checked] says whether the driver asserts
    the result of the enqueue. *)
Definition rx_take_body (checked : bool) : M (uart R * (bool * bool)) unit :=
  empty ← on_state ur_rx_empty;
  p ← get;
  if negb empty && negb (rx_queue_full (p : uart R * (bool * bool)).1) then
    c ← on_state ur_read;
    err ← on_state (on_rxq (serial_enqueue c));
    when checked (assert_ (err =? 0));;
    set_local (true, true)
  else set_local (false, p.2.2).
Definition rx_take_length (p : uart R * (bool * bool)) : nat := S (rx_total p.1).

(** The second test of the outer loop: interrupts off while the queue is full. *)
Definition rx_park : M (uart R * (bool * bool)) unit :=
  empty ← on_state ur_rx_empty;
  p ← get;
  when (negb empty && rx_queue_full (p : uart R * (bool * bool)).1)
    (on_state (on_regs (ur_rx_irq false);; modify look;; on_rxq serial_request_consumer_signal)).

(** The third, which sets [reprocess]. *)
Definition rx_resume : M (uart R * (bool * bool)) unit :=
  empty ← on_state ur_rx_empty;
  p ← get;
  if negb empty && negb (rx_queue_full (p : uart R * (bool * bool)).1) then
    on_state (on_rxq serial_cancel_consumer_signal;; on_regs (ur_rx_irq true));;
    set_local (true, p.2.2)
  else set_local (false, p.2.2).

(** The body of the outer loop; the local variables are [reprocess] and
    [enqueued]. *)
Definition rx_round (checked : bool) : M (uart R * (bool * bool)) unit :=
  p ← get;
  set_local (true, (p : uart R * (bool * bool)).2.2);;
  loop rx_take_length (fun p => p.2.1) (rx_take_body checked);;
  rx_park;;
  rx_resume.

Definition rx_return_with (checked : bool) : M (uart R) unit :=
  r ← with_local (true, false) (loop rx_take_length (fun p => p.2.1) (rx_round checked));
  when (r : unit * (bool * bool)).2.2 (uart_emit (Notify (sd_rx_id config))).
End driver.

(** ** What the driver and its environment keep

    No act and no operation loses, duplicates or reorders a character. *)

Section kept.
Context {R : Type}.
Implicit Types u : uart R.

(** What was, is and will be received; what was sent, and is to be. *)
Definition rx_stream u : list Z :=
  vt_taken (ua_virt u) ++ serial_items (ua_rxq u) ++ map u8 (ua_rx u ++ arrivals (concat (ua_script u))).
Definition tx_stream u : list Z := ua_sent u ++ ua_tx u ++ map u8 (serial_items (ua_txq u)).

(** The FIFO is within its depth, and what was given to the driver is what it
    sent and has still to send. *)
Record uart_wf u : Prop := {
  uw_rxq : serial_wf (ua_rxq u);
  uw_txq : serial_wf (ua_txq u);
  uw_tx : tx_stream u = vt_given (ua_virt u);
  uw_depth : (length (ua_tx u) <= ua_depth u)%nat;
}.

(** Data does not wait for an interrupt or a notification that will not come:
    [on] says whether the interrupt is enabled.  The receive interrupt is off
    only while virt_rx has notified the driver, or is asked to and has reason
    to; what is in the transmit queue is sent on an interrupt or on a
    notification of virt_tx. *)
Definition rx_live (on : bool) u : Prop :=
  on = true \/ vt_rx_pending (ua_virt u) = true \/
  (serial_require_consumer_signal (ua_rxq u) = true /\ (rx_queue_full u = true \/ vt_owes (ua_virt u) = true)).
Definition tx_live (on : bool) u : Prop :=
  on = true \/ vt_tx_pending (ua_virt u) = true \/ tx_queue_empty u = true.

(** Both directions, and the device. *)
Record moved u u' : Prop := {
  mv_wf : uart_wf u';
  mv_rx : rx_stream u' = rx_stream u;
  mv_sent : ua_sent u `prefix_of` ua_sent u';
  mv_given : vt_given (ua_virt u) `prefix_of` vt_given (ua_virt u');
  mv_taken : vt_taken (ua_virt u) `prefix_of` vt_taken (ua_virt u');
  mv_rx_cap : sh_capacity (ua_rxq u') = sh_capacity (ua_rxq u);
  mv_tx_cap : sh_capacity (ua_txq u') = sh_capacity (ua_txq u);
  mv_depth : ua_depth u' = ua_depth u;
  mv_script : (length (ua_script u') <= length (ua_script u))%nat;
  mv_bits : ua_script u = [] -> bits_sub (ua_bits u') (ua_bits u);
}.

(** What happens to one direction while the driver works on the other. *)
Record rx_kept u u' : Prop := {
  rk_total : rx_total u' = rx_total u;
  rk_some : rx_is_empty u = false -> rx_is_empty u' = false;
  rk_room : rx_queue_full u = false -> rx_queue_full u' = false;
  rk_asked : serial_require_consumer_signal (ua_rxq u) = true \/ vt_rx_pending (ua_virt u) = true ->
             serial_require_consumer_signal (ua_rxq u') = true \/ vt_rx_pending (ua_virt u') = true;
  rk_live : forall on, rx_live on u -> rx_live on u';
}.
Record tx_kept u u' : Prop := {
  tk_total : (tx_total u' <= tx_total u)%nat;
  tk_fifo : (length (ua_tx u') <= length (ua_tx u))%nat;
  tk_live : forall on, tx_live on u -> tx_live on u';
}.

(** What happens while the driver looks. *)
Record env u u' : Prop := {
  ev_moved : moved u u';
  ev_rx : rx_kept u u';
  ev_tx : tx_kept u u';
  ev_regs : ua_regs u' = ua_regs u;
  ev_events : ua_events u' = ua_events u;
}.

Lemma moved_refl u : uart_wf u -> moved u u.
Proof. intros. by split. Qed.
#[export] Instance moved_trans : Transitive moved.
Proof.
  intros u1 u2 u3 [] []. split; (done || congruence || lia || (try by etrans)). intros H. unfold bits_sub in *.
  assert (ua_script u2 = []) by (apply nil_length_inv; rewrite H in *; cbn in *; lia). auto.
Qed.
#[export] Instance rx_kept_refl : Reflexive rx_kept.
Proof. intros u. by split. Qed.
#[export] Instance rx_kept_trans : Transitive rx_kept.
Proof. intros u1 u2 u3 [] []. split; try congruence; auto. Qed.
#[export] Instance tx_kept_refl : Reflexive tx_kept.
Proof. intros u. by split. Qed.
#[export] Instance tx_kept_trans : Transitive tx_kept.
Proof. intros u1 u2 u3 [] []. split; try lia; auto. Qed.

(** Registers and the signalling flag do not matter. *)
Lemma moved_regs r u : uart_wf u -> moved u (set_ua_regs r u).
Proof. by intros []. Qed.
Lemma moved_signal b u : uart_wf u -> moved u (set_ua_rxq (set_sq_signalled b (ua_rxq u)) u).
Proof. by intros []. Qed.

Lemma env_refl u : uart_wf u -> env u u.
Proof. intros. by split; [apply moved_refl|..]. Qed.
#[export] Instance env_trans : Transitive env.
Proof. intros u1 u2 u3 [] []. split; try congruence; by etrans. Qed.
Lemma env_wf u u' : env u u' -> uart_wf u'.
Proof. by intros [[]]. Qed.

Lemma tx_queue_empty_items u : serial_wf (ua_txq u) -> tx_queue_empty u = bool_decide (serial_items (ua_txq u) = []).
Proof.
  intros Hwf. pose proof (serial_empty_spec _ Hwf) as H. unfold tx_queue_empty.
  destruct (serial_queue_empty _ _); symmetry; [rewrite bool_decide_eq_true|rewrite bool_decide_eq_false]; [by apply H|].
  intros E%H. done.
Qed.

Lemma rx_queue_full_items u :
  serial_wf (ua_rxq u) -> rx_queue_full u = (Z.of_nat (length (serial_items (ua_rxq u))) =? sh_capacity (ua_rxq u)).
Proof. apply serial_full_spec. Qed.

Lemma tx_total_items u :
  serial_wf (ua_txq u) -> tx_total u = (length (serial_items (ua_txq u)) + length (gives (concat (ua_script u))))%nat.
Proof. intros Hwf. unfold tx_total. rewrite serial_length_spec by done. by rewrite Nat2Z.id. Qed.
End kept.
Arguments rx_stream {R} u : simpl never.
Arguments tx_stream {R} u : simpl never.
Arguments rx_total {R} u : simpl never.
Arguments tx_total {R} u : simpl never.

(** ** Acts keep *)

Section acts.
Context {R : Type}.
Implicit Types u : uart R.

(** The receive side of [u'] is as that of [u]. *)
Lemma rx_kept_same u u' :
  rx_total u' = rx_total u -> (rx_is_empty u = false -> rx_is_empty u' = false) -> ua_rxq u' = ua_rxq u ->
  vt_rx_pending (ua_virt u') = vt_rx_pending (ua_virt u) -> vt_owes (ua_virt u') = vt_owes (ua_virt u) -> rx_kept u u'.
Proof.
  intros Ht He Eq Ep Eo. split; [done..| | |]; unfold rx_live, rx_queue_full; rewrite ?Eq, ?Ep, ?Eo; done.
Qed.
Lemma tx_kept_same u u' :
  (tx_total u' <= tx_total u)%nat -> (length (ua_tx u') <= length (ua_tx u))%nat -> ua_txq u' = ua_txq u ->
  (vt_tx_pending (ua_virt u) = true -> vt_tx_pending (ua_virt u') = true) -> tx_kept u u'.
Proof.
  intros Ht He Eq Ep. split; [done..|]. unfold tx_live, tx_queue_empty. rewrite ?Eq. intros on [|[|]]; auto.
Qed.

(** The states of an act: the first of the script has gone. *)
Definition acting (a : env_act) (acts : list env_act) (rest : list (list env_act)) u : Prop :=
  uart_wf u /\ ua_script u = (a :: acts) :: rest.

Lemma rx_stream_acting a acts rest u :
  acting a acts rest u ->
  rx_stream u = vt_taken (ua_virt u) ++ serial_items (ua_rxq u) ++
                map u8 (ua_rx u ++ match a with EArrive w => [w] | _ => [] end ++ arrivals (acts ++ concat rest)).
Proof. intros [_ E]. unfold rx_stream, arrivals. rewrite E. by destruct a. Qed.

Lemma rx_total_acting a acts rest u :
  acting a acts rest u ->
  rx_total u = (length (ua_rx u) + match a with EArrive _ => 1 | _ => 0 end + length (arrivals (acts ++ concat rest)))%nat.
Proof. intros [_ E]. unfold rx_total, arrivals. rewrite E. destruct a; cbn; lia. Qed.

Lemma tx_total_acting a acts rest u :
  acting a acts rest u ->
  tx_total u = (length (serial_items (ua_txq u)) + match a with EGive _ => 1 | _ => 0 end
                + length (gives (acts ++ concat rest)))%nat.
Proof. intros [[] E]. rewrite tx_total_items by done. unfold gives. rewrite E. destruct a; cbn; lia. Qed.

Definition acted (a : env_act) acts rest u : uart R := act_step a (set_ua_script (acts :: rest) u).

#[local] Ltac split_moved E := split; try done; try (by rewrite E).

Lemma act_arrive w acts rest u : acting (EArrive w) acts rest u -> env u (acted (EArrive w) acts rest u).
Proof.
  intros HA. pose proof HA as [[] E]. split; try done.
  - split_moved E. rewrite (rx_stream_acting _ _ _ _ HA). unfold rx_stream. cbn. by rewrite <- app_assoc.
  - apply rx_kept_same; try done.
    + rewrite (rx_total_acting _ _ _ _ HA). unfold rx_total. cbn. rewrite length_app. done.
    + unfold rx_is_empty. cbn. rewrite !bool_decide_eq_false. by destruct (ua_rx u).
  - apply tx_kept_same; try done. rewrite (tx_total_acting _ _ _ _ HA), tx_total_items by done. unfold acted. cbn. lia.
Qed.

(** The acts that leave the receive side alone, and the transmit side. *)
Lemma act_rx_kept a acts rest u u' :
  acting a acts rest u -> match a with EArrive _ => False | _ => True end ->
  ua_rx u' = ua_rx u -> ua_script u' = acts :: rest -> ua_rxq u' = ua_rxq u ->
  vt_rx_pending (ua_virt u') = vt_rx_pending (ua_virt u) -> vt_owes (ua_virt u') = vt_owes (ua_virt u) -> rx_kept u u'.
Proof.
  intros HA Hna Er Es Eq Ep Eo. apply rx_kept_same; try done.
  - rewrite (rx_total_acting _ _ _ _ HA). unfold rx_total. rewrite Er, Es. destruct a; done || (cbn; lia).
  - unfold rx_is_empty. by rewrite Er.
Qed.

Lemma act_rx_stream a acts rest u u' :
  acting a acts rest u -> match a with EArrive _ => False | _ => True end ->
  ua_rx u' = ua_rx u -> ua_script u' = acts :: rest ->
  vt_taken (ua_virt u') ++ serial_items (ua_rxq u') = vt_taken (ua_virt u) ++ serial_items (ua_rxq u) ->
  rx_stream u' = rx_stream u.
Proof.
  intros HA Hna Er Es Eq. rewrite (rx_stream_acting _ _ _ _ HA). unfold rx_stream. rewrite Er, Es, !app_assoc, Eq.
  cbn [concat]. rewrite <- !app_assoc. do 2 f_equal. by destruct a.
Qed.

Lemma act_tx_kept a acts rest u u' :
  acting a acts rest u -> serial_wf (ua_txq u') -> ua_script u' = acts :: rest ->
  (length (serial_items (ua_txq u')) <= length (serial_items (ua_txq u)) + match a with EGive _ => 1 | _ => 0 end)%nat ->
  (length (ua_tx u') <= length (ua_tx u))%nat ->
  (forall on, tx_live on u -> tx_live on u') -> tx_kept u u'.
Proof.
  intros HA Hq Es Hl Hf Hlive. split; try done.
  rewrite (tx_total_acting _ _ _ _ HA), tx_total_items by done. rewrite Es. cbn. lia.
Qed.

Lemma act_send acts rest u : acting ESend acts rest u -> env u (acted ESend acts rest u).
Proof.
  intros HA. pose proof HA as [Hwf E]. destruct Hwf as [Hr Ht Hg Hd]. unfold acted. cbn.
  assert (uart_wf (set_ua_script (acts :: rest) u)) as Hwf by done.
  destruct (ua_tx u) as [|c l] eqn:Etx.
  - split; try done.
    + split_moved E. by eapply act_rx_stream.
    + by eapply act_rx_kept.
    + by eapply (act_tx_kept _ _ _ _ _ HA); cbn; try done; rewrite ?Etx; lia.
  - assert (tx_stream (set_ua_sent (ua_sent u ++ [c]) (set_ua_tx l (set_ua_script (acts :: rest) u))) = tx_stream u) as Es.
    { unfold tx_stream. cbn. rewrite Etx. by rewrite <- app_assoc. }
    split; try done.
    + split_moved E; [split; try done|..].
      * by rewrite Es.
      * cbn in *. lia.
      * by eapply act_rx_stream.
      * by exists [c].
    + by eapply act_rx_kept.
    + eapply (act_tx_kept _ _ _ _ _ HA); cbn; try done; rewrite ?Etx; cbn; lia.
Qed.

Lemma act_status b acts rest u : acting (EStatus b) acts rest u -> env u (acted (EStatus b) acts rest u).
Proof.
  intros HA. pose proof HA as [[] E]. split; try done.
  - split_moved E. by eapply act_rx_stream.
  - by eapply act_rx_kept.
  - by eapply (act_tx_kept _ _ _ _ _ HA); cbn; try done; lia.
Qed.

Lemma act_request acts rest u : acting ERequest acts rest u -> env u (acted ERequest acts rest u).
Proof.
  intros HA. pose proof HA as [[] E]. split; try done.
  - split_moved E. by eapply act_rx_stream.
  - by eapply act_rx_kept.
  - eapply (act_tx_kept _ _ _ _ _ HA); cbn; try done.
    change (serial_items (set_sq_signalled 0 (ua_txq u))) with (serial_items (ua_txq u)). lia.
Qed.

Lemma act_check acts rest u : acting ECheck acts rest u -> env u (acted ECheck acts rest u).
Proof.
  intros HA. pose proof HA as [[] E]. unfold acted. cbn.
  change (rx_queue_full (set_ua_script (acts :: rest) u)) with (rx_queue_full u).
  destruct (rx_queue_full u) eqn:Ef, (serial_require_consumer_signal (ua_rxq u)) eqn:Es; cbn; split; try done.
  all: try (split_moved E; by eapply act_rx_stream).
  all: try (by eapply (act_tx_kept _ _ _ _ _ HA); cbn; try done; lia).
  all: split; try done; try (rewrite (rx_total_acting _ _ _ _ HA); unfold rx_total; cbn; lia).
  all: unfold rx_live, rx_queue_full in *; cbn in *; rewrite ?Ef, ?Es; naive_solver.
Qed.

Lemma act_take acts rest u : acting ETake acts rest u -> env u (acted ETake acts rest u).
Proof.
  intros HA. pose proof HA as [[] E]. unfold acted. cbn.
  destruct (nil_or_cons (serial_items (ua_rxq u))) as [Ei|(c & l & Ei)].
  { rewrite (serial_dequeue_empty _ uw_rxq0 Ei). split; try done.
    - split_moved E. by eapply act_rx_stream.
    - by eapply act_rx_kept.
    - by eapply (act_tx_kept _ _ _ _ _ HA); cbn; try done; lia. }
  pose proof (serial_dequeue_spec (ua_rxq u) c l
    (fun r q => r = Some c /\ serial_wf q /\ serial_items q = l /\ serial_rest q = serial_rest (ua_rxq u)) uw_rxq0 Ei) as Hd.
  apply wp_elim in Hd as (r & q & Er & -> & Hq & Eq & Erest); [|by intros q]. rewrite Er.
  apply serial_rest_signalled in Erest as [Ecap Esig].
  assert (rx_queue_full (set_ua_rxq q u) = false) as Enf.
  { rewrite rx_queue_full_items by done. apply Z.eqb_neq. cbn. rewrite Eq, Ecap.
    pose proof (serial_length_range _ uw_rxq0) as Hl. rewrite serial_length_spec, Ei in Hl by done. cbn in Hl. lia. }
  split; try done.
  - split_moved E.
    + eapply act_rx_stream; try done. cbn. rewrite Eq, Ei. by rewrite <- app_assoc.
    + by exists [c].
  - split; try done.
    + rewrite (rx_total_acting _ _ _ _ HA). unfold rx_total. cbn. lia.
    + unfold serial_require_consumer_signal. cbn. by rewrite Esig.
    + unfold rx_live, serial_require_consumer_signal. cbn. rewrite Esig. naive_solver.
  - by eapply (act_tx_kept _ _ _ _ _ HA); cbn; try done; lia.
Qed.

Lemma act_give c acts rest u : acting (EGive c) acts rest u -> env u (acted (EGive c) acts rest u).
Proof.
  intros HA. pose proof HA as [[] E]. unfold acted. cbn.
  pose proof (serial_length_range _ uw_txq0) as Hl. rewrite serial_length_spec in Hl by done.
  destruct (decide (Z.of_nat (length (serial_items (ua_txq u))) = sh_capacity (ua_txq u))) as [Ef|Ef].
  { assert (serial_enqueue c (ua_txq u) = Ok (-1, ua_txq u)) as -> by by apply (fifo_enq_full (O := serial_fifo_ops)).
    split; try done.
    - split_moved E. by eapply act_rx_stream.
    - by eapply act_rx_kept.
    - by eapply (act_tx_kept _ _ _ _ _ HA); cbn; try done; lia. }
  pose proof (serial_enqueue_spec (ua_txq u) c
    (fun r q => r = 0 /\ serial_wf q /\ serial_items q = serial_items (ua_txq u) ++ [c] /\
                serial_rest q = serial_rest (ua_txq u)) uw_txq0) as He.
  apply wp_elim in He as (r & q & Er & -> & Hq & Eq & Erest); [|lia|by intros q]. rewrite Er.
  apply serial_rest_signalled in Erest as [Ecap Esig].
  split; try done.
  - split_moved E; [split; try done|..].
    + unfold tx_stream. cbn. rewrite Eq, map_app. unfold tx_stream in uw_tx0. rewrite <- uw_tx0. cbn. by rewrite <- !app_assoc.
    + by eapply act_rx_stream.
    + by exists [u8 c].
  - by eapply act_rx_kept.
  - eapply (act_tx_kept _ _ _ _ _ HA); cbn; try done; [rewrite Eq, length_app; cbn; lia|]. intros. by right; left.
Qed.

Lemma act_env a acts rest u : acting a acts rest u -> env u (acted a acts rest u).
Proof.
  destruct a; [apply act_arrive|apply act_send|apply act_status|apply act_take|apply act_check|apply act_give|apply act_request].
Qed.

(** The end of the acts of a look. *)
Lemma env_script rest u : uart_wf u -> ua_script u = [] :: rest -> env u (set_ua_script rest u).
Proof.
  intros [] E. split; try done.
  - split_moved E; [unfold rx_stream; by rewrite E|rewrite E; cbn; lia].
  - apply rx_kept_same; try done. unfold rx_total. by rewrite E.
  - apply tx_kept_same; try done. unfold tx_total. by rewrite E.
Qed.

Lemma acts_env acts rest u :
  uart_wf u -> ua_script u = acts :: rest -> env u (foldl (fun u a => act_step a u) (set_ua_script rest u) acts).
Proof.
  revert u. induction acts as [|a acts IH]; intros u Hwf E; [by apply env_script|]. cbn [foldl].
  assert (env u (acted a acts rest u)) as He by by apply act_env. pose proof (env_wf _ _ He) as Hwf'.
  etrans; [exact He|].
  assert (ua_script (acted a acts rest u) = acts :: rest) as Es.
  { unfold acted. destruct a; cbn; try done; repeat case_match; done. }
  assert (set_ua_script rest (acted a acts rest u) = act_step a (set_ua_script rest u)) as <-; [|by apply IH].
  unfold acted. destruct a; cbn; try done; unfold rx_queue_full; cbn; repeat case_match; done.
Qed.

Lemma look_env u : uart_wf u -> env u (look u).
Proof.
  intros Hwf. unfold look. destruct (ua_script u) as [|acts rest] eqn:E; [by apply env_refl|]. by apply acts_env.
Qed.

Lemma env_bits b u : uart_wf u -> bits_sub b (ua_bits u) -> env u (set_ua_bits b u).
Proof. intros []. by split. Qed.
Lemma look_bits_env b u : uart_wf u -> bits_sub b (ua_bits (look u)) -> env u (set_ua_bits b (look u)).
Proof. intros Hwf Hb. pose proof (look_env u Hwf) as He. etrans; [done|]. apply env_bits; [by eapply env_wf|done]. Qed.
End acts.

(** ** The transmit side *)

Section specs.
Context {R : Type} `{UR : !UartRegs R} `{!UartRegsLaws R} (config : serial_driver_config).
Implicit Types u : uart R.

(** Sending: registers and the receive side are left alone. *)
Record sent u u' : Prop := {
  st_moved : moved u u';
  st_rx : rx_kept u u';
  st_total : (tx_total u' <= tx_total u)%nat;
  st_regs : ua_regs u' = ua_regs u;
  st_events : ua_events u' = ua_events u;
}.

#[export] Instance sent_trans : Transitive sent.
Proof. intros u1 u2 u3 [] []. split; try congruence; (lia || by etrans). Qed.
Lemma sent_env u u' : env u u' -> sent u u'.
Proof. intros [? ? [] ? ?]. by split. Qed.
Lemma sent_refl u : uart_wf u -> sent u u.
Proof. intros. by apply sent_env, env_refl. Qed.
Lemma sent_wf u u' : sent u u' -> uart_wf u'.
Proof. by intros [[]]. Qed.

(** A character moves from the queue to the transmit FIFO. *)
Lemma sent_char u q c l :
  uart_wf u -> serial_items (ua_txq u) = c :: l -> tx_is_full u = false ->
  serial_wf q -> serial_items q = l -> serial_rest q = serial_rest (ua_txq u) ->
  let u' := set_ua_tx (ua_tx u ++ [u8 c]) (set_ua_txq q u) in sent u u' /\ (tx_total u' < tx_total u)%nat.
Proof.
  intros [Hr Ht Hg Hd] Ei Hf Hq Eq [Ecap _]%serial_rest_signalled u'.
  assert (tx_stream u' = tx_stream u) as Es.
  { unfold tx_stream. cbn. rewrite Ei, Eq. cbn. by rewrite <- (app_assoc (ua_tx u)). }
  assert (tx_total u = S (tx_total u')) as E by by rewrite !tx_total_items, Ei, <- Eq by done.
  split; [|lia]. split; try done; [|lia]. split; try done. split; try done.
  - by rewrite Es.
  - cbn. rewrite length_app. unfold tx_is_full in Hf. apply Nat.leb_gt in Hf. cbn. lia.
Qed.

Definition send_inv u0 (p : uart R * (bool * bool)) : Prop :=
  sent u0 p.1 /\
  (p.2.2 = true -> (tx_total p.1 < tx_total u0)%nat) /\
  (p.2.1 = false -> ur_room p.1 = false \/ serial_items (ua_txq p.1) = []) /\
  (ur_room u0 = true -> p.2.2 = false -> ur_room p.1 = true).

Lemma tx_send_body_spec u0 p :
  send_inv u0 p -> p.2.1 = true ->
  wp tx_send_body p (fun _ p' => send_inv u0 p' /\
    (tx_total p'.1 + Nat.b2n p'.2.1 < tx_total p.1 + Nat.b2n p.2.1)%nat).
Proof.
  destruct p as [u [go tr]]. unfold send_inv at 1. cbn [fst snd]. intros (Hs & Htr & _ & Hroom) ->. unfold tx_send_body. do 2 wp_step.
  destruct (ur_tx_full_ok u) as (b & Hb & E). set (u1 := set_ua_bits b (look u)) in *. eapply wp_intro; [exact E|].
  pose proof (look_bits_env b u (sent_wf _ _ Hs) Hb) as He. fold u1 in He.
  assert (sent u0 u1) as Hs1 by (etrans; [done|by apply sent_env]).
  assert (ur_room u0 = true -> tr = false -> ur_room u1 = true) as Hroom1.
  { intros H1 H2. eapply ur_room_stays; [by apply Hroom|apply He..]. }
  assert (tx_total u1 <= tx_total u)%nat as Hle by apply He.
  pose proof (st_total _ _ Hs1) as Hle0.
  do 2 wp_step. cbn [fst snd]. destruct (ur_room u1) eqn:Er; cbn [negb].
  2: { wp_step. split; [|cbn; lia]. split_and!; cbn; try done; [intros H1; specialize (Htr H1); lia|by left|by intros H1 H2; specialize (Hroom1 H1 H2)]. }
  pose proof (sent_wf _ _ Hs1) as Hwf1. pose proof Hwf1 as [_ Hq _ _].
  do 2 wp_step. unfold on_txq. wp_step. destruct (nil_or_cons (serial_items (ua_txq u1))) as [Ei|(c & l & Ei)].
  { eapply wp_intro; [by apply serial_dequeue_empty|].
    assert (set_ua_txq (ua_txq u1) u1 = u1) as -> by done. wp_step.
    split; [|cbn; lia]. split_and!; cbn; try done; [intros H1; specialize (Htr H1); lia|by right]. }
  eapply serial_dequeue_spec; [done..|]. intros q Hq' Eq Erest _. do 2 wp_step.
  eapply wp_intro; [apply ur_write_ok|]. wp_step. cbn [ua_tx set_ua_txq].
  destruct (sent_char u1 q c l) as [Hs2 Hlt]; try done; [by apply ur_room_free|].
  split; [|cbn in *; lia]. split_and!; cbn [fst snd]; try done; [by etrans|lia].
Qed.

Lemma tx_send_spec u (Q : bool -> uart R -> Prop) :
  uart_wf u ->
  (forall tr u', sent u u' -> (tr = true -> (tx_total u' < tx_total u)%nat) ->
     (ur_room u' = false \/ serial_items (ua_txq u') = []) ->
     (ur_room u = true -> tr = false -> ur_room u' = true) -> Q tr u') ->
  wp tx_send u Q.
Proof.
  intros Hwf HQ. unfold tx_send. wp_step. wp_step.
  eapply (wp_loop_le (send_inv u) (fun p => (tx_total p.1 + Nat.b2n p.2.1)%nat)).
  - split_and!; cbn; [by apply sent_refl|done..].
  - cbn. unfold tx_send_length. cbn. lia.
  - intros p Hp Hc. by apply tx_send_body_spec.
  - unfold send_inv. intros [u' [go tr]]. cbn [fst snd]. intros (Hs & Htr & Hend & Hroom) Hc. wp_step. by apply HQ; auto.
Qed.

(** What the end of [tx_provide] does, and all of it: only the transmit
    interrupt enable and the signalling flag change besides. *)
Record tx_done u u' : Prop := {
  td_moved : moved u u';
  td_rx : rx_kept u u';
  td_regs : forall B (f : R -> B), (forall b r, f (ur_tx_irq b r) = f r) -> f (ua_regs u') = f (ua_regs u);
  td_total : (tx_total u' <= tx_total u)%nat;
  td_events : ua_events u' = ua_events u \/ ua_events u' = ua_events u ++ [Notify (sd_tx_id config)];
}.

Lemma tx_signal_spec tr u (Q : unit -> uart R -> Prop) :
  uart_wf u ->
  (forall u', moved u u' -> rx_kept u u' -> tx_kept u u' -> ua_regs u' = ua_regs u ->
     (ua_events u' = ua_events u \/ tr = true /\ ua_events u' = ua_events u ++ [Notify (sd_tx_id config)]) ->
     Q tt u') ->
  wp (tx_signal config tr) u Q.
Proof.
  intros Hwf HQ. unfold tx_signal. do 4 wp_step.
  destruct (look_env u Hwf) as [[Hwf'] ? ? ? ?]. set (u1 := look u) in *.
  apply wp_when.
  - intros [-> _]%andb_prop. unfold on_txq, uart_emit, serial_cancel_consumer_signal. do 4 wp_step.
    apply HQ; try done; [|..].
    + split; try done. by destruct Hwf'.
    + etrans; [done|]. by apply rx_kept_same.
    + etrans; [done|]. split; try done.
    + right. split; [done|]. cbn. congruence.
  - intros _. apply HQ; try done. by left.
Qed.

Lemma tx_done_sent u u1 u' b :
  sent u u1 -> moved (set_ua_regs (ur_tx_irq b (ua_regs u1)) u1) u' ->
  rx_kept (set_ua_regs (ur_tx_irq b (ua_regs u1)) u1) u' -> tx_kept (set_ua_regs (ur_tx_irq b (ua_regs u1)) u1) u' ->
  ua_regs u' = ur_tx_irq b (ua_regs u1) ->
  (ua_events u' = ua_events u1 \/ ua_events u' = ua_events u1 ++ [Notify (sd_tx_id config)]) -> tx_done u u'.
Proof.
  intros [Hm Hr Ht Eg Ee] Hm' Hr' [Ht' _ _] Eg' Ee'. split.
  - etrans; [exact Hm|]. etrans; [|exact Hm']. split; try done. by destruct Hm as [[]].
  - etrans; [exact Hr|]. etrans; [|exact Hr']. by apply rx_kept_same.
  - intros B f Hf. by rewrite Eg', Hf, Eg.
  - change (tx_total (set_ua_regs _ _)) with (tx_total u1) in Ht'. lia.
  - by rewrite <- Ee.
Qed.

(** After [tx_provide], data in the transmit queue waits for an interrupt that
    is enabled, or virt_tx has given it since. *)
Lemma tx_provide_with_spec u (Q : unit -> uart R -> Prop) :
  uart_wf u -> (forall u', tx_done u u' -> tx_live (ur_tx_irq_on (ua_regs u')) u' -> Q tt u') ->
  wp (tx_provide_with config) u Q.
Proof.
  intros Hwf HQ. unfold tx_provide_with. wp_step. apply tx_send_spec; [done|]. intros tr u1 Hs _ _ _.
  do 4 wp_step. pose proof (look_env u1 (sent_wf _ _ Hs)) as He. set (u2 := look u1) in *.
  assert (sent u u2) as Hs2 by (etrans; [done|by apply sent_env]). unfold on_regs. do 2 wp_step.
  apply tx_signal_spec; [by destruct (sent_wf _ _ Hs2)|]. intros u' Hm Hr Ht Eg Ee. cbn in Ee, Eg. apply HQ.
  - eapply tx_done_sent; [done..|]. naive_solver.
  - apply (tk_live _ _ Ht). rewrite Eg, ur_tx_irq_same. unfold tx_live.
    change (tx_queue_empty (set_ua_regs _ u2)) with (tx_queue_empty u2).
    destruct (tx_queue_empty u2); cbn; auto.
Qed.
(** ** The receive side *)

(** Taking characters from the FIFO: registers and the transmit side are left
    alone, and an interrupt that is off still has no need to be on. *)
Record taken u u' : Prop := {
  tn_moved : moved u u';
  tn_tx : tx_kept u u';
  tn_total : (rx_total u' <= rx_total u)%nat;
  tn_regs : ua_regs u' = ua_regs u;
  tn_events : ua_events u' = ua_events u;
  tn_live : forall on, rx_live on u -> rx_live on u';
}.

#[export] Instance taken_trans : Transitive taken.
Proof. intros u1 u2 u3 [] []. split; try congruence; (lia || auto || by etrans). Qed.
Lemma taken_env u u' : env u u' -> taken u u'.
Proof. intros [? [] ? ? ?]. split; try done. lia. Qed.
Lemma taken_refl u : uart_wf u -> taken u u.
Proof. intros. by apply taken_env, env_refl. Qed.
Lemma taken_wf u u' : taken u u' -> uart_wf u'.
Proof. by intros [[]]. Qed.

(** A character moves from the receive FIFO to the queue. *)
Lemma taken_char u q w l :
  uart_wf u -> ua_rx u = w :: l -> rx_queue_full u = false ->
  serial_wf q -> serial_items q = serial_items (ua_rxq u) ++ [u8 w] -> serial_rest q = serial_rest (ua_rxq u) ->
  let u' := set_ua_rxq q (set_ua_rx l u) in taken u u' /\ (rx_total u' < rx_total u)%nat.
Proof using.
  intros [Hr Ht Hg Hd] Ew Hf Hq Eq [Ecap Esig]%serial_rest_signalled u'.
  assert (rx_total u = S (rx_total u')) as E by by (unfold rx_total; rewrite Ew).
  split; [|lia]. split; try done; [|lia|].
  - split; try done. unfold rx_stream. cbn. rewrite Ew, Eq. cbn. by rewrite <- app_assoc.
  - unfold rx_live, serial_require_consumer_signal. cbn. rewrite Esig, Hf. naive_solver.
Qed.

(** [b] after the loop: it was set, or some character came. *)
Definition came u0 u : bool := (rx_total u <? rx_total u0)%nat.

Definition take_inv u0 enq (p : uart R * (bool * bool)) : Prop :=
  taken u0 p.1 /\
  p.2.2 = enq || came u0 p.1 /\
  (p.2.1 = false -> rx_is_empty p.1 = true \/ rx_queue_full p.1 = true) /\
  (came u0 p.1 = false -> env u0 p.1 /\ (rx_is_empty u0 = false -> rx_queue_full u0 = false -> p.2.1 = true)).

Lemma came_env u0 u u' : env u u' -> came u0 u' = came u0 u.
Proof using. intros [_ [E _ _ _ _] _ _ _]. unfold came. by rewrite E. Qed.

Lemma rx_take_body_spec checked u0 enq p :
  take_inv u0 enq p -> p.2.1 = true ->
  wp (rx_take_body checked) p (fun _ p' => take_inv u0 enq p' /\
    (rx_total p'.1 + Nat.b2n p'.2.1 < rx_total p.1 + Nat.b2n p.2.1)%nat).
Proof.
  destruct p as [u [go en]]. unfold take_inv at 1. cbn [fst snd]. intros (Hs & Hen & _ & Hp) ->.
  unfold rx_take_body. do 2 wp_step.
  destruct (ur_rx_empty_ok u) as (b & Hb & E). set (u1 := set_ua_bits b (look u)) in *. eapply wp_intro; [exact E|].
  clear E. pose proof (look_bits_env b u (taken_wf _ _ Hs) Hb) as He. fold u1 in He. clearbody u1.
  assert (taken u0 u1) as Hs1 by (etrans; [done|by apply taken_env]).
  pose proof (rk_total _ _ (ev_rx _ _ He)) as Et. rewrite <- (came_env u0 _ _ He) in Hen, Hp.
  assert (came u0 u1 = false -> env u0 u1) as Hp1 by (intros H; destruct (Hp H); by etrans).
  do 2 wp_step. cbn [fst snd]. destruct (rx_is_empty u1) eqn:Ee; cbn [negb andb].
  { wp_step. split; [|cbn; lia]. split_and!; cbn [fst snd]; auto. intros H. split; [by auto|]. intros H1.
    pose proof (rk_some _ _ (ev_rx _ _ (Hp1 H)) H1). congruence. }
  destruct (rx_queue_full u1) eqn:Ef; cbn [negb].
  { wp_step. split; [|cbn; lia]. split_and!; cbn [fst snd]; auto. intros H. split; [by auto|]. intros _ H1.
    pose proof (rk_room _ _ (ev_rx _ _ (Hp1 H)) H1). congruence. }
  destruct (nil_or_cons (ua_rx u1)) as [Ew|(w & l & Ew)]; [unfold rx_is_empty in Ee; by rewrite Ew in Ee|].
  pose proof (taken_wf _ _ Hs1) as Hwf1. pose proof Hwf1 as [Hq _ _ _].
  do 2 wp_step. eapply wp_intro; [by apply ur_read_ok|]. unfold on_rxq. do 3 wp_step. cbn [ua_rxq set_ua_rx].
  apply serial_enqueue_spec; [done| |].
  { rewrite rx_queue_full_items in Ef by done. apply Z.eqb_neq in Ef.
    pose proof (serial_length_range _ Hq) as Hl. rewrite serial_length_spec in Hl by done. lia. }
  intros q Hq' Eq Erest _. destruct (taken_char u1 q w l) as [Hs2 Hlt]; try done.
  assert (came u0 (set_ua_rxq q (set_ua_rx l u1)) = true) as Hc.
  { apply Nat.ltb_lt. pose proof (tn_total _ _ Hs1). lia. }
  wp_step. eapply (wp_intro _ _ tt); [by destruct checked|]. wp_step. split; [|cbn in *; lia].
  split_and!; cbn [fst snd]; [by etrans|by rewrite Hc, orb_true_r|done|congruence].
Qed.

(** One round of the outer loop. *)
Record rounded u u' : Prop := {
  rd_moved : moved u u';
  rd_tx : tx_kept u u';
  rd_total : (rx_total u' <= rx_total u)%nat;
  rd_regs : forall B (f : R -> B), (forall b r, f (ur_rx_irq b r) = f r) -> f (ua_regs u') = f (ua_regs u);
  rd_events : ua_events u' = ua_events u;
  rd_live : rx_live (ur_rx_irq_on (ua_regs u)) u -> rx_live (ur_rx_irq_on (ua_regs u')) u';
}.

#[export] Instance rounded_trans : Transitive rounded.
Proof.
  intros u1 u2 u3 [? ? ? H ? ?] [? ? ? H' ? ?]. split; try congruence; try lia; try (by etrans); [|by auto].
  intros B f Hf. by rewrite H', H.
Qed.
Lemma rounded_taken u u' : taken u u' -> rounded u u'.
Proof. intros [? ? ? Er ? Hl]. split; try done; rewrite Er; auto. Qed.
Lemma rounded_wf u u' : rounded u u' -> uart_wf u'.
Proof. by intros [[]]. Qed.

(** Interrupts on. *)
Lemma rounded_on u (Hwf : uart_wf u) :
  rounded u (set_ua_regs (ur_rx_irq true (ua_regs u)) (set_ua_rxq (set_sq_signalled 1 (ua_rxq u)) u)).
Proof.
  destruct Hwf. split; try done; [by intros B f Hf; apply Hf|]. intros _. left. cbn. apply ur_rx_irq_same.
Qed.

Lemma rx_take_spec checked u enq (Q : unit -> uart R * (bool * bool) -> Prop) :
  uart_wf u ->
  (forall u', taken u u' -> (rx_is_empty u' = true \/ rx_queue_full u' = true) ->
     (came u u' = false -> env u u' /\ (rx_is_empty u = true \/ rx_queue_full u = true)) ->
     Q tt (u', (false, enq || came u u'))) ->
  wp (loop rx_take_length (fun p => p.2.1) (rx_take_body checked)) (u, (true, enq)) Q.
Proof.
  intros Hwf HQ. assert (came u u = false) as Ec by apply Nat.ltb_irrefl.
  eapply (wp_loop_le (take_inv u enq) (fun p => (rx_total p.1 + Nat.b2n p.2.1)%nat)).
  - unfold take_inv. cbn [fst snd]. rewrite Ec, orb_false_r. split_and!; [by apply taken_refl|done..|].
    intros _. split; [by apply env_refl|done].
  - unfold rx_take_length. cbn. lia.
  - intros p. by apply rx_take_body_spec.
  - unfold take_inv. intros [u' [go en]]. cbn [fst snd]. intros (Hs & -> & Hend & Hp) ->. apply HQ; [done|by apply Hend|].
    intros [He H]%Hp. split; [done|]. destruct (rx_is_empty u), (rx_queue_full u); auto.
Qed.

(** Interrupts off while the queue is full: virt_rx is asked to notify, and if
    it took characters before it was, the queue is not full after. *)
Record parked u u' : Prop := {
  pk_moved : moved u u';
  pk_tx : tx_kept u u';
  pk_total : rx_total u' = rx_total u;
  pk_regs : forall B (f : R -> B), (forall b r, f (ur_rx_irq b r) = f r) -> f (ua_regs u') = f (ua_regs u);
  pk_events : ua_events u' = ua_events u;
  pk_off : ur_rx_irq_on (ua_regs u') = false;
  pk_some : rx_is_empty u' = false;
  pk_asked : serial_require_consumer_signal (ua_rxq u') = true \/ vt_rx_pending (ua_virt u') = true;
}.

Lemma parked_env u u1 u2 : parked u u1 -> env u1 u2 -> parked u u2.
Proof using.
  intros [? ? Et ? ? ? ? ?] [? [? ? ? ? ?] ? Er ?]. split; try congruence; try (by etrans); auto.
  intros B f Hf. rewrite Er. by auto.
Qed.

Lemma parked_full u u' : parked u u' -> rx_queue_full u' = true -> rounded u u'.
Proof using.
  intros [? ? Et ? ? ? ? Ha] Hf. split; try done; [lia|]. intros _. right. destruct Ha; auto.
Qed.

Lemma parked_on u u' :
  parked u u' -> rounded u (set_ua_regs (ur_rx_irq true (ua_regs u')) (set_ua_rxq (set_sq_signalled 1 (ua_rxq u')) u')).
Proof.
  intros [Hm ? Et Hr ? ? ? ?]. split; try done.
  - etrans; [exact Hm|]. by destruct Hm as [[]].
  - etrans; [exact pk_tx0|]. done.
  - change (rx_total u' <= rx_total u)%nat. lia.
  - intros B f Hf. cbn. rewrite Hf. by apply Hr.
  - left. apply ur_rx_irq_same.
Qed.

(** The looks at the receive FIFO. *)
Lemma rx_empty_spec {L} u (l : L) (Q : bool -> uart R * L -> Prop) :
  uart_wf u -> (forall u', env u u' -> uart_wf u' -> Q (rx_is_empty u') (u', l)) -> wp (on_state ur_rx_empty) (u, l) Q.
Proof.
  intros Hwf HQ. destruct (ur_rx_empty_ok u) as (b & Hb & E). wp_step. eapply wp_intro; [exact E|].
  pose proof (look_bits_env b u Hwf Hb) as He. apply HQ; [done|by eapply env_wf].
Qed.

Lemma rx_park_spec u l (Q : unit -> uart R * (bool * bool) -> Prop) :
  uart_wf u ->
  (forall u', env u u' /\ (rx_is_empty u' = true \/ rx_queue_full u' = false) \/ parked u u' -> Q tt (u', l)) ->
  wp rx_park (u, l) Q.
Proof.
  intros Hwf HQ. unfold rx_park. wp_step. apply rx_empty_spec; [done|]. intros u1 He Hwf1. do 2 wp_step. cbn [fst].
  destruct (rx_is_empty u1) eqn:Ee; cbn [negb andb].
  { cbn [when]. wp_step. apply HQ. left. auto. }
  destruct (rx_queue_full u1) eqn:Ef; cbn [when].
  2: { wp_step. apply HQ. left. auto. }
  unfold on_regs, on_rxq, serial_request_consumer_signal. do 7 wp_step. apply HQ. right.
  pose proof (moved_regs (ur_rx_irq false (ua_regs u1)) u1 Hwf1) as Hm2.
  set (u2 := set_ua_regs (ur_rx_irq false (ua_regs u1)) u1) in *.
  pose proof (look_env u2 (mv_wf _ _ Hm2)) as He3. pose proof (env_wf _ _ He3) as Hwf3.
  set (u3 := look u2) in *. pose proof (moved_signal 0 u3 Hwf3) as Hm4.
  destruct He as [Hm1 [Et1 _ _ _ _] Htx1 Er1 Ev1], He3 as [Hm3 [Et3 Es3 _ _ _] Htx3 Er3 Ev3].
  split; cbn [ua_regs set_ua_rxq].
  - by etrans; [|etrans; [|etrans]].
  - etrans; [exact Htx1|]. by destruct Htx3.
  - change (rx_total u3 = rx_total u). rewrite Et3, <- Et1. done.
  - intros B f Hf. rewrite Er3. cbn. by rewrite Hf, Er1.
  - change (ua_events u3 = ua_events u). by rewrite Ev3, <- Ev1.
  - rewrite Er3. apply ur_rx_irq_same.
  - by apply Es3.
  - by left.
Qed.

(** The state with the interrupt enabled. *)
Definition rx_on u : uart R :=
  set_ua_regs (ur_rx_irq true (ua_regs u)) (set_ua_rxq (set_sq_signalled 1 (ua_rxq u)) u).

Lemma rx_resume_spec u re en (Q : unit -> uart R * (bool * bool) -> Prop) :
  uart_wf u ->
  (forall u', env u u' -> rx_is_empty u' = true \/ rx_queue_full u' = true -> Q tt (u', (false, en))) ->
  (forall u', env u u' -> rx_is_empty u' = false -> rx_queue_full u' = false -> Q tt (rx_on u', (true, en))) ->
  wp rx_resume (u, (re, en)) Q.
Proof.
  intros Hwf Hout Hon. unfold rx_resume. wp_step. apply rx_empty_spec; [done|]. intros u1 He Hwf1. do 2 wp_step.
  cbn [fst snd]. destruct (rx_is_empty u1) eqn:Ee; cbn [negb andb]; [wp_step; auto|].
  destruct (rx_queue_full u1) eqn:Ef; cbn [negb]; [wp_step; auto|].
  unfold on_regs, on_rxq, serial_cancel_consumer_signal. do 6 wp_step. by apply (Hon u1).
Qed.

(** A round: it does not go on, and then the FIFO was seen empty or the queue
    full, or it does, and then there is a character and room for it. *)
Definition round_ends u (p : uart R * (bool * bool)) : Prop :=
  if p.2.1 then rx_is_empty p.1 = false /\ rx_queue_full p.1 = false
  else (rx_is_empty p.1 = true \/ rx_queue_full p.1 = true) /\
       (rx_is_empty u = false -> came u p.1 = true \/ ur_rx_irq_on (ua_regs p.1) = false).

Lemma rounded_came u u1 u' : rx_total u' = rx_total u1 -> came u u' = came u u1.
Proof using. unfold came. by intros ->. Qed.

Lemma rx_round_spec checked u re en (Q : unit -> uart R * (bool * bool) -> Prop) :
  uart_wf u ->
  (forall u' re', rounded u u' -> round_ends u (u', (re', en || came u u')) ->
     (rx_is_empty u = false -> rx_queue_full u = false -> came u u' = true) ->
     Q tt (u', (re', en || came u u'))) ->
  wp (rx_round checked) (u, (re, en)) Q.
Proof.
  intros Hwf HQ. unfold rx_round. do 5 wp_step. cbn [fst snd].
  apply rx_take_spec; [done|]. intros u1 Ht Hend Hp. pose proof (taken_wf _ _ Ht) as Hwf1. wp_step.
  assert (rx_is_empty u = false -> rx_queue_full u = false -> came u u1 = true) as Hc.
  { intros H1 H2. destruct (came u u1); [done|]. destruct (Hp eq_refl) as [_ [|]]; congruence. }
  pose proof (rounded_taken _ _ Ht) as Hr1.
  apply rx_park_spec; [done|]. intros u2 [[He Hu]|Hpk].
  - apply rx_resume_spec; [by eapply env_wf|..]; intros u3 He3 Hu3; assert (env u1 u3) as He13 by (by etrans).
    + assert (rounded u u3) as Hr3 by (etrans; [done|by apply rounded_taken, taken_env]).
      pose proof (came_env u _ _ He13) as E. rewrite <- E in *.
      apply HQ; [done| |done]. split; [done|]. intros Hs. cbn [fst]. left. destruct (came u u3); [done|].
      destruct (Hp eq_refl) as [He1 _]. pose proof (rk_some _ _ (ev_rx _ _ He1) Hs) as H1.
      pose proof (rk_some _ _ (ev_rx _ _ He) H1) as H2. pose proof (rk_some _ _ (ev_rx _ _ He3) H2) as H3.
      destruct Hu as [|Hu]; [congruence|]. apply (rk_room _ _ (ev_rx _ _ He3)) in Hu. destruct Hu3; congruence.
    + intros Hf3. assert (rounded u (rx_on u3)) as Hr3.
      { etrans; [done|]. etrans; [by apply rounded_taken, taken_env|]. apply rounded_on. by eapply env_wf. }
      assert (came u (rx_on u3) = came u u1) as E by by apply (came_env u _ _ He13). rewrite <- E in *.
      by apply HQ.
  - assert (uart_wf u2) as Hwf2 by by destruct Hpk as [[]].
    apply rx_resume_spec; [done|..]; intros u3 He3 Hu3; pose proof (parked_env _ _ _ Hpk He3) as Hpk3;
      pose proof (rounded_came u u1 u3 (pk_total _ _ Hpk3)) as E; rewrite <- E in *.
    + destruct Hu3 as [Hu3|Hf3]; [rewrite (pk_some _ _ Hpk3) in Hu3; done|].
      apply HQ; [etrans; [done|by apply parked_full]| |done]. split; [by right|]. intros _. right. apply Hpk3.
    + intros Hf3. apply (HQ (rx_on u3)); [etrans; [done|by apply parked_on]|done..].
Qed.

(** ** The whole of [rx_return] *)

Record rx_done u u' : Prop := {
  rx_rounded : rounded u u';
  rx_ends : rx_is_empty u' = true \/ rx_queue_full u' = true;
  rx_progress : rx_is_empty u = false -> came u u' = true \/ ur_rx_irq_on (ua_regs u') = false;
  rx_took : rx_is_empty u = false -> rx_queue_full u = false -> came u u' = true;
}.

Definition return_inv u0 (p : uart R * (bool * bool)) : Prop :=
  rounded u0 p.1 /\ p.2.2 = came u0 p.1 /\
  (p = (u0, (true, false)) \/
   round_ends u0 p /\ (rx_is_empty u0 = false -> rx_queue_full u0 = false -> came u0 p.1 = true)).

(** A first round may only find room; each further one takes a character. *)
Definition return_measure (p : uart R * (bool * bool)) : nat :=
  if p.2.1 then
    if negb (rx_is_empty p.1) && negb (rx_queue_full p.1) then rx_total p.1 else S (rx_total p.1)
  else 0.

Lemma came_trans u0 u1 u2 :
  (rx_total u1 <= rx_total u0)%nat -> (rx_total u2 <= rx_total u1)%nat -> came u0 u2 = came u0 u1 || came u1 u2.
Proof using.
  unfold came. intros. apply eq_bool_prop_intro. rewrite orb_True, !Is_true_true, !Nat.ltb_lt. lia.
Qed.

Lemma return_step checked u0 p :
  return_inv u0 p -> p.2.1 = true ->
  wp (rx_round checked) p (fun _ p' => return_inv u0 p' /\ (return_measure p' < return_measure p)%nat).
Proof.
  destruct p as [u [re en]]. unfold return_inv. cbn [fst snd]. intros (Hr & -> & Hp) ->.
  apply rx_round_spec; [by eapply rounded_wf|]. intros u' re' Hr' Hend Hc.
  pose proof (rd_total _ _ Hr) as Hle. pose proof (rd_total _ _ Hr') as Hle'. cbn [fst snd].
  rewrite <- (came_trans u0 u u') in * by done.
  split; [split_and!; [by etrans|done|right]|].
  - destruct Hp as [[= -> _]|[[Hs Hf] _]]; [done|]. cbn [fst snd] in *. specialize (Hc Hs Hf).
    assert (came u0 u' = true) as Hc0 by by rewrite (came_trans u0 u u'), Hc, orb_true_r by done.
    split; [|done]. destruct re'; [done|]. destruct Hend as [Hend _]. split; [done|]. by left.
  - unfold return_measure. cbn [fst snd]. destruct re'.
    + destruct Hend as [Hs' Hf']. cbn [fst snd] in *. rewrite Hs', Hf'. cbn [negb andb].
      destruct (rx_is_empty u), (rx_queue_full u); cbn [negb andb]; try lia.
      specialize (Hc eq_refl eq_refl). by apply Nat.ltb_lt in Hc.
    + destruct (rx_is_empty u), (rx_queue_full u); cbn [negb andb]; try lia.
      specialize (Hc eq_refl eq_refl). apply Nat.ltb_lt in Hc. lia.
Qed.

Lemma rx_return_with_spec checked u (Q : unit -> uart R -> Prop) :
  uart_wf u ->
  (forall u', rx_done u u' -> Q tt (set_ua_events (ua_events u ++ (if came u u' then [Notify (sd_rx_id config)] else [])) u')) ->
  wp (rx_return_with config checked) u Q.
Proof.
  intros Hwf HQ. unfold rx_return_with. do 2 wp_step.
  assert (came u u = false) as Ec by apply Nat.ltb_irrefl.
  eapply (wp_loop_le (return_inv u) return_measure).
  - unfold return_inv. cbn [fst snd]. rewrite Ec. split_and!; [by apply rounded_taken, taken_refl|done|by left].
  - unfold return_measure, rx_take_length. cbn [fst snd]. destruct (_ && _); lia.
  - intros p. by apply return_step.
  - unfold return_inv. intros [u' [re en]]. cbn [fst snd]. intros (Hr & -> & H) ->. destruct H as [|[[Hend Hp] Htook]]; [done|].
    specialize (HQ u'). rewrite <- (rd_events _ _ Hr) in HQ. unfold uart_emit. cbn [fst snd] in *.
    destruct (came u u') eqn:Ec'; cbn [when]; wp_step.
    + apply HQ. split; [done|done| |]; auto.
    + assert (u' = set_ua_events (ua_events u' ++ []) u') as -> by (rewrite app_nil_r; by destruct u').
      apply HQ. split; [done|done| |]; rewrite Ec'; auto.
Qed.
End specs.

(** ** Bits of a register *)

Lemma has_false reg bits : has reg bits = false <-> Z.land reg bits = 0.
Proof. unfold has. by rewrite negb_false_iff, Z.eqb_eq. Qed.

Lemma testbit_u32_lnot (bits i : Z) :
  0 <= i -> Z.testbit (u32 (Z.lnot bits)) i = (i <? 32) && negb (Z.testbit bits i).
Proof.
  intros Hi. unfold u32. destruct (Z.ltb_spec i 32).
  - by rewrite Z.mod_pow2_bits_low, Z.lnot_spec by lia.
  - by rewrite Z.mod_pow2_bits_high by lia.
Qed.

Lemma land_set_bits b bits bits' reg :
  is_u32 bits' ->
  Z.land (set_bits b bits reg) bits' =
  if b then Z.lor (Z.land reg bits') (Z.land bits bits') else Z.ldiff (Z.land reg bits') bits.
Proof.
  intros Hb. destruct b; cbn; [apply Z.land_lor_distr_l|]. apply Z.bits_inj'. intros i Hi.
  rewrite Z.ldiff_spec, !Z.land_spec, testbit_u32_lnot by done.
  destruct (Z.ltb_spec i 32) as [Hlt|Hge]; cbn.
  - destruct (Z.testbit reg i), (Z.testbit bits' i), (Z.testbit bits i); done.
  - assert (Z.testbit bits' i = false) as ->; [|by rewrite !andb_false_r].
    rewrite <- (Z.mod_small bits' (2 ^ 32)) by done. apply Z.mod_pow2_bits_high. lia.
Qed.

(** A field [mask] is cleared and [bits] put into it. *)
Lemma land_field bits mask reg : is_u32 mask -> Z.land (set_bits true bits (set_bits false mask reg)) mask = Z.land bits mask.
Proof.
  intros Hm. rewrite !land_set_bits by done. cbn [set_bits]. apply Z.bits_inj'. intros i Hi.
  rewrite Z.lor_spec, Z.ldiff_spec, !Z.land_spec.
  by destruct (Z.testbit reg i), (Z.testbit mask i), (Z.testbit bits i).
Qed.
Lemma land_set_bits_other b bits mask reg : is_u32 mask -> Z.land bits mask = 0 -> Z.land (set_bits b bits reg) mask = Z.land reg mask.
Proof.
  intros Hm Hd. rewrite land_set_bits by done. destruct b; [by rewrite Hd, Z.lor_0_r|].
  apply Z.bits_inj'. intros i Hi. apply (f_equal (fun z => Z.testbit z i)) in Hd. rewrite Z.land_spec, Z.bits_0 in Hd.
  rewrite Z.ldiff_spec, Z.land_spec. destruct (Z.testbit reg i), (Z.testbit mask i), (Z.testbit bits i); done.
Qed.

Lemma has_set_bits_same b bits reg : is_u32 bits -> bits <> 0 -> has (set_bits b bits reg) bits = b.
Proof.
  intros Hb Hn. unfold has. rewrite land_set_bits by done. destruct b.
  - rewrite Z.land_diag. apply negb_true_iff, Z.eqb_neq. rewrite Z.lor_eq_0_iff. tauto.
  - apply negb_false_iff, Z.eqb_eq. apply Z.bits_inj'. intros i Hi.
    rewrite Z.ldiff_spec, Z.land_spec, Z.bits_0. by destruct (Z.testbit reg i), (Z.testbit bits i).
Qed.

Lemma has_set_bits_other b bits bits' reg :
  is_u32 bits' -> Z.land bits bits' = 0 -> has (set_bits b bits reg) bits' = has reg bits'.
Proof. intros Hb Hd. unfold has. by rewrite land_set_bits_other. Qed.

Lemma testbit_set_bits b bits reg i :
  0 <= i < 32 ->
  Z.testbit (set_bits b bits reg) i = if b then Z.testbit reg i || Z.testbit bits i else Z.testbit reg i && negb (Z.testbit bits i).
Proof.
  intros Hi. destruct b; cbn; [apply Z.lor_spec|]. rewrite Z.land_spec, testbit_u32_lnot by lia.
  destruct (Z.ltb_spec i 32); [done|lia].
Qed.

(** A status bit that says what a FIFO is like. *)
Lemma has_with_bit_same b k w : 0 <= k -> has (with_bit b k w) (2 ^ k) = b.
Proof.
  intros Hk. unfold has. rewrite <- Z.shiftl_1_l. destruct b; cbn [with_bit].
  - apply negb_true_iff, Z.eqb_neq. intros E. apply (f_equal (fun z => Z.testbit z k)) in E.
    rewrite Z.land_spec, Z.setbit_eq, Z.shiftl_spec, Z.sub_diag, Z.bits_0 in E by done. done.
  - apply negb_false_iff, Z.eqb_eq. apply Z.bits_inj'. intros i Hi. rewrite Z.land_spec, Z.bits_0, Z.shiftl_1_l.
    destruct (decide (i = k)) as [->|Hne]; [by rewrite Z.clearbit_eq|].
    by rewrite Z.pow2_bits_false, andb_false_r by done.
Qed.

Lemma has_with_bit_other b k k' w : 0 <= k -> 0 <= k' -> k <> k' -> has (with_bit b k w) (2 ^ k') = has w (2 ^ k').
Proof.
  intros Hk Hk' Hne. unfold has. do 2 f_equal. apply Z.bits_inj'. intros i Hi. rewrite !Z.land_spec.
  destruct (decide (i = k')) as [->|?]; [|by rewrite Z.pow2_bits_false, !andb_false_r by done].
  f_equal. destruct b; cbn; [by apply Z.setbit_neq|by apply Z.clearbit_neq].
Qed.

Lemma has_with_bit_mask b k w m : 0 <= k -> Z.testbit m k = false -> has (with_bit b k w) m = has w m.
Proof.
  intros Hk Hm. unfold has. do 2 f_equal. apply Z.bits_inj'. intros i Hi. rewrite !Z.land_spec.
  destruct (decide (i = k)) as [->|Hne]; [by rewrite Hm, !andb_false_r|].
  f_equal. destruct b; cbn; [by apply Z.setbit_neq|by apply Z.clearbit_neq].
Qed.

Lemma has_sub b b' m : bits_sub b b' -> has b m = true -> has b' m = true.
Proof.
  intros Hs H. apply not_false_is_true. intros E%has_false.
  assert (has b m = false) as E'; [|congruence]. apply has_false, Z.bits_inj'. intros i Hi.
  apply (f_equal (fun z => Z.testbit z i)) in E. rewrite Z.land_spec, Z.bits_0 in *.
  specialize (Hs i). destruct (Z.testbit b i); [|done]. by rewrite Hs in E.
Qed.

Lemma ldiff_sub b m : bits_sub (Z.ldiff b m) b.
Proof.
  intros k. destruct (Z.ltb_spec k 0) as [|Hk]; [by rewrite !Z.testbit_neg_r|].
  rewrite Z.ldiff_spec. by destruct (Z.testbit b k).
Qed.

Lemma u8_u32 (x : Z) : u8 (u32 x) = u8 x.
Proof. apply Z.mod_mod_divide. by exists (2 ^ 24). Qed.

(** A read of the data register. *)
Lemma pop_char_cons {R} (u : uart R) w l : ua_rx u = w :: l -> pop_char u = Ok (w, set_ua_rx l u).
Proof. intros E. unfold pop_char, mbind, M_bind, get. by rewrite E. Qed.

(** A test of a status register. *)
Lemma read_status_has {R} (f : uart R -> Z) bits (u : uart R) :
  (s ← read_status f; mret (has s bits)) u = Ok (has (f (look u)) bits, look u).
Proof. done. Qed.

Lemma set_ua_bits_same {R} (u : uart R) : set_ua_bits (ua_bits u) u = u.
Proof. by destruct u. Qed.

(** ** Starting a driver, and running it *)

(** A loop that waits for a bit of the status: a look for each entry of the
    script, and one more. *)
Definition wait_while {R} (busy : M (uart R) bool) : M (uart R) unit :=
  with_local true
    (loop (fun p => S (length (ua_script p.1))) snd (b ← on_state busy; set_local b));;
  mret tt.

Lemma wait_while_idle {R} (busy : M (uart R) bool) u u' : busy u = Ok (false, u') -> wait_while busy u = Ok (tt, u').
Proof.
  intros E. assert ((b ← on_state busy; set_local b) (u, true) = Ok (tt, (u', false))) as Eb.
  { by rewrite (bind_ok _ _ _ _ _ (on_state_ok _ _ _ _ _ E)). }
  unfold wait_while, with_local, loop, mbind at 1, M_bind at 1. cbn [fst snd while].
  rewrite (bind_ok _ _ _ _ _ Eb). by destruct (length (ua_script u)).
Qed.


(** The queues of [config.rx] and [config.tx]: shared memory, capacity, data. *)
Definition queue_config : Type := serial_queue * Z * list Z.
Definition queue_init (q : queue_config) : serial_queue_handle := serial_queue_init q.1.1 q.1.2 q.2.

Section run.
Context {R : Type} `{UR : !UartRegs R} (config : serial_driver_config).

(** Microkit delivers a notification; the interrupt of the device is not one of
    a virtualiser. *)
Definition deliver (ch : Z) (u : uart R) : uart R :=
  let v := ua_virt u in
  if ch =? sd_irq config then u else
  if ch =? sd_tx_id config then set_ua_virt (mk_virt (vt_taken v) (vt_given v) (vt_owes v) (vt_rx_pending v) false) u else
  if ch =? sd_rx_id config then set_ua_virt (mk_virt (vt_taken v) (vt_given v) (vt_owes v) false (vt_tx_pending v)) u
  else u.

(** The event loop of Microkit, for a sequence of notifications. *)
Definition driver_run (notified : Z -> M (uart R) unit) (chs : list Z) : M (uart R) unit :=
  for_each chs (fun ch => modify (deliver ch);; notified ch).

(** Nothing waits for an interrupt that is disabled. *)
Definition rx_alive (u : uart R) : Prop := rx_live (ur_rx_irq_on (ua_regs u)) u.
Definition tx_alive (u : uart R) : Prop := tx_live (ur_tx_irq_on (ua_regs u)) u.

Lemma deliver_moved ch u : uart_wf u -> moved u (deliver ch u).
Proof. intros []. unfold deliver. by repeat case_match; split. Qed.

(** Runs of a driver whose [notified] keeps an invariant. *)
Lemma driver_run_keeps (I : uart R -> Prop) notified chs u :
  uart_wf u -> I u ->
  (forall ch u, uart_wf u -> I u -> wp (notified ch) (deliver ch u) (fun _ u' => moved u u' /\ I u')) ->
  wp (driver_run notified chs) u (fun _ u' => moved u u' /\ I u').
Proof.
  intros Hwf HI Hn. unfold driver_run. apply (wp_for_each (fun _ u' => moved u u' /\ I u')).
  - split; [by apply moved_refl|done].
  - intros pre ch post u1 _ [Hm HI1]. do 2 wp_step. eapply wp_mono; [apply Hn; [by eapply mv_wf|done]|].
    intros [] u2 [Hm2 HI2]. split; [by etrans|done].
  - auto.
Qed.

(** Delivery of one notification says nothing about the other. *)
Lemma deliver_rx_other ch u on : ch <> sd_rx_id config \/ ch = sd_irq config \/ ch = sd_tx_id config -> rx_live on u -> rx_live on (deliver ch u).
Proof.
  intros Hch. unfold deliver. repeat case_match; try done. rewrite ?Z.eqb_eq, ?Z.eqb_neq in *. naive_solver.
Qed.
Lemma deliver_tx_other ch u on : ch <> sd_tx_id config \/ ch = sd_irq config -> tx_live on u -> tx_live on (deliver ch u).
Proof.
  intros Hch. unfold deliver. repeat case_match; try done. rewrite ?Z.eqb_eq, ?Z.eqb_neq in *. naive_solver.
Qed.
End run.

(** ** A state to run the drivers in

    Three characters are in the receive FIFO, of depth 4, as is the transmit
    FIFO, which is full; the receive queue has room for two, the transmit queue
    holds one character. *)
Definition serial_ex (tail head : Z) (data : list Z) : serial_queue_handle :=
  mk_serial_handle (mk_serial_queue tail head 1) 4 data.
Definition uart_ex {R} (regs : R) (bits : Z) (script : list (list env_act)) : uart R :=
  mk_uart regs [65; 66; 67] [49; 50; 51; 52] 4 [] bits script
    (serial_ex 2 0 [97; 98; 0; 0]) (serial_ex 0 (2 ^ 32 - 1) [0; 0; 0; 53])
    (mk_virt [] [49; 50; 51; 52; 53] false false false) [].
Definition serial_config_ex : serial_driver_config := mk_serial_driver_config 1 2 115200 true 0.

Lemma serial_ex_wf tail head data :
  0 <= head < 2 ^ 32 -> 0 <= tail < 2 ^ 32 -> length data = 4%nat -> u32 (tail - head) <= 4 ->
  serial_wf (serial_ex tail head data).
Proof. intros. split; cbn; try lia; [by exists (2 ^ 30)|done]. Qed.

Lemma uart_ex_wf {R} (regs : R) bits script : uart_wf (uart_ex regs bits script).
Proof. split; [by apply serial_ex_wf|by apply serial_ex_wf|by vm_compute|cbn; lia]. Qed.

(** ** Draining the receive FIFO

    With nothing more happening and room for what is in the FIFO, [rx_return]
    empties it and leaves the interrupt enable and the signalling as they are. *)
Section drain.
Context {R : Type} `{UR : !UartRegs R} `{!UartRegsLaws R} (config : serial_driver_config).
Implicit Types u : uart R.

Record draining u0 u : Prop := {
  dr_wf : uart_wf u;
  dr_quiet : ua_script u = [];
  dr_room : Z.of_nat (length (serial_items (ua_rxq u)) + length (ua_rx u)) <= sh_capacity (ua_rxq u);
  dr_regs : ua_regs u = ua_regs u0;
  dr_virt : ua_virt u = ua_virt u0;
  dr_flag : sq_producer_signalled (sh_queue (ua_rxq u)) = sq_producer_signalled (sh_queue (ua_rxq u0));
}.

Lemma draining_empty {L} u0 u (l : L) (Q : bool -> uart R * L -> Prop) :
  draining u0 u -> (forall u', draining u0 u' -> ua_rx u' = ua_rx u -> Q (rx_is_empty u') (u', l)) ->
  wp (on_state ur_rx_empty) (u, l) Q.
Proof.
  intros [Hwf Hq Hr] HQ. destruct (ur_rx_empty_ok u) as (b & Hb & E). assert (look u = u) as El by (unfold look; by rewrite Hq).
  rewrite El in *. wp_step. eapply wp_intro; [exact E|]. apply HQ; [|done]. by split; [destruct Hwf|..].
Qed.

Lemma draining_char u0 u w l q :
  draining u0 u -> ua_rx u = w :: l -> serial_wf q -> serial_items q = serial_items (ua_rxq u) ++ [u8 w] ->
  serial_rest q = serial_rest (ua_rxq u) -> draining u0 (set_ua_rxq q (set_ua_rx l u)).
Proof.
  intros [[] Hq Hr Hg Hv Hf] Ew Hwf Eq [Ec Es]%serial_rest_signalled. split; try done; cbn.
  - rewrite Eq, length_app, Ec. rewrite Ew in Hr. cbn in *. lia.
  - by rewrite Es.
Qed.

Lemma draining_take checked u0 p :
  draining u0 p.1 -> p.2.1 = true ->
  wp (rx_take_body checked) p (fun _ p' => (draining u0 p'.1 /\ (p'.2.1 = false -> ua_rx p'.1 = [])) /\
    (length (ua_rx p'.1) + Nat.b2n p'.2.1 < length (ua_rx p.1) + Nat.b2n p.2.1)%nat).
Proof.
  destruct p as [u [go en]]. cbn [fst snd]. intros Hd ->. unfold rx_take_body. wp_step.
  apply (draining_empty u0); [done|]. intros u1 Hd1 E1. do 2 wp_step. cbn [fst snd]. rewrite <- E1. unfold rx_is_empty.
  destruct (nil_or_cons (ua_rx u1)) as [Ew|(w & l & Ew)].
  { rewrite bool_decide_true by done. cbn [negb andb]. wp_step. split; [done|]. cbn. lia. }
  rewrite bool_decide_false by (by rewrite Ew). cbn [negb andb]. pose proof (dr_wf _ _ Hd1) as Hwf. pose proof Hwf as [Hq _ _ _].
  pose proof (dr_room _ _ Hd1) as Hr. rewrite Ew in Hr. cbn [length] in Hr.
  rewrite rx_queue_full_items, (proj2 (Z.eqb_neq _ _)) by (done || lia). cbn [negb].
  do 2 wp_step. eapply wp_intro; [by apply ur_read_ok|]. unfold on_rxq. do 3 wp_step. cbn [ua_rxq set_ua_rx].
  apply serial_enqueue_spec; [done|lia|]. intros q Hq' Eq Erest _.
  wp_step. eapply (wp_intro _ _ tt); [by destruct checked|]. wp_step. rewrite Ew. cbn [fst snd].
  split; [split; [by eapply draining_char|done]|cbn; lia].
Qed.

Lemma draining_round checked u0 u l (Q : unit -> uart R * (bool * bool) -> Prop) :
  draining u0 u ->
  (forall u' en, draining u0 u' -> ua_rx u' = [] -> Q tt (u', (false, en))) ->
  wp (rx_round checked) (u, l) Q.
Proof.
  intros Hd HQ. unfold rx_round. do 5 wp_step. cbn [fst snd].
  apply (wp_loop_le (fun p => draining u0 p.1 /\ (p.2.1 = false -> ua_rx p.1 = []))
    (fun p => (length (ua_rx p.1) + Nat.b2n p.2.1)%nat)); [done|cbn; unfold rx_take_length, rx_total; cbn; lia| |].
  - intros p [Hp _]. by apply draining_take.
  - intros [u1 [go en]] [Hd1 He1] Hgo. cbn [fst snd] in *. specialize (He1 Hgo). wp_step. unfold rx_park, rx_resume.
    wp_step. apply (draining_empty u0); [done|]. intros u2 Hd2 E2. do 2 wp_step. cbn [fst snd]. rewrite <- E2 in He1.
    unfold rx_is_empty at 1. rewrite bool_decide_true by done. cbn [negb andb when]. do 2 wp_step.
    apply (draining_empty u0); [done|]. intros u3 Hd3 E3. do 2 wp_step. cbn [fst snd]. rewrite <- E3 in He1.
    unfold rx_is_empty. rewrite bool_decide_true by done. cbn [negb andb]. wp_step. by apply HQ.
Qed.

Lemma rx_return_drains checked u (Q : unit -> uart R -> Prop) :
  draining u u -> (forall u', draining u u' -> ua_rx u' = [] -> Q tt u') ->
  wp (rx_return_with config checked) u Q.
Proof.
  intros Hd HQ. unfold rx_return_with. do 2 wp_step.
  apply (wp_loop_le (fun p => draining u p.1 /\ (p.2.1 = false -> ua_rx p.1 = [])) (fun p => Nat.b2n p.2.1)); [done|cbn; unfold rx_take_length; lia| |].
  - intros [u1 [go en]] [Hd1 _] Hgo. apply (draining_round checked u); [done|]. intros u2 en2 Hd2 E2. cbn [fst snd] in *.
    rewrite Hgo. split; [done|cbn; lia].
  - intros [u1 [go en]] [Hd1 He1] Hgo. cbn [fst snd] in *. specialize (He1 Hgo). unfold uart_emit.
    destruct en; cbn [when]; wp_step; apply HQ; try done.
    destruct Hd1 as [Hwf ?]. by split; [destruct Hwf|..].
Qed.
End drain.
