(* ===== verification/UartArm.v ===== *)
(** * The PL011 serial driver: drivers/serial/arm/uart.c *)

From S2P Require Import Prelude SerialQueue Microkit UartDev.

(** ** Registers *)

(** The registers of [pl011_uart_regs_t] that the driver writes and that keep
    what is written; [dr] is the two FIFOs. *)
Record pl011_uart_regs : Type := mk_pl011_uart_regs {
  pl_ibrd : Z;
  pl_fbrd : Z;
  pl_lcr_h : Z;
  pl_tcr : Z;
  pl_ifls : Z;
  pl_imsc : Z;
}.
Definition pl011 : Type := uart pl011_uart_regs.

Definition set_pl_baud (i f : Z) r := mk_pl011_uart_regs i f (pl_lcr_h r) (pl_tcr r) (pl_ifls r) (pl_imsc r).
Definition set_pl_lcr_h x r := mk_pl011_uart_regs (pl_ibrd r) (pl_fbrd r) x (pl_tcr r) (pl_ifls r) (pl_imsc r).
Definition set_pl_tcr x r := mk_pl011_uart_regs (pl_ibrd r) (pl_fbrd r) (pl_lcr_h r) x (pl_ifls r) (pl_imsc r).
Definition set_pl_ifls x r := mk_pl011_uart_regs (pl_ibrd r) (pl_fbrd r) (pl_lcr_h r) (pl_tcr r) x (pl_imsc r).
Definition set_pl_imsc x r := mk_pl011_uart_regs (pl_ibrd r) (pl_fbrd r) (pl_lcr_h r) (pl_tcr r) (pl_ifls r) x.

Definition PL011_DR_DATA_MASK : Z := 0xFF.
Definition PL011_FR_TXFF : Z := 2 ^ 5.
Definition PL011_FR_RXFE : Z := 2 ^ 4.
Definition PL011_FR_UART_BUSY : Z := 2 ^ 3.
Definition PL011_UART_REF_CLOCK : Z := 0x16E3600.
Definition PL011_LCR_WLEN_SHFT : Z := 5.
Definition PL011_LCR_FIFO_EN : Z := 2 ^ 4.
Definition PL011_LCR_2_STP_BITS : Z := 2 ^ 3.
Definition PL011_LCR_PARTY_EN : Z := 2 ^ 1.
Definition PL011_CR_RX_EN : Z := 2 ^ 9.
Definition PL011_CR_TX_EN : Z := 2 ^ 8.
Definition PL011_CR_UART_EN : Z := 2 ^ 0.
Definition PL011_IFLS_RX : Z := Z.shiftl 0x7 3. (* PL011_IFLS_RX_MASK << PL011_IFLS_RX_SHFT *)
Definition PL011_IFLS_TX : Z := Z.shiftl 0x7 0.
Definition PL011_IMSC_TX_INT : Z := 2 ^ 5.
Definition PL011_IMSC_RX : Z := Z.lor (2 ^ 6) (2 ^ 4). (* PL011_IMSC_RX_TIMEOUT | PL011_IMSC_RX_INT *)

(** The flag register. *)
Definition pl_fr (u : pl011) : Z := with_bit (tx_is_full u) 5 (with_bit (rx_is_empty u) 4 (ua_bits u)).

(** The masked interrupt status.  The device chooses when it raises an
    interrupt (thresholds, timeout): bits 12 to 14 of the status; it does so for
    reception only with a character in the FIFO, for transmission only with
    room in it. *)
Definition pl_ris (u : pl011) : Z :=
  let raw := Z.shiftr (ua_bits u) 8 in
  Z.lor (if rx_is_empty u then 0 else Z.land raw PL011_IMSC_RX)
        (if tx_is_full u then 0 else Z.land raw PL011_IMSC_TX_INT).
Definition pl_mis (u : pl011) : Z := Z.land (pl_ris u) (pl_imsc (ua_regs u)).

#[export] Instance pl011_regs : UartRegs pl011_uart_regs := {
  ur_room u := negb (tx_is_full u);
  ur_tx_full := fr ← read_status pl_fr; mret (has fr PL011_FR_TXFF);
  ur_rx_empty := fr ← read_status pl_fr; mret (has fr PL011_FR_RXFE);
  ur_write c := push_char (u32 c);
  ur_read := c ← pop_char; mret (u8 (Z.land c PL011_DR_DATA_MASK));
  ur_tx_irq b r := set_pl_imsc (set_bits b PL011_IMSC_TX_INT (pl_imsc r)) r;
  ur_rx_irq b r := set_pl_imsc (set_bits b PL011_IMSC_RX (pl_imsc r)) r;
  ur_tx_irq_on r := has (pl_imsc r) PL011_IMSC_TX_INT;
  ur_rx_irq_on r := has (pl_imsc r) PL011_IMSC_RX;
}.

(** ** The driver *)

Section driver.
Context (config : serial_driver_config).

(** The division is one of integers, [bps] being a [long]: the quotient is
    exact in a [float], and so is 64 times it.  [DivByZero] is the fault of the
    division; the conversions to [uint32_t] do not lose anything. *)
Definition set_baud (bps : Z) : M pl011 unit :=
  baud_div ← lift (udiv PL011_UART_REF_CLOCK (16 * bps));
  let baud_div_int := u32 baud_div in
  let baud_div_frac := u32 (baud_div * 64) in
  assert_ (1 <=? baud_div_int);;
  assert_ ((baud_div_int <? 0xFFFF) || ((baud_div_int =? 0xFFFF) && (baud_div_frac =? 0)));;
  on_regs (set_pl_baud baud_div_int baud_div_frac).

Definition tx_provide : M pl011 unit :=
  transferred ← tx_send;
  full ← ur_tx_full;
  u ← get;
  on_regs (ur_tx_irq ((full : bool) && negb (tx_queue_empty (u : pl011))));;
  tx_signal config transferred.

Definition rx_return : M pl011 unit := rx_return_with config false.

(** The local variable is [uart_int_reg]; each iteration receives, sends or
    disables an interrupt. *)
Definition handle_irq_body : M (pl011 * Z) unit :=
  p ← get;
  let uart_int_reg := (p : pl011 * Z).2 in
  when (sd_rx_enabled config && has uart_int_reg PL011_IMSC_RX) (on_state rx_return);;
  when (has uart_int_reg PL011_IMSC_TX_INT) (on_state tx_provide);;
  r ← on_state (read_status pl_mis);
  set_local r.
Definition irq_work (u : pl011) : nat :=
  rx_total u + Nat.b2n (ur_rx_irq_on (ua_regs u)) + (tx_total u + Nat.b2n (ur_tx_irq_on (ua_regs u))).
Definition handle_irq : M pl011 unit :=
  uart_int_reg ← read_status pl_mis;
  with_local uart_int_reg
    (loop (fun p => irq_work p.1) (fun p => has p.2 PL011_IMSC_RX || has p.2 PL011_IMSC_TX_INT) handle_irq_body);;
  mret tt.

(** [reg |= bits] and [reg &= ~bits] on the control registers. *)
Definition lcr_h_bits (b : bool) (bits : Z) : M pl011 unit :=
  on_regs (fun r => set_pl_lcr_h (set_bits b bits (pl_lcr_h r)) r).
Definition tcr_bits (b : bool) (bits : Z) : M pl011 unit :=
  on_regs (fun r => set_pl_tcr (set_bits b bits (pl_tcr r)) r).
Definition ifls_bits (b : bool) (bits : Z) : M pl011 unit :=
  on_regs (fun r => set_pl_ifls (set_bits b bits (pl_ifls r)) r).

(** The wait for the end of a transmission. *)
Definition wait_busy : M pl011 unit := wait_while (fr ← read_status pl_fr; mret (has fr PL011_FR_UART_BUSY)).

(** [0b11 < PL011_LCR_WLEN_SHFT] is a comparison. *)
Definition uart_setup : M pl011 unit :=
  wait_busy;;
  tcr_bits false (Z.lor (Z.lor PL011_CR_RX_EN PL011_CR_TX_EN) PL011_CR_UART_EN);;
  lcr_h_bits false PL011_LCR_2_STP_BITS;;
  lcr_h_bits true (Z.b2z (3 <? PL011_LCR_WLEN_SHFT));;
  set_baud (sd_default_baud config);;
  lcr_h_bits true PL011_LCR_FIFO_EN;;
  lcr_h_bits true PL011_LCR_PARTY_EN;;
  when (sd_rx_enabled config)
    (ifls_bits false PL011_IFLS_RX;; on_regs (ur_rx_irq true));;
  ifls_bits false PL011_IFLS_TX;;
  on_regs (ur_tx_irq true);;
  tcr_bits true PL011_CR_UART_EN;;
  tcr_bits true PL011_CR_TX_EN;;
  when (sd_rx_enabled config) (tcr_bits true PL011_CR_RX_EN).

(** [resources_ok] is the conjunction of the four asserted conditions on the
    two configuration sections. *)
Definition init (resources_ok : bool) (rx tx : queue_config) : M pl011 unit :=
  assert_ resources_ok;;
  uart_emit (IrqAck (sd_irq config));;
  uart_setup;;
  when (sd_rx_enabled config) (modify (fun u => set_ua_rxq (queue_init rx) u));;
  modify (fun u => set_ua_txq (queue_init tx) u).

Definition notified (ch : Z) : M pl011 unit :=
  if ch =? sd_irq config then handle_irq;; uart_emit (DeferredIrqAck ch) else
  if ch =? sd_tx_id config then tx_provide else
  if ch =? sd_rx_id config then on_regs (ur_rx_irq true);; rx_return else
  mret tt.
End driver.

(** ** The registers are as the loops expect *)

#[export] Instance pl011_laws : UartRegsLaws pl011_uart_regs.
Proof.
  assert (is_u32 PL011_IMSC_TX_INT /\ is_u32 PL011_IMSC_RX) as [? ?] by by unfold is_u32.
  split.
  - cbn. intros u. apply negb_true_iff.
  - cbn. unfold tx_is_full. intros u u' H1 -> H2. apply negb_true_iff, Nat.leb_gt in H1.
    apply negb_true_iff, Nat.leb_gt. lia.
  - intros u. exists (ua_bits (look u)). split; [done|]. cbv zeta. rewrite set_ua_bits_same. etrans; [apply read_status_has|].
    unfold pl_fr, PL011_FR_TXFF. rewrite has_with_bit_same by done. cbn [ur_room pl011_regs]. by rewrite negb_involutive.
  - intros u. exists (ua_bits (look u)). split; [done|]. cbv zeta. rewrite set_ua_bits_same. etrans; [apply read_status_has|].
    unfold pl_fr, PL011_FR_RXFE. by rewrite has_with_bit_other, has_with_bit_same by done.
  - intros c u. cbn. unfold push_char, modify. by rewrite u8_u32.
  - intros u w l E. cbn [ur_read pl011_regs]. rewrite (bind_ok _ _ _ _ _ (pop_char_cons _ _ _ E)). cbv beta.
    unfold PL011_DR_DATA_MASK. change 0xFF with (Z.ones 8). rewrite Z.land_ones by done.
    unfold u8 at 1. by rewrite Z.mod_mod by done.
  - intros b r. by apply has_set_bits_same.
  - intros b r. by apply has_set_bits_other.
  - intros b r. by apply has_set_bits_same.
  - intros b r. by apply has_set_bits_other.
Qed.

(** ** The operations *)

Section specs.
Context (config : serial_driver_config).
Implicit Types u : pl011.

(** It is called with the transmit interrupt pending or not; if there was room
    it sends or leaves the interrupt disabled. *)
Lemma arm_tx_provide_spec u (Q : unit -> pl011 -> Prop) :
  uart_wf u ->
  (forall u', tx_done config u u' ->
     (ur_room u = true -> (tx_total u' + Nat.b2n (ur_tx_irq_on (ua_regs u')) < tx_total u + 1)%nat) -> Q tt u') ->
  wp (tx_provide config) u Q.
Proof.
  intros Hwf HQ. unfold tx_provide. wp_step. apply tx_send_spec; [done|]. intros tr u1 Hs Htr _ Hroom.
  wp_step. destruct (ur_tx_full_ok u1) as (b & Hb & E). set (u2 := set_ua_bits b (look u1)) in *. eapply wp_intro; [exact E|].
  clear E. pose proof (look_bits_env b u1 (sent_wf _ _ Hs) Hb) as He. fold u2 in He. clearbody u2.
  assert (sent u u2) as Hs2 by (etrans; [done|by apply sent_env]).
  do 3 wp_step. unfold on_regs. wp_step. apply tx_signal_spec; [by destruct (sent_wf _ _ Hs2)|].
  intros u' Hm Hr Ht Eg Ee. cbn [ua_regs set_ua_regs] in Ee, Eg. apply HQ.
  - eapply tx_done_sent; [done..|]. naive_solver.
  - intros Hru. rewrite Eg, ur_tx_irq_same. pose proof (tk_total _ _ Ht) as Hle.
    change (tx_total (set_ua_regs _ u2)) with (tx_total u2) in Hle. pose proof (st_total _ _ Hs2) as Hle2.
    destruct tr.
    + specialize (Htr eq_refl). pose proof (tk_total _ _ (ev_tx _ _ He)). destruct (_ && _); cbn; lia.
    + assert (ur_room u2 = true) as ->; [|cbn; lia].
      eapply ur_room_stays; [by apply Hroom|apply He..].
Qed.

Lemma has_land a b c : has (Z.land a b) c = true -> has a c = true /\ has b c = true.
Proof.
  assert (forall x y, Z.land x c = 0 -> has (Z.land x y) c = false) as H.
  { intros x y E. apply has_false. by rewrite <- Z.land_assoc, (Z.land_comm y), Z.land_assoc, E. }
  intros Hh. split.
  - apply not_false_is_true. intros E%has_false. by rewrite H in Hh.
  - apply not_false_is_true. intros E%has_false. by rewrite Z.land_comm, H in Hh.
Qed.

(** An interrupt is pending with a reason and while it is enabled. *)
Lemma mis_rx u : has (pl_mis u) PL011_IMSC_RX = true -> rx_is_empty u = false /\ ur_rx_irq_on (ua_regs u) = true.
Proof.
  intros [H Hon]%has_land. split; [|done]. destruct (rx_is_empty u) eqn:E; [|done]. unfold pl_ris in H.
  rewrite E, Z.lor_0_l in H. destruct (tx_is_full u); [done|]. apply has_land in H as [_ H]. done.
Qed.
Lemma mis_tx u : has (pl_mis u) PL011_IMSC_TX_INT = true -> ur_room u = true /\ ur_tx_irq_on (ua_regs u) = true.
Proof.
  intros [H Hon]%has_land. split; [|done]. cbn [ur_room pl011_regs]. destruct (tx_is_full u) eqn:E; [|done].
  unfold pl_ris in H. rewrite E, Z.lor_0_r in H. destruct (rx_is_empty u); [done|].
  apply has_land in H as [_ H]. done.
Qed.

(** What an iteration of [handle_irq] does. *)
Record served u u' : Prop := {
  sv_moved : moved u u';
  sv_live : rx_alive u -> rx_alive u';
  sv_work : (irq_work u' <= irq_work u)%nat;
}.
#[local] Instance served_trans : Transitive served.
Proof. intros u1 u2 u3 [] []. split; [by etrans|by auto|lia]. Qed.

Lemma served_env u u' : env u u' -> served u u'.
Proof. intros [? [] [] Er ?]. split; [done|unfold rx_alive; rewrite Er; auto|]. unfold irq_work. rewrite Er. lia. Qed.

Lemma served_rx u u' l :
  rx_done u u' -> rx_is_empty u = false -> ur_rx_irq_on (ua_regs u) = true ->
  let u'' := set_ua_events l u' in
  served u u'' /\ (irq_work u'' < irq_work u)%nat /\ (ur_room u = true -> ur_room u'' = true) /\
  ur_tx_irq_on (ua_regs u'') = ur_tx_irq_on (ua_regs u).
Proof.
  intros [[Hm Ht Hle Hr He Hl] _ Hp _] Hs Hon u''. specialize (Hp Hs).
  assert (ur_tx_irq_on (ua_regs u'') = ur_tx_irq_on (ua_regs u)) as Et by (apply Hr; intros; apply ur_rx_irq_other).
  assert (irq_work u'' < irq_work u)%nat as Hw.
  { unfold irq_work. rewrite Et, Hon. pose proof (tk_total _ _ Ht). unfold came in Hp. rewrite Nat.ltb_lt in Hp.
    change (rx_total u'') with (rx_total u'). change (tx_total u'') with (tx_total u').
    change (ua_regs u'') with (ua_regs u'). change (Nat.b2n true) with 1%nat.
    destruct Hp as [|Hp]; [|rewrite Hp; change (Nat.b2n false) with 0%nat; lia].
    destruct (ur_rx_irq_on (ua_regs u')); unfold Nat.b2n; lia. }
  split_and!; [|done| |done].
  - split; [by destruct Hm as [[]]|exact Hl|lia].
  - intros H. eapply ur_room_stays; [done|apply Hm|apply Ht].
Qed.

Lemma served_tx u u' :
  tx_done config u u' -> ur_tx_irq_on (ua_regs u) = true ->
  (tx_total u' + Nat.b2n (ur_tx_irq_on (ua_regs u')) < tx_total u + 1)%nat ->
  served u u' /\ (irq_work u' < irq_work u)%nat.
Proof.
  intros [Hm Hk Hr Ht He] Hon Hlt.
  assert (ur_rx_irq_on (ua_regs u') = ur_rx_irq_on (ua_regs u)) as E by (apply Hr; intros; apply ur_tx_irq_other).
  assert (irq_work u' < irq_work u)%nat as Hw.
  { unfold irq_work. rewrite E, Hon, (rk_total _ _ Hk). cbn in *. lia. }
  split; [|done]. split; [done| |lia]. unfold rx_alive. rewrite E. apply (rk_live _ _ Hk).
Qed.

Definition irq_inv u0 (p : pl011 * Z) : Prop := served u0 p.1 /\ p.2 = pl_mis p.1.

Lemma handle_irq_body_spec u0 p :
  sd_rx_enabled config = true -> irq_inv u0 p ->
  has p.2 PL011_IMSC_RX || has p.2 PL011_IMSC_TX_INT = true ->
  wp (handle_irq_body config) p (fun _ p' => irq_inv u0 p' /\ (irq_work p'.1 < irq_work p.1)%nat).
Proof.
  destruct p as [u r]. unfold irq_inv. cbn [fst snd]. intros Hen [Hs ->] Hc. unfold handle_irq_body.
  do 3 wp_step. cbn [fst snd]. rewrite Hen, andb_true_l. pose proof (mv_wf _ _ (sv_moved _ _ Hs)) as Hwf.
  set (todo := fun u' => served u0 u' /\ (irq_work u' < irq_work u)%nat).
  assert (forall u', uart_wf u' -> todo u' -> wp (r ← on_state (read_status pl_mis); set_local r) (u', pl_mis u)
    (fun _ p' => (served u0 p'.1 /\ p'.2 = pl_mis p'.1) /\ (irq_work p'.1 < irq_work u)%nat)) as Hend.
  { intros u' Hwf' [Hs' Hlt]. do 2 wp_step. unfold read_status. do 2 wp_step. wp_step. wp_step. cbn [fst snd].
    pose proof (served_env _ _ (look_env u' Hwf')) as Hl. split; [split; [by etrans|done]|]. pose proof (sv_work _ _ Hl). lia. }
  assert (forall u', uart_wf u' -> served u0 u' -> (irq_work u' <= irq_work u)%nat ->
    (has (pl_mis u) PL011_IMSC_TX_INT = false -> todo u') ->
    (has (pl_mis u) PL011_IMSC_TX_INT = true -> ur_room u' = true /\ ur_tx_irq_on (ua_regs u') = true) ->
    wp (when (has (pl_mis u) PL011_IMSC_TX_INT) (on_state (tx_provide config));;
        r ← on_state (read_status pl_mis); set_local r) (u', pl_mis u)
    (fun _ p' => (served u0 p'.1 /\ p'.2 = pl_mis p'.1) /\ (irq_work p'.1 < irq_work u)%nat)) as Htx.
  { intros u' Hwf' Hs' Hle Hno Hyes. destruct (has (pl_mis u) PL011_IMSC_TX_INT); cbn [when]; wp_step; [|wp_step; by auto].
    destruct (Hyes eq_refl) as [Hroom Hon]. wp_step. apply arm_tx_provide_spec; [done|]. intros u2 Hd Hlt.
    destruct (served_tx u' u2 Hd Hon (Hlt Hroom)) as [Hs2 Hlt2]. apply Hend; [apply Hd|]. split; [by etrans|lia]. }
  destruct (has (pl_mis u) PL011_IMSC_RX) eqn:Erx; cbn [when]; wp_step.
  - destruct (mis_rx u Erx) as [Hne Hon]. unfold rx_return. apply rx_return_with_spec; [done|]. intros u1 Hd.
    destruct (served_rx u u1 (ua_events u ++ (if came u u1 then [Notify (sd_rx_id config)] else [])) Hd Hne Hon)
      as (Hs1 & Hlt1 & Hroom & Hreg).
    apply Htx; [apply Hs1|by etrans|lia| |].
    + intros _. split; [by etrans|done].
    + intros [Hr Ho]%mis_tx. rewrite Hreg. auto.
  - apply Htx; [done..| |by apply mis_tx]. intros E. by rewrite E in Hc.
Qed.

Lemma handle_irq_spec u (Q : unit -> pl011 -> Prop) :
  sd_rx_enabled config = true -> uart_wf u ->
  (forall u', moved u u' -> (rx_alive u -> rx_alive u') -> has (pl_mis u') PL011_IMSC_RX = false ->
     has (pl_mis u') PL011_IMSC_TX_INT = false -> Q tt u') ->
  wp (handle_irq config) u Q.
Proof.
  intros Hen Hwf HQ. unfold handle_irq, read_status. do 5 wp_step. pose proof (look_env u Hwf) as He. wp_step.
  apply (wp_loop (irq_inv u) (fun p => irq_work p.1)).
  - split; [by apply served_env|done].
  - intros p. by apply handle_irq_body_spec.
  - unfold irq_inv. intros [u' r]. cbn [fst snd]. intros [[Hm Hl _] ->] [? ?]%orb_false_iff. wp_step. by apply HQ.
Qed.

(** ** The driver *)

(** Whatever the notification, whatever arrives meanwhile and whatever the
    virtualisers do, the driver returns, loses no character and does not go
    deaf. *)
Lemma arm_notified_spec ch u :
  sd_rx_enabled config = true -> uart_wf u -> rx_alive u ->
  wp (notified config ch) (deliver config ch u) (fun _ u' => moved u u' /\ rx_alive u').
Proof.
  intros Hen Hwf Hl. pose proof (deliver_moved config ch u Hwf) as Hm. pose proof (mv_wf _ _ Hm) as Hwf'.
  assert (ch = sd_irq config \/ ch = sd_tx_id config \/ ch <> sd_rx_id config -> rx_alive (deliver config ch u)) as Hl'.
  { intros Hch. unfold rx_alive. assert (ua_regs (deliver config ch u) = ua_regs u) as -> by (unfold deliver; by repeat case_match).
    apply deliver_rx_other; [naive_solver|done]. }
  unfold notified. destruct (Z.eqb_spec ch (sd_irq config)); [|destruct (Z.eqb_spec ch (sd_tx_id config));
    [|destruct (Z.eqb_spec ch (sd_rx_id config))]].
  - wp_step. apply handle_irq_spec; [done..|]. intros u' Hm' Ha _ _. unfold uart_emit. wp_step.
    split; [|by apply Ha; auto]. etrans; [exact Hm|]. etrans; [exact Hm'|]. by destruct Hm' as [[]].
  - apply arm_tx_provide_spec; [done|]. intros u' [Hm' Hk Hr _ _] _. split; [by etrans|].
    unfold rx_alive. rewrite (Hr _ ur_rx_irq_on) by (intros; apply ur_tx_irq_other). apply (rk_live _ _ Hk), Hl'. auto.
  - wp_step. unfold on_regs. wp_step. pose proof (moved_regs (ur_rx_irq true (ua_regs (deliver config ch u))) _ Hwf') as Hm1.
    unfold rx_return. apply rx_return_with_spec; [apply Hm1|]. intros u' [[Hm2 _ _ _ _ Ha] _ _ _].
    split; [|apply Ha; left; apply ur_rx_irq_same].
    etrans; [exact Hm|]. etrans; [exact Hm1|]. etrans; [exact Hm2|]. by destruct Hm2 as [[]].
  - wp_step. auto.
Qed.
End specs.

(** ** Where the code does not do what it means to *)

Section findings.
Context (config : serial_driver_config).
Implicit Types u : pl011.

Lemma arm_tx_send_full u : tx_is_full (look u) = true -> tx_send u = Ok (false, look u).
Proof.
  intros Hf. assert (ur_tx_full u = Ok (true, look u)) as E.
  { change (ur_tx_full u) with (Ok (has (pl_fr (look u)) PL011_FR_TXFF, look u)). unfold pl_fr, PL011_FR_TXFF.
    by rewrite has_with_bit_same, Hf by done. }
  unfold tx_send, with_local, loop, tx_send_length, while, mbind, M_bind. cbn [fst snd].
  unfold tx_send_body at 1. rewrite (bind_ok _ _ _ _ _ (on_state_ok _ _ _ _ _ E)). cbn.
  by destruct (tx_total u).
Qed.

(** The transmit interrupt of the PL011 driver is lost in a race: the FIFO
    is full when the loop of [tx_provide] ends, a character is sent before the
    flag register is read again, and the interrupt is disabled with data left
    in the queue, which nothing will send: no interrupt, no notification. *)
Theorem uart_arm_tx_provide_stalls u :
  uart_wf u -> tx_is_full u = true -> (0 < ua_depth u)%nat -> tx_queue_empty u = false ->
  vt_tx_pending (ua_virt u) = false -> ua_script u = [[]; [ESend]] ->
  exists u', tx_provide config u = Ok (tt, u') /\ ua_txq u' = ua_txq u /\ tx_is_full u' = false /\ ~ tx_alive u'.
Proof.
  intros Hwf Hf Hd Hq Hp Es. destruct (nil_or_cons (ua_tx u)) as [Et|(c & l & Et)].
  { unfold tx_is_full in Hf. rewrite Et in Hf. apply Nat.leb_le in Hf. cbn in Hf. lia. }
  pose (u1 := set_ua_script [[ESend]] u). assert (look u = u1) as E1 by (unfold look; by rewrite Es).
  pose (u2 := set_ua_sent (ua_sent u ++ [c]) (set_ua_tx l (set_ua_script [] u))).
  assert (look u1 = u2) as E2 by (unfold look, u1; cbn; by rewrite Et).
  assert (tx_is_full u2 = false) as Hf2.
  { destruct Hwf as [_ _ _ Hl]. unfold tx_is_full. cbn. rewrite Et in Hl. apply Nat.leb_gt. cbn in Hl. lia. }
  unfold tx_provide. rewrite (bind_ok _ _ _ _ _ (arm_tx_send_full u ltac:(by rewrite E1))), E1.
  assert (ur_tx_full u1 = Ok (false, u2)) as E3.
  { change (ur_tx_full u1) with (Ok (has (pl_fr (look u1)) PL011_FR_TXFF, look u1)). rewrite E2. unfold pl_fr, PL011_FR_TXFF.
    by rewrite has_with_bit_same, Hf2 by done. }
  rewrite (bind_ok _ _ _ _ _ E3). eexists. split; [reflexivity|]. split_and!; [done|exact Hf2|].
  unfold tx_alive, tx_live. intros [H|[H|H]].
  - assert (ur_tx_irq_on (ur_tx_irq false (ua_regs u2)) = true) as H' by exact H. by rewrite ur_tx_irq_same in H'.
  - cbn in H. congruence.
  - change (tx_queue_empty u = true) in H. congruence.
Qed.

Lemma wait_idle u : ua_script u = [] -> has (ua_bits u) PL011_FR_UART_BUSY = false -> wait_busy u = Ok (tt, u).
Proof.
  intros Es Hb. assert (look u = u) as El by (unfold look; by rewrite Es). apply wait_while_idle.
  etrans; [apply read_status_has|]. rewrite El. unfold pl_fr, PL011_FR_UART_BUSY. rewrite !has_with_bit_other by done.
  by unfold PL011_FR_UART_BUSY in Hb; rewrite Hb.
Qed.

Lemma set_baud_ok bps u :
  0 < bps -> 1 <= PL011_UART_REF_CLOCK / (16 * bps) < 0xFFFF ->
  let q := PL011_UART_REF_CLOCK / (16 * bps) in
  set_baud bps u = Ok (tt, set_ua_regs (set_pl_baud q (q * 64) (ua_regs u)) u).
Proof.
  intros Hb Hq q. unfold set_baud, lift, mbind, M_bind. rewrite udiv_ok by lia. fold q.
  rewrite !u32_small by (unfold is_u32; lia). unfold assert_. rewrite (proj2 (Z.leb_le 1 q)) by lia.
  by rewrite (proj2 (Z.ltb_lt q 0xFFFF)) by lia.
Qed.

(** What [uart_setup] of the PL011 driver programs, for any baud rate that
    is not out of range: the data length is not set to 8, which a [<] for [<<]
    turns into the bit that sends a break; parity is enabled, where a comment
    says disabled; and the fractional divisor is 64 times the integer one. *)
Theorem uart_arm_setup_wrong_format u :
  ua_script u = [] -> has (ua_bits u) PL011_FR_UART_BUSY = false -> 0 < sd_default_baud config ->
  1 <= PL011_UART_REF_CLOCK / (16 * sd_default_baud config) < 0xFFFF ->
  exists r, uart_setup config u = Ok (tt, set_ua_regs r u) /\
    Z.testbit (pl_lcr_h r) 0 = true /\ Z.testbit (pl_lcr_h r) 1 = true /\
    Z.testbit (pl_lcr_h r) 5 = Z.testbit (pl_lcr_h (ua_regs u)) 5 /\
    Z.testbit (pl_lcr_h r) 6 = Z.testbit (pl_lcr_h (ua_regs u)) 6 /\
    pl_fbrd r = 64 * pl_ibrd r.
Proof.
  intros Es Hb Hbps Hq. unfold uart_setup. rewrite (bind_ok _ _ _ _ _ (wait_idle u Es Hb)).
  assert (forall f (k : M pl011 unit) r, (on_regs f;; k) (set_ua_regs r u) = k (set_ua_regs (f r) u)) as S1 by done.
  assert (forall f g (k : M pl011 unit) r,
    ((on_regs f;; on_regs g);; k) (set_ua_regs r u) = k (set_ua_regs (g (f r)) u)) as S2 by done.
  assert (forall f (k : M pl011 unit), (on_regs f;; k) u = k (set_ua_regs (f (ua_regs u)) u)) as S0 by done.
  unfold tcr_bits, lcr_h_bits, ifls_bits. rewrite S0, !S1, (bind_ok _ _ _ _ _ (set_baud_ok _ _ Hbps Hq)).
  cbn [ua_regs set_ua_regs]. change (set_ua_regs ?r (set_ua_regs _ u)) with (set_ua_regs r u). rewrite !S1.
  destruct (sd_rx_enabled config); cbn [when]; [rewrite S2|]; rewrite ?S1.
  all: eexists; (split; [reflexivity|]).
  all: cbn [ua_regs set_ua_regs pl_lcr_h set_pl_lcr_h set_pl_tcr set_pl_ifls set_pl_imsc set_pl_baud pl_fbrd pl_ibrd ur_tx_irq ur_rx_irq pl011_regs].
  all: rewrite !testbit_set_bits by lia; cbn; rewrite ?orb_true_r, ?orb_false_r, ?andb_true_r; split_and!; try done; lia.
Qed.
End findings.

(** ** The driver as a whole *)

(** C8. The receive side of the PL011 driver never goes deaf: for any sequence
    of notifications, and whatever the device and the virtualisers do between
    any two of its instructions, the driver returns each time, loses,
    duplicates and reorders no character in either direction, and when it
    returns the receive interrupt is enabled, or virt_rx has notified it, or
    virt_rx is asked to and the queue is full or about to be tested. *)
Theorem uart_arm_never_deaf config chs u :
  sd_rx_enabled config = true -> uart_wf u -> rx_alive u ->
  exists u', driver_run config (notified config) chs u = Ok (tt, u') /\ moved u u' /\ rx_alive u'.
Proof.
  intros Hen Hwf Hl.
  destruct (wp_elim _ _ _ (driver_run_keeps config rx_alive (notified config) chs u Hwf Hl
    (fun ch u Hwf Hl => arm_notified_spec config ch u Hen Hwf Hl))) as ([] & u' & E & Hm & Ha).
  by exists u'.
Qed.

(** A run: the queue fills up and the interrupt is masked, virt_rx takes two
    characters and notifies the driver, which goes on. *)
Definition arm_ex : pl011 :=
  uart_ex (mk_pl011_uart_regs 13 832 0 0 0 (Z.lor PL011_IMSC_RX PL011_IMSC_TX_INT)) (2 ^ 12)
    [[]; []; []; []; []; []; []; []; []; [ESend]; [ETake; ETake; ECheck]; [EArrive 68]].

Lemma uart_arm_never_deaf_witness :
  exists u', driver_run serial_config_ex (notified serial_config_ex) [0; 1; 2] arm_ex = Ok (tt, u') /\
    moved arm_ex u' /\ rx_alive u'.
Proof. apply uart_arm_never_deaf; [done|apply uart_ex_wf|by left]. Defined.

Lemma uart_arm_tx_provide_stalls_witness :
  let u := uart_ex (mk_pl011_uart_regs 13 832 0 0 0 (Z.lor PL011_IMSC_RX PL011_IMSC_TX_INT)) 0 [[]; [ESend]] in
  exists u', tx_provide serial_config_ex u = Ok (tt, u') /\ ua_txq u' = ua_txq u /\ tx_is_full u' = false /\ ~ tx_alive u'.
Proof.
  apply (uart_arm_tx_provide_stalls serial_config_ex); [apply uart_ex_wf|reflexivity|cbn; lia|reflexivity|reflexivity|reflexivity].
Defined.

Lemma uart_arm_setup_wrong_format_witness :
  let u := uart_ex (mk_pl011_uart_regs 0 0 0 0 0 0) 0 [] in
  exists r, uart_setup serial_config_ex u = Ok (tt, set_ua_regs r u) /\
    Z.testbit (pl_lcr_h r) 0 = true /\ Z.testbit (pl_lcr_h r) 1 = true /\
    Z.testbit (pl_lcr_h r) 5 = false /\ Z.testbit (pl_lcr_h r) 6 = false /\ pl_fbrd r = 64 * pl_ibrd r.
Proof.
  apply (uart_arm_setup_wrong_format serial_config_ex); [reflexivity|reflexivity|cbn; lia|vm_compute; split; congruence].
Defined.
