(* ===== verification/UartRaw.v ===== *)
(** * Serial drivers whose interrupt loop polls raw status: imx and meson

    [handle_irq] of imx/uart.c and of meson/uart.c goes on while the device has
    an error, a character, or room for one while the transmit interrupt is
    enabled.  Reception is not masked in this test: while the receive queue has
    room the loop ends, and when it is full it does not. *)

From S2P Require Import Prelude SerialQueue Microkit UartDev.

(** The status words of a driver, [rs_read], and the tests on them.
    [rs_ready] says for which contents of the receive FIFO the device reports
    data, [rs_conf] is the part of the registers this depends on, and
    [rs_abnormal] the error bits of the status. *)
Class RawStatus (R : Type) `{!UartRegs R} := {
  rs_words : Type;
  rs_read : M (uart R) rs_words;
  rs_abn : rs_words -> bool;
  rs_rx : rs_words -> bool;
  rs_tx : rs_words -> bool;
  rs_clear : M (uart R) unit;
  rs_abnormal : Z -> bool;
  rs_conf : R -> Z;
  rs_ready : Z -> list Z -> bool;
  rs_ok : Z -> nat -> Prop;
}.

(** What clearing the errors does. *)
Record cleared {R} `{!UartRegs R} `{!RawStatus R} (u u' : uart R) : Prop := {
  cl_moved : moved u u';
  cl_rx : rx_kept u u';
  cl_tx : tx_kept u u';
  cl_rx_irq : ur_rx_irq_on (ua_regs u') = ur_rx_irq_on (ua_regs u);
  cl_tx_irq : ur_tx_irq_on (ua_regs u') = ur_tx_irq_on (ua_regs u);
  cl_conf : rs_conf (ua_regs u') = rs_conf (ua_regs u);
  cl_done : ua_script u = [] -> rs_abnormal (ua_bits u') = false;
}.

Class RawStatusLaws (R : Type) `{!UartRegs R} `{!RawStatus R} := {
  rs_read_ok u : exists l, rs_read u = Ok (l, look u) /\
    rs_abn l = rs_abnormal (ua_bits (look u)) /\
    rs_rx l = rs_ready (rs_conf (ua_regs (look u))) (ua_rx (look u)) /\
    (rs_tx l = true -> rs_ok (rs_conf (ua_regs (look u))) (ua_depth (look u)) ->
     ur_room (look u) = true /\ ur_tx_irq_on (ua_regs (look u)) = true);
  rs_tx_off u l : rs_read u = Ok (l, look u) -> ur_tx_irq_on (ua_regs (look u)) = false -> rs_tx l = false;
  rs_abnormal_sub b b' : bits_sub b b' -> rs_abnormal b = true -> rs_abnormal b' = true;
  rs_ready_some c d l : rs_ok c d -> rs_ready c l = true -> l <> [];
  rs_conf_rx b r : rs_conf (ur_rx_irq b r) = rs_conf r;
  rs_conf_tx b r : rs_conf (ur_tx_irq b r) = rs_conf r;
  rs_clear_ok u : uart_wf u -> wp rs_clear u (fun _ u' => cleared u u');
}.

Section driver.
Context {R : Type} `{!UartRegs R} `{!RawStatus R} (config : serial_driver_config).

(** The local variables are the status words. *)
Definition handle_irq_step : M (uart R * rs_words) unit :=
  p ← get;
  let words := (p : uart R * rs_words).2 in
  when (sd_rx_enabled config && rs_rx words) (on_state (rx_return_with config false));;
  when (rs_tx words) (on_state (tx_provide_with config));;
  when (rs_abn words) (on_state rs_clear);;
  words ← on_state rs_read;
  set_local words.

Definition handle_irq_with (fuel : nat) : M (uart R) unit :=
  words ← rs_read;
  with_local words (while fuel (fun p => rs_abn p.2 || rs_rx p.2 || rs_tx p.2) handle_irq_step);;
  mret tt.

(** [irq_on] for a receive notification, before [rx_return]. *)
Definition notified_with (fuel : nat) (ch : Z) : M (uart R) unit :=
  if ch =? sd_irq config then handle_irq_with fuel;; uart_emit (DeferredIrqAck ch) else
  if ch =? sd_tx_id config then tx_provide_with config else
  if ch =? sd_rx_id config then on_regs (ur_rx_irq true);; rx_return_with config false else
  mret tt.
End driver.

Section specs.
Context {R : Type} `{!UartRegs R} `{!UartRegsLaws R} `{!RawStatus R} `{!RawStatusLaws R}.
Context (config : serial_driver_config).
Implicit Types u : uart R.

(** The configuration of the device is one under which its status means what
    the driver takes it to mean, and there is room in the receive queue for
    everything that is still to be received. *)
Definition raw_ok u : Prop := rs_ok (rs_conf (ua_regs u)) (ua_depth u).
Definition roomy u : Prop :=
  Z.of_nat (length (serial_items (ua_rxq u)) + rx_total u) <= sh_capacity (ua_rxq u).
Definition abn_count u : nat := Nat.b2n (rs_abnormal (ua_bits u)).

(** The work of the loop: looks that change something, errors, characters, and
    the transmit interrupt. *)
Definition raw_work u : nat :=
  2 * length (ua_script u) + abn_count u + rx_total u + (tx_total u + Nat.b2n (ur_tx_irq_on (ua_regs u))).
Definition raw_bound u : nat := 2 * length (ua_script u) + rx_total u + tx_total u + 2.

Lemma raw_work_bound u : (raw_work u <= raw_bound u)%nat.
Proof using.
  unfold raw_work, raw_bound, abn_count. destruct (rs_abnormal _), (ur_tx_irq_on _); unfold Nat.b2n; lia.
Qed.

Lemma roomy_moved u u' : moved u u' -> roomy u -> roomy u'.
Proof using.
  intros [_ Er _ _ [l El] Ec _ _ _ _]. unfold roomy. rewrite Ec. intros H.
  apply (f_equal length) in Er. unfold rx_stream in Er. rewrite El in Er. rewrite !length_app, !length_map, !length_app in Er.
  unfold rx_total in *. lia.
Qed.

(** What the operations have in common: characters and the meaning of the
    status are kept, nothing that is live stops to be, and there is not more to
    do than before. *)
Record worked u u' : Prop := {
  wk_moved : moved u u';
  wk_ok : raw_ok u -> raw_ok u';
  wk_rx : (rx_total u' <= rx_total u)%nat;
  wk_tx : (tx_total u' <= tx_total u)%nat;
  wk_rx_live : rx_alive u -> rx_alive u';
  wk_tx_live : tx_alive u -> tx_alive u';
  wk_irq : ur_tx_irq_on (ua_regs u') = true -> ur_tx_irq_on (ua_regs u) = true;
}.
#[local] Instance worked_trans : Transitive worked.
Proof using. intros u1 u2 u3 [] []. split; (lia || auto). by etrans. Qed.
Lemma worked_wf u u' : worked u u' -> uart_wf u'.
Proof using. by intros [[]]. Qed.

Lemma worked_env u u' : env u u' -> worked u u'.
Proof using.
  intros [Hm [] [] Er ?]. unfold raw_ok, rx_alive, tx_alive.
  split; unfold raw_ok, rx_alive, tx_alive; rewrite ?Er, ?(mv_depth _ _ Hm); auto; lia.
Qed.

Lemma raw_ok_regs u u' : rs_conf (ua_regs u') = rs_conf (ua_regs u) -> ua_depth u' = ua_depth u -> raw_ok u -> raw_ok u'.
Proof using. unfold raw_ok. by intros -> ->. Qed.

Lemma worked_cleared u u' : cleared u u' -> worked u u'.
Proof using.
  intros [Hm [] [] Er Et Ec _]. unfold rx_alive, tx_alive.
  split; unfold rx_alive, tx_alive; rewrite ?Er, ?Et; auto; [|lia]. apply raw_ok_regs; [done|apply Hm].
Qed.

(** [rx_return] in the loop. *)
Lemma worked_rx u u' l :
  rx_done u u' ->
  let u'' := set_ua_events l u' in
  worked u u'' /\ tx_kept u u'' /\ ur_tx_irq_on (ua_regs u'') = ur_tx_irq_on (ua_regs u).
Proof.
  intros [[Hm [] ? Er ? ?] _ _ _] u''.
  assert (ur_tx_irq_on (ua_regs u'') = ur_tx_irq_on (ua_regs u)) as Et by (apply Er; intros; apply ur_rx_irq_other).
  split_and!; [|by split|done]. split; [by destruct Hm as [[]]| |done|done|done| |by rewrite Et].
  - apply raw_ok_regs; [apply Er; intros; apply rs_conf_rx|apply Hm].
  - unfold tx_alive. rewrite Et. apply tk_live.
Qed.

Lemma worked_tx u u' :
  tx_done config u u' -> tx_alive u' -> ur_tx_irq_on (ua_regs u) = true -> worked u u'.
Proof.
  intros [Hm Hk Er ? ?] Hl Hon. split; [done| |by rewrite (rk_total _ _ Hk)|done| |done|done].
  - apply raw_ok_regs; [apply Er; intros; apply rs_conf_tx|apply Hm].
  - unfold rx_alive. rewrite (Er _ ur_rx_irq_on) by (intros; apply ur_tx_irq_other). apply (rk_live _ _ Hk).
Qed.

(** With nothing more to happen, and room for a character, [tx_provide] sends
    or leaves the interrupt disabled. *)
Lemma look_quiet u : ua_script u = [] -> look u = u.
Proof using. intros E. unfold look. by rewrite E. Qed.

Lemma tx_provide_with_quiet u :
  uart_wf u -> ua_script u = [] -> ur_room u = true ->
  wp (tx_provide_with config) u (fun _ u' => (tx_total u' + Nat.b2n (ur_tx_irq_on (ua_regs u')) < tx_total u + 1)%nat).
Proof.
  intros Hwf Hq Hroom. unfold tx_provide_with. wp_step. apply tx_send_spec; [done|]. intros tr u1 Hs Htr Hend Hstay.
  do 4 wp_step. pose proof (st_moved _ _ Hs) as Hm1.
  assert (ua_script u1 = []) as Hq1 by (apply nil_length_inv; pose proof (mv_script _ _ Hm1) as H; rewrite Hq in H; cbn in H; lia).
  rewrite look_quiet by done. unfold on_regs. do 2 wp_step.
  apply tx_signal_spec; [by destruct Hm1 as [[]]|]. intros u' _ _ Ht Er _. rewrite Er. cbn [ua_regs set_ua_regs].
  rewrite ur_tx_irq_same. pose proof (tk_total _ _ Ht) as Hle. change (tx_total (set_ua_regs _ u1)) with (tx_total u1) in Hle.
  pose proof (st_total _ _ Hs). destruct tr; [specialize (Htr eq_refl); destruct (tx_queue_empty u1); cbn; lia|].
  destruct Hend as [Hf|He]; [by rewrite Hstay in Hf|].
  rewrite tx_queue_empty_items, He by apply Hm1. cbn. lia.
Qed.
(** ** An iteration of the loop *)

Lemma b2n_le b : (Nat.b2n b <= 1)%nat.
Proof using. destruct b; cbn; lia. Qed.

Lemma roomy_not_full u : uart_wf u -> roomy u -> rx_is_empty u = false -> rx_queue_full u = false.
Proof using.
  intros Hwf Hr Hs. rewrite rx_queue_full_items by apply Hwf. apply Z.eqb_neq. unfold roomy, rx_total in Hr.
  unfold rx_is_empty in Hs. apply bool_decide_eq_false in Hs. destruct (ua_rx u); [done|]. cbn [length] in Hr. lia.
Qed.

Lemma step_rx u (w : rs_words) b :
  uart_wf u -> roomy u -> (b = true -> rx_is_empty u = false) ->
  wp (when b (on_state (rx_return_with config false))) (u, w) (fun _ (p : uart R * rs_words) =>
    p.2 = w /\ worked u p.1 /\ tx_kept u p.1 /\ ur_tx_irq_on (ua_regs p.1) = ur_tx_irq_on (ua_regs u) /\
    (b = true -> (rx_total p.1 < rx_total u)%nat)).
Proof.
  intros Hwf Hr Hb. destruct b; cbn [when]; wp_step.
  - apply rx_return_with_spec; [done|]. intros u' Hd. cbn [fst snd].
    destruct (worked_rx u u' (ua_events u ++ (if came u u' then [Notify (sd_rx_id config)] else [])) Hd) as (? & ? & ?).
    split_and!; try done. intros _. specialize (Hb eq_refl). apply Nat.ltb_lt.
    by apply (rx_took _ _ Hd), roomy_not_full.
  - split_and!; [done|by apply worked_env, env_refl|done..].
Qed.

Lemma step_tx u (w : rs_words) b :
  uart_wf u -> (b = true -> ur_room u = true /\ ur_tx_irq_on (ua_regs u) = true) ->
  wp (when b (on_state (tx_provide_with config))) (u, w) (fun _ (p : uart R * rs_words) =>
    p.2 = w /\ worked u p.1 /\
    (ua_script u = [] -> b = true ->
     (tx_total p.1 + Nat.b2n (ur_tx_irq_on (ua_regs p.1)) < tx_total u + Nat.b2n (ur_tx_irq_on (ua_regs u)))%nat)).
Proof.
  intros Hwf Hb. destruct b; cbn [when]; wp_step.
  - destruct (Hb eq_refl) as [Hroom Hon].
    assert (wp (tx_provide_with config) u (fun _ u' => tx_done config u u' /\ tx_live (ur_tx_irq_on (ua_regs u')) u')) as H1
      by by apply tx_provide_with_spec.
    assert (wp (tx_provide_with config) u (fun _ u' => ua_script u = [] ->
      (tx_total u' + Nat.b2n (ur_tx_irq_on (ua_regs u')) < tx_total u + 1)%nat)) as H2.
    { destruct (decide (ua_script u = [])) as [Hq|Hq].
      - eapply wp_mono; [by apply tx_provide_with_quiet|]. by intros [] u' H _.
      - eapply wp_mono; [exact H1|]. by intros. }
    eapply wp_mono; [exact (wp_conj _ _ _ _ H1 H2)|]. intros [] u' [[Hd Hl] Hlt]. cbn [fst snd].
    split_and!; [done|by apply worked_tx|]. rewrite Hon. auto.
  - split_and!; [done|by apply worked_env, env_refl|done..].
Qed.

Lemma step_abn u (w : rs_words) b :
  uart_wf u ->
  wp (when b (on_state rs_clear)) (u, w) (fun _ (p : uart R * rs_words) =>
    p.2 = w /\ worked u p.1 /\ (ua_script u = [] -> b = true -> rs_abnormal (ua_bits p.1) = false)).
Proof.
  intros Hwf. destruct b; cbn [when]; wp_step.
  - eapply wp_mono; [by apply rs_clear_ok|]. intros [] u' Hc. cbn [fst snd].
    split_and!; [done|by apply worked_cleared|]. intros Hq _. by apply (cl_done _ _ Hc).
  - split_and!; [done|by apply worked_env, env_refl|done..].
Qed.

(** What the status words say of the state they were read in. *)
Definition says u (w : rs_words) : Prop :=
  rs_abn w = rs_abnormal (ua_bits u) /\ (rs_rx w = true -> rx_is_empty u = false) /\
  (rs_tx w = true -> ur_room u = true /\ ur_tx_irq_on (ua_regs u) = true).

Lemma read_says u (Q : rs_words -> uart R -> Prop) :
  uart_wf u -> raw_ok u ->
  (forall w, worked u (look u) -> (ua_script u <> [] -> length (ua_script (look u)) < length (ua_script u))%nat ->
     says (look u) w -> Q w (look u)) ->
  wp rs_read u Q.
Proof.
  intros Hwf Hok HQ. destruct (rs_read_ok u) as (w & E & Ea & Er & Et). eapply wp_intro; [exact E|].
  pose proof (worked_env _ _ (look_env u Hwf)) as Hw. pose proof (wk_ok _ _ Hw Hok) as Hok'.
  apply HQ; [done| |].
  - unfold look. destruct (ua_script u) as [|acts rest] eqn:Es; [done|]. intros _.
    assert (forall acts v, length (ua_script (foldl (fun u a => act_step a u) v acts)) = length (ua_script v)) as ->; [|cbn; lia].
    clear. induction acts as [|a acts IH]; intros v; [done|]. cbn [foldl]. rewrite IH.
    destruct a; cbn; try done; by repeat case_match.
  - split_and!; [done| |by auto]. rewrite Er. intros H%(rs_ready_some _ _ _ Hok').
    unfold rx_is_empty. by apply bool_decide_eq_false.
Qed.

Definition irq_inv u0 (p : uart R * rs_words) : Prop := worked u0 p.1 /\ roomy p.1 /\ raw_ok p.1 /\ says p.1 p.2.

Lemma nil_script u u' : worked u u' -> ua_script u = [] -> ua_script u' = [].
Proof using.
  intros [Hm _ _ _ _ _ _] E. apply nil_length_inv. pose proof (mv_script _ _ Hm) as H. rewrite E in H. cbn in H. lia.
Qed.

(** Nothing is worked on twice: with nothing more in the script the work is
    less by what was done, otherwise by a look. *)
Lemma raw_work_quiet u u' : worked u u' -> ua_script u = [] ->
  (abn_count u' <= abn_count u)%nat /\
  (Nat.b2n (ur_tx_irq_on (ua_regs u')) <= Nat.b2n (ur_tx_irq_on (ua_regs u)))%nat.
Proof using All.
  intros [Hm _ _ _ _ _ Hi] E. pose proof (mv_bits _ _ Hm E) as Hb. unfold abn_count. split.
  - destruct (rs_abnormal (ua_bits u')) eqn:Ea; [|cbn; lia]. by rewrite (rs_abnormal_sub _ _ Hb Ea).
  - destruct (ur_tx_irq_on (ua_regs u')); [by rewrite Hi|cbn; lia].
Qed.

Lemma handle_irq_step_spec u0 p :
  sd_rx_enabled config = true -> irq_inv u0 p -> rs_abn p.2 || rs_rx p.2 || rs_tx p.2 = true ->
  wp (handle_irq_step config) p (fun _ p' => irq_inv u0 p' /\ (raw_work p'.1 < raw_work p.1)%nat).
Proof.
  destruct p as [u w]. unfold irq_inv. cbn [fst snd]. intros Hen (Hw & Hr & Hok & Ha & Hrx & Htx) Hc.
  unfold handle_irq_step. do 3 wp_step. cbn [fst snd]. rewrite Hen, andb_true_l. pose proof (worked_wf _ _ Hw) as Hwf.
  eapply wp_mono; [by apply step_rx|]. intros [] [u1 w1]. cbn [fst snd]. intros (-> & Hw1 & Hk1 & Hi1 & Hlt1). wp_step.
  eapply wp_mono; [apply step_tx; [by eapply worked_wf|]|].
  { intros [Hroom Hon]%Htx. rewrite Hi1. split; [|done]. eapply ur_room_stays; [done|apply Hw1|apply Hk1]. }
  intros [] [u2 w2]. cbn [fst snd]. intros (-> & Hw2 & Hlt2). wp_step.
  eapply wp_mono; [apply step_abn; by eapply worked_wf|]. intros [] [u3 w3]. cbn [fst snd]. intros (-> & Hw3 & Habn). wp_step.
  assert (worked u u3) as Hu3 by (etrans; [exact Hw1|by etrans]).
  wp_step. apply read_says; [by eapply worked_wf|by apply (wk_ok _ _ Hu3)|]. intros w' Hw4 Hlook Hsays. wp_step. cbn [fst snd].
  set (u4 := look u3) in *. assert (worked u u4) as Hu4 by by etrans.
  split; [split_and!; [by etrans|by eapply roomy_moved; [apply Hu4|]|by apply (wk_ok _ _ Hu4)|done]|].
  pose proof (wk_rx _ _ Hw1). pose proof (wk_tx _ _ Hw1). pose proof (wk_rx _ _ Hw2). pose proof (wk_tx _ _ Hw2).
  pose proof (wk_rx _ _ Hw3). pose proof (wk_tx _ _ Hw3). pose proof (wk_rx _ _ Hw4). pose proof (wk_tx _ _ Hw4).
  unfold raw_work. destruct (ua_script u) as [|acts rest] eqn:Es.
  - pose proof (nil_script _ _ Hw1 Es) as Es1. pose proof (nil_script _ _ Hw2 Es1) as Es2. pose proof (nil_script _ _ Hw3 Es2) as Es3.
    rewrite (nil_script _ _ Hw4 Es3). destruct (raw_work_quiet _ _ Hw1 Es), (raw_work_quiet _ _ Hw2 Es1),
      (raw_work_quiet _ _ Hw3 Es2), (raw_work_quiet _ _ Hw4 Es3).
    specialize (Hlt2 Es1). specialize (Habn Es2).
    destruct (rs_rx w); [specialize (Hlt1 eq_refl); lia|]. destruct (rs_tx w); [specialize (Hlt2 eq_refl); lia|].
    destruct (rs_abn w); [|done]. specialize (Habn eq_refl).
    assert (abn_count u = 1%nat) by (unfold abn_count; by rewrite <- Ha).
    assert (abn_count u3 = 0%nat) by (unfold abn_count; by rewrite Habn). cbn [length]. lia.
  - assert (length (ua_script u4) < length (acts :: rest))%nat.
    { pose proof (mv_script _ _ (wk_moved _ _ Hu3)) as Hl3. rewrite Es in Hl3. cbn [length] in *.
      destruct (decide (ua_script u3 = [])) as [E3|E3]; [|specialize (Hlook E3); lia].
      rewrite (nil_script _ _ Hw4 E3). cbn. lia. }
    assert (abn_count u4 <= 1)%nat by apply b2n_le.
    assert (Nat.b2n (ur_tx_irq_on (ua_regs u4)) <= Nat.b2n (ur_tx_irq_on (ua_regs u)))%nat; [|cbn [length] in *; lia].
    pose proof (wk_irq _ _ Hu4) as Hi. destruct (ur_tx_irq_on (ua_regs u4)); [by rewrite Hi|cbn; lia].
Qed.
(** ** The driver *)

Lemma handle_irq_with_spec fuel u (Q : unit -> uart R -> Prop) :
  sd_rx_enabled config = true -> uart_wf u -> roomy u -> raw_ok u -> (raw_bound u <= fuel)%nat ->
  (forall u', worked u u' -> Q tt u') ->
  wp (handle_irq_with config fuel) u Q.
Proof.
  intros Hen Hwf Hr Hok Hf HQ. unfold handle_irq_with. wp_step. apply read_says; [done..|]. intros w Hw _ Hs.
  do 2 wp_step. eapply wp_mono; [apply (wp_while (irq_inv u) (fun p => raw_work p.1))|].
  - split_and!; [done|by eapply roomy_moved; [apply Hw|]|by apply (wk_ok _ _ Hw)|done].
  - cbn [fst]. pose proof (raw_work_bound (look u)). pose proof (wk_rx _ _ Hw). pose proof (wk_tx _ _ Hw).
    pose proof (mv_script _ _ (wk_moved _ _ Hw)). unfold raw_bound in *. lia.
  - intros p. by apply handle_irq_step_spec.
  - intros [] [u' w'] [(Hw' & _) _]. wp_step. by apply HQ.
Qed.

(** What holds between notifications. *)
Record raw_inv (fuel : nat) u : Prop := {
  ri_roomy : roomy u;
  ri_ok : raw_ok u;
  ri_fuel : (raw_bound u <= fuel)%nat;
  ri_rx : rx_alive u;
  ri_tx : tx_alive u;
}.

Lemma raw_inv_worked fuel u u' : worked u u' -> raw_inv fuel u -> raw_inv fuel u'.
Proof using.
  intros [Hm Hok Hr Ht Hlr Hlt _] []. pose proof (mv_script _ _ Hm). split; auto; [by eapply roomy_moved|].
  unfold raw_bound in *. lia.
Qed.

Lemma deliver_regs ch u : ua_regs (deliver config ch u) = ua_regs u.
Proof using. unfold deliver. by repeat case_match. Qed.

(** A delivery leaves all but the pending notification alone. *)
Lemma deliver_other ch u :
  roomy u -> raw_ok u -> (raw_bound u <= raw_bound (deliver config ch u))%nat /\ (raw_bound (deliver config ch u) <= raw_bound u)%nat /\
  roomy (deliver config ch u) /\ raw_ok (deliver config ch u).
Proof using. intros. unfold deliver. by repeat case_match. Qed.

Lemma raw_notified_spec fuel ch u :
  sd_rx_enabled config = true -> uart_wf u -> raw_inv fuel u ->
  wp (notified_with config fuel ch) (deliver config ch u) (fun _ u' => moved u u' /\ raw_inv fuel u').
Proof.
  intros Hen Hwf [Hr Hok Hf Hlr Hlt]. pose proof (deliver_moved config ch u Hwf) as Hm. pose proof (mv_wf _ _ Hm) as Hwf'.
  destruct (deliver_other ch u Hr Hok) as (_ & Hb & Hr' & Hok').
  pose proof (deliver_regs ch u) as Ed. unfold notified_with.
  destruct (Z.eqb_spec ch (sd_irq config)) as [Ei|Hi]; [|destruct (Z.eqb_spec ch (sd_tx_id config)) as [Et|Ht];
    [|destruct (Z.eqb_spec ch (sd_rx_id config)) as [Er|Hrx]]].
  - assert (deliver config ch u = u) as -> by (unfold deliver; by rewrite Ei, Z.eqb_refl).
    wp_step. apply handle_irq_with_spec; [done..|]. intros u' Hw. unfold uart_emit. wp_step.
    assert (raw_inv fuel u') as Hi' by by apply (raw_inv_worked _ u).
    split; [|by destruct Hi']. destruct Hw as [Hm']. etrans; [exact Hm'|]. by destruct Hm' as [[]].
  - apply tx_provide_with_spec; [done|]. intros u' [Hm' Hk Hg Ht' _] Hl. split; [by etrans|].
    pose proof (mv_script _ _ Hm'). pose proof (rk_total _ _ Hk). split; [by eapply roomy_moved| | | |done].
    + apply (raw_ok_regs (deliver config ch u)); [apply Hg; intros; apply rs_conf_tx|apply Hm'|done].
    + unfold raw_bound in *. lia.
    + unfold rx_alive. rewrite (Hg _ ur_rx_irq_on) by (intros; apply ur_tx_irq_other). apply (rk_live _ _ Hk).
      rewrite Ed. apply deliver_rx_other; [auto|done].
  - wp_step. unfold on_regs. wp_step. set (u1 := set_ua_regs _ _).
    assert (moved (deliver config ch u) u1) as Hm1 by by apply moved_regs.
    apply rx_return_with_spec; [apply Hm1|]. intros u' [[Hm2 Hk Hr2 Hg _ Hl] _ _ _].
    assert (moved u u') as Hmu by (etrans; [exact Hm|by etrans]).
    split; [etrans; [exact Hmu|]; by destruct Hm2 as [[]]|].
    pose proof (mv_script _ _ Hm2). pose proof (tk_total _ _ Hk). change (tx_total u1) with (tx_total (deliver config ch u)) in *.
    change (rx_total u1) with (rx_total (deliver config ch u)) in *. change (ua_script u1) with (ua_script (deliver config ch u)) in *.
    split; [exact (roomy_moved _ _ Hmu Hr)| | |apply Hl; left; apply ur_rx_irq_same|].
    + apply (raw_ok_regs (deliver config ch u)); [|apply Hm2|done].
      cbn [ua_regs set_ua_events]. rewrite (Hg _ rs_conf) by (intros; apply rs_conf_rx). apply rs_conf_rx.
    + unfold raw_bound in *.
      change (2 * length (ua_script u') + rx_total u' + tx_total u' + 2 <= fuel)%nat. lia.
    + unfold tx_alive. cbn [ua_regs set_ua_events]. rewrite (Hg _ ur_tx_irq_on) by (intros; apply ur_rx_irq_other).
      apply (tk_live _ _ Hk). cbn [u1 ua_regs set_ua_regs]. rewrite ur_rx_irq_other, Ed. apply (deliver_tx_other config ch u); auto.
  - wp_step. split; [done|]. split; [done|done|lia| |].
    + unfold rx_alive. rewrite Ed. apply deliver_rx_other; auto.
    + unfold tx_alive. rewrite Ed. apply deliver_tx_other; auto.
Qed.

Lemma raw_run_spec fuel chs u :
  sd_rx_enabled config = true -> uart_wf u -> raw_inv fuel u ->
  exists u', driver_run config (notified_with config fuel) chs u = Ok (tt, u') /\ moved u u' /\ rx_alive u' /\ tx_alive u'.
Proof.
  intros Hen Hwf Hi.
  destruct (wp_elim _ _ _ (driver_run_keeps config (raw_inv fuel) (notified_with config fuel) chs u Hwf Hi
    (fun ch u Hwf Hi => raw_notified_spec fuel ch u Hen Hwf Hi))) as ([] & u' & E & Hm & []).
  by exists u'.
Qed.


(** ** A full receive queue *)

(** Nothing more happens, there is a character the device reports, and no room
    for it. *)
Record clogged u : Prop := {
  cg_wf : uart_wf u;
  cg_quiet : ua_script u = [];
  cg_some : rx_is_empty u = false;
  cg_ready : rs_ready (rs_conf (ua_regs u)) (ua_rx u) = true;
  cg_full : rx_queue_full u = true;
  cg_tx : ur_tx_irq_on (ua_regs u) = false;
  cg_abn : rs_abnormal (ua_bits u) = false;
}.

Lemma clogged_look b u : clogged u -> bits_sub b (ua_bits u) -> clogged (set_ua_bits b u).
Proof using All.
  intros [Hwf] Hb. split; try done; [by destruct Hwf|]. cbn.
  destruct (rs_abnormal b) eqn:Ea; [|done]. rewrite (rs_abnormal_sub _ _ Hb Ea) in *. done.
Qed.
Lemma clogged_empty u : clogged u -> wp ur_rx_empty u (fun e u' => e = false /\ clogged u').
Proof.
  intros Hc. destruct (ur_rx_empty_ok u) as (b & Hb & E). rewrite (look_quiet u) in * by apply Hc.
  eapply wp_intro; [exact E|]. pose proof (clogged_look b u Hc Hb) as Hc'. split; [apply Hc'|done].
Qed.

Lemma clogged_parked u :
  clogged u -> clogged (set_ua_rxq (set_sq_signalled 0 (ua_rxq u)) (set_ua_regs (ur_rx_irq false (ua_regs u)) u)).
Proof using All.
  intros [[]]. split; try done; cbn; rewrite ?rs_conf_rx, ?ur_rx_irq_other; done.
Qed.

(** An [rx_return] changes nothing that matters. *)
Lemma clogged_round u l :
  clogged u -> wp (rx_round false) (u, l) (fun _ p => clogged p.1 /\ p.2.1 = false /\ p.2.2 = l.2).
Proof.
  intros Hc. unfold rx_round. do 5 wp_step. cbn [fst snd].
  apply (wp_loop_le (fun p => clogged p.1 /\ p.2.2 = l.2) (fun p => Nat.b2n p.2.1)); [done|cbn; unfold rx_take_length; lia| |].
  - intros [v [go en]] [Hv He] Hgo. unfold rx_take_body. do 2 wp_step.
    eapply wp_mono; [by apply clogged_empty|]. intros e v' [-> Hv']. do 2 wp_step. cbn [fst snd negb andb].
    rewrite (cg_full _ Hv'). cbn [negb]. wp_step. cbn [fst snd] in *. rewrite Hgo. split; [done|cbn; lia].
  - intros [v [go en]] [Hv He] Hgo. wp_step. unfold rx_park. do 2 wp_step.
    eapply wp_mono; [by apply clogged_empty|]. intros e v1 [-> Hv1]. do 2 wp_step. cbn [fst snd negb andb].
    rewrite (cg_full _ Hv1). cbn [when]. unfold on_regs, on_rxq, serial_request_consumer_signal. do 5 wp_step.
    rewrite look_quiet by apply Hv1. wp_step. wp_step. pose proof (clogged_parked v1 Hv1) as Hv2.
    unfold rx_resume. do 2 wp_step. eapply wp_mono; [by apply (clogged_empty _ Hv2)|]. intros e v3 [-> Hv3]. do 2 wp_step.
    cbn [fst snd negb andb]. rewrite (cg_full _ Hv3). cbn [negb]. wp_step. done.
Qed.
Lemma clogged_return u : clogged u -> wp (rx_return_with config false) u (fun _ u' => clogged u').
Proof.
  intros Hc. unfold rx_return_with. do 2 wp_step.
  apply (wp_loop_le (fun p => clogged p.1 /\ p.2.2 = false) (fun p => Nat.b2n p.2.1)); [done|cbn; unfold rx_take_length; lia| |].
  - intros [v [go en]] [Hv He] Hgo. eapply wp_mono; [by apply clogged_round|].
    intros [] [v' [go' en']] (Hv' & E1 & E2). cbn [fst snd] in *. rewrite E1, E2, Hgo. split; [done|cbn; lia].
  - intros [v [go en]] [Hv He] Hgo. cbn [fst snd] in *. rewrite He. by wp_step.
Qed.

Lemma handle_irq_with_livelock fuel u :
  sd_rx_enabled config = true -> clogged u -> handle_irq_with config fuel u = Fault OutOfFuel.
Proof.
  intros Hen Hc. pose proof (look_quiet u (cg_quiet _ Hc)) as El.
  pose (P := fun p : uart R * rs_words => clogged p.1 /\ rs_rx p.2 = true /\ rs_tx p.2 = false /\ rs_abn p.2 = false).
  assert (forall v, clogged v -> exists w, rs_read v = Ok (w, v) /\ P (v, w)) as Hread.
  { intros v Hv. pose proof (look_quiet v (cg_quiet _ Hv)) as Ev. destruct (rs_read_ok v) as (w & E & Ea & Er & _).
    assert (rs_tx w = false) as Et by (eapply rs_tx_off; [exact E|]; rewrite Ev; apply Hv).
    rewrite Ev in *. exists w. split; [done|]. unfold P. cbn [fst snd]. rewrite Ea, Er, Et. split_and!; [done|apply Hv|done|apply Hv]. }
  destruct (Hread u Hc) as (w & E & HP). unfold handle_irq_with. rewrite (bind_ok _ _ _ _ _ E).
  apply bind_fault, with_local_fault. apply (while_diverges P); [done|].
  intros [v w'] (Hv & Hrx & Htx & Habn). cbn [fst snd] in *. rewrite Hrx, orb_true_r. split; [done|].
  unfold handle_irq_step. do 3 wp_step. cbn [fst snd]. rewrite Hen, Hrx, Htx, Habn. cbn [when andb]. do 1 wp_step.
  eapply wp_mono; [by apply clogged_return|]. intros [] v' Hv'. do 6 wp_step.
  destruct (Hread v' Hv') as (w'' & E' & HP'). eapply wp_intro; [exact E'|]. by wp_step.
Qed.
End specs.
