(* ===== verification/UartImx.v ===== *)
(** * The i.MX serial driver: drivers/serial/imx/uart.c *)

From S2P Require Import Prelude SerialQueue Microkit UartDev UartRaw.

(** The registers of [imx_uart_regs_t] that keep what the driver writes. *)
Record imx_uart_regs : Type := mk_imx_uart_regs {
  ix_cr1 : Z;
  ix_cr2 : Z;
  ix_fcr : Z;
  ix_bir : Z;
  ix_bmr : Z;
}.
Definition imx : Type := uart imx_uart_regs.

Definition set_ix_cr1 x r := mk_imx_uart_regs x (ix_cr2 r) (ix_fcr r) (ix_bir r) (ix_bmr r).
Definition set_ix_cr2 x r := mk_imx_uart_regs (ix_cr1 r) x (ix_fcr r) (ix_bir r) (ix_bmr r).
Definition set_ix_fcr x r := mk_imx_uart_regs (ix_cr1 r) (ix_cr2 r) x (ix_bir r) (ix_bmr r).
Definition set_ix_baud bir bmr r := mk_imx_uart_regs (ix_cr1 r) (ix_cr2 r) (ix_fcr r) bir bmr.

Definition UART_CR1_UART_EN : Z := 2 ^ 0.
Definition UART_CR1_RX_READY_INT : Z := 2 ^ 9.
Definition UART_CR1_TX_READY_INT : Z := 2 ^ 13.
Definition UART_CR2_RX_EN : Z := 2 ^ 1.
Definition UART_CR2_TX_EN : Z := 2 ^ 2.
Definition UART_CR2_AGE_EN : Z := 2 ^ 3.
Definition UART_CR2_WORD_SZE : Z := 2 ^ 5.
Definition UART_CR2_STOP_BITS : Z := 2 ^ 6.
Definition UART_CR2_PARITY_EN : Z := 2 ^ 8.
Definition UART_CR2_ESCAPE : Z := Z.lor (2 ^ 11) (2 ^ 15). (* UART_CR2_ESCAPE_EN | UART_CR2_ESCAPE_INT *)
Definition UART_FCR_RXTL_MASK : Z := 0x3F.
Definition UART_FCR_RXTL_SHFT : Z := 0.
Definition UART_FCR_TXTL_SHFT : Z := 10.
Definition UART_FCR_TXTL_MASK : Z := Z.shiftl 0x3F UART_FCR_TXTL_SHFT.
Definition UART_FCR_REF_FRQ_DIV_MSK : Z := Z.shiftl 0x7 7.
Definition UART_FCR_REF_CLK_DIV_2 : Z := Z.shiftl 4 7. (* 0b100 *)
Definition UART_MOD_CLK : Z := 24192000.
Definition UART_SR1_RX_RDY : Z := 2 ^ 9.
Definition UART_SR1_TX_RDY : Z := 2 ^ 13.
Definition UART_SR1_ABNORMAL : Z := Z.lor (2 ^ 15) (2 ^ 10).
(** The bits of the status that are cleared by writing 1: parity and frame
    error, and the escape sequence. *)
Definition UART_SR1_W1C : Z := Z.lor UART_SR1_ABNORMAL (2 ^ 11).
Definition UART_TST_TX_FIFO_FULL : Z := 2 ^ 4.
Definition UART_TST_RX_FIFO_EMPTY : Z := 2 ^ 5.

(** The thresholds at which the device reports data, and room. *)
Definition ix_rxtl (fcr : Z) : Z := Z.land fcr UART_FCR_RXTL_MASK.
Definition ix_txtl (fcr : Z) : Z := Z.shiftr (Z.land fcr UART_FCR_TXTL_MASK) UART_FCR_TXTL_SHFT.

(** The test register and status register 1. *)
Definition ix_ts (u : imx) : Z := with_bit (tx_is_full u) 4 (with_bit (rx_is_empty u) 5 (ua_bits u)).
Definition ix_ready (fcr : Z) (l : list Z) : bool := ix_rxtl fcr <=? Z.of_nat (length l).
Definition ix_sr1 (u : imx) : Z :=
  with_bit (ix_ready (ix_fcr (ua_regs u)) (ua_rx u)) 9
    (with_bit (Z.of_nat (length (ua_tx u)) <? ix_txtl (ix_fcr (ua_regs u))) 13 (ua_bits u)).

#[export] Instance imx_regs : UartRegs imx_uart_regs := {
  ur_room u := negb (tx_is_full u);
  ur_tx_full := ts ← read_status ix_ts; mret (has ts UART_TST_TX_FIFO_FULL);
  ur_rx_empty := ts ← read_status ix_ts; mret (has ts UART_TST_RX_FIFO_EMPTY);
  ur_write c := push_char (u32 c);
  ur_read := c ← pop_char; mret (u8 c);
  ur_tx_irq b r := set_ix_cr1 (set_bits b UART_CR1_TX_READY_INT (ix_cr1 r)) r;
  ur_rx_irq b r := set_ix_cr1 (set_bits b UART_CR1_RX_READY_INT (ix_cr1 r)) r;
  ur_tx_irq_on r := has (ix_cr1 r) UART_CR1_TX_READY_INT;
  ur_rx_irq_on r := has (ix_cr1 r) UART_CR1_RX_READY_INT;
}.

(** [uart_regs->sr1 |= UART_SR1_ABNORMAL]: what was read is written back. *)
Definition ix_clear : M imx unit :=
  sr1 ← read_status ix_sr1;
  modify (fun u => set_ua_bits (Z.ldiff (ua_bits u) (Z.land (Z.lor sr1 UART_SR1_ABNORMAL) UART_SR1_W1C)) u).

(** The words are [uart_sr1] and [uart_cr1]. *)
#[export] Instance imx_raw : RawStatus imx_uart_regs := {
  rs_words := Z * Z;
  rs_read := sr1 ← read_status ix_sr1; cr1 ← gets (fun u => ix_cr1 (ua_regs u)); mret (sr1, cr1);
  rs_abn w := has w.1 UART_SR1_ABNORMAL;
  rs_rx w := has w.1 UART_SR1_RX_RDY;
  rs_tx w := has w.2 UART_CR1_TX_READY_INT && has w.1 UART_SR1_TX_RDY;
  rs_clear := ix_clear;
  rs_abnormal b := has b UART_SR1_ABNORMAL;
  rs_conf := ix_fcr;
  rs_ready := ix_ready;
  rs_ok fcr depth := 1 <= ix_rxtl fcr /\ ix_txtl fcr <= Z.of_nat depth;
}.

Section driver.
Context (config : serial_driver_config).

Definition set_baud (bps : Z) : M imx unit :=
  fcr ← gets (fun u => ix_fcr (ua_regs u));
  let fcr := set_bits true UART_FCR_REF_CLK_DIV_2 (set_bits false UART_FCR_REF_FRQ_DIV_MSK fcr) in
  q ← lift (udiv (UART_MOD_CLK / 2) bps);
  let bmr := u32 (q - 1) in
  on_regs (set_ix_fcr fcr);;
  on_regs (set_ix_baud 0xf bmr).

Definition tx_provide : M imx unit := tx_provide_with config.
Definition rx_return : M imx unit := rx_return_with config false.
Definition handle_irq (fuel : nat) : M imx unit := handle_irq_with config fuel.
Definition notified (fuel : nat) (ch : Z) : M imx unit := notified_with config fuel ch.

Definition cr1_bits (b : bool) (bits : Z) : M imx unit := on_regs (fun r => set_ix_cr1 (set_bits b bits (ix_cr1 r)) r).
Definition cr2_bits (b : bool) (bits : Z) : M imx unit := on_regs (fun r => set_ix_cr2 (set_bits b bits (ix_cr2 r)) r).

Definition uart_setup : M imx unit :=
  cr1_bits true UART_CR1_UART_EN;;
  cr2_bits true UART_CR2_TX_EN;;
  when (sd_rx_enabled config) (cr2_bits true UART_CR2_RX_EN);;
  cr2_bits false UART_CR2_STOP_BITS;;
  cr2_bits true UART_CR2_WORD_SZE;;
  set_baud (sd_default_baud config);;
  cr2_bits false UART_CR2_PARITY_EN;;
  cr2_bits false UART_CR2_ESCAPE;;
  cr2_bits false UART_CR2_AGE_EN;;
  fcr ← gets (fun u => ix_fcr (ua_regs u));
  let fcr := if sd_rx_enabled config
             then set_bits true (Z.shiftl 1 UART_FCR_RXTL_SHFT) (set_bits false UART_FCR_RXTL_MASK fcr) else fcr in
  let fcr := set_bits true (Z.shiftl 2 UART_FCR_TXTL_SHFT) (set_bits false UART_FCR_TXTL_MASK fcr) in
  on_regs (set_ix_fcr fcr);;
  when (sd_rx_enabled config) (on_regs (ur_rx_irq true)).

(** [resources_ok] is the conjunction of the four asserted conditions on the
    two configuration sections. *)
Definition init (resources_ok : bool) (rx tx : queue_config) : M imx unit :=
  assert_ resources_ok;;
  uart_emit (IrqAck (sd_irq config));;
  uart_setup;;
  when (sd_rx_enabled config) (modify (fun u => set_ua_rxq (queue_init rx) u));;
  modify (fun u => set_ua_txq (queue_init tx) u).
End driver.

(** ** The registers are as the loops expect *)

#[export] Instance imx_laws : UartRegsLaws imx_uart_regs.
Proof.
  assert (is_u32 UART_CR1_TX_READY_INT /\ is_u32 UART_CR1_RX_READY_INT) as [? ?] by by unfold is_u32.
  split.
  - cbn. intros u. apply negb_true_iff.
  - cbn. unfold tx_is_full. intros u u' H1 -> H2. apply negb_true_iff, Nat.leb_gt in H1.
    apply negb_true_iff, Nat.leb_gt. lia.
  - intros u. exists (ua_bits (look u)). split; [done|]. cbv zeta. rewrite set_ua_bits_same. etrans; [apply read_status_has|].
    unfold ix_ts, UART_TST_TX_FIFO_FULL. rewrite has_with_bit_same by done. cbn [ur_room imx_regs]. by rewrite negb_involutive.
  - intros u. exists (ua_bits (look u)). split; [done|]. cbv zeta. rewrite set_ua_bits_same. etrans; [apply read_status_has|].
    unfold ix_ts, UART_TST_RX_FIFO_EMPTY. by rewrite has_with_bit_other, has_with_bit_same by done.
  - intros c u. cbn. unfold push_char, modify. by rewrite u8_u32.
  - intros u w l E. cbn [ur_read imx_regs]. by rewrite (bind_ok _ _ _ _ _ (pop_char_cons _ _ _ E)).
  - intros b r. by apply has_set_bits_same.
  - intros b r. by apply has_set_bits_other.
  - intros b r. by apply has_set_bits_same.
  - intros b r. by apply has_set_bits_other.
Qed.

Lemma ix_sr1_abnormal u : has (ix_sr1 u) UART_SR1_ABNORMAL = has (ua_bits u) UART_SR1_ABNORMAL.
Proof. unfold ix_sr1. by rewrite !has_with_bit_mask. Qed.
Lemma ix_sr1_rx u : has (ix_sr1 u) UART_SR1_RX_RDY = ix_ready (ix_fcr (ua_regs u)) (ua_rx u).
Proof. unfold ix_sr1, UART_SR1_RX_RDY. by rewrite has_with_bit_same. Qed.
Lemma ix_sr1_tx u : has (ix_sr1 u) UART_SR1_TX_RDY = (Z.of_nat (length (ua_tx u)) <? ix_txtl (ix_fcr (ua_regs u))).
Proof. unfold ix_sr1, UART_SR1_TX_RDY. by rewrite has_with_bit_other, has_with_bit_same. Qed.

(** Writing the status back clears the errors. *)
Lemma ix_clear_ok u : uart_wf u -> wp ix_clear u (fun _ u' => cleared u u').
Proof.
  intros Hwf. unfold ix_clear, read_status. do 3 wp_step. wp_step. wp_step. set (u1 := look u).
  pose proof (look_env u Hwf) as He1. fold u1 in He1.
  assert (env u (set_ua_bits (Z.ldiff (ua_bits u1) (Z.land (Z.lor (ix_sr1 u1) UART_SR1_ABNORMAL) UART_SR1_W1C)) u1)) as He
    by (apply look_bits_env; [done|apply ldiff_sub]).
  pose proof (ev_regs _ _ He) as Er. destruct He as [? ? ? _ _]. split; try done; try (by rewrite Er).
  intros _. cbn [rs_abnormal imx_raw ua_bits set_ua_bits]. apply has_false, Z.bits_inj'. intros i Hi.
  rewrite Z.land_spec, Z.ldiff_spec, Z.land_spec, Z.lor_spec, Z.bits_0.
  unfold UART_SR1_W1C. rewrite (Z.lor_spec UART_SR1_ABNORMAL).
  by destruct (Z.testbit UART_SR1_ABNORMAL i), (Z.testbit (ua_bits u1) i), (Z.testbit (ix_sr1 u1) i), (Z.testbit (2 ^ 11) i).
Qed.

#[export] Instance imx_raw_laws : RawStatusLaws imx_uart_regs.
Proof.
  split.
  - intros u. exists (ix_sr1 (look u), ix_cr1 (ua_regs (look u))). split; [done|].
    cbn [rs_abn rs_rx rs_tx rs_abnormal rs_conf rs_ready rs_ok imx_raw fst snd].
    rewrite ix_sr1_abnormal, ix_sr1_rx, ix_sr1_tx. split_and!; [done|done|].
    intros [Hon Ht]%andb_prop [_ Hd]. apply Z.ltb_lt in Ht. split; [|done]. cbn [ur_room imx_regs].
    apply negb_true_iff. unfold tx_is_full. apply Nat.leb_gt. lia.
  - intros u l E Hoff. assert (l = (ix_sr1 (look u), ix_cr1 (ua_regs (look u)))) as -> by (by injection E).
    cbn [rs_tx imx_raw fst snd]. cbn [ur_tx_irq_on imx_regs] in Hoff. by rewrite Hoff.
  - intros b b'. apply has_sub.
  - intros c d l [H _] Hr ->. cbn [rs_ready imx_raw] in Hr. unfold ix_ready in Hr. apply Z.leb_le in Hr. cbn in Hr. lia.
  - done.
  - done.
  - apply ix_clear_ok.
Qed.

(** ** The driver as a whole *)

Section boot.
Context (config : serial_driver_config).
Implicit Types u : imx.

(** The state after [init]. *)
Definition ix_booted (rx tx : queue_config) (r : imx_uart_regs) u : imx :=
  set_ua_txq (queue_init tx) (set_ua_rxq (queue_init rx) (set_ua_events (ua_events u ++ [IrqAck (sd_irq config)]) (set_ua_regs r u))).

#[local] Ltac regs_steps E :=
  repeat (wp_step; cbn [ua_regs set_ua_regs ix_cr1 ix_cr2 ix_fcr set_ix_cr1 set_ix_cr2 set_ix_fcr set_ix_baud]; rewrite ?E;
          cbn [ix_cr1 ix_cr2 ix_fcr set_ix_cr1 set_ix_cr2 set_ix_fcr set_ix_baud]).

(** The registers after [uart_setup]. *)
Lemma ix_setup_ok u (Q : unit -> imx -> Prop) :
  sd_rx_enabled config = true -> 0 < sd_default_baud config ->
  (forall r, ix_rxtl (ix_fcr r) = 1 -> ix_txtl (ix_fcr r) = 2 -> ur_rx_irq_on r = true ->
     ur_tx_irq_on r = ur_tx_irq_on (ua_regs u) -> Q tt (set_ua_regs r u)) ->
  wp (uart_setup config) u Q.
Proof.
  intros Hen Hb HQ. unfold uart_setup, set_baud, cr1_bits, cr2_bits, on_regs. rewrite Hen. cbn [when].
  destruct (ua_regs u) as [cr1 cr2 fcr bir bmr] eqn:Er. regs_steps Er.
  eapply wp_lift; [apply udiv_ok; lia|]. regs_steps Er.
  match goal with |- Q tt ?v => apply (HQ (ua_regs v)) end; cbn [ua_regs set_ua_regs ix_fcr ix_cr1 ur_rx_irq ur_tx_irq imx_regs ur_rx_irq_on ur_tx_irq_on set_ix_cr1 set_ix_cr2 set_ix_fcr set_ix_baud].
  - unfold ix_rxtl. rewrite 2!(land_set_bits_other _ _ UART_FCR_RXTL_MASK), land_field; done.
  - unfold ix_txtl. by rewrite land_field.
  - by apply has_set_bits_same.
  - by rewrite !has_set_bits_other.
Qed.

(** C9. The i.MX serial driver, started and run: if the receive queue has room
    for every character still to come, then for any sequence of notifications,
    and whatever the device and the virtualisers do between any two of its
    instructions, it returns each time after at most [raw_bound] rounds of its
    interrupt loop, loses, duplicates and reorders no character in either
    direction, and when it returns nothing waits, in either direction, for an
    interrupt that is disabled and a notification that does not come. *)
Theorem uart_imx_runs rx tx u fuel chs :
  sd_rx_enabled config = true -> 0 < sd_default_baud config -> (2 <= ua_depth u)%nat ->
  let u1 := ix_booted rx tx (ua_regs u) u in
  uart_wf u1 -> roomy u1 -> tx_live false u1 -> (raw_bound u1 <= fuel)%nat ->
  exists u', (init config true rx tx;; driver_run config (notified config fuel) chs) u = Ok (tt, u') /\
    moved u1 u' /\ rx_alive u' /\ tx_alive u'.
Proof.
  intros Hen Hb Hd u1 Hwf Hr Ht Hf.
  assert (wp (init config true rx tx) u (fun _ v => exists r, v = ix_booted rx tx r u /\
    ix_rxtl (ix_fcr r) = 1 /\ ix_txtl (ix_fcr r) = 2 /\ ur_rx_irq_on r = true)) as Hi.
  { unfold init, uart_emit. wp_step. apply wp_assert; [done|]. do 3 wp_step. apply ix_setup_ok; [done..|]. intros r H1 H2 H3 _. rewrite Hen. cbn [when].
    do 3 wp_step. by exists r. }
  apply wp_elim in Hi as ([] & v & E & r & -> & Hrx & Htx & Hon). rewrite (bind_ok _ _ _ _ _ E).
  assert (uart_wf (ix_booted rx tx r u)) as Hwf' by by destruct Hwf.
  destruct (raw_run_spec config fuel chs (ix_booted rx tx r u) Hen Hwf') as (u' & E' & Hm & Hl).
  - split; [done| |done|by left|by right; destruct Ht as [[=]|]].
    split; cbn [ua_regs ua_depth ix_booted rs_conf imx_raw set_ua_txq set_ua_rxq set_ua_events set_ua_regs]; lia.
  - exists u'. split; [exact E'|]. split; [|exact Hl]. by destruct Hm.
Qed.
End boot.

(** With the receive queue full, a character in the FIFO and nothing else
    happening, the interrupt handler of the i.MX serial driver does not return:
    its loop tests the receive status of the device, which masking the
    interrupt does not change, so it takes any number of rounds. *)
Theorem uart_imx_full_queue_livelock config fuel (u : imx) :
  sd_rx_enabled config = true -> clogged u -> notified config fuel (sd_irq config) u = Fault OutOfFuel.
Proof.
  intros Hen Hc. unfold notified, notified_with. rewrite Z.eqb_refl. by apply bind_fault, handle_irq_with_livelock.
Qed.

(** Two characters have arrived and one does meanwhile; one is being sent and
    one is given by virt_tx, which has notified the driver. *)
Definition imx_ex : imx :=
  mk_uart (mk_imx_uart_regs 0 0 0 0 0) [65; 66] [49] 4 [] 0 [[]; [ESend; EStatus (2 ^ 15)]; [EArrive 67; ETake]]
    (serial_ex 0 0 []) (serial_ex 0 0 []) (mk_virt [] [49; 53] false false true) [].
Definition imx_rx_ex : queue_config := (mk_serial_queue 1 0 1, 4, [97; 0; 0; 0]).
Definition imx_tx_ex : queue_config := (mk_serial_queue 0 (2 ^ 32 - 1) 0, 4, [0; 0; 0; 53]).

Lemma uart_imx_runs_witness :
  exists u', (init serial_config_ex true imx_rx_ex imx_tx_ex;;
              driver_run serial_config_ex (notified serial_config_ex 20) [2; 0; 1; 0]) imx_ex = Ok (tt, u') /\
    moved (ix_booted serial_config_ex imx_rx_ex imx_tx_ex (ua_regs imx_ex) imx_ex) u' /\ rx_alive u' /\ tx_alive u'.
Proof.
  apply uart_imx_runs; [done|done|cbn; lia| |vm_compute; congruence|by right; left|by vm_compute; lia].
  split; [by apply (serial_ex_wf 1 0)|by apply (serial_ex_wf 0 (2 ^ 32 - 1))|by vm_compute|cbn; lia].
Defined.

Definition imx_clogged_ex : imx :=
  mk_uart (mk_imx_uart_regs 0 0 (2 * 2 ^ 10 + 1) 0 0) [65] [] 4 [] 0 []
    (serial_ex 4 0 [97; 98; 99; 100]) (serial_ex 0 0 [0; 0; 0; 0]) (mk_virt [] [] false false false) [].

Lemma uart_imx_full_queue_livelock_witness : notified serial_config_ex 1000 0 imx_clogged_ex = Fault OutOfFuel.
Proof.
  apply (uart_imx_full_queue_livelock serial_config_ex); [done|]. split; try done.
  split; [by apply serial_ex_wf|by apply serial_ex_wf|by vm_compute|cbn; lia].
Defined.
