(* ===== verification/UartMeson.v ===== *)
(** * The Meson serial driver: drivers/serial/meson/uart.c *)

From S2P Require Import Prelude SerialQueue Microkit UartDev UartRaw.

(** The platform the driver is built for, which [set_baud] depends on. *)
Inductive meson_plat : Type := Odroidc2 | Odroidc4 | OtherPlat.

(** [struct uart_clock_state]. *)
Record uart_clock_state : Type := mk_uart_clock_state {
  uc_crystal_clock : bool;
  uc_reference_clock_frequency : Z;   (* uint64_t *)
  uc_crystal_clock_divider : Z;       (* uint16_t *)
  uc_baud : Z;                        (* unsigned long *)
  uc_reference_ticks_per_symbol : Z;  (* uint32_t *)
}.

(** The registers of [meson_uart_regs_t] that keep what the driver writes, and
    [uart_clock]. *)
Record meson_uart_regs : Type := mk_meson_uart_regs {
  ms_cr : Z;
  ms_irqc : Z;
  ms_reg5 : Z;
  ms_clock : uart_clock_state;
}.
Definition meson : Type := uart meson_uart_regs.

Definition set_ms_cr x r := mk_meson_uart_regs x (ms_irqc r) (ms_reg5 r) (ms_clock r).
Definition set_ms_irqc x r := mk_meson_uart_regs (ms_cr r) x (ms_reg5 r) (ms_clock r).
Definition set_ms_reg5 x r := mk_meson_uart_regs (ms_cr r) (ms_irqc r) x (ms_clock r).
Definition set_ms_clock x r := mk_meson_uart_regs (ms_cr r) (ms_irqc r) (ms_reg5 r) x.

Definition AML_UART_TX_EN : Z := 2 ^ 12.
Definition AML_UART_RX_EN : Z := 2 ^ 13.
Definition AML_UART_STOP_BIT_LEN_MASK : Z := Z.shiftl 3 16.
Definition AML_UART_STOP_BIT_1SB : Z := Z.shiftl 0 16.
Definition AML_UART_DATA_LEN_MASK : Z := Z.shiftl 3 20.
Definition AML_UART_DATA_LEN_8BIT : Z := Z.shiftl 0 20.
Definition AML_UART_TX_RST : Z := 2 ^ 22.
Definition AML_UART_RX_RST : Z := 2 ^ 23.
Definition AML_UART_CLEAR_ERR : Z := 2 ^ 24.
Definition AML_UART_RX_INT_EN : Z := 2 ^ 27.
Definition AML_UART_TX_INT_EN : Z := 2 ^ 28.
Definition AML_UART_RX_EMPTY : Z := 2 ^ 20.
Definition AML_UART_TX_FULL : Z := 2 ^ 21.
Definition AML_UART_TX_BUSY : Z := 2 ^ 25.
Definition AML_UART_RX_BUSY : Z := 2 ^ 26.
Definition UART_INTR_ABNORMAL : Z := Z.lor (2 ^ 16) (Z.lor (2 ^ 17) (2 ^ 18)).
Definition AML_UART_RECV_IRQ_MASK : Z := 0xff.
Definition AML_UART_RECV_IRQ (c : Z) : Z := Z.land c 0xff.
Definition AML_UART_XMIT_IRQ_MASK : Z := Z.shiftl 0xff 8.
Definition AML_UART_XMIT_IRQ (c : Z) : Z := Z.shiftl (Z.land c 0xff) 8.
Definition AML_UART_BAUD_MASK : Z := 0x7fffff.
Definition AML_UART_BAUD_USE : Z := 2 ^ 23.
Definition AML_UART_BAUD_XTAL : Z := 2 ^ 24.
Definition AML_UART_BAUD_XTAL_DIV3 : Z := 2 ^ 26.
Definition AML_UART_BAUD_XTAL_DIV2 : Z := 2 ^ 27.
Definition UART_XTAL_REF_CLK : Z := 24000000.

(** The status register. *)
Definition ms_sr (u : meson) : Z := with_bit (tx_is_full u) 21 (with_bit (rx_is_empty u) 20 (ua_bits u)).

#[export] Instance meson_regs : UartRegs meson_uart_regs := {
  ur_room u := negb (tx_is_full u);
  ur_tx_full := sr ← read_status ms_sr; mret (has sr AML_UART_TX_FULL);
  ur_rx_empty := sr ← read_status ms_sr; mret (has sr AML_UART_RX_EMPTY);
  ur_write c := push_char (u32 c);
  ur_read := c ← pop_char; mret (u8 c);
  ur_tx_irq b r := set_ms_cr (set_bits b AML_UART_TX_INT_EN (ms_cr r)) r;
  ur_rx_irq b r := set_ms_cr (set_bits b AML_UART_RX_INT_EN (ms_cr r)) r;
  ur_tx_irq_on r := has (ms_cr r) AML_UART_TX_INT_EN;
  ur_rx_irq_on r := has (ms_cr r) AML_UART_RX_INT_EN;
}.

Definition cr_bits (b : bool) (bits : Z) : M meson unit := on_regs (fun r => set_ms_cr (set_bits b bits (ms_cr r)) r).

(** [uart_regs->cr |= AML_UART_CLEAR_ERR] clears the error bits of the status. *)
Definition ms_clear : M meson unit :=
  cr_bits true AML_UART_CLEAR_ERR;;
  modify (fun u => set_ua_bits (Z.ldiff (ua_bits u) UART_INTR_ABNORMAL) u).

(** The words are [uart_sr] and [uart_cr]. *)
#[export] Instance meson_raw : RawStatus meson_uart_regs := {
  rs_words := Z * Z;
  rs_read := sr ← read_status ms_sr; cr ← gets (fun u => ms_cr (ua_regs u)); mret (sr, cr);
  rs_abn w := has w.1 UART_INTR_ABNORMAL;
  rs_rx w := negb (has w.1 AML_UART_RX_EMPTY);
  rs_tx w := has w.2 AML_UART_TX_INT_EN && negb (has w.1 AML_UART_TX_FULL);
  rs_clear := ms_clear;
  rs_abnormal b := has b UART_INTR_ABNORMAL;
  rs_conf _ := 0;
  rs_ready _ l := negb (bool_decide (l = []));
  rs_ok _ _ := True;
}.

(** The divider, the ticks per symbol and the value of [reg5] without them that
    [set_baud] chooses, from the ticks of the undivided clock. *)
Definition baud_choice (plat : meson_plat) (crystal : bool) (ticks : Z) : Z * Z * Z :=
  let reg := AML_UART_BAUD_USE in
  if crystal then
    match plat with
    | Odroidc2 => (3, ticks / 3, Z.lor reg AML_UART_BAUD_XTAL)
    | Odroidc4 =>
      let reg := Z.lor reg AML_UART_BAUD_XTAL in
      if ticks mod 3 =? 0 then (3, ticks / 3, reg)
      else if ticks mod 2 =? 0 then (2, ticks / 2, Z.lor reg AML_UART_BAUD_XTAL_DIV2)
      else (1, ticks, Z.lor reg AML_UART_BAUD_XTAL_DIV3)
    | OtherPlat => (1, ticks, reg)
    end
  else (1, ticks, reg).

Definition set_baud (plat : meson_plat) (baud : Z) : M meson unit :=
  assert_ (0 <? baud);;
  c ← gets (fun u => ms_clock (ua_regs u));
  ticks ← lift (udiv (uc_reference_clock_frequency (c : uart_clock_state)) baud);
  let '(clock_div, ticks, reg) := baud_choice plat (uc_crystal_clock c) ticks in
  assert_ (Z.ldiff ticks AML_UART_BAUD_MASK =? 0);;
  on_regs (fun r => set_ms_clock (mk_uart_clock_state (uc_crystal_clock c) (uc_reference_clock_frequency c)
    (if uc_crystal_clock c then clock_div else uc_crystal_clock_divider c) baud (u32 ticks)) r);;
  on_regs (set_ms_reg5 (u32 (Z.lor reg ticks))).

Section driver.
Context (plat : meson_plat) (config : serial_driver_config).

Definition tx_provide : M meson unit := tx_provide_with config.
Definition rx_return : M meson unit := rx_return_with config false.
Definition handle_irq (fuel : nat) : M meson unit := handle_irq_with config fuel.
Definition notified (fuel : nat) (ch : Z) : M meson unit := notified_with config fuel ch.

Definition uart_setup : M meson unit :=
  wait_while (sr ← read_status ms_sr; mret (has sr (Z.lor AML_UART_TX_BUSY AML_UART_RX_BUSY)));;
  cr_bits false (Z.lor AML_UART_TX_EN AML_UART_RX_EN);;
  cr_bits true (Z.lor (Z.lor AML_UART_TX_RST AML_UART_RX_RST) AML_UART_CLEAR_ERR);;
  cr_bits false (Z.lor (Z.lor AML_UART_TX_RST AML_UART_RX_RST) AML_UART_CLEAR_ERR);;
  cr ← gets (fun u => ms_cr (ua_regs u));
  let cr := set_bits true AML_UART_STOP_BIT_1SB (set_bits false AML_UART_STOP_BIT_LEN_MASK cr) in
  let cr := set_bits true AML_UART_DATA_LEN_8BIT (set_bits false AML_UART_DATA_LEN_MASK cr) in
  on_regs (fun r => set_ms_clock (mk_uart_clock_state true UART_XTAL_REF_CLK 1
    (uc_baud (ms_clock r)) (uc_reference_ticks_per_symbol (ms_clock r))) r);;
  set_baud plat (sd_default_baud config);;
  irqc ← gets (fun u => ms_irqc (ua_regs u));
  let irqc := if sd_rx_enabled config
              then set_bits true (AML_UART_RECV_IRQ 1) (set_bits false AML_UART_RECV_IRQ_MASK irqc) else irqc in
  let cr := if sd_rx_enabled config then set_bits true (Z.lor AML_UART_RX_INT_EN AML_UART_RX_EN) cr else cr in
  let irqc := set_bits true (AML_UART_XMIT_IRQ 1) (set_bits false AML_UART_XMIT_IRQ_MASK irqc) in
  let cr := set_bits true AML_UART_TX_EN cr in
  on_regs (set_ms_irqc irqc);;
  on_regs (set_ms_cr cr).

(** [resources_ok] is the conjunction of the four asserted conditions on the
    two configuration sections. *)
Definition init (resources_ok : bool) (rx tx : queue_config) : M meson unit :=
  assert_ resources_ok;;
  uart_emit (IrqAck (sd_irq config));;
  uart_setup;;
  when (sd_rx_enabled config) (modify (fun u => set_ua_rxq (queue_init rx) u));;
  modify (fun u => set_ua_txq (queue_init tx) u).
End driver.

(** ** The registers are as the loops expect *)

#[export] Instance meson_laws : UartRegsLaws meson_uart_regs.
Proof.
  assert (is_u32 AML_UART_TX_INT_EN /\ is_u32 AML_UART_RX_INT_EN) as [? ?] by by unfold is_u32.
  split.
  - cbn. intros u. apply negb_true_iff.
  - cbn. unfold tx_is_full. intros u u' H1 -> H2. apply negb_true_iff, Nat.leb_gt in H1.
    apply negb_true_iff, Nat.leb_gt. lia.
  - intros u. exists (ua_bits (look u)). split; [done|]. cbv zeta. rewrite set_ua_bits_same. etrans; [apply read_status_has|].
    unfold ms_sr, AML_UART_TX_FULL. rewrite has_with_bit_same by done. cbn [ur_room meson_regs]. by rewrite negb_involutive.
  - intros u. exists (ua_bits (look u)). split; [done|]. cbv zeta. rewrite set_ua_bits_same. etrans; [apply read_status_has|].
    unfold ms_sr, AML_UART_RX_EMPTY. by rewrite has_with_bit_other, has_with_bit_same by done.
  - intros c u. cbn. unfold push_char, modify. by rewrite u8_u32.
  - intros u w l E. cbn [ur_read meson_regs]. by rewrite (bind_ok _ _ _ _ _ (pop_char_cons _ _ _ E)).
  - intros b r. by apply has_set_bits_same.
  - intros b r. by apply has_set_bits_other.
  - intros b r. by apply has_set_bits_same.
  - intros b r. by apply has_set_bits_other.
Qed.

Lemma ms_sr_abnormal u : has (ms_sr u) UART_INTR_ABNORMAL = has (ua_bits u) UART_INTR_ABNORMAL.
Proof. unfold ms_sr. by rewrite !has_with_bit_mask. Qed.
Lemma ms_sr_rx u : has (ms_sr u) AML_UART_RX_EMPTY = rx_is_empty u.
Proof. unfold ms_sr, AML_UART_RX_EMPTY. by rewrite has_with_bit_other, has_with_bit_same. Qed.
Lemma ms_sr_tx u : has (ms_sr u) AML_UART_TX_FULL = tx_is_full u.
Proof. unfold ms_sr, AML_UART_TX_FULL. by rewrite has_with_bit_same. Qed.

Lemma ms_clear_ok u : uart_wf u -> wp ms_clear u (fun _ u' => cleared u u').
Proof.
  intros Hwf. unfold ms_clear, cr_bits, on_regs. do 3 wp_step. pose proof Hwf as [Hq Ht Hs Hd].
  split; try done; cbn [ua_regs ua_bits set_ua_bits set_ua_regs].
  - split; try done. intros _. apply ldiff_sub.
  - by apply has_set_bits_other.
  - by apply has_set_bits_other.
  - intros _. cbn [rs_abnormal meson_raw]. apply has_false, Z.bits_inj'. intros i Hi.
    rewrite Z.land_spec, Z.ldiff_spec, Z.bits_0.
    by destruct (Z.testbit UART_INTR_ABNORMAL i), (Z.testbit (ua_bits u) i).
Qed.

#[export] Instance meson_raw_laws : RawStatusLaws meson_uart_regs.
Proof.
  split.
  - intros u. exists (ms_sr (look u), ms_cr (ua_regs (look u))). split; [done|].
    cbn [rs_abn rs_rx rs_tx rs_abnormal rs_conf rs_ready rs_ok meson_raw fst snd].
    rewrite ms_sr_abnormal, ms_sr_rx, ms_sr_tx. split_and!; [done|done|].
    by intros [Hon Ht]%andb_prop _.
  - intros u l E Hoff. assert (l = (ms_sr (look u), ms_cr (ua_regs (look u)))) as -> by (by injection E).
    cbn [rs_tx meson_raw fst snd]. cbn [ur_tx_irq_on meson_regs] in Hoff. by rewrite Hoff.
  - intros b b'. apply has_sub.
  - intros c d l _ Hr ->. done.
  - done.
  - done.
  - apply ms_clear_ok.
Qed.

(** ** The baud rate *)

(** What [reg5] programs, by the comments of uart.h: the divider of the crystal
    clock and the ticks of the divided clock per symbol. *)
Definition ms_divider (reg5 : Z) : Z :=
  if has reg5 AML_UART_BAUD_XTAL_DIV2 then 2 else if has reg5 AML_UART_BAUD_XTAL_DIV3 then 1 else 3.
Definition ms_ticks (reg5 : Z) : Z := Z.land reg5 AML_UART_BAUD_MASK.

(** Ticks that fit leave the bits above them alone. *)
Lemma ms_fields reg t :
  0 <= t <= AML_UART_BAUD_MASK -> is_u32 reg -> Z.land reg AML_UART_BAUD_MASK = 0 ->
  u32 (Z.lor reg t) = Z.lor reg t /\ ms_ticks (Z.lor reg t) = t /\ ms_divider (Z.lor reg t) = ms_divider reg.
Proof.
  intros Ht Hr Hd. assert (Z.land t AML_UART_BAUD_MASK = t) as E.
  { change AML_UART_BAUD_MASK with (Z.ones 23). rewrite Z.land_ones by done. apply Z.mod_small.
    unfold AML_UART_BAUD_MASK in Ht. lia. }
  assert (forall b, Z.land AML_UART_BAUD_MASK b = 0 -> has (Z.lor reg t) b = has reg b) as Hb.
  { intros b Hb. unfold has. rewrite Z.land_lor_distr_l.
    assert (Z.land t b = 0) as ->; [|by rewrite Z.lor_0_r]. by rewrite <- E, <- Z.land_assoc, Hb, Z.land_0_r. }
  split_and!.
  - apply u32_small. unfold is_u32 in *. split; [apply Z.lor_nonneg; unfold AML_UART_BAUD_MASK in Ht; lia|].
    apply Z.log2_lt_cancel. change (Z.log2 (2 ^ 32)) with 32.
    destruct (Z.eq_dec (Z.lor reg t) 0) as [->|Hne]; [done|].
    rewrite Z.log2_lor by lia. apply Z.max_lub_lt.
    + destruct (Z.eq_dec reg 0) as [->|]; [done|]. apply Z.log2_lt_pow2; lia.
    + destruct (Z.eq_dec t 0) as [->|]; [done|]. apply Z.log2_lt_pow2; unfold AML_UART_BAUD_MASK in Ht; lia.
  - unfold ms_ticks. by rewrite Z.land_lor_distr_l, Hd, E, Z.lor_0_l.
  - unfold ms_divider. by rewrite !Hb.
Qed.

Lemma ldiff_small t : 0 <= t <= AML_UART_BAUD_MASK -> Z.ldiff t AML_UART_BAUD_MASK = 0.
Proof.
  unfold AML_UART_BAUD_MASK. intros Ht. change 0x7fffff with (Z.ones 23). rewrite Z.ldiff_ones_r by done.
  rewrite Z.shiftr_div_pow2 by done. rewrite Z.div_small by lia. done.
Qed.

(** On the Odroid-C4, whose driver chooses a divider so that the ticks per
    symbol stay whole, [set_baud] accepts every positive baud rate for the
    crystal clock, and what it programs is exact: the divider times the ticks
    that can be read back from the register is the quotient of clock and baud
    rate, and the divider is the one it records. *)
Theorem uart_meson_baud_exact baud (u : meson) :
  0 < baud -> uc_crystal_clock (ms_clock (ua_regs u)) = true ->
  uc_reference_clock_frequency (ms_clock (ua_regs u)) = UART_XTAL_REF_CLK ->
  exists r, set_baud Odroidc4 baud u = Ok (tt, set_ua_regs r u) /\
    ms_divider (ms_reg5 r) * ms_ticks (ms_reg5 r) = UART_XTAL_REF_CLK / baud /\
    uc_crystal_clock_divider (ms_clock r) = ms_divider (ms_reg5 r) /\
    uc_reference_ticks_per_symbol (ms_clock r) = ms_ticks (ms_reg5 r) /\ ms_cr r = ms_cr (ua_regs u).
Proof.
  intros Hb Hx Hf. unfold set_baud. rewrite (proj2 (Z.ltb_lt 0 baud)) by done.
  do 2 rewrite (bind_ok _ _ _ _ _ eq_refl). rewrite Hf, Hx, udiv_ok by lia. rewrite (bind_ok _ _ _ _ _ eq_refl). set (q := UART_XTAL_REF_CLK / baud).
  assert (0 <= q) as Hq0 by (apply Z.div_pos; done).
  assert (forall d t reg, baud_choice Odroidc4 true q = (d, t, reg) ->
    d * t = q /\ 0 <= t <= AML_UART_BAUD_MASK /\ is_u32 reg /\ Z.land reg AML_UART_BAUD_MASK = 0 /\ ms_divider reg = d) as Hc.
  { assert (q mod 3 <> 0 -> q <= AML_UART_BAUD_MASK) as Hbig.
    { intros Hm. unfold AML_UART_BAUD_MASK. unfold q, UART_XTAL_REF_CLK in *.
      destruct (decide (baud = 1)) as [->|]; [done|]. destruct (decide (baud = 2)) as [->|]; [done|].
      assert (24000000 / baud <= 24000000 / 3) by (apply Z.div_le_compat_l; lia). change (24000000 / 3) with 8000000 in *. lia. }
    assert (q <= UART_XTAL_REF_CLK) as Hq1 by (apply Z.div_le_upper_bound; unfold UART_XTAL_REF_CLK; nia).
    unfold UART_XTAL_REF_CLK in Hq1. unfold baud_choice.
    destruct (Z.eqb_spec (q mod 3) 0) as [E3|E3]; [|destruct (Z.eqb_spec (q mod 2) 0) as [E2|E2]].
    - intros d t reg [= <- <- <-]. split_and!; try done; unfold AML_UART_BAUD_MASK; Z.div_mod_to_equations; lia.
    - specialize (Hbig E3). intros d t reg [= <- <- <-]. unfold AML_UART_BAUD_MASK in *.
      split_and!; try done; Z.div_mod_to_equations; lia.
    - specialize (Hbig E3). intros d t reg [= <- <- <-]. split_and!; try done; lia. }
  destruct (baud_choice Odroidc4 true q) as [[d t] reg] eqn:E. specialize (Hc d t reg eq_refl) as (Hdt & Ht & Hr & Hm & Hd).
  destruct (ms_fields reg t Ht Hr Hm) as (E1 & E2 & E3). rewrite ldiff_small by done.
  cbn [Z.eqb assert_]. do 2 rewrite (bind_ok _ _ _ _ _ eq_refl).
  eexists. split; [reflexivity|]. cbn [ms_reg5 ms_clock ms_cr set_ms_reg5 set_ms_clock uc_crystal_clock_divider uc_reference_ticks_per_symbol ua_regs set_ua_regs].
  rewrite E1, E2, E3, Hd. split_and!; try done.
  apply u32_small. unfold is_u32, AML_UART_BAUD_MASK in *. lia.
Qed.

(** ** The driver as a whole *)

(** The Meson serial driver: if the receive queue has room for every
    character still to come, then for any sequence of notifications, and
    whatever the device and the virtualisers do between any two of its
    instructions, it returns each time after at most [raw_bound] rounds of its
    interrupt loop, loses, duplicates and reorders no character in either
    direction, and when it returns nothing waits, in either direction, for an
    interrupt that is disabled and a notification that does not come. *)
Theorem uart_meson_runs config fuel chs (u : meson) :
  sd_rx_enabled config = true -> uart_wf u -> roomy u -> (raw_bound u <= fuel)%nat -> rx_alive u -> tx_alive u ->
  exists u', driver_run config (notified config fuel) chs u = Ok (tt, u') /\ moved u u' /\ rx_alive u' /\ tx_alive u'.
Proof. intros Hen Hwf Hr Hf Hrx Htx. by apply raw_run_spec. Qed.

(** The interrupt handler does not return either with the queue full. *)
Lemma meson_full_queue_livelock config fuel (u : meson) :
  sd_rx_enabled config = true -> clogged u -> notified config fuel (sd_irq config) u = Fault OutOfFuel.
Proof.
  intros Hen Hc. unfold notified, notified_with. rewrite Z.eqb_refl. by apply bind_fault, handle_irq_with_livelock.
Qed.

Definition meson_ex : meson :=
  mk_uart (mk_meson_uart_regs AML_UART_RX_INT_EN 0 0 (mk_uart_clock_state true UART_XTAL_REF_CLK 1 0 0))
    [65; 66] [49] 4 [] 0 [[]; [ESend; EStatus (2 ^ 16)]; [EArrive 67; ETake]]
    (serial_ex 1 0 [97; 0; 0; 0]) (serial_ex 0 (2 ^ 32 - 1) [0; 0; 0; 53]) (mk_virt [] [49; 53] false false true) [].

Lemma uart_meson_runs_witness :
  exists u', driver_run serial_config_ex (notified serial_config_ex 20) [2; 0; 1; 0] meson_ex = Ok (tt, u') /\
    moved meson_ex u' /\ rx_alive u' /\ tx_alive u'.
Proof.
  apply uart_meson_runs; [done| |by vm_compute|by vm_compute; lia|by left|by right; left].
  split; [by apply (serial_ex_wf 1 0)|by apply (serial_ex_wf 0 (2 ^ 32 - 1))|by vm_compute|cbn; lia].
Defined.

Lemma uart_meson_baud_exact_witness :
  exists r, set_baud Odroidc4 115200 meson_ex = Ok (tt, set_ua_regs r meson_ex) /\
    ms_divider (ms_reg5 r) * ms_ticks (ms_reg5 r) = 208 /\
    uc_crystal_clock_divider (ms_clock r) = ms_divider (ms_reg5 r) /\
    uc_reference_ticks_per_symbol (ms_clock r) = ms_ticks (ms_reg5 r) /\ ms_cr r = ms_cr (ua_regs meson_ex).
Proof. apply (uart_meson_baud_exact 115200 meson_ex); [done|reflexivity|reflexivity]. Defined.
