(* ===== verification/UartNs16550a.v ===== *)
(** * The NS16550a serial driver: drivers/serial/ns16550a/uart.c *)

From S2P Require Import Prelude SerialQueue Microkit UartDev.

(** [dw] is [UART_DW_APB_REGISTERS] of the platform; the registers are those
    that keep what the driver writes.  DLL and DLH share their offsets with
    THR and IER, and are meant while the DLAB bit of LCR is set. *)
Record ns_regs (dw : bool) : Type := mk_ns_regs {
  ns_ier : Z;
  ns_lcr : Z;
  ns_dll : Z;
  ns_dlh : Z;
  ns_mcr : Z;
}.
Arguments mk_ns_regs {dw} _ _ _ _ _.
Arguments ns_ier {dw} _.
Arguments ns_lcr {dw} _.
Arguments ns_dll {dw} _.
Arguments ns_dlh {dw} _.
Arguments ns_mcr {dw} _.
Definition ns16550a (dw : bool) : Type := uart (ns_regs dw).

Definition set_ns_ier {dw} x (r : ns_regs dw) : ns_regs dw := mk_ns_regs x (ns_lcr r) (ns_dll r) (ns_dlh r) (ns_mcr r).
Definition set_ns_lcr {dw} x (r : ns_regs dw) : ns_regs dw := mk_ns_regs (ns_ier r) x (ns_dll r) (ns_dlh r) (ns_mcr r).
Definition set_ns_dll {dw} x (r : ns_regs dw) : ns_regs dw := mk_ns_regs (ns_ier r) (ns_lcr r) x (ns_dlh r) (ns_mcr r).
Definition set_ns_dlh {dw} x (r : ns_regs dw) : ns_regs dw := mk_ns_regs (ns_ier r) (ns_lcr r) (ns_dll r) x (ns_mcr r).
Definition set_ns_mcr {dw} x (r : ns_regs dw) : ns_regs dw := mk_ns_regs (ns_ier r) (ns_lcr r) (ns_dll r) (ns_dlh r) x.

Definition UART_IER_ERBFI : Z := 2 ^ 0.
Definition UART_IER_ETBEI : Z := 2 ^ 1.
Definition UART_IIR_IID_MASK : Z := 7. (* 0b0111 *)
Definition UART_IIR_IID_THRI : Z := 2. (* 0b0010 *)
Definition UART_IIR_IID_RDI : Z := 4.  (* 0b0100 *)
Definition UART_LCR_DLAB : Z := 2 ^ 7.
Definition UART_MCR_DTR : Z := 2 ^ 0.
Definition UART_MCR_RTS : Z := 2 ^ 1.
Definition UART_LSR_DR : Z := 2 ^ 0.
Definition UART_LSR_THRE : Z := 2 ^ 5.
Definition UART_LSR_TEMT : Z := 2 ^ 6.
(** Overrun, parity, framing, break and FIFO error. *)
Definition UART_LSR_ERRORS : Z := Z.lor (Z.lor (2 ^ 1) (2 ^ 2)) (Z.lor (Z.lor (2 ^ 3) (2 ^ 4)) (2 ^ 7)).
Definition UART_USR_TFNF : Z := 2 ^ 1.

Section device.
Context {dw : bool}.

Definition tx_is_empty (u : ns16550a dw) : bool := bool_decide (ua_tx u = []) && negb (tx_is_full u).

(** The line status; reading it clears the error bits. *)
Definition ns_lsr (u : ns16550a dw) : Z := with_bit (negb (rx_is_empty u)) 0 (with_bit (tx_is_empty u) 5 (ua_bits u)).
Definition read_lsr : M (ns16550a dw) Z :=
  lsr ← read_status ns_lsr;
  modify (fun u => set_ua_bits (Z.ldiff (ua_bits u) UART_LSR_ERRORS) u);;
  mret lsr.
(** The status register of the DesignWare UART. *)
Definition ns_usr (u : ns16550a dw) : Z := with_bit (negb (tx_is_full u)) 1 (Z.shiftr (ua_bits u) 8).

(** The interrupt identity: the device chooses which of its interrupts it
    names, or none (1), and names the two of the driver with a reason and
    while they are enabled. *)
Definition ns_iir (u : ns16550a dw) : Z :=
  let raw := Z.land (Z.shiftr (ua_bits u) 16) 7 in
  if raw =? UART_IIR_IID_RDI then
    if negb (rx_is_empty u) && has (ns_ier (ua_regs u)) UART_IER_ERBFI then raw else 1
  else if raw =? UART_IIR_IID_THRI then
    if tx_is_empty u && has (ns_ier (ua_regs u)) UART_IER_ETBEI then raw else 1
  else raw.

Definition tx_fifo_not_full : M (ns16550a dw) bool :=
  if dw
  then usr ← read_status ns_usr; mret (has usr UART_USR_TFNF)
  else lsr ← read_lsr; mret (has lsr UART_LSR_THRE).
Definition rx_has_data : M (ns16550a dw) bool := lsr ← read_lsr; mret (has lsr UART_LSR_DR).

#[export] Instance ns16550a_regs : UartRegs (ns_regs dw) := {
  ur_room u := if dw then negb (tx_is_full u) else tx_is_empty u;
  ur_tx_full := b ← tx_fifo_not_full; mret (negb b);
  ur_rx_empty := b ← rx_has_data; mret (negb b);
  ur_write c := push_char c;
  ur_read := c ← pop_char; mret (u8 c);
  ur_tx_irq b r := set_ns_ier (set_bits b UART_IER_ETBEI (ns_ier r)) r;
  ur_rx_irq b r := set_ns_ier (set_bits b UART_IER_ERBFI (ns_ier r)) r;
  ur_tx_irq_on r := has (ns_ier r) UART_IER_ETBEI;
  ur_rx_irq_on r := has (ns_ier r) UART_IER_ERBFI;
}.

(** Writes at the offsets 0 and 1. *)
Definition write_thr_dll (v : Z) : M (ns16550a dw) unit :=
  u ← get;
  if has (ns_lcr (ua_regs (u : ns16550a dw))) UART_LCR_DLAB then on_regs (set_ns_dll v) else push_char v.
Definition write_ier_dlh (v : Z) : M (ns16550a dw) unit :=
  u ← get;
  if has (ns_lcr (ua_regs (u : ns16550a dw))) UART_LCR_DLAB then on_regs (set_ns_dlh v) else on_regs (set_ns_ier v).
End device.

(** [DIV_ROUND_CLOSEST] at the types of its use: the divisor is unsigned. *)
Definition DIV_ROUND_CLOSEST (x d : Z) : res Z := udiv (u64 (x + d / 2)) d.

Section driver.
Context {dw : bool} (UART_CLK : Z) (config : serial_driver_config).

Definition tx_provide : M (ns16550a dw) unit := tx_provide_with config.
Definition rx_return : M (ns16550a dw) unit := rx_return_with config true.

(** The log message for error bits is left out. *)
Definition handle_irq : M (ns16550a dw) unit :=
  read_lsr;;
  iir ← read_status ns_iir;
  let irq_id := Z.land iir UART_IIR_IID_MASK in
  if sd_rx_enabled config && (irq_id =? UART_IIR_IID_RDI) then rx_return
  else if irq_id =? UART_IIR_IID_THRI then tx_provide
  else mret tt.

Definition notified (ch : Z) : M (ns16550a dw) unit :=
  if ch =? sd_irq config then handle_irq;; uart_emit (DeferredIrqAck ch) else
  if ch =? sd_tx_id config then tx_provide else
  if ch =? sd_rx_id config then rx_return else
  mret tt.

Definition set_baud (baud : Z) : M (ns16550a dw) unit :=
  lcr_val ← gets (fun u => ns_lcr (ua_regs u));
  on_regs (fun r => set_ns_lcr (set_bits true UART_LCR_DLAB (ns_lcr r)) r);;
  q ← lift (DIV_ROUND_CLOSEST UART_CLK (u64 (16 * baud)));
  let divisor := u16 q in
  write_ier_dlh (Z.land (Z.shiftr divisor 8) 0xff);;
  write_thr_dll (Z.land divisor 0xff);;
  on_regs (set_ns_lcr lcr_val).

(** The reset of the FIFOs in FCR empties them; [resources_ok] is the
    conjunction of the four asserted conditions on the two configuration
    sections. *)
Definition init (resources_ok : bool) (rx tx : queue_config) : M (ns16550a dw) unit :=
  assert_ resources_ok;;
  uart_emit (IrqAck (sd_irq config));;
  wait_while (lsr ← read_lsr; mret (negb (has lsr (Z.lor UART_LSR_THRE UART_LSR_TEMT))));;
  write_ier_dlh 0;;
  read_lsr;;
  read_status ns_iir;;
  on_regs (set_ns_mcr (Z.lor UART_MCR_DTR UART_MCR_RTS));;
  modify (fun u => set_ua_rx [] (set_ua_tx [] u));;
  on_regs (set_ns_lcr 3);;
  set_baud (sd_default_baud config);;
  when (sd_rx_enabled config)
    (write_ier_dlh UART_IER_ERBFI;; modify (fun u => set_ua_rxq (queue_init rx) u));;
  modify (fun u => set_ua_txq (queue_init tx) u);;
  when dw (read_status ns_usr;; mret tt).
End driver.

(** ** The registers are as the loops expect *)

Lemma read_lsr_has {dw} bits (u : ns16550a dw) :
  (lsr ← read_lsr; mret (has lsr bits)) u =
  Ok (has (ns_lsr (look u)) bits, set_ua_bits (Z.ldiff (ua_bits (look u)) UART_LSR_ERRORS) (look u)).
Proof. done. Qed.

#[export] Instance ns16550a_laws {dw} : UartRegsLaws (ns_regs dw).
Proof.
  split.
  - cbn. intros u. destruct dw; [apply negb_true_iff|]. unfold tx_is_empty. by intros [_ H%negb_true_iff]%andb_prop.
  - cbn. unfold tx_is_empty, tx_is_full. intros u u' H1 -> H2.
    destruct dw; [|apply andb_prop in H1 as [He%bool_decide_eq_true H1]; apply andb_true_intro; split].
    + apply negb_true_iff, Nat.leb_gt in H1. apply negb_true_iff, Nat.leb_gt. lia.
    + apply bool_decide_eq_true, nil_length_inv. rewrite He in H2. cbn in H2. lia.
    + apply negb_true_iff, Nat.leb_gt in H1. apply negb_true_iff, Nat.leb_gt. lia.
  - intros u. destruct dw.
    + exists (ua_bits (look u)). split; [done|]. cbv zeta. rewrite set_ua_bits_same.
      cbn [ur_tx_full ur_room ns16550a_regs]. unfold tx_fifo_not_full. cbv match. etrans; [exact (bind_ok _ _ _ _ _ (read_status_has ns_usr UART_USR_TFNF u))|].
      unfold ns_usr, UART_USR_TFNF. by rewrite has_with_bit_same.
    + eexists. split; [apply ldiff_sub|]. cbv zeta. cbn [ur_tx_full ur_room ns16550a_regs]. unfold tx_fifo_not_full. cbv match.
      etrans; [exact (bind_ok _ _ _ _ _ (read_lsr_has UART_LSR_THRE u))|]. unfold ns_lsr, UART_LSR_THRE.
      by rewrite has_with_bit_other, has_with_bit_same.
  - intros u. eexists. split; [apply ldiff_sub|]. cbv zeta. cbn [ur_rx_empty ns16550a_regs]. unfold rx_has_data.
    etrans; [exact (bind_ok _ _ _ _ _ (read_lsr_has UART_LSR_DR u))|]. unfold ns_lsr, UART_LSR_DR. rewrite has_with_bit_same by done.
    by rewrite negb_involutive.
  - done.
  - intros u w l E. cbn [ur_read ns16550a_regs]. by rewrite (bind_ok _ _ _ _ _ (pop_char_cons _ _ _ E)).
  - intros b r. by apply has_set_bits_same.
  - intros b r. by apply has_set_bits_other.
  - intros b r. by apply has_set_bits_same.
  - intros b r. by apply has_set_bits_other.
Qed.

(** ** Operations *)

Section specs.
Context {dw : bool} (config : serial_driver_config).
Implicit Types u : ns16550a dw.

Lemma read_lsr_env u (Q : Z -> ns16550a dw -> Prop) :
  uart_wf u -> (forall lsr u', env u u' -> Q lsr u') -> wp read_lsr u Q.
Proof. intros Hwf HQ. eapply wp_intro; [reflexivity|]. apply HQ, look_bits_env; [done|apply ldiff_sub]. Qed.

(** What every operation keeps. *)
Definition ns_kept u u' : Prop := moved u u' /\ (tx_alive u -> tx_alive u').

Lemma ns_rx_return_spec u (Q : unit -> ns16550a dw -> Prop) :
  uart_wf u -> (forall u', ns_kept u u' -> Q tt u') -> wp (rx_return config) u Q.
Proof.
  intros Hwf HQ. apply rx_return_with_spec; [done|]. intros u' [[Hm Hk _ Hr _ _] _ _ _]. apply HQ. split.
  - etrans; [exact Hm|]. by destruct Hm as [[]].
  - unfold tx_alive. cbn [ua_regs set_ua_events]. rewrite (Hr _ ur_tx_irq_on) by (intros; apply ur_rx_irq_other).
    apply (tk_live _ _ Hk).
Qed.

Lemma ns_tx_provide_spec u (Q : unit -> ns16550a dw -> Prop) :
  uart_wf u -> (forall u', moved u u' /\ tx_alive u' -> Q tt u') -> wp (tx_provide config) u Q.
Proof. intros Hwf HQ. apply tx_provide_with_spec; [done|]. intros u' [Hm _ _ _ _] Hl. by apply HQ. Qed.

Lemma ns_handle_irq_spec u (Q : unit -> ns16550a dw -> Prop) :
  uart_wf u -> (forall u', ns_kept u u' -> Q tt u') -> wp (handle_irq config) u Q.
Proof.
  intros Hwf HQ. unfold handle_irq. wp_step. apply read_lsr_env; [done|]. intros _ u1 He1. wp_step.
  unfold read_status. do 3 wp_step. pose proof (look_env u1 (env_wf _ _ He1)) as He2. set (u2 := look u1) in *.
  assert (env u u2) as He by by etrans. pose proof (env_wf _ _ He) as Hwf2.
  assert (ns_kept u u2) as [Hm Hl].
  { split; [apply He|]. unfold tx_alive. rewrite (ev_regs _ _ He). apply (tk_live _ _ (ev_tx _ _ He)). }
  destruct (_ && _).
  - apply ns_rx_return_spec; [done|]. intros u' [Hm' Hl']. apply HQ. split; [by etrans|auto].
  - destruct (_ =? _); [|by wp_step; apply HQ].
    apply ns_tx_provide_spec; [done|]. intros u' [Hm' Hl']. apply HQ. split; [by etrans|done].
Qed.

Lemma ns_notified_spec ch u :
  uart_wf u -> tx_alive u -> wp (notified config ch) (deliver config ch u) (fun _ u' => moved u u' /\ tx_alive u').
Proof.
  intros Hwf Hl. pose proof (deliver_moved config ch u Hwf) as Hm. pose proof (mv_wf _ _ Hm) as Hwf'.
  assert (ua_regs (deliver config ch u) = ua_regs u) as Er by (unfold deliver; by repeat case_match).
  unfold notified. destruct (Z.eqb_spec ch (sd_irq config)); [|destruct (Z.eqb_spec ch (sd_tx_id config))].
  - assert (tx_alive (deliver config ch u)) as Hl' by (unfold tx_alive; rewrite Er; apply deliver_tx_other; auto).
    wp_step. apply ns_handle_irq_spec; [done|]. intros u' [Hm' Hk]. unfold uart_emit. wp_step.
    split; [|by apply Hk]. etrans; [exact Hm|]. etrans; [exact Hm'|]. by destruct Hm' as [[]].
  - apply ns_tx_provide_spec; [done|]. intros u' [Hm' Hk]. split; [by etrans|done].
  - assert (tx_alive (deliver config ch u)) as Hl' by (unfold tx_alive; rewrite Er; apply deliver_tx_other; auto).
    destruct (_ =? _); [|by wp_step]. apply ns_rx_return_spec; [done|]. intros u' [Hm' Hk]. split; [by etrans|auto].
Qed.

(** C10. The transmit side of the NS16550a driver, with a DesignWare status
    register or without: for any sequence of notifications, and whatever the
    device and the virtualisers do between any two of its instructions, the
    driver returns each time, its assertion never fails, no character is lost,
    duplicated or reordered in either direction or written to a full FIFO, and
    when it returns data in the transmit queue does not wait for an interrupt
    that is disabled and a notification that does not come. *)
Theorem uart_ns16550a_tx_never_stalls chs u :
  uart_wf u -> tx_alive u ->
  exists u', driver_run config (notified config) chs u = Ok (tt, u') /\ moved u u' /\ tx_alive u'.
Proof.
  intros Hwf Hl. destruct (wp_elim _ _ _ (driver_run_keeps config tx_alive (notified config) chs u Hwf Hl
    (fun ch u Hwf Hl => ns_notified_spec ch u Hwf Hl))) as ([] & u' & E & Hm & Ha).
  by exists u'.
Qed.
End specs.

(** ** Where the code does not do what it means to, and the baud rate *)

(** The receive side of the NS16550a driver goes deaf: the interrupt is
    disabled because the queue was full, virt_rx has made room, cancelled the
    signal and notified the driver; the driver empties the FIFO into the queue
    and does not enable the interrupt again, so nothing that arrives later is
    noticed, neither by an interrupt nor by a notification. *)
Theorem uart_ns16550a_goes_deaf config {dw} (u : ns16550a dw) :
  sd_rx_id config <> sd_irq config -> sd_rx_id config <> sd_tx_id config ->
  uart_wf u -> ua_script u = [] ->
  Z.of_nat (length (serial_items (ua_rxq u)) + length (ua_rx u)) <= sh_capacity (ua_rxq u) ->
  ur_rx_irq_on (ua_regs u) = false -> serial_require_consumer_signal (ua_rxq u) = false ->
  exists u', notified config (sd_rx_id config) (deliver config (sd_rx_id config) u) = Ok (tt, u') /\
    ua_rx u' = [] /\ ur_rx_irq_on (ua_regs u') = false /\ ~ rx_alive u'.
Proof.
  intros Hi Ht Hwf Hq Hr Hoff Hsig. set (v := deliver config (sd_rx_id config) u).
  assert (v = set_ua_virt (mk_virt (vt_taken (ua_virt u)) (vt_given (ua_virt u)) (vt_owes (ua_virt u)) false (vt_tx_pending (ua_virt u))) u) as Ev.
  { unfold v, deliver. by rewrite (proj2 (Z.eqb_neq _ _) Hi), (proj2 (Z.eqb_neq _ _) Ht), Z.eqb_refl. }
  assert (draining v v) as Hd by (rewrite Ev; by split; [destruct Hwf|..]).
  assert (wp (notified config (sd_rx_id config)) v (fun _ u' => draining v u' /\ ua_rx u' = [])) as H.
  { unfold notified. rewrite (proj2 (Z.eqb_neq _ _) Hi), (proj2 (Z.eqb_neq _ _) Ht), Z.eqb_refl.
    unfold rx_return. by apply rx_return_drains. }
  apply wp_elim in H as ([] & u' & E & [_ _ _ Eg Evt Ef] & Erx). exists u'. rewrite Ev in Eg, Evt, Ef.
  assert (ur_rx_irq_on (ua_regs u') = false) as Hoff' by (rewrite Eg; exact Hoff).
  split_and!; [done..|]. intros [H|[H|[H _]]].
  - congruence.
  - rewrite Evt in H. done.
  - unfold serial_require_consumer_signal in *. rewrite Ef in H. cbn in H. congruence.
Qed.

(** [set_baud] of the NS16550a driver programs the divisor closest to the
    wanted one, that is, off by at most half of [16 * baud], in the two halves
    of the divisor latch, and leaves the interrupt enables and the line control
    as they were, for every baud rate whose divisor fits 16 bits. *)
Theorem uart_ns16550a_baud_closest UART_CLK baud {dw} (u : ns16550a dw) :
  0 < baud < 2 ^ 32 -> 0 <= UART_CLK < 2 ^ 31 -> UART_CLK < (2 ^ 16 - 1) * (16 * baud) ->
  exists r, set_baud UART_CLK baud u = Ok (tt, set_ua_regs r u) /\
    2 * Z.abs (UART_CLK - (256 * ns_dlh r + ns_dll r) * (16 * baud)) <= 16 * baud /\
    is_u8 (ns_dlh r) /\ is_u8 (ns_dll r) /\ ns_ier r = ns_ier (ua_regs u) /\ ns_lcr r = ns_lcr (ua_regs u).
Proof.
  intros Hb Hc Hfit. set (d := 16 * baud). assert (u64 d = d) as Ed by (apply u64_small; unfold is_u64; lia).
  set (q := (UART_CLK + d / 2) / d).
  assert (0 <= d / 2 <= d) as Hd2 by (unfold d; Z.div_mod_to_equations; lia).
  assert (DIV_ROUND_CLOSEST UART_CLK d = Ok q) as Eq.
  { unfold DIV_ROUND_CLOSEST. rewrite u64_small, udiv_ok by (unfold is_u64, d in *; lia). done. }
  assert (0 <= q < 2 ^ 16) as Hq.
  { unfold q. split; [apply Z.div_pos; unfold d in *; lia|]. apply Z.div_lt_upper_bound; unfold d in *; lia. }
  assert (u16 q = q) as Eu by by apply u16_small.
  assert (Z.land (Z.shiftr q 8) 0xff = q / 2 ^ 8) as Eh.
  { change 0xff with (Z.ones 8). rewrite Z.land_ones, Z.shiftr_div_pow2 by done. apply Z.mod_small.
    split; [apply Z.div_pos; lia|apply Z.div_lt_upper_bound; lia]. }
  assert (Z.land q 0xff = q mod 2 ^ 8) as El by (change 0xff with (Z.ones 8); by apply Z.land_ones).
  assert (forall r : ns_regs dw, has (ns_lcr (set_ns_lcr (set_bits true UART_LCR_DLAB (ns_lcr r)) r)) UART_LCR_DLAB = true) as Hdlab.
  { intros r. by apply has_set_bits_same. }
  exists (set_ns_lcr (ns_lcr (ua_regs u)) (set_ns_dll (q mod 2 ^ 8) (set_ns_dlh (q / 2 ^ 8)
    (set_ns_lcr (set_bits true UART_LCR_DLAB (ns_lcr (ua_regs u))) (ua_regs u))))).
  split.
  - unfold set_baud. fold d. do 2 rewrite (bind_ok _ _ _ _ _ eq_refl). rewrite Ed, Eq, (bind_ok _ _ _ _ _ eq_refl), Eu, Eh, El.
    unfold write_ier_dlh, write_thr_dll, mbind, M_bind, get. cbn [ua_regs set_ua_regs].
    rewrite Hdlab. cbn [on_regs modify ua_regs set_ua_regs].
    change (ns_lcr (set_ns_dlh ?x ?r)) with (ns_lcr r). rewrite Hdlab. done.
  - cbn [ns_dlh ns_dll ns_ier ns_lcr set_ns_lcr set_ns_dll set_ns_dlh]. split_and!; try done.
    + assert (256 * (q / 2 ^ 8) + q mod 2 ^ 8 = q) as -> by (Z.div_mod_to_equations; lia).
      assert (d * q <= UART_CLK + d / 2 < d * (q + 1)) as Hdiv.
      { unfold q. split; [apply Z.mul_div_le|rewrite Z.add_1_r; apply Z.mul_succ_div_gt]; unfold d; lia. }
      assert (2 * (d / 2) = d) by (unfold d; Z.div_mod_to_equations; lia). lia.
    + split; [apply Z.div_pos; lia|apply Z.div_lt_upper_bound; lia].
    + apply Z.mod_pos_bound. lia.
Qed.

Definition ns_ex (ier : Z) : ns16550a false :=
  mk_uart (mk_ns_regs ier 3 0 0 3) [65; 66] [] 16 [] 0 []
    (serial_ex 4 2 [97; 98; 99; 100]) (serial_ex 0 (2 ^ 32 - 1) [0; 0; 0; 53]) (mk_virt [97; 98] [53] false true true) [].

Lemma ns_ex_wf ier : uart_wf (ns_ex ier).
Proof. split; [by apply serial_ex_wf|by apply serial_ex_wf|by vm_compute|cbn; lia]. Qed.

Lemma uart_ns16550a_goes_deaf_witness :
  exists u', notified serial_config_ex 1 (deliver serial_config_ex 1 (ns_ex 0)) = Ok (tt, u') /\
    ua_rx u' = [] /\ ur_rx_irq_on (ua_regs u') = false /\ ~ rx_alive u'.
Proof. apply (uart_ns16550a_goes_deaf serial_config_ex); [done|done|apply ns_ex_wf|done|by vm_compute|done|done]. Defined.

Lemma uart_ns16550a_tx_never_stalls_witness :
  exists u', driver_run serial_config_ex (notified serial_config_ex) [2; 0; 1] (ns_ex 1) = Ok (tt, u') /\
    moved (ns_ex 1) u' /\ tx_alive u'.
Proof. apply uart_ns16550a_tx_never_stalls; [apply ns_ex_wf|by right; left]. Defined.

Lemma uart_ns16550a_baud_closest_witness :
  exists r, set_baud 3686400 115200 (ns_ex 1) = Ok (tt, set_ua_regs r (ns_ex 1)) /\
    2 * Z.abs (3686400 - (256 * ns_dlh r + ns_dll r) * (16 * 115200)) <= 16 * 115200 /\
    is_u8 (ns_dlh r) /\ is_u8 (ns_dll r) /\ ns_ier r = 1 /\ ns_lcr r = 3.
Proof. apply (uart_ns16550a_baud_closest 3686400 115200 (ns_ex 1)); lia. Defined.
