(* ===== verification/GpuQueue.v ===== *)
(** * GPU queues and events: include/sddf/gpu/queue.h, gpu.h and events.h

    A handle holds a ring of requests and a ring of responses of the same
    capacity.  A request is an identifier and a union that its code selects a
    member of: here a constructor per code, with the structure of its member. *)

From S2P Require Import Prelude Ring Fifo RingQueue.

Definition GPU_MAX_RESOURCES : Z := 1024.
Definition GPU_DISABLE_SCANOUT_RESOURCE_ID : Z := 0.
Definition GPU_BPP_2D : Z := 4.
Definition GPU_MAX_SCANOUTS : Z := 16.

Record gpu_rect : Type := mk_gpu_rect {
  gr_x : Z;      (* uint32_t *)
  gr_y : Z;      (* uint32_t *)
  gr_width : Z;  (* uint32_t *)
  gr_height : Z; (* uint32_t *)
}.

Record gpu_req_get_display_info : Type := mk_get_display_info {
  gdi_mem_offset : Z; (* uint64_t *)
}.

(** [sizeof(gpu_resp_get_display_info_t)]: sixteen scanouts of a rectangle and a
    flag, 20 bytes each with the padding, and their number. *)
Definition sizeof_display_info : Z := 16 * 20 + 4.

Record gpu_req_resource_create_blob : Type := mk_create_blob {
  cb_resource_id : Z; (* uint32_t *)
  cb_mem_offset : Z;  (* uint64_t *)
  cb_mem_size : Z;    (* uint32_t *)
}.

Record gpu_req_set_scanout_blob : Type := mk_set_scanout_blob {
  sb_resource_id : Z; (* all uint32_t *)
  sb_scanout_id : Z;
  sb_width : Z;
  sb_height : Z;
  sb_format : Z;
  sb_stride : Z;
  sb_offset : Z;
  sb_rect : gpu_rect;
}.

Record gpu_req_resource_create_2d : Type := mk_create_2d {
  c2_resource_id : Z; (* all uint32_t *)
  c2_width : Z;
  c2_height : Z;
  c2_format : Z;
}.

Record gpu_req_resource_attach_backing : Type := mk_attach_backing {
  ab_resource_id : Z; (* uint32_t *)
  ab_mem_offset : Z;  (* uint64_t *)
  ab_mem_size : Z;    (* uint32_t *)
}.

Record gpu_req_resource_detach_backing : Type := mk_detach_backing { db_resource_id : Z }.

Record gpu_req_set_scanout : Type := mk_set_scanout {
  ss_resource_id : Z; (* uint32_t *)
  ss_scanout_id : Z;  (* uint32_t *)
  ss_rect : gpu_rect;
}.

Record gpu_req_transfer_to_2d : Type := mk_transfer_to_2d {
  t2_resource_id : Z; (* uint32_t *)
  t2_rect : gpu_rect;
  t2_mem_offset : Z;  (* uint64_t *)
}.

Record gpu_req_resource_flush : Type := mk_resource_flush {
  rf_resource_id : Z; (* uint32_t *)
  rf_rect : gpu_rect;
}.

Record gpu_req_resource_unref : Type := mk_resource_unref { ru_resource_id : Z }.

Inductive gpu_req_code : Type :=
| GPU_REQ_GET_DISPLAY_INFO | GPU_REQ_RESOURCE_CREATE_BLOB | GPU_REQ_SET_SCANOUT_BLOB
| GPU_REQ_RESOURCE_CREATE_2D | GPU_REQ_SET_SCANOUT | GPU_REQ_RESOURCE_ATTACH_BACKING
| GPU_REQ_RESOURCE_DETACH_BACKING | GPU_REQ_TRANSFER_TO_2D | GPU_REQ_RESOURCE_FLUSH
| GPU_REQ_RESOURCE_UNREF
| GPU_REQ_OTHER (n : Z). (* a value of the C enum outside the enumeration *)

Inductive gpu_resp_status : Type :=
| GPU_RESP_OK | GPU_RESP_ERR_UNSPEC | GPU_RESP_ERR_INVALID_SCANOUT_ID
| GPU_RESP_ERR_INVALID_RESOURCE_ID | GPU_RESP_ERR_INVALID_BOUNDS | GPU_RESP_ERR_INVALID_PARAMETER.

#[export] Instance gpu_req_code_eq_dec : EqDecision gpu_req_code.
Proof. solve_decision. Defined.
#[export] Instance gpu_resp_status_eq_dec : EqDecision gpu_resp_status.
Proof. solve_decision. Defined.

(** The union of [gpu_req_t], by its code. *)
Inductive gpu_req_body : Type :=
| GetDisplayInfo (r : gpu_req_get_display_info)
| ResourceCreateBlob (r : gpu_req_resource_create_blob)
| SetScanoutBlob (r : gpu_req_set_scanout_blob)
| ResourceCreate2d (r : gpu_req_resource_create_2d)
| SetScanout (r : gpu_req_set_scanout)
| ResourceAttachBacking (r : gpu_req_resource_attach_backing)
| ResourceDetachBacking (r : gpu_req_resource_detach_backing)
| TransferTo2d (r : gpu_req_transfer_to_2d)
| ResourceFlush (r : gpu_req_resource_flush)
| ResourceUnref (r : gpu_req_resource_unref)
| OtherRequest (n : Z).

Definition gpu_code (b : gpu_req_body) : gpu_req_code :=
  match b with
  | GetDisplayInfo _ => GPU_REQ_GET_DISPLAY_INFO
  | ResourceCreateBlob _ => GPU_REQ_RESOURCE_CREATE_BLOB
  | SetScanoutBlob _ => GPU_REQ_SET_SCANOUT_BLOB
  | ResourceCreate2d _ => GPU_REQ_RESOURCE_CREATE_2D
  | SetScanout _ => GPU_REQ_SET_SCANOUT
  | ResourceAttachBacking _ => GPU_REQ_RESOURCE_ATTACH_BACKING
  | ResourceDetachBacking _ => GPU_REQ_RESOURCE_DETACH_BACKING
  | TransferTo2d _ => GPU_REQ_TRANSFER_TO_2D
  | ResourceFlush _ => GPU_REQ_RESOURCE_FLUSH
  | ResourceUnref _ => GPU_REQ_RESOURCE_UNREF
  | OtherRequest n => GPU_REQ_OTHER n
  end.

Record gpu_req : Type := mk_gpu_req {
  gq_id : Z; (* uint32_t *)
  gq_body : gpu_req_body;
}.

Record gpu_resp : Type := mk_gpu_resp {
  gp_status : gpu_resp_status;
  gp_id : Z; (* uint32_t *)
}.

#[export] Instance gpu_req_inhabited : Inhabited gpu_req :=
  populate (mk_gpu_req 0 (GetDisplayInfo (mk_get_display_info 0))).
#[export] Instance gpu_resp_inhabited : Inhabited gpu_resp := populate (mk_gpu_resp GPU_RESP_OK 0).

Record gpu_queue_handle : Type := mk_gpu_handle {
  gh_req_queue : ring gpu_req;
  gh_resp_queue : ring gpu_resp;
  gh_capacity : Z; (* uint32_t *)
}.

#[export] Instance gpu_req_lens : RingLens gpu_queue_handle gpu_req (ring gpu_resp) := {
  rl_view := gh_req_queue;
  rl_set r h := mk_gpu_handle r (gh_resp_queue h) (gh_capacity h);
  rl_cap := gh_capacity;
  rl_slack := 0;
  rl_eq := false;
  rl_rest := gh_resp_queue;
}.
#[export] Instance gpu_req_lens_laws : RingLensLaws gpu_req_lens.
Proof. split; cbn; (done || lia). Qed.

#[export] Instance gpu_resp_lens : RingLens gpu_queue_handle gpu_resp (ring gpu_req) := {
  rl_view := gh_resp_queue;
  rl_set r h := mk_gpu_handle (gh_req_queue h) r (gh_capacity h);
  rl_cap := gh_capacity;
  rl_slack := 0;
  rl_eq := false;
  rl_rest := gh_req_queue;
}.
#[export] Instance gpu_resp_lens_laws : RingLensLaws gpu_resp_lens.
Proof. split; cbn; (done || lia). Qed.

Definition gpu_queue_init (request : ring gpu_req) (response : ring gpu_resp) (capacity : Z) : gpu_queue_handle :=
  mk_gpu_handle request response capacity.

Definition gpu_queue_empty_req (h : gpu_queue_handle) : bool := lens_empty (L := gpu_req_lens) h.
Definition gpu_queue_empty_resp (h : gpu_queue_handle) : bool := lens_empty (L := gpu_resp_lens) h.
Definition gpu_queue_full_req (h : gpu_queue_handle) : bool := lens_full (L := gpu_req_lens) h.
Definition gpu_queue_full_resp (h : gpu_queue_handle) : bool := lens_full (L := gpu_resp_lens) h.
Definition gpu_queue_length_req (h : gpu_queue_handle) : Z := lens_length (L := gpu_req_lens) h.
Definition gpu_queue_length_resp (h : gpu_queue_handle) : Z := lens_length (L := gpu_resp_lens) h.

Definition gpu_enqueue_req (req : gpu_req) : M gpu_queue_handle Z := lens_enqueue (L := gpu_req_lens) req.
Definition gpu_enqueue_resp (resp : gpu_resp) : M gpu_queue_handle Z := lens_enqueue (L := gpu_resp_lens) resp.

(** [None] is the return of -1, otherwise the out parameter. *)
Definition gpu_dequeue_req : M gpu_queue_handle (option gpu_req) := lens_dequeue (L := gpu_req_lens).
Definition gpu_dequeue_resp : M gpu_queue_handle (option gpu_resp) := lens_dequeue (L := gpu_resp_lens).

(** [gpu_events_t] is one flag. *)
Definition gpu_events_set_display_info (events : bool) : bool := true.
Definition gpu_events_clear_display_info (events : bool) : bool := false.
Definition gpu_events_check_display_info (events : bool) : bool := events.

(** ** The lists the rings stand for *)

Definition gpu_reqs (h : gpu_queue_handle) : list gpu_req := lens_items (L := gpu_req_lens) h.
Definition gpu_resps (h : gpu_queue_handle) : list gpu_resp := lens_items (L := gpu_resp_lens) h.
Definition gpu_wf (h : gpu_queue_handle) : Prop :=
  lens_wf (L := gpu_req_lens) h /\ lens_wf (L := gpu_resp_lens) h.

(** [h] stands for the requests [rq] and the responses [rp]. *)
Record gpu_holds (h : gpu_queue_handle) (cap : Z) (rq : list gpu_req) (rp : list gpu_resp) : Prop := {
  gho_wf : gpu_wf h;
  gho_cap : gh_capacity h = cap;
  gho_reqs : gpu_reqs h = rq;
  gho_resps : gpu_resps h = rp;
}.

Section queue.
Context (h : gpu_queue_handle) (cap : Z) (rq : list gpu_req) (rp : list gpu_resp).
Hypothesis (Hh : gpu_holds h cap rq rp).

(** An operation on one ring leaves the other alone. *)
Lemma gpu_req_frame h' rq' :
  lens_wf (L := gpu_req_lens) h' -> lens_items (L := gpu_req_lens) h' = rq' ->
  gh_capacity h' = gh_capacity h -> gh_resp_queue h' = gh_resp_queue h -> gpu_holds h' cap rq' rp.
Proof using Hh.
  destruct Hh as [[] <- _ <-], h, h'. cbn. intros ? ? -> ->. by split.
Qed.

Lemma gpu_resp_frame h' rp' :
  lens_wf (L := gpu_resp_lens) h' -> lens_items (L := gpu_resp_lens) h' = rp' ->
  gh_capacity h' = gh_capacity h -> gh_req_queue h' = gh_req_queue h -> gpu_holds h' cap rq rp'.
Proof using Hh.
  destruct Hh as [[] <- <- _], h, h'. cbn. intros ? ? -> ->. by split.
Qed.

Lemma gpu_enqueue_req_spec x (Q : Z -> gpu_queue_handle -> Prop) :
  Z.of_nat (length rq) < cap -> (forall h', gpu_holds h' cap (rq ++ [x]) rp -> Q 0 h') ->
  wp (gpu_enqueue_req x) h Q.
Proof using Hh.
  intros Hr HQ. pose proof Hh as [[Hq _] Hc Hrq _]. eapply lens_enqueue_spec; [done| |].
  - cbn. unfold gpu_reqs in Hrq. rewrite Hrq. lia.
  - intros h' ? Hi ? ?. apply HQ. apply gpu_req_frame; try done. rewrite Hi. f_equal. done.
Qed.

Lemma gpu_enqueue_resp_spec x (Q : Z -> gpu_queue_handle -> Prop) :
  Z.of_nat (length rp) < cap -> (forall h', gpu_holds h' cap rq (rp ++ [x]) -> Q 0 h') ->
  wp (gpu_enqueue_resp x) h Q.
Proof using Hh.
  intros Hr HQ. pose proof Hh as [[_ Hp] Hc _ Hrp]. eapply lens_enqueue_spec; [done| |].
  - cbn. unfold gpu_resps in Hrp. rewrite Hrp. lia.
  - intros h' ? Hi ? ?. apply HQ. apply gpu_resp_frame; try done. rewrite Hi. f_equal. done.
Qed.

Lemma gpu_dequeue_req_spec x l (Q : option gpu_req -> gpu_queue_handle -> Prop) :
  rq = x :: l -> (forall h', gpu_holds h' cap l rp -> Q (Some x) h') -> wp gpu_dequeue_req h Q.
Proof using Hh.
  intros E HQ. pose proof Hh as [[Hq _] Hc Hrq _]. eapply lens_dequeue_spec; [done|by etrans|].
  intros h' ? Hi ? ?. apply HQ. by apply gpu_req_frame.
Qed.

Lemma gpu_dequeue_resp_spec x l (Q : option gpu_resp -> gpu_queue_handle -> Prop) :
  rp = x :: l -> (forall h', gpu_holds h' cap rq l -> Q (Some x) h') -> wp gpu_dequeue_resp h Q.
Proof using Hh.
  intros E HQ. pose proof Hh as [[_ Hp] Hc _ Hrp]. eapply lens_dequeue_spec; [done|by etrans|].
  intros h' ? Hi ? ?. apply HQ. by apply gpu_resp_frame.
Qed.

(** A full queue of responses refuses one more, unchanged. *)
Lemma gpu_enqueue_resp_full x : Z.of_nat (length rp) = cap -> gpu_enqueue_resp x h = Ok (-1, h).
Proof using Hh.
  intros Hfull. pose proof Hh as [[_ Hp] Hc _ Hrp].
  apply (lens_fifo_full (L := gpu_resp_lens)); [done|]. cbn. unfold gpu_resps in Hrp. rewrite Hrp. lia.
Qed.

Lemma gpu_queue_empty_req_spec : gpu_queue_empty_req h = bool_decide (rq = []).
Proof using Hh.
  pose proof Hh as [[Hq _] _ Hrq _]. rewrite <- Hrq. apply eq_bool_prop_intro.
  rewrite !Is_true_true, bool_decide_eq_true. by apply lens_empty_spec.
Qed.

Lemma gpu_queue_empty_resp_spec : gpu_queue_empty_resp h = bool_decide (rp = []).
Proof using Hh.
  pose proof Hh as [[_ Hp] _ _ Hrp]. rewrite <- Hrp. apply eq_bool_prop_intro.
  rewrite !Is_true_true, bool_decide_eq_true. by apply lens_empty_spec.
Qed.

Lemma gpu_queue_full_req_spec : gpu_queue_full_req h = (Z.of_nat (length rq) =? cap).
Proof using Hh.
  pose proof Hh as [[Hq _] Hc Hrq _]. unfold gpu_queue_full_req. rewrite lens_full_spec by done.
  cbn. rewrite Z.sub_0_r, <- Hrq, Hc. done.
Qed.

Lemma gpu_queue_length_req_spec : gpu_queue_length_req h = Z.of_nat (length rq).
Proof using Hh. pose proof Hh as [[Hq _] _ Hrq _]. rewrite <- Hrq. by apply lens_length_spec. Qed.

Lemma gpu_queue_length_resp_spec : gpu_queue_length_resp h = Z.of_nat (length rp).
Proof using Hh. pose proof Hh as [[_ Hp] _ _ Hrp]. rewrite <- Hrp. by apply lens_length_spec. Qed.

Lemma gpu_holds_bounded : Z.of_nat (length rq) <= cap /\ Z.of_nat (length rp) <= cap.
Proof using Hh.
  pose proof Hh as [[Hq Hp] Hc Hrq Hrp].
  pose proof (lens_bounded (L := gpu_req_lens) h Hq). pose proof (lens_bounded (L := gpu_resp_lens) h Hp).
  cbn in *. unfold gpu_reqs, gpu_resps in *. rewrite Hrq in *. rewrite Hrp in *. lia.
Qed.

(** What a successful operation did. *)
Lemma gpu_enqueue_req_inv x h' :
  gpu_enqueue_req x h = Ok (0, h') -> Z.of_nat (length rq) < cap /\ gpu_holds h' cap (rq ++ [x]) rp.
Proof using Hh.
  intros E. pose proof Hh as [[Hq _] Hc Hrq _]. pose proof gpu_holds_bounded as [Hb _].
  destruct (decide (Z.of_nat (length rq) = cap)) as [Hfull|Hne].
  - assert (gpu_enqueue_req x h = Ok (-1, h)) as E'; [|congruence].
    apply (lens_fifo_full (L := gpu_req_lens)); [done|]. cbn. unfold gpu_reqs in Hrq. rewrite Hrq. lia.
  - split; [lia|]. apply (wp_run _ _ _ _ (fun _ h' => gpu_holds h' cap (rq ++ [x]) rp) E).
    apply gpu_enqueue_req_spec; [lia|done].
Qed.

Lemma gpu_enqueue_resp_inv x h' :
  gpu_enqueue_resp x h = Ok (0, h') -> Z.of_nat (length rp) < cap /\ gpu_holds h' cap rq (rp ++ [x]).
Proof using Hh.
  intros E. pose proof gpu_holds_bounded as [_ Hb].
  destruct (decide (Z.of_nat (length rp) = cap)) as [Hfull|Hne].
  - pose proof (gpu_enqueue_resp_full x Hfull). congruence.
  - split; [lia|]. apply (wp_run _ _ _ _ (fun _ h' => gpu_holds h' cap rq (rp ++ [x])) E).
    apply gpu_enqueue_resp_spec; [lia|done].
Qed.

Lemma gpu_dequeue_req_inv x h' :
  gpu_dequeue_req h = Ok (Some x, h') -> exists l, rq = x :: l /\ gpu_holds h' cap l rp.
Proof using Hh.
  intros E. pose proof Hh as [[Hq _] _ Hrq _]. destruct (nil_or_cons rq) as [Erq|(y & l & Erq)].
  - rewrite Erq in Hrq. pose proof (fifo_deq_nil (O := lens_fifo_ops (L := gpu_req_lens)) h Hq Hrq) as En. cbn in En.
    unfold gpu_dequeue_req in E. congruence.
  - exists l. apply (wp_run _ _ _ _ (fun r h' => r = Some x -> rq = x :: l /\ gpu_holds h' cap l rp) E); [|done].
    eapply gpu_dequeue_req_spec; [exact Erq|]. intros h2 Hh2 [= ->]. done.
Qed.

Lemma gpu_dequeue_resp_inv x h' :
  gpu_dequeue_resp h = Ok (Some x, h') -> exists l, rp = x :: l /\ gpu_holds h' cap rq l.
Proof using Hh.
  intros E. pose proof Hh as [[_ Hp] _ _ Hrp]. destruct (nil_or_cons rp) as [Erp|(y & l & Erp)].
  - rewrite Erp in Hrp. pose proof (fifo_deq_nil (O := lens_fifo_ops (L := gpu_resp_lens)) h Hp Hrp) as En. cbn in En.
    unfold gpu_dequeue_resp in E. congruence.
  - exists l. apply (wp_run _ _ _ _ (fun r h' => r = Some x -> rp = x :: l /\ gpu_holds h' cap rq l) E); [|done].
    eapply gpu_dequeue_resp_spec; [exact Erp|]. intros h2 Hh2 [= ->]. done.
Qed.

End queue.
