(* ===== verification/GpuVirt.v ===== *)
(** * The GPU virtualiser: gpu/components/virt.c

    Clients name resources by identifiers of their own, which the virtualiser
    maps to identifiers of the driver; requests to the driver carry an
    identifier of an index allocator, under which the virtualiser keeps what it
    needs for the response.  GpuSpec and the files after it hold the
    specification and the proofs. *)

From S2P Require Import Prelude RingQueue GpuQueue Ialloc Microkit.

Definition DRIVER_CH : Z := 0.
Definition CLI_CH_OFFSET : Z := 1.
Definition UNMAPPED_RESOURCE_ID : Z := 2 ^ 32 - 1.
Definition VIRTUALISER_ID : Z := 2 ^ 32 - 1.

(** gpu_config.h of a system: the number of clients, the capacities of the
    queues, the region of each client in the virtualiser's address space, whose
    mapping of all of them starts at [gc_data], and the build flag. *)
Record gpu_config : Type := mk_gpu_config {
  gc_num_clients : Z;          (* GPU_NUM_CLIENTS *)
  gc_drv_capacity : Z;         (* GPU_QUEUE_CAPACITY_DRV *)
  gc_cli_capacity : Z -> Z;    (* gpu_virt_cli_queue_capacity *)
  gc_data : Z;                 (* gpu_client_data *)
  gc_data_region : Z -> Z;     (* gpu_virt_cli_data_region(gpu_client_data, _) *)
  gc_data_size : Z -> Z;       (* gpu_virt_cli_data_region_size, uint64_t *)
  gc_driver_data : Z;          (* gpu_driver_data *)
  gc_blob_support : bool;      (* GPU_BLOB_SUPPORT *)
}.

(** [client_t]; the events of a client are the one flag [gcl_event]. *)
Record gpu_client : Type := mk_gpu_client {
  gcl_queue_h : gpu_queue_handle;
  gcl_event : bool;
  gcl_ch : Z;
  gcl_res_map : list Z; (* res_map_virt_to_drv, uint32_t *)
}.

Record resource : Type := mk_resource {
  rs_has_backing : bool;
  rs_width : Z;      (* uint32_t *)
  rs_height : Z;     (* uint32_t *)
  rs_is_blob : bool;
  rs_mem_offset : Z; (* uint64_t *)
  rs_mem_size : Z;   (* uint32_t *)
}.

Record blob_scanout : Type := mk_blob_scanout {
  bs_active : bool;
  bs_width : Z;  (* uint32_t *)
  bs_height : Z; (* uint32_t *)
}.

(** [reqbk_t] without [res_scanout], which no code reads or writes. *)
Record gpu_reqbk : Type := mk_gpu_reqbk {
  gb_cli_id : Z;     (* uint32_t *)
  gb_cli_req_id : Z; (* uint32_t *)
  gb_code : gpu_req_code;
  gb_res_virt : Z;   (* uint32_t *)
}.

(** The globals, the memory of the driver's and the clients' data regions, and
    the calls made. *)
Record gpu_virt : Type := mk_gpu_virt {
  gv_clients : list gpu_client;
  gv_drv_h : gpu_queue_handle;
  gv_drv_event : bool;
  gv_res_ialloc : ialloc;
  gv_drv_resources : list resource;
  gv_blob_scanouts : list (list blob_scanout);
  gv_reqsbk : list gpu_reqbk;
  gv_req_ialloc : ialloc;
  gv_display_info : list Z;
  gv_pending : bool;
  gv_try_again : bool;
  gv_display_init : bool;
  gv_driver_mem : list Z;
  gv_client_mem : list Z;
  gv_events : list event;
}.

Definition set_gv_clients x (s : gpu_virt) : gpu_virt := mk_gpu_virt x (gv_drv_h s) (gv_drv_event s) (gv_res_ialloc s) (gv_drv_resources s) (gv_blob_scanouts s) (gv_reqsbk s) (gv_req_ialloc s)
  (gv_display_info s) (gv_pending s) (gv_try_again s) (gv_display_init s) (gv_driver_mem s) (gv_client_mem s) (gv_events s).
Definition set_gv_drv_h x (s : gpu_virt) : gpu_virt := mk_gpu_virt (gv_clients s) x (gv_drv_event s) (gv_res_ialloc s) (gv_drv_resources s) (gv_blob_scanouts s) (gv_reqsbk s) (gv_req_ialloc s)
  (gv_display_info s) (gv_pending s) (gv_try_again s) (gv_display_init s) (gv_driver_mem s) (gv_client_mem s) (gv_events s).
Definition set_gv_drv_event x (s : gpu_virt) : gpu_virt := mk_gpu_virt (gv_clients s) (gv_drv_h s) x (gv_res_ialloc s) (gv_drv_resources s) (gv_blob_scanouts s) (gv_reqsbk s) (gv_req_ialloc s)
  (gv_display_info s) (gv_pending s) (gv_try_again s) (gv_display_init s) (gv_driver_mem s) (gv_client_mem s) (gv_events s).
Definition set_gv_res_ialloc x (s : gpu_virt) : gpu_virt := mk_gpu_virt (gv_clients s) (gv_drv_h s) (gv_drv_event s) x (gv_drv_resources s) (gv_blob_scanouts s) (gv_reqsbk s) (gv_req_ialloc s)
  (gv_display_info s) (gv_pending s) (gv_try_again s) (gv_display_init s) (gv_driver_mem s) (gv_client_mem s) (gv_events s).
Definition set_gv_drv_resources x (s : gpu_virt) : gpu_virt := mk_gpu_virt (gv_clients s) (gv_drv_h s) (gv_drv_event s) (gv_res_ialloc s) x (gv_blob_scanouts s) (gv_reqsbk s) (gv_req_ialloc s)
  (gv_display_info s) (gv_pending s) (gv_try_again s) (gv_display_init s) (gv_driver_mem s) (gv_client_mem s) (gv_events s).
Definition set_gv_blob_scanouts x (s : gpu_virt) : gpu_virt := mk_gpu_virt (gv_clients s) (gv_drv_h s) (gv_drv_event s) (gv_res_ialloc s) (gv_drv_resources s) x (gv_reqsbk s) (gv_req_ialloc s)
  (gv_display_info s) (gv_pending s) (gv_try_again s) (gv_display_init s) (gv_driver_mem s) (gv_client_mem s) (gv_events s).
Definition set_gv_reqsbk x (s : gpu_virt) : gpu_virt := mk_gpu_virt (gv_clients s) (gv_drv_h s) (gv_drv_event s) (gv_res_ialloc s) (gv_drv_resources s) (gv_blob_scanouts s) x (gv_req_ialloc s)
  (gv_display_info s) (gv_pending s) (gv_try_again s) (gv_display_init s) (gv_driver_mem s) (gv_client_mem s) (gv_events s).
Definition set_gv_req_ialloc x (s : gpu_virt) : gpu_virt := mk_gpu_virt (gv_clients s) (gv_drv_h s) (gv_drv_event s) (gv_res_ialloc s) (gv_drv_resources s) (gv_blob_scanouts s) (gv_reqsbk s) x
  (gv_display_info s) (gv_pending s) (gv_try_again s) (gv_display_init s) (gv_driver_mem s) (gv_client_mem s) (gv_events s).
Definition set_gv_display_info x (s : gpu_virt) : gpu_virt := mk_gpu_virt (gv_clients s) (gv_drv_h s) (gv_drv_event s) (gv_res_ialloc s) (gv_drv_resources s) (gv_blob_scanouts s) (gv_reqsbk s) (gv_req_ialloc s)
  x (gv_pending s) (gv_try_again s) (gv_display_init s) (gv_driver_mem s) (gv_client_mem s) (gv_events s).
Definition set_gv_pending x (s : gpu_virt) : gpu_virt := mk_gpu_virt (gv_clients s) (gv_drv_h s) (gv_drv_event s) (gv_res_ialloc s) (gv_drv_resources s) (gv_blob_scanouts s) (gv_reqsbk s) (gv_req_ialloc s)
  (gv_display_info s) x (gv_try_again s) (gv_display_init s) (gv_driver_mem s) (gv_client_mem s) (gv_events s).
Definition set_gv_try_again x (s : gpu_virt) : gpu_virt := mk_gpu_virt (gv_clients s) (gv_drv_h s) (gv_drv_event s) (gv_res_ialloc s) (gv_drv_resources s) (gv_blob_scanouts s) (gv_reqsbk s) (gv_req_ialloc s)
  (gv_display_info s) (gv_pending s) x (gv_display_init s) (gv_driver_mem s) (gv_client_mem s) (gv_events s).
Definition set_gv_display_init x (s : gpu_virt) : gpu_virt := mk_gpu_virt (gv_clients s) (gv_drv_h s) (gv_drv_event s) (gv_res_ialloc s) (gv_drv_resources s) (gv_blob_scanouts s) (gv_reqsbk s) (gv_req_ialloc s)
  (gv_display_info s) (gv_pending s) (gv_try_again s) x (gv_driver_mem s) (gv_client_mem s) (gv_events s).
Definition set_gv_driver_mem x (s : gpu_virt) : gpu_virt := mk_gpu_virt (gv_clients s) (gv_drv_h s) (gv_drv_event s) (gv_res_ialloc s) (gv_drv_resources s) (gv_blob_scanouts s) (gv_reqsbk s) (gv_req_ialloc s)
  (gv_display_info s) (gv_pending s) (gv_try_again s) (gv_display_init s) x (gv_client_mem s) (gv_events s).
Definition set_gv_client_mem x (s : gpu_virt) : gpu_virt := mk_gpu_virt (gv_clients s) (gv_drv_h s) (gv_drv_event s) (gv_res_ialloc s) (gv_drv_resources s) (gv_blob_scanouts s) (gv_reqsbk s) (gv_req_ialloc s)
  (gv_display_info s) (gv_pending s) (gv_try_again s) (gv_display_init s) (gv_driver_mem s) x (gv_events s).
Definition set_gv_events x (s : gpu_virt) : gpu_virt := mk_gpu_virt (gv_clients s) (gv_drv_h s) (gv_drv_event s) (gv_res_ialloc s) (gv_drv_resources s) (gv_blob_scanouts s) (gv_reqsbk s) (gv_req_ialloc s)
  (gv_display_info s) (gv_pending s) (gv_try_again s) (gv_display_init s) (gv_driver_mem s) (gv_client_mem s) x.

Definition set_gcl_queue_h x (c : gpu_client) : gpu_client := mk_gpu_client x (gcl_event c) (gcl_ch c) (gcl_res_map c).
Definition set_gcl_event x (c : gpu_client) : gpu_client := mk_gpu_client (gcl_queue_h c) x (gcl_ch c) (gcl_res_map c).
Definition set_gcl_res_map x (c : gpu_client) : gpu_client := mk_gpu_client (gcl_queue_h c) (gcl_event c) (gcl_ch c) x.

Definition on_client {A} (i : Z) (m : M gpu_client A) : M gpu_virt A := zoom_nth gv_clients set_gv_clients i m.
Definition on_cli_h {A} (i : Z) (m : M gpu_queue_handle A) : M gpu_virt A :=
  on_client i (zoom gcl_queue_h set_gcl_queue_h m).
Definition on_drv_h {A} (m : M gpu_queue_handle A) : M gpu_virt A := zoom gv_drv_h set_gv_drv_h m.
Definition on_res_ialloc {A} (m : M ialloc A) : M gpu_virt A := zoom gv_res_ialloc set_gv_res_ialloc m.
Definition on_req_ialloc {A} (m : M ialloc A) : M gpu_virt A := zoom gv_req_ialloc set_gv_req_ialloc m.
Definition gpu_emit (e : event) : M gpu_virt unit := modify (fun s => set_gv_events (gv_events s ++ [e]) s).

(** [clients[cli].res_map_virt_to_drv[rid]] and the assignment to it. *)
Definition res_map (cli rid : Z) : M gpu_virt Z :=
  s ← get;
  c ← lift (load (gv_clients s) cli);
  lift (load (gcl_res_map c) rid).
Definition set_res_map (cli rid d : Z) : M gpu_virt unit :=
  on_client cli (c ← get; l ← lift (store (gcl_res_map c) rid d); put (set_gcl_res_map l c)).

(** [drv_resources[d]]. *)
Definition drv_resource (d : Z) : M gpu_virt resource := s ← get; lift (load (gv_drv_resources s) d).
Definition set_drv_resource (d : Z) (r : resource) : M gpu_virt unit :=
  s ← get;
  l ← lift (store (gv_drv_resources s) d r);
  put (set_gv_drv_resources l s).

(** [blob_scanouts[i][j]]. *)
Definition blob_scanout_at (i j : Z) : M gpu_virt blob_scanout :=
  s ← get;
  row ← lift (load (gv_blob_scanouts s) i);
  lift (load row j).
Definition set_blob_scanout (i j : Z) (f : blob_scanout -> blob_scanout) : M gpu_virt unit :=
  zoom_nth gv_blob_scanouts set_gv_blob_scanouts i (zoom_at j (modify f)).
Definition blob_deactivate (b : blob_scanout) : blob_scanout := mk_blob_scanout false (bs_width b) (bs_height b).

(** [reqsbk[id].res_virt = rid]. *)
Definition book_res_virt (id rid : Z) : M gpu_virt unit :=
  zoom_nth gv_reqsbk set_gv_reqsbk id
    (modify (fun b => mk_gpu_reqbk (gb_cli_id b) (gb_cli_req_id b) (gb_code b) rid)).

Definition rect_overlaps (width height : Z) (rect : gpu_rect) : bool :=
  (u32 (gr_x rect + gr_width rect) <=? width) && (u32 (gr_y rect + gr_height rect) <=? height).

(** ** The requests

    A function that checks and translates a request returns [false] with a
    status for the client, here [inl], or [true] with the request for the
    driver, here [inr]; [id] is [drv_req->id].  Members of [*drv_req] that the
    code does not assign are zero. *)

Definition verdict : Type := gpu_resp_status + gpu_req_body.

Section handlers.
Context (config : gpu_config).

Definition gpu_resource_create_blob (cli : Z) (r : gpu_req_resource_create_blob) (id : Z) : M gpu_virt verdict :=
  let rid := cb_resource_id r in
  if rid =? GPU_DISABLE_SCANOUT_RESOURCE_ID then mret (inl GPU_RESP_ERR_INVALID_RESOURCE_ID) else
  d ← res_map cli rid;
  if negb (d =? UNMAPPED_RESOURCE_ID) then mret (inl GPU_RESP_ERR_INVALID_RESOURCE_ID) else
  s ← get;
  if ialloc_full (gv_res_ialloc s) then mret (inl GPU_RESP_ERR_UNSPEC) else
  if gc_data_size config cli <? u64 (cb_mem_offset r + cb_mem_size r)
  then mret (inl GPU_RESP_ERR_INVALID_PARAMETER) else
  a ← on_res_ialloc ialloc_alloc;
  match a with
  | None => raise AssertFail
  | Some drv_res_id =>
    set_res_map cli rid drv_res_id;;
    set_drv_resource drv_res_id (mk_resource true 0 0 true (cb_mem_offset r) (cb_mem_size r));;
    book_res_virt id rid;;
    mret (inr (ResourceCreateBlob (mk_create_blob drv_res_id (cb_mem_offset r) (cb_mem_size r))))
  end.

Definition gpu_set_scanout_blob (cli : Z) (r : gpu_req_set_scanout_blob) (id : Z) : M gpu_virt verdict :=
  let rid := sb_resource_id r in
  if GPU_MAX_SCANOUTS <=? sb_scanout_id r then mret (inl GPU_RESP_ERR_INVALID_SCANOUT_ID) else
  if rid =? GPU_DISABLE_SCANOUT_RESOURCE_ID then
    for_upto (GPU_MAX_RESOURCES + 1) (fun i => set_blob_scanout (sb_scanout_id r) i blob_deactivate);;
    book_res_virt id rid;;
    mret (inr (SetScanoutBlob (mk_set_scanout_blob GPU_DISABLE_SCANOUT_RESOURCE_ID (sb_scanout_id r)
                                 0 0 0 0 0 (mk_gpu_rect 0 0 0 0))))
  else
  d ← res_map cli rid;
  if d =? UNMAPPED_RESOURCE_ID then mret (inl GPU_RESP_ERR_INVALID_RESOURCE_ID) else
  res ← drv_resource d;
  if negb (rs_is_blob res) then mret (inl GPU_RESP_ERR_INVALID_RESOURCE_ID) else
  if rs_mem_size res <? u32 (sb_offset r + u32 (sb_stride r * sb_height r))
  then mret (inl GPU_RESP_ERR_UNSPEC) else
  if negb (rect_overlaps (sb_width r) (sb_height r) (sb_rect r))
  then mret (inl GPU_RESP_ERR_INVALID_BOUNDS) else
  set_blob_scanout (sb_scanout_id r) rid (fun _ => mk_blob_scanout true (sb_width r) (sb_height r));;
  book_res_virt id rid;;
  mret (inr (SetScanoutBlob (mk_set_scanout_blob d (sb_scanout_id r) (sb_width r) (sb_height r) 0
                               (sb_stride r) (sb_offset r) (sb_rect r)))).

Definition gpu_resource_create_2d (cli : Z) (r : gpu_req_resource_create_2d) (id : Z) : M gpu_virt verdict :=
  let rid := c2_resource_id r in
  if rid =? GPU_DISABLE_SCANOUT_RESOURCE_ID then mret (inl GPU_RESP_ERR_INVALID_RESOURCE_ID) else
  d ← res_map cli rid;
  if negb (d =? UNMAPPED_RESOURCE_ID) then mret (inl GPU_RESP_ERR_INVALID_RESOURCE_ID) else
  s ← get;
  if ialloc_full (gv_res_ialloc s) then mret (inl GPU_RESP_ERR_UNSPEC) else
  a ← on_res_ialloc ialloc_alloc;
  match a with
  | None => raise AssertFail
  | Some drv_res_id =>
    set_res_map cli rid drv_res_id;;
    set_drv_resource drv_res_id (mk_resource false (c2_width r) (c2_height r) false 0 0);;
    book_res_virt id rid;;
    mret (inr (ResourceCreate2d (mk_create_2d drv_res_id (c2_width r) (c2_height r) (c2_format r))))
  end.

Definition gpu_resource_unref (cli : Z) (r : gpu_req_resource_unref) (id : Z) : M gpu_virt verdict :=
  let rid := ru_resource_id r in
  if rid =? GPU_DISABLE_SCANOUT_RESOURCE_ID then mret (inl GPU_RESP_ERR_INVALID_RESOURCE_ID) else
  d ← res_map cli rid;
  if d =? UNMAPPED_RESOURCE_ID then mret (inl GPU_RESP_ERR_INVALID_RESOURCE_ID) else
  res ← drv_resource d;
  when (rs_is_blob res) (for_upto GPU_MAX_SCANOUTS (fun i => set_blob_scanout i d blob_deactivate));;
  book_res_virt id rid;;
  err ← on_res_ialloc (ialloc_free d);
  assert_ (err =? 0);;
  set_res_map cli rid UNMAPPED_RESOURCE_ID;;
  mret (inr (ResourceUnref (mk_resource_unref d))).

Definition gpu_resource_attach_backing (cli : Z) (r : gpu_req_resource_attach_backing) (id : Z)
  : M gpu_virt verdict :=
  let rid := ab_resource_id r in
  if rid =? GPU_DISABLE_SCANOUT_RESOURCE_ID then mret (inl GPU_RESP_ERR_INVALID_RESOURCE_ID) else
  d ← res_map cli rid;
  if d =? UNMAPPED_RESOURCE_ID then mret (inl GPU_RESP_ERR_INVALID_RESOURCE_ID) else
  if gc_data_size config cli <? u64 (ab_mem_offset r + ab_mem_size r)
  then mret (inl GPU_RESP_ERR_INVALID_PARAMETER) else
  res ← drv_resource d;
  if rs_has_backing res then mret (inl GPU_RESP_ERR_UNSPEC) else
  set_drv_resource d (mk_resource true (rs_width res) (rs_height res) (rs_is_blob res)
                        (ab_mem_offset r) (ab_mem_size r));;
  book_res_virt id rid;;
  mret (inr (ResourceAttachBacking (mk_attach_backing d (ab_mem_offset r) (ab_mem_size r)))).

Definition gpu_resource_detach_backing (cli : Z) (r : gpu_req_resource_detach_backing) (id : Z)
  : M gpu_virt verdict :=
  let rid := db_resource_id r in
  if rid =? GPU_DISABLE_SCANOUT_RESOURCE_ID then mret (inl GPU_RESP_ERR_INVALID_RESOURCE_ID) else
  d ← res_map cli rid;
  if d =? UNMAPPED_RESOURCE_ID then mret (inl GPU_RESP_ERR_INVALID_RESOURCE_ID) else
  res ← drv_resource d;
  if negb (rs_has_backing res) then mret (inl GPU_RESP_ERR_UNSPEC) else
  set_drv_resource d (mk_resource false (rs_width res) (rs_height res) (rs_is_blob res)
                        (rs_mem_offset res) (rs_mem_size res));;
  book_res_virt id rid;;
  mret (inr (ResourceDetachBacking (mk_detach_backing d))).

Definition gpu_set_scanout (cli : Z) (r : gpu_req_set_scanout) (id : Z) : M gpu_virt verdict :=
  let rid := ss_resource_id r in
  if GPU_MAX_SCANOUTS <=? ss_scanout_id r then mret (inl GPU_RESP_ERR_INVALID_SCANOUT_ID) else
  if rid =? GPU_DISABLE_SCANOUT_RESOURCE_ID then
    book_res_virt id rid;;
    mret (inr (SetScanout (mk_set_scanout GPU_DISABLE_SCANOUT_RESOURCE_ID (ss_scanout_id r) (mk_gpu_rect 0 0 0 0))))
  else
  d ← res_map cli rid;
  if d =? UNMAPPED_RESOURCE_ID then mret (inl GPU_RESP_ERR_INVALID_RESOURCE_ID) else
  res ← drv_resource d;
  if rs_is_blob res then mret (inl GPU_RESP_ERR_INVALID_RESOURCE_ID) else
  if negb (rect_overlaps (rs_width res) (rs_height res) (ss_rect r))
  then mret (inl GPU_RESP_ERR_INVALID_BOUNDS) else
  book_res_virt id rid;;
  mret (inr (SetScanout (mk_set_scanout d (ss_scanout_id r) (ss_rect r)))).

(** [rect.width * rect.height * GPU_BPP_2D], in [uint32_t]. *)
Definition transfer_size (rect : gpu_rect) : Z := u32 (u32 (gr_width rect * gr_height rect) * GPU_BPP_2D).

Definition gpu_transfer_to_2d (cli : Z) (r : gpu_req_transfer_to_2d) (id : Z) : M gpu_virt verdict :=
  let rid := t2_resource_id r in
  if rid =? GPU_DISABLE_SCANOUT_RESOURCE_ID then mret (inl GPU_RESP_ERR_INVALID_RESOURCE_ID) else
  d ← res_map cli rid;
  if d =? UNMAPPED_RESOURCE_ID then mret (inl GPU_RESP_ERR_INVALID_RESOURCE_ID) else
  res ← drv_resource d;
  if rs_is_blob res then mret (inl GPU_RESP_ERR_INVALID_RESOURCE_ID) else
  if negb (rs_has_backing res) then mret (inl GPU_RESP_ERR_UNSPEC) else
  if negb (rect_overlaps (rs_width res) (rs_height res) (t2_rect r))
  then mret (inl GPU_RESP_ERR_INVALID_BOUNDS) else
  if rs_mem_size res <? u64 (t2_mem_offset r + transfer_size (t2_rect r))
  then mret (inl GPU_RESP_ERR_INVALID_PARAMETER) else
  let transfer_base := u64 (u64 (gc_data_region config cli + rs_mem_offset res) + t2_mem_offset r) in
  gpu_emit (CacheClean transfer_base (u64 (transfer_base + transfer_size (t2_rect r))));;
  book_res_virt id rid;;
  mret (inr (TransferTo2d (mk_transfer_to_2d d (t2_rect r) (t2_mem_offset r)))).

(** The loop over the scanouts in [gpu_resource_flush]: [false] is the early
    return. *)
Fixpoint flush_scanouts (d : Z) (rect : gpu_rect) (l : list Z) : M gpu_virt bool :=
  match l with
  | [] => mret true
  | i :: l' =>
    b ← blob_scanout_at i d;
    if bs_active b && negb (rect_overlaps (bs_width b) (bs_height b) rect) then mret false
    else flush_scanouts d rect l'
  end.

Definition gpu_resource_flush (cli : Z) (r : gpu_req_resource_flush) (id : Z) : M gpu_virt verdict :=
  let rid := rf_resource_id r in
  if rid =? GPU_DISABLE_SCANOUT_RESOURCE_ID then mret (inl GPU_RESP_ERR_INVALID_RESOURCE_ID) else
  d ← res_map cli rid;
  if d =? UNMAPPED_RESOURCE_ID then mret (inl GPU_RESP_ERR_INVALID_RESOURCE_ID) else
  res ← drv_resource d;
  if rs_is_blob res && negb (rs_has_backing res) then mret (inl GPU_RESP_ERR_UNSPEC) else
  ok ← (if rs_is_blob res then flush_scanouts d (rf_rect r) (seqZ 0 GPU_MAX_SCANOUTS)
        else mret (rect_overlaps (rs_width res) (rs_height res) (rf_rect r)));
  if negb ok then mret (inl GPU_RESP_ERR_INVALID_BOUNDS) else
  book_res_virt id rid;;
  mret (inr (ResourceFlush (mk_resource_flush d (rf_rect r)))).

(** The switch on the code in [handle_client]. *)
Definition gpu_dispatch (cli : Z) (body : gpu_req_body) (id : Z) : M gpu_virt verdict :=
  match body with
  | ResourceCreateBlob r =>
    if gc_blob_support config then gpu_resource_create_blob cli r id else mret (inl GPU_RESP_ERR_UNSPEC)
  | SetScanoutBlob r =>
    if gc_blob_support config then gpu_set_scanout_blob cli r id else mret (inl GPU_RESP_ERR_UNSPEC)
  | ResourceCreate2d r => gpu_resource_create_2d cli r id
  | ResourceUnref r => gpu_resource_unref cli r id
  | ResourceAttachBacking r => gpu_resource_attach_backing cli r id
  | ResourceDetachBacking r => gpu_resource_detach_backing cli r id
  | SetScanout r => gpu_set_scanout cli r id
  | TransferTo2d r => gpu_transfer_to_2d cli r id
  | ResourceFlush r => gpu_resource_flush cli r id
  | GetDisplayInfo _ | OtherRequest _ => mret (inl GPU_RESP_ERR_UNSPEC)
  end.

(** ** Requests of clients *)

(** [sddf_memcpy] to the address [addr] of the clients' data regions. *)
Definition gpu_write_client (addr : Z) (bytes : list Z) : M gpu_virt unit :=
  s ← get;
  let off := addr - gc_data config in
  if (off <? 0) || (Z.of_nat (length (gv_client_mem s)) <? off + Z.of_nat (length bytes))
  then raise OutOfBounds
  else put (set_gv_client_mem (splice (gv_client_mem s) (Z.to_nat off) bytes) s).

(** The answer of the virtualiser itself to a request for display info. *)
Definition answer_display_info (cli req_id : Z) (r : gpu_req_get_display_info) : M gpu_virt unit :=
  if gc_data_size config cli <? u64 (gdi_mem_offset r + sizeof_display_info) then
    err ← on_cli_h cli (gpu_enqueue_resp (mk_gpu_resp GPU_RESP_ERR_INVALID_PARAMETER req_id));
    assert_ (err =? 0)
  else
    s ← get;
    gpu_write_client (u64 (gc_data_region config cli + gdi_mem_offset r)) (gv_display_info s);;
    err ← on_cli_h cli (gpu_enqueue_resp (mk_gpu_resp GPU_RESP_OK req_id));
    assert_ (err =? 0).

(** The assignments to [reqsbk[id]] in [handle_client]; [res_virt] keeps its
    value. *)
Definition book_request (id cli req_id : Z) (code : gpu_req_code) : M gpu_virt unit :=
  zoom_nth gv_reqsbk set_gv_reqsbk id
    (modify (fun b => mk_gpu_reqbk cli req_id code (gb_res_virt b))).

(** The body of the loop of [handle_client]; the local variables are
    [driver_notify] and [client_notify]. *)
Definition handle_client_body (cli : Z) : M (gpu_virt * (bool * bool)) unit :=
  p ← get;
  r ← on_state (on_cli_h cli gpu_dequeue_req);
  match r with
  | None => raise AssertFail
  | Some req =>
    match gq_body req with
    | GetDisplayInfo g =>
      on_state (answer_display_info cli (gq_id req) g);;
      set_local (p.2.1, true)
    | body =>
      a ← on_state (on_req_ialloc ialloc_alloc);
      match a with
      | None => raise AssertFail
      | Some drv_req_id =>
        on_state (book_request drv_req_id cli (gq_id req) (gpu_code body));;
        v ← on_state (gpu_dispatch cli body drv_req_id);
        match v with
        | inl status =>
          err ← on_state (on_req_ialloc (ialloc_free drv_req_id));
          assert_ (err =? 0);;
          err ← on_state (on_cli_h cli (gpu_enqueue_resp (mk_gpu_resp status (gq_id req))));
          assert_ (err =? 0);;
          set_local (p.2.1, true)
        | inr drv_body =>
          err ← on_state (on_drv_h (gpu_enqueue_req (mk_gpu_req drv_req_id drv_body)));
          assert_ (err =? 0);;
          set_local (true, p.2.2)
        end
      end
    end
  end.

Definition handle_client_more (cli : Z) (p : gpu_virt * (bool * bool)) : bool :=
  match gv_clients p.1 !! Z.to_nat cli with
  | Some c => negb (gpu_queue_empty_req (gcl_queue_h c)) && negb (ialloc_full (gv_req_ialloc p.1))
              && negb (gpu_queue_full_req (gv_drv_h p.1))
  | None => false
  end.
Definition handle_client_length (cli : Z) (p : gpu_virt * (bool * bool)) : nat :=
  match gv_clients p.1 !! Z.to_nat cli with
  | Some c => Z.to_nat (gpu_queue_length_req (gcl_queue_h c))
  | None => 0
  end.

Definition handle_client (cli : Z) : M gpu_virt bool :=
  s ← get;
  c ← lift (load (gv_clients s) cli);
  r ← with_local (false, false)
        (loop (handle_client_length cli) (handle_client_more cli) (handle_client_body cli));
  let '(driver_notify, client_notify) := (r : unit * (bool * bool)).2 in
  when client_notify (gpu_emit (Notify (gcl_ch c)));;
  mret driver_notify.

Definition handle_clients : M gpu_virt unit :=
  r ← with_local false
        (for_upto (gc_num_clients config) (fun i =>
           n ← on_state (handle_client i);
           when n (set_local true)));
  when (r : unit * bool).2 (gpu_emit (Notify DRIVER_CH)).

(** ** Responses of the driver *)

Definition request_display_info : M gpu_virt bool :=
  s ← get;
  if ialloc_full (gv_req_ialloc s) || gpu_queue_full_req (gv_drv_h s) then mret false else
  a ← on_req_ialloc ialloc_alloc;
  match a with
  | None => raise AssertFail
  | Some drv_req_id =>
    book_request drv_req_id VIRTUALISER_ID drv_req_id GPU_REQ_GET_DISPLAY_INFO;;
    err ← on_drv_h (gpu_enqueue_req (mk_gpu_req drv_req_id (GetDisplayInfo (mk_get_display_info 0))));
    assert_ (err =? 0);;
    mret true
  end.

(** [sddf_memcpy(&get_display_info, gpu_driver_data, ...)]. *)
Definition copy_display_info : M gpu_virt unit :=
  s ← get;
  if Z.of_nat (length (gv_driver_mem s)) <? sizeof_display_info then raise OutOfBounds
  else put (set_gv_display_info (take (Z.to_nat sizeof_display_info) (gv_driver_mem s)) s).

(** A response to a request for display info; the local variable is
    [client_notify]. *)
Definition display_info_response (resp : gpu_resp) : M (gpu_virt * list bool) unit :=
  err ← on_state (on_req_ialloc (ialloc_free (gp_id resp)));
  assert_ (err =? 0);;
  if bool_decide (gp_status resp = GPU_RESP_OK) then
    on_state (gpu_emit (CacheCleanAndInvalidate (gc_driver_data config)
                          (u64 (gc_driver_data config + sizeof_display_info)));;
              copy_display_info;;
              modify (set_gv_pending false);;
              modify (set_gv_try_again false));;
    for_upto (gc_num_clients config) (fun i =>
      on_state (on_client i (modify (fun c => set_gcl_event (gpu_events_set_display_info (gcl_event c)) c)));;
      p ← get;
      l ← lift (store p.2 i true);
      set_local l)
  else on_state (modify (set_gv_try_again true)).

(** The creation of a resource failed in the driver. *)
Definition undo_create (bk : gpu_reqbk) : M gpu_virt unit :=
  d ← res_map (gb_cli_id bk) (gb_res_virt bk);
  err ← on_res_ialloc (ialloc_free d);
  assert_ (err =? 0);;
  set_res_map (gb_cli_id bk) (gb_res_virt bk) UNMAPPED_RESOURCE_ID.

(** The switch on the bookkept code in [handle_driver]. *)
Definition settle (bk : gpu_reqbk) (status : gpu_resp_status) : M gpu_virt unit :=
  let failed := negb (bool_decide (status = GPU_RESP_OK)) in
  match gb_code bk with
  | GPU_REQ_RESOURCE_CREATE_BLOB =>
    if gc_blob_support config then
      when failed
        (undo_create bk;;
         for_upto GPU_MAX_SCANOUTS (fun i => set_blob_scanout i (gb_res_virt bk) blob_deactivate))
    else raise AssertFail
  | GPU_REQ_RESOURCE_CREATE_2D => when failed (undo_create bk)
  | GPU_REQ_SET_SCANOUT_BLOB => if gc_blob_support config then mret tt else raise AssertFail
  | GPU_REQ_RESOURCE_UNREF | GPU_REQ_RESOURCE_ATTACH_BACKING | GPU_REQ_RESOURCE_DETACH_BACKING
  | GPU_REQ_SET_SCANOUT | GPU_REQ_TRANSFER_TO_2D | GPU_REQ_RESOURCE_FLUSH => mret tt
  | GPU_REQ_GET_DISPLAY_INFO | GPU_REQ_OTHER _ => raise AssertFail
  end.

(** The body of the loop of [handle_driver]; the local variable is
    [client_notify]. *)
Definition handle_driver_body : M (gpu_virt * list bool) unit :=
  r ← on_state (on_drv_h gpu_dequeue_resp);
  match r with
  | None => raise AssertFail
  | Some resp =>
    p ← get;
    in_use ← lift (ialloc_in_use (gv_req_ialloc p.1) (gp_id resp));
    if negb in_use then mret tt else
    bk ← lift (load (gv_reqsbk p.1) (gp_id resp));
    if bool_decide (gb_code bk = GPU_REQ_GET_DISPLAY_INFO) then display_info_response resp else
    on_state (settle bk (gp_status resp));;
    err ← on_state (on_req_ialloc (ialloc_free (gp_id resp)));
    assert_ (err =? 0);;
    err ← on_state (on_cli_h (gb_cli_id bk) (gpu_enqueue_resp (mk_gpu_resp (gp_status resp) (gb_cli_req_id bk))));
    assert_ (err =? 0);;
    l ← lift (store p.2 (gb_cli_id bk) true);
    set_local l
  end.

Definition drv_resps_more (p : gpu_virt * list bool) : bool := negb (gpu_queue_empty_resp (gv_drv_h p.1)).
Definition drv_resps_length (p : gpu_virt * list bool) : nat :=
  Z.to_nat (gpu_queue_length_resp (gv_drv_h p.1)).

(** The retry and the event at the start of [handle_driver]; the local variable
    is [driver_notify]. *)
Definition retry_display_info : M (gpu_virt * bool) unit :=
  p ← get;
  when (gv_try_again p.1)
    (ok ← on_state request_display_info;
     when ok (on_state (modify (set_gv_try_again false));; set_local true)).
Definition event_display_info : M (gpu_virt * bool) unit :=
  p ← get;
  when (gpu_events_check_display_info (gv_drv_event p.1) && negb (gv_pending p.1))
    (ok ← on_state request_display_info;
     if (ok : bool) then
       on_state (modify (set_gv_pending true);;
                 modify (fun s => set_gv_drv_event (gpu_events_clear_display_info (gv_drv_event s)) s));;
       set_local true
     else on_state (modify (set_gv_try_again true))).

Definition handle_driver : M gpu_virt unit :=
  d ← with_local false (retry_display_info;; event_display_info);
  r ← with_local (replicate (Z.to_nat (gc_num_clients config)) false)
        (loop drv_resps_length drv_resps_more handle_driver_body);
  let driver_notify := (d : unit * bool).2 in
  let client_notify := (r : unit * list bool).2 in
  when driver_notify (gpu_emit (Notify DRIVER_CH));;
  for_upto (gc_num_clients config) (fun i =>
    n ← lift (load client_notify i);
    when n (s ← get;
            c ← lift (load (gv_clients s) i);
            gpu_emit (Notify (gcl_ch c)))).

(** ** Initialisation and notifications *)

Definition init_request_get_display_info : M gpu_virt unit :=
  err ← on_drv_h (gpu_enqueue_req (mk_gpu_req 0 (GetDisplayInfo (mk_get_display_info 0))));
  assert_ (err =? 0);;
  gpu_emit (Notify DRIVER_CH).

Definition handle_init_get_display_info_response : M gpu_virt bool :=
  s ← get;
  if gpu_queue_empty_resp (gv_drv_h s) then mret false else
  r ← on_drv_h gpu_dequeue_resp;
  match r with
  | None => raise AssertFail
  | Some resp =>
    assert_ (gp_id resp =? 0);;
    assert_ (bool_decide (gp_status resp = GPU_RESP_OK));;
    copy_display_info;;
    mret true
  end.

Definition notified (ch : Z) : M gpu_virt unit :=
  s ← get;
  go ← (if gv_display_init s then mret true
        else if ch =? DRIVER_CH then
          ok ← handle_init_get_display_info_response;
          when ok (modify (set_gv_display_init true));;
          mret ok
        else mret false);
  when go (if ch =? DRIVER_CH then handle_driver;; handle_clients else handle_clients).

(** The regions of the queues and of the events are those of the handles of the
    initial state; the arrays of the allocators are the static ones. *)
Definition init : M gpu_virt unit :=
  s ← get;
  req_ia ← lift (ialloc_init (idxlist (gv_req_ialloc s)) (gc_drv_capacity config));
  modify (set_gv_req_ialloc req_ia);;
  res_ia ← lift (ialloc_init_with_offset (idxlist (gv_res_ialloc s)) GPU_MAX_RESOURCES 1);
  modify (set_gv_res_ialloc res_ia);;
  for_upto (gc_num_clients config) (fun i =>
    on_client i
      (modify (fun c => mk_gpu_client
                 (gpu_queue_init (gh_req_queue (gcl_queue_h c)) (gh_resp_queue (gcl_queue_h c)) (gc_cli_capacity config i))
                 (gcl_event c) (CLI_CH_OFFSET + i) (gcl_res_map c)));;
    for_each (seqZ 1 GPU_MAX_RESOURCES) (fun j => set_res_map i j UNMAPPED_RESOURCE_ID));;
  modify (fun s => set_gv_drv_h (gpu_queue_init (gh_req_queue (gv_drv_h s)) (gh_resp_queue (gv_drv_h s))
                                   (gc_drv_capacity config)) s);;
  init_request_get_display_info.

End handlers.
