(* ===== verification/GpuSpec.v ===== *)
(** * The GPU virtualiser on abstract tables

    A specification of GpuVirt: rings are lists, allocators the lists of their
    free identifiers, and the resource maps of all clients one finite map.
    [gpu_decide] says which requests are accepted, with which request for the driver
    and which new tables; GpuTyping relates it to a typing judgement
    of requests without machine arithmetic. *)

From stdpp Require Import gmap.
From S2P Require Import Prelude RingQueue GpuQueue Microkit GpuVirt.

(** ** The tables of resources *)

Record gpu_tables : Type := mk_tables {
  tb_owned : gmap (nat * Z) Z;      (* client and its identifier to the driver's *)
  tb_free : list Z;                 (* free identifiers of the driver, next first *)
  tb_res : list resource;           (* by identifier of the driver *)
  tb_blobs : list (list blob_scanout);
}.

Definition no_resource : resource := mk_resource false 0 0 false 0 0.
#[export] Instance resource_inhabited : Inhabited resource := populate no_resource.
#[export] Instance blob_scanout_inhabited : Inhabited blob_scanout := populate (mk_blob_scanout false 0 0).

Definition res_at (t : gpu_tables) (d : Z) : resource := tb_res t !!! Z.to_nat d.
Definition blob_at (t : gpu_tables) (i d : Z) : blob_scanout := (tb_blobs t !!! Z.to_nat i) !!! Z.to_nat d.

(** Resource 0 stands for no resource: no client owns it. *)
Definition owned (t : gpu_tables) (c : nat) (v : Z) : option Z := if v =? 0 then None else tb_owned t !! (c, v).

Definition tb_create (c : nat) (v d : Z) (fl : list Z) (r : resource) (t : gpu_tables) : gpu_tables :=
  mk_tables (<[(c, v) := d]> (tb_owned t)) fl (<[Z.to_nat d := r]> (tb_res t)) (tb_blobs t).
Definition tb_drop (c : nat) (v d : Z) (t : gpu_tables) : gpu_tables :=
  mk_tables (delete (c, v) (tb_owned t)) (tb_free t ++ [d]) (tb_res t) (tb_blobs t).
Definition tb_set_res (d : Z) (r : resource) (t : gpu_tables) : gpu_tables :=
  mk_tables (tb_owned t) (tb_free t) (<[Z.to_nat d := r]> (tb_res t)) (tb_blobs t).
Definition tb_set_blobs (b : list (list blob_scanout)) (t : gpu_tables) : gpu_tables :=
  mk_tables (tb_owned t) (tb_free t) (tb_res t) b.

(** All scanouts of column [j], or all of row [i], become inactive. *)
Definition clear_column (j : Z) (b : list (list blob_scanout)) : list (list blob_scanout) :=
  map (alter blob_deactivate (Z.to_nat j)) b.
Definition clear_row (i : Z) (b : list (list blob_scanout)) : list (list blob_scanout) :=
  alter (map blob_deactivate) (Z.to_nat i) b.
Definition set_blob (i j : Z) (x : blob_scanout) (b : list (list blob_scanout)) : list (list blob_scanout) :=
  alter (alter (fun _ => x) (Z.to_nat j)) (Z.to_nat i) b.

(** Every active scanout of [d] contains the rectangle. *)
Definition scanouts_contain (t : gpu_tables) (d : Z) (rect : gpu_rect) : bool :=
  forallb (fun i => negb (bs_active (blob_at t i d))
                    || rect_overlaps (bs_width (blob_at t i d)) (bs_height (blob_at t i d)) rect)
    (seqZ 0 GPU_MAX_SCANOUTS).

Section decide.
Context (config : gpu_config).

Definition refuse (st : gpu_resp_status) (t : gpu_tables) : verdict * gpu_tables := (inl st, t).

(** The common part of the requests on a resource [v] that exists. *)
Definition with_resource (t : gpu_tables) (c : nat) (v : Z) (k : Z -> resource -> verdict * gpu_tables)
  : verdict * gpu_tables :=
  match owned t c v with
  | None => refuse GPU_RESP_ERR_INVALID_RESOURCE_ID t
  | Some d => k d (res_at t d)
  end.

Definition decide_create (t : gpu_tables) (c : nat) (v : Z) (ok : bool) (r : resource) (k : Z -> gpu_req_body)
  : verdict * gpu_tables :=
  if (v =? 0) || bool_decide (is_Some (owned t c v)) then refuse GPU_RESP_ERR_INVALID_RESOURCE_ID t else
  match tb_free t with
  | [] => refuse GPU_RESP_ERR_UNSPEC t
  | d :: fl => if negb ok then refuse GPU_RESP_ERR_INVALID_PARAMETER t
               else (inr (k d), tb_create c v d fl r t)
  end.

Definition data_fits (c : nat) (off size : Z) : bool := u64 (off + size) <=? gc_data_size config (Z.of_nat c).

Definition gpu_decide (c : nat) (body : gpu_req_body) (t : gpu_tables) : verdict * gpu_tables :=
  match body with
  | ResourceCreateBlob r =>
    if negb (gc_blob_support config) then refuse GPU_RESP_ERR_UNSPEC t else
    decide_create t c (cb_resource_id r) (data_fits c (cb_mem_offset r) (cb_mem_size r))
      (mk_resource true 0 0 true (cb_mem_offset r) (cb_mem_size r))
      (fun d => ResourceCreateBlob (mk_create_blob d (cb_mem_offset r) (cb_mem_size r)))
  | SetScanoutBlob r =>
    if negb (gc_blob_support config) then refuse GPU_RESP_ERR_UNSPEC t else
    if GPU_MAX_SCANOUTS <=? sb_scanout_id r then refuse GPU_RESP_ERR_INVALID_SCANOUT_ID t else
    if sb_resource_id r =? 0 then
      (inr (SetScanoutBlob (mk_set_scanout_blob 0 (sb_scanout_id r) 0 0 0 0 0 (mk_gpu_rect 0 0 0 0))),
       tb_set_blobs (clear_row (sb_scanout_id r) (tb_blobs t)) t)
    else with_resource t c (sb_resource_id r) (fun d res =>
      if negb (rs_is_blob res) then refuse GPU_RESP_ERR_INVALID_RESOURCE_ID t else
      if rs_mem_size res <? u32 (sb_offset r + u32 (sb_stride r * sb_height r)) then refuse GPU_RESP_ERR_UNSPEC t else
      if negb (rect_overlaps (sb_width r) (sb_height r) (sb_rect r)) then refuse GPU_RESP_ERR_INVALID_BOUNDS t else
      (inr (SetScanoutBlob (mk_set_scanout_blob d (sb_scanout_id r) (sb_width r) (sb_height r) 0
                              (sb_stride r) (sb_offset r) (sb_rect r))),
       tb_set_blobs (set_blob (sb_scanout_id r) (sb_resource_id r)
                       (mk_blob_scanout true (sb_width r) (sb_height r)) (tb_blobs t)) t))
  | ResourceCreate2d r =>
    decide_create t c (c2_resource_id r) true (mk_resource false (c2_width r) (c2_height r) false 0 0)
      (fun d => ResourceCreate2d (mk_create_2d d (c2_width r) (c2_height r) (c2_format r)))
  | ResourceUnref r =>
    with_resource t c (ru_resource_id r) (fun d res =>
      (inr (ResourceUnref (mk_resource_unref d)),
       tb_drop c (ru_resource_id r) d
         (if rs_is_blob res then tb_set_blobs (clear_column d (tb_blobs t)) t else t)))
  | ResourceAttachBacking r =>
    with_resource t c (ab_resource_id r) (fun d res =>
      if negb (data_fits c (ab_mem_offset r) (ab_mem_size r)) then refuse GPU_RESP_ERR_INVALID_PARAMETER t else
      if rs_has_backing res then refuse GPU_RESP_ERR_UNSPEC t else
      (inr (ResourceAttachBacking (mk_attach_backing d (ab_mem_offset r) (ab_mem_size r))),
       tb_set_res d (mk_resource true (rs_width res) (rs_height res) (rs_is_blob res)
                       (ab_mem_offset r) (ab_mem_size r)) t))
  | ResourceDetachBacking r =>
    with_resource t c (db_resource_id r) (fun d res =>
      if negb (rs_has_backing res) then refuse GPU_RESP_ERR_UNSPEC t else
      (inr (ResourceDetachBacking (mk_detach_backing d)),
       tb_set_res d (mk_resource false (rs_width res) (rs_height res) (rs_is_blob res)
                       (rs_mem_offset res) (rs_mem_size res)) t))
  | SetScanout r =>
    if GPU_MAX_SCANOUTS <=? ss_scanout_id r then refuse GPU_RESP_ERR_INVALID_SCANOUT_ID t else
    if ss_resource_id r =? 0 then
      (inr (SetScanout (mk_set_scanout 0 (ss_scanout_id r) (mk_gpu_rect 0 0 0 0))), t)
    else with_resource t c (ss_resource_id r) (fun d res =>
      if rs_is_blob res then refuse GPU_RESP_ERR_INVALID_RESOURCE_ID t else
      if negb (rect_overlaps (rs_width res) (rs_height res) (ss_rect r)) then refuse GPU_RESP_ERR_INVALID_BOUNDS t else
      (inr (SetScanout (mk_set_scanout d (ss_scanout_id r) (ss_rect r))), t))
  | TransferTo2d r =>
    with_resource t c (t2_resource_id r) (fun d res =>
      if rs_is_blob res then refuse GPU_RESP_ERR_INVALID_RESOURCE_ID t else
      if negb (rs_has_backing res) then refuse GPU_RESP_ERR_UNSPEC t else
      if negb (rect_overlaps (rs_width res) (rs_height res) (t2_rect r)) then refuse GPU_RESP_ERR_INVALID_BOUNDS t else
      if rs_mem_size res <? u64 (t2_mem_offset r + transfer_size (t2_rect r))
      then refuse GPU_RESP_ERR_INVALID_PARAMETER t else
      (inr (TransferTo2d (mk_transfer_to_2d d (t2_rect r) (t2_mem_offset r))), t))
  | ResourceFlush r =>
    with_resource t c (rf_resource_id r) (fun d res =>
      if rs_is_blob res && negb (rs_has_backing res) then refuse GPU_RESP_ERR_UNSPEC t else
      if negb (if rs_is_blob res then scanouts_contain t d (rf_rect r)
               else rect_overlaps (rs_width res) (rs_height res) (rf_rect r))
      then refuse GPU_RESP_ERR_INVALID_BOUNDS t else
      (inr (ResourceFlush (mk_resource_flush d (rf_rect r))), t))
  | GetDisplayInfo _ | OtherRequest _ => refuse GPU_RESP_ERR_UNSPEC t
  end.

(** The cache operation of an accepted transfer. *)
Definition decide_events (c : nat) (body : gpu_req_body) (t : gpu_tables) : list event :=
  match body, (gpu_decide c body t).1 with
  | TransferTo2d r, inr (TransferTo2d r') =>
    let base := u64 (u64 (gc_data_region config (Z.of_nat c) + rs_mem_offset (res_at t (t2_resource_id r')))
                     + t2_mem_offset r) in
    [CacheClean base (u64 (base + transfer_size (t2_rect r)))]
  | _, _ => []
  end.

End decide.

(** The resource a request names. *)
Definition body_resource (body : gpu_req_body) : Z :=
  match body with
  | ResourceCreateBlob r => cb_resource_id r
  | SetScanoutBlob r => sb_resource_id r
  | ResourceCreate2d r => c2_resource_id r
  | ResourceUnref r => ru_resource_id r
  | ResourceAttachBacking r => ab_resource_id r
  | ResourceDetachBacking r => db_resource_id r
  | SetScanout r => ss_resource_id r
  | TransferTo2d r => t2_resource_id r
  | ResourceFlush r => rf_resource_id r
  | GetDisplayInfo _ | OtherRequest _ => 0
  end.

Definition body_scanout (body : gpu_req_body) : Z :=
  match body with
  | SetScanoutBlob r => sb_scanout_id r
  | SetScanout r => ss_scanout_id r
  | _ => 0
  end.

(** What the code relies on and does not check: identifiers of resources are
    within the tables, and the address range for the display info does not
    wrap. *)
Record body_ok (body : gpu_req_body) : Prop := {
  bo_resource : 0 <= body_resource body <= GPU_MAX_RESOURCES;
  bo_scanout : 0 <= body_scanout body;
  bo_display : match body with
               | GetDisplayInfo g => 0 <= gdi_mem_offset g /\ gdi_mem_offset g + sizeof_display_info < 2 ^ 64
               | _ => True
               end;
}.

(** Every resource of the driver is free or owned by one client under one
    identifier. *)
Record own_inv (t : gpu_tables) : Prop := {
  oi_range : forall k d, tb_owned t !! k = Some d -> 1 <= d <= GPU_MAX_RESOURCES /\ d ∉ tb_free t;
  oi_inj : forall k k' d, tb_owned t !! k = Some d -> tb_owned t !! k' = Some d -> k = k';
  oi_nodup : NoDup (tb_free t);
  oi_free : Forall (fun d => 1 <= d <= GPU_MAX_RESOURCES) (tb_free t);
}.

Lemma own_inv_create t c v d fl r :
  own_inv t -> tb_free t = d :: fl -> own_inv (tb_create c v d fl r t).
Proof.
  intros [] E. rewrite E in *. apply NoDup_cons in oi_nodup0 as [Hd Hnd].
  apply Forall_cons in oi_free0 as [Hr Hfl]. split; cbn; try done.
  - intros k d' [[<- <-]|[_ Hk]]%lookup_insert_Some; [done|].
    destruct (oi_range0 k d' Hk). split; [done|set_solver].
  - intros k k' d' [[<- <-]|[_ Hk]]%lookup_insert_Some [[<- E']|[_ Hk']]%lookup_insert_Some; try done.
    + destruct (oi_range0 _ _ Hk'). set_solver.
    + subst d'. destruct (oi_range0 _ _ Hk). set_solver.
    + eauto.
Qed.

Lemma own_inv_drop t c v d :
  own_inv t -> tb_owned t !! (c, v) = Some d -> own_inv (tb_drop c v d t).
Proof.
  intros [] E. destruct (oi_range0 _ _ E) as [Hr Hn]. split; cbn.
  - intros k d' [Hk Hd']%lookup_delete_Some. destruct (oi_range0 _ _ Hd'). split; [done|].
    rewrite not_elem_of_app, list_elem_of_singleton. split; [done|]. intros ->. by destruct Hk; eauto.
  - intros k k' d' [_ Hk]%lookup_delete_Some [_ Hk']%lookup_delete_Some. eauto.
  - apply NoDup_app. split_and!; [done| |apply NoDup_singleton]. set_solver.
  - apply Forall_app. split; [done|]. by apply Forall_singleton.
Qed.

(** The invariant speaks of the map and the free list only. *)
Lemma own_inv_tables t t' :
  own_inv t -> tb_owned t' = tb_owned t -> tb_free t' = tb_free t -> own_inv t'.
Proof. intros [] Ho Hf. split; rewrite ?Ho, ?Hf; done. Qed.

Lemma owned_some t c v d : owned t c v = Some d -> v <> 0 /\ tb_owned t !! (c, v) = Some d.
Proof. unfold owned. destruct (Z.eqb_spec v 0); done. Qed.

(** [tables_cases] follows the branches of [gpu_decide]. *)
Ltac tables_cases :=
  repeat match goal with
  | |- context [match owned ?t ?c ?v with _ => _ end] => destruct (owned t c v) eqn:?
  | |- context [match tb_free ?t with _ => _ end] => destruct (tb_free t) eqn:?
  | |- context [if ?b then _ else _] => destruct b eqn:?
  end; cbn [fst snd].

(** Whatever the clients ask for, no resource gets two owners. *)
Lemma gpu_decide_own_inv config c body t : own_inv t -> own_inv (gpu_decide config c body t).2.
Proof.
  intros Hi. destruct body; cbn [gpu_decide]; unfold with_resource, decide_create, refuse; tables_cases;
    try done; try (by apply (own_inv_tables t));
    try (by apply own_inv_create); apply own_inv_drop; try (by apply (own_inv_tables t));
    by eapply owned_some.
Qed.

(** ** The abstract state *)

Record cli_view : Type := mk_cli_view {
  cv_reqs : list gpu_req;
  cv_resps : list gpu_resp;
  cv_event : bool;
}.

Record gpu_spec : Type := mk_gpu_spec {
  sp_clis : list cli_view;
  sp_drvq : list gpu_req;
  sp_drvr : list gpu_resp;
  sp_tables : gpu_tables;
  sp_ids : list Z;
  sp_bk : list gpu_reqbk;
  sp_display : list Z;
  sp_pending : bool;
  sp_try : bool;
  sp_drv_event : bool;
  sp_init : bool;
  sp_dmem : list Z;
  sp_mem : list Z;
  sp_ev : list event;
}.

Definition set_sp_clis x (sp : gpu_spec) : gpu_spec := mk_gpu_spec x (sp_drvq sp) (sp_drvr sp) (sp_tables sp) (sp_ids sp) (sp_bk sp) (sp_display sp)
  (sp_pending sp) (sp_try sp) (sp_drv_event sp) (sp_init sp) (sp_dmem sp) (sp_mem sp) (sp_ev sp).
Definition set_sp_drvq x (sp : gpu_spec) : gpu_spec := mk_gpu_spec (sp_clis sp) x (sp_drvr sp) (sp_tables sp) (sp_ids sp) (sp_bk sp) (sp_display sp)
  (sp_pending sp) (sp_try sp) (sp_drv_event sp) (sp_init sp) (sp_dmem sp) (sp_mem sp) (sp_ev sp).
Definition set_sp_drvr x (sp : gpu_spec) : gpu_spec := mk_gpu_spec (sp_clis sp) (sp_drvq sp) x (sp_tables sp) (sp_ids sp) (sp_bk sp) (sp_display sp)
  (sp_pending sp) (sp_try sp) (sp_drv_event sp) (sp_init sp) (sp_dmem sp) (sp_mem sp) (sp_ev sp).
Definition set_sp_tables x (sp : gpu_spec) : gpu_spec := mk_gpu_spec (sp_clis sp) (sp_drvq sp) (sp_drvr sp) x (sp_ids sp) (sp_bk sp) (sp_display sp)
  (sp_pending sp) (sp_try sp) (sp_drv_event sp) (sp_init sp) (sp_dmem sp) (sp_mem sp) (sp_ev sp).
Definition set_sp_ids x (sp : gpu_spec) : gpu_spec := mk_gpu_spec (sp_clis sp) (sp_drvq sp) (sp_drvr sp) (sp_tables sp) x (sp_bk sp) (sp_display sp)
  (sp_pending sp) (sp_try sp) (sp_drv_event sp) (sp_init sp) (sp_dmem sp) (sp_mem sp) (sp_ev sp).
Definition set_sp_bk x (sp : gpu_spec) : gpu_spec := mk_gpu_spec (sp_clis sp) (sp_drvq sp) (sp_drvr sp) (sp_tables sp) (sp_ids sp) x (sp_display sp)
  (sp_pending sp) (sp_try sp) (sp_drv_event sp) (sp_init sp) (sp_dmem sp) (sp_mem sp) (sp_ev sp).
Definition set_sp_display x (sp : gpu_spec) : gpu_spec := mk_gpu_spec (sp_clis sp) (sp_drvq sp) (sp_drvr sp) (sp_tables sp) (sp_ids sp) (sp_bk sp) x
  (sp_pending sp) (sp_try sp) (sp_drv_event sp) (sp_init sp) (sp_dmem sp) (sp_mem sp) (sp_ev sp).
Definition set_sp_pending x (sp : gpu_spec) : gpu_spec := mk_gpu_spec (sp_clis sp) (sp_drvq sp) (sp_drvr sp) (sp_tables sp) (sp_ids sp) (sp_bk sp) (sp_display sp)
  x (sp_try sp) (sp_drv_event sp) (sp_init sp) (sp_dmem sp) (sp_mem sp) (sp_ev sp).
Definition set_sp_try x (sp : gpu_spec) : gpu_spec := mk_gpu_spec (sp_clis sp) (sp_drvq sp) (sp_drvr sp) (sp_tables sp) (sp_ids sp) (sp_bk sp) (sp_display sp)
  (sp_pending sp) x (sp_drv_event sp) (sp_init sp) (sp_dmem sp) (sp_mem sp) (sp_ev sp).
Definition set_sp_drv_event x (sp : gpu_spec) : gpu_spec := mk_gpu_spec (sp_clis sp) (sp_drvq sp) (sp_drvr sp) (sp_tables sp) (sp_ids sp) (sp_bk sp) (sp_display sp)
  (sp_pending sp) (sp_try sp) x (sp_init sp) (sp_dmem sp) (sp_mem sp) (sp_ev sp).
Definition set_sp_init x (sp : gpu_spec) : gpu_spec := mk_gpu_spec (sp_clis sp) (sp_drvq sp) (sp_drvr sp) (sp_tables sp) (sp_ids sp) (sp_bk sp) (sp_display sp)
  (sp_pending sp) (sp_try sp) (sp_drv_event sp) x (sp_dmem sp) (sp_mem sp) (sp_ev sp).
Definition set_sp_dmem x (sp : gpu_spec) : gpu_spec := mk_gpu_spec (sp_clis sp) (sp_drvq sp) (sp_drvr sp) (sp_tables sp) (sp_ids sp) (sp_bk sp) (sp_display sp)
  (sp_pending sp) (sp_try sp) (sp_drv_event sp) (sp_init sp) x (sp_mem sp) (sp_ev sp).
Definition set_sp_mem x (sp : gpu_spec) : gpu_spec := mk_gpu_spec (sp_clis sp) (sp_drvq sp) (sp_drvr sp) (sp_tables sp) (sp_ids sp) (sp_bk sp) (sp_display sp)
  (sp_pending sp) (sp_try sp) (sp_drv_event sp) (sp_init sp) (sp_dmem sp) x (sp_ev sp).
Definition set_sp_ev x (sp : gpu_spec) : gpu_spec := mk_gpu_spec (sp_clis sp) (sp_drvq sp) (sp_drvr sp) (sp_tables sp) (sp_ids sp) (sp_bk sp) (sp_display sp)
  (sp_pending sp) (sp_try sp) (sp_drv_event sp) (sp_init sp) (sp_dmem sp) (sp_mem sp) x.

#[export] Instance cli_view_inhabited : Inhabited cli_view := populate (mk_cli_view [] [] false).
#[export] Instance gpu_reqbk_inhabited : Inhabited gpu_reqbk := populate (mk_gpu_reqbk 0 0 GPU_REQ_GET_DISPLAY_INFO 0).

Definition sp_cli (sp : gpu_spec) (c : nat) : cli_view := sp_clis sp !!! c.
Definition sp_emit (l : list event) (sp : gpu_spec) : gpu_spec := set_sp_ev (sp_ev sp ++ l) sp.
Definition sp_book (id : Z) (f : gpu_reqbk -> gpu_reqbk) (sp : gpu_spec) : gpu_spec :=
  set_sp_bk (alter f (Z.to_nat id) (sp_bk sp)) sp.
Definition sp_take_req (c : nat) (sp : gpu_spec) : gpu_spec :=
  set_sp_clis (alter (fun v => mk_cli_view (tail (cv_reqs v)) (cv_resps v) (cv_event v)) c (sp_clis sp)) sp.
Definition sp_respond (c : nat) (r : gpu_resp) (sp : gpu_spec) : gpu_spec :=
  set_sp_clis (alter (fun v => mk_cli_view (cv_reqs v) (cv_resps v ++ [r]) (cv_event v)) c (sp_clis sp)) sp.

Section serve.
Context (config : gpu_config).

(** [gpu_dispatch]. *)
Definition sp_dispatch (c : nat) (body : gpu_req_body) (id : Z) (sp : gpu_spec) : verdict * gpu_spec :=
  let t := sp_tables sp in
  match gpu_decide config c body t with
  | (inl st, _) => (inl st, sp)
  | (inr b, t') =>
    (inr b, sp_book id (fun bk => mk_gpu_reqbk (gb_cli_id bk) (gb_cli_req_id bk) (gb_code bk) (body_resource body))
              (sp_emit (decide_events config c body t) (set_sp_tables t' sp)))
  end.

(** The answer to a request for display info. *)
Definition sp_display_info (c : nat) (id : Z) (g : gpu_req_get_display_info) (sp : gpu_spec) : gpu_spec :=
  if data_fits config c (gdi_mem_offset g) sizeof_display_info then
    sp_respond c (mk_gpu_resp GPU_RESP_OK id)
      (set_sp_mem (splice (sp_mem sp)
         (Z.to_nat (u64 (gc_data_region config (Z.of_nat c) + gdi_mem_offset g) - gc_data config)) (sp_display sp)) sp)
  else sp_respond c (mk_gpu_resp GPU_RESP_ERR_INVALID_PARAMETER id) sp.

(** One request of client [c] under the identifier [id], the first of the free
    identifiers. *)
Definition sp_request (c : nat) (req : gpu_req) (id : Z) (fl : list Z) (sp : gpu_spec) : gpu_spec :=
  match gq_body req with
  | GetDisplayInfo g => sp_display_info c (gq_id req) g sp
  | body =>
    let sp := set_sp_ids fl sp in
    let sp := sp_book id (fun bk => mk_gpu_reqbk (Z.of_nat c) (gq_id req) (gpu_code body) (gb_res_virt bk)) sp in
    match sp_dispatch c body id sp with
    | (inl st, sp) => sp_respond c (mk_gpu_resp st (gq_id req)) (set_sp_ids (sp_ids sp ++ [id]) sp)
    | (inr b, sp) => set_sp_drvq (sp_drvq sp ++ [mk_gpu_req id b]) sp
    end
  end.

(** [None] if the client has no request, the driver no room, or no identifier
    is free. *)
Definition sp_serve (c : nat) (sp : gpu_spec) : option gpu_spec :=
  match cv_reqs (sp_cli sp c), sp_ids sp with
  | req :: _, id :: fl =>
    if Z.of_nat (length (sp_drvq sp)) =? gc_drv_capacity config then None
    else Some (sp_request c req id fl (sp_take_req c sp))
  | _, _ => None
  end.

Fixpoint sp_serve_all (n : nat) (c : nat) (sp : gpu_spec) : gpu_spec :=
  match n with
  | O => sp
  | S n => match sp_serve c sp with Some sp' => sp_serve_all n c sp' | None => sp end
  end.

(** [handle_client]: the client is notified if it received a response. *)
Definition sp_client (c : nat) (sp : gpu_spec) : gpu_spec :=
  let sp' := sp_serve_all (length (cv_reqs (sp_cli sp c))) c sp in
  if bool_decide (length (cv_resps (sp_cli sp' c)) = length (cv_resps (sp_cli sp c))) then sp'
  else sp_emit [Notify (CLI_CH_OFFSET + Z.of_nat c)] sp'.

(** [handle_clients]: the driver is notified if it received a request. *)
Definition sp_clients (sp : gpu_spec) : gpu_spec :=
  let sp' := fold_left (fun sp c => sp_client c sp) (seq 0 (Z.to_nat (gc_num_clients config))) sp in
  if bool_decide (length (sp_drvq sp') = length (sp_drvq sp)) then sp'
  else sp_emit [Notify DRIVER_CH] sp'.

End serve.
