(* ===== verification/GpuRel.v ===== *)
(** * The GPU virtualiser refines its specification: states and primitives

    [gpu_rel] relates a state of GpuVirt to a state of GpuSpec; each primitive
    of the model takes related states to related states.  [dispatch_spec] is
    about the switch on the request code. *)

From stdpp Require Import gmap.
From S2P Require Import Prelude Fifo RingQueue GpuQueue Ialloc Microkit GpuVirt GpuSpec.

Record cli_rel (config : gpu_config) (own : gmap (nat * Z) Z) (c : nat) (k : gpu_client) (v : cli_view) : Prop := {
  cr_queue : gpu_holds (gcl_queue_h k) (gc_cli_capacity config (Z.of_nat c)) (cv_reqs v) (cv_resps v);
  cr_event : gcl_event k = cv_event v;
  cr_ch : gcl_ch k = CLI_CH_OFFSET + Z.of_nat c;
  cr_len : length (gcl_res_map k) = Z.to_nat (GPU_MAX_RESOURCES + 1);
  cr_map : forall rid, 1 <= rid <= GPU_MAX_RESOURCES ->
             gcl_res_map k !! Z.to_nat rid = Some (default UNMAPPED_RESOURCE_ID (own !! (c, rid)));
}.

Record alloc_rel (ia : ialloc) (fl : list Z) (offset size : Z) : Prop := {
  al_wf : ialloc_wf ia (map (fun d => d - offset) fl);
  al_offset : ia_offset ia = offset;
  al_size : ia_size ia = size;
}.

Record gpu_rel (config : gpu_config) (s : gpu_virt) (sp : gpu_spec) : Prop := {
  gl_len : length (gv_clients s) = Z.to_nat (gc_num_clients config);
  gl_len_spec : length (sp_clis sp) = Z.to_nat (gc_num_clients config);
  gl_clis : forall c k v, gv_clients s !! c = Some k -> sp_clis sp !! c = Some v ->
              cli_rel config (tb_owned (sp_tables sp)) c k v;
  gl_drv : gpu_holds (gv_drv_h s) (gc_drv_capacity config) (sp_drvq sp) (sp_drvr sp);
  gl_res_ia : alloc_rel (gv_res_ialloc s) (tb_free (sp_tables sp)) 1 GPU_MAX_RESOURCES;
  gl_req_ia : alloc_rel (gv_req_ialloc s) (sp_ids sp) 0 (gc_drv_capacity config);
  gl_res : gv_drv_resources s = tb_res (sp_tables sp);
  gl_res_len : length (tb_res (sp_tables sp)) = Z.to_nat (GPU_MAX_RESOURCES + 1);
  gl_blobs : gv_blob_scanouts s = tb_blobs (sp_tables sp);
  gl_blobs_len : length (tb_blobs (sp_tables sp)) = Z.to_nat GPU_MAX_SCANOUTS;
  gl_blobs_row : Forall (fun row => length row = Z.to_nat (GPU_MAX_RESOURCES + 1)) (tb_blobs (sp_tables sp));
  gl_bk : gv_reqsbk s = sp_bk sp;
  gl_bk_len : length (sp_bk sp) = Z.to_nat (gc_drv_capacity config);
  gl_display : gv_display_info s = sp_display sp;
  gl_pending : gv_pending s = sp_pending sp;
  gl_try : gv_try_again s = sp_try sp;
  gl_drv_event : gv_drv_event s = sp_drv_event sp;
  gl_init : gv_display_init s = sp_init sp;
  gl_dmem : gv_driver_mem s = sp_dmem sp;
  gl_mem : gv_client_mem s = sp_mem sp;
  gl_ev : gv_events s = sp_ev sp;
}.

(** ** Allocators *)

Section alloc.
Context (ia : ialloc) (fl : list Z) (offset size : Z).
Hypothesis (Hal : alloc_rel ia fl offset size).

Lemma al_full : ialloc_full ia = bool_decide (fl = []).
Proof using Hal.
  pose proof Hal as [Hwf _ _]. apply eq_bool_prop_intro. rewrite !Is_true_true, bool_decide_eq_true.
  rewrite (ialloc_full_spec _ _ Hwf). destruct fl; done.
Qed.

Lemma al_range : Forall (fun d => offset <= d < offset + size) fl.
Proof using Hal.
  pose proof Hal as [[] Ho Hs]. apply Forall_forall. intros d Hd.
  rewrite Forall_map, Forall_forall in ia_in_range. specialize (ia_in_range d Hd). cbn in ia_in_range. lia.
Qed.

Lemma al_nodup : NoDup fl.
Proof using Hal. pose proof Hal as [[] _ _]. by eapply NoDup_fmap_1. Qed.

Lemma al_alloc d l (Q : option Z -> ialloc -> Prop) :
  fl = d :: l -> (forall ia', alloc_rel ia' l offset size -> Q (Some d) ia') -> wp ialloc_alloc ia Q.
Proof using Hal.
  intros E HQ. pose proof Hal as [Hwf Ho Hs]. rewrite E in Hwf. cbn [map] in Hwf.
  eapply wp_mono; [by eapply ialloc_alloc_spec|]. intros r ia' (-> & ? & ? & ?).
  replace (d - offset + ia_offset ia) with d by lia. apply HQ. split; [done|lia..].
Qed.

Lemma al_free d (Q : Z -> ialloc -> Prop) :
  offset <= d < offset + size -> d ∉ fl ->
  (forall ia', alloc_rel ia' (fl ++ [d]) offset size -> Q 0 ia') -> wp (ialloc_free d) ia Q.
Proof using Hal.
  intros Hd Hnin HQ. pose proof Hal as [Hwf Ho Hs].
  eapply wp_mono; [eapply (ialloc_free_spec _ _ d Hwf); [lia|]|].
  - rewrite Ho. intros (x & Hx & Hin)%list_elem_of_fmap. by assert (x = d) as -> by lia.
  - intros r ia' (-> & Hwf' & ? & ?). apply HQ. split; [|lia..]. rewrite map_app. cbn. by rewrite Ho in Hwf'.
Qed.

Lemma al_in_use d :
  offset <= d < offset + size -> d ∉ fl -> ialloc_in_use ia d = Ok true.
Proof using Hal.
  intros Hd Hnin. pose proof Hal as [Hwf Ho Hs]. rewrite (ialloc_in_use_spec _ _ d Hwf) by lia.
  rewrite bool_decide_true; [done|]. left. rewrite Ho.
  intros (x & Hx & Hin)%list_elem_of_fmap. by assert (x = d) as -> by lia.
Qed.

Lemma al_not_in_use d :
  offset + size <= d \/ d ∈ fl /\ last fl <> Some d -> ialloc_in_use ia d = Ok false.
Proof using Hal.
  intros Hd. pose proof Hal as [Hwf Ho Hs]. destruct (decide (offset + size <= d)) as [Hge|Hlt].
  - destruct Hwf. rewrite IDX_NONE_eq in *. unfold ialloc_in_use. rewrite u32_small by uint_lia.
    rewrite (proj2 (Z.leb_le _ _)) by lia. done.
  - destruct Hd as [|[Hin Hlast]]; [lia|]. pose proof al_range as Hr. rewrite Forall_forall in Hr.
    specialize (Hr d Hin). rewrite (ialloc_in_use_spec _ _ d Hwf) by lia. rewrite bool_decide_false; [done|].
    rewrite Ho. intros [Hn|Hl].
    + apply Hn. by apply (list_elem_of_fmap_2 (fun d => d - offset)).
    + change (map (fun d => d - offset) fl) with ((fun d => d - offset) <$> fl) in Hl. rewrite fmap_last in Hl.
      destruct (last fl) as [x|]; [|done]. cbn in Hl.
      injection Hl as Hl. apply Hlast. f_equal. lia.
Qed.
End alloc.

(** A list of the length that the model gives an array. *)
Lemma lookup_total_in {A} `{!Inhabited A} (l : list A) (n i : Z) :
  length l = Z.to_nat n -> 0 <= i < n -> l !! Z.to_nat i = Some (l !!! Z.to_nat i).
Proof. intros Hl Hi. apply list_lookup_lookup_total_lt. lia. Qed.

Lemma alter_insert_total {A} `{!Inhabited A} (f : A -> A) (l : list A) (i : nat) :
  (i < length l)%nat -> alter f i l = <[i := f (l !!! i)]> l.
Proof.
  intros Hi. apply list_eq. intros j. destruct (decide (i = j)) as [<-|Hne].
  - rewrite list_lookup_alter_eq, list_lookup_insert_eq by done.
    by rewrite (list_lookup_lookup_total_lt l i Hi).
  - by rewrite list_lookup_alter_ne, list_lookup_insert_ne.
Qed.

(** [rel_tac H] closes a goal [gpu_rel _ s' sp'] from [H : gpu_rel _ s sp] but
    for the components that differ. *)
Ltac rel_tac H := destruct H; split; try assumption.

(** ** Primitives *)

Section prim.
Context (config : gpu_config) (s : gpu_virt) (sp : gpu_spec).
Hypothesis (Hrel : gpu_rel config s sp).
Let n : nat := Z.to_nat (gc_num_clients config).

Lemma client_at c : (c < n)%nat -> exists k v,
  gv_clients s !! c = Some k /\ sp_clis sp !! c = Some v /\ sp_cli sp c = v /\
  cli_rel config (tb_owned (sp_tables sp)) c k v.
Proof using Hrel.
  intros Hc. destruct (lookup_lt_is_Some_2 (gv_clients s) c) as [k Hk]; [rewrite (gl_len _ _ _ Hrel); done|].
  destruct (lookup_lt_is_Some_2 (sp_clis sp) c) as [v Hv]; [rewrite (gl_len_spec _ _ _ Hrel); done|].
  exists k, v. split_and!; [done..|by apply list_lookup_total_correct|]. by eapply gl_clis.
Qed.

(** A client changes, and maybe the map of owned resources in its part. *)
Lemma rel_client c k' v' own' :
  (c < n)%nat ->
  (forall c' v, c' <> c -> own' !! (c', v) = tb_owned (sp_tables sp) !! (c', v)) ->
  cli_rel config own' c k' v' ->
  let t := sp_tables sp in
  gpu_rel config (set_gv_clients (<[c := k']> (gv_clients s)) s)
    (set_sp_tables (mk_tables own' (tb_free t) (tb_res t) (tb_blobs t)) (set_sp_clis (<[c := v']> (sp_clis sp)) sp)).
Proof using Hrel.
  intros Hc Hown Hcli t. rel_tac Hrel; cbn [gv_clients set_gv_clients sp_clis set_sp_clis set_sp_tables]; try by rewrite length_insert.
  intros c0 k v Hk Hv. destruct (decide (c0 = c)) as [->|Hne].
  - rewrite list_lookup_insert_eq in Hk by lia. rewrite list_lookup_insert_eq in Hv by lia.
    by injection Hk as <-; injection Hv as <-.
  - rewrite list_lookup_insert_ne in Hk by done. rewrite list_lookup_insert_ne in Hv by done.
   destruct (gl_clis0 _ _ _ Hk Hv). split; try assumption.
    intros rid Hrid. cbn. rewrite Hown by done. auto.
Qed.

Lemma set_tables_same sp0 (t := sp_tables sp0) :
  set_sp_tables (mk_tables (tb_owned t) (tb_free t) (tb_res t) (tb_blobs t)) sp0 = sp0.
Proof. subst t. by destruct sp0 as [? ? ? []]. Qed.

Lemma res_map_spec c v (Q : Z -> gpu_virt -> Prop) :
  (c < n)%nat -> 1 <= v <= GPU_MAX_RESOURCES ->
  Q (default UNMAPPED_RESOURCE_ID (tb_owned (sp_tables sp) !! (c, v))) s -> wp (res_map (Z.of_nat c) v) s Q.
Proof using Hrel.
  intros Hc Hv HQ. destruct (client_at c Hc) as (k & w & Hk & _ & _ & Hkv).
  unfold res_map. do 2 wp_step. eapply wp_bind, wp_lift; [by apply load_nat|].
  eapply wp_lift; [|exact HQ]. apply load_ok; [lia|]. by apply (cr_map _ _ _ _ _ Hkv).
Qed.

Lemma set_res_map_spec c v d own' (t := sp_tables sp) (Q : unit -> gpu_virt -> Prop) :
  (c < n)%nat -> 1 <= v <= GPU_MAX_RESOURCES ->
  d = default UNMAPPED_RESOURCE_ID (own' !! (c, v)) ->
  (forall k, k <> (c, v) -> own' !! k = tb_owned t !! k) ->
  (forall s', gpu_rel config s' (set_sp_tables (mk_tables own' (tb_free t) (tb_res t) (tb_blobs t)) sp) -> Q tt s') ->
  wp (set_res_map (Z.of_nat c) v d) s Q.
Proof using Hrel.
  intros Hc Hv Hd Hown HQ. destruct (client_at c Hc) as (k & w & Hk & Hw & _ & Hkv).
  unfold set_res_map, on_client. eapply wp_zoom_nth; [lia|by rewrite Nat2Z.id|]. rewrite Nat2Z.id.
  do 2 wp_step. pose proof (cr_len _ _ _ _ _ Hkv) as Hlen.
  eapply wp_bind, wp_lift; [apply store_ok; lia|]. wp_step. apply HQ.
  pose proof (rel_client c (set_gcl_res_map (<[Z.to_nat v:=d]> (gcl_res_map k)) k) w own' Hc) as H.
  cbn beta zeta in H.
  rewrite (list_insert_id (sp_clis sp) c w Hw) in H. apply H; clear H.
  - intros c' v' Hne. apply Hown. congruence.
  - destruct Hkv. split; try assumption; cbn.
    + by rewrite length_insert.
    + intros rid Hrid. destruct (decide (rid = v)) as [->|Hne].
      * rewrite list_lookup_insert_eq by lia. by rewrite Hd.
      * rewrite list_lookup_insert_ne by lia. rewrite Hown by congruence. auto.
Qed.

(** An operation on the queues of a client. *)
Lemma on_cli_h_spec {A} c (m : M gpu_queue_handle A) (Q : A -> gpu_virt -> Prop) :
  (c < n)%nat ->
  (forall k, gpu_holds (gcl_queue_h k) (gc_cli_capacity config (Z.of_nat c))
                       (cv_reqs (sp_cli sp c)) (cv_resps (sp_cli sp c)) ->
     wp m (gcl_queue_h k) (fun a h =>
       exists rq rp, gpu_holds h (gc_cli_capacity config (Z.of_nat c)) rq rp /\
       forall s', gpu_rel config s' (set_sp_clis (<[c := mk_cli_view rq rp (cv_event (sp_cli sp c))]> (sp_clis sp)) sp) ->
         Q a s')) ->
  wp (on_cli_h (Z.of_nat c) m) s Q.
Proof using Hrel.
  intros Hc Hm. destruct (client_at c Hc) as (k & w & Hk & Hw & Hsw & Hkv). rewrite Hsw in Hm.
  unfold on_cli_h, on_client. eapply wp_zoom_nth; [lia|by rewrite Nat2Z.id|]. rewrite Nat2Z.id. wp_step.
  eapply wp_mono; [apply Hm; by destruct Hkv|]. intros a h (rq & rp & Hh & HQ). apply HQ.
  pose proof (rel_client c (set_gcl_queue_h h k) (mk_cli_view rq rp (cv_event w)) _ Hc
                (fun _ _ _ => eq_refl)) as H.
  cbn beta zeta in H. rewrite (set_tables_same (set_sp_clis _ sp)) in H.
  apply H. destruct Hkv. by split.
Qed.

Lemma on_drv_h_spec {A} (m : M gpu_queue_handle A) (Q : A -> gpu_virt -> Prop) :
  (gpu_holds (gv_drv_h s) (gc_drv_capacity config) (sp_drvq sp) (sp_drvr sp) ->
   wp m (gv_drv_h s) (fun a h =>
     exists rq rp, gpu_holds h (gc_drv_capacity config) rq rp /\
     forall s', gpu_rel config s' (set_sp_drvr rp (set_sp_drvq rq sp)) -> Q a s')) ->
  wp (on_drv_h m) s Q.
Proof using Hrel.
  intros Hm. unfold on_drv_h. wp_step. eapply wp_mono; [apply Hm; by destruct Hrel|].
  intros a h (rq & rp & Hh & HQ). apply HQ. by rel_tac Hrel.
Qed.

Lemma drv_resource_spec d (Q : resource -> gpu_virt -> Prop) :
  0 <= d <= GPU_MAX_RESOURCES -> Q (res_at (sp_tables sp) d) s -> wp (drv_resource d) s Q.
Proof using Hrel.
  intros Hd HQ. unfold drv_resource. do 2 wp_step. eapply wp_lift; [|exact HQ].
  apply load_ok; [lia|]. destruct Hrel. rewrite gl_res0. apply (lookup_total_in _ (GPU_MAX_RESOURCES + 1)); [done|lia].
Qed.

Lemma set_drv_resource_spec d r (Q : unit -> gpu_virt -> Prop) :
  0 <= d <= GPU_MAX_RESOURCES ->
  (forall s', gpu_rel config s' (set_sp_tables (tb_set_res d r (sp_tables sp)) sp) -> Q tt s') ->
  wp (set_drv_resource d r) s Q.
Proof using Hrel.
  intros Hd HQ. unfold set_drv_resource. do 2 wp_step. pose proof Hrel as Hrel0. destruct Hrel0.
  eapply wp_bind, wp_lift; [apply store_ok; rewrite gl_res0, gl_res_len0; lia|]. wp_step. apply HQ.
  rel_tac Hrel; cbn.
  - by rewrite gl_res1.
  - by rewrite length_insert.
Qed.

Lemma alloc_res_spec d l (t := sp_tables sp) (Q : option Z -> gpu_virt -> Prop) :
  tb_free t = d :: l ->
  (forall s', gpu_rel config s' (set_sp_tables (mk_tables (tb_owned t) l (tb_res t) (tb_blobs t)) sp) -> Q (Some d) s') ->
  wp (on_res_ialloc ialloc_alloc) s Q.
Proof using Hrel.
  intros E HQ. unfold on_res_ialloc. wp_step. eapply al_alloc; [by destruct Hrel|done|].
  intros ia' Hia. apply HQ. by rel_tac Hrel.
Qed.

Lemma free_res_spec d (t := sp_tables sp) (Q : Z -> gpu_virt -> Prop) :
  1 <= d <= GPU_MAX_RESOURCES -> d ∉ tb_free t ->
  (forall s', gpu_rel config s' (set_sp_tables (mk_tables (tb_owned t) (tb_free t ++ [d]) (tb_res t) (tb_blobs t)) sp) ->
     Q 0 s') ->
  wp (on_res_ialloc (ialloc_free d)) s Q.
Proof using Hrel.
  intros Hd Hn HQ. unfold on_res_ialloc. wp_step. eapply al_free; [by destruct Hrel|lia|done|].
  intros ia' Hia. apply HQ. by rel_tac Hrel.
Qed.

Lemma alloc_req_spec d l (Q : option Z -> gpu_virt -> Prop) :
  sp_ids sp = d :: l -> (forall s', gpu_rel config s' (set_sp_ids l sp) -> Q (Some d) s') ->
  wp (on_req_ialloc ialloc_alloc) s Q.
Proof using Hrel.
  intros E HQ. unfold on_req_ialloc. wp_step. eapply al_alloc; [by destruct Hrel|done|].
  intros ia' Hia. apply HQ. by rel_tac Hrel.
Qed.

Lemma free_req_spec d (Q : Z -> gpu_virt -> Prop) :
  0 <= d < gc_drv_capacity config -> d ∉ sp_ids sp ->
  (forall s', gpu_rel config s' (set_sp_ids (sp_ids sp ++ [d]) sp) -> Q 0 s') ->
  wp (on_req_ialloc (ialloc_free d)) s Q.
Proof using Hrel.
  intros Hd Hn HQ. unfold on_req_ialloc. wp_step. eapply al_free; [by destruct Hrel|lia|done|].
  intros ia' Hia. apply HQ. by rel_tac Hrel.
Qed.

(** The assignments to an entry of [reqsbk]. *)
Lemma book_spec id f (Q : unit -> gpu_virt -> Prop) :
  0 <= id < gc_drv_capacity config ->
  (forall s', gpu_rel config s' (sp_book id f sp) -> Q tt s') ->
  wp (zoom_nth gv_reqsbk set_gv_reqsbk id (modify f)) s Q.
Proof using Hrel.
  intros Hid HQ. pose proof Hrel as Hrel0. destruct Hrel0. eapply wp_zoom_nth; [lia| |].
  - rewrite gl_bk0. by apply (lookup_total_in _ (gc_drv_capacity config)).
  - wp_step. apply HQ. unfold sp_book. rewrite alter_insert_total by lia.
    rel_tac Hrel; cbn; [by rewrite gl_bk1|by rewrite length_insert].
Qed.

Lemma gpu_emit_spec e (Q : unit -> gpu_virt -> Prop) :
  (forall s', gpu_rel config s' (sp_emit [e] sp) -> Q tt s') -> wp (gpu_emit e) s Q.
Proof using Hrel.
  intros HQ. unfold gpu_emit. wp_step. apply HQ. rel_tac Hrel. cbn. by rewrite gl_ev0.
Qed.

Lemma set_blob_scanout_spec i j f (t := sp_tables sp) (Q : unit -> gpu_virt -> Prop) :
  0 <= i < GPU_MAX_SCANOUTS -> 0 <= j <= GPU_MAX_RESOURCES ->
  (forall s', gpu_rel config s'
     (set_sp_tables (tb_set_blobs (alter (alter f (Z.to_nat j)) (Z.to_nat i) (tb_blobs t)) t) sp) -> Q tt s') ->
  wp (set_blob_scanout i j f) s Q.
Proof using Hrel.
  intros Hi Hj HQ. pose proof Hrel as Hrel0. destruct Hrel0.
  pose proof (lookup_total_in _ _ i gl_blobs_len0 Hi) as Hrow.
  pose proof (Forall_lookup_1 _ _ _ _ gl_blobs_row0 Hrow) as Hlen. cbn beta in Hlen.
  unfold set_blob_scanout. eapply wp_zoom_nth; [lia|by rewrite gl_blobs0|].
  eapply wp_zoom_at; [lia|by apply (lookup_total_in _ (GPU_MAX_RESOURCES + 1)); [|lia]|].
  wp_step. apply HQ. subst t. rewrite !alter_insert_total by lia.
  rel_tac Hrel; cbn.
  - by rewrite gl_blobs1.
  - by rewrite length_insert.
  - apply Forall_insert; [done|]. by rewrite length_insert.
Qed.

Lemma blob_scanout_at_spec i j (Q : blob_scanout -> gpu_virt -> Prop) :
  0 <= i < GPU_MAX_SCANOUTS -> 0 <= j <= GPU_MAX_RESOURCES ->
  Q (blob_at (sp_tables sp) i j) s -> wp (blob_scanout_at i j) s Q.
Proof using Hrel.
  intros Hi Hj HQ. pose proof Hrel as Hrel0. destruct Hrel0.
  pose proof (lookup_total_in _ _ i gl_blobs_len0 Hi) as Hrow.
  pose proof (Forall_lookup_1 _ _ _ _ gl_blobs_row0 Hrow) as Hlen. cbn beta in Hlen.
  unfold blob_scanout_at. do 2 wp_step. rewrite gl_blobs0. eapply wp_bind, wp_lift; [by apply load_ok; [lia|]|].
  eapply wp_lift; [|exact HQ]. apply load_ok; [lia|]. by apply (lookup_total_in _ (GPU_MAX_RESOURCES + 1)); [|lia].
Qed.
End prim.

(** ** The loops over the scanouts *)

Lemma fold_alter_all {A} (f : A -> A) (l : list A) (m : Z) :
  length l = Z.to_nat m -> fold_left (fun l i => alter f (Z.to_nat i) l) (seqZ 0 m) l = map f l.
Proof.
  intros Hl. destruct (decide (m < 0)).
  { rewrite seqZ_nil by lia. by destruct l; [|cbn in Hl; lia]. }
  rewrite <- (Z2Nat.id m) by lia.
  assert (forall k : nat, (k <= length l)%nat ->
    fold_left (fun l i => alter f (Z.to_nat i) l) (seqZ 0 (Z.of_nat k)) l = map f (take k l) ++ drop k l) as H.
  { induction k as [|k IH]; intros Hk; [done|].
    rewrite Nat2Z.inj_succ, <- Z.add_1_r. rewrite seqZ_app by lia. rewrite fold_left_app, IH by lia. rewrite seqZ_cons, (seqZ_nil _ (Z.pred 1)) by lia.
    cbn [fold_left]. replace (Z.to_nat (0 + Z.of_nat k)) with k by lia.
    destruct (lookup_lt_is_Some_2 l k) as [x Hx]; [lia|].
    rewrite (drop_S l x k Hx), (take_S_r l k x Hx), map_app, <- app_assoc. cbn [map app].
    rewrite alter_app_r_alt by (rewrite length_map, length_take; lia).
    rewrite length_map, length_take. by replace (k - _)%nat with 0%nat by lia. }
  rewrite <- Hl, H by done. by rewrite firstn_all, drop_all, app_nil_r.
Qed.

Lemma fold_alter_row {A} (f : A -> A) (i : nat) (l : list Z) (b : list (list A)) :
  fold_left (fun b j => alter (alter f (Z.to_nat j)) i b) l b
  = alter (fun row => fold_left (fun r j => alter f (Z.to_nat j) r) l row) i b.
Proof.
  revert b. induction l as [|j l IH]; intros b; cbn [fold_left]; [symmetry; by apply list_alter_id|].
  rewrite IH. exact (list_alter_alter_eq _ (alter f (Z.to_nat j)) b i).
Qed.

Section loops.
Context (config : gpu_config).

Lemma set_blobs_loop {X} (l : list X) (fi fj : X -> Z) f s sp (t := sp_tables sp) (Q : unit -> gpu_virt -> Prop) :
  gpu_rel config s sp ->
  Forall (fun x => 0 <= fi x < GPU_MAX_SCANOUTS /\ 0 <= fj x <= GPU_MAX_RESOURCES) l ->
  (forall s', gpu_rel config s' (set_sp_tables (tb_set_blobs
     (fold_left (fun b x => alter (alter f (Z.to_nat (fj x))) (Z.to_nat (fi x)) b) l (tb_blobs t)) t) sp) -> Q tt s') ->
  wp (for_each l (fun x => set_blob_scanout (fi x) (fj x) f)) s Q.
Proof.
  revert s sp t. induction l as [|x l IH]; intros s sp t Hrel Hl HQ; cbn.
  - wp_step. apply HQ. subst t. cbn. unfold tb_set_blobs. by rewrite set_tables_same.
  - apply Forall_cons in Hl as [[] Hl]. apply wp_bind. eapply set_blob_scanout_spec; [done..|].
    intros s' Hrel'. eapply IH; [exact Hrel'|done|]. intros s'' Hrel''. apply HQ. exact Hrel''.
Qed.

Lemma clear_row_spec i s sp (t := sp_tables sp) (Q : unit -> gpu_virt -> Prop) :
  gpu_rel config s sp -> 0 <= i < GPU_MAX_SCANOUTS ->
  (forall s', gpu_rel config s' (set_sp_tables (tb_set_blobs (clear_row i (tb_blobs t)) t) sp) -> Q tt s') ->
  wp (for_upto (GPU_MAX_RESOURCES + 1) (fun j => set_blob_scanout i j blob_deactivate)) s Q.
Proof.
  intros Hrel Hi HQ. apply (set_blobs_loop _ (fun _ => i) (fun j => j) _ s sp _ Hrel).
  - apply Forall_forall. intros j Hj%elem_of_seqZ. lia.
  - intros s' Hs'. apply HQ. revert Hs'. rewrite fold_alter_row.
    match goal with |- gpu_rel _ _ (set_sp_tables (tb_set_blobs ?a _) _) -> _ => replace a with (clear_row i (tb_blobs t)) end; [done|].
    subst t. unfold clear_row. pose proof (gl_blobs_len _ _ _ Hrel) as Hlen.
    rewrite !alter_insert_total by lia. f_equal.
    symmetry. apply fold_alter_all. eapply (Forall_lookup_1 _ _ (Z.to_nat i) _ (gl_blobs_row _ _ _ Hrel)).
    by apply (lookup_total_in _ GPU_MAX_SCANOUTS).
Qed.

Lemma clear_column_spec j s sp (t := sp_tables sp) (Q : unit -> gpu_virt -> Prop) :
  gpu_rel config s sp -> 0 <= j <= GPU_MAX_RESOURCES ->
  (forall s', gpu_rel config s' (set_sp_tables (tb_set_blobs (clear_column j (tb_blobs t)) t) sp) -> Q tt s') ->
  wp (for_upto GPU_MAX_SCANOUTS (fun i => set_blob_scanout i j blob_deactivate)) s Q.
Proof.
  intros Hrel Hj HQ. apply (set_blobs_loop _ (fun i => i) (fun _ => j) _ s sp _ Hrel).
  - apply Forall_forall. intros i Hi%elem_of_seqZ. lia.
  - intros s' Hs'. apply HQ. revert Hs'. rewrite fold_alter_all; [done|]. by eapply gl_blobs_len.
Qed.

Lemma flush_scanouts_spec d rect l s sp (t := sp_tables sp) (Q : bool -> gpu_virt -> Prop) :
  gpu_rel config s sp -> 0 <= d <= GPU_MAX_RESOURCES -> Forall (fun i => 0 <= i < GPU_MAX_SCANOUTS) l ->
  Q (forallb (fun i => negb (bs_active (blob_at t i d))
                       || rect_overlaps (bs_width (blob_at t i d)) (bs_height (blob_at t i d)) rect) l) s ->
  wp (flush_scanouts d rect l) s Q.
Proof.
  intros Hrel Hd Hl. induction Hl as [|i l Hi Hl IH]; intros HQ; cbn; [by wp_step|].
  apply wp_bind. eapply (blob_scanout_at_spec config s sp); [done..|]. cbn in HQ. fold t.
  destruct (bs_active _), (rect_overlaps _ _ _); cbn in *; auto; by wp_step.
Qed.
End loops.
