(* ===== verification/GpuClient.v ===== *)
(** * The GPU virtualiser refines its specification: requests of clients *)

From stdpp Require Import gmap.
From S2P Require Import Prelude Fifo RingQueue GpuQueue Ialloc Microkit GpuVirt GpuSpec GpuRel.

Lemma mapped_not_sentinel d : 1 <= d <= GPU_MAX_RESOURCES -> (d =? UNMAPPED_RESOURCE_ID) = false.
Proof. unfold UNMAPPED_RESOURCE_ID, GPU_MAX_RESOURCES. intros. apply Z.eqb_neq. lia. Qed.

Section dispatch.
Context (config : gpu_config) (c : nat) (id : Z).
Hypothesis (Hc : (c < Z.to_nat (gc_num_clients config))%nat).
Hypothesis (Hid : 0 <= id < gc_drv_capacity config).

(** The lookup of a resource that the requests share. *)
Lemma lookup_spec s sp v (k : Z -> M gpu_virt verdict) (Q : verdict -> gpu_virt -> Prop) :
  gpu_rel config s sp -> own_inv (sp_tables sp) -> 0 <= v <= GPU_MAX_RESOURCES -> v <> 0 ->
  (owned (sp_tables sp) c v = None -> Q (inl GPU_RESP_ERR_INVALID_RESOURCE_ID) s) ->
  (forall d, owned (sp_tables sp) c v = Some d -> 1 <= d <= GPU_MAX_RESOURCES -> wp (k d) s Q) ->
  wp (d ← res_map (Z.of_nat c) v;
      if d =? UNMAPPED_RESOURCE_ID then mret (inl GPU_RESP_ERR_INVALID_RESOURCE_ID) else k d) s Q.
Proof using Hc.
  intros Hrel Hown Hv Hv0 Hnone Hsome. wp_step. eapply res_map_spec; [done..|lia|].
  unfold owned in *. rewrite (proj2 (Z.eqb_neq v 0) Hv0) in *.
  destruct (tb_owned (sp_tables sp) !! (c, v)) as [d|] eqn:E; cbn beta; cbn [from_option Datatypes.id].
  - destruct (oi_range _ Hown _ _ E) as [Hd _].
    rewrite (mapped_not_sentinel d Hd).
    by apply Hsome.
  - cbn. by apply Hnone.
Qed.

Lemma with_resource_spec s sp v (k : Z -> M gpu_virt verdict) (Q : verdict -> gpu_virt -> Prop) :
  gpu_rel config s sp -> own_inv (sp_tables sp) -> 0 <= v <= GPU_MAX_RESOURCES ->
  (owned (sp_tables sp) c v = None -> Q (inl GPU_RESP_ERR_INVALID_RESOURCE_ID) s) ->
  (forall d, owned (sp_tables sp) c v = Some d -> 1 <= d <= GPU_MAX_RESOURCES -> wp (k d) s Q) ->
  wp (if v =? GPU_DISABLE_SCANOUT_RESOURCE_ID then mret (inl GPU_RESP_ERR_INVALID_RESOURCE_ID) else
      d ← res_map (Z.of_nat c) v;
      if d =? UNMAPPED_RESOURCE_ID then mret (inl GPU_RESP_ERR_INVALID_RESOURCE_ID) else k d) s Q.
Proof using Hc.
  intros Hrel Hown Hv Hnone Hsome. unfold GPU_DISABLE_SCANOUT_RESOURCE_ID.
  destruct (Z.eqb_spec v 0) as [->|Hne]; [wp_step; by apply Hnone|]. by eapply lookup_spec.
Qed.

(** The creation of a resource. *)
Lemma create_spec s sp v (ok : bool) r (k : Z -> gpu_req_body)  (Q : verdict -> gpu_virt -> Prop) (t := sp_tables sp) :
  gpu_rel config s sp -> own_inv t -> 0 <= v <= GPU_MAX_RESOURCES ->
  let book bk := mk_gpu_reqbk (gb_cli_id bk) (gb_cli_req_id bk) (gb_code bk) v in
  (forall s', gpu_rel config s'
     match decide_create t c v ok r k with
     | (inl st, _) => sp
     | (inr b, t') => sp_book id book (set_sp_tables t' sp)
     end -> Q (decide_create t c v ok r k).1 s') ->
  wp (if v =? GPU_DISABLE_SCANOUT_RESOURCE_ID then mret (inl GPU_RESP_ERR_INVALID_RESOURCE_ID) else
      d ← res_map (Z.of_nat c) v;
      if negb (d =? UNMAPPED_RESOURCE_ID) then mret (inl GPU_RESP_ERR_INVALID_RESOURCE_ID) else
      s ← get;
      if ialloc_full (gv_res_ialloc s) then mret (inl GPU_RESP_ERR_UNSPEC) else
      if negb ok then mret (inl GPU_RESP_ERR_INVALID_PARAMETER) else
      a ← on_res_ialloc ialloc_alloc;
      match a with
      | None => raise AssertFail
      | Some d =>
        set_res_map (Z.of_nat c) v d;; set_drv_resource d r;; book_res_virt id v;; mret (inr (k d))
      end) s Q.
Proof using Hc Hid.
  intros Hrel Hown Hv book HQ. unfold GPU_DISABLE_SCANOUT_RESOURCE_ID, decide_create in *.
  destruct (Z.eqb_spec v 0) as [->|Hne]; cbn [orb] in HQ; [wp_step; by apply HQ|].
  wp_step. eapply res_map_spec; [done..|lia|]. fold t.
  assert (owned t c v = tb_owned t !! (c, v)) as Ho.
  { unfold owned. by rewrite (proj2 (Z.eqb_neq v 0) Hne). }
  rewrite Ho in HQ. destruct (tb_owned t !! (c, v)) as [d|] eqn:E; cbn beta; cbn [from_option Datatypes.id].
  { destruct (oi_range _ Hown _ _ E) as [Hd _].
    rewrite (mapped_not_sentinel d Hd).
    cbn [negb]. wp_step. rewrite bool_decide_true in HQ by eauto. by apply HQ. }
  rewrite bool_decide_false in HQ by (intros [? ?]; done). cbn [Z.eqb negb].
  change (UNMAPPED_RESOURCE_ID =? UNMAPPED_RESOURCE_ID) with true. cbn [negb].
  do 2 wp_step. rewrite (al_full _ _ _ _ (gl_res_ia _ _ _ Hrel)). fold t.
  destruct (tb_free t) as [|d fl] eqn:Efl; [rewrite bool_decide_true by done; wp_step; by apply HQ|].
  rewrite bool_decide_false by done. destruct ok; cbn [negb] in *; [|wp_step; by apply HQ].
  pose proof (oi_free _ Hown) as Hfr. rewrite Efl in Hfr. apply Forall_cons in Hfr as [Hd _].
  wp_step. eapply alloc_res_spec; [done|exact Efl|]. intros s1 Hs1. cbn iota.
  wp_step. eapply (set_res_map_spec _ _ _ Hs1 c v d (<[(c, v) := d]> (tb_owned t))); [done|lia| | |].
  { by rewrite lookup_insert_eq. }
  { intros k' Hk'. cbn. by rewrite lookup_insert_ne. }
  intros s2 Hs2. wp_step. eapply set_drv_resource_spec; [exact Hs2|lia|]. intros s3 Hs3.
  wp_step. unfold book_res_virt. eapply book_spec; [exact Hs3|done|]. intros s4 Hs4.
  wp_step. by apply HQ.
Qed.

(** [m] handles the request [body] as the specification does. *)
Definition serves (body : gpu_req_body) (m : M gpu_virt verdict) : Prop :=
  forall s sp (Q : verdict -> gpu_virt -> Prop),
  gpu_rel config s sp -> own_inv (sp_tables sp) -> body_ok body ->
  (forall s', gpu_rel config s' (sp_dispatch config c body id sp).2 -> Q (sp_dispatch config c body id sp).1 s') ->
  wp m s Q.

Lemma sp_emit_nil sp : sp_emit [] sp = sp.
Proof. destruct sp. unfold sp_emit, set_sp_ev. cbn. by rewrite app_nil_r. Qed.

Lemma data_misfit k off size : (gc_data_size config (Z.of_nat k) <? u64 (off + size)) = negb (data_fits config k off size).
Proof. unfold data_fits. apply Z.ltb_antisym. Qed.

Ltac start := intros s sp Q Hrel Hown [Hv Hs _] HQ; unfold sp_dispatch in HQ; cbn [gpu_decide decide_events body_resource body_scanout] in *.
(** Take both branches of the next test of the code, in the specification too. *)
Ltac branch HQ :=
  lazymatch goal with
  | |- wp (if ?b then _ else _) _ _ =>
    let E := fresh "E" in destruct b eqn:E; cbn [negb andb] in HQ |- *;
    cbn [refuse fst snd] in HQ
  end.
Ltac refused HQ := wp_step; apply HQ; eassumption.
Ltac booked HQ :=
  wp_step; unfold book_res_virt; eapply book_spec; [eassumption|done|];
  intros ? ?; wp_step; apply HQ; rewrite ?sp_emit_nil; eassumption.

(** The case of a resource that does not exist, and the lookup of one that
    does. *)
Ltac found HQ d Hd :=
  unfold with_resource in HQ;
  lazymatch goal with
  | |- _ = None -> _ => let E := fresh in intros E; rewrite E in HQ; apply HQ; eassumption
  | |- _ => let E := fresh "Eown" in intros d E Hd; rewrite E in HQ
  end.

Lemma create_blob_serves r :
  gc_blob_support config = true -> serves (ResourceCreateBlob r) (gpu_resource_create_blob config (Z.of_nat c) r id).
Proof using Hc Hid.
  intros Hb. start. rewrite Hb in HQ. cbn [negb] in HQ. unfold gpu_resource_create_blob. cbn beta zeta.
  rewrite data_misfit. eapply create_spec; [done..|]. intros s' Hs'.
  destruct (decide_create _ _ _ _ _ _) as [[st|b] t']; cbn [fst snd] in *; apply HQ; [done|].
  by rewrite sp_emit_nil.
Qed.

Lemma create_2d_serves r : serves (ResourceCreate2d r) (gpu_resource_create_2d (Z.of_nat c) r id).
Proof using Hc Hid.
  start. eapply (create_spec s sp (c2_resource_id r) true); [done..|]. intros s' Hs'.
  destruct (decide_create _ _ _ _ _ _) as [[st|b] t']; cbn [fst snd] in *; apply HQ; [done|].
  by rewrite sp_emit_nil.
Qed.

Lemma set_scanout_serves r : serves (SetScanout r) (gpu_set_scanout (Z.of_nat c) r id).
Proof using Hc Hid.
  start. unfold gpu_set_scanout. cbn beta zeta. branch HQ; [refused HQ|].
  unfold GPU_DISABLE_SCANOUT_RESOURCE_ID. branch HQ; [booked HQ|].
  eapply lookup_spec; [done..|by apply Z.eqb_neq| |]; found HQ d Hd.
  wp_step. eapply drv_resource_spec; [done|lia|].
  do 2 (branch HQ; [refused HQ|]). booked HQ.
Qed.

Lemma set_scanout_blob_serves r :
  gc_blob_support config = true -> serves (SetScanoutBlob r) (gpu_set_scanout_blob (Z.of_nat c) r id).
Proof using Hc Hid.
  intros Hb. start. rewrite Hb in HQ. cbn [negb] in HQ. unfold gpu_set_scanout_blob. cbn beta zeta.
  branch HQ; [refused HQ|]. apply Z.leb_gt in E.
  unfold GPU_DISABLE_SCANOUT_RESOURCE_ID. branch HQ.
  - wp_step. eapply clear_row_spec; [done|lia|]. intros s1 Hs1. booked HQ.
  - eapply lookup_spec; [done..|by apply Z.eqb_neq| |]; found HQ d Hd.
    wp_step. eapply drv_resource_spec; [done|lia|].
    do 3 (branch HQ; [refused HQ|]).
    wp_step. eapply set_blob_scanout_spec; [done|lia|lia|]. intros s1 Hs1. booked HQ.
Qed.

Lemma unref_serves r : serves (ResourceUnref r) (gpu_resource_unref (Z.of_nat c) r id).
Proof using Hc Hid.
  start. eapply with_resource_spec; [done..| |]; found HQ d Hd.
  destruct (owned_some _ _ _ _ Eown) as [Hne Eo]. destruct (oi_range _ Hown _ _ Eo) as [_ Hfree].
  set (t := sp_tables sp) in *.
  set (t1 := if rs_is_blob (res_at t d) then tb_set_blobs (clear_column d (tb_blobs t)) t else t) in *.
  wp_step. eapply drv_resource_spec; [done|lia|]. fold t.
  wp_step. eapply (wp_mono _ _ (fun _ s' => gpu_rel config s' (set_sp_tables t1 sp))).
  { subst t1. apply wp_when; intros Eb; rewrite Eb.
    - by eapply clear_column_spec; [done|lia|].
    - replace (set_sp_tables t sp) with sp by (by destruct sp). done. }
  intros [] s1 Hs1. assert (tb_free t1 = tb_free t /\ tb_owned t1 = tb_owned t) as [Hf1 Ho1] by (subst t1; by case_match).
  wp_step. unfold book_res_virt. eapply book_spec; [exact Hs1|done|]. intros s2 Hs2.
  wp_step. eapply free_res_spec; [exact Hs2|lia|by cbn; rewrite Hf1|]. intros s3 Hs3.
  wp_step. apply wp_assert; [done|].
  wp_step. eapply (set_res_map_spec _ _ _ Hs3 c (ru_resource_id r) _ (delete (c, ru_resource_id r) (tb_owned t1))); [done|lia| | |].
  { by rewrite lookup_delete_eq. }
  { intros k Hk. cbn. by rewrite lookup_delete_ne. }
  intros s4 Hs4. wp_step. apply HQ. by rewrite sp_emit_nil.
Qed.

Lemma attach_backing_serves r :
  serves (ResourceAttachBacking r) (gpu_resource_attach_backing config (Z.of_nat c) r id).
Proof using Hc Hid.
  start. eapply with_resource_spec; [done..| |]; found HQ d Hd.
  rewrite data_misfit. branch HQ; [refused HQ|].
  wp_step. eapply drv_resource_spec; [done|lia|]. branch HQ; [refused HQ|].
  wp_step. eapply set_drv_resource_spec; [done|lia|]. intros s1 Hs1. booked HQ.
Qed.

Lemma detach_backing_serves r : serves (ResourceDetachBacking r) (gpu_resource_detach_backing (Z.of_nat c) r id).
Proof using Hc Hid.
  start. eapply with_resource_spec; [done..| |]; found HQ d Hd.
  wp_step. eapply drv_resource_spec; [done|lia|]. branch HQ; [refused HQ|].
  wp_step. eapply set_drv_resource_spec; [done|lia|]. intros s1 Hs1. booked HQ.
Qed.

Lemma transfer_serves r : serves (TransferTo2d r) (gpu_transfer_to_2d config (Z.of_nat c) r id).
Proof using Hc Hid.
  start. eapply with_resource_spec; [done..| |]; found HQ d Hd.
  wp_step. eapply drv_resource_spec; [done|lia|].
  do 4 (branch HQ; [refused HQ|]).
  wp_step. eapply gpu_emit_spec; [done|]. intros s1 Hs1. booked HQ.
Qed.

Lemma flush_serves r : serves (ResourceFlush r) (gpu_resource_flush (Z.of_nat c) r id).
Proof using Hc Hid.
  start. eapply with_resource_spec; [done..| |]; found HQ d Hd.
  wp_step. eapply drv_resource_spec; [done|lia|]. branch HQ; [refused HQ|].
  wp_step. set (ok := if rs_is_blob _ then _ else _) in HQ.
  eapply (wp_mono _ _ (fun b s' => b = ok /\ s' = s)).
  { subst ok. destruct (rs_is_blob (res_at (sp_tables sp) d)); [|by wp_step]. eapply flush_scanouts_spec; [done|lia| |done].
    apply Forall_forall. intros i Hi%elem_of_seqZ. lia. }
  intros b s' [-> ->]. branch HQ; [refused HQ|]. booked HQ.
Qed.

Lemma dispatch_spec body : serves body (gpu_dispatch config (Z.of_nat c) body id).
Proof using Hc Hid.
  destruct body; cbn [gpu_dispatch].
  4: apply create_2d_serves.
  4: apply set_scanout_serves.
  4: apply attach_backing_serves.
  4: apply detach_backing_serves.
  4: apply transfer_serves.
  4: apply flush_serves.
  4: apply unref_serves.
  2: destruct (gc_blob_support config) eqn:E; [by apply create_blob_serves|].
  3: destruct (gc_blob_support config) eqn:E; [by apply set_scanout_blob_serves|].
  all: start; try rewrite E in HQ; refused HQ.
Qed.

End dispatch.

(** ** One request *)

(** The regions of the clients lie within the virtualiser's mapping. *)
Record gpu_config_ok (config : gpu_config) (memlen : nat) : Prop := {
  gc_drv_capacity_pos : 0 < gc_drv_capacity config;
  gc_regions : forall c, (c < Z.to_nat (gc_num_clients config))%nat ->
    0 <= gc_data_size config (Z.of_nat c) /\
    gc_data config <= gc_data_region config (Z.of_nat c) /\
    gc_data_region config (Z.of_nat c) + gc_data_size config (Z.of_nat c) <= gc_data config + Z.of_nat memlen /\
    0 <= gc_data config /\ gc_data config + Z.of_nat memlen < 2 ^ 64;
}.

(** What the handlers keep of the abstract state. *)
Record sp_inv (config : gpu_config) (sp : gpu_spec) : Prop := {
  si_own : own_inv (sp_tables sp);
  si_clients : length (sp_clis sp) = Z.to_nat (gc_num_clients config);
  si_display : length (sp_display sp) = Z.to_nat sizeof_display_info;
  si_dmem : sizeof_display_info <= Z.of_nat (length (sp_dmem sp));
  si_config : gpu_config_ok config (length (sp_mem sp));
  si_ids : NoDup (sp_ids sp);
  si_ids_range : Forall (fun id => 0 <= id < gc_drv_capacity config) (sp_ids sp);
}.

Lemma sp_take_req_eq c sp (v := sp_cli sp c) :
  (c < length (sp_clis sp))%nat ->
  sp_take_req c sp = set_sp_clis (<[c := mk_cli_view (tail (cv_reqs v)) (cv_resps v) (cv_event v)]> (sp_clis sp)) sp.
Proof. intros Hc. unfold sp_take_req. by rewrite alter_insert_total. Qed.

Lemma sp_respond_eq c r sp (v := sp_cli sp c) :
  (c < length (sp_clis sp))%nat ->
  sp_respond c r sp = set_sp_clis (<[c := mk_cli_view (cv_reqs v) (cv_resps v ++ [r]) (cv_event v)]> (sp_clis sp)) sp.
Proof. intros Hc. unfold sp_respond. by rewrite alter_insert_total. Qed.

(** What a request may do: the virtualiser answers it itself, or refuses it, or
    passes it on. *)
Inductive request_effect (config : gpu_config) (c : nat) (req : gpu_req) (id : Z) (fl : list Z) (sp : gpu_spec)
  : gpu_spec -> Prop :=
| eff_answer r mem :
    length mem = length (sp_mem sp) ->
    request_effect config c req id fl sp (sp_respond c r (set_sp_mem mem sp))
| eff_refuse r f :
    request_effect config c req id fl sp
      (sp_respond c r (set_sp_ids (fl ++ [id]) (sp_book id f sp)))
| eff_pass b t ev :
    gpu_decide config c (gq_body req) (sp_tables sp) = (inr b, t) ->
    request_effect config c req id fl sp
      (set_sp_drvq (sp_drvq sp ++ [mk_gpu_req id b])
         (sp_emit ev (set_sp_tables t (set_sp_ids fl
            (sp_book id (fun _ => mk_gpu_reqbk (Z.of_nat c) (gq_id req) (gpu_code (gq_body req)) (body_resource (gq_body req))) sp))))).

Lemma set_sp_mem_same sp : set_sp_mem (sp_mem sp) sp = sp.
Proof. by destruct sp. Qed.

Section request.
Context (config : gpu_config) (c : nat).
Hypothesis (Hc : (c < Z.to_nat (gc_num_clients config))%nat).

(** The place of the display info lies in the region of the client. *)
Lemma display_range sp g (addr := u64 (gc_data_region config (Z.of_nat c) + gdi_mem_offset g)) :
  sp_inv config sp -> body_ok (GetDisplayInfo g) -> data_fits config c (gdi_mem_offset g) sizeof_display_info = true ->
  addr = gc_data_region config (Z.of_nat c) + gdi_mem_offset g /\ gc_data config <= addr /\
  addr - gc_data config + Z.of_nat (length (sp_display sp)) <= Z.of_nat (length (sp_mem sp)) /\
  gdi_mem_offset g + sizeof_display_info <= gc_data_size config (Z.of_nat c).
Proof using Hc.
  intros [_ _ Hd _ [_ Hr] _ _] [_ _ Hb] Hfit. cbn in Hb. specialize (Hr c Hc).
  unfold data_fits in Hfit. apply Z.leb_le in Hfit. rewrite u64_small in Hfit by (unfold sizeof_display_info in *; uint_lia).
  rewrite Hd. subst addr. unfold sizeof_display_info in *. rewrite u64_small by (unfold is_u64; lia). lia.
Qed.

Lemma sp_request_effect req id fl sp :
  sp_inv config sp -> body_ok (gq_body req) -> request_effect config c req id fl sp (sp_request config c req id fl sp).
Proof using Hc.
  intros Hinv Hok. unfold sp_request. destruct (gq_body req) as [g| | | | | | | | | |] eqn:Eb.
  1: { unfold sp_display_info. destruct (data_fits _ _ _ _) eqn:Hfit.
       - destruct (display_range sp g Hinv Hok Hfit) as (_ & Hlo & Hhi & _).
         apply eff_answer. apply length_splice. lia.
       - rewrite <- (set_sp_mem_same sp) at 2. by apply eff_answer. }
  all: unfold sp_dispatch; cbn [sp_tables set_sp_ids sp_book set_sp_bk];
    rewrite <- Eb; destruct (gpu_decide config c (gq_body req) (sp_tables sp)) as [[st|b] t] eqn:Ed;
    [ exact (eff_refuse config c req id fl sp _ _)
    | pose proof (eff_pass config c req id fl sp b t
        (decide_events config c (gq_body req) (sp_tables sp)) Ed) as H;
      unfold sp_book in *; cbn [sp_bk set_sp_bk set_sp_ids set_sp_tables sp_emit set_sp_ev] in *;
      rewrite list_alter_alter_eq; exact H ].
Qed.

Lemma respond_spec s sp r (Q : Z -> gpu_virt -> Prop) :
  gpu_rel config s sp -> Z.of_nat (length (cv_resps (sp_cli sp c))) < gc_cli_capacity config (Z.of_nat c) ->
  (forall s', gpu_rel config s' (sp_respond c r sp) -> Q 0 s') ->
  wp (on_cli_h (Z.of_nat c) (gpu_enqueue_resp r)) s Q.
Proof using Hc.
  intros Hrel Hroom HQ. eapply on_cli_h_spec; [done..|]. intros k Hk.
  eapply gpu_enqueue_resp_spec; [done..|]. intros h Hh. do 2 eexists. split; [done|].
  intros s' Hs'. apply HQ. rewrite sp_respond_eq; [done|]. rewrite (gl_len_spec _ _ _ Hrel). done.
Qed.

Lemma take_req_spec s sp req rest (Q : option gpu_req -> gpu_virt -> Prop) :
  gpu_rel config s sp -> cv_reqs (sp_cli sp c) = req :: rest ->
  (forall s', gpu_rel config s' (sp_take_req c sp) -> Q (Some req) s') ->
  wp (on_cli_h (Z.of_nat c) gpu_dequeue_req) s Q.
Proof using Hc.
  intros Hrel Hreqs HQ. eapply on_cli_h_spec; [done..|]. intros k Hk.
  eapply gpu_dequeue_req_spec; [done..|]. intros h Hh. do 2 eexists. split; [done|].
  intros s' Hs'. apply HQ. rewrite sp_take_req_eq; [by rewrite Hreqs|]. rewrite (gl_len_spec _ _ _ Hrel). done.
Qed.

Lemma answer_display_info_spec s sp rid g (Q : unit -> gpu_virt -> Prop) :
  gpu_rel config s sp -> sp_inv config sp -> body_ok (GetDisplayInfo g) ->
  Z.of_nat (length (cv_resps (sp_cli sp c))) < gc_cli_capacity config (Z.of_nat c) ->
  (forall s', gpu_rel config s' (sp_display_info config c rid g sp) -> Q tt s') ->
  wp (answer_display_info config (Z.of_nat c) rid g) s Q.
Proof using Hc.
  intros Hrel Hinv Hok Hroom HQ. unfold answer_display_info, sp_display_info in *. rewrite data_misfit.
  destruct (data_fits _ _ _ _) eqn:Hfit; cbn [negb].
  - destruct (display_range sp g Hinv Hok Hfit) as (_ & Hlo & Hhi & _).
    do 2 wp_step. rewrite (gl_display _ _ _ Hrel).
    wp_step. unfold gpu_write_client. do 2 wp_step. rewrite (gl_mem _ _ _ Hrel).
    rewrite (proj2 (Z.ltb_ge _ _)), (proj2 (Z.ltb_ge _ _)) by lia. cbn [orb]. wp_step.
    wp_step. eapply (respond_spec _ (set_sp_mem _ sp)); [|exact Hroom|].
    + by rel_tac Hrel.
    + intros s' Hs'. apply wp_assert; [done|]. by apply HQ.
  - wp_step. eapply respond_spec; [done..|]. intros s' Hs'. apply wp_assert; [done|]. by apply HQ.
Qed.

Lemma sp_cli_alter f sp (X := sp_clis sp) :
  (c < length X)%nat -> alter f c X !!! c = f (sp_cli sp c).
Proof. intros Hl. rewrite alter_insert_total by done. by apply list_lookup_total_insert_eq. Qed.

Lemma sp_inv_take sp : sp_inv config sp -> sp_inv config (sp_take_req c sp).
Proof. intros []. split; try assumption. cbn. by rewrite length_alter. Qed.

Lemma respond_len r sp :
  (c < length (sp_clis sp))%nat ->
  length (cv_resps (sp_cli (sp_respond c r sp) c)) = S (length (cv_resps (sp_cli sp c))).
Proof. intros Hl. unfold sp_cli at 1. cbn. rewrite sp_cli_alter by done. cbn. rewrite length_app. cbn. lia. Qed.

(** The flags after an answer and after a request for the driver. *)
Lemma answered (a b : bool) (d d' r r' : nat) :
  d' = d -> r' = S r ->
  (a, true) = (a || negb (bool_decide (d' = d)), b || negb (bool_decide (r' = r))).
Proof.
  intros -> ->. rewrite bool_decide_true, bool_decide_false by lia. by rewrite orb_false_r, orb_true_r.
Qed.

Lemma passed (a b : bool) (d d' r r' : nat) :
  d' = S d -> r' = r ->
  (true, b) = (a || negb (bool_decide (d' = d)), b || negb (bool_decide (r' = r))).
Proof.
  intros -> ->. rewrite bool_decide_false, bool_decide_true by lia. by rewrite orb_false_r, orb_true_r.
Qed.

(** A request that is not for display info. *)
Definition other_request (req : gpu_req) (loc : bool * bool) : M (gpu_virt * (bool * bool)) unit :=
  a ← on_state (on_req_ialloc ialloc_alloc);
  match a with
  | None => raise AssertFail
  | Some drv_req_id =>
    on_state (book_request drv_req_id (Z.of_nat c) (gq_id req) (gpu_code (gq_body req)));;
    v ← on_state (gpu_dispatch config (Z.of_nat c) (gq_body req) drv_req_id);
    match v with
    | inl status =>
      err ← on_state (on_req_ialloc (ialloc_free drv_req_id));
      assert_ (err =? 0);;
      err ← on_state (on_cli_h (Z.of_nat c) (gpu_enqueue_resp (mk_gpu_resp status (gq_id req))));
      assert_ (err =? 0);;
      set_local (loc.1, true)
    | inr drv_body =>
      err ← on_state (on_drv_h (gpu_enqueue_req (mk_gpu_req drv_req_id drv_body)));
      assert_ (err =? 0);;
      set_local (true, loc.2)
    end
  end.

Lemma other_request_spec req id fl s sp loc :
  gpu_rel config s sp -> sp_inv config sp -> body_ok (gq_body req) -> (forall g, gq_body req <> GetDisplayInfo g) ->
  sp_ids sp = id :: fl -> Z.of_nat (length (sp_drvq sp)) < gc_drv_capacity config ->
  Z.of_nat (length (cv_resps (sp_cli sp c))) < gc_cli_capacity config (Z.of_nat c) ->
  let sp' := sp_request config c req id fl sp in
  wp (other_request req loc) (s, loc) (fun _ p =>
    gpu_rel config p.1 sp' /\
    p.2 = (loc.1 || negb (bool_decide (length (sp_drvq sp') = length (sp_drvq sp))),
           loc.2 || negb (bool_decide (length (cv_resps (sp_cli sp' c)) = length (cv_resps (sp_cli sp c)))))).
Proof using Hc.
  intros Hrel Hinv Hok Hother Hids Hdrv Hroom sp'.
  pose proof (si_ids _ _ Hinv) as Hnd. pose proof (si_ids_range _ _ Hinv) as Hr. rewrite Hids in Hnd, Hr.
  apply NoDup_cons in Hnd as [Hid Hnd]. apply Forall_cons in Hr as [Hidr _].
  assert (c < length (sp_clis sp))%nat as Hlen by (rewrite (si_clients _ _ Hinv); done).
  set (sp1 := sp_book id (fun bk => mk_gpu_reqbk (Z.of_nat c) (gq_id req) (gpu_code (gq_body req)) (gb_res_virt bk))
                (set_sp_ids fl sp)).
  assert (sp' = match sp_dispatch config c (gq_body req) id sp1 with
    | (inl st, sp) => sp_respond c (mk_gpu_resp st (gq_id req)) (set_sp_ids (sp_ids sp ++ [id]) sp)
    | (inr b, sp) => set_sp_drvq (sp_drvq sp ++ [mk_gpu_req id b]) sp end) as E.
  { subst sp' sp1. unfold sp_request. destruct (gq_body req); try done. by destruct (Hother r). }
  clearbody sp'. unfold other_request. do 2 wp_step. eapply alloc_req_spec; [done..|]. intros s1 Hs1. cbn iota.
  do 2 wp_step. unfold book_request. eapply book_spec; [done..|]. intros s2 Hs2.
  do 2 wp_step. eapply (dispatch_spec config c id); [done..|apply Hinv|done|]. intros s3 Hs3.
  change (gpu_rel config s2 sp1) in Hs2. fold sp1 in Hs3 |- *.
  unfold sp_dispatch in *. destruct (gpu_decide _ _ _ _) as [[st|b] t] eqn:Ed; cbn [fst snd] in *.
  - do 2 wp_step. eapply (free_req_spec _ _ _ Hs3); [done|done|]. intros s4 Hs4. wp_step. apply wp_assert; [done|].
    do 2 wp_step. eapply respond_spec; [done|exact Hroom|]. intros s5 Hs5. wp_step. apply wp_assert; [done|].
    wp_step. rewrite E. split; [done|]. apply answered; [done|]. by rewrite respond_len.
  - do 2 wp_step. eapply (on_drv_h_spec _ _ _ Hs3). intros Hh.
    eapply gpu_enqueue_req_spec; [done..|]. intros h Hh'. do 2 eexists. split; [done|]. intros s4 Hs4.
    wp_step. apply wp_assert; [done|]. wp_step. rewrite E. split; [done|].
    apply passed; [|done]. cbn. rewrite length_app. cbn. lia.
Qed.

(** The code does with a request what the specification does. *)
Lemma gpu_handle_client_body_spec s sp req rest id fl loc :
  gpu_rel config s sp -> sp_inv config sp -> body_ok (gq_body req) ->
  cv_reqs (sp_cli sp c) = req :: rest -> sp_ids sp = id :: fl ->
  Z.of_nat (length (sp_drvq sp)) < gc_drv_capacity config ->
  Z.of_nat (length (cv_resps (sp_cli sp c))) < gc_cli_capacity config (Z.of_nat c) ->
  let sp' := sp_request config c req id fl (sp_take_req c sp) in
  wp (handle_client_body config (Z.of_nat c)) (s, loc) (fun _ p =>
    gpu_rel config p.1 sp' /\
    p.2 = (loc.1 || negb (bool_decide (length (sp_drvq sp') = length (sp_drvq sp))),
           loc.2 || negb (bool_decide (length (cv_resps (sp_cli sp' c)) = length (cv_resps (sp_cli sp c)))))).
Proof using Hc.
  intros Hrel Hinv Hok Hreqs Hids Hdrv Hroom sp'.
  assert (c < length (sp_clis sp))%nat as Hlen by (rewrite (si_clients _ _ Hinv); done).
  assert (length (cv_resps (sp_cli (sp_take_req c sp) c)) = length (cv_resps (sp_cli sp c))) as Htake.
  { unfold sp_cli at 1. cbn. by rewrite sp_cli_alter. }
  unfold handle_client_body. do 4 wp_step. eapply take_req_spec; [done..|]. intros s1 Hs1. cbn iota.
  pose proof (sp_inv_take sp Hinv) as Hinv1. rewrite <- Htake in Hroom |- *. subst sp'.
  set (sp1 := sp_take_req c sp) in *. change (sp_drvq sp) with (sp_drvq sp1) in *.
  change (sp_ids sp) with (sp_ids sp1) in Hids. assert (c < length (sp_clis sp1))%nat as Hlen1 by (cbn; by rewrite length_alter).
  clearbody sp1. clear Hrel Hinv Hreqs Hlen Htake.
  assert ((forall g, gq_body req <> GetDisplayInfo g) -> _) as Hother by
    (intros Hne; exact (other_request_spec req id fl s1 sp1 loc Hs1 Hinv1 Hok Hne Hids Hdrv Hroom)).
  cbn beta zeta in Hother. unfold other_request, sp_request in Hother |- *.
  destruct (gq_body req) as [g| | | | | | | | | |] eqn:Eb; [|apply Hother; done..].
  do 2 wp_step. eapply answer_display_info_spec; [done..|]. intros s2 Hs2. wp_step. split; [done|].
  cbn [fst snd]. apply answered; [by unfold sp_display_info; case_match|].
  unfold sp_display_info; case_match; by rewrite respond_len.
Qed.
End request.

Definition grew (l l' : nat) : bool := negb (bool_decide (l' = l)).

Lemma grew_trans l l' l'' : (l <= l')%nat -> (l' <= l'')%nat -> grew l l' || grew l' l'' = grew l l''.
Proof. intros. unfold grew. repeat case_bool_decide; try done; lia. Qed.

(** ** All requests of a client *)

(** Well-behaved clients: their requests are in range, and they have no more
    requests outstanding than their queues hold. *)
Definition clients_ok (config : gpu_config) (sp : gpu_spec) : Prop :=
  forall c, (c < Z.to_nat (gc_num_clients config))%nat ->
    Forall (fun req => body_ok (gq_body req)) (cv_reqs (sp_cli sp c)) /\
    Z.of_nat (length (cv_resps (sp_cli sp c)) + length (cv_reqs (sp_cli sp c))) <= gc_cli_capacity config (Z.of_nat c).

Section serve.
Context (config : gpu_config) (c : nat).
Hypothesis (Hc : (c < Z.to_nat (gc_num_clients config))%nat).

Lemma sp_respond_other r sp c' : c' <> c -> sp_cli (sp_respond c r sp) c' = sp_cli sp c'.
Proof.
  intros Hne. unfold sp_cli, sp_respond. cbn. rewrite !list_lookup_total_alt.
  by rewrite list_lookup_alter_ne.
Qed.

Lemma sp_respond_at r sp :
  (c < length (sp_clis sp))%nat ->
  sp_cli (sp_respond c r sp) c = mk_cli_view (cv_reqs (sp_cli sp c)) (cv_resps (sp_cli sp c) ++ [r]) (cv_event (sp_cli sp c)).
Proof. intros Hl. unfold sp_cli at 1. cbn. by rewrite sp_cli_alter. Qed.

Lemma sp_take_other sp c' : c' <> c -> sp_cli (sp_take_req c sp) c' = sp_cli sp c'.
Proof.
  intros Hne. unfold sp_cli, sp_take_req. cbn. rewrite !list_lookup_total_alt.
  by rewrite list_lookup_alter_ne.
Qed.

Lemma sp_take_at sp :
  (c < length (sp_clis sp))%nat ->
  sp_cli (sp_take_req c sp) c = mk_cli_view (tail (cv_reqs (sp_cli sp c))) (cv_resps (sp_cli sp c)) (cv_event (sp_cli sp c)).
Proof. intros Hl. unfold sp_cli at 1. cbn. by rewrite sp_cli_alter. Qed.

(** What a request leaves as it was. *)
Record serves_one (sp sp' : gpu_spec) : Prop := {
  so_inv : sp_inv config sp';
  so_others : forall c', c' <> c -> sp_cli sp' c' = sp_cli sp c';
  so_event : cv_event (sp_cli sp' c) = cv_event (sp_cli sp c);
  so_reqs : exists req, cv_reqs (sp_cli sp c) = req :: cv_reqs (sp_cli sp' c);
  so_one : length (cv_resps (sp_cli sp' c)) = S (length (cv_resps (sp_cli sp c))) /\ sp_drvq sp' = sp_drvq sp
           \/ cv_resps (sp_cli sp' c) = cv_resps (sp_cli sp c) /\ length (sp_drvq sp') = S (length (sp_drvq sp));
}.

(** A request taken and answered. *)
Lemma serves_one_respond sp sp1 req rest r :
  (c < length (sp_clis sp))%nat -> sp_clis sp1 = sp_clis (sp_take_req c sp) -> sp_drvq sp1 = sp_drvq sp ->
  sp_inv config sp1 -> cv_reqs (sp_cli sp c) = req :: rest -> serves_one sp (sp_respond c r sp1).
Proof.
  intros Hl Hclis Hdrvq Hinv Er. assert (c < length (sp_clis sp1))%nat as Hl1 by (rewrite Hclis; cbn; by rewrite length_alter).
  assert (forall c', sp_cli sp1 c' = sp_cli (sp_take_req c sp) c') as Hcli by (intros; unfold sp_cli; by rewrite Hclis).
  split.
  - destruct Hinv. split; try assumption. cbn. by rewrite length_alter.
  - intros c' Hne. by rewrite sp_respond_other, Hcli, sp_take_other.
  - by rewrite sp_respond_at, Hcli, sp_take_at.
  - exists req. by rewrite sp_respond_at, Hcli, sp_take_at, Er.
  - left. rewrite sp_respond_at, Hcli, sp_take_at by done. cbn. rewrite length_app. cbn. split; [lia|done].
Qed.

Lemma sp_serve_one sp sp' :
  sp_inv config sp -> clients_ok config sp -> sp_serve config c sp = Some sp' -> serves_one sp sp'.
Proof using Hc.
  intros Hinv Hok E. unfold sp_serve in E.
  destruct (cv_reqs (sp_cli sp c)) as [|req rest] eqn:Er; [done|].
  destruct (sp_ids sp) as [|id fl] eqn:Eid; [done|]. case_match; [done|]. injection E as E.
  assert (c < length (sp_clis sp))%nat as Hl by (rewrite (si_clients _ _ Hinv); done).
  destruct (Hok c Hc) as [Hreq _]. rewrite Er in Hreq. apply Forall_cons in Hreq as [Hreq _].
  pose proof (sp_inv_take config c sp Hinv) as Hinv1.
  pose proof (sp_request_effect config c Hc req id fl _ Hinv1 Hreq) as Heff. rewrite E in Heff. clear E.
  pose proof (si_ids _ _ Hinv) as Hnd. pose proof (si_ids_range _ _ Hinv) as Hr. rewrite Eid in Hnd, Hr.
  destruct Heff as [r mem Hm|r f|b t ev Hd].
  - eapply serves_one_respond; try done. destruct Hinv1. split; try assumption. cbn. by rewrite Hm.
  - eapply serves_one_respond; try done. destruct Hinv1. split; try assumption; cbn; by rewrite Permutation_app_comm.
  - apply NoDup_cons in Hnd as [_ Hnd]. apply Forall_cons in Hr as [_ Hr].
    pose proof (sp_take_at sp Hl) as Hat. rewrite Er in Hat. split.
    + destruct Hinv1. split; try assumption; cbn.
      pose proof (gpu_decide_own_inv config c (gq_body req) _ si_own0) as Ho. by rewrite Hd in Ho.
    + apply sp_take_other.
    + change (cv_event (sp_cli (sp_take_req c sp) c) = cv_event (sp_cli sp c)). by rewrite Hat.
    + exists req. rewrite Er. change (req :: rest = req :: cv_reqs (sp_cli (sp_take_req c sp) c)). by rewrite Hat.
    + right. change (cv_resps (sp_cli (sp_take_req c sp) c) = cv_resps (sp_cli sp c) /\
                     length (sp_drvq sp ++ [mk_gpu_req id b]) = S (length (sp_drvq sp))).
      rewrite Hat. split; [done|]. rewrite length_app. cbn. lia.
Qed.

Lemma serves_one_clients_ok sp sp' : clients_ok config sp -> serves_one sp sp' -> clients_ok config sp'.
Proof.
  intros Hok [_ Ho _ [req Hr] Hone] c' Hc'. destruct (decide (c' = c)) as [->|Hne]; [|rewrite Ho by done; auto].
  destruct (Hok c Hc') as [Hf Hle]. rewrite Hr in Hf, Hle. apply Forall_cons in Hf as [_ Hf]. split; [done|].
  cbn in Hle. destruct Hone as [[Hl _]|[Hl _]]; [lia|rewrite Hl; lia].
Qed.

(** Serving all requests: other clients keep their views, responses and
    requests to the driver are only added. *)
Record served (sp sp' : gpu_spec) : Prop := {
  sv_inv : sp_inv config sp';
  sv_clients : clients_ok config sp';
  sv_others : forall c', c' <> c -> sp_cli sp' c' = sp_cli sp c';
  sv_event : cv_event (sp_cli sp' c) = cv_event (sp_cli sp c);
  sv_resps : (length (cv_resps (sp_cli sp c)) <= length (cv_resps (sp_cli sp' c)))%nat;
  sv_drvq : (length (sp_drvq sp) <= length (sp_drvq sp'))%nat;
}.

Lemma served_refl sp : sp_inv config sp -> clients_ok config sp -> served sp sp.
Proof. intros. by split. Qed.

Lemma served_one_trans sp sp' sp'' : clients_ok config sp -> serves_one sp sp' -> served sp' sp'' -> served sp sp''.
Proof.
  intros Hok [_ Ho He _ Hone] []. split; try assumption.
  - intros c' Hne. by rewrite sv_others0, Ho.
  - congruence.
  - destruct Hone as [[? _]|[Hl _]]; [lia|by rewrite <- Hl].
  - destruct Hone as [[_ <-]|[_ ?]]; lia.
Qed.

Lemma sp_serve_all_served n sp :
  sp_inv config sp -> clients_ok config sp -> served sp (sp_serve_all config n c sp).
Proof using Hc.
  revert sp. induction n as [|n IH]; intros sp Hinv Hok; cbn; [by apply served_refl|].
  destruct (sp_serve config c sp) as [sp'|] eqn:E; [|by apply served_refl].
  pose proof (sp_serve_one sp sp' Hinv Hok E) as H1. pose proof (serves_one_clients_ok sp sp' Hok H1).
  eapply served_one_trans; [done..|]. apply IH; [by destruct H1|done].
Qed.

Lemma sp_serve_all_stop n sp : sp_serve config c sp = None -> sp_serve_all config n c sp = sp.
Proof. destruct n; cbn; [done|]. by intros ->. Qed.

(** The test of the loop is the applicability of a step. *)
Lemma gpu_handle_client_more_spec s sp loc :
  gpu_rel config s sp -> handle_client_more (Z.of_nat c) (s, loc) = bool_decide (is_Some (sp_serve config c sp)).
Proof using Hc.
  intros Hrel. destruct (client_at config s sp Hrel c Hc) as (k & v & Hk & _ & Hv & Hkv).
  unfold handle_client_more, sp_serve. cbn [fst]. rewrite Nat2Z.id, Hk, Hv.
  rewrite (gpu_queue_empty_req_spec _ _ _ _ (cr_queue _ _ _ _ _ Hkv)), (al_full _ _ _ _ (gl_req_ia _ _ _ Hrel)),
    (gpu_queue_full_req_spec _ _ _ _ (gl_drv _ _ _ Hrel)).
  destruct (cv_reqs v), (sp_ids sp), (Z.of_nat (length (sp_drvq sp)) =? gc_drv_capacity config); cbn;
    (rewrite ?bool_decide_true by eauto; rewrite ?bool_decide_false by (intros [? ?]; done); done).
Qed.

Lemma gpu_handle_client_length_spec s sp loc :
  gpu_rel config s sp -> handle_client_length (Z.of_nat c) (s, loc) = length (cv_reqs (sp_cli sp c)).
Proof using Hc.
  intros Hrel. destruct (client_at config s sp Hrel c Hc) as (k & v & Hk & _ & Hv & Hkv).
  unfold handle_client_length. cbn [fst]. rewrite Nat2Z.id, Hk, Hv.
  rewrite (gpu_queue_length_req_spec _ _ _ _ (cr_queue _ _ _ _ _ Hkv)). lia.
Qed.

(** [handle_client] serves the requests of client [c] like the specification
    and reports whether the driver received one. *)
Lemma gpu_handle_client_spec s sp :
  gpu_rel config s sp -> sp_inv config sp -> clients_ok config sp ->
  wp (handle_client config (Z.of_nat c)) s (fun n s' =>
    gpu_rel config s' (sp_client config c sp) /\ n = grew (length (sp_drvq sp)) (length (sp_drvq (sp_client config c sp))) /\
    served sp (sp_client config c sp)).
Proof using Hc.
  intros Hrel Hinv Hok. unfold sp_client.
  set (len := length (cv_reqs (sp_cli sp c))). set (fin := sp_serve_all config len c sp).
  destruct (client_at config s sp Hrel c Hc) as (k & v & Hk & _ & Hv & Hkv).
  pose proof (sp_serve_all_served len sp Hinv Hok) as Hfin. fold fin in Hfin.
  unfold handle_client. do 2 wp_step. wp_step. eapply wp_lift; [by apply load_nat|]. do 2 wp_step.
  eapply (wp_loop (fun p => exists sp1, gpu_rel config p.1 sp1 /\ served sp sp1 /\
            sp_serve_all config (length (cv_reqs (sp_cli sp1 c))) c sp1 = fin /\
            p.2 = (grew (length (sp_drvq sp)) (length (sp_drvq sp1)),
                   grew (length (cv_resps (sp_cli sp c))) (length (cv_resps (sp_cli sp1 c)))))).
  - exists sp. split_and!; [done|by apply served_refl|done|]. unfold grew. by rewrite !bool_decide_true.
  - intros [s1 loc] (sp1 & Hs1 & Hsv & Hrest & Hloc) Hmore. cbn [fst snd] in *.
    rewrite (gpu_handle_client_more_spec s1 sp1) in Hmore by done. apply bool_decide_eq_true in Hmore as [sp2 E].
    pose proof (sp_serve_one sp1 sp2 (sv_inv _ _ Hsv) (sv_clients _ _ Hsv) E) as Hone.
    pose proof (served_one_trans _ _ _ (sv_clients _ _ Hsv) Hone
                  (served_refl _ (so_inv _ _ Hone) (serves_one_clients_ok _ _ (sv_clients _ _ Hsv) Hone))) as Hsv12.
    destruct (so_reqs _ _ Hone) as [req Hreqs]. rewrite Hreqs in Hrest. cbn in Hrest. rewrite E in Hrest.
    pose proof E as E'. unfold sp_serve in E'. rewrite Hreqs in E'.
    destruct (sp_ids sp1) as [|id fl] eqn:Eid; [done|].
    destruct (Z.eqb_spec (Z.of_nat (length (sp_drvq sp1))) (gc_drv_capacity config)) as [|Hroom]; [done|].
    injection E' as E'. destruct (sv_clients _ _ Hsv c Hc) as [Hbody Hle]. rewrite Hreqs in Hbody, Hle.
    apply Forall_cons in Hbody as [Hbody _]. cbn in Hle.
    pose proof (gpu_holds_bounded _ _ _ _ (gl_drv _ _ _ Hs1)) as [Hb _].
    eapply wp_mono; [by eapply (gpu_handle_client_body_spec config c Hc s1 sp1 req); [| |done|done| | |]; try apply Hsv; try lia|].
    intros [] [s2 loc2] [Hs2 Hloc2]. cbn [fst snd] in *. rewrite E' in *. split.
    + exists sp2. destruct Hsv as [? ? Hso He Hsr Hsd], Hsv12. split_and!; [done| |done|].
      * split; try assumption; [|congruence|lia..]. intros c' Hne. by rewrite sv_others0, Hso.
      * rewrite Hloc2, Hloc. cbn [fst snd]. unfold grew at 1 2. fold (grew (length (sp_drvq sp1)) (length (sp_drvq sp2))).
        f_equal; by apply grew_trans.
    + rewrite (gpu_handle_client_length_spec s2 sp2), (gpu_handle_client_length_spec s1 sp1), Hreqs by done. cbn. lia.
  - intros [s1 loc] (sp1 & Hs1 & Hsv & Hrest & Hloc) Hmore. cbn [fst snd] in *.
    rewrite (gpu_handle_client_more_spec s1 sp1) in Hmore by done. apply bool_decide_eq_false in Hmore.
    assert (sp1 = fin) as ->.
    { rewrite <- Hrest. symmetry. apply sp_serve_all_stop. by apply eq_None_not_Some. }
    subst loc. cbn [fst snd]. unfold grew at 2. rewrite (cr_ch _ _ _ _ _ Hkv).
    destruct (bool_decide (length _ = _)); cbn [negb when].
    + do 3 wp_step. done.
    + wp_step. eapply gpu_emit_spec; [done|]. intros s2 Hs2. wp_step. split_and!; [done..|].
      destruct Hfin as [[] ? ? ? ? ?]. split; [by split|done..].
Qed.

End serve.

(** ** All clients *)

Lemma seqZ_prefix_seq n i pre post :
  seqZ 0 n = pre ++ i :: post -> i = Z.of_nat (length pre) /\ (length pre < Z.to_nat n)%nat.
Proof. intros E. apply lookup_seqZ_prefix in E as [-> ?]. lia. Qed.

Definition clients_upto (config : gpu_config) (m : nat) (sp : gpu_spec) : gpu_spec :=
  fold_left (fun sp c => sp_client config c sp) (seq 0 m) sp.

Lemma clients_upto_S config m sp : clients_upto config (S m) sp = sp_client config m (clients_upto config m sp).
Proof. unfold clients_upto. rewrite seq_S, fold_left_app. done. Qed.

Lemma gpu_handle_clients_spec config s sp :
  gpu_rel config s sp -> sp_inv config sp -> clients_ok config sp ->
  wp (handle_clients config) s (fun _ s' =>
    gpu_rel config s' (sp_clients config sp) /\ sp_inv config (sp_clients config sp) /\
    clients_ok config (sp_clients config sp)).
Proof.
  intros Hrel Hinv Hok. unfold handle_clients, for_upto. wp_step. wp_step.
  apply (wp_for_each (fun pre p => let sp1 := clients_upto config (length pre) sp in
    gpu_rel config p.1 sp1 /\ sp_inv config sp1 /\ clients_ok config sp1 /\
    (length (sp_drvq sp) <= length (sp_drvq sp1))%nat /\ p.2 = grew (length (sp_drvq sp)) (length (sp_drvq sp1)))).
  - cbn. split_and!; [done..|]. unfold grew. by rewrite bool_decide_true.
  - intros pre i post [s1 b] E (Hs1 & Hi1 & Ho1 & Hle & Hb). cbn [fst snd] in *. apply seqZ_prefix_seq in E as [-> Hi].
    rewrite length_app, Nat.add_comm. cbn [Nat.add length]. rewrite clients_upto_S.
    set (sp1 := clients_upto config (length pre) sp) in *.
    do 2 wp_step. eapply wp_mono; [by eapply gpu_handle_client_spec|]. intros n s2 (Hs2 & Hn & []). cbn beta.
    rewrite Hn, Hb. set (d2 := length (sp_drvq (sp_client config (length pre) sp1))) in *.
    pose proof (grew_trans _ _ d2 Hle ltac:(done)) as Hg. fold (grew (length (sp_drvq sp1)) d2).
    destruct (grew (length (sp_drvq sp1)) d2); cbn [when]; wp_step; cbn [fst snd]; split_and!; try done; try lia.
    + rewrite orb_true_r in Hg. done.
    + rewrite orb_false_r in Hg. done.
  - intros [s1 b]. rewrite length_seqZ. intros (Hs1 & Hi1 & Ho1 & Hle & Hb). cbn [fst snd] in *.
    rewrite Hb. unfold sp_clients. fold (clients_upto config (Z.to_nat (gc_num_clients config)) sp). unfold grew.
    destruct (bool_decide _); cbn [negb when]; [by wp_step|].
    eapply gpu_emit_spec; [done|]. intros s2 Hs2. split; [done|]. split; [|done]. by destruct Hi1; split.
Qed.

(** ** No request is left that could be served *)

(** No client can be served: no identifier is free or the driver has no room. *)
Definition blocked (config : gpu_config) (sp : gpu_spec) : Prop :=
  sp_ids sp = [] \/ Z.of_nat (length (sp_drvq sp)) = gc_drv_capacity config.

Lemma sp_serve_none config c sp : sp_serve config c sp = None <-> cv_reqs (sp_cli sp c) = [] \/ blocked config sp.
Proof.
  unfold sp_serve, blocked. destruct (cv_reqs (sp_cli sp c)); [tauto|]. destruct (sp_ids sp); [tauto|].
  destruct (Z.eqb_spec (Z.of_nat (length (sp_drvq sp))) (gc_drv_capacity config)); split; try done; try tauto.
  intros [|[|]]; done.
Qed.

Lemma sp_client_blocked config c sp : blocked config sp -> sp_client config c sp = sp.
Proof.
  intros Hb. unfold sp_client. rewrite sp_serve_all_stop by (by apply sp_serve_none; right).
  by rewrite bool_decide_true.
Qed.

Section progress.
Context (config : gpu_config) (c : nat).
Hypothesis (Hc : (c < Z.to_nat (gc_num_clients config))%nat).

Lemma sp_serve_all_done m sp (sp' := sp_serve_all config m c sp) :
  sp_inv config sp -> clients_ok config sp -> (length (cv_reqs (sp_cli sp c)) <= m)%nat ->
  cv_reqs (sp_cli sp' c) = [] \/ blocked config sp'.
Proof using Hc.
  subst sp'. revert sp. induction m as [|m IH]; intros sp Hinv Hok Hm; cbn.
  - left. by apply length_zero_iff_nil; lia.
  - destruct (sp_serve config c sp) as [sp1|] eqn:E; [|by apply sp_serve_none].
    pose proof (sp_serve_one config c Hc sp sp1 Hinv Hok E) as H1. destruct (so_reqs _ _ _ _ H1) as [req Er].
    rewrite Er in Hm. cbn in Hm. apply IH; [by destruct H1|by eapply serves_one_clients_ok|lia].
Qed.

Lemma sp_client_done sp (sp' := sp_client config c sp) :
  sp_inv config sp -> clients_ok config sp -> cv_reqs (sp_cli sp' c) = [] \/ blocked config sp'.
Proof using Hc.
  intros Hinv Hok. subst sp'. unfold sp_client.
  pose proof (sp_serve_all_done _ sp Hinv Hok (le_n _)) as H. by case_bool_decide.
Qed.

Lemma sp_client_served sp : sp_inv config sp -> clients_ok config sp -> served config c sp (sp_client config c sp).
Proof using Hc.
  intros Hinv Hok. unfold sp_client. pose proof (sp_serve_all_served config c Hc (length (cv_reqs (sp_cli sp c))) sp Hinv Hok) as H.
  case_bool_decide; [done|]. destruct H as [[] ? ? ? ? ?]. split; [by split|done..].
Qed.
End progress.

Lemma sp_clients_done config sp (sp' := sp_clients config sp) :
  sp_inv config sp -> clients_ok config sp ->
  (forall c, (c < Z.to_nat (gc_num_clients config))%nat -> cv_reqs (sp_cli sp' c) = []) \/ blocked config sp'.
Proof.
  intros Hinv Hok. set (n := Z.to_nat (gc_num_clients config)) in *.
  assert (forall m, (m <= n)%nat -> let sp1 := clients_upto config m sp in
    sp_inv config sp1 /\ clients_ok config sp1 /\
    ((forall c, (c < m)%nat -> cv_reqs (sp_cli sp1 c) = []) \/ blocked config sp1)) as H.
  { induction m as [|m IH]; intros Hm; [split_and!; [done..|left; lia]|]. rewrite clients_upto_S.
    destruct IH as (Hi & Ho & Hd); [lia|]. set (sp1 := clients_upto config m sp) in *.
    pose proof (sp_client_served config m ltac:(done) sp1 Hi Ho) as Hsv. destruct Hsv as [? ? Hothers ? ? ?].
    split_and!; [done..|]. destruct Hd as [Hd|Hd]; [|right; by rewrite sp_client_blocked].
    destruct (sp_client_done config m ltac:(done) sp1 Hi Ho) as [Hm'|]; [left|by right].
    intros c Hc. destruct (decide (c = m)) as [->|]; [done|]. rewrite Hothers by done. apply Hd. lia. }
  destruct (H n ltac:(done)) as (_ & _ & Hd). subst sp'. unfold sp_clients.
  fold (clients_upto config n sp). by case_bool_decide.
Qed.
