(* ===== verification/GpuDriver.v ===== *)
(** * The GPU virtualiser: responses of the driver

    The specification of [handle_driver] on abstract states, [None] where an
    assertion or an array access of the code would fail, and the proof that the
    code does what it says. *)

From stdpp Require Import gmap.
From S2P Require Import Prelude Fifo RingQueue GpuQueue Ialloc Microkit GpuVirt GpuSpec GpuRel GpuClient.

Section spec.
Context (config : gpu_config).
Let n : nat := Z.to_nat (gc_num_clients config).

(** [ialloc_in_use], [None] where it is wrong: the last free identifier. *)
Definition sp_in_use (ids : list Z) (id : Z) : option bool :=
  if id <? 0 then None else if gc_drv_capacity config <=? id then Some false
  else if bool_decide (id ∈ ids) then if bool_decide (last ids = Some id) then None else Some false
  else Some true.

(** A failed creation: the resource must still be there. *)
Definition sp_undo (bk : gpu_reqbk) (c : nat) (sp : gpu_spec) : option gpu_spec :=
  let v := gb_res_virt bk in
  if (1 <=? v) && (v <=? GPU_MAX_RESOURCES) then
    d ← tb_owned (sp_tables sp) !! (c, v);
    Some (set_sp_tables (tb_drop c v d (sp_tables sp)) sp)
  else None.

Definition sp_settle (bk : gpu_reqbk) (c : nat) (status : gpu_resp_status) (sp : gpu_spec) : option gpu_spec :=
  let ok := bool_decide (status = GPU_RESP_OK) in
  match gb_code bk with
  | GPU_REQ_RESOURCE_CREATE_BLOB =>
    if negb (gc_blob_support config) then None else if ok then Some sp else
    sp ← sp_undo bk c sp;
    Some (set_sp_tables (tb_set_blobs (clear_column (gb_res_virt bk) (tb_blobs (sp_tables sp))) (sp_tables sp)) sp)
  | GPU_REQ_RESOURCE_CREATE_2D => if ok then Some sp else sp_undo bk c sp
  | GPU_REQ_SET_SCANOUT_BLOB => if gc_blob_support config then Some sp else None
  | GPU_REQ_RESOURCE_UNREF | GPU_REQ_RESOURCE_ATTACH_BACKING | GPU_REQ_RESOURCE_DETACH_BACKING
  | GPU_REQ_SET_SCANOUT | GPU_REQ_TRANSFER_TO_2D | GPU_REQ_RESOURCE_FLUSH => Some sp
  | GPU_REQ_GET_DISPLAY_INFO | GPU_REQ_OTHER _ => None
  end.

(** New display info is kept and announced to every client. *)
Definition sp_new_display (sp : gpu_spec) : gpu_spec :=
  let sp := sp_emit [CacheCleanAndInvalidate (gc_driver_data config)
                       (u64 (gc_driver_data config + sizeof_display_info))] sp in
  let sp := set_sp_display (take (Z.to_nat sizeof_display_info) (sp_dmem sp)) sp in
  let sp := set_sp_try false (set_sp_pending false sp) in
  set_sp_clis (map (fun v => mk_cli_view (cv_reqs v) (cv_resps v) (gpu_events_set_display_info (cv_event v)))
                 (sp_clis sp)) sp.

(** One response; the list says which clients are to be notified. *)
Definition sp_response (r : gpu_resp) (sp : gpu_spec) (notify : list bool) : option (gpu_spec * list bool) :=
  in_use ← sp_in_use (sp_ids sp) (gp_id r);
  if negb in_use then Some (sp, notify) else
  let bk := sp_bk sp !!! Z.to_nat (gp_id r) in
  let free := fun sp => set_sp_ids (sp_ids sp ++ [gp_id r]) sp in
  if bool_decide (gb_code bk = GPU_REQ_GET_DISPLAY_INFO) then
    if bool_decide (gp_status r = GPU_RESP_OK) then Some (sp_new_display (free sp), replicate n true)
    else Some (set_sp_try true (free sp), notify)
  else
    let c := Z.to_nat (gb_cli_id bk) in
    if (0 <=? gb_cli_id bk) && bool_decide (c < n)%nat then
      sp ← sp_settle bk c (gp_status r) sp;
      if Z.of_nat (length (cv_resps (sp_cli sp c))) =? gc_cli_capacity config (Z.of_nat c) then None
      else Some (sp_respond c (mk_gpu_resp (gp_status r) (gb_cli_req_id bk)) (free sp), <[c := true]> notify)
    else None.

Fixpoint sp_responses (l : list gpu_resp) (sp : gpu_spec) (notify : list bool) : option (gpu_spec * list bool) :=
  match l with
  | [] => Some (sp, notify)
  | r :: l => q ← sp_response r (set_sp_drvr l sp) notify; sp_responses l (q : gpu_spec * list bool).1 q.2
  end.

(** A request for display info, if an identifier and a place are free. *)
Definition sp_ask_display (sp : gpu_spec) : option gpu_spec :=
  match sp_ids sp with
  | id :: fl =>
    if Z.of_nat (length (sp_drvq sp)) =? gc_drv_capacity config then None
    else Some (set_sp_drvq (sp_drvq sp ++ [mk_gpu_req id (GetDisplayInfo (mk_get_display_info 0))])
                 (sp_book id (fun bk => mk_gpu_reqbk VIRTUALISER_ID id GPU_REQ_GET_DISPLAY_INFO (gb_res_virt bk))
                    (set_sp_ids fl sp)))
  | [] => None
  end.

Definition sp_retry (sp : gpu_spec) : gpu_spec :=
  if sp_try sp then
    match sp_ask_display sp with Some sp => set_sp_try false sp | None => sp end
  else sp.
Definition sp_announce (sp : gpu_spec) : gpu_spec :=
  if sp_drv_event sp && negb (sp_pending sp) then
    match sp_ask_display sp with
    | Some sp => set_sp_drv_event false (set_sp_pending true sp)
    | None => set_sp_try true sp
    end
  else sp.

Definition notifications (notify : list bool) : list event :=
  map (fun i => Notify (CLI_CH_OFFSET + i)) (filter (fun i => notify !!! Z.to_nat i = true) (seqZ 0 (gc_num_clients config))).

Definition sp_driver (sp : gpu_spec) : option gpu_spec :=
  let sp1 := sp_announce (sp_retry sp) in
  q ← sp_responses (sp_drvr sp1) sp1 (replicate n false);
  let drv := if grew (length (sp_drvq sp)) (length (sp_drvq sp1)) then [Notify DRIVER_CH] else [] in
  Some (sp_emit (drv ++ notifications (q : gpu_spec * list bool).2) q.1).

End spec.

Section proofs.
Context (config : gpu_config).
Let n : nat := Z.to_nat (gc_num_clients config).

Lemma gpu_ids_range s sp id fl :
  gpu_rel config s sp -> sp_ids sp = id :: fl -> 0 <= id < gc_drv_capacity config.
Proof.
  intros Hrel E. pose proof (al_range _ _ _ _ (gl_req_ia _ _ _ Hrel)) as H. rewrite E in H.
  apply Forall_cons in H as [? _]. lia.
Qed.

Lemma request_display_info_spec s sp (Q : bool -> gpu_virt -> Prop) :
  gpu_rel config s sp ->
  (forall sp' s', sp_ask_display config sp = Some sp' -> gpu_rel config s' sp' -> Q true s') ->
  (sp_ask_display config sp = None -> Q false s) ->
  wp request_display_info s Q.
Proof.
  intros Hrel HS HN. unfold request_display_info, sp_ask_display in *. do 2 wp_step.
  rewrite (al_full _ _ _ _ (gl_req_ia _ _ _ Hrel)), (gpu_queue_full_req_spec _ _ _ _ (gl_drv _ _ _ Hrel)).
  destruct (sp_ids sp) as [|id fl] eqn:Eid; [rewrite bool_decide_true by done; cbn [orb]; wp_step; by apply HN|].
  rewrite bool_decide_false by done. cbn [orb].
  destruct (Z.eqb_spec (Z.of_nat (length (sp_drvq sp))) (gc_drv_capacity config)) as [|Hne]; [wp_step; by apply HN|].
  pose proof (gpu_ids_range _ _ _ _ Hrel Eid) as Hid. pose proof (gpu_holds_bounded _ _ _ _ (gl_drv _ _ _ Hrel)) as [Hb _].
  wp_step. eapply alloc_req_spec; [done..|]. intros s1 Hs1. cbn iota.
  wp_step. unfold book_request. eapply book_spec; [done..|]. intros s2 Hs2.
  wp_step. eapply (on_drv_h_spec _ _ _ Hs2). intros Hh. eapply gpu_enqueue_req_spec; [done|cbn; lia|].
  intros h Hh'. do 2 eexists. split; [done|]. intros s3 Hs3. wp_step. apply wp_assert; [done|]. wp_step. by eapply HS.
Qed.

Lemma ask_display_grows sp sp' :
  sp_ask_display config sp = Some sp' -> length (sp_drvq sp') = S (length (sp_drvq sp)).
Proof.
  unfold sp_ask_display. intros E. destruct (sp_ids sp); [done|]. case_match; [done|]. injection E as <-.
  cbn. rewrite length_app. cbn. lia.
Qed.

Lemma grew_S l : grew l (S l) = true.
Proof. unfold grew. by rewrite bool_decide_false by lia. Qed.
Lemma grew_same l : grew l l = false.
Proof. unfold grew. by rewrite bool_decide_true. Qed.

Lemma sp_undo_same bk c sp sp' :
  sp_undo bk c sp = Some sp' -> exists t, sp' = set_sp_tables t sp.
Proof.
  unfold sp_undo. case_match; [|done]. destruct (_ !! _); [|done]. intros [= <-]. eauto.
Qed.

(** Settling a response changes the tables only. *)
Lemma sp_settle_same bk c status sp sp' :
  sp_settle config bk c status sp = Some sp' -> exists t, sp' = set_sp_tables t sp.
Proof.
  intros E. assert (exists t, sp = set_sp_tables t sp) as Hsame by (exists (sp_tables sp); by destruct sp).
  unfold sp_settle in E. destruct (gb_code bk); try done; try (by injection E as <-).
  - destruct (negb _); [done|]. destruct (bool_decide _); [by injection E as <-|].
    destruct (sp_undo bk c sp) as [sp2|] eqn:Eu; [|done]. apply sp_undo_same in Eu as [t ->].
    cbn in E. injection E as <-. eauto.
  - destruct (gc_blob_support config); [|done]. by injection E as <-.
  - destruct (bool_decide _); [by injection E as <-|]. by eapply sp_undo_same.
Qed.

(** The requests for display info at the start of [handle_driver]. *)
Lemma display_prelude_spec s sp (sp1 := sp_announce config (sp_retry config sp)) :
  gpu_rel config s sp ->
  wp (with_local false (retry_display_info;; event_display_info)) s (fun d s' =>
    gpu_rel config s' sp1 /\ d.2 = grew (length (sp_drvq sp)) (length (sp_drvq sp1))).
Proof.
  intros Hrel. wp_step. wp_step.
  eapply (wp_mono _ _ (fun _ p => gpu_rel config p.1 (sp_retry config sp) /\
     (length (sp_drvq sp) <= length (sp_drvq (sp_retry config sp)))%nat /\
     p.2 = grew (length (sp_drvq sp)) (length (sp_drvq (sp_retry config sp))))).
  { unfold retry_display_info, sp_retry. do 2 wp_step. cbn [fst]. rewrite (gl_try _ _ _ Hrel).
    destruct (sp_try sp); cbn [when]; [|wp_step; cbn; by rewrite grew_same].
    do 2 wp_step. eapply request_display_info_spec; [done| |].
    - intros sp2 s2 E Hs2. pose proof (ask_display_grows _ _ E) as Hg. rewrite E. cbn [when]. do 4 wp_step.
      cbn [fst snd sp_drvq set_sp_try]. rewrite Hg, grew_S. split_and!; [by rel_tac Hs2|lia|done].
    - intros E. rewrite E. cbn [when]. wp_step. cbn. by rewrite grew_same. }
  intros [] [s1 d1] (Hs1 & Hle & Hd1). cbn [fst snd] in *. subst sp1.
  set (sp1 := sp_retry config sp) in *. clearbody sp1. unfold event_display_info, sp_announce.
  do 2 wp_step. cbn [fst]. rewrite (gl_drv_event _ _ _ Hs1), (gl_pending _ _ _ Hs1).
  unfold gpu_events_check_display_info.
  destruct (sp_drv_event sp1 && negb (sp_pending sp1)); cbn [when]; [|wp_step; done].
  do 2 wp_step. eapply request_display_info_spec; [done| |].
  - intros sp2 s2 E Hs2. pose proof (ask_display_grows _ _ E) as Hg. rewrite E. do 6 wp_step.
    cbn [fst snd sp_drvq set_sp_pending set_sp_drv_event]. split; [by rel_tac Hs2|].
    unfold grew. by rewrite bool_decide_false by lia.
  - intros E. rewrite E. do 2 wp_step. cbn. split; [by rel_tac Hs1|done].
Qed.

(** ** One response *)

Lemma sp_settle_spec bk c status s sp sp' (Q : unit -> gpu_virt -> Prop) :
  (c < n)%nat -> gb_cli_id bk = Z.of_nat c -> gpu_rel config s sp -> own_inv (sp_tables sp) ->
  sp_settle config bk c status sp = Some sp' ->
  (forall s', gpu_rel config s' sp' -> Q tt s') -> wp (settle config bk status) s Q.
Proof.
  intros Hc Hcli Hrel Hown E HQ.
  assert (forall sp2 (Q' : unit -> gpu_virt -> Prop), sp_undo bk c sp = Some sp2 ->
    (forall s', 0 <= gb_res_virt bk <= GPU_MAX_RESOURCES -> gpu_rel config s' sp2 -> Q' tt s') -> wp (undo_create bk) s Q') as Hundo.
  { intros sp2 Q' Eu HQ'. unfold sp_undo in Eu.
    destruct (_ && _) eqn:Er; [|done]. apply andb_true_iff in Er as [H1%Z.leb_le H2%Z.leb_le].
    destruct (tb_owned _ !! _) as [d|] eqn:Eo; [|done]. cbn in Eu. injection Eu as <-.
    destruct (oi_range _ Hown _ _ Eo) as [Hd Hfree]. unfold undo_create. rewrite Hcli.
    wp_step. eapply res_map_spec; [done..|]. rewrite Eo. cbn [from_option Datatypes.id].
    wp_step. eapply free_res_spec; [done..|]. intros s1 Hs1. wp_step. apply wp_assert; [done|].
    eapply (set_res_map_spec _ _ _ Hs1 c _ _ (delete (c, gb_res_virt bk) (tb_owned (sp_tables sp)))); [done..| | |].
    - by rewrite lookup_delete_eq.
    - intros k Hk. by rewrite lookup_delete_ne.
    - intros s2 Hs2. apply HQ'; [lia|done]. }
  unfold settle, sp_settle in *. destruct (gb_code bk); try done; try (injection E as <-; wp_step; by apply HQ).
  - destruct (gc_blob_support config); [|done]. cbn [negb] in E.
    destruct (bool_decide (status = GPU_RESP_OK)); cbn [negb when]; [injection E as <-; wp_step; by apply HQ|].
    destruct (sp_undo bk c sp) as [sp2|] eqn:Eu; [|done]. cbn in E. injection E as <-.
    wp_step. eapply Hundo; [done|]. intros s1 Hr Hs1. by eapply clear_column_spec.
  - destruct (gc_blob_support config); [|done]. injection E as <-. wp_step. by apply HQ.
  - destruct (bool_decide (status = GPU_RESP_OK)); cbn [negb when]; [injection E as <-; wp_step; by apply HQ|].
    eapply Hundo; [done|]. intros s1 _ Hs1. by apply HQ.
Qed.

Lemma set_event_spec c s sp (v := sp_cli sp c) (Q : unit -> gpu_virt -> Prop) :
  (c < n)%nat -> gpu_rel config s sp ->
  (forall s', gpu_rel config s' (set_sp_clis (<[c := mk_cli_view (cv_reqs v) (cv_resps v) true]> (sp_clis sp)) sp) -> Q tt s') ->
  wp (on_client (Z.of_nat c) (modify (fun c => set_gcl_event (gpu_events_set_display_info (gcl_event c)) c))) s Q.
Proof.
  intros Hc Hrel HQ. destruct (client_at config s sp Hrel c Hc) as (k & w & Hk & Hw & Hv & Hkv).
  unfold on_client. eapply wp_zoom_nth; [lia|by rewrite Nat2Z.id|]. rewrite Nat2Z.id. wp_step. apply HQ.
  pose proof (rel_client config s sp Hrel c (set_gcl_event true k) (mk_cli_view (cv_reqs w) (cv_resps w) true) _ Hc
                (fun _ _ _ => eq_refl)) as H.
  cbn beta zeta in H. rewrite (set_tables_same (set_sp_clis _ sp)) in H. subst v. rewrite Hv. apply H.
  by destruct Hkv.
Qed.

Lemma map_prefix_insert {A} (f : A -> A) l m x :
  l !! m = Some x -> <[m := f x]> (map f (take m l) ++ drop m l) = map f (take (S m) l) ++ drop (S m) l.
Proof.
  intros Hx. pose proof (lookup_lt_Some _ _ _ Hx). rewrite (drop_S l x m Hx), (take_S_r l m x Hx), map_app, <- app_assoc.
  cbn [map app]. rewrite insert_app_r_alt by (rewrite length_map, length_take; lia).
  rewrite length_map, length_take. by replace (m - _)%nat with 0%nat by lia.
Qed.

Lemma announce_all_spec s sp notify (Q : unit -> gpu_virt * list bool -> Prop) :
  gpu_rel config s sp -> length notify = n ->
  (forall s', gpu_rel config s' (set_sp_clis (map (fun v => mk_cli_view (cv_reqs v) (cv_resps v)
                 (gpu_events_set_display_info (cv_event v))) (sp_clis sp)) sp) -> Q tt (s', replicate n true)) ->
  wp (for_upto (gc_num_clients config) (fun i =>
      on_state (on_client i (modify (fun c => set_gcl_event (gpu_events_set_display_info (gcl_event c)) c)));;
      p ← get;
      l ← lift (store p.2 i true);
      set_local l)) (s, notify) Q.
Proof.
  intros Hrel Hnot HQ. set (f := fun v => mk_cli_view (cv_reqs v) (cv_resps v) (gpu_events_set_display_info (cv_event v))) in *.
  pose proof (gl_len_spec _ _ _ Hrel) as Hlen. fold n in Hlen.
  apply (wp_for_each (fun pre p =>
    gpu_rel config p.1 (set_sp_clis (map f (take (length pre) (sp_clis sp)) ++ drop (length pre) (sp_clis sp)) sp) /\
    p.2 = map (fun _ => true) (take (length pre) notify) ++ drop (length pre) notify)).
  - cbn. split; [by destruct sp|done].
  - intros pre i post [s1 l1] E [Hs1 Hl1]. cbn [fst snd] in *. apply seqZ_prefix_seq in E as [-> Hi].
    set (m := length pre) in *. rewrite length_app, Nat.add_comm. cbn [Nat.add length]. fold m.
    destruct (lookup_lt_is_Some_2 (sp_clis sp) m) as [v Hv]; [rewrite Hlen; done|].
    destruct (lookup_lt_is_Some_2 notify m) as [b Hb]; [rewrite Hnot; done|].
    do 2 wp_step. eapply set_event_spec; [done|exact Hs1|]. intros s2 Hs2. do 2 wp_step. cbn [snd].
    wp_step. eapply wp_lift; [apply store_nat; rewrite Hl1, length_app, length_map, length_take, length_drop, Hnot; unfold n; lia|].
    wp_step. cbn [fst snd]. split.
    + revert Hs2. rewrite <- (map_prefix_insert f _ _ v Hv).
      assert (sp_cli (set_sp_clis (map f (take m (sp_clis sp)) ++ drop m (sp_clis sp)) sp) m = v) as ->; [|done].
      unfold sp_cli. cbn. apply list_lookup_total_correct.
      rewrite lookup_app_r by (rewrite length_map, length_take; lia). rewrite length_map, length_take, lookup_drop.
      rewrite <- Hv. f_equal. lia.
    + rewrite Hl1. by apply (map_prefix_insert (fun _ => true) notify m b).
  - intros [s1 l1]. rewrite length_seqZ. fold n. cbn [fst snd]. rewrite <- Hlen at 1 2. rewrite firstn_all, drop_all, app_nil_r.
    rewrite <- Hnot. rewrite firstn_all, drop_all, app_nil_r.
    intros [Hs1 ->]. replace (map (fun _ : bool => true) notify) with (replicate n true); [by apply HQ|].
    rewrite <- Hnot. clear. induction notify; cbn; congruence.
Qed.

Lemma in_use_spec s sp id b :
  gpu_rel config s sp -> sp_in_use config (sp_ids sp) id = Some b ->
  ialloc_in_use (gv_req_ialloc s) id = Ok b /\ (b = true -> 0 <= id < gc_drv_capacity config /\ id ∉ sp_ids sp).
Proof.
  intros Hrel E. pose proof (gl_req_ia _ _ _ Hrel) as Hal. unfold sp_in_use in E.
  destruct (Z.ltb_spec id 0); [done|]. destruct (Z.leb_spec (gc_drv_capacity config) id).
  { injection E as <-. split; [|done]. eapply al_not_in_use; [done|]. left. lia. }
  destruct (bool_decide (id ∈ sp_ids sp)) eqn:Ei.
  - apply bool_decide_eq_true in Ei. destruct (bool_decide _) eqn:El; [done|]. injection E as <-.
    apply bool_decide_eq_false in El. split; [|done]. eapply al_not_in_use; [done|]. by right.
  - apply bool_decide_eq_false in Ei. injection E as <-. split; [|done]. eapply al_in_use; [done|lia|done].
Qed.

Lemma new_display_spec s sp r notify (Q : unit -> gpu_virt * list bool -> Prop)
  (free := set_sp_ids (sp_ids sp ++ [gp_id r]) sp) :
  gpu_rel config s sp -> sp_inv config sp -> length notify = n ->
  0 <= gp_id r < gc_drv_capacity config -> gp_id r ∉ sp_ids sp ->
  (forall s', gpu_rel config s' (if bool_decide (gp_status r = GPU_RESP_OK) then sp_new_display config free
                                 else set_sp_try true free) ->
     Q tt (s', if bool_decide (gp_status r = GPU_RESP_OK) then replicate n true else notify)) ->
  wp (display_info_response config r) (s, notify) Q.
Proof.
  intros Hrel Hinv Hnot Hid Hfree HQ. unfold display_info_response.
  do 2 wp_step. eapply free_req_spec; [done..|]. intros s1 Hs1. wp_step. apply wp_assert; [done|].
  destruct (bool_decide _); [|do 2 wp_step; apply HQ; by rel_tac Hs1].
  do 3 wp_step. eapply gpu_emit_spec; [exact Hs1|]. intros s2 Hs2.
  wp_step. unfold copy_display_info. do 2 wp_step. rewrite (gl_dmem _ _ _ Hs2).
  pose proof (si_dmem _ _ Hinv) as Hd. cbn [sp_emit sp_dmem set_sp_ev set_sp_ids].
  rewrite (proj2 (Z.ltb_ge _ _)) by done. do 4 wp_step.
  match goal with |- wp _ (?s3, _) _ => assert (gpu_rel config s3 (set_sp_try false (set_sp_pending false
    (set_sp_display (take (Z.to_nat sizeof_display_info) (sp_dmem sp)) (sp_emit [CacheCleanAndInvalidate (gc_driver_data config)
                       (u64 (gc_driver_data config + sizeof_display_info))] free))))) as Hs3 by (by rel_tac Hs2) end.
  eapply announce_all_spec; [exact Hs3|done|]. intros s4 Hs4. by apply HQ.
Qed.

Lemma gpu_handle_driver_body_spec s sp r l notify q :
  gpu_rel config s sp -> sp_inv config sp -> length notify = n -> sp_drvr sp = r :: l ->
  sp_response config r (set_sp_drvr l sp) notify = Some q ->
  wp (handle_driver_body config) (s, notify) (fun _ p => gpu_rel config p.1 q.1 /\ p.2 = q.2).
Proof.
  intros Hrel Hinv Hnot Hr E. unfold handle_driver_body.
  do 2 wp_step. eapply (on_drv_h_spec _ _ _ Hrel). intros Hh. eapply gpu_dequeue_resp_spec; [done..|].
  intros h Hh'. do 2 eexists. split; [done|]. intros s1 Hs1. cbn iota.
  change (gpu_rel config s1 (set_sp_drvr l sp)) in Hs1. set (sp1 := set_sp_drvr l sp) in *.
  assert (sp_inv config sp1) as Hinv1 by (by destruct Hinv; split). clearbody sp1. clear Hrel Hinv Hr Hh Hh'.
  unfold sp_response in E. destruct (sp_in_use config (sp_ids sp1) (gp_id r)) as [b|] eqn:Eb; [|done]. cbn in E.
  destruct (in_use_spec _ _ _ _ Hs1 Eb) as [Hb Hid].
  do 2 wp_step. wp_step. cbn [fst]. eapply wp_lift; [exact Hb|].
  destruct b; cbn [negb] in *; [|injection E as <-; by wp_step]. destruct (Hid eq_refl) as [Hid1 Hid2].
  wp_step. rewrite (gl_bk _ _ _ Hs1). set (bk := sp_bk sp1 !!! Z.to_nat (gp_id r)) in *.
  eapply wp_lift.
  { apply load_ok; [lia|]. apply (lookup_total_in _ (gc_drv_capacity config)); [|done]. by eapply gl_bk_len. }
  fold bk. destruct (bool_decide (gb_code bk = _)).
  { eapply new_display_spec; [done..|]. intros s2 Hs2. destruct (bool_decide _); by injection E as <-. }
  destruct (_ && _) eqn:Ec in E; [|done]. apply andb_true_iff in Ec as [Ec1%Z.leb_le Ec2%bool_decide_eq_true].
  set (c := Z.to_nat (gb_cli_id bk)) in *. assert (gb_cli_id bk = Z.of_nat c) as Hcli by (subst c; lia).
  destruct (sp_settle _ _ _ _ _) as [sp2|] eqn:Es; [|done]. cbn in E.
  destruct (Z.eqb_spec (Z.of_nat (length (cv_resps (sp_cli sp2 c)))) (gc_cli_capacity config (Z.of_nat c))) as [|Hroom]; [done|].
  injection E as <-. do 2 wp_step. eapply sp_settle_spec; [done..|apply Hinv1|done|]. intros s2 Hs2.
  assert (sp_ids sp2 = sp_ids sp1) as Eids by (by apply sp_settle_same in Es as [t ->]).
  do 2 wp_step. eapply free_req_spec; [exact Hs2|done|by rewrite Eids|]. intros s3 Hs3. wp_step. apply wp_assert; [done|].
  rewrite Hcli. destruct (client_at config s2 sp2 Hs2 c Ec2) as (k & v & _ & _ & Hv & Hkv).
  pose proof (gpu_holds_bounded _ _ _ _ (cr_queue _ _ _ _ _ Hkv)) as [_ Hbd]. rewrite <- Hv in Hbd.
  do 2 wp_step. eapply respond_spec; [exact Ec2|exact Hs3|cbn; unfold sp_cli in *; cbn; lia|]. intros s4 Hs4.
  wp_step. apply wp_assert; [done|].
  wp_step. cbn [snd]. eapply wp_lift; [apply store_nat; by rewrite Hnot|]. by wp_step.
Qed.

Lemma sp_settle_own bk c status sp sp' :
  own_inv (sp_tables sp) -> sp_settle config bk c status sp = Some sp' -> own_inv (sp_tables sp').
Proof.
  intros Hown E.
  assert (forall sp2, sp_undo bk c sp = Some sp2 -> own_inv (sp_tables sp2)) as Hundo.
  { intros sp2 Eu. unfold sp_undo in Eu. destruct (_ && _); [|done].
    destruct (tb_owned _ !! _) eqn:Eo; [|done]. injection Eu as <-. by apply own_inv_drop. }
  unfold sp_settle in E. destruct (gb_code bk); try done; try (by injection E as <-).
  - destruct (negb _); [done|]. destruct (bool_decide _); [by injection E as <-|].
    destruct (sp_undo bk c sp) as [sp2|]; [|done]. injection E as <-. apply (own_inv_tables (sp_tables sp2)); auto.
  - destruct (gc_blob_support config); [|done]. by injection E as <-.
  - destruct (bool_decide _); [by injection E as <-|]. by apply Hundo.
Qed.

(** What a response keeps. *)
Lemma sp_response_inv r sp notify q :
  sp_inv config sp -> length notify = n -> sp_response config r sp notify = Some q ->
  sp_inv config q.1 /\ length q.2 = n /\ sp_drvr q.1 = sp_drvr sp.
Proof.
  intros Hinv Hnot E. unfold sp_response in E.
  destruct (sp_in_use config (sp_ids sp) (gp_id r)) as [b|] eqn:Eb; [|done]. cbn in E.
  destruct b; cbn [negb] in E; [|by injection E as <-].
  assert (0 <= gp_id r < gc_drv_capacity config /\ gp_id r ∉ sp_ids sp) as [Hid Hfree].
  { unfold sp_in_use in Eb. destruct (Z.ltb_spec (gp_id r) 0); [done|].
    destruct (Z.leb_spec (gc_drv_capacity config) (gp_id r)); [done|]. repeat case_bool_decide; try done. }
  pose proof (si_own _ _ Hinv) as Hown0. destruct Hinv. assert (NoDup (sp_ids sp ++ [gp_id r])) as Hnd.
  { apply NoDup_app. split_and!; [done|set_solver|apply NoDup_singleton]. }
  assert (Forall (fun id => 0 <= id < gc_drv_capacity config) (sp_ids sp ++ [gp_id r])) as Hr.
  { apply Forall_app. split; [done|]. by apply Forall_singleton. }
  destruct (bool_decide _).
  - destruct (bool_decide _); injection E as <-; cbn [fst snd]; split_and!; try done; try by split.
    + split; try done; cbn; [by rewrite length_map|]. rewrite length_take. unfold sizeof_display_info in *. lia.
    + by rewrite length_replicate.
  - destruct (_ && _); [|done]. destruct (sp_settle _ _ _ _ _) as [sp2|] eqn:Es; [|done]. cbn in E.
    pose proof (sp_settle_own _ _ _ _ _ Hown0 Es) as Hown. apply sp_settle_same in Es as [t ->].
    destruct (_ =? _); [done|]. injection E as <-. cbn [fst snd]. split_and!; [|by rewrite length_insert|done].
    split; try done. cbn. by rewrite length_alter.
Qed.

Lemma sp_response_drvq r sp notify q :
  sp_response config r sp notify = Some q -> sp_drvq q.1 = sp_drvq sp.
Proof.
  intros E. unfold sp_response in E. destruct (sp_in_use _ _ _) as [b|]; [|done]. cbn in E.
  destruct b; cbn [negb] in E; [|by injection E as <-]. destruct (bool_decide _).
  - destruct (bool_decide _); by injection E as <-.
  - destruct (_ && _); [|done]. destruct (sp_settle _ _ _ _ _) as [sp2|] eqn:Es; [|done]. cbn in E.
    apply sp_settle_same in Es as [t ->]. destruct (_ =? _); [done|]. by injection E as <-.
Qed.

(** ** The handler *)

Lemma notifications_spec s sp notify (Q : unit -> gpu_virt -> Prop) :
  gpu_rel config s sp -> length notify = n ->
  (forall s', gpu_rel config s' (sp_emit (notifications config notify) sp) -> Q tt s') ->
  wp (for_upto (gc_num_clients config) (fun i =>
    b ← lift (load notify i);
    when b (s ← get;
            c ← lift (load (gv_clients s) i);
            gpu_emit (Notify (gcl_ch c))))) s Q.
Proof.
  intros Hrel Hnot HQ.
  set (ev := fun l : list Z => map (fun i => Notify (CLI_CH_OFFSET + i)) (filter (fun i => notify !!! Z.to_nat i = true) l)).
  apply (wp_for_each (fun pre s' => gpu_rel config s' (sp_emit (ev pre) sp))).
  - unfold ev. cbn. by rewrite sp_emit_nil.
  - intros pre i post s1 E Hs1. apply seqZ_prefix_seq in E as [-> Hi]. set (m := length pre) in *.
    destruct (lookup_lt_is_Some_2 notify m) as [b Hb]; [rewrite Hnot; done|].
    wp_step. eapply wp_lift; [by apply load_nat|].
    assert (ev (pre ++ [Z.of_nat m]) = ev pre ++ if b then [Notify (CLI_CH_OFFSET + Z.of_nat m)] else []) as Hev.
    { unfold ev. rewrite filter_app, map_app. f_equal. cbn. rewrite Nat2Z.id, (list_lookup_total_correct _ _ _ Hb).
      destruct b; [by rewrite decide_True|by rewrite decide_False]. }
    rewrite Hev. destruct b; cbn [when].
    + destruct (client_at config s1 _ Hs1 m Hi) as (k & w & Hk & _ & _ & Hkv).
      do 2 wp_step. wp_step. eapply wp_lift; [by apply load_nat|]. rewrite (cr_ch _ _ _ _ _ Hkv).
      eapply gpu_emit_spec; [exact Hs1|]. intros s2. unfold sp_emit. cbn. by rewrite <- app_assoc.
    + wp_step. by rewrite app_nil_r.
  - intros s1 Hs1. apply HQ. exact Hs1.
Qed.

Lemma sp_ask_display_inv sp sp' :
  sp_inv config sp -> sp_ask_display config sp = Some sp' -> sp_inv config sp' /\ sp_drvr sp' = sp_drvr sp.
Proof.
  intros [] E. unfold sp_ask_display in E. destruct (sp_ids sp) as [|id fl]; [done|]. case_match; [done|].
  injection E as <-. apply NoDup_cons in si_ids as [_ ?]. apply Forall_cons in si_ids_range as [_ ?]. by split; [split|].
Qed.

Lemma sp_prelude_inv sp (sp1 := sp_announce config (sp_retry config sp)) :
  sp_inv config sp -> sp_inv config sp1 /\ sp_drvr sp1 = sp_drvr sp.
Proof.
  intros Hinv. assert (sp_inv config (sp_retry config sp) /\ sp_drvr (sp_retry config sp) = sp_drvr sp) as [Hinv1 Hd].
  { unfold sp_retry. destruct (sp_try sp); [|done]. destruct (sp_ask_display config sp) as [sp2|] eqn:E; [|done].
    destruct (sp_ask_display_inv _ _ Hinv E) as [[] ?]. by split; [split|]. }
  subst sp1. set (sp1 := sp_retry config sp) in *. rewrite <- Hd. clearbody sp1. unfold sp_announce.
  destruct (_ && _); [|done]. destruct (sp_ask_display config sp1) as [sp2|] eqn:E.
  - destruct (sp_ask_display_inv _ _ Hinv1 E) as [[] ?]. by split; [split|].
  - destruct Hinv1. by split; [split|].
Qed.

Lemma drv_resps_more_spec s sp l :
  gpu_rel config s sp -> drv_resps_more (s, l) = negb (bool_decide (sp_drvr sp = [])).
Proof. intros Hrel. unfold drv_resps_more. cbn [fst]. by rewrite (gpu_queue_empty_resp_spec _ _ _ _ (gl_drv _ _ _ Hrel)). Qed.

Lemma drv_resps_length_spec s sp l : gpu_rel config s sp -> drv_resps_length (s, l) = length (sp_drvr sp).
Proof.
  intros Hrel. unfold drv_resps_length. cbn [fst]. rewrite (gpu_queue_length_resp_spec _ _ _ _ (gl_drv _ _ _ Hrel)). lia.
Qed.

Lemma driver_loop_spec s sp notify q :
  gpu_rel config s sp -> sp_inv config sp -> length notify = n ->
  sp_responses config (sp_drvr sp) sp notify = Some q ->
  wp (loop drv_resps_length drv_resps_more (handle_driver_body config)) (s, notify) (fun _ p =>
    gpu_rel config p.1 q.1 /\ p.2 = q.2 /\ length q.2 = n /\ sp_inv config q.1 /\ sp_drvr q.1 = []).
Proof.
  intros Hrel Hinv Hnot E.
  apply (wp_loop (fun p => exists sp1, gpu_rel config p.1 sp1 /\ sp_inv config sp1 /\ length p.2 = n /\
           sp_responses config (sp_drvr sp1) sp1 p.2 = Some q)).
  - by exists sp.
  - intros [s1 l1] (sp1 & Hs1 & Hinv1 & Hl1 & E1) Hmore. cbn [fst snd] in *.
    rewrite (drv_resps_more_spec s1 sp1) in Hmore by done.
    destruct (sp_drvr sp1) as [|r l] eqn:Er; [done|]. cbn [sp_responses] in E1.
    destruct (sp_response config r (set_sp_drvr l sp1) l1) as [q1|] eqn:Eq; [|done]. cbn in E1.
    assert (sp_inv config (set_sp_drvr l sp1)) as Hinv1' by (by destruct Hinv1; split).
    destruct (sp_response_inv _ _ _ _ Hinv1' Hl1 Eq) as (Hinv2 & Hl2 & Hd2). cbn in Hd2.
    eapply wp_mono; [by eapply gpu_handle_driver_body_spec|]. intros [] [s2 l2] [Hs2 Hl]. cbn [fst snd] in *. subst l2. split.
    + exists q1.1. rewrite Hd2. done.
    + rewrite (drv_resps_length_spec s2 q1.1), (drv_resps_length_spec s1 sp1), Hd2, Er by done. cbn. lia.
  - intros [s1 l1] (sp1 & Hs1 & Hinv1 & Hl1 & E1) Hmore. cbn [fst snd] in *.
    rewrite (drv_resps_more_spec s1 sp1) in Hmore by done.
    destruct (sp_drvr sp1) as [|r l] eqn:Er; [|done]. injection E1 as <-. done.
Qed.

Lemma gpu_handle_driver_spec s sp sp' :
  gpu_rel config s sp -> sp_inv config sp -> sp_driver config sp = Some sp' ->
  wp (handle_driver config) s (fun _ s' => gpu_rel config s' sp' /\ sp_inv config sp' /\ sp_drvr sp' = []).
Proof.
  intros Hrel Hinv E. unfold sp_driver in E. destruct (sp_prelude_inv sp Hinv) as [Hinv1 _].
  set (sp1 := sp_announce config (sp_retry config sp)) in *.
  destruct (sp_responses config (sp_drvr sp1) sp1 _) as [q|] eqn:Eq; [|done]. cbn in E. injection E as <-.
  unfold handle_driver. wp_step. eapply wp_mono; [by apply display_prelude_spec|]. intros d s1 [Hs1 Hd].
  do 2 wp_step. eapply wp_mono; [eapply driver_loop_spec; [done|done|by apply length_replicate|done]|].
  intros [] [s2 l2] (Hs2 & Hl2 & Hlen & Hinv2 & Hdr). cbn [fst snd] in *. subst l2. rewrite Hd. fold sp1.
  assert (forall evs, sp_inv config (sp_emit evs q.1)) as Hemit by (by destruct Hinv2; split).
  wp_step. destruct (grew _ _); cbn [when].
  - eapply gpu_emit_spec; [exact Hs2|]. intros s3 Hs3. eapply notifications_spec; [exact Hs3|done|]. intros s4 Hs4.
    split; [|done]. revert Hs4. unfold sp_emit. cbn. by rewrite <- app_assoc.
  - wp_step. eapply notifications_spec; [exact Hs2|done|]. intros s4 Hs4. done.
Qed.

End proofs.
