(* ===== verification/GpuFlight.v ===== *)
(** * The GPU virtualiser: requests in flight

    An invariant of the abstract state and the list of identifiers in flight,
    and that serving clients, asking for display info and taking responses keep
    it.  It contains what clients promise: identifiers in range, no more
    requests outstanding than their queue has room for, and no request to
    destroy a resource whose creation is still under way. *)

From stdpp Require Import gmap.
From S2P Require Import Prelude Fifo RingQueue GpuQueue Ialloc Microkit GpuVirt GpuSpec GpuRel GpuClient GpuDriver.

Definition is_create (code : gpu_req_code) : bool :=
  match code with GPU_REQ_RESOURCE_CREATE_BLOB | GPU_REQ_RESOURCE_CREATE_2D => true | _ => false end.

Definition bk_of (sp : gpu_spec) (id : Z) : gpu_reqbk := sp_bk sp !!! Z.to_nat id.

(** The creation of resource [v] of client [c] is bookkept under [id]. *)
Definition creating (sp : gpu_spec) (id : Z) (c : nat) (v : Z) : Prop :=
  is_create (gb_code (bk_of sp id)) = true /\ gb_cli_id (bk_of sp id) = Z.of_nat c /\ gb_res_virt (bk_of sp id) = v.

(** The identifiers of [fs] under which client [c] waits for a response. *)
Definition owes (sp : gpu_spec) (c : nat) (id : Z) : Prop :=
  gb_code (bk_of sp id) <> GPU_REQ_GET_DISPLAY_INFO /\ gb_cli_id (bk_of sp id) = Z.of_nat c.
#[export] Instance owes_dec sp c id : Decision (owes sp c id).
Proof. unfold owes. apply _. Defined.
Definition owed (sp : gpu_spec) (fs : list Z) (c : nat) : nat := length (filter (owes sp c) fs).

Definition req_creates (req : gpu_req) (v : Z) : Prop :=
  is_create (gpu_code (gq_body req)) = true /\ body_resource (gq_body req) = v.
Definition req_unrefs (req : gpu_req) (v : Z) : Prop :=
  gpu_code (gq_body req) = GPU_REQ_RESOURCE_UNREF /\ body_resource (gq_body req) = v.

(** Client [c] destroys no resource whose creation is queued before or in
    flight. *)
Definition waits (sp : gpu_spec) (fs : list Z) (c : nat) : Prop :=
  forall pre req post v, cv_reqs (sp_cli sp c) = pre ++ req :: post -> req_unrefs req v ->
    (forall r, r ∈ pre -> ~ req_creates r v) /\ (forall id, id ∈ fs -> ~ creating sp id c v).

Section inv.
Context (config : gpu_config).
Let n : nat := Z.to_nat (gc_num_clients config).

Definition code_ok (code : gpu_req_code) : Prop :=
  match code with
  | GPU_REQ_GET_DISPLAY_INFO | GPU_REQ_OTHER _ => False
  | GPU_REQ_RESOURCE_CREATE_BLOB | GPU_REQ_SET_SCANOUT_BLOB => gc_blob_support config = true
  | _ => True
  end.

Record client_ok (sp : gpu_spec) (fs : list Z) (c : nat) : Prop := {
  ck_bodies : Forall (fun req => body_ok (gq_body req)) (cv_reqs (sp_cli sp c));
  ck_credit : Z.of_nat (length (cv_resps (sp_cli sp c)) + length (cv_reqs (sp_cli sp c)) + owed sp fs c)
              <= gc_cli_capacity config (Z.of_nat c);
  ck_waits : waits sp fs c;
}.

Record flight_inv (sp : gpu_spec) (fs : list Z) : Prop := {
  fi_inv : sp_inv config sp;
  fi_bk_len : length (sp_bk sp) = Z.to_nat (gc_drv_capacity config);
  fi_perm : sp_ids sp ++ fs ≡ₚ seqZ 0 (gc_drv_capacity config);
  fi_bk : forall id, id ∈ fs -> gb_code (bk_of sp id) <> GPU_REQ_GET_DISPLAY_INFO ->
            exists c, (c < n)%nat /\ gb_cli_id (bk_of sp id) = Z.of_nat c /\ code_ok (gb_code (bk_of sp id));
  fi_live : forall id c v, id ∈ fs -> creating sp id c v ->
              1 <= v <= GPU_MAX_RESOURCES /\ is_Some (tb_owned (sp_tables sp) !! (c, v));
  fi_inj : forall id id' c v, id ∈ fs -> id' ∈ fs -> creating sp id c v -> creating sp id' c v -> id = id';
  fi_clients : forall c, (c < n)%nat -> client_ok sp fs c;
}.

Lemma flight_inv_clients_ok sp fs : flight_inv sp fs -> clients_ok config sp.
Proof. intros [] c Hc. destruct (fi_clients0 c Hc). split; [done|lia]. Qed.

Lemma flight_inv_perm sp fs fs' : fs ≡ₚ fs' -> flight_inv sp fs -> flight_inv sp fs'.
Proof.
  intros Hp []. split; try done.
  - by rewrite <- Hp.
  - intros id. rewrite <- Hp. auto.
  - intros id c v. rewrite <- Hp. eauto.
  - intros id id' c v. rewrite <- Hp. eauto.
  - intros c Hc. destruct (fi_clients0 c Hc) as [? ? Hw]. split; [done| |].
    + unfold owed. by rewrite <- Hp.
    + intros pre req post v E Hu. destruct (Hw _ _ _ _ E Hu). split; [done|]. intros id. rewrite <- Hp. auto.
Qed.

(** A free identifier is not in flight. *)
Lemma flight_fresh sp fs id fl : flight_inv sp fs -> sp_ids sp = id :: fl -> (id ∉ fs) /\ NoDup fs.
Proof.
  intros [_ _ Hp _ _ _ _] E. pose proof (NoDup_seqZ 0 (gc_drv_capacity config)) as Hnd.
  rewrite <- Hp, E in Hnd. cbn in Hnd. apply NoDup_cons in Hnd as [Hn Hnd].
  rewrite not_elem_of_app in Hn. apply NoDup_app in Hnd as (_ & _ & ?). tauto.
Qed.

Lemma flight_range sp fs id : flight_inv sp fs -> id ∈ sp_ids sp \/ id ∈ fs -> 0 <= id < gc_drv_capacity config.
Proof.
  intros [_ _ Hp _ _ _ _] Hid. assert (id ∈ seqZ 0 (gc_drv_capacity config)) as Hin%elem_of_seqZ; [|lia].
  rewrite <- Hp. by apply elem_of_app.
Qed.

(** Bookkeeping under another identifier. *)
Lemma bk_of_book sp id id' f :
  0 <= id -> 0 <= id' -> id <> id' -> bk_of (sp_book id f sp) id' = bk_of sp id'.
Proof.
  intros ? ? ?. unfold bk_of, sp_book. cbn. rewrite !list_lookup_total_alt. by rewrite list_lookup_alter_ne by lia.
Qed.

Lemma bk_of_book_eq sp id f :
  0 <= id -> (Z.to_nat id < length (sp_bk sp))%nat -> bk_of (sp_book id f sp) id = f (bk_of sp id).
Proof.
  intros ? Hl. unfold bk_of, sp_book. cbn. rewrite alter_insert_total by done. by apply list_lookup_total_insert_eq.
Qed.

Definition same_bk (sp sp' : gpu_spec) (fs : list Z) : Prop := forall id, id ∈ fs -> bk_of sp' id = bk_of sp id.

Lemma same_bk_at sp sp' fs id : same_bk sp sp' fs -> id ∈ fs -> bk_of sp' id = bk_of sp id.
Proof. auto. Qed.

Lemma owed_same sp sp' fs c : same_bk sp sp' fs -> owed sp' fs c = owed sp fs c.
Proof.
  unfold same_bk, owed. induction fs as [|id fs IH]; intros Hs; [done|].
  assert (owes sp' c id <-> owes sp c id) as Ho by (unfold owes; rewrite Hs by set_solver; done).
  rewrite !filter_cons. specialize (IH ltac:(set_solver)).
  destruct (decide (owes sp c id)), (decide (owes sp' c id)); cbn; tauto || lia.
Qed.

Lemma creating_same sp sp' fs id c v :
  same_bk sp sp' fs -> id ∈ fs -> creating sp' id c v <-> creating sp id c v.
Proof. intros Hs Hid. unfold creating. by rewrite Hs. Qed.

(** A client that another one's request leaves alone. *)
Lemma client_ok_same sp sp' fs c :
  same_bk sp sp' fs -> sp_cli sp' c = sp_cli sp c -> client_ok sp fs c -> client_ok sp' fs c.
Proof.
  intros Hs Hv [Hb Hc Hw]. split; rewrite ?Hv, ?(owed_same sp sp') by done; try done.
  intros pre req post v E Hu. rewrite Hv in E. destruct (Hw _ _ _ _ E Hu). split; [done|].
  intros id Hid. rewrite (creating_same sp sp' fs) by done. auto.
Qed.

(** The client whose request was answered. *)
Lemma client_ok_answered sp sp' fs c req :
  same_bk sp sp' fs -> cv_reqs (sp_cli sp c) = req :: cv_reqs (sp_cli sp' c) ->
  (length (cv_resps (sp_cli sp' c)) <= S (length (cv_resps (sp_cli sp c))))%nat ->
  client_ok sp fs c -> client_ok sp' fs c.
Proof.
  intros Hs Hr Hl [Hb Hc Hw]. rewrite Hr in Hb, Hc. apply Forall_cons in Hb as [_ Hb].
  split; rewrite ?(owed_same sp sp') by done; [done|cbn in Hc; lia|].
  intros pre r post v E Hu. destruct (Hw (req :: pre) r post v) as [Hpre Hfs]; [by rewrite Hr, E|done|].
  split; [intros r' Hr'; apply Hpre; set_solver|]. intros id Hid. rewrite (creating_same sp sp' fs) by done. auto.
Qed.

(** What an accepted request does to the map of owned resources. *)
Lemma gpu_decide_owned c body t b t' :
  gpu_decide config c body t = (inr b, t') ->
  code_ok (gpu_code body) /\
  let v := body_resource body in
  (is_create (gpu_code body) = true /\ v <> 0 /\ tb_owned t !! (c, v) = None /\
     (exists d, tb_owned t' = <[(c, v) := d]> (tb_owned t))
   \/ is_create (gpu_code body) = false /\ gpu_code body = GPU_REQ_RESOURCE_UNREF /\
     tb_owned t' = delete (c, v) (tb_owned t)
   \/ is_create (gpu_code body) = false /\ tb_owned t' = tb_owned t).
Proof.
  destruct body as [|r|r|r|r|r|r|r|r|r|]; cbn [gpu_decide gpu_code code_ok is_create body_resource];
    unfold with_resource, decide_create, refuse;
    intros E; repeat match type of E with (match ?x with _ => _ end) = _ => destruct x eqn:? end;
    simplify_eq; cbn [tb_owned tb_create tb_drop tb_set_res tb_set_blobs]; split; try done; try (by right; right);
    repeat match goal with
    | H : negb _ = false |- _ => apply negb_false_iff in H
    | H : _ || _ = false |- _ => apply orb_false_iff in H as []
    | H : (_ =? _) = false |- _ => apply Z.eqb_neq in H
    | H : bool_decide (is_Some _) = false |- _ => apply bool_decide_eq_false, eq_None_not_Some in H
    end; try done.
  - left. unfold owned in *. rewrite (proj2 (Z.eqb_neq _ _)) in * by done. eauto.
  - left. unfold owned in *. rewrite (proj2 (Z.eqb_neq _ _)) in * by done. eauto.
  - right; left. by case_match.
Qed.

(** What changes of the flight when requests are passed on: the identifiers of
    the new requests. *)
Record flown (sp sp' : gpu_spec) (l : list Z) : Prop := {
  fl_drvq : map gq_id (sp_drvq sp') = map gq_id (sp_drvq sp) ++ l;
  fl_drvr : sp_drvr sp' = sp_drvr sp;
  fl_init : sp_init sp' = sp_init sp;
}.

(** A request that is answered at once. *)
Lemma flight_answered c sp sp' fs :
  flight_inv sp fs -> serves_one config c sp sp' -> same_bk sp sp' fs -> length (sp_bk sp') = length (sp_bk sp) ->
  sp_ids sp' ≡ₚ sp_ids sp -> sp_tables sp' = sp_tables sp -> flight_inv sp' fs.
Proof.
  intros [] [] Hbk Hlen Hids Ht. split; try done.
  - congruence.
  - by rewrite Hids.
  - intros id Hid. rewrite (same_bk_at sp sp' fs) by done. auto.
  - intros id c0 v Hid. rewrite (creating_same sp sp' fs), Ht by done. eauto.
  - intros id id' c0 v Hid Hid'. rewrite !(creating_same sp sp' fs) by done. eauto.
  - intros c0 Hc0. destruct (decide (c0 = c)) as [->|Hne].
    + destruct so_reqs as [req Hr]. eapply client_ok_answered; [done..| |auto].
      destruct so_one as [[-> _]|[-> _]]; lia.
    + eapply client_ok_same; [done..| |auto]. auto.
Qed.

(** A request that is passed on under the identifier [id]. *)
Lemma flight_passed c sp sp' fs req id fl b t :
  (c < n)%nat -> flight_inv sp fs -> serves_one config c sp sp' -> same_bk sp sp' fs ->
  length (sp_bk sp') = length (sp_bk sp) ->
  sp_ids sp = id :: fl -> sp_ids sp' = fl -> sp_tables sp' = t -> body_ok (gq_body req) ->
  cv_reqs (sp_cli sp c) = req :: cv_reqs (sp_cli sp' c) -> cv_resps (sp_cli sp' c) = cv_resps (sp_cli sp c) ->
  gpu_decide config c (gq_body req) (sp_tables sp) = (inr b, t) ->
  bk_of sp' id = mk_gpu_reqbk (Z.of_nat c) (gq_id req) (gpu_code (gq_body req)) (body_resource (gq_body req)) ->
  flight_inv sp' (id :: fs).
Proof.
  intros Hc Hfl [] Hbk Hlen Eid Hfree <- Hok Hr Hresps Hd Hnew.
  destruct (flight_fresh _ _ _ _ Hfl Eid) as [Hid _]. pose proof Hfl as [].
  destruct (gpu_decide_owned _ _ _ _ _ Hd) as [Hcode Hown]. cbn zeta in Hown.
  assert (forall c' v', creating sp' id c' v' <-> is_create (gpu_code (gq_body req)) = true /\ c' = c /\ v' = body_resource (gq_body req)) as Hcr.
  { intros c' v'. unfold creating. rewrite Hnew. cbn. split; [intros (? & ? & ?)|intros (? & -> & ->)]; split_and!; (done || lia). }
  assert (forall c' v' id', id' ∈ fs -> creating sp id' c' v' ->
            1 <= v' <= GPU_MAX_RESOURCES /\ is_Some (tb_owned (sp_tables sp') !! (c', v'))) as Hlive.
  { intros c' v' id' Hid' Hcr'. destruct (fi_live0 _ _ _ Hid' Hcr') as [Hv Hs]. split; [done|].
    destruct Hown as [(_ & _ & _ & d & ->)|[(_ & Hun & ->)|[_ ->]]]; [|..|done].
    - destruct (decide ((c, body_resource (gq_body req)) = (c', v'))) as [->|Hne];
        [rewrite lookup_insert_eq; eauto|by rewrite lookup_insert_ne].
    - rewrite lookup_delete_ne; [done|]. intros [= -> <-].
      destruct (ck_waits _ _ _ (fi_clients0 c' Hc) [] req _ _ Hr (conj Hun eq_refl)) as [_ Hno]. by apply (Hno id'). }
  split; try done.
  - congruence.
  - rewrite Hfree. rewrite Eid in fi_perm0. by rewrite <- Permutation_middle.
  - intros id' [->|Hid']%elem_of_cons; [|rewrite (same_bk_at sp sp' fs) by done; auto]. rewrite Hnew. cbn. eauto.
  - intros id' c' v' [->|Hid']%elem_of_cons; [|rewrite (creating_same sp sp' fs) by done; eauto].
    rewrite Hcr. intros (Hcreate & -> & ->). destruct Hok as [? _ _].
    destruct Hown as [(_ & ? & _ & d & ->)|[(? & _)|[? _]]]; [|congruence..]. split; [lia|]. rewrite lookup_insert_eq. eauto.
  - intros i i' c' v' Hi Hi'.
    assert (forall j, j ∈ fs -> creating sp' id c' v' -> creating sp' j c' v' -> False) as Hclash.
    { intros j Hj (Hcreate & -> & ->)%Hcr Hj'. apply (proj1 (creating_same sp sp' fs _ _ _ Hbk Hj)) in Hj'. destruct (fi_live0 _ _ _ Hj Hj') as [_ [? Hs]].
      destruct Hown as [(_ & _ & Hnone & _)|[(? & _)|[? _]]]; congruence. }
    apply elem_of_cons in Hi as [->|Hi], Hi' as [->|Hi']; try done.
    + intros ? ?. by destruct (Hclash i').
    + intros ? ?. by destruct (Hclash i).
    + rewrite !(creating_same sp sp' fs) by done. eauto.
  - intros c' Hc'. assert (owed sp' (id :: fs) c' = (if decide (c' = c) then S (owed sp fs c') else owed sp fs c')) as Howed.
    { assert (owes sp' c' id <-> c' = c) as Ho.
      { unfold owes. rewrite Hnew. cbn. split; [lia|intros ->; split; [|done]]. intros E. by rewrite E in Hcode. }
      pose proof (owed_same sp sp' fs c' Hbk) as Hs. unfold owed in *. rewrite filter_cons.
      destruct (decide (owes sp' c' id)), (decide (c' = c)); cbn; tauto || lia. }
    destruct (fi_clients0 c' Hc') as [Hb Hcred Hw]. destruct (decide (c' = c)) as [->|Hne].
    + split; rewrite ?Howed, ?Hresps; rewrite ?Hr in Hb, Hcred.
      * by apply Forall_cons in Hb as [_ ?].
      * cbn in Hcred. lia.
      * intros pre r post v E Hu. destruct (Hw (req :: pre) r post v) as [Hpre Hfs]; [by rewrite Hr, E|done|].
        split; [intros r' Hr'; apply Hpre; set_solver|]. intros id' [->|Hid']%elem_of_cons.
        -- rewrite Hcr. intros (? & _ & ->). by apply (Hpre req); [set_solver|].
        -- rewrite (creating_same sp sp' fs) by done. auto.
    + split; rewrite ?Howed, ?so_others; [done..|].
      intros pre r post v E Hu. rewrite so_others in E by done. destruct (Hw _ _ _ _ E Hu) as [Hpre Hfs]. split; [done|].
      intros id' [->|Hid']%elem_of_cons; [by rewrite Hcr; intros (_ & ? & _)|].
      rewrite (creating_same sp sp' fs) by done. auto.
Qed.

Lemma serve_flight c sp sp' fs :
  (c < n)%nat -> flight_inv sp fs -> sp_serve config c sp = Some sp' ->
  exists l, flight_inv sp' (l ++ fs) /\ flown sp sp' l.
Proof.
  intros Hc Hfl E. pose proof (sp_serve_one config c Hc sp sp' (fi_inv _ _ Hfl) (flight_inv_clients_ok _ _ Hfl) E) as Hone.
  unfold sp_serve in E. destruct (cv_reqs (sp_cli sp c)) as [|req rest] eqn:Er; [done|].
  destruct (sp_ids sp) as [|id fl] eqn:Eid; [done|]. case_match; [done|]. injection E as E.
  destruct (fi_clients _ _ Hfl c Hc) as [Hb _ _]. rewrite Er in Hb. apply Forall_cons in Hb as [Hb _].
  pose proof (sp_request_effect config c Hc req id fl _ (sp_inv_take config c sp (fi_inv _ _ Hfl)) Hb) as Heff.
  rewrite E in Heff. clear E. destruct (flight_fresh _ _ _ _ Hfl Eid) as [Hid _].
  assert (id ∈ sp_ids sp) as Hin by (rewrite Eid; set_solver).
  assert (forall id', id' ∈ fs -> 0 <= id /\ 0 <= id' /\ id <> id') as Hne.
  { intros id' Hid'. pose proof (flight_range sp fs id' Hfl (or_intror Hid')). pose proof (flight_range sp fs id Hfl (or_introl Hin)).
    split_and!; [lia..|]. by intros ->. }
  destruct Heff as [r mem Hm|r f|b t ev Hd].
  - exists []. split; [|by split; rewrite ?app_nil_r]. eapply flight_answered; try done.
  - exists []. split; [|by split; rewrite ?app_nil_r]. eapply flight_answered; try done.
    + intros id' Hid'. destruct (Hne id' Hid') as (? & ? & ?). by apply (bk_of_book (sp_take_req c sp)).
    + cbn. by rewrite length_alter.
    + cbn. rewrite Eid. by rewrite <- Permutation_cons_append.
  - exists [id]. split; [|split; [cbn; by rewrite map_app|done..]].
    pose proof (si_clients _ _ (fi_inv _ _ Hfl)) as Hlen. pose proof (sp_take_at c sp ltac:(rewrite Hlen; done)) as Hat.
    rewrite Er in Hat. eapply flight_passed; [done|done|exact Hone|..]; try done.
    + intros id' Hid'. destruct (Hne id' Hid') as (? & ? & ?). by apply (bk_of_book (sp_take_req c sp)).
    + cbn. by rewrite length_alter.
    + rewrite Er. f_equal. symmetry. change (cv_reqs (sp_cli (sp_take_req c sp) c) = rest). by rewrite Hat.
    + change (cv_resps (sp_cli (sp_take_req c sp) c) = cv_resps (sp_cli sp c)). by rewrite Hat.
    + pose proof (flight_range sp fs id Hfl (or_introl Hin)).
      change (bk_of (sp_book id (fun _ => mk_gpu_reqbk (Z.of_nat c) (gq_id req) (gpu_code (gq_body req)) (body_resource (gq_body req))) (sp_take_req c sp)) id
              = mk_gpu_reqbk (Z.of_nat c) (gq_id req) (gpu_code (gq_body req)) (body_resource (gq_body req))).
      rewrite bk_of_book_eq; [done|lia|]. change (sp_bk (sp_take_req c sp)) with (sp_bk sp). rewrite (fi_bk_len _ _ Hfl). lia.
Qed.

(** A request of the virtualiser for display info. *)
Lemma ask_flight sp sp' fs :
  flight_inv sp fs -> sp_ask_display config sp = Some sp' ->
  exists l, flight_inv sp' (l ++ fs) /\ flown sp sp' l.
Proof.
  intros Hfl E. destruct (sp_ask_display_inv config sp sp' (fi_inv _ _ Hfl) E) as [Hinv' _].
  unfold sp_ask_display in E. destruct (sp_ids sp) as [|id fl] eqn:Eid; [done|]. case_match; [done|]. injection E as E.
  destruct (flight_fresh _ _ _ _ Hfl Eid) as [Hid _]. assert (id ∈ sp_ids sp) as Hin by (rewrite Eid; set_solver).
  pose proof (flight_range sp fs id Hfl (or_introl Hin)) as Hr.
  pose proof (fi_bk_len _ _ Hfl) as Hlen.
  assert (bk_of sp' id = mk_gpu_reqbk VIRTUALISER_ID id GPU_REQ_GET_DISPLAY_INFO (gb_res_virt (bk_of sp id))) as Hnew.
  { rewrite <- E. unfold bk_of at 1, sp_book. cbn. rewrite alter_insert_total by lia. by apply list_lookup_total_insert_eq; lia. }
  assert (same_bk sp sp' fs) as Hbk.
  { intros id' Hid'. pose proof (flight_range sp fs id' Hfl (or_intror Hid')). rewrite <- E. unfold bk_of, sp_book. cbn.
    rewrite !list_lookup_total_alt, list_lookup_alter_ne; [done|]. intros ?. assert (id = id') as -> by lia. done. }
  assert (forall c v, ~ creating sp' id c v) as Hno.
  { intros c v. unfold creating. rewrite Hnew. cbn. intros (? & _). done. }
  exists [id]. split; [|subst sp'; split; cbn; by rewrite ?map_app].
  assert (sp_tables sp' = sp_tables sp) as Ht by (by subst sp').
  assert (forall c, sp_cli sp' c = sp_cli sp c) as Hcli by (by subst sp').
  assert (sp_ids sp' = fl /\ length (sp_bk sp') = length (sp_bk sp)) as [Hfree Hlen'] by (subst sp'; cbn; by rewrite length_alter).
  clear E. destruct Hfl. split; try done.
  - congruence.
  - rewrite Hfree. rewrite Eid in fi_perm0. cbn. by rewrite <- Permutation_middle.
  - intros id' [->|Hid']%elem_of_cons; [by rewrite Hnew|]. rewrite (same_bk_at sp sp' fs) by done. auto.
  - intros id' c v [->|Hid']%elem_of_cons Hcr; [by destruct (Hno c v)|]. rewrite Ht. apply (fi_live0 id'); [done|].
    by apply (creating_same sp sp' fs).
  - intros i i' c v [->|Hi]%elem_of_cons [->|Hi']%elem_of_cons H1 H2; try done;
      try (by destruct (Hno c v)). apply (fi_inj0 i i' c v); [done..| |]; by apply (creating_same sp sp' fs).
  - intros c Hc. destruct (client_ok_same sp sp' fs c Hbk (Hcli c) (fi_clients0 c Hc)) as [Hb Hcred Hw]. split; [done| |].
    + assert (owed sp' ([id] ++ fs) c = owed sp' fs c) as ->; [|done]. unfold owed. cbn [app]. rewrite filter_cons_False; [done|].
      unfold owes. rewrite Hnew. cbn. tauto.
    + intros pre r post v Er Hu. destruct (Hw _ _ _ _ Er Hu). split; [done|].
      intros id' [->|Hid']%elem_of_cons; [apply Hno|auto].
Qed.

Lemma owed_perm sp fs fs' c : fs ≡ₚ fs' -> owed sp fs c = owed sp fs' c.
Proof. intros Hp. unfold owed. by rewrite Hp. Qed.

(** An identifier that lands: its request is settled. *)
Lemma flight_landed id sp sp' fs :
  flight_inv sp (id :: fs) -> sp_inv config sp' -> sp_bk sp' = sp_bk sp -> sp_ids sp' = sp_ids sp ++ [id] ->
  (forall id' c v, id' ∈ fs -> creating sp id' c v -> is_Some (tb_owned (sp_tables sp') !! (c, v))) ->
  (forall c, (c < n)%nat ->
     cv_reqs (sp_cli sp' c) = cv_reqs (sp_cli sp c) /\
     (length (cv_resps (sp_cli sp' c)) + owed sp fs c <= length (cv_resps (sp_cli sp c)) + owed sp (id :: fs) c)%nat) ->
  flight_inv sp' fs.
Proof.
  intros [] Hinv Hbk Hids Hlive Hcli.
  assert (forall id, bk_of sp' id = bk_of sp id) as Hb by (intros; unfold bk_of; by rewrite Hbk).
  assert (forall id c v, creating sp' id c v <-> creating sp id c v) as Hcr by (intros; unfold creating; by rewrite Hb).
  split; try done.
  - by rewrite Hbk.
  - rewrite Hids, <- app_assoc. done.
  - intros id' Hid'. rewrite Hb. apply fi_bk0. set_solver.
  - intros id' c v Hid' Hc%Hcr. split; [|by eapply Hlive]. eapply fi_live0; [|done]. set_solver.
  - intros i i' c v Hi Hi' H1%Hcr H2%Hcr. eapply fi_inj0; [| |done..]; set_solver.
  - intros c Hc. destruct (fi_clients0 c Hc) as [Hbo Hcred Hw]. destruct (Hcli c Hc) as [Hreqs Hle].
    assert (owed sp' fs c = owed sp fs c) as Ho by (apply owed_same; intros ? _; apply Hb).
    split; rewrite ?Hreqs, ?Ho; [done|lia|]. intros pre req post v E Hu. rewrite Hreqs in E.
    destruct (Hw _ _ _ _ E Hu) as [Hp Hf]. split; [done|]. intros id' Hid' H%Hcr. eapply (Hf id'); [set_solver|done].
Qed.

(** The settlement of a request in flight. *)
Lemma settle_flight id c status sp fs :
  flight_inv sp (id :: fs) -> id ∉ fs -> gb_code (bk_of sp id) <> GPU_REQ_GET_DISPLAY_INFO ->
  gb_cli_id (bk_of sp id) = Z.of_nat c -> code_ok (gb_code (bk_of sp id)) ->
  exists t, sp_settle config (bk_of sp id) c status sp = Some (set_sp_tables t sp) /\
    (forall id' c' v', id' ∈ fs -> creating sp id' c' v' -> is_Some (tb_owned t !! (c', v'))).
Proof.
  intros Hfl Hid Hcode Hcli Hok. pose proof Hfl as []. set (bk := bk_of sp id) in *.
  assert (forall id' c' v', id' ∈ fs -> creating sp id' c' v' -> is_Some (tb_owned (sp_tables sp) !! (c', v'))) as Hsame.
  { intros id' c' v' Hid' Hcr. eapply fi_live0; [|done]. set_solver. }
  assert (exists t, Some sp = Some (set_sp_tables t sp) /\
    (forall id' c' v', id' ∈ fs -> creating sp id' c' v' -> is_Some (tb_owned t !! (c', v')))) as Hdone.
  { exists (sp_tables sp). split; [by destruct sp|exact Hsame]. }
  assert (is_create (gb_code bk) = true -> exists d, sp_undo bk c sp = Some (set_sp_tables (tb_drop c (gb_res_virt bk) d (sp_tables sp)) sp) /\
    (forall id' c' v', id' ∈ fs -> creating sp id' c' v' -> is_Some (delete (c, gb_res_virt bk) (tb_owned (sp_tables sp)) !! (c', v')))) as Hundo.
  { intros Hcreate. assert (creating sp id c (gb_res_virt bk)) as Hc by done.
    destruct (fi_live0 id c (gb_res_virt bk)) as [Hv [d Hd]]; [set_solver|done|]. exists d. split.
    - unfold sp_undo. rewrite (proj2 (Z.leb_le _ _)), (proj2 (Z.leb_le _ _)) by lia. cbn [andb]. by rewrite Hd.
    - intros id' c' v' Hid' Hcr. rewrite lookup_delete_ne; [by apply (Hsame id')|]. intros [= <- <-].
      apply Hid. assert (id = id') as ->; [|done]. eapply (fi_inj0 id id'); [set_solver..|done|done]. }
  unfold sp_settle. destruct (gb_code bk) eqn:Ec; cbn [code_ok] in Hok; try done; try exact Hdone.
  - rewrite Hok. cbn [negb]. case_match; [exact Hdone|].
    destruct (Hundo eq_refl) as (d & -> & Hl). cbn. eexists. split; [done|]. exact Hl.
  - rewrite Hok. exact Hdone.
  - case_match; [exact Hdone|]. destruct (Hundo eq_refl) as (d & -> & Hl). eexists. split; [done|]. exact Hl.
Qed.

Lemma response_flight r sp notify fs :
  flight_inv sp (gp_id r :: fs) -> length notify = n ->
  exists q, sp_response config r sp notify = Some q /\ flight_inv q.1 fs /\ length q.2 = n /\ flown sp q.1 [].
Proof.
  intros Hfl Hnot. pose proof Hfl as [Hinv _ Hperm _ _ _ _].
  pose proof (NoDup_seqZ 0 (gc_drv_capacity config)) as Hnd. rewrite <- Hperm in Hnd.
  apply NoDup_app in Hnd as (_ & Hdisj & Hnd). apply NoDup_cons in Hnd as [Hid _].
  assert (gp_id r ∈ gp_id r :: fs) as Hin by set_solver.
  pose proof (flight_range sp (gp_id r :: fs) (gp_id r) Hfl (or_intror Hin)) as Hr.
  assert (gp_id r ∉ sp_ids sp) as Hfree by (intros Hx; by apply (Hdisj _ Hx)).
  assert (sp_in_use config (sp_ids sp) (gp_id r) = Some true) as Huse.
  { unfold sp_in_use. rewrite (proj2 (Z.ltb_ge _ _)), (proj2 (Z.leb_gt _ _)), bool_decide_false by (done || lia). done. }
  assert (forall q, sp_response config r sp notify = Some q -> sp_inv config q.1 /\ length q.2 = n) as Hpres.
  { intros q Hq. by destruct (sp_response_inv config r sp notify q Hinv Hnot Hq) as (? & ? & _). }
  unfold sp_response in *. rewrite Huse in *. cbn [mbind option_bind negb] in *. fold (bk_of sp (gp_id r)) in *.
  destruct (bool_decide (gb_code (bk_of sp (gp_id r)) = _)) eqn:Ed.
  - apply bool_decide_eq_true in Ed.
    assert (forall c, owed sp (gp_id r :: fs) c = owed sp fs c) as Ho.
    { intros c. unfold owed. rewrite filter_cons_False; [done|]. unfold owes. rewrite Ed. tauto. }
    assert (forall id' c v, id' ∈ fs -> creating sp id' c v -> is_Some (tb_owned (sp_tables sp) !! (c, v))) as Hlive.
    { intros id' c v Hid' Hcr. eapply (fi_live _ _ Hfl); [|done]. set_solver. }
    destruct (bool_decide (gp_status r = _)); (eexists; split; [done|]); destruct (Hpres _ eq_refl) as [Hinv' Hn'];
      (split; [|split; [done|by split; cbn; rewrite ?app_nil_r]]); cbn [fst] in *;
      eapply (flight_landed (gp_id r) sp); try done; intros c Hc; rewrite Ho; [|done].
    unfold sp_cli, sp_new_display. cbn.
    destruct (lookup_lt_is_Some_2 (sp_clis sp) c) as [v Hv]; [rewrite (si_clients _ _ Hinv); done|].
    rewrite (list_lookup_total_correct (sp_clis sp) c v Hv).
    match goal with |- context [map ?f _ !!! c] => rewrite (list_lookup_total_correct _ c (f v)) by (by rewrite list_lookup_fmap, Hv) end.
    cbn. split; [done|lia].
  - apply bool_decide_eq_false in Ed. destruct (fi_bk _ _ Hfl _ Hin Ed) as (c & Hc & Hcli & Hok).
    destruct (settle_flight (gp_id r) c (gp_status r) sp fs Hfl Hid Ed Hcli Hok) as (t & Ht & Hlive).
    rewrite Hcli in *. rewrite Nat2Z.id in *. rewrite (proj2 (Z.leb_le 0 _)) in * by lia.
    rewrite (bool_decide_true (c < _)%nat) in * by done. cbn [andb] in *. rewrite Ht in *. cbn [mbind option_bind] in *.
    assert (owed sp (gp_id r :: fs) c = S (owed sp fs c)) as Ho by (unfold owed; by rewrite filter_cons_True).
    destruct (fi_clients _ _ Hfl c Hc) as [_ Hcred _]. rewrite Ho in Hcred.
    change (sp_cli (set_sp_tables t sp) c) with (sp_cli sp c) in *.
    rewrite (proj2 (Z.eqb_neq _ _)) in * by lia. eexists. split; [done|]. destruct (Hpres _ eq_refl) as [Hinv' Hn'].
    split; [|split; [done|by split; cbn; rewrite ?app_nil_r]]. cbn [fst] in *.
    eapply (flight_landed (gp_id r) sp); try done. intros c' Hc'.
    assert (c < length (sp_clis sp))%nat as Hlen by (rewrite (si_clients _ _ Hinv); done).
    destruct (decide (c' = c)) as [->|Hne].
    + rewrite sp_respond_at by done. change (sp_cli (set_sp_ids _ _) c) with (sp_cli sp c). cbn [cv_reqs cv_resps].
      rewrite Ho, length_app. cbn [length]. split; [done|lia].
    + rewrite sp_respond_other by done. change (sp_cli (set_sp_ids _ _) c') with (sp_cli sp c'). split; [done|].
      unfold owed. rewrite filter_cons. case_match; cbn; lia.
Qed.
End inv.
