(* ===== verification/GpuInit.v ===== *)
(** * The GPU virtualiser: initialisation and notifications

    [gpu_init_spec]: from the static zeroes and empty queues [init] establishes the
    relation to the initial abstract state.  [gpu_notified_spec]: a notification is
    handled like the specification says. *)

From stdpp Require Import gmap.
From S2P Require Import Prelude Ring Fifo RingQueue GpuQueue Ialloc Microkit GpuVirt GpuSpec GpuRel GpuClient GpuDriver.

(** The state before [init]: empty queues of the configured capacities, arrays
    of the declared sizes. *)
Record gpu_boot (config : gpu_config) (s : gpu_virt) : Prop := {
  gb_clients : length (gv_clients s) = Z.to_nat (gc_num_clients config);
  gb_client : forall c k, gv_clients s !! c = Some k ->
    let cap := gc_cli_capacity config (Z.of_nat c) in
    gpu_holds (gpu_queue_init (gh_req_queue (gcl_queue_h k)) (gh_resp_queue (gcl_queue_h k)) cap) cap [] [] /\
    length (gcl_res_map k) = Z.to_nat (GPU_MAX_RESOURCES + 1);
  gb_drv : gpu_holds (gpu_queue_init (gh_req_queue (gv_drv_h s)) (gh_resp_queue (gv_drv_h s)) (gc_drv_capacity config))
             (gc_drv_capacity config) [] [];
  gb_capacity : 0 < gc_drv_capacity config < IDX_NONE;
  gb_req_idx : Z.of_nat (length (idxlist (gv_req_ialloc s))) = gc_drv_capacity config;
  gb_res_idx : Z.of_nat (length (idxlist (gv_res_ialloc s))) = GPU_MAX_RESOURCES;
  gb_res : length (gv_drv_resources s) = Z.to_nat (GPU_MAX_RESOURCES + 1);
  gb_blobs : length (gv_blob_scanouts s) = Z.to_nat GPU_MAX_SCANOUTS;
  gb_rows : Forall (fun row => length row = Z.to_nat (GPU_MAX_RESOURCES + 1)) (gv_blob_scanouts s);
  gb_bk : length (gv_reqsbk s) = Z.to_nat (gc_drv_capacity config);
}.

(** The abstract state that [init] leaves. *)
Definition sp_initial (config : gpu_config) (s : gpu_virt) : gpu_spec :=
  mk_gpu_spec (map (fun k => mk_cli_view [] [] (gcl_event k)) (gv_clients s))
    [mk_gpu_req 0 (GetDisplayInfo (mk_get_display_info 0))] []
    (mk_tables ∅ (seqZ 1 GPU_MAX_RESOURCES) (gv_drv_resources s) (gv_blob_scanouts s))
    (seqZ 0 (gc_drv_capacity config)) (gv_reqsbk s) (gv_display_info s) (gv_pending s) (gv_try_again s)
    (gv_drv_event s) (gv_display_init s) (gv_driver_mem s) (gv_client_mem s) (gv_events s ++ [Notify DRIVER_CH]).

Lemma sp_initial_own_inv config s : own_inv (sp_tables (sp_initial config s)).
Proof.
  split; cbn; [done|done|by apply NoDup_seqZ|]. apply Forall_forall. intros d Hd%elem_of_seqZ. unfold GPU_MAX_RESOURCES in *. lia.
Qed.

Section init.
Context (config : gpu_config).
Let n : nat := Z.to_nat (gc_num_clients config).

(** The loop that marks the resources of client [c] as unmapped. *)
Lemma unmap_all_spec c s k (Q : unit -> gpu_virt -> Prop) :
  gv_clients s !! c = Some k -> length (gcl_res_map k) = Z.to_nat (GPU_MAX_RESOURCES + 1) ->
  (forall m, length m = Z.to_nat (GPU_MAX_RESOURCES + 1) ->
     (forall v, 1 <= v <= GPU_MAX_RESOURCES -> m !! Z.to_nat v = Some UNMAPPED_RESOURCE_ID) ->
     Q tt (set_gv_clients (<[c := set_gcl_res_map m k]> (gv_clients s)) s)) ->
  wp (for_each (seqZ 1 GPU_MAX_RESOURCES) (fun j => set_res_map (Z.of_nat c) j UNMAPPED_RESOURCE_ID)) s Q.
Proof.
  intros Hk Hlen HQ. pose proof (lookup_lt_Some _ _ _ Hk) as Hc.
  apply (wp_for_each (fun pre s' => exists m, length m = Z.to_nat (GPU_MAX_RESOURCES + 1) /\
    s' = set_gv_clients (<[c := set_gcl_res_map m k]> (gv_clients s)) s /\
    forall v, 1 <= v <= Z.of_nat (length pre) -> m !! Z.to_nat v = Some UNMAPPED_RESOURCE_ID)).
  - exists (gcl_res_map k). split_and!; [done| |cbn; lia]. rewrite list_insert_id; [by destruct s|].
    by destruct k.
  - intros pre j post s' E (m & Hm & -> & Hv). assert (seqZ 1 GPU_MAX_RESOURCES !! length pre = Some j) as [Hj Hjr]%lookup_seqZ.
    { rewrite E. by apply list_lookup_middle. }
    unfold set_res_map, on_client. eapply (wp_zoom_nth _ _ _ _ _ (set_gcl_res_map m k)); [lia| |].
    { cbn. rewrite Nat2Z.id. by apply list_lookup_insert_eq. }
    do 2 wp_step. cbn [gcl_res_map set_gcl_res_map]. wp_step. eapply wp_lift; [apply store_ok; unfold GPU_MAX_RESOURCES in *; lia|].
    wp_step. exists (<[Z.to_nat j := UNMAPPED_RESOURCE_ID]> m). split_and!.
    + by rewrite length_insert.
    + rewrite Nat2Z.id. cbn. unfold set_gv_clients. cbn. by rewrite list_insert_insert_eq.
    + intros v Hvr. rewrite length_app in Hvr. cbn in Hvr. destruct (decide (v = j)) as [->|Hne].
      * apply list_lookup_insert_eq. unfold GPU_MAX_RESOURCES in *. lia.
      * rewrite list_lookup_insert_ne by lia. apply Hv. lia.
  - intros s' (m & Hm & -> & Hv). apply HQ; [done|]. intros v Hvr. apply Hv. rewrite length_seqZ. lia.
Qed.

Lemma req_ialloc_init_spec size idx :
  0 < size < IDX_NONE -> Z.of_nat (length idx) = size ->
  exists ia, ialloc_init idx size = Ok ia /\ alloc_rel ia (seqZ 0 size) 0 size.
Proof.
  intros Hs Hl. destruct (ialloc_init_spec size idx Hs Hl) as (ia & E & Hwf & Ho & Hz). exists ia. split; [done|].
  split; [|done..]. replace (map (fun d => d - 0) (seqZ 0 size)) with (seqZ 0 size); [done|].
  rewrite <- (list_fmap_id (seqZ 0 size)) at 1. apply list_fmap_ext. intros. cbn. lia.
Qed.

Lemma res_ialloc_init_spec idx :
  Z.of_nat (length idx) = GPU_MAX_RESOURCES ->
  exists ia, ialloc_init_with_offset idx GPU_MAX_RESOURCES 1 = Ok ia /\
    alloc_rel ia (seqZ 1 GPU_MAX_RESOURCES) 1 GPU_MAX_RESOURCES.
Proof.
  intros Hl. destruct (ialloc_init_with_offset_spec GPU_MAX_RESOURCES 1 idx) as (ia & E & Hwf & Ho & Hz); [done..|].
  exists ia. split; [done|]. split; [|done..].
  replace (map (fun d => d - 1) (seqZ 1 GPU_MAX_RESOURCES)) with (seqZ 0 GPU_MAX_RESOURCES); [done|].
  change (seqZ 0 GPU_MAX_RESOURCES = (fun d => d - 1) <$> seqZ 1 GPU_MAX_RESOURCES).
  apply list_eq. intros i. rewrite list_lookup_fmap.
  destruct (decide (Z.of_nat i < GPU_MAX_RESOURCES)).
  - rewrite !lookup_seqZ_lt by done. cbn. f_equal. lia.
  - by rewrite !lookup_seqZ_ge by lia.
Qed.

Lemma gpu_init_spec s (Q : unit -> gpu_virt -> Prop) :
  gpu_boot config s -> (forall s', gpu_rel config s' (sp_initial config s) -> Q tt s') -> wp (init config) s Q.
Proof.
  intros [] HQ. unfold init. do 2 wp_step.
  destruct (req_ialloc_init_spec _ _ gb_capacity0 gb_req_idx0) as (ia1 & E1 & Hal1).
  destruct (res_ialloc_init_spec _ gb_res_idx0) as (ia2 & E2 & Hal2).
  wp_step. eapply wp_lift; [exact E1|]. do 2 wp_step. wp_step. eapply wp_lift; [exact E2|]. do 2 wp_step.
  wp_step. set (s2 := set_gv_res_ialloc ia2 (set_gv_req_ialloc ia1 s)).
  apply (wp_for_each (fun pre s' => exists l, s' = set_gv_clients l s2 /\ length l = length (gv_clients s) /\
    (forall c k, (length pre <= c)%nat -> gv_clients s !! c = Some k -> l !! c = Some k) /\
    (forall c k k', (c < length pre)%nat -> gv_clients s !! c = Some k -> l !! c = Some k' ->
       cli_rel config ∅ c k' (mk_cli_view [] [] (gcl_event k))))).
  - exists (gv_clients s). split_and!; [by destruct s|done..|cbn; lia].
  - intros pre i post s' E (l & -> & Hl & Hrest & Hdone). apply seqZ_prefix_seq in E as [-> Hi]. set (m := length pre) in *.
    destruct (lookup_lt_is_Some_2 (gv_clients s) m) as [k Hk]; [rewrite gb_clients0; done|].
    pose proof (Hrest m k ltac:(done) Hk) as Hlk. destruct (gb_client0 m k Hk) as [Hh Hm].
    wp_step. unfold on_client. eapply (wp_zoom_nth _ _ _ _ _ k); [lia|by rewrite Nat2Z.id|]. wp_step. rewrite Nat2Z.id.
    eapply (unmap_all_spec m); [by apply list_lookup_insert_eq; cbn; rewrite Hl; eapply lookup_lt_Some|done|].
    intros r Hr Hv. rewrite length_app, Nat.add_comm. cbn [Nat.add length]. eexists. split; [done|]. cbn. rewrite !length_insert.
    rewrite list_insert_insert_eq. split_and!; [done| |].
    + intros c k0 Hc Hk0. rewrite list_lookup_insert_ne by lia. apply Hrest; [lia|done].
    + intros c k0 k' Hc Hk0 Hk'. destruct (decide (c = m)) as [->|Hne].
      * rewrite list_lookup_insert_eq in Hk' by (rewrite Hl; by eapply lookup_lt_Some). injection Hk' as <-.
        assert (k0 = k) as -> by congruence. by split.
      * rewrite list_lookup_insert_ne in Hk' by done. eapply Hdone; [lia|done..].
  - intros s' (l & -> & Hl & _ & Hdone). wp_step. wp_step.
    set (sp0 := set_sp_ev (gv_events s) (set_sp_drvq [] (sp_initial config s))).
    match goal with |- wp _ ?s3 _ => assert (gpu_rel config s3 sp0) as Hs3 end.
    { rewrite length_seqZ in Hdone. split; try done; cbn; try by rewrite ?length_map, ?Hl.
      intros c k' v Hk' Hv. rewrite list_lookup_fmap in Hv.
      destruct (gv_clients s !! c) as [k|] eqn:Hk; [|done]. injection Hv as <-.
      eapply Hdone; [|done..]. rewrite <- gb_clients0. by eapply lookup_lt_Some. }
    unfold init_request_get_display_info. wp_step. eapply (on_drv_h_spec _ _ _ Hs3). intros Hh.
    eapply gpu_enqueue_req_spec; [done|cbn; lia|]. intros h Hh'. do 2 eexists. split; [done|]. intros s4 Hs4.
    wp_step. apply wp_assert; [done|]. eapply gpu_emit_spec; [exact Hs4|]. intros s5 Hs5. by apply HQ.
Qed.
End init.

(** ** Notifications *)

(** The first display info has arrived; [l] are the responses after it. *)
Definition sp_first (l : list gpu_resp) (sp : gpu_spec) : gpu_spec :=
  set_sp_init true (set_sp_display (take (Z.to_nat sizeof_display_info) (sp_dmem sp)) (set_sp_drvr l sp)).

Definition sp_notified (config : gpu_config) (ch : Z) (sp : gpu_spec) : option gpu_spec :=
  if sp_init sp then
    if ch =? DRIVER_CH then sp ← sp_driver config sp; Some (sp_clients config sp) else Some (sp_clients config sp)
  else if ch =? DRIVER_CH then
    match sp_drvr sp with
    | [] => Some sp
    | r :: l =>
      if (gp_id r =? 0) && bool_decide (gp_status r = GPU_RESP_OK) then
        sp ← sp_driver config (sp_first l sp);
        Some (sp_clients config sp)
      else None
    end
  else Some sp.

(** Before the first display info nothing is known of the display buffer but
    its size, which [sp_inv] states. *)
Lemma sp_inv_first config sp l :
  sp_inv config sp -> sp_inv config (sp_first l sp).
Proof. intros []. split; try done. cbn. rewrite length_take. lia. Qed.

Lemma gpu_notified_spec config ch s sp sp' :
  gpu_rel config s sp -> sp_inv config sp -> sp_notified config ch sp = Some sp' ->
  (forall sp1, (sp_init sp = true /\ sp_driver config sp = Some sp1 \/ ch <> DRIVER_CH /\ sp1 = sp \/
     exists r l, sp_init sp = false /\ sp_drvr sp = r :: l /\
       sp_driver config (sp_first l sp) = Some sp1) ->
     clients_ok config sp1) ->
  wp (notified config ch) s (fun _ s' => gpu_rel config s' sp' /\ sp_inv config sp').
Proof.
  intros Hrel Hinv E Hok. unfold notified, sp_notified in *. do 2 wp_step. rewrite (gl_init _ _ _ Hrel).
  destruct (sp_init sp) eqn:Ei.
  - do 2 wp_step. cbn [when]. destruct (Z.eqb_spec ch DRIVER_CH) as [->|Hch].
    + destruct (sp_driver config sp) as [sp1|] eqn:Ed; [|done]. cbn in E. injection E as <-.
      wp_step. eapply wp_mono; [by eapply gpu_handle_driver_spec|]. intros [] s1 (Hs1 & Hi1 & _).
      eapply wp_mono; [eapply gpu_handle_clients_spec; [done..|by apply Hok; left]|]. by intros [] s2 (? & ? & _).
    + injection E as <-. eapply wp_mono; [eapply gpu_handle_clients_spec; [done..|apply Hok; eauto]|]. by intros [] s2 (? & ? & _).
  - wp_step. destruct (Z.eqb_spec ch DRIVER_CH) as [->|Hch]; [|injection E as <-; wp_step; by wp_step].
    unfold handle_init_get_display_info_response. do 3 wp_step.
    rewrite (gpu_queue_empty_resp_spec _ _ _ _ (gl_drv _ _ _ Hrel)).
    destruct (sp_drvr sp) as [|r l] eqn:Er; [rewrite bool_decide_true by done; injection E as <-; do 2 wp_step; cbn [when]; by do 3 wp_step|].
    rewrite bool_decide_false by done.
    destruct (_ && _) eqn:Ec in E; [|done]. apply andb_true_iff in Ec as [Hid Hst].
    destruct (sp_driver config _) as [sp1|] eqn:Ed; [|done]. cbn in E. injection E as <-.
    wp_step. eapply (on_drv_h_spec _ _ _ Hrel). intros Hh. eapply gpu_dequeue_resp_spec; [done..|].
    intros h Hh'. do 2 eexists. split; [done|]. intros s1 Hs1. cbn iota.
    wp_step. apply wp_assert; [done|]. wp_step. apply wp_assert; [done|].
    wp_step. unfold copy_display_info. do 2 wp_step. rewrite (gl_dmem _ _ _ Hs1). cbn [sp_dmem set_sp_drvr set_sp_drvq].
    pose proof (si_dmem _ _ Hinv). rewrite (proj2 (Z.ltb_ge _ _)) by done. do 2 wp_step. cbn [when]. do 3 wp_step.
    cbn [when]. wp_step.
    eapply wp_mono; [eapply (gpu_handle_driver_spec _ _ _ sp1); [|by apply (sp_inv_first config sp l)|exact Ed]; by rel_tac Hs1|].
    intros [] s2 (Hs2 & Hi2 & _).
    eapply wp_mono; [eapply gpu_handle_clients_spec; [done..|apply Hok; eauto 8]|]. by intros [] s3 (? & ? & _).
Qed.

(** ** A system of two clients *)

(** What the system configuration and the static zeroes give before [init]. *)
Record gpu_start (config : gpu_config) (s : gpu_virt) : Prop := {
  st_boot : gpu_boot config s;
  st_config : gpu_config_ok config (length (gv_client_mem s));
  st_display : length (gv_display_info s) = Z.to_nat sizeof_display_info;
  st_dmem : sizeof_display_info <= Z.of_nat (length (gv_driver_mem s));
  st_init : gv_display_init s = false;
}.

Lemma gpu_holds_zero n (h := mk_gpu_handle (mk_ring 0 0 (replicate n inhabitant)) (mk_ring 0 0 (replicate n inhabitant)) (Z.of_nat n)) :
  (0 < n)%nat -> Z.of_nat n < 2 ^ 32 -> (Z.of_nat n | 2 ^ 32) -> gpu_holds h (Z.of_nat n) [] [].
Proof.
  intros ? ? ?. assert (ring_wf (2 ^ 32) (Z.of_nat n) 0 0 (replicate n (inhabitant (A := gpu_req))) /\
    ring_wf (2 ^ 32) (Z.of_nat n) 0 0 (replicate n (inhabitant (A := gpu_resp)))) as [Hq Hp].
  { split; (split; rewrite ?length_replicate; try done; change (ring_len (2 ^ 32) 0 0) with 0; lia). }
  by split; [split; (split; [done|]); change (0 + 0 <= Z.of_nat n); lia|..].
Qed.

Definition duo_config : gpu_config :=
  mk_gpu_config 2 4 (fun _ => 4) 4096 (fun i => 4096 + i * 1024) (fun _ => 1024) 65536 true.

Definition duo_queue : gpu_queue_handle :=
  mk_gpu_handle (mk_ring 0 0 (replicate 4 inhabitant)) (mk_ring 0 0 (replicate 4 inhabitant)) 4.

Definition duo_start : gpu_virt :=
  let client := mk_gpu_client duo_queue false 0 (replicate 1025 0) in
  mk_gpu_virt [client; client] duo_queue false
    (mk_ialloc (replicate 1024 0) 0 0 0 0 0) (replicate 1025 no_resource)
    (replicate 16 (replicate 1025 (mk_blob_scanout false 0 0)))
    (replicate 4 (mk_gpu_reqbk 0 0 GPU_REQ_GET_DISPLAY_INFO 0)) (mk_ialloc (replicate 4 0) 0 0 0 0 0)
    (replicate (Z.to_nat sizeof_display_info) 0) false false false
    (replicate (Z.to_nat sizeof_display_info) 0) (replicate 2048 0) [].

Lemma duo_gpu_start : gpu_start duo_config duo_start.
Proof.
  assert (gpu_holds duo_queue 4 [] []) as Hq by (apply (gpu_holds_zero 4); [lia|lia|by exists (2 ^ 30)]).
  split; [|split; [done|]|done..].
  - split; try done.
    + intros [|[|c]] k Hk; [injection Hk as <-; by split..|done].
    + by apply Forall_replicate.
  - intros c Hc. cbn in *. lia.
Qed.

Lemma duo_initial :
  exists s1, init duo_config duo_start = Ok (tt, s1) /\ gpu_rel duo_config s1 (sp_initial duo_config duo_start).
Proof.
  assert (wp (init duo_config) duo_start (fun _ s1 => gpu_rel duo_config s1 (sp_initial duo_config duo_start))) as H.
  { apply gpu_init_spec; [by destruct duo_gpu_start|done]. }
  apply wp_elim in H as ([] & s1 & E & H). eauto.
Qed.
