(* ===== verification/GpuTyping.v ===== *)
(** * Which requests the GPU virtualiser accepts

    A typing judgement for requests, in the arithmetic of integers: the resource
    exists and has the right kind, rectangles lie within resources and ranges
    within memory.  If no sum of a request exceeds its machine type, the code
    accepts exactly the typed requests, and what it accepts stays within the
    data region of the client. *)

From stdpp Require Import gmap.
From S2P Require Import Prelude RingQueue GpuQueue Ialloc Microkit GpuVirt GpuSpec GpuRel GpuClient GpuInit.

Definition rect_within (width height : Z) (rect : gpu_rect) : Prop :=
  gr_x rect + gr_width rect <= width /\ gr_y rect + gr_height rect <= height.

Definition rect_bytes (rect : gpu_rect) : Z := gr_width rect * gr_height rect * GPU_BPP_2D.

(** [req_typed config t c b b']: in the tables [t], request [b] of client [c] is
    in order, and [b'] is the request for the driver. *)
Inductive req_typed (config : gpu_config) (t : gpu_tables) (c : nat) : gpu_req_body -> gpu_req_body -> Prop :=
| ty_create_blob r d fl :
    gc_blob_support config = true -> cb_resource_id r <> 0 -> owned t c (cb_resource_id r) = None ->
    tb_free t = d :: fl -> cb_mem_offset r + cb_mem_size r <= gc_data_size config (Z.of_nat c) ->
    req_typed config t c (ResourceCreateBlob r)
      (ResourceCreateBlob (mk_create_blob d (cb_mem_offset r) (cb_mem_size r)))
| ty_create_2d r d fl :
    c2_resource_id r <> 0 -> owned t c (c2_resource_id r) = None -> tb_free t = d :: fl ->
    req_typed config t c (ResourceCreate2d r)
      (ResourceCreate2d (mk_create_2d d (c2_width r) (c2_height r) (c2_format r)))
| ty_scanout_blob_off r :
    gc_blob_support config = true -> sb_scanout_id r < GPU_MAX_SCANOUTS -> sb_resource_id r = 0 ->
    req_typed config t c (SetScanoutBlob r)
      (SetScanoutBlob (mk_set_scanout_blob 0 (sb_scanout_id r) 0 0 0 0 0 (mk_gpu_rect 0 0 0 0)))
| ty_scanout_blob r d :
    gc_blob_support config = true -> sb_scanout_id r < GPU_MAX_SCANOUTS ->
    owned t c (sb_resource_id r) = Some d -> rs_is_blob (res_at t d) = true ->
    sb_offset r + sb_stride r * sb_height r <= rs_mem_size (res_at t d) ->
    rect_within (sb_width r) (sb_height r) (sb_rect r) ->
    req_typed config t c (SetScanoutBlob r)
      (SetScanoutBlob (mk_set_scanout_blob d (sb_scanout_id r) (sb_width r) (sb_height r) 0
                         (sb_stride r) (sb_offset r) (sb_rect r)))
| ty_scanout_off r :
    ss_scanout_id r < GPU_MAX_SCANOUTS -> ss_resource_id r = 0 ->
    req_typed config t c (SetScanout r) (SetScanout (mk_set_scanout 0 (ss_scanout_id r) (mk_gpu_rect 0 0 0 0)))
| ty_scanout r d :
    ss_scanout_id r < GPU_MAX_SCANOUTS -> owned t c (ss_resource_id r) = Some d ->
    rs_is_blob (res_at t d) = false ->
    rect_within (rs_width (res_at t d)) (rs_height (res_at t d)) (ss_rect r) ->
    req_typed config t c (SetScanout r) (SetScanout (mk_set_scanout d (ss_scanout_id r) (ss_rect r)))
| ty_attach r d :
    owned t c (ab_resource_id r) = Some d -> rs_has_backing (res_at t d) = false ->
    ab_mem_offset r + ab_mem_size r <= gc_data_size config (Z.of_nat c) ->
    req_typed config t c (ResourceAttachBacking r)
      (ResourceAttachBacking (mk_attach_backing d (ab_mem_offset r) (ab_mem_size r)))
| ty_detach r d :
    owned t c (db_resource_id r) = Some d -> rs_has_backing (res_at t d) = true ->
    req_typed config t c (ResourceDetachBacking r) (ResourceDetachBacking (mk_detach_backing d))
| ty_transfer r d :
    owned t c (t2_resource_id r) = Some d -> rs_is_blob (res_at t d) = false -> rs_has_backing (res_at t d) = true ->
    rect_within (rs_width (res_at t d)) (rs_height (res_at t d)) (t2_rect r) ->
    t2_mem_offset r + rect_bytes (t2_rect r) <= rs_mem_size (res_at t d) ->
    req_typed config t c (TransferTo2d r) (TransferTo2d (mk_transfer_to_2d d (t2_rect r) (t2_mem_offset r)))
| ty_flush_2d r d :
    owned t c (rf_resource_id r) = Some d -> rs_is_blob (res_at t d) = false ->
    rect_within (rs_width (res_at t d)) (rs_height (res_at t d)) (rf_rect r) ->
    req_typed config t c (ResourceFlush r) (ResourceFlush (mk_resource_flush d (rf_rect r)))
| ty_flush_blob r d :
    owned t c (rf_resource_id r) = Some d -> rs_is_blob (res_at t d) = true -> rs_has_backing (res_at t d) = true ->
    (forall i, 0 <= i < GPU_MAX_SCANOUTS -> bs_active (blob_at t i d) = true ->
       rect_within (bs_width (blob_at t i d)) (bs_height (blob_at t i d)) (rf_rect r)) ->
    req_typed config t c (ResourceFlush r) (ResourceFlush (mk_resource_flush d (rf_rect r)))
| ty_unref r d :
    owned t c (ru_resource_id r) = Some d ->
    req_typed config t c (ResourceUnref r) (ResourceUnref (mk_resource_unref d)).

(** No sum or product of the request exceeds the type the code computes it
    in. *)
Definition rect_exact (rect : gpu_rect) : Prop :=
  0 <= gr_x rect /\ 0 <= gr_y rect /\ 0 <= gr_width rect /\ 0 <= gr_height rect /\
  gr_x rect + gr_width rect < 2 ^ 32 /\ gr_y rect + gr_height rect < 2 ^ 32.

Definition body_exact (b : gpu_req_body) : Prop :=
  match b with
  | ResourceCreateBlob r => 0 <= cb_mem_offset r /\ 0 <= cb_mem_size r /\ cb_mem_offset r + cb_mem_size r < 2 ^ 64
  | SetScanoutBlob r =>
    0 <= sb_offset r /\ 0 <= sb_stride r * sb_height r /\ sb_offset r + sb_stride r * sb_height r < 2 ^ 32 /\
    rect_exact (sb_rect r)
  | ResourceAttachBacking r => 0 <= ab_mem_offset r /\ 0 <= ab_mem_size r /\ ab_mem_offset r + ab_mem_size r < 2 ^ 64
  | SetScanout r => rect_exact (ss_rect r)
  | TransferTo2d r =>
    rect_exact (t2_rect r) /\ 0 <= t2_mem_offset r /\ rect_bytes (t2_rect r) < 2 ^ 32 /\
    t2_mem_offset r + rect_bytes (t2_rect r) < 2 ^ 64
  | ResourceFlush r => rect_exact (rf_rect r)
  | _ => True
  end.

Lemma rect_overlaps_within w h rect : rect_exact rect -> rect_overlaps w h rect = true <-> rect_within w h rect.
Proof.
  intros (? & ? & ? & ? & ? & ?). unfold rect_overlaps, rect_within.
  rewrite !u32_small by (unfold is_u32; lia). by rewrite andb_true_iff, !Z.leb_le.
Qed.

Lemma rect_overlaps_not w h rect : rect_exact rect -> rect_overlaps w h rect = false <-> ~ rect_within w h rect.
Proof. intros H. by rewrite <- rect_overlaps_within, not_true_iff_false. Qed.

Lemma transfer_size_exact rect :
  rect_exact rect -> rect_bytes rect < 2 ^ 32 -> transfer_size rect = rect_bytes rect /\ 0 <= rect_bytes rect.
Proof.
  intros (? & ? & ? & ? & _) Hb. unfold transfer_size, rect_bytes, GPU_BPP_2D in *.
  assert (0 <= gr_width rect * gr_height rect) by nia.
  rewrite (u32_small (gr_width rect * _)) by (unfold is_u32; lia). rewrite u32_small by (unfold is_u32; lia). lia.
Qed.

Lemma scanouts_contain_spec t d rect :
  rect_exact rect ->
  scanouts_contain t d rect = true <->
  (forall i, 0 <= i < GPU_MAX_SCANOUTS -> bs_active (blob_at t i d) = true ->
     rect_within (bs_width (blob_at t i d)) (bs_height (blob_at t i d)) rect).
Proof.
  intros He. unfold scanouts_contain. rewrite forallb_forall. setoid_rewrite <- list_elem_of_In.
  setoid_rewrite elem_of_seqZ. split; intros H i Hi.
  - intros Ha. specialize (H i ltac:(lia)). rewrite Ha in H. by apply rect_overlaps_within.
  - destruct (bs_active _) eqn:Ha; [|done]. cbn.
    apply rect_overlaps_within; [done|]. apply H; [lia|done].
Qed.

Lemma data_fits_exact config c off size :
  0 <= off -> 0 <= size -> off + size < 2 ^ 64 ->
  data_fits config c off size = true <-> off + size <= gc_data_size config (Z.of_nat c).
Proof. intros. unfold data_fits. rewrite u64_small by (unfold is_u64; lia). apply Z.leb_le. Qed.

(** Boolean tests of the code as propositions. *)
Ltac to_props :=
  repeat match goal with
  | H : negb _ = true |- _ => apply negb_true_iff in H
  | H : negb _ = false |- _ => apply negb_false_iff in H
  | H : (_ <? _) = false |- _ => apply Z.ltb_ge in H
  | H : (_ <=? _) = false |- _ => apply Z.leb_gt in H
  | H : (_ =? _) = true |- _ => apply Z.eqb_eq in H
  | H : _ || _ = false |- _ => apply orb_false_iff in H as []
  | H : (_ =? _) = false |- _ => apply Z.eqb_neq in H
  | H : bool_decide (is_Some _) = false |- _ => apply bool_decide_eq_false, eq_None_not_Some in H
  end.

Lemma gpu_decide_sound config c b b' t t' :
  body_exact b -> gpu_decide config c b t = (inr b', t') -> req_typed config t c b b'.
Proof.
  intros Hex. destruct b as [|r|r|r|r|r|r|r|r|r|]; cbn [gpu_decide body_exact] in *; unfold with_resource, decide_create, refuse;
    intros E; repeat match type of E with (match ?x with _ => _ end) = _ => destruct x eqn:? end;
    simplify_eq; to_props.
  - destruct Hex as (? & ? & ?). eapply ty_create_blob; try done. by apply data_fits_exact.
  - by apply ty_scanout_blob_off.
  - destruct Hex as (? & ? & ? & ?). apply ty_scanout_blob; try done; [|by apply rect_overlaps_within].
    rewrite (u32_small (sb_stride r * sb_height r)), u32_small in * by (unfold is_u32; lia). done.
  - by eapply ty_create_2d.
  - by apply ty_scanout_off.
  - apply ty_scanout; try done. by apply rect_overlaps_within.
  - destruct Hex as (? & ? & ?). apply ty_attach; try done. by apply data_fits_exact.
  - by apply ty_detach.
  - destruct Hex as (Hr & ? & Hb & ?). apply ty_transfer; try done; [by apply rect_overlaps_within|].
    destruct (transfer_size_exact _ Hr Hb) as [Ht ?]. rewrite Ht, u64_small in * by (unfold is_u64; lia). done.
  - destruct (rs_is_blob _) eqn:Eb; cbn [andb] in *; to_props.
    + apply ty_flush_blob; try done. by apply scanouts_contain_spec.
    + apply ty_flush_2d; try done. by apply rect_overlaps_within.
  - by apply ty_unref.
Qed.

Lemma gpu_decide_complete config c b b' t :
  body_exact b -> req_typed config t c b b' -> exists t', gpu_decide config c b t = (inr b', t').
Proof.
  intros Hex Ht. destruct Ht; cbn [gpu_decide body_exact] in *; unfold with_resource, decide_create, refuse;
    repeat match goal with
    | H : owned _ _ _ = _ |- _ => rewrite H
    | H : tb_free _ = _ |- _ => rewrite H
    | H : gc_blob_support _ = _ |- _ => rewrite H
    | H : rs_is_blob _ = _ |- _ => rewrite H
    | H : rs_has_backing _ = _ |- _ => rewrite H
    | H : _ < GPU_MAX_SCANOUTS |- _ => apply Z.leb_gt in H; rewrite H
    | H : _ <> 0 |- _ => apply Z.eqb_neq in H; rewrite H
    | H : sb_resource_id _ = 0 |- _ => apply Z.eqb_eq in H; rewrite H
    | H : ss_resource_id _ = 0 |- _ => apply Z.eqb_eq in H; rewrite H
    | H : owned _ _ ?v = Some _ |- context [?v =? 0] =>
        rewrite (proj2 (Z.eqb_neq v 0)) by (by eapply owned_some)
    end; cbn [negb andb orb bool_decide]; eauto.
  - destruct Hex as (? & ? & ?). assert (data_fits config c (cb_mem_offset r) (cb_mem_size r) = true) as -> by (by apply data_fits_exact).
    cbn. eauto.
  - destruct Hex as (? & ? & ? & Hr).
    rewrite (u32_small (sb_stride r * sb_height r)), u32_small by (unfold is_u32; lia).
    rewrite (proj2 (Z.ltb_ge _ _)), (proj2 (rect_overlaps_within _ _ _ Hr)) by done. cbn. eauto.
  - rewrite (proj2 (rect_overlaps_within _ _ _ Hex)) by done. cbn. eauto.
  - destruct Hex as (? & ? & ?). assert (data_fits config c (ab_mem_offset r) (ab_mem_size r) = true) as -> by (by apply data_fits_exact).
    cbn. eauto.
  - destruct Hex as (Hr & ? & Hb & ?). destruct (transfer_size_exact _ Hr Hb) as [Ht ?].
    rewrite (proj2 (rect_overlaps_within _ _ _ Hr)), Ht, u64_small by (done || unfold is_u64; lia).
    rewrite (proj2 (Z.ltb_ge _ _)) by done. cbn. eauto.
  - rewrite (proj2 (rect_overlaps_within _ _ _ Hex)) by done. cbn. eauto.
  - rewrite (proj2 (scanouts_contain_spec _ _ _ Hex)) by done. cbn. eauto.
Qed.

(** ** Memory *)

(** Memory that backs a resource lies in the data region of its owner. *)
Definition tb_typed (config : gpu_config) (t : gpu_tables) : Prop :=
  forall c v d, tb_owned t !! (c, v) = Some d -> rs_has_backing (res_at t d) = true ->
    0 <= rs_mem_offset (res_at t d) /\ 0 <= rs_mem_size (res_at t d) /\
    rs_mem_offset (res_at t d) + rs_mem_size (res_at t d) <= gc_data_size config (Z.of_nat c).

(** The part of the client's region that a request makes the driver access:
    offset and size. *)
Definition drv_range (t : gpu_tables) (b : gpu_req_body) : option (Z * Z) :=
  match b with
  | ResourceCreateBlob r => Some (cb_mem_offset r, cb_mem_size r)
  | ResourceAttachBacking r => Some (ab_mem_offset r, ab_mem_size r)
  | TransferTo2d r => Some (rs_mem_offset (res_at t (t2_resource_id r)) + t2_mem_offset r, rect_bytes (t2_rect r))
  | _ => None
  end.

Definition range_within (size : Z) (r : Z * Z) : Prop := 0 <= r.1 /\ 0 <= r.2 /\ r.1 + r.2 <= size.

Lemma typed_range config t c b b' r :
  tb_typed config t -> body_exact b -> req_typed config t c b b' -> drv_range t b' = Some r ->
  range_within (gc_data_size config (Z.of_nat c)) r.
Proof.
  intros Ht Hex Hty. destruct Hty; cbn [drv_range body_exact] in *; intros E; simplify_eq; unfold range_within; cbn [fst snd].
  - cbn. lia.
  - cbn. lia.
  - destruct Hex as (Hr & ? & Hb & ?). destruct (transfer_size_exact _ Hr Hb) as [_ ?].
    apply owned_some in H as [_ H]. cbn [t2_resource_id t2_mem_offset t2_rect] in *.
    destruct (Ht _ _ _ H ltac:(done)). lia.
Qed.

Lemma res_at_insert_eq t d r own fl bl :
  0 <= d < Z.of_nat (length (tb_res t)) -> res_at (mk_tables own fl (<[Z.to_nat d := r]> (tb_res t)) bl) d = r.
Proof. intros Hd. unfold res_at. cbn. apply list_lookup_total_insert_eq. lia. Qed.

Lemma res_at_insert_ne t d d' r own fl bl :
  0 <= d -> 0 <= d' -> d <> d' -> res_at (mk_tables own fl (<[Z.to_nat d := r]> (tb_res t)) bl) d' = res_at t d'.
Proof. intros ? ? ?. unfold res_at. cbn. apply list_lookup_total_insert_ne. lia. Qed.

(** A change of one resource that its owner [c] holds keeps the tables
    typed. *)
Lemma tb_typed_set config t c v d r own fl bl (t' := mk_tables own fl (<[Z.to_nat d := r]> (tb_res t)) bl) :
  tb_typed config t -> own_inv t' -> (Z.to_nat GPU_MAX_RESOURCES < length (tb_res t))%nat ->
  own !! (c, v) = Some d ->
  (forall k, k <> (c, v) -> own !! k = tb_owned t !! k) ->
  (rs_has_backing r = true ->
   0 <= rs_mem_offset r /\ 0 <= rs_mem_size r /\ rs_mem_offset r + rs_mem_size r <= gc_data_size config (Z.of_nat c)) ->
  tb_typed config t'.
Proof.
  intros Ht Hown Hlen Hcv Hother Hr c' v' d' Ho Hb. cbn [tb_owned t'] in Ho.
  destruct (oi_range _ Hown _ _ Hcv) as [Hd _]. destruct (oi_range _ Hown _ _ Ho) as [Hd' _].
  destruct (decide ((c', v') = (c, v))) as [E|Hne].
  - rewrite E in Ho. assert (d' = d) as -> by congruence. injection E as -> ->.
    subst t'. rewrite res_at_insert_eq in * by lia. auto.
  - assert (d <> d') as Hdd by (intros ->; apply Hne; by eapply (oi_inj _ Hown)).
    subst t'. rewrite res_at_insert_ne in * by lia. rewrite Hother in Ho by done. by eapply Ht.
Qed.

Lemma typed_tables config t c b b' t' :
  tb_typed config t -> own_inv t -> (Z.to_nat GPU_MAX_RESOURCES < length (tb_res t))%nat -> body_exact b ->
  gpu_decide config c b t = (inr b', t') -> tb_typed config t'.
Proof.
  intros Ht Hown Hlen Hex E. pose proof (gpu_decide_own_inv config c b t Hown) as Hown'. rewrite E in Hown'. cbn in Hown'.
  revert E. destruct b as [|r|r|r|r|r|r|r|r|r|]; cbn [gpu_decide body_exact] in *; unfold with_resource, decide_create, refuse;
    intros E; repeat match type of E with (match ?x with _ => _ end) = _ => destruct x eqn:? end;
    simplify_eq; to_props; try done.
  - destruct Hex as (? & ? & ?).
    eapply tb_typed_set; [done..|by apply lookup_insert_eq|by intros; apply lookup_insert_ne|].
    intros _. cbn. split_and!; try done. by apply data_fits_exact.
  - by eapply tb_typed_set; [..|by apply lookup_insert_eq|by intros; apply lookup_insert_ne|].
  - destruct Hex as (? & ? & ?). destruct (owned_some _ _ _ _ Heqo) as [_ Ho].
    eapply tb_typed_set; [done..|]. intros _. cbn. split_and!; try done. by apply data_fits_exact.
  - destruct (owned_some _ _ _ _ Heqo) as [_ Ho]. by eapply tb_typed_set.
  - intros c' v' d' Ho. set (t1 := if rs_is_blob _ then _ else _) in *.
    assert (tb_res t1 = tb_res t /\ tb_owned t1 = tb_owned t) as [Er Eo] by (subst t1; by case_match).
    cbn [tb_owned tb_drop] in Ho. rewrite Eo in Ho. apply lookup_delete_Some in Ho as [_ Ho].
    unfold res_at. cbn [tb_res tb_drop]. rewrite Er. by eapply Ht.
Qed.


