(* ===== verification/GpuSystem.v ===== *)
(** * The GPU virtualiser, its driver and its clients as a system

    Virtualiser, driver and clients take turns in any order.  Clients and driver
    touch their ends of the queues through the operations of the queues and keep
    the promises written into [gpu_step]; [gpu_system_safe] says what the
    virtualiser then guarantees. *)

From stdpp Require Import gmap.
From S2P Require Import Prelude Fifo RingQueue GpuQueue Ialloc Microkit GpuVirt GpuSpec GpuRel GpuClient GpuDriver.
From S2P Require Import GpuFlight GpuInit.

(** Where the requests in flight are: queued to the driver, held by the driver,
    or answered by it. *)
Definition flight (sp : gpu_spec) (held : list Z) : list Z :=
  map gq_id (sp_drvq sp) ++ held ++ map gp_id (sp_drvr sp).

Definition flies (config : gpu_config) (sp : gpu_spec) (held : list Z) : Prop :=
  flight_inv config sp (flight sp held).

Section flies.
Context (config : gpu_config).
Let n : nat := Z.to_nat (gc_num_clients config).

Lemma flies_flown sp sp' l held :
  flight_inv config sp' (l ++ flight sp held) -> flown sp sp' l -> flies config sp' held.
Proof.
  intros Hfl [Hq Hr _]. eapply flight_inv_perm; [|exact Hfl]. unfold flight. rewrite Hq, Hr.
  rewrite <- (app_assoc _ l). apply Permutation_app_swap_app.
Qed.

(** The components that the invariant does not speak of. *)
Lemma flight_inv_frame sp sp' fs :
  sp_clis sp' = sp_clis sp -> sp_tables sp' = sp_tables sp -> sp_ids sp' = sp_ids sp -> sp_bk sp' = sp_bk sp ->
  length (sp_display sp') = length (sp_display sp) -> length (sp_dmem sp') = length (sp_dmem sp) ->
  length (sp_mem sp') = length (sp_mem sp) -> flight_inv config sp fs -> flight_inv config sp' fs.
Proof.
  destruct sp as [cl q r t ids bk di pe tr de ini dm me ev], sp'. cbn. intros -> -> -> -> Hd Hm Hme [[] ? ? ? ? ? Hc].
  cbn in *. split; [split; cbn; rewrite ?Hd, ?Hm, ?Hme; done|done..|]. intros c Hcn. by destruct (Hc c Hcn); split.
Qed.

Lemma flies_emit sp l held : flies config sp held -> flies config (sp_emit l sp) held.
Proof. by apply flight_inv_frame. Qed.

Lemma serve_all_flies k c sp held :
  (c < n)%nat -> flies config sp held -> flies config (sp_serve_all config k c sp) held
  /\ sp_drvr (sp_serve_all config k c sp) = sp_drvr sp /\ sp_init (sp_serve_all config k c sp) = sp_init sp.
Proof.
  intros Hc. revert sp. induction k as [|k IH]; intros sp Hfl; cbn; [done|].
  destruct (sp_serve config c sp) as [sp'|] eqn:E; [|done].
  destruct (serve_flight config c sp sp' _ Hc Hfl E) as (l & Hfl' & Hflown).
  destruct (IH sp' (flies_flown _ _ _ _ Hfl' Hflown)) as (? & -> & ->). destruct Hflown as [_ -> ->]. done.
Qed.

Lemma client_flies c sp held :
  (c < n)%nat -> flies config sp held -> flies config (sp_client config c sp) held
  /\ sp_drvr (sp_client config c sp) = sp_drvr sp /\ sp_init (sp_client config c sp) = sp_init sp.
Proof.
  intros Hc Hfl. unfold sp_client.
  destruct (serve_all_flies (length (cv_reqs (sp_cli sp c))) c sp held Hc Hfl) as (? & ? & ?).
  case_bool_decide; [done|]. split_and!; [by apply flies_emit|done..].
Qed.

Lemma clients_flies sp held :
  flies config sp held -> flies config (sp_clients config sp) held /\ sp_init (sp_clients config sp) = sp_init sp.
Proof.
  intros Hfl. assert (forall m, (m <= n)%nat -> flies config (clients_upto config m sp) held /\
    sp_init (clients_upto config m sp) = sp_init sp) as H.
  { induction m as [|m IH]; intros Hm; [done|]. rewrite clients_upto_S. destruct IH as [IH Hi]; [lia|].
    destruct (client_flies m _ held ltac:(lia) IH) as (? & _ & ?). split; [done|congruence]. }
  destruct (H n ltac:(done)) as [H1 H2]. unfold sp_clients. fold (clients_upto config (Z.to_nat (gc_num_clients config)) sp).
  fold n. case_bool_decide; [done|]. split; [by apply flies_emit|done].
Qed.

Lemma flight_inv_drvr sp fs l : flight_inv config sp fs -> flight_inv config (set_sp_drvr l sp) fs.
Proof. by apply flight_inv_frame. Qed.

Lemma responses_flight l : forall sp notify fs,
  flight_inv config sp (map gp_id l ++ fs) -> length notify = n -> sp_drvr sp = l ->
  exists q, sp_responses config l sp notify = Some q /\ flight_inv config q.1 fs /\
    sp_drvq q.1 = sp_drvq sp /\ sp_drvr q.1 = [] /\ sp_init q.1 = sp_init sp.
Proof.
  induction l as [|r l IH]; intros sp notify fs Hfl Hnot Hd; cbn [sp_responses].
  - eexists. split; [done|]. done.
  - destruct (response_flight config r (set_sp_drvr l sp) notify (map gp_id l ++ fs)) as (q & Hq & Hfl' & Hn' & Hflown).
    { by apply flight_inv_drvr. } { done. }
    rewrite Hq. cbn [mbind option_bind].
    destruct (sp_response_inv config r (set_sp_drvr l sp) notify q) as (_ & _ & Hdr); [|done..|].
    { apply (flight_inv_drvr _ _ l) in Hfl. by apply Hfl. }
    assert (sp_drvq q.1 = sp_drvq sp) as Hdq by (by eapply sp_response_drvq in Hq).
    destruct (IH q.1 q.2 fs Hfl' Hn') as (q' & -> & ? & ? & ? & ?); [by rewrite Hdr|].
    exists q'. split_and!; [done..|congruence|done|]. destruct Hflown as [_ _ Hi]. cbn in Hi. congruence.
Qed.

Lemma ask_flies sp sp' held :
  flies config sp held -> sp_ask_display config sp = Some sp' -> flies config sp' held /\ sp_init sp' = sp_init sp.
Proof.
  intros Hfl E. destruct (ask_flight config sp sp' _ Hfl E) as (l & Hfl' & Hflown).
  split; [by eapply flies_flown|]. by destruct Hflown.
Qed.

Lemma prelude_flies sp held (sp1 := sp_announce config (sp_retry config sp)) :
  flies config sp held -> flies config sp1 held /\ sp_init sp1 = sp_init sp.
Proof.
  intros Hfl. assert (flies config (sp_retry config sp) held /\ sp_init (sp_retry config sp) = sp_init sp) as [Hfl1 Hi].
  { unfold sp_retry. destruct (sp_try sp); [|done]. destruct (sp_ask_display config sp) as [sp2|] eqn:E; [|done].
    destruct (ask_flies sp sp2 held Hfl E) as [? <-]. split; [by apply (flight_inv_frame sp2)|done]. }
  subst sp1. rewrite <- Hi. set (sp1 := sp_retry config sp) in *. clearbody sp1. unfold sp_announce.
  destruct (_ && _); [|done]. destruct (sp_ask_display config sp1) as [sp2|] eqn:E.
  - destruct (ask_flies sp1 sp2 held Hfl1 E) as [? <-]. split; [by apply (flight_inv_frame sp2)|done].
  - split; [by apply (flight_inv_frame sp1)|done].
Qed.

(** Responses to requests in flight are all handled. *)
Lemma driver_flies sp held :
  flies config sp held -> exists sp', sp_driver config sp = Some sp' /\ flies config sp' held /\ sp_init sp' = sp_init sp.
Proof.
  intros Hfl. destruct (prelude_flies sp held Hfl) as [Hfl1 Hi]. unfold sp_driver.
  set (sp1 := sp_announce config (sp_retry config sp)) in *.
  destruct (responses_flight (sp_drvr sp1) sp1 (replicate n false) (map gq_id (sp_drvq sp1) ++ held)) as (q & Hq & Hfl2 & Hdq & Hdr & Hi2).
  { eapply flight_inv_perm; [|exact Hfl1]. unfold flight. rewrite app_assoc. apply Permutation_app_comm. }
  { apply length_replicate. } { done. }
  fold n. rewrite Hq. cbn [mbind option_bind]. eexists. split; [done|]. split; [|cbn; congruence].
  unfold flies, flight. apply flight_inv_frame with (sp := q.1); try done. cbn [sp_emit set_sp_ev sp_drvq sp_drvr].
  rewrite Hdq, Hdr, app_nil_r. done.
Qed.

Lemma notified_flies ch sp held :
  flies config sp held -> sp_init sp = true ->
  exists sp', sp_notified config ch sp = Some sp' /\ flies config sp' held /\ sp_init sp' = true.
Proof.
  intros Hfl Hi. unfold sp_notified. rewrite Hi. destruct (ch =? DRIVER_CH).
  - destruct (driver_flies sp held Hfl) as (sp1 & -> & Hfl1 & Hi1). cbn [mbind option_bind]. eexists. split; [done|].
    destruct (clients_flies sp1 held Hfl1) as [? ->]. split; [done|congruence].
  - eexists. split; [done|]. destruct (clients_flies sp held Hfl) as [? ->]. done.
Qed.

(** Before the first display info the only request in flight is that of
    [init], whose identifier is not allocated. *)
Record boot_inv (sp : gpu_spec) (held : list Z) : Prop := {
  bi_flight : flight_inv config sp [];
  bi_request : flight sp held ≡ₚ [0];
  bi_ok : Forall (fun r => gp_status r = GPU_RESP_OK) (sp_drvr sp);
}.

Lemma first_flies sp held r l :
  boot_inv sp held -> sp_drvr sp = r :: l ->
  gp_id r = 0 /\ gp_status r = GPU_RESP_OK /\ held = [] /\ flies config (sp_first l sp) [].
Proof.
  intros [Hfl Hreq Hok] Er. rewrite Er in Hok. apply Forall_cons in Hok as [Hok _].
  unfold flight in Hreq. rewrite Er in Hreq. cbn [map] in Hreq.
  pose proof (Permutation_length Hreq) as Hlen. rewrite !length_app, length_map in Hlen. cbn in Hlen.
  destruct (sp_drvq sp) as [|? ?] eqn:Eq; [|cbn in Hlen; lia]. destruct held as [|? ?]; [|cbn in Hlen; lia].
  destruct l as [|? ?]; [|cbn in Hlen; lia]. cbn in Hreq. apply Permutation_singleton_inj in Hreq.
  split_and!; [done..|]. unfold flies, flight. cbn. rewrite Eq. cbn. eapply flight_inv_frame; [..|exact Hfl]; try done.
  cbn. rewrite length_take. destruct (fi_inv _ _ _ Hfl). lia.
Qed.

Lemma notified_boots ch sp held :
  boot_inv sp held -> sp_init sp = false ->
  exists sp', sp_notified config ch sp = Some sp' /\
    (sp' = sp \/ flies config sp' held /\ sp_init sp' = true).
Proof.
  intros Hb Hi. unfold sp_notified. rewrite Hi. destruct (ch =? DRIVER_CH); [|eexists; split; [done|by left]].
  destruct (sp_drvr sp) as [|r l] eqn:Er; [eexists; split; [done|by left]|].
  destruct (first_flies sp held r l Hb Er) as (-> & -> & -> & Hfl1). rewrite bool_decide_true by done. cbn [Z.eqb andb].
  destruct (driver_flies (sp_first l sp) [] Hfl1) as (sp2 & -> & Hfl2 & Hi2). cbn [mbind option_bind].
  eexists. split; [done|right]. destruct (clients_flies sp2 [] Hfl2) as [? ->]. split; [done|]. by rewrite Hi2.
Qed.
End flies.

(** ** The system *)

(** The virtualiser's state and the identifiers of the requests that the driver
    has taken and not answered. *)
Record gpu_system : Type := mk_gpu_system {
  gs_virt : gpu_virt;
  gs_held : list Z;
}.

Definition requests_at_driver (s : gpu_virt) (held : list Z) : list Z :=
  map gq_id (gpu_reqs (gv_drv_h s)) ++ held ++ map gp_id (gpu_resps (gv_drv_h s)).

(** The bookkeeping of the requests of client [c] among those. *)
Definition own_requests (s : gpu_virt) (held : list Z) (c : nat) : list gpu_reqbk :=
  filter (fun bk => gb_code bk <> GPU_REQ_GET_DISPLAY_INFO /\ gb_cli_id bk = Z.of_nat c)
    (map (fun id => gv_reqsbk s !!! Z.to_nat id) (requests_at_driver s held)).

(** What client [c] promises of a request it sends: its identifiers are in
    range, its response will find a place, and it destroys no resource whose
    creation has not been answered. *)
Record may_send (s : gpu_virt) (held : list Z) (c : nat) (h : gpu_queue_handle) (req : gpu_req) : Prop := {
  ms_body : body_ok (gq_body req);
  ms_credit : Z.of_nat (length (gpu_resps h) + length (gpu_reqs h) + length (own_requests s held c)) < gh_capacity h;
  ms_waits : forall v, req_unrefs req v ->
    (forall r, r ∈ gpu_reqs h -> ~ req_creates r v) /\
    (forall bk, bk ∈ own_requests s held c -> is_create (gb_code bk) = true -> gb_res_virt bk <> v);
}.

Inductive gpu_step (config : gpu_config) : gpu_system -> gpu_system -> Prop :=
(** The virtualiser handles a notification. *)
| gst_notified ch s s' held :
    notified config ch s = Ok (tt, s') ->
    gpu_step config (mk_gpu_system s held) (mk_gpu_system s' held)
(** A client sends a request, takes a response, clears its event, or writes its
    memory. *)
| gst_send s held c k req h' :
    gv_clients s !! c = Some k -> may_send s held c (gcl_queue_h k) req ->
    gpu_enqueue_req req (gcl_queue_h k) = Ok (0, h') ->
    gpu_step config (mk_gpu_system s held)
      (mk_gpu_system (set_gv_clients (<[c := set_gcl_queue_h h' k]> (gv_clients s)) s) held)
| gst_receive s held c k resp h' :
    gv_clients s !! c = Some k -> gpu_dequeue_resp (gcl_queue_h k) = Ok (Some resp, h') ->
    gpu_step config (mk_gpu_system s held)
      (mk_gpu_system (set_gv_clients (<[c := set_gcl_queue_h h' k]> (gv_clients s)) s) held)
| gst_seen s held c k :
    gv_clients s !! c = Some k ->
    gpu_step config (mk_gpu_system s held)
      (mk_gpu_system (set_gv_clients (<[c := set_gcl_event (gpu_events_clear_display_info (gcl_event k)) k]> (gv_clients s)) s) held)
| gst_write s held mem :
    length mem = length (gv_client_mem s) ->
    gpu_step config (mk_gpu_system s held) (mk_gpu_system (set_gv_client_mem mem s) held)
(** The driver takes a request, answers one that it has, raises its event, or
    writes the display info. *)
| gst_take s held req h' :
    gpu_dequeue_req (gv_drv_h s) = Ok (Some req, h') ->
    gpu_step config (mk_gpu_system s held) (mk_gpu_system (set_gv_drv_h h' s) (gq_id req :: held))
| gst_answer s held held' status id h' :
    held ≡ₚ id :: held' -> (gv_display_init s = false -> status = GPU_RESP_OK) ->
    gpu_enqueue_resp (mk_gpu_resp status id) (gv_drv_h s) = Ok (0, h') ->
    gpu_step config (mk_gpu_system s held) (mk_gpu_system (set_gv_drv_h h' s) held')
| gst_changed s held :
    gpu_step config (mk_gpu_system s held)
      (mk_gpu_system (set_gv_drv_event (gpu_events_set_display_info (gv_drv_event s)) s) held)
| gst_info s held mem :
    length mem = length (gv_driver_mem s) ->
    gpu_step config (mk_gpu_system s held) (mk_gpu_system (set_gv_driver_mem mem s) held).

(** The requests of a client, abstractly. *)
Lemma own_requests_spec config s sp held c :
  gpu_rel config s sp -> own_requests s held c = map (bk_of sp) (filter (owes sp c) (flight sp held)).
Proof.
  intros Hrel. unfold own_requests, requests_at_driver, flight.
  destruct (gl_drv _ _ _ Hrel) as [_ _ -> ->]. rewrite (gl_bk _ _ _ Hrel).
  change (fun id => sp_bk sp !!! Z.to_nat id) with (bk_of sp).
  set (l := map gq_id _ ++ _). clearbody l. induction l as [|id l IH]; [done|]. cbn [map]. rewrite !filter_cons. unfold owes at 1.
  destruct (decide _); cbn [map]; by rewrite IH.
Qed.

(** ** The invariant *)

Section system.
Context (config : gpu_config).
Let n : nat := Z.to_nat (gc_num_clients config).

(** Before the first display info no request is in flight but that of [init]. *)
Definition in_flight (sp : gpu_spec) (held : list Z) : list Z := if sp_init sp then flight sp held else [].

Record phase_inv (sp : gpu_spec) (held : list Z) : Prop := {
  ph_flight : flight_inv config sp (in_flight sp held);
  ph_boot : sp_init sp = false -> flight sp held ≡ₚ [0] /\ Forall (fun r => gp_status r = GPU_RESP_OK) (sp_drvr sp);
}.

Definition sys_inv (y : gpu_system) : Prop :=
  exists sp, gpu_rel config (gs_virt y) sp /\ phase_inv sp (gs_held y).

Lemma phase_flies sp held : phase_inv sp held -> sp_init sp = true -> flies config sp held.
Proof. intros [Hfl _] Hi. unfold in_flight in Hfl. by rewrite Hi in Hfl. Qed.

Lemma flies_phase sp held : flies config sp held -> sp_init sp = true -> phase_inv sp held.
Proof. intros Hfl Hi. split; [by unfold in_flight; rewrite Hi|congruence]. Qed.

Lemma phase_boots sp held : phase_inv sp held -> sp_init sp = false -> boot_inv config sp held.
Proof. intros [Hfl Hb] Hi. unfold in_flight in Hfl. rewrite Hi in Hfl. by destruct (Hb Hi); split. Qed.

(** A notification succeeds and keeps the invariant. *)
Lemma notified_sys ch s held :
  sys_inv (mk_gpu_system s held) ->
  exists s', notified config ch s = Ok (tt, s') /\ sys_inv (mk_gpu_system s' held).
Proof.
  intros (sp & Hrel & Hph). cbn in *. pose proof (fi_inv _ _ _ (ph_flight _ _ Hph)) as Hinv.
  assert (exists sp', sp_notified config ch sp = Some sp' /\ phase_inv sp' held) as (sp' & E & Hph').
  { destruct (sp_init sp) eqn:Hi.
    - destruct (notified_flies config ch sp held) as (sp' & E & Hfl & Hi'); [by apply phase_flies|done|].
      exists sp'. split; [done|]. by apply flies_phase.
    - destruct (notified_boots config ch sp held) as (sp' & E & [->|[Hfl Hi']]); [by apply phase_boots|done|..];
        eexists; (split; [done|]); [done|by apply flies_phase]. }
  assert (wp (notified config ch) s (fun _ s' => gpu_rel config s' sp' /\ sp_inv config sp')) as Hwp.
  { eapply gpu_notified_spec; [done..|]. intros sp1 [[Hi Ed]|[[_ ->]|(r & l & Hi & Er & Ed)]].
    - destruct (driver_flies config sp held) as (sp2 & E2 & Hfl & _); [by apply phase_flies|].
      assert (sp1 = sp2) as -> by congruence. by eapply flight_inv_clients_ok.
    - by eapply flight_inv_clients_ok, ph_flight.
    - destruct (first_flies config sp held r l) as (_ & _ & _ & Hfl); [by apply phase_boots|done|].
      destruct (driver_flies config _ _ Hfl) as (sp2 & E2 & Hfl2 & _).
      assert (sp1 = sp2) as -> by congruence. by eapply flight_inv_clients_ok. }
  apply wp_elim in Hwp as ([] & s' & Es & Hrel' & _). exists s'. split; [done|]. by exists sp'.
Qed.

(** Steps of the driver: the requests in flight change places. *)
Lemma driver_phase s held held' sp rq rp h' (sp' := set_sp_drvr rp (set_sp_drvq rq sp)) :
  gpu_rel config s sp -> phase_inv sp held -> gpu_holds h' (gc_drv_capacity config) rq rp ->
  map gq_id rq ++ held' ++ map gp_id rp ≡ₚ flight sp held ->
  (sp_init sp = false -> Forall (fun r => gp_status r = GPU_RESP_OK) rp) ->
  gpu_rel config (set_gv_drv_h h' s) sp' /\ phase_inv sp' held'.
Proof.
  intros Hrel [Hfl Hb] Hh Hp Hok. split; [by rel_tac Hrel|]. split; cbn.
  - eapply flight_inv_frame with (sp := sp); [done..|]. eapply flight_inv_perm; [|exact Hfl]. unfold in_flight.
    cbn. destruct (sp_init sp); [|done]. by rewrite <- Hp.
  - intros Hi. destruct (Hb Hi) as [<- _]. split; [exact Hp|auto].
Qed.

Lemma driver_sys s held held' sp rq rp h' :
  gpu_rel config s sp -> phase_inv sp held -> gpu_holds h' (gc_drv_capacity config) rq rp ->
  map gq_id rq ++ held' ++ map gp_id rp ≡ₚ flight sp held ->
  (sp_init sp = false -> Forall (fun r => gp_status r = GPU_RESP_OK) rp) ->
  sys_inv (mk_gpu_system (set_gv_drv_h h' s) held').
Proof. intros. eexists. by eapply driver_phase. Qed.

Lemma client_rel_at s sp c k :
  gpu_rel config s sp -> gv_clients s !! c = Some k ->
  (c < n)%nat /\ cli_rel config (tb_owned (sp_tables sp)) c k (sp_cli sp c).
Proof.
  intros Hrel Hk. assert (c < n)%nat as Hc by (subst n; rewrite <- (gl_len _ _ _ Hrel); by eapply lookup_lt_Some).
  split; [done|]. destruct (client_at config s sp Hrel c Hc) as (k2 & v & Hk2 & _ & <- & Hkv). congruence.
Qed.

(** Steps of a client. *)
Lemma client_phase s held sp c k k' v' (sp' := set_sp_clis (<[c := v']> (sp_clis sp)) sp) :
  gpu_rel config s sp -> phase_inv sp held -> gv_clients s !! c = Some k ->
  cli_rel config (tb_owned (sp_tables sp)) c k' v' ->
  (forall sp', (forall id, bk_of sp' id = bk_of sp id) -> sp_cli sp' c = v' ->
     client_ok config sp' (in_flight sp held) c) ->
  gpu_rel config (set_gv_clients (<[c := k']> (gv_clients s)) s) sp' /\ phase_inv sp' held.
Proof.
  intros Hrel [Hfl Hb] Hk Hkv Hok. assert (c < n)%nat as Hc by (subst n; rewrite <- (gl_len _ _ _ Hrel); by eapply lookup_lt_Some).
  pose proof (rel_client config s sp Hrel c k' v' _ Hc (fun _ _ _ => eq_refl) Hkv) as Hrel'. cbn beta zeta in Hrel'.
  rewrite (set_tables_same (set_sp_clis _ sp)) in Hrel'. split; [done|]. split; [|exact Hb].
  change (in_flight sp' held) with (in_flight sp held). destruct Hfl as [Hinv]. split; try done.
  - destruct Hinv. split; try done. subst sp'. cbn. by rewrite length_insert.
  - intros c' Hc'. destruct (decide (c' = c)) as [->|Hne].
    + apply Hok; [done|]. subst sp'. unfold sp_cli. cbn. apply list_lookup_total_insert_eq. by rewrite (gl_len_spec _ _ _ Hrel).
    + apply (client_ok_same config sp); [done| |auto]. subst sp'. unfold sp_cli. cbn. by apply list_lookup_total_insert_ne.
Qed.

Lemma client_sys s held sp c k k' v' :
  gpu_rel config s sp -> phase_inv sp held -> gv_clients s !! c = Some k ->
  cli_rel config (tb_owned (sp_tables sp)) c k' v' ->
  (forall sp', (forall id, bk_of sp' id = bk_of sp id) -> sp_cli sp' c = v' ->
     client_ok config sp' (in_flight sp held) c) ->
  sys_inv (mk_gpu_system (set_gv_clients (<[c := k']> (gv_clients s)) s) held).
Proof. intros. eexists. by eapply client_phase. Qed.

(** A client that keeps its promise. *)
Lemma sent_client s held sp c k req sp' (v := sp_cli sp c) :
  gpu_rel config s sp -> cli_rel config (tb_owned (sp_tables sp)) c k v ->
  client_ok config sp (in_flight sp held) c -> may_send s held c (gcl_queue_h k) req ->
  (forall id, bk_of sp' id = bk_of sp id) -> sp_cli sp' c = mk_cli_view (cv_reqs v ++ [req]) (cv_resps v) (cv_event v) ->
  client_ok config sp' (in_flight sp held) c.
Proof.
  intros Hrel Hkv [Hb Hc Hw] [Hbody Hcredit Hwaits] Hbk Hv. destruct (cr_queue _ _ _ _ _ Hkv) as [_ Hcap Hrq Hrp].
  rewrite Hcap, Hrq, Hrp, (own_requests_spec config s sp) in Hcredit by done.
  rewrite (own_requests_spec config s sp), Hrq in Hwaits by done.
  assert (same_bk sp sp' (in_flight sp held)) as Hsame by (intros ? _; apply Hbk).
  assert (forall id, id ∈ in_flight sp held -> id ∈ flight sp held) as Hsub
    by (unfold in_flight; destruct (sp_init sp); set_solver).
  assert (owed sp (in_flight sp held) c <= length (filter (owes sp c) (flight sp held)))%nat as Ho
    by (unfold owed, in_flight; destruct (sp_init sp); cbn; lia).
  split; rewrite ?Hv; cbn [cv_reqs cv_resps].
  - apply Forall_app. split; [done|]. by apply Forall_singleton.
  - rewrite (owed_same config sp sp') by done. rewrite length_app. rewrite length_map in Hcredit. cbn [length]. fold v in Hc, Hcredit. lia.
  - intros pre r post u E Hu. rewrite Hv in E. cbn [cv_reqs] in E.
    destruct post as [|r' post' _] using rev_ind.
    + apply app_inj_tail in E as [<- <-]. destruct (Hwaits u Hu) as [H1 H2]. split; [done|]. intros id Hid (Hcr & Hcli & Hres).
      rewrite Hbk in Hcr, Hcli, Hres. apply (H2 (bk_of sp id)); [|done..]. apply list_elem_of_fmap_2, list_elem_of_filter.
      split; [|auto]. split; [|done]. intros E. by rewrite E in Hcr.
    + rewrite app_comm_cons, app_assoc in E. apply app_inj_tail in E as [E _].
      destruct (Hw pre r post' u E Hu) as [H1 H2]. split; [done|]. intros id Hid Hcr. apply (H2 id Hid).
      unfold creating in *. by rewrite Hbk in Hcr.
Qed.

(** A client that has taken a response. *)
Lemma received_client held sp c resp l sp' (v := sp_cli sp c) :
  client_ok config sp (in_flight sp held) c -> cv_resps v = resp :: l ->
  (forall id, bk_of sp' id = bk_of sp id) -> sp_cli sp' c = mk_cli_view (cv_reqs v) l (cv_event v) ->
  client_ok config sp' (in_flight sp held) c.
Proof.
  intros Hok Er Hbk Hv. assert (same_bk sp sp' (in_flight sp held)) as Hsame by (intros ? _; apply Hbk).
  destruct Hok as [Hb Hc Hw]. fold v in Hb, Hc, Hw. rewrite Er in Hc. cbn [length] in Hc.
  split; rewrite ?Hv; cbn [cv_reqs cv_resps]; [done|rewrite (owed_same config sp sp') by done; lia|].
  intros pre r post u E Hu. rewrite Hv in E. destruct (Hw pre r post u E Hu) as [H1 H2]. split; [done|].
  intros id Hid Hcr. apply (H2 id Hid). unfold creating in *. by rewrite Hbk in Hcr.
Qed.

(** A component changes that the invariant does not speak of. *)
Lemma frame_sys s' sp sp' held :
  gpu_rel config s' sp' -> phase_inv sp held ->
  sp_clis sp' = sp_clis sp -> sp_tables sp' = sp_tables sp -> sp_ids sp' = sp_ids sp -> sp_bk sp' = sp_bk sp ->
  length (sp_display sp') = length (sp_display sp) -> length (sp_dmem sp') = length (sp_dmem sp) ->
  length (sp_mem sp') = length (sp_mem sp) -> sp_drvq sp' = sp_drvq sp -> sp_drvr sp' = sp_drvr sp ->
  sp_init sp' = sp_init sp -> sys_inv (mk_gpu_system s' held).
Proof.
  intros Hrel [Hfl Hb] ? ? ? ? ? ? ? Hq Hr Hi. exists sp'. split; [done|]. split.
  - apply (flight_inv_frame config sp); try done. unfold in_flight, flight. by rewrite Hi, Hq, Hr.
  - unfold flight. rewrite Hi, Hq, Hr. exact Hb.
Qed.

Lemma step_sys y y' : sys_inv y -> gpu_step config y y' -> sys_inv y'.
Proof.
  intros Hy Hstep. destruct Hstep as [ch s s' held E|s held c k req h' Hk Hms E|s held c k resp h' Hk E|s held c k Hk
    |s held mem Hlen|s held req h' E|s held held' status id h' Hp Hok E|s held|s held mem Hlen];
    [destruct (notified_sys ch s held Hy) as (s2 & E2 & H); congruence|..];
    destruct Hy as (sp & Hrel & Hph); cbn [gs_virt gs_held] in *.
  - destruct (client_rel_at s sp c k Hrel Hk) as [Hc Hkv].
    destruct (gpu_enqueue_req_inv _ _ _ _ (cr_queue _ _ _ _ _ Hkv) req h' E) as [_ Hh'].
    eapply (client_sys s held sp c k _ (mk_cli_view (cv_reqs (sp_cli sp c) ++ [req]) _ _)); [done..|destruct Hkv; split; [exact Hh'|done..]|].
    intros sp' Hbk Hv. eapply sent_client; [exact Hrel|exact Hkv|by apply Hph|done..].
  - destruct (client_rel_at s sp c k Hrel Hk) as [Hc Hkv].
    destruct (gpu_dequeue_resp_inv _ _ _ _ (cr_queue _ _ _ _ _ Hkv) resp h' E) as (l & Er & Hh').
    eapply (client_sys s held sp c k _ (mk_cli_view (cv_reqs (sp_cli sp c)) l _)); [done..|destruct Hkv; split; [exact Hh'|done..]|].
    intros sp' Hbk Hv. eapply received_client; [by apply Hph|done..].
  - destruct (client_rel_at s sp c k Hrel Hk) as [Hc Hkv]. set (v := sp_cli sp c) in *.
    eapply (client_sys s held sp c k _ (mk_cli_view (cv_reqs v) (cv_resps v) false)); [done..|by destruct Hkv; split|].
    intros sp' Hbk Hv. destruct (fi_clients _ _ _ (ph_flight _ _ Hph) c Hc) as [Hb Hcr Hw].
    assert (same_bk sp sp' (in_flight sp held)) as Hsame by (intros ? _; apply Hbk).
    split; rewrite ?Hv; [done|by rewrite (owed_same config sp sp')|]. intros pre r post u E Hu. rewrite Hv in E.
    destruct (Hw pre r post u E Hu) as [H1 H2]. split; [done|].
    intros id Hid H. apply (H2 id Hid). unfold creating in *. by rewrite Hbk in H.
  - rewrite (gl_mem _ _ _ Hrel) in Hlen. apply (frame_sys _ sp (set_sp_mem mem sp)); try done. by rel_tac Hrel.
  - destruct (gpu_dequeue_req_inv _ _ _ _ (gl_drv _ _ _ Hrel) req h' E) as (l & Er & Hh').
    eapply driver_sys; [done..| |by intros Hi; apply (ph_boot _ _ Hph Hi)].
    unfold flight. rewrite Er. cbn. by rewrite <- Permutation_middle.
  - destruct (gpu_enqueue_resp_inv _ _ _ _ (gl_drv _ _ _ Hrel) _ h' E) as [_ Hh'].
    rewrite (gl_init _ _ _ Hrel) in Hok. eapply driver_sys; [done..| |].
    + unfold flight. rewrite Hp, map_app. cbn. f_equiv. rewrite app_assoc, <- Permutation_cons_append. done.
    + intros Hi. apply Forall_app. split; [by apply (ph_boot _ _ Hph Hi)|]. apply Forall_singleton. auto.
  - apply (frame_sys _ sp (set_sp_drv_event true sp)); try done. by rel_tac Hrel.
  - rewrite (gl_dmem _ _ _ Hrel) in Hlen. apply (frame_sys _ sp (set_sp_dmem mem sp)); try done. by rel_tac Hrel.
Qed.

Lemma steps_sys y y' : rtc (gpu_step config) y y' -> sys_inv y -> sys_inv y'.
Proof. induction 1; [done|]. eauto using step_sys. Qed.

(** What the invariant says of a state. *)
Lemma sys_exclusive s held c c' k k' v v' d :
  sys_inv (mk_gpu_system s held) -> gv_clients s !! c = Some k -> gv_clients s !! c' = Some k' ->
  1 <= v <= GPU_MAX_RESOURCES -> 1 <= v' <= GPU_MAX_RESOURCES -> d <> UNMAPPED_RESOURCE_ID ->
  gcl_res_map k !! Z.to_nat v = Some d -> gcl_res_map k' !! Z.to_nat v' = Some d -> c = c' /\ v = v'.
Proof.
  intros (sp & Hrel & Hph) Hk Hk' Hv Hv' Hd E E'. cbn in *.
  destruct (client_rel_at s sp c k Hrel Hk) as [_ Hkv]. destruct (client_rel_at s sp c' k' Hrel Hk') as [_ Hkv'].
  rewrite (cr_map _ _ _ _ _ Hkv) in E by done. rewrite (cr_map _ _ _ _ _ Hkv') in E' by done.
  assert (forall key, Some (default UNMAPPED_RESOURCE_ID (tb_owned (sp_tables sp) !! key)) = Some d ->
            tb_owned (sp_tables sp) !! key = Some d) as H.
  { intros key. destruct (_ !! key); cbn; congruence. }
  pose proof (oi_inj _ (si_own _ _ (fi_inv _ _ _ (ph_flight _ _ Hph))) _ _ _ (H _ E) (H _ E')) as He. by injection He.
Qed.

Lemma sys_nodup s held : sys_inv (mk_gpu_system s held) -> NoDup (requests_at_driver s held).
Proof.
  intros (sp & Hrel & [Hfl Hb]). cbn in *. unfold requests_at_driver. destruct (gl_drv _ _ _ Hrel) as [_ _ -> ->].
  fold (flight sp held). unfold in_flight in Hfl. destruct (sp_init sp).
  - pose proof (NoDup_seqZ 0 (gc_drv_capacity config)) as Hnd. rewrite <- (fi_perm _ _ _ Hfl) in Hnd.
    by apply NoDup_app in Hnd as (_ & _ & ?).
  - destruct (Hb eq_refl) as [-> _]. apply NoDup_singleton.
Qed.

Lemma initial_flight s : gpu_start config s -> flight_inv config (sp_initial config s) [].
Proof.
  intros [[] Hcfg Hdis Hdm Hini]. unfold GPU_MAX_RESOURCES in *. split.
  - split; cbn; try done; [apply (sp_initial_own_inv config s)|by rewrite length_map|by apply NoDup_seqZ|].
    apply Forall_forall. intros d Hd%elem_of_seqZ. lia.
  - done.
  - by rewrite app_nil_r.
  - intros id Hid. by apply not_elem_of_nil in Hid.
  - intros id c v Hid. by apply not_elem_of_nil in Hid.
  - intros id id' c v Hid. by apply not_elem_of_nil in Hid.
  - intros c Hc. destruct (lookup_lt_is_Some_2 (gv_clients s) c) as [k Hk]; [rewrite gb_clients; done|].
    destruct (gb_client c k Hk) as [Hh _]. apply gpu_holds_bounded in Hh as [Hcap _].
    assert (sp_cli (sp_initial config s) c = mk_cli_view [] [] (gcl_event k)) as Hv.
    { unfold sp_cli. cbn. apply list_lookup_total_correct. by rewrite list_lookup_fmap, Hk. }
    split; rewrite ?Hv; [done|cbn in *; lia|]. intros pre r post v E. rewrite Hv in E. by destruct pre.
Qed.

Lemma initial_sys s s1 : gpu_start config s -> gpu_rel config s1 (sp_initial config s) -> sys_inv (mk_gpu_system s1 []).
Proof.
  intros Hs Hrel. pose proof (initial_flight s Hs) as Hfl. exists (sp_initial config s). split; [done|].
  split; unfold in_flight; cbn [sp_init sp_initial]; by rewrite (st_init _ _ Hs).
Qed.
End system.

(** C2. Safety of the GPU virtualiser in its environment.  From the static
    zeroes [init] succeeds, and after any interleaving of notifications with
    steps of clients and of the driver, as long as clients keep the promises of
    [may_send] and the driver answers the requests it was given and the first
    one with success: no notification faults, by an assertion or an access out
    of bounds; a resource of the driver belongs to one client under one
    identifier; and no two requests at the driver have the same identifier. *)
Theorem gpu_system_safe (config : gpu_config) (s0 : gpu_virt) :
  gpu_start config s0 ->
  exists s1, init config s0 = Ok (tt, s1) /\ forall s held,
    rtc (gpu_step config) (mk_gpu_system s1 []) (mk_gpu_system s held) ->
    (forall ch, exists s', notified config ch s = Ok (tt, s')) /\
    (forall c c' k k' v v' d, gv_clients s !! c = Some k -> gv_clients s !! c' = Some k' ->
       1 <= v <= GPU_MAX_RESOURCES -> 1 <= v' <= GPU_MAX_RESOURCES -> d <> UNMAPPED_RESOURCE_ID ->
       gcl_res_map k !! Z.to_nat v = Some d -> gcl_res_map k' !! Z.to_nat v' = Some d -> c = c' /\ v = v') /\
    NoDup (requests_at_driver s held).
Proof.
  intros Hs. assert (wp (init config) s0 (fun _ s1 => sys_inv config (mk_gpu_system s1 []))) as H.
  { apply gpu_init_spec; [by destruct Hs|]. intros s1. by apply initial_sys. }
  apply wp_elim in H as ([] & s1 & E & H1). exists s1. split; [done|]. intros s held Hsteps.
  apply (steps_sys config _ _ Hsteps) in H1. split_and!.
  - intros ch. destruct (notified_sys config ch s held H1) as (s' & ? & _). eauto.
  - intros. by eapply sys_exclusive.
  - by eapply sys_nodup.
Qed.

Lemma gpu_system_safe_witness :
  exists s1, init duo_config duo_start = Ok (tt, s1) /\ forall ch, exists s', notified duo_config ch s1 = Ok (tt, s').
Proof.
  destruct (gpu_system_safe duo_config duo_start duo_gpu_start) as (s1 & E & H). exists s1. split; [exact E|].
  intros ch. by apply (H s1 [] (rtc_refl _ _)).
Defined.
