(* ===== verification/GpuCorrect.v ===== *)
(** * The GPU virtualiser: what its handlers do

    The handlers against the specification, in states where the parties keep
    their promises: requests are served as [sp_clients] says and none is left
    that could be, responses as [sp_driver] says.  And a fault: a creation that
    fails after the client destroyed the resource. *)

From stdpp Require Import gmap.
From S2P Require Import Prelude Fifo RingQueue GpuQueue Ialloc Microkit GpuVirt GpuSpec GpuRel GpuClient GpuDriver.
From S2P Require Import GpuFlight GpuInit GpuSystem.

(** C18. The requests of the clients.  In a state that stands for an abstract one
    where the parties have kept their promises, [handle_clients] succeeds and
    does what [sp_clients] says: requests are taken in order, checked,
    translated and passed to the driver under a free identifier or answered with
    the reason for refusing them; the promises still hold; and afterwards no
    client has a request left, unless the identifiers or the places in the
    driver's queue have run out. *)
Theorem gpu_requests_refine (config : gpu_config) (s : gpu_virt) (sp : gpu_spec) (held : list Z) :
  gpu_rel config s sp -> flies config sp held ->
  exists s', handle_clients config s = Ok (tt, s') /\ gpu_rel config s' (sp_clients config sp) /\
    flies config (sp_clients config sp) held /\
    ((forall c, (c < Z.to_nat (gc_num_clients config))%nat -> cv_reqs (sp_cli (sp_clients config sp) c) = []) \/
     blocked config (sp_clients config sp)).
Proof.
  intros Hrel Hfl. pose proof (fi_inv _ _ _ Hfl) as Hinv. pose proof (flight_inv_clients_ok _ _ _ Hfl) as Hok.
  destruct (wp_elim _ _ _ (gpu_handle_clients_spec config s sp Hrel Hinv Hok)) as ([] & s' & E & Hrel' & _).
  exists s'. split_and!; [done..|by apply clients_flies|by apply sp_clients_done].
Qed.

(** C19. The responses of the driver.  In such a state [handle_driver] succeeds
    and does what [sp_driver] says: it asks for display info if that is due,
    settles each response in order, forwards it to the client that asked under
    the client's identifier, undoes a failed creation, publishes new display
    info, and drops responses that answer nothing; the promises still hold and
    no response is left. *)
Theorem gpu_responses_refine (config : gpu_config) (s : gpu_virt) (sp : gpu_spec) (held : list Z) :
  gpu_rel config s sp -> flies config sp held ->
  exists sp' s', sp_driver config sp = Some sp' /\ handle_driver config s = Ok (tt, s') /\ gpu_rel config s' sp' /\
    flies config sp' held /\ sp_drvr sp' = [].
Proof.
  intros Hrel Hfl. destruct (driver_flies config sp held Hfl) as (sp' & E & Hfl' & _). exists sp'.
  destruct (wp_elim _ _ _ (gpu_handle_driver_spec config s sp sp' Hrel (fi_inv _ _ _ Hfl) E)) as ([] & s' & Es & Hrel' & _ & Hd).
  by exists s'.
Qed.

(** ** A creation that fails too late *)

Section late.
Context (config : gpu_config).

Lemma undo_create_fault s sp bk c :
  gpu_rel config s sp -> (c < Z.to_nat (gc_num_clients config))%nat -> gb_cli_id bk = Z.of_nat c ->
  1 <= gb_res_virt bk <= GPU_MAX_RESOURCES -> tb_owned (sp_tables sp) !! (c, gb_res_virt bk) = None ->
  undo_create bk s = Fault AssertFail.
Proof.
  intros Hrel Hc Hcli Hv Hnone. unfold undo_create. rewrite Hcli.
  apply (wp_then_fault _ _ _ _ (fun d s' => d = UNMAPPED_RESOURCE_ID /\ s' = s)).
  { eapply res_map_spec; [done..|]. by rewrite Hnone. }
  intros d s' [-> ->]. apply (wp_then_fault _ _ _ _ (fun err _ => err = -1)).
  - unfold on_res_ialloc. wp_step. destruct (gl_res_ia _ _ _ Hrel) as [Hwf Ho Hs].
    eapply wp_mono; [eapply ialloc_free_refused_spec; [done|]|by intros err ia' [-> _]].
    right; left. rewrite Ho, Hs. done.
  - intros err s' ->. by apply bind_fault.
Qed.

Lemma settle_fault s sp bk c status :
  gpu_rel config s sp -> (c < Z.to_nat (gc_num_clients config))%nat -> gb_cli_id bk = Z.of_nat c ->
  1 <= gb_res_virt bk <= GPU_MAX_RESOURCES -> tb_owned (sp_tables sp) !! (c, gb_res_virt bk) = None ->
  is_create (gb_code bk) = true -> status <> GPU_RESP_OK -> settle config bk status s = Fault AssertFail.
Proof.
  intros Hrel Hc Hcli Hv Hnone Hcr Hst. pose proof (undo_create_fault s sp bk c Hrel Hc Hcli Hv Hnone) as Hu.
  unfold settle. rewrite bool_decide_false by done. cbn [negb when].
  destruct (gb_code bk); try done. destruct (gc_blob_support config); [|done]. by apply bind_fault.
Qed.
End late.

(** The first response of the driver reports the failure of a creation, and
    the client has already destroyed the resource, which the code accepts while
    the creation is under way: [handle_driver] then fails an assertion, so that
    a client that breaks the promise of [may_send] can stop the virtualiser for
    all clients. *)
Theorem gpu_late_failure_asserts (config : gpu_config) (s : gpu_virt) (sp : gpu_spec) (c : nat) (r : gpu_resp)
  (l : list gpu_resp) (bk := sp_bk sp !!! Z.to_nat (gp_id r)) :
  gpu_rel config s sp -> sp_try sp = false -> sp_drv_event sp = false ->
  sp_drvr sp = r :: l -> 0 <= gp_id r < gc_drv_capacity config -> gp_id r ∉ sp_ids sp ->
  is_create (gb_code bk) = true -> (c < Z.to_nat (gc_num_clients config))%nat -> gb_cli_id bk = Z.of_nat c ->
  1 <= gb_res_virt bk <= GPU_MAX_RESOURCES -> tb_owned (sp_tables sp) !! (c, gb_res_virt bk) = None ->
  gp_status r <> GPU_RESP_OK ->
  handle_driver config s = Fault AssertFail.
Proof.
  intros Hrel Htry Hev Hr Hid Hfree Hcr Hc Hcli Hv Hnone Hst.
  assert (handle_driver_body config (s, replicate (Z.to_nat (gc_num_clients config)) false) = Fault AssertFail) as Hbody.
  { unfold handle_driver_body.
    apply (wp_then_fault _ _ _ _ (fun o p => o = Some r /\ gpu_rel config p.1 (set_sp_drvr l sp))).
    { wp_step. eapply (on_drv_h_spec _ _ _ Hrel). intros Hh. eapply gpu_dequeue_resp_spec; [done..|].
      intros h Hh'. do 2 eexists. split; [done|]. intros s1 Hs1. done. }
    intros o [s1 n1] [-> Hs1]. cbn [fst] in Hs1. erewrite (bind_ok get) by done.
    pose proof (al_in_use _ _ _ _ (gl_req_ia _ _ _ Hs1) (gp_id r) ltac:(lia) Hfree) as Hu. cbn [fst].
    erewrite bind_ok by (unfold lift; by rewrite Hu). cbn [negb].
    assert (load (gv_reqsbk s1) (gp_id r) = Ok bk) as Hl.
    { rewrite (gl_bk _ _ _ Hs1). apply load_ok; [lia|].
      apply (lookup_total_in _ (gc_drv_capacity config)); [|done]. by apply Hrel. }
    erewrite bind_ok by (unfold lift; by rewrite Hl).
    rewrite bool_decide_false by (intros E; by rewrite E in Hcr).
    apply bind_fault, on_state_fault. by eapply (settle_fault config _ (set_sp_drvr l sp)). }
  unfold handle_driver.
  erewrite bind_ok.
  2: { unfold retry_display_info, event_display_info, with_local, mbind, M_bind, get. cbn [fst].
       rewrite (gl_try _ _ _ Hrel), Htry. cbn [when]. unfold mret, M_ret. cbn [fst].
       rewrite (gl_drv_event _ _ _ Hrel), Hev. cbn. done. }
  apply bind_fault, with_local_fault, loop_fault; [| |exact Hbody].
  - rewrite (drv_resps_length_spec config s sp), Hr by done. cbn. lia.
  - rewrite (drv_resps_more_spec config s sp), Hr by done. done.
Qed.

(** ** Examples in the system of two clients *)

(** After the first display info, and with a request of client 0 that creates a
    picture. *)
Definition duo_ready (s1 : gpu_virt) : gpu_virt := set_gv_display_init true (set_gv_drv_h duo_queue s1).
Definition duo_spec : gpu_spec := sp_first [] (set_sp_drvq [] (sp_initial duo_config duo_start)).
Definition duo_request : gpu_req := mk_gpu_req 9 (ResourceCreate2d (mk_create_2d 7 64 32 1)).

Lemma duo_queue_holds : gpu_holds duo_queue 4 [] [].
Proof. apply (gpu_holds_zero 4); [lia|lia|by exists (2 ^ 30)]. Qed.

Lemma duo_ready_rel s1 :
  gpu_rel duo_config s1 (sp_initial duo_config duo_start) -> gpu_rel duo_config (duo_ready s1) duo_spec.
Proof. intros Hrel. pose proof duo_queue_holds. unfold duo_ready, duo_spec, sp_first. by rel_tac Hrel. Qed.

Lemma duo_flies : flies duo_config duo_spec [].
Proof.
  set (r := mk_gpu_resp GPU_RESP_OK 0). set (sp := set_sp_drvr [r] (set_sp_drvq [] (sp_initial duo_config duo_start))).
  destruct (first_flies duo_config sp [] r []) as (_ & _ & _ & Hfl); [|done|exact Hfl]. split.
  - by apply (flight_inv_frame duo_config (sp_initial duo_config duo_start)), initial_flight, duo_gpu_start.
  - done.
  - by apply Forall_singleton.
Qed.

(** A request of client 0 in its queue. *)
Lemma duo_busy s1 :
  gpu_rel duo_config s1 (sp_initial duo_config duo_start) ->
  exists s, gpu_rel duo_config s (set_sp_clis (<[0%nat := mk_cli_view [duo_request] [] false]> (sp_clis duo_spec)) duo_spec)
    /\ flies duo_config (set_sp_clis (<[0%nat := mk_cli_view [duo_request] [] false]> (sp_clis duo_spec)) duo_spec) [].
Proof.
  intros Hrel%duo_ready_rel. set (s := duo_ready s1) in *.
  destruct (client_at duo_config s duo_spec Hrel 0) as (k & v & Hk & Hv & _ & Hkv); [cbn; lia|].
  injection Hv as <-. destruct (wp_elim _ _ _ (gpu_enqueue_req_spec _ _ _ _ (cr_queue _ _ _ _ _ Hkv) duo_request
     (fun _ h => gpu_holds h 4 [duo_request] []) ltac:(cbn; lia) ltac:(done))) as (? & h & _ & Hh).
  destruct (client_phase duo_config s [] duo_spec 0 k (set_gcl_queue_h h k) (mk_cli_view [duo_request] [] false)) as [Hrel' Hph];
    [done|by apply flies_phase; [apply duo_flies|]|done|by destruct Hkv; split| |].
  - intros sp' _ E. split; rewrite ?E.
    + apply Forall_singleton. split; cbn; unfold GPU_MAX_RESOURCES; (lia || done).
    + cbn. lia.
    + intros pre req post u Er [Hu _]. rewrite E in Er. destruct pre as [|? [|? ?]]; [injection Er as <-|done..]. done.
  - eexists. split; [exact Hrel'|]. by apply phase_flies.
Qed.

Lemma gpu_requests_refine_witness : exists s s' sp',
  gpu_rel duo_config s sp' /\ handle_clients duo_config s = Ok (tt, s') /\
  gpu_reqs (gv_drv_h s') = [mk_gpu_req 0 (ResourceCreate2d (mk_create_2d 1 64 32 1))].
Proof.
  destruct duo_initial as (s1 & _ & Hrel). destruct (duo_busy s1 Hrel) as (s & Hs & Hfl).
  destruct (gpu_requests_refine duo_config s _ [] Hs Hfl) as (s' & E & Hs' & _). exists s, s'. eexists. split; [exact Hs|].
  split; [exact E|]. by rewrite (gho_reqs _ _ _ _ (gl_drv _ _ _ Hs')).
Defined.

(** The state in which the driver has answered that request. *)
Definition duo_answered (status : gpu_resp_status) : gpu_spec :=
  set_sp_drvr [mk_gpu_resp status 0] (set_sp_drvq []
    (sp_clients duo_config (set_sp_clis (<[0%nat := mk_cli_view [duo_request] [] false]> (sp_clis duo_spec)) duo_spec))).

Lemma driver_answers config s sp r h :
  gpu_rel config s sp -> flies config sp [] -> sp_init sp = true -> map gq_id (sp_drvq sp) ++ map gp_id (sp_drvr sp) = [gp_id r] ->
  gpu_holds h (gc_drv_capacity config) [] [r] ->
  exists s', gpu_rel config s' (set_sp_drvr [r] (set_sp_drvq [] sp)) /\ flies config (set_sp_drvr [r] (set_sp_drvq [] sp)) [].
Proof.
  intros Hrel Hfl Hi Hr Hh.
  destruct (driver_phase config s [] [] sp [] [r] h Hrel (flies_phase _ _ _ Hfl Hi) Hh) as [Hrel' Hph].
  - unfold flight. cbn. by rewrite Hr.
  - congruence.
  - eexists. split; [exact Hrel'|]. by apply phase_flies.
Qed.

Lemma duo_answers status s1 :
  gpu_rel duo_config s1 (sp_initial duo_config duo_start) ->
  exists s, gpu_rel duo_config s (duo_answered status) /\ flies duo_config (duo_answered status) [].
Proof.
  intros Hrel. destruct (duo_busy s1 Hrel) as (s & Hs & Hfl).
  destruct (wp_elim _ _ _ (gpu_handle_clients_spec _ _ _ Hs (fi_inv _ _ _ Hfl) (flight_inv_clients_ok _ _ _ Hfl)))
    as ([] & s' & _ & Hs' & _).
  destruct (clients_flies duo_config _ [] Hfl) as [Hfl' _].
  destruct (wp_elim _ _ _ (gpu_enqueue_resp_spec _ _ _ _ duo_queue_holds (mk_gpu_resp status 0)
     (fun _ h => gpu_holds h 4 [] [mk_gpu_resp status 0]) ltac:(cbn; lia) ltac:(done))) as (? & h & _ & Hh).
  refine (driver_answers duo_config s' _ (mk_gpu_resp status 0) h Hs' Hfl' _ _ Hh); vm_compute; reflexivity.
Qed.

Lemma gpu_responses_refine_witness : exists s s',
  handle_driver duo_config s = Ok (tt, s') /\
  exists k, gv_clients s' !! 0%nat = Some k /\ gpu_resps (gcl_queue_h k) = [mk_gpu_resp GPU_RESP_OK 9].
Proof.
  destruct duo_initial as (s1 & _ & Hrel). destruct (duo_answers GPU_RESP_OK s1 Hrel) as (s & Hs & Hfl).
  destruct (gpu_responses_refine duo_config s _ [] Hs Hfl) as (sp' & s' & E & Es & Hs' & _ & _).
  exists s, s'. split; [exact Es|]. destruct (client_at duo_config s' sp' Hs' 0) as (k & v & Hk & _ & Hv & Hkv); [cbn; lia|].
  exists k. split; [done|]. rewrite (gho_resps _ _ _ _ (cr_queue _ _ _ _ _ Hkv)). rewrite <- Hv.
  assert (option_map (fun sp => cv_resps (sp_cli sp 0)) (sp_driver duo_config (duo_answered GPU_RESP_OK)) = Some [mk_gpu_resp GPU_RESP_OK 9]) as Hr by by vm_compute.
  rewrite E in Hr. by injection Hr.
Defined.

(** The driver reports a failure and the client has meanwhile destroyed the
    picture. *)
Definition duo_late : gpu_spec :=
  let t := sp_tables (duo_answered GPU_RESP_ERR_UNSPEC) in
  set_sp_tables (mk_tables ∅ (tb_free t) (tb_res t) (tb_blobs t)) (duo_answered GPU_RESP_ERR_UNSPEC).

Lemma gpu_late_failure_asserts_witness : exists s, handle_driver duo_config s = Fault AssertFail.
Proof.
  destruct duo_initial as (s1 & _ & Hrel). destruct (duo_answers GPU_RESP_ERR_UNSPEC s1 Hrel) as (s & Hs & _).
  assert (wp (set_res_map 0 7 UNMAPPED_RESOURCE_ID) s (fun _ s' => gpu_rel duo_config s' duo_late)) as H.
  { apply (set_res_map_spec duo_config s _ Hs 0 7 _ ∅); [cbn; lia|by unfold GPU_MAX_RESOURCES|done| |done].
    intros k Hk. rewrite lookup_empty. symmetry. change (tb_owned _) with (<[(0%nat, 7) := 1]> (∅ : gmap (nat * Z) Z)).
    by rewrite lookup_insert_ne, lookup_empty. }
  apply wp_elim in H as (? & s2 & _ & Hs2). exists s2.
  apply (gpu_late_failure_asserts duo_config s2 duo_late 0 (mk_gpu_resp GPU_RESP_ERR_UNSPEC 0) []); [exact Hs2|try (by vm_compute)..]; [|cbn; lia].
  assert (sp_ids duo_late = [1; 2; 3]) as -> by by vm_compute. set_solver by lia.
Defined.

(** The driver takes the next request, or answers a request. *)
Definition duo_driver_take : M gpu_virt unit := on_drv_h gpu_dequeue_req;; mret tt.
Definition duo_driver_answer (status : gpu_resp_status) (id : Z) : M gpu_virt unit :=
  on_drv_h (gpu_enqueue_resp (mk_gpu_resp status id));; mret tt.
Definition duo_send (cli : Z) (req : gpu_req) : M gpu_virt unit := on_cli_h cli (gpu_enqueue_req req);; mret tt.
Definition duo_up : M gpu_virt unit :=
  init duo_config;; duo_driver_take;; duo_driver_answer GPU_RESP_OK 0;; notified duo_config DRIVER_CH.

(** The run up to the fault: creation and destruction of a picture before the
    driver reports that the creation failed. *)
Example duo_create_unref_stops :
  (duo_up;; duo_send 0 duo_request;; duo_send 0 (mk_gpu_req 10 (ResourceUnref (mk_resource_unref 7)));;
   notified duo_config CLI_CH_OFFSET;; duo_driver_take;; duo_driver_answer GPU_RESP_ERR_UNSPEC 0;;
   notified duo_config DRIVER_CH) duo_start = Fault AssertFail.
Proof. vm_compute. reflexivity. Qed.

(** A resource identifier beyond the table is used as an index into it. *)
Example duo_large_resource_out_of_bounds :
  (duo_up;; duo_send 1 (mk_gpu_req 9 (ResourceCreate2d (mk_create_2d (GPU_MAX_RESOURCES + 1) 64 32 1)));;
   notified duo_config (CLI_CH_OFFSET + 1)) duo_start = Fault OutOfBounds.
Proof. vm_compute. reflexivity. Qed.

(** An offset that wraps makes the answer to a request for display info land
    outside the region of the client that asked, here in that of client 0. *)
Example duo_display_info_outside :
  exists s', (duo_up;; duo_send 1 (mk_gpu_req 9 (GetDisplayInfo (mk_get_display_info (2 ^ 64 - 200))));;
   modify (fun s => set_gv_client_mem (replicate 2048 7) s);;
   notified duo_config (CLI_CH_OFFSET + 1)) duo_start = Ok (tt, s') /\ gv_client_mem s' !! 824%nat = Some 0.
Proof. vm_compute. eexists. split; reflexivity. Qed.
